(* ===== verification/_CoqProject ===== *)
-Q . S2P
Prelude.v
Bits.v
Float8.v
Queue.v
DList.v
Arbiter.v
ArbiterDispatch.v
ArbiterProperties.v
Address.v
AddressFormat.v
AddressRoundtrip.v
FragList.v
PtrArray.v
PgTable.v
TagMatch.v
Iov.v
TagEager.v
Stream.v
StreamInvariant.v
StreamProperties.v
StreamSend.v
Timer.v
MmFifo.v
MmSystem.v
MmReceive.v
MmProperties.v
MmFailures.v
Ud.v
UdEndpoint.v
UdPair.v
UdLive.v
UdPurge.v
