(* ===== verification/Prelude.v ===== *)
(** * Verification of parts of UCX (the hucx fork)

    UCX is a communication library.  UCP gives applications tagged messages,
    streams and remote memory; it drives transports (UCT) such as InfiniBand
    datagrams or shared memory; both are built on the services of UCS: data
    structures, timers, bit operations.  The development models parts of the three
    layers, from the data structures up to messages and streams of UCP, of UCT over
    a network that loses packets or over memory that processes share, and to the
    addresses by which workers connect.
    Names are those of the C code, and paths are below [src/src].

    ** How the code is modelled

    - An integer of the code is a [Z]; where its width matters the wrap-around is
      written: [u16 x] is [x mod 2 ^ 16], [s_wrap w x] the signed value.
    - A function of the code is a function that takes the state and returns the new
      one.  A failed assertion, a fatal error or an access outside of an object is
      [None] of the option monad ([x ← c; k]); an error status is a value.  Theorems
      that say that an operation returns [Some] thus say that no assertion fails.
    - Intrusive queues are lists in the components that use them; [Queue] has them
      as pointers in memory and relates the two.
    - A loop that is not structural is [loop]/[while] of this file, with fuel for
      [2 ^ 64] iterations; [while_ok] turns a decreasing measure into a proof that the
      fuel is enough.  Other fuel is given by the data: 65 steps for the bits of a
      word, the length of the array for a walk along its free list, 17 for the
      levels of a page table over 64 bits; in each case the theorems show
      that the result is reached, not only that it is right when it is reached.
    - What the operating system, the device, the clock, a callback of the user or the
      memory allocator answers is an argument of the step.

    ** The parts

    - [Prelude]: this file.  Machine integers, the status codes of
      [ucs/type/status.h], loops, bytes, and lemmas and tactics that the parts share.
    - [Bits]: [ucs/arch/bitops.h], [ucs/arch/aarch64/bitops.h], [ucs/sys/math.h].
    - [Queue]: [ucs/datastruct/queue.h] on linked memory.
    - [FragList]: [ucs/datastruct/frag_list.c], the list that puts packets with 16-bit
      numbers in order.
    - [PtrArray]: [ucs/datastruct/ptr_array.c], the sparse array with its free list and
      skip counts in the words of the array.
    - [PgTable]: [ucs/datastruct/pgtable.c], the radix tree from addresses to regions.
    - [DList], [Arbiter], [ArbiterDispatch], [ArbiterProperties]: the arbiter that serves
      groups of pending operations in turns ([ucs/datastruct/arbiter.c]), with its rings
      of elements and with the doubly linked list of [ucs/datastruct/list.h] ([DList]) as
      pointers in memory; callbacks are lists of operations on the arbiter.
    - [Float8]: [ucs/type/float8.h], numbers packed into 8 bits, with [double] and [float]
      as IEEE 754 has them.
    - [Address], [AddressFormat], [AddressRoundtrip]: worker addresses
      ([ucp/wireup/address.c]).  [Address] packs and unpacks byte by byte, with the
      flags that are added to bytes already written; [AddressFormat] has the bytes of an
      address as a function of the worker, and that packing writes them;
      [AddressRoundtrip] what unpacking reads.
    - [Stream], [StreamInvariant], [StreamProperties], [StreamSend]: the streams of
      endpoints ([ucp/stream]).  [Stream] is the receive side: one queue per endpoint
      that holds requests or descriptors with data, the memory of the descriptors, and
      callbacks as the calls they make; it stores data by the unpacking of [TagEager].
      [StreamInvariant] has the invariant that the operations keep, [StreamProperties]
      the runs of a worker, and [StreamSend] the send side and both sides together.
    - [TagMatch]: [ucp/tag/tag_match.c], [.inl] and the callers of the matching:
      posting, arrival, probe, cancellation and the choice of the requests that the
      transport matches.
    - [Iov]: [ucp/dt/dt_iov.c], [ucs/sys/iovec.c], [iovec.inl].
    - [TagEager]: the data of eager messages ([ucp/tag/eager_rcv.c],
      [ucp/core/ucp_request.inl], [ucp/dt/dt.inl]); matching is that of [TagMatch],
      scattered receive buffers are those of [Iov].
    - [Timer]: the timer wheel and the timer queue ([ucs/time]).
    - [MmFifo], [MmSystem], [MmReceive], [MmProperties], [MmFailures]: the FIFO of the
      shared memory transports ([uct/sm/mm/base]).  [MmFifo] has the steps of a
      sender and of the receiver, one access to shared memory each; [MmSystem] the
      interleavings of any number of senders with the receiver and their invariant;
      [MmReceive] the steps of the receiver; the last two the theorems.
    - [Ud], [UdEndpoint], [UdPair], [UdLive], [UdPurge]: the reliable delivery of the
      UD transport ([uct/ib/ud/base]), which receives through [FragList].  [Ud] has the
      operations, [UdEndpoint] the invariant of an endpoint, [UdPair] two endpoints
      over a network, [UdLive] retransmission, [UdPurge] the error path.

    ** What the theorems show

    - Data structures refine their abstract form: [queue_sim] (lists),
      [ptr_array_refines] and [ptr_array_for_each_visits] (a map from indices),
      [pgtable_insert_exact], [pgtable_lookup_exact], [pgtable_remove_exact] and
      [pgtable_search_exact] (a set of disjoint regions), [frag_list_insert_refines] (a
      sorted buffer) and [frag_list_in_order], [twheel_refines], [twheel_never_early],
      [twheel_fires] and [timerq_refines] (timers).
    - The arbiter dispatches as a specification with queues does, whatever the callbacks
      do within the interface ([arbiter_refines]), in turns ([arbiter_round_robin]), and
      dispatch ends ([arbiter_dispatch_ends]).
    - A worker address is unpacked to what was packed, in both versions of the format
      and in unified mode ([address_roundtrip]); packed numbers keep 15/16 of their value
      ([fp8_precision]).
    - A stream loses, repeats and reorders no byte: what the calls obtained and what is
      queued is what arrived ([stream_in_order]), and what was sent
      ([stream_end_to_end]); receives complete as soon as they can, with whole elements
      and with all data if they wait for it ([stream_requests]); data pointers are given
      back to their descriptors ([stream_data_roundtrip]); polling shows the endpoints
      with data ([stream_ready]); cleanup completes and releases everything
      ([stream_cleanup]).
    - Tag matching gives the results of a specification with two lists, in the
      order of posting and of arrival ([tag_match_refines], [tag_match_settled]); requests
      that the transport matches never overtake others ([tag_offload_order]); eager
      messages are reassembled for every order of fragments ([eager_reassembly],
      [eager_only_either_order]); [iov_scatter_gather].
    - Two UD endpoints: what arrives is a prefix of what was sent, no assertion
      fails while the pool has control skbs, nothing is released too early, completions are right, and losses are
      recovered ([ud_in_order], [ud_no_failure], [ud_retains], [ud_completions],
      [ud_handlers_in_order], [ud_flush], [ud_recovers], [ud_timer_armed], [ud_purge]).
    - The shared memory FIFO: for all interleavings messages arrive once, in order and
      unchanged ([mm_fifo_order]), descriptors that handlers keep are not overwritten
      ([mm_desc_stable]), the receiver does not sleep through a message when no signal
      was lost ([mm_wakeup]), and what was sent can be received ([mm_delivers]).
    - Executions where the code does not do what it is meant to do:
      [frag_list_wrap_gap], [frag_list_wrap_stall], [frag_list_ready_reorder], [pgtable_search_overreport],
      [pgtable_search_diverges], [recv_force_imm_loses_message], [ud_timeout_lost],
      [mm_attach_failure_stalls], [mm_stale_tail_overwrites], [arbiter_stale_record],
      [fp8_below_min], [fp8_above_max], [address_low_bandwidth].

    ** Bounds of the models

    - [FragList]: in [frag_list_in_order] packets are within half of the 16-bit numbers of
      the head, no packet closes the gap between two holes at number 65535
      ([frag_list_wrap_gap] has that case), and the next packet in order comes when the
      ready packets were pulled ([frag_list_ready_reorder]).
    - [PgTable]: [pgtable_search_exact] is for ranges that end above 0 and below [2 ^ 63];
      what happens otherwise is in [pgtable_search_overreport] and
      [pgtable_search_diverges].  Directories have no addresses, so that the alignment
      asserted by [ucs_pgt_check_ptr] is left to the callers.
    - [TagMatch]: the sequences of [tag_match_refines] have receives without
      [UCP_OP_ATTR_FLAG_FORCE_IMM_CMPL], with memory handles that are accepted, and
      messages for which there is memory.  [eager_only_either_order] is for messages of
      one fragment.
    - [Arbiter]: [arbiter_round_robin] is for callbacks that push behind and schedule, and
      do not stop the dispatch; the refinement is for all operations.
    - [Ud]: one endpoint on each interface; the pool hands out at most [2 ^ 14] skbs, whose
      addresses are not reused; the window is between 2 and 1025; a packet is not
      delivered when its sender has sent or received 4096 messages since; the
      asynchronous thread receives into the pending queue, the user's progress
      when that queue is empty.  Sequences of calls have flushes without
      [UCT_FLUSH_FLAG_CANCEL], no pending requests of the user and no disconnect; the
      supply of skbs for control messages is a condition of [ud_no_failure] and
      [ud_recovers], since the code aborts without.  The arbiter is free to call the
      pending control operations at any time.  Purge is an operation of its own, after
      which the pair does not go on.
    - [MmFifo]: shared accesses happen in program order, as the barriers of the code
      demand; counters that are compared are less than [2 ^ 31] apart (what happens
      otherwise is in [mm_stale_tail_overwrites]); the FIFO has at most [2 ^ 30]
      elements and messages are shorter than [2 ^ 16] bytes; attaching a segment does not
      fail with the status of a full FIFO.  [mm_wakeup] and [mm_delivers] have the
      condition that attaching did not fail, and [mm_wakeup] that [sendto] lost no signal.
    - [Address]: [address_roundtrip] is for addresses of transports that have the length
      the transport announces and that fits into the format, and for the flags that
      all callers use: interface addresses, and machine identifier together with the
      one of the worker.  In unified mode resources are below 64.  Bandwidths
      are positive, and in version 2 not between [2 ^ 28] and 17/16 of it
      ([address_low_bandwidth]).  Unpacking has the length of the buffer as fuel for its
      loop over the devices, and a read past the end of the buffer is [None].
    - [Stream]: a message has a payload, and a descriptor with its data is below 4 GB, as
      its lengths have 32 bits; the address of a new descriptor is not in use.
      Datatypes are contiguous or IOV.  A callback makes receive and poll calls;
      [stream_cleanup] is for an error status and callbacks that make no calls when they
      are told it, since a callback that posts a receive again keeps the cleanup in its
      loop.
      [stream_end_to_end] is for short and bcopy messages that the transport delivers in
      order.

    ** What is not modelled

    System calls, sockets, threads and signals; the queues of devices; vendor
    libraries; the performance models that choose protocols and lanes; configuration, logging and statistics; the memory hooks of UCM.  Of the
    modelled transports: connection establishment, their own addresses and
    attributes, the destruction of interfaces.  Of UCP: rendezvous, remote memory access,
    the choice of lanes, and the orchestration of transports by worker and endpoint. *)

From stdpp Require Export base numbers option list gmap strings.
From Stdlib Require Export ZArith Lia Sorted.

#[global] Open Scope Z_scope.
#[global] Set Default Goal Selector "!".

(** ** Machine integers

    A [w]-bit unsigned value is a [Z] in [[0, 2^w)]; arithmetic wraps with
    [u_wrap], and a cast to the signed type of the same width is [s_wrap]. *)

Definition u_wrap (w x : Z) : Z := x mod 2 ^ w.

Definition s_wrap (w x : Z) : Z :=
  let y := x mod 2 ^ w in
  if y <? 2 ^ (w - 1) then y else y - 2 ^ w.

Declare Scope ucs_scope.
Delimit Scope ucs_scope with ucs.
Notation "'u8' x" := (u_wrap 8 x) (at level 9, x at level 8) : ucs_scope.
Notation "'u16' x" := (u_wrap 16 x) (at level 9, x at level 8) : ucs_scope.
Notation "'u32' x" := (u_wrap 32 x) (at level 9, x at level 8) : ucs_scope.
Notation "'u64' x" := (u_wrap 64 x) (at level 9, x at level 8) : ucs_scope.
#[global] Open Scope ucs_scope.

(** [UCS_BIT] and [UCS_MASK] on 64-bit words. *)
Definition UCS_BIT (i : Z) : Z := u64 (Z.shiftl 1 i).
Definition UCS_MASK (i : Z) : Z := u64 (UCS_BIT i - 1).

(** Ids of active messages ([uct/api/uct_def.h]). *)
Definition UCT_AM_ID_BITS : Z := 5.
Definition UCT_AM_ID_MAX : Z := UCS_BIT UCT_AM_ID_BITS.

(** ** Status codes ([ucs/type/status.h]) *)

Inductive ucs_status_t :=
| UCS_OK
| UCS_INPROGRESS
| UCS_ERR_NO_MESSAGE
| UCS_ERR_NO_RESOURCE
| UCS_ERR_IO_ERROR
| UCS_ERR_NO_MEMORY
| UCS_ERR_INVALID_PARAM
| UCS_ERR_UNREACHABLE
| UCS_ERR_INVALID_ADDR
| UCS_ERR_NOT_IMPLEMENTED
| UCS_ERR_MESSAGE_TRUNCATED
| UCS_ERR_NO_PROGRESS
| UCS_ERR_BUFFER_TOO_SMALL
| UCS_ERR_NO_ELEM
| UCS_ERR_SOME_CONNECTS_FAILED
| UCS_ERR_NO_DEVICE
| UCS_ERR_BUSY
| UCS_ERR_CANCELED
| UCS_ERR_SHMEM_SEGMENT
| UCS_ERR_ALREADY_EXISTS
| UCS_ERR_OUT_OF_RANGE
| UCS_ERR_TIMED_OUT
| UCS_ERR_EXCEEDS_LIMIT
| UCS_ERR_UNSUPPORTED
| UCS_ERR_REJECTED
| UCS_ERR_NOT_CONNECTED
| UCS_ERR_CONNECTION_RESET
| UCS_ERR_FIRST_LINK_FAILURE
| UCS_ERR_LAST_LINK_FAILURE
| UCS_ERR_FIRST_ENDPOINT_FAILURE
| UCS_ERR_ENDPOINT_TIMEOUT
| UCS_ERR_LAST_ENDPOINT_FAILURE
| UCS_ERR_LAST.

#[export] Instance ucs_status_eq_dec : EqDecision ucs_status_t.
Proof. solve_decision. Defined.

(** ** Proof automation *)

(** Turn the boolean comparisons of the hypotheses into propositions. *)
Ltac zbool_hyps :=
  repeat match goal with
  | H : (_ <? _) = true |- _ => apply Z.ltb_lt in H
  | H : (_ <? _) = false |- _ => apply Z.ltb_ge in H
  | H : (_ <=? _) = true |- _ => apply Z.leb_le in H
  | H : (_ <=? _) = false |- _ => apply Z.leb_gt in H
  | H : (_ =? _) = true |- _ => apply Z.eqb_eq in H
  | H : (_ =? _) = false |- _ => apply Z.eqb_neq in H
  | H : (_ && _)%bool = true |- _ => apply andb_true_iff in H; destruct H
  | H : (_ || _)%bool = false |- _ => apply orb_false_iff in H; destruct H
  | H : negb _ = true |- _ => apply negb_true_iff in H
  | H : negb _ = false |- _ => apply negb_false_iff in H
  end.

(** Case analysis on a boolean comparison of the goal. *)
Ltac zcase_step :=
  match goal with
  | |- context [?a <? ?b] => destruct (Z.ltb_spec a b)
  | |- context [?a <=? ?b] => destruct (Z.leb_spec a b)
  | |- context [?a =? ?b] => destruct (Z.eqb_spec a b)
  end.
Ltac zcase := repeat (zcase_step; simpl).

(** ** Wrap-around arithmetic *)

Section wrap.
Implicit Types w x y a b d : Z.

Lemma u_wrap_range w x : 0 <= w -> 0 <= u_wrap w x < 2 ^ w.
Proof. intros. apply Z.mod_pos_bound. lia. Qed.

Lemma u_wrap_small w x : 0 <= x < 2 ^ w -> u_wrap w x = x.
Proof. apply Z.mod_small. Qed.

Lemma u_wrap_wrap w x : u_wrap w (u_wrap w x) = u_wrap w x.
Proof. apply Z.mod_mod_divide, Z.divide_refl. Qed.

Lemma u_wrap_add_l w x y : u_wrap w (u_wrap w x + y) = u_wrap w (x + y).
Proof. apply Zplus_mod_idemp_l. Qed.

Lemma u_wrap_sub w x y : u_wrap w (u_wrap w x - u_wrap w y) = u_wrap w (x - y).
Proof. symmetry. apply Zminus_mod. Qed.

Lemma s_wrap_range w x : 0 < w -> - 2 ^ (w - 1) <= s_wrap w x < 2 ^ (w - 1).
Proof.
  intros Hw. unfold s_wrap.
  assert (2 ^ w = 2 * 2 ^ (w - 1)) as -> by (rewrite <- Z.pow_succ_r by lia; f_equal; lia).
  assert (0 < 2 ^ (w - 1)) by lia.
  pose proof (Z.mod_pos_bound x (2 * 2 ^ (w - 1))). zcase; lia.
Qed.

(** A signed value is determined by its residue and its range. *)
Lemma s_wrap_unique w x d :
  0 < w -> x mod 2 ^ w = d mod 2 ^ w -> - 2 ^ (w - 1) <= d < 2 ^ (w - 1) ->
  s_wrap w x = d.
Proof.
  intros Hw Hx Hd. unfold s_wrap. rewrite Hx.
  assert (2 ^ w = 2 * 2 ^ (w - 1)) as E by (rewrite <- Z.pow_succ_r by lia; f_equal; lia).
  destruct (Z.leb_spec 0 d).
  - rewrite Z.mod_small by lia. zcase; lia.
  - replace (d mod 2 ^ w) with (d + 2 ^ w).
    { zcase; lia. }
    rewrite <- (Z.mod_small (d + 2 ^ w) (2 ^ w)) by lia.
    rewrite <- Zplus_mod_idemp_r, Z_mod_same_full, Z.add_0_r. done.
Qed.

(** Circular comparison: the signed difference of two wrapped counters is the
    true difference when the counters are less than half the range apart. *)
Lemma s_wrap_diff w a b :
  0 < w -> - 2 ^ (w - 1) <= a - b < 2 ^ (w - 1) ->
  s_wrap w (u_wrap w a - u_wrap w b) = a - b.
Proof.
  intros Hw Hd. apply s_wrap_unique; [done| |done].
  unfold u_wrap. by rewrite <- Zminus_mod.
Qed.

End wrap.

Create Rewrite HintDb wrap.
#[export] Hint Rewrite u_wrap_wrap u_wrap_add_l u_wrap_sub : wrap.

(** ** Bits *)

Lemma Z_land_pow2_ones x n : 0 <= n -> Z.land x (Z.ones n) = x mod 2 ^ n.
Proof. apply Z.land_ones. Qed.

Lemma Z_bits_above n x i : 0 <= x < 2 ^ n -> n <= i -> Z.testbit x i = false.
Proof.
  intros Hx Hi. destruct (decide (x = 0)) as [->|]; [apply Z.bits_0|].
  apply Z.bits_above_log2; [lia|]. apply Z.log2_lt_pow2; [lia|].
  apply Z.lt_le_trans with (2 ^ n); [lia|]. apply Z.pow_le_mono_r; lia.
Qed.

(** ** Lists *)

Lemma filter_ne_notin {A} `{EqDecision A} (e : A) (l : list A) :
  e ∉ l -> filter (fun x => x <> e) l = l.
Proof.
  induction l as [|x l IH]; [done|]. intros [Hx Hl]%not_elem_of_cons.
  rewrite filter_cons_True by done. by rewrite IH.
Qed.

(** ** Disjoint bit fields *)

Lemma Z_lor_add a b n : 0 <= n -> 0 <= a < 2 ^ n -> Z.lor a (b * 2 ^ n) = a + b * 2 ^ n.
Proof.
  intros Hn Ha. assert (Z.land a (b * 2 ^ n) = 0) as Hd.
  { apply Z.bits_inj'. intros i Hi. rewrite Z.land_spec, Z.bits_0.
    destruct (Z.ltb_spec i n).
    - by rewrite Z.mul_pow2_bits_low, andb_false_r.
    - by rewrite (Z_bits_above n). }
  by rewrite <- Z.lxor_lor, <- Z.add_nocarry_lxor.
Qed.

Lemma Z_land_shiftl_r a m n : 0 <= n ->
  Z.land a (Z.shiftl m n) = Z.shiftl (Z.land (Z.shiftr a n) m) n.
Proof.
  intros Hn. apply Z.bits_inj'. intros i Hi. rewrite Z.land_spec, !Z.shiftl_spec by done.
  destruct (Z.ltb_spec i n).
  - by rewrite !(Z.testbit_neg_r _ (i - n)), andb_false_r by lia.
  - rewrite Z.land_spec, Z.shiftr_spec by lia. by rewrite Z.sub_add.
Qed.

Lemma filter_none {A} (P : A -> Prop) `{!forall x, Decision (P x)} (l : list A) :
  (forall x, x ∈ l -> ~ P x) -> filter P l = [].
Proof.
  induction l as [|x l IH]; intros HP; [done|]. rewrite filter_cons_False by (apply HP; by left).
  apply IH. intros y Hy. apply HP. by right.
Qed.

Lemma filter_ext_in {A} (P Q : A -> Prop) `{!forall x, Decision (P x), !forall x, Decision (Q x)} (l : list A) :
  (forall x, x ∈ l -> (P x <-> Q x)) -> filter P l = filter Q l.
Proof.
  induction l as [|x l IH]; intros HP; [done|]. rewrite !filter_cons.
  rewrite IH by (intros y Hy; apply HP; by right). destruct (HP x ltac:(by left)) as [H1 H2].
  repeat case_decide; tauto || (exfalso; tauto).
Qed.

Lemma filter_fmap {A B} (f : A -> B) (P : B -> Prop) `{!forall x, Decision (P x)} (l : list A) :
  filter P (f <$> l) = f <$> filter (fun x => P (f x)) l.
Proof.
  induction l as [|x l IH]; [done|]. rewrite fmap_cons, !filter_cons, IH.
  by case_decide.
Qed.

(** A duplicate-free list of indices below [n] has at most [n] elements. *)
Lemma NoDup_length_bound (l : list nat) (n : nat) : NoDup l -> (forall i, i ∈ l -> (i < n)%nat) ->
  (length l <= n)%nat.
Proof.
  intros Hnd Hl. erewrite <- (length_seq n 0). apply submseteq_length, NoDup_submseteq; [done|].
  intros i Hi. apply elem_of_seq. specialize (Hl i Hi). lia.
Qed.

Lemma omap_none {A B} (f : A -> option B) (l : list A) :
  (forall x, x ∈ l -> f x = None) -> omap f l = [].
Proof.
  induction l as [|x l IH]; intros H; [done|]. simpl.
  rewrite H by by left. apply IH. intros y Hy. apply H. by right.
Qed.

Lemma filter_all {A} (P : A -> Prop) `{!forall x, Decision (P x)} (l : list A) :
  (forall x, x ∈ l -> P x) -> filter P l = l.
Proof.
  induction l as [|x l IH]; intros HP; [done|]. rewrite filter_cons_True by (apply HP; by left).
  f_equal. apply IH. intros y Hy. apply HP. by right.
Qed.

Lemma filter_ne_fmap {A} (f : A -> Z) (l : list A) x : f x ∉ f <$> l -> filter (fun y => f y ≠ f x) l = l.
Proof. intros Hx. apply filter_all. intros z Hz E. apply Hx. rewrite <- E. by apply list_elem_of_fmap_2. Qed.

Lemma list_find_head {A} (P : A -> Prop) `{!forall x, Decision (P x)} (l : list A) :
  match list_find P l with
  | Some (i, x) => l !! i = Some x /\ head (filter P l) = Some x
  | None => filter P l = []
  end.
Proof.
  destruct (list_find P l) as [[i x]|] eqn:E.
  - apply list_find_Some in E as (Hi & Hx & Hlt). split; [done|].
    rewrite <- (take_drop_middle _ _ _ Hi), filter_app, filter_none, filter_cons_True; [done|done|].
    intros y Hy. apply list_elem_of_lookup in Hy as [j Hj].
    pose proof (lookup_lt_Some _ _ _ Hj) as Hl. rewrite length_take in Hl.
    rewrite lookup_take_lt in Hj by lia. apply (Hlt j y Hj). lia.
  - apply list_find_None in E. apply filter_none. by apply Forall_forall.
Qed.

Lemma delete_filter {A} (f : A -> Z) (l : list A) i x : NoDup (f <$> l) -> l !! i = Some x ->
  delete i l = filter (fun y => f y ≠ f x) l.
Proof.
  revert i. induction l as [|y l IH]; intros i Hnd Hi; [done|].
  apply NoDup_cons in Hnd as [Hy Hnd]. destruct i as [|i]; simpl in *.
  - simplify_eq. rewrite filter_cons_False by tauto. symmetry. by apply filter_ne_fmap.
  - rewrite filter_cons_True; [f_equal; by apply IH|].
    intros E. apply Hy. rewrite E. apply list_elem_of_fmap_2. by eapply list_elem_of_lookup_2.
Qed.

Lemma filter_swap {A} (P Q : A -> Prop) `{!forall x, Decision (P x), !forall x, Decision (Q x)} (l : list A) :
  filter P (filter Q l) = filter Q (filter P l).
Proof.
  induction l as [|x l IH]; [done|]. rewrite !filter_cons.
  repeat case_decide; rewrite ?filter_cons; repeat case_decide; rewrite ?IH; tauto || done.
Qed.

Lemma NoDup_filter_fmap {A} (f : A -> Z) (P : A -> Prop) `{!forall x, Decision (P x)} (l : list A) :
  NoDup (f <$> l) -> NoDup (f <$> filter P l).
Proof.
  induction l as [|x l IH]; [done|]. intros [Hx Hl]%NoDup_cons. rewrite filter_cons. case_decide; [|by apply IH].
  apply NoDup_cons. split; [|by apply IH]. intros (y & E & Hy)%list_elem_of_fmap.
  apply list_elem_of_filter in Hy as [_ Hy]. apply Hx. rewrite E. by apply list_elem_of_fmap_2.
Qed.

(** Removing the element with identifier [f x] removes one element. *)
Lemma filter_remove_count {A} (f : A -> Z) (P : A -> Prop) `{!forall x, Decision (P x)} (l : list A) x :
  NoDup (f <$> l) -> x ∈ l ->
  length (filter P l) = (length (filter P (filter (fun y => f y ≠ f x) l)) + if decide (P x) then 1 else 0)%nat.
Proof.
  intros Hnd Hx. induction l as [|y l IH]; [by apply not_elem_of_nil in Hx|].
  apply NoDup_cons in Hnd as [Hy Hnd]. apply elem_of_cons in Hx as [->|Hx].
  - rewrite (filter_cons_False (fun z => f z ≠ f y)) by tauto.
    rewrite filter_ne_fmap by done. rewrite filter_cons. case_decide; simpl; lia.
  - rewrite (filter_cons_True (fun z => f z ≠ f x)).
    + rewrite !filter_cons. specialize (IH Hnd Hx). repeat case_decide; cbn [length]; lia.
    + intros E. apply Hy. rewrite E. by apply list_elem_of_fmap_2.
Qed.

Lemma NoDup_fmap_inj {A} (f : A -> Z) (l : list A) x y :
  NoDup (f <$> l) -> x ∈ l -> y ∈ l -> f x = f y -> x = y.
Proof.
  intros Hnd [i Hi]%list_elem_of_lookup [j Hj]%list_elem_of_lookup E.
  assert (i = j) as ->; [|congruence].
  eapply (NoDup_lookup _ _ _ (f x) Hnd); rewrite list_lookup_fmap; [by rewrite Hi|by rewrite Hj, E].
Qed.

Lemma filter_head_split {A} (P : A -> Prop) `{!forall x, Decision (P x)} (l : list A) x r :
  filter P l = x :: r -> exists l1 l2, l = l1 ++ x :: l2 /\ (forall y, y ∈ l1 -> ~ P y) /\ P x.
Proof.
  induction l as [|y l IH]; [done|]. rewrite filter_cons. case_decide as Hy.
  - intros [= -> _]. exists [], l. split_and!; [done| |done]. by intros z Hz%not_elem_of_nil.
  - intros E. destruct (IH E) as (l1 & l2 & -> & Hl1 & Hx). exists (y :: l1), l2. split_and!; [done| |done].
    intros z [->|Hz]%elem_of_cons; [done|by apply Hl1].
Qed.

Lemma addresses_length (l : list Z) n : 0 < n -> NoDup l -> (forall x, x ∈ l -> 0 < x < n) -> Z.of_nat (length l) < n.
Proof.
  intros Hn Hnd Hl. assert (length l <= length (seqZ 1 (n - 1)))%nat as H.
  { apply submseteq_length, NoDup_submseteq; [done|]. intros x Hx. apply elem_of_seqZ. specialize (Hl x Hx). lia. }
  rewrite length_seqZ in H. lia.
Qed.

(** ** Bytes *)

(** The bytes of a 64-bit word in memory. *)
Definition le64 (x : Z) : list Z := (fun i => Z.land (Z.shiftr x (8 * i)) 255) <$> seqZ 0 8.

Lemma length_le64 x : length (le64 x) = 8%nat.
Proof. unfold le64. by rewrite length_fmap, length_seqZ. Qed.

(** ** The option monad *)

(** [ucs_assert] of a build with assertions. *)
Definition assert (b : bool) : option unit := if b then Some tt else None.

Lemma bind_eq {A B} (c : option A) (x : A) (f : A -> option B) : c = Some x -> (c ≫= f) = f x.
Proof. by intros ->. Qed.

(** ** Loops

    [loop k step s] runs [step] at most [2 ^ k] times: [inl] is the state of the
    next iteration, [inr] the exit of the loop.  The result is [inl] when the
    iterations ran out.  The number of iterations is binary, so [loop 64] covers
    every loop whose measure is a 64-bit integer and still evaluates. *)
Fixpoint loop {S R} (k : nat) (step : S -> S + R) (s : S) : S + R :=
  match k with
  | O => step s
  | Datatypes.S k =>
      match loop k step s with
      | inl s' => loop k step s'
      | inr r => inr r
      end
  end.

(** The loop in the option monad: [None] when [step] fails or never exits. *)
Definition while {S R} (step : S -> option (S + R)) (s : S) : option R :=
  match loop 64 (fun s => match step s with
                          | Some (inl s') => inl s'
                          | Some (inr r) => inr (Some r)
                          | None => inr None
                          end) s with
  | inl _ => None
  | inr r => r
  end.

Lemma loop_measure {S R : Type} (step : S -> S + R) (I : S -> Prop) (Q : R -> Prop) (mu : S -> Z) k s :
  (forall s, I s -> match step s with inl s' => I s' /\ 0 <= mu s' < mu s | inr r => Q r end) ->
  I s -> 0 <= mu s ->
  match loop k step s with inl s' => I s' /\ 0 <= mu s' <= mu s - 2 ^ Z.of_nat k | inr r => Q r end.
Proof.
  intros Hstep. revert s. induction k as [|k IH]; intros s Hs Hmu; cbn [loop].
  - specialize (Hstep s Hs). destruct (step s); [|done]. change (2 ^ Z.of_nat 0) with 1. intuition lia.
  - specialize (IH s Hs Hmu) as H1. destruct (loop k step s) as [s1|r]; [|done].
    destruct H1 as [H1 Hm1]. specialize (IH s1 H1 ltac:(lia)) as H2.
    destruct (loop k step s1); [|done]. rewrite Nat2Z.inj_succ, Z.pow_succ_r by lia. intuition lia.
Qed.

(** Total correctness of [while]: an invariant and a decreasing measure. *)
Lemma while_ok {S R : Type} (step : S -> option (S + R)) (I : S -> Prop) (Q : R -> Prop) (mu : S -> Z) s :
  (forall s, I s -> exists x, step s = Some x /\
     match x with inl s' => I s' /\ 0 <= mu s' < mu s | inr r => Q r end) ->
  I s -> 0 <= mu s < 2 ^ 64 ->
  exists r, while step s = Some r /\ Q r.
Proof.
  intros Hstep Hs Hmu. unfold while.
  set (f := fun s => match step s with Some (inl s') => inl s' | Some (inr r) => inr (Some r) | None => inr None end).
  assert (match loop 64 f s with
          | inl s' => I s' /\ 0 <= mu s' <= mu s - 2 ^ Z.of_nat 64
          | inr o => exists r, o = Some r /\ Q r end) as H.
  { apply loop_measure; [|done|lia]. intros s' Hs'. unfold f.
    destruct (Hstep s' Hs') as (x & -> & Hx). destruct x; [done|by eexists]. }
  destruct (loop 64 f s) as [s'|o]; [destruct H as [_ H]; change (Z.of_nat 64) with 64 in H; lia|].
  by destruct H as (r & -> & ?); exists r.
Qed.

(** A loop that stays in a set of states never exits. *)
Lemma loop_diverges {S R : Type} (step : S -> S + R) (I : S -> Prop) k s :
  (forall s, I s -> exists s', step s = inl s' /\ I s') -> I s ->
  exists s', loop k step s = inl s' /\ I s'.
Proof.
  intros Hstep. revert s. induction k as [|k IH]; intros s Hs; simpl; [auto|].
  destruct (IH s Hs) as (s1 & -> & H1). apply IH, H1.
Qed.

(** Proofs use the rules above; unfolding the iterations is left to [vm_compute]. *)
#[global] Opaque loop while.
