(* ===== verification/Bits.v ===== *)
(** Bit and alignment helpers of [ucs/arch/bitops.h], [ucs/arch/aarch64/bitops.h]
    and [ucs/sys/math.h].

    Machine words are [Z] in range; [clz], [ctz] and [popcount] are the machine
    instructions (or compiler built-ins) the source uses.  Buffers are lists of
    bytes, and bit [i] of a buffer is the bit a network address has at position
    [i], the most significant bit of byte 0 first. *)

From S2P Require Import Prelude.

Module Bits.

(** ** Machine instructions *)

(** [clz] of a [w]-bit register. *)
Definition clz (w n : Z) : Z := if n =? 0 then w else w - 1 - Z.log2 n.

Fixpoint pos_ctz (p : positive) : Z :=
  match p with
  | xO p => 1 + pos_ctz p
  | _ => 0
  end.

(** [__builtin_ctz]; undefined at 0 in C. *)
Definition ctz (n : Z) : Z := match n with Zpos p => pos_ctz p | _ => 0 end.

Fixpoint pos_popcount (p : positive) : Z :=
  match p with
  | xH => 1
  | xO p => pos_popcount p
  | xI p => 1 + pos_popcount p
  end.

(** ** [bitops.h] *)

Definition ucs_ilog2_u32 (n : Z) : Z := u32 (31 - clz 32 n).
Definition ucs_ilog2_u64 (n : Z) : Z := u32 (63 - clz 64 n).

Definition ucs_ffs32 (n : Z) : Z := ucs_ilog2_u32 (Z.land n (u32 (- n))).
Definition ucs_ffs64 (n : Z) : Z := ucs_ilog2_u64 (Z.land n (u64 (- n))).

(** The chain of conditionals [ucs_ilog2] uses for constants, from bit [k - 1]. *)
Fixpoint ilog2_chain (k : nat) (n : Z) : Z :=
  match k with
  | O => 0
  | S k => if negb (Z.land n (UCS_BIT (Z.of_nat k)) =? 0) then Z.of_nat k else ilog2_chain k n
  end.

Definition ucs_ilog2_const (n : Z) : Z := if n <? 1 then 0 else ilog2_chain 64 n.

Definition ucs_ilog2 (n : Z) : Z := ucs_ilog2_u64 n.

Definition ucs_ilog2_or0 (n : Z) : Z := if n =? 0 then 0 else ucs_ilog2 n.

Definition ucs_popcount (n : Z) : Z := match n with Zpos p => pos_popcount p | _ => 0 end.

Definition ucs_ffs64_safe (val : Z) : Z := if val =? 0 then 64 else ucs_ffs64 val.

Definition ucs_count_trailing_zero_bits (n : Z) : Z := ctz n.

Definition ucs_count_leading_zero_bits (n : Z) : Z := clz 64 n.

Definition ucs_bitmap2idx (mask bit_index : Z) : Z :=
  ucs_popcount (Z.land mask (UCS_MASK bit_index)).

(** The loop of [ucs_idx2bitmap], [n] iterations left. *)
Fixpoint idx2bitmap_loop (n : nat) (mask bit_index : Z) : Z :=
  match n with
  | O => bit_index
  | S n =>
      if mask =? 0 then bit_index
      else
        let bit_index := ucs_count_trailing_zero_bits mask in
        idx2bitmap_loop n (Z.land mask (u64 (Z.lnot (UCS_BIT bit_index)))) bit_index
  end.

Definition ucs_idx2bitmap (mask idx : Z) : Z := idx2bitmap_loop (Z.to_nat (idx + 1)) mask 0.

(** Scan bytes [idx], [idx - 1], ... for a non-zero one. *)
Fixpoint last_nonzero (buf : list Z) (idx : nat) : option (nat * Z) :=
  tmp ← buf !! idx;
  match idx with
  | O => Some (O, tmp)
  | S m => if tmp =? 0 then last_nonzero buf m else Some (idx, tmp)
  end.

(** [None] is a read outside the buffer. *)
Definition ucs_count_ptr_trailing_zero_bits (ptr : list Z) (bit_length : Z) : option Z :=
  let idx := bit_length in
  if idx =? 0 then Some 0
  else
    early ←
      (if negb (idx mod 8 =? 0) then
         tmp ← ptr !! Z.to_nat (idx / 8);
         let tmp := Z.land tmp (u8 (Z.lnot (UCS_MASK (8 - idx mod 8)))) in
         let tmp := if idx <? 8 then Z.lor tmp (UCS_BIT (idx mod 8)) else tmp in
         Some (if (idx <? 8) || negb (tmp =? 0)
               then Some (ctz (Z.lor tmp (u32 (Z.shiftl (2 ^ 32 - 1) 8)))) else None)
       else Some None);
    match early with
    | Some r => Some r
    | None =>
        '(idx, tmp) ← last_nonzero ptr (Z.to_nat (idx / 8 - 1));
        Some (u32 (bit_length - (Z.of_nat idx + 1) * 8 +
                   ctz (Z.lor tmp (u32 (Z.shiftl (2 ^ 32 - 1) 8)))))
    end.

Definition ucs_bitwise_is_equal (ptr1 ptr2 : list Z) (bit_length : Z) : option bool :=
  let length := Z.to_nat (bit_length / 8) in
  let remainder_val := bit_length mod 8 in
  if negb (bool_decide (take length ptr1 = take length ptr2)) then Some false
  else if remainder_val =? 0 then Some true
  else
    b1 ← ptr1 !! length;
    b2 ← ptr2 !! length;
    Some (Z.land b1 (Z.lnot (UCS_MASK (8 - remainder_val))) =?
          Z.land b2 (Z.lnot (UCS_MASK (8 - remainder_val)))).

(** ** [math.h] *)

Definition ucs_is_pow2_or_zero (n : Z) : bool := Z.land n (u64 (n - 1)) =? 0.
Definition ucs_is_pow2 (n : Z) : bool := (0 <? n) && ucs_is_pow2_or_zero n.

Definition ucs_padding (n alignment : Z) : Z := (alignment - n mod alignment) mod alignment.
Definition ucs_align_down (n alignment : Z) : Z := n - n mod alignment.
Definition ucs_align_up (n alignment : Z) : Z := u64 (n + ucs_padding n alignment).

Definition ucs_align_down_pow2 (n alignment : Z) : Z := Z.land n (u64 (Z.lnot (alignment - 1))).
Definition ucs_align_up_pow2 (n alignment : Z) : Z :=
  ucs_align_down_pow2 (u64 (n + alignment - 1)) alignment.

Definition UCS_MASK_SAFE (i : Z) : Z := if 64 <=? i then 2 ^ 64 - 1 else UCS_MASK i.

Definition ucs_div_round_up (n d : Z) : Z := u64 (n + d - 1) / d.

(** The loop of [ucs_roundup_pow2]; [None] when 64 doublings do not reach [n]
    (the word has then wrapped to zero and the loop does not end). *)
Fixpoint roundup_loop (fuel : nat) (pow2 n : Z) : option Z :=
  if pow2 <? n then
    match fuel with
    | O => None
    | S fuel => roundup_loop fuel (u64 (Z.shiftl pow2 1)) n
    end
  else Some pow2.

Definition ucs_roundup_pow2 (n : Z) : option Z :=
  if n <? 1 then None else roundup_loop 64 1 n.

Definition ucs_rounddown_pow2 (n : Z) : option Z :=
  p ← ucs_roundup_pow2 (u64 (n + 1)); Some (p / 2).

(** [ucs_for_each_bit]: the indices the loop visits from [index] on. *)
Fixpoint for_each_bit_from (fuel : nat) (map index : Z) : list Z :=
  match fuel with
  | O => []
  | S fuel =>
      if index <? 64
      then index :: for_each_bit_from fuel map
                      (ucs_ffs64_safe (Z.land map (u64 (Z.shiftl (2 ^ 64 - 2) index))))
      else []
  end.

Definition ucs_for_each_bit (map : Z) : list Z := for_each_bit_from 65 map (ucs_ffs64_safe map).

(** [ucs_for_each_submask]: the step of the loop, and the values visited. *)
Definition submask_next (submask mask : Z) : Z :=
  let submask := u64 (submask + 1) in
  if submask <=? mask then Z.land (u64 (submask + u64 (Z.lnot mask))) mask else submask.

Fixpoint for_each_submask_from (fuel : nat) (submask mask : Z) : list Z :=
  match fuel with
  | O => []
  | S fuel =>
      if submask <=? mask then submask :: for_each_submask_from fuel (submask_next submask mask) mask
      else []
  end.

Definition ucs_for_each_submask (mask : Z) : list Z :=
  for_each_submask_from (Z.to_nat (mask + 2)) 0 mask.

(** ** Count trailing zeros *)

Lemma pos_ctz_spec p : 0 <= pos_ctz p /\ exists q, 0 <= q /\ Zpos p = 2 ^ pos_ctz p * (2 * q + 1).
Proof.
  induction p as [p _|p [Hc (q & Hq & IH)]|]; simpl.
  - split; [done|]. exists (Zpos p). lia.
  - split; [lia|]. exists q. split; [done|]. rewrite Z.pow_add_r by lia. lia.
  - split; [done|]. exists 0. lia.
Qed.

Lemma ctz_split n : 0 < n -> 0 <= ctz n /\ exists q, 0 <= q /\ n = 2 ^ ctz n * (2 * q + 1).
Proof. destruct n as [|p|p]; [lia|intros _; apply pos_ctz_spec|lia]. Qed.

Lemma ctz_testbit n : 0 < n -> Z.testbit n (ctz n) = true /\
  forall i, i < ctz n -> Z.testbit n i = false.
Proof.
  intros Hn. destruct (ctz_split n Hn) as (Hc & q & Hq & E).
  rewrite Z.mul_comm in E. split.
  - rewrite E at 1. rewrite Z.mul_pow2_bits, Z.sub_diag by done. apply Z.testbit_odd_0.
  - intros i Hi. rewrite E. by rewrite Z.mul_pow2_bits_low.
Qed.

Lemma ctz_bound n w : 0 < n < 2 ^ w -> 0 <= ctz n < w.
Proof.
  intros Hn. destruct (ctz_split n) as (Hc & _); [lia|]. split; [done|].
  destruct (Z_lt_le_dec (ctz n) w); [done|].
  destruct (ctz_testbit n ltac:(lia)) as [Ht _]. assert (0 <= w) by (apply Z.nlt_ge; intros Hw; rewrite (Z.pow_neg_r 2 w) in Hn by lia; lia).
  by rewrite (Z_bits_above w) in Ht by (done || lia).
Qed.

(** Bits of [n - 1]: the trailing zeros become ones, the lowest one a zero. *)
Lemma testbit_pred n i : 0 < n -> 0 <= i -> Z.testbit (n - 1) i =
  if i <? ctz n then true else if i =? ctz n then false else Z.testbit n i.
Proof.
  intros Hn Hi. destruct (ctz_split n Hn) as (Hc & q & Hq & E). set (k := ctz n) in *.
  assert (n - 1 = Z.ones k + (2 * q) * 2 ^ k) as -> by (rewrite Z.ones_equiv; lia).
  rewrite <- Z_lor_add by (rewrite ?Z.ones_equiv; lia). rewrite Z.lor_spec.
  rewrite Z.testbit_ones_nonneg by done.
  assert (Z.testbit n i = Z.testbit ((2 * q + 1) * 2 ^ k) i) as -> by (f_equal; lia).
  destruct (Z.ltb_spec i k); [done|]. simpl. rewrite !Z.mul_pow2_bits by lia.
  destruct (Z.eqb_spec i k) as [->|Hne]; [rewrite Z.sub_diag; apply Z.testbit_even_0|].
  rewrite <- (Z.succ_pred (i - k)), Z.testbit_even_succ, Z.testbit_odd_succ by lia. done.
Qed.

(** Isolating the lowest set bit. *)
Lemma land_opp n : 0 < n -> Z.land n (- n) = 2 ^ ctz n.
Proof.
  intros Hn. destruct (ctz_testbit n Hn) as [Ht Hl]. destruct (ctz_split n Hn) as [Hc _].
  apply Z.bits_inj'. intros i Hi.
  replace (- n) with (Z.lnot (n - 1)) by (unfold Z.lnot; lia).
  rewrite Z.land_spec, Z.lnot_spec, testbit_pred, Z.pow2_bits_eqb by done.
  destruct (Z.ltb_spec i (ctz n)).
  { rewrite Hl by lia. symmetry. apply Z.eqb_neq. lia. }
  rewrite (Z.eqb_sym (ctz n)). destruct (Z.eqb_spec i (ctz n)) as [->|]; [by rewrite Ht|].
  by destruct (Z.testbit n i).
Qed.

Lemma ilog2_u64_log2 n : 0 < n < 2 ^ 64 -> ucs_ilog2_u64 n = Z.log2 n.
Proof.
  intros Hn. unfold ucs_ilog2_u64, clz. rewrite (proj2 (Z.eqb_neq n 0)) by lia.
  pose proof (Z.log2_nonneg n). assert (Z.log2 n < 64) by (apply Z.log2_lt_pow2; lia).
  rewrite u_wrap_small; lia.
Qed.

Lemma ffs64_ctz n : 0 < n < 2 ^ 64 -> ucs_ffs64 n = ctz n.
Proof.
  intros Hn. unfold ucs_ffs64.
  assert (Z.land n (u64 (- n)) = Z.land n (- n)) as ->.
  { unfold u_wrap. rewrite <- Z.land_ones, (Z.land_comm (- n)), Z.land_assoc by done.
    by rewrite (Z.land_ones n 64), Z.mod_small by lia. }
  rewrite land_opp by lia. pose proof (ctz_bound n 64 Hn).
  rewrite ilog2_u64_log2; [apply Z.log2_pow2; lia|]. split; [lia|]. apply Z.pow_lt_mono_r; lia.
Qed.

Lemma ucs_bit_pow k : 0 <= k < 64 -> UCS_BIT k = 2 ^ k.
Proof.
  intros Hk. unfold UCS_BIT. rewrite Z.shiftl_1_l, u_wrap_small; [done|].
  split; [lia|]. apply Z.pow_lt_mono_r; lia.
Qed.

Lemma ucs_mask_ones k : 0 <= k < 64 -> UCS_MASK k = Z.ones k.
Proof.
  intros Hk. unfold UCS_MASK. rewrite ucs_bit_pow, Z.ones_equiv, <- Z.sub_1_r by done.
  apply u_wrap_small. assert (2 ^ k < 2 ^ 64) by (apply Z.pow_lt_mono_r; lia). lia.
Qed.

Lemma Z_land_bit n k : 0 <= k -> Z.land n (2 ^ k) = if Z.testbit n k then 2 ^ k else 0.
Proof.
  intros Hk. apply Z.bits_inj'. intros i Hi. rewrite Z.land_spec, Z.pow2_bits_eqb by done.
  destruct (Z.eqb_spec k i) as [<-|Hne].
  - destruct (Z.testbit n k); simpl; [by rewrite Z.pow2_bits_true|by rewrite Z.bits_0].
  - rewrite andb_false_r. destruct (Z.testbit n k); [by rewrite Z.pow2_bits_false|by rewrite Z.bits_0].
Qed.

Lemma ilog2_chain_log2 (k : nat) n : 0 < n < 2 ^ Z.of_nat k -> (k <= 64)%nat -> ilog2_chain k n = Z.log2 n.
Proof.
  induction k as [|k IH]; intros Hn Hk; [simpl in Hn; lia|].
  cbn [ilog2_chain]. rewrite ucs_bit_pow, Z_land_bit by lia.
  destruct (Z_lt_le_dec n (2 ^ Z.of_nat k)) as [Hlt|Hge].
  - rewrite (Z_bits_above (Z.of_nat k)), Z.eqb_refl by lia. apply IH; lia.
  - rewrite Nat2Z.inj_succ, Z.pow_succ_r in Hn by lia.
    assert (Z.log2 n = Z.of_nat k) as El by (apply Z.log2_unique; rewrite ?Z.pow_succ_r; lia).
    rewrite <- El, Z.bit_log2 by lia. rewrite (proj2 (Z.eqb_neq _ 0)); [done|].
    pose proof (Z.log2_nonneg n). lia.
Qed.

(** The two branches of [ucs_ilog2] agree: the chain of conditionals used
    for compile-time constants and the [clz] instruction give the same result
    on every non-zero 64-bit value, its base-2 logarithm. *)
Theorem ilog2_branches_agree n : 0 < n < 2 ^ 64 ->
  ucs_ilog2_const n = ucs_ilog2 n /\ 2 ^ ucs_ilog2 n <= n < 2 ^ (ucs_ilog2 n + 1).
Proof.
  intros Hn. unfold ucs_ilog2_const, ucs_ilog2. rewrite ilog2_u64_log2, (proj2 (Z.ltb_ge n 1)) by lia.
  split; [by apply (ilog2_chain_log2 64)|]. apply Z.log2_spec. lia.
Qed.

Lemma ilog2_branches_agree_witness :
  ucs_ilog2_const 4097 = ucs_ilog2 4097 /\ 2 ^ ucs_ilog2 4097 <= 4097 < 2 ^ (ucs_ilog2 4097 + 1).
Proof. apply (ilog2_branches_agree 4097). lia. Defined.

(** ** Lists of set bits *)

(** The positions of the set bits of [n] in [[i, i + len)], in increasing order. *)
Definition bits_of (n i len : Z) : list Z := filter (fun k => Z.testbit n k = true) (seqZ i len).

Lemma bits_of_none n i len : (forall k, i <= k < i + len -> Z.testbit n k = false) -> bits_of n i len = [].
Proof.
  intros H. unfold bits_of. apply filter_none. intros k Hk%elem_of_seqZ. by rewrite H by lia.
Qed.

Lemma bits_of_split n i k len : i <= k < i + len -> Z.testbit n k = true ->
  (forall j, i <= j < k -> Z.testbit n j = false) ->
  bits_of n i len = k :: bits_of n (k + 1) (len - (k + 1 - i)).
Proof.
  intros Hk Ht Hl. unfold bits_of. replace len with ((k - i) + (len - (k - i))) at 1 by lia.
  rewrite seqZ_app, filter_app by lia.
  replace (filter _ (seqZ i (k - i))) with (@nil Z) by (symmetry; apply bits_of_none; intros; apply Hl; lia).
  simpl. rewrite seqZ_cons by lia. replace (i + (k - i)) with k by lia.
  rewrite filter_cons_True by done. f_equal. f_equal. f_equal; lia.
Qed.

Lemma bits_of_ext n n' i len : (forall k, i <= k < i + len -> Z.testbit n k = Z.testbit n' k) ->
  bits_of n i len = bits_of n' i len.
Proof.
  intros H. unfold bits_of. apply filter_ext_in. intros k Hk%elem_of_seqZ.
  rewrite H by lia. done.
Qed.

(** The first set bit of [n] is its count of trailing zeros. *)
Lemma bits_of_ctz n w : 0 < n < 2 ^ w ->
  bits_of n 0 w = ctz n :: bits_of n (ctz n + 1) (w - (ctz n + 1)).
Proof.
  intros Hn. pose proof (ctz_bound n w Hn). destruct (ctz_testbit n) as [Ht Hl]; [lia|].
  rewrite (bits_of_split n 0 (ctz n)); [f_equal; f_equal; lia|lia|done|]. intros. apply Hl. lia.
Qed.

Lemma popcount_double n b : 0 <= n -> 0 <= b < 2 -> ucs_popcount (2 * n + b) = ucs_popcount n + b.
Proof.
  intros Hn Hb. assert (b = 0 \/ b = 1) as [-> | ->] by lia; destruct n as [|p|p];
    [done| |lia|done| |lia].
  - by rewrite !Z.add_0_r.
  - change (2 * Z.pos p + 1) with (Z.pos p~1). cbn [ucs_popcount pos_popcount]. lia.
Qed.

Lemma popcount_bits (w : nat) n : 0 <= n < 2 ^ Z.of_nat w ->
  ucs_popcount n = Z.of_nat (length (bits_of n 0 (Z.of_nat w))).
Proof.
  revert n. induction w as [|w IH]; intros n Hn.
  { assert (n = 0) as -> by (simpl in Hn; lia). done. }
  rewrite Nat2Z.inj_succ, Z.pow_succ_r in Hn by lia.
  rewrite (Z.div_mod n 2), popcount_double, IH by (try apply Z.mod_pos_bound; Z.div_mod_to_equations; lia).
  set (m := n / 2). set (b := n mod 2).
  assert (0 <= b < 2) as Hb by (apply Z.mod_pos_bound; lia).
  unfold bits_of. rewrite Nat2Z.inj_succ, (seqZ_cons 0 (Z.succ (Z.of_nat w))) by lia. rewrite Z.pred_succ.
  rewrite <- (fmap_add_seqZ 1 0). rewrite filter_cons.
  assert (length (filter (fun k => Z.testbit (2 * m + b) k = true) (Z.add 1 <$> seqZ 0 (Z.of_nat w))) =
          length (filter (fun k => Z.testbit m k = true) (seqZ 0 (Z.of_nat w)))) as Hlen.
  { rewrite filter_fmap, length_fmap. f_equal. apply filter_ext_in.
    intros k Hk%elem_of_seqZ. simpl. assert (b = 0 \/ b = 1) as [-> | ->] by lia.
    - by rewrite Z.add_0_r, Z.add_1_l, Z.testbit_even_succ by lia.
    - by rewrite Z.add_1_l, Z.testbit_odd_succ by lia. }
  assert (b = 0 \/ b = 1) as [E | E] by lia; rewrite E in Hlen |- *.
  - rewrite decide_False by (by rewrite Z.add_0_r, Z.testbit_even_0). lia.
  - rewrite decide_True by (apply Z.testbit_odd_0). simpl. lia.
Qed.

Lemma bits_of_app n i k len : i <= k <= i + len ->
  bits_of n i len = bits_of n i (k - i) ++ bits_of n k (len - (k - i)).
Proof.
  intros Hk. unfold bits_of. replace len with ((k - i) + (len - (k - i))) at 1 by lia.
  rewrite seqZ_app, filter_app by lia. by replace (i + (k - i)) with k by lia.
Qed.

Lemma bits_of_drop n i k len : i <= k <= i + len -> (forall j, i <= j < k -> Z.testbit n j = false) ->
  bits_of n i len = bits_of n k (len - (k - i)).
Proof.
  intros Hk Hz. rewrite (bits_of_app n i k len Hk), (bits_of_none n i); [done|]. intros. apply Hz. lia.
Qed.

Lemma clear_bit_testbit mask c i : 0 <= c < 64 -> 0 <= i < 64 ->
  Z.testbit (Z.land mask (u64 (Z.lnot (UCS_BIT c)))) i = Z.testbit mask i && negb (i =? c).
Proof.
  intros Hc Hi. rewrite ucs_bit_pow by done. unfold u_wrap.
  rewrite Z.land_spec, Z.mod_pow2_bits_low, Z.lnot_spec, Z.pow2_bits_eqb by lia.
  by rewrite (Z.eqb_sym c).
Qed.

(** Clearing the lowest set bit drops the head of the list of set bits. *)
Lemma clear_lowest_bits mask : 0 < mask < 2 ^ 64 ->
  let mask' := Z.land mask (u64 (Z.lnot (UCS_BIT (ctz mask)))) in
  0 <= mask' < 2 ^ 64 /\ bits_of mask 0 64 = ctz mask :: bits_of mask' 0 64.
Proof.
  intros Hm mask'. pose proof (ctz_bound mask 64 Hm) as Hc. split.
  - split; [apply Z.land_nonneg; lia|]. apply Z.bounded_iff_bits_nonneg; [done|apply Z.land_nonneg; lia|].
    intros i Hi. unfold mask'. by rewrite Z.land_spec, (Z_bits_above 64 mask) by lia.
  - rewrite bits_of_ctz by done. f_equal. rewrite (bits_of_drop mask' 0 (ctz mask + 1)).
    + rewrite Z.sub_0_r. apply bits_of_ext. intros k Hk. unfold mask'. rewrite clear_bit_testbit by lia.
      by rewrite (proj2 (Z.eqb_neq k (ctz mask))), andb_true_r by lia.
    + lia.
    + intros j Hj. unfold mask'. rewrite clear_bit_testbit by lia.
      destruct (Z.eqb_spec j (ctz mask)); [apply andb_false_r|].
      destruct (ctz_testbit mask) as [_ Hl]; [lia|]. by rewrite Hl by lia.
Qed.

Lemma idx2bitmap_loop_bits n mask b k : 0 <= mask < 2 ^ 64 -> bits_of mask 0 64 !! n = Some k ->
  idx2bitmap_loop (S n) mask b = k.
Proof.
  revert mask b. induction n as [|n IH]; intros mask b Hm Hk.
  all: destruct (Z.eqb_spec mask 0) as [->|Hne];
    [rewrite bits_of_none in Hk by (intros; apply Z.bits_0); done|].
  all: destruct (clear_lowest_bits mask) as [Hm' E]; [lia|]; rewrite E in Hk; simpl in Hk.
  - injection Hk as <-. simpl. by rewrite (proj2 (Z.eqb_neq mask 0)).
  - cbn [idx2bitmap_loop]. rewrite (proj2 (Z.eqb_neq mask 0)) by done. by apply IH.
Qed.

Lemma bitmap2idx_length mask b : 0 <= mask < 2 ^ 64 -> 0 <= b < 64 ->
  ucs_bitmap2idx mask b = Z.of_nat (length (bits_of mask 0 b)).
Proof.
  intros Hm Hb. unfold ucs_bitmap2idx. rewrite ucs_mask_ones, Z.land_ones by lia.
  rewrite (popcount_bits (Z.to_nat b)), Z2Nat.id by (rewrite ?Z2Nat.id; try apply Z.mod_pos_bound; lia).
  do 2 f_equal. apply bits_of_ext. intros k Hk. by rewrite Z.mod_pow2_bits_low by lia.
Qed.

Lemma bits_of_lookup_length mask b : 0 <= b < 64 -> Z.testbit mask b = true ->
  bits_of mask 0 64 !! length (bits_of mask 0 b) = Some b.
Proof.
  intros Hb Ht. rewrite (bits_of_app mask 0 b 64) by lia. rewrite Z.sub_0_r.
  rewrite lookup_app_r, Nat.sub_diag by done. by rewrite (bits_of_split mask b b) by (done || lia).
Qed.

Lemma bits_of_prefix_length mask n b : bits_of mask 0 64 !! n = Some b ->
  0 <= b < 64 /\ Z.testbit mask b = true /\ length (bits_of mask 0 b) = n.
Proof.
  intros Hn. pose proof (list_elem_of_lookup_2 _ _ _ Hn) as Hin.
  apply list_elem_of_filter in Hin as [Ht Hb%elem_of_seqZ]. split_and!; [lia|lia|done|].
  pose proof (bits_of_lookup_length mask b ltac:(lia) Ht) as Hb'.
  apply (NoDup_lookup (bits_of mask 0 64) _ _ b); [|done|done]. apply NoDup_filter, NoDup_seqZ.
Qed.

(** [ucs_bitmap2idx] and [ucs_idx2bitmap] are inverse to each other: the
    index of a set bit among the set bits of a mask leads back to the bit, and
    the bit at a valid index has that index. *)
Theorem bitmap_idx_roundtrip mask : 0 <= mask < 2 ^ 64 ->
  (forall b, 0 <= b < 64 -> Z.testbit mask b = true -> ucs_idx2bitmap mask (ucs_bitmap2idx mask b) = b) /\
  (forall i, 0 <= i < ucs_popcount mask ->
     Z.testbit mask (ucs_idx2bitmap mask i) = true /\ ucs_bitmap2idx mask (ucs_idx2bitmap mask i) = i).
Proof.
  intros Hm. split.
  - intros b Hb Ht. rewrite bitmap2idx_length by done. unfold ucs_idx2bitmap.
    replace (Z.to_nat _) with (S (length (bits_of mask 0 b))) by lia.
    apply idx2bitmap_loop_bits; [done|]. by apply bits_of_lookup_length.
  - intros i Hi. rewrite (popcount_bits 64) in Hi by done. change (Z.of_nat 64) with 64 in Hi.
    destruct (lookup_lt_is_Some_2 (bits_of mask 0 64) (Z.to_nat i)) as [b Hb]; [lia|].
    destruct (bits_of_prefix_length _ _ _ Hb) as (Hb64 & Ht & Hlen). unfold ucs_idx2bitmap.
    replace (Z.to_nat (i + 1)) with (S (Z.to_nat i)) by lia.
    rewrite (idx2bitmap_loop_bits _ _ _ b) by done. rewrite bitmap2idx_length by done. split; [done|lia].
Qed.

Lemma bitmap_idx_roundtrip_witness : ucs_idx2bitmap 240 (ucs_bitmap2idx 240 6) = 6 /\ ucs_bitmap2idx 240 6 = 2.
Proof. split; [apply (bitmap_idx_roundtrip 240); [lia|lia|reflexivity]|reflexivity]. Defined.

(** ** Iteration over the set bits *)

Lemma ffs64_safe_high map j : 0 <= map < 2 ^ 64 -> 0 <= j <= 64 ->
  let f := ucs_ffs64_safe (Z.land map (u64 (Z.shiftl (2 ^ 64 - 1) j))) in
  j <= f <= 64 /\ bits_of map j (64 - j) = if f <? 64 then f :: bits_of map (f + 1) (64 - (f + 1)) else [].
Proof.
  intros Hm Hj f. set (h := Z.land map _) in f.
  assert (forall i, 0 <= i < 64 -> Z.testbit h i = Z.testbit map i && (j <=? i)) as Hh.
  { intros i Hi. unfold h, u_wrap. rewrite Z.land_spec, Z.mod_pow2_bits_low, Z.shiftl_spec by lia.
    f_equal. destruct (Z.leb_spec j i).
    - change (2 ^ 64 - 1) with (Z.ones 64). apply Z.ones_spec_low. lia.
    - apply Z.testbit_neg_r. lia. }
  assert (0 <= h < 2 ^ 64) as Hr.
  { assert (0 <= h) by (apply Z.land_nonneg; lia). split; [done|].
    apply Z.bounded_iff_bits_nonneg; [done|done|]. intros i Hi. unfold h.
    by rewrite Z.land_spec, (Z_bits_above 64 map) by lia. }
  unfold f, ucs_ffs64_safe. destruct (Z.eqb_spec h 0) as [E|Hne].
  - split; [lia|]. apply bits_of_none. intros k Hk. specialize (Hh k ltac:(lia)).
    rewrite E, Z.bits_0, (proj2 (Z.leb_le j k)), andb_true_r in Hh by lia. done.
  - rewrite ffs64_ctz by lia. pose proof (ctz_bound h 64 ltac:(lia)) as Hc.
    destruct (ctz_testbit h) as [Ht Hl]; [lia|]. rewrite Hh in Ht by lia.
    apply andb_true_iff in Ht as [Ht Hjc%Z.leb_le]. split; [lia|].
    rewrite (proj2 (Z.ltb_lt (ctz h) 64)) by lia. rewrite (bits_of_split map j (ctz h)); [f_equal; f_equal; lia|lia|done|].
    intros i Hi. specialize (Hl i ltac:(lia)). rewrite Hh in Hl by lia.
    by rewrite (proj2 (Z.leb_le j i)), andb_true_r in Hl by lia.
Qed.

Lemma for_each_bit_from_bits fuel map j : 0 <= map < 2 ^ 64 -> 0 <= j <= 64 -> (Z.to_nat (64 - j) < fuel)%nat ->
  for_each_bit_from fuel map (ucs_ffs64_safe (Z.land map (u64 (Z.shiftl (2 ^ 64 - 1) j)))) = bits_of map j (64 - j).
Proof.
  intros Hm. revert j. induction fuel as [|fuel IH]; intros j Hj Hf; [lia|].
  destruct (ffs64_safe_high map j Hm Hj) as [Hr ->]. set (f := ucs_ffs64_safe _) in *. cbn [for_each_bit_from].
  destruct (Z.ltb_spec f 64); [|done]. f_equal.
  rewrite <- IH by lia. do 3 f_equal. unfold u_wrap. rewrite !Z.shiftl_mul_pow2 by lia.
  rewrite Z.pow_add_r by lia.
  replace ((2 ^ 64 - 1) * (2 ^ f * 2 ^ 1)) with ((2 ^ 64 - 2) * 2 ^ f + 2 ^ f * 2 ^ 64) by lia.
  by rewrite Z.mod_add by done.
Qed.

(** [ucs_for_each_bit] visits the set bits in increasing order. *)
Lemma for_each_bit_bits map : 0 <= map < 2 ^ 64 -> ucs_for_each_bit map = bits_of map 0 64.
Proof.
  intros Hm. transitivity (bits_of map 0 (64 - 0)); [|done].
  rewrite <- (for_each_bit_from_bits 65 map 0) by (done || lia). unfold ucs_for_each_bit. do 2 f_equal. change (u64 (Z.shiftl (2 ^ 64 - 1) 0)) with (Z.ones 64).
  rewrite Z.land_ones, Z.mod_small by done. done.
Qed.

(** ** Sub-masks *)

Definition submask (s m : Z) : Prop := Z.land s m = s.

#[export] Instance submask_dec s m : Decision (submask s m) := decide (Z.land s m = s).

Lemma land_double a b x y : 0 <= x < 2 -> 0 <= y < 2 ->
  Z.land (2 * a + x) (2 * b + y) = 2 * Z.land a b + x * y.
Proof.
  intros Hx Hy. apply Z.bits_inj'. intros i Hi. rewrite Z.land_spec.
  assert (x = 0 \/ x = 1) as [-> | ->] by lia; assert (y = 0 \/ y = 1) as [-> | ->] by lia;
    rewrite ?Z.add_0_r; cbn [Z.mul]; rewrite ?Z.add_0_r;
    (destruct (Z.eq_dec i 0) as [->|Hne];
     [by rewrite ?Z.testbit_even_0, ?Z.testbit_odd_0|
      rewrite <- (Z.succ_pred i), ?Z.testbit_even_succ, ?Z.testbit_odd_succ, Z.land_spec by lia; done]).
Qed.

(** Adding the complement of the mask leaves the sub-mask bits. *)
Lemma submask_fill s m : submask s m -> Z.land (s - m - 1) m = s.
Proof.
  intros Hs. assert (forall i, Z.testbit s i && Z.testbit m i = Z.testbit s i) as Hbit
    by (intros i; by rewrite <- Z.land_spec, Hs).
  assert (s - m - 1 = Z.lor s (Z.lnot m)) as ->.
  { replace (s - m - 1) with (s + Z.lnot m) by (unfold Z.lnot; lia).
    assert (Z.land s (Z.lnot m) = 0) as Hd.
    { apply Z.bits_inj'. intros i Hi. rewrite Z.land_spec, Z.lnot_spec, Z.bits_0 by done.
      specialize (Hbit i). by destruct (Z.testbit s i), (Z.testbit m i). }
    by rewrite Z.add_nocarry_lxor, Z.lxor_lor. }
  apply Z.bits_inj'. intros i Hi. rewrite Z.land_spec, Z.lor_spec, Z.lnot_spec by done.
  specialize (Hbit i). by destruct (Z.testbit s i), (Z.testbit m i).
Qed.

(** The successor of [s] among the sub-masks of [m]. *)
Lemma submask_succ m s : 0 <= m -> 0 <= s < m -> submask s m ->
  let t := Z.land (s - m) m in
  s < t <= m /\ submask t m /\ forall u, 0 <= u -> submask u m -> s < u -> t <= u.
Proof.
  intros Hm. revert s. induction m as [m IH] using (well_founded_induction (Z.lt_wf 0)). intros s Hs Hsub t.
  unfold submask in *. pose proof (Z.div_mod m 2 ltac:(lia)) as Em. pose proof (Z.div_mod s 2 ltac:(lia)) as Es.
  pose proof (Z.mod_pos_bound m 2 ltac:(lia)) as Hb. pose proof (Z.mod_pos_bound s 2 ltac:(lia)) as Hc.
  set (m' := m / 2) in *. set (b := m mod 2) in *. set (s' := s / 2) in *. set (c := s mod 2) in *.
  rewrite Em, Es, land_double in Hsub by done.
  assert (c * b = c /\ Z.land s' m' = s') as [Hcb Hs'] by nia.
  assert (forall u, 0 <= u -> Z.land u m = u ->
    exists u' d, u = 2 * u' + d /\ 0 <= u' /\ 0 <= d <= b /\ Z.land u' m' = u') as Hu.
  { intros u Hu0 Hu. exists (u / 2), (u mod 2). pose proof (Z.div_mod u 2 ltac:(lia)) as Eu.
    pose proof (Z.mod_pos_bound u 2 ltac:(lia)) as Hd. rewrite Em, Eu, land_double in Hu by done.
    split_and!; try done; nia. }
  assert (b = c \/ b = 1 /\ c = 0) as [Hbc|[-> ->]] by nia.
  - assert (t = 2 * Z.land (s' - m') m') as Ht.
    { unfold t. rewrite Em, Es. replace (2 * s' + c - (2 * m' + b)) with (2 * (s' - m') + 0) by lia.
      rewrite land_double by lia. lia. }
    destruct (IH m' ltac:(lia) ltac:(lia) s' ltac:(lia) Hs') as (Hlt & Hsub' & Hleast).
    split_and!; [lia|lia| |].
    + rewrite Ht, Em. replace (2 * Z.land (s' - m') m') with (2 * Z.land (s' - m') m' + 0) by lia.
      rewrite land_double by lia. rewrite Hsub'. lia.
    + intros u Hu0 Hum Hsu. destruct (Hu u Hu0 Hum) as (u' & d & -> & Hu' & Hd & Hum').
      specialize (Hleast u' Hu' Hum' ltac:(lia)). lia.
  - assert (t = 2 * s' + 1) as Ht.
    { unfold t. rewrite Em, Es. replace (2 * s' + 0 - (2 * m' + 1)) with (2 * (s' - m' - 1) + 1) by lia.
      rewrite land_double by lia. rewrite submask_fill by done. lia. }
    split_and!; [lia|lia| |].
    + rewrite Ht, Em, land_double, Hs' by lia. lia.
    + intros u Hu0 Hum Hsu. lia.
Qed.

Lemma land_u64 x m : 0 <= m < 2 ^ 64 -> Z.land (u64 x) m = Z.land x m.
Proof.
  intros Hm. unfold u_wrap. rewrite <- Z.land_ones, <- Z.land_assoc, (Z.land_comm (Z.ones 64)) by done.
  by rewrite (Z.land_ones m), Z.mod_small by done.
Qed.

Lemma submask_next_spec s m : 0 <= s <= m -> m < 2 ^ 64 - 1 ->
  submask_next s m = if s =? m then m + 1 else Z.land (s - m) m.
Proof.
  intros Hs Hm. unfold submask_next. rewrite (u_wrap_small 64 (s + 1)) by lia.
  destruct (Z.eqb_spec s m) as [->|Hne].
  - by rewrite (proj2 (Z.leb_gt (m + 1) m)) by lia.
  - rewrite (proj2 (Z.leb_le (s + 1) m)), land_u64 by lia. unfold u_wrap.
    assert (Z.lnot m mod 2 ^ 64 = 2 ^ 64 - 1 - m) as ->.
    { unfold Z.lnot. replace (Z.pred (- m)) with ((2 ^ 64 - 1 - m) + (-1) * 2 ^ 64) by lia.
      rewrite Z.mod_add, Z.mod_small by lia. done. }
    rewrite <- (land_u64 (s - m)) by lia. rewrite <- (land_u64 (s + 1 + _)) by lia. f_equal.
    unfold u_wrap. replace (s + 1 + (2 ^ 64 - 1 - m)) with (s - m + 1 * 2 ^ 64) by lia.
    by rewrite Z.mod_add.
Qed.

(** [ucs_for_each_submask] terminates for every mask below [2 ^ 64 - 1] and
    visits every sub-mask of it exactly once, from 0 to the mask in increasing
    order: the carry trick skips exactly the values with a bit outside the mask. *)
Theorem for_each_submask_all mask : 0 <= mask < 2 ^ 64 - 1 ->
  ucs_for_each_submask mask = filter (fun s => Z.land s mask = s) (seqZ 0 (mask + 1)).
Proof.
  intros Hm.
  assert (forall fuel s, (Z.to_nat (mask + 1 - s) < fuel)%nat -> 0 <= s <= mask -> submask s mask ->
    for_each_submask_from fuel s mask = filter (fun s => Z.land s mask = s) (seqZ s (mask + 1 - s))) as H.
  { induction fuel as [|fuel IH]; intros s Hf Hs Hsub; [lia|]. cbn [for_each_submask_from].
    rewrite (proj2 (Z.leb_le s mask)), submask_next_spec by lia.
    rewrite seqZ_cons, filter_cons_True by (done || lia). f_equal.
    destruct (Z.eqb_spec s mask) as [->|Hne].
    - destruct fuel; cbn [for_each_submask_from]; rewrite ?(proj2 (Z.leb_gt (mask + 1) mask)) by lia;
        by replace (Z.pred (mask + 1 - mask)) with 0 by lia.
    - destruct (submask_succ mask s) as (Ht & Hsub' & Hleast); [lia|lia|done|].
      set (t := Z.land (s - mask) mask) in *. rewrite IH by (done || lia).
      replace (Z.pred (mask + 1 - s)) with ((t - s - 1) + (mask + 1 - t)) by lia.
      rewrite seqZ_app, filter_app by lia. replace (Z.succ s + (t - s - 1)) with t by lia.
      rewrite (filter_none _ (seqZ (Z.succ s) _)); [done|].
      intros u Hu%elem_of_seqZ Hum. specialize (Hleast u ltac:(lia) Hum ltac:(lia)). lia. }
  unfold ucs_for_each_submask. rewrite H; [by rewrite Z.sub_0_r|lia|lia|]. apply Z.land_0_l.
Qed.

Lemma for_each_submask_all_witness :
  ucs_for_each_submask 10 = filter (fun s => Z.land s 10 = s) (seqZ 0 11) /\
  ucs_for_each_submask 10 = [0; 2; 8; 10].
Proof. split; [apply (for_each_submask_all 10); lia|reflexivity]. Defined.

(** ** Powers of two and alignment *)

Lemma roundup_loop_ok fuel k n : 0 <= k -> 2 ^ k < n * 2 -> n <= 2 ^ (k + Z.of_nat fuel) -> n <= 2 ^ 63 ->
  exists j, k <= j <= 63 + k /\ roundup_loop fuel (2 ^ k) n = Some (2 ^ j) /\ n <= 2 ^ j < 2 * n.
Proof.
  revert k. induction fuel as [|fuel IH]; intros k Hk Hlt Hn Hb; simpl.
  - rewrite Z.add_0_r in Hn. rewrite (proj2 (Z.ltb_ge (2 ^ k) n)) by done. exists k. split_and!; lia || done.
  - destruct (Z.ltb_spec (2 ^ k) n) as [Hlt'|Hge].
    + rewrite Z.shiftl_mul_pow2, <- Z.pow_add_r by lia.
      assert (k < 63) as Hk63 by (apply (Z.pow_lt_mono_r_iff 2); lia).
      rewrite u_wrap_small by (split; [lia|apply Z.pow_lt_mono_r; lia]).
      destruct (IH (k + 1)) as (j & Hj & -> & Hr); [lia|rewrite Z.pow_add_r; lia|rewrite Nat2Z.inj_succ in Hn|done|].
      { by replace (k + 1 + Z.of_nat fuel) with (k + Z.succ (Z.of_nat fuel)) by lia. }
      exists j. split_and!; [lia| |done|lia|lia]. 
      assert (j < 64) by (apply (Z.pow_lt_mono_r_iff 2); lia). lia.
    + exists k. split_and!; lia || done.
Qed.

(** [ucs_roundup_pow2] returns the least power of two that is not below its argument. *)
Lemma roundup_pow2_ok n : 1 <= n <= 2 ^ 63 ->
  exists j, 0 <= j <= 63 /\ ucs_roundup_pow2 n = Some (2 ^ j) /\ n <= 2 ^ j < 2 * n.
Proof.
  intros Hn. unfold ucs_roundup_pow2. rewrite (proj2 (Z.ltb_ge n 1)) by lia.
  destruct (roundup_loop_ok 64 0 n) as (j & Hj & E & Hr); [lia|lia| |lia|by exists j].
  simpl. lia.
Qed.

Lemma align_down_pow2_mod n k : 0 <= n < 2 ^ 64 -> 0 <= k < 64 ->
  ucs_align_down_pow2 n (2 ^ k) = n - n mod 2 ^ k.
Proof.
  intros Hn Hk. unfold ucs_align_down_pow2. rewrite Z.land_comm, land_u64 by done. rewrite Z.land_comm.
  rewrite <- Z.ldiff_land. replace (2 ^ k - 1) with (Z.ones k) by (rewrite Z.ones_equiv; lia).
  rewrite Z.ldiff_ones_r, Z.shiftl_mul_pow2, Z.shiftr_div_pow2 by lia.
  pose proof (Z.div_mod n (2 ^ k) ltac:(lia)). lia.
Qed.

Lemma align_up_pow2_ok n k : 0 <= k < 64 -> 0 <= n -> n + 2 ^ k - 1 < 2 ^ 64 ->
  (2 ^ k | ucs_align_up_pow2 n (2 ^ k)) /\ n <= ucs_align_up_pow2 n (2 ^ k) < n + 2 ^ k.
Proof.
  intros Hk Hn Hb. unfold ucs_align_up_pow2. rewrite u_wrap_small, align_down_pow2_mod by lia.
  pose proof (Z.div_mod (n + 2 ^ k - 1) (2 ^ k) ltac:(lia)) as E.
  pose proof (Z.mod_pos_bound (n + 2 ^ k - 1) (2 ^ k) ltac:(lia)).
  split; [exists ((n + 2 ^ k - 1) / 2 ^ k); lia|lia].
Qed.

(** ** Buffers as bit strings *)

Definition is_byte (b : Z) : Prop := 0 <= b < 2 ^ 8.

(** Proves that a literal is a list of bytes. *)
Ltac bytes_lit := repeat (apply Forall_cons_2; [unfold is_byte; lia|]); apply Forall_nil_2.

(** Bit [i] of a buffer, most significant bit of the first byte first. *)
Definition buf_bit (buf : list Z) (i : Z) : bool :=
  match buf !! Z.to_nat (i / 8) with
  | Some b => Z.testbit b (7 - i mod 8)
  | None => false
  end.

Lemma byte_eq a b : is_byte a -> is_byte b -> (forall j, 0 <= j < 8 -> Z.testbit a j = Z.testbit b j) -> a = b.
Proof.
  intros Ha Hb H. apply Z.bits_inj'. intros i Hi. destruct (Z_lt_le_dec i 8); [by apply H|].
  by rewrite !(Z_bits_above 8).
Qed.

Lemma buf_bit_byte buf n j b : buf !! n = Some b -> 0 <= j < 8 ->
  buf_bit buf (8 * Z.of_nat n + (7 - j)) = Z.testbit b j.
Proof.
  intros Hb Hj. unfold buf_bit. rewrite (Z.mul_comm 8), Z.div_add_l, Z.div_small, Z.add_0_r, Nat2Z.id, Hb by lia.
  f_equal. rewrite Z.add_comm, Z.mod_add, Z.mod_small by lia. lia.
Qed.

Lemma take_eq_bits p1 p2 n : Forall is_byte p1 -> Forall is_byte p2 ->
  (n <= length p1)%nat -> (n <= length p2)%nat ->
  take n p1 = take n p2 <-> (forall i, 0 <= i < 8 * Z.of_nat n -> buf_bit p1 i = buf_bit p2 i).
Proof.
  intros F1 F2 L1 L2. split.
  - intros E i Hi. unfold buf_bit.
    assert (Z.to_nat (i / 8) < n)%nat as Hlt by (Z.div_mod_to_equations; lia).
    rewrite <- (lookup_take_lt p1 n _ Hlt), <- (lookup_take_lt p2 n _ Hlt). by rewrite E.
  - intros H. apply list_eq. intros i. destruct (decide (i < n)%nat) as [Hi|Hi].
    2: { by rewrite !lookup_take_ge by lia. }
    rewrite !lookup_take_lt by done.
    destruct (lookup_lt_is_Some_2 p1 i) as [a Ha]; [lia|].
    destruct (lookup_lt_is_Some_2 p2 i) as [b Hb]; [lia|]. rewrite Ha, Hb. f_equal.
    apply byte_eq; [by eapply (Forall_lookup_1 is_byte p1)|by eapply (Forall_lookup_1 is_byte p2)|].
    intros j Hj. rewrite <- (buf_bit_byte p1 i j a Ha Hj), <- (buf_bit_byte p2 i j b Hb Hj). apply H. lia.
Qed.

(** The high [r] bits of two bytes. *)
Lemma high_bits_eq a b r : is_byte a -> is_byte b -> 0 < r < 8 ->
  Z.land a (Z.lnot (UCS_MASK (8 - r))) = Z.land b (Z.lnot (UCS_MASK (8 - r))) <->
  (forall j, 8 - r <= j < 8 -> Z.testbit a j = Z.testbit b j).
Proof.
  intros Ha Hb Hr. rewrite ucs_mask_ones by lia. rewrite <- !Z.ldiff_land. split.
  - intros E j Hj. apply (f_equal (fun x => Z.testbit x j)) in E. rewrite !Z.ldiff_spec in E.
    rewrite Z.ones_spec_high in E by lia. by rewrite !andb_true_r in E.
  - intros H. apply Z.bits_inj'. intros j Hj. rewrite !Z.ldiff_spec.
    destruct (Z_lt_le_dec j (8 - r)); [by rewrite Z.ones_spec_low, !andb_false_r by lia|].
    destruct (Z_lt_le_dec j 8); [by rewrite H by lia|].
    by rewrite (Z_bits_above 8 a), (Z_bits_above 8 b).
Qed.

(** [ucs_bitwise_is_equal] compares exactly the first [bit_length] bits of
    two buffers, a trailing fraction of a byte included, and reads nothing
    beyond the byte that holds the last of them. *)
Theorem bitwise_is_equal_bits p1 p2 n : Forall is_byte p1 -> Forall is_byte p2 -> 0 <= n ->
  n <= 8 * Z.of_nat (length p1) -> n <= 8 * Z.of_nat (length p2) ->
  exists r, ucs_bitwise_is_equal p1 p2 n = Some r /\
    (r = true <-> forall i, 0 <= i < n -> buf_bit p1 i = buf_bit p2 i).
Proof.
  intros F1 F2 Hn L1 L2. unfold ucs_bitwise_is_equal.
  pose proof (Z.div_mod n 8 ltac:(lia)) as E. pose proof (Z.mod_pos_bound n 8 ltac:(lia)) as Hr.
  set (q := n / 8) in *. set (r := n mod 8) in *. assert (0 <= q) as Hq by lia.
  pose proof (take_eq_bits p1 p2 (Z.to_nat q) F1 F2 ltac:(lia) ltac:(lia)) as Htake.
  rewrite Z2Nat.id in Htake by done. case_bool_decide as Ht; simpl.
  2: { exists false. split; [done|]. split; [done|]. intros H. destruct Ht. apply Htake. intros i Hi. apply H. lia. }
  rewrite Htake in Ht. destruct (Z.eqb_spec r 0) as [Hr0|Hr0].
  - exists true. split; [done|]. split; [|done]. intros _ i Hi. apply Ht. lia.
  - destruct (lookup_lt_is_Some_2 p1 (Z.to_nat q)) as [a Ha]; [lia|].
    destruct (lookup_lt_is_Some_2 p2 (Z.to_nat q)) as [b Hb]; [lia|]. rewrite Ha, Hb. simpl.
    eexists. split; [done|]. rewrite Z.eqb_eq, high_bits_eq;
      [|by eapply (Forall_lookup_1 is_byte p1)|by eapply (Forall_lookup_1 is_byte p2)|lia].
    pose proof (fun j => buf_bit_byte p1 _ j a Ha) as Ba. pose proof (fun j => buf_bit_byte p2 _ j b Hb) as Bb.
    rewrite Z2Nat.id in Ba, Bb by done. split.
    + intros H1 i Hi. destruct (Z_lt_le_dec i (8 * q)); [apply Ht; lia|].
      replace i with (8 * q + (7 - (7 - (i - 8 * q)))) by lia. rewrite Ba, Bb by lia. apply H1. lia.
    + intros H1 j Hj. rewrite <- Ba, <- Bb by lia. apply H1. lia.
Qed.

Lemma bitwise_is_equal_bits_witness :
  exists r, ucs_bitwise_is_equal [1; 240] [1; 255] 12 = Some r /\
    (r = true <-> forall i, 0 <= i < 12 -> buf_bit [1; 240] i = buf_bit [1; 255] i).
Proof.
  apply (bitwise_is_equal_bits [1; 240] [1; 255] 12); [bytes_lit|bytes_lit|lia|simpl; lia|simpl; lia].
Defined.

Lemma last_nonzero_ok buf idx : (idx < length buf)%nat ->
  exists m tmp, last_nonzero buf idx = Some (m, tmp) /\ buf !! m = Some tmp /\ (m <= idx)%nat /\
    (forall k, (m < k <= idx)%nat -> buf !! k = Some 0) /\ (tmp = 0 -> m = O).
Proof.
  induction idx as [|idx IH]; intros Hlt; destruct (lookup_lt_is_Some_2 buf _ Hlt) as [t Ht].
  - exists O, t. simpl. rewrite Ht. split_and!; [done|done|lia|lia|done].
  - simpl. rewrite Ht. simpl. destruct (Z.eqb_spec t 0) as [->|Hne].
    + destruct IH as (m & tmp & -> & Hm & Hle & Hz & H0); [lia|].
      exists m, tmp. split_and!; [done|done|lia| |done]. intros k Hk.
      destruct (decide (k = S idx)) as [->|]; [done|]. apply Hz. lia.
    + exists (S idx), t. split_and!; [done|done|lia|lia|done].
Qed.

(** The sentinel bits above a byte bound the count by 8. *)
Lemma ctz_byte b : is_byte b ->
  ctz (Z.lor b (u32 (Z.shiftl (2 ^ 32 - 1) 8))) = if b =? 0 then 8 else ctz b.
Proof.
  intros Hb. change (u32 (Z.shiftl (2 ^ 32 - 1) 8)) with (16777215 * 2 ^ 8).
  rewrite Z_lor_add by (done || unfold is_byte in Hb; lia).
  destruct (Z.eqb_spec b 0) as [->|Hne]; [reflexivity|]. unfold is_byte in Hb.
  set (n := b + 16777215 * 2 ^ 8). assert (0 < n) as Hn by lia.
  destruct (ctz_testbit n Hn) as [Ht Hl]. destruct (ctz_testbit b) as [Htb Hlb]; [lia|].
  pose proof (ctz_bound b 8 ltac:(lia)) as Hcb. destruct (ctz_split n Hn) as [Hcn _].
  assert (forall i, 0 <= i < 8 -> Z.testbit n i = Z.testbit b i) as Hlow.
  { intros i Hi. unfold n. rewrite <- Z_lor_add by lia. rewrite Z.lor_spec, Z.mul_pow2_bits_low by lia.
    by rewrite orb_false_r. }
  destruct (Z.lt_total (ctz n) (ctz b)) as [Hlt|[E|Hlt]]; [|done|].
  - rewrite Hlow, Hlb in Ht by lia. done.
  - specialize (Hl (ctz b) Hlt). rewrite Hlow in Hl by lia. congruence.
Qed.

(** On whole bytes [ucs_count_ptr_trailing_zero_bits] returns the number of
    zero bits at the end of the buffer: the last [k] bits are zero and, unless
    the whole buffer is zero, the bit before them is not. *)
Theorem ptr_trailing_zero_bits_whole buf n : Forall is_byte buf -> 0 < n < 2 ^ 32 -> n mod 8 = 0 ->
  n <= 8 * Z.of_nat (length buf) ->
  exists k, ucs_count_ptr_trailing_zero_bits buf n = Some k /\ 0 <= k <= n /\
    (forall i, n - k <= i < n -> buf_bit buf i = false) /\
    (k < n -> buf_bit buf (n - k - 1) = true).
Proof.
  intros F Hn Hm L. unfold ucs_count_ptr_trailing_zero_bits.
  rewrite (proj2 (Z.eqb_neq n 0)), Hm by lia. cbn [Z.eqb negb mbind option_bind].
  pose proof (Z.div_mod n 8 ltac:(lia)) as E.
  destruct (last_nonzero_ok buf (Z.to_nat (n / 8 - 1))) as (m & tmp & -> & Hlk & Hle & Hz & H0); [lia|].
  cbn [mbind option_bind]. assert (is_byte tmp) as Hb by by eapply (Forall_lookup_1 is_byte buf).
  rewrite ctz_byte by done. set (c := if tmp =? 0 then 8 else ctz tmp).
  assert (0 <= c <= 8 /\ (c = 8 -> tmp = 0) /\ (forall j, 0 <= j < c -> Z.testbit tmp j = false) /\
          (tmp <> 0 -> Z.testbit tmp c = true)) as (Hc & Hc8 & Hlow & Hbit).
  { unfold c. destruct (Z.eqb_spec tmp 0) as [->|Hne].
    - split_and!; [lia|lia|done| |done]. intros. apply Z.bits_0.
    - unfold is_byte in Hb. pose proof (ctz_bound tmp 8 ltac:(lia)). destruct (ctz_testbit tmp) as [? Hl]; [lia|].
      split_and!; [lia|lia|lia| |done]. intros. apply Hl. lia. }
  rewrite u_wrap_small by lia. eexists. split; [done|]. split_and!; [lia|lia| |].
  - intros i Hi. set (j := Z.to_nat (i / 8)). pose proof (Z.div_mod i 8 ltac:(lia)) as Ei.
    pose proof (Z.mod_pos_bound i 8 ltac:(lia)). unfold buf_bit. fold j.
    destruct (decide (j = m)) as [Ej|Hne]; [rewrite Ej, Hlk; apply Hlow; lia|].
    rewrite Hz by lia. apply Z.bits_0.
  - intros Hk. destruct (decide (tmp = 0)) as [E0|Hne].
    { specialize (H0 E0). unfold c in Hk. subst tmp m. simpl in Hk. lia. }
    assert (c <> 8) by tauto.
    replace (n - _ - 1) with (8 * Z.of_nat m + (7 - c)) by lia.
    rewrite (buf_bit_byte buf m c tmp) by (done || lia). auto.
Qed.

Lemma ptr_trailing_zero_bits_whole_witness :
  exists k, ucs_count_ptr_trailing_zero_bits [255; 16; 0] 24 = Some k /\ 0 <= k <= 24 /\
    (forall i, 24 - k <= i < 24 -> buf_bit [255; 16; 0] i = false) /\
    (k < 24 -> buf_bit [255; 16; 0] (24 - k - 1) = true).
Proof. apply (ptr_trailing_zero_bits_whole [255; 16; 0] 24); [bytes_lit|lia|reflexivity|simpl; lia]. Defined.

(** On a trailing fraction of a byte the count includes the bits below the
    fraction: all ten bits of the buffer are set, and the result is 6. *)
Lemma ptr_trailing_zero_bits_fraction :
  ucs_count_ptr_trailing_zero_bits [255; 255] 10 = Some 6 /\ buf_bit [255; 255] 9 = true.
Proof. done. Qed.

End Bits.
