(* ===== verification/Float8.v ===== *)
(** Floating point numbers, and the packed ones of [ucs/type/float8.h].

    A [double] is a number of the format binary64 of IEEE 754 as the library
    [SpecFloat] has it, with the rounding of its operations; a [float] is the 32 bits
    of a binary32.  [ucs_fp8_pack] and [ucs_fp8_unpack] work on the fields of
    [union ieee754_double]. *)

From Stdlib Require Import SpecFloat.
From S2P Require Import Prelude.
From S2P Require Import Bits.

Module Float8.
Import Bits.

(** ** Numbers of the language *)

Definition double : Type := spec_float.

Definition dadd : double -> double -> double := SFadd 53 1024.
Definition dmul : double -> double -> double := SFmul 53 1024.
Definition ddiv : double -> double -> double := SFdiv 53 1024.
Definition dabs (x : double) : double := SFabs x.
Definition dopp (x : double) : double := SFopp x.

(** Conversion of an integer. *)
Definition of_int (n : Z) : double := binary_normalize 53 1024 n 0 false.

(** [x < y] and [x <= y], false when one of them is not a number. *)
Definition dlt (x y : double) : bool := SFltb x y.
Definition dle (x y : double) : bool := SFleb x y.

(** [ucs_min] of two doubles. *)
Definition dmin (x y : double) : double := if dlt x y then x else y.

(** The fields of [union ieee754_double]. *)
Record ieee754_double := Ieee { negative : bool; exponent : Z; mantissa0 : Z; mantissa1 : Z }.

Definition IEEE754_DOUBLE_BIAS : Z := 1023.

Definition fields (neg : bool) (e m : Z) : ieee754_double := Ieee neg e (Z.shiftr m 32) (Z.land m (Z.ones 32)).

Definition to_ieee (x : double) : ieee754_double :=
  match x with
  | S754_zero s => fields s 0 0
  | S754_infinity s => fields s 2047 0
  | S754_nan => fields false 2047 (2 ^ 51)
  | S754_finite s m e => if Zpos m <? 2 ^ 52 then fields s 0 (Zpos m) else fields s (e + 1075) (Zpos m - 2 ^ 52)
  end.

Definition of_ieee (v : ieee754_double) : double :=
  let m := Z.shiftl (mantissa0 v) 32 + mantissa1 v in
  if exponent v =? 2047 then (if m =? 0 then S754_infinity (negative v) else S754_nan)
  else if exponent v =? 0 then
    match m with Zpos p => S754_finite (negative v) p (-1074) | _ => S754_zero (negative v) end
  else match 2 ^ 52 + m with Zpos p => S754_finite (negative v) p (exponent v - 1075) | _ => S754_nan end.

(** The bits of a [float]. *)
Definition float_bits (s : bool) (e m : Z) : Z := u32 ((if s then 2 ^ 31 else 0) + e * 2 ^ 23 + m).

(** The value of a [double] as a [float]. *)
Definition double_to_float (x : double) : Z :=
  match x with
  | S754_zero s => float_bits s 0 0
  | S754_infinity s => float_bits s 255 0
  | S754_nan => float_bits false 255 (2 ^ 22)
  | S754_finite s m e =>
      match binary_normalize 24 128 (cond_Zopp s (Zpos m)) e s with
      | S754_zero s => float_bits s 0 0
      | S754_infinity s => float_bits s 255 0
      | S754_nan => float_bits false 255 (2 ^ 22)
      | S754_finite s m e => if Zpos m <? 2 ^ 23 then float_bits s 0 (Zpos m) else float_bits s (e + 150) (Zpos m - 2 ^ 23)
      end
  end.

Definition float_to_double (w : Z) : double :=
  let s := Z.testbit w 31 in
  let e := Z.land (Z.shiftr w 23) 255 in
  let m := Z.land w (Z.ones 23) in
  if e =? 255 then (if m =? 0 then S754_infinity s else S754_nan)
  else if e =? 0 then (if m =? 0 then S754_zero s else binary_normalize 53 1024 (cond_Zopp s m) (-149) s)
  else binary_normalize 53 1024 (cond_Zopp s (2 ^ 23 + m)) (e - 150) s.

Definition float_signbit (w : Z) : bool := Z.testbit w 31.

(** ** Packed numbers *)

Definition _UCS_FP8_EXPONENT_BITS : Z := 4.
Definition _UCS_FP8_MANTISSA_BITS : Z := 4.
Definition _UCS_FP8_IEEE_EXPONENT_BITS : Z := 11.
Definition _UCS_FP8_IEEE_MANTISSA_BITS : Z := 20.
Definition _UCS_FP_MANTISSA_OFFSET : Z := _UCS_FP8_IEEE_MANTISSA_BITS - _UCS_FP8_MANTISSA_BITS.
Definition _UCS_FP8_IEEE_NAN_EXPONENT : Z := UCS_MASK _UCS_FP8_IEEE_EXPONENT_BITS.
Definition _UCS_FP8_NAN : Z := UCS_MASK _UCS_FP8_EXPONENT_BITS.
Definition _UCS_FP8_EXPONENT_OFFSET : Z := IEEE754_DOUBLE_BIAS - 1.
Definition _UCS_FP8_EXPONENT_MASK : Z := UCS_MASK _UCS_FP8_EXPONENT_BITS.

(** [value == 0] *)
Definition is_zero (v : ieee754_double) : bool := (exponent v =? 0) && (mantissa0 v =? 0) && (mantissa1 v =? 0).

Definition ucs_fp8_pack (value : ieee754_double) (min max : Z) : Z :=
  let min_exponent := s_wrap 8 (ucs_ilog2 min) in
  let max_exponent := s_wrap 8 (ucs_ilog2 max) in
  let '(e, m0) :=
    if exponent value =? _UCS_FP8_IEEE_NAN_EXPONENT then (_UCS_FP8_NAN, mantissa0 value)
    else if max_exponent + _UCS_FP8_EXPONENT_OFFSET <? exponent value then (u8 (max_exponent - min_exponent), 0)
    else if exponent value <? min_exponent + _UCS_FP8_EXPONENT_OFFSET then
      (if is_zero value then (0, mantissa0 value) else (1, 0))
    else (u8 (exponent value - _UCS_FP8_EXPONENT_OFFSET - min_exponent), mantissa0 value) in
  u8 (Z.lor e (Z.shiftl (Z.shiftr m0 _UCS_FP_MANTISSA_OFFSET) _UCS_FP8_EXPONENT_BITS)).

Definition ucs_fp8_unpack (value min max : Z) : ieee754_double :=
  let e := Z.land value _UCS_FP8_EXPONENT_MASK in
  let exp :=
    if e =? 0 then 0
    else if e =? _UCS_FP8_NAN then _UCS_FP8_IEEE_NAN_EXPONENT
    else e + _UCS_FP8_EXPONENT_OFFSET + ucs_ilog2 min in
  Ieee false (u_wrap 11 exp) (u_wrap 20 (Z.shiftl (Z.shiftr value _UCS_FP8_EXPONENT_BITS) _UCS_FP_MANTISSA_OFFSET)) 0.

(** [UCS_FP8_DECLARE_TYPE] *)
Definition UCS_FP8_PACK (min max : Z) (value : double) : option Z :=
  if ucs_ilog2 (max / min) <? UCS_BIT _UCS_FP8_EXPONENT_BITS - 2 then Some (ucs_fp8_pack (to_ieee value) min max) else None.

Definition UCS_FP8_UNPACK (min max value : Z) : double := of_ieee (ucs_fp8_unpack value min max).

(** ** Theorems *)

(** The range of a packed type: from [2 ^ a] to [2 ^ b]. *)
Definition fp8_range (a b : Z) : Prop := 0 <= a < b /\ b <= 63 /\ b - a < 14.

Definition wf_double (v : ieee754_double) : Prop := 0 <= exponent v < 2047 /\ 0 <= mantissa0 v < 2 ^ 20 /\ 0 <= mantissa1 v < 2 ^ 32.

(** The significand of a normal number: its value is [significand v * 2 ^ (exponent v - 1075)]. *)
Definition significand (v : ieee754_double) : Z := 2 ^ 52 + mantissa0 v * 2 ^ 32 + mantissa1 v.

Lemma ilog2_pow a : 0 <= a <= 63 -> ucs_ilog2 (2 ^ a) = a.
Proof.
  intros Ha. unfold ucs_ilog2. rewrite ilog2_u64_log2; [apply Z.log2_pow2; lia|]. split; [lia|]. apply Z.pow_lt_mono_r; lia.
Qed.

Lemma fp8_wrap_small x : 0 <= x <= 63 -> s_wrap 8 x = x.
Proof. intros Hx. apply s_wrap_unique; [lia|done|]. cbn. lia. Qed.

(** The code of an exponent below 16 and of a mantissa. *)
Lemma fp8_code e m0 : 0 <= e < 16 -> 0 <= m0 < 2 ^ 20 ->
  let c := u8 (Z.lor e (Z.shiftl (Z.shiftr m0 _UCS_FP_MANTISSA_OFFSET) _UCS_FP8_EXPONENT_BITS)) in
  c = e + 16 * (m0 / 2 ^ 16) /\ 0 <= c < 256 /\ Z.land c _UCS_FP8_EXPONENT_MASK = e /\ Z.shiftr c _UCS_FP8_EXPONENT_BITS = m0 / 2 ^ 16.
Proof.
  intros He Hm. cbv zeta. assert (0 <= m0 / 2 ^ 16 < 16) as Hq.
  { split; [apply Z.div_pos; lia|]. apply Z.div_lt_upper_bound; lia. }
  change _UCS_FP_MANTISSA_OFFSET with 16. change _UCS_FP8_EXPONENT_BITS with 4. change _UCS_FP8_EXPONENT_MASK with (Z.ones 4).
  rewrite Z.shiftr_div_pow2, Z.shiftl_mul_pow2 by lia. set (q := m0 / 2 ^ 16) in *.
  assert (Z.lor e (q * 2 ^ 4) = e + 16 * q) as E.
  { rewrite <- Z.add_nocarry_lor; [lia|]. apply Z.bits_inj'. intros i Hi. rewrite Z.land_spec, Z.bits_0.
    destruct (Z.ltb_spec i 4) as [Hlt|Hge]; [rewrite (Z.mul_pow2_bits_low q 4 i) by lia; apply andb_false_r|].
    destruct (Z.eq_dec e 0) as [->|Hne]; [by rewrite Z.bits_0|]. rewrite (Z.bits_above_log2 e i); [done|lia|].
    pose proof (Z.log2_lt_pow2 e 4 ltac:(lia)). lia. }
  rewrite E. unfold u_wrap. rewrite Z.mod_small by lia. split_and!; [done|lia|lia|..].
  - rewrite Z.land_ones by lia. change (2 ^ 4) with 16. rewrite Z.mul_comm, Z.mod_add by lia. apply Z.mod_small. lia.
  - rewrite Z.shiftr_div_pow2 by lia. change (2 ^ 4) with 16. rewrite Z.mul_comm, Z.div_add by lia. rewrite Z.div_small; lia.
Qed.

Section range.
Context (a b : Z) (Hab : fp8_range a b).

Lemma fp8_unpack_code c min max : 0 <= c < 256 -> min = 2 ^ a ->
  mantissa0 (ucs_fp8_unpack c min max) = Z.shiftr c 4 * 2 ^ 16 /\ mantissa1 (ucs_fp8_unpack c min max) = 0 /\
  exponent (ucs_fp8_unpack c min max) = (let e := Z.land c 15 in if e =? 0 then 0 else if e =? 15 then 2047 else e + 1022 + a).
Proof.
  intros Hc ->. destruct Hab as (Ha & Hb & _). unfold ucs_fp8_unpack. cbn [mantissa0 mantissa1 exponent].
  change _UCS_FP_MANTISSA_OFFSET with 16. change _UCS_FP8_EXPONENT_BITS with 4. change _UCS_FP8_EXPONENT_MASK with 15.
  change _UCS_FP8_NAN with 15. change _UCS_FP8_IEEE_NAN_EXPONENT with 2047. change _UCS_FP8_EXPONENT_OFFSET with 1022.
  assert (0 <= Z.shiftr c 4 < 16) as Hs.
  { rewrite Z.shiftr_div_pow2 by lia. split; [apply Z.div_pos; lia|]. apply Z.div_lt_upper_bound; lia. }
  assert (0 <= Z.land c 15 < 16) as Hl by (change 15 with (Z.ones 4); rewrite Z.land_ones by lia; apply Z.mod_pos_bound; lia).
  rewrite ilog2_pow by lia. unfold u_wrap. rewrite Z.shiftl_mul_pow2 by lia. rewrite (Z.mod_small (_ * _)) by lia. split_and!; [done|done|].
  cbv zeta. zcase; lia || (rewrite Z.mod_small; lia).
Qed.

Lemma fp8_pack_unfold v : ucs_fp8_pack v (2 ^ a) (2 ^ b) =
  let '(e, m0) := if exponent v =? 2047 then (15, mantissa0 v)
    else if b + 1022 <? exponent v then (b - a, 0)
    else if exponent v <? a + 1022 then (if is_zero v then (0, mantissa0 v) else (1, 0))
    else (u8 (exponent v - 1022 - a), mantissa0 v) in
  u8 (Z.lor e (Z.shiftl (Z.shiftr m0 _UCS_FP_MANTISSA_OFFSET) _UCS_FP8_EXPONENT_BITS)).
Proof.
  destruct Hab as (Ha & Hb & Hd). unfold ucs_fp8_pack. rewrite !ilog2_pow, !fp8_wrap_small by lia.
  change _UCS_FP8_NAN with 15. change _UCS_FP8_IEEE_NAN_EXPONENT with 2047. change _UCS_FP8_EXPONENT_OFFSET with 1022.
  assert (u8 (b - a) = b - a) as -> by (unfold u_wrap; apply Z.mod_small; lia). done.
Qed.

(** The code of a number from [2 ^ (a - 1)] on and below [2 ^ b]. *)
Lemma fp8_pack_normal v : wf_double v -> a + 1022 <= exponent v <= b + 1022 ->
  ucs_fp8_pack v (2 ^ a) (2 ^ b) = (exponent v - 1022 - a) + 16 * (mantissa0 v / 2 ^ 16).
Proof.
  intros (He & H0 & H1) Hr. destruct Hab as (Ha & Hb & Hd). rewrite fp8_pack_unfold. rewrite (proj2 (Z.eqb_neq _ _)) by lia.
  rewrite (proj2 (Z.ltb_ge (b + 1022) _)), (proj2 (Z.ltb_ge (exponent v) _)) by lia.
  assert (u8 (exponent v - 1022 - a) = exponent v - 1022 - a) as -> by (unfold u_wrap; apply Z.mod_small; lia).
  apply fp8_code; [lia|done].
Qed.

Lemma fp8_normal_code v : wf_double v -> a + 1022 <= exponent v <= b + 1022 ->
  let c := ucs_fp8_pack v (2 ^ a) (2 ^ b) in
  0 <= c < 256 /\ Z.land c 15 = exponent v - 1022 - a /\ Z.shiftr c 4 = mantissa0 v / 2 ^ 16.
Proof.
  intros Hv Hr c. unfold c. rewrite fp8_pack_normal by done. destruct Hv as (He & H0 & H1), Hab as (Ha & Hb & Hd).
  destruct (fp8_code (exponent v - 1022 - a) (mantissa0 v)) as (Ec & Hc & E1 & E2); [lia|done|]. rewrite <- Ec. done.
Qed.

End range.

(** C28: The precision of packed numbers.  A number from the minimum of the type on and
    below its maximum keeps its exponent, and loses less than a sixteenth of its value:
    the quotient of the number that is unpacked and the one that was packed is above
    15/16, which is [UCS_FP8_PRECISION], and at most 1. *)
Theorem fp8_precision a b v : fp8_range a b -> wf_double v -> a + IEEE754_DOUBLE_BIAS <= exponent v < b + IEEE754_DOUBLE_BIAS ->
  let u := ucs_fp8_unpack (ucs_fp8_pack v (2 ^ a) (2 ^ b)) (2 ^ a) (2 ^ b) in
  wf_double u /\ exponent u = exponent v /\ 15 * significand v < 16 * significand u /\ significand u <= significand v.
Proof.
  intros Hab Hv Hr. unfold IEEE754_DOUBLE_BIAS in Hr. destruct (fp8_normal_code a b Hab v Hv) as (Hc & E1 & E2); [lia|]. cbv zeta.
  set (c := ucs_fp8_pack v (2 ^ a) (2 ^ b)) in *. destruct (fp8_unpack_code a b Hab c (2 ^ a) (2 ^ b) Hc eq_refl) as (U1 & U2 & U3).
  rewrite E1 in U3. cbv zeta in U3. destruct Hab as (Ha & Hb & Hd), Hv as (He & H0 & H1).
  rewrite (proj2 (Z.eqb_neq _ 0)), (proj2 (Z.eqb_neq _ 15)) in U3 by lia. rewrite E2 in U1.
  pose proof (Z.div_mod (mantissa0 v) (2 ^ 16) ltac:(lia)) as Hdm. pose proof (Z.mod_pos_bound (mantissa0 v) (2 ^ 16) ltac:(lia)) as Hm.
  unfold wf_double, significand. rewrite U1, U2, U3. lia.
Qed.

Lemma fp8_precision_witness : let v := Ieee false 1035 123456 789 in let u := ucs_fp8_unpack (ucs_fp8_pack v (2 ^ 4) (2 ^ 17)) (2 ^ 4) (2 ^ 17) in
  wf_double u /\ exponent u = exponent v /\ 15 * significand v < 16 * significand u /\ significand u <= significand v.
Proof.
  apply (fp8_precision 4 17 (Ieee false 1035 123456 789)); unfold fp8_range, wf_double, IEEE754_DOUBLE_BIAS; cbn; lia.
Defined.

(** The codes that [ucs_fp8_pack] gives for numbers in the range are those that it
    gives again for the unpacked numbers: packing loses nothing the second time. *)
Theorem fp8_roundtrip a b c : fp8_range a b -> 0 <= c < 256 -> 1 <= Z.land c 15 <= b - a ->
  ucs_fp8_pack (ucs_fp8_unpack c (2 ^ a) (2 ^ b)) (2 ^ a) (2 ^ b) = c.
Proof.
  intros Hab Hc He. destruct (fp8_unpack_code a b Hab c (2 ^ a) (2 ^ b) Hc eq_refl) as (U1 & U2 & U3). cbv zeta in U3.
  set (u := ucs_fp8_unpack c (2 ^ a) (2 ^ b)) in *. pose proof Hab as (Ha & Hb & Hd).
  rewrite (proj2 (Z.eqb_neq _ 0)), (proj2 (Z.eqb_neq _ 15)) in U3 by lia.
  assert (0 <= Z.shiftr c 4 < 16) as Hs.
  { rewrite Z.shiftr_div_pow2 by lia. split; [apply Z.div_pos; lia|]. apply Z.div_lt_upper_bound; lia. }
  rewrite (fp8_pack_normal a b Hab) by (unfold wf_double; lia). rewrite U1, U3, Z.div_mul by lia.
  change 15 with (Z.ones 4). rewrite Z.land_ones, Z.shiftr_div_pow2 by lia. pose proof (Z.div_mod c (2 ^ 4) ltac:(lia)). lia.
Qed.

(** Numbers below the minimum.  A number below the minimum of the type, but not
    below its half, is packed with the exponent of zero: what is unpacked is zero or a
    subnormal number, below [2 ^ -1022], and not the minimum as for the numbers below
    the half. *)
Theorem fp8_below_min a b v : fp8_range a b -> wf_double v -> exponent v < a + IEEE754_DOUBLE_BIAS -> is_zero v = false ->
  let u := ucs_fp8_unpack (ucs_fp8_pack v (2 ^ a) (2 ^ b)) (2 ^ a) (2 ^ b) in
  if exponent v =? a + IEEE754_DOUBLE_BIAS - 1 then exponent u = 0
  else exponent u = a + IEEE754_DOUBLE_BIAS /\ significand u = 2 ^ 52.
Proof.
  intros Hab Hv Hr Hz. unfold IEEE754_DOUBLE_BIAS in *. pose proof Hab as (Ha & Hb & Hd). cbv zeta. destruct (Z.eqb_spec (exponent v) (a + 1023 - 1)) as [E|E].
  - destruct (fp8_normal_code a b Hab v Hv) as (Hc & E1 & E2); [lia|]. set (c := ucs_fp8_pack v (2 ^ a) (2 ^ b)) in *.
    destruct (fp8_unpack_code a b Hab c (2 ^ a) (2 ^ b) Hc eq_refl) as (_ & _ & U3). rewrite E1 in U3. cbv zeta in U3.
    rewrite (proj2 (Z.eqb_eq _ 0)) in U3 by lia. done.
  - destruct Hv as (He & H0 & H1). assert (ucs_fp8_pack v (2 ^ a) (2 ^ b) = 1) as ->.
    { rewrite (fp8_pack_unfold a b Hab), (proj2 (Z.eqb_neq _ _)) by lia. rewrite (proj2 (Z.ltb_ge (b + 1022) _)), (proj2 (Z.ltb_lt (exponent v) _)), Hz by lia. done. }
    destruct (fp8_unpack_code a b Hab 1 (2 ^ a) (2 ^ b) ltac:(lia) eq_refl) as (U1 & U2 & U3).
    cbv zeta in U3. change (Z.land 1 15) with 1 in U3. change (Z.shiftr 1 4) with 0 in U1. unfold significand. rewrite U1, U2, U3. cbn. lia.
Qed.

(** The bandwidth 312.5 MB/s of a 2.5 Gbit/s network is unpacked as a subnormal number,
    and exactly 256 MB/s as zero. *)
Lemma fp8_below_min_witness :
  exponent (ucs_fp8_unpack (ucs_fp8_pack (to_ieee (of_int 312500000)) (2 ^ 29) (2 ^ 42)) (2 ^ 29) (2 ^ 42)) = 0.
Proof.
  pose proof (fp8_below_min 29 42 (to_ieee (of_int 312500000)) ltac:(unfold fp8_range; lia) ltac:(vm_compute; split_and!; congruence)
    ltac:(by vm_compute) ltac:(by vm_compute)) as H. exact H.
Defined.

(** Numbers from the maximum of the type on are unpacked as the half of the maximum,
    which is less than what smaller numbers are unpacked as. *)
Theorem fp8_above_max a b v : fp8_range a b -> wf_double v -> b + IEEE754_DOUBLE_BIAS <= exponent v ->
  let u := ucs_fp8_unpack (ucs_fp8_pack v (2 ^ a) (2 ^ b)) (2 ^ a) (2 ^ b) in
  exponent u = b + IEEE754_DOUBLE_BIAS - 1 /\ significand u = 2 ^ 52.
Proof.
  intros Hab (He & H0 & H1) Hr. unfold IEEE754_DOUBLE_BIAS in *. pose proof Hab as (Ha & Hb & Hd). cbv zeta.
  rewrite (fp8_pack_unfold a b Hab), (proj2 (Z.eqb_neq _ _)), (proj2 (Z.ltb_lt (b + 1022) _)) by lia.
  destruct (fp8_code (b - a) 0) as (Ec & Hc & E1 & E2); [lia|lia|]. change (0 / 2 ^ 16) with 0 in *.
  set (c := u8 _) in *. destruct (fp8_unpack_code a b Hab c (2 ^ a) (2 ^ b) Hc eq_refl) as (U1 & U2 & U3). cbv zeta in U3.
  change (Z.land c 15) with (Z.land c _UCS_FP8_EXPONENT_MASK) in U3. rewrite E1 in U3. rewrite (proj2 (Z.eqb_neq _ 0)), (proj2 (Z.eqb_neq _ 15)) in U3 by lia.
  change (Z.shiftr c 4) with (Z.shiftr c _UCS_FP8_EXPONENT_BITS) in U1. rewrite E2 in U1. unfold significand. rewrite U1, U2, U3. lia.
Qed.

(** ** Conversions to [float] *)

Lemma shr_1_m mrs : 0 <= shr_m mrs -> shr_m (shr_1 mrs) = shr_m mrs / 2.
Proof.
  destruct mrs as [m r s]. cbn [shr_m]. intros Hm. destruct m as [|[p|p|]|p]; cbn [shr_1 shr_m]; [done| | |done|lia].
  - change (Z.pos p~1) with (2 * Z.pos p + 1). apply (Z.div_unique_pos _ _ _ 1); lia.
  - change (Z.pos p~0) with (2 * Z.pos p). by rewrite Z.mul_comm, Z.div_mul by lia.
Qed.

Lemma iter_shr_1 p mrs : 0 <= shr_m mrs -> shr_m (SpecFloat.iter_pos shr_1 p mrs) = shr_m mrs / 2 ^ Zpos p.
Proof.
  revert mrs. induction p as [p IH|p IH|]; intros mrs Hm; cbn [SpecFloat.iter_pos].
  - assert (H1 : 0 <= shr_m (shr_1 mrs)) by (rewrite shr_1_m by done; apply Z.div_pos; lia).
    rewrite !IH, shr_1_m by (rewrite ?IH by done; try apply Z.div_pos; lia).
    rewrite !Z.div_div by lia. f_equal. change 2 with (2 ^ 1) at 1. rewrite <- !Z.pow_add_r by lia. f_equal. lia.
  - rewrite !IH by (rewrite ?IH by done; try apply Z.div_pos; lia).
    rewrite !Z.div_div by lia. f_equal. rewrite <- !Z.pow_add_r by lia. f_equal. lia.
  - by apply shr_1_m.
Qed.

Lemma digits2_pos_bound m : Zpos m < 2 ^ Zpos (digits2_pos m).
Proof. induction m as [m IH|m IH|]; cbn [digits2_pos]; rewrite ?Pos2Z.inj_succ, ?Z.pow_succ_r by lia; lia. Qed.

Lemma shr_record_of_loc_m m l : shr_m (shr_record_of_loc m l) = m.
Proof. by destruct l as [|[]]. Qed.

(** After [shr_fexp] the mantissa has at most [prec] bits and the exponent is in range. *)
Lemma shr_fexp_bound prec emax m e l : 0 < prec -> 0 <= m ->
  0 <= shr_m (shr_fexp prec emax m e l).1 < 2 ^ prec /\ emin prec emax <= (shr_fexp prec emax m e l).2.
Proof.
  intros Hp Hm. unfold shr_fexp. set (d := Zdigits2 m). assert (Hd : 0 <= d /\ m < 2 ^ d).
  { unfold d. destruct m as [|m|]; cbn; [lia| |lia]. pose proof (digits2_pos_bound m). lia. }
  unfold shr, fexp. set (n := Z.max _ _ - e). assert (Hn : d - prec <= n /\ emin prec emax <= e + n) by lia.
  destruct n as [|p|p] eqn:E; cbn [fst snd]; rewrite ?iter_shr_1; rewrite ?shr_record_of_loc_m; try done.
  - split; [|lia]. split; [done|]. apply (Z.lt_le_trans _ (2 ^ d)); [lia|]. apply Z.pow_le_mono_r; lia.
  - split; [|lia]. split; [apply Z.div_pos; lia|]. apply Z.div_lt_upper_bound; [lia|]. rewrite <- Z.pow_add_r by lia.
    apply (Z.lt_le_trans _ (2 ^ d)); [lia|]. apply Z.pow_le_mono_r; lia.
  - split; [|lia]. split; [done|]. apply (Z.lt_le_trans _ (2 ^ d)); [lia|]. apply Z.pow_le_mono_r; lia.
Qed.

Lemma round_nearest_even_nonneg m l : 0 <= m -> 0 <= round_nearest_even m l.
Proof. intros. destruct l as [|[]]; cbn; try destruct (Z.even m); lia. Qed.

Lemma round_nearest_even_ge m l : m <= round_nearest_even m l.
Proof. destruct l as [|[]]; cbn; try destruct (Z.even m); lia. Qed.

Lemma digits2_pos_lower m : 2 ^ (Zpos (digits2_pos m) - 1) <= Zpos m.
Proof.
  induction m as [m IH|m IH|]; cbn [digits2_pos]; rewrite ?Pos2Z.inj_succ; [..|done].
  all: replace (Z.succ (Zpos (digits2_pos m)) - 1) with (Z.succ (Zpos (digits2_pos m) - 1)) by lia; rewrite Z.pow_succ_r by lia; lia.
Qed.

(** A number that is not below the smallest one of the format is not shifted to 0. *)
Lemma shr_fexp_pos prec emax m e l : 0 < prec -> 0 < m -> 2 ^ Z.max 0 (emin prec emax - e) <= m ->
  0 < shr_m (shr_fexp prec emax m e l).1.
Proof.
  intros Hp Hm Hmin. unfold shr_fexp, shr, fexp. destruct m as [|m|]; [lia| |lia]. cbn [Zdigits2].
  pose proof (digits2_pos_lower m) as Hd. set (n := Z.max _ _ - e).
  assert (n <= Zpos (digits2_pos m) - 1 \/ n <= Z.max 0 (emin prec emax - e)) as Hn by lia.
  destruct n as [|k|k] eqn:E; cbn [fst]; rewrite ?iter_shr_1; rewrite ?shr_record_of_loc_m; try lia.
  apply Z.div_str_pos. split; [lia|]. destruct Hn as [Hn|Hn].
  - apply (Z.le_trans _ (2 ^ (Zpos (digits2_pos m) - 1))); [apply Z.pow_le_mono_r; lia|lia].
  - apply (Z.le_trans _ (2 ^ Z.max 0 (emin prec emax - e))); [apply Z.pow_le_mono_r; lia|lia].
Qed.

(** A number whose fields are those of a positive finite number is above 0. *)
Lemma of_ieee_pos u : negative u = false -> exponent u <> 2047 -> 0 <= mantissa0 u -> 0 <= mantissa1 u ->
  (exponent u = 0 -> 0 < mantissa0 u) -> dle (of_ieee u) (of_int 0) = false.
Proof.
  intros Hs He H0 H1 Hp. unfold of_ieee. rewrite Hs, (proj2 (Z.eqb_neq _ _) He), Z.shiftl_mul_pow2 by lia.
  destruct (Z.eqb_spec (exponent u) 0) as [E|E].
  - specialize (Hp E). destruct (mantissa0 u * 2 ^ 32 + mantissa1 u) as [|q|q] eqn:Eq; [lia|done|lia].
  - destruct (2 ^ 52 + (mantissa0 u * 2 ^ 32 + mantissa1 u)) as [|q|q] eqn:Eq; [lia|done|lia].
Qed.

(** A rounded number: its sign, and the ranges of its fields. *)
Definition rounded (prec emax : Z) (s : bool) (x : spec_float) : Prop :=
  match x with
  | S754_zero s' | S754_infinity s' => s' = s
  | S754_nan => False
  | S754_finite s' m e => s' = s /\ Zpos m < 2 ^ prec /\ emin prec emax <= e <= emax - prec
  end.

Lemma binary_round_ok prec emax s m e : 0 < prec -> rounded prec emax s (binary_round prec emax s m e).
Proof.
  intros Hp. unfold binary_round. destruct (shl_align _ _ _) as [mz ez]. unfold binary_round_aux.
  pose proof (shr_fexp_bound prec emax (Zpos mz) ez loc_Exact Hp ltac:(lia)) as [H1 _]. destruct (shr_fexp _ _ (Zpos mz) _ _) as [r1 e1]; cbn in H1.
  pose proof (shr_fexp_bound prec emax (round_nearest_even (shr_m r1) (loc_of_shr_record r1)) e1 loc_Exact Hp
    ltac:(apply round_nearest_even_nonneg; lia)) as [H2 H3].
  destruct (shr_fexp _ _ (round_nearest_even _ _) _ _) as [r2 e2]; cbn in H2, H3.
  destruct (shr_m r2) as [|p|p]; [done| |lia]. destruct (e2 <=? emax - prec) eqn:E; zbool_hyps; cbn; [|done]. split_and!; (done || lia).
Qed.

Lemma binary_round_pos prec emax s m e s' : 0 < prec -> 2 ^ Z.max 0 (emin prec emax - e) <= Zpos m ->
  binary_round prec emax s m e <> S754_zero s'.
Proof.
  intros Hp Hm. unfold binary_round.
  assert (exists mz ez, shl_align m e (fexp prec emax (Zpos (digits2_pos m) + e)) = (mz, ez) /\
    2 ^ Z.max 0 (emin prec emax - ez) <= Zpos mz) as (mz & ez & -> & Hz).
  { unfold shl_align. destruct (fexp _ _ _ - e) as [|k|k] eqn:E; [by eexists _, _..|]. eexists _, _. split; [done|].
    unfold fexp in *. rewrite Z.max_l by lia. lia. }
  unfold binary_round_aux. pose proof (shr_fexp_pos prec emax (Zpos mz) ez loc_Exact Hp ltac:(lia) Hz) as H1.
  pose proof (shr_fexp_bound prec emax (Zpos mz) ez loc_Exact Hp ltac:(lia)) as [_ H1'].
  destruct (shr_fexp _ _ (Zpos mz) _ _) as [r1 e1]; cbn [fst snd] in *.
  pose proof (round_nearest_even_ge (shr_m r1) (loc_of_shr_record r1)) as Hr.
  pose proof (shr_fexp_pos prec emax (round_nearest_even (shr_m r1) (loc_of_shr_record r1)) e1 loc_Exact Hp ltac:(lia)) as H2.
  rewrite Z.max_l in H2 by lia. specialize (H2 ltac:(lia)).
  destruct (shr_fexp _ _ (round_nearest_even _ _) _ _) as [r2 e2]; cbn [fst snd] in *.
  destruct (shr_m r2) as [|p|p]; [lia| |lia]. by destruct (_ <=? _).
Qed.

(** A rounded positive number is above 0. *)
Lemma binary_round_gt prec emax m e : 0 < prec -> 2 ^ Z.max 0 (emin prec emax - e) <= Zpos m ->
  dle (binary_round prec emax false m e) (of_int 0) = false.
Proof.
  intros Hp Hm. pose proof (binary_round_ok prec emax false m e Hp) as Hr. pose proof (fun s' => binary_round_pos prec emax false m e s' Hp Hm) as Hz.
  destruct (binary_round _ _ _ _ _) as [s|s| |s m' e']; cbn in Hr; [by destruct (Hz s)|by subst|done|]. by destruct Hr as (-> & _).
Qed.

Lemma binary_round_abs prec emax m e : SFabs (binary_round prec emax true m e) = SFabs (binary_round prec emax false m e).
Proof.
  unfold binary_round. destruct (shl_align _ _ _) as [mz ez]. unfold binary_round_aux. destruct (shr_fexp _ _ _ _ _) as [r1 e1].
  destruct (shr_fexp _ _ _ _ _) as [r2 e2]. destruct (shr_m r2); [done| |done]. by destruct (_ <=? _).
Qed.

Definition dsign (x : double) : bool := match x with S754_zero s | S754_infinity s | S754_finite s _ _ => s | S754_nan => false end.
Definition is_nan (x : double) : bool := match x with S754_nan => true | _ => false end.

(** The bits of a float are its sign bit and the same 31 bits for a number and its opposite. *)
Lemma double_to_float_bits x : is_nan x = false ->
  exists r, 0 <= r < 2 ^ 31 /\ double_to_float x = (if dsign x then 2 ^ 31 else 0) + r /\ double_to_float (dopp x) = (if dsign x then 0 else 2 ^ 31) + r.
Proof.
  assert (Hf : forall s e m, 0 <= e < 256 -> 0 <= m < 2 ^ 23 -> float_bits s e m = (if s then 2 ^ 31 else 0) + (e * 2 ^ 23 + m)).
  { intros s e m He Hm. unfold float_bits. rewrite u_wrap_small; [lia|]. destruct s; lia. }
  intros Hx. destruct x as [s|s| |s m e]; [| |done|].
  - exists 0. cbn [double_to_float dopp SFopp dsign]. rewrite !Hf by lia. destruct s; cbn; lia.
  - exists (255 * 2 ^ 23). cbn [double_to_float dopp SFopp dsign]. rewrite !Hf by lia. destruct s; cbn; lia.
  - pose proof (binary_round_ok 24 128 false m e ltac:(lia)) as Hr. pose proof (binary_round_ok 24 128 true m e ltac:(lia)) as Hr'.
    pose proof (binary_round_abs 24 128 m e) as Ha.
    assert (exists r, 0 <= r < 2 ^ 31 /\ double_to_float (S754_finite false m e) = r /\ double_to_float (S754_finite true m e) = 2 ^ 31 + r) as (r & Hr1 & H2 & H3).
    { cbn [double_to_float cond_Zopp]. change (- Z.pos m) with (Z.neg m). cbn [binary_normalize].
      destruct (binary_round _ _ false m e) as [t|t| |t mm ee], (binary_round _ _ true m e) as [t'|t'| |t' mm' ee']; cbn in Hr, Hr', Ha; try done; subst.
      - exists 0. rewrite !Hf by lia. cbv iota. lia.
      - exists (255 * 2 ^ 23). rewrite !Hf by lia. cbv iota. lia.
      - injection Ha as -> ->. destruct Hr as (-> & Hm & He), Hr' as (-> & _ & _). unfold emin in He.
        destruct (Z.ltb_spec (Z.pos mm) (2 ^ 23)).
        + exists (Z.pos mm). rewrite !Hf by lia. cbv iota. lia.
        + exists ((ee + 150) * 2 ^ 23 + (Z.pos mm - 2 ^ 23)). rewrite !Hf by lia. cbv iota. lia. }
    exists r. split; [done|]. cbn [dopp SFopp dsign]. destruct s; cbn [negb]; rewrite H2, H3; lia.
Qed.

(** The sign of a number is kept by the conversion. *)
Lemma float_signbit_sign x : is_nan x = false -> float_signbit (double_to_float x) = dsign x.
Proof.
  intros (r & Hr & -> & _)%double_to_float_bits. unfold float_signbit. destruct (dsign x).
  - rewrite Z.add_comm. change (2 ^ 31) with (1 * 2 ^ 31). rewrite Z.testbit_odd, Z.shiftr_div_pow2, Z.div_add, Z.div_small by lia. done.
  - by apply (Z_bits_above 31).
Qed.

Lemma double_to_float_range x : 0 <= double_to_float x < 2 ^ 32.
Proof.
  destruct (is_nan x) eqn:E; [by destruct x|]. apply double_to_float_bits in E as (r & Hr & -> & _). destruct (dsign x); lia.
Qed.

Lemma float_to_double_opp r : 0 <= r < 2 ^ 31 -> dabs (float_to_double (2 ^ 31 + r)) = dabs (float_to_double r).
Proof.
  intros Hr. unfold float_to_double. assert (He : Z.land (Z.shiftr (2 ^ 31 + r) 23) 255 = Z.land (Z.shiftr r 23) 255).
  { change 255 with (Z.ones 8). rewrite !Z.land_ones, !Z.shiftr_div_pow2 by lia. change (2 ^ 31) with (2 ^ 8 * 2 ^ 23).
    rewrite Z.add_comm, Z.div_add, <- (Z.mul_1_l (2 ^ 8)), Z.mod_add by lia. done. }
  assert (Hm : Z.land (2 ^ 31 + r) (Z.ones 23) = Z.land r (Z.ones 23)).
  { rewrite !Z.land_ones by lia. change (2 ^ 31) with (2 ^ 8 * 2 ^ 23). by rewrite Z.add_comm, Z.mod_add by lia. }
  rewrite He, Hm. pose proof (Z.land_nonneg r (Z.ones 23)) as [_ Hn]. specialize (Hn ltac:(left; lia)). set (e := Z.land _ 255). set (m := Z.land r _) in *.
  assert (Hb : forall m e s s', dabs (binary_normalize 53 1024 (cond_Zopp s m) e s) = dabs (binary_normalize 53 1024 (cond_Zopp s' m) e s')).
  { intros [|p|p] e' [] []; try done; unfold dabs; (apply binary_round_abs || (symmetry; apply binary_round_abs)). }
  destruct (e =? 255); [by destruct (m =? 0)|]. destruct (e =? 0); [destruct (m =? 0); [done|apply Hb]|apply Hb].
Qed.

(** [f32 x] is the number nearest to [x] in single precision; it does not depend on the
    sign of [x]. *)
Definition f32 (x : double) : double := float_to_double (double_to_float x).

(** A positive number that is not below the smallest [float] is a positive [float]. *)
Lemma f32_pos m e : 2 ^ Z.max 0 (-149 - e) <= Zpos m -> dle (f32 (S754_finite false m e)) (of_int 0) = false.
Proof.
  intros Hm. unfold f32. cbn [double_to_float cond_Zopp binary_normalize].
  pose proof (binary_round_ok 24 128 false m e ltac:(lia)) as Hr.
  pose proof (fun s' => binary_round_pos 24 128 false m e s' ltac:(lia) Hm) as Hz.
  destruct (binary_round _ _ _ _ _) as [s|s| |s mm ee]; cbn [rounded] in Hr; [by destruct (Hz s)|by subst; vm_compute|done|].
  destruct Hr as (-> & Hmm & Hee). unfold emin in Hee. clear Hz.
  assert (forall E M, 0 <= E < 255 -> 0 <= M < 2 ^ 23 -> 0 < E + M ->
    dle (float_to_double (float_bits false E M)) (of_int 0) = false) as Hf.
  { clear. intros E M HE HM Hpos. assert (float_bits false E M = E * 2 ^ 23 + M) as -> by (unfold float_bits; rewrite u_wrap_small; lia).
    unfold float_to_double. rewrite (Z_bits_above 31) by lia. rewrite Z.land_ones, Z.add_comm, Z.mod_add, (Z.mod_small M) by lia.
    rewrite Z.shiftr_div_pow2, Z.div_add, (Z.div_small M), Z.add_0_l by lia. change 255 with (Z.ones 8). rewrite Z.land_ones, Z.mod_small by lia.
    change (Z.ones 8) with 255. rewrite (proj2 (Z.eqb_neq E 255)) by lia. cbn [cond_Zopp]. destruct (Z.eqb_spec E 0) as [->|].
    - rewrite (proj2 (Z.eqb_neq M 0)) by lia. destruct M as [|M|]; [lia| |lia]. apply binary_round_gt; [lia|]. rewrite Z.max_l by (unfold emin; lia). lia.
    - assert (exists q, 2 ^ 23 + M = Zpos q) as [q ->] by (destruct (2 ^ 23 + M) as [|q|] eqn:Eq; [lia|by exists q|lia]).
      apply binary_round_gt; [lia|]. rewrite Z.max_l by (unfold emin; lia). lia. }
  destruct (Z.ltb_spec (Zpos mm) (2 ^ 23)); apply Hf; lia.
Qed.

Lemma f32_opp x : dabs (f32 (dopp x)) = dabs (f32 x).
Proof.
  destruct (is_nan x) eqn:E; [by destruct x|]. unfold f32. apply double_to_float_bits in E as (r & Hr & -> & ->).
  destruct (dsign x); rewrite ?Z.add_0_l, float_to_double_opp by done; done.
Qed.

End Float8.
