(* ===== verification/Queue.v ===== *)
(** Intrusive singly linked queue of [ucs/datastruct/queue.h].

    A queue is a [head] pointer and a [ptail] pointer-to-pointer which holds the
    address of the last [next] field, or of [head] when the queue is empty.  The
    model keeps those addresses: memory maps each pointer cell ([SHead q] is
    [&q->head], [SNext e] is [&e->next]) to its content, and each queue to its
    [ptail].  [queue_sim] shows that every operation of the file implements the
    corresponding operation on lists of elements, for any number of queues which
    share the memory; the components which use queues as lists rely on it. *)

From stdpp Require Import functions.
From S2P Require Import Prelude.

Module Queue.

(** Address of a cell of type [ucs_queue_elem_t*]. *)
Inductive slot :=
| SHead (q : positive)
| SNext (e : positive).

#[export] Instance slot_eq_dec : EqDecision slot.
Proof. solve_decision. Defined.

(** [cell] is the content of every pointer cell ([None] is [NULL]), [ptail] the
    tail pointer of every queue. *)
Record mem := Mem { cell : slot -> option positive; ptail : positive -> slot }.

Definition set_cell (s : slot) (v : option positive) (m : mem) : mem :=
  Mem (<[s := v]> (cell m)) (ptail m).
Definition set_ptail (q : positive) (s : slot) (m : mem) : mem :=
  Mem (cell m) (<[q := s]> (ptail m)).

Section ops.
(** [UCS_ENABLE_ASSERT]: the debug build also clears the [next] field of a pushed
    element. *)
Context (enable_assert : bool).

Definition ucs_queue_head_init (q : positive) (m : mem) : mem :=
  set_ptail q (SHead q) m.

Definition ucs_queue_is_tail (q e : positive) (m : mem) : bool :=
  bool_decide (ptail m q = SNext e).

Definition ucs_queue_is_empty (q : positive) (m : mem) : bool :=
  bool_decide (ptail m q = SHead q).

Fixpoint queue_length_loop (fuel : nat) (pelem tail : slot) (length : nat) (m : mem)
    : option nat :=
  if decide (pelem = tail) then Some length
  else match fuel, cell m pelem with
       | S fuel, Some e => queue_length_loop fuel (SNext e) tail (S length) m
       | _, _ => None
       end.

Definition ucs_queue_length (fuel : nat) (q : positive) (m : mem) : option nat :=
  queue_length_loop fuel (SHead q) (ptail m q) 0 m.

Definition ucs_queue_push (q e : positive) (m : mem) : mem :=
  let m := set_cell (ptail m q) (Some e) m in
  let m := set_ptail q (SNext e) m in
  if enable_assert then set_cell (SNext e) None m else m.

Definition ucs_queue_push_head (q e : positive) (m : mem) : mem :=
  let m := set_cell (SNext e) (cell m (SHead q)) m in
  let m := set_cell (SHead q) (Some e) m in
  if ucs_queue_is_empty q m then set_ptail q (SNext e) m else m.

(** [None]: the head pointer is [NULL] and the code dereferences it. *)
Definition ucs_queue_pull_non_empty (q : positive) (m : mem) : option (positive * mem) :=
  match cell m (SHead q) with
  | None => None
  | Some e =>
      let m := set_cell (SHead q) (cell m (SNext e)) m in
      Some (e, if ucs_queue_is_tail q e m then set_ptail q (SHead q) m else m)
  end.

Definition ucs_queue_del_iter (q : positive) (iter : slot) (m : mem) : option mem :=
  match cell m iter with
  | None => None
  | Some e =>
      Some (if ucs_queue_is_tail q e m
            then set_cell iter None (set_ptail q iter m)
            else set_cell iter (cell m (SNext e)) m)
  end.

(** The outer [option] is a memory error, the inner one the returned pointer. *)
Definition ucs_queue_pull (q : positive) (m : mem) : option (option positive * mem) :=
  if ucs_queue_is_empty q m then Some (None, m)
  else match ucs_queue_pull_non_empty q m with
       | Some (e, m') => Some (Some e, m')
       | None => None
       end.

Definition ucs_queue_splice (q new_elems : positive) (m : mem) : mem :=
  if ucs_queue_is_empty new_elems m then m
  else
    let m := set_cell (ptail m q) (cell m (SHead new_elems)) m in
    let m := set_ptail q (ptail m new_elems) m in
    set_ptail new_elems (SHead new_elems) m.

Fixpoint queue_remove_loop (fuel : nat) (q e : positive) (iter : slot) (m : mem)
    : option mem :=
  if decide (iter = ptail m q) then Some m
  else match cell m iter with
       | None => None
       | Some x =>
           if decide (x = e) then ucs_queue_del_iter q iter m
           else match fuel with
                | O => None
                | S fuel => queue_remove_loop fuel q e (SNext x) m
                end
       end.

Definition ucs_queue_remove (fuel : nat) (q e : positive) (m : mem) : option mem :=
  queue_remove_loop fuel q e (SHead q) m.

(** *** Operations as data, to quantify over sequences of them *)

Inductive op :=
| OInit (q : positive)
| OPush (q e : positive)
| OPushHead (q e : positive)
| OPull (q : positive)
| OSplice (q new_elems : positive)
| ORemove (q e : positive)
| OLength (q : positive).

Inductive result :=
| RUnit
| RElem (e : option positive)
| RLen (n : nat).

Definition run_op (fuel : nat) (o : op) (m : mem) : option (result * mem) :=
  match o with
  | OInit q => Some (RUnit, ucs_queue_head_init q m)
  | OPush q e => Some (RUnit, ucs_queue_push q e m)
  | OPushHead q e => Some (RUnit, ucs_queue_push_head q e m)
  | OPull q =>
      match ucs_queue_pull q m with
      | Some (e, m') => Some (RElem e, m')
      | None => None
      end
  | OSplice q q' => Some (RUnit, ucs_queue_splice q q' m)
  | ORemove q e =>
      match ucs_queue_remove fuel q e m with
      | Some m' => Some (RUnit, m')
      | None => None
      end
  | OLength q =>
      match ucs_queue_length fuel q m with
      | Some n => Some (RLen n, m)
      | None => None
      end
  end.

End ops.

(** *** Abstract queues: a list of elements per initialised queue *)

Notation absq := (gmap positive (list positive)).

(** [e] is linked in no queue. *)
Definition fresh (e : positive) (a : absq) : Prop :=
  forall q l, a !! q = Some l -> e ∉ l.

(** [spec_op o a r a']: the operation is allowed in [a], returns [r] and leads to [a']. *)
Inductive spec_op : op -> absq -> result -> absq -> Prop :=
| SpecInit q a : a !! q = None \/ a !! q = Some [] ->
    spec_op (OInit q) a RUnit (<[q := []]> a)
| SpecPush q e a l : a !! q = Some l -> fresh e a ->
    spec_op (OPush q e) a RUnit (<[q := l ++ [e]]> a)
| SpecPushHead q e a l : a !! q = Some l -> fresh e a ->
    spec_op (OPushHead q e) a RUnit (<[q := e :: l]> a)
| SpecPull q a l : a !! q = Some l ->
    spec_op (OPull q) a (RElem (head l)) (<[q := tail l]> a)
| SpecSplice q q' a l l' : q <> q' -> a !! q = Some l -> a !! q' = Some l' ->
    spec_op (OSplice q q') a RUnit (<[q := l ++ l']> (<[q' := []]> a))
| SpecRemove q e a l : a !! q = Some l ->
    spec_op (ORemove q e) a RUnit (<[q := filter (fun x => x <> e) l]> a)
| SpecLength q a l : a !! q = Some l ->
    spec_op (OLength q) a (RLen (length l)) a.

(** The chain of cells from [s] goes through the elements [l]. *)
Fixpoint seg (m : mem) (s : slot) (l : list positive) : Prop :=
  match l with
  | [] => True
  | x :: l => cell m s = Some x /\ seg m (SNext x) l
  end.

(** The last cell of the chain. *)
Fixpoint end_slot (s : slot) (l : list positive) : slot :=
  match l with
  | [] => s
  | x :: l => end_slot (SNext x) l
  end.

Definition is_queue (m : mem) (q : positive) (l : list positive) : Prop :=
  NoDup l /\ seg m (SHead q) l /\ ptail m q = end_slot (SHead q) l.

(** Memory [m] represents [a]: every queue is well linked and no element is in
    two queues. *)
Record repr (m : mem) (a : absq) : Prop := Repr {
  repr_queue q l : a !! q = Some l -> is_queue m q l;
  repr_disj q q' l l' : q <> q' -> a !! q = Some l -> a !! q' = Some l' ->
    forall x, x ∈ l -> x ∉ l'
}.

(** Bound on every list of [a], for the loops. *)
Definition bounded (fuel : nat) (a : absq) : Prop :=
  forall q l, a !! q = Some l -> (length l <= fuel)%nat.

(** ** Chains *)

Lemma end_slot_app s l l' : end_slot s (l ++ l') = end_slot (end_slot s l) l'.
Proof. revert s. induction l; intros s; simpl; auto. Qed.

Lemma seg_app m s l l' : seg m s (l ++ l') <-> seg m s l /\ seg m (end_slot s l) l'.
Proof. revert s. induction l as [|x l IH]; intros s; simpl; [tauto|]. rewrite IH. tauto. Qed.

Lemma end_slot_cases s l : end_slot s l = s /\ l = [] \/ exists x, x ∈ l /\ end_slot s l = SNext x.
Proof.
  revert s. induction l as [|x l IH]; intros s; simpl; [by left|]. right.
  destruct (IH (SNext x)) as [[-> ->]|(y & ? & ->)]; [exists x|exists y]; split; try done; [left|by right].
Qed.

Lemma end_slot_head q l : end_slot (SHead q) l = SHead q <-> l = [].
Proof. destruct (end_slot_cases (SHead q) l) as [[-> ->]|(x & ? & ->)]; [done|]. split; [done|]. by intros ->; set_solver. Qed.

Lemma end_slot_next_in x s l : end_slot s l = SNext x -> s <> SNext x -> x ∈ l.
Proof. destruct (end_slot_cases s l) as [[-> ->]|(y & ? & ->)]; [done|]. by intros [= ->]. Qed.

Lemma seg_cell m m' s l : cell m' = cell m -> seg m s l -> seg m' s l.
Proof. intros E. revert s. induction l; simpl; [done|]. rewrite E. naive_solver. Qed.

(** A chain only depends on the cells before its last one. *)
Lemma seg_frame m m' s l :
  (forall c, c = s \/ (exists x, x ∈ l /\ c = SNext x) -> c <> end_slot s l -> cell m' c = cell m c) ->
  NoDup l -> (forall x, x ∈ l -> s <> SNext x) ->
  seg m s l -> seg m' s l.
Proof.
  revert s. induction l as [|x l IH]; intros s Hc Hnd Hs; [done|]. simpl in *.
  apply NoDup_cons in Hnd as [Hxl Hnd]. intros [Hx Hseg].
  assert (forall y, y ∈ l -> SNext x <> SNext y) as Hx' by (intros y Hy [= ->]; done).
  split.
  - rewrite Hc; [done|by left|].
    destruct (end_slot_cases (SNext x) l) as [[-> _]|(y & Hy & ->)]; apply Hs; set_solver.
  - apply IH; [|done..]. intros c [->|(y & Hy & ->)] Hne; apply Hc; try done; right; set_solver.
Qed.

Lemma queue_frame m m' q l :
  cell m' (SHead q) = cell m (SHead q) ->
  (forall x, x ∈ l -> cell m' (SNext x) = cell m (SNext x)) ->
  ptail m' q = ptail m q ->
  is_queue m q l -> is_queue m' q l.
Proof.
  intros Hh Hn Ht (Hnd & Hseg & He). split_and!; [done| |by rewrite Ht].
  eapply seg_frame; [|done|done|done]. intros c [->|(x & ? & ->)] _; auto.
Qed.

(** Cell [c] is not one of the cells of queue [q] with elements [l]. *)
Definition off (c : slot) (q : positive) (l : list positive) : Prop :=
  c <> SHead q /\ forall x, x ∈ l -> c <> SNext x.

Lemma set_cell_frame m c v q l : off c q l -> is_queue m q l -> is_queue (set_cell c v m) q l.
Proof.
  intros [Hh Hn]. apply queue_frame; simpl; [|intros x Hx|done]; rewrite fn_lookup_insert_ne; auto.
Qed.

Lemma set_ptail_frame m q' s q l : q' <> q -> is_queue m q l -> is_queue (set_ptail q' s m) q l.
Proof. intros Hq. apply queue_frame; simpl; auto. by rewrite fn_lookup_insert_ne. Qed.

Lemma off_head q q' l : q <> q' -> off (SHead q) q' l.
Proof. by split; [intros [=]|]. Qed.

Lemma off_next x q l : x ∉ l -> off (SNext x) q l.
Proof. intros Hx. split; [done|]. intros y Hy [= ->]. done. Qed.

Lemma off_end q q' l l' : q <> q' -> (forall x, x ∈ l -> x ∉ l') -> off (end_slot (SHead q) l) q' l'.
Proof.
  intros Hq Hd. destruct (end_slot_cases (SHead q) l) as [[-> _]|(x & Hx & ->)];
    auto using off_head, off_next.
Qed.

Create HintDb queue.
#[local] Hint Resolve set_cell_frame set_ptail_frame off_head off_next off_end : queue.

(** Replacing the content of queue [q]. *)
Lemma repr_upd m m' a q l l' :
  repr m a -> a !! q = Some l ->
  is_queue m' q l' ->
  (forall x, x ∈ l' -> x ∈ l \/ fresh x a) ->
  (forall q' lq, q <> q' -> a !! q' = Some lq -> is_queue m q' lq ->
     (forall x, x ∈ l -> x ∉ lq) -> is_queue m' q' lq) ->
  repr m' (<[q := l']> a).
Proof.
  intros [Hq Hd] Hl Hl' Hin Hfr. split.
  - intros q' lq. destruct (decide (q = q')) as [<-|Hne].
    + rewrite lookup_insert_eq. by intros [= <-].
    + rewrite lookup_insert_ne by done. intros Ha. eapply Hfr; eauto.
  - intros q1 q2 l1 l2 Hne. rewrite !lookup_insert.
    repeat case_decide; subst; intros E1 E2 x Hx Hx2; simplify_eq.
    + destruct (Hin _ Hx) as [Hxl|Hxf]; [eapply (Hd q1 q2); eauto|eapply Hxf; eauto].
    + destruct (Hin _ Hx2) as [Hxl|Hxf]; [eapply (Hd q2 q1); eauto|eapply Hxf; eauto].
    + eapply (Hd q1 q2); eauto.
Qed.

(** ** The operations on one queue *)

Section local.
Context (ea : bool) (m : mem) (q : positive) (l : list positive).
Context (Hq : is_queue m q l).

Lemma queue_is_empty_spec : ucs_queue_is_empty q m = bool_decide (l = []).
Proof.
  destruct Hq as (_ & _ & Ht). unfold ucs_queue_is_empty. rewrite Ht.
  apply bool_decide_ext, end_slot_head.
Qed.

Lemma queue_is_tail_spec x l' : l = x :: l' -> ucs_queue_is_tail q x m = bool_decide (l' = []).
Proof.
  intros El. destruct Hq as (Hnd & _ & Ht). unfold ucs_queue_is_tail. rewrite Ht, El. simpl.
  apply bool_decide_ext. rewrite El in Hnd. apply NoDup_cons in Hnd as [Hx _].
  destruct (end_slot_cases (SNext x) l') as [[-> ->]|(y & Hy & ->)]; [done|].
  split; [intros [= ->]; done|]. intros ->. by apply not_elem_of_nil in Hy.
Qed.

Lemma push_queue e : e ∉ l -> is_queue (ucs_queue_push ea q e m) q (l ++ [e]).
Proof.
  intros He. destruct Hq as (Hnd & Hseg & Ht).
  assert (end_slot (SHead q) l <> SNext e) as Hne.
  { destruct (end_slot_cases (SHead q) l) as [[-> _]|(y & ? & ->)]; [done|]. by intros [= ->]. }
  split_and!.
  - apply NoDup_app. split_and!; [done|set_solver|apply NoDup_singleton].
  - apply seg_app. split.
    + eapply seg_frame; [|done|done|exact Hseg]. intros c Hc Hce.
      assert (c <> SNext e) by (destruct Hc as [->|(x & ? & ->)]; congruence).
      unfold ucs_queue_push. rewrite Ht. destruct ea; simpl; by rewrite ?fn_lookup_insert_ne.
    + simpl. split; [|done]. unfold ucs_queue_push. rewrite Ht.
      destruct ea; simpl; rewrite ?fn_lookup_insert_ne by done; by rewrite fn_lookup_insert.
  - rewrite end_slot_app. simpl. unfold ucs_queue_push.
    destruct ea; simpl; by rewrite fn_lookup_insert.
Qed.

Lemma push_head_queue e : e ∉ l -> is_queue (ucs_queue_push_head q e m) q (e :: l).
Proof.
  intros He. destruct Hq as (Hnd & Hseg & Ht).
  set (m1 := set_cell (SHead q) (Some e) (set_cell (SNext e) (cell m (SHead q)) m)).
  assert (seg m1 (SHead q) (e :: l)) as Hs1.
  { split; [by simpl; rewrite fn_lookup_insert|]. destruct l as [|x l']; [done|].
    destruct Hseg as [Hx Hseg]. split.
    { simpl. rewrite fn_lookup_insert_ne by done. by rewrite fn_lookup_insert. }
    apply NoDup_cons in Hnd as [Hxl Hnd].
    eapply seg_frame; [|done| |exact Hseg].
    - intros c Hc _. simpl. rewrite !fn_lookup_insert_ne; [done| |];
        destruct Hc as [->|(y & ? & ->)]; try done; intros [= ->]; set_solver.
    - intros y Hy [= ->]. done. }
  assert (ucs_queue_is_empty q m1 = bool_decide (l = [])) as Hem.
  { unfold ucs_queue_is_empty. simpl. rewrite Ht. apply bool_decide_ext, end_slot_head. }
  split_and!; [by constructor| |]; unfold ucs_queue_push_head; fold m1; rewrite Hem; case_bool_decide.
  - eapply seg_cell; [|exact Hs1]. done.
  - exact Hs1.
  - subst l. simpl. by rewrite fn_lookup_insert.
  - simpl. rewrite Ht. destruct l; done.
Qed.

Lemma pull_non_empty_queue x l' : l = x :: l' ->
  exists m', ucs_queue_pull_non_empty q m = Some (x, m') /\ is_queue m' q l' /\
    m' = (if bool_decide (l' = []) then set_ptail q (SHead q) else id)
           (set_cell (SHead q) (cell m (SNext x)) m).
Proof.
  intros El. pose proof (queue_is_tail_spec _ _ El) as Htl.
  destruct Hq as (Hnd & Hseg & Ht). rewrite El in Hnd, Hseg, Ht.
  destruct Hseg as [Hx Hseg]. apply NoDup_cons in Hnd as [Hxl Hnd].
  unfold ucs_queue_pull_non_empty. rewrite Hx.
  replace (ucs_queue_is_tail q x (set_cell _ _ m)) with (ucs_queue_is_tail q x m) by done.
  rewrite Htl. eexists. split; [reflexivity|]. split; [|by case_bool_decide].
  case_bool_decide as E.
  - subst l'. split_and!; [constructor|done|]. simpl. by rewrite fn_lookup_insert.
  - destruct l' as [|y l'']; [done|]. split_and!; [done| |done].
    destruct Hseg as [Hy Hseg]. split; [simpl; by rewrite fn_lookup_insert|].
    apply NoDup_cons in Hnd as [Hyl Hnd].
    eapply seg_frame; [|done| |exact Hseg].
    + intros c Hc _. simpl. rewrite fn_lookup_insert_ne; [done|].
      destruct Hc as [->|(z & ? & ->)]; done.
    + intros z Hz [= ->]. done.
Qed.

(** Going from [m] to [m'] leaves every queue disjoint from [q] and [l] alone. *)
Definition preserved (m' : mem) : Prop :=
  forall q' lq, q <> q' -> (forall x, x ∈ l -> x ∉ lq) -> is_queue m q' lq -> is_queue m' q' lq.

Lemma del_iter_queue l1 x l2 : l = l1 ++ x :: l2 ->
  exists m', ucs_queue_del_iter q (end_slot (SHead q) l1) m = Some m' /\
    is_queue m' q (l1 ++ l2) /\ preserved m'.
Proof.
  intros El. destruct Hq as (Hnd & Hseg & Ht). rewrite El in Hnd, Hseg, Ht.
  apply seg_app in Hseg as [Hseg1 [Hx Hseg2]]. rewrite end_slot_app in Ht. simpl in Ht.
  apply NoDup_app in Hnd as (Hnd1 & Hd & [Hxl Hnd2]%NoDup_cons).
  set (iter := end_slot (SHead q) l1) in *.
  assert (forall y, y ∈ x :: l2 -> iter <> SNext y) as Hit.
  { intros y Hy E. apply (Hd y); [|done]. by eapply end_slot_next_in. }
  assert (forall q' lq, q <> q' -> (forall y, y ∈ l -> y ∉ lq) -> off iter q' lq) as Hoff.
  { intros. apply off_end; [done|]. intros y Hy. apply H0. rewrite El. set_solver. }
  assert (forall v m', cell m' = <[iter := v]> (cell m) -> seg m' (SHead q) l1) as Hseg1'.
  { intros v m' E. eapply seg_frame; [|done|done|exact Hseg1]. intros c _ Hc.
    rewrite E. by rewrite fn_lookup_insert_ne. }
  unfold ucs_queue_del_iter. rewrite Hx. eexists. split; [reflexivity|].
  unfold ucs_queue_is_tail. rewrite Ht. case_bool_decide as E.
  - assert (l2 = []) as ->.
    { destruct (end_slot_cases (SNext x) l2) as [[_ ->]|(y & Hy & E')]; [done|].
      rewrite E' in E. injection E as ->. done. }
    rewrite app_nil_r. split.
    + split_and!; [done|by eapply Hseg1'|]. simpl. by rewrite fn_lookup_insert.
    + intros q' lq Hne Hdj Hq'. auto with queue.
  - destruct l2 as [|y l2]; [done|]. destruct Hseg2 as [Hy Hseg2].
    apply NoDup_cons in Hnd2 as [Hyl Hnd2]. split.
    + split_and!.
      * apply NoDup_app. split_and!; [done|set_solver|by constructor].
      * apply seg_app. split; [by eapply Hseg1'|]. fold iter. split.
        { simpl. by rewrite fn_lookup_insert. }
        eapply seg_frame; [|done| |exact Hseg2].
        -- intros c Hc _. simpl. rewrite fn_lookup_insert_ne; [done|].
           destruct Hc as [->|(z & Hz & ->)]; apply Hit; set_solver.
        -- intros z Hz [= ->]. done.
      * simpl. rewrite Ht. by rewrite end_slot_app.
    + intros q' lq Hne Hdj Hq'. auto with queue.
Qed.

(** An iterator in the middle of the queue is not at the end and points to the
    next element. *)
Lemma iter_mid l1 x l2 : l = l1 ++ x :: l2 ->
  end_slot (SHead q) l1 <> ptail m q /\ cell m (end_slot (SHead q) l1) = Some x.
Proof.
  intros El. destruct Hq as (Hnd & Hseg & Ht). rewrite El in Hnd, Hseg, Ht. split.
  - rewrite Ht, end_slot_app. simpl. apply NoDup_app in Hnd as (_ & Hd & _).
    intros E. destruct (end_slot_cases (SNext x) l2) as [[E' _]|(y & Hy & E')];
      rewrite E' in E; [apply (Hd x)|apply (Hd y)]; try (by eapply end_slot_next_in); set_solver.
  - by apply seg_app in Hseg as [_ [? _]].
Qed.

Lemma remove_loop_queue e fuel l1 l2 : l = l1 ++ l2 -> e ∉ l1 -> (length l2 <= fuel)%nat ->
  exists m', queue_remove_loop fuel q e (end_slot (SHead q) l1) m = Some m' /\
    is_queue m' q (filter (fun x => x <> e) l) /\ preserved m'.
Proof.
  revert fuel l1. induction l2 as [|x l2 IH]; intros fuel l1 El He Hf.
  - exists m. rewrite app_nil_r in El. subst l1.
    rewrite filter_ne_notin by done.
    split; [|split; [done|by intros ? ? ? ? ?]]. destruct Hq as (_ & _ & Ht).
    destruct fuel; simpl; by rewrite decide_True.
  - destruct (iter_mid _ _ _ El) as [Hne Hx].
    destruct (decide (x = e)) as [->|Hxe].
    + destruct (del_iter_queue l1 e l2 El) as (m' & Hm' & Hq' & Hp).
      exists m'. split; [destruct fuel; simpl; rewrite decide_False, Hx, decide_True by done; done|].
      split; [|done]. assert (filter (fun x => x <> e) l = l1 ++ l2) as ->; [|done].
      rewrite El. destruct Hq as (Hnd & _ & _). rewrite El in Hnd.
      apply NoDup_app in Hnd as (_ & _ & [Hel _]%NoDup_cons).
      rewrite filter_app, filter_cons_False by auto. by rewrite !filter_ne_notin.
    + destruct fuel as [|fuel]; simpl in Hf; [lia|].
      destruct (IH fuel (l1 ++ [x])) as (m' & Hm' & Hrest).
      { by rewrite <- app_assoc. } { set_solver. } { lia. }
      exists m'. split; [|done]. rewrite end_slot_app in Hm'. simpl in Hm' |- *.
      by rewrite decide_False, Hx, decide_False.
Qed.

Lemma length_loop_queue fuel l1 l2 : l = l1 ++ l2 -> (length l2 <= fuel)%nat ->
  queue_length_loop fuel (end_slot (SHead q) l1) (ptail m q) (length l1) m = Some (length l).
Proof.
  revert fuel l1. induction l2 as [|x l2 IH]; intros fuel l1 El Hf.
  - rewrite app_nil_r in El. subst l1. destruct Hq as (_ & _ & Ht).
    destruct fuel; simpl; by rewrite decide_True.
  - destruct (iter_mid _ _ _ El) as [Hne Hx].
    destruct fuel as [|fuel]; simpl in Hf; [lia|]. simpl. rewrite decide_False, Hx by done.
    specialize (IH fuel (l1 ++ [x])). rewrite end_slot_app, length_app in IH. simpl in IH.
    rewrite Nat.add_1_r in IH. apply IH; [by rewrite <- app_assoc|lia].
Qed.
End local.

Lemma splice_queue m q q' l l' :
  q <> q' -> is_queue m q l -> is_queue m q' l' -> (forall x, x ∈ l -> x ∉ l') ->
  is_queue (ucs_queue_splice q q' m) q (l ++ l') /\ is_queue (ucs_queue_splice q q' m) q' [].
Proof.
  intros Hne Hq Hq' Hd. unfold ucs_queue_splice. rewrite (queue_is_empty_spec _ _ _ Hq').
  case_bool_decide as E; [subst l'; by rewrite app_nil_r|].
  destruct Hq as (Hnd & Hseg & Ht), Hq' as (Hnd' & Hseg' & Ht').
  destruct l' as [|x l']; [done|]. destruct Hseg' as [Hx Hseg'].
  pose proof Hnd' as [Hxl Hnd'']%NoDup_cons. rewrite Ht, Hx. split; split_and!.
  - apply NoDup_app. by split_and!.
  - apply seg_app. split; [|split; [simpl; by rewrite fn_lookup_insert|]].
    + eapply seg_frame; [|done|done|exact Hseg]. intros c _ Hc. simpl.
      by rewrite fn_lookup_insert_ne.
    + eapply seg_frame; [|done| |exact Hseg'].
      * intros c Hc _. simpl. rewrite fn_lookup_insert_ne; [done|].
        intros E'. assert (exists y, y ∈ x :: l' /\ c = SNext y) as (y & Hy & ->)
          by (destruct Hc as [->|(y & ? & ->)]; eexists; (split; [|done]); set_solver).
        apply (Hd y); [|done]. by eapply end_slot_next_in.
      * intros y Hy [= ->]. done.
  - simpl. rewrite fn_lookup_insert_ne, fn_lookup_insert by done.
    rewrite end_slot_app. simpl. done.
  - constructor.
  - done.
  - simpl. by rewrite fn_lookup_insert.
Qed.

(** ** Simulation *)

Lemma repr_init m a q : repr m a -> a !! q = None \/ a !! q = Some [] ->
  repr (ucs_queue_head_init q m) (<[q := []]> a).
Proof.
  intros [Hq Hd] Ha. split.
  - intros q' l. rewrite lookup_insert. case_decide as E.
    + subst. intros [= <-]. split_and!; [constructor|done|]. simpl. by rewrite fn_lookup_insert.
    + intros Hl. apply set_ptail_frame; auto.
  - intros q1 q2 l1 l2 Hne. rewrite !lookup_insert.
    repeat case_decide; subst; intros E1 E2 x Hx Hx2; simplify_eq; set_solver.
Qed.

Lemma repr_splice m a q q' l l' : repr m a -> q <> q' -> a !! q = Some l -> a !! q' = Some l' ->
  repr (ucs_queue_splice q q' m) (<[q := l ++ l']> (<[q' := []]> a)).
Proof.
  intros [Hq Hd] Hne Hl Hl'. pose proof (Hd _ _ _ _ Hne Hl Hl') as Hdll.
  destruct (splice_queue m q q' l l') as [H1 H2]; auto.
  split.
  - intros q0 l0. rewrite !lookup_insert. repeat case_decide; subst.
    + by intros [= <-].
    + by intros [= <-].
    + intros Hl0. unfold ucs_queue_splice. destruct (Hq _ _ Hl) as (_ & _ & ->).
      case_match; [auto|]. apply set_ptail_frame; [done|]. apply set_ptail_frame; [done|].
      apply set_cell_frame; [|auto]. apply off_end; [done|]. eapply (Hd q q0); eauto.
  - intros q1 q2 l1 l2 Hne'. rewrite !lookup_insert.
    repeat case_decide; subst; intros E1 E2 x Hx Hx2; simplify_eq; set_solver.
Qed.

(** Every operation of [queue.h] implements the list operation of its
    specification: from a memory that represents the abstract queues [a], an
    allowed operation returns what the list operation returns (in particular the
    loops end and no [NULL] is dereferenced) and the memory it leaves represents
    the abstract result, every other queue being unchanged. *)
Theorem queue_sim ea fuel o m a r a' :
  repr m a -> bounded fuel a -> spec_op o a r a' ->
  exists m', run_op ea fuel o m = Some (r, m') /\ repr m' a'.
Proof.
  intros HR Hb Hs. pose proof (repr_queue _ _ HR) as Hqs.
  destruct Hs as [q a Ha|q e a l Hl Hf|q e a l Hl Hf|q a l Hl|q q' a l l' Hne Hl Hl'|q e a l Hl|q a l Hl];
    simpl.
  - eexists. split; [done|]. by apply repr_init.
  - eexists. split; [done|]. eapply repr_upd; [done|done| | |].
    + apply push_queue; eauto.
    + intros x. rewrite elem_of_app, list_elem_of_singleton. intros [?| ->]; auto.
    + intros q' lq Hne Hlq Hq' Hd. destruct (Hqs _ _ Hl) as (_ & _ & Ht).
      unfold ucs_queue_push. rewrite Ht. destruct ea; eauto 10 with queue.
  - eexists. split; [done|]. eapply repr_upd; [done|done| | |].
    + apply push_head_queue; eauto.
    + intros x [->|?]%elem_of_cons; auto.
    + intros q' lq Hne Hlq Hq' Hd. unfold ucs_queue_push_head. case_match; eauto 10 with queue.
  - unfold ucs_queue_pull. rewrite (queue_is_empty_spec _ _ _ (Hqs _ _ Hl)). case_bool_decide as E.
    + subst l. eexists. split; [done|]. by rewrite insert_id.
    + destruct l as [|x l]; [done|].
      destruct (pull_non_empty_queue m q (x :: l) (Hqs _ _ Hl) x l eq_refl) as (m' & -> & Hq' & ->).
      eexists. split; [done|]. eapply repr_upd; [done|done|exact Hq'| |].
      * intros y Hy. left. by right.
      * intros q' lq Hne Hlq Hq0 Hd. case_bool_decide; eauto 10 with queue.
  - eexists. split; [done|]. by apply repr_splice.
  - destruct (remove_loop_queue m q l (Hqs _ _ Hl) e fuel [] l) as (m' & Hm' & Hq' & Hp);
      [done|set_solver|eauto|].
    unfold ucs_queue_remove. simpl in Hm'. rewrite Hm'. eexists. split; [done|].
    eapply repr_upd; [done|done|done| |].
    + intros x [_ ?]%list_elem_of_filter. auto.
    + intros q' lq Hne Hlq Hq0 Hd. by apply Hp.
  - pose proof (length_loop_queue m q l (Hqs _ _ Hl) fuel [] l eq_refl (Hb _ _ Hl)) as E.
    unfold ucs_queue_length. simpl in E. rewrite E. by eexists.
Qed.

(** Queue 1 with the elements 10, 11, 12. *)
Definition sample_mem : mem :=
  ucs_queue_push true 1 12 (ucs_queue_push true 1 11 (ucs_queue_push true 1 10
    (ucs_queue_head_init 1 (Mem (fun _ => None) SHead)))).

Lemma sample_repr : repr sample_mem {[1%positive := [10; 11; 12]%positive]}.
Proof.
  split.
  - intros q l [<- <-]%lookup_singleton_Some. split_and!; [by repeat constructor; set_solver|..];
      repeat split; by vm_compute.
  - intros q q' l l' Hne [<- <-]%lookup_singleton_Some [<- <-]%lookup_singleton_Some. done.
Qed.

Lemma queue_sim_witness :
  exists m', run_op true 3 (ORemove 1 11) sample_mem = Some (RUnit, m') /\
    repr m' {[1%positive := [10; 12]%positive]}.
Proof.
  apply (queue_sim true 3 (ORemove 1 11) sample_mem {[1%positive := [10; 11; 12]%positive]}).
  - apply sample_repr.
  - intros q l [<- <-]%lookup_singleton_Some. simpl. lia.
  - replace {[1%positive := [10; 12]%positive]} with
      (<[1%positive := filter (fun x => x <> 11%positive) [10; 11; 12]%positive]>
         ({[1%positive := [10; 11; 12]%positive]} : absq)) by (by vm_compute).
    apply (SpecRemove 1 11 {[1%positive := [10; 11; 12]%positive]} [10; 11; 12]%positive).
    apply lookup_singleton_eq.
Defined.

End Queue.
