(* ===== verification/DList.v ===== *)
(** Circular doubly linked list of [ucs/datastruct/list.h].

    A list is a head link in a ring with the links of its elements.  Memory has the
    two pointers of every link ([None] is [NULL]); [ring] relates it to the list of
    the elements.  [lists_ok] describes all the lists in a memory by a map from
    their heads, and the lemmas of each operation show what it does to this map,
    so that users of the operations reason about lists only. *)

From stdpp Require Import functions gmap.
From S2P Require Import Prelude.

Module DList.

Section links.
Context {L : Type} `{Countable L}.

(** The fields [prev] and [next] of all links. *)
Record mem := Mem { prev : L -> option L; next : L -> option L }.

Definition set_prev (x : L) (v : option L) (m : mem) : mem := Mem (<[x := v]> (prev m)) (next m).
Definition set_next (x : L) (v : option L) (m : mem) : mem := Mem (prev m) (<[x := v]> (next m)).

(** ** Operations *)

Definition ucs_list_head_init (head : L) (m : mem) : mem := set_prev head (Some head) (set_next head (Some head) m).

Definition ucs_list_insert_replace (p n elem : L) (m : mem) : mem :=
  set_prev n (Some elem) (set_next p (Some elem) (set_next elem (Some n) (set_prev elem (Some p) m))).

Definition ucs_list_replace (elem replacement : L) (m : mem) : option mem :=
  p ← prev m elem; n ← next m elem;
  Some (ucs_list_insert_replace p n replacement m).

Definition ucs_list_insert_after (pos new_link : L) (m : mem) : option mem :=
  n ← next m pos; Some (ucs_list_insert_replace pos n new_link m).

Definition ucs_list_insert_before (pos new_link : L) (m : mem) : option mem :=
  p ← prev m pos; Some (ucs_list_insert_replace p pos new_link m).

Definition ucs_list_del (elem : L) (m : mem) : option mem :=
  p ← prev m elem;
  let m := set_next p (next m elem) m in
  n ← next m elem;
  Some (set_prev n (prev m elem) m).

Definition ucs_list_is_empty (head : L) (m : mem) : bool := bool_decide (next m head = Some head).

Definition ucs_list_is_only (head elem : L) (m : mem) : bool :=
  bool_decide (next m head = Some elem) && bool_decide (next m elem = Some head).

Definition ucs_list_splice_tail (head newlist : L) (m : mem) : option mem :=
  if ucs_list_is_empty newlist m then Some m else
  first ← next m newlist;
  last ← prev m newlist;
  tail ← prev m head;
  let m := set_prev first (Some tail) m in
  let m := set_next tail (Some first) m in
  let m := set_next last (Some head) m in
  Some (set_prev head (Some last) m).

(** The loop of [ucs_list_length] and of [ucs_list_for_each]: the links of the list. *)
Fixpoint list_walk (fuel : nat) (head : L) (ptr : option L) (m : mem) : option (list L) :=
  match ptr, fuel with
  | Some x, S fuel =>
      if decide (x = head) then Some [] else l ← list_walk fuel head (next m x) m; Some (x :: l)
  | _, _ => None
  end.

Definition ucs_list_length (fuel : nat) (head : L) (m : mem) : option nat :=
  length <$> list_walk fuel head (next m head) m.

Definition ucs_list_add_head (head item : L) (m : mem) : option mem := ucs_list_insert_after head item m.
Definition ucs_list_add_tail (head item : L) (m : mem) : option mem := ucs_list_insert_before head item m.

Definition ucs_list_extract_head (head : L) (m : mem) : option (L * mem) :=
  tmp ← next m head; m ← ucs_list_del tmp m; Some (tmp, m).

(** ** Segments of a ring *)

(** The links [xs] lie between [a] and [b]. *)
Fixpoint seg (m : mem) (a : L) (xs : list L) (b : L) : Prop :=
  match xs with
  | [] => next m a = Some b /\ prev m b = Some a
  | x :: xs => next m a = Some x /\ prev m x = Some a /\ seg m x xs b
  end.

Definition ring (m : mem) (h : L) (xs : list L) : Prop := seg m h xs h.

Lemma dseg_app m a xs x ys b : seg m a (xs ++ x :: ys) b <-> seg m a xs x /\ seg m x ys b.
Proof. revert a. induction xs as [|y xs IH]; intros a; cbn; [tauto|]. rewrite IH. tauto. Qed.

Lemma seg_next m a xs b : seg m a xs b -> next m a = Some (default b (head xs)).
Proof. destruct xs; cbn; tauto. Qed.

Lemma seg_prev m a xs b : seg m a xs b -> prev m b = Some (default a (last xs)).
Proof.
  revert a. induction xs as [|x xs IH]; intros a; [cbn; tauto|]. intros (_ & _ & Hs). rewrite (IH _ Hs), last_cons. by destruct (last xs).
Qed.

Lemma seg_next_some m a xs b x : seg m a xs b -> x ∈ a :: xs -> next m x <> None.
Proof.
  revert a. induction xs as [|y xs IH]; intros a Hs Hx; cbn in *.
  - apply list_elem_of_singleton in Hx as ->. by rewrite (proj1 Hs).
  - destruct Hs as (Hn & _ & Hs). apply elem_of_cons in Hx as [->|Hx]; [by rewrite Hn|eauto].
Qed.

(** A change of the memory outside of a segment. *)
Lemma dseg_frame m m' a xs b : (forall y, y ∈ a :: xs -> next m' y = next m y) -> (forall y, y ∈ b :: xs -> prev m' y = prev m y) ->
  seg m a xs b -> seg m' a xs b.
Proof.
  revert a. induction xs as [|x xs IH]; intros a Hn Hp; cbn.
  - rewrite (Hn a), (Hp b) by (left; done). done.
  - rewrite (Hn a), (Hp x) by set_solver. intros (? & ? & ?). split_and!; try done. apply IH; set_solver.
Qed.

(** A segment gets another end, or another beginning. *)
Lemma seg_end m m' a xs b e : NoDup (a :: xs) -> seg m a xs b ->
  (forall y, y ∈ a :: xs -> y <> default a (last xs) -> next m' y = next m y) -> (forall y, y ∈ xs -> prev m' y = prev m y) ->
  next m' (default a (last xs)) = Some e -> prev m' e = Some (default a (last xs)) -> seg m' a xs e.
Proof.
  intros Hnd Hs Hn Hp He1 He2. destruct (decide (xs = [])) as [->|Hne]; [done|].
  destruct (exists_last Hne) as (xs' & x & ->). rewrite last_snoc in *. cbn [default] in *. apply dseg_app in Hs as [Hs _].
  apply dseg_app. split; [|done]. apply (dseg_frame m); [|intros y Hy; apply Hp; set_solver|done].
  intros y Hy. apply Hn; [set_solver|]. intros ->. rewrite app_comm_cons in Hnd. apply NoDup_app in Hnd as (_ & Hnd & _).
  apply (Hnd x Hy). left.
Qed.

Lemma seg_begin m m' a xs b e : NoDup (b :: xs) -> seg m a xs b ->
  (forall y, y ∈ xs -> next m' y = next m y) -> (forall y, y ∈ b :: xs -> y <> default b (head xs) -> prev m' y = prev m y) ->
  next m' e = Some (default b (head xs)) -> prev m' (default b (head xs)) = Some e -> seg m' e xs b.
Proof.
  intros Hnd Hs Hn Hp He1 He2. destruct xs as [|x xs]; [done|]. cbn in *. destruct Hs as (_ & _ & Hs). split_and!; try done.
  apply (dseg_frame m); [done| |done]. intros y Hy. apply Hp; [set_solver|]. intros ->.
  apply NoDup_cons in Hnd as [N1 [N2 _]%NoDup_cons]. set_solver.
Qed.

(** ** All the lists of a memory *)

(** [R] maps the head of each list to its elements. *)
Definition linked (R : gmap L (list L)) (y : L) : Prop := exists h xs, R !! h = Some xs /\ y ∈ h :: xs.

Record lists_ok (m : mem) (R : gmap L (list L)) : Prop := ListsOk {
  lo_ring : forall h xs, R !! h = Some xs -> ring m h xs /\ NoDup (h :: xs);
  lo_disj : forall h h' xs xs' y, R !! h = Some xs -> R !! h' = Some xs' -> y ∈ h :: xs -> y ∈ h' :: xs' -> h = h'
}.

(** The two memories differ only in the links [F]. *)
Definition agree (F : list L) (m m' : mem) : Prop := forall y, y ∉ F -> next m' y = next m y /\ prev m' y = prev m y.

Lemma lists_upd m m' R h xs xs' : lists_ok m R -> R !! h = Some xs -> (forall y, y ∈ xs' -> y ∈ xs \/ ~ linked R y) ->
  NoDup (h :: xs') -> ring m' h xs' -> agree (h :: xs ++ xs') m m' -> lists_ok m' (<[h := xs']> R).
Proof.
  intros [Hr Hd] Hh Hin Hnd Hring Hag.
  assert (forall h' ys y, h <> h' -> R !! h' = Some ys -> y ∈ h' :: ys -> y ∈ h :: xs ++ xs' -> False) as Hsep.
  { intros h' ys y Hne Hh' Hy [Hy'|[Hy'|Hy']%elem_of_app]%elem_of_cons.
    - subst y. apply Hne. eapply Hd; [exact Hh|exact Hh'|left|done].
    - apply Hne. eapply (Hd h h' xs ys y); [done|done|by right|done].
    - destruct (Hin y Hy') as [Hx|Hx]; [|apply Hx; by exists h', ys].
      apply Hne. eapply (Hd h h' xs ys y); [done|done|by right|done]. }
  split.
  - intros h' ys. destruct (decide (h' = h)) as [->|Hne]; [rewrite lookup_insert_eq; by intros [= <-]|].
    rewrite lookup_insert_ne by done. intros Hh'. destruct (Hr h' ys Hh') as [Hg Hn]. split; [|done].
    apply (dseg_frame m); [| |done]; intros y Hy; apply Hag; intros Hy'; eapply Hsep; eauto.
  - intros h1 h2 ys zs y. destruct (decide (h1 = h)) as [->|H1], (decide (h2 = h)) as [->|H2];
      rewrite ?lookup_insert_eq, ?lookup_insert_ne by done; [done| | |apply Hd].
    + intros [= <-] H' Hy1 Hy2. exfalso. eapply (Hsep h2 zs y); [done..|]. set_solver.
    + intros H' [= <-] Hy1 Hy2. exfalso. eapply (Hsep h1 ys y); [done..|]. set_solver.
Qed.

Lemma insert_replace_agree p n e m : agree [p; n; e] m (ucs_list_insert_replace p n e m).
Proof. intros y Hy. cbn. by rewrite !fn_lookup_insert_ne by set_solver. Qed.

Lemma last_default_in (a : L) xs : default a (last xs) ∈ a :: xs.
Proof. destruct (last xs) as [x|] eqn:E; [|left]. right. apply last_Some in E as [l ->]. set_solver. Qed.

Lemma head_default_in (b : L) ys : default b (head ys) ∈ b :: ys.
Proof. destruct ys; cbn; set_solver. Qed.

Lemma seg_split m a xs ys b : seg m a (xs ++ ys) b -> seg m a xs (default b (head ys)) /\ seg m (default a (last xs)) ys b.
Proof.
  revert a. induction xs as [|x xs IH]; intros a; cbn [app].
  - intros Hs. split; [|done]. destruct ys; cbn in *; tauto.
  - intros (Hn & Hp & Hs). destruct (IH _ Hs) as [H1 H2]. split; [done|]. rewrite last_cons. by destruct (last xs).
Qed.

Lemma ring_insert m h xs ys b1 b2 e : NoDup (h :: xs ++ ys) -> e ∉ h :: xs ++ ys -> seg m h xs b1 -> seg m b2 ys h ->
  ring (ucs_list_insert_replace (default h (last xs)) (default h (head ys)) e m) h (xs ++ e :: ys).
Proof.
  intros Hnd He H1 H2. pose proof Hnd as [Nh Hxy]%NoDup_cons. apply NoDup_app in Hxy as (N1 & N2 & N3).
  assert (forall y, y ∈ xs -> default h (head ys) <> y) as F1.
  { pose proof (head_default_in h ys) as Hn. intros y Hy E. rewrite E in Hn; clear E; set_solver. }
  assert (forall y, y ∈ ys -> default h (last xs) <> y) as F2.
  { pose proof (last_default_in h xs) as Hp. intros y Hy E. rewrite E in Hp; clear E; set_solver. }
  assert (default h (last xs) <> e) as F3 by (pose proof (last_default_in h xs) as Hp; intros E; rewrite E in Hp; clear E; set_solver).
  assert (default h (head ys) <> e) as F4 by (pose proof (head_default_in h ys) as Hn; intros E; rewrite E in Hn; clear E; set_solver).
  assert (forall y, y ∈ h :: xs ++ ys -> e <> y) as F5 by (intros y Hy ->; done).
  apply dseg_app. split.
  - eapply seg_end; [|exact H1|..]; cbn.
    + apply NoDup_cons. set_solver.
    + intros y Hy Hne. by rewrite !fn_lookup_insert_ne by (try apply F5; set_solver).
    + intros y Hy. by rewrite !fn_lookup_insert_ne by (try (by apply F1); apply F5; set_solver).
    + by rewrite fn_lookup_insert.
    + by rewrite fn_lookup_insert_ne, fn_lookup_insert.
  - eapply seg_begin; [|exact H2|..]; cbn.
    + apply NoDup_cons. set_solver.
    + intros y Hy. by rewrite !fn_lookup_insert_ne by (try (by apply F2); apply F5; set_solver).
    + intros y Hy Hne. by rewrite !fn_lookup_insert_ne by (try apply F5; set_solver).
    + by rewrite fn_lookup_insert_ne, fn_lookup_insert.
    + by rewrite fn_lookup_insert.
Qed.

Lemma ring_del m h xs x ys : NoDup (h :: xs ++ x :: ys) -> ring m h (xs ++ x :: ys) ->
  ring (set_prev (default h (head ys)) (Some (default h (last xs))) (set_next (default h (last xs)) (Some (default h (head ys))) m)) h (xs ++ ys).
Proof.
  intros Hnd [H1 H2]%dseg_app. pose proof Hnd as [Nh Hxy]%NoDup_cons. apply NoDup_app in Hxy as (N1 & N2 & [N3 N4]%NoDup_cons).
  assert (forall y, y ∈ xs -> y <> default h (head ys)) as Hne.
  { pose proof (head_default_in h ys) as Hn. intros y Hy E. rewrite <- E in Hn; clear E; set_solver. }
  assert (forall y, y ∈ ys -> default h (last xs) <> y) as Hne'.
  { pose proof (last_default_in h xs) as Hp. intros y Hy E. rewrite E in Hp; clear E; set_solver. }
  assert (seg (set_prev (default h (head ys)) (Some (default h (last xs))) (set_next (default h (last xs)) (Some (default h (head ys))) m)) h xs
    (default h (head ys))) as Hs.
  { eapply seg_end; [|exact H1|..]; cbn.
    - apply NoDup_cons. set_solver.
    - intros y Hy Hy'. by rewrite fn_lookup_insert_ne.
    - intros y Hy. rewrite fn_lookup_insert_ne; [done|]. intros E. by apply (Hne y).
    - by rewrite fn_lookup_insert.
    - by rewrite fn_lookup_insert. }
  destruct ys as [|y ys]; cbn in Hs |- *; [by rewrite app_nil_r|]. apply dseg_app. split; [done|]. destruct H2 as (_ & _ & H2).
  apply NoDup_cons in N4 as [N4 _].
  apply (dseg_frame m); [| |done]; intros z Hz; cbn; rewrite fn_lookup_insert_ne; try done; [by apply Hne'|intros <-; set_solver].
Qed.

(** ** What the operations do to the lists *)

Lemma agree_weaken F F' m m' : (forall y, y ∈ F -> y ∈ F') -> agree F m m' -> agree F' m m'.
Proof. intros Hs Ha y Hy. apply Ha. intros Hy'. by apply Hy, Hs. Qed.

Lemma member_fresh (R : gmap L (list L)) h xs e : R !! h = Some xs -> ~ linked R e -> e ∉ h :: xs.
Proof. intros Hh He Hin. apply He. by exists h, xs. Qed.

Lemma insert_ok m R h xs ys zs e b1 b2 : lists_ok m R -> R !! h = Some zs -> (forall y, y ∈ xs ++ ys -> y ∈ zs) -> NoDup (xs ++ ys) ->
  ~ linked R e -> seg m h xs b1 -> seg m b2 ys h ->
  let m' := ucs_list_insert_replace (default h (last xs)) (default h (head ys)) e m in
  lists_ok m' (<[h := xs ++ e :: ys]> R) /\ agree (e :: h :: xs ++ ys) m m'.
Proof.
  intros H1 Hh Hsub Hnd He Hs1 Hs2 m'. destruct (lo_ring _ _ H1 h zs Hh) as [_ [Nh _]%NoDup_cons].
  pose proof (member_fresh R h zs e Hh He) as Hf.
  assert (NoDup (h :: xs ++ ys)) as Hnd' by (apply NoDup_cons; set_solver).
  assert (e ∉ h :: xs ++ ys) as He' by set_solver.
  assert (agree (e :: h :: xs ++ ys) m m') as Hag.
  { eapply agree_weaken; [|apply insert_replace_agree]. intros y Hy. pose proof (last_default_in h xs). pose proof (head_default_in h ys).
    apply elem_of_cons in Hy as [->|[->|Hy%list_elem_of_singleton]%elem_of_cons]; set_solver. }
  split; [|done]. eapply lists_upd; [exact H1|exact Hh| | |by eapply ring_insert|].
  - intros y Hy. rewrite elem_of_app, elem_of_cons in Hy. destruct Hy as [Hy|[->|Hy]]; [left; apply Hsub; set_solver|by right|left; apply Hsub; set_solver].
  - apply NoDup_cons. split; [set_solver|]. rewrite <- Permutation_middle. apply NoDup_cons. split; [set_solver|done].
  - eapply agree_weaken; [|exact Hag]. set_solver.
Qed.

Lemma replace_ok m R h xs x ys e : lists_ok m R -> R !! h = Some (xs ++ x :: ys) -> ~ linked R e ->
  exists m', ucs_list_replace x e m = Some m' /\ lists_ok m' (<[h := xs ++ e :: ys]> R) /\ agree (e :: h :: xs ++ ys) m m'.
Proof.
  intros H1 Hh He. destruct (lo_ring _ _ H1 h _ Hh) as [[Hs1 Hs2]%dseg_app [Nh Hnd]%NoDup_cons].
  unfold ucs_list_replace. rewrite (seg_prev _ _ _ _ Hs1), (seg_next _ _ _ _ Hs2). eexists. split; [done|].
  rewrite <- Permutation_middle in Hnd. apply NoDup_cons in Hnd as [_ Hnd].
  eapply insert_ok; [done|exact Hh|set_solver|done|done|exact Hs1|exact Hs2].
Qed.

Lemma add_tail_ok m R h xs e : lists_ok m R -> R !! h = Some xs -> ~ linked R e ->
  exists m', ucs_list_add_tail h e m = Some m' /\ lists_ok m' (<[h := xs ++ [e]]> R) /\ agree (e :: h :: xs) m m'.
Proof.
  intros H1 Hh He. destruct (lo_ring _ _ H1 h _ Hh) as [Hs [Nh Hnd]%NoDup_cons]. rewrite <- (app_nil_r xs) in Hs.
  destruct (seg_split _ _ _ _ _ Hs) as [Hs1 Hs2]. unfold ucs_list_add_tail, ucs_list_insert_before.
  pose proof (seg_prev _ _ _ _ Hs1) as Ep. cbn in Ep. rewrite Ep. eexists. split; [done|].
  pose proof (insert_ok m R h xs [] xs e) as Hi. rewrite app_nil_r in Hi. eapply Hi; [done|exact Hh|set_solver|done|done|exact Hs1|exact Hs2].
Qed.

Lemma add_head_ok m R h xs e : lists_ok m R -> R !! h = Some xs -> ~ linked R e ->
  exists m', ucs_list_add_head h e m = Some m' /\ lists_ok m' (<[h := e :: xs]> R) /\ agree (e :: h :: xs) m m'.
Proof.
  intros H1 Hh He. destruct (lo_ring _ _ H1 h _ Hh) as [Hs [Nh Hnd]%NoDup_cons].
  destruct (seg_split _ _ [] _ _ Hs) as [Hs1 Hs2]. unfold ucs_list_add_head, ucs_list_insert_after.
  pose proof (seg_next _ _ _ _ Hs2) as En. cbn in En. rewrite En. eexists. split; [done|].
  eapply (insert_ok m R h [] xs xs e); [done|exact Hh|set_solver|done|done|exact Hs1|exact Hs2].
Qed.

Lemma del_ok m R h xs x ys : lists_ok m R -> R !! h = Some (xs ++ x :: ys) ->
  exists m', ucs_list_del x m = Some m' /\ lists_ok m' (<[h := xs ++ ys]> R) /\ agree (h :: xs ++ ys) m m'.
Proof.
  intros H1 Hh. destruct (lo_ring _ _ H1 h _ Hh) as [Hring Hnd]. pose proof Hring as [Hs1 Hs2]%dseg_app.
  pose proof (last_default_in h xs) as Hp. pose proof (head_default_in h ys) as Hn.
  assert (x ∉ h :: xs ++ ys) as Hx.
  { apply NoDup_cons in Hnd as [Nh Hnd]. rewrite <- Permutation_middle in Hnd. apply NoDup_cons in Hnd as [Hx _]. set_solver. }
  assert (default h (last xs) <> x) as Hpx by (intros E; rewrite E in Hp; clear E; set_solver).
  unfold ucs_list_del. rewrite (seg_prev _ _ _ _ Hs1). cbn [mbind option_bind set_next next prev].
  rewrite fn_lookup_insert_ne by done. rewrite (seg_next _ _ _ _ Hs2), (seg_prev _ _ _ _ Hs1). eexists. split; [done|].
  assert (agree (h :: xs ++ ys) m (set_prev (default h (head ys)) (Some (default h (last xs)))
    (set_next (default h (last xs)) (Some (default h (head ys))) m))) as Hag.
  { intros y Hy. cbn. rewrite !fn_lookup_insert_ne; [done|intros E; rewrite E in Hn; clear E; set_solver|intros E; rewrite E in Hp; clear E; set_solver]. }
  split; [|done]. eapply lists_upd; [exact H1|exact Hh|set_solver| |by apply (ring_del m h xs x ys)|].
  - apply NoDup_cons in Hnd as [Nh Hnd]. rewrite <- Permutation_middle in Hnd. apply NoDup_cons in Hnd as [_ Hnd]. apply NoDup_cons. set_solver.
  - eapply agree_weaken; [|exact Hag]. set_solver.
Qed.

Lemma extract_head_ok m R h x xs : lists_ok m R -> R !! h = Some (x :: xs) ->
  exists m', ucs_list_extract_head h m = Some (x, m') /\ lists_ok m' (<[h := xs]> R) /\ agree (h :: xs) m m'.
Proof.
  intros H1 Hh. destruct (del_ok m R h [] x xs H1 Hh) as (m' & E & H2 & H3). exists m'. split; [|done].
  destruct (lo_ring _ _ H1 h _ Hh) as [(Hn & _ & _) _]. unfold ucs_list_extract_head. rewrite Hn. cbn. by rewrite E.
Qed.

Lemma is_empty_ok m R h xs : lists_ok m R -> R !! h = Some xs -> ucs_list_is_empty h m = bool_decide (xs = []).
Proof.
  intros H1 Hh. destruct (lo_ring _ _ H1 h _ Hh) as [Hs [Nh _]%NoDup_cons]. unfold ucs_list_is_empty. rewrite (seg_next _ _ _ _ Hs).
  apply bool_decide_ext. destruct xs as [|x xs]; cbn; [done|]. split; [|done]. intros [= ->]. set_solver.
Qed.

Lemma is_only_ok m R h xs x : lists_ok m R -> R !! h = Some xs -> x <> h -> ucs_list_is_only h x m = bool_decide (xs = [x]).
Proof.
  intros H1 Hh Hx. destruct (lo_ring _ _ H1 h _ Hh) as [Hs [Nh _]%NoDup_cons]. unfold ucs_list_is_only. rewrite (seg_next _ _ _ _ Hs).
  rewrite <- bool_decide_and. apply bool_decide_ext. destruct xs as [|y xs]; cbn in *.
  - split; [|done]. intros [[= ->] _]. done.
  - destruct Hs as (_ & _ & Hs). rewrite elem_of_cons in Nh. split.
    + intros [[= ->] E]. rewrite (seg_next _ _ _ _ Hs) in E. destruct xs as [|z xs]; [done|]. cbn in E. simplify_eq. exfalso. apply Nh. right. left.
    + intros [= -> ->]. split; [done|]. apply (seg_next _ _ _ _ Hs).
Qed.

Lemma walk_ok m h x xs fuel : seg m x xs h -> h ∉ xs -> (length xs < fuel)%nat -> list_walk fuel h (next m x) m = Some xs.
Proof.
  revert x fuel. induction xs as [|y xs IH]; intros x [|fuel] Hs Hh Hf; cbn in *; try lia.
  - rewrite (proj1 Hs). by rewrite decide_True.
  - destruct Hs as (-> & _ & Hs). rewrite decide_False by set_solver. by rewrite (IH y fuel) by (try done; set_solver || lia).
Qed.

Lemma length_ok m R h xs fuel : lists_ok m R -> R !! h = Some xs -> (length xs < fuel)%nat -> ucs_list_length fuel h m = Some (length xs).
Proof.
  intros H1 Hh Hf. destruct (lo_ring _ _ H1 h _ Hh) as [Hs [Nh _]%NoDup_cons]. unfold ucs_list_length. by rewrite (walk_ok m h h xs fuel Hs Nh Hf).
Qed.

Lemma lists_delete m R l : lists_ok m R -> lists_ok m (delete l R).
Proof. intros [Hr Hd]. split; intros *; rewrite !lookup_delete_Some; naive_solver. Qed.

Lemma lists_same m R h xs : lists_ok m R -> R !! h = Some xs -> lists_ok m (<[h := xs]> R).
Proof. intros Hl Hh. by rewrite insert_id. Qed.

Lemma splice_tail_ok m R h l xs ys : lists_ok m R -> R !! h = Some xs -> R !! l = Some ys -> h <> l ->
  exists m', ucs_list_splice_tail h l m = Some m' /\ lists_ok m' (<[h := xs ++ ys]> (delete l R)) /\ agree (h :: xs ++ ys) m m'.
Proof.
  intros H1 Hh Hl Hne. unfold ucs_list_splice_tail. rewrite (is_empty_ok _ _ _ _ H1 Hl).
  assert (delete l R !! h = Some xs) as Hh' by (by rewrite lookup_delete_ne).
  destruct ys as [|y ys].
  { exists m. rewrite bool_decide_true, app_nil_r by done. split_and!; [done| |done]. apply lists_same; [by apply lists_delete|done]. }
  destruct (lo_ring _ _ H1 l _ Hl) as [Hsl [Nl Hndl]%NoDup_cons]. destruct (lo_ring _ _ H1 h _ Hh) as [Hsh [Nh Hndh]%NoDup_cons].
  assert (forall z, z ∈ h :: xs -> z ∈ l :: y :: ys -> False) as Hdj.
  { intros z Hz1 Hz2. apply Hne. by apply (lo_disj _ _ H1 h l xs (y :: ys) z). }
  rewrite bool_decide_false by done. rewrite (seg_next _ _ _ _ Hsl), (seg_prev _ _ _ _ Hsl), (seg_prev _ _ _ _ Hsh).
  cbn [mbind option_bind head default]. eexists. split; [done|].
  assert (default l (last (y :: ys)) = default y (last ys)) as -> by (rewrite last_cons; by destruct (last ys)).
  pose proof (last_default_in h xs) as Hp. pose proof (last_default_in y ys) as Hq. destruct Hsl as (_ & _ & Hsl).
  apply NoDup_cons in Hndl as [Ny Hndl].
  assert (agree (h :: xs ++ y :: ys) m (set_prev h (Some (default y (last ys))) (set_next (default y (last ys)) (Some h)
    (set_next (default h (last xs)) (Some y) (set_prev y (Some (default h (last xs))) m))))) as Hag.
  { intros z Hz. cbn. rewrite !fn_lookup_insert_ne; try done; try (intros <-; set_solver);
      intros E; rewrite E in *; clear E; set_solver. }
  split; [|done]. eapply lists_upd; [by apply lists_delete|exact Hh'| | | |eapply agree_weaken; [|exact Hag]; set_solver].
  - intros z [Hz|Hz]%elem_of_app; [by left|]. right. intros (h' & zs & Hh2 & Hz2). apply lookup_delete_Some in Hh2 as [Hn2 Hh2].
    apply Hn2. apply (lo_disj _ _ H1 l h' (y :: ys) zs z); [done|done|by right|done].
  - apply NoDup_cons. split; [intros [?|?]%elem_of_app; [done|]; apply (Hdj h); [left|by right]|]. apply NoDup_app. split_and!; [done| |by apply NoDup_cons].
    intros z Hz1 Hz2. apply (Hdj z); by right.
  - apply dseg_app. split.
    + eapply seg_end; [|exact Hsh|..]; cbn; [by apply NoDup_cons|..].
      * intros z Hz1 Hz2. rewrite !fn_lookup_insert_ne; [done|done|]. intros E. rewrite E in Hq. apply (Hdj z); [done|by right].
      * intros z Hz. rewrite !fn_lookup_insert_ne; [done| |]; intros <-; [|done]. apply (Hdj y); [by right|right; left].
      * rewrite fn_lookup_insert_ne; [by rewrite fn_lookup_insert|]. intros E. rewrite E in Hq. by apply (Hdj (default h (last xs))); [|right].
      * rewrite fn_lookup_insert_ne; [by rewrite fn_lookup_insert|]. intros ->. apply (Hdj y); [left|right; left].
    + eapply seg_end; [|exact Hsl|..]; cbn; [by apply NoDup_cons|..].
      * intros z Hz1 Hz2. rewrite !fn_lookup_insert_ne; [done| |done]. intros E. rewrite E in Hp. apply (Hdj z); [done|by right].
      * intros z Hz. rewrite !fn_lookup_insert_ne; [done| |]; intros <-; [done|]. apply (Hdj h); [left|by right; right].
      * by rewrite fn_lookup_insert.
      * by rewrite fn_lookup_insert.
Qed.

Lemma head_init_ok m R h : lists_ok m R -> ~ linked R h -> lists_ok (ucs_list_head_init h m) (<[h := []]> R).
Proof.
  intros [Hr Hd] Hh. assert (forall h' xs, R !! h' = Some xs -> h ∉ h' :: xs) as Hf by (intros h' xs Hx Hin; apply Hh; by exists h', xs).
  split.
  - intros h' xs. destruct (decide (h' = h)) as [->|Hne].
    + rewrite lookup_insert_eq. intros [= <-]. split; [|apply NoDup_singleton]. cbn. by rewrite !fn_lookup_insert.
    + rewrite lookup_insert_ne by done. intros Hx. destruct (Hr h' xs Hx) as [Hs Hn]. split; [|done]. specialize (Hf h' xs Hx).
      apply (dseg_frame m); [| |done]; intros y Hy; cbn; rewrite fn_lookup_insert_ne; try done; by intros <-.
  - intros h1 h2 xs ys y. rewrite !lookup_insert_Some. intros [[<- <-]|[N1 E1]] [[<- <-]|[N2 E2]] Y1 Y2; try done.
    + apply list_elem_of_singleton in Y1 as ->. by destruct (Hf h2 ys E2).
    + apply list_elem_of_singleton in Y2 as ->. by destruct (Hf h1 xs E1).
    + by apply (Hd h1 h2 xs ys y).
Qed.

(** The field [next] of a link that is in no list. *)
Lemma set_next_ok m R x v : lists_ok m R -> ~ linked R x -> lists_ok (set_next x v m) R.
Proof.
  intros [Hr Hd] Hx. split; [|done]. intros h xs Hh. destruct (Hr h xs Hh) as [Hs Hn]. split; [|done].
  apply (dseg_frame m); [|done|done]. intros y Hy. cbn. rewrite fn_lookup_insert_ne; [done|]. intros <-. apply Hx. by exists h, xs.
Qed.

End links.
End DList.
