(* ===== verification/Arbiter.v ===== *)
(** Arbiter of [ucs/datastruct/arbiter.c] and [arbiter.h]: fair dispatch of work
    elements in groups.

    The elements of a group are a ring of [next] pointers with [tail] in the group;
    the first element of a scheduled group is also in the doubly linked list of the
    arbiter ([DList]).  The model keeps these pointers.  [None] is a failed assertion
    or the dereference of [NULL]; the assertions are those of a debug build, which
    has the fields [guard] and [arbiter] in a group.

    A callback is an argument: the operations that it calls on groups, and its
    result.  It does not dispatch itself; the callback of a purge only answers. *)

From stdpp Require Import functions gmap.
From S2P Require Import Prelude.
From S2P Require Import DList.

Module Arbiter.
Import DList.

(** ** Memory *)

(** An element of a user, the dummy of [ucs_arbiter_dispatch_nonempty] or the one of
    [ucs_arbiter_group_purge]. *)
Inductive elem := Elem (e : positive) | Dummy | PurgeDummy.

(** The head of a list: that of an arbiter, or [resched_list]. *)
Inductive lhead := Arb (a : positive) | Resched.

Inductive link := LHead (l : lhead) | LElem (e : elem).

#[export] Instance elem_eq_dec : EqDecision elem.
Proof. solve_decision. Defined.
#[export] Instance lhead_eq_dec : EqDecision lhead.
Proof. solve_decision. Defined.
#[export] Instance link_eq_dec : EqDecision link.
Proof. solve_decision. Defined.

#[export] Instance elem_countable : Countable elem.
Proof.
  apply (inj_countable' (fun x => match x with Elem e => inl e | Dummy => inr true | PurgeDummy => inr false end)
    (fun y => match y with inl e => Elem e | inr true => Dummy | inr false => PurgeDummy end)). by intros [].
Defined.

#[export] Instance lhead_countable : Countable lhead.
Proof.
  apply (inj_countable' (fun x => match x with Arb a => Some a | Resched => None end)
    (fun y => match y with Some a => Arb a | None => Resched end)). by intros [].
Defined.

#[export] Instance link_countable : Countable link.
Proof.
  apply (inj_countable' (fun x => match x with LHead l => inl l | LElem e => inr e end)
    (fun y => match y with inl l => LHead l | inr e => LElem e end)). by intros [].
Defined.

(** The field [list] of arbiters and elements, [next] and [group] of elements, and
    [tail], [guard] and [arbiter] of groups. *)
Record amem := AMem {
  links : mem (L := link);
  enext : elem -> option elem;
  egroup : elem -> option positive;
  tail : positive -> option elem;
  guard : positive -> Z;
  garb : positive -> option positive
}.

Definition set_links v m := AMem v (enext m) (egroup m) (tail m) (guard m) (garb m).
Definition set_enext e v m := AMem (links m) (<[e := v]> (enext m)) (egroup m) (tail m) (guard m) (garb m).
Definition set_egroup e v m := AMem (links m) (enext m) (<[e := v]> (egroup m)) (tail m) (guard m) (garb m).
Definition set_tail g v m := AMem (links m) (enext m) (egroup m) (<[g := v]> (tail m)) (guard m) (garb m).
Definition set_guard g v m := AMem (links m) (enext m) (egroup m) (tail m) (<[g := v]> (guard m)) (garb m).
Definition set_garb g v m := AMem (links m) (enext m) (egroup m) (tail m) (guard m) (<[g := v]> (garb m)).

(** An operation of [list.h] on the links. *)
Definition on_links (f : mem -> option mem) (m : amem) : option amem := l ← f (links m); Some (set_links l m).

(** ** Elements and groups *)

Definition ucs_arbiter_init (a : positive) (m : amem) : amem := set_links (ucs_list_head_init (LHead (Arb a)) (links m)) m.

Definition ucs_arbiter_group_init (g : positive) (m : amem) : amem := set_guard g 0 (set_tail g None m).

Definition ucs_arbiter_elem_init (e : elem) (m : amem) : amem := set_egroup e None m.

Definition ucs_arbiter_is_empty (a : positive) (m : amem) : bool := ucs_list_is_empty (LHead (Arb a)) (links m).

Definition ucs_arbiter_group_is_empty (g : positive) (m : amem) : bool := bool_decide (tail m g = None).

Definition ucs_arbiter_elem_is_scheduled (e : elem) (m : amem) : bool := bool_decide (egroup m e <> None).

Definition ucs_arbiter_elem_is_only (e : elem) (m : amem) : bool := bool_decide (enext m e = Some e).

Definition ucs_arbiter_group_head_is_scheduled (e : elem) (m : amem) : bool := bool_decide (next (links m) (LElem e) <> None).

Definition ucs_arbiter_group_head_reset (e : elem) (m : amem) : amem := set_links (set_next (LElem e) None (links m)) m.

Definition ucs_arbiter_elem_set_scheduled (e : elem) (g : positive) (m : amem) : amem := set_egroup e (Some g) m.

Definition UCS_ARBITER_GROUP_GUARD_CHECK (g : positive) (m : amem) : option unit := assert (guard m g =? 0).

Definition ucs_arbiter_cleanup (a : positive) (m : amem) : option unit := assert (ucs_arbiter_is_empty a m).

Definition ucs_arbiter_group_cleanup (g : positive) (m : amem) : option unit :=
  _ ← UCS_ARBITER_GROUP_GUARD_CHECK g m; assert (ucs_arbiter_group_is_empty g m).

Definition ucs_arbiter_group_push_elem_always (g : positive) (e : elem) (m : amem) : amem :=
  let m := match tail m g with
           | None => set_enext e (Some e) (ucs_arbiter_group_head_reset e m)
           | Some t => set_enext t (Some e) (set_enext e (enext m t) m)
           end in
  ucs_arbiter_elem_set_scheduled e g (set_tail g (Some e) m).

Definition ucs_arbiter_group_push_head_elem_always (g : positive) (e : elem) (m : amem) : option amem :=
  _ ← UCS_ARBITER_GROUP_GUARD_CHECK g m;
  _ ← assert (negb (ucs_arbiter_elem_is_scheduled e m));
  let t := tail m g in
  let m := ucs_arbiter_elem_set_scheduled e g (ucs_arbiter_group_head_reset e m) in
  match t with
  | None => Some (set_tail g (Some e) (set_enext e (Some e) m))
  | Some t =>
      head ← enext m t;
      let m := set_enext t (Some e) (set_enext e (Some head) m) in
      if negb (ucs_arbiter_group_head_is_scheduled head m) then Some m
      else on_links (ucs_list_replace (LElem head) (LElem e)) m
  end.

Definition ucs_arbiter_group_push_elem (g : positive) (e : elem) (m : amem) : amem :=
  if ucs_arbiter_elem_is_scheduled e m then m else ucs_arbiter_group_push_elem_always g e m.

Definition ucs_arbiter_group_push_head_elem (g : positive) (e : elem) (m : amem) : option amem :=
  if ucs_arbiter_elem_is_scheduled e m then Some m else ucs_arbiter_group_push_head_elem_always g e m.

(** ** Purge *)

(** The local variables of the loop; [results] tells for each call of the callback
    whether it removes the element. *)
Fixpoint purge_loop (results : list bool) (g : positive) (tl : elem) (sched_group : bool) (head nxt prv : elem) (m : amem) :
  option (amem * option elem) :=
  match results with
  | [] => None
  | remove :: results =>
      let ptr := nxt in
      nxt ← enext m ptr;
      let m := ucs_arbiter_elem_init ptr m in
      if (remove : bool) then
        if bool_decide (ptr = head) && bool_decide (ptr = tl) then
          let m := set_tail g None m in
          m ← (if sched_group then on_links (ucs_list_del (LElem PurgeDummy)) m else Some m);
          Some (m, None)
        else
          let new_head := if bool_decide (ptr = head) then nxt else head in
          _ ← (if negb (bool_decide (ptr = head)) && bool_decide (ptr = tl) then assert (bool_decide (nxt = head)) else Some tt);
          let m := if negb (bool_decide (ptr = head)) && bool_decide (ptr = tl) then set_tail g (Some prv) m else m in
          let m := set_enext prv (Some nxt) m in
          if bool_decide (ptr = tl) then Some (m, Some new_head) else purge_loop results g tl sched_group new_head nxt prv m
      else
        let m := ucs_arbiter_elem_set_scheduled ptr g m in
        if bool_decide (ptr = tl) then Some (m, Some head) else purge_loop results g tl sched_group head nxt ptr m
  end.

Definition ucs_arbiter_group_purge (g : positive) (results : list bool) (m : amem) : option amem :=
  match tail m g with
  | None => Some m
  | Some tl =>
      let m := set_links (set_next (LElem PurgeDummy) None (links m)) m in
      _ ← UCS_ARBITER_GROUP_GUARD_CHECK g m;
      head ← enext m tl;
      let sched_group := ucs_arbiter_group_head_is_scheduled head m in
      m ← (if sched_group then on_links (ucs_list_replace (LElem head) (LElem PurgeDummy)) m else Some m);
      '(m, head) ← purge_loop results g tl sched_group head head tl m;
      match head with
      | None => Some m
      | Some head =>
          _ ← assert (bool_decide (tail m g <> None));
          if sched_group then on_links (ucs_list_replace (LElem PurgeDummy) (LElem head)) m
          else Some (ucs_arbiter_group_head_reset head m)
      end
  end.

(** The loop of [ucs_arbiter_group_num_elems] *)
Fixpoint num_elems_loop (fuel : nat) (tl e : elem) (num_elems : nat) (m : amem) : option nat :=
  match fuel with
  | O => None
  | S fuel =>
      e ← enext m e;
      if decide (e = tl) then Some (S num_elems) else num_elems_loop fuel tl e (S num_elems) m
  end.

Definition ucs_arbiter_group_num_elems (fuel : nat) (g : positive) (m : amem) : option nat :=
  match tail m g with None => Some 0%nat | Some e => num_elems_loop fuel e e 0 m end.

(** ** Scheduling *)

Definition ucs_arbiter_group_is_scheduled (g : positive) (m : amem) : option bool :=
  match tail m g with
  | None => Some false
  | Some t => head ← enext m t; Some (ucs_arbiter_group_head_is_scheduled head m)
  end.

Definition ucs_arbiter_schedule_head_if_not_scheduled (a : positive) (head : elem) (m : amem) : option amem :=
  if negb (ucs_arbiter_group_head_is_scheduled head m) then on_links (ucs_list_add_tail (LHead (Arb a)) (LElem head)) m else Some m.

Definition ucs_arbiter_group_schedule_nonempty (a g : positive) (m : amem) : option amem :=
  _ ← assert (negb (ucs_arbiter_group_is_empty g m));
  t ← tail m g;
  head ← enext m t;
  m ← ucs_arbiter_schedule_head_if_not_scheduled a head m;
  Some (set_garb g (Some a) m).

Definition ucs_arbiter_group_desched_nonempty (a g : positive) (m : amem) : option amem :=
  t ← tail m g;
  head ← enext m t;
  if negb (ucs_arbiter_group_head_is_scheduled head m) then Some m else
  _ ← assert (bool_decide (garb m g = Some a));
  let m := set_garb g None m in
  m ← on_links (ucs_list_del (LElem head)) m;
  Some (ucs_arbiter_group_head_reset head m).

Definition ucs_arbiter_group_schedule (a g : positive) (m : amem) : option amem :=
  if negb (ucs_arbiter_group_is_empty g m) then ucs_arbiter_group_schedule_nonempty a g m else Some m.

Definition ucs_arbiter_group_desched (a g : positive) (m : amem) : option amem :=
  if negb (ucs_arbiter_group_is_empty g m) then ucs_arbiter_group_desched_nonempty a g m else Some m.

Definition ucs_arbiter_remove_and_reset_if_scheduled (e : elem) (m : amem) : option amem :=
  if ucs_arbiter_group_head_is_scheduled e m then
    m ← on_links (ucs_list_del (LElem e)) m; Some (ucs_arbiter_group_head_reset e m)
  else Some m.

Definition ucs_arbiter_group_head_replace (g : positive) (group_head new_group_head : elem) (m : amem) : option amem :=
  _ ← assert (negb (ucs_arbiter_group_is_empty g m));
  t ← tail m g;
  _ ← assert (bool_decide (enext m t = Some group_head));
  let m := if bool_decide (enext m group_head = Some group_head) then set_tail g (Some new_group_head) m
           else set_enext new_group_head (enext m group_head) m in
  t ← tail m g;
  Some (set_enext t (Some new_group_head) m).

(** ** Dispatch *)

Inductive ucs_arbiter_cb_result_t :=
| UCS_ARBITER_CB_RESULT_REMOVE_ELEM
| UCS_ARBITER_CB_RESULT_NEXT_GROUP
| UCS_ARBITER_CB_RESULT_DESCHED_GROUP
| UCS_ARBITER_CB_RESULT_RESCHED_GROUP
| UCS_ARBITER_CB_RESULT_STOP.

(** The operations of the users, which a callback may call as well. *)
Inductive op :=
| PushElem (g e : positive)
| PushHeadElem (g e : positive)
| Schedule (a g : positive)
| Desched (a g : positive)
| Purge (g : positive) (results : list bool).

Definition do_op (o : op) (m : amem) : option amem :=
  match o with
  | PushElem g e => Some (ucs_arbiter_group_push_elem g (Elem e) m)
  | PushHeadElem g e => ucs_arbiter_group_push_head_elem g (Elem e) m
  | Schedule a g => ucs_arbiter_group_schedule a g m
  | Desched a g => ucs_arbiter_group_desched a g m
  | Purge g results => ucs_arbiter_group_purge g results m
  end.

Fixpoint do_ops (os : list op) (m : amem) : option amem :=
  match os with
  | [] => Some m
  | o :: os => m ← do_op o m; do_ops os m
  end.

(** A call of the callback: what it does, and its result. *)
Definition callback : Type := list op * ucs_arbiter_cb_result_t.

(** The next group of the outer loop of [ucs_arbiter_dispatch_nonempty]. *)
Definition dispatch_begin (a : positive) (m : amem) : option (positive * elem * amem) :=
  '(l, ls) ← ucs_list_extract_head (LHead (Arb a)) (links m);
  match l with
  | LHead _ => None
  | LElem group_head =>
      let m := ucs_arbiter_group_head_reset group_head (set_links ls m) in
      g ← egroup m group_head;
      let m := set_egroup Dummy (Some g) m in
      _ ← UCS_ARBITER_GROUP_GUARD_CHECK g m;
      Some (g, group_head, m)
  end.

(** What follows a turn of the inner loop: the next element of the group, the next
    group, or the end. *)
Inductive turn := NextElem (group_head : elem) | NextGroup | Stop.

(** The end of a turn when the callback keeps its element. *)
Definition dispatch_keep (a g : positive) (group_head : elem) (result : ucs_arbiter_cb_result_t) (m : amem) : option (turn * amem) :=
  let m := ucs_arbiter_elem_set_scheduled group_head g m in
  _ ← assert (negb (ucs_arbiter_group_head_is_scheduled group_head m));
  m ← ucs_arbiter_group_head_replace g Dummy group_head m;
  match result with
  | UCS_ARBITER_CB_RESULT_DESCHED_GROUP =>
      if ucs_arbiter_group_head_is_scheduled Dummy m then
        m ← on_links (ucs_list_replace (LElem Dummy) (LElem group_head)) m;
        dg ← egroup m Dummy;
        let m := set_garb g (garb m dg) m in
        Some (NextGroup, ucs_arbiter_group_head_reset Dummy m)
      else Some (NextGroup, set_garb g None m)
  | _ =>
      m ← ucs_arbiter_remove_and_reset_if_scheduled Dummy m;
      match result with
      | UCS_ARBITER_CB_RESULT_NEXT_GROUP =>
          m ← on_links (ucs_list_add_tail (LHead (Arb a)) (LElem group_head)) m; Some (NextGroup, m)
      | UCS_ARBITER_CB_RESULT_RESCHED_GROUP =>
          m ← on_links (ucs_list_add_tail (LHead Resched) (LElem group_head)) m; Some (NextGroup, m)
      | UCS_ARBITER_CB_RESULT_STOP =>
          m ← on_links (ucs_list_add_head (LHead (Arb a)) (LElem group_head)) m; Some (Stop, m)
      | _ => None
      end
  end.

(** The end of a turn when the element is removed. *)
Definition dispatch_remove (a g per_group count : positive) (m : amem) : option (turn * amem) :=
  if bool_decide (enext m Dummy = Some Dummy) then
    let m := set_tail g None m in
    m ← ucs_arbiter_remove_and_reset_if_scheduled Dummy m;
    Some (NextGroup, set_garb g None m)
  else
    group_head ← enext m Dummy;
    t ← tail m g;
    let m := set_enext t (Some group_head) m in
    if ucs_arbiter_group_head_is_scheduled Dummy m then
      m ← on_links (ucs_list_replace (LElem Dummy) (LElem group_head)) m;
      Some (NextGroup, ucs_arbiter_group_head_reset Dummy m)
    else if bool_decide (per_group <= count)%positive then
      m ← on_links (ucs_list_add_tail (LHead (Arb a)) (LElem group_head)) m; Some (NextGroup, m)
    else Some (NextElem group_head, ucs_arbiter_group_head_reset group_head m).

(** A turn of the inner loop, the [count]-th of the group. *)
Definition dispatch_elem (a per_group g : positive) (count : positive) (group_head : elem) (cb : callback) (m : amem) : option (turn * amem) :=
  _ ← assert (bool_decide (egroup m group_head = Some g) && bool_decide (egroup m Dummy = Some g) && bool_decide (count <= per_group)%positive);
  let m := ucs_arbiter_elem_init group_head m in
  _ ← assert (negb (ucs_arbiter_group_head_is_scheduled group_head m));
  m ← ucs_arbiter_group_head_replace g group_head Dummy m;
  let m := set_guard g (guard m g + 1) m in
  m ← do_ops cb.1 m;
  let m := set_guard g (guard m g - 1) m in
  t ← tail m g;
  _ ← assert (bool_decide (enext m t = Some Dummy));
  match cb.2 with
  | UCS_ARBITER_CB_RESULT_REMOVE_ELEM => dispatch_remove a g per_group count m
  | result => dispatch_keep a g group_head result m
  end.

(** The loops, one call of the callback after the other.  [log] are the elements
    that were dispatched.  When the calls are used up the dispatch is not finished. *)
Inductive outcome := Finished (m : amem) (log : list elem) | Unfinished (log : list elem).

Fixpoint dispatch_loop (a per_group : positive) (cbs : list callback) (g count : positive) (group_head : elem) (log : list elem) (m : amem) :
  option outcome :=
  match cbs with
  | [] => Some (Unfinished log)
  | cb :: cbs =>
      '(t, m) ← dispatch_elem a per_group g count group_head cb m;
      let log := log ++ [group_head] in
      match t with
      | NextElem group_head => dispatch_loop a per_group cbs g (count + 1) group_head log m
      | NextGroup =>
          if ucs_arbiter_is_empty a m then Some (Finished m log)
          else '(g, group_head, m) ← dispatch_begin a m; dispatch_loop a per_group cbs g 1 group_head log m
      | Stop => Some (Finished m log)
      end
  end.

Definition ucs_arbiter_dispatch_nonempty (a per_group : positive) (cbs : list callback) (m : amem) : option outcome :=
  let m := set_links (ucs_list_head_init (LHead Resched) (links m)) m in
  _ ← assert (negb (ucs_arbiter_is_empty a m));
  let m := ucs_arbiter_group_head_reset Dummy m in
  '(g, group_head, m) ← dispatch_begin a m;
  r ← dispatch_loop a per_group cbs g 1 group_head [] m;
  match r with
  | Finished m log => m ← on_links (ucs_list_splice_tail (LHead (Arb a)) (LHead Resched)) m; Some (Finished m log)
  | Unfinished log => Some (Unfinished log)
  end.

Definition ucs_arbiter_dispatch (a per_group : positive) (cbs : list callback) (m : amem) : option outcome :=
  if negb (ucs_arbiter_is_empty a m) then ucs_arbiter_dispatch_nonempty a per_group cbs m else Some (Finished m []).

(** ** Specification

    The queue of each group, the groups of each list in their order, and for each
    element and group the place where it is.  [held] are elements outside of the
    queues that a dispatch works with. *)
Record spec := Spec {
  queue : positive -> list elem;
  owner : elem -> option positive;
  order : gmap lhead (list positive);
  on : positive -> option lhead;
  sguard : positive -> Z;
  sarb : positive -> option positive;
  held : list elem
}.

Definition set_queue g v s := Spec (<[g := v]> (queue s)) (owner s) (order s) (on s) (sguard s) (sarb s) (held s).
Definition set_owner e v s := Spec (queue s) (<[e := v]> (owner s)) (order s) (on s) (sguard s) (sarb s) (held s).
Definition set_order l v s := Spec (queue s) (owner s) (<[l := v]> (order s)) (on s) (sguard s) (sarb s) (held s).
Definition set_on g v s := Spec (queue s) (owner s) (order s) (<[g := v]> (on s)) (sguard s) (sarb s) (held s).
Definition set_sguard g v s := Spec (queue s) (owner s) (order s) (on s) (<[g := v]> (sguard s)) (sarb s) (held s).
Definition set_sarb g v s := Spec (queue s) (owner s) (order s) (on s) (sguard s) (<[g := v]> (sarb s)) (held s).

Definition set_held v s := Spec (queue s) (owner s) (order s) (on s) (sguard s) (sarb s) v.

Definition groups_of (l : lhead) (s : spec) : list positive := default [] (order s !! l).

(** A group leaves its list, or enters one at its end or beginning. *)
Definition spec_remove (g : positive) (s : spec) : spec :=
  match on s g with
  | Some l => set_on g None (set_order l (filter (fun x => x <> g) (groups_of l s)) s)
  | None => s
  end.

Definition spec_append (l : lhead) (g : positive) (s : spec) : spec := set_on g (Some l) (set_order l (groups_of l s ++ [g]) s).
Definition spec_prepend (l : lhead) (g : positive) (s : spec) : spec := set_on g (Some l) (set_order l (g :: groups_of l s) s).

Definition spec_push (g : positive) (e : elem) (q : list elem) (s : spec) : spec :=
  set_held (filter (fun x => x <> e) (held s)) (set_owner e (Some g) (set_queue g q s)).

Definition spec_op (o : op) (s : spec) : spec :=
  match o with
  | PushElem g e =>
      match owner s (Elem e) with
      | Some _ => s
      | None => spec_push g (Elem e) (queue s g ++ [Elem e]) s
      end
  | PushHeadElem g e =>
      match owner s (Elem e) with
      | Some _ => s
      | None => spec_push g (Elem e) (Elem e :: queue s g) s
      end
  | Schedule a g =>
      if decide (queue s g = []) then s
      else set_sarb g (Some a) (match on s g with None => spec_append (Arb a) g s | Some _ => s end)
  | Desched a g =>
      if decide (queue s g = []) then s
      else match on s g with None => s | Some _ => set_sarb g None (spec_remove g s) end
  | Purge g results =>
      let kept := (filter (fun p => p.2 = false) (zip (queue s g) results)).*1 in
      let gone := (filter (fun p => p.2 = true) (zip (queue s g) results)).*1 in
      let s := foldr (fun e => set_owner e None) s gone in
      let s := if decide (kept = []) then spec_remove g s else s in
      set_queue g kept s
  end.

Definition spec_ops (os : list op) (s : spec) : spec := fold_left (fun s o => spec_op o s) os s.

(** The first group of an arbiter, with its first element. *)
Definition spec_begin (a : positive) (s : spec) : option (positive * elem * spec) :=
  match groups_of (Arb a) s with
  | [] => None
  | g :: gs => e ← head (queue s g); Some (g, e, set_on g None (set_order (Arb a) gs s))
  end.

(** During the callback the dummy is the first element of the group. *)
Definition spec_enter (g : positive) (e : elem) (s : spec) : spec :=
  set_held [e] (set_sguard g (sguard s g + 1) (set_owner Dummy (Some g) (set_owner e None (set_queue g (Dummy :: List.tl (queue s g)) s)))).

Definition spec_exit (g : positive) (s : spec) : spec := set_sguard g (sguard s g - 1) s.

Definition spec_keep (a g : positive) (e : elem) (result : ucs_arbiter_cb_result_t) (s : spec) : turn * spec :=
  let s := set_held [Dummy] (set_owner e (Some g) (set_owner Dummy None (set_queue g (e :: List.tl (queue s g)) s))) in
  match result with
  | UCS_ARBITER_CB_RESULT_DESCHED_GROUP => (NextGroup, match on s g with Some _ => s | None => set_sarb g None s end)
  | UCS_ARBITER_CB_RESULT_RESCHED_GROUP => (NextGroup, spec_append Resched g (spec_remove g s))
  | UCS_ARBITER_CB_RESULT_STOP => (Stop, spec_prepend (Arb a) g (spec_remove g s))
  | _ => (NextGroup, spec_append (Arb a) g (spec_remove g s))
  end.

Definition spec_discard (a g per_group count : positive) (s : spec) : turn * spec :=
  let q := List.tl (queue s g) in
  let s := set_held [Dummy] (set_owner Dummy None (set_queue g q s)) in
  match q with
  | [] => (NextGroup, set_sarb g None (spec_remove g s))
  | e :: _ =>
      match on s g with
      | Some _ => (NextGroup, s)
      | None => if bool_decide (per_group <= count)%positive then (NextGroup, spec_append (Arb a) g s) else (NextElem e, s)
      end
  end.

Definition spec_elem (a per_group g count : positive) (e : elem) (cb : callback) (s : spec) : turn * spec :=
  let s := spec_exit g (spec_ops cb.1 (spec_enter g e s)) in
  match cb.2 with
  | UCS_ARBITER_CB_RESULT_REMOVE_ELEM => spec_discard a g per_group count s
  | result => spec_keep a g e result s
  end.

Inductive spec_outcome := SpecFinished (s : spec) (log : list elem) | SpecUnfinished (log : list elem).

Fixpoint spec_loop (a per_group : positive) (cbs : list callback) (g count : positive) (e : elem) (log : list elem) (s : spec) :
  option spec_outcome :=
  match cbs with
  | [] => Some (SpecUnfinished log)
  | cb :: cbs =>
      let '(t, s) := spec_elem a per_group g count e cb s in
      let log := log ++ [e] in
      match t with
      | NextElem e => spec_loop a per_group cbs g (count + 1) e log s
      | NextGroup =>
          match groups_of (Arb a) s with
          | [] => Some (SpecFinished s log)
          | _ => '(g, e, s) ← spec_begin a s; spec_loop a per_group cbs g 1 e log s
          end
      | Stop => Some (SpecFinished s log)
      end
  end.

(** The groups that were rescheduled are put at the end. *)
Definition spec_splice (a : positive) (s : spec) : spec :=
  let gs := groups_of Resched s in
  Spec (queue s) (owner s) (<[Arb a := groups_of (Arb a) s ++ gs]> (delete Resched (order s)))
    (fun g => if decide (g ∈ gs) then Some (Arb a) else on s g) (sguard s) (sarb s) [].

Definition spec_dispatch (a per_group : positive) (cbs : list callback) (s : spec) : option spec_outcome :=
  match groups_of (Arb a) s with
  | [] => Some (SpecFinished s [])
  | _ =>
      '(g, e, s) ← spec_begin a (set_held [Dummy] (set_order Resched [] s));
      r ← spec_loop a per_group cbs g 1 e [] s;
      Some (match r with SpecFinished s log => SpecFinished (spec_splice a s) log | SpecUnfinished log => SpecUnfinished log end)
  end.

(** ** Representation *)

(** The elements [xs] follow [a], and then comes [b]. *)
Fixpoint echain (m : amem) (a : elem) (xs : list elem) (b : elem) : Prop :=
  match xs with
  | [] => enext m a = Some b
  | x :: xs => enext m a = Some x /\ echain m x xs b
  end.

Definition group_ok (m : amem) (g : positive) (q : list elem) : Prop :=
  match q with
  | [] => tail m g = None
  | e :: q => tail m g = Some (default e (last q)) /\ echain m e q e
  end.

Lemma echain_app m a xs x ys b : echain m a (xs ++ x :: ys) b <-> echain m a xs x /\ echain m x ys b.
Proof. revert a. induction xs as [|y xs IH]; intros a; cbn; [tauto|]. rewrite IH. tauto. Qed.

Lemma echain_last m a xs b : echain m a xs b -> enext m (default a (last xs)) = Some b.
Proof. revert a. induction xs as [|x xs IH]; intros a; [done|]. intros [_ Hc]. rewrite last_cons. specialize (IH _ Hc). by destruct (last xs). Qed.

Lemma echain_frame m m' a xs b : (forall y, y ∈ a :: xs -> enext m' y = enext m y) -> echain m a xs b -> echain m' a xs b.
Proof.
  revert a. induction xs as [|x xs IH]; intros a He; cbn; rewrite (He a) by left; [done|]. intros [? ?]. split; [done|]. apply IH; [|done].
  intros y Hy. apply He. by right.
Qed.

Lemma echain_end m m' a xs b c : NoDup (a :: xs) -> echain m a xs b ->
  (forall y, y ∈ a :: xs -> y <> default a (last xs) -> enext m' y = enext m y) -> enext m' (default a (last xs)) = Some c -> echain m' a xs c.
Proof.
  intros Hnd Hc He Hl. destruct (decide (xs = [])) as [->|Hne]; [done|]. destruct (exists_last Hne) as (xs' & x & ->).
  rewrite last_snoc in *. cbn [default] in *. apply echain_app in Hc as [Hc _]. apply echain_app. split; [|done].
  apply (echain_frame m); [|done]. intros y Hy. apply He; [set_solver|]. intros ->.
  rewrite app_comm_cons in Hnd. apply NoDup_app in Hnd as (_ & Hnd & _). apply (Hnd x Hy). left.
Qed.

Lemma group_ok_frame m m' g q : tail m' g = tail m g -> (forall y, y ∈ q -> enext m' y = enext m y) -> group_ok m g q -> group_ok m' g q.
Proof. intros Ht He. unfold group_ok. destruct q as [|e q]; rewrite Ht; [done|]. intros [? ?]. split; [done|]. by apply (echain_frame m). Qed.

Lemma group_ok_tail m g e q : group_ok m g (e :: q) -> exists t, tail m g = Some t /\ enext m t = Some e /\ t ∈ e :: q.
Proof. intros [Ht Hc]. eexists. split; [exact Ht|]. split; [by apply echain_last|apply last_default_in]. Qed.

(** The first element of a group. *)
Definition head_of (s : spec) (g : positive) : elem := default Dummy (head (queue s g)).
Definition heads (s : spec) (gs : list positive) : list link := (fun g => LElem (head_of s g)) <$> gs.

Definition lists_of (s : spec) (x : link) : option (list link) :=
  match x with LHead l => heads s <$> order s !! l | LElem _ => None end.

(** The lists of the groups. *)
Record lrep (ls : mem (L := link)) (s : spec) : Prop := LRep {
  rp_lists : exists R, lists_ok ls R /\ forall x, R !! x = lists_of s x;
  rp_on : forall g l, on s g = Some l <-> g ∈ groups_of l s;
  rp_order : forall l, NoDup (groups_of l s);
  rp_nonempty : forall g, on s g <> None -> queue s g <> [];
  rp_unsched : forall g e q, queue s g = e :: q -> on s g = None -> next ls (LElem e) = None;
  rp_held : forall x, x ∈ held s -> next ls (LElem x) = None
}.

Record rep (m : amem) (s : spec) : Prop := Rep {
  rp_queue : forall g, group_ok m g (queue s g);
  rp_nodup : forall g, NoDup (queue s g);
  rp_owner : forall e g, owner s e = Some g <-> e ∈ queue s g;
  rp_group : forall e, e <> Dummy \/ owner s e <> None -> egroup m e = owner s e;
  rp_l : lrep (links m) s;
  rp_guard : forall g, guard m g = sguard s g;
  rp_arb : forall g, garb m g = sarb s g;
  rp_purge : owner s PurgeDummy = None;
  rp_free : forall x, x ∈ held s -> x <> PurgeDummy /\ owner s x = None
}.

(** *** Places of groups and elements *)

Lemma place ls s (R : gmap link (list link)) g l e q : lrep ls s -> (forall x, R !! x = lists_of s x) -> on s g = Some l -> queue s g = e :: q ->
  exists gs1 gs2, groups_of l s = gs1 ++ g :: gs2 /\ order s !! l = Some (gs1 ++ g :: gs2) /\
    R !! LHead l = Some (heads s gs1 ++ LElem e :: heads s gs2) /\ g ∉ gs1 ++ gs2.
Proof.
  intros H HR Hon Hq. pose proof (proj1 (rp_on _ _ H g l) Hon) as Hin. pose proof (rp_order _ _ H l) as Hnd. unfold groups_of in *.
  destruct (order s !! l) as [gs|] eqn:El; [|by apply not_elem_of_nil in Hin]. cbn in *.
  apply list_elem_of_split in Hin as (gs1 & gs2 & ->). exists gs1, gs2. split_and!; try done.
  - rewrite HR. cbn. rewrite El. cbn. unfold heads. rewrite fmap_app, fmap_cons. unfold head_of at 2. by rewrite Hq.
  - rewrite <- Permutation_middle in Hnd. by apply NoDup_cons in Hnd as [? _].
Qed.

Lemma linked_elem ls s (R : gmap link (list link)) e : lrep ls s -> (forall x, R !! x = lists_of s x) -> linked R (LElem e) ->
  exists g q, queue s g = e :: q /\ on s g <> None.
Proof.
  intros H HR (h & xs & Hh & Hin). rewrite HR in Hh. destruct h as [l|]; [|done]. cbn in Hh.
  destruct (order s !! l) as [gs|] eqn:El; [|done]. cbn in Hh. injection Hh as <-. apply elem_of_cons in Hin as [?|Hin]; [done|].
  apply list_elem_of_fmap in Hin as (g & Eg & Hg). injection Eg as Eg. exists g.
  assert (on s g = Some l) as Hon by (apply (rp_on _ _ H); unfold groups_of; by rewrite El).
  assert (on s g <> None) as Hon' by congruence. pose proof (rp_nonempty _ _ H g Hon') as Hne. unfold head_of in Eg.
  destruct (queue s g) as [|e' q]; [done|]. cbn in Eg. subst. by exists q.
Qed.

Lemma linked_head s (R : gmap link (list link)) l : (forall x, R !! x = lists_of s x) -> order s !! l = None -> ~ linked R (LHead l).
Proof.
  intros HR Hl (h & xs & Hh & Hin). rewrite HR in Hh. destruct h as [l'|]; [|done]. cbn in Hh.
  destruct (order s !! l') as [gs|] eqn:El; [|done]. cbn in Hh. injection Hh as <-. apply elem_of_cons in Hin as [[= ->]|Hin]; [congruence|].
  by apply list_elem_of_fmap in Hin as (g & Eg & Hg).
Qed.

Lemma head_scheduled m s g e q : lrep (links m) s -> queue s g = e :: q -> ucs_arbiter_group_head_is_scheduled e m = bool_decide (on s g <> None).
Proof.
  intros H Hq. apply bool_decide_ext. split.
  - intros Hn Hon. apply Hn. by eapply rp_unsched.
  - intros Hon. destruct (rp_lists _ _ H) as (R & HR & HL). destruct (on s g) as [l|] eqn:El; [|done].
    destruct (place _ _ _ _ _ _ _ H HL El Hq) as (gs1 & gs2 & _ & _ & Hl & _). destruct (lo_ring _ _ HR _ _ Hl) as [Hr _].
    eapply seg_next_some; [exact Hr|]. set_solver.
Qed.

Lemma owner_head m s g e q : rep m s -> queue s g = e :: q -> owner s e = Some g.
Proof. intros H Hq. apply (rp_owner _ _ H). rewrite Hq. left. Qed.

Lemma owner_disj m s g g' e : rep m s -> e ∈ queue s g -> e ∈ queue s g' -> g = g'.
Proof. intros H H1%(rp_owner _ _ H) H2%(rp_owner _ _ H). congruence. Qed.

(** An element that is in no group is in no list. *)
Lemma free_unlinked m s (R : gmap link (list link)) e : rep m s -> (forall x, R !! x = lists_of s x) -> owner s e = None -> ~ linked R (LElem e).
Proof. intros H HR Ho Hl. destruct (linked_elem _ _ _ _ (rp_l _ _ H) HR Hl) as (g & q & Hq & _). by rewrite (owner_head _ _ _ _ _ H Hq) in Ho. Qed.

(** The lists do not change with the queues as long as the first elements of the
    scheduled groups stay. *)
Lemma lists_of_ext s s' : (forall l, order s' !! l = order s !! l) -> (forall g l, g ∈ groups_of l s -> head_of s' g = head_of s g) ->
  forall x, lists_of s' x = lists_of s x.
Proof.
  intros Ho Hh [l|e]; cbn; [|done]. rewrite Ho. destruct (order s !! l) as [gs|] eqn:El; [|done]. cbn. f_equal.
  apply list_fmap_ext. intros i g Hg. f_equal. apply (Hh g l). unfold groups_of. rewrite El. by eapply list_elem_of_lookup_2.
Qed.

Lemma group_nonempty ls s g l : lrep ls s -> g ∈ groups_of l s -> queue s g <> [].
Proof. intros H Hg%(rp_on _ _ H). apply (rp_nonempty _ _ H). by rewrite Hg. Qed.

(** The lists when the queue of a group changes behind its first element, or the group
    is not scheduled. *)
Lemma lrep_queue ls ls' s s' : lrep ls s -> order s' = order s -> on s' = on s ->
  (forall g, on s g <> None -> head (queue s' g) = head (queue s g)) ->
  (exists R, lists_ok ls' R /\ forall x, R !! x = lists_of s x) ->
  (forall g e q, queue s' g = e :: q -> on s g = None -> next ls' (LElem e) = None) ->
  (forall x, x ∈ held s' -> next ls' (LElem x) = None) -> lrep ls' s'.
Proof.
  intros H Eo En Hh (R & HR & HL) Hu Hhd. assert (forall l, groups_of l s' = groups_of l s) as Eg by (intros l; unfold groups_of; by rewrite Eo).
  constructor.
  - exists R. split; [done|]. intros x. rewrite HL. symmetry. apply lists_of_ext; [by rewrite Eo|]. intros g l Hg%(rp_on _ _ H).
    unfold head_of. by rewrite Hh by (by rewrite Hg).
  - intros g l. rewrite En, Eg. apply H.
  - intros l. rewrite Eg. apply H.
  - intros g. rewrite En. intros Hg Hq. specialize (Hh g Hg). pose proof (rp_nonempty _ _ H g Hg). rewrite Hq in Hh. by destruct (queue s g).
  - intros g e q Hq. rewrite En. eauto.
  - done.
Qed.

(** The queue of one group changes. *)
Lemma rep_queue_upd m m' s s' g q : rep m s -> (forall g', queue s' g' = if decide (g' = g) then q else queue s g') ->
  NoDup q -> (forall e, e ∈ q -> e ∈ queue s g \/ owner s e = None) -> PurgeDummy ∉ q ->
  (forall e, owner s' e = if decide (e ∈ q) then Some g else if decide (e ∈ queue s g) then None else owner s e) ->
  group_ok m' g q -> (forall g', g' <> g -> tail m' g' = tail m g') ->
  (forall y, y ∉ queue s g -> owner s y <> None -> enext m' y = enext m y) -> (forall e, e <> Dummy \/ owner s' e <> None -> egroup m' e = owner s' e) ->
  (forall x, x ∈ held s' -> x <> PurgeDummy /\ owner s' x = None) ->
  (forall g, guard m' g = sguard s' g) -> (forall g, garb m' g = sarb s' g) -> lrep (links m') s' -> rep m' s'.
Proof.
  intros H Eq Hnd Hin Hp Eo Hg Ht He Hgr Hfr H1 H2 HL.
  assert (forall g' e, e ∈ queue s g' -> g' <> g -> e ∉ queue s g /\ owner s e <> None) as Hoth.
  { intros g' e Hq Hne. split; [intros Hq2; apply Hne; by eapply owner_disj|]. apply (rp_owner _ _ H) in Hq. congruence. }
  constructor; try done.
  - intros g'. rewrite Eq. case_decide as Eg; [by subst|]. apply (group_ok_frame m); [by apply Ht| |apply H].
    intros y Hy. destruct (Hoth g' y Hy Eg). by apply He.
  - intros g'. rewrite Eq. case_decide; [done|apply H].
  - intros e g'. rewrite Eo, Eq. destruct (decide (g' = g)) as [->|Hne].
    + case_decide; [done|]. case_decide as Hq; [done|]. split; [|done]. intros Ho%(rp_owner _ _ H). done.
    + case_decide as Hq.
      * split; [congruence|]. intros Hq'. destruct (Hin e Hq) as [?|Ho]; [by destruct (Hoth g' e Hq' Hne)|]. apply (rp_owner _ _ H) in Hq'. congruence.
      * case_decide as Hq2; [|apply H]. split; [done|]. intros Hq'. by destruct (Hoth g' e Hq' Hne).
  - rewrite Eo, decide_False by done. case_decide; [done|apply H].
Qed.

(** *** Changes of the lists *)

Lemma next_unlinked ls s (R : gmap link (list link)) e : lists_ok ls R -> (forall x, R !! x = lists_of s x) -> next ls (LElem e) = None -> ~ linked R (LElem e).
Proof.
  intros HR HL Hn (h & xs & Hh & Hin). destruct (lo_ring _ _ HR _ _ Hh) as [Hr _].
  by apply (seg_next_some _ _ _ _ _ Hr Hin) in Hn.
Qed.

Lemma groups_insert l l' gs s : groups_of l' (set_order l gs s) = if decide (l' = l) then gs else groups_of l' s.
Proof. unfold groups_of. cbn. case_decide as E; [subst; by rewrite lookup_insert_eq|by rewrite lookup_insert_ne]. Qed.

Lemma lists_insert s l gs x : lists_of (set_order l gs s) x = if decide (x = LHead l) then Some (heads s gs) else lists_of s x.
Proof.
  destruct x as [l'|e]; cbn; [|done]. destruct (decide (l' = l)) as [->|Hne].
  - by rewrite lookup_insert_eq, decide_True.
  - by rewrite lookup_insert_ne, decide_False by congruence.
Qed.

(** A change of the links in the list of [l] and of [e] only. *)
Lemma unsched_agree ls ls' s l e : lrep ls s ->
  (exists xs R, lists_ok ls R /\ (forall x, R !! x = lists_of s x) /\ (forall y, y ∈ xs -> y = LHead l \/ linked R y) /\ agree (LElem e :: xs) ls ls') ->
  forall e', next ls (LElem e') = None -> e' <> e -> next ls' (LElem e') = None.
Proof.
  intros H (xs & R & HR & HL & Hxs & Hag) e' Hn Hne.
  destruct (Hag (LElem e')) as [-> _]; [|done]. intros [?|Hin]%elem_of_cons; [congruence|].
  destruct (Hxs _ Hin) as [?|Hl]; [done|]. by apply (next_unlinked _ _ _ _ HR HL) in Hn.
Qed.

(** Another element becomes the first one of a scheduled group. *)
Lemma lrep_replace ls s s' g l h e q q' : lrep ls s -> on s g = Some l -> queue s g = h :: q -> queue s' g = e :: q' ->
  (forall g', g' <> g -> queue s' g' = queue s g') -> order s' = order s -> on s' = on s ->
  (forall g' q', queue s g' = e :: q' -> False) ->
  exists ls', ucs_list_replace (LElem h) (LElem e) ls = Some ls' /\
  forall reset : bool, (forall x, x ∈ held s' -> (reset = true /\ x = h) \/ (next ls (LElem x) = None /\ x <> e)) ->
    lrep (if reset then set_next (LElem h) None ls' else ls') s'.
Proof.
  intros H Hon Hq Hq' Hoth Eo En He. destruct (rp_lists _ _ H) as (R & HR & HL).
  destruct (place _ _ _ _ _ _ _ H HL Hon Hq) as (gs1 & gs2 & Hgs & Hord & HRl & Hg).
  assert (~ linked R (LElem e)) as Hul by (intros (g' & q0 & Hq0 & _)%(linked_elem _ _ _ _ H HL); eauto).
  destruct (replace_ok _ _ _ _ _ _ _ HR HRl Hul) as (ls' & E & HR' & Hag). exists ls'. split; [done|]. intros reset Hheld.
  assert (forall e', next ls (LElem e') = None -> e' <> e -> next (if reset then set_next (LElem h) None ls' else ls') (LElem e') = None) as Hkeep.
  { intros e' Hn Hne. assert (next ls' (LElem e') = None) as Hn'.
    { eapply (unsched_agree ls ls' s l e H); [|done|done]. exists (LHead l :: heads s gs1 ++ heads s gs2), R. split_and!; try done.
      intros y [?|Hy]%elem_of_cons; [by left|]. right. exists (LHead l). eexists. split; [done|]. set_solver. }
    destruct reset; [|done]. cbn. destruct (decide (e' = h)) as [->|]; [by rewrite fn_lookup_insert|]. by rewrite fn_lookup_insert_ne by congruence. }
  assert (~ linked (<[LHead l := heads s gs1 ++ LElem e :: heads s gs2]> R) (LElem h)) as Hulh.
  { intros (k & xs & Hk & Hin). destruct (decide (k = LHead l)) as [->|Hne].
    - rewrite lookup_insert_eq in Hk. injection Hk as <-. destruct (lo_ring _ _ HR _ _ HRl) as [_ [_ Hnd]%NoDup_cons].
      rewrite <- Permutation_middle in Hnd. apply NoDup_cons in Hnd as [Hn _]. apply elem_of_cons in Hin as [?|Hin]; [done|].
      apply elem_of_app in Hin as [?|[[= ->]|?]%elem_of_cons]; [set_solver|by eapply He|set_solver].
    - rewrite lookup_insert_ne in Hk by done. apply Hne. eapply (lo_disj _ _ HR k (LHead l)); [done|exact HRl|exact Hin|set_solver]. }
  assert (forall l', groups_of l' s' = groups_of l' s) as Eg by (intros l'; unfold groups_of; by rewrite Eo).
  assert (forall gs, g ∉ gs -> heads s' gs = heads s gs) as Hhs.
  { intros gs Hn. apply list_fmap_ext. intros i g' Hg'. f_equal. unfold head_of. rewrite Hoth; [done|]. intros ->. by apply Hn, (list_elem_of_lookup_2 _ i). }
  constructor.
  - eexists. split; [by destruct reset; [apply set_next_ok|]|]. intros x. destruct (decide (x = LHead l)) as [->|Hx].
    + rewrite lookup_insert_eq. cbn. rewrite Eo, Hord. cbn. f_equal. unfold heads at 3. rewrite fmap_app, fmap_cons. fold (heads s' gs1). fold (heads s' gs2).
      rewrite !Hhs by set_solver. unfold head_of. by rewrite Hq'.
    + rewrite lookup_insert_ne by done. rewrite HL. destruct x as [l'|]; [|done]. cbn. rewrite Eo. destruct (order s !! l') as [gs|] eqn:El'; [|done].
      cbn. f_equal. symmetry. apply Hhs. intros Hin. assert (on s g = Some l') as Hon' by (apply (rp_on _ _ H); unfold groups_of; by rewrite El'). congruence.
  - intros g' l'. rewrite En, Eg. apply H.
  - intros l'. rewrite Eg. apply H.
  - intros g'. rewrite En. intros Hg'. destruct (decide (g' = g)) as [->|]; [by rewrite Hq'|]. rewrite Hoth by done. by apply (rp_nonempty _ _ H).
  - intros g' e' q0 Hq0. rewrite En. intros Hn. destruct (decide (g' = g)) as [->|Hne]; [congruence|]. rewrite Hoth in Hq0 by done.
    apply Hkeep; [by eapply (rp_unsched _ _ H)|by intros ->; eapply He].
  - intros x Hx. destruct (Hheld x Hx) as [[-> ->]|[Hn Hne]]; [cbn; by rewrite fn_lookup_insert|by apply Hkeep].
Qed.

(** A group enters a list, with [e] as its first element. *)
Record enters (g : positive) (l : lhead) (e : elem) (gs' : list positive) (ls : mem (L := link)) (s s' : spec) : Prop := Enters {
  en_off : on s g = None;
  en_queue : exists q, queue s' g = e :: q;
  en_other : forall g', g' <> g -> queue s' g' = queue s g';
  en_order : order s' = <[l := gs']> (order s);
  en_on : on s' = <[g := Some l]> (on s);
  en_new : forall g' q', queue s g' = e :: q' -> g' = g;
  en_held : forall x, x ∈ held s' -> next ls (LElem x) = None /\ x <> e
}.

Lemma enters_unlinked ls s s' (R : gmap link (list link)) g l e gs' : lrep ls s -> (forall x, R !! x = lists_of s x) -> enters g l e gs' ls s s' ->
  ~ linked R (LElem e).
Proof.
  intros H HL En (g' & q0 & Hq0 & Hon0)%(linked_elem _ _ _ _ H HL). apply (en_new _ _ _ _ _ _ _ En) in Hq0 as ->. by rewrite (en_off _ _ _ _ _ _ _ En) in Hon0.
Qed.

Lemma lrep_enter ls ls' s s' g l e gs gs' : lrep ls s -> order s !! l = Some gs -> gs' ≡ₚ g :: gs -> enters g l e gs' ls s s' ->
  (forall R, lists_ok ls R -> R !! LHead l = Some (heads s gs) -> ~ linked R (LElem e) ->
     lists_ok ls' (<[LHead l := heads s' gs']> R) /\ agree (LElem e :: LHead l :: heads s gs) ls ls') ->
  lrep ls' s'.
Proof.
  intros H Hl Hp En Hadd. destruct (rp_lists _ _ H) as (R & HR & HL). pose proof (enters_unlinked _ _ _ _ _ _ _ _ H HL En) as Hul.
  destruct En as [Hon (q & Hq) Hoth Eo En Hun Hhd].
  assert (R !! LHead l = Some (heads s gs)) as HRl by (rewrite HL; cbn; by rewrite Hl).
  destruct (Hadd R HR HRl Hul) as [HR' Hag].
  assert (forall e', next ls (LElem e') = None -> e' <> e -> next ls' (LElem e') = None) as Hkeep.
  { eapply (unsched_agree ls ls' s l e H). exists (LHead l :: heads s gs), R. split_and!; try done.
    intros y [?|Hy]%elem_of_cons; [by left|]. right. exists (LHead l), (heads s gs). split; [done|]. by right. }
  assert (forall l', g ∉ groups_of l' s) as Hnot by (intros l' Hin%(rp_on _ _ H); congruence).
  assert (groups_of l s = gs) as Hgl by (unfold groups_of; by rewrite Hl).
  assert (forall l', groups_of l' s' = if decide (l' = l) then gs' else groups_of l' s) as Hg'.
  { intros l'. rewrite <- groups_insert. unfold groups_of. by rewrite Eo. }
  constructor; rewrite ?En.
  - eexists. split; [exact HR'|]. intros [l'|e']; [|rewrite lookup_insert_ne by done; by rewrite HL]. cbn. rewrite Eo. destruct (decide (l' = l)) as [->|Hne].
    + by rewrite !lookup_insert_eq.
    + rewrite !lookup_insert_ne, HL by congruence. cbn. destruct (order s !! l') as [gs0|] eqn:El'; [|done]. cbn. f_equal. apply list_fmap_ext.
      intros i g' Hi. f_equal. unfold head_of. rewrite Hoth; [done|]. intros ->. apply (Hnot l'). unfold groups_of. rewrite El'. by eapply list_elem_of_lookup_2.
  - intros g' l'. rewrite Hg'. destruct (decide (g' = g)) as [->|Hne]; [rewrite fn_lookup_insert|rewrite fn_lookup_insert_ne by done].
    + case_decide as El; [subst l'; rewrite Hp; split; [by left|done]|]. split; [congruence|]. intros Hin. by apply Hnot in Hin.
    + rewrite (rp_on _ _ H). case_decide as El; [|done]. subst l'. rewrite Hp, Hgl, elem_of_cons. naive_solver.
  - intros l'. rewrite Hg'. case_decide as El; [|apply H].
    subst l'. rewrite Hp. apply NoDup_cons. rewrite <- Hgl. split; [apply Hnot|apply H].
  - intros g'. destruct (decide (g' = g)) as [->|Hne]; [by rewrite Hq|]. rewrite fn_lookup_insert_ne, Hoth by done. apply H.
  - intros g' e' q0. destruct (decide (g' = g)) as [->|Hne]; [by rewrite fn_lookup_insert|]. rewrite fn_lookup_insert_ne, Hoth by done. intros Hq0 Hn.
    apply Hkeep; [by eapply (rp_unsched _ _ H)|by intros ->; apply Hne, (Hun _ q0)].
  - intros x Hx. destruct (Hhd x Hx). by apply Hkeep.
Qed.

Lemma heads_other s s' g l (gs : list positive) : (forall g', g' <> g -> queue s' g' = queue s g') -> g ∉ groups_of l s -> order s !! l = Some gs -> heads s' gs = heads s gs.
Proof.
  intros Hoth Hg Hl. apply list_fmap_ext. intros i g' Hi. f_equal. unfold head_of. rewrite Hoth; [done|]. intros ->. apply Hg.
  unfold groups_of. rewrite Hl. by eapply list_elem_of_lookup_2.
Qed.

Lemma enters_heads ls s s' g l e gs gs' : lrep ls s -> order s !! l = Some gs -> enters g l e gs' ls s s' ->
  heads s' gs = heads s gs /\ head_of s' g = e.
Proof.
  intros H Hl [Hon (q & Hq) Hoth Eo En Hun Hhd]. split; [|unfold head_of; by rewrite Hq].
  eapply heads_other; [done| |done]. intros Hin%(rp_on _ _ H). congruence.
Qed.

Lemma lrep_append ls s s' g l e gs : lrep ls s -> order s !! l = Some gs -> enters g l e (gs ++ [g]) ls s s' ->
  exists ls', ucs_list_add_tail (LHead l) (LElem e) ls = Some ls' /\ lrep ls' s'.
Proof.
  intros H Hl En. destruct (rp_lists _ _ H) as (R & HR & HL). pose proof (enters_unlinked _ _ _ _ _ _ _ _ H HL En) as Hul.
  destruct (enters_heads _ _ _ _ _ _ _ _ H Hl En) as [Eh Ee].
  assert (R !! LHead l = Some (heads s gs)) as HRl by (rewrite HL; cbn; by rewrite Hl).
  destruct (add_tail_ok _ _ _ _ _ HR HRl Hul) as (ls' & E & _). exists ls'. split; [done|].
  apply (lrep_enter ls ls' s s' g l e gs (gs ++ [g])); try done; [by rewrite Permutation_app_comm|].
  intros R0 HR0 HRl0 Hul0. destruct (add_tail_ok _ _ _ _ _ HR0 HRl0 Hul0) as (ls0 & E0 & HR1 & Hag). rewrite E in E0. injection E0 as <-.
  split; [|done]. unfold heads at 1. rewrite fmap_app. fold (heads s' gs). cbn. by rewrite Eh, Ee.
Qed.

Lemma lrep_prepend ls s s' g l e gs : lrep ls s -> order s !! l = Some gs -> enters g l e (g :: gs) ls s s' ->
  exists ls', ucs_list_add_head (LHead l) (LElem e) ls = Some ls' /\ lrep ls' s'.
Proof.
  intros H Hl En. destruct (rp_lists _ _ H) as (R & HR & HL). pose proof (enters_unlinked _ _ _ _ _ _ _ _ H HL En) as Hul.
  destruct (enters_heads _ _ _ _ _ _ _ _ H Hl En) as [Eh Ee].
  assert (R !! LHead l = Some (heads s gs)) as HRl by (rewrite HL; cbn; by rewrite Hl).
  destruct (add_head_ok _ _ _ _ _ HR HRl Hul) as (ls' & E & _). exists ls'. split; [done|]. eapply lrep_enter; try done.
  intros R0 HR0 HRl0 Hul0. destruct (add_head_ok _ _ _ _ _ HR0 HRl0 Hul0) as (ls0 & E0 & HR1 & Hag). rewrite E in E0. injection E0 as <-.
  split; [|done]. cbn. fold (heads s' gs). by rewrite Eh, Ee.
Qed.

Lemma spec_remove_order g l gs1 gs2 s : on s g = Some l -> groups_of l s = gs1 ++ g :: gs2 -> g ∉ gs1 ++ gs2 ->
  spec_remove g s = set_on g None (set_order l (gs1 ++ gs2) s).
Proof.
  intros Hon Hgs Hg. unfold spec_remove. rewrite Hon, Hgs. do 2 f_equal. rewrite filter_app, filter_cons_False by tauto.
  rewrite !filter_all; [done|intros x Hx ->; set_solver..].
Qed.

(** A group leaves its list; its first element is reset or replaced, or the group becomes empty. *)
Lemma lrep_leave ls s g l e q : lrep ls s -> queue s g = e :: q -> on s g = Some l -> (forall g' q', queue s g' = e :: q' -> g' = g) ->
  exists ls', ucs_list_del (LElem e) ls = Some ls' /\
  forall (reset : bool) s', order s' = order (spec_remove g s) -> on s' = on (spec_remove g s) -> (forall g', g' <> g -> queue s' g' = queue s g') ->
    (forall e' q', queue s' g = e' :: q' -> (reset = true /\ e' = e) \/ (next ls (LElem e') = None /\ e' <> e)) ->
    (forall x, x ∈ held s' -> (reset = true /\ x = e) \/ (next ls (LElem x) = None /\ x <> e)) ->
    lrep (if reset then set_next (LElem e) None ls' else ls') s'.
Proof.
  intros H Hq Hon Hun. destruct (rp_lists _ _ H) as (R & HR & HL).
  destruct (place _ _ _ _ _ _ _ H HL Hon Hq) as (gs1 & gs2 & Hgs & Hord & HRl & Hg).
  destruct (del_ok _ _ _ _ _ _ HR HRl) as (ls' & E & HR' & Hag). exists ls'. split; [done|].
  rewrite (spec_remove_order g l gs1 gs2) by done. intros reset s' Eo En Hoth Hlast Hheld. cbn in Eo, En.
  assert (forall e', next ls (LElem e') = None -> e' <> e -> next (if reset then set_next (LElem e) None ls' else ls') (LElem e') = None) as Hkeep.
  { intros e' Hn Hne. assert (next ls' (LElem e') = None) as Hn'.
    { eapply (unsched_agree ls ls' s l e H); [|done|done]. exists (LHead l :: heads s gs1 ++ heads s gs2), R.
      split_and!; try done; [|eapply agree_weaken; [|exact Hag]; set_solver].
      intros y [?|Hy]%elem_of_cons; [by left|]. right. exists (LHead l). eexists. split; [done|]. set_solver. }
    destruct reset; [cbn; by rewrite fn_lookup_insert_ne by congruence|done]. }
  set (R' := <[LHead l := heads s gs1 ++ heads s gs2]> R) in *.
  assert (forall x, R' !! x = lists_of s' x) as HL'.
  { intros x. rewrite (lists_of_ext (set_order l (gs1 ++ gs2) s)); [| by rewrite Eo|].
    - rewrite lists_insert. unfold R', heads. case_decide as Ex; [subst; by rewrite lookup_insert_eq, fmap_app|by rewrite lookup_insert_ne, HL].
    - intros g' l' Hg'. unfold head_of. rewrite Hoth; [done|]. intros ->. rewrite groups_insert in Hg'. case_decide; [done|].
      apply (rp_on _ _ H) in Hg'. congruence. }
  assert (~ linked R' (LElem e)) as Hul.
  { intros (h & xs & Hh & Hin). destruct (decide (h = LHead l)) as [->|Hne].
    - unfold R' in Hh. rewrite lookup_insert_eq in Hh. injection Hh as <-. destruct (lo_ring _ _ HR _ _ HRl) as [_ [_ Hnd]%NoDup_cons].
      rewrite <- Permutation_middle in Hnd. apply NoDup_cons in Hnd as [Hn _]. set_solver.
    - unfold R' in Hh. rewrite lookup_insert_ne in Hh by done. apply Hne. eapply (lo_disj _ _ HR h (LHead l)); [done|exact HRl|exact Hin|set_solver]. }
  assert (forall l', groups_of l' s' = if decide (l' = l) then gs1 ++ gs2 else groups_of l' s) as Eg.
  { intros l'. rewrite <- groups_insert. unfold groups_of. by rewrite Eo. }
  constructor.
  - exists R'. split; [|done]. destruct reset; [by apply set_next_ok|done].
  - intros g' l'. rewrite En, Eg. destruct (decide (g' = g)) as [->|Hne]; [rewrite fn_lookup_insert|rewrite fn_lookup_insert_ne by done].
    + split; [done|]. case_decide; [done|]. intros Hin%(rp_on _ _ H). congruence.
    + rewrite (rp_on _ _ H). case_decide as El; [|done]. subst l'. rewrite Hgs, !elem_of_app, elem_of_cons. naive_solver.
  - intros l'. rewrite Eg. case_decide as El; [|apply H]. pose proof (rp_order _ _ H l) as Hnd. rewrite Hgs in Hnd.
    rewrite <- Permutation_middle in Hnd. by apply NoDup_cons in Hnd as [_ ?].
  - intros g'. rewrite En. destruct (decide (g' = g)) as [->|Hne]; [by rewrite fn_lookup_insert|]. rewrite fn_lookup_insert_ne, Hoth by done. apply H.
  - intros g' e' q0 Hq0. rewrite En. destruct (decide (g' = g)) as [->|Hne].
    + intros _. destruct (Hlast _ _ Hq0) as [[-> ->]|[Hn Hne]]; [cbn; by rewrite fn_lookup_insert|by apply Hkeep].
    + rewrite fn_lookup_insert_ne by done. rewrite Hoth in Hq0 by done. intros Hn.
      apply Hkeep; [by eapply (rp_unsched _ _ H)|by intros ->; apply Hne, (Hun _ q0)].
  - intros x Hx. destruct (Hheld x Hx) as [[-> ->]|[Hn Hne]]; [cbn; by rewrite fn_lookup_insert|by apply Hkeep].
Qed.

(** ** The operations *)

(** An element enters the queue of a group. *)
Lemma owner_insert s g e (q : list elem) : owner s e = None -> e ∈ q -> (forall y, y ∈ q -> y = e \/ y ∈ queue s g) -> (forall y, y ∈ queue s g -> y ∈ q) ->
  (forall y, y ∈ queue s g -> owner s y = Some g) ->
  forall y, <[e := Some g]> (owner s) y = if decide (y ∈ q) then Some g else if decide (y ∈ queue s g) then None else owner s y.
Proof.
  intros Ho He Hq1 Hq2 Hown y. destruct (decide (y = e)) as [->|Hne]; [by rewrite fn_lookup_insert, decide_True|].
  rewrite fn_lookup_insert_ne by done. case_decide as Hy.
  - destruct (Hq1 y Hy) as [?|Hy']; [done|]. by apply Hown.
  - by rewrite decide_False by auto.
Qed.

Lemma owner_of m s g y : rep m s -> y ∈ queue s g -> owner s y = Some g.
Proof. intros H Hy. by apply (rp_owner _ _ H). Qed.

Lemma set_queue_lookup g q s g' : queue (set_queue g q s) g' = if decide (g' = g) then q else queue s g'.
Proof. cbn. case_decide; [subst; by rewrite fn_lookup_insert|by rewrite fn_lookup_insert_ne]. Qed.

Lemma push_free m s g e q : rep m s -> forall x, x ∈ held (spec_push g e q s) -> x <> PurgeDummy /\ owner (spec_push g e q s) x = None.
Proof.
  intros H x [Hne Hx]%list_elem_of_filter. cbn. rewrite fn_lookup_insert_ne by done. by apply (rp_free _ _ H).
Qed.

Lemma push_held m s g e q x : rep m s -> x ∈ held (spec_push g e q s) -> LElem e <> LElem x /\ next (links m) (LElem x) = None.
Proof. intros H [Hne Hx]%list_elem_of_filter. split; [congruence|]. by apply (rp_held _ _ (rp_l _ _ H)). Qed.

Lemma push_elem_ok m s g e : rep m s -> owner s (Elem e) = None ->
  rep (ucs_arbiter_group_push_elem_always g (Elem e) m) (spec_push g (Elem e) (queue s g ++ [Elem e]) s).
Proof.
  intros H Ho. assert (forall g', Elem e ∉ queue s g') as Hf by (intros g' Hin%(rp_owner _ _ H); congruence).
  pose proof (rp_queue _ _ H g) as Hq. unfold ucs_arbiter_group_push_elem_always.
  destruct (rp_lists _ _ (rp_l _ _ H)) as (R & HR & HL). pose proof (free_unlinked _ _ _ _ H HL Ho) as Hul.
  apply (rep_queue_upd m _ s _ g (queue s g ++ [Elem e])); try done.
  - intros g'. by apply set_queue_lookup.
  - apply NoDup_app. split_and!; [apply H|set_solver|apply NoDup_singleton].
  - set_solver.
  - intros [Hp|Hp]%elem_of_app; [|set_solver]. apply (owner_of _ _ _ _ H) in Hp. by rewrite (rp_purge _ _ H) in Hp.
  - apply (owner_insert s g (Elem e)); [done|set_solver|set_solver|set_solver|intros y; by apply (owner_of m)].
  - destruct (queue s g) as [|h q] eqn:Eq; cbn [app].
    + cbn in Hq. rewrite Hq. split; cbn; by rewrite fn_lookup_insert.
    + destruct Hq as [Ht Hc]. rewrite Ht. pose proof (echain_last _ _ _ _ Hc) as Hl. pose proof (last_default_in h q) as Hin.
      assert (default h (last q) <> Elem e) as Hne by (intros E; rewrite E in Hin; apply (Hf g); by rewrite Eq).
      split; [cbn; by rewrite fn_lookup_insert, last_snoc|]. apply echain_app. cbn. rewrite (fn_lookup_insert_ne _ (default h (last q)) (Elem e)) by done.
      rewrite fn_lookup_insert. split; [|done].
      eapply (echain_end m); [pose proof (rp_nodup _ _ H g) as Hnd; by rewrite Eq in Hnd|exact Hc| |cbn; by rewrite fn_lookup_insert].
      intros y Hy Hy'. cbn. rewrite !fn_lookup_insert_ne; [done| |done]. intros <-. apply (Hf g). by rewrite Eq.
  - intros g' Hne. destruct (tail m g); cbn; by rewrite fn_lookup_insert_ne.
  - intros y Hy Hy'. assert (Elem e <> y) as Hne by (intros <-; congruence).
    destruct (queue s g) as [|h q] eqn:Eq; [cbn in Hq; rewrite Hq; cbn; by rewrite fn_lookup_insert_ne|].
    destruct (group_ok_tail _ _ _ _ Hq) as (t & Ht & _ & Hin). rewrite Ht. cbn. rewrite !fn_lookup_insert_ne; [done|done|]. by intros ->.
  - intros e'. pose proof (rp_group _ _ H e') as Hg. cbn. destruct (decide (e' = Elem e)) as [->|]; [by rewrite !fn_lookup_insert|].
    rewrite !fn_lookup_insert_ne by done. by destruct (tail m g).
  - by apply (push_free m).
  - destruct (tail m g); apply H.
  - destruct (tail m g); apply H.
  - eapply (lrep_queue (links m)); [apply H|done|done| | | |].
    + intros g' Hg'. pose proof (rp_nonempty _ _ (rp_l _ _ H) g' Hg'). cbn. destruct (decide (g' = g)) as [->|]; [|by rewrite fn_lookup_insert_ne].
      rewrite fn_lookup_insert. by destruct (queue s g).
    + exists R. split; [|done]. destruct (tail m g); [done|]. by apply set_next_ok.
    + intros g' e' q' Hq' Hon. pose proof (rp_unsched _ _ (rp_l _ _ H)) as Hu. change (queue (set_queue g (queue s g ++ [Elem e]) s) g' = e' :: q') in Hq'.
      rewrite set_queue_lookup in Hq'. destruct (tail m g) eqn:Et; cbn.
      * destruct (decide (g' = g)) as [->|]; [|by eapply Hu]. destruct (queue s g) as [|h q] eqn:Eq; [cbn in Hq; congruence|].
        injection Hq' as -> _. by eapply Hu.
      * destruct (decide (e' = Elem e)) as [->|]; [by rewrite fn_lookup_insert|]. rewrite fn_lookup_insert_ne by congruence.
        destruct (decide (g' = g)) as [->|]; [|by eapply Hu]. destruct (queue s g) as [|h q] eqn:Eq; [by injection Hq' as <-|].
        destruct (group_ok_tail _ _ _ _ Hq) as (t & Ht & _). congruence.
    + intros x Hx. destruct (push_held _ _ _ _ _ _ H Hx) as [Hne Hn]. destruct (tail m g); cbn; [done|]. by rewrite fn_lookup_insert_ne.
Qed.

Lemma head_unique m s g e q : rep m s -> queue s g = e :: q -> forall g' q', queue s g' = e :: q' -> g' = g.
Proof. intros H Hq g' q' Hq'. pose proof (owner_head _ _ _ _ _ H Hq). pose proof (owner_head _ _ _ _ _ H Hq'). congruence. Qed.

Lemma head_not_held m s g e q : rep m s -> queue s g = e :: q -> e ∉ held s.
Proof. intros H Hq [_ Hh]%(rp_free _ _ H). by rewrite (owner_head _ _ _ _ _ H Hq) in Hh. Qed.

Lemma push_head_ok m s g e : rep m s -> owner s (Elem e) = None -> sguard s g = 0 ->
  exists m', ucs_arbiter_group_push_head_elem_always g (Elem e) m = Some m' /\
    rep m' (spec_push g (Elem e) (Elem e :: queue s g) s).
Proof.
  intros H Ho Hgd. assert (forall g', Elem e ∉ queue s g') as Hf by (intros g' Hin%(rp_owner _ _ H); congruence).
  unfold ucs_arbiter_group_push_head_elem_always, UCS_ARBITER_GROUP_GUARD_CHECK, ucs_arbiter_elem_is_scheduled.
  rewrite (rp_guard _ _ H), Hgd, (rp_group _ _ H), Ho by (by left). cbn [assert Z.eqb mbind option_bind negb bool_decide].
  set (s' := spec_push g (Elem e) (Elem e :: queue s g) s).
  destruct (rp_lists _ _ (rp_l _ _ H)) as (R & HR & HL). pose proof (free_unlinked _ _ _ _ H HL Ho) as Hul.
  (** what does not depend on the list *)
  assert (forall m', group_ok m' g (Elem e :: queue s g) -> (forall g', g' <> g -> tail m' g' = tail m g') ->
    (forall y, y ∉ queue s g -> owner s y <> None -> enext m' y = enext m y) -> egroup m' = <[Elem e := Some g]> (egroup m) ->
    guard m' = guard m -> garb m' = garb m -> lrep (links m') s' -> rep m' s') as Hrep.
  { intros m' H1 H2 H3 H4 H5 H6 H7. apply (rep_queue_upd m _ s _ g (Elem e :: queue s g)); try done.
    - intros g'. by apply set_queue_lookup.
    - apply NoDup_cons. split; [done|apply H].
    - set_solver.
    - intros [?|Hp]%elem_of_cons; [done|]. apply (owner_of _ _ _ _ H) in Hp. by rewrite (rp_purge _ _ H) in Hp.
    - apply (owner_insert s g (Elem e)); [done|set_solver|set_solver|set_solver|intros y; by apply (owner_of m)].
    - intros e'. rewrite H4. pose proof (rp_group _ _ H e'). cbn. destruct (decide (e' = Elem e)) as [->|]; [by rewrite !fn_lookup_insert|].
      by rewrite !fn_lookup_insert_ne.
    - by apply (push_free m).
    - rewrite H5. apply H.
    - rewrite H6. apply H. }
  assert (on s g = None -> lrep (set_next (LElem (Elem e)) None (links m)) s') as Hl1.
  { intros Hon. eapply (lrep_queue (links m)); [apply H|done|done| | | |].
    - intros g' Hg'. cbn. rewrite fn_lookup_insert_ne; [done|]. by intros <-.
    - exists R. split; [by apply set_next_ok|done].
    - intros g' e' q' Hq' Hon'. change (queue (set_queue g (Elem e :: queue s g) s) g' = e' :: q') in Hq'. rewrite set_queue_lookup in Hq'. cbn.
      case_decide; [simplify_eq; by rewrite fn_lookup_insert|]. rewrite fn_lookup_insert_ne by (intros [= <-]; apply (Hf g'); rewrite Hq'; left).
      by eapply (rp_unsched _ _ (rp_l _ _ H)).
    - intros x Hx. destruct (push_held _ _ _ _ _ _ H Hx) as [Hne Hn]. cbn. by rewrite fn_lookup_insert_ne. }
  pose proof (rp_queue _ _ H g) as Hq. destruct (queue s g) as [|h q] eqn:Eq.
  - rewrite Hq. eexists. split; [done|]. apply Hrep; try done; cbn.
    + by rewrite !fn_lookup_insert.
    + intros g' Hne. by rewrite fn_lookup_insert_ne.
    + intros y _ Hy. rewrite fn_lookup_insert_ne; [done|]. intros <-. congruence.
    + apply Hl1. destruct (on s g) eqn:Eon; [|done]. by destruct (rp_nonempty _ _ (rp_l _ _ H) g); [rewrite Eon|].
  - destruct (group_ok_tail _ _ _ _ Hq) as (t & Ht & Hth & Hin). destruct Hq as [Ht' Hc]. rewrite Ht in Ht'. injection Ht' as Et.
    assert (t <> Elem e) as Hte by (intros ->; apply (Hf g); by rewrite Eq).
    assert (h <> Elem e) as Hhe by (intros ->; apply (Hf g); rewrite Eq; left).
    rewrite Ht. cbn [enext ucs_arbiter_elem_set_scheduled set_egroup ucs_arbiter_group_head_reset set_links]. rewrite Hth. cbn [mbind option_bind].
    set (m1 := set_enext t (Some (Elem e)) (set_enext (Elem e) (Some h) (ucs_arbiter_elem_set_scheduled (Elem e) g (ucs_arbiter_group_head_reset (Elem e) m)))).
    assert (forall ls, lrep ls s' -> rep (set_links ls m1) s') as Hm1.
    { intros ls Hls. apply Hrep; try done; cbn.
      - rewrite last_cons, Ht. split; [f_equal; rewrite Et; by destruct (last q)|]. rewrite fn_lookup_insert_ne, fn_lookup_insert by done. split; [done|].
        eapply (echain_end m); [pose proof (rp_nodup _ _ H g) as Hnd; by rewrite Eq in Hnd|exact Hc| |rewrite <- Et; cbn; by rewrite fn_lookup_insert].
        intros y Hy Hy'. rewrite <- Et in Hy'. cbn. rewrite !fn_lookup_insert_ne; [done| |done]. intros <-. apply (Hf g). by rewrite Eq.
      - intros y Hy Hy'. rewrite !fn_lookup_insert_ne; [done|intros <-; congruence|by intros ->]. }
    assert (ucs_arbiter_group_head_is_scheduled h m1 = bool_decide (on s g <> None)) as ->.
    { rewrite <- (head_scheduled m s g h q) by (done || apply H). unfold ucs_arbiter_group_head_is_scheduled. cbn. by rewrite fn_lookup_insert_ne by congruence. }
    destruct (on s g) as [l|] eqn:Eon.
    + rewrite bool_decide_true by done. cbn [negb]. unfold on_links.
      assert (lrep (links m1) s) as Hl0.
      { eapply (lrep_queue (links m)); [apply H|done|done|done| | |].
        - exists R. split; [by apply set_next_ok|done].
        - intros g' e' q' Hq' Hon'. cbn. rewrite fn_lookup_insert_ne by (intros [= <-]; apply (Hf g'); rewrite Hq'; left).
          by eapply (rp_unsched _ _ (rp_l _ _ H)).
        - intros x Hx. apply (rp_held _ _ (rp_l _ _ H)) in Hx. cbn. destruct (decide (x = Elem e)) as [->|]; [by rewrite fn_lookup_insert|].
          by rewrite fn_lookup_insert_ne by congruence. }
      destruct (lrep_replace (links m1) s s' g l h (Elem e) q (h :: q) Hl0 Eon Eq) as (ls' & E & Hls'); try done.
      { cbn. by rewrite fn_lookup_insert. }
      { intros g' Hne. cbn. by rewrite fn_lookup_insert_ne. }
      { intros g' q' Hq'. apply (Hf g'). rewrite Hq'. left. }
      rewrite E. eexists. split; [done|]. apply Hm1, (Hls' false). intros x Hx. right. destruct (push_held _ _ _ _ _ _ H Hx) as [Hne Hn].
      cbn. rewrite fn_lookup_insert_ne by done. split; [done|congruence].
    + rewrite bool_decide_false by tauto. eexists. split; [done|]. change m1 with (set_links (links m1) m1). apply Hm1. by apply Hl1.
Qed.

(** Only the lists and [garb] change. *)
Lemma rep_links m s ls s' gb : rep m s -> queue s' = queue s -> owner s' = owner s -> sguard s' = sguard s -> (forall g, gb g = sarb s' g) ->
  held s' = held s -> lrep ls s' -> rep (AMem ls (enext m) (egroup m) (tail m) (guard m) gb) s'.
Proof.
  intros [H1 H2 H3 H4 H5 H6 H7 H8 H9] Eq Eo Eg Eb Eh Hl. constructor; cbn; rewrite ?Eq, ?Eo, ?Eg, ?Eh; try done.
  intros g. by apply (group_ok_frame m).
Qed.

Lemma schedule_ok m s a g : rep m s -> (queue s g <> [] -> order s !! Arb a <> None) ->
  exists m', ucs_arbiter_group_schedule a g m = Some m' /\ rep m' (spec_op (Schedule a g) s).
Proof.
  intros H Ha. unfold ucs_arbiter_group_schedule, ucs_arbiter_group_schedule_nonempty, ucs_arbiter_group_is_empty. cbn.
  pose proof (rp_queue _ _ H g) as Hq. destruct (queue s g) as [|h q] eqn:Eq.
  { rewrite Hq. by exists m. }
  destruct (group_ok_tail _ _ _ _ Hq) as (t & Ht & Hth & _). rewrite Ht. rewrite bool_decide_false by done. cbn. rewrite Hth. cbn.
  unfold ucs_arbiter_schedule_head_if_not_scheduled. rewrite (head_scheduled m s g h q) by (done || apply H).
  assert (forall s', sarb s' = sarb s -> forall g', <[g := Some a]> (garb m) g' = sarb (set_sarb g (Some a) s') g') as Hgb.
  { intros s' E g'. cbn. rewrite E. destruct (decide (g' = g)) as [->|]; [by rewrite !fn_lookup_insert|]. rewrite !fn_lookup_insert_ne by done. apply H. }
  destruct (on s g) as [l|] eqn:Eon.
  - rewrite bool_decide_true by done. cbn. eexists. split; [done|]. apply (rep_links m s); try done; [by apply Hgb|].
    destruct (rp_l _ _ H). by constructor.
  - rewrite bool_decide_false by tauto. cbn. destruct (order s !! Arb a) as [gs|] eqn:El; [|by destruct (Ha ltac:(done))].
    destruct (lrep_append (links m) s (spec_append (Arb a) g s) g (Arb a) h gs (rp_l _ _ H) El) as (ls' & E & Hls').
    { constructor; try done; [by exists q|by cbn; unfold groups_of; rewrite El|by apply (head_unique _ _ _ _ _ H Eq)|].
      intros x Hx. split; [by apply (rp_held _ _ (rp_l _ _ H))|]. intros ->. by apply (head_not_held _ _ _ _ _ H Eq). }
    unfold on_links. rewrite E. cbn. eexists. split; [done|]. apply (rep_links m s); try done; [by apply Hgb|]. destruct Hls'. by constructor.
Qed.

Lemma desched_ok m s a g : rep m s -> (queue s g <> [] -> on s g <> None -> sarb s g = Some a) ->
  exists m', ucs_arbiter_group_desched a g m = Some m' /\ rep m' (spec_op (Desched a g) s).
Proof.
  intros H Ha. unfold ucs_arbiter_group_desched, ucs_arbiter_group_desched_nonempty, ucs_arbiter_group_is_empty. cbn.
  pose proof (rp_queue _ _ H g) as Hq. destruct (queue s g) as [|h q] eqn:Eq.
  { rewrite Hq. by exists m. }
  destruct (group_ok_tail _ _ _ _ Hq) as (t & Ht & Hth & _). rewrite Ht. rewrite bool_decide_false by done. cbn. rewrite Hth. cbn.
  rewrite decide_False by done. rewrite (head_scheduled m s g h q) by (done || apply H). destruct (on s g) as [l|] eqn:Eon.
  - rewrite bool_decide_true by done. cbn. rewrite (rp_arb _ _ H), Ha, bool_decide_true by done. cbn.
    destruct (lrep_leave (links m) s g l h q (rp_l _ _ H) Eq Eon (head_unique _ _ _ _ _ H Eq)) as (ls' & E & Hls').
    unfold on_links. cbn. rewrite E. cbn. eexists. split; [done|]. apply (rep_links m s); try done.
    + unfold spec_remove. by rewrite Eon.
    + unfold spec_remove. by rewrite Eon.
    + unfold spec_remove. by rewrite Eon.
    + intros g'. destruct (decide (g' = g)) as [->|]; cbn; [by rewrite !fn_lookup_insert|]. rewrite !fn_lookup_insert_ne by done.
      unfold spec_remove. rewrite Eon. apply H.
    + unfold spec_remove. by rewrite Eon.
    + apply (Hls' true); try done; cbn; unfold spec_remove; rewrite Eon; cbn; [done| |].
      * intros e' q' Hq'. left. split; [done|congruence].
      * intros x Hx. right. split; [by apply (rp_held _ _ (rp_l _ _ H))|]. intros ->. by apply (head_not_held _ _ _ _ _ H Eq).
  - rewrite bool_decide_false by tauto. by exists m.
Qed.

(** *** Purge *)

Lemma group_ok_last m g q : group_ok m g q -> tail m g = last q.
Proof. destruct q as [|e q]; [done|]. intros [-> _]. rewrite last_cons. by destruct (last q). Qed.

Lemma group_ok_intro m g e q : tail m g = last (e :: q) -> echain m e q e -> group_ok m g (e :: q).
Proof. intros Ht Hc. split; [|done]. rewrite Ht, last_cons. by destruct (last q). Qed.

(** The place of an element in the ring: what follows it. *)
Lemma group_ok_next m g ks x rs : group_ok m g (ks ++ x :: rs) -> enext m x = Some (default (default x (head ks)) (head rs)).
Proof.
  destruct ks as [|k ks]; cbn.
  - intros [_ Hc]. destruct rs; cbn in *; tauto.
  - intros [_ Hc]. apply echain_app in Hc as [_ Hc]. destruct rs; cbn in *; tauto.
Qed.

(** An element leaves the ring. *)
Lemma group_ok_remove m m' g ks x rs : NoDup (ks ++ x :: rs) -> group_ok m g (ks ++ x :: rs) ->
  ks ++ rs <> [] -> tail m' g = last (ks ++ rs) ->
  enext m' = <[default (default x (last rs)) (last ks) := Some (default (default x (head ks)) (head rs))]> (enext m) -> group_ok m' g (ks ++ rs).
Proof.
  intros Hnd Hg Hne Ht He. apply NoDup_app in Hnd as (N1 & N2 & [N3 N4]%NoDup_cons). destruct ks as [|k ks].
  - destruct rs as [|r rs]; [done|]. cbn in *. destruct Hg as (_ & _ & Hc). apply group_ok_intro; [done|]. rewrite last_cons in He.
    replace (default x (match last rs with Some y => Some y | None => Some r end)) with (default r (last rs)) in He by (by destruct (last rs)).
    eapply (echain_end m); [done|exact Hc|..]; rewrite He; [|by rewrite fn_lookup_insert].
    intros y Hy Hy'. by rewrite fn_lookup_insert_ne.
  - cbn in *. destruct Hg as [_ Hc]. apply echain_app in Hc as [Hc1 Hc2]. rewrite last_cons in He.
    replace (default (default x (last rs)) (match last ks with Some y => Some y | None => Some k end)) with (default k (last ks)) in He by (by destruct (last ks)).
    assert (forall c, enext m' = <[default k (last ks) := Some c]> (enext m) -> echain m' k ks c) as Hend.
    { intros c Hc. eapply (echain_end m); [done|exact Hc1|..]; rewrite Hc; [|by rewrite fn_lookup_insert].
      intros y Hy Hy'. by rewrite fn_lookup_insert_ne. }
    apply group_ok_intro; [done|]. destruct rs as [|r rs]; cbn in *; [rewrite app_nil_r; by apply Hend|]. apply echain_app. split; [by apply Hend|].
    apply (echain_frame m); [|tauto]. intros y Hy. rewrite He. rewrite fn_lookup_insert_ne; [done|].
    pose proof (last_default_in k ks) as Hl. intros E. rewrite E in Hl. apply (N2 y Hl). by right.
Qed.

Lemma head_app_default {A} (ks : list A) x (rs : list A) : head (ks ++ x :: rs) = Some (default x (head ks)).
Proof. by destruct ks. Qed.

(** What [purge_loop] leaves, as far as it does not depend on the lists. *)
Record purged (g : positive) (ring rest kept : list elem) (m m' : amem) : Prop := Purged {
  pg_links : links m' = links m;
  pg_guard : guard m' = guard m;
  pg_garb : garb m' = garb m;
  pg_tail : forall g', g' <> g -> tail m' g' = tail m g';
  pg_enext : forall y, y ∉ ring -> enext m' y = enext m y;
  pg_egroup : forall e, egroup m' e = if decide (e ∈ rest) then if decide (e ∈ kept) then Some g else None else egroup m e
}.

Definition purge_kept (q : list elem) (results : list bool) : list elem := (filter (fun p => p.2 = false) (zip q results)).*1.

Lemma purge_kept_sub q results x : x ∈ purge_kept q results -> x ∈ q.
Proof. intros (p & -> & [_ Hp]%list_elem_of_filter)%list_elem_of_fmap. destruct p. by apply elem_of_zip_l in Hp. Qed.

Lemma purge_kept_cons x q r results : purge_kept (x :: q) (r :: results) = if (r : bool) then purge_kept q results else x :: purge_kept q results.
Proof. unfold purge_kept. cbn [zip_with]. rewrite filter_cons. by destruct r. Qed.

(** One element was processed before the others. *)
Lemma purged_cons g ks ks' ptr rs kept (remove : bool) m m0 m1 : ptr ∉ rs ->
  (forall x, x ∈ ks' -> x ∈ ks ++ [ptr]) -> (forall x, x ∈ kept -> x ∈ rs) ->
  purged g (ks ++ [ptr] ++ rs) [ptr] (if remove then [] else [ptr]) m m0 -> purged g (ks' ++ rs) rs kept m0 m1 ->
  purged g (ks ++ ptr :: rs) (ptr :: rs) (if remove then kept else ptr :: kept) m m1.
Proof.
  intros Hp Hks Hkept [A1 A2 A3 A4 A5 A6] [B1 B2 B3 B4 B5 B6]. constructor; try congruence.
  - intros g' Hne. rewrite B4, A4; done.
  - intros y Hy. rewrite B5, A5; [done|done|]. intros [Hy'|Hy']%elem_of_app; apply Hy; [apply Hks in Hy'|]; set_solver.
  - intros e. rewrite B6, A6. destruct (decide (e = ptr)) as [->|Hne].
    + rewrite (decide_False (P := ptr ∈ rs)), !(decide_True (P := ptr ∈ _ :: _)) by set_solver.
      destruct remove; [|by rewrite decide_True, decide_True by set_solver]. rewrite decide_False by set_solver. rewrite decide_False; [done|]. auto.
    + rewrite (decide_False (P := e ∈ [ptr])) by set_solver.
      destruct (decide (e ∈ rs)); [rewrite (decide_True (P := e ∈ ptr :: rs)) by set_solver|by rewrite decide_False by set_solver].
      destruct remove; [done|]. apply decide_ext. set_solver.
Qed.

Lemma purged_one g ks ptr rs (remove : bool) m v w : (forall y, y ∉ ks ++ ptr :: rs -> v y = enext m y) ->
  (forall g', g' <> g -> w g' = tail m g') ->
  purged g (ks ++ [ptr] ++ rs) [ptr] (if remove then [] else [ptr]) m
    (AMem (links m) v (if remove then <[ptr := None]> (egroup m) else <[ptr := Some g]> (<[ptr := None]> (egroup m))) w (guard m) (garb m)).
Proof.
  intros Hv Hw. constructor; try done. intros e. cbn. destruct (decide (e = ptr)) as [->|Hne].
  - rewrite decide_True by set_solver. destruct remove; rewrite fn_lookup_insert; [|by rewrite decide_True by set_solver]. by rewrite decide_False by set_solver.
  - rewrite (decide_False (P := e ∈ [ptr])) by set_solver. destruct remove; by rewrite !fn_lookup_insert_ne by done.
Qed.

Lemma arb_purge_loop_ok results : forall g sched ks ptr rs m, length results = S (length rs) -> NoDup (ks ++ ptr :: rs) -> group_ok m g (ks ++ ptr :: rs) ->
  let kept := purge_kept (ptr :: rs) results in
  exists m1, purged g (ks ++ ptr :: rs) (ptr :: rs) kept m m1 /\ group_ok m1 g (ks ++ kept) /\
    purge_loop results g (default ptr (last rs)) sched (default ptr (head ks)) ptr (default (default ptr (last rs)) (last ks)) m =
    if decide (ks ++ kept = []) then m2 ← (if sched then on_links (ucs_list_del (LElem PurgeDummy)) m1 else Some m1); Some (m2, None)
    else Some (m1, head (ks ++ kept)).
Proof.
  induction results as [|remove results IH]; intros g sched ks ptr rs m Hlen Hnd Hg kept; [done|]. injection Hlen as Hlen.
  pose proof (group_ok_next _ _ _ _ _ Hg) as Hnx. pose proof Hnd as Hnd0. apply NoDup_app in Hnd0 as (N1 & N2 & [N3 N4]%NoDup_cons).
  assert (bool_decide (ptr = default ptr (head ks)) = bool_decide (ks = [])) as Eh.
  { apply bool_decide_ext. destruct ks as [|k ks]; [done|]. cbn. split; [|done]. intros ->. destruct (N2 k); [left|left]. }
  assert (bool_decide (ptr = default ptr (last rs)) = bool_decide (rs = [])) as Et.
  { apply bool_decide_ext. split; [|by intros ->]. intros E. destruct rs as [|r rs]; [done|]. exfalso. apply N3. rewrite E, last_cons.
    pose proof (last_default_in r rs) as Hl. by destruct (last rs). }
  cbn [purge_loop]. rewrite Hnx. cbn [mbind option_bind]. rewrite Eh, Et. unfold kept. rewrite purge_kept_cons.
  destruct rs as [|r rs].
  - destruct results; [|done]. cbn [purge_kept zip_with filter list_filter fmap list_fmap head last default].
    rewrite (bool_decide_true ([] = [])) by done. destruct remove.
    + destruct ks as [|k ks].
      * exists (set_tail g None (ucs_arbiter_elem_init ptr m)). split; [|split; [cbn; by rewrite fn_lookup_insert|done]].
        apply (purged_one g [] ptr [] true m (enext m)); [done|]. intros g' Hne. by rewrite fn_lookup_insert_ne.
      * rewrite (bool_decide_false (k :: ks = [])) by done. cbn [andb negb]. rewrite bool_decide_true by done. cbn [assert mbind option_bind].
        eexists. split; [|split; [|rewrite decide_False by done; rewrite app_nil_r; reflexivity]].
        { apply (purged_one g (k :: ks) ptr [] true m); intros y Hy; cbn; rewrite fn_lookup_insert_ne; try done. intros <-. apply Hy.
          rewrite last_cons. pose proof (last_default_in k ks) as Hl. destruct (last ks); cbn in *; set_solver. }
        eapply (group_ok_remove m _ g (k :: ks) ptr []); [done|done|done| |done]. cbn. rewrite fn_lookup_insert, app_nil_r.
        rewrite last_cons. by destruct (last ks).
    + eexists. split; [|split; [|rewrite decide_False by (by destruct ks); rewrite head_app_default; reflexivity]].
      { apply (purged_one g ks ptr [] false m (enext m)); done. }
      by apply (group_ok_frame m).
  - rewrite (bool_decide_false (r :: rs = [])), !andb_false_r by done. cbn [mbind option_bind].
    assert (forall ks', default (default ptr (last (r :: rs))) (last ks') = default (default r (last rs)) (last ks')) as El.
    { intros ks'. rewrite last_cons. by destruct (last rs). }
    assert (default ptr (last (r :: rs)) = default r (last rs)) as El0 by (rewrite last_cons; by destruct (last rs)).
    destruct remove.
    + set (m0 := set_enext _ _ _).
      destruct (IH g sched ks r rs m0 Hlen) as (m1 & P1 & P2 & P3).
      { apply NoDup_app. split_and!; [done| |done]. intros x Hx Hx'. apply (N2 x Hx). by right. }
      { eapply (group_ok_remove m _ g ks ptr (r :: rs)); [done|done|by destruct ks| |done]. cbn. rewrite (group_ok_last _ _ _ Hg).
        by rewrite !last_app_cons, last_cons_cons. }
      exists m1. split; [|split; [done|]].
      { apply (purged_cons g ks ks ptr (r :: rs) _ true m m0 m1); try done; [set_solver|apply purge_kept_sub|].
        apply (purged_one g ks ptr (r :: rs) true m); [|done]. intros y Hy. rewrite fn_lookup_insert_ne; [done|]. intros <-. apply Hy.
        rewrite El. destruct (last ks) as [k|] eqn:Ek; cbn.
        - apply last_Some in Ek as [? ->]. set_solver.
        - pose proof (last_default_in r rs). set_solver. }
      rewrite <- P3. rewrite El0. f_equal. destruct ks; done.
    + set (m0 := ucs_arbiter_elem_set_scheduled _ _ _).
      destruct (IH g sched (ks ++ [ptr]) r rs m0 Hlen) as (m1 & P1 & P2 & P3).
      { by rewrite <- app_assoc. }
      { rewrite <- app_assoc. by apply (group_ok_frame m). }
      rewrite <- app_assoc in P1, P2. exists m1. split; [|split; [done|]].
      { apply (purged_cons g ks (ks ++ [ptr]) ptr (r :: rs) _ false m m0 m1); try done; [apply purge_kept_sub|by apply (purged_one g ks ptr (r :: rs) false m (enext m))|].
        by rewrite <- app_assoc. }
      rewrite <- app_assoc in P3. cbn [app] in P3. rewrite <- P3. rewrite El0, last_snoc. f_equal; destruct ks; done.
Qed.

Definition purge_gone (q : list elem) (results : list bool) : list elem := (filter (fun p => p.2 = true) (zip q results)).*1.

Lemma purge_gone_cons x q r results : purge_gone (x :: q) (r :: results) = if (r : bool) then x :: purge_gone q results else purge_gone q results.
Proof. unfold purge_gone. cbn [zip_with]. rewrite filter_cons. by destruct r. Qed.

Lemma purge_split q results : length results = length q -> purge_kept q results ++ purge_gone q results ≡ₚ q.
Proof.
  revert results. induction q as [|x q IH]; intros [|r results] Hl; try done. injection Hl as Hl.
  rewrite purge_kept_cons, purge_gone_cons. destruct r; [rewrite <- Permutation_middle|cbn]; by rewrite IH.
Qed.

Lemma disown_fields gone s : let s' := foldr (fun e => set_owner e None) s gone in
  queue s' = queue s /\ order s' = order s /\ on s' = on s /\ sguard s' = sguard s /\ sarb s' = sarb s /\ held s' = held s /\
  forall y, owner s' y = if decide (y ∈ gone) then None else owner s y.
Proof.
  induction gone as [|e gone IH]; cbn in *; [done|]. destruct IH as (H1 & H2 & H3 & H4 & H5 & H5' & H6). split_and!; try done.
  intros y. destruct (decide (y = e)) as [->|Hne]; [by rewrite fn_lookup_insert, decide_True by left|]. rewrite fn_lookup_insert_ne, H6 by done.
  apply decide_ext. set_solver.
Qed.

Lemma spec_remove_fields g s : queue (spec_remove g s) = queue s /\ owner (spec_remove g s) = owner s /\
  sguard (spec_remove g s) = sguard s /\ sarb (spec_remove g s) = sarb s /\ held (spec_remove g s) = held s.
Proof. unfold spec_remove. by destruct (on s g). Qed.

(** The state after a purge. *)
Lemma spec_purge g results s : length results = length (queue s g) -> (forall y, y ∈ queue s g -> owner s y = Some g) -> NoDup (queue s g) ->
  let s' := spec_op (Purge g results) s in let kept := purge_kept (queue s g) results in
  (forall g', queue s' g' = if decide (g' = g) then kept else queue s g') /\
  (forall y, owner s' y = if decide (y ∈ kept) then Some g else if decide (y ∈ queue s g) then None else owner s y) /\
  order s' = (if decide (kept = []) then order (spec_remove g s) else order s) /\
  on s' = (if decide (kept = []) then on (spec_remove g s) else on s) /\ sguard s' = sguard s /\ sarb s' = sarb s /\ held s' = held s.
Proof.
  intros Hl Ho Hnd s' kept. pose proof (purge_split (queue s g) results Hl) as Hp. unfold s', spec_op. fold (purge_kept (queue s g) results).
  fold (purge_gone (queue s g) results). fold kept in Hp |- *. set (gone := purge_gone (queue s g) results) in *.
  destruct (disown_fields gone s) as (H1 & H2 & H3 & H4 & H5 & H7 & H6). set (s0 := foldr _ s gone) in *.
  destruct (spec_remove_fields g s0) as (R1 & R2 & R3 & R4 & R5).
  assert (order (spec_remove g s0) = order (spec_remove g s) /\ on (spec_remove g s0) = on (spec_remove g s)) as [Q1 Q2].
  { unfold spec_remove, groups_of. rewrite H3. destruct (on s g); cbn; by rewrite ?H2, ?H3. }
  assert (forall y, owner s0 y = if decide (y ∈ kept) then Some g else if decide (y ∈ queue s g) then None else owner s y) as Ho'.
  { intros y. rewrite H6. rewrite <- Hp in Hnd. apply NoDup_app in Hnd as (_ & Hnd & _). destruct (decide (y ∈ kept)) as [Hy|Hy].
    - rewrite decide_False by (by apply Hnd). apply Ho. rewrite <- Hp. set_solver.
    - apply decide_ext. rewrite <- Hp. set_solver. }
  split_and!.
  - intros g'. rewrite set_queue_lookup. case_decide; [done|]. case_decide; by rewrite ?R1, H1.
  - intros y. cbn. case_decide; cbn; by rewrite ?R2.
  - cbn. case_decide; by rewrite ?Q1, ?H2.
  - cbn. case_decide; by rewrite ?Q2, ?H3.
  - cbn. case_decide; by rewrite ?R3, ?H4.
  - cbn. case_decide; by rewrite ?R4, ?H5.
  - cbn. case_decide; by rewrite ?R5, ?H7.
Qed.

Lemma set_links_id m : set_links (links m) m = m.
Proof. by destruct m. Qed.

Lemma arb_purge_ok m s g results : rep m s -> (queue s g <> [] -> sguard s g = 0) -> length results = length (queue s g) ->
  exists m', ucs_arbiter_group_purge g results m = Some m' /\ rep m' (spec_op (Purge g results) s).
Proof.
  intros H Hgd Hl. destruct (spec_purge g results s Hl) as (S1 & S2 & S3 & S4 & S5 & S6 & S7).
  { intros y. by apply (owner_of m). }
  { apply H. }
  set (s' := spec_op (Purge g results) s) in *. set (kept := purge_kept (queue s g) results) in *. clearbody s'.
  pose proof (purge_split (queue s g) results Hl) as Hp. fold kept in Hp.
  assert (NoDup kept /\ forall y, y ∈ kept -> y ∈ queue s g) as [Hnk Hsub].
  { pose proof (rp_nodup _ _ H g) as Hnd. rewrite <- Hp in Hnd. apply NoDup_app in Hnd as (? & _ & _). split; [done|]. apply purge_kept_sub. }
  assert (forall g' y, y ∈ queue s g' -> y <> PurgeDummy) as Hpd.
  { intros g' y Hy ->. apply (owner_of _ _ _ _ H) in Hy. by rewrite (rp_purge _ _ H) in Hy. }
  (** what does not depend on the lists *)
  assert (forall m1 ls, purged g (queue s g) (queue s g) kept m m1 -> group_ok m1 g kept -> lrep ls s' -> rep (set_links ls m1) s') as Hrep.
  { intros m1 ls [P1 P2 P3 P4 P5 P6] Hg Hls. apply (rep_queue_upd m _ s _ g kept); try done.
    - intros e He. left. by apply Hsub.
    - intros Hin%Hsub. by apply Hpd in Hin.
    - by apply (group_ok_frame m1).
    - intros y Hy _. by apply P5.
    - intros e. cbn. rewrite P6, S2. pose proof (rp_group _ _ H e).
      destruct (decide (e ∈ kept)) as [Hk|Hk]; [by rewrite decide_True by (by apply Hsub)|]. by destruct (decide (e ∈ queue s g)).
    - intros x Hx. rewrite S7 in Hx. destruct (rp_free _ _ H x Hx) as [Hnp Hn]. split; [done|]. rewrite S2.
      destruct (decide (x ∈ kept)) as [Hk|]; [|by destruct (decide (x ∈ queue s g))]. apply Hsub, (owner_of _ _ _ _ H) in Hk. congruence.
    - intros g'. cbn. rewrite P2, S5. apply H.
    - intros g'. cbn. rewrite P3, S6. apply H. }
  pose proof (rp_queue _ _ H g) as Hq. destruct (rp_lists _ _ (rp_l _ _ H)) as (R & HR & HL). pose proof (rp_unsched _ _ (rp_l _ _ H)) as Hun.
  unfold ucs_arbiter_group_purge. destruct (queue s g) as [|h q] eqn:Eq.
  { assert (on s g = None) as Hon by (destruct (on s g) eqn:E; [|done]; by destruct (rp_nonempty _ _ (rp_l _ _ H) g); [rewrite E|]).
    rewrite Hq. exists m. split; [done|]. assert (kept = []) as Ek by (destruct kept as [|e k]; [done|]; destruct (not_elem_of_nil e); apply Hsub; left).
    rewrite <- (set_links_id m). apply Hrep; [|by rewrite Ek|].
    - by constructor.
    - rewrite Ek in *. unfold spec_remove in S3, S4. rewrite Hon in S3, S4. apply (lrep_queue (links m) _ s); try done; [apply H| |by exists R| |].
      + intros g' Hg'. rewrite S1. by rewrite decide_False by (intros ->; congruence).
      + intros g' e q'. rewrite S1. destruct (decide (g' = g)); [done|apply Hun].
      + intros x. rewrite S7. apply H. }
  destruct (group_ok_tail _ _ _ _ Hq) as (t & Ht & Hth & _). rewrite Ht.
  assert (t = default h (last q)) as Et by (pose proof (group_ok_last _ _ _ Hq) as E; rewrite Ht, last_cons in E; revert E; by destruct (last q); intros [= ->]).
  set (m0 := set_links (set_next (LElem PurgeDummy) None (links m)) m). unfold UCS_ARBITER_GROUP_GUARD_CHECK. cbn [m0 guard set_links].
  rewrite (rp_guard _ _ H), Hgd by done. cbn [Z.eqb assert mbind option_bind]. cbn [enext m0 set_links]. rewrite Hth. cbn [mbind option_bind].
  assert (lrep (links m0) s) as HL0.
  { apply (lrep_queue (links m) _ s); try done; [apply H| | |].
    - exists R. split; [|done]. apply set_next_ok; [done|]. apply (free_unlinked _ _ _ _ H HL), H.
    - intros g' e q' Hq' Hon. cbn. rewrite fn_lookup_insert_ne; [by eapply Hun|]. intros [= <-]. by apply (Hpd g' PurgeDummy); [rewrite Hq'; left|].
    - intros x Hx. apply (rp_held _ _ (rp_l _ _ H)) in Hx. cbn. destruct (decide (x = PurgeDummy)) as [->|]; [by rewrite fn_lookup_insert|].
      by rewrite fn_lookup_insert_ne by congruence. }
  assert (forall x, x ∈ held s -> x ∉ h :: q) as Hhq by (intros x Hx Hin; rewrite <- Eq in Hin; apply (owner_of _ _ _ _ H) in Hin; destruct (rp_free _ _ H x Hx); congruence).
  rewrite (head_scheduled m0 s g h q HL0 Eq). set (s1 := set_queue g (PurgeDummy :: q) s).
  assert (forall g', g' <> g -> queue s1 g' = queue s g') as Q1 by (intros g' Hne; cbn; by rewrite fn_lookup_insert_ne).
  assert (queue s1 g = PurgeDummy :: q) as Q2 by (cbn; by rewrite fn_lookup_insert).
  assert (forall g' q', queue s1 g' = PurgeDummy :: q' -> g' = g) as Q3.
  { intros g' q' Hq'. destruct (decide (g' = g)); [done|]. rewrite Q1 in Hq' by done. destruct (Hpd g' PurgeDummy); [rewrite Hq'; left|done]. }
  assert (forall m1 m2, purged g (h :: q) (h :: q) kept m1 m2 -> enext m1 = enext m -> egroup m1 = egroup m -> tail m1 = tail m ->
    guard m1 = guard m -> garb m1 = garb m -> forall ls, group_ok m2 g kept -> lrep ls s' -> rep (set_links ls m2) s') as Hrep'.
  { intros m1 m2 [P1 P2 P3 P4 P5 P6] E1 E2 E3 E4 E5 ls Hg Hls.
    apply (Hrep (set_links (links m) m2) ls); [|by apply (group_ok_frame m2)|done]. rewrite ?E1, ?E2, ?E3, ?E4, ?E5 in *. by constructor. }
  destruct (on s g) as [l|] eqn:Eon.
  - rewrite bool_decide_true by done.
    destruct (lrep_replace (links m0) s s1 g l h PurgeDummy q q HL0 Eon Eq Q2 Q1) as (ls1 & E1 & Hls1); try done.
    { intros g' q' Hq'. destruct (Hpd g' PurgeDummy); [rewrite Hq'; left|done]. }
    assert (lrep ls1 s1) as Hls1'.
    { apply (Hls1 false). intros x Hx. right. split; [by apply (rp_held _ _ HL0)|by apply (rp_free _ _ H)]. }
    clear Hls1. rename Hls1' into Hls1.
    assert (on_links (ucs_list_replace (LElem h) (LElem PurgeDummy)) m0 = Some (set_links ls1 m0)) as -> by (unfold on_links; by rewrite E1).
    cbn [mbind option_bind]. destruct (arb_purge_loop_ok results g true [] h q (set_links ls1 m0)) as (m1 & P1 & P2 & P3);
      [done|pose proof (rp_nodup _ _ H g) as Hnd; by rewrite Eq in Hnd|by apply (group_ok_frame m)|].
    cbn [app head default last] in P1, P2, P3. rewrite Et, P3. fold kept in P1, P2 |- *. pose proof (Hrep' _ m1 P1) as Hr.
    destruct kept as [|k ks].
    + cbn [decide]. rewrite decide_True by done. destruct (lrep_leave ls1 s1 g l PurgeDummy q Hls1 Q2 Eon Q3) as (ls2 & E2 & Hls2).
      unfold on_links. rewrite (pg_links _ _ _ _ _ _ P1). cbn [links set_links]. rewrite E2. cbn [mbind option_bind]. eexists. split; [done|].
      apply Hr; try done. apply (Hls2 false); [| | |by rewrite S1, decide_True|].
      * rewrite S3, decide_True by done. unfold spec_remove, groups_of. cbn. by rewrite Eon.
      * rewrite S4, decide_True by done. unfold spec_remove, groups_of. cbn. by rewrite Eon.
      * intros g' Hne. by rewrite S1, decide_False, Q1.
      * intros x. rewrite S7. intros Hx. right. split; [by apply (rp_held _ _ Hls1)|by apply (rp_free _ _ H)].
    + rewrite decide_False by done. cbn [mbind option_bind head]. rewrite (group_ok_last _ _ _ P2), last_cons.
      rewrite bool_decide_true by (by destruct (last ks)). cbn [assert mbind option_bind]. rewrite decide_False in S3 by done. rewrite decide_False in S4 by done.
      destruct (lrep_replace ls1 s1 s' g l PurgeDummy k q ks Hls1 Eon Q2) as (ls2 & E2 & Hls2); try done.
      { by rewrite S1, decide_True. }
      { intros g' Hne. by rewrite S1, decide_False, Q1. }
      { intros g' q' Hq'. destruct (decide (g' = g)) as [->|Hne].
        - rewrite Q2 in Hq'. injection Hq' as <- _. apply (Hpd g PurgeDummy); [rewrite Eq; apply Hsub; left|done].
        - rewrite Q1 in Hq' by done. apply Hne. eapply (owner_disj m s _ _ k H); [rewrite Hq'; left|rewrite Eq; apply Hsub; left]. }
      unfold on_links. rewrite (pg_links _ _ _ _ _ _ P1). cbn [links set_links]. rewrite E2. cbn [mbind option_bind]. eexists. split; [done|]. apply Hr; try done.
      apply (Hls2 false). intros x. rewrite S7. intros Hx. right. split; [by apply (rp_held _ _ Hls1)|]. intros ->. apply (Hhq _ Hx), Hsub. left.
  - rewrite bool_decide_false by tauto. cbn [mbind option_bind].
    destruct (arb_purge_loop_ok results g false [] h q m0) as (m1 & P1 & P2 & P3);
      [done|pose proof (rp_nodup _ _ H g) as Hnd; by rewrite Eq in Hnd|by apply (group_ok_frame m)|].
    cbn [app head default last] in P1, P2, P3. rewrite Et, P3. fold kept in P1, P2 |- *. pose proof (Hrep' _ m1 P1) as Hr.
    assert (order s' = order s /\ on s' = on s) as [O1 O2] by (unfold spec_remove in S3, S4; rewrite Eon in S3, S4; by destruct (decide (kept = []))).
    assert (forall g', on s g' <> None -> head (queue s' g') = head (queue s g')) as Hh by (intros g' Hg'; rewrite S1, decide_False; [done|by intros ->]).
    destruct (rp_lists _ _ HL0) as (R0 & HR0 & HL0'). destruct kept as [|k ks].
    + rewrite decide_True by done. cbn [mbind option_bind]. eexists. split; [done|]. rewrite <- (set_links_id m1). apply Hr; try done.
      rewrite (pg_links _ _ _ _ _ _ P1). apply (lrep_queue (links m0) _ s); try done; [by exists R0| |].
      * intros g' e q'. rewrite S1. destruct (decide (g' = g)); [done|]. apply (rp_unsched _ _ HL0).
      * intros x. rewrite S7. apply HL0.
    + rewrite decide_False by done. cbn [mbind option_bind head]. rewrite (group_ok_last _ _ _ P2), last_cons.
      rewrite bool_decide_true by (by destruct (last ks)). cbn [assert mbind option_bind]. eexists. split; [done|]. apply Hr; try done.
      assert (forall g' q', queue s g' = k :: q' -> g' = g) as Hku.
      { intros g' q' Hq'. eapply (owner_disj m s _ _ k H); [rewrite Hq'; left|rewrite Eq; apply Hsub; left]. }
      rewrite (pg_links _ _ _ _ _ _ P1). apply (lrep_queue (links m0) _ s); try done.
      * exists R0. split; [|done]. apply set_next_ok; [done|]. intros (g' & q' & Hq' & Hon')%(linked_elem _ _ _ _ HL0 HL0').
        apply Hku in Hq' as ->. done.
      * intros g' e q'. rewrite S1. cbn. destruct (decide (g' = g)) as [->|Eg]; [intros [= <- _]; by rewrite fn_lookup_insert|]. intros Hq' Hon'.
        rewrite fn_lookup_insert_ne; [by eapply (rp_unsched _ _ HL0)|]. intros [= ->]. by apply Hku in Hq'.
      * intros x. rewrite S7. intros Hx. cbn. rewrite fn_lookup_insert_ne; [by apply HL0|]. intros [= ->]. apply (Hhq _ Hx), Hsub. left.
Qed.

(** *** All operations *)

(** When an operation is allowed: not on the head of the group that is dispatched, on
    an arbiter that exists, and a group is descheduled from its arbiter. *)
Definition legal (o : op) (s : spec) : bool :=
  match o with
  | PushElem g e => true
  | PushHeadElem g e => bool_decide (owner s (Elem e) <> None) || (sguard s g =? 0)
  | Schedule a g => bool_decide (queue s g = []) || bool_decide (order s !! Arb a <> None)
  | Desched a g => bool_decide (queue s g = []) || bool_decide (on s g = None) || bool_decide (sarb s g = Some a)
  | Purge g results => (bool_decide (queue s g = []) || (sguard s g =? 0)) && bool_decide (length results = length (queue s g))
  end.

Fixpoint legal_ops (os : list op) (s : spec) : bool :=
  match os with
  | [] => true
  | o :: os => legal o s && legal_ops os (spec_op o s)
  end.

Lemma arb_op_ok m s o : rep m s -> legal o s = true -> exists m', do_op o m = Some m' /\ rep m' (spec_op o s).
Proof.
  intros H Hl. destruct o as [g e|g e|a g|a g|g results]; cbn [do_op].
  - eexists. split; [done|]. unfold ucs_arbiter_group_push_elem, ucs_arbiter_elem_is_scheduled. rewrite (rp_group _ _ H) by (by left). cbn.
    destruct (owner s (Elem e)) eqn:Eo; [done|]. cbn. by apply push_elem_ok.
  - unfold ucs_arbiter_group_push_head_elem, ucs_arbiter_elem_is_scheduled. rewrite (rp_group _ _ H) by (by left). cbn in *.
    destruct (owner s (Elem e)) eqn:Eo; [by exists m|]. cbn in *. apply Z.eqb_eq in Hl. by apply push_head_ok.
  - apply schedule_ok; [done|]. intros Hq. cbn in Hl. apply orb_true_iff in Hl as [Hl%bool_decide_eq_true|Hl%bool_decide_eq_true]; done.
  - apply desched_ok; [done|]. intros Hq Hon. cbn in Hl. apply orb_true_iff in Hl as [[Hl|Hl]%orb_true_iff|Hl]; by apply bool_decide_eq_true in Hl.
  - cbn in Hl. apply andb_true_iff in Hl as [Hl1 Hl2%bool_decide_eq_true]. apply arb_purge_ok; [done| |done]. intros Hq.
    apply orb_true_iff in Hl1 as [Hl1%bool_decide_eq_true|Hl1%Z.eqb_eq]; done.
Qed.

Lemma arb_ops_ok os : forall m s, rep m s -> legal_ops os s = true -> exists m', do_ops os m = Some m' /\ rep m' (spec_ops os s).
Proof.
  induction os as [|o os IH]; intros m s H Hl; cbn in *; [by exists m|]. apply andb_true_iff in Hl as [Hl1 Hl2].
  destruct (arb_op_ok m s o H Hl1) as (m1 & E & H1). rewrite E. cbn. by apply IH.
Qed.

End Arbiter.
