(* ===== verification/ArbiterDispatch.v ===== *)
(** * Dispatch of an arbiter (src/src/ucs/datastruct/arbiter.c)

    [ucs_arbiter_dispatch] refines its specification: from a state that represents a
    specification state, and for callbacks that do what they are allowed to, no
    assertion fails, the same elements are dispatched in the same order and the final
    states correspond.  On the specification: every group is served in its turn, at
    most [per_group] elements at a time, no element is lost, and the dispatch ends. *)
From stdpp Require Import functions gmap.
From S2P Require Import Prelude.
From S2P Require Import DList.
From S2P Require Import Arbiter.

#[local] Open Scope Z_scope.

Module ArbiterDispatch.
Import DList Arbiter.

(** ** A turn of the inner loop *)

(** [y] takes the place of the first element [x] of a group. *)
Record replaced (g : positive) (y : elem) (q : list elem) (m m' : amem) : Prop := Replaced {
  re_group : group_ok m' g (y :: q);
  re_links : links m' = links m;
  re_egroup : egroup m' = egroup m;
  re_guard : guard m' = guard m;
  re_garb : garb m' = garb m;
  re_tail : forall g', g' <> g -> tail m' g' = tail m g';
  re_enext : forall z, z ∉ y :: q -> enext m' z = enext m z
}.

Lemma head_replace_ok m g x y q : group_ok m g (x :: q) -> NoDup (x :: q) -> y ∉ x :: q ->
  exists m', ucs_arbiter_group_head_replace g x y m = Some m' /\ replaced g y q m m'.
Proof.
  intros Hg [Hx Hnd]%NoDup_cons Hy. destruct (group_ok_tail _ _ _ _ Hg) as (t & Ht & Hth & _).
  unfold ucs_arbiter_group_head_replace, ucs_arbiter_group_is_empty. rewrite Ht. cbn.
  rewrite (bool_decide_eq_true_2 _ Hth). cbn. destruct Hg as [Ht' Hc]. destruct q as [|z q]; cbn in Hc.
  - rewrite (bool_decide_eq_true_2 _ Hc). cbn. rewrite fn_lookup_insert. cbn. eexists. split; [done|].
    constructor; try done; cbn.
    + by rewrite !fn_lookup_insert.
    + intros g' Hne. by rewrite fn_lookup_insert_ne.
    + intros z Hz. rewrite fn_lookup_insert_ne; [done|set_solver].
  - destruct Hc as [Hz Hc]. rewrite bool_decide_eq_false_2 by (rewrite Hz; intros [= ->]; set_solver). cbn. rewrite Ht. cbn. eexists. split; [done|].
    rewrite Ht in Ht'. injection Ht' as ->. rewrite last_cons.
    replace (default x match last q with Some y0 => Some y0 | None => Some z end) with (default z (last q)) by (by destruct (last q)).
    pose proof (last_default_in z q) as Hl. constructor; try done; cbn.
    + rewrite last_cons. split; [rewrite Ht, last_cons; by destruct (last q)|].
      rewrite fn_lookup_insert_ne by (intros <-; set_solver). rewrite fn_lookup_insert. split; [done|].
      eapply (echain_end m); [done|exact Hc|..]; cbn; [|by rewrite fn_lookup_insert].
      intros w Hw Hw'. rewrite !fn_lookup_insert_ne; [done|intros ->; set_solver|done].
    + intros w Hw. rewrite !fn_lookup_insert_ne; [done|intros ->; set_solver|intros <-; set_solver].
Qed.

(** *** Before the callback *)

Lemma rep_guard m s g v : rep m s -> rep (set_guard g v m) (set_sguard g v s).
Proof.
  intros [H1 H2 H3 H4 H5 H6 H7 H8 H9]. constructor; try done; [|by destruct H5; constructor|].
  - intros g'. apply (group_ok_frame m); [done..|apply H1].
  - intros g'. cbn. destruct (decide (g' = g)) as [->|]; [by rewrite !fn_lookup_insert|by rewrite !fn_lookup_insert_ne].
Qed.

(** The first element of a group, and no other one, changes in the queues. *)
Lemma owner_replace m s g x y q : rep m s -> queue s g = x :: q -> y ∉ x :: q ->
  forall e, <[y := Some g]> (<[x := None]> (owner s)) e = if decide (e ∈ y :: q) then Some g else if decide (e ∈ queue s g) then None else owner s e.
Proof.
  intros H Hq Hy e. pose proof (rp_nodup _ _ H g) as Hnd. rewrite Hq in *. apply NoDup_cons in Hnd as [Hx _].
  destruct (decide (e = y)) as [->|Ey]; [rewrite fn_lookup_insert, decide_True by left; done|]. rewrite fn_lookup_insert_ne by done.
  destruct (decide (e = x)) as [->|Ex].
  - rewrite fn_lookup_insert, decide_False by set_solver. by rewrite decide_True by left.
  - rewrite fn_lookup_insert_ne by done. destruct (decide (e ∈ q)).
    + rewrite decide_True by (by right). apply (rp_owner _ _ H). rewrite Hq. by right.
    + rewrite !decide_False by set_solver. done.
Qed.

Lemma replace_rep m m0 m1 s s' g x y q ls gb gd : rep m s -> queue s g = x :: q -> owner s y = None -> y <> PurgeDummy ->
  replaced g y q m0 m1 -> enext m0 = enext m -> tail m0 = tail m ->
  queue s' = <[g := y :: q]> (queue s) -> owner s' = <[y := Some g]> (<[x := None]> (owner s)) ->
  (forall e, e <> Dummy \/ owner s' e <> None -> egroup m1 e = owner s' e) -> (forall g, gd g = sguard s' g) -> (forall g, gb g = sarb s' g) ->
  (forall e, e ∈ held s' -> e <> PurgeDummy /\ owner s' e = None) -> lrep ls s' ->
  rep (AMem ls (enext m1) (egroup m1) (tail m1) gd gb) s'.
Proof.
  intros H Hq Ho Hp R E1 E2 Eq Eo Hgr Hgd Hgb Hfr HL.
  assert (y ∉ x :: q) as Hy by (rewrite <- Hq; intros Hin%(rp_owner _ _ H); congruence).
  pose proof (rp_nodup _ _ H g) as Hnd. rewrite Hq in Hnd. apply NoDup_cons in Hnd as [Hx Hnd].
  apply (rep_queue_upd m _ s s' g (y :: q)); try done; cbn.
  - intros g'. rewrite Eq. case_decide; [subst; by rewrite fn_lookup_insert|by rewrite fn_lookup_insert_ne].
  - apply NoDup_cons. split; [set_solver|done].
  - intros e [->|He]%elem_of_cons; [by right|]. left. rewrite Hq. by right.
  - intros [?|Hin]%elem_of_cons; [done|]. assert (owner s PurgeDummy = Some g) as Hpo by (apply (rp_owner _ _ H); rewrite Hq; by right).
    by rewrite (rp_purge _ _ H) in Hpo.
  - rewrite Eo. by apply (owner_replace m).
  - apply (group_ok_frame m1 (AMem ls (enext m1) (egroup m1) (tail m1) gd gb) g (y :: q)); [done..|apply R].
  - intros g' Hne. by rewrite (re_tail _ _ _ _ _ R), E2.
  - intros z Hz Hz'. rewrite (re_enext _ _ _ _ _ R), E1; [done|]. rewrite Hq in Hz. intros [->|?]%elem_of_cons; [done|set_solver].
Qed.

(** The state between two turns: the dummy is free, and no element of it is held. *)
Record between (m : amem) (s : spec) : Prop := Between {
  bt_rep : rep m s;
  bt_held : held s = [Dummy]
}.

Lemma enter_ok m s g e q : between m s -> queue s g = e :: q -> on s g = None -> egroup m Dummy = Some g ->
  exists m', ucs_arbiter_group_head_replace g e Dummy (ucs_arbiter_elem_init e m) = Some m' /\ links m' = links m /\
    rep (set_guard g (guard m' g + 1) m') (spec_enter g e s) /\ e <> Dummy /\ e <> PurgeDummy.
Proof.
  intros [H Hheld] Hq Hon Hdg. assert (Dummy ∈ held s) as Hd by (rewrite Hheld; left). destruct (rp_free _ _ H _ Hd) as [_ Hdo].
  pose proof (rp_held _ _ (rp_l _ _ H) _ Hd) as Hdn. pose proof (owner_head _ _ _ _ _ H Hq) as Heo.
  assert (e <> Dummy) as He1 by congruence. assert (e <> PurgeDummy) as He2 by (intros ->; by rewrite (rp_purge _ _ H) in Heo).
  assert (Dummy ∉ e :: q) as Hy by (rewrite <- Hq; intros Hin%(rp_owner _ _ H); congruence).
  pose proof (rp_nodup _ _ H g) as Hnd. rewrite Hq in Hnd.
  destruct (head_replace_ok (ucs_arbiter_elem_init e m) g e Dummy q) as (m1 & E & R); [|done|done|].
  { apply (group_ok_frame m); [done..|]. rewrite <- Hq. apply H. }
  exists m1. split_and!; [done|apply R| |done|done].
  assert (forall g', <[g := guard m1 g + 1]> (guard m1) g' = sguard (spec_enter g e s) g') as Hgd.
  { intros g'. cbn. rewrite (re_guard _ _ _ _ _ R). destruct (decide (g' = g)) as [->|]; [rewrite !fn_lookup_insert|rewrite !fn_lookup_insert_ne by done]; cbn;
      by rewrite (rp_guard _ _ H). }
  eapply (replace_rep m _ m1 s _ g e Dummy q); try done.
  - cbn. by rewrite Hq.
  - intros e' He'. rewrite (re_egroup _ _ _ _ _ R). cbn in *. destruct (decide (e' = Dummy)) as [->|].
    + rewrite fn_lookup_insert, fn_lookup_insert_ne; congruence.
    + rewrite (fn_lookup_insert_ne _ Dummy) by done. destruct (decide (e' = e)) as [->|]; [by rewrite !fn_lookup_insert|].
      rewrite !fn_lookup_insert_ne by done. apply (rp_group _ _ H). by left.
  - rewrite (re_garb _ _ _ _ _ R). apply H.
  - cbn. intros x ->%list_elem_of_singleton. split; [done|]. by rewrite fn_lookup_insert_ne, fn_lookup_insert by congruence.
  - cbn. rewrite (re_links _ _ _ _ _ R). cbn. destruct (rp_lists _ _ (rp_l _ _ H)) as (L & HL & HL').
    apply (lrep_queue (links m) _ s); try done; [apply H| |by exists L| |]; cbn.
    + intros g' Hg'. by rewrite fn_lookup_insert_ne by (by intros ->).
    + intros g' e' q'. destruct (decide (g' = g)) as [->|]; [rewrite fn_lookup_insert; by intros [= <- _]|]. rewrite fn_lookup_insert_ne by done.
      apply (rp_unsched _ _ (rp_l _ _ H)).
    + intros x ->%list_elem_of_singleton. by eapply (rp_unsched _ _ (rp_l _ _ H)).
Qed.

(** *** During the callback *)

(** The operations of a callback leave the dummy in front of its group. *)
Record calling (g : positive) (s : spec) : Prop := Calling {
  ca_head : head (queue s g) = Some Dummy;
  ca_guard : sguard s g <> 0
}.

Lemma remove_dom g s l : is_Some (order s !! l) -> is_Some (order (spec_remove g s) !! l).
Proof.
  unfold spec_remove. destruct (on s g) as [l'|]; [|done]. cbn. destruct (decide (l = l')) as [->|]; [by rewrite lookup_insert_eq|by rewrite lookup_insert_ne].
Qed.

(** No operation changes the guards or takes a list away. *)
Lemma op_frame o s : sguard (spec_op o s) = sguard s /\ forall l, is_Some (order s !! l) -> is_Some (order (spec_op o s) !! l).
Proof.
  destruct o as [g e|g e|a g|a g|g results]; cbn.
  - by destruct (owner s (Elem e)).
  - by destruct (owner s (Elem e)).
  - case_decide; [done|]. destruct (on s g); [done|]. cbn. split; [done|]. intros l Hl.
    destruct (decide (l = Arb a)) as [->|]; [by rewrite lookup_insert_eq|by rewrite lookup_insert_ne].
  - case_decide; [done|]. destruct (on s g); [|done]. cbn. split; [apply spec_remove_fields|apply remove_dom].
  - destruct (disown_fields (purge_gone (queue s g) results) s) as (_ & E2 & _ & E4 & _). fold (purge_gone (queue s g) results).
    case_decide; cbn.
    + destruct (spec_remove_fields g (foldr (fun e => set_owner e None) s (purge_gone (queue s g) results))) as (_ & _ & E & _).
      rewrite E, E4. split; [done|]. intros l Hl. apply remove_dom. by rewrite E2.
    + by rewrite E4, E2.
Qed.

Lemma calling_op g s o : calling g s -> legal o s = true -> calling g (spec_op o s).
Proof.
  intros [Hh Hg] Hl. split; [|by rewrite (proj1 (op_frame o s))]. destruct o as [g' e|g' e|a g'|a g'|g' results]; cbn in *.
  - destruct (owner s (Elem e)); [done|]. cbn. destruct (decide (g = g')) as [->|]; [rewrite fn_lookup_insert; by destruct (queue s g')|by rewrite fn_lookup_insert_ne].
  - destruct (owner s (Elem e)); [done|]. cbn in *. apply Z.eqb_eq in Hl. rewrite fn_lookup_insert_ne; [done|congruence].
  - destruct (decide (queue s g' = [])); [done|]. by destruct (on s g').
  - destruct (decide (queue s g' = [])); [done|]. destruct (on s g'); [|done]. cbn. by rewrite (proj1 (spec_remove_fields g' s)).
  - apply andb_true_iff in Hl as [Hl _]. assert (g <> g') as Hne.
    { intros ->. apply orb_true_iff in Hl as [Hl%bool_decide_eq_true|Hl%Z.eqb_eq]; [|done]. by rewrite Hl in Hh. }
    rewrite fn_lookup_insert_ne by done. destruct (disown_fields (purge_gone (queue s g') results) s) as (E1 & _). unfold purge_gone in *.
    case_decide; [rewrite (proj1 (spec_remove_fields _ _))|]; by rewrite E1.
Qed.

Lemma calling_ops os : forall g s, calling g s -> legal_ops os s = true ->
  calling g (spec_ops os s) /\ sguard (spec_ops os s) = sguard s /\ forall l, is_Some (order s !! l) -> is_Some (order (spec_ops os s) !! l).
Proof.
  induction os as [|o os IH]; intros g s Hc Hl; [done|]. cbn [legal_ops] in Hl. apply andb_true_iff in Hl as [Hl1 Hl2].
  change (spec_ops (o :: os) s) with (spec_ops os (spec_op o s)). destruct (IH g (spec_op o s)) as (C1 & C2 & C3); [by apply calling_op|done|]. destruct (op_frame o s) as [F1 F2].
  split_and!; [done|by rewrite C2|]. intros l Hs. by apply C3, F2.
Qed.

(** *** After the callback *)

(** The dummy leaves its list, if the group was scheduled meanwhile. *)
Lemma dummy_leaves m s s' g q : lrep (links m) s -> queue s g = Dummy :: q -> (forall g' q', queue s g' = Dummy :: q' -> g' = g) ->
  order s' = order (spec_remove g s) -> on s' = on (spec_remove g s) -> (forall g', g' <> g -> queue s' g' = queue s g') ->
  (forall e q', queue s' g = e :: q' -> next (links m) (LElem e) = None /\ e <> Dummy) -> held s' = [Dummy] ->
  exists ls, ucs_arbiter_remove_and_reset_if_scheduled Dummy m = Some (set_links ls m) /\ lrep ls s'.
Proof.
  intros H Hq Hun Eo En Hoth Hnew Hh. unfold ucs_arbiter_remove_and_reset_if_scheduled. rewrite (head_scheduled m s g Dummy q) by done.
  destruct (on s g) as [l|] eqn:Eon.
  - rewrite bool_decide_true by done. destruct (lrep_leave (links m) s g l Dummy q H Hq Eon Hun) as (ls & E & Hls).
    unfold on_links. rewrite E. cbn. eexists. split; [done|]. apply (Hls true); try done; [by eauto|].
    rewrite Hh. intros x ->%list_elem_of_singleton. by left.
  - rewrite bool_decide_false by tauto. exists (links m). split; [by rewrite set_links_id|]. unfold spec_remove in Eo, En. rewrite Eon in Eo, En.
    destruct (rp_lists _ _ H) as (R & HR & HL). apply (lrep_queue (links m) _ s); try done; [|by exists R| |].
    + intros g' Hg'. rewrite Hoth; [done|]. by intros ->.
    + intros g' e q' Hq' Hon'. destruct (decide (g' = g)) as [->|]; [by destruct (Hnew _ _ Hq')|]. rewrite Hoth in Hq' by done. by eapply (rp_unsched _ _ H).
    + rewrite Hh. intros x ->%list_elem_of_singleton. by eapply (rp_unsched _ _ H).
Qed.

(** The element [e] that was dispatched is put back in front. *)
Definition spec_restore (g : positive) (e : elem) (s : spec) : spec :=
  set_held [Dummy] (set_owner e (Some g) (set_owner Dummy None (set_queue g (e :: List.tl (queue s g)) s))).

Lemma restore_ok m s g e q : rep m s -> queue s g = Dummy :: q -> e ∈ held s -> e <> Dummy ->
  exists m', ucs_arbiter_group_head_replace g Dummy e (ucs_arbiter_elem_set_scheduled e g m) = Some m' /\
    links m' = links m /\ garb m' = garb m /\ egroup m' Dummy = Some g /\
    forall ls gb s', queue s' = queue (spec_restore g e s) -> owner s' = owner (spec_restore g e s) -> sguard s' = sguard s ->
      held s' = [Dummy] -> (forall g, gb g = sarb s' g) -> lrep ls s' -> between (set_links ls (AMem (links m') (enext m') (egroup m') (tail m') (guard m') gb)) s'.
Proof.
  intros H Hq He Hd. destruct (rp_free _ _ H _ He) as [Hp Ho]. pose proof (rp_nodup _ _ H g) as Hnd. rewrite Hq in Hnd.
  assert (e ∉ Dummy :: q) as Hy by (rewrite <- Hq; intros Hin%(rp_owner _ _ H); congruence).
  destruct (head_replace_ok (ucs_arbiter_elem_set_scheduled e g m) g Dummy e q) as (m1 & E & R); [|done|done|].
  { apply (group_ok_frame m); [done..|]. rewrite <- Hq. apply H. }
  assert (egroup m1 Dummy = Some g) as Hdg.
  { rewrite (re_egroup _ _ _ _ _ R). cbn. rewrite fn_lookup_insert_ne by congruence. pose proof (owner_head _ _ _ _ _ H Hq) as Hdo.
    rewrite <- Hdo. apply (rp_group _ _ H). right. congruence. }
  exists m1. split_and!; [done|apply R|apply R|done|]. intros ls gb s' Eq Eo Eg Eh Hgb HL. split; [|done]. cbn in Eo.
  eapply (replace_rep m _ m1 s s' g Dummy e q); try done.
  - rewrite Eq. cbn. by rewrite Hq.
  - rewrite Eo. intros x Hx. rewrite (re_egroup _ _ _ _ _ R). cbn in *. destruct (decide (x = e)) as [->|]; [by rewrite !fn_lookup_insert|].
    rewrite !(fn_lookup_insert_ne _ e) in * by done. destruct (decide (x = Dummy)) as [->|]; [|rewrite fn_lookup_insert_ne by done; apply H; by left].
    rewrite fn_lookup_insert in Hx. by destruct Hx.
  - rewrite (re_guard _ _ _ _ _ R), Eg. apply H.
  - rewrite Eh. intros x ->%list_elem_of_singleton. split; [done|]. rewrite Eo. by rewrite fn_lookup_insert_ne, fn_lookup_insert.
Qed.

(** It enters a list of groups. *)
Lemma restore_enters m s s1 g e q l gs' ls : rep m s -> queue s g = Dummy :: q -> e ∈ held s -> e <> Dummy -> lrep ls s1 -> held s1 = [Dummy] ->
  queue s1 = queue (spec_restore g e s) -> on s1 g = None ->
  enters g l e gs' ls s1 (set_on g (Some l) (set_order l gs' s1)).
Proof.
  intros H Hq He Hd HL Hh Eq Hon. destruct (rp_free _ _ H _ He) as [Hp Ho]. constructor; try done; cbn.
  - rewrite Eq. cbn. rewrite fn_lookup_insert. by eexists.
  - intros g' q'. rewrite Eq. cbn. destruct (decide (g' = g)) as [->|]; [done|]. rewrite fn_lookup_insert_ne by done. intros Hq'.
    apply (owner_head _ _ _ _ _ H) in Hq'. congruence.
  - rewrite Hh. intros x ->%list_elem_of_singleton. split; [apply (rp_held _ _ HL); rewrite Hh; left|done].
Qed.

Lemma keep_desched m s a g e q : rep m s -> queue s g = Dummy :: q -> e ∈ held s -> e <> Dummy ->
  exists m', dispatch_keep a g e UCS_ARBITER_CB_RESULT_DESCHED_GROUP m = Some (NextGroup, m') /\
    between m' (spec_keep a g e UCS_ARBITER_CB_RESULT_DESCHED_GROUP s).2.
Proof.
  intros H Hq He Hd. pose proof (rp_held _ _ (rp_l _ _ H) _ He) as Hen. destruct (rp_free _ _ H _ He) as [Hp Ho].
  unfold dispatch_keep. assert (ucs_arbiter_group_head_is_scheduled e (ucs_arbiter_elem_set_scheduled e g m) = false) as ->.
  { apply bool_decide_eq_false_2. cbn. tauto. }
  cbn [assert negb mbind option_bind].
  destruct (restore_ok m s g e q H Hq He Hd) as (m1 & E & L1 & G1 & D1 & Hr). rewrite E. cbn [mbind option_bind].
  assert (ucs_arbiter_group_head_is_scheduled Dummy m1 = bool_decide (on s g <> None)) as ->.
  { unfold ucs_arbiter_group_head_is_scheduled. rewrite L1. apply (head_scheduled m s g Dummy q); [apply H|done]. }
  assert (forall g' q', queue s g' = e :: q' -> False) as Hno by (intros g' q' Hq'%(owner_head _ _ _ _ _ H); congruence).
  unfold spec_keep. fold (spec_restore g e s). change (on (spec_restore g e s) g) with (on s g). cbn [snd]. destruct (on s g) as [l|] eqn:Eon.
  - rewrite bool_decide_true by done.
    destruct (lrep_replace (links m) s (spec_restore g e s) g l Dummy e q q (rp_l _ _ H) Eon Hq) as (ls & El & Hls); try done.
    { cbn. by rewrite fn_lookup_insert, Hq. }
    { intros g' Hne. cbn. by rewrite fn_lookup_insert_ne. }
    unfold on_links. rewrite L1, El. cbn. rewrite D1. cbn. eexists. split; [done|].
    apply (Hr (set_next (LElem Dummy) None ls) (garb (set_garb g (garb m1 g) m1))); try done.
    + intros g'. cbn. rewrite G1. destruct (decide (g' = g)) as [->|]; [rewrite fn_lookup_insert|rewrite fn_lookup_insert_ne by done]; apply H.
    + apply (Hls true). cbn. intros x ->%list_elem_of_singleton. by left.
  - rewrite bool_decide_false by tauto. eexists. split; [done|]. apply (Hr (links m1) (garb (set_garb g None m1))); try done.
    + intros g'. cbn. rewrite G1. destruct (decide (g' = g)) as [->|]; [by rewrite !fn_lookup_insert|rewrite !fn_lookup_insert_ne by done; apply H].
    + rewrite L1. destruct (rp_lists _ _ (rp_l _ _ H)) as (R & HR & HL). apply (lrep_queue (links m) _ s); try done; [apply H| |by exists R| |]; cbn.
      * intros g' Hg'. by rewrite fn_lookup_insert_ne by (by intros ->).
      * intros g' e' q'. destruct (decide (g' = g)) as [->|]; [rewrite fn_lookup_insert; by intros [= <- _]|]. rewrite fn_lookup_insert_ne by done.
        apply (rp_unsched _ _ (rp_l _ _ H)).
      * intros x ->%list_elem_of_singleton. by eapply (rp_unsched _ _ (rp_l _ _ H)).
Qed.

(** The group leaves the list that it was put in meanwhile and enters another one. *)
Lemma keep_move m s g e q l : rep m s -> queue s g = Dummy :: q -> e ∈ held s -> e <> Dummy -> is_Some (order s !! l) ->
  exists m1 m2, ucs_arbiter_group_head_replace g Dummy e (ucs_arbiter_elem_set_scheduled e g m) = Some m1 /\
    ucs_arbiter_remove_and_reset_if_scheduled Dummy m1 = Some m2 /\
    let s1 := spec_remove g (spec_restore g e s) in
    (exists ls, ucs_list_add_tail (LHead l) (LElem e) (links m2) = Some ls /\ between (set_links ls m2) (spec_append l g s1)) /\
    (exists ls, ucs_list_add_head (LHead l) (LElem e) (links m2) = Some ls /\ between (set_links ls m2) (spec_prepend l g s1)).
Proof.
  intros H Hq He Hd Hl. pose proof (rp_held _ _ (rp_l _ _ H) _ He) as Hen.
  destruct (restore_ok m s g e q H Hq He Hd) as (m1 & E & L1 & G1 & D1 & Hr). exists m1.
  set (s1 := spec_remove g (spec_restore g e s)). destruct (spec_remove_fields g (spec_restore g e s)) as (F1 & F2 & F3 & F4 & F5). fold s1 in F1, F2, F3, F4, F5.
  assert (order s1 = order (spec_remove g s) /\ on s1 = on (spec_remove g s)) as [F6 F7] by (unfold s1, spec_remove; cbn; by destruct (on s g)).
  assert (on s1 g = None) as Hon.
  { rewrite F7. unfold spec_remove. destruct (on s g) eqn:Eon; [|done]. cbn. by rewrite fn_lookup_insert. }
  destruct (dummy_leaves m1 s s1 g q) as (ls & Els & HL); try done.
  { rewrite L1. apply H. }
  { apply (head_unique _ _ _ _ _ H Hq). }
  { intros g' Hne. rewrite F1. cbn. by rewrite fn_lookup_insert_ne. }
  { rewrite F1, L1. cbn. rewrite fn_lookup_insert. by intros e' q' [= <- _]. }
  exists (set_links ls m1). split_and!; [done|done|].
  assert (is_Some (order s1 !! l)) as [gs Hgs] by (rewrite F6; by apply remove_dom).
  assert (groups_of l s1 = gs) as Hg1 by (unfold groups_of; by rewrite Hgs).
  assert (forall ls' s', queue s' = queue s1 -> owner s' = owner s1 -> sguard s' = sguard s1 -> held s' = held s1 -> sarb s' = sarb s1 -> lrep ls' s' ->
    between (set_links ls' (set_links ls m1)) s') as Hb.
  { intros ls' s' E1 E2 E3 E4 E5 HL'. apply (Hr ls' (garb m1)); try congruence; try done.
    - rewrite E3, F3. done.
    - rewrite E4, F5. done.
    - intros g'. rewrite E5, F4, G1. apply H. }
  split.
  - destruct (lrep_append ls s1 (spec_append l g s1) g l e gs HL Hgs) as (ls' & El & HL').
    { unfold spec_append. rewrite Hg1. by eapply (restore_enters m s). }
    exists ls'. split; [done|]. by apply Hb.
  - destruct (lrep_prepend ls s1 (spec_prepend l g s1) g l e gs HL Hgs) as (ls' & El & HL').
    { unfold spec_prepend. rewrite Hg1. by eapply (restore_enters m s). }
    exists ls'. split; [done|]. by apply Hb.
Qed.

Lemma keep_ok m s a g e q result : rep m s -> queue s g = Dummy :: q -> e ∈ held s -> e <> Dummy -> result <> UCS_ARBITER_CB_RESULT_REMOVE_ELEM ->
  is_Some (order s !! Arb a) -> is_Some (order s !! Resched) ->
  exists m', dispatch_keep a g e result m = Some ((spec_keep a g e result s).1, m') /\ between m' (spec_keep a g e result s).2.
Proof.
  intros H Hq He Hd Hres Ha Hr.
  assert (ucs_arbiter_group_head_is_scheduled e (ucs_arbiter_elem_set_scheduled e g m) = false) as Hen.
  { apply bool_decide_eq_false_2. cbn. rewrite (rp_held _ _ (rp_l _ _ H) _ He). tauto. }
  destruct (keep_move m s g e q (Arb a) H Hq He Hd Ha) as (m1 & m2 & E1 & E2 & (lt & Et & Ht) & (lh & Eh & Hh)).
  destruct (keep_move m s g e q Resched H Hq He Hd Hr) as (m1' & m2' & E1' & E2' & (lr & Er & Hr') & _).
  rewrite E1 in E1'. injection E1' as <-. rewrite E2 in E2'. injection E2' as <-.
  destruct result; [done| |by apply (keep_desched m s a g e q)|..]; unfold dispatch_keep, on_links; rewrite Hen;
    cbn [assert negb mbind option_bind]; rewrite E1; cbn [mbind option_bind]; rewrite E2; cbn [mbind option_bind].
  - rewrite Et. by eexists.
  - rewrite Er. by eexists.
  - rewrite Eh. by eexists.
Qed.

(** The dummy is removed, and with it the element. *)
Definition spec_drop (g : positive) (s : spec) : spec := set_held [Dummy] (set_owner Dummy None (set_queue g (List.tl (queue s g)) s)).

Lemma drop_rep m m1 s s' g q gb ls : rep m s -> queue s g = Dummy :: q -> group_ok m1 g q -> (forall g', g' <> g -> tail m1 g' = tail m g') ->
  (forall y, y ∉ queue s g -> enext m1 y = enext m y) -> egroup m1 = egroup m -> guard m1 = guard m ->
  queue s' = queue (spec_drop g s) -> owner s' = owner (spec_drop g s) -> sguard s' = sguard s -> held s' = [Dummy] -> (forall g, gb g = sarb s' g) ->
  lrep ls s' -> between (AMem ls (enext m1) (egroup m1) (tail m1) (guard m1) gb) s' /\ egroup m1 Dummy = Some g.
Proof.
  intros H Hq Hg Ht He Eg Ed Eq Eo Es Eh Hgb HL. pose proof (rp_nodup _ _ H g) as Hnd. rewrite Hq in Hnd. apply NoDup_cons in Hnd as [Hd Hnd].
  assert (egroup m Dummy = Some g) as Hdg.
  { pose proof (owner_head _ _ _ _ _ H Hq) as Hdo. rewrite <- Hdo. apply (rp_group _ _ H). right. congruence. }
  split; [split; [|done]|by rewrite Eg]. apply (rep_queue_upd m _ s s' g q); try done; cbn.
  - intros g'. rewrite Eq. cbn. rewrite Hq. case_decide; [subst; by rewrite fn_lookup_insert|by rewrite fn_lookup_insert_ne].
  - intros e Hin. left. rewrite Hq. by right.
  - intros Hin. assert (owner s PurgeDummy = Some g) as Hpo by (apply (rp_owner _ _ H); rewrite Hq; by right). by rewrite (rp_purge _ _ H) in Hpo.
  - intros e. rewrite Eo. cbn. rewrite Hq. destruct (decide (e = Dummy)) as [->|].
    + rewrite fn_lookup_insert, decide_False by done. by rewrite decide_True by left.
    + rewrite fn_lookup_insert_ne by done. case_decide; [apply (rp_owner _ _ H); rewrite Hq; by right|]. by rewrite decide_False by set_solver.
  - by apply (group_ok_frame m1 (AMem ls (enext m1) (egroup m1) (tail m1) (guard m1) gb)).
  - intros y Hy _. by apply He.
  - intros e. rewrite Eg, Eo. cbn. destruct (decide (e = Dummy)) as [->|]; [rewrite fn_lookup_insert; by intros []|].
    rewrite fn_lookup_insert_ne by done. intros _. apply (rp_group _ _ H). by left.
  - rewrite Eh. intros x ->%list_elem_of_singleton. split; [done|]. rewrite Eo. cbn. by rewrite fn_lookup_insert.
  - intros g'. rewrite Ed, Es. apply H.
Qed.

(** The element was the last one of the group. *)
Lemma discard_last m s a g per_group count : rep m s -> queue s g = [Dummy] ->
  exists m', dispatch_remove a g per_group count m = Some (NextGroup, m') /\ between m' (set_sarb g None (spec_remove g (spec_drop g s))).
Proof.
  intros H Hq. pose proof (rp_queue _ _ H g) as Hg. rewrite Hq in Hg. destruct Hg as [Ht Hc]. cbn in Hc. unfold dispatch_remove.
  rewrite (bool_decide_eq_true_2 _ Hc). set (s1 := set_sarb g None (spec_remove g (spec_drop g s))).
  destruct (spec_remove_fields g (spec_drop g s)) as (F1 & F2 & F3 & F4 & F5).
  assert (order s1 = order (spec_remove g s) /\ on s1 = on (spec_remove g s)) as [F6 F7] by (unfold s1, spec_remove; cbn; by destruct (on s g)).
  destruct (dummy_leaves (set_tail g None m) s s1 g []) as (ls & E & HL); try done.
  { apply H. }
  { apply (head_unique _ _ _ _ _ H Hq). }
  { intros g' Hne. unfold s1. cbn. rewrite F1. cbn. by rewrite fn_lookup_insert_ne. }
  { unfold s1. cbn. rewrite F1. cbn. by rewrite fn_lookup_insert, Hq. }
  rewrite E. cbn [mbind option_bind]. eexists. split; [done|].
  eapply (drop_rep m (set_tail g None m) s s1 g [] (garb (set_garb g None m)) ls); try done; cbn; rewrite ?F1, ?F2, ?F3, ?F4; try done.
  - by rewrite fn_lookup_insert.
  - intros g' Hne. by rewrite fn_lookup_insert_ne.
  - intros g'. cbn. destruct (decide (g' = g)) as [->|]; [by rewrite !fn_lookup_insert|]. rewrite !fn_lookup_insert_ne by done. apply H.
Qed.

Lemma discard_next m s a g e q per_group count : rep m s -> queue s g = Dummy :: e :: q -> is_Some (order s !! Arb a) ->
  exists m', dispatch_remove a g per_group count m = Some ((spec_discard a g per_group count s).1, m') /\
    between m' (spec_discard a g per_group count s).2 /\ egroup m' Dummy = Some g.
Proof.
  intros H Hq [gs Ha]. pose proof (rp_queue _ _ H g) as Hg. rewrite Hq in Hg. pose proof (group_ok_last _ _ _ Hg) as Ht. rewrite !last_cons in Ht.
  pose proof (group_ok_next m g [] Dummy (e :: q) Hg) as Hde. cbn in Hde. pose proof (rp_nodup _ _ H g) as Hnd. rewrite Hq in Hnd.
  assert (e <> Dummy) as Hne by (apply NoDup_cons in Hnd; set_solver).
  unfold dispatch_remove. rewrite (bool_decide_eq_false_2 (enext m Dummy = Some Dummy)) by congruence. rewrite Hde, Ht. cbn [mbind option_bind].
  destruct (match last q with Some y => Some y | None => Some e end) as [t|] eqn:Et; [|by destruct (last q)]. cbn [mbind option_bind].
  set (m0 := set_enext t (Some e) m). assert (group_ok m0 g (e :: q)) as Hg0.
  { apply (group_ok_remove m m0 g [] Dummy (e :: q)); try done; cbn; rewrite ?last_cons, ?Ht, Et; done. }
  assert (t ∈ queue s g) as Htq. { rewrite Hq. right. pose proof (last_default_in e q) as Hl. destruct (last q); cbn in Hl; congruence. }
  assert (forall ls s', queue s' = queue (spec_drop g s) -> owner s' = owner (spec_drop g s) -> sguard s' = sguard s -> held s' = [Dummy] ->
    sarb s' = sarb s -> lrep ls s' -> between (set_links ls m0) s' /\ egroup (set_links ls m0) Dummy = Some g) as Hr.
  { intros ls s' E1 E2 E3 E4 E5 HL. apply (drop_rep m m0 s s' g (e :: q)); try done.
    - intros y Hy. cbn. rewrite fn_lookup_insert_ne; [done|]. by intros ->.
    - intros g'. rewrite E5. apply H. }
  assert (forall g' q', queue s g' = e :: q' -> g' = g) as Hun.
  { intros g' q' Hq'. eapply (owner_disj m s _ _ e H); [rewrite Hq'; left|rewrite Hq; right; left]. }
  assert (forall g' q', queue s g' = e :: q' -> False) as Hno by (intros g' q' Hq'; pose proof (Hun _ _ Hq') as ->; congruence).
  rewrite (head_scheduled m0 s g Dummy (e :: q)) by (done || apply H). unfold spec_discard. rewrite Hq. cbn [List.tl].
  replace (set_held [Dummy] (set_owner Dummy None (set_queue g (e :: q) s))) with (spec_drop g s) by (unfold spec_drop; by rewrite Hq).
  change (on (spec_drop g s) g) with (on s g). destruct (on s g) as [l|] eqn:Eon.
  - rewrite bool_decide_true by done. destruct (lrep_replace (links m) s (spec_drop g s) g l Dummy e (e :: q) q (rp_l _ _ H) Eon Hq) as (ls & El & Hls); try done.
    { cbn. by rewrite fn_lookup_insert, Hq. }
    { intros g' Hne'. cbn. by rewrite fn_lookup_insert_ne. }
    unfold on_links. cbn. rewrite El. cbn. eexists. split; [done|]. apply Hr; try done. apply (Hls true). cbn. intros x ->%list_elem_of_singleton. by left.
  - rewrite bool_decide_false by tauto. pose proof (rp_unsched _ _ (rp_l _ _ H) _ _ _ Hq Eon) as Hdn.
    destruct (bool_decide (per_group <= count)%positive).
    + destruct (lrep_append (links m) s (spec_append (Arb a) g (spec_drop g s)) g (Arb a) e gs (rp_l _ _ H) Ha) as (ls & El & HL).
      { constructor; try done; cbn.
        - rewrite fn_lookup_insert, Hq. by eexists.
        - intros g' Hne'. by rewrite fn_lookup_insert_ne.
        - unfold groups_of. cbn. by rewrite Ha.
        - intros x ->%list_elem_of_singleton. done. }
      unfold on_links. cbn [links m0 set_enext]. rewrite El. cbn [mbind option_bind]. eexists. split; [done|]. by apply Hr.
    + eexists. split; [done|]. apply Hr; try done. destruct (rp_lists _ _ (rp_l _ _ H)) as (R & HR & HL). cbn.
      apply (lrep_queue (links m) _ s); try done; [apply H|..]; cbn.
      * intros g' Hg'. by rewrite fn_lookup_insert_ne by (by intros ->).
      * exists R. split; [|done]. apply set_next_ok; [done|]. intros (g' & q' & Hq' & _)%(linked_elem _ _ _ _ (rp_l _ _ H) HL). eauto.
      * intros g' e' q'. destruct (decide (g' = g)) as [->|]; [rewrite fn_lookup_insert, Hq; intros [= <- _] _; by rewrite fn_lookup_insert|].
        rewrite fn_lookup_insert_ne by done. intros Hq' Hon'. rewrite fn_lookup_insert_ne; [by eapply (rp_unsched _ _ (rp_l _ _ H))|]. intros [= ->]. eauto.
      * intros x ->%list_elem_of_singleton. by rewrite fn_lookup_insert_ne by congruence.
Qed.

(** *** The whole turn *)

(** What a callback on the element [e] of [g] may do: its operations are allowed, and
    when it keeps the element it did not push it itself. *)
Definition legal_callback (g : positive) (e : elem) (cb : callback) (s : spec) : bool :=
  let s1 := spec_enter g e s in
  legal_ops cb.1 s1 && match cb.2 with UCS_ARBITER_CB_RESULT_REMOVE_ELEM => true | _ => bool_decide (e ∈ held (spec_ops cb.1 s1)) end.

(** No callback runs, and the list of the arbiter and [resched_list] exist. *)
Record steady (a : positive) (s : spec) : Prop := Steady {
  st_guard : forall g, sguard s g = 0;
  st_arb : is_Some (order s !! Arb a);
  st_resched : is_Some (order s !! Resched)
}.

(** The next element [e] of [g] can be dispatched. *)
Record ready (a g : positive) (e : elem) (m : amem) (s : spec) : Prop := Ready {
  rd_between : between m s;
  rd_steady : steady a s;
  rd_queue : exists q, queue s g = e :: q;
  rd_on : on s g = None;
  rd_dummy : egroup m Dummy = Some g
}.

Lemma steady_order a s s' : steady a s -> sguard s' = sguard s -> (forall l, is_Some (order s !! l) -> is_Some (order s' !! l)) -> steady a s'.
Proof. intros [H1 H2 H3] E Ho. split; [by rewrite E|by apply Ho..]. Qed.

Lemma insert_dom l gs s l' : is_Some (order s !! l') -> is_Some (<[l := gs]> (order s) !! l').
Proof. intros H. destruct (decide (l' = l)) as [->|]; [by rewrite lookup_insert_eq|by rewrite lookup_insert_ne]. Qed.

Lemma keep_steady a g e result s : steady a s -> steady a (spec_keep a g e result s).2.
Proof.
  intros H. assert (forall s1, sguard s1 = sguard s -> order s1 = order s -> forall l gs,
    steady a (set_on g (Some l) (set_order l gs (spec_remove g s1)))) as Hm.
  { intros s1 E1 E2 l gs. apply (steady_order a s); [done|cbn; rewrite <- E1; apply spec_remove_fields|]. intros l' Hl'. cbn. apply insert_dom, remove_dom.
    by rewrite E2. }
  unfold spec_keep. destruct result; cbn [snd]; try (by apply Hm). cbn. destruct (on s g); by apply (steady_order a s).
Qed.

Lemma discard_steady a g per_group count s : steady a s -> steady a (spec_discard a g per_group count s).2.
Proof.
  intros H. unfold spec_discard. destruct (List.tl (queue s g)) as [|e q]; cbn [snd].
  - match goal with |- steady a (set_sarb g None (spec_remove g ?s0)) => set (s1 := s0) end. apply (steady_order a s); [done|apply (spec_remove_fields g s1)|].
    intros l Hl. cbn. by apply remove_dom.
  - cbn. destruct (on s g); [by apply (steady_order a s)|]. case_bool_decide; [|by apply (steady_order a s)].
    apply (steady_order a s); [done..|]. intros l Hl. by apply insert_dom.
Qed.

Lemma discard_ok m s a g q per_group count : rep m s -> queue s g = Dummy :: q -> steady a s ->
  exists m', dispatch_remove a g per_group count m = Some ((spec_discard a g per_group count s).1, m') /\
    between m' (spec_discard a g per_group count s).2 /\
    forall e, (spec_discard a g per_group count s).1 = NextElem e -> ready a g e m' (spec_discard a g per_group count s).2 /\ (count < per_group)%positive.
Proof.
  intros H Hq Hs. pose proof (discard_steady a g per_group count s Hs) as Hs'. destruct q as [|e q].
  - destruct (discard_last m s a g per_group count H Hq) as (m' & E & Hb). unfold spec_discard. rewrite Hq. cbn [List.tl fst snd].
    unfold spec_drop in Hb. rewrite Hq in Hb. by exists m'.
  - destruct (discard_next m s a g e q per_group count H Hq (st_arb _ _ Hs)) as (m' & E & Hb & Hd). exists m'. split_and!; [done..|].
    intros e' He'. split; [split; try done|]; revert He'; unfold spec_discard; rewrite Hq; cbn.
    + destruct (on s g); [done|]. case_bool_decide; [done|]. cbn. intros [= <-]. exists q. by rewrite fn_lookup_insert.
    + destruct (on s g) eqn:Eon; [done|]. case_bool_decide; [done|]. done.
    + destruct (on s g); [done|]. case_bool_decide; [done|]. intros _. lia.
Qed.

(** The callback runs. *)
Lemma call_ok a per_group g count e cb m s : ready a g e m s -> (count <= per_group)%positive -> legal_callback g e cb s = true ->
  let s2 := spec_exit g (spec_ops cb.1 (spec_enter g e s)) in
  exists m2 q2, dispatch_elem a per_group g count e cb m =
      match cb.2 with UCS_ARBITER_CB_RESULT_REMOVE_ELEM => dispatch_remove a g per_group count m2 | result => dispatch_keep a g e result m2 end /\
    rep m2 s2 /\ queue s2 g = Dummy :: q2 /\ steady a s2 /\ e <> Dummy.
Proof.
  intros [Hb Hs (q & Hq) Hon Hd] Hc Hl. apply andb_true_iff in Hl as [Hl Hk].
  destruct (enter_ok m s g e q Hb Hq Hon Hd) as (m1 & E1 & L1 & R1 & He1 & He2).
  assert (calling g (spec_enter g e s)) as Hcall.
  { split; cbn; rewrite fn_lookup_insert; [done|]. rewrite (st_guard _ _ Hs). done. }
  destruct (calling_ops cb.1 g _ Hcall Hl) as ([Hh _] & Hg2 & Ho2). destruct (arb_ops_ok cb.1 _ _ R1 Hl) as (m2 & E2 & R2).
  set (s2 := spec_ops cb.1 (spec_enter g e s)) in *. pose proof (rep_guard m2 s2 g (sguard s2 g - 1) R2) as R3. fold (spec_exit g s2) in R3.
  set (m3 := set_guard g (sguard s2 g - 1) m2) in *.
  assert (exists q2, queue (spec_exit g s2) g = Dummy :: q2) as (q2 & Hq2).
  { cbn. destruct (queue s2 g) as [|x q2]; [done|]. injection Hh as ->. by exists q2. }
  pose proof (rp_queue _ _ R3 g) as Hg3. rewrite Hq2 in Hg3. destruct (group_ok_tail _ _ _ _ Hg3) as (tl & Ht & Htn & _).
  assert (ucs_arbiter_group_head_is_scheduled e (ucs_arbiter_elem_init e m) = false) as Hsch.
  { apply bool_decide_eq_false_2. cbn. rewrite (rp_unsched _ _ (rp_l _ _ (bt_rep _ _ Hb)) _ _ _ Hq Hon). tauto. }
  assert (egroup m e = Some g) as Heg.
  { pose proof (owner_head _ _ _ _ _ (bt_rep _ _ Hb) Hq) as Ho. rewrite (rp_group _ _ (bt_rep _ _ Hb)); [done|by left]. }
  exists m3, q2. split_and!; try done.
  - unfold dispatch_elem. rewrite !bool_decide_true by done. cbn [assert andb mbind option_bind]. rewrite Hsch. cbn [assert negb mbind option_bind].
    rewrite E1. cbn [mbind option_bind]. rewrite E2. cbn [mbind option_bind]. rewrite (rp_guard _ _ R2). fold m3. rewrite Ht. cbn [mbind option_bind].
    rewrite (bool_decide_eq_true_2 _ Htn). done.
  - destruct Hs as [Hs1 Hs2 Hs3]. split; [|by apply Ho2..]. intros g'. cbn. rewrite Hg2. cbn.
    destruct (decide (g' = g)) as [->|]; [rewrite !fn_lookup_insert, Hs1; done|]. rewrite !fn_lookup_insert_ne by done. apply Hs1.
Qed.

Lemma elem_ok a per_group g count e cb m s : ready a g e m s -> (count <= per_group)%positive -> legal_callback g e cb s = true ->
  let t := (spec_elem a per_group g count e cb s).1 in let s' := (spec_elem a per_group g count e cb s).2 in
  exists m', dispatch_elem a per_group g count e cb m = Some (t, m') /\ between m' s' /\ steady a s' /\
    forall e', t = NextElem e' -> ready a g e' m' s' /\ (count < per_group)%positive.
Proof.
  intros Hr Hc Hl. destruct (call_ok a per_group g count e cb m s Hr Hc Hl) as (m2 & q2 & E & R & Hq & Hs & He).
  apply andb_true_iff in Hl as [Hl Hk]. unfold spec_elem. cbv zeta. rewrite E.
  set (s1 := spec_ops cb.1 (spec_enter g e s)) in *. set (s2 := spec_exit g s1) in *.
  assert (forall result, result <> UCS_ARBITER_CB_RESULT_REMOVE_ELEM -> e ∈ held s1 ->
    exists m', dispatch_keep a g e result m2 = Some ((spec_keep a g e result s2).1, m') /\ between m' (spec_keep a g e result s2).2 /\
      steady a (spec_keep a g e result s2).2 /\ forall e', (spec_keep a g e result s2).1 = NextElem e' -> ready a g e' m' (spec_keep a g e result s2).2 /\ (count < per_group)%positive) as Hkeep.
  { intros result Hres Hin. destruct (keep_ok m2 s2 a g e q2 result R Hq Hin He Hres (st_arb _ _ Hs) (st_resched _ _ Hs)) as (m' & E' & Hb).
    exists m'. split_and!; [done|done|by apply keep_steady|]. by destruct result. }
  destruct cb.2.
  - destruct (discard_ok m2 s2 a g q2 per_group count R Hq Hs) as (m' & E' & Hb & Hn). exists m'. split_and!; [done|done|by apply discard_steady|done].
  - apply Hkeep; [done|by apply bool_decide_eq_true in Hk].
  - apply Hkeep; [done|by apply bool_decide_eq_true in Hk].
  - apply Hkeep; [done|by apply bool_decide_eq_true in Hk].
  - apply Hkeep; [done|by apply bool_decide_eq_true in Hk].
Qed.

(** ** The loops *)

Lemma begin_ok a m s g gs : between m s -> steady a s -> groups_of (Arb a) s = g :: gs ->
  exists e m' s', dispatch_begin a m = Some (g, e, m') /\ spec_begin a s = Some (g, e, s') /\ ready a g e m' s'.
Proof.
  intros [H Hh] Hs Hg. assert (on s g = Some (Arb a)) as Hon by (apply (rp_on _ _ (rp_l _ _ H)); rewrite Hg; left).
  destruct (queue s g) as [|e q] eqn:Hq; [by apply (rp_nonempty _ _ (rp_l _ _ H)) in Hq; [|rewrite Hon]|].
  destruct (lrep_leave (links m) s g (Arb a) e q (rp_l _ _ H) Hq Hon (head_unique _ _ _ _ _ H Hq)) as (ls & E & Hls).
  set (s' := set_on g None (set_order (Arb a) gs s)).
  assert (g ∉ gs) as Hgs. { pose proof (rp_order _ _ (rp_l _ _ H) (Arb a)) as Hnd. rewrite Hg in Hnd. by apply NoDup_cons in Hnd as [? _]. }
  pose proof (spec_remove_order g (Arb a) [] gs s Hon Hg Hgs) as Hsr. cbn [app] in Hsr.
  assert (Dummy ∈ held s) as Hd by (rewrite Hh; left). destruct (rp_free _ _ H _ Hd) as [_ Hdo].
  pose proof (owner_head _ _ _ _ _ H Hq) as Heo. assert (e <> Dummy) as Hne by congruence.
  assert (lrep (set_next (LElem e) None ls) s') as HL.
  { apply (Hls true); try (by rewrite Hsr); [done|..]; cbn.
    - intros e' q' Hq'. left. split; [done|congruence].
    - rewrite Hh. intros x ->%list_elem_of_singleton. right. split; [by apply (rp_held _ _ (rp_l _ _ H))|done]. }
  assert (ucs_list_extract_head (LHead (Arb a)) (links m) = Some (LElem e, ls)) as Ex.
  { destruct (rp_lists _ _ (rp_l _ _ H)) as (R & HR & HL'). destruct (place _ _ _ _ _ _ _ (rp_l _ _ H) HL' Hon Hq) as (gs1 & gs2 & Hg1 & _ & HRl & Hn).
    rewrite Hg in Hg1. destruct gs1 as [|g1 gs1]; [|injection Hg1 as -> _; set_solver].
    destruct (lo_ring _ _ HR _ _ HRl) as [[Hnx _] _]. unfold ucs_list_extract_head. cbn in Hnx. rewrite Hnx. cbn. by rewrite E. }
  assert (egroup m e = Some g) as Heg by (rewrite (rp_group _ _ H) by (by left); done).
  exists e, (set_egroup Dummy (Some g) (ucs_arbiter_group_head_reset e (set_links ls m))), s'. split_and!.
  - unfold dispatch_begin. rewrite Ex. cbn. rewrite Heg. cbn. unfold UCS_ARBITER_GROUP_GUARD_CHECK. cbn. by rewrite (rp_guard _ _ H), (st_guard _ _ Hs).
  - unfold spec_begin. by rewrite Hg, Hq.
  - split.
    + split; [|done]. destruct H as [H1 H2 H3 H4 H5 H6 H7 H8 H9]. constructor; try done.
      * intros g'. apply (group_ok_frame m); [done..|apply H1].
      * intros e' He'. cbn in *. rewrite fn_lookup_insert_ne; [by apply H4|]. intros <-. by destruct He'.
    + apply (steady_order a s); [done..|]. intros l Hl. by apply insert_dom.
    + by exists q.
    + cbn. by rewrite fn_lookup_insert.
    + cbn. by rewrite fn_lookup_insert.
Qed.

Lemma arb_is_empty a m s : lrep (links m) s -> is_Some (order s !! Arb a) -> ucs_arbiter_is_empty a m = bool_decide (groups_of (Arb a) s = []).
Proof.
  intros H [gs Ha]. destruct (rp_lists _ _ H) as (R & HR & HL). unfold ucs_arbiter_is_empty, groups_of. rewrite Ha.
  rewrite (is_empty_ok _ R _ (heads s gs)); [|done|rewrite HL; cbn; by rewrite Ha]. apply bool_decide_ext. cbn. by destruct gs.
Qed.

(** What the callbacks of a dispatch may do. *)
Fixpoint legal_loop (a per_group : positive) (cbs : list callback) (g count : positive) (e : elem) (s : spec) : bool :=
  match cbs with
  | [] => true
  | cb :: cbs =>
      legal_callback g e cb s &&
      let '(t, s) := spec_elem a per_group g count e cb s in
      match t with
      | NextElem e => legal_loop a per_group cbs g (count + 1) e s
      | NextGroup => match spec_begin a s with Some (g, e, s) => legal_loop a per_group cbs g 1 e s | None => true end
      | Stop => true
      end
  end.

(** The outcomes correspond. *)
Definition same_outcome (P : amem -> spec -> Prop) (r : outcome) (r' : spec_outcome) : Prop :=
  match r, r' with
  | Finished m log, SpecFinished s log' => log = log' /\ P m s
  | Unfinished log, SpecUnfinished log' => log = log'
  | _, _ => False
  end.

Lemma loop_ok a per_group cbs : forall g count e log m s, ready a g e m s -> (count <= per_group)%positive ->
  legal_loop a per_group cbs g count e s = true ->
  exists r r', dispatch_loop a per_group cbs g count e log m = Some r /\ spec_loop a per_group cbs g count e log s = Some r' /\
    same_outcome (fun m s => between m s /\ steady a s) r r'.
Proof.
  induction cbs as [|cb cbs IH]; intros g count e log m s Hr Hc Hl; cbn in *; [by eexists _, _|].
  apply andb_true_iff in Hl as [Hl Hl']. destruct (elem_ok a per_group g count e cb m s Hr Hc Hl) as (m' & E & Hb & Hs & Hn). rewrite E. cbn.
  destruct (spec_elem a per_group g count e cb s) as [t s'] eqn:Es. cbn in *. destruct t as [e'| |].
  - destruct (Hn e' eq_refl) as [Hr' Hc']. apply IH; [done|lia|done].
  - rewrite (arb_is_empty a m' s') by (apply Hb || apply Hs). destruct (groups_of (Arb a) s') as [|g' gs] eqn:Eg; [by eexists _, _|].
    rewrite bool_decide_false by done. destruct (begin_ok a m' s' g' gs Hb Hs Eg) as (e' & m1 & s1 & E1 & E2 & Hr1). rewrite E1, E2. cbn.
    rewrite E2 in Hl'. apply IH; [done|lia|done].
  - by eexists _, _.
Qed.

(** ** Dispatch *)

(** Between dispatches the dummy is nowhere. *)
Record idle (s : spec) : Prop := Idle {
  id_held : held s = [];
  id_dummy : owner s Dummy = None;
  id_resched : order s !! Resched = None;
  id_guard : forall g, sguard s g = 0
}.

(** The local variables of the dispatch are set up. *)
Lemma setup_ok a m s : rep m s -> idle s -> is_Some (order s !! Arb a) ->
  let m' := ucs_arbiter_group_head_reset Dummy (set_links (ucs_list_head_init (LHead Resched) (links m)) m) in
  let s' := set_held [Dummy] (set_order Resched [] s) in between m' s' /\ steady a s'.
Proof.
  intros H [Hh Hd Hr Hg] Ha m' s'. destruct (rp_lists _ _ (rp_l _ _ H)) as (R & HR & HL).
  assert (forall e, next (links m') (LElem e) = if decide (e = Dummy) then None else next (links m) (LElem e)) as Hn.
  { intros e. cbn. case_decide as E; [subst; by rewrite fn_lookup_insert|]. by rewrite !fn_lookup_insert_ne by congruence. }
  assert (forall l, groups_of l s' = groups_of l s) as Eg.
  { intros l. change (groups_of l s') with (groups_of l (set_order Resched [] s)). rewrite groups_insert. case_decide as E; [|done].
    subst. unfold groups_of. by rewrite Hr. }
  split; [split; [|done]|split; [done|by apply insert_dom|cbn; by rewrite lookup_insert_eq]].
  assert (lrep (links m') s') as HL'.
  { constructor.
    - exists (<[LHead Resched := []]> R). split.
      + apply set_next_ok; [by apply head_init_ok; [|by apply (linked_head s)]|]. intros (h & xs & Hh' & Hin).
        destruct (decide (h = LHead Resched)) as [->|Hne]; [rewrite lookup_insert_eq in Hh'; injection Hh' as <-; set_solver|].
        rewrite lookup_insert_ne in Hh' by done. eapply (free_unlinked m s R Dummy H HL Hd). by exists h, xs.
      + intros x. change (lists_of s' x) with (lists_of (set_order Resched [] s) x). rewrite lists_insert.
        case_decide as E; [subst; by rewrite lookup_insert_eq|by rewrite lookup_insert_ne].
    - intros g l. rewrite Eg. apply H.
    - intros l. rewrite Eg. apply H.
    - apply H.
    - intros g e q Hq Hon. rewrite Hn. case_decide; [done|]. by eapply (rp_unsched _ _ (rp_l _ _ H)).
    - cbn. intros x ->%list_elem_of_singleton. by rewrite fn_lookup_insert. }
  destruct H as [H1 H2 H3 H4 H5 H6 H7 H8 H9]. constructor; try done.
  - intros g. apply (group_ok_frame m); [done..|apply H1].
  - cbn. intros x ->%list_elem_of_singleton. done.
Qed.

Lemma splice_groups a l s : groups_of l (spec_splice a s) =
  if decide (l = Arb a) then groups_of (Arb a) s ++ groups_of Resched s else if decide (l = Resched) then [] else groups_of l s.
Proof.
  unfold groups_of at 1. cbn. case_decide as E; [subst; by rewrite lookup_insert_eq|]. rewrite lookup_insert_ne by done.
  case_decide as E'; [subst; by rewrite lookup_delete_eq|by rewrite lookup_delete_ne].
Qed.

(** The groups of [resched_list] go to the end of the list of the arbiter. *)
Lemma splice_ok a m s : between m s -> steady a s ->
  exists ls, ucs_list_splice_tail (LHead (Arb a)) (LHead Resched) (links m) = Some ls /\ rep (set_links ls m) (spec_splice a s) /\ idle (spec_splice a s) /\
    is_Some (order (spec_splice a s) !! Arb a).
Proof.
  intros [H Hh] [Hg [gs Ha] [rs Hr]]. destruct (rp_lists _ _ (rp_l _ _ H)) as (R & HR & HL).
  assert (groups_of (Arb a) s = gs) as Ga by (unfold groups_of; by rewrite Ha). assert (groups_of Resched s = rs) as Gr by (unfold groups_of; by rewrite Hr).
  destruct (splice_tail_ok (links m) R (LHead (Arb a)) (LHead Resched) (heads s gs) (heads s rs)) as (ls & E & HR' & Hag); try done.
  { rewrite HL. cbn. by rewrite Ha. }
  { rewrite HL. cbn. by rewrite Hr. }
  exists ls. split; [done|]. assert (Dummy ∈ held s) as Hd by (rewrite Hh; left). destruct (rp_free _ _ H _ Hd) as [_ Hdo].
  assert (lrep ls (spec_splice a s)) as HL'.
  { constructor.
    - eexists. split; [exact HR'|]. intros [l|e]; cbn; [|rewrite lookup_insert_ne, lookup_delete_ne by done; by rewrite HL].
      rewrite Ga, Gr. destruct (decide (l = Arb a)) as [->|]; [rewrite !lookup_insert_eq; unfold heads; cbn; by rewrite fmap_app|].
      rewrite !lookup_insert_ne by congruence. destruct (decide (l = Resched)) as [->|]; [by rewrite !lookup_delete_eq|].
      rewrite !lookup_delete_ne by congruence. by rewrite HL.
    - intros g l. rewrite splice_groups. cbn. rewrite Gr, Ga. pose proof (rp_on _ _ (rp_l _ _ H) g) as Hon. destruct (decide (g ∈ rs)) as [Hin|Hn].
      + rewrite <- Gr in Hin. apply Hon in Hin. case_decide as El; [subst l; split; [intros _|done]; apply elem_of_app; right; rewrite <- Gr; by apply Hon|].
        split; [congruence|]. case_decide; [set_solver|]. rewrite <- Hon. congruence.
      + rewrite Hon. case_decide as El; [subst l; rewrite Ga; set_solver|]. case_decide as El'; [subst l; rewrite Gr; set_solver|done].
    - intros l. rewrite splice_groups. case_decide; [|case_decide; [constructor|apply H]]. apply NoDup_app. split_and!; [apply H| |apply H].
      intros g H1%(rp_on _ _ (rp_l _ _ H)) H2%(rp_on _ _ (rp_l _ _ H)). congruence.
    - intros g. cbn. case_decide as Hin; [intros _; by apply (group_nonempty _ _ _ _ (rp_l _ _ H) Hin)|apply H].
    - intros g e q Hq Hon. cbn in Hq, Hon. case_decide as Hin; [done|]. pose proof (rp_unsched _ _ (rp_l _ _ H) _ _ _ Hq Hon) as Hn.
      destruct (Hag (LElem e)) as [-> _]; [|done]. intros [?|Hx]%elem_of_cons; [done|]. apply (next_unlinked _ _ _ _ HR HL Hn).
      apply elem_of_app in Hx as [Hx|Hx]; [exists (LHead (Arb a)), (heads s gs)|exists (LHead Resched), (heads s rs)]; rewrite HL; cbn; rewrite ?Ha, ?Hr;
        (split; [done|by right]).
    - cbn. by intros x ?%not_elem_of_nil. }
  split_and!; [|split; try done; cbn; by rewrite lookup_insert_ne, lookup_delete_eq|cbn; by rewrite lookup_insert_eq].
  destruct H as [H1 H2 H3 H4 H5 H6 H7 H8 H9]. constructor; try done.
  - intros g. apply (group_ok_frame m); [done..|apply H1].
  - cbn. by intros x ?%not_elem_of_nil.
Qed.

Definition legal_dispatch (a per_group : positive) (cbs : list callback) (s : spec) : bool :=
  bool_decide (is_Some (order s !! Arb a)) &&
  match spec_begin a (set_held [Dummy] (set_order Resched [] s)) with Some (g, e, s) => legal_loop a per_group cbs g 1 e s | None => true end.

Lemma dispatch_ok a per_group cbs m s : rep m s -> idle s -> legal_dispatch a per_group cbs s = true ->
  exists r r', ucs_arbiter_dispatch a per_group cbs m = Some r /\ spec_dispatch a per_group cbs s = Some r' /\
    same_outcome (fun m s => rep m s /\ idle s) r r'.
Proof.
  intros H Hi Hl. apply andb_true_iff in Hl as [Ha%bool_decide_eq_true Hl].
  unfold ucs_arbiter_dispatch, spec_dispatch. rewrite (arb_is_empty a m s) by (apply H || done).
  destruct (groups_of (Arb a) s) as [|g gs] eqn:Eg; [rewrite bool_decide_true by done; by eexists _, _|]. rewrite bool_decide_false by done. cbn [negb].
  destruct (setup_ok a m s H Hi Ha) as [Hb Hs]. unfold ucs_arbiter_dispatch_nonempty. set (s0 := set_held [Dummy] (set_order Resched [] s)) in *.
  assert (groups_of (Arb a) s0 = g :: gs) as Eg0.
  { change (groups_of (Arb a) s0) with (groups_of (Arb a) (set_order Resched [] s)). by rewrite groups_insert, decide_False. }
  assert (ucs_arbiter_is_empty a (set_links (ucs_list_head_init (LHead Resched) (links m)) m) = false) as He.
  { pose proof (arb_is_empty a _ s0 (rp_l _ _ (bt_rep _ _ Hb)) (st_arb _ _ Hs)) as He. rewrite Eg0, bool_decide_false in He by done.
    rewrite <- He. unfold ucs_arbiter_is_empty, ucs_list_is_empty. cbn. by rewrite (fn_lookup_insert_ne _ (LElem Dummy)) by done. }
  rewrite He. cbn [negb assert mbind option_bind].
  destruct (begin_ok a _ s0 g gs Hb Hs Eg0) as (e & m1 & s1 & E1 & E2 & Hr). rewrite E1, E2. rewrite E2 in Hl. cbn [mbind option_bind].
  destruct (loop_ok a per_group cbs g 1 e [] m1 s1 Hr ltac:(lia) Hl) as (r & r' & E3 & E4 & Hsame). rewrite E3, E4. cbn [mbind option_bind].
  destruct r as [m2 log|log], r' as [s2 log'|log']; try done; cbn in Hsame.
  - destruct Hsame as (-> & Hb2 & Hs2). destruct (splice_ok a m2 s2 Hb2 Hs2) as (ls & E5 & H5 & Hi5 & _). unfold on_links. rewrite E5. cbn [mbind option_bind].
    by eexists _, _.
  - by eexists _, _.
Qed.

End ArbiterDispatch.
