(* ===== verification/ArbiterProperties.v ===== *)
(** Properties of the arbiter of [ucs/datastruct/arbiter.c]: programs that use
    arbiters, groups and elements as the interface allows never fail an assertion and
    see what the specification of [Arbiter] says; a dispatch serves the groups in turn
    and ends. *)

From stdpp Require Import functions gmap.
From S2P Require Import Prelude.
From S2P Require Import DList.
From S2P Require Import Arbiter.
From S2P Require Import ArbiterDispatch.

Module ArbiterProperties.
Import DList Arbiter ArbiterDispatch.

(** ** Programs *)

(** The calls of a program.  A dispatch has the calls of its callback. *)
Inductive step :=
| InitArbiter (a : positive)
| CleanupArbiter (a : positive)
| InitGroup (g : positive)
| CleanupGroup (g : positive)
| InitElem (e : positive)
| Op (o : op)
| Dispatch (a per_group : positive) (cbs : list callback).

(** The elements that the step dispatches, and the new memory. *)
Definition do_step (t : step) (m : amem) : option (list elem * amem) :=
  match t with
  | InitArbiter a => Some ([], ucs_arbiter_init a m)
  | CleanupArbiter a => _ ← ucs_arbiter_cleanup a m; Some ([], m)
  | InitGroup g => Some ([], ucs_arbiter_group_init g m)
  | CleanupGroup g => _ ← ucs_arbiter_group_cleanup g m; Some ([], m)
  | InitElem e => Some ([], ucs_arbiter_elem_init (Elem e) m)
  | Op o => m ← do_op o m; Some ([], m)
  | Dispatch a per_group cbs =>
      r ← ucs_arbiter_dispatch a per_group cbs m;
      match r with Finished m log => Some (log, m) | Unfinished _ => None end
  end.

Fixpoint run (ts : list step) (m : amem) : option (list elem * amem) :=
  match ts with
  | [] => Some ([], m)
  | t :: ts => '(log, m) ← do_step t m; '(log', m) ← run ts m; Some (log ++ log', m)
  end.

Definition spec_step (t : step) (s : spec) : option (list elem * spec) :=
  match t with
  | InitArbiter a => Some ([], set_order (Arb a) [] s)
  | CleanupArbiter a => Some ([], Spec (queue s) (owner s) (delete (Arb a) (order s)) (on s) (sguard s) (sarb s) (held s))
  | InitGroup _ | CleanupGroup _ | InitElem _ => Some ([], s)
  | Op o => Some ([], spec_op o s)
  | Dispatch a per_group cbs =>
      r ← spec_dispatch a per_group cbs s;
      match r with SpecFinished s log => Some (log, s) | SpecUnfinished _ => None end
  end.

Fixpoint spec_run (ts : list step) (s : spec) : option (list elem * spec) :=
  match ts with
  | [] => Some ([], s)
  | t :: ts => '(log, s) ← spec_step t s; '(log', s) ← spec_run ts s; Some (log ++ log', s)
  end.

(** Objects are initialised when they are not in use, and cleaned up when they are
    empty; a dispatch gets a result for every call of its callback. *)
Definition legal_step (t : step) (s : spec) : bool :=
  match t with
  | InitArbiter a => bool_decide (order s !! Arb a = None)
  | CleanupArbiter a => bool_decide (order s !! Arb a = Some [])
  | InitGroup g | CleanupGroup g => bool_decide (queue s g = [])
  | InitElem e => bool_decide (owner s (Elem e) = None)
  | Op o => legal o s
  | Dispatch a per_group cbs =>
      legal_dispatch a per_group cbs s && match spec_dispatch a per_group cbs s with Some (SpecFinished _ _) => true | _ => false end
  end.

Fixpoint legal_run (ts : list step) (s : spec) : bool :=
  match ts with
  | [] => true
  | t :: ts => legal_step t s && match spec_step t s with Some (_, s) => legal_run ts s | None => false end
  end.

(** The memory at the start. *)
Definition mem0 : amem := AMem (Mem (fun _ => None) (fun _ => None)) (fun _ => None) (fun _ => None) (fun _ => None) (fun _ => 0) (fun _ => None).
Definition spec0 : spec := Spec (fun _ => []) (fun _ => None) ∅ (fun _ => None) (fun _ => 0) (fun _ => None) [].

Lemma rep0 : rep mem0 spec0.
Proof.
  constructor; try done; cbn; try (by intros ? ?%not_elem_of_nil); [by constructor|by intros; rewrite elem_of_nil|].
  constructor; try done; cbn; try (by intros ? ?%not_elem_of_nil).
  - exists ∅. split; [by split; intros *; rewrite lookup_empty|]. intros [l|e]; cbn; by rewrite !lookup_empty.
  - intros g l. unfold groups_of. cbn. by rewrite lookup_empty, elem_of_nil.
  - intros l. unfold groups_of. cbn. rewrite lookup_empty. constructor.
Qed.

(** *** Steps *)

Lemma op_idle m s o : rep m s -> idle s -> idle (spec_op o s).
Proof.
  intros H [Hh Hd Hr Hg]. assert (forall g, on s g <> Some Resched) as Hon.
  { intros g Hon%(rp_on _ _ (rp_l _ _ H)). unfold groups_of in Hon. rewrite Hr in Hon. by apply not_elem_of_nil in Hon. }
  assert (forall g s0, order s0 = order s -> on s0 = on s -> order (spec_remove g s0) !! Resched = None) as Hrem.
  { intros g s0 E1 E2. unfold spec_remove. rewrite E2. destruct (on s g) as [l|] eqn:El; [|by rewrite E1]. cbn.
    rewrite lookup_insert_ne, E1; [done|]. intros ->. by apply (Hon g). }
  split; [| | |intros g; rewrite (proj1 (op_frame o s)); apply Hg].
  - destruct o as [g e|g e|a g|a g|g results]; cbn.
    + destruct (owner s (Elem e)); cbn; by rewrite ?Hh.
    + destruct (owner s (Elem e)); cbn; by rewrite ?Hh.
    + case_decide; [done|]. by destruct (on s g).
    + case_decide; [done|]. destruct (on s g); [|done]. cbn. rewrite <- Hh. apply spec_remove_fields.
    + destruct (disown_fields (purge_gone (queue s g) results) s) as (_ & _ & _ & _ & _ & E & _). unfold purge_gone in E.
      case_decide; [|by rewrite E]. rewrite <- Hh, <- E. apply spec_remove_fields.
  - destruct o as [g e|g e|a g|a g|g results]; cbn.
    + by destruct (owner s (Elem e)).
    + by destruct (owner s (Elem e)).
    + case_decide; [done|]. by destruct (on s g).
    + case_decide; [done|]. destruct (on s g); [|done]. cbn. by rewrite (proj1 (proj2 (spec_remove_fields g s))).
    + destruct (disown_fields (purge_gone (queue s g) results) s) as (_ & _ & _ & _ & _ & _ & E). specialize (E Dummy). unfold purge_gone in E.
      rewrite Hd in E. assert (owner (foldr (fun e => set_owner e None) s (filter (fun p => p.2 = true) (zip (queue s g) results)).*1) Dummy = None) as E' by (rewrite E; by case_decide). clear E.
      case_decide; [|done]. by rewrite (proj1 (proj2 (spec_remove_fields g _))).
  - destruct o as [g e|g e|a g|a g|g results]; cbn.
    + by destruct (owner s (Elem e)).
    + by destruct (owner s (Elem e)).
    + case_decide; [done|]. destruct (on s g); [done|]. cbn. by rewrite lookup_insert_ne.
    + case_decide; [done|]. destruct (on s g); [|done]. by apply Hrem.
    + destruct (disown_fields (purge_gone (queue s g) results) s) as (_ & E1 & E2 & _). unfold purge_gone in *.
      case_decide; [by apply Hrem|by rewrite E1].
Qed.

Lemma arb_init_ok a m s : rep m s -> idle s -> order s !! Arb a = None ->
  rep (ucs_arbiter_init a m) (set_order (Arb a) [] s) /\ idle (set_order (Arb a) [] s).
Proof.
  intros H Hi Ha. destruct (rp_lists _ _ (rp_l _ _ H)) as (R & HR & HL).
  split; [|destruct Hi; split; try done; cbn; by rewrite lookup_insert_ne].
  assert (forall l, groups_of l (set_order (Arb a) [] s) = groups_of l s) as Eg.
  { intros l. rewrite groups_insert. case_decide; [subst|done]. unfold groups_of. by rewrite Ha. }
  assert (lrep (links (ucs_arbiter_init a m)) (set_order (Arb a) [] s)) as HL'.
  { constructor.
    - exists (<[LHead (Arb a) := []]> R). split; [by apply head_init_ok; [|by apply (linked_head s)]|]. intros x. rewrite lists_insert.
      case_decide; [subst; by rewrite lookup_insert_eq|by rewrite lookup_insert_ne].
    - intros g l. rewrite Eg. apply H.
    - intros l. rewrite Eg. apply H.
    - apply H.
    - intros g e q Hq Hon. cbn. rewrite fn_lookup_insert_ne by done. by eapply (rp_unsched _ _ (rp_l _ _ H)).
    - intros x Hx. cbn. rewrite fn_lookup_insert_ne by done. by apply (rp_held _ _ (rp_l _ _ H)). }
  apply (rep_links m s); try done. apply H.
Qed.

Lemma cleanup_ok a m s : rep m s -> idle s -> order s !! Arb a = Some [] ->
  let s' := Spec (queue s) (owner s) (delete (Arb a) (order s)) (on s) (sguard s) (sarb s) (held s) in
  ucs_arbiter_cleanup a m = Some tt /\ rep m s' /\ idle s'.
Proof.
  intros H Hi Ha s'. destruct (rp_lists _ _ (rp_l _ _ H)) as (R & HR & HL). split_and!.
  - unfold ucs_arbiter_cleanup. rewrite (arb_is_empty a m s) by (apply H || done). unfold groups_of. by rewrite Ha.
  - assert (forall l, groups_of l s' = groups_of l s) as Eg.
    { intros l. unfold groups_of. cbn. destruct (decide (l = Arb a)) as [->|]; [by rewrite lookup_delete_eq, Ha|by rewrite lookup_delete_ne]. }
    assert (lrep (links m) s') as HL'.
    { constructor; try (by apply H); [|intros g l; rewrite Eg; apply H|intros l; rewrite Eg; apply H].
      exists (delete (LHead (Arb a)) R). split; [by apply lists_delete|]. intros [l|e]; cbn; [|rewrite lookup_delete_ne by done; by rewrite HL].
      destruct (decide (l = Arb a)) as [->|]; [by rewrite !lookup_delete_eq|]. rewrite !lookup_delete_ne by congruence. by rewrite HL. }
    by destruct H; constructor.
  - destruct Hi; split; try done. cbn. by rewrite lookup_delete_ne.
Qed.

Lemma arb_step_ok t m s : rep m s -> idle s -> legal_step t s = true ->
  exists log m' s', do_step t m = Some (log, m') /\ spec_step t s = Some (log, s') /\ rep m' s' /\ idle s'.
Proof.
  intros H Hi Hl. destruct t as [a|a|g|g|e|o|a per_group cbs]; cbn in Hl.
  - apply bool_decide_eq_true in Hl. destruct (arb_init_ok a m s H Hi Hl). by eexists [], _, _.
  - apply bool_decide_eq_true in Hl. destruct (cleanup_ok a m s H Hi Hl) as (E & H' & Hi'). cbn. rewrite E. by eexists [], _, _.
  - apply bool_decide_eq_true in Hl. exists [], (ucs_arbiter_group_init g m), s. split_and!; try done. pose proof (rp_queue _ _ H g) as Hq.
    rewrite Hl in Hq. cbn in Hq. pose proof (rp_guard _ _ H) as Hgd. pose proof (id_guard _ Hi g) as Hg0. destruct H as [H1 H2 H3 H4 H5 H6 H7 H8 H9].
    constructor; try done.
    + intros g'. apply (group_ok_frame m); [|done|apply H1]. cbn. destruct (decide (g' = g)) as [->|]; [by rewrite fn_lookup_insert|by rewrite fn_lookup_insert_ne].
    + intros g'. cbn. destruct (decide (g' = g)) as [->|]; [by rewrite fn_lookup_insert|by rewrite fn_lookup_insert_ne].
  - apply bool_decide_eq_true in Hl. exists [], m, s. split_and!; try done. cbn. unfold ucs_arbiter_group_cleanup, UCS_ARBITER_GROUP_GUARD_CHECK.
    rewrite (rp_guard _ _ H), (id_guard _ Hi). cbn. unfold ucs_arbiter_group_is_empty. pose proof (rp_queue _ _ H g) as Hq. rewrite Hl in Hq. cbn in Hq.
    by rewrite Hq.
  - apply bool_decide_eq_true in Hl. exists [], (ucs_arbiter_elem_init (Elem e) m), s. split_and!; try done. destruct H as [H1 H2 H3 H4 H5 H6 H7 H8 H9].
    constructor; try done.
    + intros g'. by apply (group_ok_frame m).
    + intros x Hx. cbn. destruct (decide (x = Elem e)) as [->|]; [by rewrite fn_lookup_insert|]. rewrite fn_lookup_insert_ne by done. by apply H4.
  - destruct (arb_op_ok m s o H Hl) as (m' & E & H'). pose proof (op_idle m s o H Hi). cbn. rewrite E. by eexists [], _, _.
  - apply andb_true_iff in Hl as [Hl Hf]. destruct (dispatch_ok a per_group cbs m s H Hi Hl) as (r & r' & E1 & E2 & Hs). cbn. rewrite E1, E2 in *. cbn.
    destruct r as [m' log|], r' as [s' log'|]; try done. destruct Hs as (-> & H' & Hi'). by eexists _, _, _.
Qed.

Lemma arb_run_ok ts : forall m s, rep m s -> idle s -> legal_run ts s = true ->
  exists log m' s', run ts m = Some (log, m') /\ spec_run ts s = Some (log, s') /\ rep m' s' /\ idle s'.
Proof.
  induction ts as [|t ts IH]; intros m s H Hi Hl; cbn in *; [by eexists [], _, _|]. apply andb_true_iff in Hl as [Hl Hl'].
  destruct (arb_step_ok t m s H Hi Hl) as (log & m1 & s1 & E1 & E2 & H1 & Hi1). rewrite E1, E2. rewrite E2 in Hl'. cbn.
  destruct (IH m1 s1 H1 Hi1 Hl') as (log' & m2 & s2 & -> & -> & H2 & Hi2). cbn. by eexists _, _, _.
Qed.

(** ** What a program sees *)

Record observes (m : amem) (s : spec) : Prop := Observes {
  ob_empty : forall g, ucs_arbiter_group_is_empty g m = bool_decide (queue s g = []);
  ob_scheduled : forall g, ucs_arbiter_group_is_scheduled g m = Some (bool_decide (on s g <> None));
  ob_num : forall g fuel, (length (queue s g) <= fuel)%nat -> ucs_arbiter_group_num_elems fuel g m = Some (length (queue s g));
  ob_elem : forall e, ucs_arbiter_elem_is_scheduled (Elem e) m = bool_decide (owner s (Elem e) <> None);
  ob_arbiter : forall a gs, order s !! Arb a = Some gs ->
    ucs_arbiter_is_empty a m = bool_decide (gs = []) /\
    list_walk (S (length gs)) (LHead (Arb a)) (next (links m) (LHead (Arb a))) (links m) = Some (heads s gs)
}.

Lemma num_loop_ok m t xs : forall a n fuel, echain m a xs t -> t ∉ xs -> (length xs < fuel)%nat -> num_elems_loop fuel t a n m = Some (n + S (length xs))%nat.
Proof.
  induction xs as [|x xs IH]; intros a n fuel Hc Ht Hf; (destruct fuel as [|fuel]; [cbn in Hf; lia|]); cbn [num_elems_loop].
  - cbn in Hc. rewrite Hc. cbn. rewrite decide_True by done. f_equal. lia.
  - destruct Hc as [Hn Hc]. rewrite Hn. cbn [mbind option_bind]. rewrite decide_False by set_solver. cbn in Hf. rewrite IH by (done || set_solver || lia).
    cbn. f_equal. lia.
Qed.

Lemma num_elems_ok m g q fuel : group_ok m g q -> NoDup q -> (length q <= fuel)%nat -> ucs_arbiter_group_num_elems fuel g m = Some (length q).
Proof.
  intros Hg Hnd Hf. unfold ucs_arbiter_group_num_elems. destruct q as [|e q]; [cbn in Hg; by rewrite Hg|]. destruct Hg as [Ht Hc]. rewrite Ht.
  destruct (decide (q = [])) as [->|Hne]; [cbn in Hf |- *; by rewrite (num_loop_ok m e []) by (done || cbn; lia || set_solver)|]. destruct (exists_last Hne) as (q' & t & ->). rewrite last_snoc in *. cbn [default].
  apply echain_app in Hc as [Hc1 Hc2]. cbn in Hf |- *. rewrite length_app in *. cbn in Hf |- *. rewrite (num_loop_ok m t (e :: q')).
  - cbn. f_equal. lia.
  - done.
  - rewrite app_comm_cons in Hnd. apply NoDup_app in Hnd as (_ & Hnd & _). intros Hin. apply (Hnd t Hin). left.
  - cbn. lia.
Qed.

Lemma rep_observes m s : rep m s -> observes m s.
Proof.
  intros H. constructor.
  - intros g. pose proof (rp_queue _ _ H g) as Hq. apply bool_decide_ext. destruct (queue s g); [done|]. destruct Hq as [-> _]. done.
  - intros g. pose proof (rp_queue _ _ H g) as Hq. unfold ucs_arbiter_group_is_scheduled. destruct (queue s g) as [|e q] eqn:Eq.
    + cbn in Hq. rewrite Hq, bool_decide_false; [done|]. intros Hon. by apply (rp_nonempty _ _ (rp_l _ _ H) g).
    + destruct (group_ok_tail _ _ _ _ Hq) as (t & -> & Ht & _). rewrite Ht. cbn. by rewrite (head_scheduled m s g e q) by (done || apply H).
  - intros g fuel Hf. apply num_elems_ok; [apply H|apply H|done].
  - intros e. unfold ucs_arbiter_elem_is_scheduled. by rewrite (rp_group _ _ H) by (by left).
  - intros a gs Ha. split.
    + rewrite (arb_is_empty a m s) by (apply H || done). unfold groups_of. by rewrite Ha.
    + destruct (rp_lists _ _ (rp_l _ _ H)) as (R & HR & HL). assert (R !! LHead (Arb a) = Some (heads s gs)) as HRl by (rewrite HL; cbn; by rewrite Ha).
      destruct (lo_ring _ _ HR _ _ HRl) as [Hs [Hn _]%NoDup_cons]. apply walk_ok; [done|done|]. unfold heads. rewrite length_fmap. lia.
Qed.

(** C6: A program that uses arbiters, groups and elements as the interface allows - it
    initialises objects that are not in use, cleans up empty ones, does not change the
    head of a group while it is dispatched, deschedules a group from the arbiter that
    it was scheduled on, and a callback that keeps its element does not push it - fails
    no assertion and follows no [NULL] pointer.  It dispatches the elements that the
    specification says, in its order, and all that the interface shows of the memory
    (which elements and groups are scheduled, how many elements a group has, the groups
    of each arbiter in their order) is that of the specification. *)
Theorem arbiter_refines ts : legal_run ts spec0 = true ->
  exists log m s, run ts mem0 = Some (log, m) /\ spec_run ts spec0 = Some (log, s) /\ observes m s.
Proof.
  intros Hl. destruct (arb_run_ok ts mem0 spec0 rep0) as (log & m & s & E1 & E2 & H & _); [by constructor|done|].
  exists log, m, s. split_and!; [done|done|by apply rep_observes].
Qed.

(** A group that schedules itself on another arbiter in its callback, one that pushes
    more work, one that is served again, and a purge. *)
Definition program1 : list step :=
  [InitArbiter 1; InitArbiter 2; InitGroup 1; InitGroup 2; InitElem 1;
   Op (PushElem 1 1); Op (PushElem 1 2); Op (PushElem 2 3); Op (PushElem 2 4); Op (PushHeadElem 2 5);
   Op (Schedule 1 1); Op (Schedule 1 2); Op (PushElem 3 6); Op (Schedule 1 3);
   Dispatch 1 2
     [([Schedule 2 1], UCS_ARBITER_CB_RESULT_DESCHED_GROUP);
      ([], UCS_ARBITER_CB_RESULT_REMOVE_ELEM); ([PushElem 2 5; PushElem 2 7], UCS_ARBITER_CB_RESULT_REMOVE_ELEM);
      ([PushElem 3 8], UCS_ARBITER_CB_RESULT_RESCHED_GROUP);
      ([], UCS_ARBITER_CB_RESULT_NEXT_GROUP); ([Desched 2 1], UCS_ARBITER_CB_RESULT_STOP)];
   Op (Purge 2 [true; false; true]); Op (Schedule 2 2); Op (Desched 1 3); Op (Purge 3 [true; true])]%positive.

Lemma arbiter_refines_witness : legal_run program1 spec0 = true /\
  exists log m s, run program1 mem0 = Some (log, m) /\ spec_run program1 spec0 = Some (log, s) /\ observes m s.
Proof. split; [by vm_compute|]. apply arbiter_refines. by vm_compute. Defined.

(** ** Service in turn *)

(** Callbacks that at most push behind and schedule groups, and do not stop. *)
Definition gentle (cb : callback) : bool :=
  forallb (fun o => match o with PushElem _ _ | Schedule _ _ => true | _ => false end) cb.1 &&
  match cb.2 with UCS_ARBITER_CB_RESULT_STOP => false | _ => true end.

(** The groups [P] are the next ones of the arbiter. *)
Definition pending (a : positive) (P : list positive) (s : spec) : Prop := exists N, groups_of (Arb a) s = P ++ N.

Lemma pending_append a P l g s : pending a P s -> pending a P (spec_append l g s).
Proof.
  intros [N E]. unfold spec_append, pending. change (groups_of (Arb a) (set_on g (Some l) ?s)) with (groups_of (Arb a) s). rewrite groups_insert.
  case_decide; [subst; exists (N ++ [g]); by rewrite E, (assoc_L (++))|by exists N].
Qed.

Lemma pending_remove a P g s : pending a P s -> g ∉ P -> pending a P (spec_remove g s).
Proof.
  intros [N E] Hg. unfold spec_remove. destruct (on s g) as [l|]; [|by exists N].
  unfold pending. change (groups_of (Arb a) (set_on g None ?s)) with (groups_of (Arb a) s). rewrite groups_insert.
  case_decide; [subst|by exists N]. rewrite E, filter_app, filter_all; [by eexists|]. by intros x Hx ->.
Qed.

Lemma pending_order a P s s' : order s' = order s -> pending a P s -> pending a P s'.
Proof. intros E [N HN]. exists N. rewrite <- HN. unfold groups_of. by rewrite E. Qed.

Lemma gentle_ops_frame a P os : forall s, forallb (fun o => match o with PushElem _ _ | Schedule _ _ => true | _ => false end) os = true -> pending a P s ->
  pending a P (spec_ops os s) /\ forall g, exists new, queue (spec_ops os s) g = queue s g ++ new.
Proof.
  induction os as [|o os IH]; intros s Hos HP; [split; [done|]; intros g; exists []; by rewrite app_nil_r|].
  cbn [forallb] in Hos. apply andb_true_iff in Hos as [Ho Hos].
  change (spec_ops (o :: os) s) with (spec_ops os (spec_op o s)).
  assert (pending a P (spec_op o s) /\ forall g, exists new, queue (spec_op o s) g = queue s g ++ new) as [HP1 Hq1].
  { assert (forall g, exists new, queue s g = queue s g ++ new) as Hid by (intros g; exists []; by rewrite app_nil_r).
    destruct o as [g e|g e|b g|b g|g results]; try done; cbn.
    - destruct (owner s (Elem e)); [done|]. split; [by apply (pending_order a P s)|]. intros g'. cbn.
      destruct (decide (g' = g)) as [->|]; [rewrite fn_lookup_insert; by eexists|by rewrite fn_lookup_insert_ne].
    - destruct (decide (queue s g = [])); [done|]. destruct (on s g); [done|]. split; [|done]. by apply pending_append. }
  destruct (IH (spec_op o s) Hos HP1) as [HP2 Hq2]. split; [done|]. intros g. destruct (Hq1 g) as [n1 E1], (Hq2 g) as [n2 E2].
  exists (n1 ++ n2). by rewrite E2, E1, (assoc_L (++)).
Qed.

Lemma gentle_keep a P g e result s : g ∉ P -> pending a P s -> result <> UCS_ARBITER_CB_RESULT_STOP ->
  (spec_keep a g e result s).1 = NextGroup /\ pending a P (spec_keep a g e result s).2 /\
  forall g', g' <> g -> queue (spec_keep a g e result s).2 g' = queue s g'.
Proof.
  intros Hg HP Hres. unfold spec_keep.
  set (s1 := set_held [Dummy] (set_owner e (Some g) (set_owner Dummy None (set_queue g (e :: List.tl (queue s g)) s)))).
  assert (pending a P s1) as HP1 by (by apply (pending_order a P s)). pose proof (pending_remove a P g s1 HP1 Hg) as HP2.
  assert (forall g', g' <> g -> queue (spec_remove g s1) g' = queue s g') as Hq.
  { intros g' Hne. rewrite (proj1 (spec_remove_fields g s1)). cbn. by rewrite fn_lookup_insert_ne. }
  destruct result; try done; cbn [fst snd].
  - split_and!; [done|by apply pending_append|exact Hq].
  - split_and!; [done|by apply pending_append|exact Hq].
  - destruct (on s1 g); (split_and!; [done|by apply (pending_order a P s1)|]); intros g' Hne; cbn; by rewrite fn_lookup_insert_ne.
  - split_and!; [done|by apply pending_append|exact Hq].
Qed.

Lemma gentle_discard a P g per_group count s : g ∉ P -> pending a P s ->
  (spec_discard a g per_group count s).1 <> Stop /\ pending a P (spec_discard a g per_group count s).2 /\
  (forall g', g' <> g -> queue (spec_discard a g per_group count s).2 g' = queue s g') /\
  forall e, (spec_discard a g per_group count s).1 = NextElem e ->
    head (List.tl (queue s g)) = Some e /\ queue (spec_discard a g per_group count s).2 g = List.tl (queue s g) /\ (count < per_group)%positive.
Proof.
  intros Hg HP. unfold spec_discard. destruct (List.tl (queue s g)) as [|e q]; cbn [fst snd].
  - match goal with |- context [spec_remove g ?s0] => set (s1 := s0) end. assert (pending a P s1) as HP1 by (by apply (pending_order a P s)).
    split_and!; [done|by apply (pending_order a P (spec_remove g s1)), pending_remove| |done]. intros g' Hne. cbn.
    rewrite (proj1 (spec_remove_fields g s1)). cbn. by rewrite fn_lookup_insert_ne.
  - match goal with |- context [on ?s0 g] => set (s1 := s0) end. assert (pending a P s1) as HP1 by (by apply (pending_order a P s)).
    assert (forall g', g' <> g -> queue s1 g' = queue s g') as Hq by (intros g' Hne; cbn; by rewrite fn_lookup_insert_ne).
    destruct (on s1 g); [done|]. case_bool_decide; [split_and!; [done|by apply pending_append|exact Hq|done]|].
    split_and!; [done..|]. intros e' [= <-]. cbn. rewrite fn_lookup_insert. split_and!; [done|done|lia].
Qed.

(** A turn of a group that is not among [P]. *)
Lemma gentle_elem a P per_group g count e q cb s : gentle cb = true -> g ∉ P -> pending a P s -> queue s g = e :: q ->
  let t := (spec_elem a per_group g count e cb s).1 in let s' := (spec_elem a per_group g count e cb s).2 in
  t <> Stop /\ pending a P s' /\ (forall g', g' <> g -> exists new, queue s' g' = queue s g' ++ new) /\
  forall e', t = NextElem e' -> (exists q' new, queue s' g = e' :: q' /\ e :: e' :: q' = queue s g ++ new) /\ (count < per_group)%positive.
Proof.
  intros Hgen Hg HP Hq t s'. apply andb_true_iff in Hgen as [Hops Hres].
  destruct (gentle_ops_frame a P cb.1 (spec_enter g e s) Hops) as [HP1 Hq1]; [by apply (pending_order a P s)|].
  set (s1 := spec_exit g (spec_ops cb.1 (spec_enter g e s))). assert (pending a P s1) as HP2 by (by apply (pending_order a P _ s1 eq_refl) in HP1).
  assert (forall g', g' <> g -> exists new, queue s1 g' = queue s g' ++ new) as Hq2.
  { intros g' Hne. destruct (Hq1 g') as [new E]. exists new. cbn. rewrite E. cbn. by rewrite fn_lookup_insert_ne. }
  destruct (Hq1 g) as [new Eg]. cbn in Eg. rewrite fn_lookup_insert, Hq in Eg. cbn in Eg.
  assert (queue s1 g = Dummy :: q ++ new) as Eg1 by done. unfold t, s', spec_elem. fold s1.
  assert (forall result, result <> UCS_ARBITER_CB_RESULT_STOP -> let r := spec_keep a g e result s1 in
    r.1 <> Stop /\ pending a P r.2 /\ (forall g', g' <> g -> exists new, queue r.2 g' = queue s g' ++ new) /\
    forall e', r.1 = NextElem e' -> (exists q' new, queue r.2 g = e' :: q' /\ e :: e' :: q' = queue s g ++ new) /\ (count < per_group)%positive) as Hkeep.
  { intros result Hne r. destruct (gentle_keep a P g e result s1 Hg HP2 Hne) as (E1 & E2 & E3). unfold r. rewrite E1. split_and!; [done|done| |done].
    intros g' Hne'. rewrite E3 by done. by apply Hq2. }
  destruct cb.2; try (by apply Hkeep).
  destruct (gentle_discard a P g per_group count s1 Hg HP2) as (E1 & E2 & E3 & E4). split_and!; [done|done| |].
  - intros g' Hne. rewrite E3 by done. by apply Hq2.
  - intros e' He'. destruct (E4 e' He') as (F1 & F2 & F3). split; [|done]. rewrite F2, Eg1 in *. cbn in *.
    destruct (q ++ new) as [|x q'] eqn:Ex; [done|]. injection F1 as ->. exists q', new. split; [done|]. by rewrite Hq, <- Ex.
Qed.

(** The turns of a dispatch: a group and the elements of it that are dispatched one
    after the other.  The elements come from the front of its queue, to which elements
    may have been added. *)
Record turns (per_group : positive) (P : list positive) (Q : positive -> list elem) (ts : list (positive * list elem)) : Prop := Turns {
  tu_bound : Forall (fun t => (1 <= length t.2 <= Pos.to_nat per_group)%nat) ts;
  tu_order : take (length P) ts.*1 = P;
  tu_front : forall t, t ∈ take (length P) ts -> exists new, t.2 `prefix_of` Q t.1 ++ new
}.

Lemma turns_cons per_group P Q Q' g es ts : turns per_group P Q' ts -> (1 <= length es <= Pos.to_nat per_group)%nat -> (exists new, es `prefix_of` Q g ++ new) ->
  (forall g', g' ∈ P -> exists new, Q' g' = Q g' ++ new) -> turns per_group (g :: P) Q ((g, es) :: ts).
Proof.
  intros [T1 T2 T3] Hb Hes HQ. constructor; cbn.
  - by constructor.
  - by rewrite T2.
  - intros t [->|Ht]%elem_of_cons; [done|]. destruct (T3 t Ht) as [n1 Hn]. assert (t.1 ∈ P) as Hin.
    { rewrite <- T2, <- fmap_take. apply list_elem_of_fmap. by exists t. }
    destruct (HQ _ Hin) as [n2 En]. exists (n2 ++ n1). by rewrite (assoc_L (++)), <- En.
Qed.

Lemma turns_extra per_group Q g es ts : Forall (fun t => (1 <= length t.2 <= Pos.to_nat per_group)%nat) ts -> (1 <= length es <= Pos.to_nat per_group)%nat ->
  turns per_group [] Q ((g, es) :: ts).
Proof. intros H1 H2. constructor; cbn; [by constructor|done|]. by intros t ?%not_elem_of_nil. Qed.

Lemma gentle_loop a per_group cbs : forallb gentle cbs = true -> forall g count e q log s P s' log', NoDup (g :: P) -> pending a P s -> queue s g = e :: q ->
  (count <= per_group)%positive -> spec_loop a per_group cbs g count e log s = Some (SpecFinished s' log') ->
  exists es ts, log' = log ++ es ++ concat ts.*2 /\ (1 <= length es)%nat /\ (Pos.to_nat count + length es <= S (Pos.to_nat per_group))%nat /\
    (exists new, es `prefix_of` queue s g ++ new) /\ turns per_group P (queue s) ts.
Proof.
  induction cbs as [|cb cbs IH]; intros Hgen g count e q log s P s' log' Hnd HP Hq Hc Hl; cbn in *; [done|].
  apply andb_true_iff in Hgen as [Hcb Hcbs]. specialize (IH Hcbs). pose proof Hnd as [Hg HndP]%NoDup_cons.
  destruct (gentle_elem a P per_group g count e q cb s Hcb Hg HP Hq) as (Hstop & HP1 & Hq1 & Hn).
  destruct (spec_elem a per_group g count e cb s) as [t s1]. cbn in *. destruct t as [e'| |]; [|clear Hn|done].
  - destruct (Hn e' eq_refl) as ((q' & new & Eq & Enew) & Hcount).
    destruct (IH g (count + 1)%positive e' q' (log ++ [e]) s1 P s' log' Hnd HP1 Eq ltac:(lia) Hl) as (es & ts & -> & B1 & B2 & (n1 & Hes) & HT).
    exists (e :: es), ts. split_and!; [by rewrite <- !(assoc_L (++))|cbn; lia|cbn; lia| |].
    + exists (new ++ n1). rewrite (assoc_L (++)), <- Enew, <- Eq. cbn. by apply prefix_cons.
    + destruct HT as [T1 T2 T3]. split; [done..|]. intros t Ht. destruct (T3 t Ht) as [n2 Hp]. assert (t.1 ∈ P) as Hin.
      { rewrite <- T2, <- fmap_take. apply list_elem_of_fmap. by exists t. }
      destruct (Hq1 t.1) as [n3 En]; [by intros Heq; rewrite Heq in Hin|]. exists (n3 ++ n2). by rewrite (assoc_L (++)), <- En.
  - destruct HP1 as [N EN]. unfold spec_begin in Hl. rewrite EN in Hl. destruct (P ++ N) as [|g1 gs] eqn:Egs.
    { apply app_eq_nil in Egs as [-> ->]. injection Hl as <- <-. exists [e], []. split_and!; [done|cbn; lia|cbn; lia|exists []|]; [rewrite Hq; by apply prefix_cons, prefix_nil|].
      split; [constructor|done|]. by intros t ?%not_elem_of_nil. }
    destruct (queue s1 g1) as [|e1 q1] eqn:Eq1; [done|]. cbn in Hl. set (s2 := set_on g1 None (set_order (Arb a) gs s1)) in *.
    assert (groups_of (Arb a) s2 = gs) as Eg2.
    { change (groups_of (Arb a) s2) with (groups_of (Arb a) (set_order (Arb a) gs s1)). by rewrite groups_insert, decide_True. }
    assert (exists new, [e] `prefix_of` queue s g ++ new) as Hfront by (exists []; rewrite Hq; by apply prefix_cons, prefix_nil).
    destruct P as [|p P].
    + destruct (IH g1 1%positive e1 q1 (log ++ [e]) s2 [] s' log') as (es & ts & -> & B1 & B2 & _ & [T1 _ _]); [apply NoDup_singleton|by exists gs|done|lia|done|].
      exists [e], ((g1, es) :: ts). split_and!; [by rewrite <- !(assoc_L (++))|cbn; lia|cbn; lia|done|]. apply turns_extra; [done|lia].
    + cbn in Egs. injection Egs as <- <-. destruct (IH p 1%positive e1 q1 (log ++ [e]) s2 P s' log') as (es & ts & -> & B1 & B2 & (n1 & Hes) & HT);
        [done|by exists N|done|lia|done|].
      assert (forall g', g' ∈ p :: P -> exists new, queue s2 g' = queue s g' ++ new) as HQ by (intros g' Hin; apply Hq1; by intros ->).
      exists [e], ((p, es) :: ts). split_and!; [by rewrite <- !(assoc_L (++))|cbn; lia|cbn; lia|done|].
      apply (turns_cons _ _ _ (queue s2)); [done|lia| |intros g' Hin; apply HQ; by right]. destruct (HQ p) as [n2 En]; [left|].
      exists (n2 ++ n1). by rewrite (assoc_L (++)), <- En.
Qed.

(** C16: Fair service.  In every state that a program reaches, a dispatch with gentle
    callbacks serves the groups in turns: callbacks that at most push elements behind
    and schedule groups (no push at the head, no removal of a group from its arbiter,
    no purge), with any result but [UCS_ARBITER_CB_RESULT_STOP].  A turn dispatches at least one element of its
    group and at most [per_group].  The first turns are those of the groups that are
    scheduled at the beginning, each once and in their order, whatever is scheduled
    meanwhile, and each of these turns takes elements from the front of the queue of
    its group in their order. *)
Theorem arbiter_round_robin ts a per_group cbs log0 s gs : legal_run ts spec0 = true -> spec_run ts spec0 = Some (log0, s) ->
  legal_step (Dispatch a per_group cbs) s = true -> forallb gentle cbs = true -> order s !! Arb a = Some gs ->
  exists m log m' tns, run ts mem0 = Some (log0, m) /\ do_step (Dispatch a per_group cbs) m = Some (log, m') /\
    log = concat tns.*2 /\ turns per_group gs (queue s) tns.
Proof.
  intros Hl Hs Hld Hgen Ha. destruct (arb_run_ok ts mem0 spec0 rep0) as (log1 & m & s1 & E1 & E2 & H & Hi); [by constructor|done|].
  rewrite Hs in E2. injection E2 as <- <-. destruct (arb_step_ok _ m s H Hi Hld) as (log & m' & s' & E3 & E4 & _). exists m, log, m'.
  cbn in E4. unfold spec_dispatch, groups_of in E4. rewrite Ha in E4. cbn in E4. destruct gs as [|g gs].
  { injection E4 as <- _. exists []. split_and!; [done..|]. split; [constructor|done|]. by intros t ?%not_elem_of_nil. }
  unfold spec_begin, groups_of in E4. cbn in E4. rewrite lookup_insert_ne, Ha in E4 by done. cbn in E4.
  destruct (queue s g) as [|e q] eqn:Eq; [done|]. cbn in E4. match type of E4 with context [spec_loop a per_group cbs g 1 e [] ?s0] => set (s2 := s0) in * end.
  destruct (spec_loop a per_group cbs g 1 e [] s2) as [[s3 log3|]|] eqn:El; try done. cbn in E4. injection E4 as <- _.
  assert (groups_of (Arb a) s = g :: gs) as Egs by (unfold groups_of; by rewrite Ha).
  assert (NoDup (g :: gs)) as Hnd by (rewrite <- Egs; apply H).
  destruct (gentle_loop a per_group cbs Hgen g 1 e q [] s2 gs s3 log3 Hnd) as (es & tns & -> & B1 & B2 & Hes & HT); [|done|lia|done|].
  { exists []. unfold groups_of, s2. cbn. by rewrite lookup_insert_eq, app_nil_r. }
  exists ((g, es) :: tns). split_and!; [done..|]. apply (turns_cons _ _ _ (queue s)); [done|lia|done|]. intros g' _. exists []. by rewrite app_nil_r.
Qed.

(** Three groups, of which the first one has more elements than a turn takes, while a
    fourth one is scheduled by a callback. *)
Definition program2 : list step :=
  InitArbiter 1 :: (Op <$> [PushElem 1 1; PushElem 1 2; PushElem 1 3; PushElem 2 4; PushElem 3 5; PushElem 4 6; Schedule 1 1; Schedule 1 2; Schedule 1 3])%positive.

Definition callbacks2 : list callback :=
  [([Schedule 1 4], UCS_ARBITER_CB_RESULT_REMOVE_ELEM); ([PushElem 3 7], UCS_ARBITER_CB_RESULT_REMOVE_ELEM); ([], UCS_ARBITER_CB_RESULT_RESCHED_GROUP);
   ([], UCS_ARBITER_CB_RESULT_REMOVE_ELEM); ([], UCS_ARBITER_CB_RESULT_NEXT_GROUP); ([], UCS_ARBITER_CB_RESULT_DESCHED_GROUP);
   ([], UCS_ARBITER_CB_RESULT_REMOVE_ELEM); ([], UCS_ARBITER_CB_RESULT_RESCHED_GROUP)]%positive.

Definition state2 : spec := match spec_run program2 spec0 with Some (_, s) => s | None => spec0 end.

Lemma arbiter_round_robin_witness : exists m log m' tns, run program2 mem0 = Some ([], m) /\ do_step (Dispatch 1 2 callbacks2) m = Some (log, m') /\
  log = concat tns.*2 /\ turns 2 [1; 2; 3]%positive (queue state2) tns.
Proof. apply arbiter_round_robin; by vm_compute. Defined.

(** ** Termination *)

(** A callback that calls nothing, and does not ask for the next group while its own
    stays scheduled. *)
Definition quiet (cb : callback) : bool :=
  match cb with ([], UCS_ARBITER_CB_RESULT_NEXT_GROUP) => false | ([], _) => true | _ => false end.

(** The elements of the groups of an arbiter. *)
Definition waiting (a : positive) (s : spec) : nat := sum_list_with (fun g => length (queue s g)) (groups_of (Arb a) s).

Lemma waiting_ext a s s' : groups_of (Arb a) s' = groups_of (Arb a) s -> (forall g, g ∈ groups_of (Arb a) s -> queue s' g = queue s g) -> waiting a s' = waiting a s.
Proof.
  unfold waiting. intros ->. induction (groups_of (Arb a) s) as [|g gs IH]; intros Hq; cbn; [done|]. rewrite (Hq g) by left. f_equal. apply IH.
  intros g' Hg'. apply Hq. by right.
Qed.

Lemma waiting_append a g s : waiting a (spec_append (Arb a) g s) = (waiting a s + length (queue s g))%nat.
Proof.
  unfold waiting, spec_append. change (groups_of (Arb a) (set_on g ?l ?s)) with (groups_of (Arb a) s). rewrite groups_insert, decide_True, sum_list_with_app by done.
  cbn. lia.
Qed.

Lemma begin_waiting a s s' g e q : spec_begin a s = Some (g, e, s') -> queue s' g = e :: q -> (S (length q) + waiting a s' = waiting a s)%nat.
Proof.
  unfold spec_begin. intros E Hq. unfold waiting at 2. destruct (groups_of (Arb a) s) as [|g' gs]; [done|]. destruct (head (queue s g')); [|done].
  cbn in E. injection E as -> _ <-. cbn in Hq |- *. rewrite Hq. cbn. f_equal. f_equal. unfold waiting.
  change (groups_of (Arb a) (set_on g ?l ?s)) with (groups_of (Arb a) s). by rewrite groups_insert, decide_True.
Qed.

Lemma quiet_keep a g e result s : on s g = None -> g ∉ groups_of (Arb a) s -> result <> UCS_ARBITER_CB_RESULT_REMOVE_ELEM ->
  result <> UCS_ARBITER_CB_RESULT_NEXT_GROUP ->
  (spec_keep a g e result s).1 = Stop \/ ((spec_keep a g e result s).1 = NextGroup /\ waiting a (spec_keep a g e result s).2 = waiting a s).
Proof.
  intros Hon Hg R1 R2. assert (forall g', g' ∈ groups_of (Arb a) s -> <[g := e :: List.tl (queue s g)]> (queue s) g' = queue s g') as Hq.
  { intros g' Hin. by rewrite fn_lookup_insert_ne by (by intros ->). }
  destruct result; try done; unfold spec_keep, spec_remove; cbn; rewrite Hon; cbn; [right..|by left].
  - split; [done|]. by apply waiting_ext.
  - split; [done|]. apply waiting_ext; [|done]. unfold groups_of. cbn. by rewrite lookup_insert_ne.
Qed.

Lemma quiet_discard a g per_group count s : on s g = None -> g ∉ groups_of (Arb a) s ->
  let r := spec_discard a g per_group count s in
  (r.1 = NextGroup /\ waiting a r.2 = length (List.tl (queue s g)) + waiting a s)%nat \/
  (exists e, r.1 = NextElem e /\ queue r.2 g = List.tl (queue s g) /\ waiting a r.2 = waiting a s).
Proof.
  intros Hon Hg. assert (waiting a (spec_drop g s) = waiting a s) as Hw.
  { apply waiting_ext; [done|]. intros g' Hin. cbn. by rewrite fn_lookup_insert_ne by (by intros ->). }
  assert (queue (spec_drop g s) g = List.tl (queue s g)) as Hq by (cbn; by rewrite fn_lookup_insert).
  unfold spec_discard. fold (spec_drop g s). unfold spec_remove. change (on (spec_drop g s) g) with (on s g). rewrite Hon.
  destruct (List.tl (queue s g)) as [|e q] eqn:Eq; [by left|]. case_bool_decide; cbn [fst snd].
  - left. split; [done|]. rewrite waiting_append, Hq, Hw. lia.
  - right. exists e. done.
Qed.

Lemma quiet_elem a per_group g count e q cb m s : quiet cb = true -> ready a g e m s -> queue s g = e :: q ->
  let r := spec_elem a per_group g count e cb s in
  r.1 = Stop \/ (r.1 = NextGroup /\ waiting a r.2 <= length q + waiting a s)%nat \/
  (exists e', r.1 = NextElem e' /\ queue r.2 g = q /\ waiting a r.2 = waiting a s).
Proof.
  intros Hcb [[H _] _ _ Hon _] Hq. assert (g ∉ groups_of (Arb a) s) as Hg by (intros Hin%(rp_on _ _ (rp_l _ _ H)); congruence).
  destruct cb as [[|o os] result]; [|done]. unfold spec_elem. cbn [fst snd spec_ops fold_left]. set (s1 := spec_exit g (spec_enter g e s)).
  assert (waiting a s1 = waiting a s) as Hw.
  { apply waiting_ext; [done|]. intros g' Hin. cbn. by rewrite fn_lookup_insert_ne by (by intros ->). }
  assert (List.tl (queue s1 g) = q) as Hq1 by (cbn; by rewrite fn_lookup_insert, Hq).
  destruct result; try done.
  - destruct (quiet_discard a g per_group count s1 Hon Hg) as [[E1 E2]|(e' & E1 & E2 & E3)]; rewrite ?Hq1, ?Hw in *; right; [left; split; [done|lia]|right; eauto].
  - destruct (quiet_keep a g e UCS_ARBITER_CB_RESULT_DESCHED_GROUP s1 Hon Hg) as [?|[E1 E2]]; [done..|by left|]. right. left. rewrite E2, Hw. split; [done|lia].
  - destruct (quiet_keep a g e UCS_ARBITER_CB_RESULT_RESCHED_GROUP s1 Hon Hg) as [?|[E1 E2]]; [done..|by left|]. right. left. rewrite E2, Hw. split; [done|lia].
  - by left.
Qed.

Lemma quiet_legal g e cb s : quiet cb = true -> legal_callback g e cb s = true.
Proof. destruct cb as [[|o os] result]; [|done]. intros _. unfold legal_callback. cbn. destruct result; try done; apply bool_decide_eq_true; left. Qed.

Lemma quiet_legal_loop a per_group cbs : forallb quiet cbs = true -> forall g count e s, legal_loop a per_group cbs g count e s = true.
Proof.
  induction cbs as [|cb cbs IH]; intros Hq g count e s; cbn in *; [done|]. apply andb_true_iff in Hq as [Hq1 Hq2]. rewrite quiet_legal by done. cbn.
  destruct (spec_elem a per_group g count e cb s) as [[e'| |] s']; [by apply IH| |done]. destruct (spec_begin a s') as [[[g' e'] s2]|]; [by apply IH|done].
Qed.

Lemma quiet_loop a per_group cbs : forallb quiet cbs = true -> forall g count e q log m s, ready a g e m s -> queue s g = e :: q -> (count <= per_group)%positive ->
  (S (length q) + waiting a s <= length cbs)%nat ->
  exists s' log', spec_loop a per_group cbs g count e log s = Some (SpecFinished s' log') /\ (length log' <= length log + S (length q) + waiting a s)%nat.
Proof.
  induction cbs as [|cb cbs IH]; intros Hqu g count e q log m s Hr Hq Hc Hl; cbn in *; [lia|]. apply andb_true_iff in Hqu as [Hq1 Hq2]. specialize (IH Hq2).
  destruct (elem_ok a per_group g count e cb m s Hr Hc (quiet_legal g e cb s Hq1)) as (m' & _ & Hb & Hs & Hn).
  pose proof (quiet_elem a per_group g count e q cb m s Hq1 Hr Hq) as Hw. destruct (spec_elem a per_group g count e cb s) as [t s']. cbn in *.
  destruct Hw as [->|[[-> Hw]|(e' & -> & Hq' & Hw)]].
  - eexists _, _. split; [done|]. rewrite length_app. cbn. lia.
  - destruct (groups_of (Arb a) s') as [|g' gs] eqn:Eg; [eexists _, _; split; [done|]; rewrite length_app; cbn; lia|].
    destruct (begin_ok a m' s' g' gs Hb Hs Eg) as (e' & m2 & s2 & _ & E2 & Hr2). rewrite E2. cbn. destruct (rd_queue _ _ _ _ _ Hr2) as [q' Hq'].
    pose proof (begin_waiting a s' s2 g' e' q' E2 Hq') as Hw2.
    destruct (IH g' 1%positive e' q' (log ++ [e]) m2 s2 Hr2 Hq' ltac:(lia) ltac:(lia)) as (s3 & log3 & E3 & Hlen). exists s3, log3. split; [done|].
    rewrite length_app in Hlen. cbn in Hlen. lia.
  - destruct (Hn e' eq_refl) as [Hr' Hc']. destruct (rd_queue _ _ _ _ _ Hr') as [q' Hq2']. rewrite Hq2' in Hq'. subst q. cbn in Hl.
    destruct (IH g (count + 1)%positive e' q' (log ++ [e]) m' s' Hr' Hq2' ltac:(lia) ltac:(lia)) as (s3 & log3 & E3 & Hlen). exists s3, log3. split; [done|].
    rewrite length_app in Hlen. cbn in Hlen |- *. lia.
Qed.

(** C32: Termination.  In every state that a program reaches, a dispatch whose callbacks
    call nothing and do not return [UCS_ARBITER_CB_RESULT_NEXT_GROUP] ends after at most
    as many calls as the scheduled groups have elements, and fails no assertion. *)
Theorem arbiter_dispatch_ends ts a per_group cbs log0 s : legal_run ts spec0 = true -> spec_run ts spec0 = Some (log0, s) ->
  is_Some (order s !! Arb a) -> forallb quiet cbs = true -> (waiting a s <= length cbs)%nat ->
  exists m log m', run ts mem0 = Some (log0, m) /\ do_step (Dispatch a per_group cbs) m = Some (log, m') /\ (length log <= waiting a s)%nat.
Proof.
  intros Hl Hs Ha Hq Hw. destruct (arb_run_ok ts mem0 spec0 rep0) as (log1 & m & s1 & E1 & E2 & H & Hi); [by constructor|done|].
  rewrite Hs in E2. injection E2 as <- <-.
  assert (legal_dispatch a per_group cbs s = true) as Hld.
  { unfold legal_dispatch. rewrite bool_decide_true by done. cbn. destruct (spec_begin a _) as [[[g e] s1]|]; [by apply quiet_legal_loop|done]. }
  destruct (dispatch_ok a per_group cbs m s H Hi Hld) as (r & r' & E3 & E4 & Hsame). exists m.
  assert (exists s' log', r' = SpecFinished s' log' /\ (length log' <= waiting a s)%nat) as (s' & log' & -> & Hlen).
  { unfold spec_dispatch in E4. destruct (groups_of (Arb a) s) as [|g gs] eqn:Eg; [injection E4 as <-; eexists _, []; split; [done|cbn; lia]|].
    destruct (setup_ok a m s H Hi Ha) as [Hb Hst]. set (s0 := set_held [Dummy] (set_order Resched [] s)) in *.
    assert (groups_of (Arb a) s0 = groups_of (Arb a) s) as Eg0.
    { change (groups_of (Arb a) s0) with (groups_of (Arb a) (set_order Resched [] s)). by rewrite groups_insert, decide_False. }
    assert (waiting a s0 = waiting a s) as Hw0 by (by apply waiting_ext). rewrite Eg in Eg0.
    destruct (begin_ok a _ s0 g gs Hb Hst Eg0) as (e & m1 & s1 & _ & E5 & Hr). rewrite E5 in E4. cbn in E4. destruct (rd_queue _ _ _ _ _ Hr) as [q Hq1].
    pose proof (begin_waiting a s0 s1 g e q E5 Hq1) as Hw1.
    destruct (quiet_loop a per_group cbs Hq g 1 e q [] m1 s1 Hr Hq1 ltac:(lia) ltac:(lia)) as (s2 & log2 & E6 & Hlen). rewrite E6 in E4. cbn in E4.
    injection E4 as <-. eexists _, _. split; [done|]. cbn in Hlen. lia. }
  destruct r as [m' log|]; [|done]. destruct Hsame as (-> & _). exists log', m'. split_and!; [done| |done]. cbn. by rewrite E3.
Qed.

Lemma arbiter_dispatch_ends_witness : exists m log m', run program2 mem0 = Some ([], m) /\
  do_step (Dispatch 1 2 (replicate 5 ([], UCS_ARBITER_CB_RESULT_REMOVE_ELEM))) m = Some (log, m') /\ (length log <= waiting 1 state2)%nat.
Proof. apply arbiter_dispatch_ends; [by vm_compute|by vm_compute|vm_compute; by eexists|by vm_compute|]. vm_compute. lia. Defined.

(** ** The recorded arbiter of a group *)

(** A group stays on the arbiter that dispatches it when its callback schedules it on
    another one and keeps it for the next dispatch, but [group->arbiter] is the other
    one: descheduling the group from the arbiter it is on fails the assertion. *)
Example arbiter_stale_record :
  let ts := [InitArbiter 1; InitArbiter 2; Op (PushElem 1 1); Op (Schedule 1 1); Dispatch 1 1 [([Schedule 2 1], UCS_ARBITER_CB_RESULT_RESCHED_GROUP)]]%positive in
  exists log m s, run ts mem0 = Some (log, m) /\ spec_run ts spec0 = Some (log, s) /\
    on s 1%positive = Some (Arb 1) /\ garb m 1%positive = Some 2%positive /\ do_step (Op (Desched 1 1)) m = None.
Proof. eexists _, _, _. split; [vm_compute; reflexivity|]. split; [vm_compute; reflexivity|]. by vm_compute. Qed.

End ArbiterProperties.
