(* ===== verification/Address.v ===== *)
(** Worker addresses: [ucp/wireup/address.c] and [address.h].

    [ucp_address_pack] writes the interfaces of a worker, and the endpoints of a
    connection, into a buffer that a peer reads with [ucp_address_unpack].  The model
    writes and reads the bytes of the buffer one by one; [None] is an access outside of
    it or a failed assertion.  What the transports tell about themselves (the fields of
    [uct_iface_attr_t], and the addresses that they give or the error) is data of the
    worker.  Numbers are those of [Float8]. *)

From S2P Require Import Prelude.
From S2P Require Import Bits.
From S2P Require Import Float8.

Module Address.
Import Bits Float8.

(** ** Results: a value, an error status, or [None] *)

Definition res (A : Type) : Type := option (ucs_status_t + A).
Definition ok {A} (a : A) : res A := Some (inr a).
Definition err {A} (s : ucs_status_t) : res A := Some (inl s).
Definition lift {A} (c : option A) : res A := inr <$> c.
Definition rbind {A B} (c : res A) (f : A -> res B) : res B :=
  match c with Some (inr a) => f a | Some (inl s) => Some (inl s) | None => None end.

Declare Scope res_scope.
Delimit Scope res_scope with res.
Notation "x ⇐ c ; k" := (rbind c (fun x => k)) (at level 20, c at level 100, k at level 200, right associativity) : res_scope.
Notation "' p ⇐ c ; k" := (rbind c (fun x => match x with p => k end)) (at level 20, p pattern, c at level 100, k at level 200, right associativity) : res_scope.
#[local] Open Scope res_scope.

(** ** Bytes *)

Fixpoint le_bytes (n : nat) (v : Z) : list Z :=
  match n with O => [] | S n => v mod 256 :: le_bytes n (v / 256) end.

Fixpoint le_val (bs : list Z) : Z := match bs with [] => 0 | b :: bs => b + 256 * le_val bs end.

(** A position in a buffer that is written. *)
Definition cursor : Type := list Z * nat.

Definition put8 (v : Z) (c : cursor) : option cursor :=
  if decide (c.2 < length c.1)%nat then Some (<[c.2 := u8 v]> c.1, S c.2) else None.

Fixpoint put_bytes (bs : list Z) (c : cursor) : option cursor :=
  match bs with [] => Some c | b :: bs => c ← put8 b c; put_bytes bs c end.

Definition put (n : nat) (v : Z) (c : cursor) : option cursor := put_bytes (le_bytes n v) c.

(** [*p |= flag] *)
Definition or8 (p : nat) (flag : Z) (c : cursor) : option cursor :=
  b ← c.1 !! p; Some (<[p := u8 (Z.lor b flag)]> c.1, c.2).

Definition rd8 (buf : list Z) (p : nat) : option Z := buf !! p.

Definition rd_bytes (n : nat) (buf : list Z) (p : nat) : option (list Z) :=
  let bs := take n (drop p buf) in if decide (length bs = n) then Some bs else None.

Definition rd (n : nat) (buf : list Z) (p : nat) : option Z :=
  le_val <$> rd_bytes n buf p.

(** The bytes that a pointer of the unpacked address points to. *)
Definition slice (n : Z) (buf : list Z) (p : nat) : list Z := take (Z.to_nat n) (drop p buf).

(** ** Constants *)

Definition UCP_MAX_RESOURCES : Z := 128.
Definition UCP_NULL_RESOURCE : Z := 255.
Definition UCP_MAX_LANES : Z := 16.
Definition UCP_WORKER_ADDRESS_NAME_MAX : Z := 32.
Definition UCS_SYS_DEVICE_ID_UNKNOWN : Z := 255.
Definition UCS_NSEC_PER_SEC : Z := 1000000000.

Inductive ucp_object_version_t := UCP_OBJECT_VERSION_V1 | UCP_OBJECT_VERSION_V2.

#[export] Instance version_eq_dec : EqDecision ucp_object_version_t.
Proof. solve_decision. Defined.

Definition version_num (v : ucp_object_version_t) : Z := match v with UCP_OBJECT_VERSION_V1 => 0 | UCP_OBJECT_VERSION_V2 => 1 end.

Definition is_v1 (v : ucp_object_version_t) : bool := match v with UCP_OBJECT_VERSION_V1 => true | UCP_OBJECT_VERSION_V2 => false end.

Definition UCT_IFACE_FLAG_AM_SHORT : Z := UCS_BIT 0.
Definition UCT_IFACE_FLAG_AM_BCOPY : Z := UCS_BIT 1.
Definition UCT_IFACE_FLAG_AM_ZCOPY : Z := UCS_BIT 2.
Definition UCT_IFACE_FLAG_PENDING : Z := UCS_BIT 3.
Definition UCT_IFACE_FLAG_PUT_SHORT : Z := UCS_BIT 4.
Definition UCT_IFACE_FLAG_PUT_BCOPY : Z := UCS_BIT 5.
Definition UCT_IFACE_FLAG_PUT_ZCOPY : Z := UCS_BIT 6.
Definition UCT_IFACE_FLAG_GET_SHORT : Z := UCS_BIT 8.
Definition UCT_IFACE_FLAG_GET_BCOPY : Z := UCS_BIT 9.
Definition UCT_IFACE_FLAG_GET_ZCOPY : Z := UCS_BIT 10.
Definition UCT_IFACE_FLAG_CONNECT_TO_IFACE : Z := UCS_BIT 40.
Definition UCT_IFACE_FLAG_CONNECT_TO_EP : Z := UCS_BIT 41.
Definition UCT_IFACE_FLAG_CB_SYNC : Z := UCS_BIT 44.
Definition UCT_IFACE_FLAG_CB_ASYNC : Z := UCS_BIT 45.
Definition UCT_IFACE_FLAG_TAG_EAGER_SHORT : Z := UCS_BIT 50.
Definition UCT_IFACE_FLAG_TAG_EAGER_BCOPY : Z := UCS_BIT 51.
Definition UCT_IFACE_FLAG_TAG_EAGER_ZCOPY : Z := UCS_BIT 52.
Definition UCT_IFACE_FLAG_TAG_RNDV_ZCOPY : Z := UCS_BIT 53.
Definition UCT_IFACE_FLAG_EVENT_RECV : Z := UCS_BIT 1.
Definition UCT_MD_FLAG_ALLOC : Z := UCS_BIT 0.
Definition UCT_MD_FLAG_REG : Z := UCS_BIT 1.

(** [UCS_BIT(UCT_ATOMIC_OP_ADD)] to [UCS_BIT(UCT_ATOMIC_OP_XOR)], and up to
    [UCS_BIT(UCT_ATOMIC_OP_CSWAP)] *)
Definition UCP_ATOMIC_OP_MASK : Z := foldr Z.lor 0 (UCS_BIT <$> [0; 1; 2; 3]).
Definition UCP_ATOMIC_FOP_MASK : Z := foldr Z.lor 0 (UCS_BIT <$> [0; 1; 2; 3; 4; 5]).

Definition UCP_ADDRESS_IFACE_SEG_SIZE_FACTOR : Z := 64.

Definition UCP_ADDRESS_IFACE_FLAGS : Z :=
  foldr Z.lor 0 [UCT_IFACE_FLAG_CONNECT_TO_IFACE; UCT_IFACE_FLAG_CB_SYNC; UCT_IFACE_FLAG_CB_ASYNC; UCT_IFACE_FLAG_AM_BCOPY; UCT_IFACE_FLAG_PUT_SHORT;
    UCT_IFACE_FLAG_PUT_BCOPY; UCT_IFACE_FLAG_PUT_ZCOPY; UCT_IFACE_FLAG_GET_SHORT; UCT_IFACE_FLAG_GET_BCOPY; UCT_IFACE_FLAG_GET_ZCOPY;
    UCT_IFACE_FLAG_TAG_EAGER_BCOPY; UCT_IFACE_FLAG_TAG_RNDV_ZCOPY; UCT_IFACE_FLAG_PENDING].

Definition UCP_ADDR_IFACE_FLAG_CONNECT_TO_IFACE : Z := UCS_BIT 0.
Definition UCP_ADDR_IFACE_FLAG_AM_SYNC : Z := UCS_BIT 1.
Definition UCP_ADDR_IFACE_FLAG_CB_ASYNC : Z := UCS_BIT 2.
Definition UCP_ADDR_IFACE_FLAG_PUT : Z := UCS_BIT 3.
Definition UCP_ADDR_IFACE_FLAG_GET : Z := UCS_BIT 4.
Definition UCP_ADDR_IFACE_FLAG_TAG_EAGER : Z := UCS_BIT 5.
Definition UCP_ADDR_IFACE_FLAG_TAG_RNDV : Z := UCS_BIT 6.
Definition UCP_ADDR_IFACE_FLAG_EVENT_RECV : Z := UCS_BIT 7.
Definition UCP_ADDR_IFACE_FLAG_ATOMIC32 : Z := UCS_BIT 8.
Definition UCP_ADDR_IFACE_FLAG_ATOMIC64 : Z := UCS_BIT 9.

Definition UCP_ADDRESS_IFACE_EVENT_FLAGS : Z := UCT_IFACE_FLAG_EVENT_RECV.

Definition UCP_ADDRESS_PACK_FLAG_WORKER_UUID : Z := UCS_BIT 0.
Definition UCP_ADDRESS_PACK_FLAG_WORKER_NAME : Z := UCS_BIT 1.
Definition UCP_ADDRESS_PACK_FLAG_DEVICE_ADDR : Z := UCS_BIT 2.
Definition UCP_ADDRESS_PACK_FLAG_IFACE_ADDR : Z := UCS_BIT 3.
Definition UCP_ADDRESS_PACK_FLAG_EP_ADDR : Z := UCS_BIT 4.
Definition UCP_ADDRESS_PACK_FLAG_TL_RSC_IDX : Z := UCS_BIT 5.
Definition UCP_ADDRESS_PACK_FLAG_SYS_DEVICE : Z := UCS_BIT 6.
Definition UCP_ADDRESS_PACK_FLAG_CLIENT_ID : Z := UCS_BIT 7.
Definition UCP_ADDRESS_PACK_FLAG_AM_ONLY : Z := UCS_BIT 8.
Definition UCP_ADDRESS_PACK_FLAG_MACHINE_ID : Z := UCS_BIT 9.
Definition UCP_ADDRESS_PACK_FLAG_LAST : Z := UCP_ADDRESS_PACK_FLAG_MACHINE_ID + 1.
Definition UCP_ADDRESS_PACK_FLAGS_ALL : Z := Z.shiftl UCP_ADDRESS_PACK_FLAG_LAST 1 - 3.

Definition UCP_ADDRESS_V1_FLAG_ATOMIC32 : Z := UCS_BIT 30.
Definition UCP_ADDRESS_V1_FLAG_ATOMIC64 : Z := UCS_BIT 31.
Definition UCP_ADDRESS_FLAG_LAST : Z := 0x80.
Definition UCP_ADDRESS_FLAG_HAS_EP_ADDR : Z := 0x40.
Definition UCP_ADDRESS_FLAG_NUM_PATHS : Z := 0x40.
Definition UCP_ADDRESS_FLAG_SYS_DEVICE : Z := 0x20.
Definition UCP_ADDRESS_IFACE_LEN_MASK : Z := Z.lxor (UCS_MASK 8) (Z.lor UCP_ADDRESS_FLAG_HAS_EP_ADDR UCP_ADDRESS_FLAG_LAST).
Definition UCP_ADDRESS_DEVICE_LEN_MASK : Z :=
  Z.lxor (UCS_MASK 8) (Z.lor (Z.lor UCP_ADDRESS_FLAG_SYS_DEVICE UCP_ADDRESS_FLAG_NUM_PATHS) UCP_ADDRESS_FLAG_LAST).
Definition UCP_ADDRESS_FLAG_MD_EMPTY_DEV : Z := 0x80.
Definition UCP_ADDRESS_FLAG_MD_ALLOC : Z := 0x40.
Definition UCP_ADDRESS_FLAG_MD_REG : Z := 0x20.
Definition UCP_ADDRESS_FLAG_MD_MASK_V1 : Z :=
  Z.lxor (UCS_MASK 8) (Z.lor (Z.lor UCP_ADDRESS_FLAG_MD_EMPTY_DEV UCP_ADDRESS_FLAG_MD_ALLOC) UCP_ADDRESS_FLAG_MD_REG).
Definition UCP_ADDRESS_FLAG_MD_MASK : Z := Z.lxor (UCS_MASK 8) UCP_ADDRESS_FLAG_MD_EMPTY_DEV.
Definition UCP_ADDRESS_HEADER_VERSION_MASK : Z := UCS_MASK 4.
Definition UCP_ADDRESS_HEADER_FLAGS_SHIFT_V1 : Z := 4.
Definition UCP_ADDRESS_DEFAULT_WORKER_UUID : Z := 0.
Definition UCP_ADDRESS_DEFAULT_CLIENT_ID : Z := 0.
Definition UCP_ADDRESS_HEADER_FLAG_DEBUG_INFO : Z := UCS_BIT 0.
Definition UCP_ADDRESS_HEADER_FLAG_WORKER_UUID : Z := UCS_BIT 1.
Definition UCP_ADDRESS_HEADER_FLAG_CLIENT_ID : Z := UCS_BIT 2.
Definition UCP_ADDRESS_HEADER_FLAG_AM_ONLY : Z := UCS_BIT 3.

(** [x & flag] as a condition. *)
Definition has (x flag : Z) : bool := negb (Z.land x flag =? 0).

Definition ucs_test_all_flags (value mask : Z) : bool := Z.land value mask =? mask.

(** ** The worker *)

Record uct_iface_attr_t := IfaceAttr {
  cap_flags : Z;
  cap_event_flags : Z;
  device_addr_len : Z;
  iface_addr_len : Z;
  ep_addr_len : Z;
  dev_num_paths : Z;
  priority : Z;
  overhead : double;
  latency_c : double;
  latency_m : double;
  bandwidth_dedicated : double;
  bandwidth_shared : double;
  am_max_short : Z;
  am_max_bcopy : Z;
  am_max_zcopy : Z;
  atomic32_op_flags : Z;
  atomic32_fop_flags : Z;
  atomic64_op_flags : Z;
  atomic64_fop_flags : Z
}.

(** An interface with what [uct_iface_get_device_address] and [uct_iface_get_address]
    return. *)
Record ucp_worker_iface_t := WorkerIface {
  attr : uct_iface_attr_t;
  distance_latency : double;
  distance_bandwidth : double;
  device_address : ucs_status_t + list Z;
  iface_address : ucs_status_t + list Z
}.

Record ucp_tl_resource_desc_t := TlResource { md_index : Z; dev_index : Z; sys_device : Z; tl_name_csum : Z }.

(** The worker with its context. *)
Record ucp_worker_t := Worker {
  unified_mode : bool;
  address_debug_info : bool;
  proto_enable : bool;
  est_num_eps : Z;
  est_num_ppn : Z;
  uuid : Z;
  machine_id : Z;
  client_id : Z;
  address_name : list Z;
  tl_bitmap : Z;
  atomic_tls : Z;
  tl_rscs : Z -> ucp_tl_resource_desc_t;
  md_attr_flags : Z -> Z;
  ifaces : Z -> ucp_worker_iface_t
}.

(** An endpoint: the resource of each lane, whether it has a CM lane, and what
    [uct_ep_get_address] returns for a lane. *)
Record ucp_ep_t := Ep {
  lanes : list Z;
  has_cm_lane : bool;
  ep_address : Z -> ucs_status_t + list Z
}.

Definition iface_attr (w : ucp_worker_t) (rsc_index : Z) : uct_iface_attr_t := attr (ifaces w rsc_index).

(** The bits of a [ucp_tl_bitmap_t] in increasing order. *)
Definition tl_bits (bitmap : Z) : list Z := bits_of bitmap 0 UCP_MAX_RESOURCES.

Definition ucp_tl_iface_latency (w : ucp_worker_t) (c m : double) : double := dadd c (dmul m (of_int (est_num_eps w))).

Definition ucp_tl_iface_bandwidth (w : ucp_worker_t) (dedicated shared : double) : double := dadd dedicated (ddiv shared (of_int (est_num_ppn w))).

Definition ucp_wireup_iface_lat_distance_v1 (w : ucp_worker_t) (wiface : ucp_worker_iface_t) : double :=
  if proto_enable w then dadd (latency_c (attr wiface)) (distance_latency wiface) else latency_c (attr wiface).

Definition ucp_wireup_iface_lat_distance_v2 (w : ucp_worker_t) (wiface : ucp_worker_iface_t) : double :=
  let c := if proto_enable w then dadd (latency_c (attr wiface)) (distance_latency wiface) else latency_c (attr wiface) in
  ucp_tl_iface_latency w c (latency_m (attr wiface)).

Definition ucp_wireup_iface_bw_distance (w : ucp_worker_t) (wiface : ucp_worker_iface_t) : double :=
  let a := attr wiface in
  if proto_enable w then ucp_tl_iface_bandwidth w (dmin (bandwidth_dedicated a) (distance_bandwidth wiface)) (dmin (bandwidth_shared a) (distance_bandwidth wiface))
  else ucp_tl_iface_bandwidth w (bandwidth_dedicated a) (bandwidth_shared a).

Definition ucp_worker_is_tl_2iface (w : ucp_worker_t) (rsc_index : Z) : bool := has (cap_flags (iface_attr w rsc_index)) UCT_IFACE_FLAG_CONNECT_TO_IFACE.

Definition ucp_worker_is_tl_p2p (w : ucp_worker_t) (rsc_index : Z) : bool := has (cap_flags (iface_attr w rsc_index)) UCT_IFACE_FLAG_CONNECT_TO_EP.

Definition ucp_wireup_connect_p2p (w : ucp_worker_t) (rsc_index : Z) (has_cm_lane : bool) : bool :=
  if has_cm_lane then ucp_worker_is_tl_p2p w rsc_index else negb (ucp_worker_is_tl_2iface w rsc_index).

(** [config->p2p_lanes], as [ucp_ep_config_init] sets it. *)
Fixpoint p2p_lanes_from (w : ucp_worker_t) (cm : bool) (lane : Z) (rscs : list Z) (map : Z) : Z :=
  match rscs with
  | [] => map
  | rsc :: rscs =>
      let map := if negb (rsc =? UCP_NULL_RESOURCE) && ucp_wireup_connect_p2p w rsc cm then Z.lor map (UCS_BIT lane) else map in
      p2p_lanes_from w cm (lane + 1) rscs map
  end.

Definition p2p_lanes (w : ucp_worker_t) (ep : ucp_ep_t) : Z := p2p_lanes_from w (has_cm_lane ep) 0 (lanes ep) 0.

(** ** Size of the packed address *)

Record ucp_address_packed_device_t := PackedDevice {
  pd_dev_addr_len : Z;
  pd_tl_bitmap : Z;
  pd_rsc_index : Z;
  pd_num_paths : Z;
  pd_sys_dev : Z;
  pd_tl_addrs_size : Z
}.

(** [sizeof] of the packed structures *)
Definition sizeof_unified_iface_attr : Z := 5.
Definition sizeof_packed_iface_attr : Z := 16.
Definition sizeof_v2_packed_iface_attr : Z := 8.

Definition ucp_address_iface_attr_size (w : ucp_worker_t) (flags : Z) (addr_version : ucp_object_version_t) : Z :=
  let rsc_id_size := if has flags UCP_ADDRESS_PACK_FLAG_TL_RSC_IDX then 1 else 0 in
  if unified_mode w then sizeof_unified_iface_attr
  else if is_v1 addr_version then sizeof_packed_iface_attr + rsc_id_size
  else sizeof_v2_packed_iface_attr + rsc_id_size.

Definition ucp_worker_iface_can_connect (a : uct_iface_attr_t) : bool :=
  has (cap_flags a) (Z.lor UCT_IFACE_FLAG_CONNECT_TO_IFACE UCT_IFACE_FLAG_CONNECT_TO_EP).

(** The index of the device of a resource among the devices so far, which is a new one
    at the end when there is none. *)
Fixpoint ucp_address_get_device (w : ucp_worker_t) (rsc_index : Z) (devices : list ucp_address_packed_device_t) : nat :=
  match devices with
  | [] => O
  | dev :: devices =>
      if (md_index (tl_rscs w rsc_index) =? md_index (tl_rscs w (pd_rsc_index dev))) &&
         (dev_index (tl_rscs w rsc_index) =? dev_index (tl_rscs w (pd_rsc_index dev)))
      then O else S (ucp_address_get_device w rsc_index devices)
  end.

Definition new_device : ucp_address_packed_device_t := PackedDevice 0 0 0 0 0 0.

Definition ucp_address_packed_value_size (value max_value : Z) (addr_version : ucp_object_version_t) : option Z :=
  if is_v1 addr_version then _ ← assert (value <=? max_value); Some 1
  else if value <? max_value then Some 1
  else _ ← assert (value <=? 255); Some 2.

Definition ucp_address_packed_length_size (w : ucp_worker_t) (length max_length : Z) (addr_version : ucp_object_version_t) : option Z :=
  if unified_mode w then Some 0 else ucp_address_packed_value_size length max_length addr_version.

(** The endpoint addresses of a resource. *)
Definition ep_addrs_size (w : ucp_worker_t) (ep : ucp_ep_t) (rsc_index : Z) : Z :=
  foldr (fun rsc size => if (rsc =? rsc_index) && ucp_wireup_connect_p2p w rsc_index (has_cm_lane ep)
                         then (if unified_mode w then 0 else 1) + ep_addr_len (iface_attr w rsc_index) + 1 + 1 + size else size) 0 (lanes ep).

(** What a resource adds to its device. *)
Definition tl_addr_size (w : ucp_worker_t) (ep : option ucp_ep_t) (flags : Z) (addr_version : ucp_object_version_t) (rsc_index : Z) : option Z :=
  let a := iface_attr w rsc_index in
  size ← (if has flags UCP_ADDRESS_PACK_FLAG_EP_ADDR then ep ← ep; Some (ep_addrs_size w ep rsc_index) else Some 0);
  let size := size + 2 in
  if has flags UCP_ADDRESS_PACK_FLAG_IFACE_ADDR then
    len ← ucp_address_packed_length_size w (iface_addr_len a) UCP_ADDRESS_IFACE_LEN_MASK addr_version;
    Some (size + iface_addr_len a + len + ucp_address_iface_attr_size w flags addr_version)
  else Some (size + 1).

(** The loop of [ucp_address_gather_devices]. *)
Fixpoint gather_loop (w : ucp_worker_t) (ep : option ucp_ep_t) (flags : Z) (addr_version : ucp_object_version_t) (rscs : list Z)
    (devices : list ucp_address_packed_device_t) : res (list ucp_address_packed_device_t) :=
  match rscs with
  | [] => ok devices
  | rsc_index :: rscs =>
      let a := iface_attr w rsc_index in
      if negb (ucp_worker_iface_can_connect a) then gather_loop w ep flags addr_version rscs devices
      else
        let i := ucp_address_get_device w rsc_index devices in
        let '(dev, devices) := match devices !! i with Some dev => (dev, devices) | None => (new_device, devices ++ [new_device]) end in
        size ⇐ lift (tl_addr_size w ep flags addr_version rsc_index);
        let dev_addr_len := if has flags UCP_ADDRESS_PACK_FLAG_DEVICE_ADDR then device_addr_len a else 0 in
        let sys_dev := if has flags UCP_ADDRESS_PACK_FLAG_SYS_DEVICE then sys_device (tl_rscs w rsc_index) else UCS_SYS_DEVICE_ID_UNKNOWN in
        if 255 <? dev_num_paths a then err UCS_ERR_UNSUPPORTED
        else
          let dev := PackedDevice dev_addr_len (Z.lor (pd_tl_bitmap dev) (2 ^ rsc_index)) rsc_index (dev_num_paths a) sys_dev (pd_tl_addrs_size dev + size) in
          gather_loop w ep flags addr_version rscs (<[i := dev]> devices)
  end.

Definition ucp_address_gather_devices (w : ucp_worker_t) (ep : option ucp_ep_t) (bitmap flags : Z) (addr_version : ucp_object_version_t) (mem_ok : bool) :
  res (list ucp_address_packed_device_t) :=
  if negb mem_ok then err UCS_ERR_NO_MEMORY
  else gather_loop w ep flags addr_version (tl_bits (Z.land bitmap (tl_bitmap w))) [].

Definition ucp_address_md_mask (addr_version : ucp_object_version_t) : Z :=
  if is_v1 addr_version then UCP_ADDRESS_FLAG_MD_MASK_V1 else UCP_ADDRESS_FLAG_MD_MASK.

(** A device in [ucp_address_packed_size]. *)
Definition device_size (w : ucp_worker_t) (pack_flags : Z) (addr_version : ucp_object_version_t) (dev : ucp_address_packed_device_t) : option Z :=
  md_size ← ucp_address_packed_value_size (md_index (tl_rscs w (pd_rsc_index dev))) (ucp_address_md_mask addr_version) addr_version;
  dev_size ← (if has pack_flags UCP_ADDRESS_PACK_FLAG_DEVICE_ADDR
              then n ← ucp_address_packed_value_size (pd_dev_addr_len dev) UCP_ADDRESS_DEVICE_LEN_MASK addr_version; Some (n + pd_dev_addr_len dev)
              else Some 1);
  Some (md_size + dev_size + (if 1 <? pd_num_paths dev then 1 else 0) + (if pd_sys_dev dev =? UCS_SYS_DEVICE_ID_UNKNOWN then 0 else 1) + pd_tl_addrs_size dev).

Fixpoint devices_size (w : ucp_worker_t) (pack_flags : Z) (addr_version : ucp_object_version_t) (devices : list ucp_address_packed_device_t) : option Z :=
  match devices with
  | [] => Some 0
  | dev :: devices => n ← device_size w pack_flags addr_version dev; m ← devices_size w pack_flags addr_version devices; Some (n + m)
  end.

Definition ucp_address_packed_size (w : ucp_worker_t) (devices : list ucp_address_packed_device_t) (pack_flags : Z) (addr_version : ucp_object_version_t) : option Z :=
  let size := (if is_v1 addr_version then 1 else 2) +
    (if has pack_flags UCP_ADDRESS_PACK_FLAG_WORKER_UUID then 8 else 0) +
    (if has pack_flags UCP_ADDRESS_PACK_FLAG_MACHINE_ID then 8 else 0) +
    (if has pack_flags UCP_ADDRESS_PACK_FLAG_CLIENT_ID then 8 else 0) +
    (if address_debug_info w && has pack_flags UCP_ADDRESS_PACK_FLAG_WORKER_NAME then Z.of_nat (length (address_name w)) + 1 else 0) in
  match devices with
  | [] => Some (size + 1)
  | _ => n ← devices_size w pack_flags addr_version devices; Some (size + n)
  end.

(** ** Packing *)

Definition ucp_address_pack_worker_address_name (w : ucp_worker_t) (c : cursor) : option cursor :=
  let s := address_name w in
  _ ← assert (Z.of_nat (length s) <=? 255);
  c ← put8 (Z.of_nat (length s)) c;
  put_bytes s c.

Definition ucp_address_pack_byte_extended (value max_value : Z) (addr_version : ucp_object_version_t) (c : cursor) : option cursor :=
  '(c, max_value) ← (if negb (is_v1 addr_version) && (max_value <=? value) then c ← put8 max_value c; Some (c, 255) else Some (c, max_value));
  _ ← assert (value <=? max_value);
  put8 value c.

Definition ucp_address_pack_md_info (is_empty_dev : bool) (md_flags md_index : Z) (addr_version : ucp_object_version_t) (c : cursor) : option cursor :=
  let flags_ptr := c.2 in
  c ← ucp_address_pack_byte_extended md_index (ucp_address_md_mask addr_version) addr_version c;
  c ← (if is_empty_dev then or8 flags_ptr UCP_ADDRESS_FLAG_MD_EMPTY_DEV c else Some c);
  if is_v1 addr_version then
    c ← (if has md_flags UCT_MD_FLAG_ALLOC then or8 flags_ptr UCP_ADDRESS_FLAG_MD_ALLOC c else Some c);
    if has md_flags UCT_MD_FLAG_REG then or8 flags_ptr UCP_ADDRESS_FLAG_MD_REG c else Some c
  else Some c.

Fixpoint pack_flags_loop (bits : list Z) (input_flags result_flags packed_flag : Z) : Z :=
  match bits with
  | [] => result_flags
  | cap_index :: bits =>
      let result_flags := if has input_flags (UCS_BIT cap_index) then Z.lor result_flags packed_flag else result_flags in
      pack_flags_loop bits input_flags result_flags (u32 (Z.shiftl packed_flag 1))
  end.

Definition ucp_address_pack_flags (input_flags cap_mask output_start_bit : Z) : option Z :=
  _ ← assert (ucs_popcount cap_mask + output_start_bit <? 32);
  Some (pack_flags_loop (ucs_for_each_bit cap_mask) input_flags 0 (UCS_BIT output_start_bit)).

Fixpoint unpack_flags_loop (bits : list Z) (input_flags result_flags packed_flag : Z) : Z :=
  match bits with
  | [] => result_flags
  | cap_index :: bits =>
      let result_flags := if has input_flags packed_flag then Z.lor result_flags (UCS_BIT cap_index) else result_flags in
      unpack_flags_loop bits input_flags result_flags (u32 (Z.shiftl packed_flag 1))
  end.

Definition ucp_address_unpack_flags (input_flags cap_mask input_start_bit : Z) : option Z :=
  _ ← assert (ucs_popcount cap_mask + input_start_bit <? 32);
  Some (unpack_flags_loop (ucs_for_each_bit cap_mask) input_flags 0 (UCS_BIT input_start_bit)).

Definition ucp_address_flags_from_iface_flags (iface_cap_flags iface_event_flags : Z) : Z :=
  let flag (b : bool) (f : Z) (x : Z) := if b then Z.lor x f else x in
  flag (has iface_event_flags UCT_IFACE_FLAG_EVENT_RECV) UCP_ADDR_IFACE_FLAG_EVENT_RECV
  (flag (has iface_cap_flags UCT_IFACE_FLAG_TAG_RNDV_ZCOPY) UCP_ADDR_IFACE_FLAG_TAG_RNDV
  (flag (has iface_cap_flags (Z.lor (Z.lor UCT_IFACE_FLAG_TAG_EAGER_SHORT UCT_IFACE_FLAG_TAG_EAGER_BCOPY) UCT_IFACE_FLAG_TAG_EAGER_ZCOPY)) UCP_ADDR_IFACE_FLAG_TAG_EAGER
  (flag (has iface_cap_flags (Z.lor (Z.lor UCT_IFACE_FLAG_GET_SHORT UCT_IFACE_FLAG_GET_BCOPY) UCT_IFACE_FLAG_GET_ZCOPY)) UCP_ADDR_IFACE_FLAG_GET
  (flag (has iface_cap_flags (Z.lor (Z.lor UCT_IFACE_FLAG_PUT_SHORT UCT_IFACE_FLAG_PUT_BCOPY) UCT_IFACE_FLAG_PUT_ZCOPY)) UCP_ADDR_IFACE_FLAG_PUT
  (flag (ucs_test_all_flags iface_cap_flags (Z.lor UCT_IFACE_FLAG_CB_SYNC UCT_IFACE_FLAG_AM_BCOPY)) UCP_ADDR_IFACE_FLAG_AM_SYNC
  (flag (has iface_cap_flags UCT_IFACE_FLAG_CB_ASYNC) UCP_ADDR_IFACE_FLAG_CB_ASYNC
  (flag (has iface_cap_flags UCT_IFACE_FLAG_CONNECT_TO_IFACE) UCP_ADDR_IFACE_FLAG_CONNECT_TO_IFACE 0))))))).

(** The fields of [ucp_address_packed_iface_attr_t] in their order. *)
Definition ucp_address_pack_iface_attr_v1 (w : ucp_worker_t) (wiface : ucp_worker_iface_t) (atomic_flags : Z) (c : cursor) : option cursor :=
  let a := attr wiface in
  f1 ← ucp_address_pack_flags (cap_flags a) UCP_ADDRESS_IFACE_FLAGS 8;
  f2 ← ucp_address_pack_flags (cap_event_flags a) UCP_ADDRESS_IFACE_EVENT_FLAGS (8 + ucs_popcount UCP_ADDRESS_IFACE_FLAGS);
  let prio_cap_flags := Z.lor (Z.lor (u8 (priority a)) f1) f2 in
  let prio_cap_flags := if has atomic_flags UCP_ADDR_IFACE_FLAG_ATOMIC32 then Z.lor prio_cap_flags UCP_ADDRESS_V1_FLAG_ATOMIC32 else prio_cap_flags in
  let prio_cap_flags := if has atomic_flags UCP_ADDR_IFACE_FLAG_ATOMIC64 then Z.lor prio_cap_flags UCP_ADDRESS_V1_FLAG_ATOMIC64 else prio_cap_flags in
  _ ← assert (ucs_popcount UCP_ADDRESS_IFACE_FLAGS + ucs_popcount UCP_ADDRESS_IFACE_EVENT_FLAGS <=? 22);
  c ← put 4 (double_to_float (overhead a)) c;
  c ← put 4 (double_to_float (ucp_wireup_iface_bw_distance w wiface)) c;
  c ← put 4 (double_to_float (ucp_wireup_iface_lat_distance_v1 w wiface)) c;
  put 4 prio_cap_flags c.

Definition ucp_address_iface_seg_size (a : uct_iface_attr_t) : Z :=
  if has (cap_flags a) UCT_IFACE_FLAG_AM_BCOPY then am_max_bcopy a
  else if has (cap_flags a) UCT_IFACE_FLAG_AM_ZCOPY then am_max_zcopy a
  else if has (cap_flags a) UCT_IFACE_FLAG_AM_SHORT then am_max_short a
  else 0.

(** The packed numbers of [ucp_types.h]: from 512 MB/s to 4 TB/s, from 16 ns to 131 us,
    and from 1 ns to 4 us. *)
Definition BANDWIDTH_range : Z * Z := (2 ^ 29, 2 ^ 42).
Definition LATENCY_range : Z * Z := (UCS_BIT 4, UCS_BIT 17).
Definition OVERHEAD_range : Z * Z := (UCS_BIT 0, UCS_BIT 12).

(** The fields of [ucp_address_v2_packed_iface_attr_t] in their order. *)
Definition ucp_address_pack_iface_attr_v2 (w : ucp_worker_t) (wiface : ucp_worker_iface_t) (atomic_flags : Z) (c : cursor) : option cursor :=
  let a := attr wiface in
  let latency_nsec := dmul (ucp_wireup_iface_lat_distance_v2 w wiface) (of_int UCS_NSEC_PER_SEC) in
  let bandwidth := ucp_wireup_iface_bw_distance w wiface in
  let overhead_nsec := dmul (overhead a) (of_int UCS_NSEC_PER_SEC) in
  o ← UCS_FP8_PACK OVERHEAD_range.1 OVERHEAD_range.2 overhead_nsec;
  b ← UCS_FP8_PACK BANDWIDTH_range.1 BANDWIDTH_range.2 bandwidth;
  l ← UCS_FP8_PACK LATENCY_range.1 LATENCY_range.2 latency_nsec;
  let addr_iface_flags := ucp_address_flags_from_iface_flags (cap_flags a) (cap_event_flags a) in
  let seg_size := ucp_address_iface_seg_size a / UCP_ADDRESS_IFACE_SEG_SIZE_FACTOR in
  c ← put8 o c;
  c ← put8 b c;
  c ← put8 l c;
  c ← put8 (Z.min 255 (priority a)) c;
  c ← put 2 (u16 seg_size) c;
  c ← put 2 (u16 (Z.lor addr_iface_flags atomic_flags)) c;
  _ ← assert (seg_size <=? 65535);
  Some c.

(** The flags of the atomic operations that an interface has in full. *)
Definition iface_atomic_flags (a : uct_iface_attr_t) (enable_atomics : bool) : Z :=
  if enable_atomics then
    let f := if ucs_test_all_flags (atomic32_op_flags a) UCP_ATOMIC_OP_MASK && ucs_test_all_flags (atomic32_fop_flags a) UCP_ATOMIC_FOP_MASK
             then UCP_ADDR_IFACE_FLAG_ATOMIC32 else 0 in
    if ucs_test_all_flags (atomic64_op_flags a) UCP_ATOMIC_OP_MASK && ucs_test_all_flags (atomic64_fop_flags a) UCP_ATOMIC_FOP_MASK
    then Z.lor f UCP_ADDR_IFACE_FLAG_ATOMIC64 else f
  else 0.

Definition ucp_address_pack_iface_attr (w : ucp_worker_t) (rsc_index pack_flags : Z) (addr_version : ucp_object_version_t) (enable_atomics : bool) (c : cursor) :
  option cursor :=
  let wiface := ifaces w rsc_index in
  let a := attr wiface in
  if unified_mode w then
    let lat_ovh := ucp_wireup_iface_lat_distance_v1 w wiface in
    let lat_ovh := if enable_atomics then dopp lat_ovh else lat_ovh in
    c ← put8 rsc_index c; put 4 (double_to_float lat_ovh) c
  else
    let atomic_flags := iface_atomic_flags a enable_atomics in
    c ← (if is_v1 addr_version then ucp_address_pack_iface_attr_v1 w wiface atomic_flags c else ucp_address_pack_iface_attr_v2 w wiface atomic_flags c);
    if has pack_flags UCP_ADDRESS_PACK_FLAG_TL_RSC_IDX then put8 rsc_index c else Some c.

Definition ucp_address_iface_flags_ptr (w : ucp_worker_t) (attr_ptr attr_end : nat) : nat := if unified_mode w then attr_ptr else attr_end.

Definition ucp_address_pack_tl_length (w : ucp_worker_t) (max_length addr_length : Z) (addr_version : ucp_object_version_t) (is_extendable : bool) (c : cursor) :
  option cursor :=
  if unified_mode w then Some c
  else if is_extendable then ucp_address_pack_byte_extended addr_length max_length addr_version c
  else put8 addr_length c.

Definition ucp_address_pack_header_flags (address_header_p : nat) (addr_version : ucp_object_version_t) (flags : Z) (c : cursor) : option cursor :=
  if is_v1 addr_version then or8 address_header_p (Z.shiftl flags UCP_ADDRESS_HEADER_FLAGS_SHIFT_V1) c
  else _ ← assert (bool_decide (S address_header_p < length c.1)%nat); Some (<[S address_header_p := u8 flags]> c.1, c.2).

(** The address that a transport writes at the position, or its error; the position
    moves by [len]. *)
Definition put_address (addr : ucs_status_t + list Z) (len : Z) (c : cursor) : res cursor :=
  match addr with
  | inl status => err status
  | inr bs => c' ⇐ lift (put_bytes bs c); ok (c'.1, (c.2 + Z.to_nat len)%nat)
  end.

(** The endpoint addresses of a resource: the lanes, the position of the lane index of
    the last one and their number so far. *)
Fixpoint pack_ep_addrs (w : ucp_worker_t) (ep : ucp_ep_t) (lanes2remote : option (Z -> Z)) (addr_version : ucp_object_version_t) (rsc_index : Z) (ls : list Z)
    (ep_lane_ptr : option nat) (num_ep_addrs : Z) (c : cursor) : res (cursor * option nat * Z) :=
  match ls with
  | [] => ok (c, ep_lane_ptr, num_ep_addrs)
  | lane :: ls =>
      _ ⇐ lift (assert (lane <? UCP_MAX_LANES));
      rsc ⇐ lift (lanes ep !! Z.to_nat lane);
      if negb (rsc =? rsc_index) then pack_ep_addrs w ep lanes2remote addr_version rsc_index ls ep_lane_ptr num_ep_addrs c
      else
        let len := ep_addr_len (iface_attr w rsc_index) in
        c ⇐ lift (ucp_address_pack_tl_length w 255 len addr_version false c);
        c ⇐ put_address (ep_address ep lane) len c;
        let remote_lane := match lanes2remote with None => lane | Some f => f lane end in
        _ ⇐ lift (assert (remote_lane <=? UCP_ADDRESS_IFACE_LEN_MASK));
        let ep_lane_ptr := c.2 in
        c ⇐ lift (put8 remote_lane c);
        c ⇐ lift (put8 lane c);
        pack_ep_addrs w ep lanes2remote addr_version rsc_index ls (Some ep_lane_ptr) (num_ep_addrs + 1) c
  end.

(** The assertion of a resource without endpoint addresses. *)
Definition no_ep_addrs (flags_ptr : nat) (c : cursor) : res (cursor * nat) :=
  flags ⇐ lift (rd8 c.1 flags_ptr);
  _ ⇐ lift (assert (negb (has flags UCP_ADDRESS_FLAG_HAS_EP_ADDR)));
  ok (c, flags_ptr).

(** A resource of a device; the result has the position of its flags.  (The counter
    [addr_index] of the code only serves messages and an assertion that at most
    [UCP_MAX_RESOURCES] resources are packed, the number of bits of the bitmap.) *)
Definition pack_tl (w : ucp_worker_t) (ep : option ucp_ep_t) (lanes2remote : option (Z -> Z)) (pack_flags : Z) (addr_version : ucp_object_version_t)
    (rsc_index : Z) (c : cursor) : res (cursor * nat) :=
  let wiface := ifaces w rsc_index in
  let a := attr wiface in
  if negb (ucp_worker_iface_can_connect a) then err UCS_ERR_INVALID_ADDR
  else
    c ⇐ lift (put 2 (tl_name_csum (tl_rscs w rsc_index)) c);
    let attr_ptr := c.2 in
    c ⇐ lift (ucp_address_pack_iface_attr w rsc_index pack_flags addr_version (Z.testbit (atomic_tls w) rsc_index) c);
    let with_iface := has pack_flags UCP_ADDRESS_PACK_FLAG_IFACE_ADDR in
    let addr_len := if with_iface then iface_addr_len a else 0 in
    let flags_ptr := ucp_address_iface_flags_ptr w attr_ptr c.2 in
    c ⇐ lift (ucp_address_pack_tl_length w UCP_ADDRESS_IFACE_LEN_MASK addr_len addr_version true c);
    c ⇐ (if with_iface then put_address (iface_address wiface) addr_len c else ok c);
    if has pack_flags UCP_ADDRESS_PACK_FLAG_EP_ADDR then
      ep ⇐ lift ep;
      '(c, ep_lane_ptr, num_ep_addrs) ⇐ pack_ep_addrs w ep lanes2remote addr_version rsc_index (ucs_for_each_bit (p2p_lanes w ep)) None 0 c;
      if 0 <? num_ep_addrs then
        p ⇐ lift ep_lane_ptr;
        c ⇐ lift (or8 p UCP_ADDRESS_FLAG_LAST c);
        c ⇐ lift (or8 flags_ptr UCP_ADDRESS_FLAG_HAS_EP_ADDR c);
        ok (c, flags_ptr)
      else no_ep_addrs flags_ptr c
    else no_ep_addrs flags_ptr c.

Fixpoint pack_tls (w : ucp_worker_t) (ep : option ucp_ep_t) (lanes2remote : option (Z -> Z)) (pack_flags : Z) (addr_version : ucp_object_version_t)
    (rscs : list Z) (flags_ptr : option nat) (c : cursor) : res (cursor * option nat) :=
  match rscs with
  | [] => ok (c, flags_ptr)
  | rsc_index :: rscs =>
      '(c, flags_ptr) ⇐ pack_tl w ep lanes2remote pack_flags addr_version rsc_index c;
      pack_tls w ep lanes2remote pack_flags addr_version rscs (Some flags_ptr) c
  end.

(** The header of a device: memory domain, address length, paths and system device. *)
Definition pack_device_info (w : ucp_worker_t) (pack_flags : Z) (addr_version : ucp_object_version_t) (dev : ucp_address_packed_device_t)
    (is_empty is_last : bool) (c : cursor) : option cursor :=
  let md := md_index (tl_rscs w (pd_rsc_index dev)) in
  let md_flags := Z.land (md_attr_flags w md) (Z.lor UCT_MD_FLAG_REG UCT_MD_FLAG_ALLOC) in
  c ← ucp_address_pack_md_info is_empty md_flags md addr_version c;
  let flags_ptr := c.2 in
  _ ← assert (has pack_flags UCP_ADDRESS_PACK_FLAG_DEVICE_ADDR || (pd_dev_addr_len dev =? 0));
  c ← ucp_address_pack_byte_extended (pd_dev_addr_len dev) UCP_ADDRESS_DEVICE_LEN_MASK addr_version c;
  c ← or8 flags_ptr (if is_last then UCP_ADDRESS_FLAG_LAST else 0) c;
  _ ← assert (1 <=? pd_num_paths dev);
  c ← (if 1 <? pd_num_paths dev then
         _ ← assert (pd_num_paths dev <=? 255); c ← or8 flags_ptr UCP_ADDRESS_FLAG_NUM_PATHS c; put8 (pd_num_paths dev) c
       else Some c);
  if negb (pd_sys_dev dev =? UCS_SYS_DEVICE_ID_UNKNOWN)
  then c ← or8 flags_ptr UCP_ADDRESS_FLAG_SYS_DEVICE c; put8 (pd_sys_dev dev) c
  else Some c.

Definition pack_device (w : ucp_worker_t) (ep : option ucp_ep_t) (lanes2remote : option (Z -> Z)) (pack_flags : Z) (addr_version : ucp_object_version_t)
    (dev : ucp_address_packed_device_t) (is_last : bool) (c : cursor) : res cursor :=
  let rscs := tl_bits (Z.land (tl_bitmap w) (pd_tl_bitmap dev)) in
  c ⇐ lift (pack_device_info w pack_flags addr_version dev (bool_decide (rscs = [])) is_last c);
  c ⇐ (if has pack_flags UCP_ADDRESS_PACK_FLAG_DEVICE_ADDR
       then put_address (device_address (ifaces w (pd_rsc_index dev))) (pd_dev_addr_len dev) c else ok c);
  '(c, flags_ptr) ⇐ pack_tls w ep lanes2remote pack_flags addr_version rscs None c;
  match flags_ptr with
  | Some p => lift (or8 p UCP_ADDRESS_FLAG_LAST c)
  | None => ok c
  end.

Fixpoint pack_devices (w : ucp_worker_t) (ep : option ucp_ep_t) (lanes2remote : option (Z -> Z)) (pack_flags : Z) (addr_version : ucp_object_version_t)
    (devices : list ucp_address_packed_device_t) (c : cursor) : res cursor :=
  match devices with
  | [] => ok c
  | dev :: devices =>
      c ⇐ pack_device w ep lanes2remote pack_flags addr_version dev (bool_decide (devices = [])) c;
      pack_devices w ep lanes2remote pack_flags addr_version devices c
  end.

(** The part before the devices: [addr_flags], the identifiers and the name, and the whole. *)
Definition header_flags (w : ucp_worker_t) (pack_flags : Z) : Z :=
  let addr_flags := if has pack_flags UCP_ADDRESS_PACK_FLAG_AM_ONLY then UCP_ADDRESS_HEADER_FLAG_AM_ONLY else 0 in
  let addr_flags := if has pack_flags UCP_ADDRESS_PACK_FLAG_WORKER_UUID then Z.lor addr_flags UCP_ADDRESS_HEADER_FLAG_WORKER_UUID else addr_flags in
  let addr_flags := if has pack_flags UCP_ADDRESS_PACK_FLAG_CLIENT_ID then Z.lor addr_flags UCP_ADDRESS_HEADER_FLAG_CLIENT_ID else addr_flags in
  if address_debug_info w then Z.lor addr_flags UCP_ADDRESS_HEADER_FLAG_DEBUG_INFO else addr_flags.

Definition pack_ids (w : ucp_worker_t) (pack_flags : Z) (c : cursor) : option cursor :=
  c ← (if has pack_flags UCP_ADDRESS_PACK_FLAG_WORKER_UUID then put 8 (uuid w) c else Some c);
  c ← (if has pack_flags UCP_ADDRESS_PACK_FLAG_MACHINE_ID then put 8 (machine_id w) c else Some c);
  c ← (if has pack_flags UCP_ADDRESS_PACK_FLAG_CLIENT_ID then put 8 (client_id w) c else Some c);
  if address_debug_info w && has pack_flags UCP_ADDRESS_PACK_FLAG_WORKER_NAME then ucp_address_pack_worker_address_name w c else Some c.

Definition pack_header (w : ucp_worker_t) (pack_flags : Z) (addr_version : ucp_object_version_t) (c : cursor) : option cursor :=
  let address_header_p := c.2 in
  c ← put8 (version_num addr_version) c;
  c ← (if is_v1 addr_version then Some c else _ ← assert (bool_decide (c.2 < length c.1)%nat); Some (c.1, S c.2));
  c ← pack_ids w pack_flags c;
  ucp_address_pack_header_flags address_header_p addr_version (header_flags w pack_flags) c.

Definition ucp_address_do_pack (w : ucp_worker_t) (ep : option ucp_ep_t) (buffer : list Z) (pack_flags : Z) (addr_version : ucp_object_version_t)
    (lanes2remote : option (Z -> Z)) (devices : list ucp_address_packed_device_t) : res (list Z) :=
  c ⇐ lift (pack_header w pack_flags addr_version (buffer, O));
  c ⇐ match devices with
      | [] => lift (put8 UCP_NULL_RESOURCE c)
      | _ => pack_devices w ep lanes2remote pack_flags addr_version devices c
      end;
  _ ⇐ lift (assert (bool_decide (c.2 = length buffer)));
  ok c.1.

Definition ucp_address_length (w : ucp_worker_t) (ep : option ucp_ep_t) (bitmap pack_flags : Z) (addr_version : ucp_object_version_t) (mem_ok : bool) : res Z :=
  devices ⇐ ucp_address_gather_devices w ep bitmap pack_flags addr_version mem_ok;
  lift (ucp_address_packed_size w devices pack_flags addr_version).

(** [mem_ok] is whether the two allocations succeed. *)
Definition ucp_address_pack (w : ucp_worker_t) (ep : option ucp_ep_t) (bitmap pack_flags : Z) (addr_version : ucp_object_version_t)
    (lanes2remote : option (Z -> Z)) (mem_ok : bool * bool) : res (list Z) :=
  let pack_flags := match ep with None => Z.land pack_flags (Z.lnot UCP_ADDRESS_PACK_FLAG_EP_ADDR) | Some _ => pack_flags end in
  devices ⇐ ucp_address_gather_devices w ep bitmap pack_flags addr_version mem_ok.1;
  size ⇐ lift (ucp_address_packed_size w devices pack_flags addr_version);
  if negb mem_ok.2 then err UCS_ERR_NO_MEMORY
  else ucp_address_do_pack w ep (replicate (Z.to_nat size) 0) pack_flags addr_version lanes2remote devices.

(** ** Unpacking *)

Record ucp_address_iface_attr := AddressIfaceAttr {
  ai_flags : Z;
  ai_overhead : double;
  ai_bandwidth : double;
  ai_priority : Z;
  ai_lat_ovh : double;
  ai_dst_rsc_index : Z;
  ai_atomic32 : Z * Z;
  ai_atomic64 : Z * Z;
  ai_seg_size : Z;
  ai_addr_version : ucp_object_version_t
}.

(** Pointers into the buffer are the bytes that they point to, [None] for [NULL]. *)
Record ucp_address_entry_ep_addr := EntryEpAddr { ea_lane : Z; ea_remote_lane : Z; ea_addr : list Z; ea_len : Z }.

Record ucp_address_entry := AddressEntry {
  ae_dev_addr : option (list Z);
  ae_dev_addr_len : Z;
  ae_iface_addr : option (list Z);
  ae_ep_addrs : list ucp_address_entry_ep_addr;
  ae_iface_attr : ucp_address_iface_attr;
  ae_dev_num_paths : Z;
  ae_tl_name_csum : Z;
  ae_md_index : Z;
  ae_sys_dev : Z;
  ae_dev_index : Z
}.

Record ucp_unpacked_address := Unpacked { ua_uuid : Z; ua_machine_id : Z; ua_name : list Z; ua_address_list : list ucp_address_entry }.

(** ["<no debug data>"] *)
Definition UCP_WIREUP_EMPTY_PEER_NAME : list Z := [60; 110; 111; 32; 100; 101; 98; 117; 103; 32; 100; 97; 116; 97; 62].

Section unpack.
Variable buf : list Z.

Definition ucp_address_unpack_worker_address_name (p : nat) : option (list Z * nat) :=
  length ← rd8 buf p;
  let avail := Z.min length (UCP_WORKER_ADDRESS_NAME_MAX - 1) in
  name ← rd_bytes (Z.to_nat avail) buf (S p);
  Some (name, S p + Z.to_nat length)%nat.

Definition ucp_address_unpack_byte_extended (p : nat) (value_mask : Z) (addr_version : ucp_object_version_t) : option (Z * nat) :=
  b ← rd8 buf p;
  let value := Z.land b value_mask in
  if negb (is_v1 addr_version) && (value =? value_mask) then value ← rd8 buf (S p); Some (value, S (S p)) else Some (value, S p).

Definition ucp_address_unpack_md_info (p : nat) (addr_version : ucp_object_version_t) : option (Z * bool * nat) :=
  md_byte ← rd8 buf p;
  '(md_index, p) ← ucp_address_unpack_byte_extended p (ucp_address_md_mask addr_version) addr_version;
  Some (md_index, has md_byte UCP_ADDRESS_FLAG_MD_EMPTY_DEV, p).

Definition UINT_MAX : Z := 2 ^ 32 - 1.

Definition ucp_address_unpack_iface_attr_v1 (w : ucp_worker_t) (p : nat) : option ucp_address_iface_attr :=
  overhead ← rd 4 buf p;
  bandwidth ← rd 4 buf (p + 4);
  lat_ovh ← rd 4 buf (p + 8);
  prio_cap_flags ← rd 4 buf (p + 12);
  iface_flags ← ucp_address_unpack_flags prio_cap_flags UCP_ADDRESS_IFACE_FLAGS 8;
  event_flags ← ucp_address_unpack_flags prio_cap_flags UCP_ADDRESS_IFACE_EVENT_FLAGS (8 + ucs_popcount UCP_ADDRESS_IFACE_FLAGS);
  let flags := ucp_address_flags_from_iface_flags iface_flags event_flags in
  let flags := if has prio_cap_flags UCP_ADDRESS_V1_FLAG_ATOMIC32 then Z.lor flags UCP_ADDR_IFACE_FLAG_ATOMIC32 else flags in
  let flags := if has prio_cap_flags UCP_ADDRESS_V1_FLAG_ATOMIC64 then Z.lor flags UCP_ADDR_IFACE_FLAG_ATOMIC64 else flags in
  let bandwidth := float_to_double bandwidth in
  let bandwidth := if dlt bandwidth (of_int 0) then ucp_tl_iface_bandwidth w (of_int 0) (dabs bandwidth) else bandwidth in
  Some (AddressIfaceAttr flags (float_to_double overhead) bandwidth (Z.land prio_cap_flags (UCS_MASK 8)) (float_to_double lat_ovh)
    0 (0, 0) (0, 0) UINT_MAX UCP_OBJECT_VERSION_V1).

Definition ucp_address_unpack_iface_attr_v2 (p : nat) : option ucp_address_iface_attr :=
  overhead ← rd8 buf p;
  bandwidth ← rd8 buf (p + 1);
  latency ← rd8 buf (p + 2);
  prio ← rd8 buf (p + 3);
  seg_size ← rd 2 buf (p + 4);
  flags ← rd 2 buf (p + 6);
  Some (AddressIfaceAttr flags (ddiv (UCS_FP8_UNPACK OVERHEAD_range.1 OVERHEAD_range.2 overhead) (of_int UCS_NSEC_PER_SEC))
    (UCS_FP8_UNPACK BANDWIDTH_range.1 BANDWIDTH_range.2 bandwidth) prio
    (ddiv (UCS_FP8_UNPACK LATENCY_range.1 LATENCY_range.2 latency) (of_int UCS_NSEC_PER_SEC))
    0 (0, 0) (0, 0) (seg_size * UCP_ADDRESS_IFACE_SEG_SIZE_FACTOR) UCP_OBJECT_VERSION_V2).

(** The attributes and their length. *)
Definition ucp_address_unpack_iface_attr (w : ucp_worker_t) (p : nat) (unpack_flags : Z) (addr_version : ucp_object_version_t) :
  res (ucp_address_iface_attr * nat) :=
  if unified_mode w then
    rsc ⇐ lift (rd8 buf p);
    lat_ovh ⇐ lift (rd 4 buf (S p));
    let rsc_idx := Z.land rsc UCP_ADDRESS_IFACE_LEN_MASK in
    if negb (Z.testbit (tl_bitmap w) rsc_idx) then err UCS_ERR_INVALID_ADDR
    else
      let a := iface_attr w rsc_idx in
      let amo (x : Z * Z) := if float_signbit lat_ovh then x else (0, 0) in
      ok (AddressIfaceAttr (ucp_address_flags_from_iface_flags (cap_flags a) (cap_event_flags a)) (overhead a)
            (ucp_tl_iface_bandwidth w (bandwidth_dedicated a) (bandwidth_shared a)) (priority a) (dabs (float_to_double lat_ovh)) rsc_idx
            (amo (atomic32_op_flags a, atomic32_fop_flags a)) (amo (atomic64_op_flags a, atomic64_fop_flags a)) (am_max_bcopy a) addr_version,
          Z.to_nat sizeof_unified_iface_attr)
  else
    a ⇐ lift (if is_v1 addr_version then ucp_address_unpack_iface_attr_v1 w p else ucp_address_unpack_iface_attr_v2 p);
    let iface_attr_len := Z.to_nat (if is_v1 addr_version then sizeof_packed_iface_attr else sizeof_v2_packed_iface_attr) in
    if dle (ai_bandwidth a) (of_int 0) then err UCS_ERR_INVALID_ADDR
    else
      let amo (b : bool) := if b then (UCP_ATOMIC_OP_MASK, UCP_ATOMIC_FOP_MASK) else (0, 0) in
      let a rsc := AddressIfaceAttr (ai_flags a) (ai_overhead a) (ai_bandwidth a) (ai_priority a) (ai_lat_ovh a) rsc
        (amo (has (ai_flags a) UCP_ADDR_IFACE_FLAG_ATOMIC32)) (amo (has (ai_flags a) UCP_ADDR_IFACE_FLAG_ATOMIC64)) (ai_seg_size a) addr_version in
      if has unpack_flags UCP_ADDRESS_PACK_FLAG_TL_RSC_IDX then
        rsc ⇐ lift (rd8 buf (p + iface_attr_len));
        ok (a rsc, S iface_attr_len)
      else ok (a UCP_NULL_RESOURCE, iface_attr_len).

(** The length of an endpoint address ([is_ep_addr]), and of an interface address with
    whether it is the last one. *)
Definition ucp_address_unpack_tl_length_ep (w : ucp_worker_t) (flags_ptr p : nat) : option (Z * nat) :=
  if unified_mode w then
    rsc ← rd8 buf flags_ptr;
    Some (u8 (ep_addr_len (iface_attr w (Z.land rsc UCP_ADDRESS_IFACE_LEN_MASK))), p)
  else len ← rd8 buf p; Some (len, S p).

Definition ucp_address_unpack_tl_length (w : ucp_worker_t) (flags_ptr p : nat) (addr_version : ucp_object_version_t) : option (Z * bool * nat) :=
  if unified_mode w then
    rsc ← rd8 buf flags_ptr;
    Some (u8 (iface_addr_len (iface_attr w (Z.land rsc UCP_ADDRESS_IFACE_LEN_MASK))), has rsc UCP_ADDRESS_FLAG_LAST, p)
  else
    b ← rd8 buf p;
    '(len, p) ← ucp_address_unpack_byte_extended p UCP_ADDRESS_IFACE_LEN_MASK addr_version;
    Some (len, has b UCP_ADDRESS_FLAG_LAST, p).

(** Version, flags and the position after the header. *)
Definition ucp_address_unpack_header : option (ucp_object_version_t * Z * nat) :=
  h ← rd8 buf O;
  let addr_version := Z.land h UCP_ADDRESS_HEADER_VERSION_MASK in
  if addr_version =? version_num UCP_OBJECT_VERSION_V1 then Some (UCP_OBJECT_VERSION_V1, Z.shiftr h UCP_ADDRESS_HEADER_FLAGS_SHIFT_V1, 1%nat)
  else
    _ ← assert (addr_version =? version_num UCP_OBJECT_VERSION_V2);
    addr_flags ← rd8 buf 1%nat;
    Some (UCP_OBJECT_VERSION_V2, addr_flags, 2%nat).

Definition ucp_address_get_uuid : option Z :=
  '(_, flags, p) ← ucp_address_unpack_header;
  if has flags UCP_ADDRESS_HEADER_FLAG_WORKER_UUID then rd 8 buf p else Some UCP_ADDRESS_DEFAULT_WORKER_UUID.

Definition ucp_address_get_client_id : option Z :=
  '(_, flags, p) ← ucp_address_unpack_header;
  if negb (has flags UCP_ADDRESS_HEADER_FLAG_CLIENT_ID) then Some UCP_ADDRESS_DEFAULT_CLIENT_ID
  else rd 8 buf (if has flags UCP_ADDRESS_HEADER_FLAG_WORKER_UUID then p + 16 else p).

Definition ucp_address_is_am_only : option bool :=
  '(_, flags, _) ← ucp_address_unpack_header;
  Some (has flags UCP_ADDRESS_HEADER_FLAG_AM_ONLY).

(** The devices seen so far, with their index and system device. *)
Fixpoint find_remote_device (devs : list (Z * Z)) (dev_index sys_dev unique_dev_index : Z) : option Z :=
  match devs with
  | [] => None
  | (di, sd) :: devs =>
      if (di =? dev_index) || (negb (sd =? UCS_SYS_DEVICE_ID_UNKNOWN) && (sd =? sys_dev)) then Some unique_dev_index
      else find_remote_device devs dev_index sys_dev (u8 (unique_dev_index + 1))
  end.

Definition ucp_address_get_remote_device_index (devs : list (Z * Z)) (dev_index sys_dev : Z) : option (Z * list (Z * Z)) :=
  match find_remote_device devs dev_index sys_dev 0 with
  | Some i => Some (i, devs)
  | None =>
      _ ← assert (Z.of_nat (length devs) <? UCP_MAX_RESOURCES);
      Some (u8 (Z.of_nat (length devs)), devs ++ [(dev_index, sys_dev)])
  end.

(** The endpoint addresses; [n] more fit. *)
Fixpoint unpack_ep_addrs (w : ucp_worker_t) (flags_ptr : nat) (n : nat) (p : nat) : res (list ucp_address_entry_ep_addr * nat) :=
  match n with
  | O => err UCS_ERR_INVALID_PARAM
  | S n =>
      '(len, p) ⇐ lift (ucp_address_unpack_tl_length_ep w flags_ptr p);
      let addr := slice len buf p in
      let p := (p + Z.to_nat len)%nat in
      b ⇐ lift (rd8 buf p);
      remote_lane ⇐ lift (rd8 buf (S p));
      let e := EntryEpAddr (Z.land b UCP_ADDRESS_IFACE_LEN_MASK) remote_lane addr len in
      if has b UCP_ADDRESS_FLAG_LAST then ok ([e], S (S p))
      else '(es, p) ⇐ unpack_ep_addrs w flags_ptr n (S (S p)); ok (e :: es, p)
  end.

(** A device of the buffer, as its header gives it. *)
Record device_info := DeviceInfo { di_md_index : Z; di_addr_len : Z; di_num_paths : Z; di_sys_dev : Z; di_addr : list Z }.

(** The entry of a resource, and whether it is the last one of the device. *)
Definition unpack_tl (w : ucp_worker_t) (unpack_flags : Z) (addr_version : ucp_object_version_t) (di : device_info) (dev_index : Z)
    (devs : list (Z * Z)) (p : nat) : res (ucp_address_entry * bool * list (Z * Z) * nat) :=
  csum ⇐ lift (rd 2 buf p);
  let p := (p + 2)%nat in
  '(unique, devs) ⇐ lift (ucp_address_get_remote_device_index devs dev_index (di_sys_dev di));
  '(a, attr_len) ⇐ ucp_address_unpack_iface_attr w p unpack_flags addr_version;
  let flags_ptr := ucp_address_iface_flags_ptr w p (p + attr_len) in
  '(len, last_tl, p) ⇐ lift (ucp_address_unpack_tl_length w flags_ptr (p + attr_len) addr_version);
  let iface_addr := if 0 <? len then Some (slice len buf p) else None in
  let p := (p + Z.to_nat len)%nat in
  flags ⇐ lift (rd8 buf flags_ptr);
  '(eps, p) ⇐ (if has flags UCP_ADDRESS_FLAG_HAS_EP_ADDR then unpack_ep_addrs w flags_ptr (Z.to_nat UCP_MAX_LANES) p else ok ([], p));
  ok (AddressEntry (if 0 <? di_addr_len di then Some (di_addr di) else None) (di_addr_len di) iface_addr eps a (di_num_paths di) csum
        (di_md_index di) (di_sys_dev di) unique, last_tl, devs, p).

(** The resources of a device; [n] more entries fit in the address list. *)
Fixpoint unpack_tls (w : ucp_worker_t) (unpack_flags : Z) (addr_version : ucp_object_version_t) (di : device_info) (dev_index : Z)
    (n : nat) (devs : list (Z * Z)) (p : nat) : res (list ucp_address_entry * nat * list (Z * Z) * nat) :=
  match n with
  | O => err UCS_ERR_INVALID_PARAM
  | S n =>
      match unpack_tl w unpack_flags addr_version di dev_index devs p with
      | None => None
      | Some (inl _) => err UCS_ERR_INVALID_PARAM
      | Some (inr (e, last_tl, devs, p)) =>
          if last_tl then ok ([e], n, devs, p)
          else '(es, n, devs, p) ⇐ unpack_tls w unpack_flags addr_version di dev_index n devs p; ok (e :: es, n, devs, p)
      end
  end.

(** The header of a device: what it says, whether it is the last one, and whether it has no resources. *)
Definition unpack_device_info (addr_version : ucp_object_version_t) (p : nat) : option (device_info * bool * bool * nat) :=
  '(md_index, empty_dev, p) ← ucp_address_unpack_md_info p addr_version;
  b ← rd8 buf p;
  let flags := Z.land b (Z.lnot UCP_ADDRESS_DEVICE_LEN_MASK) in
  '(dev_addr_len, p) ← ucp_address_unpack_byte_extended p UCP_ADDRESS_DEVICE_LEN_MASK addr_version;
  '(dev_num_paths, p) ← (if has flags UCP_ADDRESS_FLAG_NUM_PATHS then n ← rd8 buf p; Some (n, S p) else Some (1, p));
  '(sys_dev, p) ← (if has flags UCP_ADDRESS_FLAG_SYS_DEVICE then n ← rd8 buf p; Some (n, S p) else Some (UCS_SYS_DEVICE_ID_UNKNOWN, p));
  Some (DeviceInfo md_index dev_addr_len dev_num_paths sys_dev (slice dev_addr_len buf p), has flags UCP_ADDRESS_FLAG_LAST, empty_dev,
        (p + Z.to_nat dev_addr_len)%nat).

(** [None] is also a read past the end of the address: [ucp_address_unpack] is not
    given its length, and reads whatever lies behind. *)
Fixpoint unpack_devices (fuel : nat) (w : ucp_worker_t) (unpack_flags : Z) (addr_version : ucp_object_version_t) (dev_index : Z)
    (n : nat) (devs : list (Z * Z)) (p : nat) : res (list ucp_address_entry) :=
  match fuel with
  | O => None
  | S fuel =>
      '(di, last_dev, empty_dev, p) ⇐ lift (unpack_device_info addr_version p);
      '(es, n, devs, p) ⇐ (if empty_dev then ok ([], n, devs, p) else unpack_tls w unpack_flags addr_version di dev_index n devs p);
      if last_dev then ok es
      else es' ⇐ unpack_devices fuel w unpack_flags addr_version (u8 (dev_index + 1)) n devs p; ok (es ++ es')
  end.

(** The part before the devices: the identifiers, the name and the position after. *)
Definition unpack_prefix (unpack_flags : Z) : option (ucp_object_version_t * Z * Z * list Z * nat) :=
  '(addr_version, addr_flags, p) ← ucp_address_unpack_header;
  '(uuid, machine_id, p) ← (if (has unpack_flags UCP_ADDRESS_PACK_FLAG_WORKER_UUID && is_v1 addr_version) || has addr_flags UCP_ADDRESS_HEADER_FLAG_WORKER_UUID then
                              uuid ← ucp_address_get_uuid; machine_id ← rd 8 buf (p + 8); Some (uuid, machine_id, (p + 16)%nat)
                            else Some (0, 0, p));
  let p := if has addr_flags UCP_ADDRESS_HEADER_FLAG_CLIENT_ID then (p + 8)%nat else p in
  '(name, p) ← (if has addr_flags UCP_ADDRESS_HEADER_FLAG_DEBUG_INFO && has unpack_flags UCP_ADDRESS_PACK_FLAG_WORKER_NAME
                then ucp_address_unpack_worker_address_name p else Some (UCP_WIREUP_EMPTY_PEER_NAME, p));
  Some (addr_version, uuid, machine_id, name, p).

Definition ucp_address_unpack (w : ucp_worker_t) (unpack_flags : Z) (mem_ok : bool) : res ucp_unpacked_address :=
  '(addr_version, uuid, machine_id, name, p) ⇐ lift (unpack_prefix unpack_flags);
  b ⇐ lift (rd8 buf p);
  if b =? UCP_NULL_RESOURCE then ok (Unpacked uuid machine_id name [])
  else if negb mem_ok then err UCS_ERR_NO_MEMORY
  else
    es ⇐ unpack_devices (S (length buf)) w unpack_flags addr_version 0 (Z.to_nat UCP_MAX_RESOURCES) [] p;
    ok (Unpacked uuid machine_id name es).

End unpack.

End Address.
