(* ===== verification/AddressFormat.v ===== *)
(** The bytes of a worker address.

    [enc_address] gives the bytes of an address as a function of the worker, without
    positions and without the flags that are added to bytes already written; the lemmas
    show that the operations of [Address] that pack write these bytes. *)

From S2P Require Import Prelude.
From S2P Require Import Bits.
From S2P Require Import Float8.
From S2P Require Import Address.

Module AddressFormat.
Import Bits Float8 Address.
#[local] Open Scope res_scope.

Definition byte (b : Z) : Prop := 0 <= b < 256.

(** ** Bits of a byte *)

Lemma byte_lor a b : byte a -> byte b -> byte (Z.lor a b).
Proof.
  unfold byte. intros Ha Hb. split; [apply Z.lor_nonneg; lia|]. destruct (Z.eq_dec (Z.lor a b) 0) as [->|Hn]; [lia|].
  apply (Z.log2_lt_pow2 _ 8); [pose proof (proj2 (Z.lor_nonneg a b)); lia|]. rewrite Z.log2_lor by lia.
  assert (forall x, 0 <= x < 256 -> Z.log2 x < 8) as Hl.
  { intros x Hx. destruct (Z.eq_dec x 0) as [->|]; [done|]. apply Z.log2_lt_pow2; lia. }
  pose proof (Hl a Ha). pose proof (Hl b Hb). lia.
Qed.

Lemma u8_byte b : byte b -> u8 b = b.
Proof. intros. apply u_wrap_small. exact H. Qed.

(** The low bits of a byte with flags above them. *)
Lemma land_low k x f : 0 <= k -> 0 <= x < 2 ^ k -> Z.land f (Z.ones k) = 0 -> Z.land (Z.lor x f) (Z.ones k) = x.
Proof. intros Hk Hx Hf. rewrite Z.land_lor_distr_l, Hf, Z.lor_0_r, Z.land_ones, Z.mod_small by done. done. Qed.

Lemma has_high k x f flag : 0 <= k -> 0 <= x < 2 ^ k -> Z.land flag (Z.ones k) = 0 -> has (Z.lor x f) flag = has f flag.
Proof.
  intros Hk Hx Hf. unfold has. do 2 f_equal. rewrite Z.land_lor_distr_l. rewrite <- (Z.mod_small x (2 ^ k)), <- Z.land_ones by done.
  rewrite <- Z.land_assoc, (Z.land_comm (Z.ones k)), Hf, Z.land_0_r. done.
Qed.

(** ** Little endian numbers *)

Lemma le_bytes_length n x : length (le_bytes n x) = n.
Proof. revert x. induction n as [|n IH]; intros x; cbn; [done|]. by rewrite IH. Qed.

Lemma le_bytes_byte n x : Forall byte (le_bytes n x).
Proof. revert x. induction n as [|n IH]; intros x; cbn; constructor; [apply Z.mod_pos_bound; lia|apply IH]. Qed.

Lemma le_val_bytes n x : 0 <= x < 256 ^ Z.of_nat n -> le_val (le_bytes n x) = x.
Proof.
  revert x. induction n as [|n IH]; intros x Hx; [cbn in *; lia|]. cbn [le_bytes le_val]. rewrite Nat2Z.inj_succ, Z.pow_succ_r in Hx by lia.
  rewrite IH; [pose proof (Z.div_mod x 256); lia|]. split; [apply Z.div_pos; lia|]. apply Z.div_lt_upper_bound; lia.
Qed.

(** ** Writing

    [mk pre rest] is the cursor after [pre]. *)
Definition mk (pre rest : list Z) : cursor := (pre ++ rest, length pre).

Definition writes (f : cursor -> option cursor) (bs : list Z) : Prop :=
  forall pre rest, (length bs <= length rest)%nat -> f (mk pre rest) = Some (mk (pre ++ bs) (drop (length bs) rest)).

Definition rwrites (f : cursor -> res cursor) (bs : list Z) : Prop :=
  forall pre rest, (length bs <= length rest)%nat -> f (mk pre rest) = ok (mk (pre ++ bs) (drop (length bs) rest)).

Lemma writes_none : writes Some [].
Proof. intros pre rest _. cbn. by rewrite drop_0, app_nil_r. Qed.

Lemma writes_bind f g a b : writes f a -> writes g b -> writes (fun c => f c ≫= g) (a ++ b).
Proof.
  intros Hf Hg pre rest Hl. rewrite length_app in *. cbn beta. rewrite (bind_eq _ _ _ (Hf pre rest ltac:(lia))).
  rewrite Hg by (rewrite length_drop; lia). by rewrite <- app_assoc, drop_drop.
Qed.

Lemma writes_if (b : bool) f bs : writes f bs -> writes (fun c => if b then f c else Some c) (if b then bs else []).
Proof. destruct b; [done|]. intros _. apply writes_none. Qed.

Lemma writes_ext f g bs : (forall c, f c = g c) -> writes g bs -> writes f bs.
Proof. intros He Hg pre rest Hl. rewrite He. by apply Hg. Qed.

Lemma rwrites_lift f bs : writes f bs -> rwrites (fun c => lift (f c)) bs.
Proof. intros H pre rest Hl. by rewrite H. Qed.

Lemma rwrites_bind f g a b : rwrites f a -> rwrites g b -> rwrites (fun c => rbind (f c) g) (a ++ b).
Proof.
  intros Hf Hg pre rest Hl. rewrite length_app in *. cbn beta. rewrite Hf by lia. cbn [rbind ok].
  rewrite Hg by (rewrite length_drop; lia). by rewrite <- app_assoc, drop_drop.
Qed.

Lemma put8_writes b : byte b -> writes (put8 b) [b].
Proof.
  intros Hb pre rest Hl. unfold put8, mk. cbn [fst snd]. destruct rest as [|x rest]; [cbn in Hl; lia|].
  rewrite decide_True by (rewrite length_app; cbn; lia). rewrite u8_byte by done. do 2 f_equal.
  - rewrite insert_app_r_alt, Nat.sub_diag by done. cbn. by rewrite <- app_assoc, drop_0.
  - rewrite length_app. cbn. lia.
Qed.

Lemma put_bytes_writes bs : Forall byte bs -> writes (put_bytes bs) bs.
Proof.
  induction 1 as [|b bs Hb _ IH]; [apply writes_none|]. cbn [put_bytes]. apply (writes_bind (put8 b) (put_bytes bs) [b] bs); [by apply put8_writes|done].
Qed.

Lemma put_writes n x : writes (put n x) (le_bytes n x).
Proof. apply put_bytes_writes, le_bytes_byte. Qed.

Lemma or8_at pre b post rest fl p : byte b -> byte fl -> p = length pre ->
  or8 p fl (mk (pre ++ b :: post) rest) = Some (mk (pre ++ Z.lor b fl :: post) rest).
Proof.
  intros Hb Hf ->. unfold or8, mk. cbn [fst snd]. rewrite <- !app_assoc, lookup_app_r, Nat.sub_diag by done. cbn.
  rewrite insert_app_r_alt, Nat.sub_diag by done. cbn. rewrite u8_byte by (by apply byte_lor). by rewrite !length_app.
Qed.

Lemma put_address_writes bs len : Forall byte bs -> Z.of_nat (length bs) = len -> rwrites (put_address (inr bs) len) bs.
Proof.
  intros Hb <- pre rest Hl. unfold put_address. rewrite (put_bytes_writes bs Hb pre rest Hl). cbn [lift fmap option_fmap option_map rbind].
  unfold mk at 1. cbn [fst snd]. rewrite Nat2Z.id. unfold mk. by rewrite length_app.
Qed.

(** ** Values in a part of a byte *)

Definition ext (f value max : Z) (v : ucp_object_version_t) : list Z :=
  if negb (is_v1 v) && (max <=? value) then [Z.lor max f; value] else [Z.lor value f].

Definition fits (value max : Z) (v : ucp_object_version_t) : Prop := 0 <= value <= if is_v1 v then max else 255.

Lemma ext_size f value max v : fits value max v -> ucp_address_packed_value_size value max v = Some (Z.of_nat (length (ext f value max v))).
Proof.
  unfold fits, ucp_address_packed_value_size, ext, assert. intros H. destruct (is_v1 v); cbn [negb andb].
  - by rewrite (proj2 (Z.leb_le value max)) by lia.
  - rewrite (proj2 (Z.leb_le value 255)), (Z.leb_antisym _ max) by lia. by destruct (value <? max).
Qed.

Lemma fits_byte value max v : byte max -> fits value max v -> byte value.
Proof. unfold fits, byte. destruct (is_v1 v); lia. Qed.

Lemma pack_byte_extended_writes value max v : byte max -> fits value max v ->
  writes (ucp_address_pack_byte_extended value max v) (ext 0 value max v).
Proof.
  intros Hm Hf. pose proof (fits_byte _ _ _ Hm Hf) as Hb. unfold ext. rewrite !Z.lor_0_r. destruct (negb (is_v1 v) && (max <=? value)) eqn:E.
  - apply (writes_ext _ (fun c => put8 max c ≫= put8 value)); [|by apply (writes_bind _ _ [max] [value]); apply put8_writes].
    intros c. unfold ucp_address_pack_byte_extended, assert. rewrite E. destruct (put8 max c) as [c'|]; [|done]. cbn.
    unfold byte in Hb. by rewrite (proj2 (Z.leb_le value 255)) by lia.
  - apply (writes_ext _ (put8 value)); [|by apply put8_writes]. intros c. unfold ucp_address_pack_byte_extended, assert. rewrite E. cbn.
    rewrite (proj2 (Z.leb_le value max)); [done|]. unfold fits in Hf. apply andb_false_iff in E as [E|E]; [|zbool_hyps; lia]. destruct (is_v1 v); [lia|done].
Qed.

(** A flag in the first byte. *)
Lemma ext_or pre f value max v post rest (b : bool) fl p : byte max -> fits value max v -> byte f -> byte fl -> p = length pre ->
  (if b then or8 p fl (mk (pre ++ ext f value max v ++ post) rest) else Some (mk (pre ++ ext f value max v ++ post) rest)) =
  Some (mk (pre ++ ext (Z.lor f (if b then fl else 0)) value max v ++ post) rest).
Proof.
  intros Hm Hv Hf Hl Hp. pose proof (fits_byte _ _ _ Hm Hv) as Hb. destruct b; [|by rewrite Z.lor_0_r]. unfold ext.
  destruct (negb _ && _); cbn [app]; rewrite or8_at by (done || by apply byte_lor); by rewrite Z.lor_assoc.
Qed.

Lemma ext_length f f' value max v : length (ext f value max v) = length (ext f' value max v).
Proof. unfold ext. by destruct (negb _ && _). Qed.

(** ** Lists whose last element has a flag *)

Fixpoint enc_list {A} (enc : bool -> A -> list Z) (l : list A) : list Z :=
  match l with
  | [] => []
  | [x] => enc true x
  | x :: l => enc false x ++ enc_list enc l
  end.

Lemma enc_list_cons {A} (enc : bool -> A -> list Z) x l : enc_list enc (x :: l) = enc (bool_decide (l = [])) x ++ enc_list enc l.
Proof. destruct l; cbn; [by rewrite app_nil_r|done]. Qed.

Lemma enc_list_snoc {A} (enc : bool -> A -> list Z) l x : enc_list enc (l ++ [x]) = concat (enc false <$> l) ++ enc true x.
Proof.
  induction l as [|y l IH]; [done|]. cbn [app]. rewrite enc_list_cons, IH. rewrite bool_decide_eq_false_2 by (by destruct l). cbn. by rewrite app_assoc.
Qed.

Lemma enc_list_length {A} (enc : bool -> A -> list Z) (size : A -> Z) l : (forall b x, x ∈ l -> Z.of_nat (length (enc b x)) = size x) ->
  Z.of_nat (length (enc_list enc l)) = foldr (fun x n => size x + n) 0 l.
Proof.
  induction l as [|x l IH]; intros H; [done|]. rewrite enc_list_cons, length_app, Nat2Z.inj_add, H, IH by set_solver. done.
Qed.

(** ** Attributes of an interface *)

Lemma ucs_fp8_pack_byte x min max : byte (ucs_fp8_pack x min max).
Proof. unfold ucs_fp8_pack. repeat case_match; apply (u_wrap_range 8); lia. Qed.

Definition fp8_of (range : Z * Z) (x : double) : Z := ucs_fp8_pack (to_ieee x) range.1 range.2.

Lemma atomic_flags_range a b : 0 <= iface_atomic_flags a b < 2 ^ 16.
Proof. unfold iface_atomic_flags. destruct b; [|done]. destruct (_ && _), (_ && _); done. Qed.

Lemma byte_flag (b : bool) x f : byte x -> byte f -> byte (if b then Z.lor x f else x).
Proof. intros. destruct b; [by apply byte_lor|done]. Qed.

Lemma flags_from_byte c e : byte (ucp_address_flags_from_iface_flags c e).
Proof. unfold ucp_address_flags_from_iface_flags. repeat (apply byte_flag; [|done]). done. Qed.

Section format.
Context (w : ucp_worker_t) (ep : option ucp_ep_t) (pf : Z) (v : ucp_object_version_t) (l2r : option (Z -> Z)).

Definition cap_word (r : Z) : Z :=
  let a := iface_attr w r in
  Z.lor (Z.lor (u8 (priority a)) (pack_flags_loop (ucs_for_each_bit UCP_ADDRESS_IFACE_FLAGS) (cap_flags a) 0 (2 ^ 8)))
    (pack_flags_loop (ucs_for_each_bit UCP_ADDRESS_IFACE_EVENT_FLAGS) (cap_event_flags a) 0 (2 ^ 21)).

Definition amo (r : Z) : Z := iface_atomic_flags (iface_attr w r) (Z.testbit (atomic_tls w) r).

Definition prio_word (r : Z) : Z :=
  let x := if has (amo r) UCP_ADDR_IFACE_FLAG_ATOMIC32 then Z.lor (cap_word r) UCP_ADDRESS_V1_FLAG_ATOMIC32 else cap_word r in
  if has (amo r) UCP_ADDR_IFACE_FLAG_ATOMIC64 then Z.lor x UCP_ADDRESS_V1_FLAG_ATOMIC64 else x.

Definition enc_attr_v1 (r : Z) : list Z :=
  le_bytes 4 (double_to_float (overhead (iface_attr w r))) ++ le_bytes 4 (double_to_float (ucp_wireup_iface_bw_distance w (ifaces w r))) ++
  le_bytes 4 (double_to_float (ucp_wireup_iface_lat_distance_v1 w (ifaces w r))) ++ le_bytes 4 (prio_word r).

Definition nsec (x : double) : double := dmul x (of_int UCS_NSEC_PER_SEC).

Definition enc_attr_v2 (r : Z) : list Z :=
  let a := iface_attr w r in
  [fp8_of OVERHEAD_range (nsec (overhead a))] ++ [fp8_of BANDWIDTH_range (ucp_wireup_iface_bw_distance w (ifaces w r))] ++
  [fp8_of LATENCY_range (nsec (ucp_wireup_iface_lat_distance_v2 w (ifaces w r)))] ++ [Z.min 255 (priority a)] ++
  le_bytes 2 (u16 (ucp_address_iface_seg_size a / UCP_ADDRESS_IFACE_SEG_SIZE_FACTOR)) ++
  le_bytes 2 (u16 (Z.lor (ucp_address_flags_from_iface_flags (cap_flags a) (cap_event_flags a)) (amo r))).

(** The latency that the unified format has, negative when atomics are enabled. *)
Definition signed_lat (r : Z) : double :=
  let lat := ucp_wireup_iface_lat_distance_v1 w (ifaces w r) in if Z.testbit (atomic_tls w) r then dopp lat else lat.

Definition enc_attr (f r : Z) : list Z :=
  if unified_mode w then Z.lor r f :: le_bytes 4 (double_to_float (signed_lat r))
  else (if is_v1 v then enc_attr_v1 r else enc_attr_v2 r) ++ (if has pf UCP_ADDRESS_PACK_FLAG_TL_RSC_IDX then [r] else []).

Lemma pack_attr_v1_writes r : writes (ucp_address_pack_iface_attr_v1 w (ifaces w r) (amo r)) (enc_attr_v1 r).
Proof.
  eapply writes_ext; [|refine (writes_bind _ _ _ _ (put_writes 4 _) (writes_bind _ _ _ _ (put_writes 4 _) (writes_bind _ _ _ _ (put_writes 4 _) (put_writes 4 _))))].
  intros c. reflexivity.
Qed.

Lemma pack_attr_v2_writes r : 0 <= priority (iface_attr w r) ->
  ucp_address_iface_seg_size (iface_attr w r) / UCP_ADDRESS_IFACE_SEG_SIZE_FACTOR <= 65535 ->
  writes (ucp_address_pack_iface_attr_v2 w (ifaces w r) (amo r)) (enc_attr_v2 r).
Proof.
  intros Hp Hs. assert (Hm : byte (Z.min 255 (priority (iface_attr w r)))) by (unfold byte; lia).
  eapply writes_ext; [|refine (writes_bind _ _ _ _ (put8_writes _ (ucs_fp8_pack_byte _ _ _)) (writes_bind _ _ _ _ (put8_writes _ (ucs_fp8_pack_byte _ _ _))
    (writes_bind _ _ _ _ (put8_writes _ (ucs_fp8_pack_byte _ _ _)) (writes_bind _ _ _ _ (put8_writes _ Hm) (writes_bind _ _ _ _ (put_writes 2 _) (put_writes 2 _))))))].
  intros c. unfold ucp_address_pack_iface_attr_v2, UCS_FP8_PACK. cbn [fst snd OVERHEAD_range BANDWIDTH_range LATENCY_range].
  change (attr (ifaces w r)) with (iface_attr w r).
  repeat match goal with |- context [if ?b then Some (ucs_fp8_pack _ _ _) else None] => change b with true; cbv iota end. cbn [mbind option_bind].
  apply Z.leb_le in Hs. unfold assert, nsec. rewrite Hs.
  repeat match goal with |- context [put8 ?x ?c] => destruct (put8 x c) as [?c|]; cbn [mbind option_bind]; [|done] end.
  repeat match goal with |- context [put ?n ?x ?c] => destruct (put n x c) as [?c|]; cbn [mbind option_bind]; [|done] end. done.
Qed.



(** ** Endpoint addresses *)

Definition bytes_of (addr : ucs_status_t + list Z) : list Z := match addr with inl _ => [] | inr bs => bs end.

(** A transport gives an address of the length that it announces. *)
Definition addr_ok (addr : ucs_status_t + list Z) (len : Z) : Prop :=
  addr = inr (bytes_of addr) /\ Forall byte (bytes_of addr) /\ Z.of_nat (length (bytes_of addr)) = len.

Lemma addr_ok_writes addr len : addr_ok addr len -> rwrites (put_address addr len) (bytes_of addr).
Proof. intros (-> & Hb & Hl). by apply put_address_writes. Qed.

(** The lanes of the endpoint that connect a resource point to point. *)
Fixpoint lanes_from (cm : bool) (r lane : Z) (rscs : list Z) : list Z :=
  match rscs with
  | [] => []
  | rsc :: rscs =>
      if (rsc =? r) && ucp_wireup_connect_p2p w r cm then lane :: lanes_from cm r (lane + 1) rscs else lanes_from cm r (lane + 1) rscs
  end.

Definition ep_lanes (r : Z) : list Z :=
  if has pf UCP_ADDRESS_PACK_FLAG_EP_ADDR then match ep with Some e => lanes_from (has_cm_lane e) r 0 (lanes e) | None => [] end else [].

Definition remote_lane (lane : Z) : Z := match l2r with None => lane | Some f => f lane end.

Definition ep_addr (lane : Z) : ucs_status_t + list Z := match ep with Some e => ep_address e lane | None => inr [] end.

Definition enc_ep (r : Z) (last : bool) (lane : Z) : list Z :=
  (if unified_mode w then [] else [ep_addr_len (iface_attr w r)]) ++ bytes_of (ep_addr lane) ++
  [Z.lor (remote_lane lane) (if last then UCP_ADDRESS_FLAG_LAST else 0)] ++ [lane].

Definition ep_ok (r lane : Z) : Prop :=
  addr_ok (ep_addr lane) (ep_addr_len (iface_attr w r)) /\ ep_addr_len (iface_attr w r) <= 255 /\ 0 <= remote_lane lane < 64.

Lemma lanes_from_filter cm r lane rscs n : Z.of_nat (length rscs) <= n ->
  filter (fun i => rscs !! Z.to_nat (i - lane) = Some r /\ ucp_wireup_connect_p2p w r cm = true) (seqZ lane n) = lanes_from cm r lane rscs.
Proof.
  revert lane n. induction rscs as [|rsc rscs IH]; intros lane n Hn; cbn [lanes_from length] in *.
  - apply filter_none. intros i _ [H _]. by rewrite lookup_nil in H.
  - rewrite seqZ_cons by lia. rewrite filter_cons. replace (Z.pred n) with (n - 1) by lia. change (Z.succ lane) with (lane + 1).
    rewrite <- (IH (lane + 1) (n - 1)) by lia. rewrite Z.sub_diag. cbn [Z.to_nat lookup list_lookup].
    rewrite (filter_ext_in (fun i => (rsc :: rscs) !! Z.to_nat (i - lane) = Some r /\ ucp_wireup_connect_p2p w r cm = true)
      (fun i => rscs !! Z.to_nat (i - (lane + 1)) = Some r /\ ucp_wireup_connect_p2p w r cm = true)).
    2:{ intros i Hi%elem_of_seqZ. replace (Z.to_nat (i - lane)) with (S (Z.to_nat (i - (lane + 1)))) by lia. done. }
    destruct (Z.eqb_spec rsc r) as [->|Hne]; cbn [andb].
    + destruct (ucp_wireup_connect_p2p w r cm); [by rewrite decide_True|by rewrite decide_False by naive_solver].
    + rewrite decide_False by naive_solver. done.
Qed.

Lemma p2p_lanes_testbit cm lane rscs map i : 0 <= lane -> lane + Z.of_nat (length rscs) <= 64 -> 0 <= i ->
  Z.testbit (p2p_lanes_from w cm lane rscs map) i =
  Z.testbit map i || match rscs !! Z.to_nat (i - lane) with
                     | Some rsc => (lane <=? i) && (negb (rsc =? UCP_NULL_RESOURCE) && ucp_wireup_connect_p2p w rsc cm) | None => false end.
Proof.
  revert lane map. induction rscs as [|rsc rscs IH]; intros lane map H0 Hl Hi; cbn [p2p_lanes_from length] in *; [by rewrite lookup_nil, orb_false_r|].
  rewrite IH by lia. set (b := negb _ && _). replace (Z.testbit (if b then _ else _) i) with (Z.testbit map i || ((lane =? i) && b)).
  2:{ destruct b; [|by rewrite andb_false_r, orb_false_r]. rewrite ucs_bit_pow, Z.lor_spec, Z.pow2_bits_eqb, andb_true_r by lia. done. }
  rewrite <- orb_assoc. f_equal. destruct (Z.lt_trichotomy lane i) as [Hlt|[->|Hgt]].
  - rewrite (proj2 (Z.eqb_neq lane i)) by lia. replace (Z.to_nat (i - lane)) with (S (Z.to_nat (i - (lane + 1)))) by lia.
    cbn [lookup list_lookup andb orb]. destruct (_ !! _); [|done]. by rewrite !(proj2 (Z.leb_le _ _)) by lia.
  - rewrite Z.eqb_refl, Z.sub_diag, Z.leb_refl. cbn [Z.to_nat lookup list_lookup andb]. fold b. destruct (rscs !! _); [|by rewrite orb_false_r].
    by rewrite (proj2 (Z.leb_gt _ _)), orb_false_r by lia.
  - rewrite (proj2 (Z.eqb_neq lane i)) by lia. rewrite !(proj2 (Z.leb_gt _ _)) by lia. cbn [andb orb]. by repeat case_match.
Qed.

Lemma p2p_lanes_range e : (length (lanes e) <= 64)%nat -> 0 <= p2p_lanes w e < 2 ^ 64.
Proof.
  intros Hl. unfold p2p_lanes. assert (H0 : forall cm lane rscs map, 0 <= map -> 0 <= p2p_lanes_from w cm lane rscs map).
  { intros cm lane rscs. revert lane. induction rscs as [|rsc rscs IH]; intros lane map Hm; [done|]. cbn [p2p_lanes_from]. apply IH.
    destruct (_ && _); [|done]. apply Z.lor_nonneg. split; [done|]. apply (u_wrap_range 64). lia. }
  split; [by apply H0|]. apply Z.bounded_iff_bits_nonneg; [lia|by apply H0|]. intros i Hi. rewrite p2p_lanes_testbit by lia. rewrite Z.bits_0, lookup_ge_None_2 by lia. done.
Qed.

(** The lanes that [ucp_address_do_pack] finds for a resource. *)
Lemma p2p_lanes_rsc e r : (length (lanes e) <= 64)%nat -> 0 <= r < 255 ->
  filter (fun lane => lanes e !! Z.to_nat lane = Some r) (ucs_for_each_bit (p2p_lanes w e)) = lanes_from (has_cm_lane e) r 0 (lanes e).
Proof.
  intros Hl Hr. rewrite for_each_bit_bits by (by apply p2p_lanes_range). rewrite <- (lanes_from_filter _ r 0 (lanes e) 64) by lia.
  unfold bits_of. rewrite list_filter_filter. apply filter_ext_in. intros i Hi%elem_of_seqZ. unfold p2p_lanes.
  rewrite p2p_lanes_testbit, Z.bits_0, Z.sub_0_r, orb_false_l by lia. rewrite (proj2 (Z.leb_le _ _)) by lia.
  split; intros [H1 H2]; rewrite H1 in *; (split; [done|]); rewrite (proj2 (Z.eqb_neq r _)) in * by (unfold UCP_NULL_RESOURCE; lia); done.
Qed.



Lemma enc_ep_length r last lane : ep_ok r lane ->
  Z.of_nat (length (enc_ep r last lane)) = (if unified_mode w then 0 else 1) + ep_addr_len (iface_attr w r) + 1 + 1.
Proof. intros ((_ & _ & Hl) & _ & _). unfold enc_ep. rewrite !length_app. destruct (unified_mode w); cbn [length]; lia. Qed.

(** Where the lane index of an endpoint address is. *)
Definition lane_off (r lane : Z) : nat := length ((if unified_mode w then [] else [ep_addr_len (iface_attr w r)]) ++ bytes_of (ep_addr lane)).

Section lanes.
Context (e : ucp_ep_t) (r : Z).
Hypothesis (Hep : ep = Some e).

Notation mine := (fun lane => lanes e !! Z.to_nat lane = Some r).

(** One endpoint address. *)
Lemma pack_ep_addr ls lane ptr num pre rest : ep_ok r lane -> 0 <= lane < 16 -> mine lane ->
  (length (enc_ep r false lane) <= length rest)%nat ->
  pack_ep_addrs w e l2r v r (lane :: ls) ptr num (mk pre rest) =
  pack_ep_addrs w e l2r v r ls (Some (length pre + lane_off r lane)%nat) (num + 1)
    (mk (pre ++ enc_ep r false lane) (drop (length (enc_ep r false lane)) rest)).
Proof.
  intros (Ha & Hlen & Hrem) Hlane Hm Hl. pose proof Ha as (_ & _ & Hla). assert (Hb : byte (ep_addr_len (iface_attr w r))) by (unfold byte; lia).
  cbn [pack_ep_addrs]. unfold assert, UCP_MAX_LANES. rewrite (proj2 (Z.ltb_lt lane 16)) by lia. cbn [lift fmap option_fmap option_map rbind].
  rewrite Hm. cbn [lift fmap option_fmap option_map rbind]. rewrite Z.eqb_refl. cbn [negb].
  unfold enc_ep in *. rewrite !length_app in Hl. cbn [length] in Hl. rewrite Z.lor_0_r.
  assert (Hlw : writes (ucp_address_pack_tl_length w 255 (ep_addr_len (iface_attr w r)) v false) (if unified_mode w then [] else [ep_addr_len (iface_attr w r)])).
  { unfold ucp_address_pack_tl_length. destruct (unified_mode w); [apply writes_none|by apply put8_writes]. }
  rewrite Hlw by lia. cbn [lift fmap option_fmap option_map rbind].
  replace (ep_address e lane) with (ep_addr lane) by (unfold ep_addr; by rewrite Hep).
  rewrite (addr_ok_writes _ _ Ha) by (rewrite length_drop; lia). cbn [rbind ok].
  change (match l2r with Some f => f lane | None => lane end) with (remote_lane lane).
  change UCP_ADDRESS_IFACE_LEN_MASK with 63. rewrite (proj2 (Z.leb_le (remote_lane lane) 63)) by lia. cbn [lift fmap option_fmap option_map rbind].
  rewrite (put8_writes (remote_lane lane)) by (unfold byte; rewrite ?length_drop; cbn [length]; lia). cbn [lift fmap option_fmap option_map rbind].
  rewrite (put8_writes lane) by (unfold byte; rewrite ?length_drop; cbn [length]; lia). cbn [lift fmap option_fmap option_map rbind].
  unfold lane_off. rewrite !drop_drop, <- !app_assoc, !length_app. cbn [length]. unfold mk at 1. cbn [snd]. rewrite !length_app.
  f_equal. f_equal. f_equal. lia.
Qed.

(** Lanes of other resources are skipped. *)
Lemma pack_ep_addrs_none ls ptr num c : Forall (fun lane => 0 <= lane < 16 /\ is_Some (lanes e !! Z.to_nat lane)) ls -> filter mine ls = [] ->
  pack_ep_addrs w e l2r v r ls ptr num c = ok (c, ptr, num).
Proof.
  induction 1 as [|lane ls [H16 [rsc Hrsc]] _ IH]; intros Hf; [done|]. rewrite filter_cons in Hf.
  case_decide as Hm; [done|]. cbn [pack_ep_addrs]. unfold assert, UCP_MAX_LANES. rewrite (proj2 (Z.ltb_lt lane 16)) by lia.
  cbn [lift fmap option_fmap option_map rbind]. rewrite Hrsc. cbn [lift fmap option_fmap option_map rbind].
  rewrite (proj2 (Z.eqb_neq rsc r)) by congruence. cbn [negb]. by apply IH.
Qed.

Lemma pack_ep_addrs_some ls L l ptr num pre rest :
  Forall (fun lane => 0 <= lane < 16 /\ is_Some (lanes e !! Z.to_nat lane)) ls -> Forall (ep_ok r) (filter mine ls) -> filter mine ls = L ++ [l] ->
  let bs := concat (enc_ep r false <$> L) in let bs' := bs ++ enc_ep r false l in
  (length bs' <= length rest)%nat ->
  pack_ep_addrs w e l2r v r ls ptr num (mk pre rest) =
  ok (mk (pre ++ bs') (drop (length bs') rest), Some (length pre + length bs + lane_off r l)%nat, num + Z.of_nat (length L) + 1).
Proof.
  intros Hls. revert L ptr num pre rest. induction Hls as [|lane ls [H16 [rsc Hrsc]] Hls IH]; intros L ptr num pre rest Hok Hf bs bs' Hl; [by destruct L|].
  rewrite filter_cons in Hok, Hf. case_decide as Hm.
  - inversion Hok as [|? ? Ho Hok']; subst. destruct L as [|l0 L]; cbn [app] in Hf.
    + injection Hf as -> Hf. rewrite pack_ep_addr by done. rewrite pack_ep_addrs_none by done. cbn. by rewrite Nat.add_0_r, Z.add_0_r.
    + injection Hf as -> Hf. unfold bs', bs in *. cbn [fmap list_fmap concat] in *. rewrite !length_app in Hl. rewrite pack_ep_addr by (done || lia).
      rewrite (IH L) by (done || (rewrite length_drop, length_app; unfold fmap in *; lia)).
      rewrite drop_drop, <- !app_assoc, !length_app. cbn [length]. do 2 f_equal; [f_equal; f_equal; unfold fmap; lia|lia].
  - cbn [pack_ep_addrs]. unfold assert, UCP_MAX_LANES. rewrite (proj2 (Z.ltb_lt lane 16)) by lia.
    cbn [lift fmap option_fmap option_map rbind]. rewrite Hrsc. cbn [lift fmap option_fmap option_map rbind].
    rewrite (proj2 (Z.eqb_neq rsc r)) by congruence. cbn [negb]. by apply IH.
Qed.

End lanes.



(** ** Resources *)

Record rsc_ok (r : Z) : Prop := {
  ro_range : 0 <= r < (if unified_mode w then 64 else 128);
  ro_connect : ucp_worker_iface_can_connect (iface_attr w r) = true;
  ro_csum : 0 <= tl_name_csum (tl_rscs w r) < 2 ^ 16;
  ro_priority : 0 <= priority (iface_attr w r) < 256;
  ro_seg_size : 0 <= ucp_address_iface_seg_size (iface_attr w r) < 2 ^ 22;
  ro_address : addr_ok (iface_address (ifaces w r)) (iface_addr_len (iface_attr w r));
  ro_addr_len : fits (iface_addr_len (iface_attr w r)) (if unified_mode w then 255 else UCP_ADDRESS_IFACE_LEN_MASK) v;
  ro_eps : Forall (ep_ok r) (ep_lanes r)
}.

Definition enc_len (f r : Z) : list Z := if unified_mode w then [] else ext f (iface_addr_len (iface_attr w r)) UCP_ADDRESS_IFACE_LEN_MASK v.

Definition enc_tl (f r : Z) : list Z :=
  le_bytes 2 (tl_name_csum (tl_rscs w r)) ++ enc_attr f r ++ enc_len f r ++ bytes_of (iface_address (ifaces w r)) ++ enc_list (enc_ep r) (ep_lanes r).

(** Where the flags of a resource are. *)
Definition flags_off (r : Z) : nat := 2 + (if unified_mode w then 0 else length (enc_attr 0 r)).

Lemma enc_attr_length f r : Z.of_nat (length (enc_attr f r)) = ucp_address_iface_attr_size w pf v.
Proof.
  unfold enc_attr, ucp_address_iface_attr_size. destruct (unified_mode w); [cbn [length]; by rewrite le_bytes_length|]. rewrite length_app.
  destruct (is_v1 v); unfold enc_attr_v1, enc_attr_v2; rewrite !length_app; cbn [length]; rewrite !le_bytes_length; by destruct (has pf _).
Qed.

Lemma pack_attr_writes r : rsc_ok r -> writes (ucp_address_pack_iface_attr w r pf v (Z.testbit (atomic_tls w) r)) (enc_attr 0 r).
Proof.
  intros H. assert (Hr : byte r) by (destruct (ro_range r H); unfold byte; destruct (unified_mode w); lia).
  unfold ucp_address_pack_iface_attr, enc_attr. rewrite Z.lor_0_r. destruct (unified_mode w).
  - apply (writes_bind (put8 r) (put 4 _) [r]); [by apply put8_writes|apply put_writes].
  - change (iface_atomic_flags (attr (ifaces w r)) (Z.testbit (atomic_tls w) r)) with (amo r).
    apply (writes_bind (fun c => if is_v1 v then ucp_address_pack_iface_attr_v1 w (ifaces w r) (amo r) c else ucp_address_pack_iface_attr_v2 w (ifaces w r) (amo r) c)).
    + destruct (is_v1 v); [apply pack_attr_v1_writes|]. apply pack_attr_v2_writes; [apply H|].
      pose proof (ro_seg_size r H). unfold UCP_ADDRESS_IFACE_SEG_SIZE_FACTOR. enough (ucp_address_iface_seg_size (iface_attr w r) / 64 < 65536) by lia.
      apply Z.div_lt_upper_bound; lia.
    + apply (writes_if (has pf UCP_ADDRESS_PACK_FLAG_TL_RSC_IDX) (put8 r)). by apply put8_writes.
Qed.

Lemma pack_len_writes r : rsc_ok r ->
  writes (ucp_address_pack_tl_length w UCP_ADDRESS_IFACE_LEN_MASK (iface_addr_len (iface_attr w r)) v true) (enc_len 0 r).
Proof.
  intros H. pose proof (ro_addr_len r H) as Hf. unfold ucp_address_pack_tl_length, enc_len. destruct (unified_mode w); [apply writes_none|].
  by apply pack_byte_extended_writes.
Qed.

(** A flag of a resource. *)
Lemma tl_or f r fl pre rest : rsc_ok r -> byte f -> byte fl ->
  or8 (length pre + flags_off r) fl (mk (pre ++ enc_tl f r) rest) = Some (mk (pre ++ enc_tl (Z.lor f fl) r) rest).
Proof.
  intros H Hf Hl. pose proof (ro_addr_len r H) as Hfits. pose proof (ro_range r H) as Hr. unfold enc_tl, flags_off, enc_attr, enc_len in *.
  destruct (unified_mode w).
  - cbn [app]. rewrite !(app_assoc pre (le_bytes 2 _)). rewrite (or8_at (pre ++ le_bytes 2 _)); [by rewrite Z.lor_assoc|apply byte_lor; [unfold byte; lia|done]|done|].
    rewrite length_app, le_bytes_length. lia.
  - set (a := _ ++ (if has pf _ then _ else _)). rewrite !(app_assoc pre), !(app_assoc (pre ++ _)).
    apply (ext_or _ _ _ _ _ _ _ true); try done. rewrite !length_app, le_bytes_length. lia.
Qed.

(** The bits of the flags of a resource before they are set. *)
Lemma tl_flags_clear r pre rest : rsc_ok r -> exists b, (mk (pre ++ enc_tl 0 r) rest).1 !! (length pre + flags_off r)%nat = Some b /\ has b UCP_ADDRESS_FLAG_HAS_EP_ADDR = false.
Proof.
  intros H. pose proof (ro_addr_len r H) as Hfits. pose proof (ro_range r H) as Hr. unfold mk, enc_tl, flags_off, enc_attr, enc_len in *. cbn [fst].
  rewrite <- !app_assoc, lookup_app_r, lookup_app_r by (rewrite ?le_bytes_length; lia). rewrite le_bytes_length.
  destruct (unified_mode w).
  - replace (_ - _ - _)%nat with O by lia. eexists. split; [done|]. by rewrite (has_high 6).
  - set (a := _ ++ (if has pf _ then _ else _)). rewrite lookup_app_r by (fold a; lia). replace (_ - _ - _ - _)%nat with O by (fold a; lia).
    unfold ext, fits in *. destruct (negb _ && _) eqn:E; (eexists; split; [done|]); [done|]. apply (has_high 6); [done| |done].
    change UCP_ADDRESS_IFACE_LEN_MASK with 63 in *. apply andb_false_iff in E as [E|E]; [destruct (is_v1 v); [lia|done]|]. zbool_hyps. lia.
Qed.



(** The flags that are always packed, and the endpoint when its addresses are. *)
Definition flags_ok : Prop :=
  has pf UCP_ADDRESS_PACK_FLAG_IFACE_ADDR = true /\
  (has pf UCP_ADDRESS_PACK_FLAG_EP_ADDR = true -> match ep with Some e => (length (lanes e) <= 16)%nat | None => False end).

Definition ep_flag (r : Z) : Z := if bool_decide (ep_lanes r = []) then 0 else UCP_ADDRESS_FLAG_HAS_EP_ADDR.

Lemma ep_flag_byte r : byte (ep_flag r).
Proof. unfold ep_flag. by case_bool_decide. Qed.

(** A resource up to its endpoint addresses. *)
Definition enc_base (r : Z) : list Z :=
  le_bytes 2 (tl_name_csum (tl_rscs w r)) ++ enc_attr 0 r ++ enc_len 0 r ++ bytes_of (iface_address (ifaces w r)).

Lemma enc_tl_base r : enc_tl 0 r = enc_base r ++ enc_list (enc_ep r) (ep_lanes r).
Proof. unfold enc_tl, enc_base. by rewrite <- !app_assoc. Qed.

Lemma pack_tl_base r pre rest : flags_ok -> rsc_ok r -> (length (enc_base r) <= length rest)%nat ->
  pack_tl w ep l2r pf v r (mk pre rest) =
  (let flags_ptr := (length pre + flags_off r)%nat in let c := mk (pre ++ enc_base r) (drop (length (enc_base r)) rest) in
   if has pf UCP_ADDRESS_PACK_FLAG_EP_ADDR then
      ep ⇐ lift ep;
      '(c, ep_lane_ptr, num_ep_addrs) ⇐ pack_ep_addrs w ep l2r v r (ucs_for_each_bit (p2p_lanes w ep)) None 0 c;
      if 0 <? num_ep_addrs then
        p ⇐ lift ep_lane_ptr;
        c ⇐ lift (or8 p UCP_ADDRESS_FLAG_LAST c);
        c ⇐ lift (or8 flags_ptr UCP_ADDRESS_FLAG_HAS_EP_ADDR c);
        ok (c, flags_ptr)
      else no_ep_addrs flags_ptr c
    else no_ep_addrs flags_ptr c).
Proof.
  intros [Hif _] H Hl. unfold pack_tl. change (attr (ifaces w r)) with (iface_attr w r). rewrite (ro_connect r H). cbn [negb]. rewrite Hif.
  unfold enc_base in *. rewrite !length_app in Hl. rewrite (put_writes 2 _ pre) by lia. cbn [lift fmap option_fmap option_map rbind].
  rewrite (pack_attr_writes r H) by (rewrite length_drop; lia). cbn [lift fmap option_fmap option_map rbind].
  rewrite (pack_len_writes r H) by (rewrite !length_drop; lia). cbn [lift fmap option_fmap option_map rbind].
  rewrite (addr_ok_writes _ _ (ro_address r H)) by (rewrite !length_drop; lia). cbn [rbind ok].
  replace (ucp_address_iface_flags_ptr w _ _) with (length pre + flags_off r)%nat.
  2:{ unfold ucp_address_iface_flags_ptr, flags_off, mk. cbn [snd]. rewrite !length_app, le_bytes_length. destruct (unified_mode w); lia. }
  rewrite !drop_drop, !app_assoc, !length_app, <- !app_assoc. cbv zeta. by rewrite !Nat.add_assoc.
Qed.

Lemma ep_or r lane pre rest : ep_ok r lane ->
  or8 (length pre + lane_off r lane) UCP_ADDRESS_FLAG_LAST (mk (pre ++ enc_ep r false lane) rest) = Some (mk (pre ++ enc_ep r true lane) rest).
Proof.
  intros (_ & _ & Hr). unfold enc_ep, lane_off. rewrite !(app_assoc _ (bytes_of _)), !(app_assoc pre). cbn [app]. rewrite Z.lor_0_r.
  apply or8_at; [unfold byte; lia|done|]. rewrite !length_app. lia.
Qed.

Lemma pack_tl_writes r pre rest : flags_ok -> rsc_ok r -> (length (enc_tl 0 r) <= length rest)%nat ->
  pack_tl w ep l2r pf v r (mk pre rest) =
  ok (mk (pre ++ enc_tl (ep_flag r) r) (drop (length (enc_tl 0 r)) rest), (length pre + flags_off r)%nat).
Proof.
  intros Hfl H Hl. assert (Hno : ep_lanes r = [] -> no_ep_addrs (length pre + flags_off r) (mk (pre ++ enc_base r) (drop (length (enc_base r)) rest)) =
    ok (mk (pre ++ enc_tl (ep_flag r) r) (drop (length (enc_tl 0 r)) rest), (length pre + flags_off r)%nat)).
  { intros Hn. unfold ep_flag. rewrite bool_decide_eq_true_2 by done. pose proof (enc_tl_base r) as Hb. rewrite Hn in Hb. cbn [enc_list] in Hb.
    rewrite app_nil_r in Hb. rewrite <- Hb. unfold no_ep_addrs, rd8. destruct (tl_flags_clear r pre (drop (length (enc_tl 0 r)) rest) H) as (b & -> & Hb').
    cbn [lift fmap option_fmap option_map rbind]. by rewrite Hb'. }
  rewrite enc_tl_base, length_app in Hl. rewrite pack_tl_base by (done || lia). cbv zeta.
  destruct (has pf UCP_ADDRESS_PACK_FLAG_EP_ADDR) eqn:Eep; [|apply Hno; unfold ep_lanes; by rewrite Eep].
  destruct Hfl as [_ He]. specialize (He Eep). destruct ep as [e|] eqn:Ee; [|done]. cbn [lift fmap option_fmap option_map rbind].
  assert (Hr : 0 <= r < 255) by (pose proof (ro_range r H); destruct (unified_mode w); lia).
  pose proof (p2p_lanes_rsc e r ltac:(lia) Hr) as Hlanes. set (ls := ucs_for_each_bit _) in *.
  assert (Hls : Forall (fun lane => 0 <= lane < 16 /\ is_Some (lanes e !! Z.to_nat lane)) ls).
  { apply Forall_forall. intros lane. unfold ls. rewrite for_each_bit_bits by (apply p2p_lanes_range; lia). unfold bits_of. rewrite list_elem_of_filter, elem_of_seqZ.
    intros [Ht Hi]. unfold p2p_lanes in Ht. rewrite p2p_lanes_testbit, Z.bits_0, Z.sub_0_r in Ht by lia. cbn [orb] in Ht.
    destruct (lanes e !! Z.to_nat lane) as [x|] eqn:E; [|done]. split; [apply lookup_lt_Some in E; lia|done]. }
  assert (Hel : ep_lanes r = lanes_from (has_cm_lane e) r 0 (lanes e)) by (unfold ep_lanes; by rewrite Eep, Ee).
  pose proof (ro_eps r H) as Hok. destruct (decide (ep_lanes r = [])) as [Hn|Hn].
  - rewrite pack_ep_addrs_none; [|done|congruence]. cbn. by apply Hno.
  - destruct (exists_last Hn) as (L & l & HL). rewrite <- Hel, HL in *. rewrite enc_list_snoc in Hl.
    assert (Hlen : length (concat (enc_ep r false <$> L) ++ enc_ep r false l) = length (concat (enc_ep r false <$> L) ++ enc_ep r true l))
      by (unfold enc_ep; by rewrite !length_app).
    rewrite (pack_ep_addrs_some e r Ee ls L l); [|done|by rewrite Hlanes|by rewrite Hlanes|rewrite Hlen, length_drop; lia].
    cbn [rbind ok]. rewrite (proj2 (Z.ltb_lt 0 _)) by lia. cbn [lift fmap option_fmap option_map rbind].
    rewrite !app_assoc. replace (length (pre ++ enc_base r) + _ + _)%nat with (length ((pre ++ enc_base r) ++ concat (enc_ep r false <$> L)) + lane_off r l)%nat
      by (rewrite !length_app; done).
    rewrite ep_or by (rewrite Forall_app in Hok; destruct Hok as [_ Hok]; by inversion Hok). cbn [lift fmap option_fmap option_map rbind].
    rewrite <- !app_assoc. rewrite <- enc_list_snoc, <- HL, <- enc_tl_base. rewrite tl_or by done. cbn [lift fmap option_fmap option_map rbind].
    unfold ep_flag. rewrite bool_decide_eq_false_2 by (rewrite HL; by destruct L). rewrite drop_drop. do 4 f_equal.
    rewrite enc_tl_base, HL, enc_list_snoc. rewrite !length_app in *. lia.
Qed.



Definition enc_rsc (last : bool) (r : Z) : list Z := enc_tl (Z.lor (ep_flag r) (if last then UCP_ADDRESS_FLAG_LAST else 0)) r.

Lemma enc_tl_length f f' r : length (enc_tl f r) = length (enc_tl f' r).
Proof.
  unfold enc_tl. rewrite !length_app. f_equal. f_equal; [pose proof (enc_attr_length f r); pose proof (enc_attr_length f' r); lia|].
  f_equal. unfold enc_len. destruct (unified_mode w); [done|apply ext_length].
Qed.

Lemma pack_tls_writes rs r p pre rest : flags_ok -> Forall rsc_ok (rs ++ [r]) ->
  let bs := concat (enc_rsc false <$> rs) in let bs' := bs ++ enc_rsc false r in
  (length bs' <= length rest)%nat ->
  pack_tls w ep l2r pf v (rs ++ [r]) p (mk pre rest) = ok (mk (pre ++ bs') (drop (length bs') rest), Some (length (pre ++ bs) + flags_off r)%nat).
Proof.
  intros Hfl Hok. revert p pre rest. induction rs as [|r0 rs IH]; intros p pre rest bs bs' Hl; cbn [app] in Hok; inversion Hok as [|? ? H0 Hok']; subst.
  - unfold bs', bs in *. cbn [fmap list_fmap concat app pack_tls] in *. unfold enc_rsc in *. rewrite Z.lor_0_r in *. rewrite (enc_tl_length _ 0) in *.
    rewrite pack_tl_writes by done. cbn. by rewrite app_nil_r.
  - unfold bs', bs in *. rewrite fmap_cons in *. cbn [concat app pack_tls] in *. rewrite <- app_assoc, length_app in Hl.
    assert (He : enc_tl (ep_flag r0) r0 = enc_rsc false r0) by (unfold enc_rsc; by rewrite Z.lor_0_r).
    assert (He0 : length (enc_tl 0 r0) = length (enc_rsc false r0)) by (rewrite <- He; apply enc_tl_length).
    rewrite pack_tl_writes by (done || lia). cbn [rbind ok]. rewrite He, He0. rewrite IH by (done || (rewrite length_drop; lia)).
    rewrite drop_drop, <- !app_assoc. by rewrite (length_app (enc_rsc false r0)).
Qed.

(** ** Devices

    A device is the list of its resources; what is packed of it comes from the last one. *)
Definition dev_rsc (g : list Z) : Z := List.last g 0.
Definition dev_md (g : list Z) : Z := md_index (tl_rscs w (dev_rsc g)).
Definition dev_len (g : list Z) : Z := if has pf UCP_ADDRESS_PACK_FLAG_DEVICE_ADDR then device_addr_len (iface_attr w (dev_rsc g)) else 0.
Definition dev_paths (g : list Z) : Z := dev_num_paths (iface_attr w (dev_rsc g)).
Definition dev_sys (g : list Z) : Z := if has pf UCP_ADDRESS_PACK_FLAG_SYS_DEVICE then sys_device (tl_rscs w (dev_rsc g)) else UCS_SYS_DEVICE_ID_UNKNOWN.
Definition dev_bytes (g : list Z) : list Z := if has pf UCP_ADDRESS_PACK_FLAG_DEVICE_ADDR then bytes_of (device_address (ifaces w (dev_rsc g))) else [].

Definition dev_of (g : list Z) : ucp_address_packed_device_t :=
  PackedDevice (dev_len g) (foldr (fun r m => Z.lor (2 ^ r) m) 0 g) (dev_rsc g) (dev_paths g) (dev_sys g)
    (foldr (fun r n => Z.of_nat (length (enc_tl 0 r)) + n) 0 g).

Definition md_flags (g : list Z) : Z :=
  if is_v1 v then
    Z.lor (if has (md_attr_flags w (dev_md g)) UCT_MD_FLAG_ALLOC then UCP_ADDRESS_FLAG_MD_ALLOC else 0)
      (if has (md_attr_flags w (dev_md g)) UCT_MD_FLAG_REG then UCP_ADDRESS_FLAG_MD_REG else 0)
  else 0.

Definition dev_flags (last : bool) (g : list Z) : Z :=
  Z.lor (Z.lor (if last then UCP_ADDRESS_FLAG_LAST else 0) (if 1 <? dev_paths g then UCP_ADDRESS_FLAG_NUM_PATHS else 0))
    (if negb (dev_sys g =? UCS_SYS_DEVICE_ID_UNKNOWN) then UCP_ADDRESS_FLAG_SYS_DEVICE else 0).

Definition enc_dev (last : bool) (g : list Z) : list Z :=
  ext (md_flags g) (dev_md g) (ucp_address_md_mask v) v ++ ext (dev_flags last g) (dev_len g) UCP_ADDRESS_DEVICE_LEN_MASK v ++
  (if 1 <? dev_paths g then [dev_paths g] else []) ++ (if negb (dev_sys g =? UCS_SYS_DEVICE_ID_UNKNOWN) then [dev_sys g] else []) ++
  dev_bytes g ++ enc_list enc_rsc g.

Record dev_ok (g : list Z) : Prop := {
  do_ne : g <> [];
  do_rscs : Forall rsc_ok g;
  do_bits : tl_bits (Z.land (tl_bitmap w) (pd_tl_bitmap (dev_of g))) = g;
  do_md : fits (dev_md g) (ucp_address_md_mask v) v;
  do_len : fits (dev_len g) UCP_ADDRESS_DEVICE_LEN_MASK v;
  do_addr : has pf UCP_ADDRESS_PACK_FLAG_DEVICE_ADDR = true -> addr_ok (device_address (ifaces w (dev_rsc g))) (dev_len g);
  do_paths : 1 <= dev_paths g <= 255;
  do_sys : byte (dev_sys g)
}.

Lemma md_mask_byte : byte (ucp_address_md_mask v).
Proof. unfold ucp_address_md_mask. by destruct (is_v1 v). Qed.

Lemma has_md_mask x fl : fl = UCT_MD_FLAG_ALLOC \/ fl = UCT_MD_FLAG_REG -> has (Z.land x (Z.lor UCT_MD_FLAG_REG UCT_MD_FLAG_ALLOC)) fl = has x fl.
Proof. intros Hf. unfold has. rewrite <- Z.land_assoc. by destruct Hf; subst. Qed.

Lemma pack_md_writes g : dev_ok g ->
  writes (ucp_address_pack_md_info false (Z.land (md_attr_flags w (dev_md g)) (Z.lor UCT_MD_FLAG_REG UCT_MD_FLAG_ALLOC)) (dev_md g) v)
    (ext (md_flags g) (dev_md g) (ucp_address_md_mask v) v).
Proof.
  intros H pre rest Hl. pose proof (do_md g H) as Hf. pose proof md_mask_byte as Hb. unfold ucp_address_pack_md_info.
  rewrite (ext_length _ 0) in *. rewrite (bind_eq _ _ _ (pack_byte_extended_writes _ _ _ Hb Hf pre rest Hl)). cbn [mbind option_bind]. unfold md_flags.
  destruct (is_v1 v) eqn:Ev; [|done]. rewrite !has_md_mask by auto. change (mk pre rest).2 with (length pre).
  set (E := drop _ rest). rewrite <- (app_nil_r (ext 0 _ _ _)).
  set (a := has _ UCT_MD_FLAG_ALLOC). set (b := has _ UCT_MD_FLAG_REG).
  rewrite (bind_eq _ _ _ (ext_or pre 0 _ _ v [] E a UCP_ADDRESS_FLAG_MD_ALLOC _ Hb Hf ltac:(done) ltac:(done) eq_refl)).
  rewrite (ext_or _ _ _ _ _ _ _ b) by (done || by destruct a). by rewrite app_nil_r, Z.lor_0_l.
Qed.



Lemma dev_len_byte : byte UCP_ADDRESS_DEVICE_LEN_MASK.
Proof. done. Qed.

Lemma enc_dev_length g : length (enc_dev true g) = length (enc_dev false g).
Proof. unfold enc_dev. rewrite !length_app. f_equal. f_equal. apply ext_length. Qed.

Lemma enc_rsc_length b r : length (enc_rsc b r) = length (enc_tl 0 r).
Proof. apply enc_tl_length. Qed.

(** The resources with the flag of the last one. *)
Lemma pack_rscs_writes g pre rest : flags_ok -> dev_ok g -> (length (enc_list enc_rsc g) <= length rest)%nat ->
  ('(c, flags_ptr) ⇐ pack_tls w ep l2r pf v g None (mk pre rest);
   match flags_ptr with Some p => lift (or8 p UCP_ADDRESS_FLAG_LAST c) | None => ok c end) =
  ok (mk (pre ++ enc_list enc_rsc g) (drop (length (enc_list enc_rsc g)) rest)).
Proof.
  intros Hfl H Hl. destruct (exists_last (do_ne g H)) as (rs & r & Hg). pose proof (do_rscs g H) as Hok. rewrite Hg, enc_list_snoc in *.
  assert (Hlen : length (concat (enc_rsc false <$> rs) ++ enc_rsc true r) = length (concat (enc_rsc false <$> rs) ++ enc_rsc false r))
    by (rewrite !length_app, !enc_rsc_length; done).
  rewrite pack_tls_writes by (done || lia). cbn [rbind ok]. rewrite app_assoc. assert (He : enc_rsc false r = enc_tl (ep_flag r) r) by (unfold enc_rsc; by rewrite Z.lor_0_r). rewrite He.
  rewrite tl_or; [|rewrite Forall_app, Forall_singleton in Hok; apply Hok|apply ep_flag_byte|done]. cbn [lift fmap option_fmap option_map].
  by rewrite Hlen, He, <- app_assoc.
Qed.

Lemma rbind_ok {A B} (c : res A) (a : A) (f : A -> res B) : c = ok a -> rbind c f = f a.
Proof. by intros ->. Qed.

Lemma rbind_assoc {A B C} (c : res A) (f : A -> res B) (g : B -> res C) : rbind (rbind c f) g = rbind c (fun x => rbind (f x) g).
Proof. by destruct c as [[|]|]. Qed.

(** The header of a device. *)
Definition enc_dev_info (last : bool) (g : list Z) : list Z :=
  ext (md_flags g) (dev_md g) (ucp_address_md_mask v) v ++ ext (dev_flags last g) (dev_len g) UCP_ADDRESS_DEVICE_LEN_MASK v ++
  (if 1 <? dev_paths g then [dev_paths g] else []) ++ (if negb (dev_sys g =? UCS_SYS_DEVICE_ID_UNKNOWN) then [dev_sys g] else []).

(** The optional bytes of a device, each with its flag. *)
Lemma pack_opt_writes pre f value max post rest (b : bool) fl x : byte max -> fits value max v -> byte f -> byte fl -> byte x ->
  let bs := if b then [x] else [] in (length bs <= length rest)%nat ->
  (if b then c ← or8 (length pre) fl (mk (pre ++ ext f value max v ++ post) rest); put8 x c else Some (mk (pre ++ ext f value max v ++ post) rest)) =
  Some (mk (pre ++ ext (Z.lor f (if b then fl else 0)) value max v ++ post ++ bs) (drop (length bs) rest)).
Proof.
  intros Hm Hv Hf Hl Hx bs Hlen. pose proof (ext_or pre f value max v post rest b fl _ Hm Hv Hf Hl eq_refl) as He. destruct b.
  - rewrite (bind_eq _ _ _ He). rewrite (put8_writes x Hx) by done. by rewrite <- !app_assoc.
  - unfold bs. cbn [length]. by rewrite Z.lor_0_r, app_nil_r, drop_0.
Qed.

Lemma pack_device_info_writes last g : dev_ok g -> writes (pack_device_info w pf v (dev_of g) false last) (enc_dev_info last g).
Proof.
  intros H pre rest Hl. pose proof (do_len g H) as Hlen. pose proof (do_paths g H) as Hp. pose proof (do_sys g H) as Hs. pose proof dev_len_byte as Hb.
  unfold enc_dev_info in *. rewrite !length_app in Hl. rewrite (ext_length (dev_flags last g) 0) in Hl. unfold pack_device_info.
  change (md_index (tl_rscs w (pd_rsc_index (dev_of g)))) with (dev_md g). cbn [dev_of pd_dev_addr_len pd_num_paths pd_sys_dev].
  rewrite (bind_eq _ _ _ (pack_md_writes g H pre rest ltac:(lia))).
  replace (has pf UCP_ADDRESS_PACK_FLAG_DEVICE_ADDR || _) with true by (unfold dev_len; by destruct (has pf UCP_ADDRESS_PACK_FLAG_DEVICE_ADDR)).
  cbn [assert mbind option_bind].
  set (pre' := pre ++ _). set (rest1 := drop _ rest).
  assert (Hr1 : length rest1 = (length rest - length (ext (md_flags g) (dev_md g) (ucp_address_md_mask v) v))%nat) by (unfold rest1; by rewrite length_drop).
  rewrite (bind_eq _ _ _ (pack_byte_extended_writes _ _ _ Hb Hlen pre' rest1 ltac:(lia))). change (mk ?a ?b).2 with (length a). set (rest' := drop _ rest1).
  assert (Hr : length rest' = (length rest1 - length (ext 0 (dev_len g) UCP_ADDRESS_DEVICE_LEN_MASK v))%nat) by (unfold rest'; by rewrite length_drop).
  pose proof (ext_or pre' 0 (dev_len g) _ v [] rest' true (if last then UCP_ADDRESS_FLAG_LAST else 0) _ Hb Hlen ltac:(done) ltac:(by destruct last) eq_refl) as E1.
  rewrite !app_nil_r, Z.lor_0_l in E1. rewrite (bind_eq _ _ _ E1). rewrite (proj2 (Z.leb_le 1 _)), (proj2 (Z.leb_le (dev_paths g) 255)) by lia.
  cbn [assert mbind option_bind].
  pose proof (pack_opt_writes pre' (if last then UCP_ADDRESS_FLAG_LAST else 0) _ _ [] rest' (1 <? dev_paths g) UCP_ADDRESS_FLAG_NUM_PATHS (dev_paths g) Hb Hlen
    ltac:(by destruct last) ltac:(done) ltac:(unfold byte; lia) ltac:(lia)) as E2. rewrite app_nil_r, app_nil_l in E2. rewrite (bind_eq _ _ _ E2).
  rewrite pack_opt_writes; [|done|done|by destruct last, (1 <? dev_paths g)|done|done|rewrite length_drop; lia]. unfold pre', rest', rest1. rewrite !drop_drop, <- !app_assoc.
  unfold dev_flags. do 3 f_equal. rewrite !length_app. rewrite (ext_length (Z.lor _ _) 0 (dev_len g)). lia.
Qed.

Lemma pack_device_writes last g : flags_ok -> dev_ok g -> rwrites (pack_device w ep l2r pf v (dev_of g) last) (enc_dev last g).
Proof.
  intros Hfl H pre rest. unfold pack_device. rewrite (do_bits g H). rewrite bool_decide_eq_false_2 by apply (do_ne g H).
  replace (enc_dev last g) with (enc_dev_info last g ++ dev_bytes g ++ enc_list enc_rsc g) by (unfold enc_dev, enc_dev_info; by rewrite <- !app_assoc).
  rewrite !length_app. intros Hl. rewrite (pack_device_info_writes last g H) by lia. cbn [lift fmap option_fmap option_map rbind].
  rewrite (rbind_ok _ (mk ((pre ++ enc_dev_info last g) ++ dev_bytes g) (drop (length (dev_bytes g)) (drop (length (enc_dev_info last g)) rest)))).
  - rewrite pack_rscs_writes; [|done|done|rewrite !length_drop; lia]. by rewrite !drop_drop, <- !app_assoc, Nat.add_assoc.
  - pose proof (do_addr g H) as Ha. unfold dev_bytes in *. destruct (has pf UCP_ADDRESS_PACK_FLAG_DEVICE_ADDR).
    + cbn [dev_of pd_rsc_index pd_dev_addr_len]. by rewrite (addr_ok_writes _ _ (Ha eq_refl)) by (rewrite length_drop; lia).
    + by rewrite app_nil_r.
Qed.

Lemma pack_devices_writes gs : flags_ok -> Forall dev_ok gs -> rwrites (pack_devices w ep l2r pf v (dev_of <$> gs)) (enc_list enc_dev gs).
Proof.
  intros Hfl. induction 1 as [|g gs H _ IH]; [intros pre rest _; cbn; by rewrite app_nil_r|]. rewrite fmap_cons. cbn [pack_devices].
  rewrite enc_list_cons. assert (Hb : bool_decide (dev_of <$> gs = []) = bool_decide (gs = [])) by (by destruct gs). rewrite Hb.
  exact (rwrites_bind _ _ _ _ (pack_device_writes _ g Hfl H) IH).
Qed.



(** ** The header *)

Definition enc_ids : list Z :=
  (if has pf UCP_ADDRESS_PACK_FLAG_WORKER_UUID then le_bytes 8 (uuid w) else []) ++
  (if has pf UCP_ADDRESS_PACK_FLAG_MACHINE_ID then le_bytes 8 (machine_id w) else []) ++
  (if has pf UCP_ADDRESS_PACK_FLAG_CLIENT_ID then le_bytes 8 (client_id w) else []) ++
  (if address_debug_info w && has pf UCP_ADDRESS_PACK_FLAG_WORKER_NAME then [Z.of_nat (length (address_name w))] ++ address_name w else []).

Definition enc_header : list Z :=
  (if is_v1 v then [Z.shiftl (header_flags w pf) UCP_ADDRESS_HEADER_FLAGS_SHIFT_V1]
   else [version_num UCP_OBJECT_VERSION_V2; header_flags w pf]) ++ enc_ids.

Definition name_ok : Prop := Forall byte (address_name w) /\ Z.of_nat (length (address_name w)) <= 255.

Lemma header_flags_range : 0 <= header_flags w pf < 16.
Proof. unfold header_flags. repeat match goal with |- context [if ?b then _ else _] => destruct b end; done. Qed.

Lemma pack_ids_writes : name_ok -> writes (pack_ids w pf) enc_ids.
Proof.
  intros [Hn Hl]. unfold pack_ids, enc_ids.
  refine (writes_bind _ _ _ _ (writes_if _ _ _ (put_writes 8 _)) (writes_bind _ _ _ _ (writes_if _ _ _ (put_writes 8 _))
    (writes_bind _ _ _ _ (writes_if _ _ _ (put_writes 8 _)) (writes_if _ _ _ _)))).
  apply (writes_ext _ (fun c => put8 (Z.of_nat (length (address_name w))) c ≫= put_bytes (address_name w))).
  - intros c. unfold ucp_address_pack_worker_address_name, assert. by rewrite (proj2 (Z.leb_le _ 255)) by done.
  - apply writes_bind; [apply put8_writes; unfold byte; lia|by apply put_bytes_writes].
Qed.

Lemma pack_header_writes rest : name_ok -> (length enc_header <= length rest)%nat ->
  pack_header w pf v (rest, O) = Some (mk enc_header (drop (length enc_header) rest)).
Proof.
  intros Hn Hl. pose proof (pack_ids_writes Hn) as Hi. pose proof header_flags_range as Hf. unfold pack_header, enc_header in *. rewrite length_app in *.
  change (rest, O) with (mk [] rest). cbn [snd mk length].
  assert (Hv : byte (version_num v)) by (by destruct v). rewrite (bind_eq _ _ _ (put8_writes _ Hv [] rest ltac:(destruct (is_v1 v); cbn in Hl |- *; lia))).
  rewrite app_nil_l. cbn [length]. unfold ucp_address_pack_header_flags. destruct v; cbn [is_v1 version_num length] in *.
  - cbn [mbind option_bind]. rewrite (bind_eq _ _ _ (Hi [0] (drop 1 rest) ltac:(rewrite length_drop; lia))). rewrite drop_drop.
    change ([0] ++ enc_ids) with ([] ++ 0 :: enc_ids). rewrite or8_at; [done|done| |done]. unfold byte. rewrite Z.shiftl_mul_pow2 by done. unfold UCP_ADDRESS_HEADER_FLAGS_SHIFT_V1. lia.
  - destruct rest as [|x0 [|x1 rest]]; cbn [length] in Hl; [lia|lia|]. cbn [drop].
    assert (Hs : (_ ← assert (bool_decide (Nat.lt (mk [1] (x1 :: rest)).2 (length (mk [1] (x1 :: rest)).1))); Some ((mk [1] (x1 :: rest)).1, S (mk [1] (x1 :: rest)).2)) =
      Some (mk [1; x1] rest)) by (rewrite bool_decide_eq_true_2 by (cbn; lia); done).
    rewrite (bind_eq _ _ _ Hs). rewrite (bind_eq _ _ _ (Hi [1; x1] rest ltac:(lia))). unfold assert. rewrite bool_decide_eq_true_2 by (cbn; lia).
    cbn. rewrite u8_byte by (unfold byte; lia). done.
Qed.

(** ** The address *)

Definition enc_address (gs : list (list Z)) : list Z := enc_header ++ match gs with [] => [UCP_NULL_RESOURCE] | _ => enc_list enc_dev gs end.

Lemma do_pack_writes gs buffer : flags_ok -> name_ok -> Forall dev_ok gs -> length buffer = length (enc_address gs) ->
  ucp_address_do_pack w ep buffer pf v l2r (dev_of <$> gs) = ok (enc_address gs).
Proof.
  intros Hfl Hn Hg Hl. unfold enc_address in *. rewrite length_app in Hl. unfold ucp_address_do_pack. rewrite pack_header_writes by (done || lia).
  cbn [lift fmap option_fmap option_map rbind]. set (bs := match gs with [] => _ | _ => _ end) in *.
  rewrite (rbind_ok _ (mk (enc_header ++ bs) [])).
  - unfold mk. cbn [snd fst]. rewrite bool_decide_eq_true_2 by (rewrite length_app; lia). cbn. by rewrite app_nil_r.
  - assert (Hr : rwrites (fun c => match dev_of <$> gs with [] => lift (put8 UCP_NULL_RESOURCE c) | _ => pack_devices w ep l2r pf v (dev_of <$> gs) c end) bs).
    { destruct gs as [|g gs]; [apply rwrites_lift, put8_writes; done|]. by apply (pack_devices_writes (g :: gs)). }
    rewrite Hr by (rewrite length_drop; lia). do 3 f_equal. apply nil_length_inv. rewrite !length_drop. lia.
Qed.



(** ** Sizes *)

Lemma ep_addrs_size_lanes e r lane rscs :
  foldr (fun rsc size => if (rsc =? r) && ucp_wireup_connect_p2p w r (has_cm_lane e)
                         then (if unified_mode w then 0 else 1) + ep_addr_len (iface_attr w r) + 1 + 1 + size else size) 0 rscs =
  foldr (fun _ n => (if unified_mode w then 0 else 1) + ep_addr_len (iface_attr w r) + 1 + 1 + n) 0 (lanes_from (has_cm_lane e) r lane rscs).
Proof. revert lane. induction rscs as [|rsc rscs IH]; intros lane; [done|]. cbn [foldr lanes_from]. rewrite (IH (lane + 1)). by destruct (_ && _). Qed.

Lemma tl_addr_size_ok r : flags_ok -> rsc_ok r -> tl_addr_size w ep pf v r = Some (Z.of_nat (length (enc_tl 0 r))).
Proof.
  intros [Hif Hep] H. unfold tl_addr_size. rewrite Hif. pose proof (ro_addr_len r H) as Hl. destruct (ro_address r H) as (_ & _ & Ha).
  assert (Hlen : ucp_address_packed_length_size w (iface_addr_len (iface_attr w r)) UCP_ADDRESS_IFACE_LEN_MASK v = Some (Z.of_nat (length (enc_len 0 r)))).
  { unfold ucp_address_packed_length_size, enc_len. destruct (unified_mode w); [done|]. by apply ext_size. }
  rewrite Hlen, <- (enc_attr_length 0 r). unfold enc_tl. rewrite !length_app, le_bytes_length.
  rewrite (bind_eq _ (Z.of_nat (length (enc_list (enc_ep r) (ep_lanes r))))); [cbn [mbind option_bind]; f_equal; lia|].
  rewrite (enc_list_length (enc_ep r) (fun _ => (if unified_mode w then 0 else 1) + ep_addr_len (iface_attr w r) + 1 + 1)).
  2:{ intros b x Hx. apply enc_ep_length. pose proof (ro_eps r H) as He. rewrite Forall_forall in He. by apply He. }
  unfold ep_lanes. destruct (has pf UCP_ADDRESS_PACK_FLAG_EP_ADDR); [|done]. specialize (Hep eq_refl). destruct ep as [e|]; [|done].
  cbn [mbind option_bind]. unfold ep_addrs_size. by rewrite (ep_addrs_size_lanes e r 0).
Qed.

Lemma device_size_ok b g : dev_ok g -> device_size w pf v (dev_of g) = Some (Z.of_nat (length (enc_dev b g))).
Proof.
  intros H. unfold device_size, enc_dev. cbn [dev_of pd_rsc_index pd_dev_addr_len pd_num_paths pd_sys_dev pd_tl_addrs_size].
  change (md_index (tl_rscs w (dev_rsc g))) with (dev_md g). rewrite (bind_eq _ _ _ (ext_size (md_flags g) _ _ _ (do_md g H))). rewrite !length_app.
  pose proof (do_addr g H) as Ha. pose proof (do_len g H) as Hl.
  rewrite (bind_eq _ (Z.of_nat (length (ext (dev_flags b g) (dev_len g) UCP_ADDRESS_DEVICE_LEN_MASK v) + length (dev_bytes g)))).
  - f_equal. pose proof (enc_list_length enc_rsc (fun r => Z.of_nat (length (enc_tl 0 r))) g ltac:(intros; cbv beta; f_equal; apply enc_rsc_length)) as He.
    rewrite !Nat2Z.inj_add, He. destruct (1 <? dev_paths g), (dev_sys g =? UCS_SYS_DEVICE_ID_UNKNOWN); cbn [negb length]; lia.
  - unfold dev_bytes, dev_len in *. destruct (has pf UCP_ADDRESS_PACK_FLAG_DEVICE_ADDR).
    + rewrite (bind_eq _ _ _ (ext_size (dev_flags b g) _ _ _ Hl)). destruct (Ha eq_refl) as (_ & _ & <-). by rewrite Nat2Z.inj_add.
    + unfold ext. destruct (is_v1 v); [done|]. by vm_compute.
Qed.

Lemma packed_size_ok gs : Forall dev_ok gs -> ucp_address_packed_size w (dev_of <$> gs) pf v = Some (Z.of_nat (length (enc_address gs))).
Proof.
  intros Hg. unfold ucp_address_packed_size, enc_address, enc_header, enc_ids.
  assert (Hd : devices_size w pf v (dev_of <$> gs) = Some (Z.of_nat (length (enc_list enc_dev gs)))).
  { induction Hg as [|g gs H _ IH]; [done|]. rewrite fmap_cons, enc_list_cons. cbn [devices_size]. rewrite (bind_eq _ _ _ (device_size_ok (bool_decide (gs = [])) g H)), (bind_eq _ _ _ IH).
    by rewrite length_app, Nat2Z.inj_add. }
  rewrite !length_app.
  destruct gs as [|g gs]; [|rewrite fmap_cons in *; rewrite (bind_eq _ _ _ Hd)];
    repeat match goal with |- context [length (if ?b then _ else _)] => destruct b end; rewrite ?le_bytes_length; cbn [length app]; f_equal; lia.
Qed.



(** ** Gathering the devices

    A resource joins the device whose last resource has its memory domain and device
    index. *)

Definition same_device (r r' : Z) : bool :=
  (md_index (tl_rscs w r) =? md_index (tl_rscs w r')) && (dev_index (tl_rscs w r) =? dev_index (tl_rscs w r')).

Fixpoint add_rsc (r : Z) (gs : list (list Z)) : list (list Z) :=
  match gs with
  | [] => [[r]]
  | g :: gs => if same_device r (dev_rsc g) then (g ++ [r]) :: gs else g :: add_rsc r gs
  end.

Definition connectable (rscs : list Z) : list Z := filter (fun r => ucp_worker_iface_can_connect (iface_attr w r) = true) rscs.

Definition group_rscs (rscs : list Z) (gs : list (list Z)) : list (list Z) := fold_left (fun gs r => add_rsc r gs) (connectable rscs) gs.

Lemma dev_rsc_snoc g r : dev_rsc (g ++ [r]) = r.
Proof. apply last_last. Qed.

Lemma dev_of_snoc g r : dev_of (g ++ [r]) =
  PackedDevice (dev_len [r]) (Z.lor (pd_tl_bitmap (dev_of g)) (2 ^ r)) r (dev_paths [r]) (dev_sys [r]) (pd_tl_addrs_size (dev_of g) + Z.of_nat (length (enc_tl 0 r))).
Proof.
  unfold dev_of, dev_len, dev_paths, dev_sys. rewrite dev_rsc_snoc. change (dev_rsc [r]) with r. cbn [pd_tl_bitmap pd_tl_addrs_size]. f_equal.
  - rewrite foldr_app. cbn. rewrite Z.lor_0_r. induction g as [|x g IH]; [done|]. cbn. by rewrite IH, Z.lor_assoc.
  - rewrite foldr_app. cbn. rewrite Z.add_0_r. induction g as [|x g IH]; [done|]. cbn. lia.
Qed.

(** What [ucp_address_gather_devices] does with a resource. *)
Lemma gather_step r gs :
  let devices := dev_of <$> gs in
  let i := ucp_address_get_device w r devices in
  let '(dev, devices) := match devices !! i with Some dev => (dev, devices) | None => (new_device, devices ++ [new_device]) end in
  <[i := PackedDevice (dev_len [r]) (Z.lor (pd_tl_bitmap dev) (2 ^ r)) r (dev_paths [r]) (dev_sys [r]) (pd_tl_addrs_size dev + Z.of_nat (length (enc_tl 0 r)))]> devices =
  dev_of <$> add_rsc r gs.
Proof.
  cbv zeta. induction gs as [|g gs IH].
  - change (dev_of <$> add_rsc r []) with [dev_of ([] ++ [r])]. rewrite dev_of_snoc. reflexivity.
  - cbn [add_rsc]. rewrite fmap_cons. cbn [ucp_address_get_device]. change (pd_rsc_index (dev_of g)) with (dev_rsc g).
    fold (same_device r (dev_rsc g)). destruct (same_device r (dev_rsc g)).
    + cbn [lookup list_lookup insert list_insert]. by rewrite fmap_cons, dev_of_snoc.
    + cbn [lookup list_lookup]. set (i := ucp_address_get_device _ _ _) in *. rewrite fmap_cons.
      change (list_lookup i (dev_of <$> gs)) with ((dev_of <$> gs) !! i). destruct ((dev_of <$> gs) !! i) eqn:E; cbn [app insert list_insert]; f_equal; exact IH.
Qed.

Lemma gather_loop_ok rscs gs : flags_ok -> Forall rsc_ok (connectable rscs) -> Forall (fun r => dev_num_paths (iface_attr w r) <= 255) (connectable rscs) ->
  gather_loop w ep pf v rscs (dev_of <$> gs) = ok (dev_of <$> group_rscs rscs gs).
Proof.
  intros Hfl. revert gs. unfold group_rscs. induction rscs as [|r rscs IH]; intros gs Hok Hp; [done|]. cbn [gather_loop]. unfold connectable in *. rewrite filter_cons in *.
  destruct (ucp_worker_iface_can_connect (iface_attr w r)) eqn:Ec; cbn [negb].
  2:{ rewrite decide_False in * by done. by apply IH. }
  rewrite decide_True in * by done. inversion Hok as [|? ? H1 H2]; subst. inversion Hp as [|? ? P1 P2]; subst. cbn [fold_left].
  pose proof (gather_step r gs) as Hs. cbv zeta in Hs. rewrite (tl_addr_size_ok r Hfl H1). cbn [lift fmap option_fmap option_map rbind].
  rewrite (proj2 (Z.ltb_ge 255 _)) by lia.
  destruct ((dev_of <$> gs) !! ucp_address_get_device w r (dev_of <$> gs)) eqn:E.
  - rewrite <- (IH (add_rsc r gs) H2 P2), <- Hs. done.
  - rewrite <- (IH (add_rsc r gs) H2 P2), <- Hs. done.
Qed.



Lemma tl_bits_elem b i : i ∈ tl_bits b <-> Z.testbit b i = true /\ 0 <= i < 128.
Proof. unfold tl_bits, bits_of. rewrite list_elem_of_filter, elem_of_seqZ. unfold UCP_MAX_RESOURCES. intuition lia. Qed.

Lemma rscs_sorted_filter (P : Z -> Prop) `{!forall x, Decision (P x)} (l : list Z) : StronglySorted Z.lt l -> StronglySorted Z.lt (filter P l).
Proof.
  induction 1 as [|x l Hs IH Hf]; [constructor|]. rewrite filter_cons. case_decide; [|done]. constructor; [done|]. rewrite Forall_forall in *.
  intros y [_ Hy]%list_elem_of_filter. by apply Hf.
Qed.

Lemma sorted_seqZ i n : StronglySorted Z.lt (seqZ i n).
Proof.
  destruct (Z.le_gt_cases n 0) as [H|H]; [rewrite seqZ_nil by done; constructor|]. revert i. pattern n. apply natlike_ind; [intros; constructor| |lia].
  intros m Hm IH i. rewrite seqZ_cons by lia. rewrite Z.pred_succ. constructor; [apply IH|]. apply Forall_forall. intros x Hx%elem_of_seqZ. lia.
Qed.

Lemma sorted_tl_bits b : StronglySorted Z.lt (tl_bits b).
Proof. apply rscs_sorted_filter, sorted_seqZ. Qed.

Lemma sorted_unique (l l' : list Z) : StronglySorted Z.lt l -> StronglySorted Z.lt l' -> (forall x, x ∈ l <-> x ∈ l') -> l = l'.
Proof.
  intros Hs. revert l'. induction Hs as [|x l Hs IH Hf]; intros l' Hs' He.
  - destruct l' as [|y l']; [done|]. exfalso. apply (not_elem_of_nil y), He. left.
  - destruct Hs' as [|y l' Hs' Hf']; [exfalso; apply (not_elem_of_nil x), He; left|]. rewrite Forall_forall in Hf, Hf'. assert (x = y) as ->.
    { pose proof (proj1 (He x) ltac:(left)) as [->|H1]%elem_of_cons; [done|]. pose proof (proj2 (He y) ltac:(left)) as [->|H2]%elem_of_cons; [done|].
      specialize (Hf _ H2). specialize (Hf' _ H1). lia. }
    f_equal. apply IH; [done|]. intros z. split; intros Hz.
    + pose proof (proj1 (He z) ltac:(by right)) as [->|H1]%elem_of_cons; [|done]. specialize (Hf _ Hz). lia.
    + pose proof (proj2 (He z) ltac:(by right)) as [->|H1]%elem_of_cons; [|done]. specialize (Hf' _ Hz). lia.
Qed.

(** Each device has some of the resources seen so far, in their order, and every
    resource is in one device. *)
Definition groups_of (gs : list (list Z)) (rscs : list Z) : Prop :=
  Forall (fun g => g <> [] /\ StronglySorted Z.lt g) gs /\ concat gs ≡ₚ rscs.

Lemma rscs_sorted_snoc l (r : Z) : StronglySorted Z.lt l -> Forall (fun x => x < r) l -> StronglySorted Z.lt (l ++ [r]).
Proof.
  induction 1 as [|x l Hs IH Hf]; intros Hr; cbn; [repeat constructor|]. inversion Hr; subst. constructor; [by apply IH|].
  rewrite Forall_app, Forall_singleton. done.
Qed.

Lemma add_rsc_groups r gs rscs : groups_of gs rscs -> Forall (fun x => x < r) rscs -> groups_of (add_rsc r gs) (rscs ++ [r]).
Proof.
  intros [Hg Hp] Hr. rewrite <- Hp in Hr. assert (Hc : concat (add_rsc r gs) ≡ₚ concat gs ++ [r]).
  { clear. induction gs as [|g gs IH]; [done|]. cbn [add_rsc]. destruct (same_device _ _); cbn [concat].
    - rewrite <- !app_assoc. f_equiv. apply Permutation_app_comm.
    - rewrite IH. by rewrite app_assoc. }
  split; [|by rewrite Hc, Hp]. clear Hp Hc. induction Hg as [|g gs [Hn Hs] Hg IH]; cbn [add_rsc]; [repeat constructor; done|].
  cbn [concat] in Hr. rewrite Forall_app in Hr. destruct Hr as [Hr1 Hr2]. destruct (same_device _ _).
  - constructor; [|done]. split; [by destruct g|by apply rscs_sorted_snoc].
  - constructor; [done|by apply IH].
Qed.

Lemma group_rscs_groups rscs : StronglySorted Z.lt rscs -> groups_of (group_rscs rscs []) (connectable rscs).
Proof.
  intros Hs. assert (Hc : StronglySorted Z.lt (connectable rscs)) by (by apply rscs_sorted_filter). unfold group_rscs.
  enough (forall done rest gs, StronglySorted Z.lt (done ++ rest) -> groups_of gs done -> groups_of (fold_left (fun gs r => add_rsc r gs) rest gs) (done ++ rest)) as H.
  { apply (H []); [done|]. split; [constructor|done]. }
  clear. intros done rest. revert done. induction rest as [|r rest IH]; intros done gs Hs Hg; [by rewrite app_nil_r|]. cbn [fold_left].
  rewrite (cons_middle r done rest), app_assoc. apply IH; [by rewrite <- app_assoc|]. apply add_rsc_groups; [done|].
  clear -Hs. induction done as [|x done IH]; [constructor|]. cbn in Hs. inversion Hs as [|? ? Hs' Hf]; subst. constructor; [|by apply IH].
  rewrite Forall_app in Hf. destruct Hf as [_ Hf]. by inversion Hf.
Qed.

Lemma bitmap_testbit g i : Forall (fun r => 0 <= r) g -> 0 <= i -> Z.testbit (foldr (fun r m => Z.lor (2 ^ r) m) 0 g) i = bool_decide (i ∈ g).
Proof.
  intros Hg Hi. induction Hg as [|r g Hr _ IH]; cbn; [by rewrite Z.bits_0|]. rewrite Z.lor_spec, IH, Z.pow2_bits_eqb by done.
  destruct (Z.eqb_spec r i) as [->|Hne]; cbn [orb].
  - symmetry. apply bool_decide_eq_true_2. left.
  - apply bool_decide_ext. set_solver.
Qed.

(** ** Packing *)

(** What is needed of a resource whose device is packed with it as its last resource. *)
Record rsc_dev_ok (r : Z) : Prop := {
  rd_md : fits (md_index (tl_rscs w r)) (ucp_address_md_mask v) v;
  rd_addr : has pf UCP_ADDRESS_PACK_FLAG_DEVICE_ADDR = true ->
    fits (device_addr_len (iface_attr w r)) UCP_ADDRESS_DEVICE_LEN_MASK v /\ addr_ok (device_address (ifaces w r)) (device_addr_len (iface_attr w r));
  rd_paths : 1 <= dev_num_paths (iface_attr w r) <= 255;
  rd_sys : byte (sys_device (tl_rscs w r))
}.

Definition packed_rscs (bitmap : Z) : list Z := connectable (tl_bits (Z.land bitmap (tl_bitmap w))).
Definition packed_groups (bitmap : Z) : list (list Z) := group_rscs (tl_bits (Z.land bitmap (tl_bitmap w))) [].

Definition packable (bitmap : Z) : Prop := flags_ok /\ name_ok /\ Forall (fun r => rsc_ok r /\ rsc_dev_ok r) (packed_rscs bitmap).

Lemma packed_groups_ok bitmap : packable bitmap -> Forall dev_ok (packed_groups bitmap).
Proof.
  intros (_ & _ & Hok). pose proof (group_rscs_groups _ (sorted_tl_bits (Z.land bitmap (tl_bitmap w)))) as [Hg Hp]. fold (packed_groups bitmap) in *.
  fold (packed_rscs bitmap) in Hp. rewrite Forall_forall in Hg. rewrite Forall_forall in Hok. apply Forall_forall. intros g Hin. destruct (Hg g Hin) as [Hne Hs].
  assert (Hsub : forall r, r ∈ g -> r ∈ packed_rscs bitmap) by (intros r Hr; rewrite <- Hp; apply list_elem_of_In, in_concat; exists g; by rewrite <- !list_elem_of_In).
  assert (Hlast : dev_rsc g ∈ g) by (unfold dev_rsc; destruct (exists_last Hne) as (l & r & ->); rewrite last_last; set_solver).
  destruct (Hok _ (Hsub _ Hlast)) as [_ Hd].
  assert (Hbits : forall r, r ∈ g -> Z.testbit (tl_bitmap w) r = true /\ 0 <= r < 128).
  { intros r Hr%Hsub. unfold packed_rscs, connectable in Hr. apply list_elem_of_filter in Hr as [_ Hr%tl_bits_elem]. rewrite Z.land_spec, andb_true_iff in Hr. tauto. }
  constructor.
  - done.
  - apply Forall_forall. intros r Hr. apply Hok. auto.
  - apply sorted_unique; [apply sorted_tl_bits|done|]. intros r. rewrite tl_bits_elem, Z.land_spec, andb_true_iff. cbn [dev_of pd_tl_bitmap]. split.
    + intros [[H1 H2] H3]. rewrite bitmap_testbit in H2; [by apply bool_decide_eq_true in H2| |lia]. apply Forall_forall. intros x Hx%Hbits. lia.
    + intros Hr. pose proof (Hbits r Hr) as [H1 H2]. rewrite bitmap_testbit; [|apply Forall_forall; intros x Hx%Hbits; lia|lia].
      rewrite bool_decide_eq_true. done.
  - apply Hd.
  - unfold dev_len. pose proof (rd_addr _ Hd) as Ha. destruct (has pf UCP_ADDRESS_PACK_FLAG_DEVICE_ADDR); [by apply Ha|]. unfold fits. by destruct (is_v1 v).
  - intros Hf. unfold dev_len. rewrite Hf. by apply (rd_addr _ Hd).
  - apply Hd.
  - unfold dev_sys. destruct (has pf UCP_ADDRESS_PACK_FLAG_SYS_DEVICE); [apply Hd|done].
Qed.

Lemma gather_devices_ok bitmap : packable bitmap -> ucp_address_gather_devices w ep bitmap pf v true = ok (dev_of <$> packed_groups bitmap).
Proof.
  intros (Hfl & _ & Hok). unfold ucp_address_gather_devices. cbn [negb]. apply (gather_loop_ok _ []); [done| |];
    (eapply Forall_impl; [exact Hok|]); intros r [H1 H2]; [done|]. pose proof (rd_paths r H2). lia.
Qed.

(** Packing gives the bytes of [enc_address], and the length is the announced one. *)
Lemma pack_ok bitmap : packable bitmap ->
  ucp_address_length w ep bitmap pf v true = ok (Z.of_nat (length (enc_address (packed_groups bitmap)))) /\
  (devices ⇐ ucp_address_gather_devices w ep bitmap pf v true;
   size ⇐ lift (ucp_address_packed_size w devices pf v);
   ucp_address_do_pack w ep (replicate (Z.to_nat size) 0) pf v l2r devices) = ok (enc_address (packed_groups bitmap)).
Proof.
  intros H. pose proof (packed_groups_ok _ H) as Hg. unfold ucp_address_length. rewrite !(gather_devices_ok _ H). cbn [rbind ok]. rewrite !(packed_size_ok _ Hg).
  cbn [lift fmap option_fmap option_map rbind]. split; [done|]. destruct H as (Hfl & Hn & _). rewrite do_pack_writes; [done|done|done|done|].
  rewrite length_replicate. lia.
Qed.

End format.

End AddressFormat.
