(* ===== verification/AddressRoundtrip.v ===== *)
(** Worker addresses: what [ucp_address_unpack] reads from the bytes of
    [AddressFormat], and that unpacking gives back what was packed. *)

From Stdlib Require Import SpecFloat.
From S2P Require Import Prelude.
From S2P Require Import Bits.
From S2P Require Import Float8.
From S2P Require Import Address.
From S2P Require Import AddressFormat.

Module AddressRoundtrip.
Import Bits Float8 Address AddressFormat.
#[local] Open Scope res_scope.

(** ** Capability flags *)

Lemma has_testbit x k : 0 <= k -> has x (2 ^ k) = Z.testbit x k.
Proof.
  intros Hk. unfold has. rewrite Z_land_bit by done. destruct (Z.testbit x k); [|done]. pose proof (Z.pow_pos_nonneg 2 k ltac:(lia) Hk).
  by rewrite (proj2 (Z.eqb_neq _ 0)) by lia.
Qed.

Lemma shift_flag s : 0 <= s < 31 -> u32 (Z.shiftl (2 ^ s) 1) = 2 ^ (s + 1).
Proof.
  intros Hs. rewrite Z.shiftl_mul_pow2, <- Z.pow_add_r by lia. apply u_wrap_small. split; [apply Z.pow_nonneg; lia|]. apply Z.pow_lt_mono_r; lia.
Qed.

Lemma pack_loop_testbit bits x acc s j : 0 <= s -> s + Z.of_nat (length bits) <= 31 -> Forall (fun i => 0 <= i < 64) bits -> 0 <= j ->
  Z.testbit (pack_flags_loop bits x acc (2 ^ s)) j =
  Z.testbit acc j || ((s <=? j) && match bits !! Z.to_nat (j - s) with Some i => Z.testbit x i | None => false end).
Proof.
  intros Hs Hl Hb Hj. revert acc s Hs Hl. induction Hb as [|i bits Hi Hb IH]; intros acc s Hs Hl; cbn [pack_flags_loop length] in *.
  - by rewrite lookup_nil, andb_false_r, orb_false_r.
  - rewrite shift_flag, IH by lia. rewrite ucs_bit_pow, has_testbit by lia.
    replace (Z.testbit (if Z.testbit x i then _ else _) j) with (Z.testbit acc j || ((s =? j) && Z.testbit x i)).
    2:{ destruct (Z.testbit x i); [|by rewrite andb_false_r, orb_false_r]. rewrite Z.lor_spec, Z.pow2_bits_eqb, andb_true_r by lia. done. }
    rewrite <- orb_assoc. f_equal. destruct (Z.lt_trichotomy s j) as [H|[->|H]].
    + rewrite (proj2 (Z.eqb_neq s j)), !(proj2 (Z.leb_le _ j)) by lia. replace (Z.to_nat (j - s)) with (S (Z.to_nat (j - (s + 1)))) by lia. done.
    + rewrite Z.eqb_refl, Z.leb_refl, Z.sub_diag, (proj2 (Z.leb_gt _ j)) by lia. cbn. by rewrite orb_false_r.
    + rewrite (proj2 (Z.eqb_neq s j)), !(proj2 (Z.leb_gt _ j)) by lia. done.
Qed.

Lemma unpack_loop_testbit bits x y acc s j : 0 <= s -> s + Z.of_nat (length bits) <= 31 -> Forall (fun i => 0 <= i < 64) bits -> 0 <= j ->
  (forall k i, bits !! k = Some i -> Z.testbit y (s + Z.of_nat k) = Z.testbit x i) ->
  Z.testbit (unpack_flags_loop bits y acc (2 ^ s)) j = Z.testbit acc j || (bool_decide (j ∈ bits) && Z.testbit x j).
Proof.
  intros Hs Hl Hb Hj. revert acc s Hs Hl. induction Hb as [|i bits Hi Hb IH]; intros acc s Hs Hl Hy; cbn [unpack_flags_loop length] in *.
  - by rewrite orb_false_r.
  - rewrite shift_flag by lia. rewrite IH; [|lia|lia|intros k i' Hk; rewrite <- (Hy (S k) i' Hk); f_equal; lia].
    rewrite has_testbit by lia. pose proof (Hy O i eq_refl) as H0. rewrite Z.add_0_r in H0. rewrite H0, ucs_bit_pow by lia.
    replace (Z.testbit (if Z.testbit x i then _ else _) j) with (Z.testbit acc j || ((i =? j) && Z.testbit x j)).
    2:{ destruct (Z.eqb_spec i j) as [->|Hne]; cbn [andb].
        - destruct (Z.testbit x j); [|by rewrite orb_false_r]. by rewrite Z.lor_spec, Z.pow2_bits_true by lia.
        - rewrite orb_false_r. destruct (Z.testbit x i); [|done]. rewrite Z.lor_spec, Z.pow2_bits_false by lia. by rewrite orb_false_r. }
    rewrite <- orb_assoc. f_equal. rewrite <- andb_orb_distrib_l. f_equal. destruct (Z.eqb_spec i j) as [->|Hne]; cbn [orb].
    + symmetry. apply bool_decide_eq_true_2. left.
    + apply bool_decide_ext. set_solver.
Qed.

(** The flags of a mask are recovered from the bits that were packed. *)
Lemma unpack_flags_ok mask s x y : 0 <= mask < 2 ^ 64 -> 0 <= s -> ucs_popcount mask + s < 32 ->
  (forall k i, ucs_for_each_bit mask !! k = Some i -> Z.testbit y (s + Z.of_nat k) = Z.testbit x i) ->
  ucp_address_unpack_flags y mask s = Some (Z.land x mask).
Proof.
  intros Hm Hs Hp Hy. unfold ucp_address_unpack_flags, assert. rewrite (proj2 (Z.ltb_lt _ 32)) by done. cbn [mbind option_bind]. f_equal.
  assert (Hlen : ucs_popcount mask = Z.of_nat (length (ucs_for_each_bit mask))) by (rewrite for_each_bit_bits by done; by apply (popcount_bits 64)).
  rewrite for_each_bit_bits in * by done. rewrite ucs_bit_pow by lia.
  apply Z.bits_inj'. intros j Hj. rewrite (unpack_loop_testbit _ x); [|done|lia|apply Forall_forall; unfold bits_of; intros i [_ Hi%elem_of_seqZ]%list_elem_of_filter; lia|done|done].
  rewrite Z.bits_0, Z.land_spec, andb_comm. cbn [orb]. f_equal. unfold bits_of. destruct (Z.testbit mask j) eqn:E.
  - apply bool_decide_eq_true_2. rewrite list_elem_of_filter, elem_of_seqZ. split; [done|]. destruct (Z.lt_ge_cases j 64); [lia|].
    rewrite (Z_bits_above 64) in E by lia. done.
  - apply bool_decide_eq_false_2. rewrite list_elem_of_filter. intros [H _]. congruence.
Qed.

(** ** Reading *)

Definition at_ (buf : list Z) (p : nat) (bs : list Z) : Prop := exists post, drop p buf = bs ++ post.

Lemma at_app buf p a b : at_ buf p (a ++ b) -> at_ buf p a /\ at_ buf (p + length a) b.
Proof.
  intros [post H]. rewrite <- app_assoc in H. split; [by exists (b ++ post)|]. exists post. rewrite <- drop_drop, H. by rewrite drop_app_length.
Qed.

Lemma at_rd8 buf p b bs : at_ buf p (b :: bs) -> rd8 buf p = Some b.
Proof. intros [post H]. unfold rd8. by rewrite <- (Nat.add_0_r p), <- lookup_drop, H. Qed.

Lemma at_tail buf p b bs : at_ buf p (b :: bs) -> at_ buf (S p) bs.
Proof. intros H. apply (at_app buf p [b] bs) in H as [_ H]. by rewrite Nat.add_comm in H. Qed.

Lemma at_rd_bytes buf p bs n : at_ buf p bs -> length bs = n -> rd_bytes n buf p = Some bs.
Proof. intros [post H] <-. unfold rd_bytes. rewrite H, take_app_length. by rewrite decide_True. Qed.

Lemma at_rd n buf p x : at_ buf p (le_bytes n x) -> 0 <= x < 256 ^ Z.of_nat n -> rd n buf p = Some x.
Proof. intros H Hx. unfold rd. rewrite (at_rd_bytes buf p (le_bytes n x)); [|done|apply le_bytes_length]. cbn. by rewrite le_val_bytes. Qed.

Lemma at_slice buf p bs len : at_ buf p bs -> Z.of_nat (length bs) = len -> slice len buf p = bs.
Proof. intros [post H] <-. unfold slice. by rewrite Nat2Z.id, H, take_app_length. Qed.

(** A value in a part of a byte, and the flags of this byte. *)
Lemma unpack_ext buf p f value v k : at_ buf p (ext f value (Z.ones k) v) -> fits value (Z.ones k) v -> 0 < k <= 8 -> Z.land f (Z.ones k) = 0 ->
  ucp_address_unpack_byte_extended buf p (Z.ones k) v = Some (value, (p + length (ext f value (Z.ones k) v))%nat) /\
  exists b, rd8 buf p = Some b /\ forall flag, Z.land flag (Z.ones k) = 0 -> has b flag = has f flag.
Proof.
  intros Ha Hv Hk Hf. unfold ucp_address_unpack_byte_extended, ext, fits in *. assert (Ho : Z.ones k = 2 ^ k - 1) by (rewrite Z.ones_equiv; lia).
  pose proof (Z.pow_pos_nonneg 2 k ltac:(lia) ltac:(lia)). destruct (negb (is_v1 v) && (Z.ones k <=? value)) eqn:E.
  - rewrite (at_rd8 _ _ _ _ Ha). rewrite (at_rd8 _ _ _ _ (at_tail _ _ _ _ Ha)). cbn [mbind option_bind length]. rewrite land_low by (done || lia).
    apply andb_true_iff in E as [-> _]. rewrite Z.eqb_refl. cbn [andb]. split; [do 2 f_equal; lia|]. eexists. split; [done|]. intros flag Hfl. by rewrite (has_high k) by (done || lia).
  - assert (Hlt : 0 <= value < 2 ^ k) by (apply andb_false_iff in E as [E|E]; [destruct (is_v1 v); [lia|done]|zbool_hyps; lia]).
    rewrite (at_rd8 _ _ _ _ Ha). cbn [mbind option_bind length]. rewrite land_low by (done || lia).
    rewrite (proj2 (andb_false_iff (negb (is_v1 v)) (value =? Z.ones k))).
    + split; [do 2 f_equal; lia|]. eexists. split; [done|]. intros flag Hfl. by rewrite (has_high k) by (done || lia).
    + apply andb_false_iff in E as [E|E]; [by left|]. right. zbool_hyps. lia.
Qed.

(** The numbers from 2^28 on and below 17/16 of it, in bytes per second: version 2 stores
    them as 0. *)
Definition low_bandwidth (x : double) : Prop := exponent (to_ieee x) = 28 + IEEE754_DOUBLE_BIAS /\ mantissa0 (to_ieee x) < 2 ^ 16.

(** The bandwidths that a format keeps above 0: positive finite numbers, in version 1
    not below the smallest [float] 2^-149, in version 2 not low. *)
Definition good_bandwidth (v : ucp_object_version_t) (x : double) : Prop :=
  exists m e, x = S754_finite false m e /\ Zpos m < 2 ^ 53 /\ -1074 <= e <= 971 /\
    if is_v1 v then 2 ^ Z.max 0 (-149 - e) <= Zpos m else ~ low_bandwidth x.

(** A number after it was packed and unpacked. *)
Definition fp8_round (range : Z * Z) (x : double) : double := UCS_FP8_UNPACK range.1 range.2 (fp8_of range x).

(** The fields of a positive finite number. *)
Lemma to_ieee_finite m e : Zpos m < 2 ^ 53 -> -1074 <= e <= 971 ->
  let x := to_ieee (S754_finite false m e) in wf_double x /\ is_zero x = false.
Proof.
  intros Hm He. cbv zeta. unfold to_ieee, wf_double, is_zero, fields.
  destruct (Z.ltb_spec (Zpos m) (2 ^ 52)); cbn [exponent mantissa0 mantissa1 negative].
  - rewrite Z.shiftr_div_pow2, Z.land_ones by lia. pose proof (Z.div_mod (Zpos m) (2 ^ 32) ltac:(lia)). pose proof (Z.mod_pos_bound (Zpos m) (2 ^ 32) ltac:(lia)).
    split; [split_and!; lia|]. cbn [Z.eqb andb].
    destruct (Z.eqb_spec (Zpos m / 2 ^ 32) 0); [|done]. destruct (Z.eqb_spec (Zpos m mod 2 ^ 32) 0); [lia|done].
  - set (k := Zpos m - 2 ^ 52) in *. rewrite Z.shiftr_div_pow2, Z.land_ones by lia. pose proof (Z.mod_pos_bound k (2 ^ 32) ltac:(lia)).
    assert (0 <= k < 2 ^ 52) by lia. rewrite (proj2 (Z.eqb_neq (e + 1075) 0)) by lia.
    split; [|done]. pose proof (Z.div_mod k (2 ^ 32) ltac:(lia)). split_and!; lia.
Qed.

(** In version 2 a positive number that is not low stays positive. *)
Lemma fp8_round_pos m e : Zpos m < 2 ^ 53 -> -1074 <= e <= 971 -> ~ low_bandwidth (S754_finite false m e) ->
  dle (fp8_round BANDWIDTH_range (S754_finite false m e)) (of_int 0) = false.
Proof.
  intros Hm He Hlow. unfold fp8_round, UCS_FP8_UNPACK, fp8_of, BANDWIDTH_range, low_bandwidth, IEEE754_DOUBLE_BIAS in *. cbn [fst snd].
  destruct (to_ieee_finite m e Hm He) as [Hwf Hnz]. set (x := to_ieee _) in *. clearbody x. clear m e Hm He. pose proof Hwf as (HE & H0 & H1).
  assert (Hab : fp8_range 29 42) by (unfold fp8_range; lia).
  assert (exists c, ucs_fp8_pack x (2 ^ 29) (2 ^ 42) = c /\ 0 <= c < 256 /\ Z.land c 15 <> 15 /\ (Z.land c 15 = 0 -> 0 < Z.shiftr c 4)) as (c & -> & Hc & Hn & Hz).
  { eexists. split; [done|]. destruct (Z.ltb_spec (42 + 1022) (exponent x)); [|destruct (Z.ltb_spec (exponent x) (29 + 1022))].
    - rewrite (fp8_pack_unfold 29 42 Hab), (proj2 (Z.eqb_neq _ _)), (proj2 (Z.ltb_lt _ _)) by lia. by vm_compute.
    - rewrite (fp8_pack_unfold 29 42 Hab), (proj2 (Z.eqb_neq _ _)), (proj2 (Z.ltb_ge _ _)), (proj2 (Z.ltb_lt (exponent x) _)), Hnz by lia. by vm_compute.
    - destruct (fp8_normal_code 29 42 Hab x Hwf ltac:(lia)) as (Hc & E1 & E2). change _UCS_FP8_EXPONENT_MASK with 15 in *. change _UCS_FP8_EXPONENT_BITS with 4 in *.
      rewrite E1, E2. split; [done|]. split; [lia|]. intros E. apply Z.div_str_pos. destruct (Z.lt_ge_cases (mantissa0 x) (2 ^ 16)); [|lia].
      destruct Hlow. split; [lia|done]. }
  destruct (fp8_unpack_code 29 42 Hab c (2 ^ 29) (2 ^ 42) Hc eq_refl) as (U1 & U2 & U3). cbv zeta in U3.
  assert (0 <= Z.shiftr c 4) by (apply Z.shiftr_nonneg; lia). assert (0 <= Z.land c 15 < 16) by (change 15 with (Z.ones 4); rewrite Z.land_ones by lia; apply Z.mod_pos_bound; lia).
  apply of_ieee_pos; [done| |rewrite U1; lia|by rewrite U2|]; rewrite ?U1, U3, (proj2 (Z.eqb_neq _ 15)) by lia; destruct (Z.eqb_spec (Z.land c 15) 0); lia.
Qed.

Section roundtrip.
Context (w : ucp_worker_t) (ep : option ucp_ep_t) (pf : Z) (v : ucp_object_version_t) (l2r : option (Z -> Z)).
Context (wu : ucp_worker_t) (uf : Z).

Definition amo_masks (b : bool) : Z * Z := if b then (UCP_ATOMIC_OP_MASK, UCP_ATOMIC_FOP_MASK) else (0, 0).

(** The attributes of an interface as they are unpacked: rounded to the precision of the
    format, or those of the local interface in unified mode. *)
Definition unpacked_attr (r : Z) : ucp_address_iface_attr :=
  let a := iface_attr w r in
  let rsc := if has pf UCP_ADDRESS_PACK_FLAG_TL_RSC_IDX then r else UCP_NULL_RESOURCE in
  let amo32 := amo_masks (has (amo w r) UCP_ADDR_IFACE_FLAG_ATOMIC32) in
  let amo64 := amo_masks (has (amo w r) UCP_ADDR_IFACE_FLAG_ATOMIC64) in
  if unified_mode w then
    let l := iface_attr wu r in
    let enabled (x : Z * Z) := if Z.testbit (atomic_tls w) r then x else (0, 0) in
    AddressIfaceAttr (ucp_address_flags_from_iface_flags (cap_flags l) (cap_event_flags l)) (overhead l)
      (ucp_tl_iface_bandwidth wu (bandwidth_dedicated l) (bandwidth_shared l)) (priority l)
      (dabs (f32 (ucp_wireup_iface_lat_distance_v1 w (ifaces w r)))) r
      (enabled (atomic32_op_flags l, atomic32_fop_flags l)) (enabled (atomic64_op_flags l, atomic64_fop_flags l)) (am_max_bcopy l) v
  else if is_v1 v then
    AddressIfaceAttr (Z.lor (ucp_address_flags_from_iface_flags (Z.land (cap_flags a) UCP_ADDRESS_IFACE_FLAGS) (Z.land (cap_event_flags a) UCP_ADDRESS_IFACE_EVENT_FLAGS)) (amo w r))
      (f32 (overhead a)) (f32 (ucp_wireup_iface_bw_distance w (ifaces w r))) (priority a) (f32 (ucp_wireup_iface_lat_distance_v1 w (ifaces w r)))
      rsc amo32 amo64 UINT_MAX v
  else
    AddressIfaceAttr (Z.lor (ucp_address_flags_from_iface_flags (cap_flags a) (cap_event_flags a)) (amo w r))
      (ddiv (fp8_round OVERHEAD_range (nsec (overhead a))) (of_int UCS_NSEC_PER_SEC)) (fp8_round BANDWIDTH_range (ucp_wireup_iface_bw_distance w (ifaces w r)))
      (priority a) (ddiv (fp8_round LATENCY_range (nsec (ucp_wireup_iface_lat_distance_v2 w (ifaces w r)))) (of_int UCS_NSEC_PER_SEC))
      rsc amo32 amo64 (ucp_address_iface_seg_size a / UCP_ADDRESS_IFACE_SEG_SIZE_FACTOR * UCP_ADDRESS_IFACE_SEG_SIZE_FACTOR) v.

(** What the peer needs to read a resource: in unified mode the same resource with
    addresses of the same length, and a latency that is not negative; else the same
    flag of the resource index, and a bandwidth that the format keeps above 0. *)
Definition readable (r : Z) : Prop :=
  unified_mode wu = unified_mode w /\
  if unified_mode w then
    Z.testbit (tl_bitmap wu) r = true /\ iface_addr_len (iface_attr wu r) = iface_addr_len (iface_attr w r) /\
    ep_addr_len (iface_attr wu r) = ep_addr_len (iface_attr w r) /\
    is_nan (ucp_wireup_iface_lat_distance_v1 w (ifaces w r)) = false /\ dsign (ucp_wireup_iface_lat_distance_v1 w (ifaces w r)) = false
  else has uf UCP_ADDRESS_PACK_FLAG_TL_RSC_IDX = has pf UCP_ADDRESS_PACK_FLAG_TL_RSC_IDX /\ good_bandwidth v (ucp_wireup_iface_bw_distance w (ifaces w r)).

(** The check of the bandwidth in the unpacking succeeds. *)
Lemma good_bandwidth_unpacked r : unified_mode w = false -> good_bandwidth v (ucp_wireup_iface_bw_distance w (ifaces w r)) ->
  dle (ai_bandwidth (unpacked_attr r)) (of_int 0) = false.
Proof.
  intros Hu (m & e & E & Hm & He & Hv). unfold unpacked_attr. rewrite Hu, E. rewrite E in Hv. destruct (is_v1 v); cbn [ai_bandwidth].
  - by apply f32_pos.
  - by apply fp8_round_pos.
Qed.

(** The word of priority and flags of version 1. *)
Lemma iface_flag_bits : ucs_for_each_bit UCP_ADDRESS_IFACE_FLAGS = [1; 3; 4; 5; 6; 8; 9; 10; 40; 44; 45; 51; 53].
Proof. by vm_compute. Qed.

Lemma event_flag_bits : ucs_for_each_bit UCP_ADDRESS_IFACE_EVENT_FLAGS = [1].
Proof. by vm_compute. Qed.

Lemma cap_word_testbit r j : 0 <= j ->
  Z.testbit (cap_word w r) j = Z.testbit (u8 (priority (iface_attr w r))) j ||
    ((8 <=? j) && match ucs_for_each_bit UCP_ADDRESS_IFACE_FLAGS !! Z.to_nat (j - 8) with Some i => Z.testbit (cap_flags (iface_attr w r)) i | None => false end) ||
    ((21 <=? j) && match ucs_for_each_bit UCP_ADDRESS_IFACE_EVENT_FLAGS !! Z.to_nat (j - 21) with Some i => Z.testbit (cap_event_flags (iface_attr w r)) i | None => false end).
Proof.
  intros Hj. unfold cap_word. rewrite iface_flag_bits, event_flag_bits, !Z.lor_spec.
  rewrite !pack_loop_testbit by (done || (cbn [length]; lia) || (repeat constructor; lia)). by rewrite !Z.bits_0.
Qed.



Lemma prio_word_testbit r j : 0 <= j ->
  Z.testbit (prio_word w r) j = Z.testbit (cap_word w r) j || ((j =? 30) && has (amo w r) UCP_ADDR_IFACE_FLAG_ATOMIC32) || ((j =? 31) && has (amo w r) UCP_ADDR_IFACE_FLAG_ATOMIC64).
Proof.
  intros Hj. unfold prio_word. change UCP_ADDRESS_V1_FLAG_ATOMIC32 with (2 ^ 30). change UCP_ADDRESS_V1_FLAG_ATOMIC64 with (2 ^ 31).
  rewrite !(Z.eqb_sym j). destruct (has _ UCP_ADDR_IFACE_FLAG_ATOMIC32), (has _ UCP_ADDR_IFACE_FLAG_ATOMIC64);
    rewrite ?Z.lor_spec, ?Z.pow2_bits_eqb, ?andb_true_r, ?andb_false_r, ?orb_false_r by lia; done.
Qed.

Lemma prio_word_high r j : 22 <= j -> Z.testbit (prio_word w r) j = ((j =? 30) && has (amo w r) UCP_ADDR_IFACE_FLAG_ATOMIC32) || ((j =? 31) && has (amo w r) UCP_ADDR_IFACE_FLAG_ATOMIC64).
Proof.
  intros Hj. rewrite prio_word_testbit, cap_word_testbit by lia. rewrite iface_flag_bits, event_flag_bits.
  rewrite (Z_bits_above 8); [|apply u_wrap_range; lia|lia]. rewrite !lookup_ge_None_2 by (cbn [length]; lia). by rewrite !andb_false_r.
Qed.

Lemma prio_word_range r : 0 <= prio_word w r < 2 ^ 32.
Proof.
  assert (Hb : forall j, 32 <= j -> Z.testbit (prio_word w r) j = false).
  { intros j Hj. rewrite prio_word_high by lia. rewrite !(proj2 (Z.eqb_neq j _)) by lia. done. }
  assert (Hn : 0 <= prio_word w r) by (apply Z.bits_iff_nonneg_ex; exists 31; intros j Hj; apply Hb; lia).
  split; [done|]. by apply Z.bounded_iff_bits_nonneg.
Qed.

Lemma prio_word_priority r : 0 <= priority (iface_attr w r) < 256 -> Z.land (prio_word w r) (UCS_MASK 8) = priority (iface_attr w r).
Proof.
  intros Hp. change (UCS_MASK 8) with (Z.ones 8). apply Z.bits_inj'. intros j Hj. rewrite Z.land_spec. destruct (Z.lt_ge_cases j 8) as [H|H].
  - rewrite Z.ones_spec_low, andb_true_r, prio_word_testbit, cap_word_testbit by lia. rewrite !(proj2 (Z.leb_gt _ j)) by lia.
    rewrite !(proj2 (Z.eqb_neq j _)) by lia. cbn [andb]. rewrite !orb_false_r. by rewrite u8_byte.
  - rewrite Z.ones_spec_high, andb_false_r by lia. symmetry. by apply (Z_bits_above 8).
Qed.

Lemma prio_word_flags r : ucp_address_unpack_flags (prio_word w r) UCP_ADDRESS_IFACE_FLAGS 8 = Some (Z.land (cap_flags (iface_attr w r)) UCP_ADDRESS_IFACE_FLAGS) /\
  ucp_address_unpack_flags (prio_word w r) UCP_ADDRESS_IFACE_EVENT_FLAGS (8 + ucs_popcount UCP_ADDRESS_IFACE_FLAGS) =
    Some (Z.land (cap_event_flags (iface_attr w r)) UCP_ADDRESS_IFACE_EVENT_FLAGS).
Proof.
  assert (Hu : forall j, 8 <= j -> Z.testbit (u8 (priority (iface_attr w r))) j = false) by (intros j Hj; apply (Z_bits_above 8); [apply u_wrap_range; lia|done]).
  split; (apply unpack_flags_ok; [by vm_compute|by vm_compute|by vm_compute|]).
  - intros k i Hk. pose proof (lookup_lt_Some _ _ _ Hk) as Hl. rewrite iface_flag_bits in Hl. cbn [length] in Hl.
    rewrite prio_word_testbit, cap_word_testbit, Hu by lia. rewrite (proj2 (Z.leb_le 8 _)), (proj2 (Z.leb_gt 21 _)) by lia. replace (Z.to_nat (8 + Z.of_nat k - 8)) with k by lia.
    rewrite Hk, !(proj2 (Z.eqb_neq _ _)) by lia. cbn [andb orb]. by rewrite !orb_false_r.
  - intros k i Hk. change (8 + ucs_popcount UCP_ADDRESS_IFACE_FLAGS) with 21. pose proof (lookup_lt_Some _ _ _ Hk) as Hl. rewrite event_flag_bits in Hl. cbn [length] in Hl.
    rewrite prio_word_testbit, cap_word_testbit, Hu by lia. rewrite (proj2 (Z.leb_le 8 _)), (proj2 (Z.leb_le 21 _)) by lia. replace (Z.to_nat (21 + Z.of_nat k - 21)) with k by lia.
    rewrite iface_flag_bits, (lookup_ge_None_2 [1; _; _; _; _; _; _; _; _; _; _; _; _]) by (cbn [length]; lia).
    rewrite Hk, !(proj2 (Z.eqb_neq _ _)) by lia. cbn [andb orb]. by rewrite !orb_false_r.
Qed.

Lemma amo_cases r : amo w r = 0 \/ amo w r = 256 \/ amo w r = 512 \/ amo w r = 768.
Proof. unfold amo, iface_atomic_flags. destruct (Z.testbit _ _); [|by left]. destruct (_ && _), (_ && _); vm_compute; auto. Qed.

(** The flags of the atomic operations above the others. *)
Lemma amo_flags r F : byte F ->
  (let F := if has (amo w r) UCP_ADDR_IFACE_FLAG_ATOMIC32 then Z.lor F UCP_ADDR_IFACE_FLAG_ATOMIC32 else F in
   if has (amo w r) UCP_ADDR_IFACE_FLAG_ATOMIC64 then Z.lor F UCP_ADDR_IFACE_FLAG_ATOMIC64 else F) = Z.lor F (amo w r) /\
  has (Z.lor F (amo w r)) UCP_ADDR_IFACE_FLAG_ATOMIC32 = has (amo w r) UCP_ADDR_IFACE_FLAG_ATOMIC32 /\
  has (Z.lor F (amo w r)) UCP_ADDR_IFACE_FLAG_ATOMIC64 = has (amo w r) UCP_ADDR_IFACE_FLAG_ATOMIC64 /\ 0 <= Z.lor F (amo w r) < 2 ^ 16.
Proof.
  intros HF. split_and!.
  - destruct (amo_cases r) as [->|[->|[->| ->]]]; [by rewrite Z.lor_0_r|done|done|]. cbn [has]. change (has 768 _) with true. cbv zeta iota. by rewrite <- Z.lor_assoc.
  - by apply (has_high 8).
  - by apply (has_high 8).
  - apply Z.lor_nonneg. unfold byte in HF. destruct (amo_cases r); lia.
  - unfold byte in HF. assert (Hle : 0 <= amo w r < 2 ^ 16) by (apply atomic_flags_range).
    apply Z.bounded_iff_bits_nonneg; [lia|apply Z.lor_nonneg; lia|]. intros j Hj. rewrite Z.lor_spec, !(Z_bits_above 16) by lia. done.
Qed.



(** ** Attributes *)

Lemma unpack_attr_v1 buf p r : rsc_ok w ep pf v l2r r -> at_ buf p (enc_attr_v1 w r) -> dle (f32 (ucp_wireup_iface_bw_distance w (ifaces w r))) (of_int 0) = false ->
  ucp_address_unpack_iface_attr_v1 buf wu p =
  Some (AddressIfaceAttr (Z.lor (ucp_address_flags_from_iface_flags (Z.land (cap_flags (iface_attr w r)) UCP_ADDRESS_IFACE_FLAGS)
          (Z.land (cap_event_flags (iface_attr w r)) UCP_ADDRESS_IFACE_EVENT_FLAGS)) (amo w r))
      (f32 (overhead (iface_attr w r))) (f32 (ucp_wireup_iface_bw_distance w (ifaces w r))) (priority (iface_attr w r))
      (f32 (ucp_wireup_iface_lat_distance_v1 w (ifaces w r))) 0 (0, 0) (0, 0) UINT_MAX UCP_OBJECT_VERSION_V1).
Proof.
  intros H Ha Hbw. unfold enc_attr_v1 in Ha. apply at_app in Ha as [A1 Ha]. apply at_app in Ha as [A2 Ha]. apply at_app in Ha as [A3 A4]. rewrite !le_bytes_length in *.
  unfold ucp_address_unpack_iface_attr_v1. rewrite (bind_eq _ _ _ (at_rd _ _ _ _ A1 (double_to_float_range _))).
  rewrite (bind_eq _ _ _ (at_rd _ _ _ _ A2 (double_to_float_range _))).
  replace (p + 4 + 4)%nat with (p + 8)%nat in * by lia. rewrite (bind_eq _ _ _ (at_rd _ _ _ _ A3 (double_to_float_range _))).
  replace (p + 8 + 4)%nat with (p + 12)%nat in * by lia. rewrite (bind_eq _ _ _ (at_rd _ _ _ _ A4 (prio_word_range r))).
  destruct (prio_word_flags r) as [F1 F2]. rewrite (bind_eq _ _ _ F1), (bind_eq _ _ _ F2). rewrite prio_word_priority by apply (ro_priority _ _ _ _ _ _ H).
  change UCP_ADDRESS_V1_FLAG_ATOMIC32 with (2 ^ 30). change UCP_ADDRESS_V1_FLAG_ATOMIC64 with (2 ^ 31). rewrite !has_testbit, !prio_word_high by lia.
  cbn [Z.eqb Pos.eqb andb orb]. rewrite orb_false_r.
  destruct (amo_flags r _ (flags_from_byte (Z.land (cap_flags (iface_attr w r)) UCP_ADDRESS_IFACE_FLAGS) (Z.land (cap_event_flags (iface_attr w r)) UCP_ADDRESS_IFACE_EVENT_FLAGS))) as (Hf & _).
  cbv zeta in Hf. rewrite Hf. fold (f32 (ucp_wireup_iface_bw_distance w (ifaces w r))). fold (f32 (overhead (iface_attr w r))).
  replace (dlt _ _) with false; [done|]. unfold dle, dlt, SpecFloat.SFleb, SpecFloat.SFltb in *. by repeat case_match.
Qed.

Lemma unpack_attr_v2 buf p r : rsc_ok w ep pf v l2r r -> at_ buf p (enc_attr_v2 w r) ->
  ucp_address_unpack_iface_attr_v2 buf p =
  Some (AddressIfaceAttr (Z.lor (ucp_address_flags_from_iface_flags (cap_flags (iface_attr w r)) (cap_event_flags (iface_attr w r))) (amo w r))
      (ddiv (fp8_round OVERHEAD_range (nsec (overhead (iface_attr w r)))) (of_int UCS_NSEC_PER_SEC)) (fp8_round BANDWIDTH_range (ucp_wireup_iface_bw_distance w (ifaces w r)))
      (priority (iface_attr w r)) (ddiv (fp8_round LATENCY_range (nsec (ucp_wireup_iface_lat_distance_v2 w (ifaces w r)))) (of_int UCS_NSEC_PER_SEC))
      0 (0, 0) (0, 0) (ucp_address_iface_seg_size (iface_attr w r) / UCP_ADDRESS_IFACE_SEG_SIZE_FACTOR * UCP_ADDRESS_IFACE_SEG_SIZE_FACTOR) UCP_OBJECT_VERSION_V2).
Proof.
  intros H Ha. unfold enc_attr_v2 in Ha. cbn [app] in Ha. pose proof (at_tail _ _ _ _ Ha) as H1. pose proof (at_tail _ _ _ _ H1) as H2. pose proof (at_tail _ _ _ _ H2) as H3.
  pose proof (at_tail _ _ _ _ H3) as H4. apply at_app in H4 as [H4 H5]. rewrite le_bytes_length in H5.
  unfold ucp_address_unpack_iface_attr_v2. replace (p + 1)%nat with (S p) by lia. replace (p + 2)%nat with (S (S p)) by lia. replace (p + 3)%nat with (S (S (S p))) by lia.
  replace (p + 4)%nat with (S (S (S (S p)))) by lia. replace (p + 6)%nat with (S (S (S (S p))) + 2)%nat by lia.
  rewrite (bind_eq _ _ _ (at_rd8 _ _ _ _ Ha)), (bind_eq _ _ _ (at_rd8 _ _ _ _ H1)), (bind_eq _ _ _ (at_rd8 _ _ _ _ H2)), (bind_eq _ _ _ (at_rd8 _ _ _ _ H3)).
  rewrite (bind_eq _ _ _ (at_rd 2 _ _ _ H4 (u_wrap_range 16 _ ltac:(lia)))), (bind_eq _ _ _ (at_rd 2 _ _ _ H5 (u_wrap_range 16 _ ltac:(lia)))).
  destruct (amo_flags r _ (flags_from_byte (cap_flags (iface_attr w r)) (cap_event_flags (iface_attr w r)))) as (_ & _ & _ & Hr).
  rewrite (u_wrap_small 16 (Z.lor _ _)) by exact Hr. pose proof (ro_priority _ _ _ _ _ _ H). pose proof (ro_seg_size _ _ _ _ _ _ H).
  rewrite (u_wrap_small 16 (_ / _)) by (unfold UCP_ADDRESS_IFACE_SEG_SIZE_FACTOR; split; [apply Z.div_pos; lia|apply Z.div_lt_upper_bound; lia]).
  rewrite Z.min_r by lia. done.
Qed.

Lemma dopp_sign x : is_nan x = false -> is_nan (dopp x) = false /\ dsign (dopp x) = negb (dsign x).
Proof. by destruct x. Qed.

Lemma unpack_attr buf p f r : rsc_ok w ep pf v l2r r -> readable r -> byte f -> Z.land f 63 = 0 -> at_ buf p (enc_attr w pf v f r) ->
  ucp_address_unpack_iface_attr buf wu p uf v = ok (unpacked_attr r, length (enc_attr w pf v f r)).
Proof.
  intros H [Hu Hr] Hf Hf6 Ha. pose proof (enc_attr_length w pf v f r) as Hlen. pose proof (good_bandwidth_unpacked r) as Hgb. unfold ucp_address_unpack_iface_attr, unpacked_attr, enc_attr, ucp_address_iface_attr_size in *. rewrite Hu.
  destruct (unified_mode w) eqn:Eu.
  - destruct Hr as (Hb & _ & _ & Hnan & Hsign). pose proof (ro_range _ _ _ _ _ _ H) as Hrng. rewrite Eu in Hrng.
    rewrite (at_rd8 _ _ _ _ Ha). cbn [lift fmap option_fmap option_map rbind]. rewrite (at_rd 4 _ _ _ (at_tail _ _ _ _ Ha) (double_to_float_range _)).
    cbn [lift fmap option_fmap option_map rbind]. change UCP_ADDRESS_IFACE_LEN_MASK with (Z.ones 6). rewrite land_low by (done || lia). rewrite Hb. cbn [negb].
    replace (float_signbit _) with (Z.testbit (atomic_tls w) r).
    2:{ unfold signed_lat. destruct (dopp_sign _ Hnan) as [Hn Hs]. destruct (Z.testbit (atomic_tls w) r); rewrite float_signbit_sign by done; rewrite ?Hs, Hsign; done. }
    replace (dabs (float_to_double _)) with (dabs (f32 (ucp_wireup_iface_lat_distance_v1 w (ifaces w r)))).
    2:{ unfold signed_lat. destruct (Z.testbit (atomic_tls w) r); [|done]. symmetry. apply f32_opp. }
    cbn [length]. rewrite le_bytes_length. done.
  - destruct Hr as [Hidx Hbw]. apply Hgb in Hbw; [|done]. clear Hgb. apply at_app in Ha as [Ha Hi]. rewrite Hidx.
    assert (Hsz : length (if is_v1 v then enc_attr_v1 w r else enc_attr_v2 w r) = Z.to_nat (if is_v1 v then sizeof_packed_iface_attr else sizeof_v2_packed_iface_attr))
      by (rewrite length_app in Hlen; destruct (is_v1 v), (has pf UCP_ADDRESS_PACK_FLAG_TL_RSC_IDX); cbn [length] in Hlen; unfold sizeof_packed_iface_attr, sizeof_v2_packed_iface_attr in *; lia).
    rewrite Hsz in Hi. rewrite length_app, Hsz. destruct (amo_flags r _ (flags_from_byte (cap_flags (iface_attr w r)) (cap_event_flags (iface_attr w r)))) as (_ & M32 & M64 & _).
    destruct (amo_flags r _ (flags_from_byte (Z.land (cap_flags (iface_attr w r)) UCP_ADDRESS_IFACE_FLAGS) (Z.land (cap_event_flags (iface_attr w r)) UCP_ADDRESS_IFACE_EVENT_FLAGS)))
      as (_ & L32 & L64 & _).
    destruct (is_v1 v); cbn [ai_bandwidth] in *; [rewrite (unpack_attr_v1 buf p r H Ha Hbw)|rewrite (unpack_attr_v2 buf p r H Ha)];
      cbn [lift fmap option_fmap option_map rbind ai_flags ai_overhead ai_bandwidth ai_priority ai_lat_ovh ai_seg_size]; rewrite Hbw, ?L32, ?L64, ?M32, ?M64;
      (destruct (has pf UCP_ADDRESS_PACK_FLAG_TL_RSC_IDX); [rewrite (at_rd8 _ _ _ _ Hi); cbn [length]; by rewrite Nat.add_comm|cbn [length]; by rewrite Nat.add_0_r]).
Qed.



(** ** Endpoint addresses *)

Definition unpacked_ep (r lane : Z) : ucp_address_entry_ep_addr :=
  EntryEpAddr (remote_lane l2r lane) lane (bytes_of (ep_addr ep lane)) (ep_addr_len (iface_attr w r)).

(** The byte with the flags of a resource, which has its index in unified mode. *)
Definition flags_byte (buf : list Z) (flags_ptr : nat) (f r : Z) : Prop :=
  exists b, rd8 buf flags_ptr = Some b /\ (forall flag, Z.land flag 63 = 0 -> has b flag = has f flag) /\ (unified_mode w = true -> Z.land b 63 = r).

Lemma unpack_ep_length buf r f flags_ptr p post : readable r -> flags_byte buf flags_ptr f r -> 0 <= ep_addr_len (iface_attr w r) <= 255 ->
  let len := if unified_mode w then [] else [ep_addr_len (iface_attr w r)] in
  at_ buf p (len ++ post) ->
  ucp_address_unpack_tl_length_ep buf wu flags_ptr p = Some (ep_addr_len (iface_attr w r), (p + length len)%nat) /\ at_ buf (p + length len) post.
Proof.
  intros [Hu Hr] (b & Hb & _ & Hidx) Hl len Ha. split; [|by apply at_app in Ha as [_ Ha]]. unfold ucp_address_unpack_tl_length_ep, len in *. rewrite Hu.
  destruct (unified_mode w).
  - rewrite (bind_eq _ _ _ Hb). change UCP_ADDRESS_IFACE_LEN_MASK with 63. rewrite Hidx by done. destruct Hr as (_ & _ & -> & _).
    rewrite u8_byte by (unfold byte; lia). cbn [length]. by rewrite Nat.add_0_r.
  - rewrite (bind_eq _ _ _ (at_rd8 _ _ _ _ Ha)). cbn [length]. by rewrite Nat.add_1_r.
Qed.

Lemma unpack_eps buf r f flags_ptr p L n : readable r -> flags_byte buf flags_ptr f r -> Forall (ep_ok w ep l2r r) L -> L <> [] -> (length L <= n)%nat ->
  at_ buf p (enc_list (enc_ep w ep l2r r) L) ->
  unpack_ep_addrs buf wu flags_ptr n p = ok (unpacked_ep r <$> L, (p + length (enc_list (enc_ep w ep l2r r) L))%nat).
Proof.
  intros Hr Hb HL. revert p n. induction HL as [|lane L (Ha & Hlen & Hrem) HL IH]; intros p n Hne Hn Hat; [done|]. destruct n as [|n]; [cbn in Hn; lia|].
  rewrite enc_list_cons in *. apply at_app in Hat as [H1 H2]. pose proof Ha as (_ & _ & Hla). unfold enc_ep in H1 at 1.
  destruct (unpack_ep_length buf r f flags_ptr p _ Hr Hb ltac:(lia) H1) as [Hu H3]. cbn [unpack_ep_addrs]. rewrite Hu. cbn [lift fmap option_fmap option_map rbind].
  apply at_app in H3 as [H3 H4]. rewrite (at_slice _ _ _ _ H3 Hla).
  assert (Hla' : Z.to_nat (ep_addr_len (iface_attr w r)) = length (bytes_of (ep_addr ep lane))) by lia. rewrite Hla'. cbn [app] in H4.
  rewrite (at_rd8 _ _ _ _ H4). cbn [lift fmap option_fmap option_map rbind]. rewrite (at_rd8 _ _ _ _ (at_tail _ _ _ _ H4)). cbn [lift fmap option_fmap option_map rbind].
  set (last := bool_decide (L = [])) in *. set (fl := if last then UCP_ADDRESS_FLAG_LAST else 0) in *. change UCP_ADDRESS_IFACE_LEN_MASK with (Z.ones 6).
  rewrite land_low by (done || lia || (unfold fl; by destruct last)). rewrite (has_high 6) by (done || lia). rewrite length_app.
  set (p' := S (S _)). assert (Hp : p' = (p + length (enc_ep w ep l2r r last lane))%nat) by (unfold p', enc_ep; rewrite !length_app; cbn [length]; lia).
  rewrite fmap_cons. unfold unpacked_ep at 1. unfold fl, last in *. destruct (decide (L = [])) as [->|HLn].
  - cbn. rewrite Hp. cbn. by rewrite Nat.add_0_r.
  - rewrite bool_decide_eq_false_2 in * by done. change (has 0 UCP_ADDRESS_FLAG_LAST) with false. cbv iota. rewrite Hp, (IH _ n) by (done || (cbn in Hn; lia)). cbn [rbind ok].
    by rewrite Nat.add_assoc.
Qed.

(** ** Resources *)

Definition unpacked_entry (g : list Z) (r unique : Z) : ucp_address_entry :=
  let len := iface_addr_len (iface_attr w r) in
  AddressEntry (if 0 <? dev_len w pf g then Some (dev_bytes w pf g) else None) (dev_len w pf g)
    (if 0 <? len then Some (bytes_of (iface_address (ifaces w r))) else None) (unpacked_ep r <$> ep_lanes w ep pf r) (unpacked_attr r)
    (dev_paths w g) (tl_name_csum (tl_rscs w r)) (md_index (tl_rscs w r)) (dev_sys w pf g) unique.

(** The index of a device among the devices so far. *)
Definition remote_device (devs : list (Z * Z)) (dev_index sys_dev : Z) : Z * list (Z * Z) :=
  match find_remote_device devs dev_index sys_dev 0 with
  | Some i => (i, devs)
  | None => (Z.of_nat (length devs), devs ++ [(dev_index, sys_dev)])
  end.

Lemma get_remote_device devs i s : (length devs < 128)%nat -> ucp_address_get_remote_device_index devs i s = Some (remote_device devs i s).
Proof.
  intros Hl. unfold ucp_address_get_remote_device_index, remote_device. destruct (find_remote_device _ _ _ _); [done|]. unfold assert, UCP_MAX_RESOURCES.
  rewrite (proj2 (Z.ltb_lt _ 128)) by lia. cbn [mbind option_bind]. rewrite u8_byte by (unfold byte; lia). done.
Qed.

Lemma remote_device_length devs i s : (length (remote_device devs i s).2 <= S (length devs))%nat.
Proof. unfold remote_device. destruct (find_remote_device _ _ _ _); cbn [snd]; [lia|]. rewrite length_app. cbn. lia. Qed.

Definition dev_info (g : list Z) : device_info := DeviceInfo (dev_md w g) (dev_len w pf g) (dev_paths w g) (dev_sys w pf g) (dev_bytes w pf g).

Lemma unpack_len buf p f r post : rsc_ok w ep pf v l2r r -> readable r -> Z.land f 63 = 0 ->
  at_ buf p (enc_attr w pf v f r ++ enc_len w v f r ++ post) ->
  let q := (p + length (enc_attr w pf v f r))%nat in let flags_ptr := ucp_address_iface_flags_ptr wu p q in
  flags_byte buf flags_ptr f r /\
  ucp_address_unpack_tl_length buf wu flags_ptr q v = Some (iface_addr_len (iface_attr w r), has f UCP_ADDRESS_FLAG_LAST, (q + length (enc_len w v f r))%nat).
Proof.
  intros H [Hu Hr] Hf Ha q flags_ptr. apply at_app in Ha as [H1 H2]. apply at_app in H2 as [H2 _]. pose proof (ro_addr_len _ _ _ _ _ _ H) as Hlen. pose proof (ro_range _ _ _ _ _ _ H) as Hrng.
  unfold flags_byte, flags_ptr, ucp_address_iface_flags_ptr, ucp_address_unpack_tl_length, enc_len, enc_attr in *. rewrite Hu. destruct (unified_mode w).
  - assert (Hidx : Z.land (Z.lor r f) 63 = r) by (apply (land_low 6); done || lia). assert (Hfl : forall flag, Z.land flag 63 = 0 -> has (Z.lor r f) flag = has f flag)
      by (intros flag Hfl; apply (has_high 6); done || lia).
    split; [exists (Z.lor r f); split_and!; [apply (at_rd8 _ _ _ _ H1)|done|done]|]. rewrite (bind_eq _ _ _ (at_rd8 _ _ _ _ H1)).
    change UCP_ADDRESS_IFACE_LEN_MASK with 63. rewrite Hidx, Hfl by done. destruct Hr as (_ & -> & _). cbn [length]. rewrite Nat.add_0_r.
    rewrite u8_byte; [done|]. unfold byte, fits in *. destruct (is_v1 v); lia.
  - change UCP_ADDRESS_IFACE_LEN_MASK with (Z.ones 6) in *. destruct (unpack_ext buf q f _ v 6 H2 Hlen ltac:(lia) Hf) as [E1 (b & E2 & E3)].
    split; [exists b; split_and!; done|]. rewrite (bind_eq _ _ _ E2), (bind_eq _ _ _ E1). by rewrite E3.
Qed.



Lemma enc_rsc_flags r (last : bool) : let f := Z.lor (ep_flag w ep pf r) (if last then UCP_ADDRESS_FLAG_LAST else 0) in
  byte f /\ Z.land f 63 = 0 /\ has f UCP_ADDRESS_FLAG_LAST = last /\ has f UCP_ADDRESS_FLAG_HAS_EP_ADDR = negb (bool_decide (ep_lanes w ep pf r = [])).
Proof. unfold ep_flag. case_bool_decide; destruct last; done. Qed.

Lemma ep_lanes_length r : flags_ok ep pf -> (length (ep_lanes w ep pf r) <= 16)%nat.
Proof.
  intros [_ He]. unfold ep_lanes. destruct (has pf UCP_ADDRESS_PACK_FLAG_EP_ADDR); [|cbn; lia]. specialize (He eq_refl). destruct ep as [e|]; [|done].
  enough (forall lane rscs, (length (lanes_from w (has_cm_lane e) r lane rscs) <= length rscs)%nat) by (specialize (H 0 (lanes e)); lia).
  intros lane rscs. revert lane. induction rscs as [|rsc rscs IH]; intros lane; [done|]. cbn [lanes_from]. specialize (IH (lane + 1)). destruct (_ && _); cbn [length]; lia.
Qed.

Lemma unpack_tl_ok buf p g r last i devs : flags_ok ep pf -> rsc_ok w ep pf v l2r r -> readable r -> md_index (tl_rscs w r) = dev_md w g -> (length devs < 128)%nat ->
  at_ buf p (enc_rsc w ep pf v l2r last r) ->
  unpack_tl buf wu uf v (dev_info g) i devs p =
  ok (unpacked_entry g r (remote_device devs i (dev_sys w pf g)).1, last, (remote_device devs i (dev_sys w pf g)).2, (p + length (enc_rsc w ep pf v l2r last r))%nat).
Proof.
  intros Hfl H Hr Hmd Hd Ha. unfold enc_rsc in *. destruct (enc_rsc_flags r last) as (Hb & H63 & Hlast & Hep). set (f := Z.lor _ _) in *.
  unfold enc_tl in Ha. apply at_app in Ha as [H1 H2]. rewrite le_bytes_length in H2. destruct (unpack_len buf (p + 2) f r _ H Hr H63 H2) as [Hfb Hlen].
  pose proof (ro_csum _ _ _ _ _ _ H) as Hcs. destruct (ro_address _ _ _ _ _ _ H) as (_ & _ & Haddr). apply at_app in H2 as [H2 H3]. apply at_app in H3 as [_ H3]. apply at_app in H3 as [H3 H4].
  unfold unpack_tl. rewrite (at_rd 2 _ _ _ H1 Hcs). cbn [lift fmap option_fmap option_map rbind dev_info di_sys_dev di_addr_len di_addr di_num_paths di_md_index].
  rewrite (get_remote_device _ _ _ Hd). cbn [lift fmap option_fmap option_map rbind]. destruct (remote_device devs i (dev_sys w pf g)) as [u devs'] eqn:Erd. cbn [fst snd].
  rewrite (unpack_attr buf (p + 2) f r H Hr Hb H63 H2). cbn [rbind ok]. rewrite Hlen. cbn [lift fmap option_fmap option_map rbind].
  rewrite (at_slice _ _ _ _ H3 Haddr). replace (Z.to_nat (iface_addr_len (iface_attr w r))) with (length (bytes_of (iface_address (ifaces w r)))) by lia.
  pose proof Hfb as (b & Hb8 & Hbf & _). rewrite Hb8. cbn [lift fmap option_fmap option_map rbind]. rewrite Hbf, Hep by done.
  unfold unpacked_entry. rewrite Hlast, Hmd. unfold enc_tl. rewrite !length_app, le_bytes_length. destruct (decide (ep_lanes w ep pf r = [])) as [Hn|Hn].
  - rewrite bool_decide_eq_true_2 by done. rewrite Hn. cbn. do 2 f_equal. lia.
  - rewrite bool_decide_eq_false_2 by done. cbn [negb]. rewrite (unpack_eps buf r f _ _ (ep_lanes w ep pf r)); [|done|done|apply H|done|by apply ep_lanes_length|done].
    cbn [rbind ok]. do 2 f_equal. lia.
Qed.

(** The entries of the resources of a device. *)
Fixpoint rsc_entries (g : list Z) (i : Z) (rs : list Z) (devs : list (Z * Z)) : list ucp_address_entry * list (Z * Z) :=
  match rs with
  | [] => ([], devs)
  | r :: rs =>
      let d := remote_device devs i (dev_sys w pf g) in
      let es := rsc_entries g i rs d.2 in
      (unpacked_entry g r d.1 :: es.1, es.2)
  end.

Lemma rsc_entries_length g i rs devs : length (rsc_entries g i rs devs).1 = length rs /\ (length (rsc_entries g i rs devs).2 <= length devs + length rs)%nat.
Proof.
  revert devs. induction rs as [|r rs IH]; intros devs; cbn [rsc_entries fst snd length]; [lia|]. destruct (IH (remote_device devs i (dev_sys w pf g)).2) as [H1 H2].
  pose proof (remote_device_length devs i (dev_sys w pf g)). lia.
Qed.

Lemma unpack_tls_ok buf p g rs i devs n : flags_ok ep pf -> Forall (fun r => rsc_ok w ep pf v l2r r /\ readable r /\ md_index (tl_rscs w r) = dev_md w g) rs -> rs <> [] ->
  (length rs <= n)%nat -> (length devs + n <= 128)%nat -> at_ buf p (enc_list (enc_rsc w ep pf v l2r) rs) ->
  unpack_tls buf wu uf v (dev_info g) i n devs p =
  ok ((rsc_entries g i rs devs).1, (n - length rs)%nat, (rsc_entries g i rs devs).2, (p + length (enc_list (enc_rsc w ep pf v l2r) rs))%nat).
Proof.
  intros Hfl Hrs. revert p devs n. induction Hrs as [|r rs (H & Hr & Hmd) Hrs IH]; intros p devs n Hne Hn Hd Ha; [done|]. destruct n as [|n]; [cbn in Hn; lia|].
  rewrite enc_list_cons in *. apply at_app in Ha as [H1 H2]. cbn [unpack_tls]. rewrite (unpack_tl_ok buf p g r _ i devs Hfl H Hr Hmd ltac:(lia) H1). cbn [ok].
  cbn [rsc_entries fst snd length]. rewrite length_app. destruct (decide (rs = [])) as [->|Hrs'].
  - rewrite bool_decide_eq_true_2 by done. cbn [enc_list rsc_entries fst snd length]. rewrite Nat.add_0_r. by replace (S n - 1)%nat with n by lia.
  - rewrite bool_decide_eq_false_2 in * by done. pose proof (remote_device_length devs i (dev_sys w pf g)).
    rewrite IH; [|done|cbn in Hn; lia|lia|done]. cbn [rbind ok]. by rewrite Nat.add_assoc.
Qed.

(** ** Devices *)

Lemma md_read g : exists k, ucp_address_md_mask v = Z.ones k /\ 0 < k <= 7 /\ Z.land (md_flags w v g) (Z.ones k) = 0 /\ has (md_flags w v g) UCP_ADDRESS_FLAG_MD_EMPTY_DEV = false.
Proof.
  unfold ucp_address_md_mask, md_flags. destruct (is_v1 v); [exists 5|exists 7]; (split; [done|split; [lia|]]); [|done].
  destruct (has _ UCT_MD_FLAG_ALLOC), (has _ UCT_MD_FLAG_REG); done.
Qed.

Lemma dev_flags_read g last flag : (flag = UCP_ADDRESS_FLAG_LAST \/ flag = UCP_ADDRESS_FLAG_NUM_PATHS \/ flag = UCP_ADDRESS_FLAG_SYS_DEVICE) ->
  Z.land (dev_flags w pf last g) (Z.ones 5) = 0 /\
  has (dev_flags w pf last g) flag = if flag =? UCP_ADDRESS_FLAG_LAST then last else if flag =? UCP_ADDRESS_FLAG_NUM_PATHS then 1 <? dev_paths w g
                                     else negb (dev_sys w pf g =? UCS_SYS_DEVICE_ID_UNKNOWN).
Proof. unfold dev_flags. intros [->|[->| ->]]; destruct last, (1 <? dev_paths w g), (negb _); done. Qed.



(** An optional byte. *)
Lemma at_opt buf p (b : bool) x d post : at_ buf p ((if b then [x] else []) ++ post) ->
  (if b then n ← rd8 buf p; Some (n, S p) else Some (d, p)) = Some (if b then x else d, (p + length (if b then [x] else []))%nat) /\
  at_ buf (p + length (if b then [x] else [])) post.
Proof.
  intros H. pose proof (at_app _ _ _ _ H) as [_ H2]. split; [|done]. destruct b; cbn [length].
  - rewrite (bind_eq _ _ _ (at_rd8 _ _ _ _ H)). by rewrite Nat.add_1_r.
  - by rewrite Nat.add_0_r.
Qed.

Lemma dev_bytes_length g : dev_ok w ep pf v l2r g -> Z.of_nat (length (dev_bytes w pf g)) = dev_len w pf g.
Proof.
  intros H. pose proof (do_addr _ _ _ _ _ _ H) as Ha. unfold dev_bytes, dev_len in *. destruct (has pf UCP_ADDRESS_PACK_FLAG_DEVICE_ADDR); [|done].
  by destruct (Ha eq_refl) as (_ & _ & ?).
Qed.

Lemma unpack_device_info_ok buf p g last post : dev_ok w ep pf v l2r g -> at_ buf p (enc_dev_info w pf v last g ++ dev_bytes w pf g ++ post) ->
  unpack_device_info buf v p = Some (dev_info g, last, false, (p + length (enc_dev_info w pf v last g) + length (dev_bytes w pf g))%nat) /\
  exists b, rd8 buf p = Some b /\ b <> UCP_NULL_RESOURCE.
Proof.
  intros H Ha. pose proof (dev_bytes_length g H) as Hdl. unfold enc_dev_info in *. rewrite <- !app_assoc in Ha. apply at_app in Ha as [H1 H2]. apply at_app in H2 as [H2 H3].
  destruct (md_read g) as (k & Hk & Hk7 & Hkf & Hke). rewrite Hk in *. pose proof (do_md _ _ _ _ _ _ H) as Hmd. rewrite Hk in Hmd.
  destruct (unpack_ext buf p _ _ v k H1 Hmd ltac:(lia) Hkf) as [E1 (b & E2 & E3)]. assert (Hempty : has b UCP_ADDRESS_FLAG_MD_EMPTY_DEV = false).
  { rewrite E3; [done|]. change UCP_ADDRESS_FLAG_MD_EMPTY_DEV with (2 ^ 7). rewrite Z.land_comm, Z_land_bit by lia. by rewrite Z.ones_spec_high by lia. }
  split; [|exists b; split; [done|]; intros ->; by vm_compute in Hempty].
  destruct (dev_flags_read g last UCP_ADDRESS_FLAG_LAST ltac:(auto)) as [D0 D1]. destruct (dev_flags_read g last UCP_ADDRESS_FLAG_NUM_PATHS ltac:(auto)) as [_ D2].
  destruct (dev_flags_read g last UCP_ADDRESS_FLAG_SYS_DEVICE ltac:(auto)) as [_ D3]. cbn [Z.eqb Pos.eqb UCP_ADDRESS_FLAG_LAST UCP_ADDRESS_FLAG_NUM_PATHS UCP_ADDRESS_FLAG_SYS_DEVICE] in D1, D2, D3.
  change UCP_ADDRESS_DEVICE_LEN_MASK with (Z.ones 5) in *. destruct (unpack_ext buf _ _ _ v 5 H2 (do_len _ _ _ _ _ _ H) ltac:(lia) D0) as [F1 (c & F2 & F3)].
  assert (Hc : forall flag, Z.land flag (Z.ones 5) = 0 -> has (Z.land c (Z.lnot (Z.ones 5))) flag = has c flag).
  { intros flag Hf. unfold has. rewrite <- Z.land_assoc. rewrite (Z.land_comm (Z.lnot _)). rewrite <- Z.ldiff_land. do 3 f_equal.
    apply Z.bits_inj'. intros j Hj. rewrite Z.ldiff_spec. assert (Z.testbit flag j && Z.testbit (Z.ones 5) j = false) as Hz by (by rewrite <- Z.land_spec, Hf, Z.bits_0).
    destruct (Z.testbit flag j), (Z.testbit (Z.ones 5) j); done. }
  unfold unpack_device_info. unfold ucp_address_unpack_md_info. rewrite Hk, (bind_eq _ _ _ E2), (bind_eq _ _ _ E1). rewrite Hempty. cbn [mbind option_bind].
  rewrite (bind_eq _ _ _ F2), (bind_eq _ _ _ F1). change UCP_ADDRESS_DEVICE_LEN_MASK with (Z.ones 5). rewrite !Hc, !F3, D1, D2, D3 by done.
  destruct (at_opt _ _ _ _ 1 _ H3) as [G1 G2]. rewrite (bind_eq _ _ _ G1). destruct (at_opt _ _ _ _ UCS_SYS_DEVICE_ID_UNKNOWN _ G2) as [G3 G4]. rewrite (bind_eq _ _ _ G3).
  apply at_app in G4 as [G4 _]. rewrite (at_slice _ _ _ _ G4 Hdl). unfold dev_info. pose proof (do_paths _ _ _ _ _ _ H) as Hp. f_equal. f_equal.
  - f_equal. f_equal. f_equal; [destruct (Z.ltb_spec 1 (dev_paths w g)); lia|]. destruct (Z.eqb_spec (dev_sys w pf g) UCS_SYS_DEVICE_ID_UNKNOWN); done.
  - rewrite !length_app. lia.
Qed.

(** The entries of all devices. *)
Fixpoint unpacked_entries (i : Z) (devs : list (Z * Z)) (gs : list (list Z)) : list ucp_address_entry :=
  match gs with
  | [] => []
  | g :: gs => let es := rsc_entries g i g devs in es.1 ++ unpacked_entries (i + 1) es.2 gs
  end.

Lemma unpack_devices_ok buf fuel p gs i devs n : flags_ok ep pf ->
  Forall (fun g => dev_ok w ep pf v l2r g /\ Forall (fun r => readable r /\ md_index (tl_rscs w r) = dev_md w g) g) gs -> gs <> [] ->
  (length gs <= fuel)%nat -> (length (concat gs) <= n)%nat -> (length devs + n <= 128)%nat -> 0 <= i -> i + Z.of_nat (length gs) <= 256 ->
  at_ buf p (enc_list (enc_dev w ep pf v l2r) gs) ->
  unpack_devices buf fuel wu uf v i n devs p = ok (unpacked_entries i devs gs).
Proof.
  intros Hfl Hgs. revert p fuel i devs n. induction Hgs as [|g gs (H & Hr) Hgs IH]; intros p fuel i devs n Hne Hf Hn Hd Hi Hi' Ha; [done|].
  destruct fuel as [|fuel]; [cbn in Hf; lia|]. cbn [length concat] in *. rewrite length_app in Hn. rewrite enc_list_cons in Ha. set (last := bool_decide (gs = [])) in *.
  replace (enc_dev w ep pf v l2r last g) with (enc_dev_info w pf v last g ++ dev_bytes w pf g ++ enc_list (enc_rsc w ep pf v l2r) g) in Ha
    by (unfold enc_dev, enc_dev_info; by rewrite <- !app_assoc).
  rewrite <- !app_assoc in Ha. destruct (unpack_device_info_ok buf p g last _ H Ha) as [Hinfo _]. cbn [unpack_devices]. rewrite Hinfo. cbn [lift fmap option_fmap option_map rbind].
  apply at_app in Ha as [_ Ha]. apply at_app in Ha as [_ Ha]. apply at_app in Ha as [H1 H2].
  rewrite (unpack_tls_ok buf _ g g i devs n Hfl); [|rewrite Forall_forall in Hr |- *; pose proof (do_rscs _ _ _ _ _ _ H) as Hok; rewrite Forall_forall in Hok; intros r Hin; split; [by apply Hok|by apply Hr]
    |apply (do_ne _ _ _ _ _ _ H)|lia|lia|done].
  cbn [rbind ok]. cbn [unpacked_entries]. unfold last in *. destruct (decide (gs = [])) as [->|Hgn].
  - rewrite bool_decide_eq_true_2 by done. cbn [unpacked_entries]. by rewrite app_nil_r.
  - rewrite bool_decide_eq_false_2 in * by done. rewrite u8_byte by (unfold byte; destruct gs; [done|cbn [length] in Hi'; lia]).
    destruct (rsc_entries_length g i g devs) as [_ Hl]. rewrite IH; [done|done|lia|lia|lia|lia|lia|done].
Qed.



(** ** The header *)

(** The identifiers are 64 bit numbers; the machine identifier is packed exactly when
    the one of the worker is; the peer does not look for what is not packed. *)
Record ids_ok : Prop := {
  io_uuid : 0 <= uuid w < 2 ^ 64;
  io_machine : 0 <= machine_id w < 2 ^ 64;
  io_client : 0 <= client_id w < 2 ^ 64;
  io_both : has pf UCP_ADDRESS_PACK_FLAG_MACHINE_ID = has pf UCP_ADDRESS_PACK_FLAG_WORKER_UUID;
  io_v1 : is_v1 v = true -> has uf UCP_ADDRESS_PACK_FLAG_WORKER_UUID = true -> has pf UCP_ADDRESS_PACK_FLAG_WORKER_UUID = true;
  io_name : address_debug_info w = true -> has uf UCP_ADDRESS_PACK_FLAG_WORKER_NAME = has pf UCP_ADDRESS_PACK_FLAG_WORKER_NAME
}.

Definition unpacked_name : list Z :=
  if address_debug_info w && has pf UCP_ADDRESS_PACK_FLAG_WORKER_NAME then take 31 (address_name w) else UCP_WIREUP_EMPTY_PEER_NAME.

Definition header_len : nat := if is_v1 v then 1 else 2.

Lemma unpack_header_ok buf : at_ buf 0 (enc_header w pf v) -> ucp_address_unpack_header buf = Some (v, header_flags w pf, header_len) /\ at_ buf header_len (enc_ids w pf).
Proof.
  intros Ha. pose proof (header_flags_range w pf) as Hf. unfold enc_header, header_len, ucp_address_unpack_header in *. destruct v; cbn [is_v1] in *.
  - rewrite (bind_eq _ _ _ (at_rd8 _ _ _ _ Ha)). split; [|exact (at_tail _ _ _ _ Ha)]. unfold UCP_ADDRESS_HEADER_FLAGS_SHIFT_V1.
    rewrite Z.shiftr_shiftl_l, Z.sub_diag, Z.shiftl_0_r by lia. change UCP_ADDRESS_HEADER_VERSION_MASK with (Z.ones 4).
    rewrite Z.land_ones, Z.shiftl_mul_pow2, Z.mod_mul by lia. done.
  - rewrite (bind_eq _ _ _ (at_rd8 _ _ _ _ Ha)). split; [|exact (at_tail _ _ _ _ (at_tail _ _ _ _ Ha))]. by rewrite (at_rd8 _ _ _ _ (at_tail _ _ _ _ Ha)).
Qed.

Lemma header_flags_read : has (header_flags w pf) UCP_ADDRESS_HEADER_FLAG_WORKER_UUID = has pf UCP_ADDRESS_PACK_FLAG_WORKER_UUID /\
  has (header_flags w pf) UCP_ADDRESS_HEADER_FLAG_CLIENT_ID = has pf UCP_ADDRESS_PACK_FLAG_CLIENT_ID /\
  has (header_flags w pf) UCP_ADDRESS_HEADER_FLAG_AM_ONLY = has pf UCP_ADDRESS_PACK_FLAG_AM_ONLY /\
  has (header_flags w pf) UCP_ADDRESS_HEADER_FLAG_DEBUG_INFO = address_debug_info w.
Proof.
  unfold header_flags. destruct (has pf UCP_ADDRESS_PACK_FLAG_AM_ONLY), (has pf UCP_ADDRESS_PACK_FLAG_WORKER_UUID), (has pf UCP_ADDRESS_PACK_FLAG_CLIENT_ID), (address_debug_info w); done.
Qed.

(** The identifiers in the buffer. *)
Lemma at_ids buf : ids_ok -> name_ok w -> at_ buf header_len (enc_ids w pf) ->
  let u := has pf UCP_ADDRESS_PACK_FLAG_WORKER_UUID in let p := if u then (header_len + 16)%nat else header_len in
  let q := if has pf UCP_ADDRESS_PACK_FLAG_CLIENT_ID then (p + 8)%nat else p in
  (u = true -> rd 8 buf header_len = Some (uuid w) /\ rd 8 buf (header_len + 8) = Some (machine_id w)) /\
  (has pf UCP_ADDRESS_PACK_FLAG_CLIENT_ID = true -> rd 8 buf p = Some (client_id w)) /\
  (address_debug_info w && has pf UCP_ADDRESS_PACK_FLAG_WORKER_NAME = true ->
   ucp_address_unpack_worker_address_name buf q = Some (take 31 (address_name w), (q + 1 + length (address_name w))%nat)) /\
  (header_len + length (enc_ids w pf) = if address_debug_info w && has pf UCP_ADDRESS_PACK_FLAG_WORKER_NAME then q + 1 + length (address_name w) else q)%nat.
Proof.
  intros H [_ Hn] Ha u p q. unfold enc_ids in *. rewrite (io_both H) in *. apply at_app in Ha as [H1 Ha]. apply at_app in Ha as [H2 Ha]. apply at_app in Ha as [H3 H4].
  split_and!.
  - intros Hu. unfold u in Hu. rewrite Hu in *. rewrite le_bytes_length in H2. by rewrite (at_rd 8 _ _ _ H1 (io_uuid H)), (at_rd 8 _ _ _ H2 (io_machine H)).
  - intros Hc. rewrite Hc in *. unfold p, u. destruct (has pf UCP_ADDRESS_PACK_FLAG_WORKER_UUID); cbn [length] in H3; rewrite ?le_bytes_length, ?Nat.add_0_r in H3;
      [replace (header_len + 8 + 8)%nat with (header_len + 16)%nat in H3 by lia|]; by rewrite (at_rd 8 _ _ _ H3 (io_client H)).
  - intros Hd. rewrite Hd in *.
    assert (Hq : (header_len + length (if has pf UCP_ADDRESS_PACK_FLAG_WORKER_UUID then le_bytes 8 (uuid w) else []) +
      length (if has pf UCP_ADDRESS_PACK_FLAG_WORKER_UUID then le_bytes 8 (machine_id w) else []) + length (if has pf UCP_ADDRESS_PACK_FLAG_CLIENT_ID then le_bytes 8 (client_id w) else []))%nat = q).
    { unfold q, p, u. destruct (has pf UCP_ADDRESS_PACK_FLAG_WORKER_UUID), (has pf UCP_ADDRESS_PACK_FLAG_CLIENT_ID); rewrite ?le_bytes_length; cbn [length]; lia. }
    rewrite Hq in H4. unfold ucp_address_unpack_worker_address_name. rewrite (bind_eq _ _ _ (at_rd8 _ _ _ _ H4)). pose proof (at_tail _ _ _ _ H4) as H5. cbn [app] in H5.
    unfold UCP_WORKER_ADDRESS_NAME_MAX. rewrite <- (take_drop 31 (address_name w)) in H5. apply at_app in H5 as [H5 _].
    rewrite (bind_eq _ _ _ (at_rd_bytes _ _ _ (Z.to_nat (Z.min (Z.of_nat (length (address_name w))) (32 - 1))) H5 ltac:(rewrite length_take; lia))). do 2 f_equal. lia.
  - rewrite !length_app. unfold q, p, u. destruct (has pf UCP_ADDRESS_PACK_FLAG_WORKER_UUID), (has pf UCP_ADDRESS_PACK_FLAG_CLIENT_ID), (address_debug_info w && _);
      rewrite ?le_bytes_length; cbn [length app]; lia.
Qed.

Lemma unpack_prefix_ok buf : ids_ok -> name_ok w -> at_ buf 0 (enc_header w pf v) ->
  let u := has pf UCP_ADDRESS_PACK_FLAG_WORKER_UUID in
  unpack_prefix buf uf = Some (v, if u then uuid w else 0, if u then machine_id w else 0, unpacked_name, length (enc_header w pf v)).
Proof.
  intros H Hn Ha u. destruct (unpack_header_ok buf Ha) as [Hh Hids]. destruct (at_ids buf H Hn Hids) as (I1 & _ & I3 & I4). destruct header_flags_read as (F1 & F2 & _ & F4).
  pose proof (io_v1 H) as Hv. pose proof (io_name H) as Hnm. unfold unpack_prefix, ucp_address_get_uuid. rewrite !Hh. cbn [mbind option_bind]. rewrite F1, F2, F4.
  replace (length (enc_header w pf v)) with (header_len + length (enc_ids w pf))%nat by (unfold enc_header, header_len; rewrite length_app; by destruct (is_v1 v)).
  rewrite I4. unfold unpacked_name, u in *. clear I4 u. replace ((has uf UCP_ADDRESS_PACK_FLAG_WORKER_UUID && is_v1 v) || has pf UCP_ADDRESS_PACK_FLAG_WORKER_UUID) with (has pf UCP_ADDRESS_PACK_FLAG_WORKER_UUID)
    by (destruct (is_v1 v), (has uf UCP_ADDRESS_PACK_FLAG_WORKER_UUID), (has pf UCP_ADDRESS_PACK_FLAG_WORKER_UUID); naive_solver).
  replace (address_debug_info w && has uf UCP_ADDRESS_PACK_FLAG_WORKER_NAME) with (address_debug_info w && has pf UCP_ADDRESS_PACK_FLAG_WORKER_NAME)
    by (destruct (address_debug_info w); [by rewrite Hnm|done]).
  destruct (has pf UCP_ADDRESS_PACK_FLAG_WORKER_UUID).
  - destruct (I1 eq_refl) as [-> ->]. cbn [mbind option_bind]. destruct (address_debug_info w && _); [by rewrite I3|done].
  - cbn [mbind option_bind]. destruct (address_debug_info w && _); [by rewrite I3|done].
Qed.



(** [ucp_address_get_uuid], [ucp_address_get_client_id] and [ucp_address_is_am_only]. *)
Lemma get_ids_ok buf : ids_ok -> name_ok w -> at_ buf 0 (enc_header w pf v) ->
  ucp_address_get_uuid buf = Some (if has pf UCP_ADDRESS_PACK_FLAG_WORKER_UUID then uuid w else UCP_ADDRESS_DEFAULT_WORKER_UUID) /\
  ucp_address_get_client_id buf = Some (if has pf UCP_ADDRESS_PACK_FLAG_CLIENT_ID then client_id w else UCP_ADDRESS_DEFAULT_CLIENT_ID) /\
  ucp_address_is_am_only buf = Some (has pf UCP_ADDRESS_PACK_FLAG_AM_ONLY).
Proof.
  intros H Hn Ha. destruct (unpack_header_ok buf Ha) as [Hh Hids]. destruct (at_ids buf H Hn Hids) as (I1 & I2 & _). destruct header_flags_read as (F1 & F2 & F3 & _).
  unfold ucp_address_get_uuid, ucp_address_get_client_id, ucp_address_is_am_only. rewrite !Hh. cbn [mbind option_bind]. rewrite F1, F2, F3. split_and!; [| |done].
  - destruct (has pf UCP_ADDRESS_PACK_FLAG_WORKER_UUID); [by destruct (I1 eq_refl)|done].
  - destruct (has pf UCP_ADDRESS_PACK_FLAG_CLIENT_ID); [by rewrite I2|done].
Qed.

(** ** The whole address *)

Lemma group_rscs_md rscs : Forall (fun g => Forall (fun r => md_index (tl_rscs w r) = dev_md w g) g) (group_rscs w rscs []).
Proof.
  unfold group_rscs. assert (H : Forall (fun g => Forall (fun r => md_index (tl_rscs w r) = dev_md w g) g) []) by constructor. revert H. generalize (@nil (list Z)).
  induction (connectable w rscs) as [|r rs IH]; intros gs H; [done|]. cbn [fold_left]. apply IH. induction H as [|g gs Hg H IHg]; cbn [add_rsc].
  - repeat constructor.
  - destruct (same_device w r (dev_rsc g)) eqn:E; [|by constructor]. constructor; [|done]. unfold same_device in E. apply andb_true_iff in E as [E%Z.eqb_eq _].
    unfold dev_md in *. rewrite dev_rsc_snoc, Forall_app, Forall_singleton. split; [|done]. eapply Forall_impl; [exact Hg|]. cbn. intros x Hx. congruence.
Qed.

Lemma groups_length gs : Forall (fun g : list Z => g <> []) gs -> (length gs <= length (concat gs))%nat.
Proof. induction 1 as [|g gs Hg _ IH]; [done|]. cbn [concat length]. rewrite length_app. destruct g; [done|]. cbn [length]. lia. Qed.

Lemma enc_list_dev_length gs : (length gs <= length (enc_list (enc_dev w ep pf v l2r) gs))%nat.
Proof.
  induction gs as [|g gs IH]; [done|]. rewrite enc_list_cons, length_app. cbn [length]. set (last := bool_decide _).
  enough (1 <= length (enc_dev w ep pf v l2r last g))%nat by lia. unfold enc_dev, ext. rewrite length_app. destruct (negb _ && _); cbn [length]; lia.
Qed.

(** Reading the bytes of an address. *)
Lemma unpack_address_ok bitmap : packable w ep pf v l2r bitmap -> Forall readable (packed_rscs w bitmap) -> ids_ok ->
  let gs := packed_groups w bitmap in let u := has pf UCP_ADDRESS_PACK_FLAG_WORKER_UUID in
  ucp_address_unpack (enc_address w ep pf v l2r gs) wu uf true =
  ok (Unpacked (if u then uuid w else 0) (if u then machine_id w else 0) unpacked_name (unpacked_entries 0 [] gs)).
Proof.
  intros H Hr Hi gs u. pose proof (packed_groups_ok _ _ _ _ _ _ H) as Hg. fold gs in Hg. pose proof H as (Hfl & Hn & _).
  pose proof (group_rscs_groups w _ (sorted_tl_bits (Z.land bitmap (tl_bitmap w)))) as [Hne Hp]. fold (packed_groups w bitmap) (packed_rscs w bitmap) in *. fold gs in Hne, Hp.
  assert (Hat : at_ (enc_address w ep pf v l2r gs) 0 (enc_header w pf v ++ match gs with [] => [UCP_NULL_RESOURCE] | _ => enc_list (enc_dev w ep pf v l2r) gs end))
    by (exists []; rewrite drop_0, app_nil_r; done).
  apply at_app in Hat as [H1 H2]. cbn [Nat.add] in H2. unfold ucp_address_unpack. rewrite (unpack_prefix_ok _ Hi Hn H1). cbn [lift fmap option_fmap option_map rbind].
  destruct (decide (gs = [])) as [Hgs|Hgs]; [by rewrite Hgs in *; rewrite (at_rd8 _ _ _ _ H2)|].
  assert (Ha : at_ (enc_address w ep pf v l2r gs) (length (enc_header w pf v)) (enc_list (enc_dev w ep pf v l2r) gs)) by (by destruct gs). clear H1 H2.
  assert (Hall : Forall (fun g => dev_ok w ep pf v l2r g /\ Forall (fun r => readable r /\ md_index (tl_rscs w r) = dev_md w g) g) gs).
  { pose proof (group_rscs_md (tl_bits (Z.land bitmap (tl_bitmap w)))) as Hm. fold (packed_groups w bitmap) in Hm. fold gs in Hm.
    rewrite Forall_forall in Hg. rewrite Forall_forall in Hm. rewrite Forall_forall in Hr. apply Forall_forall. intros g Hin. split; [by apply Hg|]. pose proof (Hm g Hin) as Hm'. rewrite Forall_forall in Hm'.
    apply Forall_forall. intros r Hrg. split; [|by apply Hm']. apply Hr. rewrite <- Hp. apply list_elem_of_In, in_concat. exists g. by rewrite <- !list_elem_of_In. }
  assert (Hrd : exists b, rd8 (enc_address w ep pf v l2r gs) (length (enc_header w pf v)) = Some b /\ b <> UCP_NULL_RESOURCE).
  { destruct gs as [|g gs']; [done|]. rewrite enc_list_cons in Ha. inversion Hg as [|? ? Hd _]; subst. set (last := bool_decide _) in Ha. apply at_app in Ha as [Ha _].
    eapply (unpack_device_info_ok _ _ g last (enc_list (enc_rsc w ep pf v l2r) g) Hd). unfold enc_dev in Ha. unfold enc_dev_info. by rewrite <- !app_assoc. }
  destruct Hrd as (b & -> & Hb). cbn [lift fmap option_fmap option_map rbind negb]. rewrite (proj2 (Z.eqb_neq _ _) Hb).
  assert (Hc : (length (concat gs) <= 128)%nat).
  { rewrite Hp. unfold packed_rscs, connectable, tl_bits, bits_of. etransitivity; [apply length_filter|]. etransitivity; [apply length_filter|]. rewrite length_seqZ. done. }
  pose proof (groups_length gs ltac:(eapply Forall_impl; [exact Hne|]; cbn; tauto)) as Hl. pose proof (enc_list_dev_length gs) as Hl'.
  assert (Hla : (length gs <= S (length (enc_address w ep pf v l2r gs)))%nat) by (unfold enc_address; rewrite length_app; destruct gs; [done|lia]).
  change (Z.to_nat UCP_MAX_RESOURCES) with 128%nat. rewrite (unpack_devices_ok _ _ _ gs); [done|done|done|done|done|done|done|done|lia|done].
Qed.

End roundtrip.

(** The flags that [ucp_address_pack] packs with. *)
Definition effective_flags (ep : option ucp_ep_t) (pack_flags : Z) : Z :=
  match ep with None => Z.land pack_flags (Z.lnot UCP_ADDRESS_PACK_FLAG_EP_ADDR) | Some _ => pack_flags end.

(** C8: Unpacking a packed worker address gives back, for both versions of the format and
    in unified mode, the identifiers and the name of the worker and one entry per
    resource of the bitmap that can connect: the bytes of its device, interface and
    endpoint addresses, its lanes, and its attributes with the precision of the format.
    The length of the buffer is the one that [ucp_address_length] announces.  The sizes
    and numbers have to fit in the format ([packable], [ids_ok]), and the peer has to be
    able to read the resources ([readable]): it is in the same mode; in unified mode it
    has the same resources and the latency is not negative; otherwise it asks for the
    resource index as the packer does, and the bandwidth is a positive finite number, in
    version 1 from 2^-149 on, in version 2 not from 2^28 to 17/16 of it (see
    [address_low_bandwidth]). *)
Theorem address_roundtrip w ep pack_flags v l2r wu uf bitmap : let pf := effective_flags ep pack_flags in
  packable w ep pf v l2r bitmap -> Forall (readable w pf v wu uf) (packed_rscs w bitmap) -> ids_ok w pf v uf ->
  let gs := packed_groups w bitmap in let u := has pf UCP_ADDRESS_PACK_FLAG_WORKER_UUID in
  exists buf, ucp_address_pack w ep bitmap pack_flags v l2r (true, true) = ok buf /\
    ucp_address_length w ep bitmap pf v true = ok (Z.of_nat (length buf)) /\
    ucp_address_unpack buf wu uf true =
    ok (Unpacked (if u then uuid w else 0) (if u then machine_id w else 0) (unpacked_name w pf) (unpacked_entries w ep pf v l2r wu 0 [] gs)) /\
    ucp_address_get_uuid buf = Some (if u then uuid w else 0) /\
    ucp_address_get_client_id buf = Some (if has pf UCP_ADDRESS_PACK_FLAG_CLIENT_ID then client_id w else 0) /\
    ucp_address_is_am_only buf = Some (has pf UCP_ADDRESS_PACK_FLAG_AM_ONLY).
Proof.
  intros pf H Hr Hi gs u. destruct (pack_ok w ep pf v l2r bitmap H) as [Hl Hp]. exists (enc_address w ep pf v l2r gs).
  split; [|split; [exact Hl|split; [by apply unpack_address_ok|apply (get_ids_ok w pf v uf); [done|apply H|by exists (match gs with [] => [UCP_NULL_RESOURCE] | _ => enc_list (enc_dev w ep pf v l2r) gs end)]]]].
  unfold ucp_address_pack. fold (effective_flags ep pack_flags). fold pf. cbn [fst snd negb]. exact Hp.
Qed.

(** A worker with three interfaces on two devices, and an endpoint with three lanes. *)
Definition example_iface (flags len dlen : Z) : ucp_worker_iface_t :=
  WorkerIface (IfaceAttr (Z.lor flags UCT_IFACE_FLAG_AM_BCOPY) UCT_IFACE_FLAG_EVENT_RECV dlen len 7 2 30 (of_int 0) (of_int 0) (of_int 0) (of_int 10000000000) (of_int 0)
      100 8192 65536 15 63 0 0) (of_int 0) (of_int 10000000000) (inr (replicate (Z.to_nat dlen) 17)) (inr (replicate (Z.to_nat len) 34)).

Definition example_worker : ucp_worker_t :=
  Worker false true true 1 1 42 43 44 [119; 49] 7 1 (fun r => if r <? 2 then TlResource 0 0 3 (100 + r) else TlResource 1 1 255 300) (fun _ => 3)
    (fun r => if r =? 0 then example_iface UCT_IFACE_FLAG_CONNECT_TO_EP 0 5 else if r =? 1 then example_iface UCT_IFACE_FLAG_CONNECT_TO_IFACE 70 5
              else example_iface UCT_IFACE_FLAG_CONNECT_TO_IFACE 16 0).

Definition example_ep : ucp_ep_t := Ep [0; 1; 0] false (fun lane => inr (replicate 7 lane)).

Lemma example_readable r : 0 <= r <= 2 -> readable example_worker UCP_ADDRESS_PACK_FLAGS_ALL UCP_OBJECT_VERSION_V2 example_worker UCP_ADDRESS_PACK_FLAGS_ALL r.
Proof.
  intros Hr. split; [done|]. split; [done|].
  assert (ucp_wireup_iface_bw_distance example_worker (ifaces example_worker r) = S754_finite false 5242880000000000 (-19)) as ->.
  { assert (r = 0 \/ r = 1 \/ r = 2) as [->|[->| ->]] by lia; by vm_compute. }
  eexists _, _. split; [done|]. split; [lia|]. split; [lia|]. intros [H _]. vm_compute in H. discriminate H.
Qed.

Lemma address_roundtrip_witness : let w := example_worker in let pf := UCP_ADDRESS_PACK_FLAGS_ALL in
  exists buf, ucp_address_pack w (Some example_ep) 7 pf UCP_OBJECT_VERSION_V2 None (true, true) = ok buf /\
    ucp_address_length w (Some example_ep) 7 pf UCP_OBJECT_VERSION_V2 true = ok (Z.of_nat (length buf)) /\
    ucp_address_unpack buf w pf true =
    ok (Unpacked 42 43 [119; 49] (unpacked_entries w (Some example_ep) pf UCP_OBJECT_VERSION_V2 None w 0 [] (packed_groups w 7))) /\
    ucp_address_get_uuid buf = Some 42 /\ ucp_address_get_client_id buf = Some 44 /\ ucp_address_is_am_only buf = Some true.
Proof.
  apply (address_roundtrip example_worker (Some example_ep) UCP_ADDRESS_PACK_FLAGS_ALL UCP_OBJECT_VERSION_V2 None example_worker UCP_ADDRESS_PACK_FLAGS_ALL 7).
  - split; [by vm_compute; split; [|lia]|]. split; [by vm_compute; repeat constructor|]. change (packed_rscs example_worker 7) with [0; 1; 2].
    repeat constructor; vm_compute; repeat constructor; done.
  - change (packed_rscs example_worker 7) with [0; 1; 2]. repeat (constructor; [apply example_readable; lia|]). constructor.
  - constructor; by vm_compute.
Defined.

(** ** Any buffer *)

Lemma lift_ok {A} (c : option A) a : lift c = ok a -> c = Some a.
Proof. destruct c; cbn; [|done]. unfold ok. congruence. Qed.

Lemma rbind_inv {A B} (c : res A) (f : A -> res B) b : rbind c f = ok b -> exists a, c = ok a /\ f a = ok b.
Proof. destruct c as [[s|a]|]; cbn; [done|by exists a|done]. Qed.

Lemma byte_extended_pos buf p mask v x q : ucp_address_unpack_byte_extended buf p mask v = Some (x, q) -> (p < q)%nat /\ (p < length buf)%nat.
Proof.
  unfold ucp_address_unpack_byte_extended, rd8. destruct (buf !! p) as [b|] eqn:E; cbn [mbind option_bind]; [|done]. apply lookup_lt_Some in E.
  destruct (_ && _); [destruct (buf !! S p); cbn [mbind option_bind]; [|done]|]; intros [= _ <-]; lia.
Qed.

Lemma device_info_pos buf v p di last e q : unpack_device_info buf v p = Some (di, last, e, q) -> (p < q)%nat /\ (p < length buf)%nat.
Proof.
  unfold unpack_device_info, ucp_address_unpack_md_info. intros H. apply bind_Some in H as ([[md empty] p1] & H1 & H). apply bind_Some in H1 as (b & _ & H1).
  apply bind_Some in H1 as ([x q1] & H1 & [= _ _ <-]). apply byte_extended_pos in H1. apply bind_Some in H as (c & _ & H). apply bind_Some in H as ([len p2] & H2 & H).
  apply byte_extended_pos in H2. apply bind_Some in H as ([paths p3] & H3 & H). apply bind_Some in H as ([sys p4] & H4 & [= _ _ _ <-]).
  assert (Hopt : forall (b : bool) d p p' x, (if b then n ← rd8 buf p; Some (n, S p) else Some (d, p)) = Some (x, p') -> (p <= p')%nat).
  { clear. intros b d p p' x. destruct b; [|intros [= _ <-]; lia]. destruct (rd8 buf p); [|done]. intros [= _ <-]. lia. }
  apply Hopt in H3, H4. lia.
Qed.

Lemma unpack_eps_pos buf wu fp n p es q : unpack_ep_addrs buf wu fp n p = ok (es, q) -> (p <= q)%nat.
Proof.
  revert p es q. induction n as [|n IH]; intros p es q H; [done|]. cbn [unpack_ep_addrs] in H. apply rbind_inv in H as ([len p1] & H1%lift_ok & H).
  assert (p <= p1)%nat.
  { unfold ucp_address_unpack_tl_length_ep in H1. destruct (unified_mode wu); apply bind_Some in H1 as (x & _ & [= _ <-]); lia. }
  apply rbind_inv in H as (b & _ & H). apply rbind_inv in H as (rl & _ & H). destruct (has b _); [injection H as _ <-; lia|].
  apply rbind_inv in H as ([es' q'] & H2 & [= _ <-]). apply IH in H2. lia.
Qed.

Lemma unpack_tl_pos buf wu uf v di i devs p e last devs' q : unpack_tl buf wu uf v di i devs p = ok (e, last, devs', q) -> (p <= q)%nat.
Proof.
  unfold unpack_tl. intros H. apply rbind_inv in H as (csum & _ & H). apply rbind_inv in H as ([u d] & _ & H). apply rbind_inv in H as ([a alen] & _ & H).
  apply rbind_inv in H as ([[len lt] p1] & H1%lift_ok & H). assert (p <= p1)%nat.
  { unfold ucp_address_unpack_tl_length in H1. destruct (unified_mode wu); [apply bind_Some in H1 as (x & _ & [= _ _ <-]); lia|].
    apply bind_Some in H1 as (x & _ & H1). apply bind_Some in H1 as ([y q1] & H1 & [= _ _ <-]). apply byte_extended_pos in H1. lia. }
  apply rbind_inv in H as (fl & _ & H). apply rbind_inv in H as ([eps p2] & H2 & [= _ _ _ <-]). destruct (has fl _); [apply unpack_eps_pos in H2; lia|injection H2 as _ <-; lia].
Qed.

Lemma unpack_tls_pos buf wu uf v di i n devs p es n' devs' q : unpack_tls buf wu uf v di i n devs p = ok (es, n', devs', q) -> (p <= q)%nat.
Proof.
  revert devs p es n' devs' q. induction n as [|n IH]; intros devs p es n' devs' q H; [done|]. cbn [unpack_tls] in H.
  destruct (unpack_tl _ _ _ _ _ _ _ _) as [[s|[[[e last] d] p1]]|] eqn:E; [done| |done]. apply unpack_tl_pos in E. destruct last; [injection H as _ _ _ <-; lia|].
  apply rbind_inv in H as ([[[es' n1] d1] q1] & H & [= _ _ _ <-]). apply IH in H. lia.
Qed.

(** The bound on the iterations over the devices, one more than the bytes of the buffer,
    is not reached: each device takes bytes of the buffer. *)
Lemma unpack_devices_fuel buf wu uf v f f' i n devs p : (length buf - p < f)%nat -> (length buf - p < f')%nat ->
  unpack_devices buf f wu uf v i n devs p = unpack_devices buf f' wu uf v i n devs p.
Proof.
  revert f' i n devs p. induction f as [|f IH]; intros f' i n devs p H H'; [lia|]. destruct f' as [|f']; [lia|]. cbn [unpack_devices].
  destruct (unpack_device_info buf v p) as [[[[di last] empty] q]|] eqn:E; [|done]. apply device_info_pos in E. cbn [lift fmap option_fmap option_map rbind].
  destruct (if empty then _ else _) as [[s|[[[es n1] d1] q1]]|] eqn:E2; [done| |done]. cbn [rbind]. destruct last; [done|].
  assert (q <= q1)%nat by (destruct empty; [injection E2 as _ _ _ <-; lia|by apply unpack_tls_pos in E2]). rewrite (IH f'); [done|lia|lia].
Qed.

(** ** Bandwidth below the range of version 2 *)

Lemma low_bandwidth_zero x : low_bandwidth x -> dle (fp8_round BANDWIDTH_range x) (of_int 0) = true.
Proof.
  intros [He Hm]. assert (Hw : wf_double (to_ieee x) /\ mantissa0 (to_ieee x) / 2 ^ 16 = 0).
  { unfold wf_double. rewrite He. revert He Hm. unfold to_ieee, IEEE754_DOUBLE_BIAS. destruct x as [s|s| |s m e]; cbn [fields exponent]; [lia|lia|lia|].
    destruct (Z.ltb_spec (Zpos m) (2 ^ 52)); cbn [fields exponent mantissa0 mantissa1]; [lia|]. intros He Hm. assert (0 <= Z.shiftr (Zpos m - 2 ^ 52) 32) by (apply Z.shiftr_nonneg; lia).
    rewrite Z.land_ones by lia. pose proof (Z.mod_pos_bound (Z.pos m - 2 ^ 52) (2 ^ 32) ltac:(lia)). split; [lia|]. apply Z.div_small. lia. }
  destruct Hw as [Hw Hd]. unfold fp8_round, fp8_of, BANDWIDTH_range. cbn [fst snd]. rewrite (fp8_pack_normal 29 42 ltac:(unfold fp8_range; lia)); [|done|rewrite He; unfold IEEE754_DOUBLE_BIAS; lia].
  rewrite He, Hd. by vm_compute.
Qed.

Lemma unpack_attr_low w ep pf l2r wu uf buf p f r : rsc_ok w ep pf UCP_OBJECT_VERSION_V2 l2r r -> unified_mode w = false -> unified_mode wu = false ->
  low_bandwidth (ucp_wireup_iface_bw_distance w (ifaces w r)) -> at_ buf p (enc_attr w pf UCP_OBJECT_VERSION_V2 f r) ->
  ucp_address_unpack_iface_attr buf wu p uf UCP_OBJECT_VERSION_V2 = err UCS_ERR_INVALID_ADDR.
Proof.
  intros H Hu Huu Hb Ha. unfold ucp_address_unpack_iface_attr, enc_attr in *. rewrite Hu in Ha. rewrite Huu. cbn [is_v1] in *. apply at_app in Ha as [Ha _].
  rewrite (unpack_attr_v2 _ _ _ _ _ _ _ _ H Ha). cbn [lift fmap option_fmap option_map rbind ai_bandwidth]. by rewrite low_bandwidth_zero.
Qed.

(** C36: When the first interface of a version 2 address has a bandwidth of at least 2^28
    and less than 17/16 * 2^28 bytes per second (268435456 to 285212671), the address is
    useless, outside of unified mode: packing succeeds, with the bandwidth stored as 0,
    and unpacking returns [UCS_ERR_INVALID_PARAM]. *)
Theorem address_low_bandwidth w ep pack_flags l2r wu uf bitmap r g gs : let pf := effective_flags ep pack_flags in
  packable w ep pf UCP_OBJECT_VERSION_V2 l2r bitmap -> ids_ok w pf UCP_OBJECT_VERSION_V2 uf -> unified_mode w = false -> unified_mode wu = false ->
  packed_groups w bitmap = (r :: g) :: gs -> low_bandwidth (ucp_wireup_iface_bw_distance w (ifaces w r)) ->
  exists buf, ucp_address_pack w ep bitmap pack_flags UCP_OBJECT_VERSION_V2 l2r (true, true) = ok buf /\
    ucp_address_unpack buf wu uf true = err UCS_ERR_INVALID_PARAM.
Proof.
  intros pf H Hi Hu Huu Hgs Hb. destruct (pack_ok w ep pf UCP_OBJECT_VERSION_V2 l2r bitmap H) as [_ Hp]. pose proof (packed_groups_ok _ _ _ _ _ _ H) as Hg. rewrite Hgs in *.
  set (v := UCP_OBJECT_VERSION_V2) in *. exists (enc_address w ep pf v l2r ((r :: g) :: gs)). split.
  { unfold ucp_address_pack. fold (effective_flags ep pack_flags). fold pf. cbn [fst snd negb]. exact Hp. }
  set (buf := enc_address _ _ _ _ _ _) in *. assert (Hat : at_ buf 0 (enc_header w pf v ++ enc_list (enc_dev w ep pf v l2r) ((r :: g) :: gs))) by (exists []; by rewrite drop_0, app_nil_r).
  apply at_app in Hat as [H1 H2]. cbn [Nat.add] in H2. unfold ucp_address_unpack. rewrite (unpack_prefix_ok w pf v uf _ Hi (proj1 (proj2 H)) H1). cbn [lift fmap option_fmap option_map rbind].
  rewrite enc_list_cons in H2. set (last := bool_decide _) in H2. apply at_app in H2 as [H2 _]. inversion Hg as [|? ? Hd _]; subst.
  replace (enc_dev w ep pf v l2r last (r :: g)) with (enc_dev_info w pf v last (r :: g) ++ dev_bytes w pf (r :: g) ++ enc_list (enc_rsc w ep pf v l2r) (r :: g)) in H2
    by (unfold enc_dev, enc_dev_info; by rewrite <- !app_assoc).
  destruct (unpack_device_info_ok w ep pf v l2r _ _ _ last _ Hd H2) as [Hinfo (b & Hb8 & Hbn)]. rewrite Hb8. cbn [lift fmap option_fmap option_map rbind negb].
  rewrite (proj2 (Z.eqb_neq _ _) Hbn). cbn [unpack_devices]. rewrite Hinfo. cbn [lift fmap option_fmap option_map rbind].
  apply at_app in H2 as [_ H2]. apply at_app in H2 as [_ H2]. rewrite enc_list_cons in H2. apply at_app in H2 as [H2 _]. unfold enc_rsc, enc_tl in H2.
  apply at_app in H2 as [H2 H3]. rewrite le_bytes_length in H3. apply at_app in H3 as [H3 _]. pose proof (do_rscs _ _ _ _ _ _ Hd) as Hok. inversion Hok as [|? ? Hr _]; subst.
  change (Z.to_nat UCP_MAX_RESOURCES) with 128%nat. cbn [unpack_tls]. unfold unpack_tl. rewrite (at_rd 2 _ _ _ H2 (ro_csum _ _ _ _ _ _ Hr)). cbn [lift fmap option_fmap option_map rbind].
  rewrite get_remote_device by (cbn; lia). cbn [lift fmap option_fmap option_map rbind]. destruct (remote_device _ _ _) as [un devs]. by rewrite (unpack_attr_low _ _ _ _ _ _ _ _ _ _ Hr Hu Huu Hb H3).
Qed.

(** A worker with 270 * 10^6 bytes per second. *)
Lemma address_low_bandwidth_witness :
  let w := Worker false false false 1 1 42 43 44 [] 1 0 (fun _ => TlResource 0 0 255 100) (fun _ => 3) (fun _ =>
      WorkerIface (IfaceAttr UCT_IFACE_FLAG_CONNECT_TO_IFACE 0 0 16 0 1 0 (of_int 0) (of_int 0) (of_int 0) (of_int 270000000) (of_int 0) 0 0 0 0 0 0 0) (of_int 0) (of_int 0)
        (inr []) (inr (replicate 16 1))) in
  exists buf, ucp_address_pack w None 1 UCP_ADDRESS_PACK_FLAGS_ALL UCP_OBJECT_VERSION_V2 None (true, true) = ok buf /\
    ucp_address_unpack buf w UCP_ADDRESS_PACK_FLAGS_ALL true = err UCS_ERR_INVALID_PARAM.
Proof.
  intros w. apply (address_low_bandwidth w None UCP_ADDRESS_PACK_FLAGS_ALL None w UCP_ADDRESS_PACK_FLAGS_ALL 1 0 [] []); [|by vm_compute|done|done|by vm_compute|by vm_compute].
  split; [by vm_compute|]. split; [by vm_compute; repeat constructor|]. change (packed_rscs w 1) with [0]. repeat constructor; vm_compute; repeat constructor; done.
Defined.

End AddressRoundtrip.
