(* ===== verification/FragList.v ===== *)
(** Out-of-order fragment list of [ucs/datastruct/frag_list.[ch]].

    The list reorders packets by a 16-bit wrapping sequence number.  It keeps the
    runs of packets which arrived early as a list of holes, each a head element
    with the chain of the elements after it, and a ready list of elements which
    can be delivered.  Queues are lists of elements ([Queue.queue_sim] relates
    them to the pointer operations the code uses).

    The theorems relate the 16-bit numbers to unbounded ones: as long as the
    packets are within half the range of the head, the list delivers exactly the
    accepted packets in order ([frag_list_in_order]), and [insert] and [pull]
    implement the abstract reordering buffer [spec_insert]/[spec_pull].  The
    exception is proved as well: [frag_list_wrap_gap] shows that the merge test,
    which compares without wrap-around, lets a duplicate in, and
    [frag_list_wrap_stall] is a run where the stream then stops for ever. *)

From S2P Require Import Prelude.

Module FragList.

(** Out-of-order handling type *)
Inductive ucs_frag_list_ooo_type_t :=
| UCS_FRAG_LIST_INSERT_FAST   (** in order insert, list empty *)
| UCS_FRAG_LIST_INSERT_FIRST  (** in order insert, list not empty, must try pull *)
| UCS_FRAG_LIST_INSERT_SLOW   (** out of order insert, can not pull elems from list *)
| UCS_FRAG_LIST_INSERT_DUP    (** old element, can not pull *)
| UCS_FRAG_LIST_INSERT_READY  (** in order insert, while we can still pull elems from list *)
| UCS_FRAG_LIST_INSERT_FAIL.  (** insert failed for some reason *)

(** [UCS_FRAG_LIST_SN_CMP(a, op, b)] is [(int16_t)(a - b) op 0]. *)
Definition sn_diff (a b : Z) : Z := s_wrap 16 (a - b).
Definition sn_eq (a b : Z) : bool := sn_diff a b =? 0.
Definition sn_lt (a b : Z) : bool := sn_diff a b <? 0.
Definition sn_le (a b : Z) : bool := sn_diff a b <=? 0.
Definition sn_ge (a b : Z) : bool := 0 <=? sn_diff a b.

Section frag_list.
(** Elements are identified by their address. *)
Context {E : Type}.

(** A head element of the holes list: [ucs_frag_list_elem_t] with its [head]. *)
Record hole := Hole {
  h_elem : E;
  first_sn : Z;
  last_sn : Z;
  h_list : list E
}.

Record ucs_frag_list_t := FragList {
  holes : list hole;        (** [list] *)
  ready_list : list E;
  head_sn : Z;
  elem_count : Z;
  list_count : Z;
  max_holes : Z
}.

(** [max_holes] is 0 or -1, as the code asserts: its only use is to compare it
    with 0. *)
Definition ucs_frag_list_init (initial_sn max_holes : Z) : ucs_frag_list_t :=
  FragList [] [] initial_sn 0 0 max_holes.

(** The assertions of the cleanup. *)
Definition ucs_frag_list_cleanup (fl : ucs_frag_list_t) : bool :=
  (elem_count fl =? 0) && (list_count fl =? 0) &&
  bool_decide (holes fl = []) && bool_decide (ready_list fl = []).

Definition set_holes (l : list hole) (fl : ucs_frag_list_t) : ucs_frag_list_t :=
  FragList l (ready_list fl) (head_sn fl) (elem_count fl) (list_count fl) (max_holes fl).
Definition add_elem_count (d : Z) (fl : ucs_frag_list_t) : ucs_frag_list_t :=
  FragList (holes fl) (ready_list fl) (head_sn fl) (u32 (elem_count fl + d)) (list_count fl) (max_holes fl).
Definition add_list_count (d : Z) (fl : ucs_frag_list_t) : ucs_frag_list_t :=
  FragList (holes fl) (ready_list fl) (head_sn fl) (elem_count fl) (u32 (list_count fl + d)) (max_holes fl).
Definition set_head_sn (sn : Z) (fl : ucs_frag_list_t) : ucs_frag_list_t :=
  FragList (holes fl) (ready_list fl) sn (elem_count fl) (list_count fl) (max_holes fl).
Definition set_ready_list (l : list E) (fl : ucs_frag_list_t) : ucs_frag_list_t :=
  FragList (holes fl) l (head_sn fl) (elem_count fl) (list_count fl) (max_holes fl).

(** [new_h] takes the place of [h]; [h] is chained in front of its own elements. *)
Definition frag_list_replace_head (prevs : list hole) (h : hole) (nexts : list hole)
    (new_h : E) (fl : ucs_frag_list_t) : ucs_frag_list_t :=
  let new_hole := Hole new_h (u16 (first_sn h - 1)) (last_sn h) (h_elem h :: h_list h) in
  set_holes (prevs ++ new_hole :: nexts) fl.

Definition frag_list_add_tail (h : hole) (elem : E) : hole :=
  Hole (h_elem h) (first_sn h) (u16 (last_sn h + 1)) (h_list h ++ [elem]).

Definition frag_list_merge_heads (prevs : list hole) (h1 h2 : hole) (nexts : list hole)
    (fl : ucs_frag_list_t) : ucs_frag_list_t :=
  let h := Hole (h_elem h1) (first_sn h1) (last_sn h2)
                (h_list h1 ++ (h_elem h2 :: h_list h2)) in
  set_holes (prevs ++ h :: nexts) fl.

Definition frag_list_insert_head (prevs : list hole) (h : hole) (nexts : list hole)
    (new_h : E) (sn : Z) (fl : ucs_frag_list_t) : ucs_frag_list_t :=
  set_holes (prevs ++ Hole new_h sn sn [] :: h :: nexts) fl.

Definition frag_list_insert_tail (new_h : E) (sn : Z) (fl : ucs_frag_list_t) : ucs_frag_list_t :=
  set_holes (holes fl ++ [Hole new_h sn sn []]) fl.

(** Special case of insert where [sn == head->head_sn + 1]. *)
Definition ucs_frag_list_insert_head (head : ucs_frag_list_t) (elem : E) (sn : Z)
    : ucs_frag_list_ooo_type_t * ucs_frag_list_t :=
  let h := List.hd_error (holes head) in
  if match h with Some h => sn_ge sn (first_sn h) | None => false end
  then (UCS_FRAG_LIST_INSERT_DUP, head)
  else
    let head := set_head_sn (u16 (head_sn head + 1)) head in
    if negb (bool_decide (ready_list head = []))
    then (UCS_FRAG_LIST_INSERT_READY, set_ready_list (ready_list head ++ [elem]) head)
    else if match h with Some h => sn_eq (first_sn h) (sn + 1) | None => false end
    then (UCS_FRAG_LIST_INSERT_FIRST, head)
    else (UCS_FRAG_LIST_INSERT_FAST, head).

(** The loop over the holes; [prevs] are the holes already passed, in order. *)
Fixpoint insert_loop (prevs nexts : list hole) (head : ucs_frag_list_t) (elem : E) (sn : Z)
    : ucs_frag_list_ooo_type_t * ucs_frag_list_t :=
  match nexts with
  | [] =>
      (UCS_FRAG_LIST_INSERT_SLOW,
       add_list_count 1 (add_elem_count 1 (frag_list_insert_tail elem sn head)))
  | h :: nexts =>
      if sn_ge sn (first_sn h) && sn_le sn (last_sn h)
      then (UCS_FRAG_LIST_INSERT_DUP, head)
      else if sn_eq (sn + 1) (first_sn h)
      then (UCS_FRAG_LIST_INSERT_SLOW,
            add_elem_count 1 (frag_list_replace_head prevs h nexts elem head))
      else if sn_eq (last_sn h + 1) sn
      then
        let h := frag_list_add_tail h elem in
        let head := set_holes (prevs ++ h :: nexts) head in
        let head :=
          match nexts with
          | nexth :: nexts' =>
              (* compared as [int]: no wrap-around *)
              if first_sn nexth =? sn + 1
              then add_list_count (-1) (frag_list_merge_heads prevs h nexth nexts' head)
              else head
          | [] => head
          end in
        (UCS_FRAG_LIST_INSERT_SLOW, add_elem_count 1 head)
      else if sn_lt sn (first_sn h)
      then (UCS_FRAG_LIST_INSERT_SLOW,
            add_list_count 1 (add_elem_count 1
              (frag_list_insert_head prevs h nexts elem sn head)))
      else insert_loop (prevs ++ [h]) nexts head elem sn
  end.

(** The assertions that the loop checks; [prevh] is the hole before [nexts].  The
    first one is that of [frag_list_replace_head], on the head of the queue. *)
Fixpoint insert_loop_asserts (prevh : option hole) (nexts : list hole) (sn : Z) : bool :=
  match nexts with
  | [] => true
  | h :: nexts =>
      if sn_ge sn (first_sn h) && sn_le sn (last_sn h) then true
      else if sn_eq (sn + 1) (first_sn h) then true
      else if sn_eq (last_sn h + 1) sn then sn_le (first_sn h) (last_sn h)
      else if sn_lt sn (first_sn h) then match prevh with Some p => sn_lt (last_sn p + 1) sn | None => true end
      else sn_lt (last_sn h + 1) sn && insert_loop_asserts (Some h) nexts sn
  end.

Definition ucs_frag_list_insert_asserts (head : ucs_frag_list_t) (sn : Z) : bool :=
  if sn_eq sn (head_sn head + 1) || sn_le sn (head_sn head) || (max_holes head =? 0) then true
  else insert_loop_asserts None (holes head) sn.

Definition ucs_frag_list_insert_slow (head : ucs_frag_list_t) (elem : E) (sn : Z)
    : ucs_frag_list_ooo_type_t * ucs_frag_list_t :=
  if sn_eq sn (head_sn head + 1) then ucs_frag_list_insert_head head elem sn
  else if sn_le sn (head_sn head) then (UCS_FRAG_LIST_INSERT_DUP, head)
  else if max_holes head =? 0 then (UCS_FRAG_LIST_INSERT_FAIL, head)
  else insert_loop [] (holes head) head elem sn.

Definition ucs_frag_list_insert (head : ucs_frag_list_t) (elem : E) (sn : Z)
    : ucs_frag_list_ooo_type_t * ucs_frag_list_t :=
  if sn_eq sn (head_sn head + 1) && (elem_count head =? 0)
  then (UCS_FRAG_LIST_INSERT_FAST, set_head_sn sn head)
  else ucs_frag_list_insert_slow head elem sn.

(** Called with a non-empty holes list; on an empty one the code would read the
    head of an empty queue, here [None]. *)
Definition ucs_frag_list_pull_slow (head : ucs_frag_list_t) : option E * ucs_frag_list_t :=
  match holes head with
  | [] => (None, head)
  | h :: rest =>
      if negb (sn_eq (first_sn h) (head_sn head + 1)) then (None, head)
      else
        let head := set_head_sn (last_sn h) head in
        let head := add_elem_count (-1) head in
        let head := add_list_count (-1) head in
        let head := set_holes rest head in
        let head := set_ready_list (ready_list head ++ h_list h) head in
        (Some (h_elem h), head)
  end.

Definition ucs_frag_list_pull (head : ucs_frag_list_t) : option E * ucs_frag_list_t :=
  match ready_list head with
  | e :: rest => (Some e, set_ready_list rest (add_elem_count (-1) head))
  | [] =>
      match holes head with
      | [] => (None, head)
      | _ => ucs_frag_list_pull_slow head
      end
  end.

Definition ucs_frag_list_sn (head : ucs_frag_list_t) : Z := head_sn head.

Definition ucs_frag_list_sn_inc (head : ucs_frag_list_t) : ucs_frag_list_t :=
  set_head_sn (u16 (head_sn head + 1)) head.

Definition ucs_frag_list_count (head : ucs_frag_list_t) : Z := elem_count head.

Definition ucs_frag_list_empty (head : ucs_frag_list_t) : bool :=
  bool_decide (holes head = []) && bool_decide (ready_list head = []).

(** The counts recomputed by the dump, and its two assertions. *)
Definition ucs_frag_list_dump (head : ucs_frag_list_t) : Z * Z * bool :=
  let elems := Z.of_nat (length (ready_list head)) in
  let '(elems, lists) :=
    fold_left (fun '(ec, lc) h => (ec + Z.of_nat (length (h_list h)) + 1, lc + 1))
              (holes head) (elems, 0) in
  (elems, lists, (elem_count head =? elems) && (list_count head =? lists)).

End frag_list.
Arguments hole : clear implicits.
Arguments ucs_frag_list_t : clear implicits.

(** ** Abstract reordering buffer *)

Section spec.
Context {E : Type}.
(** The unbounded sequence number of the packet an element carries; the code sees
    [u16 (SN e)]. *)
Context (SN : E -> Z).

(** The elements stored in the holes, in order. *)
Definition hole_elems (h : hole E) : list E := h_elem h :: h_list h.
Definition buffered (l : list (hole E)) : list E := flat_map hole_elems l.

(** Abstract state: the last in-order number, the elements ready for delivery and
    the early ones, by increasing number. *)
Record spec_state := Spec {
  s_head : Z;
  s_ready : list E;
  s_early : list E
}.

Fixpoint insert_sorted (e : E) (l : list E) : list E :=
  match l with
  | [] => [e]
  | x :: l' => if SN e <? SN x then e :: l else x :: insert_sorted e l'
  end.

Definition has_sn (n : Z) (l : list E) : bool := existsb (fun x => SN x =? n) l.

(** What [insert] does, by the number of the packet. *)
Definition spec_insert (no_holes : bool) (e : E) (st : spec_state)
    : ucs_frag_list_ooo_type_t * spec_state :=
  let '(Spec h r b) := st in
  if (SN e <=? h) || has_sn (SN e) b then (UCS_FRAG_LIST_INSERT_DUP, st)
  else if SN e =? h + 1 then
    (if has_sn (h + 2) b then UCS_FRAG_LIST_INSERT_FIRST else UCS_FRAG_LIST_INSERT_FAST,
     Spec (h + 1) r b)
  else if no_holes then (UCS_FRAG_LIST_INSERT_FAIL, st)
  else (UCS_FRAG_LIST_INSERT_SLOW, Spec h r (insert_sorted e b)).

(** The longest prefix of [b] whose numbers follow [h], and the rest. *)
Fixpoint in_order_prefix (h : Z) (b : list E) : list E * list E :=
  match b with
  | [] => ([], [])
  | x :: b' => if SN x =? h + 1
               then let '(p, r) := in_order_prefix (h + 1) b' in (x :: p, r)
               else ([], b)
  end.

Definition spec_pull (st : spec_state) : option E * spec_state :=
  let '(Spec h r b) := st in
  match r with
  | e :: r => (Some e, Spec h r b)
  | [] => match in_order_prefix h b with
          | (e :: p, b') => (Some e, Spec (h + Z.of_nat (length p) + 1) p b')
          | ([], _) => (None, st)
          end
  end.

(** ** Invariant *)

Definition h_first (h : hole E) : Z := SN (h_elem h).
Definition h_last (h : hole E) : Z := SN (h_elem h) + Z.of_nat (length (h_list h)).

Record hole_ok (h : hole E) : Prop := HoleOk {
  ho_first : first_sn h = u16 (h_first h);
  ho_last : last_sn h = u16 (h_last h);
  ho_elems : SN <$> (h_list h) = seqZ (h_first h + 1) (Z.of_nat (length (h_list h)))
}.

(** Holes after [lo] and below [hi], with at least one missing number between two
    of them. *)
Fixpoint chain (lo hi : Z) (l : list (hole E)) : Prop :=
  match l with
  | [] => True
  | h :: l => lo < h_first h /\ h_last h < hi /\ hole_ok h /\ chain (h_last h + 1) hi l
  end.

(** Half of the sequence number range. *)
Definition half : Z := 2 ^ 15.

Record inv (head : Z) (fl : ucs_frag_list_t E) : Prop := Inv {
  inv_head : head_sn fl = u16 head;
  inv_ready : SN <$> (ready_list fl) =
    seqZ (head - Z.of_nat (length (ready_list fl)) + 1) (Z.of_nat (length (ready_list fl)));
  inv_ready_len : Z.of_nat (length (ready_list fl)) < half;
  inv_holes : chain head (head + half) (holes fl);
  inv_elems : elem_count fl =
    Z.of_nat (length (ready_list fl)) + Z.of_nat (length (buffered (holes fl)));
  inv_lists : list_count fl = Z.of_nat (length (holes fl));
  inv_max : max_holes fl = 0 -> holes fl = [] /\ ready_list fl = []
}.

(** The abstract state of a list. *)
Definition abs (head : Z) (fl : ucs_frag_list_t E) : spec_state :=
  Spec head (ready_list fl) (buffered (holes fl)).

(** The element closes the gap between two holes and its number is the largest
    16-bit one: the case the merge test misses. *)
Fixpoint closes_wrap_gap (l : list (hole E)) (n : Z) : Prop :=
  match l with
  | h1 :: ((h2 :: _) as l') =>
      (h_last h1 + 1 = n /\ h_first h2 = n + 1 /\ u16 n = 65535) \/ closes_wrap_gap l' n
  | _ => False
  end.

(** What the caller of [insert] has to ensure: the packet is within half the
    range, does not close a gap at the wrap-around point, and in-order packets
    come only once the ready list is drained (the header's "must try pull"). *)
Record insert_pre (head : Z) (fl : ucs_frag_list_t E) (e : E) : Prop := InsertPre {
  ip_window : head - half < SN e < head + half;
  ip_gap : ~ closes_wrap_gap (holes fl) (SN e);
  ip_drained : SN e = head + 1 -> ready_list fl = []
}.

(** *** Circular comparisons *)

Lemma sn_diff_u16 a b i j : - half <= a + i - (b + j) < half ->
  sn_diff (u16 a + i) (u16 b + j) = a + i - (b + j).
Proof.
  intros H. apply s_wrap_unique; [lia| |exact H].
  unfold u_wrap. change (2 ^ 16) with 65536. Z.div_mod_to_equations. lia.
Qed.

Lemma sn_diff_00 a b : - half <= a - b < half -> sn_diff (u16 a) (u16 b) = a - b.
Proof. intros H. pose proof (sn_diff_u16 a b 0 0). rewrite !Z.add_0_r in *. auto. Qed.

Lemma sn_diff_10 a b : - half <= a + 1 - b < half -> sn_diff (u16 a + 1) (u16 b) = a + 1 - b.
Proof. intros H. pose proof (sn_diff_u16 a b 1 0). rewrite !Z.add_0_r in *. auto. Qed.

Lemma sn_diff_01 a b : - half <= a - (b + 1) < half -> sn_diff (u16 a) (u16 b + 1) = a - (b + 1).
Proof. intros H. pose proof (sn_diff_u16 a b 0 1). rewrite !Z.add_0_r in *. auto. Qed.

(** *** Sorted buffer *)

Lemma hole_elems_sn h : hole_ok h ->
  SN <$> (hole_elems h) = seqZ (h_first h) (Z.of_nat (length (h_list h)) + 1).
Proof.
  intros Hh. unfold hole_elems. rewrite fmap_cons, (ho_elems _ Hh), (seqZ_cons (h_first h)) by lia.
  unfold h_first. f_equal. f_equal; lia.
Qed.

Lemma hole_elems_range h x : hole_ok h -> x ∈ hole_elems h -> h_first h <= SN x <= h_last h.
Proof.
  intros Hh Hx. apply (list_elem_of_fmap_2 SN) in Hx. rewrite (hole_elems_sn _ Hh) in Hx.
  apply elem_of_seqZ in Hx. unfold h_last, h_first in *. lia.
Qed.

Lemma has_sn_true n l : has_sn n l = true <-> exists x, x ∈ l /\ SN x = n.
Proof.
  unfold has_sn. rewrite existsb_exists. split; intros (x & Hx & E'); exists x;
    rewrite Z.eqb_eq in *; by rewrite list_elem_of_In in *.
Qed.

Lemma has_sn_false n l : has_sn n l = false <-> forall x, x ∈ l -> SN x <> n.
Proof.
  rewrite <- not_true_iff_false, has_sn_true. split.
  - intros H x Hx E'. apply H. eauto.
  - intros H (x & Hx & E'). by apply (H x).
Qed.

Lemma has_sn_app n l l' : has_sn n (l ++ l') = has_sn n l || has_sn n l'.
Proof. apply existsb_app. Qed.

Lemma has_sn_hole n h : hole_ok h ->
  has_sn n (hole_elems h) = (h_first h <=? n) && (n <=? h_last h).
Proof.
  intros Hh. apply eq_bool_prop_intro. rewrite !Is_true_true, andb_true_iff, !Z.leb_le, has_sn_true.
  split.
  - intros (x & Hx & <-). by apply hole_elems_range.
  - intros Hn. assert (n ∈ SN <$> (hole_elems h)) as (x & -> & Hx)%list_elem_of_fmap; [|by eauto].
    rewrite hole_elems_sn by done. apply elem_of_seqZ. unfold h_last, h_first in *. lia.
Qed.

Lemma chain_weaken lo lo' hi hi' l : lo' <= lo -> hi <= hi' -> chain lo hi l -> chain lo' hi' l.
Proof.
  revert lo lo'. induction l as [|h l IH]; intros lo lo' ? ?; [done|].
  intros (? & ? & ? & ?). simpl. split_and!; [lia|lia|done|]. by eapply IH; [|lia|].
Qed.

Lemma chain_range lo hi l x : chain lo hi l -> x ∈ buffered l -> lo < SN x < hi.
Proof.
  revert lo. induction l as [|h l IH]; intros lo; [by intros _ ?%not_elem_of_nil|].
  intros (? & ? & Hh & Hl) [Hx|Hx]%elem_of_app.
  - pose proof (hole_elems_range _ _ Hh Hx). lia.
  - specialize (IH _ Hl Hx). unfold h_last, h_first in *. lia.
Qed.

Lemma chain_length lo hi l : lo <= hi -> chain lo hi l -> Z.of_nat (length (buffered l)) <= hi - lo.
Proof.
  revert lo. induction l as [|h l IH]; intros lo Hlo; [simpl; lia|].
  intros (? & ? & Hh & Hl). simpl. rewrite length_app.
  specialize (IH (h_last h + 1)). unfold h_last, h_first in *. destruct l as [|h2 l].
  - simpl. lia.
  - pose proof (proj1 Hl). pose proof (proj1 (proj2 Hl)). unfold h_last, h_first in *.
    specialize (IH ltac:(lia) Hl). lia.
Qed.

Lemma buffered_length l : (length l <= length (buffered l))%nat.
Proof. induction l; simpl; [lia|]. rewrite length_app. lia. Qed.

Lemma insert_sorted_app e l l' : (forall x, x ∈ l -> SN x < SN e) ->
  insert_sorted e (l ++ l') = l ++ insert_sorted e l'.
Proof.
  induction l as [|x l IH]; intros Hl; [done|]. simpl.
  pose proof (Hl x ltac:(by left)). destruct (Z.ltb_spec (SN e) (SN x)); [lia|].
  f_equal. apply IH. intros y Hy. apply Hl. by right.
Qed.

Lemma insert_sorted_head e l : (forall x, x ∈ l -> SN e < SN x) -> insert_sorted e l = e :: l.
Proof.
  destruct l as [|x l]; intros Hl; [done|]. simpl.
  pose proof (Hl x ltac:(by left)). destruct (Z.ltb_spec (SN e) (SN x)); [done|lia].
Qed.

Lemma insert_sorted_perm e l : insert_sorted e l ≡ₚ e :: l.
Proof.
  induction l as [|x l IH]; [done|]. simpl. case_match; [done|]. rewrite IH. constructor.
Qed.

Lemma insert_sorted_length e l : length (insert_sorted e l) = S (length l).
Proof. by rewrite insert_sorted_perm. Qed.

Lemma buffered_cons h l : buffered (h :: l) = hole_elems h ++ buffered l.
Proof. done. Qed.

#[local] Arguments buffered : simpl never.
#[local] Arguments insert_sorted : simpl never.
#[local] Arguments hole_elems : simpl never.
#[local] Arguments has_sn : simpl never.

(** *** The insertion loop *)

Lemma u16_next_eqb a b : - half <= a - (b + 1) < half -> (a = b + 1 -> u16 b <> 65535) ->
  (u16 a =? u16 b + 1) = (a =? b + 1).
Proof.
  intros Hr Hw. apply eq_bool_prop_intro. rewrite !Is_true_true, !Z.eqb_eq.
  unfold half, u_wrap in *. change (2 ^ 16) with 65536 in *. change (2 ^ 15) with 32768 in *.
  split; intros; Z.div_mod_to_equations; lia.
Qed.

Lemma hole_ok_single e : hole_ok (Hole e (u16 (SN e)) (u16 (SN e)) []).
Proof. split; unfold h_first, h_last; simpl; [done|by rewrite Z.add_0_r|done]. Qed.

Lemma hole_ok_replace e h : hole_ok h -> h_first h = SN e + 1 ->
  hole_ok (Hole e (u16 (first_sn h - 1)) (last_sn h) (hole_elems h)).
Proof.
  intros Hh Hf. split; unfold h_first, h_last; cbn [h_elem first_sn last_sn h_list].
  - rewrite (ho_first _ Hh), Hf. rewrite <- Z.add_opp_r, u_wrap_add_l. f_equal. lia.
  - rewrite (ho_last _ Hh). unfold h_last, h_first in *. f_equal. simpl length. lia.
  - rewrite (hole_elems_sn _ Hh), Hf. f_equal. simpl length. lia.
Qed.

Lemma hole_ok_add_tail e h : hole_ok h -> h_last h + 1 = SN e -> hole_ok (frag_list_add_tail h e).
Proof.
  intros Hh Hl. unfold frag_list_add_tail.
  split; unfold h_first, h_last in *; cbn [h_elem first_sn last_sn h_list].
  - apply Hh.
  - rewrite (ho_last _ Hh), u_wrap_add_l. unfold h_last. rewrite length_app. simpl. f_equal. lia.
  - rewrite fmap_app, (ho_elems _ Hh), length_app, Nat2Z.inj_add, seqZ_app by lia.
    unfold h_first. f_equal. simpl. rewrite seqZ_cons by lia. simpl. f_equal. lia.
Qed.

Lemma hole_ok_merge h1 h2 : hole_ok h1 -> hole_ok h2 -> h_first h2 = h_last h1 + 1 ->
  hole_ok (Hole (h_elem h1) (first_sn h1) (last_sn h2) (h_list h1 ++ hole_elems h2)).
Proof.
  intros H1 H2 E'. split; unfold h_first, h_last in *; cbn [h_elem first_sn last_sn h_list].
  - apply H1.
  - rewrite (ho_last _ H2). unfold h_last. rewrite length_app. simpl length. f_equal. lia.
  - rewrite fmap_app, (ho_elems _ H1), (hole_elems_sn _ H2), length_app, Nat2Z.inj_add,
      (seqZ_app _ (Z.of_nat (length (h_list h1)))) by lia.
    unfold h_first. rewrite E'. f_equal. simpl length. f_equal; lia.
Qed.

(** What the loop returns for a list whose remaining holes are [nexts]. *)
Definition loop_post (prevs nexts : list (hole E)) (lo hi : Z) (fl : ucs_frag_list_t E) (e : E)
    (res : ucs_frag_list_ooo_type_t * ucs_frag_list_t E) : Prop :=
  let '(t, fl') := res in
  if has_sn (SN e) (buffered nexts) then t = UCS_FRAG_LIST_INSERT_DUP /\ fl' = fl
  else t = UCS_FRAG_LIST_INSERT_SLOW /\ exists nexts',
    chain lo hi nexts' /\ buffered nexts' = insert_sorted e (buffered nexts) /\
    fl' = FragList (prevs ++ nexts') (ready_list fl) (head_sn fl) (u32 (elem_count fl + 1))
            (u32 (list_count fl + (Z.of_nat (length nexts') - Z.of_nat (length nexts)))) (max_holes fl).

(** The list after an insertion in the loop. *)
Definition after_insert (prevs nexts nexts' : list (hole E)) (fl : ucs_frag_list_t E) : ucs_frag_list_t E :=
  FragList (prevs ++ nexts') (ready_list fl) (head_sn fl) (u32 (elem_count fl + 1))
    (u32 (list_count fl + (Z.of_nat (length nexts') - Z.of_nat (length nexts)))) (max_holes fl).

Lemma add_tail_post prevs h nexts lo hi fl e :
  0 <= list_count fl < 2 ^ 32 -> chain lo hi (h :: nexts) -> h_last h + 1 = SN e ->
  SN e < hi -> hi - lo <= half -> ~ closes_wrap_gap (h :: nexts) (SN e) ->
  let h' := frag_list_add_tail h e in
  let fl1 := set_holes (prevs ++ h' :: nexts) fl in
  exists nexts', chain lo hi nexts' /\ buffered nexts' = hole_elems h ++ e :: buffered nexts /\
    add_elem_count 1
      match nexts with
      | nexth :: nexts2 =>
          if first_sn nexth =? u16 (SN e) + 1
          then add_list_count (-1) (frag_list_merge_heads prevs h' nexth nexts2 fl1)
          else fl1
      | [] => fl1
      end = after_insert prevs (h :: nexts) nexts' fl.
Proof.
  intros Hlc (Hlo & Hlast & Hh & Hch) He Hhi Hhalf Hgap h' fl1.
  assert (hole_ok h') as Hh' by by apply hole_ok_add_tail.
  assert (h_last h' = SN e) as Hl'.
  { unfold h', h_last in *. simpl. rewrite length_app. simpl. lia. }
  assert (hole_elems h' = hole_elems h ++ [e]) as Hel by done.
  assert (forall nexts', length nexts' = length nexts -> chain (SN e + 1) hi nexts' ->
     buffered nexts' = buffered nexts -> set_holes (prevs ++ h' :: nexts') fl = fl1 ->
     exists nexts', chain lo hi nexts' /\ buffered nexts' = hole_elems h ++ e :: buffered nexts /\
       add_elem_count 1 fl1 = after_insert prevs (h :: nexts) nexts' fl) as Hplain.
  { intros nexts' Hlen Hc Hb <-. exists (h' :: nexts'). split_and!.
    - simpl. rewrite Hl'. by split_and!.
    - rewrite buffered_cons. by rewrite Hel, Hb, <- app_assoc.
    - unfold after_insert. simpl. rewrite Hlen, Z.sub_diag, Z.add_0_r, (u_wrap_small 32 (list_count fl)) by lia. done. }
  destruct nexts as [|n nexts2]; [by eapply (Hplain [])|].
  destruct Hch as (Hlo2 & Hlast2 & Hn & Hch2).
  rewrite (ho_first _ Hn), u16_next_eqb; last first.
  { intros E' Hw. apply Hgap. left. by split_and!. }
  { unfold h_last, h_first in *. lia. }
  destruct (Z.eqb_spec (h_first n) (SN e + 1)) as [Hm|Hm].
  - exists (Hole (h_elem h') (first_sn h') (last_sn n) (h_list h' ++ hole_elems n) :: nexts2).
    split_and!.
    + assert (h_last (Hole (h_elem h') (first_sn h') (last_sn n) (h_list h' ++ hole_elems n)) = h_last n) as E'.
      { clear -Hl' Hm. clearbody h'. unfold h_last, h_first in *. simpl.
        rewrite length_app. simpl. lia. }
      cbn [chain]. rewrite E'. split_and!; [done|done| |done].
      apply hole_ok_merge; [done|done|]. by rewrite Hl'.
    + rewrite !buffered_cons. unfold hole_elems at 1 2. simpl.
      by rewrite <- !app_assoc.
    + unfold after_insert, add_elem_count, add_list_count, frag_list_merge_heads. simpl. f_equal.
      f_equal. lia.
  - apply (Hplain (n :: nexts2)); [done| |done|done]. simpl. split_and!; [lia|done..].
Qed.

Lemma insert_loop_spec nexts prevs lo hi fl e :
  holes fl = prevs ++ nexts -> 0 <= list_count fl < 2 ^ 32 ->
  chain lo hi nexts -> lo < SN e < hi -> hi - lo <= half ->
  ~ closes_wrap_gap nexts (SN e) ->
  loop_post prevs nexts lo hi fl e (insert_loop prevs nexts fl e (u16 (SN e))).
Proof.
  revert prevs lo. induction nexts as [|h nexts IH]; intros prevs lo Hfl Hlc Hch He Hhi Hgap.
  { simpl. split; [done|]. exists [Hole e (u16 (SN e)) (u16 (SN e)) []]. split_and!.
    - split_and!; [|unfold h_last; simpl| |done]; try (simpl; lia); [unfold h_first; simpl; lia|].
      apply hole_ok_single.
    - done.
    - unfold add_list_count, add_elem_count, frag_list_insert_tail, set_holes. simpl.
      rewrite Hfl, app_nil_r. done. }
  pose proof Hch as (Hlo & Hlast & Hh & Hch'). cbn [insert_loop].
  assert (h_first h <= h_last h) as Hfl' by (unfold h_first, h_last; lia).
  assert (has_sn (SN e) (buffered (h :: nexts)) =
          (h_first h <=? SN e) && (SN e <=? h_last h) || has_sn (SN e) (buffered nexts)) as Hhas.
  { rewrite buffered_cons. by rewrite has_sn_app, has_sn_hole. }
  assert (SN e <= h_last h + 1 -> has_sn (SN e) (buffered nexts) = false) as Hnot.
  { intros. apply has_sn_false. intros x Hx. pose proof (chain_range _ _ _ _ Hch' Hx). lia. }
  unfold loop_post. rewrite (ho_first _ Hh), (ho_last _ Hh), Hhas. unfold sn_ge, sn_le, sn_eq, sn_lt.
  rewrite !sn_diff_00, !sn_diff_10 by lia.
  destruct (Z.leb_spec (h_first h) (SN e)); [destruct (Z.leb_spec (SN e) (h_last h))|].
  - (* duplicate *)
    rewrite !(proj2 (Z.leb_le _ _)) by lia. done.
  - rewrite (proj2 (Z.leb_le 0 _)), (proj2 (Z.leb_gt _ 0)) by lia. simpl.
    rewrite (proj2 (Z.eqb_neq (SN e + 1 - _) 0)) by lia.
    destruct (Z.eqb_spec (h_last h + 1 - SN e) 0) as [Ht|Ht].
    + (* tail of [h] *)
      rewrite Hnot by lia. simpl. split; [done|].
      destruct (add_tail_post prevs h nexts lo hi fl e) as (nexts' & ? & Hb & ->); try done; try lia.
      exists nexts'. split_and!; [done| |done].
      rewrite buffered_cons. rewrite insert_sorted_app, insert_sorted_head; [done| |].
      * intros x Hx. pose proof (chain_range _ _ _ _ Hch' Hx). lia.
      * intros x Hx. pose proof (hole_elems_range _ _ Hh Hx). lia.
    + (* after [h] *)
      rewrite (proj2 (Z.ltb_ge (SN e - _) 0)) by lia.
      specialize (IH (prevs ++ [h]) (h_last h + 1)). rewrite <- app_assoc in IH. simpl in IH.
      specialize (IH Hfl Hlc Hch' ltac:(lia) ltac:(lia)).
      assert (~ closes_wrap_gap nexts (SN e)) as Hg.
      { intros Hg. apply Hgap. destruct nexts; [done|]. by right. }
      specialize (IH Hg). unfold loop_post in IH. destruct (insert_loop _ _ _ _ _) as [t fl'].
      destruct (has_sn _ _); [done|]. destruct IH as (-> & nexts' & Hc & Hb & ->). split; [done|].
      exists (h :: nexts'). split_and!; [by split_and!| |].
      * rewrite !buffered_cons.
        rewrite Hb, insert_sorted_app; [done|].
        intros x Hx. pose proof (hole_elems_range _ _ Hh Hx). lia.
      * rewrite <- app_assoc. simpl. f_equal. f_equal. lia.
  - rewrite (proj2 (Z.leb_gt 0 _)), Hnot by lia. simpl.
    assert (insert_sorted e (buffered (h :: nexts)) = e :: buffered (h :: nexts)) as Hins.
    { apply insert_sorted_head. intros x Hx. rewrite buffered_cons in Hx.
      apply elem_of_app in Hx as [Hx|Hx].
      - pose proof (hole_elems_range _ _ Hh Hx). lia.
      - pose proof (chain_range _ _ _ _ Hch' Hx). lia. }
    destruct (Z.eqb_spec (SN e + 1 - h_first h) 0) as [Ht|Ht].
    + (* new head of [h] *)
      split; [done|].
      exists (Hole e (u16 (u16 (h_first h) - 1)) (u16 (h_last h)) (hole_elems h) :: nexts).
      rewrite <- (ho_first _ Hh), <- (ho_last _ Hh). split_and!; [|by rewrite Hins|].
      * assert (h_last (Hole e (u16 (first_sn h - 1)) (last_sn h) (hole_elems h)) = h_last h) as E'.
        { unfold h_last, h_first in *. simpl. lia. }
        simpl. rewrite E'. split_and!; [unfold h_first; simpl; lia|done| |done].
        apply hole_ok_replace; [done|lia].
      * unfold add_elem_count, frag_list_replace_head. simpl. f_equal.
        rewrite Z.sub_diag, Z.add_0_r, (u_wrap_small 32 (list_count fl)) by lia. done.
    + (* new hole before [h] *)
      rewrite (proj2 (Z.eqb_neq (h_last h + 1 - _) 0)), (proj2 (Z.ltb_lt (SN e - _) 0)) by lia.
      split; [done|]. exists (Hole e (u16 (SN e)) (u16 (SN e)) [] :: h :: nexts).
      split_and!; [|by rewrite Hins|].
      * simpl. unfold h_last at 1 2, h_first at 1. simpl. rewrite Z.add_0_r.
        split_and!; [lia|lia|apply hole_ok_single|lia|done..].
      * unfold add_list_count, add_elem_count, frag_list_insert_head. simpl. f_equal. f_equal. lia.
Qed.

(** The assertions hold: [lo] is the number after the hole before. *)
Lemma insert_loop_asserts_ok nexts : forall prevh lo hi n, chain lo hi nexts -> lo < n < hi -> hi - lo <= half ->
  (forall p, prevh = Some p -> last_sn p = u16 (lo - 1)) -> insert_loop_asserts prevh nexts (u16 n) = true.
Proof.
  induction nexts as [|h nexts IH]; intros prevh lo hi n Hch Hn Hhi Hp; [done|]. destruct Hch as (Hlo & Hlast & Hh & Hch).
  assert (h_first h <= h_last h) by (unfold h_first, h_last; lia). cbn [insert_loop_asserts].
  rewrite (ho_first _ Hh), (ho_last _ Hh). unfold sn_ge, sn_le, sn_eq, sn_lt. rewrite !sn_diff_00, !sn_diff_10 by lia.
  destruct (_ && _) eqn:Hd; [done|]. destruct (Z.eqb_spec (n + 1 - h_first h) 0); [done|].
  destruct (Z.eqb_spec (h_last h + 1 - n) 0); [by apply Z.leb_le; lia|]. destruct (Z.ltb_spec (n - h_first h) 0).
  - destruct prevh as [p|]; [|done]. rewrite (Hp p eq_refl), sn_diff_10 by lia. apply Z.ltb_lt. lia.
  - apply andb_false_iff in Hd as [Hd|Hd]; [apply Z.leb_gt in Hd; lia|]. apply Z.leb_gt in Hd.
    rewrite (proj2 (Z.ltb_lt (h_last h + 1 - n) 0)) by lia. apply (IH _ (h_last h + 1) hi); [done|lia|lia|].
    intros p [= <-]. rewrite (ho_last _ Hh). f_equal. lia.
Qed.

Lemma insert_asserts_ok head fl n : inv head fl -> head - half < n < head + half ->
  ucs_frag_list_insert_asserts fl (u16 n) = true.
Proof.
  intros Hinv Hn. unfold ucs_frag_list_insert_asserts, sn_eq, sn_le. rewrite (inv_head _ _ Hinv), sn_diff_01, sn_diff_00 by lia.
  destruct (Z.eqb_spec (n - (head + 1)) 0); [done|]. destruct (Z.leb_spec (n - head) 0); [done|]. cbn [orb].
  destruct (max_holes fl =? 0); [done|]. by eapply (insert_loop_asserts_ok _ None head); [apply Hinv|lia|lia|].
Qed.

(** The loop passes the holes before the one which [e] is appended to. *)
Lemma insert_loop_skip l1 h rest : forall prevs lo hi fl e, chain lo hi (l1 ++ [h]) -> SN e = h_last h + 1 -> SN e < hi ->
  hi - lo <= half -> insert_loop prevs (l1 ++ h :: rest) fl e (u16 (SN e)) = insert_loop (prevs ++ l1) (h :: rest) fl e (u16 (SN e)).
Proof.
  induction l1 as [|h0 l1 IH]; intros prevs lo hi fl e Hch He Hlt Hhi; [by rewrite app_nil_r|].
  destruct Hch as (Hlo & Hlast & Hh0 & Hch). assert (h_first h0 <= h_last h0) by (unfold h_first, h_last; lia).
  assert (h_last h0 + 1 < SN e) as Hafter.
  { assert (h_elem h ∈ buffered (l1 ++ [h])) as Hx.
    { unfold buffered. rewrite flat_map_app. apply elem_of_app. right. unfold hole_elems. cbn. by left. }
    pose proof (chain_range _ _ _ _ Hch Hx). unfold h_last in He. lia. }
  change ((h0 :: l1) ++ h :: rest) with (h0 :: (l1 ++ h :: rest)). cbn [insert_loop]. rewrite (ho_first _ Hh0), (ho_last _ Hh0).
  unfold sn_ge, sn_le, sn_eq, sn_lt. rewrite !sn_diff_00, !sn_diff_10 by lia.
  rewrite (proj2 (Z.leb_le 0 _)), (proj2 (Z.leb_gt _ 0)), (proj2 (Z.eqb_neq (SN e + 1 - _) 0)), (proj2 (Z.eqb_neq (h_last h0 + 1 - _) 0)),
    (proj2 (Z.ltb_ge (SN e - _) 0)) by lia.
  cbn [andb]. rewrite (IH (prevs ++ [h0]) (h_last h0 + 1) hi) by (done || lia). by rewrite <- app_assoc.
Qed.

(** An element is appended to a hole without a merge. *)
Lemma insert_tail_apart head fl l1 h h2 l2 e : head_sn fl = u16 head -> max_holes fl <> 0 -> holes fl = l1 ++ h :: h2 :: l2 ->
  chain head (head + half) (l1 ++ [h]) -> SN e = h_last h + 1 -> SN e < head + half -> first_sn h2 <> u16 (SN e) + 1 ->
  ucs_frag_list_insert fl e (u16 (SN e)) =
    (UCS_FRAG_LIST_INSERT_SLOW, add_elem_count 1 (set_holes (l1 ++ frag_list_add_tail h e :: h2 :: l2) fl)).
Proof.
  intros Hhd Hm Hfl Hch He Hlt Hne. assert (head < h_first h /\ hole_ok h) as [Hgt Hok].
  { clear -Hch. revert Hch. generalize head at 1 3. induction l1 as [|h0 l1 IH]; intros lo; cbn [app chain].
    - intros (? & _ & ? & _). done.
    - intros (H1 & H2 & _ & Hc). apply IH in Hc as [Hc ?]. split; [|done]. unfold h_last, h_first in *. lia. }
  assert (h_first h <= h_last h) by (unfold h_first, h_last; lia).
  unfold ucs_frag_list_insert, ucs_frag_list_insert_slow, sn_eq, sn_le. rewrite Hhd, sn_diff_01, sn_diff_00 by (unfold half in *; lia).
  rewrite (proj2 (Z.eqb_neq (SN e - (head + 1)) 0)), (proj2 (Z.leb_gt (SN e - head) 0)), (proj2 (Z.eqb_neq _ _) Hm) by lia. cbn [andb].
  rewrite Hfl, (insert_loop_skip l1 h (h2 :: l2) [] head (head + half)) by (done || lia). cbn [app insert_loop].
  rewrite (ho_first _ Hok), (ho_last _ Hok). unfold sn_ge, sn_le, sn_eq, sn_lt. rewrite !sn_diff_00, !sn_diff_10 by lia.
  rewrite (proj2 (Z.leb_le 0 _)), (proj2 (Z.leb_gt _ 0)), (proj2 (Z.eqb_neq (SN e + 1 - _) 0)), (proj2 (Z.eqb_eq (h_last h + 1 - _) 0)) by lia.
  cbn [andb]. by rewrite (proj2 (Z.eqb_neq _ _) Hne).
Qed.

(** *** Insertion *)

Lemma inv_counts head fl : inv head fl ->
  0 <= elem_count fl < 2 ^ 17 /\ 0 <= list_count fl < 2 ^ 17 /\ (elem_count fl = 0 -> holes fl = [] /\ ready_list fl = []).
Proof.
  intros [_ _ Hrl Hc He Hl _]. pose proof (chain_length head (head + half) (holes fl) ltac:(unfold half; lia) Hc).
  pose proof (buffered_length (holes fl)). unfold half in *. split_and!; [lia|lia|lia|lia|].
  intros E0. destruct (holes fl); [|simpl in *; lia]. destruct (ready_list fl); [done|simpl in *; lia].
Qed.

(** Advancing the head by one keeps the invariant when the holes start later. *)
Lemma inv_advance head fl : inv head fl -> ready_list fl = [] -> chain (head + 1) (head + half) (holes fl) ->
  inv (head + 1) (set_head_sn (u16 (head + 1)) fl).
Proof.
  intros [? Hr ? Hc He Hl Hm] Hrd Hc'. rewrite Hrd in *. split; simpl in *; rewrite ?Hrd; try done.
  by eapply chain_weaken; [| |exact Hc']; lia.
Qed.

Lemma chain_first head hi h l n : chain head hi (h :: l) -> n <= h_first h ->
  has_sn n (buffered (h :: l)) = (n =? h_first h).
Proof.
  intros (? & ? & Hh & Hc) Hn. rewrite buffered_cons, has_sn_app, has_sn_hole by done.
  assert (has_sn n (buffered l) = false) as ->.
  { apply has_sn_false. intros x Hx. pose proof (chain_range _ _ _ _ Hc Hx).
    unfold h_last, h_first in *. lia. }
  rewrite orb_false_r. unfold h_last, h_first in *. zcase; lia || done.
Qed.

(** The relation between a run of the code and of the specification. *)
Definition refines {R} (x : R * ucs_frag_list_t E) (y : R * spec_state) : Prop :=
  x.1 = y.1 /\ abs (s_head y.2) x.2 = y.2 /\ inv (s_head y.2) x.2.

Lemma insert_head_refines head fl e no_holes :
  inv head fl -> SN e = head + 1 -> ready_list fl = [] ->
  refines (ucs_frag_list_insert_head fl e (u16 (SN e))) (spec_insert no_holes e (abs head fl)).
Proof.
  intros Hinv He Hrd. pose proof (inv_holes _ _ Hinv) as Hc.
  unfold ucs_frag_list_insert_head, spec_insert, abs. rewrite (inv_head _ _ Hinv), u_wrap_add_l, He.
  rewrite (proj2 (Z.leb_gt (head + 1) head)), Z.eqb_refl by lia. simpl. rewrite Hrd. simpl.
  destruct (holes fl) as [|h l] eqn:Hh; simpl.
  { split_and!; simpl; [done|by unfold abs; simpl; rewrite Hh, Hrd|].
    apply inv_advance; [done..|]. by rewrite Hh. }
  pose proof Hc as (Hlo & Hhi & Hok & Hc').
  rewrite (ho_first _ Hok). unfold sn_ge, sn_eq.
  rewrite sn_diff_00, sn_diff_01 by (unfold half, h_last, h_first in *; lia).
  rewrite (chain_first _ _ _ _ _ Hc) by lia.
  destruct (Z.eqb_spec (head + 1) (h_first h)) as [Ef|Ef].
  - rewrite (proj2 (Z.leb_le 0 _)) by lia. split_and!; simpl; [done|by unfold abs; rewrite Hh, Hrd|done].
  - rewrite (proj2 (Z.leb_gt 0 _)) by lia. rewrite (chain_first _ _ _ _ _ Hc) by lia.
    assert (inv (head + 1) (set_head_sn (u16 (head + 1)) fl)).
    { apply inv_advance; [done..|]. rewrite Hh. split_and!; [lia|done..]. }
    replace (h_first h - (head + 1 + 1) =? 0) with (head + 2 =? h_first h) by (zcase; lia).
    destruct (_ =? _); split_and!; simpl; try done; by unfold abs; simpl; rewrite Hh, Hrd.
Qed.

Lemma insert_refines_lemma head fl e : inv head fl -> insert_pre head fl e ->
  refines (ucs_frag_list_insert fl e (u16 (SN e))) (spec_insert (max_holes fl =? 0) e (abs head fl)).
Proof.
  intros Hinv [Hwin Hgap Hdr]. destruct (inv_counts _ _ Hinv) as (Hec & Hlc & Hempty).
  unfold ucs_frag_list_insert, ucs_frag_list_insert_slow, sn_eq, sn_le.
  rewrite (inv_head _ _ Hinv), sn_diff_00, sn_diff_01 by lia.
  destruct (Z.eqb_spec (SN e - (head + 1)) 0) as [E1|E1].
  { destruct (Z.eqb_spec (elem_count fl) 0) as [E0|E0]; simpl.
    - destruct (Hempty E0) as [Hh Hr]. unfold spec_insert, abs. rewrite Hh, Hr. simpl.
      rewrite (proj2 (Z.leb_gt (SN e) head)), (proj2 (Z.eqb_eq (SN e) (head + 1))) by lia. simpl.
      replace (SN e) with (head + 1) by lia.
      split_and!; simpl; [done|by unfold abs; simpl; rewrite Hh, Hr|].
      apply inv_advance; [done..|]. by rewrite Hh.
    - apply insert_head_refines; [done|lia|apply Hdr; lia]. }
  cbn [andb]. unfold spec_insert, abs.
  destruct (Z.leb_spec (SN e) head) as [Hle|Hgt].
  { rewrite (proj2 (Z.leb_le _ 0)) by lia. simpl. by split_and!. }
  rewrite (proj2 (Z.leb_gt _ 0)), (proj2 (Z.eqb_neq (SN e) (head + 1))) by lia. simpl.
  destruct (Z.eqb_spec (max_holes fl) 0) as [Em|Em].
  { destruct (inv_max _ _ Hinv Em) as [Hh Hr]. rewrite Hh. simpl.
    split_and!; simpl; [done|by unfold abs; rewrite Hh|done]. }
  pose proof (insert_loop_spec (holes fl) [] head (head + half) fl e eq_refl ltac:(lia)
                (inv_holes _ _ Hinv) ltac:(lia) ltac:(lia) Hgap) as Hpost.
  unfold loop_post in Hpost. destruct (insert_loop _ _ _ _ _) as [t fl'].
  destruct (has_sn _ _); [destruct Hpost as [-> ->]; by split_and!|].
  destruct Hpost as (-> & nexts' & Hc' & Hb & ->). simpl. split_and!; simpl; [done|by unfold abs; simpl; rewrite Hb|].
  destruct Hinv as [? ? ? ? Hel Hli Hmx].
  pose proof (chain_length head (head + half) nexts' ltac:(unfold half; lia) Hc'). pose proof (buffered_length nexts').
  unfold half in *. rewrite Hb, insert_sorted_length in *.
  split; simpl; try done.
  - rewrite Hb, insert_sorted_length, u_wrap_small by lia. lia.
  - rewrite u_wrap_small by lia. lia.
Qed.

(** *** Extraction *)

Lemma in_order_prefix_run l b h :
  SN <$> l = seqZ (h + 1) (Z.of_nat (length l)) ->
  (forall x, x ∈ b -> h + Z.of_nat (length l) + 1 < SN x) ->
  in_order_prefix h (l ++ b) = (l, b).
Proof.
  revert h. induction l as [|x l IH]; intros h Hl Hb; simpl.
  - destruct b as [|y b]; [done|]. simpl. pose proof (Hb y ltac:(by left)).
    by rewrite (proj2 (Z.eqb_neq _ _)) by (simpl in *; lia).
  - rewrite fmap_cons, seqZ_cons in Hl by (simpl; lia). injection Hl as Hx Hl.
    rewrite (proj2 (Z.eqb_eq _ _)) by lia. rewrite IH; [done| |].
    + rewrite Hl. f_equal; simpl; lia.
    + intros y Hy. specialize (Hb y Hy). simpl in Hb. lia.
Qed.

Lemma in_order_prefix_head h x b : SN x = h + 1 ->
  exists p r, in_order_prefix h (x :: b) = (x :: p, r).
Proof.
  intros E'. simpl. rewrite (proj2 (Z.eqb_eq _ _)) by done.
  destruct (in_order_prefix (h + 1) b). eauto.
Qed.

#[local] Arguments in_order_prefix : simpl never.

Lemma pull_refines_lemma head fl : inv head fl -> refines (ucs_frag_list_pull fl) (spec_pull (abs head fl)).
Proof.
  intros Hinv. destruct (inv_counts _ _ Hinv) as (Hec & Hlc & _).
  pose proof Hinv as [Hhd Hr Hrl Hc He Hl Hm]. unfold half in Hrl.
  unfold ucs_frag_list_pull, spec_pull, abs.
  destruct (ready_list fl) as [|r rs] eqn:Hrd.
  - destruct (holes fl) as [|h l] eqn:Hh; simpl; [split_and!; simpl; [done|by unfold abs; rewrite Hrd, Hh|done]|].
    pose proof Hc as (Hlo & Hhi & Hok & Hc').
    unfold ucs_frag_list_pull_slow. rewrite Hh, Hhd, (ho_first _ Hok). unfold sn_eq.
    rewrite sn_diff_01 by (unfold half, h_last, h_first in *; lia).
    destruct (Z.eqb_spec (h_first h - (head + 1)) 0) as [E1|E1]; simpl.
    + assert (length (hole_elems h) = S (length (h_list h))) as Hlen by done.
      rewrite buffered_cons, in_order_prefix_run; cycle 1.
      { rewrite hole_elems_sn, Hlen by done. f_equal; lia. }
      { intros x Hx. pose proof (chain_range _ _ _ _ Hc' Hx). unfold h_last, h_first in *. lia. }
      unfold hole_elems. cbn [fst snd s_head]. split_and!; simpl; rewrite ?Hrd; [done|done|].
      assert (h_last h = head + Z.of_nat (length (h_list h)) + 1) as Hlast
        by (unfold h_last, h_first in *; lia).
      rewrite buffered_cons, length_app, Hlen in He. simpl in Hl, He.
      split; simpl; rewrite ?Hrd; simpl.
      * by rewrite (ho_last _ Hok), Hlast.
      * rewrite (ho_elems _ Hok). f_equal; lia.
      * unfold half, h_last, h_first in *. lia.
      * eapply chain_weaken; [| |exact Hc']; lia.
      * rewrite He, u_wrap_small by lia. lia.
      * rewrite Hl, u_wrap_small by lia. lia.
      * intros E0. by destruct (Hm E0).
    + pose proof (in_order_prefix_run [] (buffered (h :: l)) head eq_refl) as Hp. simpl in Hp.
      rewrite Hp; [|intros x Hx; rewrite buffered_cons in Hx; apply elem_of_app in Hx as [Hx|Hx]];
        cycle 1.
      { pose proof (hole_elems_range _ _ Hok Hx). lia. }
      { pose proof (chain_range _ _ _ _ Hc' Hx). unfold h_last, h_first in *. lia. }
      split_and!; simpl; [done|by unfold abs; rewrite Hrd, Hh|done].
  - simpl. split_and!; simpl; [done|done|]. simpl in *.
    change (SN r :: (SN <$> rs) = seqZ (head - Z.of_nat (S (length rs)) + 1) (Z.of_nat (S (length rs)))) in Hr.
    rewrite seqZ_cons in Hr by lia. injection Hr as _ Hr.
    split; simpl; try done.
    + rewrite Hr. f_equal; lia.
    + unfold half in *. lia.
    + rewrite He, u_wrap_small by lia. lia.
    + intros E0. by destruct (Hm E0).
Qed.

(** ** Runs *)

(** The element is handed to the caller by [insert] itself. *)
Definition delivered_now (t : ucs_frag_list_ooo_type_t) : bool :=
  match t with
  | UCS_FRAG_LIST_INSERT_FAST | UCS_FRAG_LIST_INSERT_FIRST => true
  | _ => false
  end.

(** The element is delivered or stored, not dropped. *)
Definition accepted (t : ucs_frag_list_ooo_type_t) : bool :=
  match t with
  | UCS_FRAG_LIST_INSERT_DUP | UCS_FRAG_LIST_INSERT_FAIL => false
  | _ => true
  end.

(** A run keeps the list, the elements delivered so far and the accepted ones. *)
Record run := Run { r_list : ucs_frag_list_t E; r_delivered : list E; r_accepted : list E }.

(** The last in-order number of a run which started at [init]. *)
Definition run_head (init : Z) (r : run) : Z :=
  init + Z.of_nat (length (r_delivered r)) + Z.of_nat (length (ready_list (r_list r))).

Inductive step (init : Z) : run -> run -> Prop :=
| StepInsert fl D A e t fl' :
    insert_pre (run_head init (Run fl D A)) fl e ->
    ucs_frag_list_insert fl e (u16 (SN e)) = (t, fl') ->
    step init (Run fl D A)
      (Run fl' (D ++ if delivered_now t then [e] else []) (A ++ if accepted t then [e] else []))
| StepPull fl D A r fl' :
    ucs_frag_list_pull fl = (r, fl') ->
    step init (Run fl D A) (Run fl' (D ++ option_list r) A).

Definition run_init (init max_holes : Z) : run :=
  Run (ucs_frag_list_init (u16 init) max_holes) [] [].

Definition run_stored (r : run) : list E :=
  r_delivered r ++ ready_list (r_list r) ++ buffered (holes (r_list r)).

Record run_inv (init : Z) (r : run) : Prop := RunInv {
  ri_inv : inv (run_head init r) (r_list r);
  ri_order : SN <$> r_delivered r = seqZ (init + 1) (Z.of_nat (length (r_delivered r)));
  ri_perm : r_accepted r ≡ₚ run_stored r
}.

Lemma init_inv init max_holes : inv init (ucs_frag_list_init (u16 init) max_holes).
Proof. by split. Qed.

Lemma order_snoc init D e : SN <$> D = seqZ (init + 1) (Z.of_nat (length D)) ->
  SN e = init + Z.of_nat (length D) + 1 ->
  SN <$> (D ++ [e]) = seqZ (init + 1) (Z.of_nat (length (D ++ [e]))).
Proof.
  intros HD He. rewrite fmap_app, HD, length_app, Nat2Z.inj_add, seqZ_app by lia.
  f_equal. change (Z.of_nat (length [e])) with 1. rewrite seqZ_cons by lia. simpl. f_equal. lia.
Qed.

Lemma in_order_prefix_split h b e p b' : in_order_prefix h b = (e :: p, b') ->
  SN e = h + 1 /\ b = e :: p ++ b'.
Proof.
  assert (forall b h p b', in_order_prefix h b = (p, b') -> b = p ++ b') as Hsp.
  { clear. induction b as [|x b IH]; intros h p b'; unfold in_order_prefix; fold in_order_prefix.
    - by intros [= <- <-].
    - case_match; [|by intros [= <- <-]]. destruct (in_order_prefix (h + 1) b) as [p0 r0] eqn:E0.
      intros [= <- <-]. simpl. f_equal. by eapply IH. }
  intros Hp. split; [|by apply Hsp in Hp].
  destruct b as [|x b]; unfold in_order_prefix in Hp; fold in_order_prefix in Hp; [done|].
  destruct (Z.eqb_spec (SN x) (h + 1)); [|done].
  destruct (in_order_prefix (h + 1) b). by simplify_eq.
Qed.

Lemma step_insert_inv init fl D A e t fl' :
  run_inv init (Run fl D A) -> insert_pre (run_head init (Run fl D A)) fl e ->
  ucs_frag_list_insert fl e (u16 (SN e)) = (t, fl') ->
  run_inv init (Run fl' (D ++ if delivered_now t then [e] else []) (A ++ if accepted t then [e] else [])).
Proof.
  intros [Hinv Hord Hperm] Hpre Hins.
  pose proof (insert_refines_lemma _ _ _ Hinv Hpre) as Href.
  set (hd := run_head init _) in *. simpl in *. rewrite Hins in Href. unfold run_stored in *. simpl in *.
  unfold refines, spec_insert, abs in Href. simpl in Href.
  destruct ((SN e <=? hd) || has_sn (SN e) (buffered (holes fl))).
  { destruct Href as (-> & [= Hr Hb] & Hi). simpl in *. rewrite !app_nil_r.
    split; unfold run_head, run_stored; simpl; rewrite ?Hr, ?Hb; done. }
  destruct (Z.eqb_spec (SN e) (hd + 1)) as [E1|E1].
  { pose proof (ip_drained _ _ _ Hpre E1) as Hrd.
    destruct Href as (Ht & [= Hr Hb] & Hi). simpl in Ht, Hi.
    assert (delivered_now t = true /\ accepted t = true) as [-> ->] by (subst t; by case_match).
    assert (hd = init + Z.of_nat (length D)) as Ehd
      by (unfold hd, run_head; simpl; rewrite Hrd; simpl; lia).
    split; unfold run_head, run_stored; simpl; rewrite ?Hr, ?Hb, ?Hrd; simpl.
    - rewrite length_app. simpl. replace (init + _ + _) with (hd + 1) by lia. done.
    - apply order_snoc; [done|lia].
    - rewrite Hperm, Hrd. simpl. solve_Permutation. }
  destruct (max_holes fl =? 0).
  { destruct Href as (-> & [= Hr Hb] & Hi). simpl in *. rewrite !app_nil_r.
    split; unfold run_head, run_stored; simpl; rewrite ?Hr, ?Hb; done. }
  destruct Href as (-> & [= Hr Hb] & Hi). simpl in *. rewrite app_nil_r.
  split; unfold run_head, run_stored; simpl; rewrite ?Hr, ?Hb; [done|done|].
  rewrite Hperm, insert_sorted_perm. solve_Permutation.
Qed.

Lemma step_pull_inv init fl D A r fl' :
  run_inv init (Run fl D A) -> ucs_frag_list_pull fl = (r, fl') ->
  run_inv init (Run fl' (D ++ option_list r) A).
Proof.
  intros [Hinv Hord Hperm] Hpull.
  pose proof (pull_refines_lemma _ _ Hinv) as Href. simpl in *. rewrite Hpull in Href.
  set (hd := run_head init _) in *. unfold refines, spec_pull, abs, run_stored in *. simpl in *.
  destruct (ready_list fl) as [|x xs] eqn:Hrd.
  + destruct (in_order_prefix hd (buffered (holes fl))) as [[|x p] b'] eqn:Hp; simpl in Href.
    { destruct Href as (-> & [= Hr Hb] & Hi). simpl. rewrite app_nil_r.
      split; unfold run_head, run_stored; simpl; rewrite ?Hr, ?Hb; simpl; try done.
      unfold hd, run_head in Hi. simpl in Hi. by rewrite Hrd in Hi. }
    destruct (in_order_prefix_split _ _ _ _ _ Hp) as [Hx Hsplit].
    destruct Href as (-> & [= Hr Hb] & Hi). simpl in *.
    assert (hd = init + Z.of_nat (length D)) as Ehd
      by (unfold hd, run_head; simpl; rewrite Hrd; simpl; lia).
    split; unfold run_head, run_stored; simpl; rewrite ?Hr, ?Hb.
    * rewrite length_app. simpl. replace (init + _ + _) with (hd + Z.of_nat (length p) + 1) by lia. done.
    * apply order_snoc; [done|lia].
    * by rewrite Hperm, Hsplit, <- app_assoc.
  + destruct Href as (-> & [= Hr Hb] & Hi). simpl in *.
    pose proof (inv_ready _ _ Hinv) as Hrdy. simpl in Hrdy. rewrite Hrd in Hrdy.
    rewrite fmap_cons, seqZ_cons in Hrdy by (simpl; lia). injection Hrdy as Hx _.
    assert (hd = init + Z.of_nat (length D) + Z.of_nat (length (x :: xs))) as Ehd
      by (unfold hd, run_head; simpl; by rewrite Hrd).
    split; unfold run_head, run_stored; simpl; rewrite ?Hr, ?Hb.
    * rewrite length_app. simpl in *. replace (init + _ + _) with hd by lia. done.
    * apply order_snoc; [done|]. fold hd in Hx. simpl in *. lia.
    * by rewrite Hperm, <- app_assoc.
Qed.

Lemma run_steps_inv init max_holes r : rtc (step init) (run_init init max_holes) r -> run_inv init r.
Proof.
  intros Hr. remember (run_init init max_holes) as r0 eqn:E0.
  assert (run_inv init r0) as Hi.
  { subst r0. split; unfold run_head; simpl; [|done|done]. rewrite !Z.add_0_r. apply init_inv. }
  clear E0. induction Hr as [|r1 r2 r3 Hs _ IH]; [done|]. apply IH.
  destruct Hs; [by eapply step_insert_inv|by eapply step_pull_inv].
Qed.

Lemma chain_nodup lo hi l : chain lo hi l -> NoDup (SN <$> buffered l).
Proof.
  revert lo. induction l as [|h l IH]; intros lo; [constructor|]. intros (_ & _ & Hh & Hc).
  rewrite buffered_cons, fmap_app, hole_elems_sn by done. apply NoDup_app. split_and!.
  - apply NoDup_seqZ.
  - intros n [? ?]%elem_of_seqZ (x & -> & Hx)%list_elem_of_fmap.
    pose proof (chain_range _ _ _ _ Hc Hx). unfold h_last, h_first in *. lia.
  - by eapply IH.
Qed.

Lemma run_stored_nodup init r : run_inv init r -> NoDup (SN <$> run_stored r).
Proof.
  intros [Hi Ho _]. unfold run_stored. rewrite app_assoc, fmap_app, fmap_app, Ho, (inv_ready _ _ Hi).
  set (n := length (ready_list (r_list r))). set (d := length (r_delivered r)).
  replace (run_head init r - Z.of_nat n + 1) with (init + 1 + Z.of_nat d) by (unfold run_head; lia).
  rewrite <- seqZ_app by lia. apply NoDup_app. split_and!.
  - apply NoDup_seqZ.
  - intros m [? ?]%elem_of_seqZ (x & -> & Hx)%list_elem_of_fmap.
    pose proof (chain_range _ _ _ _ (inv_holes _ _ Hi) Hx). unfold run_head in *. lia.
  - eapply chain_nodup, Hi.
Qed.

(** When nothing can be pulled, the next number has not been accepted. *)
Lemma pull_none_next init r :
  run_inv init r -> (ucs_frag_list_pull (r_list r)).1 = None ->
  has_sn (init + Z.of_nat (length (r_delivered r)) + 1) (r_accepted r) = false.
Proof.
  intros Hr Hp. pose proof (ri_inv _ _ Hr) as Hi. pose proof (pull_refines_lemma _ _ Hi) as (H1 & _).
  rewrite Hp in H1. unfold spec_pull, abs in H1.
  destruct (ready_list (r_list r)) as [|x xs] eqn:Hrd; [|done].
  assert (run_head init r = init + Z.of_nat (length (r_delivered r))) as Eh
    by (unfold run_head; rewrite Hrd; simpl; lia).
  rewrite <- Eh. apply has_sn_false. intros x Hx Esn.
  rewrite (ri_perm _ _ Hr) in Hx. unfold run_stored in Hx. rewrite Hrd in Hx. simpl in Hx.
  apply elem_of_app in Hx as [Hx|Hx].
  { apply (list_elem_of_fmap_2 SN) in Hx. rewrite (ri_order _ _ Hr) in Hx.
    apply elem_of_seqZ in Hx. lia. }
  destruct (holes (r_list r)) as [|h l] eqn:Hh; [by apply not_elem_of_nil in Hx|].
  pose proof (inv_holes _ _ Hi) as Hc. rewrite Hh in Hc. pose proof Hc as (? & _ & Hok & Hc').
  assert (has_sn (run_head init r + 1) (buffered (h :: l)) = true) as Hhas by (apply has_sn_true; eauto).
  rewrite (chain_first _ _ _ _ _ Hc) in Hhas by lia. apply Z.eqb_eq in Hhas.
  destruct (in_order_prefix_head (run_head init r) (h_elem h) (h_list h ++ buffered l)) as (p & b & Ep);
    [unfold h_first in *; lia|].
  rewrite buffered_cons in H1. unfold hole_elems in H1. simpl in H1. by rewrite Ep in H1.
Qed.

End spec.

(** ** Properties *)

(** [ucs_frag_list_insert] implements the reordering buffer: with the packet
    inside the window, the gap at the wrap-around point excluded and the ready
    list drained before in-order packets, it returns the type the specification
    gives (old and stored packets are duplicates, the next one is delivered,
    later ones are stored in order or refused) and the new list represents the
    specified state and satisfies the invariant. *)
Theorem frag_list_insert_refines {E} (SN : E -> Z) head fl e :
  inv SN head fl -> insert_pre SN head fl e ->
  refines SN (ucs_frag_list_insert fl e (u16 (SN e)))
    (spec_insert SN (max_holes fl =? 0) e (abs head fl)).
Proof. apply insert_refines_lemma. Qed.

(** [ucs_frag_list_pull] implements the abstract extraction: it returns the
    first ready element, else it moves the longest run of stored elements which
    follows the head to the ready list, and keeps the invariant. *)
Theorem frag_list_pull_refines {E} (SN : E -> Z) head fl :
  inv SN head fl -> refines SN (ucs_frag_list_pull fl) (spec_pull SN (abs head fl)).
Proof. apply pull_refines_lemma. Qed.

(** C1: a run of inserts and pulls, in which each inserted number is less than half
    the range away from the last one delivered in order, no insert closes the gap
    between two holes at the wrap-around (number 65535, see [frag_list_wrap_gap])
    and the next number in order is only inserted when the ready list was pulled
    empty, delivers exactly the numbers after the initial one, in order and
    without gap; no number is accepted twice; no accepted packet is lost; when
    [pull] returns [NULL] the next number has not arrived; and the next insert
    within half the range fails no assertion. *)
Theorem frag_list_in_order {E} (SN : E -> Z) init max_holes r :
  rtc (step SN init) (run_init init max_holes) r ->
  SN <$> r_delivered r = seqZ (init + 1) (Z.of_nat (length (r_delivered r))) /\
  NoDup (SN <$> r_accepted r) /\
  r_accepted r ≡ₚ run_stored r /\
  ((ucs_frag_list_pull (r_list r)).1 = None ->
   has_sn SN (init + Z.of_nat (length (r_delivered r)) + 1) (r_accepted r) = false) /\
  (forall n, run_head init r - half < n < run_head init r + half -> ucs_frag_list_insert_asserts (r_list r) (u16 n) = true).
Proof.
  intros Hr%run_steps_inv. split_and!.
  - apply Hr.
  - rewrite (ri_perm _ _ _ Hr). by eapply run_stored_nodup.
  - apply Hr.
  - by apply pull_none_next.
  - intros n Hn. eapply insert_asserts_ok; [apply Hr|done].
Qed.

(** The two holes around the missing number, before and after it arrived. *)
Lemma wrap_gap_chain {E} (SN : E -> Z) head fl l1 h1 h2 l2 e : inv SN head fl -> holes fl = l1 ++ h1 :: h2 :: l2 ->
  SN e = h_last SN h1 + 1 -> h_first SN h2 = SN e + 1 ->
  chain SN head (head + half) (l1 ++ [h1]) /\ chain SN head (head + half) (l1 ++ [frag_list_add_tail h1 e]) /\ hole_ok SN h2 /\
  SN e + 1 < head + half.
Proof.
  intros Hinv Hfl He H2. pose proof (inv_holes _ _ _ Hinv) as Hch. rewrite Hfl in Hch. clear Hinv Hfl.
  revert Hch. generalize head at 1 3 5. induction l1 as [|h0 l1 IH]; intros lo; cbn [app chain].
  - intros (A1 & A2 & A3 & A4 & A5 & A6 & _). assert (h_last SN (frag_list_add_tail h1 e) = SN e) as El.
    { unfold h_last in *. cbn. rewrite length_app. cbn. lia. }
    assert (h_first SN h2 <= h_last SN h2) by (unfold h_first, h_last; lia).
    split_and!; try done || lia. by apply hole_ok_add_tail.
  - intros (A1 & A2 & A3 & (B1 & B2 & B3 & B4)%IH). by split_and!.
Qed.

(** Inserting the elements of [l] (element [e] with number [u16 e]), with the
    returned types. *)
Fixpoint inserts (fl : ucs_frag_list_t Z) (l : list Z)
    : list ucs_frag_list_ooo_type_t * ucs_frag_list_t Z :=
  match l with
  | [] => ([], fl)
  | e :: l =>
      let '(t, fl) := ucs_frag_list_insert fl e (u16 e) in
      let '(ts, fl) := inserts fl l in (t :: ts, fl)
  end.

Fixpoint pulls (n : nat) (fl : ucs_frag_list_t Z) : list (option Z) * ucs_frag_list_t Z :=
  match n with
  | O => ([], fl)
  | S n => let '(e, fl) := ucs_frag_list_pull fl in
           let '(es, fl) := pulls n fl in (e :: es, fl)
  end.

(** C40: the merge test of [insert_slow] compares [first_sn == sn + 1] as integers,
    without the wrap-around.  In every list in which the number 65535 (mod 2^16)
    is the only one missing between two holes, inserting it leaves the two holes
    apart, and then a duplicate of the first number of the second hole is accepted
    as new: the list holds that number twice. *)
Theorem frag_list_wrap_gap {E} (SN : E -> Z) head fl l1 h1 h2 l2 e d :
  inv SN head fl -> holes fl = l1 ++ h1 :: h2 :: l2 -> SN e = h_last SN h1 + 1 -> h_first SN h2 = SN e + 1 ->
  u16 (SN e) = 65535 -> SN d = h_first SN h2 ->
  exists fl1 fl2, ucs_frag_list_insert fl e (u16 (SN e)) = (UCS_FRAG_LIST_INSERT_SLOW, fl1) /\
    holes fl1 = l1 ++ frag_list_add_tail h1 e :: h2 :: l2 /\
    ucs_frag_list_insert fl1 d (u16 (SN d)) = (UCS_FRAG_LIST_INSERT_SLOW, fl2) /\
    buffered (holes fl2) = buffered l1 ++ hole_elems h1 ++ [e; d] ++ buffered (h2 :: l2) /\
    ~ NoDup (SN <$> buffered (holes fl2)).
Proof.
  intros Hinv Hfl He H2 Hw Hd.
  assert (max_holes fl <> 0) as Hm by (intros [E0 _]%(inv_max _ _ _ Hinv); rewrite Hfl in E0; by destruct l1).
  destruct (wrap_gap_chain SN head fl l1 h1 h2 l2 e Hinv Hfl He H2) as (C1 & C2 & Hok & Hlt).
  assert (first_sn h2 = 0) as F2.
  { rewrite (ho_first _ _ Hok), H2. unfold u_wrap in *. change (2 ^ 16) with 65536 in *. Z.div_mod_to_equations. lia. }
  pose proof (insert_tail_apart SN head fl l1 h1 h2 l2 e (inv_head _ _ _ Hinv) Hm Hfl C1 He ltac:(lia) ltac:(lia)) as E1.
  assert (h_last SN (frag_list_add_tail h1 e) = SN e) as El.
  { unfold h_last in *. cbn. rewrite length_app. cbn. lia. }
  set (fl1 := add_elem_count 1 _) in E1.
  assert (u16 (SN d) = 0) as Ud by (rewrite Hd, <- (ho_first _ _ Hok); done).
  pose proof (insert_tail_apart SN head fl1 l1 (frag_list_add_tail h1 e) h2 l2 d (inv_head _ _ _ Hinv) Hm eq_refl C2
    ltac:(lia) ltac:(lia) ltac:(lia)) as E2.
  eexists fl1, _. split; [exact E1|]. split; [done|]. split; [exact E2|].
  assert (buffered (holes (add_elem_count 1 (set_holes (l1 ++ frag_list_add_tail (frag_list_add_tail h1 e) d :: h2 :: l2) fl1))) =
    buffered l1 ++ hole_elems h1 ++ [e; d] ++ buffered (h2 :: l2)) as Eb.
  { cbn [holes add_elem_count set_holes]. unfold buffered. rewrite flat_map_app. cbn. by rewrite <- !app_assoc. }
  split; [exact Eb|]. rewrite Eb. rewrite !fmap_app. intros (_ & _ & (_ & _ & (_ & Hx & _)%NoDup_app)%NoDup_app)%NoDup_app.
  apply (Hx (SN d)); [cbn; right; by left|]. rewrite Hd. unfold buffered. cbn. by left.
Qed.

(** The example: after 65534, 65536 and 65535 the holes 65534..65535 and 65536 stay
    apart, the duplicate of 65536 is accepted, and once the missing 65533 arrived
    and the list was pulled empty, the list is stuck: the next number 65537 is
    rejected as a duplicate whatever element carries it, and nothing can be
    pulled. *)
Example frag_list_wrap_stall :
  let '(ts, fl1) := inserts (ucs_frag_list_init 65532 (-1)) [65534; 65536; 65535; 65536; 65533] in
  let '(es, fl) := pulls 4 fl1 in
  ts = [UCS_FRAG_LIST_INSERT_SLOW; UCS_FRAG_LIST_INSERT_SLOW; UCS_FRAG_LIST_INSERT_SLOW;
        UCS_FRAG_LIST_INSERT_SLOW; UCS_FRAG_LIST_INSERT_FIRST] /\
  es = [Some 65534; Some 65535; Some 65536; None] /\
  (forall e, ucs_frag_list_insert fl e (u16 65537) = (UCS_FRAG_LIST_INSERT_DUP, fl)) /\
  ucs_frag_list_pull fl = (None, fl).
Proof. vm_compute. by split_and!. Qed.

(** A packet inserted while the ready list is not empty ([INSERT_READY]) is not
    counted in [elem_count], so after the next pull the fast path takes the list
    for empty and delivers packet 5 before packet 4. *)
Theorem frag_list_ready_reorder :
  let '(ts1, fl1) := inserts (ucs_frag_list_init 0 (-1)) [2; 3; 1] in
  let '(es1, fl2) := pulls 1 fl1 in
  let '(ts2, fl3) := inserts fl2 [4] in
  let '(es2, fl4) := pulls 1 fl3 in
  let '(ts3, fl5) := inserts fl4 [5] in
  let '(es3, fl6) := pulls 1 fl5 in
  ts1 = [UCS_FRAG_LIST_INSERT_SLOW; UCS_FRAG_LIST_INSERT_SLOW; UCS_FRAG_LIST_INSERT_FIRST] /\
  es1 = [Some 2] /\ ts2 = [UCS_FRAG_LIST_INSERT_READY] /\ es2 = [Some 3] /\
  ts3 = [UCS_FRAG_LIST_INSERT_FAST] /\ es3 = [Some 4] /\
  elem_count fl6 = 2 ^ 32 - 1.
Proof. vm_compute. by split_and!. Qed.

(** *** Witnesses *)

Definition fl_wit : ucs_frag_list_t Z := FragList [Hole 2 2 3 [3]; Hole 5 5 5 []] [] 0 3 2 (-1).

Lemma fl_wit_inv : inv (fun x => x) 0 fl_wit.
Proof. split; vm_compute; done. Qed.

Lemma frag_list_insert_refines_witness :
  refines (fun x => x) (ucs_frag_list_insert fl_wit 4 (u16 4))
    (spec_insert (fun x => x) false 4 (abs 0 fl_wit)).
Proof.
  apply (frag_list_insert_refines (fun x => x) 0 fl_wit 4); [exact fl_wit_inv|].
  split; vm_compute; [done| |done]. by intros [[_ [_ ?]]|?].
Defined.

Lemma frag_list_pull_refines_witness :
  refines (fun x => x) (ucs_frag_list_pull fl_wit) (spec_pull (fun x => x) (abs 0 fl_wit)).
Proof. apply (frag_list_pull_refines (fun x => x) 0 fl_wit fl_wit_inv). Defined.

(** 65535 closes the gap between 65534 and 65536. *)
Lemma frag_list_wrap_gap_witness :
  let fl := FragList [Hole 65534 65534 65534 []; Hole 65536 0 0 []] [] 65532 2 2 (-1) in
  (inserts (ucs_frag_list_init 65532 (-1)) [65534; 65536]).2 = fl /\
  exists fl1 fl2, ucs_frag_list_insert fl 65535 (u16 65535) = (UCS_FRAG_LIST_INSERT_SLOW, fl1) /\
    ucs_frag_list_insert fl1 65536 (u16 65536) = (UCS_FRAG_LIST_INSERT_SLOW, fl2) /\ ~ NoDup ((fun x => x) <$> buffered (holes fl2)).
Proof.
  split; [vm_compute; reflexivity|].
  destruct (frag_list_wrap_gap (fun x => x) 65532 (FragList [Hole 65534 65534 65534 []; Hole 65536 0 0 []] [] 65532 2 2 (-1))
    [] (Hole 65534 65534 65534 []) (Hole 65536 0 0 []) [] 65535 65536) as (fl1 & fl2 & E1 & _ & E2 & _ & Hd).
  - split; vm_compute; done.
  - reflexivity.
  - reflexivity.
  - reflexivity.
  - reflexivity.
  - reflexivity.
  - exists fl1, fl2. split; [exact E1|]. split; [exact E2|exact Hd].
Defined.

Lemma frag_list_in_order_witness :
  exists r, r_delivered r = [1; 2] /\
  (fun x : Z => x) <$> r_delivered r = seqZ (0 + 1) (Z.of_nat (length (r_delivered r))).
Proof.
  eexists (Run _ _ _). split; [|eapply (frag_list_in_order (fun x => x) 0 (-1))].
  2: { eapply rtc_l.
       { eapply (StepInsert _ _ _ _ _ 2); [|vm_compute; reflexivity]. split; vm_compute; done. }
       eapply rtc_l.
       { eapply (StepInsert _ _ _ _ _ 1); [|vm_compute; reflexivity]. split; vm_compute; done. }
       eapply rtc_l; [|apply rtc_refl]. eapply StepPull. vm_compute. reflexivity. }
  reflexivity.
Defined.

End FragList.
