(* ===== verification/PtrArray.v ===== *)
(** Sparse pointer array of [ucs/datastruct/ptr_array.[ch]].

    Each slot is a 64-bit word: a user pointer with bit 0 clear, or a free slot
    with bit 0 set, the index of the next free slot in bits 1..31 and in the upper
    32 bits the number of free slots ahead, which lets the iteration skip them.
    The model keeps the words, so the free list and the skip counts are the bits
    of the array.  [None] is a failed assertion or an access outside the array;
    the theorems show that a well-formed array never gets there.

    [pa_ok] is the representation invariant and [used] the abstract view: the
    value of each occupied index.  Every operation preserves the first and
    implements the corresponding map operation on the second, and the iteration
    visits exactly the occupied slots. *)

From S2P Require Import Prelude.

Module PtrArray.

Definition FLAG_FREE : Z := 1.
Definition FREE_AHEAD_SHIFT : Z := 32.
Definition NEXT_SHIFT : Z := 1.
Definition NEXT_MASK : Z :=
  Z.land (UCS_MASK FREE_AHEAD_SHIFT) (u64 (Z.lnot (UCS_MASK NEXT_SHIFT))).
Definition SENTINEL : Z := Z.shiftr NEXT_MASK NEXT_SHIFT.

Record ucs_ptr_array_t := PtrArray {
  start : list Z;
  freelist : Z;
  size : Z;
  count : Z
}.

Definition set_start (a : list Z) (pa : ucs_ptr_array_t) : ucs_ptr_array_t :=
  PtrArray a (freelist pa) (size pa) (count pa).
Definition set_freelist (i : Z) (pa : ucs_ptr_array_t) : ucs_ptr_array_t :=
  PtrArray (start pa) i (size pa) (count pa).
Definition add_count (d : Z) (pa : ucs_ptr_array_t) : ucs_ptr_array_t :=
  PtrArray (start pa) (freelist pa) (size pa) (u32 (count pa + d)).

(** [__ucs_ptr_array_is_free] *)
Definition elem_is_free (elem : Z) : bool := negb (Z.land elem FLAG_FREE =? 0).

#[local] Arguments elem_is_free : simpl never.

Definition ucs_ptr_array_is_free (pa : ucs_ptr_array_t) (element_index : Z) : bool :=
  (element_index <? size pa) &&
  match start pa !! Z.to_nat element_index with
  | Some e => elem_is_free e
  | None => false
  end.

Definition ucs_ptr_array_size_free_get_free_ahead (elem : Z) : Z :=
  u32 (Z.shiftr elem FREE_AHEAD_SHIFT).

(** The assertion that [elem] is free is made by the callers below, and the one that
    a new [next] is in range where the value does not come out of an element. *)
Definition ucs_ptr_array_freelist_get_next (elem : Z) : Z :=
  Z.shiftr (Z.land elem NEXT_MASK) NEXT_SHIFT.

Definition ucs_ptr_array_freelist_set_next (elem next : Z) : Z :=
  Z.lor (Z.land elem (u64 (Z.lnot NEXT_MASK))) (u64 (Z.shiftl next NEXT_SHIFT)).

Definition ucs_ptr_array_freelist_element_set (free_ahead next : Z) : Z :=
  Z.lor (Z.lor FLAG_FREE (u64 (Z.shiftl free_ahead FREE_AHEAD_SHIFT)))
        (u64 (Z.shiftl next NEXT_SHIFT)).

Definition ucs_ptr_array_freelist_element_set_free_ahead (elem free_ahead : Z) : Z :=
  ucs_ptr_array_freelist_element_set free_ahead (ucs_ptr_array_freelist_get_next elem).

Definition ucs_ptr_array_clear : ucs_ptr_array_t := PtrArray [] SENTINEL 0 0.

Definition ucs_ptr_array_init : ucs_ptr_array_t := ucs_ptr_array_clear.

(** The indices reported as leaked, and the cleared array. *)
Definition ucs_ptr_array_cleanup (leak_check : bool) (pa : ucs_ptr_array_t)
    : list Z * ucs_ptr_array_t :=
  (if leak_check && (0 <? count pa)
   then List.filter (fun i => negb (ucs_ptr_array_is_free pa i)) (seqZ 0 (size pa))
   else [],
   ucs_ptr_array_clear).

(** The new items [curr_size .. new_size - 1], the last one linked to the sentinel. *)
Definition grow_items (curr_size new_size : Z) : list Z :=
  (fun i => ucs_ptr_array_freelist_element_set (u32 (new_size - i)) (u32 (i + 1)))
    <$> seqZ curr_size (new_size - curr_size).

(** Index of the last element of the free list which starts at [next]. *)
Fixpoint freelist_last (fuel : nat) (a : list Z) (next : Z) : option Z :=
  match fuel with
  | O => None
  | S fuel =>
      e ← a !! Z.to_nat next;
      _ ← assert (elem_is_free e);
      let next' := ucs_ptr_array_freelist_get_next e in
      if next' =? SENTINEL then Some next else freelist_last fuel a next'
  end.

Definition set_cell (i v : Z) (a : list Z) : option (list Z) :=
  if decide (Z.to_nat i < length a)%nat then Some (<[Z.to_nat i := v]> a) else None.

(** The first assertion is that of [ucs_ptr_array_freelist_element_set] for the last of
    the new items, the one with the largest [next]. *)
Definition ucs_ptr_array_grow (pa : ucs_ptr_array_t) (new_size : Z) : option ucs_ptr_array_t :=
  let curr_size := size pa in
  _ ← assert ((new_size <=? curr_size) || (new_size <=? NEXT_MASK));
  let new_array := start pa ++ grow_items curr_size new_size in
  last ← new_array !! Z.to_nat (new_size - 1);
  new_array ← set_cell (new_size - 1) (ucs_ptr_array_freelist_set_next last SENTINEL) new_array;
  if freelist pa =? SENTINEL
  then Some (PtrArray new_array curr_size new_size (count pa))
  else
    i ← freelist_last (length new_array) new_array (freelist pa);
    e ← new_array !! Z.to_nat i;
    _ ← assert (curr_size <=? NEXT_MASK);
    new_array ← set_cell i (ucs_ptr_array_freelist_set_next e curr_size) new_array;
    Some (PtrArray new_array (freelist pa) new_size (count pa)).

(** The free-list element whose next is [element_index], from [free_iter]. *)
Fixpoint freelist_prev (fuel : nat) (a : list Z) (free_iter element_index : Z) : option Z :=
  match fuel with
  | O => None
  | S fuel =>
      e ← a !! Z.to_nat free_iter;
      _ ← assert (elem_is_free e);
      let next := ucs_ptr_array_freelist_get_next e in
      if element_index =? next then Some free_iter
      else if next =? SENTINEL then None
      else freelist_prev fuel a next element_index
  end.

(** Update the free-ahead counts of the free cells right below index [n]. *)
Fixpoint update_free_ahead (n : nat) (free_ahead : Z) (a : list Z) : list Z :=
  match n with
  | O => a
  | S m =>
      match a !! m with
      | Some e =>
          if elem_is_free e
          then update_free_ahead m (u32 (free_ahead + 1))
                 (<[m := ucs_ptr_array_freelist_element_set_free_ahead e free_ahead]> a)
          else a
      | None => a
      end
  end.

(** [ucs_ptr_array_set] after the optional grow: the slot is free. *)
Definition ptr_array_take (pa : ucs_ptr_array_t) (element_index new_val : Z)
    : option ucs_ptr_array_t :=
  e ← start pa !! Z.to_nat element_index;
  _ ← assert (elem_is_free e);
  let next := ucs_ptr_array_freelist_get_next e in
  a ← set_cell element_index new_val (start pa);
  let pa := add_count 1 (set_start a pa) in
  pa ← (if freelist pa =? element_index then Some (set_freelist next pa)
        else
          free_iter ← freelist_prev (length a) a (freelist pa) element_index;
          e ← a !! Z.to_nat free_iter;
          a ← set_cell free_iter (ucs_ptr_array_freelist_set_next e next) a;
          Some (set_start a pa));
  Some (set_start (update_free_ahead (Z.to_nat element_index) 1 (start pa)) pa).

Definition ucs_ptr_array_set (pa : ucs_ptr_array_t) (element_index new_val : Z)
    : option ucs_ptr_array_t :=
  if elem_is_free new_val then None
  else if size pa <=? element_index
  then
    let new_size := Z.max (u32 (size pa * 2)) (u32 (element_index + 1)) in
    pa ← ucs_ptr_array_grow pa new_size;
    ptr_array_take pa element_index new_val
  else
    e ← start pa !! Z.to_nat element_index;
    if negb (elem_is_free e)
    then a ← set_cell element_index new_val (start pa); Some (set_start a pa)
    else ptr_array_take pa element_index new_val.

(** The inner loop of [bulk_alloc]: how many of [element_count] slots from
    [element_index] are free, the first [free_iter] being known. *)
Fixpoint count_free (fuel : nat) (pa : ucs_ptr_array_t) (element_index element_count free_iter : Z) : Z :=
  match fuel with
  | O => free_iter
  | S fuel =>
      if (free_iter <? element_count) && ucs_ptr_array_is_free pa (u32 (element_index + free_iter))
      then count_free fuel pa element_index element_count (u32 (free_iter + 1))
      else free_iter
  end.

(** The outer loop: the first free-list index with enough free slots after it;
    the inner [None] is the end of the free list. *)
Fixpoint find_run (fuel : nat) (pa : ucs_ptr_array_t) (element_index element_count : Z)
    : option (option Z) :=
  match fuel with
  | O => None
  | S fuel =>
      if count_free (Z.to_nat element_count) pa element_index element_count 1 =? element_count
      then Some (Some element_index)
      else
        e ← start pa !! Z.to_nat element_index;
        _ ← assert (elem_is_free (u32 e));
        let next := ucs_ptr_array_freelist_get_next (u32 e) in
        if next =? SENTINEL then Some None else find_run fuel pa next element_count
  end.

(** Set [n] slots from [element_index] to zero. *)
Fixpoint set_zero (n : nat) (pa : ucs_ptr_array_t) (element_index : Z) : option ucs_ptr_array_t :=
  match n with
  | O => Some pa
  | S n =>
      pa ← ucs_ptr_array_set pa element_index 0;
      set_zero n pa (u32 (element_index + 1))
  end.

Definition ucs_ptr_array_bulk_alloc (pa : ucs_ptr_array_t) (element_count : Z)
    : option (Z * ucs_ptr_array_t) :=
  if element_count =? 0 then Some (0, pa)
  else
    r ← (if freelist pa =? SENTINEL then Some None
         else find_run (length (start pa)) pa (freelist pa) element_count);
    '(element_index, pa) ←
      match r with
      | Some i => Some (i, pa)
      | None =>
          let new_size := Z.max (u32 (2 * size pa)) (u32 (size pa + element_count)) in
          pa' ← ucs_ptr_array_grow pa new_size; Some (size pa, pa')
      end;
    pa ← set_zero (Z.to_nat element_count) pa element_index;
    Some (element_index, pa).

Definition ucs_ptr_array_insert (pa : ucs_ptr_array_t) (value : Z)
    : option (Z * ucs_ptr_array_t) :=
  '(ret, pa) ← ucs_ptr_array_bulk_alloc pa 1;
  if elem_is_free value then None else
  a ← set_cell ret value (start pa);
  Some (ret, set_start a pa).

Definition ucs_ptr_array_remove (pa : ucs_ptr_array_t) (element_index : Z)
    : option ucs_ptr_array_t :=
  if ucs_ptr_array_is_free pa element_index || (count pa <=? 0) then None
  else
    size_free_ahead ←
      (if ucs_ptr_array_is_free pa (u32 (element_index + 1))
       then e ← start pa !! Z.to_nat (u32 (element_index + 1));
            Some (u32 (ucs_ptr_array_size_free_get_free_ahead e + 1))
       else Some 1);
    _ ← assert (freelist pa <=? NEXT_MASK);
    a ← set_cell element_index
          (ucs_ptr_array_freelist_element_set size_free_ahead (freelist pa)) (start pa);
    e ← a !! Z.to_nat (u32 (element_index + size_free_ahead - 1));
    if negb (elem_is_free e) then None else
    Some (add_count (-1) (set_freelist element_index (set_start a pa))).

Definition ucs_ptr_array_replace (pa : ucs_ptr_array_t) (element_index new_val : Z)
    : option (Z * ucs_ptr_array_t) :=
  if ucs_ptr_array_is_free pa element_index then None
  else
    old_elem ← start pa !! Z.to_nat element_index;
    a ← set_cell element_index new_val (start pa);
    Some (old_elem, set_start a pa).

Definition ucs_ptr_array_get_elem_count (pa : ucs_ptr_array_t) : Z := count pa.

Definition ucs_ptr_array_is_empty (pa : ucs_ptr_array_t) : bool := count pa =? 0.

(** [None] when the macro returns 0, else the value stored in [_var]. *)
Definition ucs_ptr_array_lookup (pa : ucs_ptr_array_t) (index : Z) : option Z :=
  if size pa <=? index then None
  else
    e ← start pa !! Z.to_nat index;
    if elem_is_free e then None else Some e.

Definition ucs_ptr_array_for_each_get_step_size (pa : ucs_ptr_array_t) (element_index : Z)
    : option Z :=
  elem ← start pa !! Z.to_nat element_index;
  Some (if elem_is_free elem then u32 (Z.shiftr elem FREE_AHEAD_SHIFT) else 1).

(** The (index, value) pairs [ucs_ptr_array_for_each] visits from [index] on;
    [None] when the loop does not end within the fuel. *)
Fixpoint for_each_from (fuel : nat) (pa : ucs_ptr_array_t) (index : Z) : option (list (Z * Z)) :=
  match fuel with
  | O => None
  | S fuel =>
      if index <? size pa then
        var ← start pa !! Z.to_nat index;
        step ← ucs_ptr_array_for_each_get_step_size pa index;
        rest ← for_each_from fuel pa (u32 (index + step));
        Some (if elem_is_free var then rest else (index, var) :: rest)
      else Some []
  end.

Definition ucs_ptr_array_for_each (pa : ucs_ptr_array_t) : option (list (Z * Z)) :=
  for_each_from (S (length (start pa))) pa 0.

(** *** Operations as data, for whole-history statements *)

Inductive op : Type :=
| OInsert (value : Z)
| OBulkAlloc (element_count : Z)
| OSet (element_index : nat) (new_val : Z)
| ORemove (element_index : nat)
| OReplace (element_index : nat) (new_val : Z)
| OLookup (element_index : nat).

Inductive result : Type :=
| RUnit
| RIndex (i : Z)
| RValue (v : Z)
| RFound (v : option Z).

Definition run_op (pa : ucs_ptr_array_t) (o : op) : option (result * ucs_ptr_array_t) :=
  match o with
  | OInsert v => '(i, pa) ← ucs_ptr_array_insert pa v; Some (RIndex i, pa)
  | OBulkAlloc n => '(i, pa) ← ucs_ptr_array_bulk_alloc pa n; Some (RIndex i, pa)
  | OSet i v => pa ← ucs_ptr_array_set pa (Z.of_nat i) v; Some (RUnit, pa)
  | ORemove i => pa ← ucs_ptr_array_remove pa (Z.of_nat i); Some (RUnit, pa)
  | OReplace i v => '(old, pa) ← ucs_ptr_array_replace pa (Z.of_nat i) v; Some (RValue old, pa)
  | OLookup i => Some (RFound (ucs_ptr_array_lookup pa (Z.of_nat i)), pa)
  end.

(** ** Words *)

(** A free slot as an arithmetic expression of its fields. *)
Definition encode (free_ahead next : Z) : Z := 1 + 2 * next + 2 ^ 32 * free_ahead.

Lemma next_mask_val : NEXT_MASK = 4294967294. Proof. reflexivity. Qed.
Lemma sentinel_val : SENTINEL = 2 ^ 31 - 1. Proof. reflexivity. Qed.

Lemma elem_is_free_odd e : elem_is_free e = Z.odd e.
Proof.
  unfold elem_is_free, FLAG_FREE. change 1 with (Z.ones 1). rewrite Z.land_ones by lia.
  change (2 ^ 1) with 2. rewrite Zmod_odd. by destruct (Z.odd e).
Qed.

Lemma get_next_div e : ucs_ptr_array_freelist_get_next e = (e / 2) mod 2 ^ 31.
Proof.
  unfold ucs_ptr_array_freelist_get_next, NEXT_SHIFT. rewrite Z.shiftr_land.
  change (Z.shiftr NEXT_MASK 1) with (Z.ones 31). rewrite Z.land_ones by lia.
  by rewrite Z.shiftr_div_pow2 by lia.
Qed.

Lemma element_set_encode fa nx : 0 <= fa < 2 ^ 32 -> 0 <= nx < 2 ^ 31 ->
  ucs_ptr_array_freelist_element_set fa nx = encode fa nx.
Proof.
  intros Hf Hn. unfold ucs_ptr_array_freelist_element_set, encode, FLAG_FREE, FREE_AHEAD_SHIFT, NEXT_SHIFT.
  rewrite !Z.shiftl_mul_pow2, !u_wrap_small by lia.
  rewrite <- Z.lor_assoc, (Z.lor_comm (fa * _)), Z.lor_assoc.
  rewrite (Z_lor_add 1 nx 1), Z_lor_add by lia. lia.
Qed.

Lemma set_next_encode fa nx n : 0 <= fa < 2 ^ 32 -> 0 <= nx < 2 ^ 31 -> 0 <= n < 2 ^ 31 ->
  ucs_ptr_array_freelist_set_next (encode fa nx) n = encode fa n.
Proof.
  intros Hf Hn Hn'. unfold ucs_ptr_array_freelist_set_next.
  change (u64 (Z.lnot NEXT_MASK)) with (Z.lor (Z.ones 1) (Z.shiftl (Z.ones 32) 32)).
  rewrite Z.land_lor_distr_r, Z_land_shiftl_r, !Z.land_ones by lia.
  rewrite Z.shiftr_div_pow2, Z.shiftl_mul_pow2 by lia.
  assert (encode fa nx mod 2 ^ 1 = 1) as ->.
  { unfold encode. Z.div_mod_to_equations. lia. }
  assert ((encode fa nx / 2 ^ 32) mod 2 ^ 32 = fa) as ->.
  { unfold encode. Z.div_mod_to_equations. lia. }
  rewrite <- (element_set_encode fa n) by lia. unfold ucs_ptr_array_freelist_element_set, FLAG_FREE.
  unfold FREE_AHEAD_SHIFT. rewrite (Z.shiftl_mul_pow2 fa), (u_wrap_small 64 (fa * _)) by lia. done.
Qed.

Lemma encode_free fa nx : elem_is_free (encode fa nx) = true.
Proof.
  rewrite elem_is_free_odd. unfold encode.
  replace (1 + _ + _) with (1 + 2 * (nx + 2 ^ 31 * fa)) by lia. by rewrite Z.odd_add_mul_2.
Qed.

Lemma encode_free_u32 fa nx : elem_is_free (u32 (encode fa nx)) = true.
Proof.
  rewrite elem_is_free_odd. unfold encode, u_wrap. rewrite Zodd_mod. apply Z.eqb_eq. Z.div_mod_to_equations. lia.
Qed.

Lemma encode_next fa nx : 0 <= nx < 2 ^ 31 -> ucs_ptr_array_freelist_get_next (encode fa nx) = nx.
Proof. intros. rewrite get_next_div. unfold encode. Z.div_mod_to_equations. lia. Qed.

Lemma encode_next_u32 fa nx : 0 <= nx < 2 ^ 31 ->
  ucs_ptr_array_freelist_get_next (u32 (encode fa nx)) = nx.
Proof. intros. rewrite get_next_div. unfold encode, u_wrap. Z.div_mod_to_equations. lia. Qed.

Lemma encode_ahead fa nx : 0 <= fa < 2 ^ 32 -> 0 <= nx < 2 ^ 31 ->
  u32 (Z.shiftr (encode fa nx) FREE_AHEAD_SHIFT) = fa.
Proof.
  intros. unfold FREE_AHEAD_SHIFT. rewrite Z.shiftr_div_pow2 by lia.
  unfold encode, u_wrap. Z.div_mod_to_equations. lia.
Qed.

(** ** Representation invariant *)

(** Slot [i] is free, with its fields. *)
Definition free_at (a : list Z) (i : nat) (fa nx : Z) : Prop :=
  a !! i = Some (encode fa nx) /\ 0 <= fa < 2 ^ 32 /\ 0 <= nx < 2 ^ 31.

Definition is_free (a : list Z) (i : nat) : Prop :=
  exists e, a !! i = Some e /\ elem_is_free e = true.

#[export] Instance is_free_dec a i : Decision (is_free a i).
Proof.
  unfold is_free. destruct (a !! i) as [e|]; [|right; by intros (? & [=] & _)].
  destruct (elem_is_free e) eqn:E; [left; by exists e|right]. intros (? & [= <-] & ?). congruence.
Defined.

(** The free list from index [first] goes through the slots [fl]. *)
Fixpoint linked (a : list Z) (first : Z) (fl : list nat) : Prop :=
  match fl with
  | [] => first = SENTINEL
  | i :: fl => first = Z.of_nat i /\ exists fa nx, free_at a i fa nx /\ linked a nx fl
  end.

(** The free-ahead count of a free slot is positive and never runs over an
    occupied slot or the end of the array. *)
Definition ahead_ok (a : list Z) : Prop :=
  forall i fa nx, free_at a i fa nx ->
    1 <= fa /\ forall k, (i <= k)%nat -> Z.of_nat k < Z.of_nat i + fa -> is_free a k.

Record pa_ok (pa : ucs_ptr_array_t) (fl : list nat) : Prop := PaOk {
  ok_size : size pa = Z.of_nat (length (start pa));
  ok_bound : size pa <= SENTINEL;
  ok_linked : linked (start pa) (freelist pa) fl;
  ok_nodup : NoDup fl;
  ok_free i : is_free (start pa) i -> i ∈ fl;
  ok_ahead : ahead_ok (start pa);
  ok_count : count pa = Z.of_nat (length (start pa)) - Z.of_nat (length fl)
}.

(** Abstract view: the value of an occupied slot. *)
Definition used (pa : ucs_ptr_array_t) (i : nat) : option Z :=
  e ← start pa !! i; if elem_is_free e then None else Some e.

Section arrays.
Implicit Types (a : list Z) (fl : list nat) (i j k : nat).

Lemma free_at_is_free a i fa nx : free_at a i fa nx -> is_free a i.
Proof. intros [H _]. eexists. split; [exact H|apply encode_free]. Qed.

Lemma is_free_lt a i : is_free a i -> (i < length a)%nat.
Proof. intros (e & H & _). by eapply lookup_lt_Some. Qed.

Lemma encode_inj fa nx fa' nx' : 0 <= nx < 2 ^ 31 -> 0 <= nx' < 2 ^ 31 ->
  encode fa nx = encode fa' nx' -> fa = fa' /\ nx = nx'.
Proof. unfold encode. lia. Qed.

Lemma linked_free a first fl i : linked a first fl -> i ∈ fl -> exists fa nx, free_at a i fa nx.
Proof.
  revert first. induction fl as [|j fl IH]; intros first; [by intros _ ?%not_elem_of_nil|].
  intros (_ & fa & nx & Hj & Hl) [->|Hi]%elem_of_cons; eauto.
Qed.

(** A free list only depends on the next fields of its slots. *)
Lemma linked_frame a a' first fl :
  (forall i fa nx, i ∈ fl -> free_at a i fa nx -> exists fa', free_at a' i fa' nx) ->
  linked a first fl -> linked a' first fl.
Proof.
  revert first. induction fl as [|j fl IH]; intros first Hf; [done|].
  intros (-> & fa & nx & Hj & Hl). split; [done|].
  destruct (Hf j fa nx) as (fa' & Hj'); [by left|done|]. exists fa', nx. split; [done|].
  apply IH; [|done]. intros i fa0 nx0 Hi. apply Hf. by right.
Qed.

Lemma free_at_insert_ne a i j v fa nx : i <> j -> free_at a j fa nx -> free_at (<[i := v]> a) j fa nx.
Proof. intros Hne [H ?]. split; [|done]. by rewrite list_lookup_insert_ne. Qed.

Lemma free_at_insert_eq a i fa nx : (i < length a)%nat -> 0 <= fa < 2 ^ 32 -> 0 <= nx < 2 ^ 31 ->
  free_at (<[i := encode fa nx]> a) i fa nx.
Proof. intros. split; [|done]. by rewrite list_lookup_insert_eq. Qed.

Lemma set_cell_some i v a : (i < length a)%nat -> set_cell (Z.of_nat i) v a = Some (<[i := v]> a).
Proof. intros. unfold set_cell. rewrite Nat2Z.id. by rewrite decide_True. Qed.

Lemma linked_app_inv a first l1 l2 : linked a first (l1 ++ l2) ->
  exists mid, linked a mid l2.
Proof.
  revert first. induction l1 as [|i l1 IH]; intros first; [by exists first|].
  intros (_ & fa & nx & _ & Hl). by eapply IH.
Qed.

Lemma linked_first a first fl : linked a first fl -> Z.of_nat (length a) <= SENTINEL ->
  (first = SENTINEL /\ fl = []) \/ (first <> SENTINEL /\ fl <> []).
Proof.
  destruct fl as [|i fl]; [by left|]. intros (-> & fa & nx & H & _) Hb. right. split; [|done].
  apply free_at_is_free, is_free_lt in H. lia.
Qed.

(** Walking the free list to the predecessor of [i], whose slot is already
    overwritten. *)
Lemma freelist_prev_spec a first l1 p i l2 v fuel :
  linked a first (l1 ++ p :: i :: l2) -> NoDup (l1 ++ p :: i :: l2) ->
  Z.of_nat (length a) <= SENTINEL -> (length l1 < fuel)%nat ->
  freelist_prev fuel (<[i := v]> a) first (Z.of_nat i) = Some (Z.of_nat p).
Proof.
  intros Hl Hnd Hb. revert first fuel Hl Hnd. induction l1 as [|j l1 IH]; intros first fuel; simpl.
  - intros (-> & fa & nx & (Hp & ? & ?) & -> & _) [Hpi _]%NoDup_cons Hf. destruct fuel; [lia|]. simpl.
    rewrite Nat2Z.id, list_lookup_insert_ne, Hp by set_solver. simpl.
    rewrite encode_free. simpl. rewrite encode_next by done. by rewrite Z.eqb_refl.
  - intros (-> & fa & nx & (Hj & ? & Hnx) & Hl) Hnd Hf. destruct fuel as [|fuel]; [lia|].
    apply NoDup_cons in Hnd as [Hji Hnd].
    simpl. rewrite Nat2Z.id, list_lookup_insert_ne, Hj by set_solver. simpl. rewrite encode_free. simpl. rewrite encode_next by done.
    rewrite (proj2 (Z.eqb_neq (Z.of_nat i) nx)).
    { destruct (linked_first _ _ _ Hl Hb) as [[_ E]|[Hs _]]; [by apply app_nil in E as [_ ?]|].
      rewrite (proj2 (Z.eqb_neq _ _)) by done. apply IH; [done|done|lia]. }
    intros E. destruct l1 as [|k l1]; simpl in Hl, Hnd; destruct Hl as (-> & _);
      apply NoDup_cons in Hnd as [Hn _]; apply Nat2Z.inj in E; set_solver.
Qed.

Lemma freelist_last_spec a first l1 p fuel :
  linked a first (l1 ++ [p]) -> (length a <= Z.to_nat SENTINEL)%nat -> (length l1 < fuel)%nat ->
  freelist_last fuel a first = Some (Z.of_nat p).
Proof.
  intros Hl Hlen. revert first fuel Hl. induction l1 as [|j l1 IH]; intros first fuel; simpl.
  - intros (-> & fa & nx & (Hp & ? & ?) & ->) Hf. destruct fuel; [lia|]. simpl.
    rewrite Nat2Z.id, Hp. simpl. rewrite encode_free. simpl. rewrite encode_next by done. by rewrite Z.eqb_refl.
  - intros (-> & fa & nx & (Hj & ? & Hnx) & Hl) Hf. destruct fuel as [|fuel]; [lia|].
    simpl. rewrite Nat2Z.id, Hj. simpl. rewrite encode_free. simpl. rewrite encode_next by done.
    rewrite (proj2 (Z.eqb_neq _ _)); [apply IH; [done|lia]|].
    destruct l1 as [|k l1]; simpl in Hl; destruct Hl as (-> & fa' & nx' & [Hk _] & _);
      apply lookup_lt_Some in Hk; lia.
Qed.

(** Unlinking slot [i]. *)
Lemma linked_unlink a first l1 p i l2 fa nx fa' nx' v :
  linked a first (l1 ++ p :: i :: l2) -> NoDup (l1 ++ p :: i :: l2) ->
  free_at a i fa nx -> free_at a p fa' nx' ->
  linked (<[p := encode fa' nx]> (<[i := v]> a)) first (l1 ++ p :: l2).
Proof.
  intros Hl Hnd Hi Hp. revert first Hl Hnd. induction l1 as [|j l1 IH]; intros first; simpl.
  - intros (-> & fa1 & nx1 & _ & -> & fa2 & nx2 & Hi2 & Hl2) Hnd.
    apply NoDup_cons in Hnd as [Hpi [Hil Hnd]%NoDup_cons].
    split; [done|]. exists fa', nx.
    assert (nx2 = nx) as ->.
    { destruct Hi as (E1 & _ & ?), Hi2 as (E2 & _ & ?). rewrite E1 in E2.
      injection E2 as E2. by apply encode_inj in E2 as [_ ->]. }
    split.
    + apply free_at_insert_eq; [|apply Hp|apply Hi]. rewrite length_insert.
      destruct Hp as [Hp _]. by eapply lookup_lt_Some.
    + eapply linked_frame; [|exact Hl2]. intros k fak nxk Hk Hfk. exists fak.
      apply free_at_insert_ne; [by set_solver|]. apply free_at_insert_ne; [by set_solver|done].
  - intros (-> & fa1 & nx1 & Hj & Hl) [Hjn Hnd]%NoDup_cons. split; [done|].
    exists fa1, nx1. split; [|by apply IH].
    apply free_at_insert_ne; [by set_solver|]. apply free_at_insert_ne; [by set_solver|done].
Qed.

(** Appending the list [l2], which starts at [first2], after the last slot [p]. *)
Lemma linked_append a first l1 p fa nx first2 l2 :
  linked a first (l1 ++ [p]) -> free_at a p fa nx -> 0 <= first2 < 2 ^ 31 ->
  linked a first2 l2 -> NoDup (l1 ++ p :: l2) ->
  linked (<[p := encode fa first2]> a) first (l1 ++ p :: l2).
Proof.
  intros Hl Hp Hf2 Hl2 Hnd. revert first Hl Hnd. induction l1 as [|j l1 IH]; intros first; simpl.
  - intros (-> & _) [Hpn Hnd]%NoDup_cons. split; [done|]. exists fa, first2. split.
    + apply free_at_insert_eq; [|apply Hp|done]. destruct Hp as [Hp _]. by eapply lookup_lt_Some.
    + eapply linked_frame; [|exact Hl2]. intros k fak nxk Hk Hfk. exists fak.
      apply free_at_insert_ne; [by set_solver|done].
  - intros (-> & fa1 & nx1 & Hj & Hl) [Hjn Hnd]%NoDup_cons. split; [done|].
    exists fa1, nx1. split; [|by apply IH]. apply free_at_insert_ne; [by set_solver|done].
Qed.

(** Every free slot has well-formed fields. *)
Definition free_wf (a : list Z) : Prop := forall i, is_free a i -> exists fa nx, free_at a i fa nx.

(** The slots [i .. n-1] are free. *)
Definition run (a : list Z) (n i : nat) : Prop := forall k, (i <= k < n)%nat -> is_free a k.

Lemma is_free_insert a i j fa nx : is_free a i -> (is_free (<[i := encode fa nx]> a) j <-> is_free a j).
Proof.
  intros Hi. pose proof (is_free_lt _ _ Hi) as Hlt. destruct (decide (i = j)) as [<-|Hne].
  - split; [done|]. intros _. eexists. rewrite list_lookup_insert_eq by done.
    split; [done|apply encode_free].
  - unfold is_free. by rewrite list_lookup_insert_ne.
Qed.

Lemma update_free_ahead_length n fa a : length (update_free_ahead n fa a) = length a.
Proof.
  revert fa a. induction n as [|n IH]; intros fa a; simpl; [done|].
  repeat case_match; try done. by rewrite IH, length_insert.
Qed.

Lemma update_free_ahead_spec n fa0 a i :
  free_wf a -> 1 <= fa0 -> fa0 + Z.of_nat n < 2 ^ 32 ->
  let a' := update_free_ahead n fa0 a in
  (a' !! i = a !! i /\ ~ ((i < n)%nat /\ run a n i)) \/
  ((i < n)%nat /\ run a n i /\
   forall fa nx, free_at a i fa nx -> free_at a' i (fa0 + (Z.of_nat n - 1 - Z.of_nat i)) nx).
Proof.
  revert fa0 a. induction n as [|n IH]; intros fa0 a Hwf Hfa Hb; simpl; [left; split; [done|lia]|].
  assert (~ is_free a n -> update_free_ahead (S n) fa0 a = a) as Hstop.
  { intros Hn. simpl. destruct (a !! n) as [e|] eqn:E; [|done].
    destruct (elem_is_free e) eqn:Ef; [|done]. exfalso. apply Hn. by exists e. }
  destruct (decide (is_free a n)) as [(e & E & Ef)|Hn]; last first.
  { simpl in Hstop. rewrite Hstop by done. left. split; [done|]. intros [Hi Hr]. apply Hn, Hr. lia. }
  rewrite E, Ef. destruct (Hwf n) as (fan & nxn & Hfn); [by exists e|].
  assert (e = encode fan nxn) as -> by (destruct Hfn as [E' _]; congruence).
  unfold ucs_ptr_array_freelist_element_set_free_ahead.
  rewrite encode_next, element_set_encode by (lia || apply Hfn). rewrite u_wrap_small by lia.
  set (a1 := <[n := encode fa0 nxn]> a).
  assert (is_free a n) as Hfree by (by eexists).
  assert (forall j, is_free a1 j <-> is_free a j) as Hiff by (intros; by apply is_free_insert).
  assert (free_wf a1) as Hwf1.
  { intros j Hj. apply Hiff in Hj. destruct (decide (n = j)) as [<-|Hne].
    - exists fa0, nxn. apply free_at_insert_eq; [by apply is_free_lt|lia|apply Hfn].
    - destruct (Hwf j Hj) as (fa & nx & ?). exists fa, nx. by apply free_at_insert_ne. }
  assert (forall m j, run a1 m j <-> run a m j) as Hrun.
  { intros m j. unfold run. split; intros Hr k Hk; apply Hiff, Hr, Hk. }
  destruct (IH (fa0 + 1) a1 Hwf1 ltac:(lia) ltac:(lia)) as [[Heq Hnr]|(Hlt & Hr & Hset)].
  - destruct (decide (i = n)) as [->|Hne].
    + right. split_and!; [lia|intros k Hk; by replace k with n by lia|].
      intros fa nx Hf. split; [|split; [lia|apply Hf]]. rewrite Heq. unfold a1.
      rewrite list_lookup_insert_eq by by apply is_free_lt.
      assert (nx = nxn) as ->.
      { destruct Hf as (E1 & _ & ?), Hfn as (E2 & _ & ?). rewrite E1 in E2. injection E2 as E2.
        by apply encode_inj in E2 as [_ ->]. }
      do 2 f_equal. lia.
    + left. split; [rewrite Heq; unfold a1; by rewrite list_lookup_insert_ne|].
      intros [Hi Hr]. apply Hnr. split; [lia|]. apply Hrun. intros k Hk. apply Hr. lia.
  - right. split_and!; [lia| |].
    + intros k Hk. destruct (decide (k = n)) as [->|]; [done|]. apply Hrun in Hr. apply Hr. lia.
    + intros fa nx Hf. destruct (Hset fa nx) as (E1 & ? & ?); [apply free_at_insert_ne; [lia|done]|].
      split; [rewrite E1; do 2 f_equal; lia|split; lia].
Qed.

Lemma update_is_free n fa0 a i : free_wf a -> 1 <= fa0 -> fa0 + Z.of_nat n < 2 ^ 32 ->
  is_free (update_free_ahead n fa0 a) i <-> is_free a i.
Proof.
  intros Hwf H1 H2. destruct (update_free_ahead_spec n fa0 a i Hwf H1 H2) as [[E _]|(Hi & Hr & Hs)].
  - unfold is_free. by rewrite E.
  - assert (is_free a i) as Hf by (apply Hr; lia). split; [done|]. intros _.
    destruct (Hwf _ Hf) as (fa & nx & Hfa). eapply free_at_is_free, Hs, Hfa.
Qed.

Lemma free_at_unique a i fa nx fa' nx' :
  free_at a i fa nx -> free_at a i fa' nx' -> fa = fa' /\ nx = nx'.
Proof.
  intros (E1 & _ & ?) (E2 & _ & ?). rewrite E1 in E2. injection E2 as E2. by apply encode_inj in E2.
Qed.

(** [a2] is [a] with slot [i] occupied by [v] and some next fields changed. *)
Record taken (a a2 : list Z) (i : nat) (v : Z) : Prop := Taken {
  tk_len : length a2 = length a;
  tk_val : a2 !! i = Some v;
  tk_free k fa nx : k <> i -> free_at a k fa nx -> exists nx', free_at a2 k fa nx';
  tk_used k : k <> i -> ~ is_free a k -> a2 !! k = a !! k
}.

Section taken.
Context (a a2 : list Z) (i : nat) (v : Z).
Context (Hwf : free_wf a) (Hv : elem_is_free v = false) (Ht : taken a a2 i v).

Lemma taken_not_free : ~ is_free a2 i.
Proof. intros (e & E & Ef). rewrite (tk_val _ _ _ _ Ht) in E. congruence. Qed.

Lemma taken_is_free k : is_free a2 k <-> k <> i /\ is_free a k.
Proof.
  split.
  - intros Hf. destruct (decide (k = i)) as [->|Hne]; [by destruct taken_not_free|]. split; [done|].
    destruct (decide (is_free a k)) as [?|Hn]; [done|].
    unfold is_free in Hf. by rewrite (tk_used _ _ _ _ Ht) in Hf.
  - intros [Hne Hf]. destruct (Hwf _ Hf) as (fa & nx & H).
    destruct (tk_free _ _ _ _ Ht k fa nx Hne H) as (nx' & H'). by eapply free_at_is_free.
Qed.

Lemma taken_wf : free_wf a2.
Proof.
  intros k [Hne Hk]%taken_is_free. destruct (Hwf _ Hk) as (fa & nx & H).
  destruct (tk_free _ _ _ _ Ht k fa nx Hne H) as (nx' & H'). eauto.
Qed.

Lemma taken_ahead : ahead_ok a -> 1 + Z.of_nat i < 2 ^ 32 -> ahead_ok (update_free_ahead i 1 a2).
Proof.
  intros Hah Hb j fa nx Hj. pose proof (update_is_free i 1 a2) as Hup.
  assert (is_free a2 j) as Hj2.
  { apply Hup; [apply taken_wf|lia|lia|]. by eapply free_at_is_free. }
  destruct (taken_wf _ Hj2) as (fa2 & nx2 & Hfa2).
  destruct (update_free_ahead_spec i 1 a2 j taken_wf ltac:(lia) Hb) as [[E Hnr]|(Hlt & Hr & Hs)].
  - assert (free_at a2 j fa nx) as Hj' by (destruct Hj as [E' ?]; split; [by rewrite <- E|done]).
    apply taken_is_free in Hj2 as [Hne Hja]. destruct (Hwf _ Hja) as (fa0 & nx0 & Hj0).
    destruct (tk_free _ _ _ _ Ht _ _ _ Hne Hj0) as (nx' & Hj0').
    destruct (free_at_unique _ _ _ _ _ _ Hj' Hj0') as [-> _].
    destruct (Hah _ _ _ Hj0) as [Hpos Hall]. split; [done|]. intros k Hk1 Hk2.
    apply Hup; [apply taken_wf|lia|lia|]. apply taken_is_free. split; [|by apply Hall].
    intros ->. apply Hnr. assert (j < i)%nat by lia. split; [done|]. intros k Hk.
    apply taken_is_free. split; [lia|]. apply Hall; lia.
  - destruct (free_at_unique _ _ _ _ _ _ Hj (Hs _ _ Hfa2)) as [-> _]. split; [lia|].
    intros k Hk1 Hk2. apply Hup; [apply taken_wf|lia|lia|]. apply Hr. lia.
Qed.

Lemma taken_used k : 1 + Z.of_nat i < 2 ^ 32 ->
  (e ← update_free_ahead i 1 a2 !! k; if elem_is_free e then None else Some e) =
  if decide (k = i) then Some v else (e ← a !! k; if elem_is_free e then None else Some e).
Proof.
  intros Hb. pose proof (update_is_free i 1 a2) as Hup.
  destruct (update_free_ahead_spec i 1 a2 k taken_wf ltac:(lia) Hb) as [[E _]|(Hlt & Hr & Hs)].
  - rewrite E. case_decide as Hki; [subst k; rewrite (tk_val _ _ _ _ Ht); simpl; by rewrite Hv|].
    destruct (decide (is_free a k)) as [Hf|Hn]; [|by rewrite (tk_used _ _ _ _ Ht)].
    destruct (Hwf _ Hf) as (fa & nx & Hk). destruct (tk_free _ _ _ _ Ht _ _ _ Hki Hk) as (nx' & Hk').
    rewrite (proj1 Hk), (proj1 Hk'). simpl. by rewrite !encode_free.
  - assert (is_free a2 k) as Hk2 by (apply Hr; lia). apply taken_is_free in Hk2 as [Hne Hk].
    rewrite decide_False by done. destruct (Hwf _ Hk) as (fa & nx & Hka).
    destruct (tk_free _ _ _ _ Ht _ _ _ Hne Hka) as (nx' & Hk').
    rewrite (proj1 (Hs _ _ Hk')), (proj1 Hka). simpl. by rewrite !encode_free.
Qed.
End taken.
End arrays.

(** ** Operations *)

Lemma ok_wf pa fl : pa_ok pa fl -> free_wf (start pa).
Proof. intros Hok i Hi. eapply linked_free; [apply Hok|]. by apply Hok. Qed.

Lemma ok_free_iff pa fl i : pa_ok pa fl -> i ∈ fl <-> is_free (start pa) i.
Proof.
  intros Hok. split; [|apply Hok]. intros Hi.
  destruct (linked_free _ _ _ _ (ok_linked _ _ Hok) Hi) as (fa & nx & H). by eapply free_at_is_free.
Qed.

(** The free list is not longer than the array. *)
Lemma ok_fl_length pa fl : pa_ok pa fl -> (length fl <= length (start pa))%nat.
Proof.
  intros Hok. apply NoDup_length_bound; [apply Hok|]. intros i Hi.
  by apply (ok_free_iff _ _ _ Hok), is_free_lt in Hi.
Qed.

(** [pa'] is [pa] with index [i] set to [v]. *)
Definition updated (pa pa' : ucs_ptr_array_t) (i : nat) (v : option Z) : Prop :=
  forall k, used pa' k = if decide (k = i) then v else used pa k.

Lemma take_taken pa l1 i l2 v : pa_ok pa (l1 ++ i :: l2) ->
  exists a2 first, taken (start pa) a2 i v /\ linked a2 first (l1 ++ l2) /\
    ptr_array_take pa (Z.of_nat i) v =
      Some (PtrArray (update_free_ahead i 1 a2) first (size pa) (u32 (count pa + 1))).
Proof.
  intros Hok. pose proof (ok_linked _ _ Hok) as Hl. pose proof (ok_nodup _ _ Hok) as Hnd.
  destruct (linked_free _ _ _ i Hl) as (fa & nx & Hi); [set_solver|].
  assert (i < length (start pa))%nat as Hlt by (eapply is_free_lt, free_at_is_free, Hi).
  unfold ptr_array_take. rewrite Nat2Z.id, (proj1 Hi). cbn [mbind option_bind].
  rewrite encode_free. cbn [assert mbind option_bind]. rewrite encode_next, set_cell_some by (apply Hi || done). cbn [mbind option_bind freelist set_start add_count].
  assert (forall k fak nxk, k <> i -> free_at (start pa) k fak nxk -> free_at (<[i:=v]> (start pa)) k fak nxk)
    as Hkeep by (intros; by apply free_at_insert_ne).
  destruct (decide (l1 = [])) as [->|Hne1].
  - destruct Hl as (-> & fa' & nx' & Hi' & Hl2). rewrite Z.eqb_refl.
    destruct (free_at_unique _ _ _ _ _ _ Hi Hi') as [<- <-].
    exists (<[i := v]> (start pa)), nx. split_and!; [|simpl|done].
    + split; [by rewrite length_insert|by rewrite list_lookup_insert_eq|eauto|].
      intros k Hne _. by rewrite list_lookup_insert_ne.
    + eapply linked_frame; [|exact Hl2]. intros k fak nxk Hk Hfk. exists fak. apply Hkeep; [|done].
      apply NoDup_cons in Hnd as [Hn _]. by intros ->.
  - destruct (exists_last Hne1) as (l0 & p & ->). rewrite <- app_assoc in *. simpl in *.
    assert (p <> i) as Hpi.
    { apply NoDup_app in Hnd as (_ & _ & [Hn _]%NoDup_cons). intros ->. apply Hn. by left. }
    destruct (linked_free _ _ _ p Hl) as (fap & nxp & Hp); [set_solver|].
    rewrite (proj2 (Z.eqb_neq (freelist pa) _)); last first.
    { destruct l0 as [|j l0]; simpl in Hl; destruct Hl as [-> _]; intros E; apply Nat2Z.inj in E; subst.
      - done.
      - apply NoDup_cons in Hnd as [Hn _]. apply Hn. set_solver. }
    set (a1 := <[i := v]> (start pa)).
    assert (length l0 < length a1)%nat as Hl0.
    { unfold a1. rewrite length_insert. pose proof (ok_fl_length _ _ Hok) as Hfl.
      rewrite length_app in Hfl. simpl in Hfl. lia. }
    assert (freelist_prev (length a1) a1 (freelist pa) (Z.of_nat i) = Some (Z.of_nat p)) as ->
      by by apply (freelist_prev_spec _ _ l0 p i l2); [..|rewrite <- (ok_size _ _ Hok); apply Hok|].
    assert (a1 !! p = Some (encode fap nxp)) as Hp1 by apply (Hkeep _ _ _ Hpi Hp).
    cbn [mbind option_bind]. rewrite Nat2Z.id, Hp1.
    cbn [mbind option_bind].
    rewrite set_next_encode by (apply Hp || apply Hi).
    assert (p < length a1)%nat as Hplt.
    { unfold a1. rewrite length_insert. eapply is_free_lt, free_at_is_free, Hp. }
    rewrite set_cell_some by done. cbn [mbind option_bind].
    exists (<[p := encode fap nx]> a1), (freelist pa). split_and!; [|by eapply linked_unlink|done].
    split.
    + unfold a1. by rewrite !length_insert.
    + rewrite list_lookup_insert_ne by done. unfold a1. by rewrite list_lookup_insert_eq.
    + intros k fak nxk Hk Hfk. destruct (decide (k = p)) as [->|Hkp].
      * exists nx. destruct (free_at_unique _ _ _ _ _ _ Hfk Hp) as [-> _].
        apply free_at_insert_eq; [done|apply Hp|apply Hi].
      * exists nxk. apply free_at_insert_ne; [done|]. by apply Hkeep.
    + intros k Hk Hnf. rewrite list_lookup_insert_ne; [unfold a1; by rewrite list_lookup_insert_ne|].
      intros <-. apply Hnf. by eapply free_at_is_free.
Qed.

Lemma take_ok pa l1 i l2 v : pa_ok pa (l1 ++ i :: l2) -> elem_is_free v = false ->
  exists pa', ptr_array_take pa (Z.of_nat i) v = Some pa' /\ pa_ok pa' (l1 ++ l2) /\
    size pa' = size pa /\ updated pa pa' i (Some v).
Proof.
  intros Hok Hv. destruct (take_taken pa l1 i l2 v Hok) as (a2 & first & Ht & Hl & ->).
  pose proof (ok_wf _ _ Hok) as Hwf. pose proof (ok_size _ _ Hok) as Hsz.
  pose proof (ok_bound _ _ Hok) as Hb. rewrite sentinel_val in Hb.
  pose proof (ok_fl_length _ _ Hok) as Hfl. pose proof (tk_len _ _ _ _ Ht) as Hlen.
  assert (i < length (start pa))%nat as Hi.
  { rewrite <- Hlen. eapply lookup_lt_Some, (tk_val _ _ _ _ Ht). }
  assert (1 + Z.of_nat i < 2 ^ 32) as Hi32 by lia.
  assert (free_wf a2) as Hwf2 by by eapply taken_wf.
  assert (forall k, is_free (update_free_ahead i 1 a2) k <-> k <> i /\ is_free (start pa) k) as Hiff.
  { intros k. rewrite update_is_free by (done || lia). by eapply taken_is_free. }
  eexists. split; [done|]. split_and!; [|done|intros k; simpl; by eapply taken_used].
  pose proof (ok_nodup _ _ Hok) as Hnd.
  split; simpl; rewrite ?update_free_ahead_length, ?Hlen; try done.
  - eapply linked_frame; [|exact Hl]. intros k fa nx Hk Hfk.
    destruct (update_free_ahead_spec i 1 a2 k Hwf2 ltac:(lia) Hi32) as [[E _]|(_ & _ & Hs)]; [|eauto].
    exists fa. split; [by rewrite E; apply Hfk|apply Hfk].
  - by rewrite <- Permutation_middle in Hnd; apply NoDup_cons in Hnd as [_ ?].
  - intros k [Hne Hk]%Hiff. apply (ok_free_iff _ _ _ Hok) in Hk. set_solver.
  - by eapply taken_ahead; [..|apply Hok|].
  - rewrite (ok_count _ _ Hok), !length_app in *. simpl in *. rewrite u_wrap_small by lia. lia.
Qed.

(** *** Growing *)

(** The new items once the last one is linked to the sentinel. *)
Definition grown_item (n i : nat) : Z :=
  encode (Z.of_nat n - Z.of_nat i) (if decide (S i = n) then SENTINEL else Z.of_nat i + 1).

Lemma grown_array a n : (length a < n)%nat -> Z.of_nat n <= SENTINEL ->
  exists a', set_cell (Z.of_nat n - 1)
      (ucs_ptr_array_freelist_set_next (encode 1 (Z.of_nat n)) SENTINEL)
      (a ++ grow_items (Z.of_nat (length a)) (Z.of_nat n)) = Some a' /\
    (a ++ grow_items (Z.of_nat (length a)) (Z.of_nat n)) !! Z.to_nat (Z.of_nat n - 1) =
      Some (encode 1 (Z.of_nat n)) /\
    length a' = n /\
    (forall i, (i < length a)%nat -> a' !! i = a !! i) /\
    (forall i, (length a <= i < n)%nat -> a' !! i = Some (grown_item n i)).
Proof.
  intros Hlt Hn. rewrite sentinel_val in Hn.
  set (g := grow_items (Z.of_nat (length a)) (Z.of_nat n)).
  assert (length g = n - length a)%nat as Hg.
  { unfold g, grow_items. rewrite length_fmap, length_seqZ. lia. }
  assert (forall i, (length a <= i < n)%nat ->
    (a ++ g) !! i = Some (encode (Z.of_nat n - Z.of_nat i) (Z.of_nat i + 1))) as Hitem.
  { intros i Hi. rewrite lookup_app_r by lia. unfold g, grow_items.
    rewrite list_lookup_fmap, lookup_seqZ_lt by lia. simpl.
    rewrite !u_wrap_small by lia. rewrite element_set_encode by lia. do 2 f_equal; lia. }
  replace (Z.of_nat n - 1) with (Z.of_nat (n - 1)) by lia.
  exists (<[(n - 1)%nat := encode 1 SENTINEL]> (a ++ g)). split_and!.
  - rewrite set_next_encode by (rewrite ?sentinel_val; lia).
    apply set_cell_some. rewrite length_app. lia.
  - rewrite Nat2Z.id, Hitem by lia. do 2 f_equal; lia.
  - rewrite length_insert, length_app. lia.
  - intros i Hi. rewrite list_lookup_insert_ne by lia. by rewrite lookup_app_l.
  - intros i Hi. unfold grown_item. case_decide as E.
    + replace i with (n - 1)%nat by lia. rewrite list_lookup_insert_eq by (rewrite length_app; lia).
      do 2 f_equal. lia.
    + rewrite list_lookup_insert_ne by lia. by apply Hitem.
Qed.

Lemma grown_free_at a n i : a !! i = Some (grown_item n i) -> (i < n)%nat -> Z.of_nat n <= SENTINEL ->
  free_at a i (Z.of_nat n - Z.of_nat i) (if decide (S i = n) then SENTINEL else Z.of_nat i + 1).
Proof.
  intros E Hi Hn. split; [exact E|]. rewrite sentinel_val in *. case_decide; lia.
Qed.

Lemma grown_linked a m n : Z.of_nat n <= SENTINEL -> (m < n)%nat ->
  (forall i, (m <= i < n)%nat -> a !! i = Some (grown_item n i)) ->
  linked a (Z.of_nat m) (seq m (n - m)).
Proof.
  intros Hn. remember (n - m)%nat as d eqn:Ed. revert m Ed.
  induction d as [|d IH]; intros m Ed Hm Hi; [lia|]. simpl. split; [done|].
  eexists _, _. split; [apply grown_free_at; [apply Hi; lia|lia|done]|].
  case_decide as E.
  - by assert (d = 0%nat) as -> by lia.
  - replace (Z.of_nat m + 1) with (Z.of_nat (S m)) by lia. apply IH; [lia|lia|].
    intros i Hi'. apply Hi. lia.
Qed.

(** [b] is [a] extended to [n] items, with some next fields of [a] changed. *)
Record grown (a b : list Z) (n : nat) : Prop := Grown {
  gr_len : length b = n;
  gr_free i fa nx : free_at a i fa nx -> exists nx', free_at b i fa nx';
  gr_used i : (i < length a)%nat -> ~ is_free a i -> b !! i = a !! i;
  gr_new i : (length a <= i < n)%nat -> b !! i = Some (grown_item n i)
}.

Lemma grown_is_free a b n i : free_wf a -> grown a b n -> (length a < n)%nat -> Z.of_nat n <= SENTINEL ->
  is_free b i <-> is_free a i \/ (length a <= i < n)%nat.
Proof.
  intros Hwf [Hlen Hfr Hus Hnew] Hlt Hn. split.
  - intros Hi. pose proof (is_free_lt _ _ Hi). destruct (decide (i < length a)%nat); [left|right; lia].
    destruct (decide (is_free a i)); [done|]. unfold is_free in Hi. by rewrite Hus in Hi.
  - intros [Hi|Hi].
    + destruct (Hwf _ Hi) as (fa & nx & H). destruct (Hfr _ _ _ H) as (nx' & H'). by eapply free_at_is_free.
    + eapply free_at_is_free, grown_free_at; [by apply Hnew|lia|done].
Qed.

Lemma grown_ok pa fl b first n :
  pa_ok pa fl -> (length (start pa) < n)%nat -> Z.of_nat n <= SENTINEL -> grown (start pa) b n ->
  linked b first (fl ++ seq (length (start pa)) (n - length (start pa))) ->
  let pa' := PtrArray b first (Z.of_nat n) (count pa) in
  pa_ok pa' (fl ++ seq (length (start pa)) (n - length (start pa))) /\
  forall k, used pa' k = used pa k.
Proof.
  intros Hok Hlt Hn Hg Hl pa'. pose proof (ok_wf _ _ Hok) as Hwf.
  pose proof (fun i => grown_is_free _ _ _ i Hwf Hg Hlt Hn) as Hiff. split.
  - split; simpl.
    + by rewrite (gr_len _ _ _ Hg).
    + done.
    + done.
    + apply NoDup_app. split_and!; [apply Hok| |apply NoDup_seq].
      intros i Hi%(ok_free_iff _ _ _ Hok)%is_free_lt ?%elem_of_seq. lia.
    + intros i [Hi|Hi]%Hiff; apply elem_of_app; [left; by apply Hok|right; apply elem_of_seq; lia].
    + intros i fa nx Hi. destruct (decide (i < length (start pa))%nat) as [Hia|Hia].
      * assert (is_free (start pa) i) as Hfi.
        { apply free_at_is_free, Hiff in Hi as [?|?]; [done|lia]. }
        destruct (Hwf _ Hfi) as (fa0 & nx0 & H0). destruct (gr_free _ _ _ Hg _ _ _ H0) as (nx' & H0').
        destruct (free_at_unique _ _ _ _ _ _ Hi H0') as [-> _].
        destruct (ok_ahead _ _ Hok _ _ _ H0) as [? Hall]. split; [done|]. intros k Hk1 Hk2.
        apply Hiff. left. by apply Hall.
      * assert (i < n)%nat as Hin. { rewrite <- (gr_len _ _ _ Hg). eapply is_free_lt, free_at_is_free, Hi. }
        pose proof (grown_free_at b n i) as Hgi.
        destruct (free_at_unique _ _ _ _ _ _ Hi (Hgi ltac:(apply Hg; lia) Hin Hn)) as [-> _].
        split; [lia|]. intros k Hk1 Hk2. apply Hiff. right. lia.
    + rewrite (gr_len _ _ _ Hg), length_app, length_seq, (ok_count _ _ Hok). lia.
  - intros k. unfold used, pa'. simpl. destruct (decide (k < length (start pa))%nat) as [Hk|Hk].
    + destruct (decide (is_free (start pa) k)) as [Hf|Hn']; [|by rewrite (gr_used _ _ _ Hg)].
      destruct (Hwf _ Hf) as (fa & nx & H). destruct (gr_free _ _ _ Hg _ _ _ H) as (nx' & H').
      rewrite (proj1 H), (proj1 H'). simpl. by rewrite !encode_free.
    + rewrite (lookup_ge_None_2 (start pa)) by lia. simpl.
      destruct (decide (k < n)%nat) as [Hkn|Hkn].
      * rewrite (gr_new _ _ _ Hg) by lia. simpl. unfold grown_item. by rewrite encode_free.
      * by rewrite (lookup_ge_None_2 b) by (rewrite (gr_len _ _ _ Hg); lia).
Qed.

Lemma grow_ok pa fl n : pa_ok pa fl -> (length (start pa) < n)%nat -> Z.of_nat n <= SENTINEL ->
  exists pa', ucs_ptr_array_grow pa (Z.of_nat n) = Some pa' /\
    pa_ok pa' (fl ++ seq (length (start pa)) (n - length (start pa))) /\
    size pa' = Z.of_nat n /\ forall k, used pa' k = used pa k.
Proof.
  intros Hok Hlt Hn. destruct (grown_array (start pa) n Hlt Hn) as (a' & Hset & Hlast & Hlen & Hold & Hnew).
  assert (forall i fa nx, free_at (start pa) i fa nx -> free_at a' i fa nx) as Hfr.
  { intros i fa nx [E ?]. split; [|done]. rewrite Hold; [done|]. by eapply lookup_lt_Some. }
  pose proof (grown_linked a' (length (start pa)) n Hn Hlt Hnew) as Hlnew.
  unfold ucs_ptr_array_grow. rewrite (proj2 (Z.leb_le (Z.of_nat n) NEXT_MASK)) by (rewrite sentinel_val in Hn; rewrite next_mask_val; lia).
  rewrite orb_true_r. cbn [assert mbind option_bind]. rewrite (ok_size _ _ Hok), Hlast. cbn [mbind option_bind].
  rewrite Hset. cbn [mbind option_bind].
  assert (Z.of_nat (length (start pa)) <= SENTINEL) as Hc by (rewrite <- (ok_size _ _ Hok); apply Hok).
  destruct (linked_first _ _ _ (ok_linked _ _ Hok) Hc) as [[-> ->]|[Hne Hfl]].
  - rewrite Z.eqb_refl. eexists. split; [done|].
    destruct (grown_ok pa [] a' (Z.of_nat (length (start pa))) n) as [H1 H2]; try done.
    split; [done|eauto|auto|done].
  - rewrite (proj2 (Z.eqb_neq _ _)) by done. destruct (exists_last Hfl) as (l1 & p & ->).
    pose proof (ok_linked _ _ Hok) as Hl. pose proof (ok_fl_length _ _ Hok) as Hfll.
    rewrite length_app in Hfll. simpl in Hfll.
    assert (linked a' (freelist pa) (l1 ++ [p])) as Hl'.
    { eapply linked_frame; [|exact Hl]. eauto. }
    rewrite (freelist_last_spec _ _ l1 p) by (done || lia). cbn [mbind option_bind].
    destruct (linked_free _ _ _ p Hl) as (fap & nxp & Hp); [set_solver|].
    pose proof (Hfr _ _ _ Hp) as Hp'. rewrite Nat2Z.id, (proj1 Hp'). cbn [mbind option_bind].
    assert (p < length (start pa))%nat as Hpl by (eapply is_free_lt, free_at_is_free, Hp).
    rewrite sentinel_val in Hn, Hc. rewrite (proj2 (Z.leb_le _ NEXT_MASK)) by (rewrite next_mask_val; lia). cbn [assert mbind option_bind].
    rewrite set_next_encode, set_cell_some by (apply Hp || lia). cbn [mbind option_bind].
    eexists. split; [done|].
    destruct (grown_ok pa (l1 ++ [p]) (<[p := encode fap (Z.of_nat (length (start pa)))]> a')
                (freelist pa) n) as [H1 H2]; try done.
    + split; [by rewrite length_insert| | |].
      * intros i fa nx Hi. destruct (decide (p = i)) as [<-|Hne'].
        { destruct (free_at_unique _ _ _ _ _ _ Hi Hp) as [-> _]. eexists.
          apply free_at_insert_eq; [lia|apply Hp|lia]. }
        exists nx. apply free_at_insert_ne; auto.
      * intros i Hi Hnf. rewrite list_lookup_insert_ne; [auto|]. intros <-. apply Hnf.
        by eapply free_at_is_free.
      * intros i Hi. rewrite list_lookup_insert_ne by lia. auto.
    + rewrite <- app_assoc. eapply linked_append; [done|done|lia|done|].
      change (p :: ?l) with ([p] ++ l). rewrite app_assoc. apply NoDup_app.
      split_and!; [apply Hok| |apply NoDup_seq].
      intros i Hi%(ok_free_iff _ _ _ Hok)%is_free_lt ?%elem_of_seq. lia.
Qed.

(** *** Well-formed arrays *)

Definition pa_wf (pa : ucs_ptr_array_t) : Prop := exists fl, pa_ok pa fl.

Lemma used_free pa i : (i < length (start pa))%nat -> used pa i = None <-> is_free (start pa) i.
Proof.
  intros Hi. unfold used, is_free. destruct (lookup_lt_is_Some_2 _ _ Hi) as [e ->]. simpl.
  destruct (elem_is_free e) eqn:E; split; try done; [by eauto|]. intros (? & [= <-] & ?). congruence.
Qed.

Lemma used_some_lookup pa i v : used pa i = Some v -> start pa !! i = Some v /\ elem_is_free v = false.
Proof.
  unfold used. destruct (start pa !! i) as [e|]; [|done]. simpl.
  destruct (elem_is_free e) eqn:E; [done|]. by intros [= ->].
Qed.

Lemma used_some_lt pa i v : used pa i = Some v -> (i < length (start pa))%nat.
Proof. intros [H _]%used_some_lookup. by eapply lookup_lt_Some. Qed.

Lemma is_free_spec pa fl i : pa_ok pa fl ->
  ucs_ptr_array_is_free pa (Z.of_nat i) = bool_decide (is_free (start pa) i).
Proof.
  intros Hok. unfold ucs_ptr_array_is_free. rewrite (ok_size _ _ Hok), Nat2Z.id.
  case_bool_decide as H.
  - pose proof (is_free_lt _ _ H). destruct H as (e & -> & ->).
    by rewrite (proj2 (Z.ltb_lt _ _)) by lia.
  - destruct (start pa !! i) as [e|] eqn:E; [|by rewrite andb_false_r].
    destruct (elem_is_free e) eqn:Ef; [|by rewrite andb_false_r]. destruct H. by exists e.
Qed.

(** Storing a value in an occupied slot. *)
Lemma store_ok pa fl i w v : pa_ok pa fl -> used pa i = Some w -> elem_is_free v = false ->
  set_cell (Z.of_nat i) v (start pa) = Some (<[i := v]> (start pa)) /\
  pa_ok (set_start (<[i := v]> (start pa)) pa) fl /\
  updated pa (set_start (<[i := v]> (start pa)) pa) i (Some v).
Proof.
  intros Hok Hu Hv. pose proof (used_some_lt _ _ _ Hu) as Hi.
  assert (~ is_free (start pa) i) as Hn by (rewrite <- used_free by done; by rewrite Hu).
  assert (forall k, is_free (<[i := v]> (start pa)) k <-> is_free (start pa) k) as Hiff.
  { intros k. destruct (decide (i = k)) as [<-|Hne].
    - split; [|done]. intros (e & E & Ef). rewrite list_lookup_insert_eq in E by done. congruence.
    - unfold is_free. by rewrite list_lookup_insert_ne. }
  assert (forall k fa nx, free_at (<[i := v]> (start pa)) k fa nx -> free_at (start pa) k fa nx) as Hback.
  { intros k fa nx Hk. pose proof (free_at_is_free _ _ _ _ Hk) as Hkf. apply Hiff in Hkf.
    destruct Hk as [E ?]. split; [|done]. rewrite list_lookup_insert_ne in E; [done|].
    intros <-. done. }
  split_and!; [by apply set_cell_some| |].
  - destruct Hok as [Hs Hb Hl Hnd Hf Ha Hc]. split; simpl; rewrite ?length_insert; try done.
    + eapply linked_frame; [|exact Hl]. intros k fa nx _ Hk. exists fa. apply free_at_insert_ne; [|done].
      intros <-. apply Hn. by eapply free_at_is_free.
    + intros k Hk%Hiff. auto.
    + intros k fa nx Hk. destruct (Ha _ _ _ (Hback _ _ _ Hk)) as [? Hall]. split; [done|].
      intros j Hj1 Hj2. apply Hiff. auto.
  - intros k. unfold used. simpl. case_decide as E.
    + subst k. rewrite list_lookup_insert_eq by done. simpl. by rewrite Hv.
    + by rewrite list_lookup_insert_ne by done.
Qed.

(** [ucs_ptr_array_set] in range or growing. *)
Lemma set_ok pa i v : pa_wf pa -> elem_is_free v = false ->
  ((length (start pa) <= i)%nat -> size pa * 2 <= SENTINEL) -> Z.of_nat i < SENTINEL ->
  exists pa', ucs_ptr_array_set pa (Z.of_nat i) v = Some pa' /\ pa_wf pa' /\
    updated pa pa' i (Some v) /\
    size pa' = (if decide (i < length (start pa))%nat then size pa
                else Z.max (size pa * 2) (Z.of_nat i + 1)).
Proof.
  intros [fl Hok] Hv H2 Hi. pose proof (ok_size _ _ Hok) as Hsz. rewrite sentinel_val in *.
  unfold ucs_ptr_array_set. rewrite Hv, Hsz. case_decide as Hlt.
  - rewrite (proj2 (Z.leb_gt _ _)), Nat2Z.id by lia.
    destruct (lookup_lt_is_Some_2 _ _ Hlt) as [e He]. rewrite He. cbn [mbind option_bind].
    destruct (elem_is_free e) eqn:Ef; simpl.
    + assert (i ∈ fl) as (l1 & l2 & ->)%list_elem_of_split by (apply Hok; by exists e).
      destruct (take_ok _ _ _ _ v Hok Hv) as (pa' & -> & Hok' & Hs & Hu).
      exists pa'. split_and!; [done|by eexists|done|congruence].
    + assert (used pa i = Some e) as Hu by (unfold used; rewrite He; simpl; by rewrite Ef).
      destruct (store_ok _ _ _ _ v Hok Hu Hv) as (-> & Hok' & Hup). simpl.
      eexists. split_and!; [done|by eexists|done|done].
  - rewrite (proj2 (Z.leb_le _ _)), !u_wrap_small by lia.
    set (n := Z.to_nat (Z.max (Z.of_nat (length (start pa)) * 2) (Z.of_nat i + 1))).
    replace (Z.max _ _) with (Z.of_nat n) by lia.
    destruct (grow_ok pa fl n Hok) as (pa1 & -> & Hok1 & Hs1 & Hu1); [lia|rewrite sentinel_val; lia|].
    cbn [mbind option_bind].
    assert (i ∈ fl ++ seq (length (start pa)) (n - length (start pa))) as Hin.
    { apply elem_of_app. right. apply elem_of_seq. lia. }
    apply list_elem_of_split in Hin as (l1 & l2 & E). rewrite E in Hok1.
    destruct (take_ok _ _ _ _ v Hok1 Hv) as (pa' & -> & Hok' & Hs & Hu).
    exists pa'. split_and!; [done|by eexists| |lia]. intros k. rewrite Hu. by case_decide.
Qed.

(** *** Removal *)

(** The free-ahead count [remove] stores covers free slots only. *)
Lemma remove_ahead pa fl i w : pa_ok pa fl -> used pa i = Some w ->
  exists sfa, (if ucs_ptr_array_is_free pa (u32 (Z.of_nat i + 1))
               then e ← start pa !! Z.to_nat (u32 (Z.of_nat i + 1));
                    Some (u32 (ucs_ptr_array_size_free_get_free_ahead e + 1))
               else Some 1) = Some sfa /\
    1 <= sfa < 2 ^ 32 /\
    forall k, (i < k)%nat -> Z.of_nat k < Z.of_nat i + sfa -> is_free (start pa) k.
Proof.
  intros Hok Hu. pose proof (used_some_lt _ _ _ Hu) as Hi.
  pose proof (ok_size _ _ Hok) as Hsz. pose proof (ok_bound _ _ Hok) as Hb. rewrite sentinel_val in Hb.
  rewrite u_wrap_small by lia. replace (Z.of_nat i + 1) with (Z.of_nat (S i)) by lia.
  rewrite (is_free_spec _ _ _ Hok). case_bool_decide as Hf; [|exists 1; split_and!; [done|lia|lia|lia]].
  destruct (ok_wf _ _ Hok _ Hf) as (fa & nx & H). rewrite Nat2Z.id, (proj1 H). cbn [mbind option_bind].
  unfold ucs_ptr_array_size_free_get_free_ahead. rewrite encode_ahead by apply H.
  destruct (ok_ahead _ _ Hok _ _ _ H) as [Hpos Hall].
  assert (fa <= Z.of_nat (length (start pa))) as Hfa.
  { pose proof (is_free_lt _ _ (Hall (Z.to_nat (Z.of_nat (S i) + fa - 1)) ltac:(lia) ltac:(lia))). lia. }
  rewrite u_wrap_small by lia. exists (fa + 1). split_and!; [done|lia|lia|].
  intros k Hk1 Hk2. apply Hall; lia.
Qed.

Lemma remove_ok pa fl i w : pa_ok pa fl -> used pa i = Some w ->
  exists pa', ucs_ptr_array_remove pa (Z.of_nat i) = Some pa' /\ pa_ok pa' (i :: fl) /\
    updated pa pa' i None /\ size pa' = size pa.
Proof.
  intros Hok Hu. pose proof (used_some_lt _ _ _ Hu) as Hi.
  assert (~ is_free (start pa) i) as Hn by (rewrite <- used_free by done; by rewrite Hu).
  assert (length (i :: fl) <= length (start pa))%nat as Hfll.
  { apply NoDup_length_bound.
    - constructor; [by rewrite (ok_free_iff _ _ _ Hok)|apply Hok].
    - intros k [->|Hk]%elem_of_cons; [done|]. by apply (ok_free_iff _ _ _ Hok), is_free_lt in Hk. }
  simpl in Hfll. pose proof (ok_count _ _ Hok) as Hc.
  unfold ucs_ptr_array_remove. rewrite (is_free_spec _ _ _ Hok), bool_decide_eq_false_2 by done.
  rewrite (proj2 (Z.leb_gt _ _)) by lia. simpl.
  destruct (remove_ahead _ _ _ _ Hok Hu) as (sfa & -> & Hsfa & Hall). cbn [mbind option_bind].
  destruct Hok as [Hs Hb Hl Hnd Hf Ha _]. rewrite sentinel_val in Hb.
  assert (0 <= freelist pa < 2 ^ 31) as Hfl.
  { destruct (linked_first _ _ _ Hl ltac:(rewrite sentinel_val; lia)) as [[-> _]|[_ Hne]];
      [by rewrite sentinel_val; lia|].
    destruct fl as [|j fl]; [done|]. destruct Hl as (-> & fa & nx & [H _] & _).
    apply lookup_lt_Some in H. lia. }
  rewrite (proj2 (Z.leb_le _ NEXT_MASK)) by (rewrite next_mask_val; lia). cbn [assert mbind option_bind].
  rewrite element_set_encode, set_cell_some by (done || lia). cbn [mbind option_bind].
  set (a' := <[i := encode sfa (freelist pa)]> (start pa)).
  assert (free_at a' i sfa (freelist pa)) as Hi' by (by apply free_at_insert_eq; [..|lia|]).
  assert (forall k, is_free a' k <-> k = i \/ is_free (start pa) k) as Hiff.
  { intros k. destruct (decide (k = i)) as [->|Hne].
    - split; [by left|]. intros _. by eapply free_at_is_free.
    - unfold is_free, a'. rewrite list_lookup_insert_ne by done. split; [by right|by intros [?|?]]. }
  assert (is_free a' (Z.to_nat (u32 (Z.of_nat i + sfa - 1)))) as (e & -> & He).
  { assert (Z.of_nat i + sfa - 1 < 2 ^ 32) as Hlast.
    { destruct (decide (sfa = 1)); [lia|].
      pose proof (is_free_lt _ _ (Hall (Z.to_nat (Z.of_nat i + sfa - 1)) ltac:(lia) ltac:(lia))). lia. }
    rewrite u_wrap_small by lia. apply Hiff.
    destruct (decide (sfa = 1)); [left; lia|right; apply Hall; lia]. }
  cbn [mbind option_bind]. rewrite He. cbn [negb].
  eexists. split; [done|]. split_and!; [|intros k; unfold used; simpl; case_decide as E|done].
  - split; simpl; try (unfold a'; by rewrite ?length_insert).
    + split; [done|]. exists sfa, (freelist pa). split; [done|].
      eapply linked_frame; [|exact Hl]. intros k fa nx _ Hk. exists fa. apply free_at_insert_ne; [|done].
      intros <-. apply Hn. by eapply free_at_is_free.
    + constructor; [|done]. intros Hin. apply Hn.
      destruct (linked_free _ _ _ _ Hl Hin) as (? & ? & ?). by eapply free_at_is_free.
    + intros k [->|Hk]%Hiff; [by left|right; auto].
    + intros k fa nx Hk. destruct (decide (k = i)) as [->|Hne].
      * destruct (free_at_unique _ _ _ _ _ _ Hk Hi') as [-> _]. split; [lia|].
        intros j Hj1 Hj2. apply Hiff. destruct (decide (j = i)); [by left|right]. apply Hall; lia.
      * destruct Hk as [E Hr]. unfold a' in E. rewrite list_lookup_insert_ne in E by done.
        destruct (Ha k fa nx ltac:(by split)) as [? Hall']. split; [done|].
        intros j Hj1 Hj2. apply Hiff. right. auto.
    + unfold a'. rewrite length_insert, Hc, u_wrap_small by lia. lia.
  - subst k. rewrite (proj1 Hi'). simpl. by rewrite encode_free.
  - unfold a'. by rewrite list_lookup_insert_ne.
Qed.

(** *** Bulk allocation *)

Lemma count_free_spec fuel pa fl j n it : pa_ok pa fl ->
  (Z.to_nat (n - it) <= fuel)%nat -> 0 <= it <= n -> Z.of_nat j + n < 2 ^ 32 ->
  count_free fuel pa (Z.of_nat j) n it = n ->
  forall k, it <= k < n -> is_free (start pa) (Z.to_nat (Z.of_nat j + k)).
Proof.
  intros Hok. revert it. induction fuel as [|fuel IH]; intros it Hf Hit Hb; simpl.
  { intros -> k Hk. lia. }
  destruct (Z.ltb_spec it n) as [Hlt|Hge]; simpl; [|intros _ k Hk; lia].
  rewrite u_wrap_small by lia. replace (Z.of_nat j + it) with (Z.of_nat (Z.to_nat (Z.of_nat j + it))) by lia.
  rewrite (is_free_spec _ _ _ Hok). case_bool_decide as Hfree; [|intros -> k Hk; lia].
  rewrite u_wrap_small by lia. intros Hc k Hk.
  destruct (decide (k = it)) as [->|Hne]; [done|]. apply (IH (it + 1)); lia || done.
Qed.

Lemma find_run_spec pa fl0 n : pa_ok pa fl0 -> 1 <= n -> size pa + n <= SENTINEL ->
  forall fl fuel first, linked (start pa) first fl -> fl <> [] -> (length fl <= fuel)%nat ->
  exists r, find_run fuel pa first n = Some r /\
    match r with
    | Some j => exists i, j = Z.of_nat i /\ (i < length (start pa))%nat /\
                  forall k, 0 <= k < n -> is_free (start pa) (Z.to_nat (j + k))
    | None => True
    end.
Proof.
  intros Hok Hn Hb. rewrite sentinel_val in Hb. pose proof (ok_size _ _ Hok) as Hsz.
  induction fl as [|i fl IH]; intros fuel first Hl Hne Hf; [done|].
  destruct Hl as (-> & fa & nx & Hi & Hl). destruct fuel as [|fuel]; [simpl in Hf; lia|]. simpl.
  pose proof (is_free_lt _ _ (free_at_is_free _ _ _ _ Hi)) as Hlt.
  destruct (Z.eqb_spec (count_free (Z.to_nat n) pa (Z.of_nat i) n 1) n) as [Hc|Hc].
  - eexists. split; [done|]. exists i. split_and!; [done|done|]. intros k Hk.
    destruct (decide (k = 0)) as [->|]; [rewrite Z.add_0_r, Nat2Z.id; by eapply free_at_is_free|].
    eapply count_free_spec; [done| | | |exact Hc|]; lia.
  - rewrite Nat2Z.id, (proj1 Hi). cbn [mbind option_bind]. rewrite encode_free_u32. cbn [assert mbind option_bind]. rewrite encode_next_u32 by apply Hi.
    destruct (linked_first _ _ _ Hl ltac:(rewrite sentinel_val; lia)) as [[-> ->]|[Hnx Hfl]].
    + rewrite Z.eqb_refl. by eexists.
    + rewrite (proj2 (Z.eqb_neq _ _)) by done. apply IH; [done|done|simpl in Hf; lia].
Qed.

Lemma set_zero_ok n pa i : pa_wf pa ->
  (i + n <= length (start pa))%nat ->
  exists pa', set_zero n pa (Z.of_nat i) = Some pa' /\ pa_wf pa' /\ size pa' = size pa /\
    forall k, used pa' k = if decide (i <= k < i + n)%nat then Some 0 else used pa k.
Proof.
  revert pa i. induction n as [|n IH]; intros pa i Hwf Hi; simpl.
  - exists pa. split_and!; [done..|]. intros k. by rewrite decide_False by lia.
  - destruct Hwf as [fl Hok]. pose proof (ok_size _ _ Hok) as Hsz.
    pose proof (ok_bound _ _ Hok) as Hb. rewrite sentinel_val in Hb.
    destruct (set_ok pa i 0) as (pa1 & -> & Hwf1 & Hu1 & Hs1);
      [by exists fl|done|lia|rewrite sentinel_val; lia|].
    cbn [mbind option_bind]. rewrite decide_True in Hs1 by lia. rewrite u_wrap_small by lia.
    replace (Z.of_nat i + 1) with (Z.of_nat (S i)) by lia.
    destruct Hwf1 as [fl1 Hok1]. pose proof (ok_size _ _ Hok1) as Hsz1.
    destruct (IH pa1 (S i)) as (pa' & -> & Hwf' & Hs' & Hu'); [by exists fl1|lia|].
    exists pa'. split_and!; [done|done|congruence|]. intros k. rewrite Hu', Hu1.
    repeat case_decide; try done; lia.
Qed.

Lemma bulk_alloc_ok pa n : pa_wf pa -> 0 < n -> Z.max (size pa * 2) (size pa + n) <= SENTINEL ->
  exists i pa', ucs_ptr_array_bulk_alloc pa n = Some (Z.of_nat i, pa') /\ pa_wf pa' /\
    size pa' <= Z.max (size pa * 2) (size pa + n) /\
    forall k, used pa' k = (if decide (i <= k < i + Z.to_nat n)%nat then Some 0 else used pa k) /\
      ((i <= k < i + Z.to_nat n)%nat -> used pa k = None).
Proof.
  intros [fl Hok] Hn H2. pose proof (ok_size _ _ Hok) as Hsz. pose proof (ok_fl_length _ _ Hok) as Hfll.
  rewrite sentinel_val in *. unfold ucs_ptr_array_bulk_alloc. rewrite (proj2 (Z.eqb_neq n 0)) by lia.
  set (r := if freelist pa =? SENTINEL then _ else _).
  assert (exists o, r = Some o /\ match o with
    | Some j => exists i, j = Z.of_nat i /\ (i < length (start pa))%nat /\
                  forall k, 0 <= k < n -> is_free (start pa) (Z.to_nat (j + k))
    | None => True end) as (o & -> & Ho).
  { unfold r. destruct (linked_first _ _ _ (ok_linked _ _ Hok)) as [[-> _]|[Hne Hfl]];
      [rewrite sentinel_val; lia|rewrite Z.eqb_refl; by eexists|].
    rewrite (proj2 (Z.eqb_neq _ _)) by done.
    eapply find_run_spec; [done|lia|rewrite sentinel_val; lia|apply Hok|done|done]. }
  cbn [mbind option_bind]. destruct o as [j|].
  - destruct Ho as (i & -> & Hi & Hrun). cbn [mbind option_bind].
    assert (forall k, (i <= k < i + Z.to_nat n)%nat -> is_free (start pa) k) as Hall.
    { intros k Hk. replace k with (Z.to_nat (Z.of_nat i + (Z.of_nat k - Z.of_nat i))) by lia.
      apply Hrun. lia. }
    assert (i + Z.to_nat n <= length (start pa))%nat as Hin.
    { pose proof (is_free_lt _ _ (Hall (i + Z.to_nat n - 1)%nat ltac:(lia))). lia. }
    destruct (set_zero_ok (Z.to_nat n) pa i) as (pa' & -> & Hwf' & Hs' & Hu');
      [by exists fl|done|].
    exists i, pa'. split_and!; [done|done|lia|]. intros k. split; [apply Hu'|].
    intros Hk. apply used_free; [lia|]. by apply Hall.
  - rewrite !u_wrap_small by lia.
    set (m := Z.to_nat (Z.max (2 * size pa) (size pa + n))).
    replace (Z.max (2 * size pa) _) with (Z.of_nat m) by lia.
    destruct (grow_ok pa fl m Hok) as (pa1 & -> & Hok1 & Hs1 & Hu1); [lia|rewrite sentinel_val; lia|].
    cbn [mbind option_bind]. rewrite Hsz. pose proof (ok_size _ _ Hok1) as Hsz1.
    destruct (set_zero_ok (Z.to_nat n) pa1 (length (start pa))) as (pa' & -> & Hwf' & Hs' & Hu');
      [by eexists|lia|].
    exists (length (start pa)), pa'. split_and!; [done|done|lia|]. intros k. split.
    + rewrite Hu'. case_decide; [done|apply Hu1].
    + intros Hk. unfold used. by rewrite lookup_ge_None_2 by lia.
Qed.

Lemma insert_value_ok pa v : pa_wf pa -> elem_is_free v = false ->
  Z.max (size pa * 2) (size pa + 1) <= SENTINEL ->
  exists i pa', ucs_ptr_array_insert pa v = Some (Z.of_nat i, pa') /\ pa_wf pa' /\
    used pa i = None /\ updated pa pa' i (Some v) /\
    size pa' <= Z.max (size pa * 2) (size pa + 1).
Proof.
  intros Hwf Hv H2. destruct (bulk_alloc_ok pa 1 Hwf) as (i & pa1 & E & Hwf1 & Hs1 & Hu1); [lia|done|].
  unfold ucs_ptr_array_insert. rewrite E. cbn [mbind option_bind]. rewrite Hv.
  destruct Hwf1 as [fl1 Hok1]. destruct (Hu1 i) as [Hi1 Hi0]. rewrite decide_True in Hi1 by lia.
  destruct (store_ok _ _ _ _ v Hok1 Hi1 Hv) as (-> & Hok2 & Hu2). cbn [mbind option_bind].
  eexists i, _. split_and!; [done|by eexists|apply Hi0; lia| |done]. intros k. rewrite Hu2.
  case_decide; [done|]. destruct (Hu1 k) as [-> _]. by rewrite decide_False by lia.
Qed.

Lemma replace_value_ok pa i w v : pa_wf pa -> used pa i = Some w -> elem_is_free v = false ->
  exists pa', ucs_ptr_array_replace pa (Z.of_nat i) v = Some (w, pa') /\ pa_wf pa' /\
    updated pa pa' i (Some v) /\ size pa' = size pa.
Proof.
  intros [fl Hok] Hu Hv. unfold ucs_ptr_array_replace. rewrite (is_free_spec _ _ _ Hok).
  rewrite bool_decide_eq_false_2 by (rewrite <- used_free by (by eapply used_some_lt); by rewrite Hu).
  rewrite Nat2Z.id. rewrite (proj1 (used_some_lookup _ _ _ Hu)). cbn [mbind option_bind].
  destruct (store_ok _ _ _ _ v Hok Hu Hv) as (-> & Hok2 & Hu2). cbn [mbind option_bind].
  eexists. split_and!; [done|by eexists|done|done].
Qed.

Lemma lookup_used pa i : pa_wf pa -> ucs_ptr_array_lookup pa (Z.of_nat i) = used pa i.
Proof.
  intros [fl Hok]. unfold ucs_ptr_array_lookup, used. rewrite (ok_size _ _ Hok), Nat2Z.id.
  destruct (Z.leb_spec (Z.of_nat (length (start pa))) (Z.of_nat i)); [|done].
  by rewrite lookup_ge_None_2 by lia.
Qed.

Lemma init_ok : pa_ok ucs_ptr_array_init [].
Proof.
  split; simpl; try done; try (by rewrite sentinel_val).
  - apply NoDup_nil_2.
  - intros i [e [He _]]. done.
  - intros i fa nx [He _]. done.
Qed.

(** ** Iteration *)

(** The occupied slots from [i] on, in index order. *)
Definition occupied (pa : ucs_ptr_array_t) (i : nat) : list (Z * Z) :=
  omap (fun k => pair (Z.of_nat k) <$> used pa k) (seq i (length (start pa) - i)).

Lemma occupied_skip pa i n : (forall k, (i <= k < i + n)%nat -> used pa k = None) ->
  occupied pa i = occupied pa (i + n).
Proof.
  intros Hnone. unfold occupied.
  destruct (le_lt_dec (i + n) (length (start pa))) as [Hle|Hgt].
  - replace (length (start pa) - i)%nat with (n + (length (start pa) - (i + n)))%nat by lia.
    rewrite seq_app, omap_app.
    replace (omap _ (seq i n)) with (@nil (Z * Z)); [done|]. symmetry.
    apply omap_none. intros k [??]%elem_of_seq. by rewrite Hnone by lia.
  - replace (length (start pa) - (i + n))%nat with 0%nat by lia. simpl.
    apply omap_none. intros k [??]%elem_of_seq. by rewrite Hnone by lia.
Qed.

Lemma for_each_from_spec fuel pa fl i : pa_ok pa fl -> (length (start pa) - i < fuel)%nat ->
  (i <= length (start pa))%nat -> for_each_from fuel pa (Z.of_nat i) = Some (occupied pa i).
Proof.
  intros Hok. pose proof (ok_size _ _ Hok) as Hsz. pose proof (ok_bound _ _ Hok) as Hb.
  rewrite sentinel_val in Hb. revert i. induction fuel as [|fuel IH]; intros i Hf Hle; [lia|]. simpl.
  rewrite Hsz. destruct (Z.ltb_spec (Z.of_nat i) (Z.of_nat (length (start pa)))) as [Hlt|Hge].
  2: { unfold occupied. by replace (length (start pa) - i)%nat with 0%nat by lia. }
  unfold ucs_ptr_array_for_each_get_step_size. rewrite Nat2Z.id.
  destruct (lookup_lt_is_Some_2 (start pa) i) as [e He]; [lia|]. rewrite He. cbn [mbind option_bind].
  destruct (elem_is_free e) eqn:Ef.
  - assert (is_free (start pa) i) as Hfree by by exists e.
    destruct (ok_wf _ _ Hok _ Hfree) as (fa & nx & H). assert (e = encode fa nx) as -> by (destruct H; congruence).
    rewrite encode_ahead by apply H.
    destruct (ok_ahead _ _ Hok _ _ _ H) as [Hpos Hall].
    pose proof (is_free_lt _ _ (Hall (Z.to_nat (Z.of_nat i + fa - 1)) ltac:(lia) ltac:(lia))) as Hfa.
    rewrite u_wrap_small by lia. replace (Z.of_nat i + fa) with (Z.of_nat (i + Z.to_nat fa)) by lia.
    rewrite IH by lia. cbn [mbind option_bind]. f_equal. symmetry. apply occupied_skip.
    intros k Hk. apply used_free; [lia|]. apply Hall; lia.
  - rewrite u_wrap_small by lia. replace (Z.of_nat i + 1) with (Z.of_nat (S i)) by lia.
    rewrite IH by lia. cbn [mbind option_bind]. f_equal. unfold occupied at 2.
    replace (length (start pa) - i)%nat with (S (length (start pa) - S i)) by lia. simpl.
    unfold used at 1. rewrite He. simpl. by rewrite Ef.
Qed.

(** The occupied slots in index order, as indices. *)
Lemma occupied_fst pa i :
  (occupied pa i).*1 = Z.of_nat <$> filter (fun k => is_Some (used pa k)) (seq i (length (start pa) - i)).
Proof.
  unfold occupied. generalize (seq i (length (start pa) - i)). intros l.
  induction l as [|k l IH]; [done|]. simpl. rewrite filter_cons. destruct (used pa k) as [v|] eqn:E; simpl.
  - f_equal. apply IH.
  - apply IH.
Qed.

Lemma occupied_elem pa i v : (Z.of_nat i, v) ∈ occupied pa 0 <-> used pa i = Some v.
Proof.
  unfold occupied. rewrite list_elem_of_omap. split.
  - intros (k & _ & Hk). destruct (used pa k) eqn:E; [|done]. simpl in Hk. by simplify_eq.
  - intros Hu. exists i. rewrite Hu. split; [|done]. apply elem_of_seq.
    apply used_some_lt in Hu. lia.
Qed.

Lemma occupied_length pa fl : pa_ok pa fl -> Z.of_nat (length (occupied pa 0)) = count pa.
Proof.
  intros Hok. rewrite <- (length_fmap fst), occupied_fst, length_fmap, Nat.sub_0_r.
  rewrite (ok_count _ _ Hok). set (n := length (start pa)).
  assert (filter (fun k => is_Some (used pa k)) (seq 0 n) ++ fl ≡ₚ seq 0 n) as Hp.
  { apply NoDup_Permutation; [|apply NoDup_seq|].
    - apply NoDup_app. split_and!; [apply NoDup_filter, NoDup_seq| |apply Hok].
      intros k [[v Hv] _]%list_elem_of_filter Hk%(ok_free_iff _ _ _ Hok).
      rewrite <- used_free in Hk by (by eapply used_some_lt). congruence.
    - intros k. rewrite elem_of_app, list_elem_of_filter, elem_of_seq, (ok_free_iff _ _ _ Hok).
      split; [intros [[_ ?]|Hk%is_free_lt]; unfold n in *; lia|]. intros Hk.
      destruct (used pa k) as [v|] eqn:E; [left; split; [by eexists|lia]|right].
      apply used_free; [unfold n in *; lia|done]. }
  apply Permutation_length in Hp. rewrite length_app, length_seq in Hp. lia.
Qed.

Lemma sorted_filter_seq (P : nat -> Prop) `{!forall x, Decision (P x)} i n :
  StronglySorted Z.lt (Z.of_nat <$> filter P (seq i n)).
Proof.
  revert i. induction n as [|n IH]; intros i; simpl; [constructor|]. rewrite filter_cons.
  case_decide; [|apply IH]. simpl. constructor; [apply IH|]. apply Forall_fmap, Forall_forall.
  intros k [_ Hk%elem_of_seq]%list_elem_of_filter. simpl. lia.
Qed.

(** ** The contract *)

(** What a caller must guarantee: stored values have bit 0 clear, removed and
    replaced indices are occupied, allocations are not empty. *)
Definition valid (m : nat -> option Z) (o : op) : Prop :=
  match o with
  | OInsert v => elem_is_free v = false
  | OBulkAlloc n => 0 < n
  | OSet _ v => elem_is_free v = false
  | ORemove i => is_Some (m i)
  | OReplace i v => is_Some (m i) /\ elem_is_free v = false
  | OLookup _ => True
  end.

(** The array the operation may need fits in the 31-bit index range. *)
Definition room (pa : ucs_ptr_array_t) (o : op) : Prop :=
  match o with
  | OInsert _ => Z.max (size pa * 2) (size pa + 1) <= SENTINEL
  | OBulkAlloc n => Z.max (size pa * 2) (size pa + n) <= SENTINEL
  | OSet i _ => (size pa <= Z.of_nat i -> size pa * 2 <= SENTINEL) /\ Z.of_nat i < SENTINEL
  | _ => True
  end.

(** The operations of a finite map with allocation of fresh indices. *)
Inductive spec_op (m m' : nat -> option Z) : op -> result -> Prop :=
| SInsert v i : m i = None -> (forall k, m' k = if decide (k = i) then Some v else m k) ->
    spec_op m m' (OInsert v) (RIndex (Z.of_nat i))
| SBulkAlloc n i : (forall k, (i <= k < i + Z.to_nat n)%nat -> m k = None) ->
    (forall k, m' k = if decide (i <= k < i + Z.to_nat n)%nat then Some 0 else m k) ->
    spec_op m m' (OBulkAlloc n) (RIndex (Z.of_nat i))
| SSet i v : (forall k, m' k = if decide (k = i) then Some v else m k) -> spec_op m m' (OSet i v) RUnit
| SRemove i : (forall k, m' k = if decide (k = i) then None else m k) -> spec_op m m' (ORemove i) RUnit
| SReplace i v old : m i = Some old -> (forall k, m' k = if decide (k = i) then Some v else m k) ->
    spec_op m m' (OReplace i v) (RValue old)
| SLookup i : (forall k, m' k = m k) -> spec_op m m' (OLookup i) (RFound (m i)).

(** C5: the pointer array implements a finite map with index allocation.  From
    a well-formed array, every operation a caller may issue succeeds (no failed
    assertion, no access outside the array), leaves a well-formed array, and
    changes the index/value map as specified: [insert] and [bulk_alloc] return
    free indices and fill exactly those, [set], [remove] and [replace] change
    one index, [lookup] returns the stored value. *)
Theorem ptr_array_refines pa o : pa_wf pa -> valid (used pa) o -> room pa o ->
  exists r pa', run_op pa o = Some (r, pa') /\ pa_wf pa' /\ spec_op (used pa) (used pa') o r.
Proof.
  intros Hwf Hv Hr. destruct o as [v|n|i v|i|i v|i]; simpl in *.
  - destruct (insert_value_ok pa v) as (i & pa' & -> & ? & ? & ? & _); [done..|].
    eexists _, _. split_and!; [done|done|by constructor].
  - destruct (bulk_alloc_ok pa n) as (i & pa' & -> & ? & _ & Hu); [done..|].
    eexists _, _. split_and!; [done|done|]. constructor; intros k; apply Hu.
  - destruct Hwf as [fl Hok]. pose proof (ok_size _ _ Hok).
    destruct (set_ok pa i v) as (pa' & -> & ? & ? & _); [by eexists|done|intros; apply Hr; lia|apply Hr|].
    eexists _, _. split_and!; [done|done|by constructor].
  - destruct Hwf as [fl Hok], Hv as [w Hw]. destruct (remove_ok _ _ _ _ Hok Hw) as (pa' & -> & ? & ? & _).
    eexists _, _. split_and!; [done|by eexists|by constructor].
  - destruct Hv as [[w Hw] Hv]. destruct (replace_value_ok _ _ _ v Hwf Hw Hv) as (pa' & -> & ? & ? & _).
    eexists _, _. split_and!; [done|done|by constructor].
  - eexists _, _. rewrite lookup_used by done. split_and!; [done|done|by constructor].
Qed.

(** The skip counts are right.  [ucs_ptr_array_for_each] terminates on a
    well-formed array and visits exactly the indices [ucs_ptr_array_lookup]
    finds, each once and in increasing order, with the stored values; their
    number is [ucs_ptr_array_get_elem_count]. *)
Theorem ptr_array_for_each_visits pa : pa_wf pa ->
  exists l, ucs_ptr_array_for_each pa = Some l /\
    (forall i v, (Z.of_nat i, v) ∈ l <-> ucs_ptr_array_lookup pa (Z.of_nat i) = Some v) /\
    StronglySorted Z.lt l.*1 /\ Z.of_nat (length l) = ucs_ptr_array_get_elem_count pa.
Proof.
  intros Hwf. pose proof Hwf as [fl Hok]. exists (occupied pa 0). split_and!.
  - apply (for_each_from_spec _ _ _ 0 Hok); lia.
  - intros i v. rewrite lookup_used by done. apply occupied_elem.
  - rewrite occupied_fst. apply sorted_filter_seq.
  - by eapply occupied_length.
Qed.

(** The array after [insert], [insert], [set] at index 5 and [remove] of 0. *)
Definition sample : option ucs_ptr_array_t :=
  '(_, pa) ← ucs_ptr_array_insert ucs_ptr_array_init 16;
  '(_, pa) ← ucs_ptr_array_insert pa 32;
  pa ← ucs_ptr_array_set pa 5 48;
  ucs_ptr_array_remove pa 0.

Lemma sample_wf : exists pa, sample = Some pa /\ pa_wf pa.
Proof.
  destruct (insert_value_ok ucs_ptr_array_init 16) as (i1 & p1 & E1 & W1 & _); [by exists [];apply init_ok|done|done|].
  vm_compute in E1. injection E1 as _ <-.
  destruct (insert_value_ok _ 32 W1) as (i2 & p2 & E2 & W2 & _); [done|done|]. vm_compute in E2. injection E2 as _ <-.
  destruct (set_ok _ 5 48 W2) as (p3 & E3 & [fl3 W3] & _); [done|done|done|]. vm_compute in E3. injection E3 as <-.
  destruct (remove_ok _ _ 0 16 W3 eq_refl) as (p4 & E4 & W4 & _). vm_compute in E4. injection E4 as <-.
  eexists. split; [vm_compute; reflexivity|by eexists].
Qed.

Lemma ptr_array_refines_witness :
  exists pa, sample = Some pa /\ exists r pa', run_op pa (OReplace 5 64) = Some (r, pa') /\ pa_wf pa' /\
    spec_op (used pa) (used pa') (OReplace 5 64) r.
Proof.
  destruct sample_wf as (pa & E & Hwf). exists pa. split; [done|].
  assert (used pa 5 = Some 48) as Hu by (vm_compute in E; injection E as <-; reflexivity).
  apply (ptr_array_refines pa (OReplace 5 64)); [exact Hwf|split; [by eexists|done]|exact I].
Defined.

Lemma ptr_array_for_each_visits_witness :
  exists pa, sample = Some pa /\ ucs_ptr_array_for_each pa = Some [(1, 32); (5, 48)] /\
    exists l, ucs_ptr_array_for_each pa = Some l /\
    (forall i v, (Z.of_nat i, v) ∈ l <-> ucs_ptr_array_lookup pa (Z.of_nat i) = Some v) /\
    StronglySorted Z.lt l.*1 /\ Z.of_nat (length l) = ucs_ptr_array_get_elem_count pa.
Proof.
  destruct sample_wf as (pa & E & Hwf). exists pa. split; [done|].
  split; [vm_compute in E; injection E as <-; vm_compute; reflexivity|].
  apply (ptr_array_for_each_visits pa Hwf).
Defined.

End PtrArray.
