(* ===== verification/PgTable.v ===== *)
(** Page table of [ucs/datastruct/pgtable.[ch]]: the radix tree that maps 64-bit
    addresses to registered memory regions (registration cache, memory-type cache).

    An entry is empty, a region or a directory of 16 entries with a count of the
    present ones; a pointer to a directory is the directory itself (every
    directory has one parent), and a pointer to a region is the region with its
    address, by which the code compares them.  So directories have no addresses here,
    and the assertion of [ucs_pgt_check_ptr], that a pointer stored in an entry is
    aligned and leaves the flag bits free, is not in the model: it is a promise of
    the callers that allocate the regions and the directories.  [None] is a failed assertion or a
    loop that does not end; the assertions are those of a debug build and are
    switched by [enable_assert]. *)

From stdpp Require Import functions.
From S2P Require Import Prelude Bits.
Import Bits.

Module PgTable.

Definition UCS_PGT_ADDR_SHIFT : Z := 4.
Definition UCS_PGT_ADDR_ALIGN : Z := 16.
Definition UCS_PGT_ADDR_ORDER : Z := 64.
Definition UCS_PGT_ENTRY_SHIFT : Z := 4.
Definition UCS_PGT_ENTRIES_PER_DIR : Z := 16.
Definition UCS_PGT_ENTRY_MASK : Z := 15.

Record ucs_pgt_region_t := Region { r_ptr : Z; r_start : Z; r_end : Z }.

#[export] Instance region_eq_dec : EqDecision ucs_pgt_region_t.
Proof. solve_decision. Defined.

Inductive ucs_pgt_entry_t :=
| EEmpty
| ERegion (region : ucs_pgt_region_t)
| EDir (count : Z) (entries : Z -> ucs_pgt_entry_t).

Record ucs_pgtable_t := PgTable {
  root : ucs_pgt_entry_t;
  base : Z;
  mask : Z;
  shift : Z;
  num_regions : Z
}.

Definition set_root (e : ucs_pgt_entry_t) (t : ucs_pgtable_t) : ucs_pgtable_t :=
  PgTable e (base t) (mask t) (shift t) (num_regions t).
Definition set_base (b : Z) (t : ucs_pgtable_t) : ucs_pgtable_t :=
  PgTable (root t) b (mask t) (shift t) (num_regions t).
Definition add_num_regions (d : Z) (t : ucs_pgtable_t) : ucs_pgtable_t :=
  PgTable (root t) (base t) (mask t) (shift t) (u32 (num_regions t + d)).

Definition ucs_pgt_entry_present (pte : ucs_pgt_entry_t) : bool :=
  match pte with EEmpty => false | _ => true end.

Definition ucs_pgt_is_addr_aligned (addr : Z) : bool :=
  Z.land addr (UCS_PGT_ADDR_ALIGN - 1) =? 0.

(** The memory [ucs_pgt_dir_alloc] returns, cleared. *)
Definition ucs_pgt_dir_alloc : Z * (Z -> ucs_pgt_entry_t) := (0, fun _ => EEmpty).

(** [ucs_pgt_entry_test(pte, UCS_PGT_ENTRY_FLAG_REGION)] *)
Definition ucs_pgt_entry_is_region (pte : ucs_pgt_entry_t) : bool :=
  match pte with ERegion _ => true | _ => false end.

(** The directory [pte] points to, a fresh one if it is empty. *)
Definition dir_or_alloc (pte : ucs_pgt_entry_t) : Z * (Z -> ucs_pgt_entry_t) :=
  match pte with EDir count entries => (count, entries) | _ => ucs_pgt_dir_alloc end.

Definition entry_index (address shift : Z) : Z :=
  Z.land (Z.shiftr address shift) UCS_PGT_ENTRY_MASK.

Section operations.
Context (enable_assert : bool).

Definition ucs_assert (b : bool) : option unit :=
  if enable_assert && negb b then None else Some tt.

Definition ucs_pgt_address_advance (address order : Z) : option Z :=
  _ ← ucs_assert (order <? 64);
  Some (u64 (address + Z.shiftl 1 order)).

Definition ucs_pgtable_reset (t : ucs_pgtable_t) : ucs_pgtable_t :=
  PgTable (root t) 0 (u64 (Z.shiftl (2 ^ 64 - 1) UCS_PGT_ADDR_SHIFT)) UCS_PGT_ADDR_SHIFT (num_regions t).

Definition ucs_pgtable_expand (t : ucs_pgtable_t) : option ucs_pgtable_t :=
  _ ← ucs_assert (shift t <=? UCS_PGT_ADDR_ORDER - UCS_PGT_ENTRY_SHIFT);
  let root' :=
    if ucs_pgt_entry_present (root t) then
      let '(_, entries) := ucs_pgt_dir_alloc in
      EDir 1 (<[entry_index (base t) (shift t) := root t]> entries)
    else root t in
  let mask' := u64 (Z.shiftl (mask t) UCS_PGT_ENTRY_SHIFT) in
  Some (PgTable root' (Z.land (base t) mask') mask' (shift t + UCS_PGT_ENTRY_SHIFT) (num_regions t)).

(** The index of the first present entry, from [pte_idx]. *)
Fixpoint find_present (fuel : nat) (entries : Z -> ucs_pgt_entry_t) (pte_idx : Z) : option Z :=
  match fuel with
  | O => None
  | S fuel => if ucs_pgt_entry_present (entries pte_idx) then Some pte_idx
              else find_present fuel entries (pte_idx + 1)
  end.

(** The result is whether the table was shrunk. *)
Definition ucs_pgtable_shrink (t : ucs_pgtable_t) : option (bool * ucs_pgtable_t) :=
  match root t with
  | EEmpty => Some (false, ucs_pgtable_reset t)
  | ERegion _ => Some (false, t)
  | EDir count entries =>
      _ ← ucs_assert (0 <? count);
      if negb (count =? 1) then Some (false, t)
      else
        pte_idx ← find_present 16 entries 0;
        let shift' := shift t - UCS_PGT_ENTRY_SHIFT in
        Some (true, PgTable (entries pte_idx) (Z.lor (base t) (u64 (Z.shiftl pte_idx shift')))
                      (Z.lor (mask t) (u64 (Z.shiftl UCS_PGT_ENTRY_MASK shift'))) shift' (num_regions t))
  end.

(** [while (ucs_pgtable_shrink(pgtable));] *)
Definition shrink_all (t : ucs_pgtable_t) : option ucs_pgtable_t :=
  while (fun t => '(again, t) ← ucs_pgtable_shrink t; Some (if again : bool then inl t else inr t)) t.

Definition ucs_pgtable_check_page (address order : Z) : option unit :=
  _ ← ucs_assert (Z.land address (u64 (Z.shiftl 1 order - 1)) =? 0);
  ucs_assert ((order - UCS_PGT_ADDR_SHIFT) mod UCS_PGT_ENTRY_SHIFT =? 0).

Definition ucs_pgtable_get_next_page_order (start end_ : Z) : option Z :=
  _ ← ucs_assert (ucs_pgt_is_addr_aligned start);
  _ ← ucs_assert (ucs_pgt_is_addr_aligned end_);
  let log2_len :=
    if (end_ =? 0) && (start =? 0) then UCS_PGT_ADDR_ORDER
    else if end_ =? start then UCS_PGT_ADDR_SHIFT
    else
      let log2_len := ucs_ilog2 (u64 (end_ - start)) in
      if negb (start =? 0) then Z.min (ucs_ffs64 start) log2_len else log2_len in
  _ ← ucs_assert ((UCS_PGT_ADDR_SHIFT <=? log2_len) && (log2_len <=? UCS_PGT_ADDR_ORDER));
  Some ((log2_len - UCS_PGT_ADDR_SHIFT) / UCS_PGT_ENTRY_SHIFT * UCS_PGT_ENTRY_SHIFT + UCS_PGT_ADDR_SHIFT).

(** The descent of [ucs_pgtable_insert_page] from [pte]: the status, the new
    entry and whether the count of the directory that holds it grows. *)
Fixpoint insert_descend (fuel : nat) (pte : ucs_pgt_entry_t) (shift address order : Z)
    (region : ucs_pgt_region_t) : option (ucs_status_t * ucs_pgt_entry_t * bool) :=
  match fuel with
  | O => None
  | S fuel =>
      if order =? shift then
        if ucs_pgt_entry_present pte then Some (UCS_ERR_ALREADY_EXISTS, pte, false)
        else Some (UCS_OK, ERegion region, true)
      else
        if ucs_pgt_entry_is_region pte then Some (UCS_ERR_ALREADY_EXISTS, pte, false)
        else
          _ ← ucs_assert (UCS_PGT_ENTRY_SHIFT + order <=? shift);
          let '(count, entries) := dir_or_alloc pte in
          let shift := shift - UCS_PGT_ENTRY_SHIFT in
          let i := entry_index address shift in
          '(status, pte', added) ← insert_descend fuel (entries i) shift address order region;
          Some (status, EDir (if added : bool then u32 (count + 1) else count) (<[i := pte']> entries),
                negb (ucs_pgt_entry_present pte))
  end.

(** The first loop of [ucs_pgtable_insert_page]: the root spans the page size. *)
Definition span_order (t : ucs_pgtable_t) (order : Z) : option ucs_pgtable_t :=
  while (fun t => if shift t <? order then t ← ucs_pgtable_expand t; Some (inl t) else Some (inr t)) t.

(** The second one: the root spans the address. *)
Definition span_address (t : ucs_pgtable_t) (address : Z) : option ucs_pgtable_t :=
  if ucs_pgt_entry_present (root t) then
    while (fun t => if negb (Z.land address (mask t) =? base t)
                    then t ← ucs_pgtable_expand t; Some (inl t) else Some (inr t)) t
  else Some (set_base (Z.land address (mask t)) t).

Definition ucs_pgtable_insert_page (t : ucs_pgtable_t) (address order : Z) (region : ucs_pgt_region_t)
    : option (ucs_status_t * ucs_pgtable_t) :=
  _ ← ucs_pgtable_check_page address order;
  t ← span_order t order;
  t ← span_address t address;
  '(status, root', _) ← insert_descend 17 (root t) (shift t) address order region;
  let t := set_root root' t in
  match status with
  | UCS_OK => Some (UCS_OK, t)
  | _ => t ← shrink_all t; Some (UCS_ERR_ALREADY_EXISTS, t)
  end.

(** The status, the new entry and whether the count of the directory that holds
    it drops. *)
Fixpoint ucs_pgtable_remove_page_recurs (pte : ucs_pgt_entry_t) (shift address order : Z)
    (region : ucs_pgt_region_t) : option (ucs_status_t * ucs_pgt_entry_t * bool) :=
  match pte with
  | ERegion r =>
      _ ← ucs_assert (shift =? order);
      if negb (r_ptr r =? r_ptr region) then Some (UCS_ERR_NO_ELEM, pte, false)
      else Some (UCS_OK, EEmpty, true)
  | EDir count entries =>
      let next_shift := shift - UCS_PGT_ENTRY_SHIFT in
      let i := entry_index address next_shift in
      '(status, next_pte, removed) ←
        ucs_pgtable_remove_page_recurs (entries i) next_shift address order region;
      let count := if removed : bool then u32 (count - 1) else count in
      let pte := EDir count (<[i := next_pte]> entries) in
      if decide (status = UCS_OK) then
        Some (if count =? 0 then (UCS_OK, EEmpty, true) else (UCS_OK, pte, false))
      else Some (UCS_ERR_NO_ELEM, pte, false)
  | EEmpty => Some (UCS_ERR_NO_ELEM, pte, false)
  end.

Definition ucs_pgtable_remove_page (t : ucs_pgtable_t) (address order : Z) (region : ucs_pgt_region_t)
    : option (ucs_status_t * ucs_pgtable_t) :=
  _ ← ucs_pgtable_check_page address order;
  if negb (Z.land address (mask t) =? base t) then Some (UCS_ERR_NO_ELEM, t)
  else
    '(status, root', _) ← ucs_pgtable_remove_page_recurs (root t) (shift t) address order region;
    let t := set_root root' t in
    if decide (status = UCS_OK) then t ← shrink_all t; Some (UCS_OK, t)
    else Some (status, t).

(** The pages of [[address, end)] given to [page] in turn, until one fails; the
    result has the address reached. *)
Definition for_each_page (page : ucs_pgtable_t -> Z -> Z -> option (ucs_status_t * ucs_pgtable_t))
    (stop_on_error : bool) (t : ucs_pgtable_t) (address end_ : Z) : option (ucs_status_t * ucs_pgtable_t * Z) :=
  while (fun '(t, address) =>
    if address <? end_ then
      order ← ucs_pgtable_get_next_page_order address end_;
      '(status, t) ← page t address order;
      if stop_on_error && bool_decide (status <> UCS_OK) then Some (inr (status, t, address))
      else
        address ← ucs_pgt_address_advance address order;
        Some (inl (t, address))
    else Some (inr (UCS_OK, t, address))) (t, address).

Definition bad_range (start end_ : Z) : bool :=
  (end_ <=? start) || negb (ucs_pgt_is_addr_aligned start) || negb (ucs_pgt_is_addr_aligned end_).

Definition ucs_pgtable_insert (t : ucs_pgtable_t) (region : ucs_pgt_region_t)
    : option (ucs_status_t * ucs_pgtable_t) :=
  if bad_range (r_start region) (r_end region) then Some (UCS_ERR_INVALID_PARAM, t)
  else
    '(status, t, address) ←
      for_each_page (fun t a o => ucs_pgtable_insert_page t a o region) true t (r_start region) (r_end region);
    if decide (status = UCS_OK) then Some (UCS_OK, add_num_regions 1 t)
    else
      '(_, t, _) ←
        for_each_page (fun t a o => ucs_pgtable_remove_page t a o region) false t (r_start region) address;
      Some (status, t).

Definition ucs_pgtable_remove (t : ucs_pgtable_t) (region : ucs_pgt_region_t)
    : option (ucs_status_t * ucs_pgtable_t) :=
  if bad_range (r_start region) (r_end region) then Some (UCS_ERR_NO_ELEM, t)
  else
    '(status, t, address) ←
      for_each_page (fun t a o => ucs_pgtable_remove_page t a o region) true t (r_start region) (r_end region);
    if decide (status = UCS_OK) then
      _ ← ucs_assert (0 <? num_regions t);
      Some (UCS_OK, add_num_regions (-1) t)
    else
      _ ← ucs_assert (address =? r_start region);
      Some (status, t).

Fixpoint lookup_descend (pte : ucs_pgt_entry_t) (shift address : Z) : option (option ucs_pgt_region_t) :=
  match pte with
  | ERegion region =>
      _ ← ucs_assert ((r_start region <=? address) && (address <? r_end region));
      Some (Some region)
  | EDir _ entries =>
      let shift := shift - UCS_PGT_ENTRY_SHIFT in
      lookup_descend (entries (entry_index address shift)) shift address
  | EEmpty => Some None
  end.

(** The inner option is the returned pointer. *)
Definition ucs_pgtable_lookup (t : ucs_pgtable_t) (address : Z) : option (option ucs_pgt_region_t) :=
  if negb (Z.land address (mask t) =? base t) then Some None
  else lookup_descend (root t) (shift t) address.

(** The state of a search: the last region found and all found so far, the
    arguments of the calls of [cb] in order. *)
Definition search_state : Type := option ucs_pgt_region_t * list ucs_pgt_region_t.

(** A region entry met by the search. *)
Definition search_region (address order : Z) (region : ucs_pgt_region_t) (st : search_state) : option search_state :=
  let '(last, calls) := st in
  let found :=
    _ ← ucs_assert (Z.max (r_start region) address <=?
                    Z.min (u64 (r_end region - 1)) (u64 (address + UCS_MASK_SAFE order)));
    Some (Some region, calls ++ [region]) in
  match last with
  | Some l =>
      if r_ptr l =? r_ptr region then Some st
      else _ ← ucs_assert (r_end l <=? r_start region); found
  | None => found
  end.

Fixpoint ucs_pgtable_search_recurs (pte : ucs_pgt_entry_t) (shift address order : Z) (st : search_state)
    : option search_state :=
  match pte with
  | ERegion region => search_region address order region st
  | EDir _ entries =>
      _ ← ucs_assert (UCS_PGT_ENTRY_SHIFT <=? shift);
      let next_shift := shift - UCS_PGT_ENTRY_SHIFT in
      if order <? shift then
        _ ← ucs_assert (order <=? next_shift);
        ucs_pgtable_search_recurs (entries (entry_index address next_shift)) next_shift address order st
      else
        foldl (fun st i => st ← st; ucs_pgtable_search_recurs (entries i) next_shift address order st)
          (Some st) (seqZ 0 UCS_PGT_ENTRIES_PER_DIR)
  | EEmpty => Some st
  end.

(** One iteration of [ucs_pgtable_search_range]. *)
Definition search_step (t : ucs_pgtable_t) (end_ to : Z) (s : Z * search_state)
    : option ((Z * search_state) + search_state) :=
  let '(address, st) := s in
  if address <=? to then
    order ← ucs_pgtable_get_next_page_order address end_;
    st ← (if Z.land address (mask t) =? base t
          then ucs_pgtable_search_recurs (root t) (shift t) address order st else Some st);
    if order =? UCS_PGT_ADDR_ORDER then Some (inr st)
    else
      address ← ucs_pgt_address_advance address order;
      Some (inl (address, st))
  else Some (inr st).

(** The first address and the end of the search. *)
Definition search_bounds (t : ucs_pgtable_t) (from to : Z) : Z * Z :=
  let address := ucs_align_down_pow2 from UCS_PGT_ADDR_ALIGN in
  let end_ := ucs_align_up_pow2 to UCS_PGT_ADDR_ALIGN in
  if shift t <? 64
  then (Z.max address (base t), Z.min end_ (u64 (base t + UCS_BIT (shift t))))
  else (address, end_).

(** The regions [cb] is called with, in order. *)
Definition ucs_pgtable_search_range (t : ucs_pgtable_t) (from to : Z) : option (list ucs_pgt_region_t) :=
  let '(address, end_) := search_bounds t from to in
  _ ← ucs_assert ((shift t <? 64) || (base t =? 0));
  '(_, calls) ← while (search_step t end_ to) (address, (None, []));
  Some calls.

(** The table, and the regions the callback is called with. *)
Definition ucs_pgtable_purge (t : ucs_pgtable_t) : option (ucs_pgtable_t * list ucs_pgt_region_t) :=
  '(t, all_regions) ←
    (if num_regions t =? 0 then Some (t, [])
     else
       let from := base t in
       let to := u64 (base t + Z.land (u64 (Z.shiftl 1 (shift t))) (mask t) - 1) in
       all_regions ← ucs_pgtable_search_range t from to;
       _ ← ucs_assert (Z.of_nat (length all_regions) =? num_regions t);
       t ← foldl (fun t region => t ← t; '(_, t) ← ucs_pgtable_remove t region; Some t) (Some t) all_regions;
       Some (t, all_regions));
  _ ← ucs_assert (negb (ucs_pgt_entry_present (root t)));
  _ ← ucs_assert (shift t =? UCS_PGT_ADDR_SHIFT);
  _ ← ucs_assert (base t =? 0);
  _ ← ucs_assert (num_regions t =? 0);
  Some (t, all_regions).

End operations.

Definition ucs_pgtable_init : ucs_pgtable_t :=
  ucs_pgtable_reset (PgTable EEmpty 0 0 0 0).

(** Whether [ucs_pgtable_cleanup] warns that the table is not empty. *)
Definition ucs_pgtable_cleanup (t : ucs_pgtable_t) : bool := negb (num_regions t =? 0).

Definition ucs_pgtable_num_regions (t : ucs_pgtable_t) : Z := num_regions t.

(** ** Meaning of the tree

    [emap s e a] is the page that maps address [a] under entry [e] of a table
    level of span [2 ^ s]: its order and its region. *)

Fixpoint emap (s : Z) (e : ucs_pgt_entry_t) (a : Z) : option (Z * ucs_pgt_region_t) :=
  match e with
  | EEmpty => None
  | ERegion r => Some (s, r)
  | EDir _ entries => emap (s - 4) (entries (entry_index a (s - 4))) a
  end.

Definition pmap (t : ucs_pgtable_t) (a : Z) : option (Z * ucs_pgt_region_t) :=
  if Z.land a (mask t) =? base t then emap (shift t) (root t) a else None.

Definition count_present (entries : Z -> ucs_pgt_entry_t) : Z :=
  Z.of_nat (length (filter (fun i => ucs_pgt_entry_present (entries i) = true) (seqZ 0 16))).

(** Directories count their present entries, and none is empty. *)
Fixpoint wf_entry (s : Z) (e : ucs_pgt_entry_t) : Prop :=
  match e with
  | EDir count entries =>
      8 <= s /\ count = count_present entries /\ 0 < count /\
      forall i, 0 <= i < 16 -> wf_entry (s - 4) (entries i)
  | _ => True
  end.

Definition ok_order (o : Z) : Prop := 4 <= o <= 64 /\ o mod 4 = 0.

(** The fields that describe the span of the table agree. *)
Record wf_span (t : ucs_pgtable_t) : Prop := WfSpan {
  span_shift : ok_order (shift t);
  span_mask : mask t = 2 ^ 64 - 2 ^ shift t;
  span_base : 0 <= base t < 2 ^ 64 /\ base t mod 2 ^ shift t = 0;
  span_entry : wf_entry (shift t) (root t)
}.

Definition wf_table (t : ucs_pgtable_t) : Prop :=
  wf_span t /\ (root t = EEmpty -> base t = 0 /\ shift t = 4).

Definition address (a : Z) : Prop := 0 <= a < 2 ^ 64.

(** [a] and [p] are in the same page of order [o]. *)
Definition inpage (o p a : Z) : Prop := a / 2 ^ o = p / 2 ^ o.

#[export] Instance inpage_dec o p a : Decision (inpage o p a) := decide (a / 2 ^ o = p / 2 ^ o).

(** ** Arithmetic *)

Lemma land_mask a s : address a -> 0 <= s <= 64 -> Z.land a (2 ^ 64 - 2 ^ s) = a - a mod 2 ^ s.
Proof.
  intros Ha Hs. assert (2 ^ 64 - 2 ^ s = Z.land (Z.ones 64) (Z.lnot (Z.ones s))) as ->.
  { rewrite Z.land_comm, Z.land_ones by done. unfold Z.lnot. rewrite Z.ones_equiv.
    destruct (decide (s = 64)) as [->|]; [reflexivity|].
    assert (2 ^ s < 2 ^ 64) by (apply Z.pow_lt_mono_r; lia).
    replace (Z.pred (- Z.pred (2 ^ s))) with (2 ^ 64 - 2 ^ s + (-1) * 2 ^ 64) by lia.
    rewrite Z.mod_add, Z.mod_small by lia. done. }
  rewrite Z.land_assoc, (Z.land_ones a 64), Z.mod_small by (done || lia).
  rewrite <- Z.ldiff_land, Z.ldiff_ones_r, Z.shiftl_mul_pow2, Z.shiftr_div_pow2 by lia.
  pose proof (Z.div_mod a (2 ^ s) ltac:(lia)). lia.
Qed.

Lemma entry_index_div a s : 0 <= s -> entry_index a s = (a / 2 ^ s) mod 16.
Proof.
  intros Hs. unfold entry_index, UCS_PGT_ENTRY_MASK. change 15 with (Z.ones 4).
  by rewrite Z.land_ones, Z.shiftr_div_pow2.
Qed.

Lemma entry_index_range a s : 0 <= s -> 0 <= entry_index a s < 16.
Proof. intros Hs. rewrite entry_index_div by done. by apply Z.mod_pos_bound. Qed.

Lemma div_pow2_16 a s : 0 <= s -> a / 2 ^ (s + 4) = a / 2 ^ s / 16.
Proof. intros Hs. rewrite Z.pow_add_r, Z.div_div by lia. done. Qed.

(** Within a page, the sub-page is the entry index. *)
Lemma inpage_index s p a : 4 <= s -> inpage s p a ->
  (inpage (s - 4) p a <-> entry_index a (s - 4) = entry_index p (s - 4)).
Proof.
  intros Hs. unfold inpage. rewrite !entry_index_div by lia.
  replace s with (s - 4 + 4) at 1 2 by lia. rewrite !div_pow2_16 by lia.
  set (A := a / 2 ^ (s - 4)). set (P := p / 2 ^ (s - 4)). intros E.
  split; [by intros ->|]. intros M. rewrite (Z.div_mod A 16), (Z.div_mod P 16) by lia. lia.
Qed.

Lemma inpage_up o s p a : 0 <= o <= s -> inpage o p a -> inpage s p a.
Proof.
  intros Ho E. unfold inpage in *. replace s with (o + (s - o)) by lia.
  rewrite Z.pow_add_r, <- !Z.div_div by lia. by rewrite E.
Qed.

Lemma inpage_refl o p : inpage o p p.
Proof. done. Qed.

Lemma inpage_range o p a : 0 <= o -> p mod 2 ^ o = 0 -> inpage o p a <-> p <= a < p + 2 ^ o.
Proof.
  intros Ho Hp. unfold inpage. pose proof (Z.div_mod p (2 ^ o) ltac:(lia)) as Ep.
  pose proof (Z.div_mod a (2 ^ o) ltac:(lia)) as Ea. pose proof (Z.mod_pos_bound a (2 ^ o) ltac:(lia)).
  split; [nia|]. intros Hr. assert (0 < 2 ^ o) by lia. nia.
Qed.

(** The sub-page number [i] of the page of [p]. *)
Lemma subpage_exists s p i : 4 <= s -> 0 <= i < 16 ->
  exists a, inpage s p a /\ entry_index a (s - 4) = i /\ a mod 2 ^ (s - 4) = 0.
Proof.
  intros Hs Hi. unfold inpage. set (q := p / 2 ^ s). exists ((16 * q + i) * 2 ^ (s - 4)).
  rewrite entry_index_div, Z.div_mul, Z.mod_mul by lia.
  replace (2 ^ s) with (2 ^ (s - 4) * 16) by (change 16 with (2 ^ 4); rewrite <- Z.pow_add_r by lia; f_equal; lia).
  rewrite <- Z.div_div, Z.div_mul by lia.
  split_and!; [|rewrite Z.add_comm, Z.mul_comm, Z.mod_add, Z.mod_small; lia|done].
  rewrite (Z.mul_comm 16), Z.div_add_l, (Z.div_small i) by lia. lia.
Qed.

(** ** Counts *)

Lemma count_split f i : 0 <= i < 16 ->
  count_present f = Z.of_nat (length (filter (fun k => ucs_pgt_entry_present (f k) = true) (seqZ 0 i))) +
    Z.b2z (ucs_pgt_entry_present (f i)) +
    Z.of_nat (length (filter (fun k => ucs_pgt_entry_present (f k) = true) (seqZ (i + 1) (15 - i)))).
Proof.
  intros Hi. unfold count_present. replace 16 with (i + (1 + (15 - i))) at 1 by lia.
  rewrite seqZ_app, filter_app, length_app by lia. rewrite (seqZ_app _ 1 (15 - i)), filter_app, length_app by lia.
  rewrite Z.add_0_l. replace (seqZ i 1) with [i] by done. rewrite filter_cons.
  destruct (ucs_pgt_entry_present (f i)) eqn:E; [rewrite decide_True by done|rewrite decide_False by done];
    change (filter _ []) with (@nil Z); simpl length; simpl Z.b2z; lia.
Qed.

Lemma count_insert f i x : 0 <= i < 16 ->
  count_present (<[i := x]> f) = count_present f - Z.b2z (ucs_pgt_entry_present (f i)) + Z.b2z (ucs_pgt_entry_present x).
Proof.
  intros Hi. rewrite !(count_split _ i Hi), fn_lookup_insert.
  assert (forall l : list Z, i ∉ l -> filter (fun k => ucs_pgt_entry_present (<[i := x]> f k) = true) l =
                             filter (fun k => ucs_pgt_entry_present (f k) = true) l) as Hl.
  { intros l Hil. apply filter_ext_in. intros k Hk. rewrite fn_lookup_insert_ne; [done|]. by intros ->. }
  rewrite !Hl by (rewrite elem_of_seqZ; lia). lia.
Qed.

Lemma count_range f : 0 <= count_present f <= 16.
Proof.
  unfold count_present. pose proof (length_filter (fun i => ucs_pgt_entry_present (f i) = true) (seqZ 0 16)) as H.
  rewrite length_seqZ in H. lia.
Qed.

Lemma count_pos f : 0 < count_present f -> exists i, 0 <= i < 16 /\ ucs_pgt_entry_present (f i) = true.
Proof.
  unfold count_present. destruct (filter _ (seqZ 0 16)) as [|i l] eqn:E; [simpl; lia|]. intros _. exists i.
  assert (i ∈ filter (fun i => ucs_pgt_entry_present (f i) = true) (seqZ 0 16)) as Hi by (rewrite E; by left).
  apply list_elem_of_filter in Hi as [Hp Hi%elem_of_seqZ]. split; [lia|done].
Qed.

Lemma count_present_pos f i : 0 <= i < 16 -> ucs_pgt_entry_present (f i) = true -> 0 < count_present f.
Proof. intros Hi Hp. rewrite (count_split f i Hi), Hp. simpl Z.b2z. lia. Qed.

Lemma present_iff e : ucs_pgt_entry_present e = true <-> e <> EEmpty.
Proof. destruct e; simpl; split; congruence. Qed.

Lemma present_false e : ucs_pgt_entry_present e = false <-> e = EEmpty.
Proof. destruct e; simpl; split; congruence. Qed.

(** ** Entries *)

(** An entry that is present maps some address of its page. *)
Lemma entry_nonempty e s p : wf_entry s e -> 4 <= s -> e <> EEmpty ->
  exists a, inpage s p a /\ emap s e a <> None.
Proof.
  revert s p. induction e as [|r|c f IH]; intros s p Hwf Hs Hne; [done|by exists p|].
  destruct Hwf as (Hs8 & -> & Hc & Hwf). destruct (count_pos f Hc) as (i & Hi & Hp).
  destruct (subpage_exists s p i Hs Hi) as (b & Hb & Hbi & _).
  destruct (IH i (s - 4) b) as (a & Ha & Hm); [auto|lia|by apply present_iff|].
  assert (inpage s b a) as Hsa by (apply (inpage_up (s - 4)); [lia|done]).
  exists a. split; [unfold inpage in *; congruence|]. simpl.
  rewrite (proj1 (inpage_index s b a Hs Hsa) Ha), Hbi. done.
Qed.

(** Writing one entry of a directory. *)
Lemma emap_dir_insert s c f i e a : emap s (EDir c (<[i := e]> f)) a =
  if decide (entry_index a (s - 4) = i) then emap (s - 4) e a else emap s (EDir c f) a.
Proof.
  simpl. case_decide as E; [by rewrite E, fn_lookup_insert|]. by rewrite fn_lookup_insert_ne.
Qed.

Lemma wf_dir_insert s c f i e : 8 <= s -> c = count_present (<[i := e]> f) -> 0 < c ->
  (forall k, 0 <= k < 16 -> wf_entry (s - 4) (f k)) -> wf_entry (s - 4) e -> wf_entry s (EDir c (<[i := e]> f)).
Proof.
  intros Hs -> Hc Hf He. split_and!; [done|done|done|]. intros k Hk.
  destruct (decide (i = k)) as [->|Hne]; [by rewrite fn_lookup_insert|]. rewrite fn_lookup_insert_ne by done. auto.
Qed.

Lemma dir_or_alloc_spec s e : wf_entry s e -> ucs_pgt_entry_is_region e = false ->
  let '(c, f) := dir_or_alloc e in
  c = count_present f /\ (forall i, 0 <= i < 16 -> wf_entry (s - 4) (f i)) /\
  (forall a, emap s e a = emap s (EDir c f) a).
Proof. destruct e; simpl; [done|done|]. intros (_ & ? & _ & ?) _. done. Qed.

Section proofs.
Context (ea : bool).

Lemma assert_true b : b = true -> ucs_assert ea b = Some tt.
Proof. intros ->. unfold ucs_assert. by rewrite andb_false_r. Qed.

(** What inserting the page of order [o] at [p] does to entry [e]. *)
Record inserted (s o p : Z) (r : ucs_pgt_region_t) (e e' : ucs_pgt_entry_t) : Prop := Inserted {
  ins_free a : inpage o p a -> emap s e a = None;
  ins_map a : inpage s p a -> emap s e' a = if decide (inpage o p a) then Some (o, r) else emap s e a
}.

Record rejected (s o p : Z) (e e' : ucs_pgt_entry_t) : Prop := Rejected {
  rej_used : exists a, inpage o p a /\ emap s e a <> None;
  rej_map a : inpage s p a -> emap s e' a = emap s e a
}.

(** One level of the descent. *)
Lemma insert_dir_case s o p r e c c' f e' st : 4 <= o -> o + 4 <= s ->
  (forall a, emap s e a = emap s (EDir c f) a) ->
  (st = UCS_OK /\ inserted (s - 4) o p r (f (entry_index p (s - 4))) e' \/
   st = UCS_ERR_ALREADY_EXISTS /\ rejected (s - 4) o p (f (entry_index p (s - 4))) e') ->
  (st = UCS_OK /\ inserted s o p r e (EDir c' (<[entry_index p (s - 4) := e']> f)) \/
   st = UCS_ERR_ALREADY_EXISTS /\ rejected s o p e (EDir c' (<[entry_index p (s - 4) := e']> f))).
Proof.
  intros Ho Hos Hmap. set (i := entry_index p (s - 4)).
  assert (forall a, inpage o p a -> inpage s p a /\ entry_index a (s - 4) = i) as Hidx.
  { intros a Hoa. assert (inpage s p a) as Hsa by (apply (inpage_up o); [lia|done]). split; [done|].
    apply inpage_index; [lia|done|]. apply (inpage_up o); [lia|done]. }
  assert (forall a, inpage s p a -> entry_index a (s - 4) = i -> inpage (s - 4) p a) as Hsub.
  { intros a Ha E. apply inpage_index; [lia|done|done]. }
  intros [(-> & [Hfree Hins])|(-> & [[a [Ha Hu]] Hsame])]; [left|right]; (split; [done|]); split.
  - intros a Ha. rewrite Hmap. simpl. rewrite (proj2 (Hidx a Ha)). auto.
  - intros a Ha. rewrite emap_dir_insert, Hmap. simpl. case_decide as E.
    + rewrite Hins by auto. by rewrite E.
    + rewrite decide_False; [done|]. intros Hoa. apply E, Hidx, Hoa.
  - exists a. split; [done|]. rewrite Hmap. simpl. by rewrite (proj2 (Hidx a Ha)).
  - intros b Hb. rewrite emap_dir_insert, Hmap. simpl. case_decide as E; [|done].
    rewrite Hsame by auto. by rewrite E.
Qed.

(** A non-empty slot of a rejected insertion. *)
Lemma rejected_nonempty s o p e e' : rejected s o p e e' -> e <> EEmpty.
Proof. intros [[a [_ Ha]] _] ->. done. Qed.

Lemma insert_descend_ok r o p fuel e s :
  ok_order o -> ok_order s -> o <= s -> s - o < 4 * Z.of_nat fuel -> wf_entry s e ->
  exists st e', insert_descend ea fuel e s p o r = Some (st, e', negb (ucs_pgt_entry_present e)) /\
    wf_entry s e' /\ e' <> EEmpty /\
    ((st = UCS_OK /\ inserted s o p r e e') \/ (st = UCS_ERR_ALREADY_EXISTS /\ rejected s o p e e')).
Proof.
  intros Ho. revert e s. induction fuel as [|fuel IH]; intros e s Hs Hos Hf Hwf; [lia|].
  cbn [insert_descend]. destruct (Z.eqb_spec o s) as [->|Hne].
  - destruct (ucs_pgt_entry_present e) eqn:Ep.
    + apply present_iff in Ep. eexists _, e. split; [done|]. split_and!; [done|done|]. right.
      split; [done|]. split; [|done]. apply entry_nonempty; [done|apply Hs|done].
    + apply present_false in Ep as ->. eexists _, _. split; [done|]. split_and!; [done|done|]. left.
      split; [done|]. split; [done|]. intros a Ha. by rewrite decide_True.
  - destruct Hs as [Hs Hs4], Ho as [Ho Ho4]. assert (o + 4 <= s) as Hos4 by (Z.div_mod_to_equations; lia).
    destruct (ucs_pgt_entry_is_region e) eqn:Er.
    { destruct e as [|r0|]; try done. eexists _, _. split; [done|]. split_and!; [done|done|]. right.
      split; [done|]. split; [|done]. by exists p. }
    rewrite assert_true by (unfold UCS_PGT_ENTRY_SHIFT; apply Z.leb_le; lia). cbn [mbind option_bind].
    pose proof (dir_or_alloc_spec s e Hwf Er) as Hd. destruct (dir_or_alloc e) as [c f] eqn:Ed.
    destruct Hd as (Hc & Hf' & Hmap). set (i := entry_index p (s - UCS_PGT_ENTRY_SHIFT)).
    unfold UCS_PGT_ENTRY_SHIFT in *.
    assert (0 <= i < 16) as Hi by (apply entry_index_range; lia).
    destruct (IH (f i) (s - 4)) as (st & e' & -> & Hwf' & Hne' & Hcase);
      [split; [lia|by rewrite <- Hs4; Z.div_mod_to_equations; lia]|lia|lia|auto|].
    cbn [mbind option_bind]. eexists _, _. split; [done|]. split_and!; [|done|].
    + pose proof (count_range f) as Hcr. assert (ucs_pgt_entry_present e' = true) as Hp' by by apply present_iff.
      apply wf_dir_insert; [lia| | |done|done]; rewrite ?count_insert, ?Hp' by done;
        destruct (ucs_pgt_entry_present (f i)) eqn:Efi; simpl Z.b2z; cbn [negb];
        rewrite ?u_wrap_small by lia; try lia.
      pose proof (count_present_pos f i Hi Efi). lia.
    + eapply insert_dir_case; eauto with lia.
Qed.

(** ** Removal of a page below an entry *)

Lemma emap_order s e a o r : emap s e a = Some (o, r) -> wf_entry s e -> 4 <= s ->
  4 <= o <= s /\ (s - o) mod 4 = 0.
Proof.
  revert s. induction e as [|r0|c f IH]; intros s Hm Hwf Hs; simpl in Hm; [done| |].
  - injection Hm as <- <-. rewrite Z.sub_diag. split; [lia|done].
  - destruct Hwf as (Hs8 & _ & _ & Hwf). destruct (IH _ _ Hm) as [Ho Hm4]; [|lia|].
    + apply Hwf, entry_index_range. lia.
    + split; [lia|]. rewrite <- Hm4. Z.div_mod_to_equations. lia.
Qed.

(** A directory with no other present entry maps nothing else. *)
Lemma count_zero_empty f i k : count_present (<[i := EEmpty]> f) = 0 -> 0 <= k < 16 -> k <> i -> f k = EEmpty.
Proof.
  intros Hc Hk Hki. apply present_false. destruct (ucs_pgt_entry_present (f k)) eqn:E; [|done].
  pose proof (count_present_pos (<[i := EEmpty]> f) k Hk) as H.
  rewrite fn_lookup_insert_ne in H by done. specialize (H E). lia.
Qed.

Lemma remove_recurs_ok r r0 o p e s : wf_entry s e -> 4 <= s ->
  emap s e p = Some (o, r0) -> r_ptr r0 = r_ptr r ->
  exists e', ucs_pgtable_remove_page_recurs ea e s p o r = Some (UCS_OK, e', negb (ucs_pgt_entry_present e')) /\
    wf_entry s e' /\
    forall a, inpage s p a -> emap s e' a = if decide (inpage o p a) then None else emap s e a.
Proof.
  intros Hwf Hs Hm Hr. revert s Hwf Hs Hm. induction e as [|r1|c f IH]; intros s Hwf Hs Hm; [done| |].
  - simpl in Hm. injection Hm as -> ->. cbn [ucs_pgtable_remove_page_recurs].
    rewrite assert_true by apply Z.eqb_refl. cbn [mbind option_bind]. rewrite Hr, Z.eqb_refl.
    exists EEmpty. split; [done|]. split; [done|]. intros a Ha. by rewrite decide_True.
  - pose proof (emap_order _ _ _ _ _ Hm Hwf Hs) as [Ho _].
    destruct Hwf as (Hs8 & -> & Hc & Hwf). simpl in Hm. cbn [ucs_pgtable_remove_page_recurs].
    unfold UCS_PGT_ENTRY_SHIFT. set (i := entry_index p (s - 4)) in *.
    assert (0 <= i < 16) as Hi by (apply entry_index_range; lia).
    pose proof (emap_order _ _ _ _ _ Hm (Hwf i Hi) ltac:(lia)) as [Ho' _].
    destruct (IH i (s - 4)) as (e' & -> & Hwf' & Hmap); [auto|lia|done|]. cbn [mbind option_bind].
    rewrite decide_True by done.
    assert ((if negb (ucs_pgt_entry_present e') then u32 (count_present f - 1) else count_present f) =
            count_present (<[i := e']> f)) as ->.
    { assert (ucs_pgt_entry_present (f i) = true) as Hfi by (apply present_iff; by intros E; rewrite E in Hm).
      pose proof (count_present_pos f i Hi Hfi). pose proof (count_range f).
      rewrite count_insert, Hfi by done. destruct (ucs_pgt_entry_present e'); simpl Z.b2z; cbn [negb];
        rewrite ?u_wrap_small; lia. }
    pose proof (count_range (<[i := e']> f)) as Hcr.
    assert (forall a, inpage s p a -> entry_index a (s - 4) = i -> inpage (s - 4) p a) as Hsub
      by (intros a Ha E; apply inpage_index; [lia|done|done]).
    assert (forall a, inpage o p a -> entry_index a (s - 4) = i) as Hidx.
    { intros a Ha. apply inpage_index; [lia|by apply (inpage_up o); [lia|]|]. apply (inpage_up o); [lia|done]. }
    destruct (Z.eqb_spec (count_present (<[i := e']> f)) 0) as [H0|H0].
    + assert (e' = EEmpty) as ->.
      { apply present_false. destruct (ucs_pgt_entry_present e') eqn:E'; [|done].
        pose proof (count_present_pos (<[i := e']> f) i Hi) as H. rewrite fn_lookup_insert in H.
        specialize (H E'). lia. }
      exists EEmpty. split; [done|]. split; [done|]. intros a Ha. simpl. case_decide as Hoa; [done|].
      destruct (decide (entry_index a (s - 4) = i)) as [E|E].
      * rewrite E. specialize (Hmap a (Hsub a Ha E)). by rewrite decide_False in Hmap.
      * by rewrite (count_zero_empty f i (entry_index a (s - 4)) H0) by (done || apply entry_index_range; lia).
    + exists (EDir (count_present (<[i := e']> f)) (<[i := e']> f)). split; [done|].
      split; [apply wf_dir_insert; [done|done|lia|done|done]|].
      intros a Ha. rewrite emap_dir_insert. simpl. case_decide as E.
      * rewrite Hmap by auto. by rewrite E.
      * rewrite decide_False; [done|]. intros Hoa. auto.
Qed.

(** [p] is not mapped to [r]; a debug build also wants the page orders to agree. *)
Definition no_page (r : ucs_pgt_region_t) (o : Z) (m : option (Z * ucs_pgt_region_t)) : Prop :=
  match m with
  | Some (o', r0) => r_ptr r0 <> r_ptr r /\ (ea = true -> o' = o)
  | None => True
  end.

Lemma remove_recurs_none r o p e s : wf_entry s e -> 4 <= s -> no_page r o (emap s e p) ->
  exists e', ucs_pgtable_remove_page_recurs ea e s p o r = Some (UCS_ERR_NO_ELEM, e', false) /\
    wf_entry s e' /\ (e' = EEmpty <-> e = EEmpty) /\ forall a, emap s e' a = emap s e a.
Proof.
  revert s. induction e as [|r1|c f IH]; intros s Hwf Hs Hno; cbn [ucs_pgtable_remove_page_recurs].
  - eexists. done.
  - destruct Hno as [Hp Ho].
    assert (ucs_assert ea (s =? o) = Some tt) as ->.
    { unfold ucs_assert. destruct ea; [|done]. rewrite Ho by done. by rewrite Z.eqb_refl. }
    cbn [mbind option_bind]. rewrite (proj2 (Z.eqb_neq _ _)) by done. eexists. done.
  - destruct Hwf as (Hs8 & -> & Hc & Hwf). unfold UCS_PGT_ENTRY_SHIFT. simpl in Hno.
    set (i := entry_index p (s - 4)) in *. assert (0 <= i < 16) as Hi by (apply entry_index_range; lia).
    destruct (IH i (s - 4)) as (e' & -> & Hwf' & He & Hmap); [auto|lia|done|]. cbn [mbind option_bind].
    eexists. split; [done|]. split_and!; [| |].
    + apply wf_dir_insert; [done| |done|done|done]. rewrite count_insert by done.
      assert (ucs_pgt_entry_present e' = ucs_pgt_entry_present (f i)) as ->; [|lia].
      destruct (ucs_pgt_entry_present (f i)) eqn:E.
      * apply present_iff. apply present_iff in E. tauto.
      * apply present_false. apply present_false in E. tauto.
    + done.
    + intros a. rewrite emap_dir_insert. simpl. case_decide as E; [|done]. by rewrite Hmap, E.
Qed.

(** ** Growing and shrinking the span *)

Lemma in_span t a : wf_span t -> address a -> (Z.land a (mask t) =? base t) = bool_decide (inpage (shift t) (base t) a).
Proof.
  intros [[Hs _] Hm [Hb Hb0] _] Ha. rewrite Hm, land_mask by (done || lia). unfold inpage.
  pose proof (Z.div_mod a (2 ^ shift t) ltac:(lia)). pose proof (Z.div_mod (base t) (2 ^ shift t) ltac:(lia)).
  case_bool_decide as E; [apply Z.eqb_eq; rewrite E in *; lia|]. apply Z.eqb_neq. intros E'. apply E.
  rewrite <- E'. rewrite <- (Z.div_mul (a / 2 ^ shift t) (2 ^ shift t)) by lia. f_equal. lia.
Qed.

Lemma pmap_span t a : wf_span t -> address a ->
  pmap t a = if decide (inpage (shift t) (base t) a) then emap (shift t) (root t) a else None.
Proof.
  intros Hw Ha. unfold pmap. rewrite in_span by done. by case_bool_decide; case_decide.
Qed.

(** [t'] maps the same addresses as [t]. *)
Definition same_map (t t' : ucs_pgtable_t) : Prop :=
  num_regions t' = num_regions t /\ forall a, address a -> pmap t' a = pmap t a.

Lemma inpage_address o p a : 0 <= o <= 64 -> address p -> inpage o p a -> address a.
Proof.
  intros Ho Hp Ha. apply (inpage_up o 64) in Ha; [|lia]. unfold inpage, address in *.
  rewrite (Z.div_small p) in Ha by done. Z.div_mod_to_equations. lia.
Qed.

Lemma base_bound t : wf_span t -> base t + 2 ^ shift t <= 2 ^ 64.
Proof.
  intros [[[Hs Hs'] _] _ [Hb Hb0] _]. pose proof (Z.div_mod (base t) (2 ^ shift t) ltac:(lia)) as E.
  assert (2 ^ 64 = 2 ^ shift t * 2 ^ (64 - shift t)) as E64 by (rewrite <- Z.pow_add_r by lia; f_equal; lia).
  assert (base t / 2 ^ shift t < 2 ^ (64 - shift t)) by nia. nia.
Qed.

Lemma pow16 s : 0 <= s -> 2 ^ (s + 4) = 16 * 2 ^ s.
Proof. intros Hs. rewrite Z.pow_add_r by lia. lia. Qed.

Lemma expand_ok t : wf_span t -> shift t <= 60 ->
  exists t', ucs_pgtable_expand ea t = Some t' /\ wf_span t' /\ same_map t t' /\
    shift t' = shift t + 4 /\ (root t' = EEmpty <-> root t = EEmpty).
Proof.
  intros Hw Hs60. pose proof Hw as [[Hs Hs4] Hm [Hb Hb0] He]. unfold ucs_pgtable_expand.
  rewrite assert_true by (apply Z.leb_le; done). cbn [mbind option_bind ucs_pgt_dir_alloc].
  unfold UCS_PGT_ENTRY_SHIFT. set (s := shift t) in *.
  assert (2 ^ s <= 2 ^ 60) by (apply Z.pow_le_mono_r; lia). pose proof (pow16 s ltac:(lia)) as H16.
  assert (u64 (Z.shiftl (mask t) 4) = 2 ^ 64 - 2 ^ (s + 4)) as Em.
  { rewrite Hm, Z.shiftl_mul_pow2 by lia. unfold u_wrap.
    replace ((2 ^ 64 - 2 ^ s) * 2 ^ 4) with (2 ^ 64 - 2 ^ (s + 4) + 15 * 2 ^ 64) by lia.
    rewrite Z.mod_add, Z.mod_small by lia. done. }
  rewrite Em, land_mask by (done || lia). set (b' := base t - base t mod 2 ^ (s + 4)).
  pose proof (Z.div_mod (base t) (2 ^ (s + 4)) ltac:(lia)) as Ed.
  pose proof (Z.mod_pos_bound (base t) (2 ^ (s + 4)) ltac:(lia)).
  pose proof (Z.mod_le (base t) (2 ^ (s + 4)) ltac:(lia) ltac:(lia)).
  assert (b' mod 2 ^ (s + 4) = 0) as Hb'.
  { replace b' with ((base t / 2 ^ (s + 4)) * 2 ^ (s + 4)) by lia. apply Z.mod_mul. lia. }
  assert (inpage (s + 4) b' (base t)) as Hin by (apply inpage_range; [lia|done|unfold b'; lia]).
  set (i := entry_index (base t) s). assert (0 <= i < 16) as Hi by (apply entry_index_range; lia).
  set (r' := if ucs_pgt_entry_present (root t) then _ else _).
  eexists. split; [done|].
  assert (wf_span (PgTable r' b' (2 ^ 64 - 2 ^ (s + 4)) (s + 4) (num_regions t))) as Hw'.
  { split; simpl; [split; [lia|rewrite <- Hs4; Z.div_mod_to_equations; lia]|done|split; [split; lia|done]|].
    unfold r'. destruct (ucs_pgt_entry_present (root t)) eqn:Ep; [|apply present_false in Ep as ->; done].
    replace s with (s + 4 - 4) in He by lia.
    apply wf_dir_insert; [lia| |done|done|by replace (s + 4 - 4) with s in * by lia].
    by rewrite count_insert, Ep by done. }
  split_and!; [done| |done|].
  - split; [done|]. intros a Ha. rewrite !pmap_span by done. simpl. fold s.
    assert (inpage s (base t) a -> inpage (s + 4) b' a) as Hup.
    { intros Hia. apply (inpage_up s (s + 4)) in Hia; [|lia]. unfold inpage in *. congruence. }
    unfold r'. destruct (ucs_pgt_entry_present (root t)) eqn:Ep.
    + destruct (decide (inpage (s + 4) b' a)) as [Hb4|Hb4]; [|rewrite decide_False by tauto; done].
      assert (inpage (s + 4) (base t) a) as Hba by (unfold inpage in *; congruence).
      pose proof (inpage_index (s + 4) (base t) a ltac:(lia) Hba) as Hidx.
      rewrite emap_dir_insert. replace (s + 4 - 4) with s in * by lia. fold i in Hidx.
      destruct (decide (entry_index a s = i)); [by rewrite decide_True by tauto|].
      by rewrite decide_False by tauto.
    + apply present_false in Ep as ->. by repeat case_decide.
  - simpl. unfold r'. destruct (root t); done.
Qed.

Lemma find_present_ok f fuel i : 0 <= i -> i + Z.of_nat fuel = 16 ->
  (exists k, i <= k < 16 /\ ucs_pgt_entry_present (f k) = true) ->
  exists k, find_present fuel f i = Some k /\ i <= k < 16 /\ ucs_pgt_entry_present (f k) = true.
Proof.
  revert i. induction fuel as [|fuel IH]; intros i Hi Hf (k & Hk & Hp); [lia|]. simpl.
  destruct (ucs_pgt_entry_present (f i)) eqn:E; [exists i; split_and!; [done|lia|lia|done]|].
  destruct (IH (i + 1)) as (k' & ? & ? & ?); [lia|lia| |exists k'; split_and!; [done|lia|lia|done]].
  exists k. split; [|done]. destruct (decide (k = i)) as [->|]; [congruence|lia].
Qed.

(** With a count of one, the other entries are empty. *)
Lemma count_one_empty f i k : count_present f = 1 -> 0 <= i < 16 -> ucs_pgt_entry_present (f i) = true ->
  0 <= k < 16 -> k <> i -> f k = EEmpty.
Proof.
  intros Hc Hi Hp Hk Hki. apply (count_zero_empty f i k); [|done|done].
  rewrite count_insert, Hc, Hp by done. done.
Qed.

Lemma reset_span t : root t = EEmpty -> wf_table (ucs_pgtable_reset t).
Proof. intros E. split; [split; simpl; rewrite ?E; try done|done]. Qed.

Lemma shrink_ok t : wf_span t ->
  exists b t', ucs_pgtable_shrink ea t = Some (b, t') /\ same_map t t' /\
    if b : bool then wf_span t' /\ 4 <= shift t' < shift t else wf_table t'.
Proof.
  intros Hw. pose proof Hw as [[Hs Hs4] Hm [Hb Hb0] He]. unfold ucs_pgtable_shrink.
  destruct (root t) as [|r|c f] eqn:Er.
  - pose proof (reset_span t Er) as Hr. eexists false, _. split; [done|]. split; [|done].
    split; [done|]. intros a Ha. rewrite !pmap_span by (done || apply Hr). simpl. rewrite Er. by repeat case_decide.
  - eexists false, _. split; [done|]. split; [done|]. split; [done|congruence].
  - pose proof He as (Hs8 & Hc & Hcp & Hf). rewrite assert_true by (apply Z.ltb_lt; lia). cbn [mbind option_bind].
    destruct (Z.eqb_spec c 1) as [->|Hne]; cbn [negb].
    2: { eexists false, _. split; [done|]. split; [done|]. split; [done|congruence]. }
    destruct (find_present_ok f 16 0) as (i & -> & Hi & Hp); [lia|lia|apply count_pos; lia|].
    cbn [mbind option_bind]. unfold UCS_PGT_ENTRY_SHIFT, UCS_PGT_ENTRY_MASK.
    set (s := shift t) in *. set (s' := s - 4). pose proof (pow16 s' ltac:(lia)) as H16.
    replace (s' + 4) with s in H16 by lia. pose proof (base_bound t Hw) as Hbb. fold s in Hbb.
    assert (2 ^ s <= 2 ^ 64) by (apply Z.pow_le_mono_r; lia).
    rewrite !Z.shiftl_mul_pow2, !u_wrap_small by nia.
    pose proof (Z.div_mod (base t) (2 ^ s) ltac:(lia)) as Eb.
    assert (Z.lor (base t) (i * 2 ^ s') = base t + i * 2 ^ s') as ->.
    { rewrite Z.lor_comm. replace (base t) with ((base t / 2 ^ s) * 2 ^ s) by lia.
      rewrite Z_lor_add by nia. lia. }
    assert (Z.lor (mask t) (15 * 2 ^ s') = 2 ^ 64 - 2 ^ s') as ->.
    { rewrite Hm, Z.lor_comm. replace (2 ^ 64 - 2 ^ s) with ((2 ^ (64 - s) - 1) * 2 ^ s).
      - rewrite Z_lor_add by lia. rewrite Z.mul_sub_distr_r, <- Z.pow_add_r by lia.
        replace (64 - s + s) with 64 by lia. lia.
      - rewrite Z.mul_sub_distr_r, <- Z.pow_add_r by lia. replace (64 - s + s) with 64 by lia. lia. }
    set (b' := base t + i * 2 ^ s').
    assert (inpage s (base t) b') as Hinb by (apply inpage_range; [lia|done|unfold b'; nia]).
    assert (b' / 2 ^ s' = 16 * (base t / 2 ^ s) + i) as Hbd.
    { replace b' with ((16 * (base t / 2 ^ s) + i) * 2 ^ s') by (unfold b'; lia). apply Z.div_mul. lia. }
    assert (entry_index b' s' = i) as Hidx.
    { rewrite entry_index_div by lia. rewrite Hbd, Z.add_comm, Z.mul_comm, Z.mod_add, Z.mod_small; lia. }
    eexists true, _. split; [done|].
    assert (wf_span (PgTable (f i) b' (2 ^ 64 - 2 ^ s') s' (num_regions t))) as Hw'.
    { split; simpl; [split; [lia|rewrite <- Hs4; Z.div_mod_to_equations; lia]|done| |by apply Hf].
      split; [unfold b'; nia|]. replace b' with ((16 * (base t / 2 ^ s) + i) * 2 ^ s') by (unfold b'; lia).
      apply Z.mod_mul. lia. }
    split; [|split; [done|simpl; lia]]. split; [done|]. intros a Ha. rewrite !pmap_span by done. simpl. fold s.
    rewrite Er. destruct (decide (inpage s (base t) a)) as [Hin|Hin].
    + assert (inpage s b' a) as Hsa by (unfold inpage in *; congruence).
      pose proof (inpage_index s b' a ltac:(lia) Hsa) as Hii. fold s' in Hii. rewrite Hidx in Hii.
      simpl. fold s'. destruct (decide (inpage s' b' a)) as [H'|H']; [by rewrite (proj1 Hii H')|].
      rewrite (count_one_empty f i); [done|done|done|done|apply entry_index_range; lia|tauto].
    + rewrite decide_False; [done|]. intros H'. apply Hin.
      apply (inpage_up s' s) in H'; [|lia]. unfold inpage in *. congruence.
Qed.

Lemma same_map_trans t1 t2 t3 : same_map t1 t2 -> same_map t2 t3 -> same_map t1 t3.
Proof. intros [? H1] [? H2]. split; [congruence|]. intros a Ha. by rewrite H2, H1. Qed.

Lemma shrink_all_ok t : wf_span t -> exists t', shrink_all ea t = Some t' /\ wf_table t' /\ same_map t t'.
Proof.
  intros Hw. unfold shrink_all.
  eapply (while_ok _ (fun t1 => wf_span t1 /\ same_map t t1) _ shift).
  - intros t1 [Hw1 Hm1]. destruct (shrink_ok t1 Hw1) as (b & t2 & -> & Hm2 & Hb). cbn [mbind option_bind].
    eexists. split; [done|]. destruct b; [|split; [done|by eapply same_map_trans]].
    destruct Hb as [Hw2 Hs2]. split_and!; [done|by eapply same_map_trans|lia|lia].
  - done.
  - destruct Hw as [[[? ?] _] _ _ _]. lia.
Qed.

(** ** Pages *)

Lemma check_page_ok o p : ok_order o -> address p -> p mod 2 ^ o = 0 -> ucs_pgtable_check_page ea p o = Some tt.
Proof.
  intros [Ho Ho4] Hp Hp0. unfold ucs_pgtable_check_page. rewrite Z.land_comm, land_u64, Z.land_comm by done.
  rewrite Z.shiftl_1_l. replace (2 ^ o - 1) with (Z.ones o) by (rewrite Z.ones_equiv; lia).
  rewrite Z.land_ones, Hp0, (assert_true (0 =? 0)) by (done || lia). cbn [mbind option_bind]. apply assert_true.
  apply Z.eqb_eq. unfold UCS_PGT_ADDR_SHIFT, UCS_PGT_ENTRY_SHIFT. Z.div_mod_to_equations. lia.
Qed.

(** The first loop of [insert_page]: the root spans the page. *)
Lemma span_order_ok t o : wf_span t -> ok_order o ->
  exists t', span_order ea t o = Some t' /\
    wf_span t' /\ same_map t t' /\ o <= shift t' /\ (root t' = EEmpty <-> root t = EEmpty).
Proof.
  intros Hw [Ho Ho4].
  eapply (while_ok _ (fun t1 => wf_span t1 /\ same_map t t1 /\ (root t1 = EEmpty <-> root t = EEmpty)) _
            (fun t1 => 64 - shift t1)).
  - intros t1 (Hw1 & Hm1 & Hr1). pose proof (span_shift _ Hw1) as [Hs Hs4].
    destruct (Z.ltb_spec (shift t1) o) as [Hlt|Hge].
    + destruct (expand_ok t1 Hw1) as (t2 & -> & Hw2 & Hm2 & Hs2 & Hr2); [Z.div_mod_to_equations; lia|].
      pose proof (span_shift _ Hw2) as [? _]. cbn [mbind option_bind]. eexists. split; [done|].
      split; [split; [done|split; [by eapply same_map_trans|tauto]]|lia].
    + eexists. split; [done|]. done.
  - done.
  - pose proof (span_shift _ Hw) as [Hs _]. lia.
Qed.

(** The second loop: the root contains the address. *)
Lemma expand_to_address t o p : wf_span t -> o <= shift t -> address p -> root t <> EEmpty ->
  exists t', while (fun t => if negb (Z.land p (mask t) =? base t)
                             then t ← ucs_pgtable_expand ea t; Some (inl t) else Some (inr t)) t = Some t' /\
    wf_span t' /\ same_map t t' /\ o <= shift t' /\ root t' <> EEmpty /\ inpage (shift t') (base t') p.
Proof.
  intros Hw Hos Hp Hne.
  eapply (while_ok _ (fun t1 => wf_span t1 /\ same_map t t1 /\ o <= shift t1 /\ root t1 <> EEmpty) _
            (fun t1 => 64 - shift t1)).
  - intros t1 (Hw1 & Hm1 & Ho1 & Hr1). pose proof (span_shift _ Hw1) as [Hs Hs4]. rewrite in_span by done.
    case_bool_decide as Hin; cbn [negb]; [by eexists|].
    assert (shift t1 <= 60) as Hs60.
    { destruct (decide (shift t1 = 64)) as [E|]; [|Z.div_mod_to_equations; lia]. destruct Hin. rewrite E.
      destruct (span_base _ Hw1) as [? _]. unfold inpage. by rewrite !Z.div_small. }
    destruct (expand_ok t1 Hw1 Hs60) as (t2 & -> & Hw2 & Hm2 & Hs2 & Hr2).
    pose proof (span_shift _ Hw2) as [? _]. cbn [mbind option_bind]. eexists. split; [done|].
    split; [split_and!; [done|by eapply same_map_trans|lia|tauto]|lia].
  - done.
  - pose proof (span_shift _ Hw) as [Hs _]. lia.
Qed.

(** The table after the two loops: it spans [p], is not empty or is about to be filled. *)
Lemma span_address_ok t o p : wf_span t -> o <= shift t -> address p ->
  exists t', span_address ea t p = Some t' /\
    wf_span t' /\ same_map t t' /\ o <= shift t' /\ inpage (shift t') (base t') p.
Proof.
  intros Hw Ho Hp. unfold span_address. destruct (ucs_pgt_entry_present (root t)) eqn:Ep.
  - apply present_iff in Ep. destruct (expand_to_address t o p) as (t' & ? & ? & ? & ? & ? & ?); [done..|by exists t'].
  - apply present_false in Ep. eexists. split; [done|]. pose proof Hw as [[Hs Hs4] Hm _ _].
    assert (wf_span (set_base (Z.land p (mask t)) t)) as Hw'.
    { rewrite Hm, land_mask by (done || lia).
      pose proof (Z.div_mod p (2 ^ shift t) ltac:(lia)). unfold address in Hp.
      pose proof (Z.mod_le p (2 ^ shift t) ltac:(lia) ltac:(lia)). pose proof (Z.mod_pos_bound p (2 ^ shift t) ltac:(lia)).
      split; simpl; [done|done| |by rewrite Ep]. split; [lia|].
      replace (p - p mod 2 ^ shift t) with ((p / 2 ^ shift t) * 2 ^ shift t) by lia. apply Z.mod_mul. lia. }
    split_and!; [done| |done|].
    + split; [done|]. intros a Ha. rewrite !pmap_span by done. simpl. rewrite Ep. by repeat case_decide.
    + pose proof (in_span _ p Hw' Hp) as E. simpl in E. rewrite Z.eqb_refl in E.
      symmetry in E. by apply bool_decide_eq_true in E.
Qed.

Lemma insert_page_run t o p r : wf_table t -> ok_order o -> address p -> p mod 2 ^ o = 0 ->
  exists t2 st e', wf_span t2 /\ same_map t t2 /\ o <= shift t2 /\ inpage (shift t2) (base t2) p /\
    wf_entry (shift t2) e' /\ e' <> EEmpty /\
    ((st = UCS_OK /\ inserted (shift t2) o p r (root t2) e') \/
     (st = UCS_ERR_ALREADY_EXISTS /\ rejected (shift t2) o p (root t2) e')) /\
    ucs_pgtable_insert_page ea t p o r =
      match st with
      | UCS_OK => Some (UCS_OK, set_root e' t2)
      | _ => t ← shrink_all ea (set_root e' t2); Some (UCS_ERR_ALREADY_EXISTS, t)
      end.
Proof.
  intros [Hw _] Ho Hp Hp0.
  destruct (span_order_ok t o Hw Ho) as (t1 & E1 & Hw1 & Hm1 & Ho1 & _).
  destruct (span_address_ok t1 o p Hw1 Ho1 Hp) as (t2 & E2 & Hw2 & Hm2 & Ho2 & Hin).
  destruct (insert_descend_ok r o p 17 (root t2) (shift t2)) as (st & e' & E3 & Hwf' & Hne' & Hcase);
    [done|apply Hw2|done|destruct Ho; pose proof (span_shift _ Hw2) as [? _]; lia|apply Hw2|].
  exists t2, st, e'. split_and!; [done|by eapply same_map_trans|done|done|done|done|done|].
  unfold ucs_pgtable_insert_page. rewrite (bind_eq _ _ _ (check_page_ok o p Ho Hp Hp0)).
  rewrite (bind_eq _ _ _ E1). rewrite (bind_eq _ _ _ E2). rewrite (bind_eq _ _ _ E3). done.
Qed.

Lemma insert_page_ok t o p r : wf_table t -> ok_order o -> address p -> p mod 2 ^ o = 0 ->
  exists st t', ucs_pgtable_insert_page ea t p o r = Some (st, t') /\ wf_table t' /\
    num_regions t' = num_regions t /\
    ((st = UCS_OK /\ (forall a, inpage o p a -> pmap t a = None) /\
      forall a, address a -> pmap t' a = if decide (inpage o p a) then Some (o, r) else pmap t a) \/
     (st = UCS_ERR_ALREADY_EXISTS /\ (exists a, inpage o p a /\ pmap t a <> None) /\ same_map t t')).
Proof.
  intros Hwt Ho Hp Hp0.
  destruct (insert_page_run t o p r) as (t2 & st & e' & Hw2 & [Hn Hmap] & Ho2 & Hin & Hwf' & Hne' & Hcase & ->); [done..|].
  assert (wf_span (set_root e' t2)) as Hw3 by (destruct Hw2; by split).
  assert (forall a, inpage o p a -> address a) as Hadr by (intros a; apply inpage_address; [destruct Ho; lia|done]).
  assert (forall a, inpage o p a -> inpage (shift t2) (base t2) a) as Hpa.
  { intros a Hoa. apply (inpage_up o (shift t2)) in Hoa; [|destruct Ho; lia]. unfold inpage in *. congruence. }
  assert (forall a, inpage (shift t2) (base t2) a -> inpage (shift t2) p a) as Hbp by (unfold inpage in *; congruence).
  destruct Hcase as [(-> & [Hfree Hins])|(-> & [[a [Ha Hu]] Hsame])].
  - eexists _, _. split; [done|]. split; [by split|]. split; [done|]. left. split_and!; [done| |].
    + intros a Ha. rewrite <- Hmap, pmap_span by auto. case_decide; [|done]. auto.
    + intros a Ha. rewrite <- Hmap by done. rewrite !pmap_span by done. simpl.
      destruct (decide (inpage o p a)) as [Hoa|Hoa].
      * rewrite decide_True by auto. rewrite Hins by auto. by rewrite decide_True.
      * case_decide; [|done]. rewrite Hins by auto. by rewrite decide_False.
  - destruct (shrink_all_ok _ Hw3) as (t4 & -> & Hw4 & [Hn4 Hmap4]). cbn [mbind option_bind].
    eexists _, _. split; [done|]. split; [done|]. split; [simpl in *; congruence|]. right.
    split_and!; [done| |].
    + exists a. split; [done|]. rewrite <- Hmap, pmap_span by auto. by rewrite decide_True by auto.
    + split; [simpl in *; congruence|]. intros b Hb4.
      rewrite Hmap4, <- Hmap by done. rewrite !pmap_span by done. simpl. case_decide; [|done]. apply Hsame. auto.
Qed.

Lemma remove_page_ok t o p r r0 : wf_table t -> address p -> p mod 2 ^ o = 0 ->
  pmap t p = Some (o, r0) -> r_ptr r0 = r_ptr r ->
  exists t', ucs_pgtable_remove_page ea t p o r = Some (UCS_OK, t') /\ wf_table t' /\
    num_regions t' = num_regions t /\
    forall a, address a -> pmap t' a = if decide (inpage o p a) then None else pmap t a.
Proof.
  intros [Hw _] Hp Hp0 Hm Hr. rewrite pmap_span in Hm by done. case_decide as Hin; [|done].
  pose proof (span_shift _ Hw) as [Hs Hs4]. pose proof (span_entry _ Hw) as He.
  destruct (emap_order _ _ _ _ _ Hm He ltac:(lia)) as [Ho Ho4].
  unfold ucs_pgtable_remove_page. rewrite check_page_ok; [|split; [lia|Z.div_mod_to_equations; lia]|done|done].
  cbn [mbind option_bind]. rewrite in_span, bool_decide_eq_true_2 by done. cbn [negb].
  destruct (remove_recurs_ok r r0 o p (root t) (shift t)) as (e' & -> & Hwf' & Hmap); [done|lia|done|done|].
  cbn [mbind option_bind]. rewrite decide_True by done.
  assert (wf_span (set_root e' t)) as Hw' by (destruct Hw; by split).
  destruct (shrink_all_ok _ Hw') as (t' & -> & Hwt & Hn' & Hmap'). cbn [mbind option_bind].
  eexists. split; [done|]. split_and!; [done|done|]. intros a Ha. rewrite Hmap' by done. rewrite !pmap_span by done. simpl.
  destruct (decide (inpage (shift t) (base t) a)) as [Hia|Hia]; [|by case_decide].
  apply Hmap. unfold inpage in *. congruence.
Qed.

Lemma remove_page_none t o p r : wf_table t -> ok_order o -> address p -> p mod 2 ^ o = 0 ->
  no_page r o (pmap t p) ->
  exists t', ucs_pgtable_remove_page ea t p o r = Some (UCS_ERR_NO_ELEM, t') /\ wf_table t' /\ same_map t t'.
Proof.
  intros [Hw Hroot] Ho Hp Hp0 Hno. rewrite pmap_span in Hno by done.
  unfold ucs_pgtable_remove_page. rewrite check_page_ok by done. cbn [mbind option_bind].
  rewrite in_span by done. case_bool_decide as Hin; cbn [negb]; [|by eexists].
  rewrite decide_True in Hno by done. pose proof (span_shift _ Hw) as [Hs _].
  destruct (remove_recurs_none r o p (root t) (shift t)) as (e' & -> & Hwf' & He & Hmap); [apply Hw|lia|done|].
  cbn [mbind option_bind]. rewrite decide_False by done. eexists. split; [done|].
  assert (wf_span (set_root e' t)) as Hw' by (destruct Hw; by split). split; [split; [done|simpl; tauto]|].
  split; [done|]. intros a Ha. rewrite !pmap_span by done. simpl. by rewrite Hmap.
Qed.

(** ** Splitting a region into pages *)

(** The order of the next whole page of [[p, e)]. *)
Definition page_order (p e : Z) : Z :=
  let l := Z.log2 (e - p) in
  let l := if p =? 0 then l else Z.min (ctz p) l in
  (l - 4) / 4 * 4 + 4.

Definition aligned (a : Z) : Prop := a mod 16 = 0.

Lemma is_addr_aligned a : 0 <= a -> aligned a -> ucs_pgt_is_addr_aligned a = true.
Proof.
  intros Ha Hm. unfold ucs_pgt_is_addr_aligned. change (UCS_PGT_ADDR_ALIGN - 1) with (Z.ones 4).
  rewrite Z.land_ones by done. by apply Z.eqb_eq.
Qed.

Lemma ctz_aligned p : 0 < p -> aligned p -> 4 <= ctz p.
Proof.
  intros Hp Ha. destruct (ctz_testbit p Hp) as [Ht _]. destruct (Z_lt_le_dec (ctz p) 4) as [Hlt|]; [|done].
  unfold aligned in Ha. rewrite <- (Z.mod_pow2_bits_low p 4) in Ht by done. change (2 ^ 4) with 16 in Ht.
  by rewrite Ha, Z.bits_0 in Ht.
Qed.

Lemma log2_len_ge p e : aligned p -> aligned e -> p < e -> 4 <= Z.log2 (e - p).
Proof.
  intros Hp He Hlt. apply Z.log2_le_pow2; unfold aligned in *; Z.div_mod_to_equations; lia.
Qed.

Lemma next_order_ok p e : aligned p -> aligned e -> 0 <= p < e -> e < 2 ^ 64 ->
  ucs_pgtable_get_next_page_order ea p e = Some (page_order p e).
Proof.
  intros Hp He Hlt Hb. unfold ucs_pgtable_get_next_page_order, page_order.
  rewrite !is_addr_aligned by (done || lia). rewrite !(bind_eq _ tt) by (by apply assert_true).
  rewrite (proj2 (Z.eqb_neq e 0)), (proj2 (Z.eqb_neq e p)) by lia. cbn [andb]. cbv zeta.
  unfold ucs_ilog2. rewrite u_wrap_small, ilog2_u64_log2 by lia.
  pose proof (log2_len_ge p e Hp He ltac:(lia)). assert (Z.log2 (e - p) < 64) by (apply Z.log2_lt_pow2; lia).
  destruct (Z.eqb_spec p 0) as [->|Hp0]; cbn [negb].
  - rewrite (bind_eq _ tt); [done|]. apply assert_true.
    apply andb_true_iff. unfold UCS_PGT_ADDR_SHIFT, UCS_PGT_ADDR_ORDER. split; apply Z.leb_le; lia.
  - rewrite ffs64_ctz by lia. pose proof (ctz_aligned p ltac:(lia) Hp).
    rewrite (bind_eq _ tt); [done|]. apply assert_true.
    apply andb_true_iff. unfold UCS_PGT_ADDR_SHIFT, UCS_PGT_ADDR_ORDER. split; apply Z.leb_le; lia.
Qed.

Lemma page_order_spec p e : aligned p -> aligned e -> 0 <= p < e -> e < 2 ^ 64 ->
  ok_order (page_order p e) /\ page_order p e <= 60 /\ p mod 2 ^ page_order p e = 0 /\ p + 2 ^ page_order p e <= e.
Proof.
  intros Hp He Hlt Hb. unfold page_order.
  pose proof (log2_len_ge p e Hp He ltac:(lia)) as Hl. assert (Z.log2 (e - p) < 64) by (apply Z.log2_lt_pow2; lia).
  set (l := if p =? 0 then _ else _).
  assert (4 <= l <= Z.log2 (e - p) /\ (p = 0 \/ 0 < p /\ l <= ctz p)) as [Hl4 Hc].
  { unfold l. destruct (Z.eqb_spec p 0); [lia|]. pose proof (ctz_aligned p ltac:(lia) Hp). lia. }
  set (o := (l - 4) / 4 * 4 + 4).
  assert (4 <= o <= l /\ o mod 4 = 0) as [Ho Ho4] by (unfold o; Z.div_mod_to_equations; lia).
  split_and!; [split; [lia|done]|Z.div_mod_to_equations; lia| |].
  - destruct Hc as [->|[Hp0 Hc]]; [by rewrite Z.mod_0_l by lia|].
    destruct (ctz_split p Hp0) as (_ & q & _ & E). rewrite E.
    replace (ctz p) with (o + (ctz p - o)) by lia. rewrite Z.pow_add_r by lia.
    rewrite <- Z.mul_assoc, Z.mul_comm. apply Z.mod_mul. lia.
  - assert (2 ^ o <= 2 ^ Z.log2 (e - p)) by (apply Z.pow_le_mono_r; lia).
    pose proof (Z.log2_spec (e - p) ltac:(lia)). lia.
Qed.

(** A smaller end that is not inside the page gives the same page. *)
Lemma page_order_shrink p e e' : aligned p -> aligned e -> aligned e' -> 0 <= p < e -> e < 2 ^ 64 ->
  p + 2 ^ page_order p e <= e' <= e -> page_order p e' = page_order p e.
Proof.
  intros Hp He He' H0 Hb Hr.
  destruct (page_order_spec p e Hp He ltac:(lia) Hb) as [[? _] _].
  pose proof (log2_len_ge p e' Hp He' ltac:(lia)) as Hl'.
  assert (Z.log2 (e' - p) <= Z.log2 (e - p)) as Hle by (apply Z.log2_le_mono; lia).
  assert (page_order p e <= Z.log2 (e' - p)) as Hge by (apply Z.log2_le_pow2; lia).
  pose proof (log2_len_ge p e Hp He ltac:(lia)) as Hl. unfold page_order in *.
  destruct (Z.eqb_spec p 0) as [->|Hp0]; [Z.div_mod_to_equations; lia|].
  pose proof (ctz_aligned p ltac:(lia) Hp). Z.div_mod_to_equations. lia.
Qed.

(** The address after the page at [p]. *)
Definition next_page (e p : Z) : Z := if p <? e then p + 2 ^ page_order p e else p.

(** [p] starts a page of [[s, e)], or is [e]. *)
Definition on_chain (s e p : Z) : Prop := exists n : nat, p = Nat.iter n (next_page e) s.

Definition range_ok (s e : Z) : Prop := aligned s /\ aligned e /\ 0 <= s <= e /\ e < 2 ^ 64.

Lemma aligned_add a b : aligned a -> aligned b -> aligned (a + b).
Proof. unfold aligned. intros. Z.div_mod_to_equations. lia. Qed.

Lemma aligned_pow o : 4 <= o -> aligned (2 ^ o).
Proof.
  intros Ho. unfold aligned. replace o with (o - 4 + 4) by lia. rewrite Z.pow_add_r by lia.
  apply Z.mod_mul. lia.
Qed.

Lemma next_page_ok s e p : range_ok s e -> aligned p -> s <= p <= e ->
  aligned (next_page e p) /\ p <= next_page e p <= e /\ (p < e -> p < next_page e p).
Proof.
  intros (Hs & He & Hse & Hb) Hp Hr. unfold next_page. destruct (Z.ltb_spec p e) as [Hlt|Hge]; [|by split_and!; [|lia..]].
  destruct (page_order_spec p e Hp He ltac:(lia) Hb) as ([Ho _] & _ & _ & Hle).
  split_and!; [|lia..]. apply aligned_add; [done|]. apply aligned_pow. lia.
Qed.

Lemma chain_iter_ok s e n : range_ok s e ->
  aligned (Nat.iter n (next_page e) s) /\ s <= Nat.iter n (next_page e) s <= e.
Proof.
  intros Hr. induction n as [|n [IHa IH]]; simpl; [destruct Hr as (? & ? & ? & ?); split; [done|lia]|].
  destruct (next_page_ok s e _ Hr IHa IH) as (? & ? & _). split; [done|lia].
Qed.

Lemma chain_ok s e p : range_ok s e -> on_chain s e p -> aligned p /\ s <= p <= e.
Proof. intros Hr [n ->]. by apply chain_iter_ok. Qed.

Lemma chain_start s e : on_chain s e s.
Proof. by exists O. Qed.

Lemma chain_next s e p : on_chain s e p -> on_chain s e (next_page e p).
Proof. intros [n ->]. by exists (S n). Qed.

Lemma chain_iter_mono s e m n : range_ok s e -> (m <= n)%nat ->
  Nat.iter m (next_page e) s <= Nat.iter n (next_page e) s.
Proof.
  intros Hr Hmn. induction Hmn as [|n Hmn IH]; [lia|]. simpl.
  destruct (chain_iter_ok s e n Hr) as [Ha Hn]. destruct (next_page_ok s e _ Hr Ha Hn) as (_ & ? & _). lia.
Qed.

(** Pages of a region do not overlap. *)
Lemma chain_mono s e p q : range_ok s e -> on_chain s e p -> on_chain s e q -> p < q -> next_page e p <= q.
Proof.
  intros Hr [m ->] [n ->] Hlt. destruct (le_lt_dec n m) as [Hnm|Hmn].
  - pose proof (chain_iter_mono s e n m Hr Hnm). lia.
  - apply (chain_iter_mono s e (S m) n Hr). lia.
Qed.

(** Cutting a region at a page boundary keeps the pages before it. *)
Lemma chain_prefix s e c q : range_ok s e -> on_chain s e c -> on_chain s c q -> q < c ->
  on_chain s e q /\ page_order q c = page_order q e.
Proof.
  intros Hr Hc [n ->]. pose proof Hr as (Hs & He & Hse & Hb). destruct (chain_ok s e c Hr Hc) as [Hca Hcr].
  assert (forall q, on_chain s e q -> q < c -> page_order q c = page_order q e) as Hord.
  { intros q Hq Hlt. destruct (chain_ok s e q Hr Hq) as [Hqa Hqr]. apply page_order_shrink; [done..|lia|done|].
    pose proof (chain_mono s e q c Hr Hq Hc Hlt) as Hnx. unfold next_page in Hnx.
    rewrite (proj2 (Z.ltb_lt q e)) in Hnx by lia. lia. }
  induction n as [|n IH]; intros Hlt; simpl in *; [split; [apply chain_start|apply Hord; [apply chain_start|done]]|].
  set (q := Nat.iter n (next_page c) s) in *. unfold next_page in Hlt |- *. destruct (Z.ltb_spec q c) as [Hqc|Hqc]; [|lia].
  destruct (IH Hqc) as [Hq Hpo]. rewrite Hpo.
  assert (q + 2 ^ page_order q e = next_page e q) as E.
  { unfold next_page. by rewrite (proj2 (Z.ltb_lt q e)) by lia. }
  rewrite Hpo, E in *. split; [by apply chain_next|]. apply Hord; [by apply chain_next|done].
Qed.

(** The loop over the pages of [[s, e)]. *)
Lemma for_each_page_ok page stop t s e (I : ucs_pgtable_t -> Z -> Prop)
    (Q : ucs_status_t -> ucs_pgtable_t -> Z -> Prop) : range_ok s e ->
  (forall t p, I t p -> on_chain s e p -> s <= p < e ->
     exists st t', page t p (page_order p e) = Some (st, t') /\
       if stop && bool_decide (st <> UCS_OK) then Q st t' p else I t' (p + 2 ^ page_order p e)) ->
  I t s ->
  exists st t' p, for_each_page ea page stop t s e = Some (st, t', p) /\ on_chain s e p /\
    ((st = UCS_OK /\ p = e /\ I t' e) \/ Q st t' p).
Proof.
  intros Hr Hstep HI. pose proof Hr as (Hs & He & Hse & Hb).
  destruct (while_ok (fun '(t, address) =>
    if address <? e then
      order ← ucs_pgtable_get_next_page_order ea address e;
      '(status, t) ← page t address order;
      if stop && bool_decide (status <> UCS_OK) then Some (inr (status, t, address))
      else
        address ← ucs_pgt_address_advance ea address order;
        Some (inl (t, address))
    else Some (inr (UCS_OK, t, address)))
    (fun '(t, p) => I t p /\ on_chain s e p)
    (fun '(st, t', p) => on_chain s e p /\ ((st = UCS_OK /\ p = e /\ I t' e) \/ Q st t' p))
    (fun '(_, p) => e - p) (t, s)) as ([[st t'] p] & E & HQ).
  - intros [t1 p] [HI1 Hc]. destruct (chain_ok s e p Hr Hc) as [Hpa Hpr].
    destruct (Z.ltb_spec p e) as [Hlt|Hge].
    + rewrite (bind_eq _ _ _ (next_order_ok p e Hpa He ltac:(lia) Hb)).
      destruct (page_order_spec p e Hpa He ltac:(lia) Hb) as ([Ho _] & Ho60 & _ & Hle).
      destruct (Hstep t1 p HI1 Hc ltac:(lia)) as (st & t2 & -> & H2). cbn [mbind option_bind].
      destruct (stop && bool_decide (st <> UCS_OK)) eqn:Es; [by eexists; split; [done|]; split; [|right]|].
      unfold ucs_pgt_address_advance. rewrite (bind_eq (ucs_assert _ _) tt) by (apply assert_true, Z.ltb_lt; lia).
      cbn [mbind option_bind]. rewrite Z.shiftl_1_l, u_wrap_small by lia. eexists. split; [done|].
      split; [split; [done|]|lia]. pose proof (chain_next s e p Hc) as Hn. unfold next_page in Hn.
      by rewrite (proj2 (Z.ltb_lt p e)) in Hn by lia.
    + assert (p = e) as -> by lia. eexists. split; [done|]. split; [done|]. by left.
  - split; [done|apply chain_start].
  - lia.
  - eexists _, _, _. split; [exact E|]. done.
Qed.

(** ** Regions *)

Lemma page_range s e p a : range_ok s e -> on_chain s e p -> p < e ->
  inpage (page_order p e) p a <-> p <= a < p + 2 ^ page_order p e.
Proof.
  intros Hr Hc Hlt. destruct (chain_ok s e p Hr Hc) as [Hpa Hpr]. destruct Hr as (Hs & He & Hse & Hb).
  destruct (page_order_spec p e Hpa He ltac:(lia) Hb) as ([Ho _] & _ & Hp0 & _). apply inpage_range; [lia|done].
Qed.

(** Removing the pages of [[s, e)] that belong to [r]. *)
Lemma remove_pages_ok t r stop s e : wf_table t -> range_ok s e ->
  (forall p, on_chain s e p -> p < e -> exists r0, pmap t p = Some (page_order p e, r0) /\ r_ptr r0 = r_ptr r) ->
  exists t', for_each_page ea (fun t a o => ucs_pgtable_remove_page ea t a o r) stop t s e = Some (UCS_OK, t', e) /\
    wf_table t' /\ num_regions t' = num_regions t /\
    forall a, address a -> pmap t' a = if decide (s <= a < e) then None else pmap t a.
Proof.
  intros Hw Hr Hpages. pose proof Hr as (Hs & He & Hse & Hb).
  destruct (for_each_page_ok (fun t a o => ucs_pgtable_remove_page ea t a o r) stop t s e
    (fun t1 p => wf_table t1 /\ num_regions t1 = num_regions t /\
       forall a, address a -> pmap t1 a = if decide (s <= a < p) then None else pmap t a)
    (fun _ _ _ => False) Hr) as (st & t' & p & E & _ & H).
  - intros t1 p (Hw1 & Hn1 & Hm1) Hc Hlt. destruct (chain_ok s e p Hr Hc) as [Hpa Hpr].
    destruct (page_order_spec p e Hpa He ltac:(lia) Hb) as ([Ho _] & _ & Hp0 & Hple).
    destruct (Hpages p Hc ltac:(lia)) as (r0 & Hpm & Hptr). assert (address p) as Hadr by (unfold address; lia).
    destruct (remove_page_ok t1 (page_order p e) p r r0) as (t2 & -> & Hw2 & Hn2 & Hm2);
      [done|done|done|rewrite Hm1, decide_False by (done || lia); done|done|].
    eexists _, _. split; [done|]. rewrite andb_comm. cbn [bool_decide]. rewrite bool_decide_eq_false_2 by tauto. cbn [andb].
    split_and!; [done|congruence|]. intros a Ha. rewrite Hm2, Hm1 by done.
    pose proof (page_range s e p a Hr Hc ltac:(lia)) as Hin.
    destruct (decide (inpage (page_order p e) p a)) as [Hi|Hi]; [rewrite decide_True by (apply Hin in Hi; lia); done|].
    destruct (decide (s <= a < p)); [by rewrite decide_True by lia|]. rewrite decide_False; [done|].
    intros Ha'. apply Hi, Hin. lia.
  - split_and!; [done|done|]. intros a Ha. by rewrite decide_False by lia.
  - destruct H as [(-> & -> & Hw' & Hn' & Hm')|[]]. exists t'. done.
Qed.

(** The pages of [r] inserted up to [p]. *)
Record part_inserted (t : ucs_pgtable_t) (r : ucs_pgt_region_t) (t1 : ucs_pgtable_t) (p : Z) : Prop := PartInserted {
  pi_wf : wf_table t1;
  pi_num : num_regions t1 = num_regions t;
  pi_in a : r_start r <= a < p -> pmap t a = None /\ exists o, pmap t1 a = Some (o, r);
  pi_out a : address a -> ~ (r_start r <= a < p) -> pmap t1 a = pmap t a;
  pi_pages q : on_chain (r_start r) (r_end r) q -> q < p -> pmap t1 q = Some (page_order q (r_end r), r)
}.

Definition region_ok (r : ucs_pgt_region_t) : Prop := range_ok (r_start r) (r_end r) /\ r_start r < r_end r.

Lemma insert_pages_ok t r : wf_table t -> region_ok r ->
  exists st t' p, for_each_page ea (fun t a o => ucs_pgtable_insert_page ea t a o r) true t (r_start r) (r_end r) =
      Some (st, t', p) /\ on_chain (r_start r) (r_end r) p /\
    ((st = UCS_OK /\ p = r_end r /\ part_inserted t r t' (r_end r)) \/
     (st = UCS_ERR_ALREADY_EXISTS /\ part_inserted t r t' p /\
      exists a, r_start r <= a < r_end r /\ pmap t a <> None)).
Proof.
  intros Hw [Hr Hlt0]. pose proof Hr as (Hs & He & Hse & Hb).
  apply (for_each_page_ok _ true t _ _ (fun t1 p => part_inserted t r t1 p)
    (fun st t1 p => st = UCS_ERR_ALREADY_EXISTS /\ part_inserted t r t1 p /\
      exists a, r_start r <= a < r_end r /\ pmap t a <> None) Hr).
  - intros t1 p [Hw1 Hn1 Hin1 Hout1 Hpg1] Hc Hlt. destruct (chain_ok _ _ p Hr Hc) as [Hpa Hpr].
    destruct (page_order_spec p (r_end r) Hpa He ltac:(lia) Hb) as (Ho & _ & Hp0 & Hple).
    assert (address p) as Hadr by (unfold address; lia). set (o := page_order p (r_end r)) in *.
    pose proof (fun a => page_range _ _ p a Hr Hc ltac:(lia)) as Hrange. fold o in Hrange.
    destruct (insert_page_ok t1 o p r) as (st & t2 & -> & Hw2 & Hn2 & Hcase); [done..|].
    eexists _, _. split; [done|]. destruct Hcase as [(-> & Hfree & Hm2)|(-> & (a & Ha & Hu) & Hn3 & Hm3)].
    + rewrite bool_decide_eq_false_2 by tauto. cbn [andb]. split; [done|congruence|..].
      * intros a Ha. assert (address a) as Haa by (unfold address; lia). rewrite Hm2 by done.
        destruct (decide (inpage o p a)) as [Hi|Hi].
        -- rewrite <- Hout1 by (done || apply Hrange in Hi; lia). split; [by apply Hfree|by eexists].
        -- apply Hin1. assert (~ (p <= a < p + 2 ^ o)) by (by rewrite <- Hrange). lia.
      * intros a Ha Hna. rewrite Hm2, decide_False by (done || rewrite Hrange; lia). apply Hout1; [done|lia].
      * intros q Hq Hqp. destruct (chain_ok _ _ q Hr Hq) as [Hqa Hqr].
        rewrite Hm2 by (unfold address; lia). destruct (Z.lt_trichotomy q p) as [Hqlt|[->|Hqgt]].
        -- rewrite decide_False by (rewrite Hrange; lia). by apply Hpg1.
        -- by rewrite decide_True by apply inpage_refl.
        -- pose proof (chain_mono _ _ p q Hr Hc Hq Hqgt) as Hnx. unfold next_page in Hnx.
           rewrite (proj2 (Z.ltb_lt p (r_end r))) in Hnx by lia. fold o in Hnx. lia.
    + rewrite bool_decide_eq_true_2 by done. cbn [andb]. split_and!; [done| |].
      * split; [done|congruence|..].
        -- intros b Hb'. rewrite Hm3 by (unfold address; lia). by apply Hin1.
        -- intros b Hb' Hnb. rewrite Hm3 by done. by apply Hout1.
        -- intros q Hq Hqp. destruct (chain_ok _ _ q Hr Hq). rewrite Hm3 by (unfold address; lia). by apply Hpg1.
      * apply Hrange in Ha. exists a. split; [lia|]. rewrite <- Hout1; [done|unfold address; lia|lia].
  - split; [done|done|lia|done|]. intros q Hq Hqp. destruct (chain_ok _ _ q Hr Hq). lia.
Qed.

Definition contains (r : ucs_pgt_region_t) (a : Z) : Prop := r_start r <= a < r_end r.

#[export] Instance contains_dec r a : Decision (contains r a) := decide (r_start r <= a < r_end r).

Definition overlap (r r' : ucs_pgt_region_t) : Prop := r_start r < r_end r' /\ r_start r' < r_end r.

(** The table [t] holds exactly the regions [regs]. *)
Record table_ok (t : ucs_pgtable_t) (regs : list ucs_pgt_region_t) : Prop := TableOk {
  tk_wf : wf_table t;
  tk_num : num_regions t = Z.of_nat (length regs);
  tk_nodup : NoDup regs;
  tk_region r : r ∈ regs -> region_ok r;
  tk_ptr r r' : r ∈ regs -> r' ∈ regs -> r_ptr r = r_ptr r' -> r = r';
  tk_map a r : address a -> ((exists o, pmap t a = Some (o, r)) <-> r ∈ regs /\ contains r a);
  tk_pages r p : r ∈ regs -> on_chain (r_start r) (r_end r) p -> p < r_end r ->
    pmap t p = Some (page_order p (r_end r), r)
}.

Lemma init_table : table_ok ucs_pgtable_init [].
Proof.
  assert (wf_table ucs_pgtable_init) as Hw by by apply reset_span.
  split; [done|done|apply NoDup_nil_2|set_solver|set_solver| |set_solver].
  intros a r Ha. rewrite pmap_span by (done || apply Hw). split; [|set_solver].
  intros [o H]. by case_decide.
Qed.

Lemma table_ok_same t t' regs : table_ok t regs -> wf_table t' -> same_map t t' -> table_ok t' regs.
Proof.
  intros [? Hn ? Hreg ? Hmap Hpg] Hw [Hn' Hm]. split; [done|congruence|done..|by intros a r Ha; rewrite Hm by done; auto|].
  intros r p Hr Hc Hp. rewrite Hm; [auto|]. destruct (Hreg r Hr) as [Hrr _].
  destruct (chain_ok _ _ _ Hrr Hc). destruct Hrr as (_ & _ & ? & ?). unfold address. lia.
Qed.

Lemma region_address t regs r a : table_ok t regs -> r ∈ regs -> contains r a -> address a.
Proof. intros Hok Hr Ha. destruct (tk_region _ _ Hok r Hr) as [(_ & _ & ? & ?) _]. unfold contains, address in *. lia. Qed.

Lemma unmapped t regs r a : table_ok t regs -> r ∈ regs -> contains r a -> pmap t a <> None.
Proof.
  intros Hok Hr Ha. pose proof (region_address _ _ _ _ Hok Hr Ha) as Hadr.
  destruct (proj2 (tk_map _ _ Hok a r Hadr) (conj Hr Ha)) as [o ->]. done.
Qed.

Lemma mapped_region t regs a : table_ok t regs -> address a -> pmap t a <> None ->
  exists o r, pmap t a = Some (o, r) /\ r ∈ regs /\ contains r a.
Proof.
  intros Hok Ha Hm. destruct (pmap t a) as [[o r]|] eqn:E; [|done]. exists o, r. split; [done|].
  apply (tk_map _ _ Hok a r Ha). by exists o.
Qed.

Lemma bad_range_false r : address (r_start r) -> address (r_end r) -> bad_range (r_start r) (r_end r) = false -> region_ok r.
Proof.
  intros Hs He. unfold bad_range, ucs_pgt_is_addr_aligned. change (UCS_PGT_ADDR_ALIGN - 1) with (Z.ones 4).
  rewrite !Z.land_ones by done. intros H. zbool_hyps. unfold address in *.
  split; [split_and!; [done|done|lia..]|lia].
Qed.

Lemma region_not_bad r : region_ok r -> bad_range (r_start r) (r_end r) = false.
Proof.
  intros [(Hs & He & Hse & Hb) Hlt]. unfold bad_range. rewrite !is_addr_aligned by (done || lia).
  by rewrite (proj2 (Z.leb_gt _ _)) by lia.
Qed.

(** Inserting all pages of a region. *)
Lemma part_inserted_all t r t' regs : table_ok t regs -> region_ok r -> part_inserted t r t' (r_end r) ->
  num_regions t + 1 < 2 ^ 32 -> (forall r', r' ∈ regs -> r_ptr r' = r_ptr r -> r' = r) ->
  table_ok (add_num_regions 1 t') (r :: regs) /\ forall r', r' ∈ regs -> ~ overlap r r'.
Proof.
  intros Hok Hr [Hw Hn Hin Hout Hpg] Hnum Hptr.
  assert (forall r' a, r' ∈ regs -> contains r' a -> ~ contains r a) as Hdis.
  { intros r' a Hr' Ha Ha'. destruct (Hin a Ha') as [Hnone _]. by eapply unmapped. }
  assert (r ∉ regs) as Hnin.
  { intros Hreg. destruct Hr as [_ Hlt]. apply (Hdis r (r_start r)); [done|unfold contains; lia..]. }
  split.
  - pose proof Hok as [_ Hn0 Hnd Hreg0 Hptr0 Hmap0 Hpg0]. split; simpl.
    + destruct Hw as [Hw He]. split; [destruct Hw; by split|done].
    + rewrite Hn, Hn0, u_wrap_small; lia.
    + by constructor.
    + intros r' [->|Hr']%elem_of_cons; auto.
    + intros r1 r2 [->|H1]%elem_of_cons [->|H2]%elem_of_cons E; auto. symmetry. auto.
    + intros a r' Ha. change (pmap (add_num_regions 1 t') a) with (pmap t' a). rewrite elem_of_cons.
      destruct (decide (contains r a)) as [Hc|Hc].
      * destruct (Hin a Hc) as [Hnone [o Hm]]. rewrite Hm. split.
        -- intros [o' [= <- <-]]. auto.
        -- intros [[->|Hr'] Hc']; [by exists o|]. by destruct (Hdis r' a).
      * rewrite (Hout a Ha Hc), (Hmap0 a r' Ha). split; [intros [? ?]; auto|]. intros [[->|?] ?]; [done|auto].
    + intros r' p [->|Hr']%elem_of_cons Hc Hlt; [by apply (Hpg p Hc Hlt)|].
      destruct (Hreg0 r' Hr') as [Hrr _]. destruct (chain_ok _ _ _ Hrr Hc) as [_ Hpr].
      assert (contains r' p) as Hcp by (unfold contains; lia).
      change (pmap t' p = Some (page_order p (r_end r'), r')).
      rewrite Hout; [auto| |by apply (Hdis r')]. by eapply region_address.
  - intros r' Hr' [H1 H2]. destruct (tk_region _ _ Hok r' Hr') as [_ Hlt]. destruct Hr as [_ Hlt'].
    apply (Hdis r' (Z.max (r_start r) (r_start r')) Hr'); unfold contains; lia.
Qed.

Lemma insert_region_ok t r regs : table_ok t regs -> region_ok r ->
  num_regions t + 1 < 2 ^ 32 -> (forall r', r' ∈ regs -> r_ptr r' = r_ptr r -> r' = r) ->
  exists st t', ucs_pgtable_insert ea t r = Some (st, t') /\
    ((st = UCS_OK /\ (forall r', r' ∈ regs -> ~ overlap r r') /\ table_ok t' (r :: regs)) \/
     (st = UCS_ERR_ALREADY_EXISTS /\ (exists r', r' ∈ regs /\ overlap r r') /\ table_ok t' regs)).
Proof.
  intros Hok Hr Hnum Hptr. unfold ucs_pgtable_insert. rewrite region_not_bad by done.
  destruct (insert_pages_ok t r (tk_wf _ _ Hok) Hr) as (st & t1 & p & E & Hc & Hcase).
  rewrite (bind_eq _ _ _ E). cbv beta iota. destruct Hcase as [(-> & -> & Hp)|(-> & Hp & a & Ha & Hu)].
  - rewrite decide_True by done. destruct (part_inserted_all t r t1 regs Hok Hr Hp Hnum Hptr) as [Hok' Hdis].
    eexists _, _. split; [done|]. by left.
  - rewrite decide_False by done. pose proof Hp as [Hw1 Hn1 Hin1 Hout1 Hpg1].
    destruct Hr as [Hr Hlt]. destruct (chain_ok _ _ _ Hr Hc) as [Hpa Hpr]. pose proof Hr as (Hs & He & Hse & Hb).
    destruct (remove_pages_ok t1 r false (r_start r) p Hw1) as (t2 & E2 & Hw2 & Hn2 & Hm2).
    + split_and!; [done|done|lia|lia|lia].
    + intros q Hq Hqp. destruct (chain_prefix _ _ p q Hr Hc Hq Hqp) as [Hq' Ho]. exists r. split; [|done].
      rewrite Ho. by apply Hpg1.
    + rewrite (bind_eq _ _ _ E2). eexists _, _. split; [done|]. right. split_and!; [done| |].
      * destruct (mapped_region t regs a Hok) as (o & r' & _ & Hr' & Hc'); [unfold address; lia|done|].
        exists r'. split; [done|]. unfold contains, overlap in *. lia.
      * apply (table_ok_same t); [done|done|]. split; [congruence|]. intros b Hb'. rewrite Hm2 by done.
        case_decide as Hcb; [symmetry; by apply Hin1|by apply Hout1].
Qed.

Lemma remove_region_ok t r regs : table_ok t regs -> r ∈ regs -> num_regions t < 2 ^ 32 ->
  exists t', ucs_pgtable_remove ea t r = Some (UCS_OK, t') /\ table_ok t' (filter (fun r' => r' <> r) regs) /\
    num_regions t' = num_regions t - 1.
Proof.
  intros Hok Hin Hnum. pose proof Hok as [Hw Hn Hnd Hreg Hptr Hmap Hpg]. destruct (Hreg r Hin) as [Hr Hlt].
  unfold ucs_pgtable_remove. rewrite region_not_bad by (by apply Hreg).
  destruct (remove_pages_ok t r true (r_start r) (r_end r) Hw Hr) as (t1 & E & Hw1 & Hn1 & Hm1).
  { intros p Hc Hp. exists r. split; [|done]. by apply Hpg. }
  rewrite (bind_eq _ _ _ E). cbv beta iota. rewrite decide_True by done.
  apply list_elem_of_split in Hin as (l1 & l2 & ->). apply NoDup_app in Hnd as (Hnd1 & Hdis & [Hr2 Hnd2]%NoDup_cons).
  assert (r ∉ l1) as Hr1 by (intros H; apply (Hdis r H); by left).
  rewrite filter_app, filter_cons_False, !filter_ne_notin by tauto.
  rewrite length_app in Hn. simpl in Hn.
  rewrite (bind_eq _ tt) by (apply assert_true, Z.ltb_lt; lia). eexists. split; [done|].
  assert (num_regions (add_num_regions (-1) t1) = num_regions t - 1) as Hn2.
  { simpl. rewrite Hn1, u_wrap_small; lia. }
  split; [|done].
  assert (forall r' a, r' ∈ l1 ++ l2 -> contains r' a -> ~ contains r a) as Hdisj.
  { intros r' a Hr' Ha Hra. assert (r' ∈ l1 ++ r :: l2) as Hr'' by set_solver.
    pose proof (region_address _ _ _ _ Hok Hr'' Ha) as Hadr.
    destruct (proj2 (Hmap a r' Hadr) (conj Hr'' Ha)) as [o Ho].
    assert (r ∈ l1 ++ r :: l2) as Hrin by set_solver.
    destruct (proj2 (Hmap a r Hadr) (conj Hrin Hra)) as [o' Ho'].
    assert (r' = r) as -> by congruence. apply elem_of_app in Hr'. tauto. }
  split.
  - destruct Hw1 as [Hw1 He1]. split; [destruct Hw1; by split|done].
  - rewrite length_app. simpl in *. lia.
  - apply NoDup_app. split_and!; [done| |done]. intros x Hx Hx2. apply (Hdis x Hx). by right.
  - intros r' Hr'. apply Hreg. set_solver.
  - intros r1 r2 H1 H2. apply Hptr; set_solver.
  - intros a r' Ha. change (pmap (add_num_regions (-1) t1) a) with (pmap t1 a). rewrite Hm1 by done.
    case_decide as Hc.
    + split; [by intros [? ?]|]. intros [Hr' Hc']. by destruct (Hdisj r' a).
    + rewrite Hmap by done. split; [|set_solver]. intros [Hr' Hc']. split; [|done].
      rewrite elem_of_app, elem_of_cons in Hr'. rewrite elem_of_app. destruct Hr' as [?|[->|?]]; [auto|done|auto].
  - intros r' p Hr' Hc Hp. change (pmap (add_num_regions (-1) t1) p) with (pmap t1 p).
    assert (r' ∈ l1 ++ r :: l2) as Hr'' by set_solver. destruct (Hreg r' Hr'') as [Hrr _].
    destruct (chain_ok _ _ _ Hrr Hc) as [_ Hpr]. assert (contains r' p) as Hcp by (unfold contains; lia).
    rewrite Hm1 by (by eapply region_address). rewrite decide_False by (by apply (Hdisj r')). by apply Hpg.
Qed.

Lemma lookup_descend_ok e s a : (forall o r, emap s e a = Some (o, r) -> contains r a) ->
  lookup_descend ea e s a = Some (snd <$> emap s e a).
Proof.
  revert s. induction e as [|r|c f IH]; intros s Hc; simpl; [done| |by apply IH].
  specialize (Hc s r eq_refl). unfold contains in Hc. rewrite (bind_eq _ tt); [done|]. apply assert_true.
  apply andb_true_iff. rewrite Z.leb_le, Z.ltb_lt. done.
Qed.

(** C18: lookup is exact: in a table that holds the regions [regs],
    [ucs_pgtable_lookup] returns the region that contains the address, or
    nothing when no region does, for every 64-bit address; its assertion holds. *)
Theorem pgtable_lookup_exact t regs a : table_ok t regs -> address a ->
  exists res, ucs_pgtable_lookup ea t a = Some res /\
    forall r, res = Some r <-> r ∈ regs /\ contains r a.
Proof.
  intros Hok Ha. pose proof (tk_map _ _ Hok a) as Hmap. unfold ucs_pgtable_lookup. unfold pmap in Hmap.
  destruct (Z.land a (mask t) =? base t); cbn [negb].
  - rewrite lookup_descend_ok by (intros o r E; apply Hmap; [done|by exists o]).
    eexists. split; [done|]. intros r. rewrite <- Hmap by done.
    destruct (emap (shift t) (root t) a) as [[o r']|]; simpl.
    + split; [intros [= ->]; by exists o|intros [o' [= -> ->]]; done].
    + split; [done|by intros [? ?]].
  - eexists. split; [done|]. intros r. rewrite <- Hmap by done. split; [done|by intros [? ?]].
Qed.

(** C17: insertion is exact: [ucs_pgtable_insert] rejects a misaligned or empty
    region, adds a region that overlaps no other one, and otherwise reports that
    it already exists and leaves the table with the regions it had: the pages
    inserted before the conflict are taken out again. *)
Theorem pgtable_insert_exact t r regs : table_ok t regs -> address (r_start r) -> address (r_end r) ->
  num_regions t + 1 < 2 ^ 32 -> (forall r', r' ∈ regs -> r_ptr r' = r_ptr r -> r' = r) ->
  exists st t', ucs_pgtable_insert ea t r = Some (st, t') /\
    ((st = UCS_ERR_INVALID_PARAM /\ ~ region_ok r /\ t' = t) \/
     (st = UCS_OK /\ (forall r', r' ∈ regs -> ~ overlap r r') /\ table_ok t' (r :: regs)) \/
     (st = UCS_ERR_ALREADY_EXISTS /\ (exists r', r' ∈ regs /\ overlap r r') /\ table_ok t' regs)).
Proof.
  intros Hok Hs He Hn Hp. destruct (bad_range (r_start r) (r_end r)) eqn:Eb.
  - unfold ucs_pgtable_insert. rewrite Eb. eexists _, _. split; [done|]. left. split_and!; [done| |done].
    intros Hr%region_not_bad. congruence.
  - apply bad_range_false in Eb; [|done|done].
    destruct (insert_region_ok t r regs Hok Eb Hn Hp) as (st & t' & E & H). exists st, t'. auto.
Qed.

(** C21: removal is exact: [ucs_pgtable_remove] of a region that is in the table
    succeeds in both build modes, and leaves the other regions and only them. *)
Theorem pgtable_remove_exact t r regs : table_ok t regs -> r ∈ regs -> num_regions t < 2 ^ 32 ->
  exists t', ucs_pgtable_remove ea t r = Some (UCS_OK, t') /\ table_ok t' (filter (fun r' => r' <> r) regs).
Proof.
  intros Hok Hr Hn. destruct (remove_region_ok t r regs Hok Hr Hn) as (t' & ? & ? & _). by exists t'.
Qed.

(** ** Searching a range *)

Definition before (r r' : ucs_pgt_region_t) : Prop := r_end r <= r_start r'.

Section search.
Context (t : ucs_pgtable_t) (regs : list ucs_pgt_region_t) (Hok : table_ok t regs).

(** The search has seen the addresses from [lo] to [cur]. *)
Record scanned (lo cur : Z) (st : search_state) : Prop := Scanned {
  sc_last : st.1 = last st.2;
  sc_sorted : StronglySorted before st.2;
  sc_found r : r ∈ st.2 <-> r ∈ regs /\ exists a, lo <= a < cur /\ contains r a
}.

Lemma regions_disjoint r r' a : r ∈ regs -> r' ∈ regs -> contains r a -> contains r' a -> r = r'.
Proof.
  intros Hr Hr' Ha Ha'. pose proof (region_address _ _ _ _ Hok Hr Ha) as Hadr.
  destruct (proj2 (tk_map _ _ Hok a r Hadr) (conj Hr Ha)) as [o Ho].
  destruct (proj2 (tk_map _ _ Hok a r' Hadr) (conj Hr' Ha')) as [o' Ho']. congruence.
Qed.

Lemma regions_before r r' a a' : r ∈ regs -> r' ∈ regs -> r <> r' -> contains r a -> contains r' a' -> a < a' -> before r r'.
Proof.
  intros Hr Hr' Hne Ha Ha' Hlt. unfold before. destruct (Z_lt_le_dec (r_start r') (r_end r)) as [Ho|]; [|done].
  destruct Hne. apply (regions_disjoint r r' (Z.max (r_start r) (r_start r'))); [done|done|..]; unfold contains in *; lia.
Qed.

Lemma scanned_skip lo cur cur' st : scanned lo cur st -> cur <= cur' ->
  (forall a, cur <= a < cur' -> pmap t a = None) -> scanned lo cur' st.
Proof.
  intros [Hl Hs Hf] Hle Hno. split; [done|done|]. intros r. rewrite Hf. split; intros (Hr & a & Ha & Hc); (split; [done|]).
  - exists a. split; [lia|done].
  - exists a. split; [|done]. destruct (Z_lt_le_dec a cur); [lia|]. exfalso.
    apply (unmapped _ _ _ _ Hok Hr Hc), Hno. lia.
Qed.

Lemma sorted_snoc l r : StronglySorted before l -> (forall x, x ∈ l -> before x r) -> StronglySorted before (l ++ [r]).
Proof.
  induction 1 as [|x l Hs IH Hx]; intros Hb; simpl; [repeat constructor|]. constructor.
  - apply IH. intros y Hy. apply Hb. by right.
  - apply Forall_app. split; [done|]. apply Forall_cons. split; [apply Hb; by left|done].
Qed.

Lemma sorted_last l r x : StronglySorted before l -> last l = Some r -> x ∈ l -> x = r \/ before x r.
Proof.
  induction 1 as [|y l Hs IH Hy]; [done|]. intros Hlast Hx. destruct l as [|z l].
  - simpl in Hlast. apply list_elem_of_singleton in Hx. left. congruence.
  - rewrite last_cons_cons in Hlast. apply elem_of_cons in Hx as [->|Hx]; [|by apply IH].
    right. assert (r ∈ z :: l) as Hr by by apply last_Some_elem_of. by eapply (proj1 (Forall_forall _ _) Hy).
Qed.

(** Visiting a page of region [r]. *)
Lemma search_region_ok lo cur cur' p o r st : scanned lo cur st -> r ∈ regs -> lo <= cur < cur' ->
  (forall a, cur <= a < cur' -> contains r a) -> 0 <= p <= cur -> 0 <= o <= 64 -> cur < p + 2 ^ o <= 2 ^ 64 ->
  exists st', search_region ea p o r st = Some st' /\ scanned lo cur' st'.
Proof.
  intros [Hl Hs Hf] Hr Hcur Hin Hp Ho Hpo. destruct st as [lst calls]. simpl in *. subst lst.
  pose proof (Hin cur ltac:(lia)) as Hc. destruct (tk_region _ _ Hok r Hr) as [(_ & _ & Hse & Hb) _].
  unfold contains in Hc.
  assert (forall x, x ∈ calls -> x <> r -> before x r) as Hbefore.
  { intros x Hx Hne. apply Hf in Hx as (Hxr & a & Ha & Hca). apply (regions_before x r a cur); [done..|lia]. }
  assert (forall x, x ∈ regs -> (exists a, lo <= a < cur' /\ contains x a) <-> x = r \/ exists a, lo <= a < cur /\ contains x a) as Hext.
  { intros x Hx. split.
    - intros (a & Ha & Hca). destruct (Z_lt_le_dec a cur); [right; exists a; split; [lia|done]|left].
      apply (regions_disjoint x r a); [done|done|done|]. apply Hin. lia.
    - intros [->|(a & Ha & Hca)]; [exists cur|exists a]; (split; [lia|done]). }
  assert (ucs_assert ea (Z.max (r_start r) p <=? Z.min (u64 (r_end r - 1)) (u64 (p + UCS_MASK_SAFE o))) = Some tt) as Ha.
  { apply assert_true. apply Z.leb_le.
    assert (UCS_MASK_SAFE o = 2 ^ o - 1) as ->.
    { unfold UCS_MASK_SAFE. destruct (Z.leb_spec 64 o); [by replace o with 64 by lia|].
      rewrite ucs_mask_ones, Z.ones_equiv by lia. lia. }
    rewrite !u_wrap_small by lia. lia. }
  assert (forall calls', calls' = calls ++ [r] -> r ∉ calls -> scanned lo cur' (Some r, calls')) as Hadd.
  { intros calls' -> Hnin. split; simpl.
    - by rewrite last_snoc.
    - apply sorted_snoc; [done|]. intros x Hx. apply Hbefore; [done|]. by intros ->.
    - intros x. rewrite elem_of_app, list_elem_of_singleton, Hf. split.
      + intros [[Hx Hca]| ->]; (split; [done|]); apply Hext; auto.
      + intros [Hx Hca]. apply Hext in Hca as [->|Hca]; auto. }
  unfold search_region. destruct (last calls) as [l|] eqn:El.
  - pose proof (last_Some_elem_of _ _ El) as Hlin. pose proof (proj1 (Hf l) Hlin) as (Hlr & a & Ha' & Hla).
    destruct (Z.eqb_spec (r_ptr l) (r_ptr r)) as [Eptr|Eptr].
    + assert (l = r) as -> by by apply (tk_ptr _ _ Hok). eexists. split; [done|]. split; simpl; [done|done|].
      intros x. rewrite Hf. split; intros [Hx Hca]; (split; [done|]); [apply Hext; auto|].
      apply Hext in Hca as [->|Hca]; [|done|done]. by apply Hf.
    + assert (l <> r) as Hne by congruence.
      assert (before l r) as Hlbr by by apply Hbefore.
      rewrite (bind_eq _ tt) by (by apply assert_true, Z.leb_le). rewrite (bind_eq _ _ _ Ha).
      eexists. split; [done|]. apply Hadd; [done|]. intros Hrin.
      destruct (sorted_last _ _ _ Hs El Hrin) as [?|Hb']; [congruence|]. unfold before, contains in *. lia.
  - rewrite (bind_eq _ _ _ Ha). eexists. split; [done|]. apply Hadd; [done|].
    apply last_None in El as ->. apply not_elem_of_nil.
Qed.

(** Where a search of the page of order [o] at [p] starts and ends below an
    entry that maps the page of order [s] at [b]. *)
Definition search_from (s b o p : Z) : Z := if o <? s then p else b.
Definition search_to (s b o p : Z) : Z := if o <? s then p + 2 ^ o else b + 2 ^ s.

(** The page searched and the page mapped contain one another. *)
Definition nested (s b o p : Z) : Prop :=
  ok_order o /\ p mod 2 ^ o = 0 /\ 0 <= p /\ p + 2 ^ o <= 2 ^ 64 /\
  if o <? s then inpage s b p else inpage o p b.

Lemma fold_search f lo s b p o st :
  (forall i st, 0 <= i < 16 -> scanned lo (b + i * 2 ^ (s - 4)) st ->
     exists st', ucs_pgtable_search_recurs ea (f i) (s - 4) p o st = Some st' /\
       scanned lo (b + (i + 1) * 2 ^ (s - 4)) st') ->
  scanned lo b st ->
  exists st', foldl (fun st i => st ← st; ucs_pgtable_search_recurs ea (f i) (s - 4) p o st) (Some st) (seqZ 0 16) =
      Some st' /\ scanned lo (b + 16 * 2 ^ (s - 4)) st'.
Proof.
  intros Hstep. assert (forall n i st, i = 16 - Z.of_nat n -> 0 <= i -> scanned lo (b + i * 2 ^ (s - 4)) st ->
    exists st', foldl (fun st i => st ← st; ucs_pgtable_search_recurs ea (f i) (s - 4) p o st) (Some st)
                  (seqZ i (Z.of_nat n)) = Some st' /\ scanned lo (b + 16 * 2 ^ (s - 4)) st') as H.
  { induction n as [|n IH]; intros i st1 Hi Hi0 Hs.
    - exists st1. split; [done|]. by replace 16 with i by lia.
    - rewrite seqZ_cons by lia. simpl. destruct (Hstep i st1 ltac:(lia) Hs) as (st2 & -> & Hs2).
      replace (Z.pred (Z.of_nat (S n))) with (Z.of_nat n) by lia. by apply IH; [lia|lia|]. }
  intros Hs. apply (H 16%nat 0); [done|done|]. by rewrite Z.mul_0_l, Z.add_0_r.
Qed.

Lemma nested_range s b o p a : nested s b o p -> ok_order s -> b mod 2 ^ s = 0 ->
  search_from s b o p <= a < search_to s b o p -> inpage s b a /\ p <= a < p + 2 ^ o.
Proof.
  intros (Ho & Hp0 & Hp & Hpo & Hin) [Hs1 _] Hb. destruct Ho as [Ho1 _]. unfold search_from, search_to.
  destruct (Z.ltb_spec o s) as [Hos|Hos]; intros Ha; (split; [|try done]).
  - apply (inpage_range o p a ltac:(lia) Hp0) in Ha. apply (inpage_up o s) in Ha; [|lia]. unfold inpage in *. congruence.
  - by apply (inpage_range s b a ltac:(lia) Hb).
  - apply (inpage_range o p a ltac:(lia) Hp0). apply (inpage_range s b a ltac:(lia) Hb) in Ha.
    apply (inpage_up s o) in Ha; [|lia]. unfold inpage in *. congruence.
Qed.

(** The sub-page of a directory that the search descends into. *)
Lemma nested_sub s b o p b' : nested s b o p -> ok_order s -> 8 <= s -> b' mod 2 ^ (s - 4) = 0 ->
  (if o <? s then inpage (s - 4) b' p else inpage s b b') -> nested (s - 4) b' o p.
Proof.
  intros (Ho & Hp0 & Hp & Hpo & Hin) [Hs1 Hs4] Hs8 Hb' Hb. pose proof Ho as [Ho1 Ho4]. split_and!; [done..|].
  destruct (Z.ltb_spec o s) as [Hos|Hos].
  - destruct (Z.ltb_spec o (s - 4)) as [Hos'|Hos']; [done|]. assert (o = s - 4) as -> by (Z.div_mod_to_equations; lia).
    unfold inpage in *. congruence.
  - destruct (Z.ltb_spec o (s - 4)) as [Hos'|Hos']; [lia|]. apply (inpage_up s o) in Hb; [|lia].
    unfold inpage in *. congruence.
Qed.

Lemma search_recurs_ok e s b o p lo st : wf_entry s e -> ok_order s -> b mod 2 ^ s = 0 -> 0 <= b ->
  nested s b o p -> (forall a, inpage s b a -> pmap t a = emap s e a) ->
  lo <= search_from s b o p -> scanned lo (search_from s b o p) st ->
  exists st', ucs_pgtable_search_recurs ea e s p o st = Some st' /\ scanned lo (search_to s b o p) st'.
Proof.
  revert s b st. induction e as [|r|c f IH]; intros s b st Hwf Hs Hb Hb0 Hn Hmap Hlo Hsc; cbn [ucs_pgtable_search_recurs].
  all: pose proof Hn as (Ho & Hp0 & Hp & Hpo & Hin); pose proof Hs as [Hs1 Hs4]; pose proof Ho as [Ho1 Ho4].
  all: pose proof (fun a => nested_range s b o p a Hn Hs Hb) as Hrange.
  all: assert (search_from s b o p < search_to s b o p) as Hft by
    (unfold search_from, search_to; destruct (o <? s); lia).
  - eexists. split; [done|]. eapply scanned_skip; [exact Hsc|lia|]. intros a Ha. by rewrite Hmap by (by apply Hrange).
  - assert (forall a, search_from s b o p <= a < search_to s b o p -> r ∈ regs /\ contains r a) as H.
    { intros a Ha. apply Hrange in Ha as [Ha Hpa]. apply (tk_map _ _ Hok); [unfold address; lia|].
      exists s. by rewrite Hmap. }
    pose proof (Hrange (search_from s b o p) ltac:(lia)) as [_ Hpf].
    eapply search_region_ok; [exact Hsc|apply (H (search_from s b o p)); lia|lia|intros a Ha; by apply H|lia..].
  - destruct Hwf as (Hs8 & _ & _ & Hwf). unfold UCS_PGT_ENTRY_SHIFT, UCS_PGT_ENTRIES_PER_DIR.
    rewrite (bind_eq _ tt) by (apply assert_true, Z.leb_le; lia). cbv zeta beta.
    assert (ok_order (s - 4)) as Hs' by (split; [lia|rewrite <- Hs4; Z.div_mod_to_equations; lia]).
    pose proof (pow16 (s - 4) ltac:(lia)) as H16. replace (s - 4 + 4) with s in H16 by lia.
    assert (forall b', inpage s b b' -> forall a, inpage (s - 4) b' a ->
      pmap t a = emap (s - 4) (f (entry_index b' (s - 4))) a) as Hmap'.
    { intros b' Hb' a Ha. assert (inpage s b' a) as Hsa by (apply (inpage_up (s - 4)); [lia|done]).
      rewrite Hmap by (unfold inpage in *; congruence). simpl.
      by rewrite (proj1 (inpage_index s b' a ltac:(lia) Hsa) Ha). }
    destruct (Z.ltb_spec o s) as [Hos|Hos].
    + rewrite (bind_eq _ tt) by (apply assert_true, Z.leb_le; Z.div_mod_to_equations; lia). cbv beta.
      set (b' := p / 2 ^ (s - 4) * 2 ^ (s - 4)).
      assert (inpage (s - 4) b' p) as Hbp by (unfold inpage, b'; by rewrite Z.div_mul by lia).
      assert (b' mod 2 ^ (s - 4) = 0) as Hb' by (apply Z.mod_mul; lia).
      assert (inpage s b b') as Hsb.
      { assert (inpage s b' p) by (apply (inpage_up (s - 4)); [lia|done]). unfold inpage in *. congruence. }
      assert (entry_index p (s - 4) = entry_index b' (s - 4)) as Hidx.
      { apply inpage_index; [lia|apply (inpage_up (s - 4)); [lia|done]|done]. }
      assert (search_from (s - 4) b' o p = search_from s b o p /\ search_to (s - 4) b' o p = search_to s b o p) as [Ef Et].
      { unfold search_from, search_to. rewrite (proj2 (Z.ltb_lt o s)) by lia.
        destruct (Z.ltb_spec o (s - 4)); [done|]. assert (o = s - 4) as -> by (Z.div_mod_to_equations; lia).
        assert (b' = p) as -> by (unfold b'; pose proof (Z.div_mod p (2 ^ (s - 4)) ltac:(lia)); lia). done. }
      destruct (IH (entry_index p (s - 4)) (s - 4) b' st) as (st' & -> & Hst'); [..|by exists st'; rewrite <- Et].
      * apply Hwf, entry_index_range. lia.
      * done.
      * done.
      * unfold b'. pose proof (Z.div_pos p (2 ^ (s - 4)) ltac:(lia) ltac:(lia)). nia.
      * apply (nested_sub s b); [done..|]. by rewrite (proj2 (Z.ltb_lt o s)) by lia.
      * rewrite Hidx. by apply Hmap'.
      * by rewrite Ef.
      * by rewrite Ef.
    + unfold search_from, search_to in *. rewrite (proj2 (Z.ltb_ge o s)) in * by lia. rewrite H16.
      apply fold_search; [|done]. intros i st1 Hi Hsc1. set (b' := b + i * 2 ^ (s - 4)).
      pose proof (Z.div_mod b (2 ^ s) ltac:(lia)) as Eb.
      assert (b' = (16 * (b / 2 ^ s) + i) * 2 ^ (s - 4)) as Eb' by (unfold b'; lia).
      assert (b' mod 2 ^ (s - 4) = 0) as Hb' by (rewrite Eb'; apply Z.mod_mul; lia).
      assert (inpage s b b') as Hsb by (apply inpage_range; [lia|done|unfold b'; nia]).
      assert (entry_index b' (s - 4) = i) as Hidx.
      { rewrite entry_index_div by lia. rewrite Eb', Z.div_mul by lia.
        rewrite Z.add_comm, Z.mul_comm, Z.mod_add, Z.mod_small; lia. }
      destruct (IH i (s - 4) b' st1) as (st' & -> & Hst'); [auto|done|done|unfold b'; nia|..].
      * apply (nested_sub s b); [done..|]. by rewrite (proj2 (Z.ltb_ge o s)) by lia.
      * rewrite <- Hidx. by apply Hmap'.
      * rewrite (proj2 (Z.ltb_ge o (s - 4))) by lia. unfold b'. nia.
      * by rewrite (proj2 (Z.ltb_ge o (s - 4))) by lia.
      * exists st'. split; [done|]. rewrite (proj2 (Z.ltb_ge o (s - 4))) in Hst' by lia.
        by replace (b + (i + 1) * 2 ^ (s - 4)) with (b' + 2 ^ (s - 4)) by (unfold b'; lia).
Qed.

Lemma next_order_any p e : aligned p -> aligned e -> 0 <= p < 2 ^ 63 -> 0 < e < 2 ^ 64 ->
  exists o, ucs_pgtable_get_next_page_order ea p e = Some o /\ ok_order o /\ o <= 60 /\ p mod 2 ^ o = 0 /\
    (p < e -> p + 2 ^ o <= e) /\ (p = e -> o = 4).
Proof.
  intros Hp He Hpr Her. destruct (Z.lt_trichotomy p e) as [Hlt|[->|Hgt]].
  - destruct (page_order_spec p e Hp He ltac:(lia) ltac:(lia)) as (? & ? & ? & ?).
    exists (page_order p e). rewrite next_order_ok by (done || lia). split_and!; [done..|lia].
  - exists 4. unfold ucs_pgtable_get_next_page_order. rewrite !is_addr_aligned by (done || lia).
    rewrite !(bind_eq _ tt) by (by apply assert_true). rewrite (proj2 (Z.eqb_neq e 0)), Z.eqb_refl by lia. cbn [andb].
    cbv zeta. rewrite (bind_eq _ tt) by (by apply assert_true). split_and!; [done|split; [lia|done]|lia|done|lia|done].
  - unfold ucs_pgtable_get_next_page_order. rewrite !is_addr_aligned by (done || lia).
    rewrite !(bind_eq _ tt) by (by apply assert_true).
    rewrite (proj2 (Z.eqb_neq e 0)), (proj2 (Z.eqb_neq e p)), (proj2 (Z.eqb_neq p 0)) by lia. cbn [andb negb]. cbv zeta.
    assert (u64 (e - p) = 2 ^ 64 + (e - p)) as ->.
    { unfold u_wrap. rewrite <- (Z.mod_add (e - p) 1), Z.mul_1_l, Z.mod_small by lia. lia. }
    unfold ucs_ilog2. rewrite ilog2_u64_log2, ffs64_ctz by lia.
    assert (Z.log2 (2 ^ 64 + (e - p)) = 63) as -> by (apply Z.log2_unique; lia).
    pose proof (ctz_aligned p ltac:(lia) Hp) as Hc. set (l := Z.min (ctz p) 63).
    unfold UCS_PGT_ADDR_SHIFT, UCS_PGT_ADDR_ORDER, UCS_PGT_ENTRY_SHIFT.
    rewrite (bind_eq _ tt) by (apply assert_true, andb_true_iff; split; apply Z.leb_le; lia).
    set (o := (l - 4) / 4 * 4 + 4). exists o.
    assert (4 <= o <= l /\ o <= 60 /\ o mod 4 = 0) as (Ho & Ho60 & Ho4) by (unfold o; Z.div_mod_to_equations; lia).
    split_and!; [done|split; [lia|done]|done| |lia|lia].
    destruct (ctz_split p ltac:(lia)) as (_ & q & _ & E). rewrite E.
    replace (ctz p) with (o + (ctz p - o)) by lia. rewrite Z.pow_add_r by lia.
    rewrite <- Z.mul_assoc, Z.mul_comm. apply Z.mod_mul. lia.
Qed.

(** A page below [2 ^ 63] stays below it. *)
Lemma page_below p o : 0 <= p < 2 ^ 63 -> 0 <= o <= 60 -> p mod 2 ^ o = 0 -> p + 2 ^ o <= 2 ^ 63.
Proof.
  intros Hp Ho Hm. pose proof (Z.div_mod p (2 ^ o) ltac:(lia)) as E.
  assert (2 ^ 63 = 2 ^ o * 2 ^ (63 - o)) as E63 by (rewrite <- Z.pow_add_r by lia; f_equal; lia).
  assert (p / 2 ^ o < 2 ^ (63 - o)) by nia. nia.
Qed.

(** The end of the search and its relation to the span of the table. *)
Definition search_end (to end_ : Z) : Prop :=
  aligned end_ /\ 0 < end_ < 2 ^ 64 /\ end_ <= 16 * (to / 16 + 1) /\
  (end_ < to -> end_ = base t + 2 ^ shift t) /\
  (shift t = 64 \/ end_ <= base t + 2 ^ shift t).

(** The part of the address space the search is done with. *)
Definition search_inv (lo to : Z) (s : Z * search_state) : Prop :=
  aligned s.1 /\ lo <= s.1 <= 2 ^ 63 /\ 0 <= lo /\ base t <= s.1 /\ scanned lo s.1 s.2 /\
  forall a, 16 * (to / 16 + 1) <= a < s.1 -> pmap t a = None.

Lemma search_step_ok lo to end_ s : 0 <= to < 2 ^ 63 -> search_end to end_ -> search_inv lo to s ->
  exists x, search_step ea t end_ to s = Some x /\
    match x with
    | inl s' => search_inv lo to s' /\ 0 <= 2 ^ 63 - s'.1 < 2 ^ 63 - s.1
    | inr st => st = s.2 /\ to < s.1 /\ search_inv lo to s
    end.
Proof.
  intros Hto (Hea & He0 & Heto & Hend & Htop) Hinv. destruct s as [p st].
  pose proof Hinv as (Hpa & Hp & Hlo & Hbase & Hsc & Hout). cbn [fst snd] in *.
  unfold search_step. destruct (Z.leb_spec p to) as [Hle|Hgt]; [|by eexists; split; [done|]].
  destruct (next_order_any p end_ Hpa Hea ltac:(lia) He0) as (o & E & Ho & Ho60 & Hp0 & Hlt & Heq).
  rewrite (bind_eq _ _ _ E). pose proof (tk_wf _ _ Hok) as [Hw _]. pose proof (base_bound t Hw) as Hbb.
  pose proof Ho as [Ho1 _]. pose proof (page_below p o ltac:(lia) ltac:(lia) Hp0) as Hpo.
  pose proof (span_shift _ Hw) as Hs. pose proof Hs as [Hs1 Hs4].
  rewrite in_span by (done || unfold address; lia).
  assert (forall st', scanned lo (p + 2 ^ o) st' ->
    (forall a, 16 * (to / 16 + 1) <= a < p + 2 ^ o -> pmap t a = None) ->
    exists x, (if o =? UCS_PGT_ADDR_ORDER then Some (inr st')
               else address ← ucs_pgt_address_advance ea p o; Some (inl (address, st'))) = Some x /\
      match x with
      | inl s' => search_inv lo to s' /\ 0 <= 2 ^ 63 - s'.1 < 2 ^ 63 - p
      | inr st0 => st0 = st /\ to < p /\ search_inv lo to (p, st)
      end) as Hnext.
  { intros st' Hsc' Hout'. unfold UCS_PGT_ADDR_ORDER. rewrite (proj2 (Z.eqb_neq o 64)) by lia.
    unfold ucs_pgt_address_advance. rewrite (bind_eq (ucs_assert _ _) tt) by (apply assert_true, Z.ltb_lt; lia).
    rewrite (bind_eq _ (p + 2 ^ o)) by (rewrite Z.shiftl_1_l, u_wrap_small by lia; done).
    eexists. split; [done|]. cbn [fst snd]. split; [|lia]. split_and!; cbn [fst snd]; [|lia|lia|lia|lia|done|done].
    apply aligned_add; [done|]. apply aligned_pow. lia. }
  destruct (bool_decide (inpage (shift t) (base t) p)) eqn:Ein.
  - apply bool_decide_eq_true in Ein. pose proof (span_base _ Hw) as [Hb Hb0].
    pose proof (proj1 (inpage_range (shift t) (base t) p ltac:(lia) Hb0) Ein) as Hin.
    assert (p + 2 ^ o <= base t + 2 ^ shift t /\ p + 2 ^ o <= 16 * (to / 16 + 1)) as [Hfit Hfit'].
    { pose proof (Z.div_mod to 16 ltac:(lia)). pose proof (Z.mod_pos_bound to 16 ltac:(lia)).
      destruct (Z.lt_trichotomy p end_) as [Hpe|[Hpe|Hpe]]; [| |lia].
      - specialize (Hlt Hpe). destruct Htop as [E64|]; [|lia]. rewrite E64 in *. lia.
      - specialize (Heq Hpe). rewrite Heq. pose proof (aligned_pow (shift t) ltac:(lia)) as Hal.
        assert (aligned (base t)) as Hba.
        { unfold aligned. pose proof (Z.div_mod (base t) (2 ^ shift t) ltac:(lia)).
          unfold aligned in Hal. rewrite H1, Hb0, Z.add_0_r. rewrite Z.mul_mod, Hal, Z.mul_0_l by lia. done. }
        pose proof (aligned_add _ _ Hba Hal). unfold aligned in *. Z.div_mod_to_equations. lia. }
    assert (search_from (shift t) (base t) o p = p /\ search_to (shift t) (base t) o p = p + 2 ^ o) as [Ef Et].
    { unfold search_from, search_to. destruct (Z.ltb_spec o (shift t)); [done|].
      assert (2 ^ shift t <= 2 ^ o) by (apply Z.pow_le_mono_r; lia).
      assert (o = shift t) as -> by (apply (Z.pow_inj_r 2); lia). split; lia. }
    destruct (search_recurs_ok (root t) (shift t) (base t) o p lo st) as (st' & -> & Hst').
    + apply Hw.
    + done.
    + done.
    + lia.
    + split_and!; [done|done|lia|lia|]. destruct (Z.ltb_spec o (shift t)); [done|].
      assert (2 ^ shift t <= 2 ^ o) by (apply Z.pow_le_mono_r; lia). replace (base t) with p by lia. apply inpage_refl.
    + intros a Ha. rewrite pmap_span; [by rewrite decide_True|done|]. eapply inpage_address; [|exact Hb|exact Ha]. lia.
    + by rewrite Ef; lia.
    + by rewrite Ef.
    + cbn [mbind option_bind]. apply Hnext; [by rewrite <- Et|]. intros a Ha. apply Hout. lia.
  - apply bool_decide_eq_false in Ein. cbn [mbind option_bind].
    assert (forall a, p <= a < p + 2 ^ o -> pmap t a = None) as Hno.
    { intros a Ha. rewrite pmap_span by (done || unfold address; lia). rewrite decide_False; [done|].
      pose proof (span_base _ Hw) as [Hb Hb0]. rewrite inpage_range in Ein |- * by (done || lia). lia. }
    apply Hnext; [by eapply scanned_skip; [exact Hsc|lia|]|].
    intros a Ha. destruct (Z_lt_le_dec a p); [apply Hout; lia|apply Hno; lia].
Qed.

Lemma aligned_mul o b : 4 <= o -> b mod 2 ^ o = 0 -> aligned b.
Proof.
  intros Ho Hb. pose proof (aligned_pow o Ho) as Hal. unfold aligned in *.
  rewrite (Z.div_mod b (2 ^ o)), Hb, Z.add_0_r, Z.mul_mod, Hal, Z.mul_0_l by lia. done.
Qed.

(** A table with regions below [2 ^ 63] spans nothing above, unless it spans everything. *)
Lemma table_top : (forall r, r ∈ regs -> r_end r <= 2 ^ 63) -> shift t = 64 \/ base t + 2 ^ shift t <= 2 ^ 63.
Proof.
  intros Htop. pose proof (tk_wf _ _ Hok) as [Hw He]. pose proof (span_shift _ Hw) as [Hs Hs4].
  pose proof (span_base _ Hw) as [Hb Hb0]. destruct (decide (shift t = 64)); [by left|right].
  destruct (decide (ucs_pgt_entry_present (root t) = true)) as [Hp|Hp].
  - apply present_iff in Hp. destruct (entry_nonempty (root t) (shift t) (base t)) as (a & Ha & Hm); [apply Hw|lia|done|].
    pose proof (inpage_address (shift t) (base t) a ltac:(lia) Hb Ha) as Hadr.
    destruct (mapped_region t regs a Hok Hadr) as (o & r & _ & Hr & Hc).
    { rewrite pmap_span by done. by rewrite decide_True. }
    specialize (Htop r Hr). apply inpage_range in Ha; [|lia|done]. unfold contains in Hc.
    apply page_below; [lia|Z.div_mod_to_equations; lia|done].
  - apply not_true_is_false, present_false in Hp. destruct (He Hp) as [-> ->]. lia.
Qed.

Lemma below_base a : 0 <= a < base t -> pmap t a = None.
Proof.
  intros Ha. pose proof (tk_wf _ _ Hok) as [Hw _]. pose proof (span_base _ Hw) as [Hb Hb0].
  destruct (span_shift _ Hw) as [? _]. rewrite pmap_span by (done || unfold address; lia).
  rewrite decide_False; [done|]. rewrite inpage_range by (done || lia). lia.
Qed.

Lemma scanned_nil lo : scanned lo lo (None, []).
Proof.
  split; [done|constructor|]. intros r. split; [intros Hr; by apply not_elem_of_nil in Hr|].
  intros (_ & a & Ha & _). lia.
Qed.

(** The first address and the end of the search. *)
Lemma search_bounds_ok from to lo end_ : (forall r, r ∈ regs -> r_end r <= 2 ^ 63) ->
  0 <= from <= to -> 0 < to < 2 ^ 63 -> search_bounds t from to = (lo, end_) ->
  search_end to end_ /\ search_inv lo to (lo, (None, [])) /\
  lo = Z.max (from - from mod 16) (base t) /\ ucs_assert ea ((shift t <? 64) || (base t =? 0)) = Some tt.
Proof.
  intros Htop Hft Hto. unfold search_bounds. change UCS_PGT_ADDR_ALIGN with (2 ^ 4).
  rewrite align_down_pow2_mod by lia.
  destruct (align_up_pow2_ok to 4) as [[k Hk] Hx]; [lia|lia|lia|]. set (x := ucs_align_up_pow2 to (2 ^ 4)) in *.
  change (2 ^ 4) with 16 in *.
  pose proof (tk_wf _ _ Hok) as [Hw _]. pose proof (span_shift _ Hw) as [Hs Hs4]. pose proof (span_base _ Hw) as [Hb Hb0].
  pose proof (Z.div_mod to 16 ltac:(lia)). pose proof (Z.mod_pos_bound to 16 ltac:(lia)).
  pose proof (Z.div_mod from 16 ltac:(lia)). pose proof (Z.mod_pos_bound from 16 ltac:(lia)).
  assert (aligned (from - from mod 16)) as Hfa by (unfold aligned; Z.div_mod_to_equations; lia).
  assert (aligned x) as Hxa by (unfold aligned; rewrite Hk; change (2 ^ 4) with 16; apply Z.mod_mul; lia).
  assert (x <= 16 * (to / 16 + 1)) as Hx16 by (change (2 ^ 4) with 16 in *; lia).
  pose proof (aligned_mul (shift t) (base t) ltac:(lia) Hb0) as Hba.
  pose proof (aligned_pow (shift t) ltac:(lia)) as Hal.
  destruct (Z.ltb_spec (shift t) 64) as [Hs64|Hs64].
  - destruct (table_top Htop) as [?|Htt]; [lia|]. rewrite ucs_bit_pow, (u_wrap_small 64 (base t + _)) by lia.
    intros [= <- <-]. pose proof (aligned_add _ _ Hba Hal) as Hta. split_and!; [| |done|by apply assert_true].
    + split_and!; [|lia|lia|lia|lia|right; lia]. destruct (Z.min_spec x (base t + 2 ^ shift t)) as [[_ ->]|[_ ->]]; done.
    + split_and!; cbn [fst snd]; [|lia|lia|lia|lia|apply scanned_nil|intros a Ha; apply below_base; lia].
      destruct (Z.max_spec (from - from mod 16) (base t)) as [[_ ->]|[_ ->]]; done.
  - assert (shift t = 64) as E64 by lia. rewrite E64 in *.
    assert (base t = 0) as E0 by (rewrite Z.mod_small in Hb0 by lia; lia).
    intros [= <- <-]. split_and!; [| |lia|by apply assert_true; rewrite E0, orb_true_r].
    + split_and!; [done|lia|lia|lia|lia|by left].
    + split_and!; cbn [fst snd]; [done|lia|lia|lia|lia|apply scanned_nil|intros a Ha; lia].
Qed.

(** Searching a range below [2 ^ 63]. *)
Lemma pgtable_search_all_range from to : (forall r, r ∈ regs -> r_end r <= 2 ^ 63) ->
  0 <= from <= to -> 0 < to < 2 ^ 63 ->
  exists calls, ucs_pgtable_search_range ea t from to = Some calls /\ StronglySorted before calls /\
    forall r, r ∈ calls <-> r ∈ regs /\ r_start r <= to /\ from < r_end r.
Proof.
  intros Htop Hft Hto. unfold ucs_pgtable_search_range. destruct (search_bounds t from to) as [lo end_] eqn:Eb.
  destruct (search_bounds_ok from to lo end_ Htop Hft Hto Eb) as (Hend & Hinv & Elo & Hassert).
  rewrite (bind_eq _ _ _ Hassert).
  destruct (while_ok (search_step ea t end_ to) (search_inv lo to)
    (fun st => exists p, to < p /\ search_inv lo to (p, st)) (fun s => 2 ^ 63 - s.1) (lo, (None, [])))
    as ([lst calls] & E & p & Hp & Hfin).
  - intros s Hs. destruct (search_step_ok lo to end_ s ltac:(lia) Hend Hs) as (x & -> & Hx). eexists. split; [done|].
    destruct x as [s'|st]; [done|]. destruct s as [p st0], Hx as (-> & Hp & Hs'). by exists p.
  - done.
  - cbn [fst]. destruct Hinv as (_ & ? & ? & _). cbn [fst] in *. lia.
  - rewrite (bind_eq _ _ _ E). eexists. split; [done|]. destruct Hfin as (_ & Hpr & Hlo & Hbase & [_ Hsorted Hfound] & Hout).
    cbn [fst snd] in *. split; [done|]. intros r. rewrite Hfound. split; intros [Hr H]; (split; [done|]).
    + destruct H as (a & Ha & Hc). destruct (tk_region _ _ Hok r Hr) as [(Hsa & Hea & _ & _) _].
      assert (a < 16 * (to / 16 + 1)) as Hat.
      { destruct (Z_lt_le_dec a (16 * (to / 16 + 1))); [done|]. destruct (unmapped _ _ _ _ Hok Hr Hc). apply Hout. lia. }
      unfold contains, aligned in *. Z.div_mod_to_equations. lia.
    + destruct H as [Hst Hen]. set (a := Z.max from (r_start r)). exists a.
      assert (contains r a) as Hc by (unfold contains; destruct (tk_region _ _ Hok r Hr) as [_ ?]; lia).
      split; [|done]. pose proof (region_address _ _ _ _ Hok Hr Hc) as Hadr.
      assert (base t <= a) as Hba.
      { destruct (proj2 (tk_map _ _ Hok a r Hadr) (conj Hr Hc)) as [o Hm]. pose proof (tk_wf _ _ Hok) as [Hw _].
        rewrite pmap_span in Hm by done. case_decide as Hin; [|done].
        destruct (span_shift _ Hw) as [? _]. apply inpage_range in Hin; [lia|lia|apply Hw]. }
      pose proof (Z.mod_pos_bound from 16 ltac:(lia)). lia.
Qed.

(** C22: searching a range that ends above 0 and below [2 ^ 63] is exact, in a table
    whose regions end at [2 ^ 63] or below: the loop of [ucs_pgtable_search_range]
    ends, no assertion fails, and the callback is called for exactly the regions
    that overlap the inclusive range, each once and in address order.  The range
    that is only address 0 is not included: for it the order is computed from 0, and
    [pgtable_search_overreport] shows a region reported outside of it. *)
Theorem pgtable_search_exact from to : (forall r, r ∈ regs -> r_end r <= 2 ^ 63) ->
  0 <= from <= to -> 0 < to < 2 ^ 63 ->
  exists calls, ucs_pgtable_search_range ea t from to = Some calls /\ StronglySorted before calls /\
    forall r, r ∈ calls <-> r ∈ regs /\ r_start r <= to /\ from < r_end r.
Proof. apply pgtable_search_all_range. Qed.

(** The search over the whole span that [ucs_pgtable_purge] makes. *)
Lemma search_all_ok : (forall r, r ∈ regs -> r_end r <= 2 ^ 63) ->
  exists calls, ucs_pgtable_search_range ea t (base t)
      (u64 (base t + Z.land (u64 (Z.shiftl 1 (shift t))) (mask t) - 1)) = Some calls /\
    StronglySorted before calls /\ forall r, r ∈ calls <-> r ∈ regs.
Proof.
  intros Htop. pose proof (tk_wf _ _ Hok) as [Hw _]. pose proof (span_shift _ Hw) as Hs. pose proof Hs as [Hs1 Hs4].
  pose proof (span_base _ Hw) as [Hb Hb0].
  assert (forall r, r ∈ regs -> inpage (shift t) (base t) (r_start r) /\ contains r (r_start r)) as Hspan.
  { intros r Hr. assert (contains r (r_start r)) as Hc by (unfold contains; destruct (tk_region _ _ Hok r Hr) as [_ ?]; lia).
    split; [|done]. pose proof (region_address _ _ _ _ Hok Hr Hc) as Hadr.
    destruct (proj2 (tk_map _ _ Hok _ r Hadr) (conj Hr Hc)) as [o Hm]. rewrite pmap_span in Hm by done. by case_decide. }
  destruct (table_top Htop) as [E64|Htt].
  - assert (base t = 0) as E0 by (rewrite E64, Z.mod_small in Hb0 by lia; lia).
    pose proof (span_mask _ Hw) as Hm. rewrite E64 in Hm. change (2 ^ 64 - 2 ^ 64) with 0 in Hm.
    rewrite Hm, Z.land_0_r, E0. change (u64 (0 + 0 - 1)) with (2 ^ 64 - 1).
    unfold ucs_pgtable_search_range, search_bounds. rewrite E64, E0. change (64 <? 64) with false. cbv iota.
    change (ucs_align_down_pow2 0 UCS_PGT_ADDR_ALIGN) with 0.
    change (ucs_align_up_pow2 (2 ^ 64 - 1) UCS_PGT_ADDR_ALIGN) with 0.
    rewrite (bind_eq _ tt) by (by apply assert_true).
    destruct (search_recurs_ok (root t) (shift t) 0 64 0 0 (None, [])) as ([lst calls] & E & [_ Hsorted Hfound]).
    + apply Hw.
    + done.
    + by rewrite Z.mod_0_l by lia.
    + done.
    + rewrite E64. split_and!; [split; [lia|done]|done|done|done|]. apply inpage_refl.
    + intros a Ha. rewrite pmap_span; [by rewrite E0, decide_True|done|].
      eapply (inpage_address (shift t) 0); [lia|unfold address; lia|done].
    + rewrite E64. unfold search_from. simpl. lia.
    + rewrite E64. unfold search_from. simpl. apply scanned_nil.
    + destruct (while_ok (search_step ea t 0 (2 ^ 64 - 1)) (fun s => s = (0, (None, [])))
        (fun st => st = (lst, calls)) (fun _ => 0) (0, (None, []))) as (st & E' & ->); [|done|lia|].
      * intros s ->. unfold search_step. change (0 <=? 2 ^ 64 - 1) with true. cbv iota.
        rewrite (bind_eq _ 64).
        2: { unfold ucs_pgtable_get_next_page_order. change (ucs_pgt_is_addr_aligned 0) with true.
             rewrite !(bind_eq _ tt) by (by apply assert_true). done. }
        rewrite Hm, E0, Z.land_0_r. change (0 =? 0) with true. cbv iota.
        rewrite (bind_eq _ _ _ E). by eexists.
      * rewrite (bind_eq _ _ _ E'). eexists. split; [done|]. split; [done|]. intros r. cbn [snd] in Hfound. rewrite Hfound.
        split; [by intros [? _]|]. intros Hr. split; [done|]. exists (r_start r). destruct (Hspan r Hr) as [_ Hc].
        pose proof (region_address _ _ _ _ Hok Hr Hc). split; [|done]. rewrite E64. unfold search_to. simpl. done.
  - assert (shift t < 64) as Hs64.
    { destruct (decide (shift t = 64)) as [E|]; [|lia]. rewrite E in Htt. lia. }
    assert (u64 (base t + Z.land (u64 (Z.shiftl 1 (shift t))) (mask t) - 1) = base t + 2 ^ shift t - 1) as ->.
    { rewrite Z.shiftl_1_l. assert (2 ^ shift t < 2 ^ 64) by (apply Z.pow_lt_mono_r; lia).
      rewrite (u_wrap_small 64 (2 ^ shift t)) by lia. rewrite (span_mask _ Hw), land_mask by (unfold address; lia).
      rewrite Z.mod_same, Z.sub_0_r, u_wrap_small by lia. done. }
    assert (16 <= 2 ^ shift t) by (change 16 with (2 ^ 4); apply Z.pow_le_mono_r; lia).
    destruct (pgtable_search_all_range (base t) (base t + 2 ^ shift t - 1) Htop) as (calls & E & Hso & Hf); [lia|lia|].
    exists calls. split; [done|]. split; [done|]. intros r. rewrite Hf. split; [by intros [? _]|]. intros Hr.
    destruct (Hspan r Hr) as [Hin Hc]. apply inpage_range in Hin; [|lia|done].
    destruct (tk_region _ _ Hok r Hr) as [_ ?]. split_and!; [done|lia|lia].
Qed.

End search.

Lemma purge_loop l t regs : table_ok t regs -> NoDup l -> (forall r, r ∈ l <-> r ∈ regs) -> num_regions t < 2 ^ 32 ->
  exists t', foldl (fun t region => t ← t; '(_, t) ← ucs_pgtable_remove ea t region; Some t) (Some t) l = Some t' /\
    table_ok t' [].
Proof.
  revert t regs. induction l as [|r l IH]; intros t regs Hok Hnd Hin Hnum; simpl.
  - exists t. split; [done|]. destruct regs as [|r regs]; [done|]. assert (r ∈ []) as H by (apply Hin; by left).
    by apply not_elem_of_nil in H.
  - destruct (remove_region_ok t r regs Hok) as (t1 & -> & Hok1 & Hn1); [apply Hin; by left|done|]. cbn [mbind option_bind].
    apply NoDup_cons in Hnd as [Hr Hnd]. eapply IH; [exact Hok1|done| |lia].
    intros x. rewrite list_elem_of_filter, <- Hin, elem_of_cons. split.
    + intros Hx. split; [by intros ->|by right].
    + intros [Hne [->|Hx]]; done.
Qed.

Lemma sorted_nodup l : (forall r, r ∈ l -> r_start r < r_end r) -> StronglySorted before l -> NoDup l.
Proof.
  intros Hlt Hs. induction Hs as [|r l Hs IH Hr]; [apply NoDup_nil_2|]. apply NoDup_cons. split.
  - intros Hin. pose proof (proj1 (Forall_forall _ _) Hr r Hin) as Hb. unfold before in Hb.
    specialize (Hlt r ltac:(by left)). lia.
  - apply IH. intros x Hx. apply Hlt. by right.
Qed.

Lemma empty_table t : table_ok t [] -> root t = EEmpty /\ shift t = 4 /\ base t = 0 /\ num_regions t = 0.
Proof.
  intros Hok. pose proof (tk_wf _ _ Hok) as [Hw He]. destruct (span_shift _ Hw) as [? _]. pose proof (span_base _ Hw) as [Hb _].
  assert (root t = EEmpty) as Hr.
  { apply present_false. destruct (ucs_pgt_entry_present (root t)) eqn:Ep; [|done]. apply present_iff in Ep.
    destruct (entry_nonempty (root t) (shift t) (base t)) as (a & Ha & Hm); [apply Hw|lia|done|].
    pose proof (inpage_address (shift t) (base t) a ltac:(lia) Hb Ha) as Hadr.
    destruct (mapped_region t [] a Hok Hadr) as (o & r & _ & Hin & _); [|by apply not_elem_of_nil in Hin].
    rewrite pmap_span by done. by rewrite decide_True. }
  destruct (He Hr). split_and!; [done..|]. by rewrite (tk_num _ _ Hok).
Qed.

(** Purging empties the table: [ucs_pgtable_purge] calls the callback for
    every region of the table, each once and in address order, removes all of
    them, and its four final assertions hold: the root is empty and the span is
    back to its initial value. *)
Theorem pgtable_purge_empties t regs : table_ok t regs -> (forall r, r ∈ regs -> r_end r <= 2 ^ 63) ->
  num_regions t < 2 ^ 32 ->
  exists t' calls, ucs_pgtable_purge ea t = Some (t', calls) /\ table_ok t' [] /\
    StronglySorted before calls /\ forall r, r ∈ calls <-> r ∈ regs.
Proof.
  intros Hok Htop Hnum. unfold ucs_pgtable_purge.
  assert (exists t' calls, (if num_regions t =? 0 then Some (t, [])
     else
       all_regions ← ucs_pgtable_search_range ea t (base t)
         (u64 (base t + Z.land (u64 (Z.shiftl 1 (shift t))) (mask t) - 1));
       _ ← ucs_assert ea (Z.of_nat (length all_regions) =? num_regions t);
       t ← foldl (fun t region => t ← t; '(_, t) ← ucs_pgtable_remove ea t region; Some t) (Some t) all_regions;
       Some (t, all_regions)) = Some (t', calls) /\ table_ok t' [] /\
     StronglySorted before calls /\ forall r, r ∈ calls <-> r ∈ regs) as (t' & calls & E & Hok' & Hs & Hin).
  { pose proof (tk_num _ _ Hok) as Hn. destruct (Z.eqb_spec (num_regions t) 0) as [E0|E0].
    - destruct regs as [|]; [|simpl in Hn; lia]. exists t, []. split_and!; [done|done|constructor|done].
    - destruct (search_all_ok t regs Hok Htop) as (calls & E & Hs & Hin). rewrite (bind_eq _ _ _ E).
      assert (NoDup calls) as Hnd.
      { apply sorted_nodup; [|done]. intros r Hr. apply Hin in Hr. by destruct (tk_region _ _ Hok r Hr). }
      assert (length calls = length regs) as Hlen.
      { apply Permutation_length, NoDup_Permutation; [done|apply Hok|done]. }
      rewrite (bind_eq _ tt) by (apply assert_true, Z.eqb_eq; lia).
      destruct (purge_loop calls t regs Hok Hnd Hin Hnum) as (t' & Et & Hok'). rewrite (bind_eq _ _ _ Et).
      by exists t', calls. }
  rewrite (bind_eq _ _ _ E). destruct (empty_table t' Hok') as (Hr & Hsh & Hb & Hn). cbv beta iota.
  rewrite Hr, Hsh, Hb, Hn. rewrite !(bind_eq _ tt) by (by apply assert_true). by exists t', calls.
Qed.

End proofs.

(** ** Examples and limits *)

#[local] Opaque ucs_pgtable_insert ucs_pgtable_remove ucs_pgtable_lookup ucs_pgtable_search_range ucs_pgtable_purge.

Definition region_a : ucs_pgt_region_t := Region 1 16 4096.
Definition region_b : ucs_pgt_region_t := Region 2 65536 1048576.
Definition region_c : ucs_pgt_region_t := Region 3 4080 8192.

(** The table with regions [a] and [b]. *)
Definition sample_table : option ucs_pgtable_t :=
  '(_, t) ← ucs_pgtable_insert true ucs_pgtable_init region_a;
  '(_, t) ← ucs_pgtable_insert true t region_b;
  Some t.

Lemma sample_table_ok : exists t, sample_table = Some t /\ table_ok t [region_b; region_a].
Proof.
  assert (region_ok region_a /\ region_ok region_b) as [Ha Hb] by (repeat split; done).
  destruct (insert_region_ok true ucs_pgtable_init region_a []) as (st1 & t1 & E1 & H1);
    [apply init_table|done|done|set_solver|].
  destruct H1 as [(_ & _ & H1)|(_ & (r & Hr & _) & _)].
  2: { exfalso. by eapply not_elem_of_nil. }
  destruct (insert_region_ok true t1 region_b [region_a]) as (st2 & t2 & E2 & H2); [done|done| | |].
  { rewrite (tk_num _ _ H1). done. }
  { intros r Hr%list_elem_of_singleton. by rewrite Hr. }
  destruct H2 as [(_ & _ & H2)|(_ & (r & Hr & Ho) & _)].
  - exists t2. split; [|done]. unfold sample_table. rewrite (bind_eq _ _ _ E1). cbv beta iota. by rewrite (bind_eq _ _ _ E2).
  - apply list_elem_of_singleton in Hr as ->. unfold overlap in Ho. simpl in Ho. lia.
Qed.

Lemma pgtable_lookup_exact_witness :
  exists t res, sample_table = Some t /\ ucs_pgtable_lookup true t 48 = Some res /\
    forall r, res = Some r <-> r ∈ [region_b; region_a] /\ contains r 48.
Proof.
  destruct sample_table_ok as (t & E & Hok).
  destruct (pgtable_lookup_exact true t [region_b; region_a] 48 Hok) as (res & H1 & H2); [split; lia|].
  exact (ex_intro _ t (ex_intro _ res (conj E (conj H1 H2)))).
Defined.

Lemma pgtable_insert_exact_witness :
  exists t st t', sample_table = Some t /\ ucs_pgtable_insert true t region_c = Some (st, t') /\
    ((st = UCS_ERR_INVALID_PARAM /\ ~ region_ok region_c /\ t' = t) \/
     (st = UCS_OK /\ (forall r', r' ∈ [region_b; region_a] -> ~ overlap region_c r') /\
      table_ok t' (region_c :: [region_b; region_a])) \/
     (st = UCS_ERR_ALREADY_EXISTS /\ (exists r', r' ∈ [region_b; region_a] /\ overlap region_c r') /\
      table_ok t' [region_b; region_a])).
Proof.
  destruct sample_table_ok as (t & E & Hok).
  destruct (pgtable_insert_exact true t region_c [region_b; region_a] Hok) as (st & t' & H1 & H2);
    [split; simpl; lia|split; simpl; lia|rewrite (tk_num _ _ Hok); reflexivity| |
     exact (ex_intro _ t (ex_intro _ st (ex_intro _ t' (conj E (conj H1 H2)))))].
  clear E. intros r [->|[->|Hr]%elem_of_cons]%elem_of_cons; [done..|by apply not_elem_of_nil in Hr].
Defined.

Lemma pgtable_remove_exact_witness :
  exists t t', sample_table = Some t /\ ucs_pgtable_remove true t region_a = Some (UCS_OK, t') /\
    table_ok t' (filter (fun r' => r' <> region_a) [region_b; region_a]).
Proof.
  destruct sample_table_ok as (t & E & Hok).
  destruct (pgtable_remove_exact true t region_a [region_b; region_a] Hok) as (t' & H1 & H2);
    [clear E; set_solver|rewrite (tk_num _ _ Hok); reflexivity|].
  exact (ex_intro _ t (ex_intro _ t' (conj E (conj H1 H2)))).
Defined.

Lemma sample_below r : r ∈ [region_b; region_a] -> r_end r <= 2 ^ 63.
Proof. intros [->|[->|Hr]%elem_of_cons]%elem_of_cons; [done..|by apply not_elem_of_nil in Hr]. Qed.

Lemma pgtable_search_exact_witness :
  exists t calls, sample_table = Some t /\ ucs_pgtable_search_range true t 100 70000 = Some calls /\
    StronglySorted before calls /\
    forall r, r ∈ calls <-> r ∈ [region_b; region_a] /\ r_start r <= 70000 /\ 100 < r_end r.
Proof.
  destruct sample_table_ok as (t & E & Hok).
  destruct (pgtable_search_exact true t [region_b; region_a] Hok 100 70000 sample_below) as (calls & H); [lia|lia|].
  exact (ex_intro _ t (ex_intro _ calls (conj E H))).
Defined.

Lemma pgtable_purge_empties_witness :
  exists t t' calls, sample_table = Some t /\ ucs_pgtable_purge true t = Some (t', calls) /\ table_ok t' [] /\
    StronglySorted before calls /\ forall r, r ∈ calls <-> r ∈ [region_b; region_a].
Proof.
  destruct sample_table_ok as (t & E & Hok).
  destruct (pgtable_purge_empties true t [region_b; region_a] Hok sample_below) as (t' & calls & H);
    [rewrite (tk_num _ _ Hok); reflexivity|].
  exact (ex_intro _ t (ex_intro _ t' (ex_intro _ calls (conj E H)))).
Defined.

(** Outside the range of the previous theorems the search reports regions
    that do not overlap: searching address 0 alone is taken as searching the
    whole address space, and a range that ends at the last address wraps around
    and searches the whole table a second time (a debug build aborts). *)
Theorem pgtable_search_overreport :
  (t ← sample_table; ucs_pgtable_search_range true t 0 0) = Some [region_a; region_b] /\
  (t ← sample_table; ucs_pgtable_search_range false t 1048576 (2 ^ 64 - 1)) = Some [region_a; region_b] /\
  (t ← sample_table; ucs_pgtable_search_range false t 70000 (2 ^ 64 - 1)) = Some [region_b; region_a; region_b].
Proof. vm_compute. done. Qed.

(** The loop of [ucs_pgtable_search_range] on the empty table. *)
Definition empty_search_step (to : Z) (s : Z * search_state) : (Z * search_state) + option search_state :=
  match search_step true ucs_pgtable_init 16 to s with
  | Some (inl s') => inl s'
  | Some (inr r) => inr (Some r)
  | None => inr None
  end.

(** The addresses of one turn of the loop. *)
Fixpoint search_orbit (n : nat) (to a : Z) : list Z :=
  match n with
  | O => []
  | S n => a :: match empty_search_step to (a, (None, [])) with
                | inl (a', _) => search_orbit n to a'
                | inr _ => []
                end
  end.

Definition high_address : Z := 2 ^ 64 - 2 ^ 50.

Lemma search_orbit_closed :
  let orbit := search_orbit 256 high_address 0 in
  (4096 ∈ orbit) /\
  forallb (fun a => match empty_search_step high_address (a, (None, [])) with
                    | inl (a', (None, [])) => bool_decide (a' ∈ orbit)
                    | _ => false
                    end) orbit = true.
Proof. split; [by apply (bool_decide_unpack _); vm_compute|by vm_compute]. Qed.

(** Above [2 ^ 64 - 2 ^ 60] the search does not end: on the empty table, the
    loop over the range from 4096 to [2 ^ 64 - 2 ^ 50] steps over the end of the
    address space back to address 0 and is still running after any number of
    iterations. *)
Theorem pgtable_search_diverges k :
  search_bounds ucs_pgtable_init 4096 high_address = (4096, 16) /\
  exists s, loop k (empty_search_step high_address) (4096, (None, [])) = inl s.
Proof.
  split; [done|]. pose proof search_orbit_closed as H. cbv zeta in H. revert H.
  generalize (search_orbit 256 high_address 0). intros orbit [Hin Hcl].
  destruct (loop_diverges (empty_search_step high_address) (fun s => s.1 ∈ orbit /\ s.2 = (None, [])) k (4096, (None, [])))
    as (s & Hs & _); [|exact (conj Hin eq_refl)|exact (ex_intro _ s Hs)].
  intros [a st] [Ha Est]. simpl in Ha, Est. subst st. rewrite forallb_forall in Hcl.
  specialize (Hcl a (proj1 (list_elem_of_In _ _) Ha)).
  destruct (empty_search_step high_address (a, (None, []))) as [[a' [[l|] [|c calls]]]|] eqn:E; try discriminate Hcl.
  apply bool_decide_eq_true in Hcl. exact (ex_intro _ (a', (None, [])) (conj E (conj Hcl eq_refl))).
Qed.

End PgTable.
