(* ===== verification/TagMatch.v ===== *)
(** Tag matching of the UCP worker.

    Models [ucp/tag/tag_match.h], [ucp/tag/tag_match.inl] (matching),
    [ucp/tag/tag_match.c], the matching part of [ucp/tag/tag_recv.c],
    [ucp/tag/eager_rcv.c] and [ucp/tag/probe.c], and the decisions of
    [ucp/tag/offload.h] and [ucp/tag/offload.c] about which receive requests
    are handed to the transport.  The intrusive queues of [ucs/datastruct] are
    lists here (their pointer form is in [Queue]); an iterator of a queue is the
    position of an element.  [None] is a failed assertion or an access outside
    of an array. *)

From S2P Require Import Prelude.
From S2P Require Import Bits.

Module TagMatch.

(** ** Data *)

Definition UCP_TAG_MASK_FULL : Z := 2 ^ 64 - 1.
Definition UCP_TAG_MATCH_HASH_SIZE : Z := 1021.
Definition ULONG_MAX : Z := 2 ^ 64 - 1.

(** A receive request: the fields of [ucp_request_t] that matching uses.
    [req_id] is the address of the request. *)
Record ucp_request_t := Req {
  req_id : Z;
  req_tag : Z;
  req_tag_mask : Z;
  req_sn : Z;
  req_length : Z;
  req_contig : bool;          (* UCP_DT_IS_CONTIG(datatype) *)
  req_offloaded : bool;       (* UCP_REQUEST_FLAG_OFFLOADED *)
  req_block_offload : bool    (* UCP_REQUEST_FLAG_BLOCK_OFFLOAD *)
}.

(** How the message of a descriptor was received, with what its header says. *)
Inductive rdesc_kind :=
| EagerOnly
| EagerMulti (total_len msg_id : Z) (offload_started : bool)
| Rndv (size : Z).

Record ucp_recv_desc_t := Rdesc {
  rd_id : Z;
  rd_tag : Z;
  rd_length : Z;
  rd_payload_offset : Z;
  rd_payload : list Z;
  rd_kind : rdesc_kind
}.

Record ucp_request_queue_t := ReqQueue {
  queue : list ucp_request_t;
  sw_count : Z;
  block_count : Z
}.

Record ucp_tag_match_t := TagMatch {
  exp_wildcard : ucp_request_queue_t;
  exp_hash : list ucp_request_queue_t;
  exp_sn : Z;
  exp_sw_all_count : Z;
  unexp_all : list ucp_recv_desc_t;
  unexp_hash : list (list ucp_recv_desc_t)
}.

(** A pointer to a queue of expected requests. *)
Inductive queue_ref := Wildcard | Hash (i : Z).

#[export] Instance queue_ref_eq_dec : EqDecision queue_ref.
Proof. solve_decision. Defined.

Definition get_queue (tm : ucp_tag_match_t) (r : queue_ref) : option ucp_request_queue_t :=
  match r with
  | Wildcard => Some (exp_wildcard tm)
  | Hash i => exp_hash tm !! Z.to_nat i
  end.

Definition set_queue (tm : ucp_tag_match_t) (r : queue_ref) (q : ucp_request_queue_t) : ucp_tag_match_t :=
  match r with
  | Wildcard => TagMatch q (exp_hash tm) (exp_sn tm) (exp_sw_all_count tm) (unexp_all tm) (unexp_hash tm)
  | Hash i => TagMatch (exp_wildcard tm) (<[Z.to_nat i := q]> (exp_hash tm)) (exp_sn tm)
                       (exp_sw_all_count tm) (unexp_all tm) (unexp_hash tm)
  end.

Definition set_sn (tm : ucp_tag_match_t) (sn : Z) : ucp_tag_match_t :=
  TagMatch (exp_wildcard tm) (exp_hash tm) sn (exp_sw_all_count tm) (unexp_all tm) (unexp_hash tm).

Definition set_sw_all_count (tm : ucp_tag_match_t) (n : Z) : ucp_tag_match_t :=
  TagMatch (exp_wildcard tm) (exp_hash tm) (exp_sn tm) n (unexp_all tm) (unexp_hash tm).

Definition set_unexp (tm : ucp_tag_match_t) (all : list ucp_recv_desc_t) (hash : list (list ucp_recv_desc_t)) :
  ucp_tag_match_t :=
  TagMatch (exp_wildcard tm) (exp_hash tm) (exp_sn tm) (exp_sw_all_count tm) all hash.

(** ** Matching *)

Definition ucp_tag_is_specific_source (tag_sender_mask tag_mask : Z) : bool :=
  Z.land tag_sender_mask tag_mask =? tag_sender_mask.

Definition ucp_tag_is_match (tag exp_tag tag_mask : Z) : bool :=
  Z.land (Z.lxor tag exp_tag) tag_mask =? 0.

Definition ucp_tag_match_calc_hash (tag : Z) : Z :=
  Z.lxor (u32 tag mod UCP_TAG_MATCH_HASH_SIZE) (u32 (Z.shiftr tag 32) mod UCP_TAG_MATCH_HASH_SIZE).

Definition ucp_tag_get_hash_size : option Z := Bits.ucs_roundup_pow2 UCP_TAG_MATCH_HASH_SIZE.

Definition ucp_tag_exp_get_queue_for_tag (tag : Z) : queue_ref := Hash (ucp_tag_match_calc_hash tag).

Definition ucp_tag_exp_get_queue (tag tag_mask : Z) : queue_ref :=
  if tag_mask =? UCP_TAG_MASK_FULL then ucp_tag_exp_get_queue_for_tag tag else Wildcard.

Definition ucp_tag_exp_get_req_queue (req : ucp_request_t) : queue_ref :=
  ucp_tag_exp_get_queue (req_tag req) (req_tag_mask req).

Definition req_match (tag : Z) (req : ucp_request_t) : Prop :=
  ucp_tag_is_match tag (req_tag req) (req_tag_mask req) = true.

#[export] Instance req_match_dec tag req : Decision (req_match tag req).
Proof. unfold req_match. apply _. Defined.

Definition rdesc_match (tag tag_mask : Z) (rd : ucp_recv_desc_t) : Prop :=
  ucp_tag_is_match (rd_tag rd) tag tag_mask = true.

#[export] Instance rdesc_match_dec tag tag_mask rd : Decision (rdesc_match tag tag_mask rd).
Proof. unfold rdesc_match. apply _. Defined.

(** ** Expected requests *)

Definition req_set_sn (req : ucp_request_t) (sn : Z) : ucp_request_t :=
  Req (req_id req) (req_tag req) (req_tag_mask req) sn (req_length req) (req_contig req)
      (req_offloaded req) (req_block_offload req).

Definition ucp_tag_exp_push (tm : ucp_tag_match_t) (r : queue_ref) (req : ucp_request_t) : option ucp_tag_match_t :=
  let req := req_set_sn req (exp_sn tm) in
  let tm := set_sn tm (u64 (exp_sn tm + 1)) in
  q ← get_queue tm r;
  Some (set_queue tm r (ReqQueue (queue q ++ [req]) (sw_count q) (block_count q))).

Definition ucp_tag_exp_delete (req : ucp_request_t) (tm : ucp_tag_match_t) (r : queue_ref) (iter : nat) :
  option ucp_tag_match_t :=
  q ← get_queue tm r;
  let '(tm, q) :=
    if negb (req_offloaded req) then
      (set_sw_all_count tm (u32 (exp_sw_all_count tm - 1)),
       ReqQueue (queue q) (u32 (sw_count q - 1))
                (if req_block_offload req then u32 (block_count q - 1) else block_count q))
    else (tm, q) in
  Some (set_queue tm r (ReqQueue (delete iter (queue q)) (sw_count q) (block_count q))).

(** The sequence number at an iterator; the end of the queue reads as [NULL]. *)
Definition ucp_tag_exp_req_seq (q : list ucp_request_t) (iter : nat) : Z :=
  match q !! iter with
  | None => ULONG_MAX
  | Some req => req_sn req
  end.

(** The loop of [ucp_tag_exp_search_all]: [hi], [wi] are the iterators of the
    hash queue [hq] and of the wildcard queue [wq]. *)
Fixpoint search_all_loop (fuel : nat) (hq wq : list ucp_request_t) (tag : Z) (hi wi : nat) (hash_sn wild_sn : Z) :
  option (option (ucp_request_t * bool * nat)) :=
  match fuel with
  | O => None
  | S fuel =>
      if hash_sn =? wild_sn then
        if (hash_sn =? ULONG_MAX) && (wild_sn =? ULONG_MAX) &&
           bool_decide (hi = length hq) && bool_decide (wi = length wq)
        then Some None else None
      else
        let in_hash := hash_sn <? wild_sn in
        let iter := if in_hash then hi else wi in
        req ← (if in_hash then hq else wq) !! iter;
        if ucp_tag_is_match tag (req_tag req) (req_tag_mask req) then Some (Some (req, in_hash, iter))
        else
          let iter := S iter in
          if in_hash then search_all_loop fuel hq wq tag iter wi (ucp_tag_exp_req_seq hq iter) wild_sn
          else search_all_loop fuel hq wq tag hi iter hash_sn (ucp_tag_exp_req_seq wq iter)
  end.

Definition ucp_tag_exp_search_all (tm : ucp_tag_match_t) (r : queue_ref) (tag : Z) :
  option (option ucp_request_t * ucp_tag_match_t) :=
  req_queue ← get_queue tm r;
  let hq := queue req_queue in
  let wq := queue (exp_wildcard tm) in
  res ← search_all_loop (S (length hq + length wq)) hq wq tag 0 0
                        (ucp_tag_exp_req_seq hq 0) (ucp_tag_exp_req_seq wq 0);
  match res with
  | Some (req, in_hash, iter) =>
      tm ← ucp_tag_exp_delete req tm (if in_hash : bool then r else Wildcard) iter;
      Some (Some req, tm)
  | None => Some (None, tm)
  end.

Definition ucp_tag_exp_search (tm : ucp_tag_match_t) (tag : Z) : option (option ucp_request_t * ucp_tag_match_t) :=
  let r := ucp_tag_exp_get_queue_for_tag tag in
  if bool_decide (queue (exp_wildcard tm) ≠ []) then ucp_tag_exp_search_all tm r tag
  else
    req_queue ← get_queue tm r;
    match list_find (req_match tag) (queue req_queue) with
    | Some (iter, req) => tm ← ucp_tag_exp_delete req tm r iter; Some (Some req, tm)
    | None => Some (None, tm)
    end.

(** [ucp_tag_exp_remove]: 1 when the request was found in its queue.  The call
    of [ucp_tag_offload_try_cancel] acts on the transport only.  [completed] is
    the flag [UCP_REQUEST_FLAG_COMPLETED] of the request, which the assertion of
    the other exit reads. *)
Definition ucp_tag_exp_remove (tm : ucp_tag_match_t) (req : ucp_request_t) (completed : bool) :
  option (bool * ucp_tag_match_t) :=
  let r := ucp_tag_exp_get_req_queue req in
  req_queue ← get_queue tm r;
  match list_find (fun qreq => req_id qreq = req_id req) (queue req_queue) with
  | Some (iter, qreq) => tm ← ucp_tag_exp_delete qreq tm r iter; Some (true, tm)
  | None => if completed then None else Some (false, tm)
  end.

(** ** Unexpected messages *)

Definition ucp_tag_unexp_is_empty (tm : ucp_tag_match_t) : bool := bool_decide (unexp_all tm = []).

Definition ucp_tag_unexp_remove (tm : ucp_tag_match_t) (rd : ucp_recv_desc_t) : ucp_tag_match_t :=
  let unlink := filter (fun d => rd_id d ≠ rd_id rd) in
  set_unexp tm (unlink (unexp_all tm)) (unlink <$> unexp_hash tm).

Definition ucp_tag_unexp_recv (tm : ucp_tag_match_t) (rd : ucp_recv_desc_t) (tag : Z) : option ucp_tag_match_t :=
  let h := Z.to_nat (ucp_tag_match_calc_hash tag) in
  hash_list ← unexp_hash tm !! h;
  Some (set_unexp tm (unexp_all tm ++ [rd]) (<[h := hash_list ++ [rd]]> (unexp_hash tm))).

Definition ucp_tag_unexp_search (tm : ucp_tag_match_t) (tag tag_mask : Z) (rem : bool) :
  option (option ucp_recv_desc_t * ucp_tag_match_t) :=
  if bool_decide (unexp_all tm = []) then Some (None, tm)
  else
    list ← (if tag_mask =? UCP_TAG_MASK_FULL then unexp_hash tm !! Z.to_nat (ucp_tag_match_calc_hash tag)
            else Some (unexp_all tm));
    match list_find (rdesc_match tag tag_mask) list with
    | Some (_, rd) => Some (Some rd, if rem then ucp_tag_unexp_remove tm rd else tm)
    | None => Some (None, tm)
    end.

(** [ucp_tag_probe_nb]: the length of the message, and the descriptor. *)
Definition ucp_tag_probe_nb (tm : ucp_tag_match_t) (tag tag_mask : Z) (rem : bool) :
  option (option (ucp_recv_desc_t * Z) * ucp_tag_match_t) :=
  '(rdesc, tm) ← ucp_tag_unexp_search tm tag tag_mask false;
  match rdesc with
  | None => Some (None, tm)
  | Some rd =>
      let found length := Some (Some (rd, length), if rem then ucp_tag_unexp_remove tm rd else tm) in
      match rd_kind rd with
      | EagerOnly => found (u64 (rd_length rd - rd_payload_offset rd))
      | EagerMulti total_len _ offload_started => if offload_started then Some (None, tm) else found total_len
      | Rndv size => found size
      end
  end.

(** ** Handing requests to the transport

    [offload_env] holds what the decision depends on besides the state of the
    matching: the thresholds and the sender mask of the configuration, the
    free matching entries of the interface of a tag, and whether the transport
    takes a request ([ucp_tag_offload_do_post]). *)
Record offload_env := OffloadEnv {
  offload_thresh : Z;
  tag_sender_mask : Z;
  tm_force_thresh : Z;
  iface_max_post : Z -> option Z;
  do_post : ucp_request_t -> ucs_status_t
}.

Definition req_set_offloaded (req : ucp_request_t) : ucp_request_t :=
  Req (req_id req) (req_tag req) (req_tag_mask req) (req_sn req) (req_length req) (req_contig req)
      true (req_block_offload req).

(** The loop of [ucp_tag_offload_post_sw_reqs] over a queue: the queue after it,
    the number of requests that were posted, and whether all were. *)
Fixpoint post_queue (env : offload_env) (l : list ucp_request_t) : list ucp_request_t * Z * bool :=
  match l with
  | [] => ([], 0, true)
  | req :: l =>
      if req_offloaded req then let '(l, n, ok) := post_queue env l in (req :: l, n, ok)
      else if decide (do_post env req = UCS_OK) then
        let '(l, n, ok) := post_queue env l in (req_set_offloaded req :: l, n + 1, ok)
      else (req :: l, 0, false)
  end.

Definition ucp_tag_offload_post_sw_reqs (env : offload_env) (tm : ucp_tag_match_t) (req : ucp_request_t) (r : queue_ref) :
  option (bool * ucp_tag_match_t) :=
  req_queue ← get_queue tm r;
  if (req_length req <? tm_force_thresh env) || negb (block_count req_queue =? 0) then Some (false, tm)
  else
    match iface_max_post env (req_tag req) with
    | None => Some (false, tm)
    | Some max_post =>
        if max_post <=? sw_count req_queue then Some (false, tm)
        else
          let '(l, n, ok) := post_queue env (queue req_queue) in
          Some (ok, set_queue (set_sw_all_count tm (u32 (exp_sw_all_count tm - n))) r
                              (ReqQueue l (u32 (sw_count req_queue - n)) (block_count req_queue)))
    end.

Definition ucp_tag_offload_post (env : offload_env) (tm : ucp_tag_match_t) (req : ucp_request_t) (r : queue_ref) :
  option (bool * ucp_request_t * ucp_tag_match_t) :=
  let post tm :=
    if decide (do_post env req = UCS_OK) then Some (true, req_set_offloaded req, tm) else Some (false, req, tm) in
  if negb (req_contig req) then Some (false, req, tm)
  else if negb (req_tag_mask req =? UCP_TAG_MASK_FULL) then
    if negb (ucp_tag_is_specific_source (tag_sender_mask env) (req_tag_mask req)) then Some (false, req, tm)
    else if negb (exp_sw_all_count tm =? 0) then Some (false, req, tm)
    else post tm
  else if negb (sw_count (exp_wildcard tm) =? 0) then Some (false, req, tm)
  else
    req_queue ← get_queue tm r;
    if sw_count req_queue =? 0 then post tm
    else
      '(ok, tm) ← ucp_tag_offload_post_sw_reqs env tm req r;
      if ok : bool then post tm else Some (false, req, tm).

Definition ucp_tag_offload_try_post (env : offload_env) (tm : ucp_tag_match_t) (req : ucp_request_t) (r : queue_ref) :
  option (ucp_request_t * ucp_tag_match_t) :=
  '(posted, req, tm) ← (if offload_thresh env <=? req_length req then ucp_tag_offload_post env tm req r
                        else Some (false, req, tm));
  if posted : bool then Some (req, tm)
  else
    let tm := set_sw_all_count tm (u32 (exp_sw_all_count tm + 1)) in
    q ← get_queue tm r;
    Some (req, set_queue tm r (ReqQueue (queue q) (u32 (sw_count q + 1))
                                        (u32 (block_count q + (if req_block_offload req then 1 else 0))))).

(** The transport has consumed the request. *)
Definition ucp_tag_offload_tag_consumed (tm : ucp_tag_match_t) (req : ucp_request_t) : option ucp_tag_match_t :=
  let r := ucp_tag_exp_get_req_queue req in
  q ← get_queue tm r;
  match list_find (fun qreq => req_id qreq = req_id req) (queue q) with
  | Some (iter, _) => Some (set_queue tm r (ReqQueue (delete iter (queue q)) (sw_count q) (block_count q)))
  | None => Some tm
  end.

(** ** Receiving *)

(** The parameters of a receive that decide how it ends. *)
Record recv_param := RecvParam {
  force_imm_cmpl : bool;          (* UCP_OP_ATTR_FLAG_FORCE_IMM_CMPL *)
  user_memh_status : ucs_status_t (* of ucp_recv_request_set_user_memh *)
}.

Inductive recv_result :=
| RecvMatched (rd : ucp_recv_desc_t)     (* the message is received into the request *)
| RecvExpected                           (* the request waits for its message *)
| RecvError (status : ucs_status_t).

Definition ucp_tag_recv_common (env : offload_env) (tm : ucp_tag_match_t) (tag tag_mask : Z)
    (id length : Z) (contig : bool) (rdesc : option ucp_recv_desc_t) (param : recv_param) :
  option (recv_result * ucp_tag_match_t) :=
  let slow :=
    if force_imm_cmpl param then Some (RecvError UCS_ERR_NO_RESOURCE, tm)
    else
      let req := Req id tag tag_mask 0 length contig false (negb contig) in
      if decide (user_memh_status param <> UCS_OK) then Some (RecvError (user_memh_status param), tm)
      else
        match rdesc with
        | None =>
            let r := ucp_tag_exp_get_queue tag tag_mask in
            '(req, tm) ← ucp_tag_offload_try_post env tm req r;
            tm ← ucp_tag_exp_push tm r req;
            Some (RecvExpected, tm)
        | Some rd => Some (RecvMatched rd, tm)
        end in
  match rdesc with
  | Some rd => match rd_kind rd with EagerOnly => Some (RecvMatched rd, tm) | _ => slow end
  | None => slow
  end.

Definition ucp_tag_recv_nbx (env : offload_env) (tm : ucp_tag_match_t) (tag tag_mask : Z)
    (id length : Z) (contig : bool) (param : recv_param) : option (recv_result * ucp_tag_match_t) :=
  '(rdesc, tm) ← ucp_tag_unexp_search tm tag tag_mask true;
  ucp_tag_recv_common env tm tag tag_mask id length contig rdesc param.

(** The matching of [ucp_eager_tagged_handler]: an arriving message is given to
    an expected request, or its descriptor becomes unexpected.  [init_status] is
    the result of [ucp_recv_desc_init]: an error, or [UCS_OK] / [UCS_INPROGRESS]. *)
Definition ucp_eager_tagged_handler (tm : ucp_tag_match_t) (rd : ucp_recv_desc_t) (init_status : ucs_status_t) :
  option (option ucp_request_t * ucs_status_t * ucp_tag_match_t) :=
  '(req, tm) ← ucp_tag_exp_search tm (rd_tag rd);
  match req with
  | Some req => Some (Some req, UCS_OK, tm)
  | None =>
      if decide (init_status = UCS_OK \/ init_status = UCS_INPROGRESS) then
        tm ← ucp_tag_unexp_recv tm rd (rd_tag rd);
        Some (None, init_status, tm)
      else Some (None, init_status, tm)
  end.

(** ** Initialization *)

Definition ucp_tag_match_init (malloc_exp malloc_unexp : bool) : option (ucp_tag_match_t + ucs_status_t) :=
  hash_size ← ucp_tag_get_hash_size;
  let hash_size := Z.to_nat hash_size in
  let empty := ReqQueue [] 0 0 in
  if negb malloc_exp then Some (inr UCS_ERR_NO_MEMORY)
  else if negb malloc_unexp then Some (inr UCS_ERR_NO_MEMORY)
  else Some (inl (TagMatch empty (replicate hash_size empty) 0 0 [] (replicate hash_size []))).

Definition ucp_tag_match_cleanup (tm : ucp_tag_match_t) : ucp_tag_match_t :=
  fold_left ucp_tag_unexp_remove (unexp_all tm) tm.

(** ** Operations of a worker *)

Inductive op :=
| OpRecv (env : offload_env) (id tag tag_mask length : Z) (contig : bool)
| OpArrive (rd : ucp_recv_desc_t)
| OpProbe (tag tag_mask : Z) (rem : bool)
| OpCancel (req : ucp_request_t)
| OpConsumed (req : ucp_request_t).

Inductive result :=
| RRecv (rd : option ucp_recv_desc_t)       (* the message the receive got, if any *)
| RArrive (id : option Z)                   (* the request that got the message, if any *)
| RProbe (rd : option (ucp_recv_desc_t * Z))
| RCancel (found : bool)
| RConsumed.

(** A receive here is one without [UCP_OP_ATTR_FLAG_FORCE_IMM_CMPL] and whose memory
    handle, if the user gives one, is accepted, and for a message [ucp_recv_desc_init]
    has memory.  With the flag a receive may lose a message, which
    [recv_force_imm_loses_message] shows, so that the specification below does not
    hold of it. *)
Definition run_op (tm : ucp_tag_match_t) (o : op) : option (result * ucp_tag_match_t) :=
  match o with
  | OpRecv env id tag tag_mask length contig =>
      '(res, tm) ← ucp_tag_recv_nbx env tm tag tag_mask id length contig (RecvParam false UCS_OK);
      match res with
      | RecvMatched rd => Some (RRecv (Some rd), tm)
      | RecvExpected => Some (RRecv None, tm)
      | RecvError _ => None
      end
  | OpArrive rd =>
      '(req, _, tm) ← ucp_eager_tagged_handler tm rd UCS_OK;
      Some (RArrive (req_id <$> req), tm)
  | OpProbe tag tag_mask rem => '(r, tm) ← ucp_tag_probe_nb tm tag tag_mask rem; Some (RProbe r, tm)
  | OpCancel req => '(found, tm) ← ucp_tag_exp_remove tm req false; Some (RCancel found, tm)
  | OpConsumed req => tm ← ucp_tag_offload_tag_consumed tm req; Some (RConsumed, tm)
  end.

(** ** Specification

    The posted receives and the arrived messages, each in its order.  A message
    goes to the first posted receive it matches, a receive gets the first
    arrived message it matches. *)
Record posted_t := Posted { p_id : Z; p_tag : Z; p_mask : Z }.

Record spec := Spec { posted : list posted_t; arrived : list ucp_recv_desc_t }.

Definition p_match (tag : Z) (p : posted_t) : Prop := ucp_tag_is_match tag (p_tag p) (p_mask p) = true.

#[export] Instance p_match_dec tag p : Decision (p_match tag p).
Proof. unfold p_match. apply _. Defined.

Definition spec_probe (rd : ucp_recv_desc_t) : option (ucp_recv_desc_t * Z) :=
  match rd_kind rd with
  | EagerOnly => Some (rd, u64 (rd_length rd - rd_payload_offset rd))
  | EagerMulti total_len _ started => if started then None else Some (rd, total_len)
  | Rndv size => Some (rd, size)
  end.

Definition without_rdesc (rd : ucp_recv_desc_t) (l : list ucp_recv_desc_t) : list ucp_recv_desc_t :=
  filter (fun d => rd_id d ≠ rd_id rd) l.

Definition without_posted (id : Z) (l : list posted_t) : list posted_t :=
  filter (fun p => p_id p ≠ id) l.

Definition spec_op (s : spec) (o : op) : result * spec :=
  match o with
  | OpRecv _ id tag mask _ _ =>
      match head (filter (rdesc_match tag mask) (arrived s)) with
      | Some rd => (RRecv (Some rd), Spec (posted s) (without_rdesc rd (arrived s)))
      | None => (RRecv None, Spec (posted s ++ [Posted id tag mask]) (arrived s))
      end
  | OpArrive rd =>
      match head (filter (p_match (rd_tag rd)) (posted s)) with
      | Some p => (RArrive (Some (p_id p)), Spec (without_posted (p_id p) (posted s)) (arrived s))
      | None => (RArrive None, Spec (posted s) (arrived s ++ [rd]))
      end
  | OpProbe tag mask rem =>
      match head (filter (rdesc_match tag mask) (arrived s)) ≫= spec_probe with
      | Some (rd, n) =>
          (RProbe (Some (rd, n)), if rem then Spec (posted s) (without_rdesc rd (arrived s)) else s)
      | None => (RProbe None, s)
      end
  | OpCancel req =>
      (RCancel (bool_decide (req_id req ∈ p_id <$> posted s)),
       Spec (without_posted (req_id req) (posted s)) (arrived s))
  | OpConsumed req => (RConsumed, Spec (without_posted (req_id req) (posted s)) (arrived s))
  end.

(** ** Invariant *)

Definition valid_ref (r : queue_ref) : Prop :=
  match r with Wildcard => True | Hash i => 0 <= i < 1024 end.

Definition is_sw (req : ucp_request_t) : Prop := req_offloaded req = false.

Definition is_block (req : ucp_request_t) : Prop := req_offloaded req = false /\ req_block_offload req = true.

#[export] Instance is_sw_dec req : Decision (is_sw req).
Proof. unfold is_sw. apply _. Defined.

#[export] Instance is_block_dec req : Decision (is_block req).
Proof. unfold is_block. apply _. Defined.

(** The queue [r] holds the posted requests that belong to it, in order, and its
    counters are the numbers of requests that are matched in software. *)
Definition queue_ok (P : list ucp_request_t) (r : queue_ref) (q : ucp_request_queue_t) : Prop :=
  queue q = filter (fun req => ucp_tag_exp_get_req_queue req = r) P /\
  sw_count q = Z.of_nat (length (filter is_sw (queue q))) /\
  block_count q = Z.of_nat (length (filter is_block (queue q))).

Definition req_ok (sn : Z) (req : ucp_request_t) : Prop :=
  0 <= req_tag req < 2 ^ 64 /\ 0 <= req_tag_mask req < 2 ^ 64 /\ 0 <= req_sn req < sn /\
  req_block_offload req = negb (req_contig req).

(** A request that was handed to the transport has no tag in common with an
    earlier request that is still matched in software. *)
Definition no_overtaking (P : list ucp_request_t) : Prop :=
  forall x y tag, x ∈ P -> y ∈ P -> req_sn x < req_sn y -> is_sw x -> ~ is_sw y -> 0 <= tag < 2 ^ 64 ->
    req_match tag x -> ~ req_match tag y.

(** The expected queues hold the posted requests [P]. *)
Record expected_ok (tm : ucp_tag_match_t) (P : list ucp_request_t) : Prop := {
  ex_len : length (exp_hash tm) = 1024%nat;
  ex_queue : forall r, valid_ref r -> exists q, get_queue tm r = Some q /\ queue_ok P r q;
  ex_all : exp_sw_all_count tm = Z.of_nat (length (filter is_sw P));
  ex_sorted : StronglySorted (fun a b => req_sn a < req_sn b) P;
  ex_reqs : Forall (req_ok (exp_sn tm)) P;
  ex_sn : 0 <= exp_sn tm < 2 ^ 64;
  ex_ids : NoDup (req_id <$> P);
  ex_bound : Z.of_nat (length P) < 2 ^ 32;
  ex_order : no_overtaking P
}.

(** The unexpected lists hold the arrived messages [A]. *)
Record unexpected_ok (tm : ucp_tag_match_t) (A : list ucp_recv_desc_t) : Prop := {
  un_len : length (unexp_hash tm) = 1024%nat;
  un_all : unexp_all tm = A;
  un_hash : forall i : nat, (i < 1024)%nat ->
    unexp_hash tm !! i = Some (filter (fun d => ucp_tag_match_calc_hash (rd_tag d) = Z.of_nat i) A);
  un_tags : Forall (fun d => 0 <= rd_tag d < 2 ^ 64) A;
  un_ids : NoDup (rd_id <$> A)
}.

Definition posted_of (req : ucp_request_t) : posted_t := Posted (req_id req) (req_tag req) (req_tag_mask req).

(** What the callers guarantee: tags and masks are 64-bit words, an object that
    is given to the matching is not already in it, a request that is cancelled
    is the one that was posted, the transport consumes requests it was given,
    and the counters do not overflow. *)
Definition valid_op (tm : ucp_tag_match_t) (s : spec) (o : op) : Prop :=
  match o with
  | OpRecv _ id tag mask _ _ =>
      0 <= tag < 2 ^ 64 /\ 0 <= mask < 2 ^ 64 /\ id ∉ p_id <$> posted s /\
      Z.of_nat (length (posted s)) + 1 < 2 ^ 32 /\ exp_sn tm + 1 < 2 ^ 64
  | OpArrive rd => 0 <= rd_tag rd < 2 ^ 64 /\ rd_id rd ∉ rd_id <$> arrived s
  | OpProbe tag mask _ => 0 <= tag < 2 ^ 64 /\ 0 <= mask < 2 ^ 64
  | OpCancel req => forall p, p ∈ posted s -> p_id p = req_id req -> p = posted_of req
  | OpConsumed req =>
      exists q x, get_queue tm (ucp_tag_exp_get_req_queue req) = Some q /\ x ∈ queue q /\
        req_id x = req_id req /\ req_offloaded x = true
  end.

Fixpoint run (tm : ucp_tag_match_t) (ops : list op) : option (list result * ucp_tag_match_t) :=
  match ops with
  | [] => Some ([], tm)
  | o :: ops => '(r, tm) ← run_op tm o; '(rs, tm) ← run tm ops; Some (r :: rs, tm)
  end.

Fixpoint spec_run (s : spec) (ops : list op) : list result * spec :=
  match ops with
  | [] => ([], s)
  | o :: ops => let '(r, s) := spec_op s o in let '(rs, s) := spec_run s ops in (r :: rs, s)
  end.

Fixpoint valid_run (tm : ucp_tag_match_t) (s : spec) (ops : list op) : Prop :=
  match ops with
  | [] => True
  | o :: ops =>
      valid_op tm s o /\
      match run_op tm o with
      | Some (_, tm') => valid_run tm' (spec_op s o).2 ops
      | None => True
      end
  end.

(** The concrete state implements the abstract one. *)
Definition implements (tm : ucp_tag_match_t) (s : spec) : Prop :=
  exists P, expected_ok tm P /\ posted s = posted_of <$> P /\ unexpected_ok tm (arrived s).

(** ** Hash and match *)

Lemma lxor_bound n a b : 0 <= n -> 0 <= a < 2 ^ n -> 0 <= b < 2 ^ n -> 0 <= Z.lxor a b < 2 ^ n.
Proof.
  intros Hn Ha Hb. split; [apply Z.lxor_nonneg; lia|].
  destruct (decide (Z.lxor a b = 0)) as [->|]; [lia|].
  assert (0 <= Z.lxor a b) by (apply Z.lxor_nonneg; lia).
  destruct (Z.ltb_spec (Z.lxor a b) (2 ^ n)); [done|]. exfalso.
  assert (n <= Z.log2 (Z.lxor a b)) as Hl by (apply Z.log2_le_pow2; lia).
  pose proof (Z.bit_log2 (Z.lxor a b) ltac:(lia)) as Hb2. rewrite Z.lxor_spec in Hb2.
  rewrite !(Z_bits_above n) in Hb2 by done. done.
Qed.

Lemma calc_hash_range tag : 0 <= ucp_tag_match_calc_hash tag < 1024.
Proof.
  apply (lxor_bound 10); [lia|..]; unfold UCP_TAG_MATCH_HASH_SIZE; pose proof (Z.mod_pos_bound (u32 tag) 1021);
    pose proof (Z.mod_pos_bound (u32 (Z.shiftr tag 32)) 1021); lia.
Qed.

Lemma is_match_full a b : 0 <= a < 2 ^ 64 -> 0 <= b < 2 ^ 64 ->
  ucp_tag_is_match a b UCP_TAG_MASK_FULL = true -> a = b.
Proof.
  intros Ha Hb Hm. unfold ucp_tag_is_match in Hm. zbool_hyps.
  change UCP_TAG_MASK_FULL with (Z.ones 64) in Hm. rewrite Z.land_ones in Hm by lia.
  rewrite Z.mod_small in Hm by (apply lxor_bound; lia). by apply Z.lxor_eq.
Qed.

Lemma req_ref_valid req : valid_ref (ucp_tag_exp_get_req_queue req).
Proof. unfold ucp_tag_exp_get_req_queue, ucp_tag_exp_get_queue. case_match; [apply calc_hash_range|done]. Qed.

Lemma hash_ref_valid tag : valid_ref (ucp_tag_exp_get_queue_for_tag tag).
Proof. apply calc_hash_range. Qed.

Lemma tag_ref_valid tag mask : valid_ref (ucp_tag_exp_get_queue tag mask).
Proof. unfold ucp_tag_exp_get_queue. case_match; [apply calc_hash_range|done]. Qed.

(** A request that matches a tag is in the wildcard queue or in the queue of the tag. *)
Lemma match_ref sn tag req : 0 <= tag < 2 ^ 64 -> req_ok sn req -> req_match tag req ->
  ucp_tag_exp_get_req_queue req = Wildcard \/
  ucp_tag_exp_get_req_queue req = ucp_tag_exp_get_queue_for_tag tag.
Proof.
  intros Ht (Hr & _) Hm. unfold ucp_tag_exp_get_req_queue, ucp_tag_exp_get_queue.
  destruct (Z.eqb_spec (req_tag_mask req) UCP_TAG_MASK_FULL) as [E|]; [right|by left].
  unfold req_match in Hm. rewrite E in Hm. by rewrite (is_match_full _ _ Ht Hr Hm).
Qed.

(** ** Searching the expected queues *)

Lemma sorted_lookup (l : list ucp_request_t) i j x y :
  StronglySorted (fun a b => req_sn a < req_sn b) l -> l !! i = Some x -> l !! j = Some y -> (i < j)%nat ->
  req_sn x < req_sn y.
Proof.
  intros Hs. revert i j. induction Hs as [|a l Hs IH Ha]; intros i j Hi Hj Hij; [done|].
  destruct j as [|j]; [lia|]. destruct i as [|i]; simpl in *.
  - simplify_eq. rewrite Forall_forall in Ha. apply Ha. by eapply list_elem_of_lookup_2.
  - apply (IH i j); auto. lia.
Qed.

Lemma sorted_filter (P : ucp_request_t -> Prop) `{!forall x, Decision (P x)} (l : list ucp_request_t) :
  StronglySorted (fun a b => req_sn a < req_sn b) l ->
  StronglySorted (fun a b => req_sn a < req_sn b) (filter P l).
Proof.
  induction 1 as [|a l Hs IH Ha]; [constructor|]. rewrite filter_cons. case_decide; [|done].
  constructor; [done|]. apply Forall_forall. intros x Hx. rewrite Forall_forall in Ha. apply Ha.
  by apply list_elem_of_filter in Hx as [_ Hx].
Qed.

(** The first request of a sorted list that satisfies [M] is the one with the
    smallest sequence number. *)
Lemma first_is_min (M : ucp_request_t -> Prop) `{!forall x, Decision (M x)} (l : list ucp_request_t) x :
  StronglySorted (fun a b => req_sn a < req_sn b) l -> x ∈ l -> M x ->
  (forall y, y ∈ l -> M y -> req_sn x <= req_sn y) -> head (filter M l) = Some x.
Proof.
  intros Hs Hx HM Hmin. induction Hs as [|a l Hs IH Ha]; [by apply not_elem_of_nil in Hx|].
  rewrite filter_cons. rewrite Forall_forall in Ha. apply elem_of_cons in Hx as [<-|Hx].
  - by rewrite decide_True.
  - case_decide as Ma.
    + pose proof (Ha x Hx). pose proof (Hmin a ltac:(by left) Ma). lia.
    + apply IH; [done|]. intros y Hy. apply Hmin. by right.
Qed.

(** What [search_all_loop] relies on. *)
Record two_queues (hq wq : list ucp_request_t) : Prop := {
  tq_hs : StronglySorted (fun a b => req_sn a < req_sn b) hq;
  tq_ws : StronglySorted (fun a b => req_sn a < req_sn b) wq;
  tq_sn : forall x, x ∈ hq ++ wq -> req_sn x < ULONG_MAX;
  tq_ne : forall x y, x ∈ hq -> y ∈ wq -> req_sn x ≠ req_sn y
}.

(** The elements of [l] before the position [i] do not match [tag]. *)
Definition skipped (tag : Z) (l : list ucp_request_t) (i : nat) : Prop :=
  (i <= length l)%nat /\ forall j x, (j < i)%nat -> l !! j = Some x -> ~ req_match tag x.

Lemma skipped_next tag l i x : skipped tag l i -> l !! i = Some x -> ~ req_match tag x -> skipped tag l (S i).
Proof.
  intros [Hi Hs] Hx Hm. split; [by eapply lookup_lt_Some|].
  intros j y Hj Hy. destruct (decide (j = i)) as [->|]; [by simplify_eq|]. apply (Hs j); [lia|done].
Qed.

(** Every matching element of [l] is at the position [i] or after it. *)
Lemma skipped_min tag l i y : skipped tag l i -> StronglySorted (fun a b => req_sn a < req_sn b) l ->
  y ∈ l -> req_match tag y -> ucp_tag_exp_req_seq l i <= req_sn y.
Proof.
  intros [Hi Hs] Hso [j Hj]%list_elem_of_lookup Hm. unfold ucp_tag_exp_req_seq.
  destruct (decide (j < i)%nat) as [Hlt|]; [by destruct (Hs j y Hlt Hj)|].
  assert (j < length l)%nat by (by eapply lookup_lt_Some).
  destruct (lookup_lt_is_Some_2 l i ltac:(lia)) as [x Hx]. rewrite Hx.
  destruct (decide (i = j)) as [->|]; [simplify_eq; lia|].
  pose proof (sorted_lookup l i j x y Hso Hx Hj ltac:(lia)). lia.
Qed.

Lemma req_seq_lt l i : (forall x, x ∈ l -> req_sn x < ULONG_MAX) -> (i <= length l)%nat ->
  match l !! i with
  | Some x => ucp_tag_exp_req_seq l i = req_sn x /\ req_sn x < ULONG_MAX
  | None => ucp_tag_exp_req_seq l i = ULONG_MAX /\ i = length l
  end.
Proof.
  intros Hl Hi. unfold ucp_tag_exp_req_seq. destruct (l !! i) as [x|] eqn:E.
  - split; [done|]. apply Hl. by eapply list_elem_of_lookup_2.
  - split; [done|]. apply lookup_ge_None in E. lia.
Qed.

(** The result of the search: the matching request with the smallest sequence number. *)
Definition search_all_post (hq wq : list ucp_request_t) (tag : Z) (res : option (ucp_request_t * bool * nat)) : Prop :=
  match res with
  | Some (req, in_hash, iter) =>
      (if in_hash : bool then hq else wq) !! iter = Some req /\ req_match tag req /\
      forall y, y ∈ hq ++ wq -> req_match tag y -> req_sn req <= req_sn y
  | None => forall y, y ∈ hq ++ wq -> ~ req_match tag y
  end.

Lemma search_all_loop_ok hq wq tag : two_queues hq wq -> forall fuel hi wi,
  skipped tag hq hi -> skipped tag wq wi -> (length hq - hi + (length wq - wi) < fuel)%nat ->
  exists res, search_all_loop fuel hq wq tag hi wi (ucp_tag_exp_req_seq hq hi) (ucp_tag_exp_req_seq wq wi) = Some res /\
    search_all_post hq wq tag res.
Proof.
  intros [Hhs Hws Hsn Hne]. induction fuel as [|fuel IH]; intros hi wi Hh Hw Hf; [lia|]. cbn [search_all_loop].
  pose proof (req_seq_lt hq hi ltac:(set_solver) (proj1 Hh)) as Eh.
  pose proof (req_seq_lt wq wi ltac:(set_solver) (proj1 Hw)) as Ew.
  assert (forall y, y ∈ hq ++ wq -> req_match tag y ->
    Z.min (ucp_tag_exp_req_seq hq hi) (ucp_tag_exp_req_seq wq wi) <= req_sn y) as Hmin.
  { intros y [Hy|Hy]%elem_of_app Hm.
    - pose proof (skipped_min _ _ _ _ Hh Hhs Hy Hm). lia.
    - pose proof (skipped_min _ _ _ _ Hw Hws Hy Hm). lia. }
  destruct (Z.eqb_spec (ucp_tag_exp_req_seq hq hi) (ucp_tag_exp_req_seq wq wi)) as [E|E].
  - destruct (hq !! hi) as [a|] eqn:Ha, (wq !! wi) as [b|] eqn:Hb; try (exfalso; lia).
    + exfalso. apply (Hne a b); [by eapply list_elem_of_lookup_2..|lia].
    + destruct Eh as [-> ->], Ew as [Ew ->]. rewrite Ew, Z.eqb_refl, !bool_decide_true by done.
      exists None. split; [done|]. intros y Hy Hm. specialize (Hmin y Hy Hm). specialize (Hsn y Hy). lia.
  - destruct (Z.ltb_spec (ucp_tag_exp_req_seq hq hi) (ucp_tag_exp_req_seq wq wi)) as [Hlt|Hge]; cbn [negb].
    + destruct (hq !! hi) as [a|] eqn:Ha; [|destruct (wq !! wi); lia]. simpl.
      destruct (ucp_tag_is_match tag (req_tag a) (req_tag_mask a)) eqn:Em.
      * exists (Some (a, true, hi)). split; [done|]. unfold search_all_post. split_and!; [done..|]. intros y Hy Hm. specialize (Hmin y Hy Hm). lia.
      * apply IH; [|done|pose proof (lookup_lt_Some _ _ _ Ha); lia].
        eapply skipped_next; [done..|]. unfold req_match. by rewrite Em.
    + destruct (wq !! wi) as [a|] eqn:Ha; [|destruct (hq !! hi); lia]. simpl.
      destruct (ucp_tag_is_match tag (req_tag a) (req_tag_mask a)) eqn:Em.
      * exists (Some (a, false, wi)). split; [done|]. unfold search_all_post. split_and!; [done..|]. intros y Hy Hm. specialize (Hmin y Hy Hm). lia.
      * apply IH; [done| |pose proof (lookup_lt_Some _ _ _ Ha); lia].
        eapply skipped_next; [done..|]. unfold req_match. by rewrite Em.
Qed.

(** ** Updates of the expected queues *)

Lemma get_set_queue tm r q r' : length (exp_hash tm) = 1024%nat -> valid_ref r -> valid_ref r' ->
  get_queue (set_queue tm r q) r' = if decide (r' = r) then Some q else get_queue tm r'.
Proof.
  intros Hl Hr Hr'. destruct r as [|i], r' as [|i']; case_decide; simplify_eq; simpl in *; try done.
  - rewrite list_lookup_insert_eq; [done|]. lia.
  - rewrite list_lookup_insert_ne; [done|]. intros E. apply Z2Nat.inj in E; [congruence|lia..].
Qed.

(** The unexpected part of the state is the same. *)
Definition same_unexp (tm tm' : ucp_tag_match_t) : Prop :=
  unexp_all tm' = unexp_all tm /\ unexp_hash tm' = unexp_hash tm.

#[export] Instance same_unexp_refl : Reflexive same_unexp.
Proof. by intros tm. Qed.

#[export] Instance same_unexp_trans : Transitive same_unexp.
Proof. unfold same_unexp. intros a b c [-> ->] [-> ->]. done. Qed.

Lemma same_unexp_set tm r q : same_unexp tm (set_queue tm r q).
Proof. by destruct r. Qed.

Lemma unexpected_same tm tm' A : same_unexp tm tm' -> unexpected_ok tm A -> unexpected_ok tm' A.
Proof. intros [E1 E2] [H1 H2 H3 H4 H5]. constructor; rewrite ?E1, ?E2; done. Qed.

(** Replacing the queue [r] of a state whose other queues are those of [tm]. *)
Lemma expected_set tm P tm0 P' r q :
  expected_ok tm P -> valid_ref r -> exp_hash tm0 = exp_hash tm -> exp_wildcard tm0 = exp_wildcard tm ->
  queue_ok P' r q ->
  (forall r', r' <> r -> filter (fun x => ucp_tag_exp_get_req_queue x = r') P' =
                         filter (fun x => ucp_tag_exp_get_req_queue x = r') P) ->
  exp_sw_all_count tm0 = Z.of_nat (length (filter is_sw P')) ->
  StronglySorted (fun a b => req_sn a < req_sn b) P' -> Forall (req_ok (exp_sn tm0)) P' ->
  0 <= exp_sn tm0 < 2 ^ 64 -> NoDup (req_id <$> P') -> Z.of_nat (length P') < 2 ^ 32 -> no_overtaking P' ->
  expected_ok (set_queue tm0 r q) P'.
Proof.
  intros Hok Hr Eh Ew Hq Hother Hall Hs Hreq Hsn Hnd Hbd Hord.
  assert (length (exp_hash tm0) = 1024%nat) as Hl by (rewrite Eh; apply Hok).
  constructor; [destruct r; simpl; rewrite ?length_insert; done| |by destruct r..].
  intros r' Hr'. rewrite get_set_queue by done. case_decide as E; [subst; by exists q|].
  destruct (ex_queue _ _ Hok r' Hr') as (q' & Eq & Hq1 & Hq2). exists q'. split.
  - rewrite <- Eq. destruct r'; simpl; congruence.
  - split; [|done]. by rewrite Hother.
Qed.

Lemma filter_ref_other P x r' : NoDup (req_id <$> P) -> x ∈ P -> r' <> ucp_tag_exp_get_req_queue x ->
  filter (fun y => ucp_tag_exp_get_req_queue y = r') (filter (fun y => req_id y ≠ req_id x) P) =
  filter (fun y => ucp_tag_exp_get_req_queue y = r') P.
Proof.
  intros Hnd Hx Hr. rewrite filter_swap. apply filter_all.
  intros y [Hy1 Hy2]%list_elem_of_filter E. apply Hr. rewrite <- Hy1. f_equal.
  by apply (NoDup_fmap_inj req_id P).
Qed.

Lemma get_queue_ok tm P r q : expected_ok tm P -> valid_ref r -> get_queue tm r = Some q -> queue_ok P r q.
Proof. intros Hok Hr E. destruct (ex_queue _ _ Hok r Hr) as (q' & E' & Hq). by simplify_eq. Qed.

Definition without (x : ucp_request_t) (P : list ucp_request_t) : list ucp_request_t :=
  filter (fun y => req_id y ≠ req_id x) P.

Lemma queue_member tm P r q iter x : expected_ok tm P -> valid_ref r -> get_queue tm r = Some q ->
  queue q !! iter = Some x ->
  x ∈ P /\ x ∈ queue q /\ ucp_tag_exp_get_req_queue x = r /\ delete iter (queue q) = without x (queue q).
Proof.
  intros Hok Hr Eq Hi. destruct (get_queue_ok _ _ _ _ Hok Hr Eq) as [Hq _].
  assert (x ∈ queue q) as Hx by by eapply list_elem_of_lookup_2.
  split_and!; [by rewrite Hq in Hx; apply list_elem_of_filter in Hx as [_ ?]|done
    |by rewrite Hq in Hx; apply list_elem_of_filter in Hx as [? _]|].
  apply delete_filter; [|done]. rewrite Hq. apply NoDup_filter_fmap, Hok.
Qed.

(** The state after the removal of [x] from its queue, with adjusted counters. *)
Lemma expected_remove tm tm0 P r q q' x : expected_ok tm P -> x ∈ P -> ucp_tag_exp_get_req_queue x = r ->
  get_queue tm r = Some q -> exp_hash tm0 = exp_hash tm -> exp_wildcard tm0 = exp_wildcard tm ->
  exp_sn tm0 = exp_sn tm ->
  exp_sw_all_count tm0 = u32 (exp_sw_all_count tm - (if decide (is_sw x) then 1 else 0)) ->
  queue q' = without x (queue q) ->
  sw_count q' = u32 (sw_count q - (if decide (is_sw x) then 1 else 0)) ->
  block_count q' = u32 (block_count q - (if decide (is_block x) then 1 else 0)) ->
  expected_ok (set_queue tm0 r q') (without x P).
Proof.
  intros Hok Hx Hxr Hq Eh Ew Es Ea Eq Esw Ebl.
  assert (valid_ref r) as Hr by (rewrite <- Hxr; apply req_ref_valid).
  destruct (get_queue_ok _ _ _ _ Hok Hr Hq) as (Hq1 & Hq2 & Hq3).
  assert (x ∈ queue q) as Hxq by (rewrite Hq1; by apply list_elem_of_filter).
  assert (NoDup (req_id <$> queue q)) as Hnd by (rewrite Hq1; apply NoDup_filter_fmap, Hok).
  assert (forall (T : ucp_request_t -> Prop) `{!forall y, Decision (T y)} (l : list ucp_request_t) (n : Z),
    NoDup (req_id <$> l) -> x ∈ l -> Z.of_nat (length l) < 2 ^ 32 -> n = Z.of_nat (length (filter T l)) ->
    u32 (n - (if decide (T x) then 1 else 0)) = Z.of_nat (length (filter T (without x l)))) as Hcnt.
  { intros T HT l n Hl Hxl Hlen ->. pose proof (length_filter T l).
    pose proof (filter_remove_count req_id T l x Hl Hxl) as Hc. unfold without.
    rewrite u_wrap_small by (destruct (decide (T x)); lia). destruct (decide (T x)); lia. }
  assert (Z.of_nat (length (queue q)) < 2 ^ 32) as Hlq
    by (pose proof (ex_bound _ _ Hok); rewrite Hq1; pose proof (length_filter (fun y => ucp_tag_exp_get_req_queue y = r) P); lia).
  pose proof (ex_bound _ _ Hok) as HlP.
  apply (expected_set tm P); [done..| | | | | | | | |].
  - split_and!.
    + rewrite Eq, Hq1. unfold without. by rewrite filter_swap.
    + rewrite Esw, Eq. by apply Hcnt.
    + rewrite Ebl, Eq. by apply Hcnt.
  - intros r' Hr'. apply filter_ref_other; [apply Hok|done|congruence].
  - rewrite Ea. apply Hcnt; [apply Hok|done|done|apply Hok].
  - apply sorted_filter, Hok.
  - rewrite Es. apply Forall_forall. intros y [_ Hy]%list_elem_of_filter.
    by apply (proj1 (Forall_forall _ _) (ex_reqs _ _ Hok)).
  - rewrite Es. apply Hok.
  - apply NoDup_filter_fmap, Hok.
  - pose proof (length_filter (fun y => req_id y ≠ req_id x) P). unfold without. lia.
  - intros y z tag [_ Hy]%list_elem_of_filter [_ Hz]%list_elem_of_filter. by apply (ex_order _ _ Hok).
Qed.

Lemma u32_length {A} (T : A -> Prop) `{!forall y, Decision (T y)} (l : list A) :
  Z.of_nat (length l) < 2 ^ 32 -> u32 (Z.of_nat (length (filter T l))) = Z.of_nat (length (filter T l)).
Proof. intros Hl. pose proof (length_filter T l). apply u_wrap_small. lia. Qed.

Lemma queue_length tm P r q : expected_ok tm P -> valid_ref r -> get_queue tm r = Some q ->
  Z.of_nat (length (queue q)) < 2 ^ 32.
Proof.
  intros Hok Hr Hq. destruct (get_queue_ok _ _ _ _ Hok Hr Hq) as [-> _]. pose proof (ex_bound _ _ Hok).
  pose proof (length_filter (fun y => ucp_tag_exp_get_req_queue y = r) P). lia.
Qed.

Lemma counters_range tm P : expected_ok tm P -> u32 (exp_sw_all_count tm) = exp_sw_all_count tm /\
  forall r q, valid_ref r -> get_queue tm r = Some q -> u32 (sw_count q) = sw_count q /\ u32 (block_count q) = block_count q.
Proof.
  intros Hok. split; [rewrite (ex_all _ _ Hok); apply u32_length, Hok|]. intros r q Hr Hq.
  pose proof (queue_length _ _ _ _ Hok Hr Hq).
  destruct (get_queue_ok _ _ _ _ Hok Hr Hq) as (_ & -> & ->). by rewrite !u32_length.
Qed.

Lemma sw_bit x : (if decide (is_sw x) then 1 else 0) = if req_offloaded x then 0 else 1.
Proof. unfold is_sw. case_decide as E; [by rewrite E|]. by destruct (req_offloaded x). Qed.

Lemma block_bit x : (if decide (is_block x) then 1 else 0) = if req_offloaded x then 0 else if req_block_offload x then 1 else 0.
Proof.
  unfold is_block. case_decide as E; [by destruct E as [-> ->]|].
  destruct (req_offloaded x), (req_block_offload x); tauto || done.
Qed.

(** [ucp_tag_exp_delete] removes the request and keeps the counters right. *)
Lemma exp_delete_ok tm P r q iter x : expected_ok tm P -> valid_ref r -> get_queue tm r = Some q ->
  queue q !! iter = Some x ->
  exists tm', ucp_tag_exp_delete x tm r iter = Some tm' /\ expected_ok tm' (without x P) /\ same_unexp tm tm'.
Proof.
  intros Hok Hr Hq Hi. destruct (queue_member _ _ _ _ _ _ Hok Hr Hq Hi) as (Hx & Hxq & Hxr & Hdel).
  destruct (counters_range _ _ Hok) as [Ca Cq]. specialize (Cq r q Hr Hq) as [Cs Cb].
  unfold ucp_tag_exp_delete. rewrite Hq. cbn [mbind option_bind].
  pose proof (sw_bit x) as Bs. pose proof (block_bit x) as Bb.
  destruct (req_offloaded x) eqn:Eo; cbn [negb queue sw_count block_count]; rewrite Hdel;
    eexists; (split; [done|]); (split; [|by destruct r]); apply (expected_remove tm _ _ _ q); try done;
    cbn [exp_sw_all_count set_sw_all_count sw_count block_count]; rewrite ?Bs, ?Bb, ?Z.sub_0_r; try done.
  destruct (req_block_offload x); by rewrite ?Z.sub_0_r.
Qed.

(** The hash queue of a tag and the wildcard queue, as the search needs them. *)
Lemma queues_of_tag tm P tag : expected_ok tm P -> 0 <= tag < 2 ^ 64 ->
  exists q, get_queue tm (ucp_tag_exp_get_queue_for_tag tag) = Some q /\
    two_queues (queue q) (queue (exp_wildcard tm)) /\
    (forall y, y ∈ queue q ++ queue (exp_wildcard tm) -> y ∈ P) /\
    (forall y, y ∈ P -> req_match tag y -> y ∈ queue q ++ queue (exp_wildcard tm)).
Proof.
  intros Hok Ht.
  destruct (ex_queue _ _ Hok (ucp_tag_exp_get_queue_for_tag tag) (hash_ref_valid tag)) as (q & Eq & Hq & _).
  destruct (get_queue_ok _ _ Wildcard _ Hok I eq_refl) as [Hw _]. exists q. split; [done|]. rewrite Hq, Hw.
  assert (forall y, y ∈ P -> req_ok (exp_sn tm) y) as HP by (apply Forall_forall, Hok). split_and!.
  - constructor; [apply sorted_filter, Hok..| |].
    + intros x Hx. assert (x ∈ P) as Hxp by (rewrite elem_of_app, !list_elem_of_filter in Hx; tauto).
      pose proof (HP x Hxp) as (_ & _ & Hsn & _). pose proof (ex_sn _ _ Hok). unfold ULONG_MAX. lia.
    + intros x y [Hx1 Hx2]%list_elem_of_filter [Hy1 Hy2]%list_elem_of_filter E.
      assert (x = y) as ->; [|by rewrite Hx1 in Hy1].
      apply list_elem_of_lookup in Hx2 as [i Hi], Hy2 as [j Hj].
      destruct (Nat.lt_total i j) as [Hij|[->|Hij]]; [|congruence|].
      * pose proof (sorted_lookup _ _ _ _ _ (ex_sorted _ _ Hok) Hi Hj Hij). lia.
      * pose proof (sorted_lookup _ _ _ _ _ (ex_sorted _ _ Hok) Hj Hi Hij). lia.
  - intros y. rewrite elem_of_app, !list_elem_of_filter. tauto.
  - intros y Hy Hm. rewrite elem_of_app, !list_elem_of_filter.
    destruct (match_ref _ _ _ Ht (HP y Hy) Hm); tauto.
Qed.

Lemma exp_search_all_ok tm P tag : expected_ok tm P -> 0 <= tag < 2 ^ 64 ->
  exists tm', ucp_tag_exp_search_all tm (ucp_tag_exp_get_queue_for_tag tag) tag =
      Some (head (filter (req_match tag) P), tm') /\ same_unexp tm tm' /\
    expected_ok tm' (match head (filter (req_match tag) P) with Some x => without x P | None => P end).
Proof.
  intros Hok Ht. destruct (queues_of_tag tm P tag Hok Ht) as (q & Eq & Htq & Hin & Hex).
  unfold ucp_tag_exp_search_all. rewrite Eq. cbn [mbind option_bind].
  destruct (search_all_loop_ok _ _ tag Htq (S (length (queue q) + length (queue (exp_wildcard tm)))) 0 0) as
    (res & Hres & Hpost); [by split; [lia|intros; lia]..|lia|].
  rewrite (bind_eq _ _ _ Hres). destruct res as [[[x in_hash] iter]|].
  - destruct Hpost as (Hx & Hm & Hmin).
    assert (x ∈ queue q ++ queue (exp_wildcard tm)) as Hxq
      by (apply elem_of_app; destruct in_hash; [left|right]; by eapply list_elem_of_lookup_2).
    rewrite (first_is_min (req_match tag) P x); [|apply Hok|by apply Hin|done|].
    { destruct (exp_delete_ok tm P (if in_hash then ucp_tag_exp_get_queue_for_tag tag else Wildcard)
        (if in_hash then q else exp_wildcard tm) iter x Hok) as (tm' & E & Hok' & Hsame);
        [destruct in_hash; [apply hash_ref_valid|done]|by destruct in_hash|by destruct in_hash|].
      exists tm'. rewrite (bind_eq _ _ _ E). done. }
    intros y Hy Hy2. by apply Hmin; [apply Hex|].
  - exists tm. rewrite (filter_none (req_match tag) P); [done|].
    intros y Hy Hy2. by apply (Hpost y); [apply Hex|].
Qed.

(** The search of the expected queues finds the earliest posted match. *)
Lemma exp_search_ok tm P tag : expected_ok tm P -> 0 <= tag < 2 ^ 64 ->
  exists tm', ucp_tag_exp_search tm tag = Some (head (filter (req_match tag) P), tm') /\ same_unexp tm tm' /\
    expected_ok tm' (match head (filter (req_match tag) P) with Some x => without x P | None => P end).
Proof.
  intros Hok Ht. unfold ucp_tag_exp_search. case_bool_decide as Hw; [by apply exp_search_all_ok|].
  assert (queue (exp_wildcard tm) = []) as Hw0 by done.
  destruct (queues_of_tag tm P tag Hok Ht) as (q & Eq & _ & _ & Hex). rewrite Eq. cbn [mbind option_bind].
  assert (filter (req_match tag) (queue q) = filter (req_match tag) P) as Hf.
  { destruct (get_queue_ok _ _ _ _ Hok (hash_ref_valid tag) Eq) as [Hq _]. rewrite Hq, filter_swap.
    apply filter_all. intros y [Hy1 Hy2]%list_elem_of_filter. specialize (Hex y Hy2 Hy1).
    rewrite Hw0, app_nil_r, Hq in Hex. by apply list_elem_of_filter in Hex as [? _]. }
  pose proof (list_find_head (req_match tag) (queue q)) as Hfind. rewrite <- Hf.
  destruct (list_find (req_match tag) (queue q)) as [[i x]|].
  - destruct Hfind as [Hi ->]. destruct (exp_delete_ok tm P _ q i x Hok (hash_ref_valid tag) Eq Hi) as (tm' & E & ?).
    exists tm'. rewrite (bind_eq _ _ _ E). intuition.
  - rewrite Hfind. by exists tm.
Qed.

(** ** Handing requests to the transport *)

(** The requests whose identifier is in [D] are marked as offloaded. *)
Definition mark (D : list Z) (x : ucp_request_t) : ucp_request_t :=
  if decide (req_id x ∈ D) then req_set_offloaded x else x.

Lemma mark_fields D x : req_id (mark D x) = req_id x /\ req_tag (mark D x) = req_tag x /\
  req_tag_mask (mark D x) = req_tag_mask x /\ req_sn (mark D x) = req_sn x /\
  req_contig (mark D x) = req_contig x /\ req_block_offload (mark D x) = req_block_offload x.
Proof. unfold mark. by case_decide. Qed.

Lemma mark_sw D x : is_sw (mark D x) <-> is_sw x /\ req_id x ∉ D.
Proof. unfold mark, is_sw. case_decide; simpl; intuition congruence. Qed.

Lemma mark_nil (l : list ucp_request_t) : mark [] <$> l = l.
Proof.
  induction l as [|x l IH]; [done|]. rewrite fmap_cons, IH. done.
Qed.

Lemma mark_cons d D (l : list ucp_request_t) : d ∉ req_id <$> l -> mark (d :: D) <$> l = mark D <$> l.
Proof.
  intros Hd. apply list_fmap_ext. intros i x Hx. unfold mark.
  assert (req_id x <> d) by (intros <-; apply Hd, list_elem_of_fmap_2; by eapply list_elem_of_lookup_2).
  apply decide_ext. rewrite elem_of_cons. tauto.
Qed.

Lemma mark_ref D x : ucp_tag_exp_get_req_queue (mark D x) = ucp_tag_exp_get_req_queue x.
Proof. unfold mark. by case_decide. Qed.

Lemma mark_filter_ref D r (l : list ucp_request_t) : filter (fun x => ucp_tag_exp_get_req_queue x = r) (mark D <$> l) =
  mark D <$> filter (fun x => ucp_tag_exp_get_req_queue x = r) l.
Proof.
  rewrite filter_fmap. f_equal. apply filter_ext_in. intros x _. by rewrite mark_ref.
Qed.

(** [D] is a set of requests of [l] that are matched in software. *)
Definition sw_ids (D : list Z) (l : list ucp_request_t) : Prop :=
  NoDup D /\ forall d, d ∈ D -> exists x, x ∈ l /\ req_id x = d /\ is_sw x.

Lemma sw_ids_nil l : sw_ids [] l.
Proof. split; [apply NoDup_nil_2|]. by intros d Hd%not_elem_of_nil. Qed.

Lemma mark_count D l : NoDup (req_id <$> l) -> sw_ids D l ->
  length (filter is_sw l) = (length (filter is_sw (mark D <$> l)) + length D)%nat.
Proof.
  intros Hnd [HD Hin]. rewrite filter_fmap, length_fmap.
  rewrite (filter_ext_in (fun x => is_sw (mark D x)) (fun x => is_sw x /\ req_id x ∉ D))
    by (intros x _; apply mark_sw).
  assert (Permutation (req_id <$> filter (fun x => is_sw x /\ req_id x ∈ D) l) D) as HP.
  { apply NoDup_Permutation; [by apply NoDup_filter_fmap|done|]. intros d. split.
    - by intros (x & -> & [[_ Hx] _]%list_elem_of_filter)%list_elem_of_fmap.
    - intros Hd. destruct (Hin d Hd) as (x & Hx & <- & Hsw). apply list_elem_of_fmap_2. by apply list_elem_of_filter. }
  apply Permutation_length in HP. rewrite length_fmap in HP. rewrite <- HP. clear.
  induction l as [|x l IH]; [done|]. rewrite !filter_cons.
  repeat case_decide; cbn [length]; tauto || lia.
Qed.

(** A loop over a queue offloads the first software requests of it, in order. *)
Lemma post_queue_ok env l : NoDup (req_id <$> l) -> StronglySorted (fun a b => req_sn a < req_sn b) l ->
  exists D ok, post_queue env l = (mark D <$> l, Z.of_nat (length D), ok) /\ sw_ids D l /\
    (forall x y, x ∈ l -> y ∈ l -> is_sw x -> req_sn x < req_sn y -> req_id y ∈ D -> req_id x ∈ D) /\
    (ok = true -> forall x, x ∈ l -> is_sw x -> req_id x ∈ D).
Proof.
  induction l as [|a l IH]; intros Hnd Hs.
  { exists [], true. split_and!; [done|apply sw_ids_nil|..].
    - by intros x y Hx%not_elem_of_nil.
    - by intros _ x Hx%not_elem_of_nil. }
  apply NoDup_cons in Hnd as [Ha Hnd]. apply StronglySorted_inv in Hs as [Hs Hlt]. rewrite Forall_forall in Hlt.
  cbn [post_queue]. destruct (IH Hnd Hs) as (D & ok & E & [HD HDin] & Hpre & Hok).
  assert (req_id a ∉ D) as HaD.
  { intros HaD. destruct (HDin _ HaD) as (x & Hx & Ex & _). apply Ha. rewrite <- Ex. by apply list_elem_of_fmap_2. }
  destruct (req_offloaded a) eqn:Eo.
  - rewrite E. exists D, ok. split_and!.
    + rewrite fmap_cons. f_equal. f_equal. f_equal. unfold mark. by rewrite decide_False.
    + split; [done|]. intros d Hd. destruct (HDin d Hd) as (x & ? & ?). exists x. split; [by right|done].
    + intros x y [->|Hx]%elem_of_cons [->|Hy]%elem_of_cons Hsw Hxy Hy2; try done.
      * unfold is_sw in Hsw. congruence.
      * by apply (Hpre x y).
    + intros Hk x [->|Hx]%elem_of_cons Hsw; [unfold is_sw in Hsw; congruence|by apply Hok].
  - case_decide as Ep.
    + rewrite E. exists (req_id a :: D), ok. split_and!.
      * rewrite fmap_cons, mark_cons by done. unfold mark at 2. rewrite decide_True by by left.
        f_equal. f_equal. cbn [length]. lia.
      * split; [by apply NoDup_cons|]. intros d [->|Hd]%elem_of_cons; [exists a; split; [by left|done]|].
        destruct (HDin d Hd) as (x & ? & ?). exists x. split; [by right|done].
      * intros x y [->|Hx]%elem_of_cons [->|Hy]%elem_of_cons Hsw Hxy Hy2; [by left|by left| |].
        -- specialize (Hlt x Hx). lia.
        -- right. apply (Hpre x y); try done. apply elem_of_cons in Hy2 as [Hy2|]; [|done].
           exfalso. apply Ha. rewrite <- Hy2. by apply list_elem_of_fmap_2.
      * intros Hk x [->|Hx]%elem_of_cons Hsw; [by left|right; by apply Hok].
    + exists [], false. rewrite mark_nil. split_and!; [done|apply sw_ids_nil| |done].
      by intros x y _ _ _ _ Hy%not_elem_of_nil.
Qed.

Lemma count_zero {A} (T : A -> Prop) `{!forall y, Decision (T y)} (l : list A) x :
  Z.of_nat (length (filter T l)) = 0 -> x ∈ l -> ~ T x.
Proof.
  intros Hl Hx HT. assert (x ∈ filter T l) as Hf by (by apply list_elem_of_filter).
  destruct (filter T l); [by apply not_elem_of_nil in Hf|simpl in Hl; lia].
Qed.

(** A queue without requests in software: none of its requests is one. *)
Lemma queue_no_sw tm P r q x : expected_ok tm P -> valid_ref r -> get_queue tm r = Some q -> sw_count q = 0 ->
  x ∈ P -> ucp_tag_exp_get_req_queue x = r -> ~ is_sw x.
Proof.
  intros Hok Hr Hq Hz Hx Hxr. destruct (get_queue_ok _ _ _ _ Hok Hr Hq) as (Hq1 & Hq2 & _).
  apply (count_zero is_sw (queue q)); [lia|]. rewrite Hq1. by apply list_elem_of_filter.
Qed.

Section mark.
Context (tm : ucp_tag_match_t) (P : list ucp_request_t) (r : queue_ref) (q : ucp_request_queue_t) (D : list Z).
Hypothesis Hok : expected_ok tm P.
Hypothesis Hr : valid_ref r.
Hypothesis Hnw : r <> Wildcard.
Hypothesis Hq : get_queue tm r = Some q.
Hypothesis HD : sw_ids D (queue q).
Hypothesis Hpre : forall x y, x ∈ queue q -> y ∈ queue q -> is_sw x -> req_sn x < req_sn y ->
  req_id y ∈ D -> req_id x ∈ D.
Hypothesis Hblock : block_count q = 0.
Hypothesis Hwild : sw_count (exp_wildcard tm) = 0.

Lemma marked_in_queue y : y ∈ P -> req_id y ∈ D -> y ∈ queue q.
Proof.
  intros Hy Hd. destruct HD as [_ Hin]. destruct (Hin _ Hd) as (x & Hx & Ex & _).
  assert (x ∈ P) as HxP.
  { destruct (get_queue_ok _ _ _ _ Hok Hr Hq) as [E _]. rewrite E in Hx. by apply list_elem_of_filter in Hx as [_ ?]. }
  by rewrite <- (NoDup_fmap_inj req_id P x y (ex_ids _ _ Hok) HxP Hy Ex).
Qed.

Lemma mark_no_overtaking : no_overtaking (mark D <$> P).
Proof.
  intros x' y' tag (x & -> & Hx)%list_elem_of_fmap (y & -> & Hy)%list_elem_of_fmap Hsn Hsx Hsy Ht Hmx Hmy.
  apply mark_sw in Hsx as [Hsx HxD]. rewrite mark_sw in Hsy. unfold req_match in Hmx, Hmy.
  destruct (mark_fields D x) as (_ & Tx & Mx & Nx & _), (mark_fields D y) as (_ & Ty & My & Ny & _).
  rewrite Tx, Mx in Hmx. rewrite Ty, My in Hmy. rewrite Nx, Ny in Hsn.
  destruct (decide (req_id y ∈ D)) as [HyD|HyD].
  - pose proof (marked_in_queue y Hy HyD) as Hyq.
    assert (forall z, z ∈ P -> req_ok (exp_sn tm) z) as HP by (apply Forall_forall, Hok).
    destruct (get_queue_ok _ _ _ _ Hok Hr Hq) as [E _].
    assert (ucp_tag_exp_get_req_queue y = r) as Hyr by (rewrite E in Hyq; by apply list_elem_of_filter in Hyq as [? _]).
    destruct (match_ref _ tag y Ht (HP y Hy) Hmy) as [F|Fy]; [congruence|].
    destruct (match_ref _ tag x Ht (HP x Hx) Hmx) as [F|Fx].
    + by apply (queue_no_sw tm P Wildcard (exp_wildcard tm) x).
    + apply HxD, (Hpre x y); try done. rewrite E. apply list_elem_of_filter. split; [congruence|done].
  - apply (ex_order _ _ Hok x y tag); try done. tauto.
Qed.

Lemma expected_mark :
  expected_ok (set_queue (set_sw_all_count tm (u32 (exp_sw_all_count tm - Z.of_nat (length D)))) r
                 (ReqQueue (mark D <$> queue q) (u32 (sw_count q - Z.of_nat (length D))) (block_count q)))
              (mark D <$> P).
Proof.
  destruct (get_queue_ok _ _ _ _ Hok Hr Hq) as (Hq1 & Hq2 & Hq3).
  assert (NoDup (req_id <$> queue q)) as Hnd by (rewrite Hq1; apply NoDup_filter_fmap, Hok).
  assert (sw_ids D P) as HDP.
  { destruct HD as [? Hin]. split; [done|]. intros d Hd. destruct (Hin d Hd) as (x & Hx & ?). exists x.
    split; [|done]. rewrite Hq1 in Hx. by apply list_elem_of_filter in Hx as [_ ?]. }
  pose proof (mark_count D _ Hnd HD) as C1. pose proof (mark_count D P (ex_ids _ _ Hok) HDP) as C2.
  pose proof (length_filter is_sw P). pose proof (length_filter is_sw (queue q)).
  pose proof (queue_length _ _ _ _ Hok Hr Hq). pose proof (ex_bound _ _ Hok).
  apply (expected_set tm P); try done.
  - split_and!; cbn [queue sw_count block_count].
    + by rewrite mark_filter_ref, Hq1.
    + rewrite Hq2, u_wrap_small; lia.
    + rewrite Hblock. symmetry. rewrite filter_none; [done|]. intros y (x & -> & Hx)%list_elem_of_fmap [Hs Hb].
      apply mark_sw in Hs as [Hs _]. destruct (mark_fields D x) as (_ & _ & _ & _ & _ & Ex). rewrite Ex in Hb.
      by apply (count_zero is_block (queue q) x); [lia|done|].
  - intros r' Hr'. rewrite mark_filter_ref. transitivity (mark [] <$> filter (fun x => ucp_tag_exp_get_req_queue x = r') P);
      [|apply mark_nil].
    apply list_fmap_ext. intros i x Hx. apply list_elem_of_lookup_2, list_elem_of_filter in Hx as [Hxr Hx].
    unfold mark. rewrite decide_False; [done|]. intros Hd. pose proof (marked_in_queue x Hx Hd) as Hxq.
    rewrite Hq1 in Hxq. apply list_elem_of_filter in Hxq as [? _]. congruence.
  - simpl. rewrite (ex_all _ _ Hok), u_wrap_small; lia.
  - pose proof (ex_sorted _ _ Hok) as Hs. clear -Hs. induction Hs as [|a l Hs IH Ha]; [constructor|].
    rewrite fmap_cons. constructor; [done|]. rewrite Forall_forall in Ha |- *.
    intros y (x & -> & Hx)%list_elem_of_fmap. destruct (mark_fields D a) as (_ & _ & _ & -> & _).
    destruct (mark_fields D x) as (_ & _ & _ & -> & _). auto.
  - apply Forall_forall. intros y (x & -> & Hx)%list_elem_of_fmap.
    pose proof (proj1 (Forall_forall _ _) (ex_reqs _ _ Hok) x Hx) as Hreq. unfold req_ok in *.
    destruct (mark_fields D x) as (_ & -> & -> & -> & -> & ->). done.
  - apply Hok.
  - rewrite <- list_fmap_compose. rewrite (list_fmap_ext _ req_id); [apply Hok|]. intros i x _. apply mark_fields.
  - by rewrite length_fmap.
  - apply mark_no_overtaking.
Qed.

End mark.

(** What the decision to post a request changes: some requests of the queue
    are marked. *)
Definition marked_from (tm : ucp_tag_match_t) (P : list ucp_request_t) (tm' : ucp_tag_match_t) (P' : list ucp_request_t) : Prop :=
  expected_ok tm' P' /\ same_unexp tm tm' /\ exp_sn tm' = exp_sn tm /\ exists D, P' = mark D <$> P.

Lemma marked_refl tm P : expected_ok tm P -> marked_from tm P tm P.
Proof. intros Hok. split_and!; try done. exists []. by rewrite mark_nil. Qed.

Lemma post_sw_reqs_ok env tm P req r : expected_ok tm P -> valid_ref r -> r <> Wildcard ->
  sw_count (exp_wildcard tm) = 0 ->
  exists ok tm' P', ucp_tag_offload_post_sw_reqs env tm req r = Some (ok, tm') /\ marked_from tm P tm' P' /\
    sw_count (exp_wildcard tm') = 0 /\
    (ok = true -> forall x, x ∈ P' -> ucp_tag_exp_get_req_queue x = r -> ~ is_sw x).
Proof.
  intros Hok Hr Hnw Hw. unfold ucp_tag_offload_post_sw_reqs.
  destruct (ex_queue _ _ Hok r Hr) as (q & Hq & Hqok). rewrite Hq. cbn [mbind option_bind].
  assert (exists ok tm' P', Some (false, tm) = Some (ok, tm') /\ marked_from tm P tm' P' /\
    sw_count (exp_wildcard tm') = 0 /\
    (ok = true -> forall x, x ∈ P' -> ucp_tag_exp_get_req_queue x = r -> ~ is_sw x)) as Hno.
  { exists false, tm, P. split_and!; try done. by apply marked_refl. }
  destruct (_ || _) eqn:Eg; [done|]. apply orb_false_iff in Eg as [_ Eb]. zbool_hyps.
  destruct (iface_max_post env (req_tag req)) as [max_post|]; [|done]. case_match; [done|].
  destruct Hqok as (Hq1 & _).
  destruct (post_queue_ok env (queue q)) as (D & ok & E & HD & Hpre & Hall);
    [rewrite Hq1; apply NoDup_filter_fmap, Hok|rewrite Hq1; apply sorted_filter, Hok|].
  rewrite E. eexists ok, _, (mark D <$> P). split; [done|]. split_and!.
  - split_and!; [by apply (expected_mark tm P r q D)|by destruct r|by destruct r|by eexists].
  - by destruct r.
  - intros Hk x (y & -> & Hy)%list_elem_of_fmap Hyr [Hs Hd]%mark_sw. apply Hd, Hall; [done| |done].
    rewrite Hq1. apply list_elem_of_filter. rewrite mark_ref in Hyr. done.
Qed.

(** A new request may follow the posted ones: handed to the transport only when
    no request in software could take its message. *)
Definition may_follow (P : list ucp_request_t) (req : ucp_request_t) : Prop :=
  ~ is_sw req -> forall x tag, x ∈ P -> is_sw x -> 0 <= tag < 2 ^ 64 -> req_match tag x -> ~ req_match tag req.

Lemma may_follow_hash tm P req : expected_ok tm P -> 0 <= req_tag req < 2 ^ 64 ->
  req_tag_mask req = UCP_TAG_MASK_FULL -> sw_count (exp_wildcard tm) = 0 ->
  (forall x, x ∈ P -> ucp_tag_exp_get_req_queue x = ucp_tag_exp_get_req_queue req -> ~ is_sw x) ->
  may_follow P req.
Proof.
  intros Hok Htag Hmask Hw Hno _ x tag Hx Hsw Ht Hm Hm2.
  unfold req_match in Hm2. rewrite Hmask in Hm2. apply is_match_full in Hm2; [|done..]. subst tag.
  destruct (match_ref _ _ x Ht (proj1 (Forall_forall _ _) (ex_reqs _ _ Hok) x Hx) Hm) as [E|E].
  - by apply (queue_no_sw tm P Wildcard (exp_wildcard tm) x).
  - apply (Hno x Hx); [|done]. rewrite E. unfold ucp_tag_exp_get_req_queue, ucp_tag_exp_get_queue.
    by rewrite Hmask, Z.eqb_refl.
Qed.

Lemma offload_post_ok env tm P req : expected_ok tm P -> 0 <= req_tag req < 2 ^ 64 -> is_sw req ->
  exists ok req' tm' P',
    ucp_tag_offload_post env tm req (ucp_tag_exp_get_req_queue req) = Some (ok, req', tm') /\
    marked_from tm P tm' P' /\ req' = (if ok then req_set_offloaded req else req) /\ may_follow P' req' /\
    (ok = true -> req_contig req = true).
Proof.
  intros Hok Htag Hsw. unfold ucp_tag_offload_post.
  assert (forall tm' P', marked_from tm P tm' P' -> exists ok req' tm'' P'', Some (false, req, tm') = Some (ok, req', tm'') /\
    marked_from tm P tm'' P'' /\ req' = (if ok then req_set_offloaded req else req) /\ may_follow P'' req' /\
    (ok = true -> req_contig req = true)) as Hno.
  { intros tm' P' HP. exists false, req, tm', P'. split_and!; try done. intros Hn. done. }
  destruct (req_contig req) eqn:Ec; cbn [negb]; [|apply (Hno tm P), marked_refl, Hok].
  assert (forall tm' P', marked_from tm P tm' P' -> may_follow P' (req_set_offloaded req) ->
    exists ok req' tm'' P'', (if decide (do_post env req = UCS_OK) then Some (true, req_set_offloaded req, tm')
                              else Some (false, req, tm')) = Some (ok, req', tm'') /\
    marked_from tm P tm'' P'' /\ req' = (if ok then req_set_offloaded req else req) /\ may_follow P'' req' /\
    (ok = true -> true = true)) as Hyes.
  { intros tm' P' HP Hf. case_decide; [|by apply (Hno tm' P')]. eexists true, _, tm', P'. split_and!; done. }
  pose proof (marked_refl tm P Hok) as Hrefl.
  destruct (Z.eqb_spec (req_tag_mask req) UCP_TAG_MASK_FULL) as [Em|Em]; cbn [negb].
  - destruct (Z.eqb_spec (sw_count (exp_wildcard tm)) 0) as [Ew|]; cbn [negb]; [|by apply (Hno tm P)].
    assert (ucp_tag_exp_get_req_queue req <> Wildcard) as Hnw.
    { unfold ucp_tag_exp_get_req_queue, ucp_tag_exp_get_queue. by rewrite Em, Z.eqb_refl. }
    destruct (ex_queue _ _ Hok _ (req_ref_valid req)) as (q & Hq & Hqok). rewrite Hq. cbn [mbind option_bind].
    destruct (Z.eqb_spec (sw_count q) 0) as [Eq|Eq].
    + apply (Hyes tm P Hrefl), (may_follow_hash tm); try done.
      intros x Hx Hxr. by apply (queue_no_sw tm P _ q x Hok (req_ref_valid req)).
    + destruct (post_sw_reqs_ok env tm P req _ Hok (req_ref_valid req) Hnw Ew) as (ok & tm' & P' & E & HP & Hw' & Hall).
      rewrite (bind_eq _ _ _ E). destruct ok; [|by apply (Hno tm' P')].
      apply (Hyes tm' P' HP), (may_follow_hash tm'); [apply HP|done..|]. intros x Hx Hxr. by apply Hall.
  - destruct (ucp_tag_is_specific_source _ _); cbn [negb]; [|by apply (Hno tm P)].
    destruct (Z.eqb_spec (exp_sw_all_count tm) 0) as [Ea|]; cbn [negb]; [|by apply (Hno tm P)].
    apply (Hyes tm P Hrefl). intros _ x tag Hx Hs. exfalso.
    apply (count_zero is_sw P x); [by rewrite <- (ex_all _ _ Hok)|done..].
Qed.

(** ** Posting a receive *)

Lemma filter_snoc_count {A} (T : A -> Prop) `{!forall y, Decision (T y)} (l : list A) x :
  Z.of_nat (length (filter T (l ++ [x]))) = Z.of_nat (length (filter T l)) + (if decide (T x) then 1 else 0).
Proof. rewrite filter_app, length_app, filter_cons, filter_nil. destruct (decide (T x)); simpl; lia. Qed.

Lemma sn_sorted_snoc l x : StronglySorted (fun a b => req_sn a < req_sn b) l ->
  (forall y, y ∈ l -> req_sn y < req_sn x) -> StronglySorted (fun a b => req_sn a < req_sn b) (l ++ [x]).
Proof.
  induction 1 as [|a l Hs IH Ha]; intros Hx; simpl; [by repeat constructor|].
  constructor; [apply IH; intros y Hy; apply Hx; by right|]. apply Forall_app. split; [done|].
  constructor; [|done]. apply Hx. by left.
Qed.

Lemma expected_push tm P tm0 req q q' : expected_ok tm P ->
  get_queue tm (ucp_tag_exp_get_req_queue req) = Some q ->
  exp_hash tm0 = exp_hash tm -> exp_wildcard tm0 = exp_wildcard tm ->
  exp_sn tm0 = exp_sn tm + 1 -> exp_sn tm0 < 2 ^ 64 -> Z.of_nat (length P) + 1 < 2 ^ 32 ->
  req_id req ∉ req_id <$> P -> req_ok (exp_sn tm + 1) req -> req_sn req = exp_sn tm -> may_follow P req ->
  queue q' = queue q ++ [req] ->
  sw_count q' = sw_count q + (if decide (is_sw req) then 1 else 0) ->
  block_count q' = block_count q + (if decide (is_block req) then 1 else 0) ->
  exp_sw_all_count tm0 = exp_sw_all_count tm + (if decide (is_sw req) then 1 else 0) ->
  expected_ok (set_queue tm0 (ucp_tag_exp_get_req_queue req) q') (P ++ [req]).
Proof.
  intros Hok Hq Eh Ew Es Hsn Hlen Hfresh Hreq Hrs Hf Eq Esw Ebl Eall.
  destruct (get_queue_ok _ _ _ _ Hok (req_ref_valid req) Hq) as (Hq1 & Hq2 & Hq3).
  assert (forall x, x ∈ P -> req_ok (exp_sn tm) x) as HP by (apply Forall_forall, Hok).
  pose proof (ex_sn _ _ Hok).
  apply (expected_set tm P); [done|apply req_ref_valid|done..| | | | | | | | |].
  - split_and!.
    + by rewrite Eq, filter_app, Hq1, filter_cons_True.
    + by rewrite Eq, filter_snoc_count, Esw, Hq2.
    + by rewrite Eq, filter_snoc_count, Ebl, Hq3.
  - intros r' Hr'. rewrite filter_app, filter_cons_False, filter_nil, app_nil_r; [done|congruence].
  - by rewrite Eall, filter_snoc_count, (ex_all _ _ Hok).
  - apply sn_sorted_snoc; [apply Hok|]. intros x Hx. rewrite Hrs. apply HP in Hx as (_ & _ & ? & _). lia.
  - rewrite Es. apply Forall_app. split; [|by constructor]. apply Forall_forall.
    intros x (? & ? & ? & ?)%HP. split_and!; try done; lia.
  - lia.
  - rewrite fmap_app. apply NoDup_app. split_and!; [apply Hok| |apply NoDup_singleton].
    intros i Hi ->%list_elem_of_singleton. done.
  - rewrite length_app. simpl. lia.
  - intros x y tag [Hx|Hx]%elem_of_app [Hy|Hy]%elem_of_app Hxy Hsx Hsy Ht Hm.
    + by apply (ex_order _ _ Hok x y tag).
    + apply list_elem_of_singleton in Hy as ->. by apply (Hf Hsy x).
    + apply list_elem_of_singleton in Hx as ->. apply HP in Hy as (_ & _ & ? & _). lia.
    + apply list_elem_of_singleton in Hx as ->. apply list_elem_of_singleton in Hy as ->. lia.
Qed.

Lemma set_set_queue tm r q n q' : set_queue (set_sn (set_queue tm r q) n) r q' = set_queue (set_sn tm n) r q'.
Proof. destruct r as [|i]; [done|]. unfold set_queue, set_sn; simpl. by rewrite list_insert_insert_eq. Qed.

Lemma get_set_sn tm r q n : length (exp_hash tm) = 1024%nat -> valid_ref r ->
  get_queue (set_sn (set_queue tm r q) n) r = Some q.
Proof.
  intros Hl Hr. transitivity (get_queue (set_queue tm r q) r); [by destruct r|].
  rewrite get_set_queue by done. by rewrite decide_True.
Qed.

Section push.
Context (tm : ucp_tag_match_t) (P : list ucp_request_t) (req : ucp_request_t).
Let r := ucp_tag_exp_get_req_queue req.
Hypothesis Hok : expected_ok tm P.
Hypothesis Htag : 0 <= req_tag req < 2 ^ 64.
Hypothesis Hmask : 0 <= req_tag_mask req < 2 ^ 64.
Hypothesis Hblk : req_block_offload req = negb (req_contig req).
Hypothesis Hid : req_id req ∉ req_id <$> P.
Hypothesis Hsn : exp_sn tm + 1 < 2 ^ 64.
Hypothesis Hlen : Z.of_nat (length P) + 1 < 2 ^ 32.
Hypothesis Hf : may_follow P req.

Lemma push_req_ok : req_ok (exp_sn tm + 1) (req_set_sn req (exp_sn tm)).
Proof. pose proof (ex_sn _ _ Hok). split_and!; simpl; done || lia. Qed.

Lemma push_sn : u64 (exp_sn tm + 1) = exp_sn tm + 1.
Proof. pose proof (ex_sn _ _ Hok). apply u_wrap_small. lia. Qed.

(** A request that the transport has taken is queued without being counted. *)
Lemma push_offloaded : ~ is_sw req -> exists tm', ucp_tag_exp_push tm r req = Some tm' /\
  expected_ok tm' (P ++ [req_set_sn req (exp_sn tm)]) /\ same_unexp tm tm'.
Proof.
  intros Hsw. destruct (ex_queue _ _ Hok r (req_ref_valid req)) as (q & Hq & Hqok). unfold ucp_tag_exp_push.
  rewrite (bind_eq _ q) by (rewrite <- Hq; by destruct r). rewrite push_sn. eexists. split; [done|].
  split; [|by destruct r].
  apply (expected_push tm P _ (req_set_sn req (exp_sn tm)) q); try done; simpl; try lia; try apply push_req_ok;
    rewrite decide_False, Z.add_0_r; try done. by intros [? ?].
Qed.

(** A request that is matched in software is counted, and then queued. *)
Lemma push_sw : is_sw req -> exists tm' q,
  get_queue (set_sw_all_count tm (u32 (exp_sw_all_count tm + 1))) r = Some q /\
  ucp_tag_exp_push (set_queue (set_sw_all_count tm (u32 (exp_sw_all_count tm + 1))) r
     (ReqQueue (queue q) (u32 (sw_count q + 1)) (u32 (block_count q + if req_block_offload req then 1 else 0)))) r req = Some tm' /\
  expected_ok tm' (P ++ [req_set_sn req (exp_sn tm)]) /\ same_unexp tm tm'.
Proof.
  intros Hsw. destruct (ex_queue _ _ Hok r (req_ref_valid req)) as (q & Hq & Hqok).
  destruct (get_queue_ok _ _ _ _ Hok (req_ref_valid req) Hq) as (_ & C1 & C2).
  pose proof (length_filter is_sw (queue q)). pose proof (length_filter is_block (queue q)).
  assert (length (queue q) <= length P)%nat as Hl by (destruct Hqok as [-> _]; apply length_filter).
  pose proof (ex_all _ _ Hok) as C3. pose proof (length_filter is_sw P). unfold ucp_tag_exp_push.
  eexists _, q. split; [rewrite <- Hq; by destruct r|]. rewrite (bind_eq _ (ReqQueue (queue q) (u32 (sw_count q + 1))
    (u32 (block_count q + (if req_block_offload req then 1 else 0))))) by (apply get_set_sn; [apply Hok|apply req_ref_valid]).
  split; [done|]. rewrite set_set_queue. split; [|by destruct r].
  replace (exp_sn (set_queue _ _ _)) with (exp_sn tm) by (by destruct r). rewrite push_sn.
  apply (expected_push tm P _ (req_set_sn req (exp_sn tm)) q); try done; simpl; try lia; try apply push_req_ok.
  - rewrite decide_True by done. apply u_wrap_small. lia.
  - rewrite block_bit. simpl. rewrite Hsw. apply u_wrap_small. destruct (req_block_offload req); lia.
  - rewrite decide_True by done. apply u_wrap_small. lia.
Qed.

End push.

(** Posting a receive adds it after the receives that were posted before. *)
Lemma post_recv_ok env tm P id tag mask len contig :
  expected_ok tm P -> 0 <= tag < 2 ^ 64 -> 0 <= mask < 2 ^ 64 -> id ∉ req_id <$> P ->
  exp_sn tm + 1 < 2 ^ 64 -> Z.of_nat (length P) + 1 < 2 ^ 32 ->
  exists req tm1 tm' P',
    ucp_tag_offload_try_post env tm (Req id tag mask 0 len contig false (negb contig))
                             (ucp_tag_exp_get_queue tag mask) = Some (req, tm1) /\
    ucp_tag_exp_push tm1 (ucp_tag_exp_get_queue tag mask) req = Some tm' /\
    expected_ok tm' P' /\ same_unexp tm tm' /\
    posted_of <$> P' = (posted_of <$> P) ++ [Posted id tag mask].
Proof.
  intros Hok Ht Hm Hid Hsn Hlen. set (req := Req id tag mask 0 len contig false (negb contig)).
  change (ucp_tag_exp_get_queue tag mask) with (ucp_tag_exp_get_req_queue req).
  assert (exists ok req' tm' P',
    (if offload_thresh env <=? req_length req then ucp_tag_offload_post env tm req (ucp_tag_exp_get_req_queue req)
     else Some (false, req, tm)) = Some (ok, req', tm') /\
    marked_from tm P tm' P' /\ req' = (if ok then req_set_offloaded req else req) /\ may_follow P' req' /\
    (ok = true -> req_contig req = true)) as (ok & req' & tm1 & P1 & E & (Hok1 & Hsame & Es & D & ED) & Er & Hf & Hct).
  { case_match; [by apply offload_post_ok|]. exists false, req, tm, P.
    split_and!; try done; [by apply marked_refl|]. intros Hn. by destruct Hn. }
  unfold ucp_tag_offload_try_post. rewrite (bind_eq _ _ _ E).
  assert (posted_of <$> P1 = posted_of <$> P /\ req_id <$> P1 = req_id <$> P /\ length P1 = length P) as (EP & EI & EL).
  { rewrite ED, length_fmap, <- !list_fmap_compose. split_and!; [..|done]; apply list_fmap_ext; intros i x _;
      destruct (mark_fields D x) as (H1 & H2 & H3 & _); simpl; [|done]. unfold posted_of. congruence. }
  assert (posted_of <$> (P1 ++ [req_set_sn req' (exp_sn tm1)]) = (posted_of <$> P) ++ [Posted id tag mask]) as EF.
  { rewrite fmap_app, EP. subst req'. by destruct ok. }
  rewrite <- EI in Hid. rewrite <- Es in Hsn. rewrite <- EL in Hlen. destruct ok.
  - destruct (push_offloaded tm1 P1 req' Hok1) as (tm' & Hp & Hok' & Hs'); try (subst req'; done).
    exists req', tm1, tm', (P1 ++ [req_set_sn req' (exp_sn tm1)]). split_and!; try done; [by subst req'|by transitivity tm1].
  - subst req'. destruct (push_sw tm1 P1 req Hok1) as (tm' & q & Hq & Hp & Hok' & Hs'); try done.
    exists req. eexists. exists tm', (P1 ++ [req_set_sn req (exp_sn tm1)]). rewrite (bind_eq _ _ _ Hq).
    split_and!; try done. by transitivity tm1.
Qed.

(** ** Unexpected messages *)

Lemma unexp_recv_ok tm A rd : unexpected_ok tm A -> 0 <= rd_tag rd < 2 ^ 64 -> rd_id rd ∉ rd_id <$> A ->
  exists tm', ucp_tag_unexp_recv tm rd (rd_tag rd) = Some tm' /\ unexpected_ok tm' (A ++ [rd]) /\
    forall P, expected_ok tm P -> expected_ok tm' P.
Proof.
  intros [Hl Hall Hh Ht Hnd] Hrt Hrd. unfold ucp_tag_unexp_recv. pose proof (calc_hash_range (rd_tag rd)) as Hr.
  rewrite (bind_eq _ _ _ (Hh (Z.to_nat (ucp_tag_match_calc_hash (rd_tag rd))) ltac:(lia))).
  rewrite Z2Nat.id by lia. eexists. split; [done|]. split; [|by intros P []].
  constructor; simpl; [by rewrite length_insert|by rewrite Hall| |by apply Forall_app; split; [|constructor]|].
  - intros i Hi. rewrite filter_app. rewrite list_lookup_insert.
    case_decide as E; [destruct E as [<- E]|].
    + rewrite Z2Nat.id by lia. by rewrite filter_cons_True.
    + rewrite Hh by done. rewrite filter_cons_False, filter_nil, app_nil_r; [done|]. intros E2. apply E.
      rewrite E2, Nat2Z.id. split; [done|]. by rewrite Hl.
  - rewrite fmap_app. apply NoDup_app. split_and!; [done| |apply NoDup_singleton].
    intros i Hi ->%list_elem_of_singleton. done.
Qed.

Lemma unexp_remove_ok tm A rd : unexpected_ok tm A ->
  unexpected_ok (ucp_tag_unexp_remove tm rd) (without_rdesc rd A) /\
  forall P, expected_ok tm P -> expected_ok (ucp_tag_unexp_remove tm rd) P.
Proof.
  intros [Hl Hall Hh Ht Hnd]. split; [|by intros P []].
  constructor; simpl; [by rewrite length_fmap|by rewrite Hall| | |by apply NoDup_filter_fmap].
  - intros i Hi. rewrite list_lookup_fmap, Hh by done. simpl. by rewrite filter_swap.
  - apply Forall_forall. intros d [_ Hd]%list_elem_of_filter. by apply (proj1 (Forall_forall _ _) Ht).
Qed.

(** The search of the unexpected messages finds the earliest arrived match. *)
Lemma unexp_search_ok tm A tag mask rem : unexpected_ok tm A -> 0 <= tag < 2 ^ 64 ->
  ucp_tag_unexp_search tm tag mask rem =
  Some (head (filter (rdesc_match tag mask) A),
        match head (filter (rdesc_match tag mask) A) with
        | Some rd => if rem : bool then ucp_tag_unexp_remove tm rd else tm
        | None => tm
        end).
Proof.
  intros [Hl Hall Hh Ht Hnd] Htag. unfold ucp_tag_unexp_search. rewrite Hall.
  case_bool_decide as E; [by subst A; rewrite E|].
  pose proof (calc_hash_range tag) as Hr.
  assert (exists l, (if mask =? UCP_TAG_MASK_FULL then unexp_hash tm !! Z.to_nat (ucp_tag_match_calc_hash tag) else Some A) = Some l /\
    filter (rdesc_match tag mask) l = filter (rdesc_match tag mask) A) as (l & El & Ef).
  { destruct (Z.eqb_spec mask UCP_TAG_MASK_FULL) as [->|]; [|by exists A].
    eexists. split; [apply Hh; lia|]. rewrite filter_swap. apply filter_all.
    intros d [Hm Hd]%list_elem_of_filter. rewrite Z2Nat.id by lia. f_equal.
    apply is_match_full; [|done|done]. by apply (proj1 (Forall_forall _ _) Ht). }
  rewrite (bind_eq _ _ _ El), <- Ef. pose proof (list_find_head (rdesc_match tag mask) l) as Hf.
  destruct (list_find (rdesc_match tag mask) l) as [[i d]|]; [by destruct Hf as [_ ->]|by rewrite Hf].
Qed.

(** ** Removing a request *)

Lemma posted_without x P : posted_of <$> without x P = without_posted (req_id x) (posted_of <$> P).
Proof. unfold without, without_posted. by rewrite filter_fmap. Qed.

Lemma find_id tm P r q id : expected_ok tm P -> valid_ref r -> get_queue tm r = Some q ->
  match list_find (fun x => req_id x = id) (queue q) with
  | Some (i, x) => queue q !! i = Some x /\ req_id x = id
  | None => forall x, x ∈ P -> req_id x = id -> ucp_tag_exp_get_req_queue x <> r
  end.
Proof.
  intros Hok Hr Hq. destruct (list_find _ _) as [[i x]|] eqn:E.
  - by apply list_find_Some in E as (? & ? & _).
  - apply list_find_None in E. intros x Hx Hid Hxr. rewrite Forall_forall in E. apply (E x); [|done].
    destruct (get_queue_ok _ _ _ _ Hok Hr Hq) as [-> _]. by apply list_elem_of_filter.
Qed.

Lemma posted_ids (P : list ucp_request_t) : p_id <$> (posted_of <$> P) = req_id <$> P.
Proof. by rewrite <- list_fmap_compose. Qed.

Lemma exp_remove_ok tm P req : expected_ok tm P ->
  (forall p, p ∈ posted_of <$> P -> p_id p = req_id req -> p = posted_of req) ->
  exists tm' P', ucp_tag_exp_remove tm req false = Some (bool_decide (req_id req ∈ req_id <$> P), tm') /\
    expected_ok tm' P' /\ same_unexp tm tm' /\ posted_of <$> P' = without_posted (req_id req) (posted_of <$> P).
Proof.
  intros Hok Hreq. unfold ucp_tag_exp_remove.
  destruct (ex_queue _ _ Hok _ (req_ref_valid req)) as (q & Hq & _). rewrite (bind_eq _ _ _ Hq).
  pose proof (find_id _ _ _ _ (req_id req) Hok (req_ref_valid req) Hq) as Hf.
  destruct (list_find _ _) as [[i x]|].
  - destruct Hf as [Hi Hid]. destruct (exp_delete_ok _ _ _ _ _ _ Hok (req_ref_valid req) Hq Hi) as (tm' & E & Hok' & Hs).
    exists tm', (without x P). rewrite (bind_eq _ _ _ E), bool_decide_true.
    + rewrite <- Hid. split_and!; try done. apply posted_without.
    + destruct (queue_member _ _ _ _ _ _ Hok (req_ref_valid req) Hq Hi) as (Hx & _). rewrite <- Hid. by apply list_elem_of_fmap_2.
  - assert (req_id req ∉ req_id <$> P) as Hn.
    { intros (x & Hid & Hx)%list_elem_of_fmap. apply (Hf x Hx); [done|].
      assert (posted_of x = posted_of req) as E by (apply Hreq; [by apply list_elem_of_fmap_2|done]).
      unfold posted_of in E. unfold ucp_tag_exp_get_req_queue. congruence. }
    exists tm, P. rewrite bool_decide_false by done. split_and!; try done. symmetry. apply filter_all.
    intros p Hp E. apply Hn. rewrite <- posted_ids, <- E. by apply list_elem_of_fmap_2.
Qed.

Lemma tag_consumed_ok tm P req q x : expected_ok tm P -> get_queue tm (ucp_tag_exp_get_req_queue req) = Some q ->
  x ∈ queue q -> req_id x = req_id req -> req_offloaded x = true ->
  exists tm' P', ucp_tag_offload_tag_consumed tm req = Some tm' /\
    expected_ok tm' P' /\ same_unexp tm tm' /\ posted_of <$> P' = without_posted (req_id req) (posted_of <$> P).
Proof.
  intros Hok Hq Hx Hid Ho. unfold ucp_tag_offload_tag_consumed. rewrite (bind_eq _ _ _ Hq).
  pose proof (find_id _ _ _ _ (req_id req) Hok (req_ref_valid req) Hq) as Hf.
  destruct (get_queue_ok _ _ _ _ Hok (req_ref_valid req) Hq) as [E _].
  assert (x ∈ P /\ ucp_tag_exp_get_req_queue x = ucp_tag_exp_get_req_queue req) as [HxP Hxr]
    by (rewrite E in Hx; by apply list_elem_of_filter in Hx as [??]).
  destruct (list_find _ _) as [[i y]|]; [|by destruct (Hf x HxP Hid)]. destruct Hf as [Hi Hyid].
  destruct (queue_member _ _ _ _ _ _ Hok (req_ref_valid req) Hq Hi) as (Hy & _ & Hyr & Hdel).
  assert (y = x) as -> by (apply (NoDup_fmap_inj req_id P); [apply Hok|done..|congruence]).
  eexists _, (without x P). split; [done|]. rewrite <- Hid. split_and!; [|apply same_unexp_set|apply posted_without].
  assert (~ is_sw x) as Hsw by (unfold is_sw; congruence).
  assert (~ is_block x) as Hbl by (unfold is_block; intros [? ?]; congruence).
  destruct (counters_range _ _ Hok) as [Ca Cq]. destruct (Cq _ _ (req_ref_valid req) Hq).
  apply (expected_remove tm _ _ _ q); try done; rewrite decide_False, Z.sub_0_r; done.
Qed.

(** ** Refinement *)

(** One operation: the concrete one succeeds, gives the result of the
    specification, and the states correspond again. *)
Definition refines (tm : ucp_tag_match_t) (s : spec) (o : op) : Prop :=
  exists tm', run_op tm o = Some ((spec_op s o).1, tm') /\ implements tm' (spec_op s o).2.

Lemma step_recv tm s env id tag mask len contig : implements tm s ->
  valid_op tm s (OpRecv env id tag mask len contig) -> refines tm s (OpRecv env id tag mask len contig).
Proof.
  intros (P & Hex & HP & Hun) (Ht & Hm & Hid & Hlen & Hsn). unfold refines. cbn [run_op spec_op].
  unfold ucp_tag_recv_nbx. rewrite (unexp_search_ok tm (arrived s)) by done. cbn [mbind option_bind].
  destruct (head (filter (rdesc_match tag mask) (arrived s))) as [rd|] eqn:Eh.
  - destruct (unexp_remove_ok _ _ rd Hun) as [Hun' Hex']. exists (ucp_tag_unexp_remove tm rd).
    unfold ucp_tag_recv_common. split; [by destruct (rd_kind rd)|]. exists P. by split_and!; [apply Hex'| |].
  - rewrite HP in Hid, Hlen. rewrite posted_ids in Hid. rewrite length_fmap in Hlen.
    destruct (post_recv_ok env tm P id tag mask len contig Hex Ht Hm Hid Hsn Hlen) as
      (req & tm1 & tm' & P' & E1 & E2 & Hex' & Hs & HP').
    exists tm'. unfold ucp_tag_recv_common. cbn [force_imm_cmpl user_memh_status].
    rewrite decide_False by tauto. rewrite (bind_eq _ _ _ E1), (bind_eq _ _ _ E2). split; [done|].
    exists P'. split_and!; [done|by simpl; rewrite HP'; rewrite HP|]. by eapply unexpected_same.
Qed.

Lemma step_arrive tm s rd : implements tm s -> valid_op tm s (OpArrive rd) -> refines tm s (OpArrive rd).
Proof.
  intros (P & Hex & HP & Hun) (Ht & Hid). unfold refines. cbn [run_op spec_op]. unfold ucp_eager_tagged_handler.
  destruct (exp_search_ok tm P (rd_tag rd) Hex Ht) as (tm' & E & Hs & Hex').
  rewrite (bind_eq _ _ _ E), HP, filter_fmap.
  change (filter (fun x => p_match (rd_tag rd) (posted_of x)) P) with (filter (req_match (rd_tag rd)) P).
  assert (unexpected_ok tm' (arrived s)) as Hun' by (by eapply unexpected_same).
  destruct (filter (req_match (rd_tag rd)) P) as [|x l]; simpl in *.
  - destruct (unexp_recv_ok tm' _ rd Hun' Ht Hid) as (tm2 & E2 & Hun2 & Hex2). exists tm2.
    rewrite (bind_eq _ _ _ E2). split; [done|]. exists P. by split_and!; [apply Hex2| |].
  - exists tm'. split; [done|]. exists (without x P). split_and!; [done|by rewrite posted_without|done].
Qed.

Lemma step_probe tm s tag mask rem : implements tm s -> valid_op tm s (OpProbe tag mask rem) ->
  refines tm s (OpProbe tag mask rem).
Proof.
  intros (P & Hex & HP & Hun) (Ht & Hm). unfold refines. cbn [run_op spec_op]. unfold ucp_tag_probe_nb.
  rewrite (unexp_search_ok tm (arrived s)) by done. cbn [mbind option_bind].
  destruct (head (filter (rdesc_match tag mask) (arrived s))) as [rd|]; [|by exists tm; split; [|exists P]]. simpl.
  assert (implements tm s) as Himp by (by exists P).
  assert (implements (ucp_tag_unexp_remove tm rd) (Spec (posted s) (without_rdesc rd (arrived s)))) as Hrem.
  { destruct (unexp_remove_ok _ _ rd Hun) as [Hun' Hex']. exists P. by split_and!; [apply Hex'| |]. }
  unfold spec_probe. destruct (rd_kind rd) as [|total msg started|size]; [|destruct started|]; destruct rem; simpl;
    eexists; (split; [done|]); done.
Qed.

Lemma step_ok tm s o : implements tm s -> valid_op tm s o -> refines tm s o.
Proof.
  intros Himp Hv. destruct o as [| | |req|req]; [by apply step_recv|by apply step_arrive|by apply step_probe|..];
    destruct Himp as (P & Hex & HP & Hun); unfold refines; cbn [run_op spec_op].
  - rewrite HP. destruct (exp_remove_ok tm P req Hex) as (tm' & P' & E & Hex' & Hs & HP');
      [by simpl in Hv; rewrite HP in Hv|].
    exists tm'. rewrite (bind_eq _ _ _ E), posted_ids. split; [done|]. exists P'.
    split_and!; [done|by rewrite HP'|by eapply unexpected_same].
  - destruct Hv as (q & x & Hq & Hx & Hid & Ho).
    destruct (tag_consumed_ok tm P req q x Hex Hq Hx Hid Ho) as (tm' & P' & E & Hex' & Hs & HP').
    exists tm'. rewrite (bind_eq _ _ _ E). split; [done|]. exists P'.
    split_and!; [done|by rewrite HP'; rewrite HP|by eapply unexpected_same].
Qed.

Lemma run_ok ops : forall tm s, implements tm s -> valid_run tm s ops ->
  exists tm', run tm ops = Some ((spec_run s ops).1, tm') /\ implements tm' (spec_run s ops).2.
Proof.
  induction ops as [|o ops IH]; intros tm s Himp Hv; [by exists tm|]. destruct Hv as [Hv Hrest].
  destruct (step_ok tm s o Himp Hv) as (tm1 & E1 & Himp1). rewrite E1 in Hrest.
  destruct (IH tm1 _ Himp1 Hrest) as (tm2 & E2 & Himp2). exists tm2. cbn [run spec_run].
  rewrite (bind_eq _ _ _ E1), (bind_eq _ _ _ E2). destruct (spec_op s o) as [r s1]. simpl in *.
  by destruct (spec_run s1 ops).
Qed.

Lemma hash_size_ok : ucp_tag_get_hash_size = Some 1024.
Proof. by vm_compute. Qed.

Lemma match_init_ok tm : ucp_tag_match_init true true = Some (inl tm) -> implements tm (Spec [] []).
Proof.
  unfold ucp_tag_match_init. rewrite (bind_eq _ _ _ hash_size_ok). cbn [negb]. intros <-%(inj Some)%(inj inl).
  exists []. split_and!; [|done|].
  - constructor; cbn [exp_hash exp_sn exp_sw_all_count unexp_all unexp_hash]; [by rewrite length_replicate| |done|apply SSorted_nil|by apply Forall_nil|lia|apply NoDup_nil_2|done|].
    + intros r Hr. exists (ReqQueue [] 0 0). split; [|done]. destruct r as [|i]; [done|]. cbn [valid_ref get_queue exp_hash] in *.
      apply lookup_replicate. split; [done|]. lia.
    + intros x y tag Hx. by apply not_elem_of_nil in Hx.
  - constructor; cbn [exp_hash exp_sn exp_sw_all_count unexp_all unexp_hash]; [by rewrite length_replicate|done| |constructor|apply NoDup_nil_2].
    intros i Hi. by apply lookup_replicate.
Qed.

(** Posted receives and waiting messages do not match each other. *)
Definition settled (s : spec) : Prop :=
  forall p rd, p ∈ posted s -> rd ∈ arrived s -> ~ p_match (rd_tag rd) p.

Lemma head_none {A} (l : list A) : head l = None -> l = [].
Proof. by destruct l. Qed.

Lemma settled_op s o : settled s -> settled (spec_op s o).2.
Proof.
  intros Hs. destruct o as [env id tag mask len contig|rd|tag mask rem|req|req]; cbn [spec_op].
  - destruct (head _) as [rd|] eqn:E.
    + intros p d Hp [_ Hd]%list_elem_of_filter. by apply Hs.
    + apply head_none in E. intros p d [Hp|Hp]%elem_of_app Hd; [by apply Hs|].
      apply list_elem_of_singleton in Hp as ->. intros Hm.
      assert (d ∈ filter (rdesc_match tag mask) (arrived s)) as Hf by (by apply list_elem_of_filter).
      rewrite E in Hf. by apply not_elem_of_nil in Hf.
  - destruct (head _) as [p|] eqn:E.
    + intros p' d [_ Hp]%list_elem_of_filter Hd. by apply Hs.
    + apply head_none in E. intros p' d Hp [Hd|Hd]%elem_of_app; [by apply Hs|].
      apply list_elem_of_singleton in Hd as ->. intros Hm.
      assert (p' ∈ filter (p_match (rd_tag rd)) (posted s)) as Hf by (by apply list_elem_of_filter).
      rewrite E in Hf. by apply not_elem_of_nil in Hf.
  - destruct (head _ ≫= spec_probe) as [[rd n]|]; [|done]. destruct rem; [|done].
    intros p d Hp [_ Hd]%list_elem_of_filter. by apply Hs.
  - intros p d [_ Hp]%list_elem_of_filter Hd. by apply Hs.
  - intros p d [_ Hp]%list_elem_of_filter Hd. by apply Hs.
Qed.

Lemma settled_run ops : forall s, settled s -> settled (spec_run s ops).2.
Proof.
  induction ops as [|o ops IH]; intros s Hs; [done|]. cbn [spec_run].
  pose proof (settled_op s o Hs) as H1. destruct (spec_op s o) as [r s1]. simpl in *.
  specialize (IH s1 H1). by destruct (spec_run s1 ops).
Qed.

(** ** Properties *)

(** C7: Tag matching implements its specification.  From an initialized worker,
    every sequence of receives, arriving messages, probes, cancellations and
    completions by the transport runs without a failed assertion, and gives the
    results of the specification: a message goes to the earliest posted receive
    that matches it, whether that receive is in a hash queue or in the wildcard
    queue, and a receive or a probe gets the earliest arrived message that
    matches it. *)
Theorem tag_match_refines tm ops :
  ucp_tag_match_init true true = Some (inl tm) -> valid_run tm (Spec [] []) ops ->
  exists tm', run tm ops = Some ((spec_run (Spec [] []) ops).1, tm') /\
    implements tm' (spec_run (Spec [] []) ops).2.
Proof. intros Hi Hv. apply run_ok; [by apply match_init_ok|done]. Qed.

(** No match is missed.  After every such sequence of operations, no message
    that waits in the unexpected lists matches a request that waits in an
    expected queue. *)
Theorem tag_match_settled tm ops rs tm' r q req rd :
  ucp_tag_match_init true true = Some (inl tm) -> valid_run tm (Spec [] []) ops -> run tm ops = Some (rs, tm') ->
  valid_ref r -> get_queue tm' r = Some q -> req ∈ queue q -> rd ∈ unexp_all tm' ->
  ucp_tag_is_match (rd_tag rd) (req_tag req) (req_tag_mask req) = false.
Proof.
  intros Hi Hv Hrun Hr Hq Hreq Hrd.
  destruct (run_ok ops tm _ (match_init_ok tm Hi) Hv) as (tm2 & E & P & Hex & HP & Hun). rewrite Hrun in E.
  injection E as _ <-. apply not_true_is_false. intros Hm.
  destruct (get_queue_ok _ _ _ _ Hex Hr Hq) as [Eq _]. rewrite Eq in Hreq.
  apply list_elem_of_filter in Hreq as [_ Hreq]. rewrite (un_all _ _ Hun) in Hrd.
  apply (settled_run ops (Spec [] []) ltac:(by intros p d Hp%not_elem_of_nil) (posted_of req) rd); [|done|done].
  rewrite HP. by apply list_elem_of_fmap_2.
Qed.

(** C23: Offloading keeps the matching order.  After every such sequence, with any
    answers of the transport: the counters of each expected queue are the
    numbers of its requests that are matched in software, and that block
    offloading; and a request that was handed to the transport has no tag in
    common with an earlier request that is matched in software, so the
    transport cannot take a message that belongs to that request. *)
Theorem tag_offload_order tm ops rs tm' r q :
  ucp_tag_match_init true true = Some (inl tm) -> valid_run tm (Spec [] []) ops -> run tm ops = Some (rs, tm') ->
  valid_ref r -> get_queue tm' r = Some q ->
  sw_count q = Z.of_nat (length (filter is_sw (queue q))) /\
  block_count q = Z.of_nat (length (filter is_block (queue q))) /\
  forall r' q' x y tag, valid_ref r' -> get_queue tm' r' = Some q' -> x ∈ queue q -> y ∈ queue q' ->
    req_sn x < req_sn y -> req_offloaded x = false -> req_offloaded y = true -> 0 <= tag < 2 ^ 64 ->
    ucp_tag_is_match tag (req_tag x) (req_tag_mask x) = true ->
    ucp_tag_is_match tag (req_tag y) (req_tag_mask y) = false.
Proof.
  intros Hi Hv Hrun Hr Hq.
  destruct (run_ok ops tm _ (match_init_ok tm Hi) Hv) as (tm2 & E & P & Hex & HP & Hun). rewrite Hrun in E.
  injection E as _ <-. destruct (get_queue_ok _ _ _ _ Hex Hr Hq) as (Eq & H1 & H2). split_and!; [done..|].
  intros r' q' x y tag Hr' Hq' Hx Hy Hxy Hsx Hsy Ht Hm. apply not_true_is_false.
  destruct (get_queue_ok _ _ _ _ Hex Hr' Hq') as (Eq' & _). rewrite Eq in Hx. rewrite Eq' in Hy.
  apply list_elem_of_filter in Hx as [_ Hx]. apply list_elem_of_filter in Hy as [_ Hy].
  apply (ex_order _ _ Hex x y tag); try done. unfold is_sw. congruence.
Qed.

(** A receive with [UCP_OP_ATTR_FLAG_FORCE_IMM_CMPL] that finds an unexpected
    message of several fragments, or a rendezvous request, fails with
    [UCS_ERR_NO_RESOURCE] and the message is lost: it is no longer among the
    unexpected messages. *)
Theorem recv_force_imm_loses_message env tm A rd tag mask id len contig st :
  unexpected_ok tm A -> 0 <= tag < 2 ^ 64 -> head (filter (rdesc_match tag mask) A) = Some rd ->
  rd_kind rd <> EagerOnly ->
  exists tm', ucp_tag_recv_nbx env tm tag mask id len contig (RecvParam true st) =
      Some (RecvError UCS_ERR_NO_RESOURCE, tm') /\
    unexp_all tm' = without_rdesc rd A /\ rd ∉ unexp_all tm'.
Proof.
  intros Hun Ht Hh Hk. unfold ucp_tag_recv_nbx. rewrite (unexp_search_ok tm A) by done. rewrite Hh.
  cbn [mbind option_bind]. destruct (unexp_remove_ok _ _ rd Hun) as [Hun' _].
  exists (ucp_tag_unexp_remove tm rd). rewrite (un_all _ _ Hun'). split_and!; [|done|].
  - unfold ucp_tag_recv_common. by destruct (rd_kind rd).
  - intros [? _]%list_elem_of_filter. done.
Qed.

(** ** Examples *)

Definition sample_env : offload_env :=
  OffloadEnv 4 0xff00 0 (fun _ => Some 10) (fun req => if req_tag req =? 7 then UCS_ERR_NO_RESOURCE else UCS_OK).

(** Two receives of tag 5 with a wildcard receive between them; the messages of
    tags 5, 5 and 6, of which the second takes the wildcard receive; a receive
    that the transport takes. *)
Definition sample_ops : list op :=
  [OpRecv sample_env 101 5 UCP_TAG_MASK_FULL 1 true; OpRecv sample_env 102 4 0xfe 1 false;
   OpRecv sample_env 103 5 UCP_TAG_MASK_FULL 1 true; OpArrive (Rdesc 201 5 8 8 [] EagerOnly);
   OpArrive (Rdesc 202 5 8 8 [] (EagerMulti 100 7 false)); OpArrive (Rdesc 203 6 8 8 [] (Rndv 1000));
   OpProbe 4 0xfe false; OpRecv sample_env 104 9 UCP_TAG_MASK_FULL 8 true;
   OpCancel (Req 103 5 UCP_TAG_MASK_FULL 2 1 true false false); OpRecv sample_env 105 9 UCP_TAG_MASK_FULL 8 true;
   OpConsumed (Req 105 9 UCP_TAG_MASK_FULL 4 8 true true false)].

Definition sample_tm : ucp_tag_match_t :=
  TagMatch (ReqQueue [] 0 0) (replicate 1024 (ReqQueue [] 0 0)) 0 0 [] (replicate 1024 []).

Lemma sample_init : ucp_tag_match_init true true = Some (inl sample_tm).
Proof. by vm_compute. Qed.

Lemma elem_of_list2 {A} (x a b : A) : x ∈ [a; b] -> x = a \/ x = b.
Proof. rewrite !elem_of_cons. intros [?|[?|[]%not_elem_of_nil]]; auto. Qed.

Lemma sample_valid : valid_run sample_tm (Spec [] []) sample_ops.
Proof.
  vm_compute; split_and!; try done; try (intros H%list_elem_of_In; simpl in H; intuition done).
  - by intros x [->| ->]%elem_of_list2.
  - eexists _, _. split; [done|]. split; [right; left|done].
Qed.

Definition sample_results : list result :=
  [RRecv None; RRecv None; RRecv None; RArrive (Some 101); RArrive (Some 102); RArrive None; RProbe None;
   RRecv None; RCancel true; RRecv None; RConsumed].

(** The state after the first eight operations. *)
Definition sample_after : ucp_tag_match_t := default sample_tm (snd <$> run sample_tm (take 8 sample_ops)).

Lemma sample_valid_8 : valid_run sample_tm (Spec [] []) (take 8 sample_ops).
Proof.
  vm_compute; split_and!; try done; intros H%list_elem_of_In; simpl in H; intuition done.
Qed.

Lemma sample_run_8 : run sample_tm (take 8 sample_ops) = Some (take 8 sample_results, sample_after).
Proof. by vm_compute. Qed.

Lemma tag_match_refines_witness : exists tm', run sample_tm sample_ops = Some (sample_results, tm').
Proof.
  destruct (tag_match_refines sample_tm sample_ops sample_init sample_valid) as (tm' & H & _).
  exists tm'. exact H.
Defined.

Lemma tag_match_settled_witness : ucp_tag_is_match 6 5 UCP_TAG_MASK_FULL = false.
Proof.
  apply (tag_match_settled sample_tm (take 8 sample_ops) (take 8 sample_results) sample_after (Hash 5)
    (ReqQueue [Req 103 5 UCP_TAG_MASK_FULL 2 1 true false false] 1 0) (Req 103 5 UCP_TAG_MASK_FULL 2 1 true false false)
    (Rdesc 203 6 8 8 [] (Rndv 1000)) sample_init sample_valid_8 sample_run_8);
    [by split|by vm_compute|by left|by vm_compute; left].
Defined.

Lemma tag_offload_order_witness :
  sw_count (ReqQueue [Req 103 5 UCP_TAG_MASK_FULL 2 1 true false false] 1 0) = 1 /\
  ucp_tag_is_match 5 9 UCP_TAG_MASK_FULL = false.
Proof.
  destruct (tag_offload_order sample_tm (take 8 sample_ops) (take 8 sample_results) sample_after (Hash 5)
    (ReqQueue [Req 103 5 UCP_TAG_MASK_FULL 2 1 true false false] 1 0) sample_init sample_valid_8 sample_run_8) as (H1 & _ & H3);
    [by split|by vm_compute|].
  split; [exact H1|].
  apply (H3 (Hash 9) (ReqQueue [Req 104 9 UCP_TAG_MASK_FULL 3 8 true true false] 0 0)
    (Req 103 5 UCP_TAG_MASK_FULL 2 1 true false false) (Req 104 9 UCP_TAG_MASK_FULL 3 8 true true false));
    [by split|by vm_compute|by left|by left|by vm_compute..].
Defined.

Lemma sample_unexpected : unexpected_ok sample_after [Rdesc 203 6 8 8 [] (Rndv 1000)].
Proof.
  destruct (run_ok (take 8 sample_ops) sample_tm _ (match_init_ok _ sample_init) sample_valid_8) as (tm' & E & P & _ & _ & Hun).
  rewrite sample_run_8 in E. apply (inj Some), pair_eq in E as [_ <-]. exact Hun.
Qed.

Lemma recv_force_imm_loses_message_witness :
  exists tm', ucp_tag_recv_nbx sample_env sample_after 6 UCP_TAG_MASK_FULL 301 8 true (RecvParam true UCS_OK) =
    Some (RecvError UCS_ERR_NO_RESOURCE, tm') /\ unexp_all tm' = [].
Proof.
  destruct (recv_force_imm_loses_message sample_env sample_after [Rdesc 203 6 8 8 [] (Rndv 1000)] (Rdesc 203 6 8 8 [] (Rndv 1000))
    6 UCP_TAG_MASK_FULL 301 8 true UCS_OK sample_unexpected) as (tm' & H1 & H2 & _); [lia|by vm_compute|done|].
  exists tm'. split; [exact H1|]. rewrite H2. by vm_compute.
Defined.

End TagMatch.
