(* ===== verification/Iov.v ===== *)
(** Scatter-gather lists.

    Models [ucp/dt/dt_iov.c] and [dt_iov.h] (gather, scatter, seek and length of
    an IOV datatype) and [ucs/sys/iovec.c] and [iovec.inl] (copy, advance and the
    IOV converter).  An entry of an IOV is the list of the bytes of its buffer;
    the buffers of different entries are different memory.  [None] is a failed
    assertion or an access outside of a buffer or of the array. *)

From S2P Require Import Prelude.

Module Iov.

(** ** Memory *)

(** [memcpy] from [len] bytes at [off] of a buffer. *)
Definition read (buf : list Z) (off len : Z) : option (list Z) :=
  if (0 <=? off) && (0 <=? len) && (off + len <=? Z.of_nat (length buf))
  then Some (take (Z.to_nat len) (drop (Z.to_nat off) buf)) else None.

(** [memcpy] to the offset [off] of a buffer. *)
Definition write (buf : list Z) (off : Z) (data : list Z) : option (list Z) :=
  if (0 <=? off) && (off + Z.of_nat (length data) <=? Z.of_nat (length buf))
  then Some (take (Z.to_nat off) buf ++ data ++ drop (Z.to_nat off + length data) buf) else None.

(** ** IOV datatype *)

Definition ucp_dt_iov_length (iov : list (list Z)) : Z :=
  fold_left (fun total item => u64 (total + Z.of_nat (length item))) iov 0.

Definition ucp_dt_iov_count_nonempty (iov : list (list Z)) : Z :=
  fold_left (fun count item => u64 (count + (if Z.of_nat (length item) =? 0 then 0 else 1))) iov 0.

(** The state of a copy loop: the bytes moved, [iov_offset] and [iovcnt_offset]. *)
Record gather_state := GatherState { g_dest : list Z; g_length_it : Z; g_offset : Z; g_index : Z }.

Definition gather_step (iov : list (list Z)) (len : Z) (s : gather_state) :
  option (gather_state + (list Z * Z * Z)) :=
  if g_length_it s <? len then
    item ← iov !! Z.to_nat (g_index s);
    let item_reminder := u64 (Z.of_nat (length item) - g_offset s) in
    let item_len_to_copy :=
      u64 (item_reminder - Z.max (s_wrap 64 (g_length_it s + item_reminder - len)) 0) in
    data ← read item (g_offset s) item_len_to_copy;
    let length_it := u64 (g_length_it s + item_len_to_copy) in
    _ ← assert (length_it <=? len);
    let dest := g_dest s ++ data in
    Some (inl (if length_it <? len then GatherState dest length_it 0 (g_index s + 1)
               else GatherState dest length_it (g_offset s + item_len_to_copy) (g_index s)))
  else Some (inr (g_dest s, g_offset s, g_index s)).

(** [ucp_dt_iov_gather]: the packed bytes, [iov_offset] and [iovcnt_offset]. *)
Definition ucp_dt_iov_gather (iov : list (list Z)) (len iov_offset iovcnt_offset : Z) : option (list Z * Z * Z) :=
  while (gather_step iov len) (GatherState [] 0 iov_offset iovcnt_offset).

Record scatter_state := ScatterState { s_iov : list (list Z); s_length_it : Z; s_offset : Z; s_index : Z }.

Definition scatter_step (src : list Z) (len : Z) (s : scatter_state) :
  option (scatter_state + scatter_state) :=
  if (s_length_it s <? len) && (s_index s <? Z.of_nat (length (s_iov s))) then
    item ← s_iov s !! Z.to_nat (s_index s);
    let item_len := Z.of_nat (length item) in
    let item_len_to_copy := Z.min (Z.max (s_wrap 64 (item_len - s_offset s)) 0) (len - s_length_it s) in
    _ ← assert (s_offset s <=? item_len);
    data ← read src (s_length_it s) item_len_to_copy;
    item ← write item (s_offset s) data;
    let iov := <[Z.to_nat (s_index s) := item]> (s_iov s) in
    let length_it := u64 (s_length_it s + item_len_to_copy) in
    _ ← assert (length_it <=? len);
    Some (inl (if length_it <? len then ScatterState iov length_it 0 (s_index s + 1)
               else ScatterState iov length_it (s_offset s + item_len_to_copy) (s_index s)))
  else Some (inr s).

(** [ucp_dt_iov_scatter]: the final state holds the buffers and the result. *)
Definition ucp_dt_iov_scatter (iov : list (list Z)) (src : list Z) (len iov_offset iovcnt_offset : Z) :
  option scatter_state :=
  while (scatter_step src len) (ScatterState iov 0 iov_offset iovcnt_offset).

(** The loops of [ucp_dt_iov_seek]; the state is [new_iov_offset] and [iovcnt_offset]. *)
Definition seek_back_step (iov : list (list Z)) (s : Z * Z) : option ((Z * Z) + (Z * Z)) :=
  let '(offset, index) := s in
  _ ← assert (0 <? index);
  let index := index - 1 in
  item ← iov !! Z.to_nat index;
  let offset := offset + Z.of_nat (length item) in
  if offset <? 0 then Some (inl (offset, index)) else Some (inr (offset, index)).

Definition seek_forward_step (iov : list (list Z)) (s : Z * Z) : option ((Z * Z) + (Z * Z)) :=
  let '(offset, index) := s in
  item ← iov !! Z.to_nat index;
  let length_it := Z.of_nat (length item) in
  if length_it <=? offset then
    let index := index + 1 in
    _ ← assert (index <? Z.of_nat (length iov));
    Some (inl (offset - length_it, index))
  else Some (inr (offset, index)).

Definition ucp_dt_iov_seek (iov : list (list Z)) (distance iov_offset iovcnt_offset : Z) : option (Z * Z) :=
  let new_iov_offset := iov_offset + distance in
  if new_iov_offset <? 0 then while (seek_back_step iov) (new_iov_offset, iovcnt_offset)
  else while (seek_forward_step iov) (new_iov_offset, iovcnt_offset).

(** ** System IOV *)

Inductive ucs_iov_copy_direction_t := UCS_IOV_COPY_TO_BUF | UCS_IOV_COPY_FROM_BUF.

(** [ucs_iov_copy]: the entries and the buffer after it, and the bytes copied.
    The loop consumes the entries; [copied] bytes of [buf] are done. *)
Fixpoint ucs_iov_copy_loop (iov : list (list Z)) (iov_offset : Z) (buf : list Z) (copied max_copy : Z)
    (dir : ucs_iov_copy_direction_t) : option (list (list Z) * list Z * Z) :=
  match iov with
  | [] => Some ([], buf, copied)
  | item :: rest =>
      if max_copy =? 0 then Some (item :: rest, buf, copied)
      else
        let len := Z.of_nat (length item) in
        if len <? iov_offset then
          '(rest, buf, copied) ← ucs_iov_copy_loop rest (iov_offset - len) buf copied max_copy dir;
          Some (item :: rest, buf, copied)
        else
          let len := Z.min (len - iov_offset) max_copy in
          '(item, buf) ←
            match dir with
            | UCS_IOV_COPY_FROM_BUF => data ← read buf copied len; item ← write item iov_offset data; Some (item, buf)
            | UCS_IOV_COPY_TO_BUF => data ← read item iov_offset len; buf ← write buf copied data; Some (item, buf)
            end;
          '(rest, buf, copied) ← ucs_iov_copy_loop rest 0 buf (copied + len) (max_copy - len) dir;
          Some (item :: rest, buf, copied)
  end.

Definition ucs_iov_copy (iov : list (list Z)) (iov_offset : Z) (buf : list Z) (max_copy : Z)
    (dir : ucs_iov_copy_direction_t) : option (list (list Z) * list Z * Z) :=
  ucs_iov_copy_loop iov iov_offset buf 0 max_copy dir.

(** An entry of [struct iovec] as an address and a length. *)
Record iovec := Iovec { iov_base : Z; iov_len : Z }.

(** [ucs_iov_advance]: the entries from the current index on, and the number of
    entries that were consumed completely. *)
Fixpoint ucs_iov_advance_loop (iov : list iovec) (consumed : Z) (i : Z) : option (list iovec * option Z) :=
  match iov with
  | [] => _ ← assert (consumed =? 0); Some ([], None)
  | v :: rest =>
      if consumed <? iov_len v then
        Some (Iovec (u64 (iov_base v + consumed)) (iov_len v - consumed) :: rest, Some i)
      else
        '(rest, idx) ← ucs_iov_advance_loop rest (consumed - iov_len v) (i + 1);
        Some (Iovec (u64 (iov_base v + iov_len v)) 0 :: rest, idx)
  end.

Definition ucs_iov_advance (iov : list iovec) (cur_iov_idx consumed : Z) : option (list iovec * Z) :=
  _ ← assert (cur_iov_idx <=? Z.of_nat (length iov));
  let done := take (Z.to_nat cur_iov_idx) iov in
  '(rest, idx) ← ucs_iov_advance_loop (drop (Z.to_nat cur_iov_idx) iov) consumed cur_iov_idx;
  Some (done ++ rest, default cur_iov_idx idx).

(** [ucs_iov_converter]: builds the destination entries from the source entries,
    starting at the iterator.  The state is the destination so far,
    [remain_length], the source index, and the iterator's [buffer_offset]. *)
Record conv_state := ConvState { c_dst : list iovec; c_remain : Z; c_index : Z; c_offset : Z }.

Definition conv_step (src : list iovec) (dst_cnt : Z) (index0 : Z) (s : conv_state) :
  option (conv_state + conv_state) :=
  if (c_index s <? Z.of_nat (length src)) && negb (c_remain s =? 0) && (Z.of_nat (length (c_dst s)) <? dst_cnt) then
    v ← src !! Z.to_nat (c_index s);
    _ ← assert (c_offset s <=? iov_len v);
    let src_len := iov_len v - c_offset s in
    if src_len =? 0 then Some (inl (ConvState (c_dst s) (c_remain s) (c_index s + 1) (c_offset s)))
    else
      let dst_len := Z.min src_len (c_remain s) in
      let dst := c_dst s ++ [Iovec (u64 (iov_base v + c_offset s)) dst_len] in
      _ ← assert (dst_len <=? c_remain s);
      if c_remain s <? src_len then
        Some (inl (ConvState dst (c_remain s - dst_len) (c_index s) (c_offset s + c_remain s)))
      else
        _ ← assert ((c_offset s =? 0) || (c_index s =? index0));
        Some (inl (ConvState dst (c_remain s - dst_len) (c_index s + 1) 0))
  else Some (inr s).

(** The result: destination entries, converted length, and the new iterator. *)
Definition ucs_iov_converter (src : list iovec) (dst_cnt max_length iov_index buffer_offset : Z) :
  option (list iovec * Z * (Z * Z)) :=
  s ← while (conv_step src dst_cnt iov_index) (ConvState [] max_length iov_index buffer_offset);
  _ ← assert (Z.of_nat (length (c_dst s)) <=? dst_cnt);
  Some (c_dst s, max_length - c_remain s, (c_index s, c_offset s)).

Definition ucs_iov_total_length (iov : list iovec) : Z :=
  fold_left (fun total v => u64 (total + iov_len v)) iov 0.

Definition ucs_iov_iter_flat_offset (iov : list iovec) (iov_index buffer_offset : Z) : Z :=
  let offset := fold_left (fun off v => u64 (off + iov_len v)) (take (Z.to_nat iov_index) iov) 0 in
  if iov_index <? Z.of_nat (length iov) then u64 (offset + buffer_offset) else offset.

(** ** Positions

    A position of an IOV is an entry and an offset in it; the data of the IOV is
    the concatenation of its entries. *)

Definition flat (iov : list (list Z)) : list Z := concat iov.

Definition total (iov : list (list Z)) : Z := Z.of_nat (length (flat iov)).

(** [n] bytes of [l] from [p] on. *)
Definition sub (l : list Z) (p n : Z) : list Z := take (Z.to_nat n) (drop (Z.to_nat p) l).

(** The length of the first [i] entries. *)
Definition before (iov : list (list Z)) (i : Z) : Z := Z.of_nat (length (concat (take (Z.to_nat i) iov))).

(** The entry [i] and the offset [o] in it denote the byte [p] of the data; [o]
    may be the end of the entry. *)
Definition at_pos (iov : list (list Z)) (i o p : Z) : Prop :=
  0 <= i /\ exists item, iov !! Z.to_nat i = Some item /\ 0 <= o <= Z.of_nat (length item) /\ p = before iov i + o.

(** The sizes of the array and of the data are those of objects in memory. *)
Definition fits (iov : list (list Z)) : Prop := total iov < 2 ^ 63 /\ Z.of_nat (length iov) < 2 ^ 62.

Lemma s_wrap_small x : - 2 ^ 63 <= x < 2 ^ 63 -> s_wrap 64 x = x.
Proof. intros Hx. apply s_wrap_unique; [lia|done|]. change (64 - 1) with 63. lia. Qed.

Lemma sub_app l p n m : 0 <= p -> 0 <= n -> 0 <= m -> sub l p n ++ sub l (p + n) m = sub l p (n + m).
Proof.
  intros Hp Hn Hm. unfold sub. rewrite !Z2Nat.inj_add by lia. rewrite <- drop_drop.
  by rewrite take_take_drop.
Qed.

Lemma sub_length l p n : 0 <= p -> 0 <= n -> p + n <= Z.of_nat (length l) -> length (sub l p n) = Z.to_nat n.
Proof. intros. unfold sub. rewrite length_take, length_drop. lia. Qed.

Lemma flat_split iov i item : 0 <= i -> iov !! Z.to_nat i = Some item ->
  flat iov = concat (take (Z.to_nat i) iov) ++ item ++ concat (drop (S (Z.to_nat i)) iov).
Proof.
  intros Hi Hx. unfold flat. rewrite <- (take_drop_middle _ _ _ Hx) at 1. by rewrite concat_app.
Qed.

Lemma before_next iov i item : 0 <= i -> iov !! Z.to_nat i = Some item ->
  before iov (i + 1) = before iov i + Z.of_nat (length item).
Proof.
  intros Hi Hx. unfold before. rewrite Z2Nat.inj_add by lia. rewrite Nat.add_1_r, (take_S_r _ _ _ Hx), concat_app.
  rewrite length_app. simpl. rewrite app_nil_r. lia.
Qed.

Lemma before_total iov i : 0 <= i -> before iov i < total iov -> exists item, iov !! Z.to_nat i = Some item.
Proof.
  intros Hi Hb. destruct (iov !! Z.to_nat i) as [item|] eqn:E; [by eexists|]. apply lookup_ge_None in E.
  unfold before, total, flat in Hb. rewrite take_ge in Hb by lia. lia.
Qed.

Lemma before_le iov i item : 0 <= i -> iov !! Z.to_nat i = Some item ->
  before iov i + Z.of_nat (length item) <= total iov.
Proof. intros Hi Hx. unfold total, before. rewrite (flat_split _ _ _ Hi Hx), !length_app. lia. Qed.

(** Reading from an entry is reading from the data. *)
Lemma read_item iov i o p item n : 0 <= i -> iov !! Z.to_nat i = Some item -> 0 <= o -> 0 <= n ->
  o + n <= Z.of_nat (length item) -> p = before iov i + o ->
  read item o n = Some (sub (flat iov) p n).
Proof.
  intros Hi Hx Ho Hn Hle ->. unfold read. rewrite !(proj2 (Z.leb_le _ _)) by lia. simpl. f_equal. unfold sub, before.
  rewrite (flat_split _ _ _ Hi Hx), Z2Nat.inj_add, Nat2Z.id by lia.
  rewrite <- drop_drop, drop_app_length, drop_app_le by lia. rewrite take_app_le; [done|]. rewrite length_drop. lia.
Qed.

(** The next entry starts where the entry [i] ends. *)
Lemma at_pos_next iov i item p : 0 <= i -> iov !! Z.to_nat i = Some item ->
  p = before iov i + Z.of_nat (length item) -> p < total iov -> at_pos iov (i + 1) 0 p.
Proof.
  intros Hi Hx -> Hp. rewrite <- (before_next _ _ _ Hi Hx) in *. split; [lia|].
  destruct (before_total iov (i + 1) ltac:(lia) Hp) as [it Hit]. exists it. split_and!; [done|lia|lia|lia].
Qed.

Lemma next_or_end iov i item : 0 <= i -> iov !! Z.to_nat i = Some item ->
  at_pos iov (i + 1) 0 (before iov i + Z.of_nat (length item)) \/
  i + 1 = Z.of_nat (length iov) /\ before iov i + Z.of_nat (length item) = total iov.
Proof.
  intros Hi Hx. rewrite <- (before_next _ _ _ Hi Hx). pose proof (lookup_lt_Some _ _ _ Hx).
  destruct (decide (i + 1 < Z.of_nat (length iov))) as [Hlt|].
  - left. split; [lia|]. destruct (lookup_lt_is_Some_2 iov (Z.to_nat (i + 1)) ltac:(lia)) as [it Hit].
    exists it. split_and!; [done|lia|lia|lia].
  - right. split; [lia|]. unfold before, total, flat. rewrite take_ge by lia. done.
Qed.

(** ** Gather *)

(** [ucp_dt_iov_gather] packs the next [len] bytes and moves the position. *)
Lemma gather_ok iov len i o p : fits iov -> at_pos iov i o p -> 0 <= len -> p + len <= total iov ->
  exists i' o', ucp_dt_iov_gather iov len o i = Some (sub (flat iov) p len, o', i') /\ at_pos iov i' o' (p + len).
Proof.
  intros [Ht Hc] Hpos Hlen Hend.
  assert (0 <= p) as Hp by (destruct Hpos as (? & it & ? & ? & ->); unfold before; lia).
  destruct (while_ok (gather_step iov len)
    (fun s => 0 <= g_length_it s <= len /\ g_dest s = sub (flat iov) p (g_length_it s) /\
       at_pos iov (g_index s) (g_offset s) (p + g_length_it s))
    (fun r => exists i' o', r = (sub (flat iov) p len, o', i') /\ at_pos iov i' o' (p + len))
    (fun s => if g_length_it s <? len then Z.of_nat (length iov) - g_index s + 1 else 0)
    (GatherState [] 0 o i)) as (r & E & i' & o' & -> & Hr).
  - intros [dest l off idx]. cbn [g_dest g_length_it g_offset g_index]. intros (Hl & -> & Hidx & item & Hit & Hoff & Hpp).
    pose proof (before_le _ _ _ Hidx Hit) as Hbl. pose proof (lookup_lt_Some _ _ _ Hit).
    assert (0 <= before iov idx) by (unfold before; lia). unfold gather_step. cbn [g_dest g_length_it g_offset g_index].
    destruct (Z.ltb_spec l len) as [Hlt|Hge].
    2: { exists (inr (sub (flat iov) p l, off, idx)). split; [done|]. replace l with len in * by lia.
         exists idx, off. split; [done|]. split; [done|]. by exists item. }
    rewrite Hit. cbn [mbind option_bind]. rewrite (u_wrap_small 64 (_ - off)) by lia.
    rewrite s_wrap_small by lia. rewrite (u_wrap_small 64 (_ - off - _)) by lia.
    set (c := _ - off - Z.max _ 0). assert (0 <= c <= Z.of_nat (length item) - off /\ c <= len - l) as [Hc1 Hc2] by lia.
    rewrite (bind_eq _ _ _ (read_item iov idx off (p + l) item c Hidx Hit ltac:(lia) ltac:(lia) ltac:(lia) Hpp)).
    rewrite (u_wrap_small 64 (l + c)) by lia. unfold assert. rewrite (proj2 (Z.leb_le (l + c) len)) by lia.
    cbn [mbind option_bind]. rewrite sub_app by lia. eexists. split; [done|].
    destruct (Z.ltb_spec (l + c) len); cbn [g_dest g_length_it g_offset g_index].
    + assert (c = Z.of_nat (length item) - off) by lia. split; [|rewrite (proj2 (Z.ltb_lt (l + c) len)) by lia; lia].
      split_and!; [lia|lia|done|]. apply (at_pos_next _ _ item); [done|done|lia|lia].
    + split; [|rewrite (proj2 (Z.ltb_ge (l + c) len)) by lia; lia]. split_and!; [lia|lia|done|].
      split; [lia|]. exists item. split_and!; [done|lia|lia|lia].
  - cbn [g_dest g_length_it g_offset g_index]. rewrite Z.add_0_r. split_and!; [lia|lia|done|done].
  - cbn [g_length_it g_index]. destruct Hpos as (? & it & Hit & _). pose proof (lookup_lt_Some _ _ _ Hit). zcase; lia.
  - exists i', o'. done.
Qed.

(** ** Scatter *)

(** The buffer [l] after [d] was written at [p]. *)
Definition splice (l : list Z) (p : Z) (d : list Z) : list Z :=
  take (Z.to_nat p) l ++ d ++ drop (Z.to_nat p + length d) l.

(** Two IOVs with entries of the same lengths. *)
Definition same_shape (iov iov' : list (list Z)) : Prop := length <$> iov' = length <$> iov.

Lemma splice_length l p d : 0 <= p -> p + Z.of_nat (length d) <= Z.of_nat (length l) ->
  length (splice l p d) = length l.
Proof. intros. unfold splice. rewrite !length_app, length_take, length_drop. lia. Qed.

Lemma splice_nil l p : splice l p [] = l.
Proof. unfold splice. simpl. rewrite Nat.add_0_r. apply take_drop. Qed.

Lemma splice_splice l p d1 d2 : 0 <= p -> p + Z.of_nat (length d1) <= Z.of_nat (length l) ->
  splice (splice l p d1) (p + Z.of_nat (length d1)) d2 = splice l p (d1 ++ d2).
Proof.
  intros Hp Hl. unfold splice. rewrite Z2Nat.inj_add, Nat2Z.id by lia.
  assert (length (take (Z.to_nat p) l) = Z.to_nat p) as Ht by (rewrite length_take; lia).
  rewrite (app_assoc (take _ l) d1). rewrite take_app_length' by (rewrite length_app; lia).
  rewrite <- !app_assoc. do 3 f_equal.
  rewrite (app_assoc (take _ l) d1), drop_app_ge by (rewrite length_app; lia).
  rewrite drop_drop, !length_app, Ht. f_equal. lia.
Qed.

(** Reading back what was written. *)
Lemma sub_splice l p d : 0 <= p -> p + Z.of_nat (length d) <= Z.of_nat (length l) ->
  sub (splice l p d) p (Z.of_nat (length d)) = d.
Proof.
  intros Hp Hl. unfold sub, splice. rewrite Nat2Z.id.
  rewrite drop_app_length' by (rewrite length_take; lia). by rewrite take_app_length.
Qed.

Lemma same_shape_trans a b c : same_shape a b -> same_shape b c -> same_shape a c.
Proof. unfold same_shape. congruence. Qed.

Lemma concat_shape (a b : list (list Z)) : length <$> a = length <$> b -> length (concat a) = length (concat b).
Proof.
  revert b. induction a as [|x a IH]; intros [|y b] H; simplify_eq/=; [done|].
  rewrite !length_app. f_equal; [done|]. by apply IH.
Qed.

Lemma shape_total iov iov' : same_shape iov iov' -> total iov' = total iov.
Proof. intros H. unfold total, flat. f_equal. by apply concat_shape. Qed.

Lemma shape_before iov iov' i : same_shape iov iov' -> before iov' i = before iov i.
Proof.
  intros H. unfold before. f_equal. apply concat_shape. unfold same_shape in H.
  by rewrite !fmap_take, H.
Qed.

Lemma shape_lookup iov iov' i item : same_shape iov iov' -> iov' !! i = Some item ->
  exists item0, iov !! i = Some item0 /\ length item0 = length item.
Proof.
  intros H Hi. assert ((length <$> iov) !! i = Some (length item)) as Hl
    by (rewrite <- H, list_lookup_fmap, Hi; done).
  rewrite list_lookup_fmap in Hl. destruct (iov !! i) as [x|]; [|done]. simplify_eq/=. by exists x.
Qed.

Lemma shape_len iov iov' : same_shape iov iov' -> length iov' = length iov.
Proof. intros H. by rewrite <- (length_fmap length iov'), H, length_fmap. Qed.

Lemma shape_pos iov iov' i o p : same_shape iov iov' -> at_pos iov' i o p -> at_pos iov i o p.
Proof.
  intros H (Hi & item & Hx & Ho & ->). destruct (shape_lookup _ _ _ _ H Hx) as (x & Hx' & El).
  split; [done|]. exists x. rewrite (shape_before _ _ _ H), El. done.
Qed.

(** Writing to an entry is writing to the data. *)
Lemma write_item iov i o item d : 0 <= i -> iov !! Z.to_nat i = Some item -> 0 <= o ->
  o + Z.of_nat (length d) <= Z.of_nat (length item) ->
  exists item', write item o d = Some item' /\ length item' = length item /\
    same_shape iov (<[Z.to_nat i := item']> iov) /\
    flat (<[Z.to_nat i := item']> iov) = splice (flat iov) (before iov i + o) d.
Proof.
  intros Hi Hx Ho Hd. unfold write. rewrite !(proj2 (Z.leb_le _ _)) by lia. simpl.
  set (item' := take _ _ ++ _). exists item'. pose proof (lookup_lt_Some _ _ _ Hx) as Hlt.
  assert (length item' = length item) as El
    by (unfold item'; rewrite !length_app, length_take, length_drop; lia).
  split_and!; [done|done| |].
  - unfold same_shape. rewrite list_fmap_insert. apply list_insert_id. rewrite list_lookup_fmap, Hx. simpl. by rewrite El.
  - unfold flat. rewrite insert_take_drop by done. rewrite concat_app. simpl.
    fold (flat iov). rewrite (flat_split _ _ _ Hi Hx). unfold splice, before, item'.
    set (A := concat (take _ iov)). rewrite Z2Nat.inj_add, Nat2Z.id by lia.
    rewrite take_app_add, take_app_le by lia. rewrite <- !app_assoc, <- Nat.add_assoc, drop_app_add.
    by rewrite drop_app_le by lia.
Qed.

Lemma take_sub_app (src : list Z) l c : 0 <= l -> 0 <= c ->
  take (Z.to_nat l) src ++ sub src l c = take (Z.to_nat (l + c)) src.
Proof. intros. unfold sub. rewrite Z2Nat.inj_add by lia. by rewrite take_take_drop. Qed.

(** The loop invariant of [ucp_dt_iov_scatter]: [l] bytes are written, and the
    position is behind them or behind the last entry. *)
Definition scatter_inv (iov : list (list Z)) (src : list Z) (len p : Z) (s : scatter_state) : Prop :=
  0 <= s_length_it s <= len /\ p + s_length_it s <= total iov /\ same_shape iov (s_iov s) /\
  flat (s_iov s) = splice (flat iov) p (take (Z.to_nat (s_length_it s)) src) /\
  (at_pos iov (s_index s) (s_offset s) (p + s_length_it s) \/
   s_index s = Z.of_nat (length iov) /\ p + s_length_it s = total iov /\ s_length_it s < len).

Lemma scatter_step_ok iov src len p s : fits iov -> 0 <= p -> len <= Z.of_nat (length src) -> len < 2 ^ 63 ->
  scatter_inv iov src len p s ->
  exists x, scatter_step src len s = Some x /\
    match x with
    | inl s' => scatter_inv iov src len p s' /\
        0 <= (if s_length_it s' <? len then Z.of_nat (length iov) - s_index s' + 1 else 0) <
        (if s_length_it s <? len then Z.of_nat (length iov) - s_index s + 1 else 0)
    | inr s' => s' = s /\ (s_length_it s = len \/ p + s_length_it s = total iov)
    end.
Proof.
  intros [Ht Hc] Hp Hsrc Hlen. destruct s as [iv l off idx]. unfold scatter_inv, scatter_step. cbn [s_iov s_length_it s_offset s_index].
  intros (Hl & Hpl & Hsh & Hfl & Hpos). rewrite (shape_len _ _ Hsh).
  destruct (Z.ltb_spec l len) as [Hlt|Hge]; [|exists (inr (ScatterState iv l off idx)); split; [done|]; split; [done|left; lia]].
  destruct Hpos as [(Hidx & item0 & Hit0 & Hoff & Hpp)|(Hidx & Hend & _)].
  2: { rewrite Hidx, Z.ltb_irrefl. eexists (inr _). split; [done|]. split; [done|]. by right. }
  pose proof (lookup_lt_Some _ _ _ Hit0). rewrite (proj2 (Z.ltb_lt idx _)) by lia. cbn [andb].
  destruct (shape_lookup iv iov (Z.to_nat idx) item0 (eq_sym Hsh) Hit0) as (item & Hit & El).
  pose proof (before_le _ _ _ Hidx Hit0) as Hbl. assert (0 <= before iov idx) by (unfold before; lia).
  rewrite Hit. cbn [mbind option_bind]. rewrite El. rewrite s_wrap_small by lia. unfold assert.
  rewrite (proj2 (Z.leb_le off _)) by lia. cbn [mbind option_bind].
  set (c := Z.min _ _). assert (0 <= c <= Z.of_nat (length item0) - off /\ c <= len - l) as [Hc1 Hc2] by lia.
  assert (read src l c = Some (sub src l c)) as Hrd.
  { unfold read. by rewrite !(proj2 (Z.leb_le _ _)) by lia. }
  assert (length (sub src l c) = Z.to_nat c) as Elen by (apply sub_length; lia).
  rewrite (bind_eq _ _ _ Hrd).
  destruct (write_item iv idx off item (sub src l c) Hidx Hit ltac:(lia) ltac:(lia)) as (item' & Hw & Ew & Hsh' & Hfl').
  rewrite (bind_eq _ _ _ Hw), (u_wrap_small 64 (l + c)) by lia. rewrite (proj2 (Z.leb_le (l + c) len)) by lia.
  cbn [mbind option_bind]. eexists. split; [done|].
  assert (same_shape iov (<[Z.to_nat idx := item']> iv)) as Hsh2 by (by apply (same_shape_trans iov iv)).
  assert (flat (<[Z.to_nat idx := item']> iv) = splice (flat iov) p (take (Z.to_nat (l + c)) src)) as Hfl2.
  { rewrite Hfl', (shape_before _ _ _ Hsh), <- Hpp, Hfl.
    rewrite <- take_sub_app by lia. rewrite <- splice_splice; [|lia|unfold total in *; rewrite length_take; lia].
    f_equal. rewrite length_take. lia. }
  destruct (Z.ltb_spec (l + c) len); cbn [s_iov s_length_it s_offset s_index].
  - assert (c = Z.of_nat (length item0) - off) by lia. rewrite (proj2 (Z.ltb_lt (l + c) len)) by lia. split; [|lia].
    split_and!; [lia|lia|lia|done|done|]. destruct (next_or_end iov idx item0 Hidx Hit0) as [Hn|[Hn1 Hn2]].
    + left. replace (p + (l + c)) with (before iov idx + Z.of_nat (length item0)) by lia. done.
    + right. split_and!; lia.
  - rewrite (proj2 (Z.ltb_ge (l + c) len)) by lia. split; [|lia]. split_and!; [lia|lia|lia|done|done|].
    left. split; [done|]. exists item0. split_and!; [done|lia|lia|lia].
Qed.

(** [ucp_dt_iov_scatter] writes as much of the data as fits behind the position,
    in order, and nothing else. *)
Lemma scatter_ok iov src len i o p : fits iov -> at_pos iov i o p -> 0 <= len <= Z.of_nat (length src) -> len < 2 ^ 63 ->
  exists s, ucp_dt_iov_scatter iov src len o i = Some s /\
    s_length_it s = Z.min len (total iov - p) /\ same_shape iov (s_iov s) /\
    flat (s_iov s) = splice (flat iov) p (take (Z.to_nat (s_length_it s)) src) /\
    (p + len <= total iov -> at_pos iov (s_index s) (s_offset s) (p + len)).
Proof.
  intros Hf Hpos Hlen Hmax.
  assert (0 <= p <= total iov) as Hp.
  { destruct Hpos as (? & it & Hit & ? & ->). pose proof (before_le _ _ _ H Hit). unfold before in *. lia. }
  destruct (while_ok (scatter_step src len) (scatter_inv iov src len p)
    (fun s => scatter_inv iov src len p s /\ (s_length_it s = len \/ p + s_length_it s = total iov))
    (fun s => if s_length_it s <? len then Z.of_nat (length iov) - s_index s + 1 else 0)
    (ScatterState iov 0 o i)) as (s & E & (Hl & Hpl & Hsh & Hfl & Hps) & Hend).
  - intros s Hs. destruct (scatter_step_ok iov src len p s Hf ltac:(lia) ltac:(lia) Hmax Hs) as (x & E & Hx).
    exists x. split; [done|]. destruct x as [s'|s']; [done|]. destruct Hx as [-> ?]. done.
  - unfold scatter_inv. cbn [s_iov s_length_it s_offset s_index]. rewrite Z.add_0_r, splice_nil.
    split_and!; [lia|lia|lia|done|done|by left].
  - cbn [s_length_it s_index]. destruct Hf. destruct Hpos as (? & it & Hit & _).
    pose proof (lookup_lt_Some _ _ _ Hit). zcase; lia.
  - exists s. split; [done|]. split_and!; [destruct Hend; lia|done|done|].
    intros Hle. destruct Hps as [Hps|(_ & ? & ?)]; [|lia]. by replace (p + len) with (p + s_length_it s) by lia.
Qed.

(** ** Seek *)

Lemma seek_ok iov d i o p : fits iov -> at_pos iov i o p -> 0 <= p + d < total iov ->
  exists i' o', ucp_dt_iov_seek iov d o i = Some (o', i') /\ at_pos iov i' o' (p + d).
Proof.
  intros [Ht Hc] (Hi & item & Hit & Ho & Hp) Hd. unfold ucp_dt_iov_seek. pose proof (lookup_lt_Some _ _ _ Hit) as Hlt.
  assert (forall r : Z * Z, at_pos iov r.2 r.1 (p + d) -> exists i' o', Some r = Some (o', i') /\ at_pos iov i' o' (p + d)) as Hfin.
  { intros [o' i'] H. by exists i', o'. }
  destruct (Z.ltb_spec (o + d) 0).
  - destruct (while_ok (seek_back_step iov)
      (fun '(off, idx) => off < 0 /\ 0 <= idx < Z.of_nat (length iov) /\ p + d = before iov idx + off)
      (fun r => at_pos iov r.2 r.1 (p + d)) (fun s => s.2) (o + d, i)) as (r & -> & Hr); [|lia|simpl; lia|by apply Hfin].
    intros [off idx] (Hoff & Hidx & Hpd). simpl.
    assert (0 < idx) as Hpos.
    { destruct (decide (idx = 0)) as [->|]; [|lia]. unfold before in Hpd. simpl in Hpd. lia. }
    unfold assert. rewrite (proj2 (Z.ltb_lt 0 idx)) by lia. simpl.
    destruct (lookup_lt_is_Some_2 iov (Z.to_nat (idx - 1)) ltac:(lia)) as [it Hx]. rewrite Hx. simpl.
    pose proof (before_next iov (idx - 1) it ltac:(lia) Hx) as Hb. rewrite Z.sub_add in Hb.
    destruct (Z.ltb_spec (off + Z.of_nat (length it)) 0); eexists; (split; [done|]); simpl; [lia|].
    split; [lia|]. exists it. split_and!; [done|lia|lia|lia].
  - destruct (while_ok (seek_forward_step iov)
      (fun '(off, idx) => 0 <= off /\ 0 <= idx < Z.of_nat (length iov) /\ p + d = before iov idx + off)
      (fun r => at_pos iov r.2 r.1 (p + d)) (fun s => Z.of_nat (length iov) - s.2) (o + d, i)) as (r & -> & Hr);
      [|lia|simpl; lia|by apply Hfin].
    intros [off idx] (Hoff & Hidx & Hpd). simpl.
    destruct (lookup_lt_is_Some_2 iov (Z.to_nat idx) ltac:(lia)) as [it Hx]. rewrite Hx. simpl.
    destruct (Z.leb_spec (Z.of_nat (length it)) off).
    + pose proof (before_next iov idx it ltac:(lia) Hx) as Hb.
      destruct (before_total iov (idx + 1) ltac:(lia) ltac:(lia)) as [it2 Hit2]. pose proof (lookup_lt_Some _ _ _ Hit2).
      unfold assert. rewrite (proj2 (Z.ltb_lt (idx + 1) _)) by lia. simpl. eexists. split; [done|]. simpl. lia.
    + eexists. split; [done|]. simpl. split; [lia|]. exists it. split_and!; [done|lia|lia|lia].
Qed.

Lemma iov_length_ok iov : fits iov -> ucp_dt_iov_length iov = total iov.
Proof.
  intros [Ht _]. unfold ucp_dt_iov_length.
  assert (forall (l : list (list Z)) a, 0 <= a -> a + Z.of_nat (length (concat l)) < 2 ^ 64 ->
    fold_left (fun t item => u64 (t + Z.of_nat (length item))) l a = a + Z.of_nat (length (concat l))) as H.
  { induction l as [|x l IH]; intros a Ha Hl; simpl in *; [lia|]. rewrite length_app in *.
    rewrite u_wrap_small by lia. rewrite IH by lia. lia. }
  rewrite H; unfold total, flat in *; lia.
Qed.

(** ** Converter *)

(** The addresses that an entry covers. *)
Definition addrs (v : iovec) : list Z := seqZ (iov_base v) (iov_len v).

Definition iovec_ok (v : iovec) : Prop := 0 <= iov_base v /\ 0 <= iov_len v /\ iov_base v + iov_len v < 2 ^ 64.

Definition src_ok (src : list iovec) : Prop := Forall iovec_ok src /\ fits (addrs <$> src).

(** An iterator is inside of an entry, at its start, or behind the last entry. *)
Definition iter_at (src : list iovec) (i o p : Z) : Prop :=
  (exists v, at_pos (addrs <$> src) i o p /\ src !! Z.to_nat i = Some v /\ (o = 0 \/ o < iov_len v)) \/
  i = Z.of_nat (length src) /\ o = 0 /\ p = total (addrs <$> src).

Lemma addrs_length v : iovec_ok v -> Z.of_nat (length (addrs v)) = iov_len v.
Proof. intros (? & ? & ?). unfold addrs. rewrite length_seqZ. lia. Qed.

Lemma addrs_sub v o n : iovec_ok v -> 0 <= o -> 0 <= n -> o + n <= iov_len v ->
  addrs (Iovec (u64 (iov_base v + o)) n) = sub (addrs v) o n.
Proof.
  intros (? & ? & ?) Ho Hn Hle. unfold addrs, sub. cbn [iov_base iov_len]. rewrite u_wrap_small by lia.
  replace (iov_len v) with (o + (n + (iov_len v - o - n))) by lia. rewrite !seqZ_app by lia.
  rewrite drop_app_length' by (rewrite length_seqZ; lia). by rewrite take_app_length' by (rewrite length_seqZ; lia).
Qed.

Definition conv_inv (src : list iovec) (dst_cnt max index0 p : Z) (s : conv_state) : Prop :=
  0 <= c_remain s <= max /\ Z.of_nat (length (c_dst s)) <= dst_cnt /\
  flat (addrs <$> c_dst s) = sub (flat (addrs <$> src)) p (max - c_remain s) /\
  Forall (fun v => 0 < iov_len v) (c_dst s) /\
  iter_at src (c_index s) (c_offset s) (p + (max - c_remain s)) /\
  (c_offset s = 0 \/ c_index s = index0 \/ c_remain s = 0).

Lemma conv_step_ok src dst_cnt max index0 p s : src_ok src -> 0 <= p -> max < 2 ^ 63 ->
  conv_inv src dst_cnt max index0 p s ->
  exists x, conv_step src dst_cnt index0 s = Some x /\
    match x with
    | inl s' => conv_inv src dst_cnt max index0 p s' /\
        0 <= (if c_remain s' =? 0 then 0 else Z.of_nat (length src) - c_index s' + 1) <
        (if c_remain s =? 0 then 0 else Z.of_nat (length src) - c_index s + 1)
    | inr s' => s' = s /\ (c_remain s = 0 \/ p + (max - c_remain s) = total (addrs <$> src) \/
                           Z.of_nat (length (c_dst s)) = dst_cnt)
    end.
Proof.
  intros [Hsrc [Ht Hc]] Hp Hmax. destruct s as [dst rem idx off]. unfold conv_inv, conv_step.
  cbn [c_dst c_remain c_index c_offset]. intros (Hrem & Hcnt & Hfl & Hne & Hit & Hix).
  destruct (Z.eqb_spec rem 0) as [->|Hr0].
  { cbn [negb]. rewrite andb_false_r. eexists (inr _). split; [done|]. split; [done|by left]. }
  destruct Hit as [(v & (Hi & item & Hitem & Ho & Hpp) & Hv & Hov)|(-> & -> & Hend)].
  2: { rewrite Z.ltb_irrefl. eexists (inr _). split; [done|]. split; [done|right; by left]. }
  rewrite list_lookup_fmap, Hv in Hitem. simpl in Hitem. injection Hitem as <-.
  pose proof (lookup_lt_Some _ _ _ Hv). rewrite (proj2 (Z.ltb_lt idx _)) by lia. cbn [andb negb].
  assert (iovec_ok v) as Hvok by (eapply Forall_lookup_1; done).
  pose proof (addrs_length v Hvok) as El. rewrite El in Ho.
  assert ((addrs <$> src) !! Z.to_nat idx = Some (addrs v)) as Hx by (rewrite list_lookup_fmap, Hv; done).
  pose proof (before_le _ _ _ Hi Hx) as Hbl. rewrite El in Hbl.
  destruct (Z.ltb_spec (Z.of_nat (length dst)) dst_cnt); cbn [andb].
  2: { eexists (inr _). split; [done|]. split; [done|right; right; lia]. }
  rewrite Hv. cbn [mbind option_bind]. unfold assert. rewrite (proj2 (Z.leb_le off _)) by lia. cbn [mbind option_bind].
  assert (forall q, q = before (addrs <$> src) idx + iov_len v -> iter_at src (idx + 1) 0 q) as Hnext.
  { intros q ->. rewrite <- El. destruct (next_or_end _ idx (addrs v) Hi Hx) as [Hn|[Hn1 Hn2]].
    - left. destruct Hn as (? & it & Hit & ?). rewrite list_lookup_fmap in Hit.
      destruct (src !! Z.to_nat (idx + 1)) as [w|] eqn:Ew; [|done]. exists w. split_and!; [|done|by left].
      split; [done|]. exists it. by rewrite list_lookup_fmap, Ew.
    - right. rewrite length_fmap in Hn1. done. }
  destruct (Z.eqb_spec (iov_len v - off) 0) as [Hz|Hz].
  { eexists (inl _). split; [done|]. cbn [c_dst c_remain c_index c_offset].
    split; [|rewrite (proj2 (Z.eqb_neq rem 0)) by done; lia].
    assert (off = 0) as -> by lia. split_and!; [lia|lia|lia|done|done|apply Hnext; lia|by left]. }
  assert (addrs (Iovec (u64 (iov_base v + off)) (Z.min (iov_len v - off) rem)) =
    sub (flat (addrs <$> src)) (p + (max - rem)) (Z.min (iov_len v - off) rem)) as Ha.
  { rewrite addrs_sub by (done || lia).
    pose proof (read_item (addrs <$> src) idx off (p + (max - rem)) (addrs v) (Z.min (iov_len v - off) rem) Hi Hx
      ltac:(lia) ltac:(lia) ltac:(lia) Hpp) as Hrd.
    unfold read in Hrd. rewrite !(proj2 (Z.leb_le _ _)) in Hrd by lia. simpl in Hrd. by injection Hrd. }
  set (c := Z.min _ _) in *. rewrite (proj2 (Z.leb_le c rem)) by lia. cbn [mbind option_bind].
  assert (flat (addrs <$> dst ++ [Iovec (u64 (iov_base v + off)) c]) =
    sub (flat (addrs <$> src)) p (max - (rem - c))) as Hfl'.
  { unfold flat in *. rewrite fmap_app, concat_app, Hfl. simpl. rewrite app_nil_r, Ha, sub_app by lia. f_equal. lia. }
  assert (Forall (fun v => 0 < iov_len v) (dst ++ [Iovec (u64 (iov_base v + off)) c])) as Hne'
    by (apply Forall_app; split; [done|]; constructor; [simpl; lia|done]).
  destruct (Z.ltb_spec rem (iov_len v - off)).
  - eexists (inl _). split; [done|]. cbn [c_dst c_remain c_index c_offset].
    rewrite (proj2 (Z.eqb_eq (rem - c) 0)) by lia. split; [|lia].
    split_and!; [lia|lia|rewrite length_app; simpl; lia|done|done| |right; right; lia].
    left. exists v. split_and!; [|done|lia]. split; [done|]. exists (addrs v). split_and!; [done|lia|lia|lia].
  - rewrite (proj2 (orb_true_iff _ _)) by (rewrite !Z.eqb_eq; destruct Hix as [?|[?|?]]; tauto || lia).
    cbn [mbind option_bind]. eexists (inl _). split; [done|]. cbn [c_dst c_remain c_index c_offset].
    split; [|case_match; lia].
    split_and!; [lia|lia|rewrite length_app; simpl; lia|done|done|apply Hnext; lia|by left].
Qed.

Lemma converter_ok src dst_cnt max i o p : src_ok src -> iter_at src i o p -> 0 <= max < 2 ^ 63 -> 0 <= dst_cnt ->
  exists dst n i' o', ucs_iov_converter src dst_cnt max i o = Some (dst, n, (i', o')) /\
    flat (addrs <$> dst) = sub (flat (addrs <$> src)) p n /\ Forall (fun v => 0 < iov_len v) dst /\
    iter_at src i' o' (p + n) /\ Z.of_nat (length dst) <= dst_cnt /\
    (n = max \/ 0 <= n <= max /\ (p + n = total (addrs <$> src) \/ Z.of_nat (length dst) = dst_cnt)).
Proof.
  intros Hsrc Hit Hmax Hcnt.
  assert (0 <= p) as Hp.
  { destruct Hit as [(v & (_ & it & _ & ? & ->) & _)|(_ & _ & ->)]; unfold before, total; lia. }
  destruct (while_ok (conv_step src dst_cnt i) (conv_inv src dst_cnt max i p)
    (fun s => conv_inv src dst_cnt max i p s /\ (c_remain s = 0 \/ p + (max - c_remain s) = total (addrs <$> src) \/
                           Z.of_nat (length (c_dst s)) = dst_cnt))
    (fun s => if c_remain s =? 0 then 0 else Z.of_nat (length src) - c_index s + 1)
    (ConvState [] max i o)) as (s & E & (Hrem & Hdc & Hfl & Hne & Hit' & _) & Hend).
  - intros s Hs. destruct (conv_step_ok src dst_cnt max i p s Hsrc Hp ltac:(lia) Hs) as (x & E & Hx).
    exists x. split; [done|]. destruct x; [done|]. by destruct Hx as [-> ?].
  - unfold conv_inv. cbn [c_dst c_remain c_index c_offset]. rewrite Z.sub_diag, Z.add_0_r.
    split_and!; [lia|lia|simpl; lia|done|done|done|by right; left].
  - cbn [c_remain c_index]. destruct Hsrc as [_ [_ Hc]]. rewrite length_fmap in Hc.
    destruct Hit as [(v & (? & _) & Hv & _)|(-> & _)]; [pose proof (lookup_lt_Some _ _ _ Hv)|]; case_match; lia.
  - exists (c_dst s), (max - c_remain s), (c_index s), (c_offset s). unfold ucs_iov_converter.
    rewrite (bind_eq _ _ _ E). unfold assert. rewrite (proj2 (Z.leb_le _ _)) by lia. split_and!; try done.
    destruct Hend as [?|[?|?]]; [left; lia|right; split; [lia|by left]|right; split; [lia|by right]].
Qed.

(** ** Copy and advance *)

(** The number of bytes that [ucs_iov_copy] moves. *)
Definition copy_len (iov : list (list Z)) (off max_copy : Z) : Z := Z.min max_copy (Z.max 0 (total iov - off)).

Lemma copy_len_nil off m : 0 <= off -> 0 <= m -> copy_len [] off m = 0.
Proof. unfold copy_len, total, flat. simpl. lia. Qed.

Lemma copy_len_cons x iov off m : 0 <= off <= Z.of_nat (length x) -> 0 <= m ->
  copy_len (x :: iov) off m =
  Z.min (Z.of_nat (length x) - off) m + copy_len iov 0 (m - Z.min (Z.of_nat (length x) - off) m).
Proof. intros. unfold copy_len, total, flat. simpl. rewrite length_app. lia. Qed.

Lemma copy_len_skip x iov off m : Z.of_nat (length x) <= off ->
  copy_len (x :: iov) off m = copy_len iov (off - Z.of_nat (length x)) m.
Proof. intros. unfold copy_len, total, flat. simpl. rewrite length_app. lia. Qed.

Lemma splice_app_r x l off d : Z.of_nat (length x) <= off ->
  splice (x ++ l) off d = x ++ splice l (off - Z.of_nat (length x)) d.
Proof.
  intros H. unfold splice. replace (Z.to_nat off) with (length x + Z.to_nat (off - Z.of_nat (length x)))%nat at 1 2 by lia.
  rewrite take_app_add, <- Nat.add_assoc, drop_app_add. by rewrite <- app_assoc.
Qed.

Lemma splice_app_l x l off d1 d2 : 0 <= off -> off + Z.of_nat (length d1) <= Z.of_nat (length x) ->
  (d2 <> [] -> off + Z.of_nat (length d1) = Z.of_nat (length x)) ->
  splice (x ++ l) off (d1 ++ d2) = splice x off d1 ++ splice l 0 d2.
Proof.
  intros H1 H2 H3. unfold splice. rewrite take_app_le by lia. rewrite <- !app_assoc. do 2 f_equal.
  change (Z.to_nat 0) with 0%nat. simpl. destruct d2 as [|y d2].
  - rewrite app_nil_r, drop_app_le by lia. done.
  - assert (off + Z.of_nat (length d1) = Z.of_nat (length x)) by (by apply H3).
    rewrite (drop_ge x) by lia. rewrite length_app, app_nil_l.
    replace (Z.to_nat off + (length d1 + length (y :: d2)))%nat with (length x + length (y :: d2))%nat by (simpl; lia).
    by rewrite drop_app_add.
Qed.

Lemma write_ok x off d : 0 <= off -> off + Z.of_nat (length d) <= Z.of_nat (length x) ->
  write x off d = Some (splice x off d).
Proof. intros. unfold write. by rewrite !(proj2 (Z.leb_le _ _)) by lia. Qed.

Lemma read_ok x off n : 0 <= off -> 0 <= n -> off + n <= Z.of_nat (length x) -> read x off n = Some (sub x off n).
Proof. intros. unfold read. by rewrite !(proj2 (Z.leb_le _ _)) by lia. Qed.

Lemma iov_copy_from_ok buf iov : forall off copied m, 0 <= off -> 0 <= m -> 0 <= copied ->
  copied + m <= Z.of_nat (length buf) ->
  exists iov', ucs_iov_copy_loop iov off buf copied m UCS_IOV_COPY_FROM_BUF = Some (iov', buf, copied + copy_len iov off m) /\
    same_shape iov iov' /\ flat iov' = splice (flat iov) off (sub buf copied (copy_len iov off m)).
Proof.
  induction iov as [|x iov IH]; intros off copied m Hoff Hm Hc Hb; cbn [ucs_iov_copy_loop].
  { exists []. rewrite copy_len_nil, Z.add_0_r by lia. split_and!; [done|done|]. unfold sub. simpl. by rewrite splice_nil. }
  destruct (Z.eqb_spec m 0) as [->|Hm0].
  { exists (x :: iov). replace (copy_len (x :: iov) off 0) with 0 by (unfold copy_len; lia).
    rewrite Z.add_0_r. split_and!; [done|done|]. unfold sub. simpl. by rewrite splice_nil. }
  destruct (Z.ltb_spec (Z.of_nat (length x)) off).
  - rewrite copy_len_skip by lia. destruct (IH (off - Z.of_nat (length x)) copied m ltac:(lia) Hm Hc Hb) as (iov' & E & Hsh & Hfl).
    rewrite (bind_eq _ _ _ E). exists (x :: iov'). split_and!; [done|by unfold same_shape in *; rewrite !fmap_cons, Hsh|].
    unfold flat in *. simpl. rewrite Hfl. by rewrite splice_app_r by lia.
  - rewrite copy_len_cons by lia. set (len := Z.min (Z.of_nat (length x) - off) m).
    rewrite (bind_eq _ _ _ (read_ok buf copied len ltac:(lia) ltac:(lia) ltac:(lia))).
    assert (length (sub buf copied len) = Z.to_nat len) as El by (apply sub_length; lia).
    rewrite (bind_eq _ _ _ (write_ok x off (sub buf copied len) ltac:(lia) ltac:(lia))). cbn [mbind option_bind].
    destruct (IH 0 (copied + len) (m - len) ltac:(lia) ltac:(lia) ltac:(lia) ltac:(lia)) as (iov' & E & Hsh & Hfl).
    rewrite (bind_eq _ _ _ E). eexists. split; [by rewrite Z.add_assoc|].
    split; [unfold same_shape in *; rewrite !fmap_cons, Hsh, splice_length; done || lia|].
    assert (0 <= copy_len iov 0 (m - len) <= m - len) by (unfold copy_len; lia).
    unfold flat in *. simpl. rewrite Hfl, <- sub_app by lia. symmetry. apply splice_app_l; [lia|lia|].
    intros Hne. rewrite El. destruct (decide (len = m)); [|lia]. exfalso. apply Hne.
    replace (copy_len iov 0 (m - len)) with 0 by lia. done.
Qed.

Lemma sub_flat_cons x iov off n n2 : 0 <= off -> 0 <= n -> 0 <= n2 -> off + n <= Z.of_nat (length x) ->
  (n2 <> 0 -> off + n = Z.of_nat (length x)) ->
  sub (flat (x :: iov)) off (n + n2) = sub x off n ++ sub (flat iov) 0 n2.
Proof.
  intros Ho Hn Hn2 Hle Heq. rewrite <- sub_app by lia. f_equal.
  - unfold sub, flat. simpl. rewrite drop_app_le by lia. rewrite take_app_le; [done|]. rewrite length_drop. lia.
  - unfold sub, flat. simpl. destruct (decide (n2 = 0)) as [->|]; [done|].
    replace (Z.to_nat (off + n)) with (length x) by lia. by rewrite drop_app_length.
Qed.

Lemma sub_flat_skip x iov off n : Z.of_nat (length x) <= off ->
  sub (flat (x :: iov)) off n = sub (flat iov) (off - Z.of_nat (length x)) n.
Proof.
  intros H. unfold sub, flat. simpl. rewrite drop_app_ge by lia. do 2 f_equal. lia.
Qed.

Lemma iov_copy_to_ok iov : forall buf off copied m, 0 <= off -> 0 <= m -> 0 <= copied ->
  copied + m <= Z.of_nat (length buf) ->
  ucs_iov_copy_loop iov off buf copied m UCS_IOV_COPY_TO_BUF =
    Some (iov, splice buf copied (sub (flat iov) off (copy_len iov off m)), copied + copy_len iov off m).
Proof.
  induction iov as [|x iov IH]; intros buf off copied m Hoff Hm Hc Hb; cbn [ucs_iov_copy_loop].
  { rewrite copy_len_nil, Z.add_0_r by lia. unfold sub. simpl. by rewrite splice_nil. }
  destruct (Z.eqb_spec m 0) as [->|Hm0].
  { replace (copy_len (x :: iov) off 0) with 0 by (unfold copy_len; lia).
    rewrite Z.add_0_r. unfold sub. simpl. by rewrite splice_nil. }
  destruct (Z.ltb_spec (Z.of_nat (length x)) off).
  - rewrite copy_len_skip, (bind_eq _ _ _ (IH buf (off - Z.of_nat (length x)) copied m ltac:(lia) Hm Hc Hb)) by lia.
    by rewrite sub_flat_skip by lia.
  - rewrite copy_len_cons by lia. set (len := Z.min (Z.of_nat (length x) - off) m).
    rewrite (bind_eq _ _ _ (read_ok x off len ltac:(lia) ltac:(lia) ltac:(lia))).
    assert (length (sub x off len) = Z.to_nat len) as El by (apply sub_length; lia).
    rewrite (bind_eq _ _ _ (write_ok buf copied (sub x off len) ltac:(lia) ltac:(lia))). cbn [mbind option_bind].
    rewrite (bind_eq _ _ _ (IH (splice buf copied (sub x off len)) 0 (copied + len) (m - len) ltac:(lia) ltac:(lia) ltac:(lia)
      ltac:(rewrite splice_length by lia; lia))).
    assert (0 <= copy_len iov 0 (m - len) <= m - len) by (unfold copy_len; lia).
    rewrite sub_flat_cons by lia. rewrite Z.add_assoc, <- splice_splice by lia.
    do 3 f_equal. rewrite El. f_equal. lia.
Qed.

Lemma drop_addrs v n : iovec_ok v -> 0 <= n <= iov_len v ->
  addrs (Iovec (u64 (iov_base v + n)) (iov_len v - n)) = drop (Z.to_nat n) (addrs v).
Proof.
  intros (? & ? & ?) Hn. unfold addrs. cbn [iov_base iov_len]. rewrite u_wrap_small by lia.
  replace (iov_len v) with (n + (iov_len v - n)) at 2 by lia. rewrite seqZ_app by lia.
  by rewrite drop_app_length' by (rewrite length_seqZ; lia).
Qed.

(** [ucs_iov_advance] drops the first [consumed] bytes of the remaining entries. *)
Lemma advance_loop_ok iov : forall consumed i, Forall iovec_ok iov -> 0 <= consumed <= total (addrs <$> iov) ->
  exists iov' idx, ucs_iov_advance_loop iov consumed i = Some (iov', idx) /\ length iov' = length iov /\
    flat (addrs <$> iov') = drop (Z.to_nat consumed) (flat (addrs <$> iov)).
Proof.
  induction iov as [|v iov IH]; intros consumed i Hok Hc; cbn [ucs_iov_advance_loop].
  { unfold total in Hc. simpl in Hc. assert (consumed = 0) as -> by lia. by exists [], None. }
  apply Forall_cons in Hok as [Hv Hok]. pose proof (addrs_length v Hv) as El.
  assert (total (addrs <$> v :: iov) = iov_len v + total (addrs <$> iov)) as Et
    by (rewrite fmap_cons; unfold total, flat; cbn [concat]; rewrite length_app; lia).
  destruct (Z.ltb_spec consumed (iov_len v)).
  - eexists _, _. split; [done|]. split; [done|]. unfold flat. rewrite !fmap_cons. cbn [concat].
    rewrite drop_addrs by (done || lia). by rewrite drop_app_le by lia.
  - destruct (IH (consumed - iov_len v) (i + 1) Hok ltac:(lia)) as (iov' & idx & E & Hl & Hfl).
    rewrite (bind_eq _ _ _ E). eexists _, _. split; [done|]. split; [by simpl; rewrite Hl|].
    unfold flat in *. rewrite !fmap_cons. cbn [concat]. change (addrs (Iovec _ 0)) with (@nil Z).
    rewrite app_nil_l, Hfl, drop_app_ge by lia. f_equal. lia.
Qed.

(** ** Properties *)

(** Unpacking into an IOV and packing it again gives the data back.  From a
    position of the IOV with enough room behind it, scatter stores all of the
    data, changes no other byte and no entry length, and moves the position
    behind the data; gather from the same position returns the data and moves
    the position to the same byte. *)
Theorem iov_scatter_gather iov src i o p :
  fits iov -> at_pos iov i o p -> p + Z.of_nat (length src) <= total iov ->
  exists s i' o', ucp_dt_iov_scatter iov src (Z.of_nat (length src)) o i = Some s /\
    s_length_it s = Z.of_nat (length src) /\ same_shape iov (s_iov s) /\
    flat (s_iov s) = splice (flat iov) p src /\
    at_pos iov (s_index s) (s_offset s) (p + Z.of_nat (length src)) /\
    ucp_dt_iov_gather (s_iov s) (Z.of_nat (length src)) o i = Some (src, o', i') /\
    at_pos iov i' o' (p + Z.of_nat (length src)).
Proof.
  intros Hf Hpos Hle. assert (0 <= p) as Hp by (destruct Hpos as (_ & it & _ & ? & ->); unfold before; lia).
  destruct (scatter_ok iov src (Z.of_nat (length src)) i o p Hf Hpos ltac:(lia)) as (s & E & El & Hsh & Hfl & Hp');
    [destruct Hf; lia|]. rewrite El, Z.min_l, Nat2Z.id, firstn_all in Hfl by lia.
  assert (at_pos (s_iov s) i o p) as Hpos' by (by apply (shape_pos (s_iov s) iov)).
  assert (fits (s_iov s)) as Hf' by (unfold fits; rewrite (shape_total _ _ Hsh), (shape_len _ _ Hsh); done).
  destruct (gather_ok (s_iov s) (Z.of_nat (length src)) i o p Hf' Hpos' ltac:(lia)) as (i' & o' & Eg & Hg);
    [by rewrite (shape_total _ _ Hsh)|].
  exists s, i', o'. split_and!; [done|lia|done|done|by apply Hp'| |by apply (shape_pos iov (s_iov s))].
  rewrite Eg, Hfl, sub_splice by (unfold total in *; lia). done.
Qed.

Definition sample_iov : list (list Z) := [[1; 2; 3]; []; [4; 5]; [6; 7; 8; 9]].

Lemma iov_scatter_gather_witness : exists s i' o',
  ucp_dt_iov_scatter sample_iov [20; 21; 22; 23] 4 2 0 = Some s /\
  flat (s_iov s) = [1; 2; 20; 21; 22; 23; 7; 8; 9] /\
  ucp_dt_iov_gather (s_iov s) 4 2 0 = Some ([20; 21; 22; 23], o', i').
Proof.
  destruct (iov_scatter_gather sample_iov [20; 21; 22; 23] 0 2 2) as (s & i' & o' & E & _ & _ & Hf & _ & Hg & _);
    [by split; vm_compute|split; [lia|by eexists; vm_compute]|by vm_compute|].
  exists s, i', o'. split; [exact E|]. split; [exact Hf|exact Hg].
Defined.

(** The IOV converter produces a prefix of the remaining memory.  From an
    iterator at byte [p] of the source, the destination entries cover exactly
    the next [n] bytes, in order and with no empty entry, there are at most
    [dst_cnt] of them, and the iterator ends at byte [p + n]; [n] is the
    requested length unless the source or the destination entries ran out. *)
Theorem iov_converter_exact src dst_cnt max i o p :
  src_ok src -> iter_at src i o p -> 0 <= max < 2 ^ 63 -> 0 <= dst_cnt ->
  exists dst n i' o', ucs_iov_converter src dst_cnt max i o = Some (dst, n, (i', o')) /\
    flat (addrs <$> dst) = sub (flat (addrs <$> src)) p n /\ Forall (fun v => 0 < iov_len v) dst /\
    iter_at src i' o' (p + n) /\ Z.of_nat (length dst) <= dst_cnt /\
    (n = max \/ 0 <= n <= max /\ (p + n = total (addrs <$> src) \/ Z.of_nat (length dst) = dst_cnt)).
Proof. apply converter_ok. Qed.

Lemma iov_converter_exact_witness : exists dst n i' o',
  ucs_iov_converter [Iovec 100 3; Iovec 200 0; Iovec 300 5] 4 4 0 1 = Some (dst, n, (i', o')) /\
  flat (addrs <$> dst) = sub (flat (addrs <$> [Iovec 100 3; Iovec 200 0; Iovec 300 5])) 1 n.
Proof.
  destruct (iov_converter_exact [Iovec 100 3; Iovec 200 0; Iovec 300 5] 4 4 0 1 1) as (dst & n & i' & o' & E & Hf & _);
    [|left; exists (Iovec 100 3); split_and!; [split; [lia|by eexists; vm_compute]|done|by right]|lia|lia|].
  - split; [by repeat constructor|by split; vm_compute].
  - exists dst, n, i', o'. split; [exact E|exact Hf].
Defined.

(** Copying a buffer into a system IOV and back returns the bytes that fit.
    [ucs_iov_copy] from the buffer stores as many bytes as the IOV has behind
    the offset, in order, and leaves the rest of the IOV alone; copying the
    other way from the same offset puts the same bytes at the start of the
    buffer. *)
Theorem iov_copy_roundtrip iov off buf buf2 :
  0 <= off -> length buf2 = length buf ->
  exists iov' n, ucs_iov_copy iov off buf (Z.of_nat (length buf)) UCS_IOV_COPY_FROM_BUF = Some (iov', buf, n) /\
    n = Z.min (Z.of_nat (length buf)) (Z.max 0 (total iov - off)) /\ same_shape iov iov' /\
    flat iov' = splice (flat iov) off (take (Z.to_nat n) buf) /\
    ucs_iov_copy iov' off buf2 (Z.of_nat (length buf)) UCS_IOV_COPY_TO_BUF =
      Some (iov', take (Z.to_nat n) buf ++ drop (Z.to_nat n) buf2, n).
Proof.
  intros Ho El. unfold ucs_iov_copy.
  destruct (iov_copy_from_ok buf iov off 0 (Z.of_nat (length buf)) Ho ltac:(lia) ltac:(lia) ltac:(lia)) as (iov' & E & Hsh & Hfl).
  exists iov', (copy_len iov off (Z.of_nat (length buf))). rewrite Z.add_0_l in E. split_and!; [done|done|done|done|].
  rewrite iov_copy_to_ok by lia. rewrite Z.add_0_l, Hfl.
  assert (copy_len iov' off (Z.of_nat (length buf)) = copy_len iov off (Z.of_nat (length buf))) as ->
    by (unfold copy_len; by rewrite (shape_total _ _ Hsh)).
  set (n := copy_len _ _ _). assert (0 <= n <= Z.of_nat (length buf)) by (unfold n, copy_len; lia).
  assert (length (sub buf 0 n) = Z.to_nat n) as Es by (apply sub_length; lia).
  destruct (decide (n = 0)) as [->|]; [by rewrite splice_nil|].
  assert (sub (splice (flat iov) off (sub buf 0 n)) off n = sub buf 0 n) as ->.
  { replace n with (Z.of_nat (length (sub buf 0 n))) at 2 by lia. apply sub_splice; [done|].
    unfold n, copy_len, total in *. lia. }
  unfold splice. change (Z.to_nat 0) with 0%nat. by rewrite Es.
Qed.

Lemma iov_copy_roundtrip_witness : exists iov' n,
  ucs_iov_copy sample_iov 4 [20; 21; 22] 3 UCS_IOV_COPY_FROM_BUF = Some (iov', [20; 21; 22], n) /\
  ucs_iov_copy iov' 4 [0; 0; 0] 3 UCS_IOV_COPY_TO_BUF = Some (iov', [20; 21; 22], n).
Proof.
  destruct (iov_copy_roundtrip sample_iov 4 [20; 21; 22] [0; 0; 0]) as (iov' & n & E1 & En & _ & _ & E2); [lia|done|].
  exists iov', n. split; [exact E1|]. rewrite En in E2 |- *. exact E2.
Defined.

End Iov.
