(* ===== verification/TagEager.v ===== *)
(** Eager tag messages: data and fragments.

    Models the data path of [ucp/tag/eager_rcv.c], [ucp/tag/tag_recv.c] and
    [ucp/tag/tag_match.c] / [.inl] for messages that are not offloaded, with the
    unpacking of [ucp/core/ucp_request.inl] and [ucp/dt/dt.inl]: a message of one
    or of several fragments is matched by [TagMatch] and stored in the buffer of
    its request, which is contiguous or an IOV.  The fragment hash is a map from
    message identifiers.  [None] is a failed assertion. *)

From S2P Require Import Prelude.
From S2P Require Import Iov.
From S2P Require Import TagMatch.

Module TagEager.

#[local] Existing Instances TagMatch.rdesc_match_dec TagMatch.p_match_dec.

(** ** Data *)

(** A receive buffer; for an IOV with the state of the datatype. *)
Inductive recv_buffer :=
| Contig (buf : list Z)
| IovBuf (iov : list (list Z)) (offset iov_offset iovcnt_offset : Z).

(** The receive fields of a request. *)
Record recv_req := RecvReq {
  rr_buffer : recv_buffer;
  rr_length : Z;
  rr_remaining : Z;
  rr_status : ucs_status_t;
  rr_sender_tag : Z;
  rr_info_length : Z;
  rr_completed : bool
}.

(** [ucp_tag_frag_match_t]: the union is told apart by [unexp_q.ptail]. *)
Inductive ucp_tag_frag_match_t :=
| UnexpQ (q : list (Z * list Z))     (* offset and payload of the fragments *)
| ExpReq (id : Z).

Record worker := Worker {
  w_tm : TagMatch.ucp_tag_match_t;
  w_frag_hash : gmap Z ucp_tag_frag_match_t;
  w_reqs : gmap Z recv_req
}.

Definition set_buffer (rr : recv_req) (b : recv_buffer) : recv_req :=
  RecvReq b (rr_length rr) (rr_remaining rr) (rr_status rr) (rr_sender_tag rr) (rr_info_length rr) (rr_completed rr).

Definition set_status (rr : recv_req) (st : ucs_status_t) : recv_req :=
  RecvReq (rr_buffer rr) (rr_length rr) (rr_remaining rr) st (rr_sender_tag rr) (rr_info_length rr) (rr_completed rr).

Definition set_remaining (rr : recv_req) (n : Z) : recv_req :=
  RecvReq (rr_buffer rr) (rr_length rr) n (rr_status rr) (rr_sender_tag rr) (rr_info_length rr) (rr_completed rr).

Definition set_info (rr : recv_req) (tag len : Z) : recv_req :=
  RecvReq (rr_buffer rr) (rr_length rr) (rr_remaining rr) (rr_status rr) tag len (rr_completed rr).

(** ** Unpacking *)

(** [ucp_request_recv_data_unpack], for contiguous and IOV datatypes. *)
Definition ucp_request_recv_data_unpack (rr : recv_req) (data : list Z) (offset : Z) : option (ucs_status_t * recv_req) :=
  let len := Z.of_nat (length data) in
  _ ← assert (bool_decide (rr_status rr = UCS_OK));
  if rr_length rr <? len + offset then Some (UCS_ERR_MESSAGE_TRUNCATED, rr)
  else
    match rr_buffer rr with
    | Contig buf =>
        buf ← Iov.write buf offset data;
        Some (UCS_OK, set_buffer rr (Contig buf))
    | IovBuf iov state_offset iov_offset iovcnt_offset =>
        '(iov_offset, iovcnt_offset) ←
          (if negb (offset =? state_offset)
           then Iov.ucp_dt_iov_seek iov (offset - state_offset) iov_offset iovcnt_offset
           else Some (iov_offset, iovcnt_offset));
        s ← Iov.ucp_dt_iov_scatter iov data len iov_offset iovcnt_offset;
        Some (UCS_OK, set_buffer rr (IovBuf (Iov.s_iov s) (offset + len) (Iov.s_offset s) (Iov.s_index s)))
    end.

(** [ucp_dt_unpack_only], with truncation. *)
Definition ucp_dt_unpack_only (b : recv_buffer) (data : list Z) : option (ucs_status_t * recv_buffer) :=
  let len := Z.of_nat (length data) in
  match b with
  | Contig buf =>
      if Z.of_nat (length buf) <? len then Some (UCS_ERR_MESSAGE_TRUNCATED, b)
      else buf ← Iov.write buf 0 data; Some (UCS_OK, Contig buf)
  | IovBuf iov offset iov_offset iovcnt_offset =>
      if Iov.ucp_dt_iov_length iov <? len then Some (UCS_ERR_MESSAGE_TRUNCATED, b)
      else s ← Iov.ucp_dt_iov_scatter iov data len 0 0;
           Some (UCS_OK, IovBuf (Iov.s_iov s) offset iov_offset iovcnt_offset)
  end.

(** [ucp_dt_recv_state_init] and [ucp_dt_length]: a new receive request. *)
Definition recv_buffer_length (b : recv_buffer) : Z :=
  match b with
  | Contig buf => Z.of_nat (length buf)
  | IovBuf iov _ _ _ => Iov.ucp_dt_iov_length iov
  end.

Definition ucp_dt_recv_state_init (b : recv_buffer) : recv_buffer :=
  match b with
  | Contig buf => Contig buf
  | IovBuf iov _ _ _ => IovBuf iov 0 0 0
  end.

Definition recv_req_init (b : recv_buffer) : recv_req :=
  RecvReq (ucp_dt_recv_state_init b) (recv_buffer_length b) 0 UCS_OK 0 0 false.

(** ** Completion *)

Definition ucp_request_complete_tag_recv (rr : recv_req) (st : ucs_status_t) : option recv_req :=
  _ ← assert (negb (rr_completed rr));
  _ ← assert (bool_decide (st <> UCS_INPROGRESS));
  Some (RecvReq (rr_buffer rr) (rr_length rr) (rr_remaining rr) st (rr_sender_tag rr) (rr_info_length rr) true).

Definition ucp_request_process_recv_data (rr : recv_req) (data : list Z) (offset : Z) : option (ucs_status_t * recv_req) :=
  let len := Z.of_nat (length data) in
  let last := rr_remaining rr =? len in
  rr ← (if decide (rr_status rr = UCS_OK) then
          '(st, rr) ← ucp_request_recv_data_unpack rr data offset; Some (set_status rr st)
        else Some rr);
  _ ← assert (len <=? rr_remaining rr);
  let rr := set_remaining rr (rr_remaining rr - len) in
  if negb last then Some (UCS_INPROGRESS, rr)
  else
    let st := rr_status rr in
    rr ← ucp_request_complete_tag_recv rr st;
    _ ← assert (bool_decide (st <> UCS_INPROGRESS));
    Some (st, rr).

(** ** Fragments *)

Definition ucp_tag_frag_match_is_unexp (m : ucp_tag_frag_match_t) : bool :=
  match m with UnexpQ _ => true | ExpReq _ => false end.

(** The loop of [ucp_tag_frag_list_process_common]: extract while in progress. *)
Fixpoint process_queue (rr : recv_req) (q : list (Z * list Z)) (status : ucs_status_t) :
  option (ucs_status_t * recv_req * list (Z * list Z)) :=
  match q with
  | [] => Some (status, rr, [])
  | (offset, data) :: q =>
      if decide (status = UCS_INPROGRESS) then
        '(status, rr) ← ucp_request_process_recv_data rr data offset;
        process_queue rr q status
      else Some (status, rr, (offset, data) :: q)
  end.

Definition ucp_tag_frag_list_process_common (rr : recv_req) (m : ucp_tag_frag_match_t) :
  option (ucs_status_t * recv_req) :=
  match m with
  | ExpReq _ => None
  | UnexpQ q =>
      '(status, rr, q) ← process_queue rr q UCS_INPROGRESS;
      _ ← assert (bool_decide (q = []));
      Some (status, rr)
  end.

Definition set_frag (w : worker) (h : gmap Z ucp_tag_frag_match_t) : worker := Worker (w_tm w) h (w_reqs w).
Definition set_req (w : worker) (id : Z) (rr : recv_req) : worker := Worker (w_tm w) (w_frag_hash w) (<[id := rr]> (w_reqs w)).
Definition set_tm (w : worker) (tm : TagMatch.ucp_tag_match_t) : worker := Worker tm (w_frag_hash w) (w_reqs w).

Definition ucp_tag_frag_list_process_queue (w : worker) (id msg_id : Z) : option worker :=
  let put w := Some (set_frag w (<[msg_id := ExpReq id]> (w_frag_hash w))) in
  match w_frag_hash w !! msg_id with
  | None => put w
  | Some matchq =>
      rr ← w_reqs w !! id;
      '(status, rr) ← ucp_tag_frag_list_process_common rr matchq;
      let w := set_req w id rr in
      if decide (status <> UCS_INPROGRESS) then Some (set_frag w (delete msg_id (w_frag_hash w))) else put w
  end.

(** The first fragment of a message meets its request: the common part of
    [ucp_eager_tagged_handler] and [ucp_tag_recv_eager_multi]. *)
Definition recv_first (w : worker) (id tag total_len msg_id : Z) (data : list Z) : option worker :=
  rr ← w_reqs w !! id;
  let rr := set_remaining (set_info rr tag total_len) total_len in
  '(status, rr) ← ucp_request_process_recv_data rr data 0;
  let w := set_req w id rr in
  if decide (status = UCS_INPROGRESS) then ucp_tag_frag_list_process_queue w id msg_id else Some w.

(** [ucp_eager_middle_handler]; [init_status] is the result of
    [ucp_recv_desc_init] when the fragment has to be kept.  The last assertion
    reads the entry also after it was deleted from the hash. *)
Definition ucp_eager_middle_handler (w : worker) (msg_id offset : Z) (data : list Z) (init_status : ucs_status_t) :
  option (ucs_status_t * worker) :=
  let is_new := bool_decide (w_frag_hash w !! msg_id = None) in
  let matchq := default (UnexpQ []) (w_frag_hash w !! msg_id) in
  let put m := <[msg_id := m]> (w_frag_hash w) in
  '(status, matchq, w) ←
    match matchq with
    | UnexpQ q =>
        if decide (init_status = UCS_OK \/ init_status = UCS_INPROGRESS) then
          let matchq := UnexpQ (q ++ [(offset, data)]) in
          Some (init_status, matchq, set_frag w (put matchq))
        else if bool_decide (q = []) then Some (init_status, matchq, set_frag w (delete msg_id (put matchq)))
        else Some (init_status, matchq, set_frag w (put matchq))
    | ExpReq id =>
        _ ← assert (negb is_new);
        rr ← w_reqs w !! id;
        '(status, rr) ← ucp_request_process_recv_data rr data offset;
        let w := set_req w id rr in
        Some (UCS_OK, matchq,
              if decide (status <> UCS_INPROGRESS) then set_frag w (delete msg_id (w_frag_hash w)) else w)
    end;
  _ ← assert (match matchq with UnexpQ q => bool_decide (q <> []) | ExpReq _ => true end);
  Some (status, w).

(** ** Handlers *)

(** [ucp_eager_tagged_handler], for a message of one fragment and for the first
    fragment of a longer one. *)
Definition ucp_eager_tagged_handler (w : worker) (rd : TagMatch.ucp_recv_desc_t) (init_status : ucs_status_t) :
  option (ucs_status_t * worker) :=
  '(req, tm) ← TagMatch.ucp_tag_exp_search (w_tm w) (TagMatch.rd_tag rd);
  let w := set_tm w tm in
  match req with
  | Some req =>
      let id := TagMatch.req_id req in
      match TagMatch.rd_kind rd with
      | TagMatch.EagerOnly =>
          rr ← w_reqs w !! id;
          let rr := set_info rr (TagMatch.rd_tag rd) (Z.of_nat (length (TagMatch.rd_payload rd))) in
          '(status, rr) ← ucp_request_recv_data_unpack rr (TagMatch.rd_payload rd) 0;
          rr ← ucp_request_complete_tag_recv rr status;
          Some (UCS_OK, set_req w id rr)
      | TagMatch.EagerMulti total_len msg_id _ =>
          w ← recv_first w id (TagMatch.rd_tag rd) total_len msg_id (TagMatch.rd_payload rd);
          Some (UCS_OK, w)
      | TagMatch.Rndv _ => None
      end
  | None =>
      if decide (init_status = UCS_OK \/ init_status = UCS_INPROGRESS) then
        tm ← TagMatch.ucp_tag_unexp_recv (w_tm w) rd (TagMatch.rd_tag rd);
        Some (init_status, set_tm w tm)
      else Some (init_status, w)
  end.

(** [ucp_tag_recv_nbx] without special attributes, with the receive request [id]
    of buffer [b]: the result tells how a rendezvous message is to be received. *)
Definition ucp_tag_recv_nbx (env : TagMatch.offload_env) (w : worker) (tag tag_mask id : Z) (b : recv_buffer) :
  option (option TagMatch.ucp_recv_desc_t * worker) :=
  let contig := match b with Contig _ => true | IovBuf _ _ _ _ => false end in
  '(res, tm) ← TagMatch.ucp_tag_recv_nbx env (w_tm w) tag tag_mask id (recv_buffer_length b) contig
                 (TagMatch.RecvParam false UCS_OK);
  let w := set_req (set_tm w tm) id (recv_req_init b) in
  match res with
  | TagMatch.RecvExpected => Some (None, w)
  | TagMatch.RecvError _ => None
  | TagMatch.RecvMatched rd =>
      match TagMatch.rd_kind rd with
      | TagMatch.EagerOnly =>
          let rr := set_info (recv_req_init b) (TagMatch.rd_tag rd) (Z.of_nat (length (TagMatch.rd_payload rd))) in
          '(status, b) ← ucp_dt_unpack_only (rr_buffer rr) (TagMatch.rd_payload rd);
          rr ← ucp_request_complete_tag_recv (set_buffer rr b) status;
          Some (None, set_req w id rr)
      | TagMatch.EagerMulti total_len msg_id _ =>
          w ← recv_first w id (TagMatch.rd_tag rd) total_len msg_id (TagMatch.rd_payload rd);
          Some (None, w)
      | TagMatch.Rndv _ => Some (Some rd, w)
      end
  end.

(** ** Messages and events *)

(** A message of several fragments: the first, and the middle ones with their offsets. *)
Record message := Message { m_data : list Z; m_first : list Z; m_middle : list (Z * list Z) }.

Definition m_total (m : message) : Z := Z.of_nat (length (m_data m)).

Definition frag_len (f : Z * list Z) : Z := Z.of_nat (length f.2).

Definition sum_len (fs : list (Z * list Z)) : Z := foldr (fun f n => frag_len f + n) 0 fs.

(** The fragment [f] covers the byte [i]. *)
Definition covers (f : Z * list Z) (i : Z) : Prop := f.1 <= i < f.1 + frag_len f.

(** The fragments are non-empty pieces of the data and together all of it. *)
Record message_ok (m : message) : Prop := {
  mo_total : m_total m < 2 ^ 63;
  mo_frags : forall f, f ∈ (0, m_first m) :: m_middle m ->
    0 <= f.1 /\ 0 < frag_len f /\ f.1 + frag_len f <= m_total m /\ f.2 = Iov.sub (m_data m) f.1 (frag_len f);
  mo_sum : sum_len ((0, m_first m) :: m_middle m) = m_total m;
  mo_cover : forall i, 0 <= i < m_total m -> exists f, f ∈ (0, m_first m) :: m_middle m /\ covers f i;
  mo_nodup : NoDup (m_middle m)
}.

(** The first fragment of message [k] meets the request [id], or a middle
    fragment of message [k] arrives. *)
Inductive event :=
| EvFirst (k id tag : Z)
| EvMiddle (k : Z) (f : Z * list Z).

Definition run_event (msgs : gmap Z message) (w : worker) (e : event) : option worker :=
  match e with
  | EvFirst k id tag => m ← msgs !! k; recv_first w id tag (m_total m) k (m_first m)
  | EvMiddle k f => snd <$> ucp_eager_middle_handler w k f.1 f.2 UCS_OK
  end.

Fixpoint run_events (msgs : gmap Z message) (w : worker) (es : list event) : option worker :=
  match es with
  | [] => Some w
  | e :: es => w ← run_event msgs w e; run_events msgs w es
  end.

(** The middle fragments of message [k] that arrived, and its request. *)
Definition delivered (k : Z) (es : list event) : list (Z * list Z) :=
  omap (fun e => match e with EvMiddle k' f => if decide (k' = k) then Some f else None | _ => None end) es.

Definition matched (k : Z) (es : list event) : list Z :=
  omap (fun e => match e with EvFirst k' id _ => if decide (k' = k) then Some id else None | _ => None end) es.

(** The bytes of a buffer. *)
Definition content (b : recv_buffer) : list Z :=
  match b with Contig buf => buf | IovBuf iov _ _ _ => Iov.flat iov end.

Definition buffer_ok (b : recv_buffer) : Prop :=
  match b with
  | Contig _ => True
  | IovBuf iov offset iov_offset iovcnt_offset =>
      Iov.fits iov /\ (iov = [] \/ Iov.at_pos iov iovcnt_offset iov_offset offset)
  end.

(** A request that waits for its message. *)
Definition fresh_req (rr : recv_req) : Prop :=
  rr_completed rr = false /\ rr_status rr = UCS_OK /\ buffer_ok (rr_buffer rr) /\
  rr_length rr = Z.of_nat (length (content (rr_buffer rr))) /\ rr_length rr < 2 ^ 63.

(** Every fragment arrives at most once, and a message meets at most one request. *)
Record valid_events (msgs : gmap Z message) (w : worker) (es : list event) : Prop := {
  ve_nodup : NoDup es;
  ve_middle : forall k f, EvMiddle k f ∈ es -> exists m, msgs !! k = Some m /\ f ∈ m_middle m;
  ve_first : forall k id tag, EvFirst k id tag ∈ es ->
    is_Some (msgs !! k) /\ exists rr, w_reqs w !! id = Some rr /\ fresh_req rr;
  ve_unique : forall k id tag k' id' tag', EvFirst k id tag ∈ es -> EvFirst k' id' tag' ∈ es ->
    (k = k' \/ id = id') -> EvFirst k id tag = EvFirst k' id' tag'
}.

(** What the request holds after the fragments [ws] were stored in it. *)
Definition fits_in (len : Z) (f : Z * list Z) : bool := f.1 + frag_len f <=? len.

Definition req_inv (m : message) (ws : list (Z * list Z)) (rr0 rr : recv_req) : Prop :=
  rr_length rr = rr_length rr0 /\ buffer_ok (rr_buffer rr) /\
  rr_length rr = Z.of_nat (length (content (rr_buffer rr))) /\
  rr_remaining rr = m_total m - sum_len ws /\
  rr_completed rr = (sum_len ws =? m_total m) /\
  rr_status rr = (if forallb (fits_in (rr_length rr0)) ws then UCS_OK else UCS_ERR_MESSAGE_TRUNCATED) /\
  (forallb (fits_in (rr_length rr0)) ws = true ->
   content (rr_buffer rr) = fold_left (fun c f => Iov.splice c f.1 f.2) ws (content (rr_buffer rr0))).

(** The invariant of message [k] after the events [es] from [w0]. *)
Definition msg_inv (w0 w : worker) (k : Z) (m : message) (es : list event) : Prop :=
  match matched k es with
  | [] => w_frag_hash w !! k = (if decide (delivered k es = []) then None else Some (UnexpQ (delivered k es)))
  | id :: _ =>
      exists rr0 rr, w_reqs w0 !! id = Some rr0 /\ w_reqs w !! id = Some rr /\
        req_inv m ((0, m_first m) :: delivered k es) rr0 rr /\
        w_frag_hash w !! k =
          (if decide (sum_len ((0, m_first m) :: delivered k es) = m_total m) then None else Some (ExpReq id))
  end.

Definition worker_inv (msgs : gmap Z message) (w0 w : worker) (es : list event) : Prop :=
  (forall k m, msgs !! k = Some m -> msg_inv w0 w k m es) /\
  (forall id, (forall k tag, EvFirst k id tag ∉ es) -> w_reqs w !! id = w_reqs w0 !! id).

(** ** Unpacking *)

Lemma unpack_ok rr data offset : rr_status rr = UCS_OK -> buffer_ok (rr_buffer rr) ->
  rr_length rr = Z.of_nat (length (content (rr_buffer rr))) -> rr_length rr < 2 ^ 63 -> 0 <= offset -> 0 < Z.of_nat (length data) ->
  offset + Z.of_nat (length data) <= rr_length rr ->
  exists b', ucp_request_recv_data_unpack rr data offset = Some (UCS_OK, set_buffer rr b') /\ buffer_ok b' /\
    content b' = Iov.splice (content (rr_buffer rr)) offset data.
Proof.
  intros Hst Hb Hl Hmax Ho Hd Hfit. unfold ucp_request_recv_data_unpack. rewrite bool_decide_true by done.
  cbn [assert mbind option_bind]. rewrite (proj2 (Z.ltb_ge _ _)) by lia.
  destruct (rr_buffer rr) as [buf|iov so o i]; cbn [content buffer_ok] in *.
  - rewrite (bind_eq _ _ _ (Iov.write_ok buf offset data Ho ltac:(lia))). by exists (Contig (Iov.splice buf offset data)).
  - destruct Hb as [Hf Hpos]. destruct Hpos as [->|Hpos]; [simpl in *; lia|].
    assert (exists i' o', (if negb (offset =? so) then Iov.ucp_dt_iov_seek iov (offset - so) o i else Some (o, i)) =
      Some (o', i') /\ Iov.at_pos iov i' o' offset) as (i' & o' & E & Hpos').
    { destruct (Z.eqb_spec offset so) as [->|]; cbn [negb]; [by exists i, o|].
      destruct (Iov.seek_ok iov (offset - so) i o so Hf Hpos) as (i' & o' & E & H); [unfold Iov.total; lia|].
      exists i', o'. split; [done|]. by replace offset with (so + (offset - so)) by lia. }
    rewrite (bind_eq _ _ _ E).
    destruct (Iov.scatter_ok iov data (Z.of_nat (length data)) i' o' offset Hf Hpos' ltac:(lia) ltac:(lia)) as
      (s & Es & El & Hsh & Hfl & Hp). rewrite (bind_eq _ _ _ Es). eexists. split; [done|].
    unfold Iov.total in *. cbn [content buffer_ok]. split.
    + split; [unfold Iov.fits; rewrite (Iov.shape_total _ _ Hsh), (Iov.shape_len _ _ Hsh); done|].
      right. apply (Iov.shape_pos _ iov (Iov.s_index s)); [by symmetry|]. apply Hp. lia.
    + rewrite Hfl, El, Z.min_l, Nat2Z.id, firstn_all by lia. done.
Qed.

(** ** One fragment *)

Lemma sum_len_app l k : sum_len (l ++ k) = sum_len l + sum_len k.
Proof. unfold sum_len. induction l as [|f l IH]; simpl; lia. Qed.

(** A fragment that may be stored in a message of [total] bytes. *)
Definition frag_ok (total : Z) (f : Z * list Z) : Prop :=
  0 <= f.1 /\ 0 < frag_len f /\ f.1 + frag_len f <= total.

Lemma sum_len_pos total l : Forall (frag_ok total) l -> 0 <= sum_len l /\ (sum_len l = 0 -> l = []).
Proof.
  induction 1 as [|f l (_ & Hf & _) _ [IH _]]; [done|]. simpl. split; [lia|]. intros. lia.
Qed.

Lemma fold_splice_length ws : forall c, forallb (fits_in (Z.of_nat (length c))) ws = true ->
  Forall (fun f => 0 <= f.1) ws -> length (fold_left (fun c f => Iov.splice c f.1 f.2) ws c) = length c.
Proof.
  induction ws as [|f ws IH]; intros c Hfit Hpos; simpl in *; [done|]. apply andb_true_iff in Hfit as [Hf Hfit].
  apply Forall_cons in Hpos as [H0 Hpos]. unfold fits_in, frag_len in Hf. zbool_hyps.
  assert (length (Iov.splice c f.1 f.2) = length c) as El by (apply Iov.splice_length; lia).
  rewrite IH, El; [done|by rewrite El|done].
Qed.

Lemma process_ok m ws rr0 rr f : req_inv m ws rr0 rr -> rr_length rr0 < 2 ^ 63 -> frag_ok (m_total m) f ->
  sum_len ws < m_total m -> sum_len (ws ++ [f]) <= m_total m ->
  exists st rr', ucp_request_process_recv_data rr f.2 f.1 = Some (st, rr') /\ req_inv m (ws ++ [f]) rr0 rr' /\
    (st = UCS_INPROGRESS <-> sum_len (ws ++ [f]) <> m_total m).
Proof.
  intros (Hlen & Hbuf & Hcl & Hrem & Hcomp & Hst & Hcont) Hmax (Ho & Hf & Hfit) Hlt Hle.
  rewrite sum_len_app in Hle. cbn [sum_len foldr] in Hle. rewrite Z.add_0_r in Hle.
  unfold ucp_request_process_recv_data. fold (frag_len f).
  (* the request after the data was unpacked *)
  assert (exists rr1, (if decide (rr_status rr = UCS_OK) then
      '(st, rr) ← ucp_request_recv_data_unpack rr f.2 f.1; Some (set_status rr st) else Some rr) = Some rr1 /\
    rr_length rr1 = rr_length rr0 /\ buffer_ok (rr_buffer rr1) /\
    rr_length rr1 = Z.of_nat (length (content (rr_buffer rr1))) /\ rr_remaining rr1 = rr_remaining rr /\
    rr_completed rr1 = rr_completed rr /\
    rr_status rr1 = (if forallb (fits_in (rr_length rr0)) (ws ++ [f]) then UCS_OK else UCS_ERR_MESSAGE_TRUNCATED) /\
    (forallb (fits_in (rr_length rr0)) (ws ++ [f]) = true ->
     content (rr_buffer rr1) = fold_left (fun c f => Iov.splice c f.1 f.2) (ws ++ [f]) (content (rr_buffer rr0)))) as
    (rr1 & E1 & L1 & B1 & C1 & R1 & K1 & S1 & T1).
  { rewrite forallb_app. cbn [forallb]. rewrite andb_true_r, fold_left_app. cbn [fold_left].
    destruct (forallb (fits_in (rr_length rr0)) ws) eqn:Eall; cbn [andb].
    - rewrite decide_True by done. destruct (fits_in (rr_length rr0) f) eqn:Ef; unfold fits_in in Ef; zbool_hyps.
      + destruct (unpack_ok rr f.2 f.1 Hst Hbuf Hcl ltac:(lia) Ho Hf) as (b' & E & Hb' & Hc'); [unfold frag_len in *; lia|].
        rewrite (bind_eq _ _ _ E). eexists. split; [done|]. cbn [set_status set_buffer rr_length rr_buffer rr_remaining rr_completed rr_status].
        split_and!; try done; [|by intros _; rewrite Hc', Hcont].
        rewrite Hc', Iov.splice_length; [done|done|]. unfold frag_len in *. lia.
      + unfold ucp_request_recv_data_unpack. rewrite bool_decide_true by done. cbn [assert mbind option_bind].
        rewrite (proj2 (Z.ltb_lt _ _)) by (unfold frag_len in *; lia). eexists. split; [done|].
        cbn [set_status rr_length rr_buffer rr_remaining rr_completed rr_status]. split_and!; done.
    - rewrite decide_False by (rewrite Hst; done). exists rr. split_and!; done. }
  rewrite (bind_eq _ _ _ E1). unfold assert at 1. rewrite R1, Hrem, (proj2 (Z.leb_le _ _)) by lia. cbn [mbind option_bind].
  assert (req_inv m (ws ++ [f]) rr0 (RecvReq (rr_buffer rr1) (rr_length rr1) (m_total m - sum_len (ws ++ [f]))
      (rr_status rr1) (rr_sender_tag rr1) (rr_info_length rr1) (sum_len (ws ++ [f]) =? m_total m))) as Hinv
    by (unfold req_inv; cbn [rr_length rr_buffer rr_remaining rr_completed rr_status]; split_and!; done).
  rewrite (proj2 (Z.eqb_neq (sum_len ws) (m_total m))) in Hcomp by lia. rewrite Hcomp in K1.
  assert (sum_len (ws ++ [f]) = sum_len ws + frag_len f) as Es by (rewrite sum_len_app; simpl; lia).
  destruct (Z.eqb_spec (m_total m - sum_len ws) (frag_len f)) as [El|El]; cbn [negb].
  - unfold ucp_request_complete_tag_recv. cbn [set_remaining rr_completed rr_status]. rewrite K1.
    assert (bool_decide (rr_status rr1 <> UCS_INPROGRESS) = true) as Hne by (apply bool_decide_true; rewrite S1; by case_match).
    cbn [negb assert mbind option_bind]. rewrite Hne. cbn [assert mbind option_bind].
    rewrite (proj2 (Z.eqb_eq (sum_len (ws ++ [f])) (m_total m))) in Hinv by lia.
    eexists _, _. split; [done|]. split; [by rewrite Es in Hinv; rewrite Z.sub_add_distr in Hinv|].
    apply bool_decide_eq_true in Hne. split; [done|lia].
  - eexists _, _. split; [done|]. rewrite (proj2 (Z.eqb_neq (sum_len (ws ++ [f])) (m_total m))) in Hinv by lia.
    split; [|split; [lia|done]]. rewrite Es, Z.sub_add_distr, <- K1 in Hinv. done.
Qed.

Lemma process_queue_ok m rr0 : rr_length rr0 < 2 ^ 63 -> forall q ws rr, req_inv m ws rr0 rr ->
  Forall (frag_ok (m_total m)) q -> sum_len ws < m_total m -> sum_len (ws ++ q) <= m_total m ->
  exists st rr', process_queue rr q UCS_INPROGRESS = Some (st, rr', []) /\ req_inv m (ws ++ q) rr0 rr' /\
    (st = UCS_INPROGRESS <-> sum_len (ws ++ q) <> m_total m).
Proof.
  intros Hmax. induction q as [|f q IH]; intros ws rr Hinv Hq Hlt Hle; cbn [process_queue].
  { exists UCS_INPROGRESS, rr. rewrite app_nil_r in *. split_and!; [done|done|]. split; [lia|done]. }
  apply Forall_cons in Hq as [Hf Hq]. destruct f as [off data].
  assert (sum_len (ws ++ [(off, data)]) <= m_total m) as Hle1.
  { rewrite !sum_len_app in *. destruct (sum_len_pos _ _ Hq) as [? _]. simpl in *. lia. }
  destruct (process_ok m ws rr0 rr (off, data) Hinv Hmax Hf Hlt Hle1) as (st & rr1 & E & Hinv1 & Hst).
  cbn [fst snd] in E. rewrite decide_True by done. rewrite (bind_eq _ _ _ E).
  replace (ws ++ (off, data) :: q) with ((ws ++ [(off, data)]) ++ q) in * by (by rewrite <- app_assoc).
  destruct (decide (sum_len (ws ++ [(off, data)]) = m_total m)) as [Heq|Hne].
  - assert (q = []) as -> by (destruct (sum_len_pos _ _ Hq) as [? Hz]; apply Hz; rewrite sum_len_app in Hle; lia).
    exists st, rr1. rewrite app_nil_r. by split_and!.
  - assert (st = UCS_INPROGRESS) as -> by by apply Hst. apply IH; [done|done|lia|done].
Qed.

(** ** Delivered fragments *)

#[export] Instance sum_len_proper : Proper ((≡ₚ) ==> eq) sum_len.
Proof. unfold sum_len. induction 1; simpl; lia. Qed.

Lemma message_frags m : message_ok m -> frag_ok (m_total m) (0, m_first m) /\ Forall (frag_ok (m_total m)) (m_middle m).
Proof.
  intros Hm. split; [|apply Forall_forall; intros f Hf];
    destruct (mo_frags m Hm (0, m_first m) ltac:(by left)) as (? & ? & ? & _); [done|].
  destruct (mo_frags m Hm f ltac:(by right)) as (? & ? & ? & _). done.
Qed.

(** Different fragments of a message never exceed its length, and reach it when
    all of them are there. *)
Lemma delivered_sum m l : message_ok m -> NoDup l -> (forall f, f ∈ l -> f ∈ m_middle m) ->
  sum_len ((0, m_first m) :: l) <= m_total m /\
  (sum_len ((0, m_first m) :: l) = m_total m <-> forall f, f ∈ m_middle m -> f ∈ l).
Proof.
  intros Hm Hnd Hin. destruct (message_frags m Hm) as [_ Hall]. pose proof (mo_sum m Hm) as Hsum. simpl in *.
  destruct (submseteq_Permutation l (m_middle m)) as [k Hk]; [by apply NoDup_submseteq|].
  rewrite Hk in Hall, Hsum. rewrite sum_len_app in Hsum. apply Forall_app in Hall as [_ Hk2].
  destruct (sum_len_pos _ _ Hk2) as [Hz Hz0]. split; [lia|]. split.
  - intros Heq f Hf. rewrite Hk, (Hz0 ltac:(lia)), app_nil_r in Hf. done.
  - intros Hsub. destruct k as [|f k]; [simpl in *; lia|]. exfalso.
    pose proof (mo_nodup m Hm) as HN. rewrite Hk in HN. apply NoDup_app in HN as (_ & HN & _).
    apply (HN f); [|by left]. apply Hsub. rewrite Hk. apply elem_of_app. right. by left.
Qed.

Lemma elem_of_delivered k es f : f ∈ delivered k es <-> EvMiddle k f ∈ es.
Proof.
  unfold delivered. rewrite list_elem_of_omap. split.
  - intros ([k' id tag|k' f'] & He & E); [done|]. case_decide; simplify_eq. done.
  - intros He. exists (EvMiddle k f). by rewrite decide_True.
Qed.

Lemma elem_of_matched k es id : id ∈ matched k es <-> exists tag, EvFirst k id tag ∈ es.
Proof.
  unfold matched. rewrite list_elem_of_omap. split.
  - intros ([k' id' tag|k' f'] & He & E); [|done]. case_decide; simplify_eq. by exists tag.
  - intros [tag He]. exists (EvFirst k id tag). by rewrite decide_True.
Qed.

Lemma delivered_nodup k es : NoDup es -> NoDup (delivered k es).
Proof.
  induction es as [|e es IH]; [intros; apply NoDup_nil_2|]. intros [He Hes]%NoDup_cons. unfold delivered. simpl.
  destruct e as [k' id tag|k' f]; [by apply IH|]. case_decide as E; [|by apply IH]. subst k'.
  apply NoDup_cons. split; [|by apply IH]. intros Hf. by apply He, (elem_of_delivered k es f).
Qed.

Lemma delivered_snoc k es e : delivered k (es ++ [e]) = delivered k es ++ delivered k [e].
Proof. apply omap_app. Qed.

Lemma matched_snoc k es e : matched k (es ++ [e]) = matched k es ++ matched k [e].
Proof. apply omap_app. Qed.

Section worker_proofs.
Context (msgs : gmap Z message) (w0 : worker).
Hypothesis Hmsgs : map_Forall (fun _ m => message_ok m) msgs.

Lemma valid_prefix es e : valid_events msgs w0 (es ++ [e]) -> valid_events msgs w0 es.
Proof.
  intros [H1 H2 H3 H4]. constructor.
  - by apply NoDup_app in H1 as (? & _ & _).
  - intros k f He. apply H2, elem_of_app. by left.
  - intros k id tag He. apply (H3 k id tag), elem_of_app. by left.
  - intros k id tag k' id' tag' He He'. apply H4; apply elem_of_app; by left.
Qed.

Lemma valid_delivered es k m : valid_events msgs w0 es -> msgs !! k = Some m ->
  NoDup (delivered k es) /\ (forall f, f ∈ delivered k es -> f ∈ m_middle m).
Proof.
  intros Hv Hm. split; [by apply delivered_nodup, (ve_nodup _ _ _ Hv)|]. intros f Hf.
  apply elem_of_delivered in Hf. destruct (ve_middle _ _ _ Hv k f Hf) as (m' & Hm' & Hin). by simplify_eq.
Qed.

Lemma valid_sum es k m : valid_events msgs w0 es -> msgs !! k = Some m ->
  sum_len ((0, m_first m) :: delivered k es) <= m_total m.
Proof. intros Hv Hm. destruct (valid_delivered es k m Hv Hm). by apply delivered_sum; [apply (Hmsgs k)|..]. Qed.

Lemma valid_frags es k m : valid_events msgs w0 es -> msgs !! k = Some m -> Forall (frag_ok (m_total m)) (delivered k es).
Proof.
  intros Hv Hm. destruct (valid_delivered es k m Hv Hm) as [_ Hin]. destruct (message_frags m (Hmsgs k m Hm)) as [_ Hall].
  apply Forall_forall. intros f Hf. by apply (proj1 (Forall_forall _ _) Hall), Hin.
Qed.

Lemma msg_inv_frame w w' k m es es' : matched k es' = matched k es -> delivered k es' = delivered k es ->
  w_frag_hash w' !! k = w_frag_hash w !! k -> (forall id, id ∈ matched k es -> w_reqs w' !! id = w_reqs w !! id) ->
  msg_inv w0 w k m es -> msg_inv w0 w' k m es'.
Proof.
  intros Em Ed Ef Er. unfold msg_inv. rewrite Em, Ed, Ef. destruct (matched k es) as [|id l]; [done|].
  intros (rr0 & rr & H1 & H2 & H3). exists rr0, rr. rewrite Er by by left. done.
Qed.

(** A middle fragment that arrives before the first one is kept. *)
Lemma event_middle_ok es w k f : valid_events msgs w0 (es ++ [EvMiddle k f]) -> worker_inv msgs w0 w es ->
  exists w', run_event msgs w (EvMiddle k f) = Some w' /\ worker_inv msgs w0 w' (es ++ [EvMiddle k f]).
Proof.
  intros Hv [Hmsg Hreq]. pose proof (valid_prefix _ _ Hv) as Hv0.
  destruct (ve_middle _ _ _ Hv k f) as (m & Hm & Hfm); [apply elem_of_app; right; by left|].
  pose proof (Hmsg k m Hm) as Hinv. unfold msg_inv in Hinv. cbn [run_event]. unfold ucp_eager_middle_handler.
  assert (forall k', k' <> k -> matched k' (es ++ [EvMiddle k f]) = matched k' es /\
    delivered k' (es ++ [EvMiddle k f]) = delivered k' es) as Hother.
  { intros k' Hk. rewrite matched_snoc, delivered_snoc. unfold matched at 2, delivered at 2. simpl.
    rewrite decide_False by congruence. by rewrite !app_nil_r. }
  assert (delivered k (es ++ [EvMiddle k f]) = delivered k es ++ [f]) as Hdk
    by (rewrite delivered_snoc; unfold delivered at 2; simpl; by rewrite decide_True).
  assert (matched k (es ++ [EvMiddle k f]) = matched k es) as Hmk by (rewrite matched_snoc; simpl; by rewrite app_nil_r).
  assert (forall id, (forall k' tag, EvFirst k' id tag ∉ es ++ [EvMiddle k f]) -> forall k' tag, EvFirst k' id tag ∉ es) as Hnf
    by (intros id Hn k' tag He; apply (Hn k' tag), elem_of_app; by left).
  destruct (matched k es) as [|id l] eqn:Ematch.
  - assert (default (UnexpQ []) (w_frag_hash w !! k) = UnexpQ (delivered k es)) as Hst.
    { rewrite Hinv. destruct (decide (delivered k es = [])) as [E|]; [by rewrite E|done]. }
    rewrite Hst. rewrite decide_True by by left. cbn [mbind option_bind].
    rewrite bool_decide_true by (by destruct (delivered k es)). cbn [assert mbind option_bind fmap option_fmap option_map snd].
    eexists. split; [done|]. split; [|intros id Hid; by apply Hreq, Hnf].
    intros k' m' Hm'. destruct (decide (k' = k)) as [->|Hk].
    + unfold msg_inv. rewrite Hmk, Hdk. simpl. rewrite lookup_insert_eq. destruct f as [fo fd]. simpl.
      by destruct (delivered k es).
    + destruct (Hother k' Hk) as [E1 E2]. apply (msg_inv_frame w _ k' m' es); try done; [|by apply Hmsg].
      simpl. by rewrite lookup_insert_ne.
  - destruct Hinv as (rr0 & rr & Hr0 & Hr & Hri & Hfr).
    assert (exists tag, EvFirst k id tag ∈ es) as [tag Hfirst] by (apply elem_of_matched; rewrite Ematch; by left).
    destruct (ve_first _ _ _ Hv0 k id tag Hfirst) as [_ (rr0' & Hr0' & Hfresh)]. simplify_eq.
    destruct Hfresh as (_ & _ & _ & _ & Hmax).
    pose proof (valid_sum _ k m Hv Hm) as Hle. rewrite Hdk in Hle.
    assert (frag_ok (m_total m) f) as Hfok.
    { destruct (message_frags m (Hmsgs k m Hm)) as [_ Hall]. by apply (proj1 (Forall_forall _ _) Hall). }
    assert (sum_len ((0, m_first m) :: delivered k es) < m_total m) as Hlt.
    { rewrite app_comm_cons, sum_len_app in Hle. destruct Hfok as (_ & ? & _). simpl in *. lia. }
    rewrite decide_False in Hfr by lia. rewrite Hfr.
    change (default (UnexpQ []) (Some (ExpReq id))) with (ExpReq id). rewrite bool_decide_false by done.
    cbn [negb assert mbind option_bind]. rewrite Hr. cbn [mbind option_bind].
    destruct (process_ok m _ rr0 rr f Hri Hmax Hfok Hlt) as (st & rr1 & E & Hri1 & Hst); [by rewrite <- app_comm_cons|].
    rewrite (bind_eq _ _ _ E). cbn [mbind option_bind fmap option_fmap option_map snd assert]. rewrite <- app_comm_cons in Hri1, Hst.
    eexists. split; [done|]. split.
    + intros k' m' Hm'. destruct (decide (k' = k)) as [->|Hk].
      * simplify_eq. unfold msg_inv. rewrite Hmk, Hdk. exists rr0, rr1. split; [done|].
        destruct (decide (sum_len ((0, m_first m) :: delivered k es ++ [f]) = m_total m)) as [He|He].
        -- rewrite decide_True by (intros E2; by apply Hst in E2). simpl. rewrite lookup_insert_eq, lookup_delete_eq. done.
        -- rewrite decide_False by (rewrite (proj2 Hst He); tauto). simpl. by rewrite lookup_insert_eq.
      * destruct (Hother k' Hk) as [E1 E2]. apply (msg_inv_frame w _ k' m' es); try done; [| |by apply Hmsg].
        -- case_decide; simpl; [by rewrite lookup_delete_ne|done].
        -- intros id' [tag' Hid']%elem_of_matched.
           assert (id' <> id) as Hne.
           { intros ->. pose proof (ve_unique _ _ _ Hv0 _ _ _ _ _ _ Hid' Hfirst ltac:(by right)). congruence. }
           case_decide; simpl; by rewrite lookup_insert_ne.
    + intros id' Hid'. assert (id' <> id) as Hne by (intros ->; by apply (Hnf id Hid' k tag)).
      rewrite <- (Hreq id') by by apply Hnf. case_decide; simpl; by rewrite lookup_insert_ne.
Qed.

(** The first fragment meets the request: the kept fragments are stored too. *)
Lemma recv_first_ok w k m id tag rr0 q : msgs !! k = Some m -> w_reqs w !! id = Some rr0 -> fresh_req rr0 ->
  w_frag_hash w !! k = (if decide (q = []) then None else Some (UnexpQ q)) ->
  Forall (frag_ok (m_total m)) q -> sum_len ((0, m_first m) :: q) <= m_total m ->
  exists rr, req_inv m ((0, m_first m) :: q) rr0 rr /\
    recv_first w id tag (m_total m) k (m_first m) =
      Some (Worker (w_tm w)
        (if decide (sum_len ((0, m_first m) :: q) = m_total m) then delete k (w_frag_hash w)
         else <[k := ExpReq id]> (w_frag_hash w)) (<[id := rr]> (w_reqs w))).
Proof.
  intros Hm Hr (Hc & Hs & Hb & Hl & Hmax) Hfr Hq Hle. unfold recv_first. rewrite Hr. cbn [mbind option_bind].
  destruct (message_frags m (Hmsgs k m Hm)) as [Hf0 _]. pose proof Hf0 as (_ & Hpos & _).
  destruct (sum_len_pos _ _ Hq) as [Hq0 Hqz].
  set (rr1 := set_remaining _ _).
  assert (req_inv m [] rr0 rr1) as Hinv1.
  { unfold req_inv, rr1. cbn [set_remaining set_info rr_length rr_buffer rr_remaining rr_completed rr_status sum_len foldr forallb fold_left].
    rewrite Hc, Hs. split_and!; try done; [lia|]. symmetry. apply Z.eqb_neq. simpl in Hle. lia. }
  destruct (process_ok m [] rr0 rr1 (0, m_first m) Hinv1 Hmax Hf0) as (st & rr2 & E & Hinv2 & Hst); [simpl in *; lia|simpl in *; lia|].
  rewrite (bind_eq _ _ _ E). cbn [app] in Hinv2, Hst.
  destruct (decide (sum_len [(0, m_first m)] = m_total m)) as [He|He].
  - assert (q = []) as -> by (apply Hqz; simpl in *; lia). rewrite decide_False by (intros F; by apply Hst in F).
    exists rr2. split; [done|]. rewrite decide_True by done. rewrite decide_True in Hfr by done.
    rewrite delete_id by done. done.
  - rewrite decide_True by by apply Hst. unfold ucp_tag_frag_list_process_queue. cbn [w_frag_hash set_req].
    rewrite Hfr. destruct (decide (q = [])) as [->|Hne].
    + exists rr2. split; [done|]. rewrite decide_False by done. done.
    + cbn [w_reqs set_req]. rewrite lookup_insert_eq. cbn [mbind option_bind ucp_tag_frag_list_process_common].
      destruct (process_queue_ok m rr0 Hmax q [(0, m_first m)] rr2 Hinv2 Hq) as (st2 & rr3 & E2 & Hinv3 & Hst2); [simpl in *; lia|done|].
      rewrite (bind_eq _ _ _ E2). rewrite bool_decide_true by done. cbn [assert mbind option_bind].
      exists rr3. split; [done|]. cbn [app] in Hst2. unfold set_req, set_frag. cbn [w_tm w_frag_hash w_reqs].
      rewrite insert_insert_eq. destruct (decide (sum_len ((0, m_first m) :: q) = m_total m)) as [Heq|Heq].
      * rewrite decide_True by (intros F; by apply Hst2 in F). done.
      * rewrite decide_False by (rewrite (proj2 Hst2 Heq); tauto). done.
Qed.

Lemma event_first_ok es w k id tag : valid_events msgs w0 (es ++ [EvFirst k id tag]) -> worker_inv msgs w0 w es ->
  exists w', run_event msgs w (EvFirst k id tag) = Some w' /\ worker_inv msgs w0 w' (es ++ [EvFirst k id tag]).
Proof.
  intros Hv [Hmsg Hreq]. pose proof (valid_prefix _ _ Hv) as Hv0.
  assert (EvFirst k id tag ∈ es ++ [EvFirst k id tag]) as Hin by (apply elem_of_app; right; by left).
  assert (forall k' id' tag', EvFirst k' id' tag' ∈ es -> k' <> k /\ id' <> id) as Hother.
  { intros k' id' tag' He. assert (EvFirst k' id' tag' ∈ es ++ [EvFirst k id tag]) as He' by (apply elem_of_app; by left).
    assert (EvFirst k' id' tag' <> EvFirst k id tag) as Hne.
    { intros F. rewrite F in He. pose proof (ve_nodup _ _ _ Hv) as Hnd. apply NoDup_app in Hnd as (_ & Hnd & _).
      apply (Hnd _ He). by left. }
    pose proof (ve_unique _ _ _ Hv _ _ _ _ _ _ He' Hin) as Hu. split; intros F; apply Hne, Hu; auto. }
  destruct (ve_first _ _ _ Hv k id tag Hin) as [[m Hm] (rr0 & Hr0 & Hfresh)].
  assert (matched k es = []) as Emk.
  { destruct (matched k es) as [|id' l] eqn:E; [done|]. exfalso.
    assert (id' ∈ matched k es) as Hid by (rewrite E; by left). apply elem_of_matched in Hid as [tag' Hid].
    by destruct (Hother _ _ _ Hid). }
  assert (w_reqs w !! id = Some rr0) as Hr by (rewrite Hreq; [done|]; intros k' tag' He; by destruct (Hother _ _ _ He)).
  pose proof (Hmsg k m Hm) as Hinv. unfold msg_inv in Hinv. rewrite Emk in Hinv.
  destruct (recv_first_ok w k m id tag rr0 (delivered k es) Hm Hr Hfresh Hinv) as (rr & Hri & E);
    [by apply valid_frags|by apply valid_sum|].
  cbn [run_event]. rewrite Hm. cbn [mbind option_bind]. rewrite E. eexists. split; [done|].
  assert (forall k', delivered k' (es ++ [EvFirst k id tag]) = delivered k' es) as Hd
    by (intros k'; rewrite delivered_snoc; simpl; by rewrite app_nil_r).
  split.
  - intros k' m' Hm'. destruct (decide (k' = k)) as [->|Hk].
    + simplify_eq. unfold msg_inv. rewrite matched_snoc, Emk, Hd. unfold matched. simpl. rewrite decide_True by done.
      exists rr0, rr. cbn [w_frag_hash w_reqs]. rewrite lookup_insert_eq. split_and!; try done.
      repeat case_decide; done || by rewrite ?lookup_delete_eq, ?lookup_insert_eq.
    + apply (msg_inv_frame w _ k' m' es); [| |..|by apply Hmsg].
      * rewrite matched_snoc. unfold matched at 2. simpl. rewrite decide_False by congruence. by rewrite app_nil_r.
      * apply Hd.
      * cbn [w_frag_hash]. destruct (decide (sum_len ((0, m_first m) :: delivered k es) = m_total m));
          [by apply lookup_delete_ne|by apply lookup_insert_ne].
      * intros id' [tag' Hid']%elem_of_matched. destruct (Hother _ _ _ Hid') as [_ Hne]. simpl. by rewrite lookup_insert_ne.
  - intros id' Hid'. assert (id' <> id) by (intros ->; by apply (Hid' k tag)). simpl. rewrite lookup_insert_ne by done.
    apply Hreq. intros k' tag' He. apply (Hid' k' tag'), elem_of_app. by left.
Qed.

Lemma run_events_snoc es e : forall w, run_events msgs w (es ++ [e]) =
  (w' ← run_events msgs w es; run_event msgs w' e).
Proof.
  induction es as [|a es IH]; intros w; simpl; [by destruct (run_event msgs w e)|].
  destruct (run_event msgs w a); simpl; [apply IH|done].
Qed.

Lemma run_events_ok es : w_frag_hash w0 = ∅ -> valid_events msgs w0 es ->
  exists w, run_events msgs w0 es = Some w /\ worker_inv msgs w0 w es.
Proof.
  intros He0. induction es as [|e es IH] using rev_ind; intros Hv.
  { exists w0. split; [done|]. split; [|done]. intros k m Hm. unfold msg_inv. simpl. rewrite He0. apply lookup_empty. }
  destruct (IH (valid_prefix _ _ Hv)) as (w & E & Hinv). rewrite run_events_snoc, (bind_eq _ _ _ E).
  destruct e; [by apply event_first_ok|by apply event_middle_ok].
Qed.

End worker_proofs.

(** ** The whole message *)

(** Writing pieces of [D] in any order makes the covered bytes those of [D]. *)
Lemma fold_splice_lookup D ws : forall c, Z.of_nat (length D) <= Z.of_nat (length c) ->
  (forall f, f ∈ ws -> 0 <= f.1 /\ f.1 + frag_len f <= Z.of_nat (length D) /\ f.2 = Iov.sub D f.1 (frag_len f)) ->
  length (fold_left (fun c f => Iov.splice c f.1 f.2) ws c) = length c /\
  forall i : nat, fold_left (fun c f => Iov.splice c f.1 f.2) ws c !! i = c !! i /\ (forall f, f ∈ ws -> ~ covers f (Z.of_nat i)) \/
    fold_left (fun c f => Iov.splice c f.1 f.2) ws c !! i = D !! i /\ exists f, f ∈ ws /\ covers f (Z.of_nat i).
Proof.
  induction ws as [|f ws IH]; intros c Hlen Hws; simpl.
  { split; [done|]. intros i. left. split; [done|]. by intros f Hf%not_elem_of_nil. }
  destruct (Hws f ltac:(by left)) as (H1 & H2 & H3). unfold frag_len in H2.
  assert (length (Iov.splice c f.1 f.2) = length c) as El by (apply Iov.splice_length; lia).
  destruct (IH (Iov.splice c f.1 f.2)) as [IHl IHi]; [by rewrite El|intros g Hg; apply Hws; by right|].
  split; [by rewrite IHl|]. intros i. destruct (IHi i) as [[E Hno]|[E (g & Hg & Hc)]].
  2: { right. split; [done|]. exists g. split; [by right|done]. }
  assert (length (take (Z.to_nat f.1) c) = Z.to_nat f.1) as Et by (rewrite length_take; lia).
  rewrite E. unfold Iov.splice. destruct (decide (covers f (Z.of_nat i))) as [Hc|Hc].
  - right. split; [|exists f; split; [by left|done]]. unfold covers, frag_len in Hc.
    rewrite lookup_app_r by lia. rewrite lookup_app_l by lia. rewrite H3, Et. unfold Iov.sub, frag_len.
    rewrite lookup_take_lt by lia. rewrite lookup_drop. f_equal. lia.
  - left. split; [|intros g [->|Hg]%elem_of_cons; [done|by apply Hno]]. unfold covers, frag_len in Hc.
    destruct (decide (i < Z.to_nat f.1)%nat).
    + rewrite lookup_app_l by lia. by rewrite lookup_take_lt by lia.
    + rewrite lookup_app_r, Et by lia. rewrite lookup_app_r by lia. rewrite lookup_drop. f_equal. lia.
Qed.

Lemma message_written m ws c : message_ok m -> (forall f, f ∈ ws <-> f ∈ (0, m_first m) :: m_middle m) ->
  m_total m <= Z.of_nat (length c) ->
  fold_left (fun c f => Iov.splice c f.1 f.2) ws c = Iov.splice c 0 (m_data m).
Proof.
  intros Hm Hws Hlen. unfold m_total in *. destruct (fold_splice_lookup (m_data m) ws c Hlen) as [Hl Hi].
  { intros f Hf%Hws. destruct (mo_frags m Hm f Hf) as (? & ? & ? & ?). done. }
  apply list_eq. intros i. destruct (Hi i) as [[E Hno]|[E (f & Hf & Hc)]]; rewrite E; unfold Iov.splice; simpl.
  - destruct (decide (i < length (m_data m))%nat) as [Hlt|].
    + destruct (mo_cover m Hm (Z.of_nat i)) as (f & Hf & Hc); [unfold m_total; lia|]. by destruct (Hno f); [apply Hws|].
    + rewrite lookup_app_r, lookup_drop by lia. f_equal. lia.
  - apply Hws in Hf. destruct (mo_frags m Hm f Hf) as (? & ? & Hb & ?). unfold covers, m_total in *.
    by rewrite lookup_app_l by lia.
Qed.

Lemma message_fits m ws len : message_ok m -> (forall f, f ∈ ws <-> f ∈ (0, m_first m) :: m_middle m) -> 0 <= len ->
  forallb (fits_in len) ws = (m_total m <=? len).
Proof.
  intros Hm Hws Hlen. destruct (Z.leb_spec (m_total m) len).
  - apply forallb_forall. intros f Hf%list_elem_of_In%Hws. destruct (mo_frags m Hm f Hf) as (? & ? & ? & ?).
    unfold fits_in. apply Z.leb_le. lia.
  - apply not_true_is_false. intros Hall. rewrite forallb_forall in Hall.
    assert (0 < m_total m) as Hp.
    { destruct (mo_frags m Hm (0, m_first m) ltac:(by left)) as (? & ? & ? & ?). simpl in *. lia. }
    destruct (mo_cover m Hm (m_total m - 1) ltac:(lia)) as (f & Hf & Hc).
    specialize (Hall f (proj1 (list_elem_of_In _ _) (proj2 (Hws f) Hf))). unfold fits_in, covers in *. zbool_hyps. lia.
Qed.

(** ** Messages of one fragment *)

Lemma unpack_only_ok b data : buffer_ok (ucp_dt_recv_state_init b) -> recv_buffer_length b < 2 ^ 63 -> 0 < Z.of_nat (length data) ->
  exists b', ucp_dt_unpack_only (ucp_dt_recv_state_init b) data =
      Some (if Z.of_nat (length data) <=? recv_buffer_length b then UCS_OK else UCS_ERR_MESSAGE_TRUNCATED, b') /\
    content b' = if Z.of_nat (length data) <=? recv_buffer_length b then Iov.splice (content b) 0 data else content b.
Proof.
  intros Hb Hmax Hd. destruct b as [buf|iov so o i]; cbn [ucp_dt_recv_state_init recv_buffer_length ucp_dt_unpack_only buffer_ok content] in *.
  - rewrite Z.leb_antisym. destruct (Z.ltb_spec (Z.of_nat (length buf)) (Z.of_nat (length data))); cbn [negb]; [by eexists|].
    rewrite (bind_eq _ _ _ (Iov.write_ok buf 0 data ltac:(lia) ltac:(lia))). by eexists.
  - destruct Hb as [Hf Hpos]. rewrite (Iov.iov_length_ok iov Hf) in *. rewrite Z.leb_antisym.
    destruct (Z.ltb_spec (Iov.total iov) (Z.of_nat (length data))); cbn [negb]; [by eexists|].
    destruct Hpos as [->|Hpos]; [unfold Iov.total in *; simpl in *; lia|].
    destruct (Iov.scatter_ok iov data (Z.of_nat (length data)) 0 0 0 Hf Hpos ltac:(lia) ltac:(lia)) as (s & Es & El & Hsh & Hfl & Hp).
    rewrite (bind_eq _ _ _ Es). eexists. split; [done|]. cbn [content].
    rewrite Hfl, El, Z.min_l, Nat2Z.id, firstn_all by lia. done.
Qed.

(** The buffer of a new receive. *)
Definition new_buffer (b : recv_buffer) : Prop :=
  buffer_ok (ucp_dt_recv_state_init b) /\ recv_buffer_length b < 2 ^ 63.

Lemma new_buffer_fresh b : new_buffer b -> fresh_req (recv_req_init b) /\ content (rr_buffer (recv_req_init b)) = content b.
Proof.
  intros [Hb Hmax]. unfold fresh_req, recv_req_init. cbn [rr_completed rr_status rr_buffer rr_length].
  destruct b as [buf|iov so o i]; cbn [ucp_dt_recv_state_init recv_buffer_length content buffer_ok] in *; split; try done.
  destruct Hb as [Hf Hpos]. split_and!; try done. by rewrite (Iov.iov_length_ok iov Hf).
Qed.

Lemma recv_expected_of_op env tm s id tag mask len contig : TagMatch.implements tm s ->
  TagMatch.valid_op tm s (TagMatch.OpRecv env id tag mask len contig) ->
  match head (filter (TagMatch.rdesc_match tag mask) (TagMatch.arrived s)) with
  | None => exists tm', TagMatch.ucp_tag_recv_nbx env tm tag mask id len contig (TagMatch.RecvParam false UCS_OK) =
        Some (TagMatch.RecvExpected, tm') /\
      TagMatch.implements tm' (TagMatch.Spec (TagMatch.posted s ++ [TagMatch.Posted id tag mask]) (TagMatch.arrived s))
  | Some rd => exists tm', TagMatch.ucp_tag_recv_nbx env tm tag mask id len contig (TagMatch.RecvParam false UCS_OK) =
        Some (TagMatch.RecvMatched rd, tm') /\
      TagMatch.implements tm' (TagMatch.Spec (TagMatch.posted s) (TagMatch.without_rdesc rd (TagMatch.arrived s)))
  end.
Proof.
  intros Himp Hv. destruct (TagMatch.step_recv tm s env id tag mask len contig Himp Hv) as (tm' & E & Himp').
  cbn [TagMatch.run_op TagMatch.spec_op] in E, Himp'.
  destruct (TagMatch.ucp_tag_recv_nbx env tm tag mask id len contig _) as [[res tm1]|]; [|done]. cbn [mbind option_bind] in E.
  destruct (head _) as [rd|]; destruct res; simplify_eq/=; by exists tm'.
Qed.

Lemma arrive_of_op tm s rd : TagMatch.implements tm s -> TagMatch.valid_op tm s (TagMatch.OpArrive rd) ->
  match head (filter (TagMatch.p_match (TagMatch.rd_tag rd)) (TagMatch.posted s)) with
  | Some p => exists req tm', TagMatch.ucp_tag_exp_search tm (TagMatch.rd_tag rd) = Some (Some req, tm') /\
      TagMatch.req_id req = TagMatch.p_id p /\
      TagMatch.implements tm' (TagMatch.Spec (TagMatch.without_posted (TagMatch.p_id p) (TagMatch.posted s)) (TagMatch.arrived s))
  | None => exists tm1 tm', TagMatch.ucp_tag_exp_search tm (TagMatch.rd_tag rd) = Some (None, tm1) /\
      TagMatch.ucp_tag_unexp_recv tm1 rd (TagMatch.rd_tag rd) = Some tm' /\
      TagMatch.implements tm' (TagMatch.Spec (TagMatch.posted s) (TagMatch.arrived s ++ [rd]))
  end.
Proof.
  intros Himp Hv. destruct (TagMatch.step_arrive tm s rd Himp Hv) as (tm' & E & Himp').
  cbn [TagMatch.run_op TagMatch.spec_op] in E, Himp'. unfold TagMatch.ucp_eager_tagged_handler in E.
  destruct (TagMatch.ucp_tag_exp_search tm (TagMatch.rd_tag rd)) as [[req tm1]|]; [|done]. cbn [mbind option_bind] in E.
  destruct req as [req|].
  - destruct (head _) as [p|]; simplify_eq/=. by exists req, tm'.
  - rewrite decide_True in E by by left.
    destruct (TagMatch.ucp_tag_unexp_recv tm1 rd (TagMatch.rd_tag rd)) as [tm2|] eqn:E2; [|done]. cbn [mbind option_bind] in E.
    destruct (head _) as [p|]; simplify_eq/=. exists tm1, tm'. done.
Qed.

(** A search that finds nothing changes nothing. *)
Lemma search_none_same tm tag tm' : TagMatch.ucp_tag_exp_search tm tag = Some (None, tm') -> tm' = tm.
Proof.
  unfold TagMatch.ucp_tag_exp_search, TagMatch.ucp_tag_exp_search_all. intros E.
  repeat (case_match; simplify_eq/=; try done); repeat match goal with
  | H : (?c ≫= _) = Some _ |- _ => destruct c eqn:?; simplify_eq/=; try done
  | H : match ?c with _ => _ end = Some _ |- _ => destruct c; simplify_eq/=; try done
  end.
Qed.

(** What a receive of [data] into the buffer [b] has to give. *)
Definition received (rr : recv_req) (b : recv_buffer) (tag : Z) (data : list Z) : Prop :=
  rr_completed rr = true /\ rr_sender_tag rr = tag /\ rr_info_length rr = Z.of_nat (length data) /\
  rr_status rr = (if Z.of_nat (length data) <=? recv_buffer_length b then UCS_OK else UCS_ERR_MESSAGE_TRUNCATED) /\
  content (rr_buffer rr) =
    (if Z.of_nat (length data) <=? recv_buffer_length b then Iov.splice (content b) 0 data else content b).

(** The message arrives at the posted request. *)
Lemma unpack_request b tag data : new_buffer b -> 0 < Z.of_nat (length data) ->
  exists st rr1 rr, ucp_request_recv_data_unpack (set_info (recv_req_init b) tag (Z.of_nat (length data))) data 0 = Some (st, rr1) /\
    ucp_request_complete_tag_recv rr1 st = Some rr /\ received rr b tag data.
Proof.
  intros Hnew Hd. destruct (new_buffer_fresh b Hnew) as [(Hc & Hs & Hb & Hl & Hmax) Hcont].
  set (rr0 := set_info _ _ _). unfold received. destruct (Z.leb_spec (Z.of_nat (length data)) (recv_buffer_length b)) as [Hle|Hgt].
  - destruct (unpack_ok rr0 data 0 Hs Hb Hl Hmax ltac:(lia) Hd) as (b' & E & _ & Hc'); [simpl; lia|].
    eexists _, _, _. split; [exact E|]. split; [done|]. cbn [rr_completed rr_sender_tag rr_info_length rr_status rr_buffer set_buffer].
    split_and!; try done. rewrite Hc'. f_equal. exact Hcont.
  - unfold ucp_request_recv_data_unpack. rewrite bool_decide_true by done. cbn [assert mbind option_bind].
    rewrite (proj2 (Z.ltb_lt _ _)) by (simpl; lia). eexists _, _, _. split; [done|]. split; [done|].
    split_and!; try done.
Qed.

(** The receive finds the message that has arrived. *)
Lemma unpack_unexpected b tag data : new_buffer b -> 0 < Z.of_nat (length data) ->
  exists st b' rr, ucp_dt_unpack_only (rr_buffer (set_info (recv_req_init b) tag (Z.of_nat (length data)))) data = Some (st, b') /\
    ucp_request_complete_tag_recv (set_buffer (set_info (recv_req_init b) tag (Z.of_nat (length data))) b') st = Some rr /\
    received rr b tag data.
Proof.
  intros [Hb Hmax] Hd. destruct (unpack_only_ok b data Hb Hmax Hd) as (b' & E & Hc).
  unfold received. destruct (Z.leb_spec (Z.of_nat (length data)) (recv_buffer_length b));
    eexists _, b', _; (split; [exact E|]); (split; [done|]);
    cbn [rr_completed rr_sender_tag rr_info_length rr_status rr_buffer set_buffer set_info]; split_and!; done.
Qed.

(** ** Properties *)

(** C11: Reassembly of eager messages.  Any number of messages arrive in fragments,
    each fragment once and in any order, interleaved in any way with each other
    and with the moments at which the messages meet their requests.  No
    assertion fails and no byte outside of a buffer is written; a request is
    completed exactly when the first and all middle fragments of its message
    have arrived, with the message in its buffer (contiguous or IOV) and every
    other byte unchanged, or with [UCS_ERR_MESSAGE_TRUNCATED] when the message
    is longer than the buffer, and then nothing of the message is left in the
    fragment hash. *)
Theorem eager_reassembly msgs w es :
  map_Forall (fun _ m => message_ok m) msgs -> w_frag_hash w = ∅ -> valid_events msgs w es ->
  exists w', run_events msgs w es = Some w' /\
    forall k id tag m rr0, EvFirst k id tag ∈ es -> msgs !! k = Some m -> w_reqs w !! id = Some rr0 ->
    exists rr, w_reqs w' !! id = Some rr /\
      ((forall f, f ∈ m_middle m -> EvMiddle k f ∈ es) ->
         rr_completed rr = true /\ w_frag_hash w' !! k = None /\
         (m_total m <= rr_length rr0 -> rr_status rr = UCS_OK /\
            content (rr_buffer rr) = Iov.splice (content (rr_buffer rr0)) 0 (m_data m)) /\
         (rr_length rr0 < m_total m -> rr_status rr = UCS_ERR_MESSAGE_TRUNCATED)) /\
      (~ (forall f, f ∈ m_middle m -> EvMiddle k f ∈ es) ->
         rr_completed rr = false /\ w_frag_hash w' !! k = Some (ExpReq id)).
Proof.
  intros Hmsgs He Hv. destruct (run_events_ok msgs w Hmsgs es He Hv) as (w' & E & Hinv & _). exists w'. split; [done|].
  intros k id tag m rr0 Hfirst Hm Hr0. specialize (Hinv k m Hm). unfold msg_inv in Hinv.
  destruct (matched k es) as [|id' l] eqn:Ek.
  { assert (id ∈ matched k es) as Hn by (apply elem_of_matched; by exists tag). rewrite Ek in Hn. by apply not_elem_of_nil in Hn. }
  assert (id' = id) as ->.
  { assert (id' ∈ matched k es) as Hn by (rewrite Ek; by left). apply elem_of_matched in Hn as [tag' Hn].
    pose proof (ve_unique _ _ _ Hv _ _ _ _ _ _ Hn Hfirst ltac:(by left)). congruence. }
  destruct Hinv as (rr0' & rr & Hr0' & Hr & (Hlen & _ & Hcl & Hrem & Hcomp & Hst & Hcont) & Hfr). simplify_eq.
  exists rr. split; [done|]. destruct (valid_delivered msgs w es k m Hv Hm) as [Hnd Hin].
  destruct (delivered_sum m _ (Hmsgs k m Hm) Hnd Hin) as [Hle Hiff].
  split.
  - intros Hall. assert (forall f, f ∈ m_middle m -> f ∈ delivered k es) as Hall' by (intros f Hf; by apply elem_of_delivered, Hall).
    assert (forall f, f ∈ (0, m_first m) :: delivered k es <-> f ∈ (0, m_first m) :: m_middle m) as Hws
      by (intros f; rewrite !elem_of_cons; naive_solver).
    destruct (ve_first _ _ _ Hv k id tag Hfirst) as [_ (r & Hr1 & (_ & _ & _ & Hl0 & _))]. simplify_eq.
    rewrite (message_fits m _ (rr_length rr0') (Hmsgs k m Hm) Hws) in Hst, Hcont by lia.
    rewrite (proj2 Hiff Hall') in Hcomp, Hfr. rewrite decide_True in Hfr by done. rewrite Z.eqb_refl in Hcomp.
    split_and!; [done|done| |].
    + intros Hfit. rewrite (proj2 (Z.leb_le _ _)) in Hst, Hcont by done. split; [done|].
      rewrite Hcont by done. apply (message_written m); [by apply (Hmsgs k)|done|lia].
    + intros Hlong. by rewrite (proj2 (Z.leb_gt _ _)) in Hst by done.
  - intros Hnot. assert (sum_len ((0, m_first m) :: delivered k es) <> m_total m) as Hne.
    { intros F. apply Hnot. intros f Hf. by apply elem_of_delivered, (proj1 Hiff F). }
    rewrite (proj2 (Z.eqb_neq _ _) Hne) in Hcomp. by rewrite decide_False in Hfr by done.
Qed.

(** C25: It does not matter whether an eager message of one fragment, with a payload,
    or its receive comes first.  On any state of the matching in which the receive
    and the message match each other, no message that has arrived matches the
    receive and no posted receive matches the message, posting the receive before
    the message arrives, and after it has arrived, both complete the request with
    the sender's tag, the length and the data of the message (or as truncated), and
    leave the matching as it was.  The receive and the message are new to the
    matching, their tags are of 64 bits, and the buffer of the receive is one that
    nothing was received into. *)
Theorem eager_only_either_order env w s tag mask id b rd :
  TagMatch.implements (w_tm w) s ->
  TagMatch.valid_op (w_tm w) s (TagMatch.OpRecv env id tag mask 0 true) ->
  TagMatch.valid_op (w_tm w) s (TagMatch.OpArrive rd) ->
  filter (TagMatch.rdesc_match tag mask) (TagMatch.arrived s) = [] ->
  filter (TagMatch.p_match (TagMatch.rd_tag rd)) (TagMatch.posted s) = [] ->
  TagMatch.rdesc_match tag mask rd -> TagMatch.rd_kind rd = TagMatch.EagerOnly ->
  new_buffer b -> 0 < Z.of_nat (length (TagMatch.rd_payload rd)) ->
  (exists w1 w2 rr, ucp_tag_recv_nbx env w tag mask id b = Some (None, w1) /\
     ucp_eager_tagged_handler w1 rd UCS_OK = Some (UCS_OK, w2) /\ w_reqs w2 !! id = Some rr /\
     received rr b (TagMatch.rd_tag rd) (TagMatch.rd_payload rd) /\ TagMatch.implements (w_tm w2) s) /\
  (exists w1 w2 rr, ucp_eager_tagged_handler w rd UCS_OK = Some (UCS_OK, w1) /\
     ucp_tag_recv_nbx env w1 tag mask id b = Some (None, w2) /\ w_reqs w2 !! id = Some rr /\
     received rr b (TagMatch.rd_tag rd) (TagMatch.rd_payload rd) /\ TagMatch.implements (w_tm w2) s).
Proof.
  intros Himp Hv1 Hv2 Hno1 Hno2 Hm Hk Hnew Hd. destruct Hv1 as (Ht & Hmk & Hid & Hlen & Hsn), Hv2 as (Hrt & Hrid). split.
  - pose proof (recv_expected_of_op env (w_tm w) s id tag mask (recv_buffer_length b)
      (match b with Contig _ => true | IovBuf _ _ _ _ => false end) Himp ltac:(done)) as Hrecv.
    rewrite Hno1 in Hrecv. destruct Hrecv as (tm1 & E1 & Himp1).
    pose proof (arrive_of_op tm1 _ rd Himp1 ltac:(done)) as Harr. cbn [TagMatch.posted TagMatch.arrived] in Harr.
    rewrite filter_app, Hno2, filter_cons_True, filter_nil in Harr by done. cbn [app head TagMatch.p_id] in Harr.
    destruct Harr as (req & tm2 & E2 & Hreq & Himp2).
    destruct (unpack_request b (TagMatch.rd_tag rd) (TagMatch.rd_payload rd) Hnew Hd) as (st & rr1 & rr & U1 & U2 & Hrr).
    eexists _, (Worker tm2 (w_frag_hash w) _), rr. unfold ucp_tag_recv_nbx. rewrite (bind_eq _ _ _ E1). split; [done|].
    unfold ucp_eager_tagged_handler. cbn [w_tm set_req set_tm]. rewrite (bind_eq _ _ _ E2), Hreq, Hk.
    rewrite (bind_eq _ (recv_req_init b)) by (apply lookup_insert_eq).
    rewrite (bind_eq _ _ _ U1), (bind_eq _ _ _ U2). split; [done|]. cbn [w_reqs w_tm]. split; [apply lookup_insert_eq|]. split; [done|].
    unfold TagMatch.without_posted in Himp2. rewrite filter_app, filter_cons_False, filter_nil, app_nil_r, filter_all in Himp2.
    + by destruct s.
    + intros p Hp Hpid. apply Hid. rewrite <- Hpid. by apply list_elem_of_fmap_2.
    + simpl. tauto.
  - pose proof (arrive_of_op (w_tm w) s rd Himp ltac:(done)) as Harr. rewrite Hno2 in Harr.
    destruct Harr as (tm1 & tm2 & E1 & E2 & Himp2).
    pose proof (recv_expected_of_op env tm2 _ id tag mask (recv_buffer_length b)
      (match b with Contig _ => true | IovBuf _ _ _ _ => false end) Himp2) as Hrecv.
    cbn [TagMatch.posted TagMatch.arrived] in Hrecv.
    rewrite filter_app, Hno1, filter_cons_True, filter_nil in Hrecv by done. cbn [app head] in Hrecv.
    destruct Hrecv as (tm3 & E3 & Himp3).
    { assert (TagMatch.exp_sn tm2 = TagMatch.exp_sn (w_tm w)) as Esn; [|by rewrite <- Esn in Hsn].
      rewrite (search_none_same _ _ _ E1) in E2. revert E2. unfold TagMatch.ucp_tag_unexp_recv.
      destruct (_ !! _); simpl; intros; by simplify_eq. }
    destruct (unpack_unexpected b (TagMatch.rd_tag rd) (TagMatch.rd_payload rd) Hnew Hd) as (st & b' & rr & U1 & U2 & Hrr).
    eexists _, (Worker tm3 (w_frag_hash w) _), rr. unfold ucp_eager_tagged_handler. rewrite (bind_eq _ _ _ E1).
    rewrite decide_True by by left. cbn [w_tm set_tm]. rewrite (bind_eq _ _ _ E2). split; [done|].
    unfold ucp_tag_recv_nbx. cbn [w_tm set_tm]. rewrite (bind_eq _ _ _ E3), Hk.
    rewrite (bind_eq _ _ _ U1), (bind_eq _ _ _ U2). split; [done|]. cbn [w_reqs w_tm]. split; [apply lookup_insert_eq|]. split; [done|].
    unfold TagMatch.without_rdesc in Himp3. rewrite filter_app, filter_cons_False, filter_nil, app_nil_r, filter_all in Himp3.
    + by destruct s.
    + intros p Hp Hpid. apply Hrid. rewrite <- Hpid. by apply list_elem_of_fmap_2.
    + tauto.
Qed.

(** When a middle fragment is the first of its message and cannot be kept
    because no descriptor can be allocated, the handler deletes the new hash
    entry and then fails its own last assertion, which still reads that entry as
    an empty queue. *)
Theorem middle_no_memory_asserts w k offset data st :
  w_frag_hash w !! k = None -> st <> UCS_OK -> st <> UCS_INPROGRESS ->
  ucp_eager_middle_handler w k offset data st = None.
Proof.
  intros Hk H1 H2. unfold ucp_eager_middle_handler. rewrite Hk. cbn [default option_map from_option].
  rewrite decide_False by tauto. by rewrite bool_decide_true.
Qed.

Lemma middle_no_memory_asserts_witness :
  ucp_eager_middle_handler (Worker (TagMatch.TagMatch (TagMatch.ReqQueue [] 0 0) [] 0 0 [] []) ∅ ∅) 7 0 [1] UCS_ERR_NO_MEMORY = None.
Proof. apply middle_no_memory_asserts; [apply lookup_empty|done|done]. Defined.

(** ** Examples *)

Definition sample_message : message := Message [1; 2; 3; 4; 5; 6] [1; 2] [(2, [3; 4]); (4, [5; 6])].
Definition sample_msgs : gmap Z message := {[7 := sample_message]}.
Definition sample_worker : worker :=
  Worker (TagMatch.TagMatch (TagMatch.ReqQueue [] 0 0) [] 0 0 [] []) ∅
         {[100 := recv_req_init (IovBuf [[0; 0; 0]; [0; 0; 0; 0]] 0 0 0)]}.
Definition sample_events : list event := [EvMiddle 7 (4, [5; 6]); EvFirst 7 100 9; EvMiddle 7 (2, [3; 4])].

Lemma sample_message_ok : message_ok sample_message.
Proof.
  constructor; try done.
  - intros f Hf. apply list_elem_of_In in Hf. simpl in Hf. destruct Hf as [<-|[<-|[<-|[]]]]; by vm_compute.
  - intros i Hi. unfold m_total in Hi. simpl in Hi. unfold covers, frag_len.
    destruct (decide (i < 2)); [exists (0, [1; 2])|destruct (decide (i < 4)); [exists (2, [3; 4])|exists (4, [5; 6])]];
      (split; [apply list_elem_of_In; simpl; tauto|simpl; lia]).
  - apply (bool_decide_unpack _). by vm_compute.
Qed.

Lemma sample_events_valid : valid_events sample_msgs sample_worker sample_events.
Proof.
  constructor.
  - repeat (apply NoDup_cons; split; [intros H%list_elem_of_In; simpl in H; intuition discriminate|]). apply NoDup_nil_2.
  - intros k f Hf. apply list_elem_of_In in Hf. exists sample_message. simpl in Hf.
    destruct Hf as [[= <- <-]|[?|[[= <- <-]|[]]]]; [|done|]; (split; [by vm_compute|apply list_elem_of_In; simpl; tauto]).
  - intros k id tag Hf. apply list_elem_of_In in Hf. simpl in Hf. destruct Hf as [?|[[= <- <- <-]|[?|[]]]]; [done| |done].
    split; [by exists sample_message; vm_compute|]. eexists. split; [by vm_compute|].
    split_and!; [done|done| |by vm_compute|by vm_compute].
    split; [by split; vm_compute|right]. split; [lia|]. by eexists; vm_compute.
  - intros k id tag k' id' tag' H1%list_elem_of_In H2%list_elem_of_In _. simpl in H1, H2. intuition congruence.
Qed.

Lemma eager_reassembly_witness : exists w' rr, run_events sample_msgs sample_worker sample_events = Some w' /\
  w_reqs w' !! 100 = Some rr /\ rr_status rr = UCS_OK /\ content (rr_buffer rr) = [1; 2; 3; 4; 5; 6; 0].
Proof.
  destruct (eager_reassembly sample_msgs sample_worker sample_events) as (w' & E & H);
    [apply map_Forall_singleton, sample_message_ok|done|apply sample_events_valid|].
  destruct (H 7 100 9 sample_message (recv_req_init (IovBuf [[0; 0; 0]; [0; 0; 0; 0]] 0 0 0))) as (rr & Hr & Hc & _);
    [right; left|by vm_compute|by vm_compute|].
  destruct Hc as (_ & _ & Hc & _); [intros f Hf%list_elem_of_In; simpl in Hf; apply list_elem_of_In; simpl; intuition congruence|].
  destruct Hc as [Hs Hc]; [by vm_compute|]. exists w', rr. split_and!; [exact E|exact Hr|exact Hs|exact Hc].
Defined.

Definition sample_only : TagMatch.ucp_recv_desc_t := TagMatch.Rdesc 300 9 12 8 [8; 9; 10; 11] TagMatch.EagerOnly.
Definition sample_idle : worker := Worker TagMatch.sample_tm ∅ ∅.

Lemma eager_only_either_order_witness :
  (exists w1 w2, ucp_tag_recv_nbx TagMatch.sample_env sample_idle 9 0xff 101 (Contig [0; 0; 0; 0; 0]) = Some (None, w1) /\
     ucp_eager_tagged_handler w1 sample_only UCS_OK = Some (UCS_OK, w2)) /\
  (exists w1 w2, ucp_eager_tagged_handler sample_idle sample_only UCS_OK = Some (UCS_OK, w1) /\
     ucp_tag_recv_nbx TagMatch.sample_env w1 9 0xff 101 (Contig [0; 0; 0; 0; 0]) = Some (None, w2)).
Proof.
  destruct (eager_only_either_order TagMatch.sample_env sample_idle (TagMatch.Spec [] []) 9 0xff 101 (Contig [0; 0; 0; 0; 0]) sample_only)
    as [(w1 & w2 & rr & E1 & E2 & _) (w3 & w4 & rr' & E3 & E4 & _)].
  - exact (TagMatch.match_init_ok _ TagMatch.sample_init).
  - split_and!; [lia|lia|lia|lia|apply not_elem_of_nil|by vm_compute|by vm_compute].
  - split; [by vm_compute|apply not_elem_of_nil].
  - done.
  - done.
  - by vm_compute.
  - done.
  - by vm_compute.
  - by vm_compute.
  - split; [exists w1, w2; split; [exact E1|exact E2]|exists w3, w4; split; [exact E3|exact E4]].
Defined.

End TagEager.
