(* ===== verification/Stream.v ===== *)
(** Streams of UCP endpoints.

    Models [ucp/stream/stream_recv.c], [stream.h] and [stream_send.c] with what
    they use of [ucp/core/ucp_request.inl] (completion of a stream receive,
    release of a descriptor), of [ucp/core/ucp_worker.c] (the list of ready
    endpoints) and of [ucp/proto/proto_am.inl]: data that arrives for an
    endpoint is stored in the posted receives or kept in descriptors, in the one
    queue [match_q] of the endpoint.  Datatypes are contiguous or IOV.  The
    callback of a receive is code of the user: here the calls it makes.  [None]
    is a failed assertion, an access outside of a buffer or a use of memory that
    is not there. *)

From S2P Require Import Prelude.
From S2P Require Import Iov.
From S2P Require Import TagEager.

Module Stream.

(** ** Data *)

Definition sizeof_ucp_recv_desc_t : Z := 48.
Definition sizeof_ucp_stream_am_data_t : Z := 8.
Definition UCP_WORKER_HEADROOM_PRIV_SIZE : Z := 32.

(** [ucp_recv_desc_t] with the memory that follows it: the [am_data] and the
    payload.  [UCP_RECV_DESC_FLAG_UCT_DESC] is the only flag in use. *)
Record ucp_recv_desc_t := Rdesc {
  rd_length : Z;
  rd_payload_offset : Z;
  rd_uct_desc : bool;
  rd_release_desc_offset : Z;
  rd_mem : list Z
}.

(** Datatypes: contiguous with the size of the element, and IOV. *)
Inductive ucp_datatype_t := DtContig (elem_size : Z) | DtIov.

(** The memory at the address of a receive or send buffer. *)
Inductive user_buffer := UserBytes (mem : list Z) | UserIov (iov : list (list Z)).

(** The fields of a stream receive request. *)
Record stream_req := StreamReq {
  sr_waitall : bool;              (* UCP_REQUEST_FLAG_STREAM_RECV_WAITALL *)
  sr_callback : bool;             (* UCP_REQUEST_FLAG_CALLBACK *)
  sr_offset : Z;                  (* recv.stream.offset *)
  sr_stream_length : Z;           (* recv.stream.length *)
  sr_datatype : ucp_datatype_t;
  sr_recv : TagEager.recv_req     (* buffer, length, state of the datatype, status *)
}.

(** The elements of [match_q]: descriptors or requests. *)
Inductive match_elem := QDesc (rdesc : Z) | QReq (req : Z).

(** The endpoint: the flags, whether [ready_list.next] is set, and [match_q]. *)
Record ucp_ep_t := Ep {
  ep_used : bool;
  ep_closed : bool;
  ep_has_data : bool;
  ep_ready_next : bool;
  ep_match_q : list match_elem
}.

(** What the calls of the user return: bytes at once, from
    [ucp_stream_recv_nbx] or [ucp_stream_recv_data_nb], a request, or an error. *)
Inductive outcome := GotBytes (data : list Z) | GotReq (req : Z) | GotError (status : ucs_status_t).

(** The worker.  [w_log], [w_released] and [w_held] are history: the outcomes of
    the calls on each endpoint, the descriptors given back to UCT ([true]) or to
    the memory pool, and the data pointers the user holds, each as a descriptor
    and an offset in it. *)
Record worker := Worker {
  w_stream : bool;                      (* UCP_FEATURE_STREAM *)
  w_eps : gmap Z ucp_ep_t;              (* by endpoint id *)
  w_ready : list Z;                     (* stream_ready_eps *)
  w_descs : gmap Z ucp_recv_desc_t;     (* by address *)
  w_reqs : gmap Z stream_req;           (* in the order of allocation *)
  w_next_req : Z;
  w_log : list (Z * outcome);
  w_released : list (bool * Z);
  w_held : list (Z * Z)
}.

(** The parameters of a receive: fields and flags of [ucp_request_param_t], and
    whether [ucp_request_get] has a request. *)
Record recv_param := RecvParam {
  p_datatype : option ucp_datatype_t;   (* UCP_OP_ATTR_FIELD_DATATYPE *)
  p_no_imm_cmpl : bool;
  p_force_imm_cmpl : bool;
  p_callback : bool;
  p_waitall : bool;
  p_alloc : bool
}.

(** The calls a user makes. *)
Inductive user_call :=
| CallRecv (ep : Z) (buffer : user_buffer) (count : Z) (param : recv_param)
| CallRecvData (ep : Z)
| CallRelease (data : Z * Z)
| CallPoll (max_eps : nat).

(** *** Updates *)

Definition set_ep (w : worker) (e : Z) (ep : ucp_ep_t) : worker :=
  Worker (w_stream w) (<[e := ep]> (w_eps w)) (w_ready w) (w_descs w) (w_reqs w) (w_next_req w) (w_log w) (w_released w) (w_held w).
Definition set_ready (w : worker) (l : list Z) : worker :=
  Worker (w_stream w) (w_eps w) l (w_descs w) (w_reqs w) (w_next_req w) (w_log w) (w_released w) (w_held w).
Definition set_descs (w : worker) (m : gmap Z ucp_recv_desc_t) : worker :=
  Worker (w_stream w) (w_eps w) (w_ready w) m (w_reqs w) (w_next_req w) (w_log w) (w_released w) (w_held w).
Definition set_desc (w : worker) (a : Z) (rd : ucp_recv_desc_t) : worker := set_descs w (<[a := rd]> (w_descs w)).
Definition set_req (w : worker) (id : Z) (r : stream_req) : worker :=
  Worker (w_stream w) (w_eps w) (w_ready w) (w_descs w) (<[id := r]> (w_reqs w)) (w_next_req w) (w_log w) (w_released w) (w_held w).
Definition new_req (w : worker) (r : stream_req) : worker :=
  Worker (w_stream w) (w_eps w) (w_ready w) (w_descs w) (<[w_next_req w := r]> (w_reqs w)) (w_next_req w + 1) (w_log w) (w_released w) (w_held w).
Definition add_log (w : worker) (e : Z) (o : outcome) : worker :=
  Worker (w_stream w) (w_eps w) (w_ready w) (w_descs w) (w_reqs w) (w_next_req w) (w_log w ++ [(e, o)]) (w_released w) (w_held w).
Definition add_released (w : worker) (x : bool * Z) : worker :=
  Worker (w_stream w) (w_eps w) (w_ready w) (w_descs w) (w_reqs w) (w_next_req w) (w_log w) (w_released w ++ [x]) (w_held w).
Definition set_held (w : worker) (l : list (Z * Z)) : worker :=
  Worker (w_stream w) (w_eps w) (w_ready w) (w_descs w) (w_reqs w) (w_next_req w) (w_log w) (w_released w) l.

Definition set_match_q (ep : ucp_ep_t) (q : list match_elem) : ucp_ep_t :=
  Ep (ep_used ep) (ep_closed ep) (ep_has_data ep) (ep_ready_next ep) q.
Definition set_has_data (ep : ucp_ep_t) (b : bool) : ucp_ep_t :=
  Ep (ep_used ep) (ep_closed ep) b (ep_ready_next ep) (ep_match_q ep).
Definition set_ready_next (ep : ucp_ep_t) (b : bool) : ucp_ep_t :=
  Ep (ep_used ep) (ep_closed ep) (ep_has_data ep) b (ep_match_q ep).

(** [ucs_queue_push] on the [match_q] of an endpoint. *)
Definition push (w : worker) (e : Z) (x : match_elem) : option worker :=
  ep ← w_eps w !! e;
  Some (set_ep w e (set_match_q ep (ep_match_q ep ++ [x]))).

Definition set_recv (r : stream_req) (offset : Z) (rr : TagEager.recv_req) : stream_req :=
  StreamReq (sr_waitall r) (sr_callback r) offset (sr_stream_length r) (sr_datatype r) rr.

(** ** [stream.h] *)

Definition ucp_stream_ep_is_queued (ep : ucp_ep_t) : bool := ep_ready_next ep.

Definition ucp_stream_ep_has_data (ep : ucp_ep_t) : bool := ep_has_data ep.

Definition ucp_stream_ep_enqueue (w : worker) (e : Z) : option worker :=
  ep ← w_eps w !! e;
  _ ← assert (negb (ucp_stream_ep_is_queued ep));
  Some (set_ep (set_ready w (w_ready w ++ [e])) e (set_ready_next ep true)).

(** [ucs_list_del] needs a linked element. *)
Definition ucp_stream_ep_dequeue (w : worker) (e : Z) : option worker :=
  ep ← w_eps w !! e;
  _ ← assert (bool_decide (e ∈ w_ready w));
  Some (set_ep (set_ready w (filter (fun x => x <> e) (w_ready w))) e (set_ready_next ep false)).

Definition ucp_stream_worker_dequeue_ep_head (w : worker) : option (Z * worker) :=
  e ← head (w_ready w);
  ep ← w_eps w !! e;
  _ ← assert (ep_ready_next ep);
  w ← ucp_stream_ep_dequeue w e;
  Some (e, w).

(** [ucp_stream_worker_poll] ([ucp_worker.c]): the endpoints written to [poll_eps]. *)
Fixpoint ucp_stream_worker_poll (w : worker) (max_eps : nat) : option (list Z * worker) :=
  match max_eps, w_ready w with
  | O, _ | _, [] => Some ([], w)
  | S n, _ =>
      '(e, w) ← ucp_stream_worker_dequeue_ep_head w;
      '(l, w) ← ucp_stream_worker_poll w n;
      Some (e :: l, w)
  end.

(** ** Descriptors *)

(** The bytes from the offset [off] of a descriptor. *)
Definition desc_read (rd : ucp_recv_desc_t) (off len : Z) : option (list Z) :=
  Iov.read (rd_mem rd) (off - sizeof_ucp_recv_desc_t) len.

Definition desc_write (rd : ucp_recv_desc_t) (off : Z) (data : list Z) : option ucp_recv_desc_t :=
  mem ← Iov.write (rd_mem rd) (off - sizeof_ucp_recv_desc_t) data;
  Some (Rdesc (rd_length rd) (rd_payload_offset rd) (rd_uct_desc rd) (rd_release_desc_offset rd) mem).

(** A 64-bit pointer or integer stored in memory. *)
Definition le64_val (bs : list Z) : Z := foldr (fun b v => b + 256 * v) 0 bs.

Definition ucp_recv_desc_release (w : worker) (a : Z) : option worker :=
  rd ← w_descs w !! a;
  Some (add_released (set_descs w (delete a (w_descs w))) (rd_uct_desc rd, a - rd_release_desc_offset rd)).

(** A queue element used as a descriptor has to be one. *)
Definition ucp_stream_rdesc_dequeue (w : worker) (e : Z) : option (Z * worker) :=
  ep ← w_eps w !! e;
  match ep_match_q ep with
  | QDesc a :: q =>
      _ ← assert (ucp_stream_ep_has_data ep);
      if bool_decide (q = []) then
        let w := set_ep w e (set_has_data (set_match_q ep q) false) in
        w ← (if ucp_stream_ep_is_queued ep then ucp_stream_ep_dequeue w e else Some w);
        Some (a, w)
      else Some (a, set_ep w e (set_match_q ep q))
  | _ => None
  end.

Definition ucp_stream_rdesc_get (w : worker) (e : Z) : option (Z * ucp_recv_desc_t) :=
  ep ← w_eps w !! e;
  match ep_match_q ep with
  | QDesc a :: _ =>
      _ ← assert (ucp_stream_ep_has_data ep);
      rd ← w_descs w !! a;
      Some (a, rd)
  | _ => None
  end.

(** The data pointer and its length, or [None] when there is no data. *)
Definition ucp_stream_recv_data_nb_nolock (w : worker) (e : Z) : option (option (Z * Z * Z) * worker) :=
  ep ← w_eps w !! e;
  if negb (ucp_stream_ep_has_data ep) then Some (None, w)
  else
    '(a, w) ← ucp_stream_rdesc_dequeue w e;
    rd ← w_descs w !! a;
    let off := rd_payload_offset rd in
    rd' ← desc_write rd (off - sizeof_ucp_stream_am_data_t) (le64 a);
    Some (Some (a, off, rd_length rd), set_desc w a rd').

(** The bytes the data pointer shows to the user are part of the history. *)
Definition ucp_stream_recv_data_nb (w : worker) (e : Z) : option (option (Z * Z * Z) * worker) :=
  if negb (w_stream w) then Some (None, add_log w e (GotError UCS_ERR_INVALID_PARAM))
  else
    '(r, w) ← ucp_stream_recv_data_nb_nolock w e;
    match r with
    | None => Some (None, add_log w e (GotBytes []))
    | Some (a, off, len) =>
        rd ← w_descs w !! a;
        data ← desc_read rd off len;
        Some (r, add_log (set_held w ((a, off) :: w_held w)) e (GotBytes data))
    end.

Definition ucp_stream_rdesc_dequeue_and_release (w : worker) (a : Z) (e : Z) : option worker :=
  ep ← w_eps w !! e;
  _ ← assert (ucp_stream_ep_has_data ep);
  _ ← assert (match ep_match_q ep with QDesc a' :: _ => a' =? a | _ => false end);
  '(_, w) ← ucp_stream_rdesc_dequeue w e;
  ucp_recv_desc_release w a.

(** The pointer to the descriptor is read from the bytes before the data. *)
Definition ucp_stream_data_release (w : worker) (data : Z * Z) : option worker :=
  rd ← w_descs w !! data.1;
  bs ← desc_read rd (data.2 - sizeof_ucp_stream_am_data_t) 8;
  w ← ucp_recv_desc_release w (le64_val bs);
  Some (set_held w (filter (fun x => x <> data) (w_held w))).

(** ** Receives *)

(** The result is the number of bytes; a failure to unpack is its status. *)
Definition ucp_stream_rdata_unpack (data : list Z) (r : stream_req) : option ((ucs_status_t + Z) * stream_req) :=
  let len := Z.of_nat (length data) in
  let valid_len := u64 (TagEager.rr_length (sr_recv r) - sr_offset r) in
  let valid_len := if valid_len <=? len then valid_len else len in
  '(status, rr) ← TagEager.ucp_request_recv_data_unpack (sr_recv r) (take (Z.to_nat valid_len) data) (sr_offset r);
  if decide (status = UCS_OK) then Some (inr valid_len, set_recv r (u64 (sr_offset r + valid_len)) rr)
  else
    _ ← assert (bool_decide (status <> UCS_ERR_MESSAGE_TRUNCATED));
    Some (inl status, set_recv r (sr_offset r) rr).

(** On a descriptor of the queue. *)
Definition ucp_stream_rdesc_advance (w : worker) (a : Z) (rd : ucp_recv_desc_t) (unpacked : ucs_status_t + Z) (e : Z) :
  option (ucs_status_t * worker) :=
  match unpacked with
  | inl status => Some (status, w)
  | inr offset =>
      _ ← assert (offset <=? rd_length rd);
      if offset =? rd_length rd then
        w ← ucp_stream_rdesc_dequeue_and_release w a e;
        Some (UCS_OK, w)
      else
        Some (UCS_OK, set_desc w a (Rdesc (u32 (rd_length rd - offset)) (u32 (rd_payload_offset rd + offset))
                                          (rd_uct_desc rd) (rd_release_desc_offset rd) (rd_mem rd)))
  end.

(** [ucp_dt_unpack_only] without truncation. *)
Definition dt_unpack_only (b : TagEager.recv_buffer) (data : list Z) : option TagEager.recv_buffer :=
  match b with
  | TagEager.Contig buf => buf ← Iov.write buf 0 data; Some (TagEager.Contig buf)
  | TagEager.IovBuf iov offset iov_offset iovcnt_offset =>
      s ← Iov.ucp_dt_iov_scatter iov data (Z.of_nat (length data)) 0 0;
      Some (TagEager.IovBuf (Iov.s_iov s) offset iov_offset iovcnt_offset)
  end.

Definition ucp_stream_process_rdesc_inplace (w : worker) (a : Z) (rd : ucp_recv_desc_t) (b : TagEager.recv_buffer)
    (len : Z) (e : Z) : option (ucs_status_t * TagEager.recv_buffer * worker) :=
  data ← desc_read rd (rd_payload_offset rd) len;
  b ← dt_unpack_only b data;
  '(status, w) ← ucp_stream_rdesc_advance w a rd (inr len) e;
  Some (status, b, w).

Definition ucp_stream_process_rdesc (w : worker) (a : Z) (rd : ucp_recv_desc_t) (e : Z) (r : stream_req) :
  option (ucs_status_t * stream_req * worker) :=
  data ← desc_read rd (rd_payload_offset rd) (rd_length rd);
  '(unpacked, r) ← ucp_stream_rdata_unpack data r;
  _ ← assert (sr_offset r <=? TagEager.rr_length (sr_recv r));
  '(status, w) ← ucp_stream_rdesc_advance w a rd unpacked e;
  Some (status, r, w).

Definition ucp_contig_dt_length (elem_size count : Z) : Z := u64 (count * elem_size).

(** [ucp_dt_length]. *)
Definition dt_length_of (dt : ucp_datatype_t) (count : Z) (buffer : user_buffer) : option Z :=
  match dt, buffer with
  | DtContig elem_size, _ => Some (ucp_contig_dt_length elem_size count)
  | DtIov, UserIov iov => Some (Iov.ucp_dt_iov_length (take (Z.to_nat count) iov))
  | DtIov, UserBytes _ => None
  end.

(** The part of the memory of the user that a receive of the datatype uses. *)
Definition dt_buffer (dt : ucp_datatype_t) (count : Z) (buffer : user_buffer) : option TagEager.recv_buffer :=
  match dt, buffer with
  | DtContig elem_size, UserBytes mem =>
      let len := ucp_contig_dt_length elem_size count in
      _ ← assert (len <=? Z.of_nat (length mem));
      Some (TagEager.Contig (take (Z.to_nat len) mem))
  | DtIov, UserIov iov =>
      _ ← assert (count <=? Z.of_nat (length iov));
      Some (TagEager.IovBuf (take (Z.to_nat count) iov) 0 0 0)
  | _, _ => None
  end.

Definition ucp_stream_recv_request_init (b : TagEager.recv_buffer) (len : Z) (dt : ucp_datatype_t) (param : recv_param) :
  stream_req :=
  StreamReq (p_waitall param) (p_callback param) 0 0 dt
    (TagEager.RecvReq (TagEager.ucp_dt_recv_state_init b) len 0 UCS_OK 0 0 false).

Definition ucp_stream_recv_nb_is_inplace (w : worker) (e : Z) (dt_length : Z) : option bool :=
  ep ← w_eps w !! e;
  if ucp_stream_ep_has_data ep then
    '(_, rd) ← ucp_stream_rdesc_get w e;
    Some (dt_length <=? rd_length rd)
  else Some false.

Definition ucp_request_can_complete_stream_recv (r : stream_req) : bool :=
  if sr_offset r =? TagEager.rr_length (sr_recv r) then true
  else if sr_waitall r then false
  else if sr_offset r =? 0 then false
  else match sr_datatype r with
       | DtContig elem_size => sr_offset r mod elem_size =? 0
       | DtIov => true
       end.

(** The loop of [ucp_stream_recv_nbx] over the data that arrived. *)
Definition recv_step (e : Z) (s : worker * stream_req) : option ((worker * stream_req) + (ucs_status_t * worker * stream_req)) :=
  let '(w, r) := s in
  ep ← w_eps w !! e;
  if (sr_offset r <? TagEager.rr_length (sr_recv r)) && ucp_stream_ep_has_data ep then
    '(a, rd) ← ucp_stream_rdesc_get w e;
    '(status, r, w) ← ucp_stream_process_rdesc w a rd e r;
    if decide (status <> UCS_OK) then Some (inr (status, w, r)) else Some (inl (w, r))
  else Some (inr (UCS_OK, w, r)).

(** A receive that is in progress when the call returns is a request; its number
    is the one of [w_next_req].  A request that is put back leaves no trace. *)
Definition recv_request (w : worker) (e : Z) (b : TagEager.recv_buffer) (dt_length : Z) (dt : ucp_datatype_t)
    (param : recv_param) : option worker :=
  if p_force_imm_cmpl param then Some (add_log w e (GotError UCS_ERR_NO_RESOURCE))
  else if negb (p_alloc param) then Some (add_log w e (GotError UCS_ERR_NO_MEMORY))
  else
    '(status, w, r) ← while (recv_step e) (w, ucp_stream_recv_request_init b dt_length dt param);
    if decide (status <> UCS_OK) then Some (add_log w e (GotError status))
    else
      _ ← assert (sr_offset r <=? TagEager.rr_length (sr_recv r));
      if ucp_request_can_complete_stream_recv r then
        Some (add_log w e (GotBytes (take (Z.to_nat (sr_offset r)) (TagEager.content (TagEager.rr_buffer (sr_recv r))))))
      else
        ep ← w_eps w !! e;
        _ ← assert (negb (ucp_stream_ep_has_data ep));
        w' ← push (new_req w r) e (QReq (w_next_req w));
        Some (add_log w' e (GotReq (w_next_req w))).

(** The in-place path: [None] when the data that arrived does not fill the buffer. *)
Definition recv_inplace (w : worker) (e : Z) (b : TagEager.recv_buffer) (dt_length : Z) : option (option worker) :=
  inplace ← ucp_stream_recv_nb_is_inplace w e dt_length;
  if inplace : bool then
    '(a, rd) ← ucp_stream_rdesc_get w e;
    '(status, b, w) ← ucp_stream_process_rdesc_inplace w a rd b dt_length e;
    Some (Some (if decide (status = UCS_OK)
                then add_log w e (GotBytes (take (Z.to_nat dt_length) (TagEager.content b)))
                else add_log w e (GotError status)))
  else Some None.

Definition ucp_stream_recv_nbx (w : worker) (e : Z) (buffer : user_buffer) (count : Z) (param : recv_param) : option worker :=
  if negb (w_stream w) then Some (add_log w e (GotError UCS_ERR_INVALID_PARAM))
  else
    match p_datatype param, p_no_imm_cmpl param with
    | None, false =>
        let datatype := DtContig 1 in
        b ← dt_buffer datatype count buffer;
        r ← recv_inplace w e b count;
        match r with Some w => Some w | None => recv_request w e b count datatype param end
    | Some datatype, false =>
        dt_length ← dt_length_of datatype count buffer;
        b ← dt_buffer datatype count buffer;
        r ← recv_inplace w e b dt_length;
        match r with Some w => Some w | None => recv_request w e b dt_length datatype param end
    | _, true =>
        let datatype := DtContig 1 in
        b ← dt_buffer datatype count buffer;
        recv_request w e b count datatype param
    end.

Definition ucp_stream_recv_nb (w : worker) (e : Z) (buffer : user_buffer) (count : Z) (datatype : ucp_datatype_t)
    (waitall alloc : bool) : option worker :=
  ucp_stream_recv_nbx w e buffer count (RecvParam (Some datatype) false false true waitall alloc).

(** ** Calls of the user *)

Definition user_step (w : worker) (c : user_call) : option worker :=
  match c with
  | CallRecv e buffer count param => ucp_stream_recv_nbx w e buffer count param
  | CallRecvData e => r ← ucp_stream_recv_data_nb w e; Some r.2
  | CallRelease data => ucp_stream_data_release w data
  | CallPoll max_eps => r ← ucp_stream_worker_poll w max_eps; Some r.2
  end.

Fixpoint user_steps (w : worker) (cs : list user_call) : option worker :=
  match cs with
  | [] => Some w
  | c :: cs => w ← user_step w c; user_steps w cs
  end.

(** ** Arrival and completion *)

(** How a message arrives: in memory of the transport ([UCT_CB_PARAM_FLAG_DESC])
    at the address of the descriptor in front of it, or to be copied to an object
    of the memory pool, given by its address and its memory. *)
Inductive am_memory := AmDesc (rdesc : Z) | AmCopy (obj : option (Z * list Z)).

(** The request after [ucp_request_complete]. *)
Definition complete_req (r : stream_req) (status : ucs_status_t) : stream_req :=
  let rr := sr_recv r in
  StreamReq (sr_waitall r) (sr_callback r) (sr_offset r) (sr_offset r) (sr_datatype r)
    (TagEager.RecvReq (TagEager.rr_buffer rr) (TagEager.rr_length rr) (TagEager.rr_remaining rr) status
                      (TagEager.rr_sender_tag rr) (TagEager.rr_info_length rr) true).

Section callbacks.

(** The calls made by the callback of a request. *)
Variable recv_stream_cb : Z -> ucs_status_t -> Z -> list user_call.

Definition ucp_request_complete_stream_recv (w : worker) (id : Z) (e : Z) (status : ucs_status_t) : option worker :=
  ep ← w_eps w !! e;
  match ep_match_q ep with
  | QReq id' :: q =>
      _ ← assert (id' =? id);
      r ← w_reqs w !! id;
      _ ← assert ((0 <? sr_offset r) || negb (bool_decide (status = UCS_OK) || bool_decide (status = UCS_INPROGRESS)));
      _ ← assert (negb (TagEager.rr_completed (sr_recv r)));
      _ ← assert (bool_decide (status <> UCS_INPROGRESS));
      let r := complete_req r status in
      let w := set_req (set_ep w e (set_match_q ep q)) id r in
      if sr_callback r then user_steps w (recv_stream_cb id status (sr_stream_length r)) else Some w
  | _ => None
  end.

(** The loop over the expected requests: [rest] of the payload is left.  The
    exit is [None] when the message is used up. *)
Definition expected_step (e : Z) (s : worker * list Z) : option ((worker * list Z) + (worker * option (list Z))) :=
  let '(w, rest) := s in
  ep ← w_eps w !! e;
  match ep_match_q ep with
  | [] => Some (inr (w, Some rest))
  | QDesc _ :: _ => None
  | QReq id :: _ =>
      r ← w_reqs w !! id;
      '(unpacked, r) ← ucp_stream_rdata_unpack rest r;
      let w := set_req w id r in
      match unpacked with
      | inl _ => None                                      (* ucs_fatal *)
      | inr n =>
          if n =? Z.of_nat (length rest) then
            w ← (if ucp_request_can_complete_stream_recv r
                 then ucp_request_complete_stream_recv w id e UCS_OK else Some w);
            Some (inr (w, None))
          else
            _ ← assert (n <=? Z.of_nat (length rest));
            _ ← assert (ucp_request_can_complete_stream_recv r);
            w ← ucp_request_complete_stream_recv w id e UCS_OK;
            Some (inl (w, drop (Z.to_nat n) rest))
      end
  end.

(** The descriptor of the rest of a message, with its address; [consumed] bytes
    of the payload are stored in requests. *)
Definition rest_desc (mem : am_memory) (am_data : list Z) (consumed : Z) (rest : list Z) : option (Z * ucp_recv_desc_t) :=
  let len := Z.of_nat (length rest) in
  match mem with
  | AmCopy obj =>
      '(a, obj) ← obj;
      rd ← desc_write (Rdesc (u32 len) (sizeof_ucp_recv_desc_t + sizeof_ucp_stream_am_data_t) false 0 obj)
             (sizeof_ucp_recv_desc_t + sizeof_ucp_stream_am_data_t) rest;
      Some (a, rd)
  | AmDesc a =>
      let payload_offset := u32 (sizeof_ucp_stream_am_data_t + consumed) in
      Some (a, Rdesc (u32 len) (u32 (payload_offset + sizeof_ucp_recv_desc_t)) true UCP_WORKER_HEADROOM_PRIV_SIZE am_data)
  end.

(** [UCS_OK] when all data is stored, otherwise [UCS_INPROGRESS].  The length of
    a descriptor has 32 bits, also the one of [rdesc_tmp]. *)
Definition ucp_stream_am_data_process (w : worker) (e : Z) (am_data : list Z) (mem : am_memory) :
  option (ucs_status_t * worker) :=
  ep ← w_eps w !! e;
  let payload := drop (Z.to_nat sizeof_ucp_stream_am_data_t) am_data in
  let payload := take (Z.to_nat (u32 (Z.of_nat (length payload)))) payload in
  '(w, rest) ← (if negb (ucp_stream_ep_has_data ep) then while (expected_step e) (w, payload)
                else Some (w, Some payload));
  match rest with
  | None => Some (UCS_OK, w)
  | Some rest =>
      _ ← assert (0 <? Z.of_nat (length rest));
      '(a, rd) ← rest_desc mem am_data (Z.of_nat (length payload) - Z.of_nat (length rest)) rest;
      let w := set_desc w a rd in
      ep ← w_eps w !! e;
      w ← push (set_ep w e (set_has_data ep true)) e (QDesc a);
      Some (UCS_INPROGRESS, w)
  end.

(** The status tells UCT whether the descriptor is still in use. *)
Definition ucp_stream_am_handler (w : worker) (am_data : list Z) (mem : am_memory) : option (ucs_status_t * worker) :=
  _ ← assert (8 <=? Z.of_nat (length am_data));
  let e := le64_val (take 8 am_data) in
  match w_eps w !! e with
  | None => Some (UCS_OK, w)
  | Some ep =>
      if ep_closed ep then Some (UCS_OK, w)
      else
        '(status, w) ← ucp_stream_am_data_process w e am_data mem;
        if decide (status = UCS_OK) then Some (UCS_OK, w)
        else
          _ ← assert (bool_decide (status = UCS_INPROGRESS));
          ep ← w_eps w !! e;
          w ← (if negb (ucp_stream_ep_is_queued ep) && ep_used ep then ucp_stream_ep_enqueue w e else Some w);
          Some (match mem with AmDesc _ => UCS_INPROGRESS | AmCopy _ => UCS_OK end, w)
  end.

Definition ucp_stream_ep_activate (w : worker) (e : Z) : option worker :=
  ep ← w_eps w !! e;
  if w_stream w && ucp_stream_ep_has_data ep && negb (ucp_stream_ep_is_queued ep) then ucp_stream_ep_enqueue w e
  else Some w.

(** [ucp_stream_ep_init], on an endpoint that is not linked. *)
Definition ucp_stream_ep_init (w : worker) (e : Z) : option worker :=
  ep ← w_eps w !! e;
  Some (if w_stream w then set_ep w e (set_match_q (set_ready_next ep false) []) else w).

(** The loops of [ucp_stream_ep_cleanup]. *)
Definition drop_step (e : Z) (w : worker) : option (worker + worker) :=
  '(r, w) ← ucp_stream_recv_data_nb_nolock w e;
  match r with
  | None => Some (inr w)
  | Some (a, off, _) => w ← ucp_stream_data_release w (a, off); Some (inl w)
  end.

Definition cancel_step (e : Z) (status : ucs_status_t) (w : worker) : option (worker + worker) :=
  ep ← w_eps w !! e;
  match ep_match_q ep with
  | [] => Some (inr w)
  | QReq id :: _ => w ← ucp_request_complete_stream_recv w id e status; Some (inl w)
  | QDesc _ :: _ => None
  end.

Definition ucp_stream_ep_cleanup (w : worker) (e : Z) (status : ucs_status_t) : option worker :=
  if negb (w_stream w) then Some w
  else
    w ← while (drop_step e) w;
    ep ← w_eps w !! e;
    w ← (if ucp_stream_ep_is_queued ep then ucp_stream_ep_dequeue w e else Some w);
    ep ← w_eps w !! e;
    _ ← assert (negb (ucp_stream_ep_has_data ep));
    while (cancel_step e status) w.

End callbacks.

End Stream.
