(* ===== verification/StreamInvariant.v ===== *)
(** The invariant of the streams of a worker.

    What the user obtained from an endpoint, by the calls in their order, and what
    is queued at it is the data that arrived; the queue of an endpoint holds
    either descriptors with data or requests that cannot be completed yet.  Each
    operation of [Stream] keeps the invariant and fails no assertion. *)

From S2P Require Import Prelude.
From S2P Require Import Iov.
From S2P Require Import TagEager.
From S2P Require Import Stream.

Module StreamInvariant.
Import Stream.

#[export] Instance match_elem_eq_dec : EqDecision match_elem.
Proof. solve_decision. Defined.

(** ** What is observed *)

(** The payload of a descriptor. *)
Definition desc_bytes (rd : ucp_recv_desc_t) : list Z :=
  Iov.sub (rd_mem rd) (rd_payload_offset rd - sizeof_ucp_recv_desc_t) (rd_length rd).

(** The bytes stored in the buffer of a request. *)
Definition req_bytes (r : stream_req) : list Z :=
  take (Z.to_nat (sr_offset r)) (TagEager.content (TagEager.rr_buffer (sr_recv r))).

Definition elem_bytes (w : worker) (x : match_elem) : list Z :=
  match x with QDesc a => default [] (desc_bytes <$> w_descs w !! a) | QReq _ => [] end.

Definition q_of (w : worker) (e : Z) : list match_elem := default [] (ep_match_q <$> w_eps w !! e).

(** The data queued at an endpoint. *)
Definition queued (w : worker) (e : Z) : list Z := concat (elem_bytes w <$> q_of w e).

(** The outcomes of the calls on an endpoint, and the bytes they gave to the user. *)
Definition log_of (w : worker) (e : Z) : list outcome :=
  omap (fun x : Z * outcome => if decide (x.1 = e) then Some x.2 else None) (w_log w).

Definition outcome_bytes (w : worker) (o : outcome) : list Z :=
  match o with
  | GotBytes data => data
  | GotReq id => default [] (req_bytes <$> w_reqs w !! id)
  | GotError _ => []
  end.

Definition obtained (w : worker) (e : Z) : list Z := concat (outcome_bytes w <$> log_of w e).

Definition log_reqs (l : list outcome) : list Z :=
  omap (fun o => match o with GotReq id => Some id | _ => None end) l.

(** ** The invariant *)

(** A descriptor with data: its payload and the bytes before it are in its memory. *)
Definition desc_ok (rd : ucp_recv_desc_t) : Prop :=
  0 < rd_length rd /\ sizeof_ucp_recv_desc_t + sizeof_ucp_stream_am_data_t <= rd_payload_offset rd /\
  rd_payload_offset rd - sizeof_ucp_recv_desc_t + rd_length rd <= Z.of_nat (length (rd_mem rd)) /\
  sizeof_ucp_recv_desc_t + Z.of_nat (length (rd_mem rd)) < 2 ^ 32.

Definition datatype_ok (dt : ucp_datatype_t) : Prop := match dt with DtContig n => 0 < n | DtIov => True end.

Definition req_ok (r : stream_req) : Prop :=
  TagEager.buffer_ok (TagEager.rr_buffer (sr_recv r)) /\
  TagEager.rr_length (sr_recv r) = Z.of_nat (length (TagEager.content (TagEager.rr_buffer (sr_recv r)))) /\
  TagEager.rr_length (sr_recv r) < 2 ^ 63 /\ 0 <= sr_offset r <= TagEager.rr_length (sr_recv r) /\
  datatype_ok (sr_datatype r) /\ (forall n, sr_datatype r = DtContig n -> (n | TagEager.rr_length (sr_recv r))).

(** A request that is in progress, and one that can still be filled. *)
Definition active (r : stream_req) : Prop :=
  TagEager.rr_status (sr_recv r) = UCS_OK /\ TagEager.rr_completed (sr_recv r) = false.

Definition pending (r : stream_req) : Prop :=
  req_ok r /\ active r /\ ucp_request_can_complete_stream_recv r = false.

(** A request that was completed. *)
Definition completed (r : stream_req) : Prop :=
  req_ok r /\ TagEager.rr_completed (sr_recv r) = true /\ sr_stream_length r = sr_offset r /\
  (TagEager.rr_status (sr_recv r) = UCS_OK -> ucp_request_can_complete_stream_recv r = true /\ 0 < sr_offset r).

(** The address of a descriptor. *)
Definition addr_ok (a : Z) : Prop := 0 < a < 2 ^ 64.

Definition queue_ok (w : worker) (ep : ucp_ep_t) : Prop :=
  if ep_has_data ep then
    ep_match_q ep <> [] /\
    (forall x, x ∈ ep_match_q ep -> exists a rd, x = QDesc a /\ addr_ok a /\ w_descs w !! a = Some rd /\ desc_ok rd)
  else
    ep_ready_next ep = false /\
    (forall x, x ∈ ep_match_q ep -> exists id r, x = QReq id /\ w_reqs w !! id = Some r /\ pending r).

(** The first request of a queue is the last call that obtained data. *)
Definition tail_ok (w : worker) (e : Z) : Prop :=
  forall id q, q_of w e = QReq id :: q ->
  exists l1 l2, log_of w e = l1 ++ GotReq id :: l2 /\ (forall o, o ∈ l2 -> outcome_bytes w o = []) /\
    q = QReq <$> log_reqs l2.

Definition held_ok (w : worker) (d : Z * Z) : Prop :=
  addr_ok d.1 /\ (forall e, QDesc d.1 ∉ q_of w e) /\
  exists rd, w_descs w !! d.1 = Some rd /\ desc_read rd (d.2 - sizeof_ucp_stream_am_data_t) 8 = Some (le64 d.1).

Record sinv (w : worker) : Prop := {
  sinv_stream : w_stream w = true;
  sinv_queue : forall e ep, w_eps w !! e = Some ep -> queue_ok w ep;
  sinv_tail : forall e, tail_ok w e;
  sinv_owner : forall e1 e2 x, x ∈ q_of w e1 -> x ∈ q_of w e2 -> e1 = e2;
  sinv_nodup : forall e, NoDup (q_of w e);
  sinv_reqs : forall id r, w_reqs w !! id = Some r -> id < w_next_req w /\
    (completed r \/ (pending r /\ exists e, QReq id ∈ q_of w e));
  sinv_log : NoDup (log_reqs (w_log w).*2) /\ (forall id, id ∈ log_reqs (w_log w).*2 -> is_Some (w_reqs w !! id));
  sinv_ready : NoDup (w_ready w) /\
    (forall e, e ∈ w_ready w <-> exists ep, w_eps w !! e = Some ep /\ ep_ready_next ep = true);
  sinv_held : NoDup (w_held w).*1 /\ (forall d, d ∈ w_held w -> held_ok w d)
}.

(** [arr] is the data that arrived. *)
Definition inv (arr : Z -> list Z) (w : worker) : Prop :=
  sinv w /\ forall e, obtained w e ++ queued w e = arr e.

(** ** Lookups after updates *)

Lemma q_of_lookup w e ep : w_eps w !! e = Some ep -> q_of w e = ep_match_q ep.
Proof. unfold q_of. by intros ->. Qed.

Lemma q_of_set_ep w e ep e' : q_of (set_ep w e ep) e' = if decide (e' = e) then ep_match_q ep else q_of w e'.
Proof. unfold q_of. cbn. case_decide; [subst; by rewrite lookup_insert_eq|by rewrite lookup_insert_ne]. Qed.

Lemma q_of_elem w e x : x ∈ q_of w e -> exists ep, w_eps w !! e = Some ep /\ x ∈ ep_match_q ep.
Proof. unfold q_of. destruct (w_eps w !! e) as [ep|]; cbn; [by eauto|by rewrite elem_of_nil]. Qed.

Lemma log_of_add w e o e' : log_of (add_log w e o) e' = log_of w e' ++ (if decide (e' = e) then [o] else []).
Proof.
  unfold log_of. cbn. rewrite omap_app. cbn. f_equal.
  destruct (decide (e' = e)) as [->|]; [by rewrite decide_True|by rewrite decide_False].
Qed.

Lemma obtained_add w e o e' : obtained (add_log w e o) e' = obtained w e' ++ (if decide (e' = e) then outcome_bytes w o else []).
Proof.
  unfold obtained. rewrite log_of_add, fmap_app, concat_app. f_equal. case_decide; [|done]. cbn. by rewrite app_nil_r.
Qed.

Lemma log_reqs_app l k : log_reqs (l ++ k) = log_reqs l ++ log_reqs k.
Proof. apply omap_app. Qed.

Lemma elem_of_log_reqs id l : id ∈ log_reqs l <-> GotReq id ∈ l.
Proof.
  unfold log_reqs. rewrite list_elem_of_omap. split; [|intros H; by exists (GotReq id)].
  intros ([data|id'|st] & Hin & ?); simplify_eq. done.
Qed.

Lemma elem_of_log_of w e o : o ∈ log_of w e <-> (e, o) ∈ w_log w.
Proof.
  unfold log_of. rewrite list_elem_of_omap. split.
  - intros ([e' o'] & Hin & H). cbn in H. case_decide; [|done]. by simplify_eq.
  - intros H. exists (e, o). split; [done|]. cbn. by rewrite decide_True.
Qed.

(** The requests of one endpoint are among those of the log. *)
Lemma log_of_sublist w e : log_reqs (log_of w e) `sublist_of` log_reqs (w_log w).*2.
Proof.
  unfold log_of. induction (w_log w) as [|[e' o] l IH]; cbn; [done|].
  destruct (decide (e' = e)) as [->|]; destruct o; cbn; try exact IH; by constructor.
Qed.

Lemma log_of_other w e e' id : NoDup (log_reqs (w_log w).*2) -> GotReq id ∈ log_of w e -> GotReq id ∈ log_of w e' -> e = e'.
Proof.
  rewrite !elem_of_log_of. induction (w_log w) as [|[e0 o] l IH]; cbn; [by rewrite elem_of_nil|].
  rewrite !elem_of_cons. intros Hnd H1 H2.
  assert (forall e1, (e1, GotReq id) ∈ l -> id ∈ log_reqs l.*2) as Hin.
  { intros e1 H. apply elem_of_log_reqs, list_elem_of_fmap. by exists (e1, GotReq id). }
  destruct H1 as [?|H1], H2 as [?|H2]; simplify_eq; [done| | |].
  - apply NoDup_cons in Hnd as [[] _]. eauto.
  - apply NoDup_cons in Hnd as [[] _]. eauto.
  - apply IH; [|done|done]. destruct o; cbn in Hnd; [done|by apply NoDup_cons in Hnd as [_ ?]|done].
Qed.

(** ** History *)

Lemma outcome_bytes_new w e o : outcome_bytes (add_log w e o) = outcome_bytes w.
Proof. done. Qed.

Lemma sinv_add_log w e o : sinv w -> log_reqs [o] = [] ->
  (forall id q, q_of w e = QReq id :: q -> outcome_bytes w o = []) -> sinv (add_log w e o).
Proof.
  intros [Hs Hq Ht Ho Hn Hr [Hl1 Hl2] Hrd Hh] Hnr Hb. split; try done.
  - intros e' id q E. destruct (Ht e' id q E) as (l1 & l2 & E1 & H1 & ->). rewrite log_of_add, E1. case_decide as He.
    + subst e'. exists l1, (l2 ++ [o]). rewrite <- app_assoc. split; [done|]. split; [|by rewrite log_reqs_app, Hnr, app_nil_r].
      intros o'. rewrite elem_of_app, list_elem_of_singleton. intros [H| ->]; [by apply H1|by eapply Hb].
    + exists l1, l2. by rewrite app_nil_r.
  - cbn. rewrite fmap_app, log_reqs_app. cbn [fmap list_fmap snd]. by rewrite Hnr, app_nil_r.
Qed.

(** ** Endpoints *)

(** An update of one endpoint and of the ready list that keeps the requests of
    the queue. *)
Lemma sinv_update_ep w e ep ep' R rel : sinv w -> w_eps w !! e = Some ep -> queue_ok w ep' ->
  (forall x, x ∈ ep_match_q ep' -> x ∈ ep_match_q ep) -> NoDup (ep_match_q ep') ->
  (forall id q, ep_match_q ep' = QReq id :: q -> ep_match_q ep' = ep_match_q ep) ->
  (forall id, QReq id ∈ ep_match_q ep -> QReq id ∈ ep_match_q ep') ->
  NoDup R -> (forall e', e' <> e -> e' ∈ R <-> e' ∈ w_ready w) -> (e ∈ R <-> ep_ready_next ep' = true) ->
  sinv (Worker (w_stream w) (<[e := ep']> (w_eps w)) R (w_descs w) (w_reqs w) (w_next_req w) (w_log w) rel (w_held w)).
Proof.
  intros [Hs Hq Ht Ho Hn Hr Hl [Hrd1 Hrd2] [Hh1 Hh2]] Hep Hqok Hsub Hnd Htl Hreq HR HRo HRe.
  set (w' := Worker _ _ _ _ _ _ _ _ _).
  assert (forall e', q_of w' e' = if decide (e' = e) then ep_match_q ep' else q_of w e') as Hqof by apply (q_of_set_ep w e ep').
  assert (forall e' x, x ∈ q_of w' e' -> x ∈ q_of w e') as Hin.
  { intros e' x. rewrite Hqof. case_decide; [subst|done]. rewrite (q_of_lookup w e ep Hep). apply Hsub. }
  split; try done.
  - intros e' ep0. cbn. rewrite lookup_insert_Some. intros [[-> <-]|[_ H]]; [done|by apply (Hq e')].
  - intros e' id q. rewrite Hqof. case_decide as He; [subst e'|apply Ht].
    intros E. rewrite (Htl id q E), <- (q_of_lookup w e ep Hep) in E. by apply Ht.
  - intros e1 e2 x H1 H2. apply (Ho e1 e2 x); by apply Hin.
  - intros e'. rewrite Hqof. by case_decide.
  - intros id r E. destruct (Hr id r E) as [? [?|[? (e' & H)]]]; [by auto|]. split; [done|]. right. split; [done|]. exists e'.
    rewrite Hqof. case_decide; [subst|done]. apply Hreq. by rewrite <- (q_of_lookup w e ep).
  - split; [done|]. intros e'. cbn. destruct (decide (e' = e)) as [->|Hne].
    + rewrite lookup_insert_eq, HRe. split; [by eauto|]. by intros (? & ? & ?); simplify_eq.
    + rewrite lookup_insert_ne, HRo by done. apply Hrd2.
  - split; [done|]. intros d Hd. destruct (Hh2 d Hd) as (? & Hnq & ?). split; [done|]. split; [|done].
    intros e' Hx. by apply (Hnq e'), Hin.
Qed.

Lemma ready_linked w e ep : sinv w -> w_eps w !! e = Some ep -> e ∈ w_ready w <-> ep_ready_next ep = true.
Proof.
  intros Hi Hep. destruct (sinv_ready w Hi) as [_ H]. rewrite H. split; [by intros (? & ? & ?); simplify_eq|by eauto].
Qed.

Lemma NoDup_snoc_new {A} (l : list A) x : NoDup l -> x ∉ l -> NoDup (l ++ [x]).
Proof. intros H Hx. apply NoDup_app. split; [done|]. split; [|apply NoDup_singleton]. intros y Hy. rewrite list_elem_of_singleton. by intros ->. Qed.

Lemma enqueue_ok w e ep : sinv w -> w_eps w !! e = Some ep -> ep_has_data ep = true -> ep_ready_next ep = false ->
  exists w', ucp_stream_ep_enqueue w e = Some w' /\ sinv w' /\ w' = set_ep (set_ready w (w_ready w ++ [e])) e (set_ready_next ep true).
Proof.
  intros Hi Hep Hd Hn. unfold ucp_stream_ep_enqueue, ucp_stream_ep_is_queued. rewrite Hep. cbn. rewrite Hn. cbn. eexists. split; [done|].
  split; [|done]. pose proof (ready_linked w e ep Hi Hep) as Hrl. rewrite Hn in Hrl.
  pose proof (sinv_queue w Hi e ep Hep) as Hq. unfold queue_ok in Hq. rewrite Hd in Hq.
  apply (sinv_update_ep w e ep); try done.
  - unfold queue_ok. cbn. by rewrite Hd.
  - cbn. rewrite <- (q_of_lookup w e ep Hep). apply (sinv_nodup w Hi).
  - apply NoDup_snoc_new; [apply (sinv_ready w Hi)|]. intros H. by apply Hrl in H.
  - intros e' Hne. cbn. rewrite elem_of_app, list_elem_of_singleton. tauto.
  - cbn. rewrite elem_of_app, list_elem_of_singleton. tauto.
Qed.

(** The ready list without an endpoint. *)
Lemma ready_without (R : list Z) e : NoDup R -> NoDup (filter (fun x => x <> e) R) /\
  (forall e', e' <> e -> e' ∈ filter (fun x => x <> e) R <-> e' ∈ R) /\ (e ∈ filter (fun x => x <> e) R <-> false = true).
Proof.
  intros H. split; [by apply NoDup_filter|]. split; [intros e' Hne|]; rewrite list_elem_of_filter; naive_solver.
Qed.

Lemma dequeue_ok w e ep : sinv w -> w_eps w !! e = Some ep -> ep_has_data ep = true -> ep_ready_next ep = true ->
  exists w', ucp_stream_ep_dequeue w e = Some w' /\ sinv w' /\
    w' = set_ep (set_ready w (filter (fun x => x <> e) (w_ready w))) e (set_ready_next ep false).
Proof.
  intros Hi Hep Hd Hn. unfold ucp_stream_ep_dequeue. rewrite Hep. cbn.
  rewrite bool_decide_true by by apply (ready_linked w e ep). cbn. eexists. split; [done|]. split; [|done].
  pose proof (sinv_queue w Hi e ep Hep) as Hq. unfold queue_ok in Hq. rewrite Hd in Hq.
  destruct (ready_without (w_ready w) e) as (? & ? & ?); [apply (sinv_ready w Hi)|].
  apply (sinv_update_ep w e ep); try done.
  - unfold queue_ok. cbn. by rewrite Hd.
  - cbn. rewrite <- (q_of_lookup w e ep Hep). apply (sinv_nodup w Hi).
Qed.

(** What no call of the user changes: flags of the endpoints, no data and no
    descriptor appears. *)
Definition ep_frame (ep ep' : ucp_ep_t) : Prop :=
  ep_used ep' = ep_used ep /\ ep_closed ep' = ep_closed ep /\ (ep_has_data ep = false -> ep_has_data ep' = false).

(** No request was completed with an error. *)
Definition errors_free (w : worker) : Prop := forall id r, w_reqs w !! id = Some r -> TagEager.rr_status (sr_recv r) = UCS_OK.

Definition frame (w w' : worker) : Prop :=
  w_stream w' = w_stream w /\ (forall a, w_descs w !! a = None -> w_descs w' !! a = None) /\ (errors_free w -> errors_free w') /\
  (forall e, match w_eps w !! e with
             | Some ep => exists ep', w_eps w' !! e = Some ep' /\ ep_frame ep ep'
             | None => w_eps w' !! e = None
             end).

Lemma frame_refl w : frame w w.
Proof. do 3 (split; [done|]). intros e. destruct (w_eps w !! e); [|done]. by eexists. Qed.

Lemma frame_trans w1 w2 w3 : frame w1 w2 -> frame w2 w3 -> frame w1 w3.
Proof.
  intros (Hs1 & Hd1 & He1 & H1) (Hs2 & Hd2 & He2 & H2). split; [congruence|]. split; [by auto|]. split; [by auto|]. intros e. specialize (H1 e). specialize (H2 e).
  destruct (w_eps w1 !! e); [|by rewrite H1 in H2]. destruct H1 as (ep & E & ? & ? & ?). rewrite E in H2.
  destruct H2 as (ep' & ? & ? & ? & ?). exists ep'. split; [done|]. repeat split; [congruence|congruence|auto].
Qed.

Lemma frame_set_ep w w' e ep ep' : w_eps w !! e = Some ep -> ep_frame ep ep' -> w_stream w' = w_stream w ->
  (forall a, w_descs w !! a = None -> w_descs w' !! a = None) -> (errors_free w -> errors_free w') -> w_eps w' = <[e := ep']> (w_eps w) -> frame w w'.
Proof.
  intros Hep Hf Hs Hd Hr He. do 3 (split; [done|]). intros e'. rewrite He. destruct (decide (e' = e)) as [->|Hne].
  - rewrite Hep, lookup_insert_eq. by eexists.
  - rewrite lookup_insert_ne by done. destruct (w_eps w !! e'); [|done]. by eexists.
Qed.

Lemma frame_same_eps w w' : w_stream w' = w_stream w -> (forall a, w_descs w !! a = None -> w_descs w' !! a = None) ->
  (errors_free w -> errors_free w') -> w_eps w' = w_eps w -> frame w w'.
Proof. intros Hs Hd Hr He. do 3 (split; [done|]). intros e. rewrite He. destruct (w_eps w !! e); [|done]. by eexists. Qed.

Lemma descs_delete (m : gmap Z ucp_recv_desc_t) a a' : m !! a' = None -> delete a m !! a' = None.
Proof. intros H. apply lookup_delete_None. by right. Qed.

Lemma descs_insert (m : gmap Z ucp_recv_desc_t) a rd rd' a' : m !! a = Some rd -> m !! a' = None -> <[a := rd']> m !! a' = None.
Proof. intros H H'. apply lookup_insert_None. split; [done|]. intros ->. congruence. Qed.

(** The operations on descriptors keep the requests and the history of calls. *)
Definition quiet (w w' : worker) : Prop :=
  frame w w' /\ w_reqs w' = w_reqs w /\ w_log w' = w_log w /\ w_next_req w' = w_next_req w.

Lemma quiet_trans w1 w2 w3 : quiet w1 w2 -> quiet w2 w3 -> quiet w1 w3.
Proof. intros (? & ? & ? & ?) (? & ? & ? & ?). split; [by eapply frame_trans|]. repeat split; congruence. Qed.

Lemma quiet_obtained w w' e : quiet w w' -> obtained w' e = obtained w e.
Proof. intros (_ & Hr & Hl & _). unfold obtained, log_of, outcome_bytes. by rewrite Hr, Hl. Qed.

(** ** Descriptors *)

Lemma queue_head_data w e ep a q : sinv w -> w_eps w !! e = Some ep -> ep_match_q ep = QDesc a :: q ->
  ep_has_data ep = true /\ addr_ok a /\ (exists rd, w_descs w !! a = Some rd /\ desc_ok rd) /\
  (forall x, x ∈ q -> exists a rd, x = QDesc a /\ addr_ok a /\ w_descs w !! a = Some rd /\ desc_ok rd).
Proof.
  intros Hi Hep Hq. pose proof (sinv_queue w Hi e ep Hep) as H. unfold queue_ok in H. rewrite Hq in H.
  destruct (ep_has_data ep).
  - destruct H as [_ H]. split; [done|]. destruct (H (QDesc a)) as (a' & rd & ? & ? & ? & ?); [by left|]. simplify_eq.
    split; [done|]. split; [by eauto|]. intros x Hx. apply H. by right.
  - destruct H as [_ H]. destruct (H (QDesc a)) as (? & ? & ? & _); [by left|done].
Qed.

(** The last descriptor: the endpoint leaves the ready list. *)
Lemma unlink_ok w e ep q : sinv w -> w_eps w !! e = Some ep ->
  exists R, (if ep_ready_next ep then ucp_stream_ep_dequeue (set_ep w e (set_has_data (set_match_q ep q) false)) e
             else Some (set_ep w e (set_has_data (set_match_q ep q) false))) =
    Some (Worker (w_stream w) (<[e := Ep (ep_used ep) (ep_closed ep) false false q]> (w_eps w)) R (w_descs w) (w_reqs w) (w_next_req w)
            (w_log w) (w_released w) (w_held w)) /\
    NoDup R /\ (forall e', e' <> e -> e' ∈ R <-> e' ∈ w_ready w) /\ (e ∈ R <-> false = true).
Proof.
  intros Hi Hep. pose proof (ready_linked w e ep Hi Hep) as Hrl. destruct (ep_ready_next ep) eqn:En.
  - exists (filter (fun x => x <> e) (w_ready w)). destruct (ready_without (w_ready w) e) as (? & ? & ?); [apply (sinv_ready w Hi)|].
    split; [|done]. unfold ucp_stream_ep_dequeue. cbn. rewrite lookup_insert_eq. cbn. rewrite bool_decide_true by by apply Hrl.
    cbn. unfold set_ep. cbn. by rewrite insert_insert_eq.
  - exists (w_ready w). split; [unfold set_ep, set_has_data, set_match_q; cbn; by rewrite En|].
    split; [apply (sinv_ready w Hi)|done].
Qed.

Lemma rdesc_dequeue_ok w e ep a q : sinv w -> w_eps w !! e = Some ep -> ep_match_q ep = QDesc a :: q ->
  exists w', ucp_stream_rdesc_dequeue w e = Some (a, w') /\ sinv w' /\ quiet w w' /\ w_descs w' = w_descs w /\ w_held w' = w_held w /\
    w_released w' = w_released w /\ (forall e', q_of w' e' = if decide (e' = e) then q else q_of w e') /\ (forall e', QDesc a ∉ q_of w' e').
Proof.
  intros Hi Hep Hq. destruct (queue_head_data w e ep a q Hi Hep Hq) as (Hd & Ha & Hrd & Hrest).
  pose proof (sinv_nodup w Hi e) as Hnd. rewrite (q_of_lookup w e ep Hep), Hq in Hnd. apply NoDup_cons in Hnd as [Hnin Hnd].
  assert (forall w', (forall e', q_of w' e' = if decide (e' = e) then q else q_of w e') -> forall e', QDesc a ∉ q_of w' e') as Hout.
  { intros w' H e'. rewrite H. case_decide; [done|]. intros Hin. assert (e' = e); [|done].
    apply (sinv_owner w Hi e' e (QDesc a) Hin). rewrite (q_of_lookup w e ep Hep), Hq. by left. }
  unfold ucp_stream_rdesc_dequeue, ucp_stream_ep_has_data, ucp_stream_ep_is_queued. rewrite Hep. cbn. rewrite Hq, Hd. cbn.
  assert (forall id, QReq id ∈ ep_match_q ep -> QReq id ∈ q) as Hnr by (intros id; rewrite Hq, elem_of_cons; by intros [|]).
  assert (forall x, x ∈ q -> x ∈ ep_match_q ep) as Hin by (intros x; rewrite Hq; by right).
  assert (forall id q', q = QReq id :: q' -> q = ep_match_q ep) as Htl.
  { intros id q' ->. destruct (Hrest (QReq id)) as (? & ? & ? & _); [by left|done]. }
  destruct (bool_decide_reflect (q = [])) as [Hnil|Hnn].
  - destruct (unlink_ok w e ep q Hi Hep) as (R & -> & HR1 & HR2 & HR3).
    cbn. eexists. split; [done|]. split; [|split; [|split; [done|split; [done|split; [done|]]]]].
    + apply (sinv_update_ep w e ep); try done. unfold queue_ok. cbn. rewrite Hnil. split; [done|]. intros x. by rewrite elem_of_nil.
    + split; [|done]. by apply (frame_set_ep w _ e ep (Ep (ep_used ep) (ep_closed ep) false false q)).
    + set (w' := Worker _ _ _ _ _ _ _ _ _). assert (forall e', q_of w' e' = if decide (e' = e) then q else q_of w e') as H
        by apply (q_of_set_ep w e (Ep (ep_used ep) (ep_closed ep) false false q)). auto.
  - eexists. split; [done|]. split; [|split; [|split; [done|split; [done|split; [done|]]]]].
    + apply (sinv_update_ep w e ep); try done; [unfold queue_ok; cbn; by rewrite Hd|apply (sinv_ready w Hi)|].
      apply (ready_linked w e ep Hi Hep).
    + split; [|done]. by apply (frame_set_ep w _ e ep (set_match_q ep q)).
    + split; [apply (q_of_set_ep w e (set_match_q ep q))|]. apply Hout, (q_of_set_ep w e (set_match_q ep q)).
Qed.

(** An update of the descriptors and of the pointers held by the user. *)
Lemma sinv_descs w descs held rel : sinv w ->
  (forall e ep x, w_eps w !! e = Some ep -> x ∈ ep_match_q ep -> ep_has_data ep = true ->
     exists a rd, x = QDesc a /\ addr_ok a /\ descs !! a = Some rd /\ desc_ok rd) ->
  NoDup held.*1 ->
  (forall d, d ∈ held -> addr_ok d.1 /\ (forall e, QDesc d.1 ∉ q_of w e) /\
     exists rd, descs !! d.1 = Some rd /\ desc_read rd (d.2 - sizeof_ucp_stream_am_data_t) 8 = Some (le64 d.1)) ->
  sinv (Worker (w_stream w) (w_eps w) (w_ready w) descs (w_reqs w) (w_next_req w) (w_log w) rel held).
Proof.
  intros [Hs Hq Ht Ho Hn Hr Hl Hrd Hh] Hd Hnd Hheld. split; try done. intros e ep Hep. specialize (Hq e ep Hep). unfold queue_ok in *. cbn.
  specialize (Hd e ep). destruct (ep_has_data ep); [|done]. destruct Hq as [? _]. split; [done|]. intros x Hx. by apply Hd.
Qed.

Lemma queue_desc w e ep x : sinv w -> w_eps w !! e = Some ep -> x ∈ ep_match_q ep -> ep_has_data ep = true ->
  exists a rd, x = QDesc a /\ addr_ok a /\ w_descs w !! a = Some rd /\ desc_ok rd.
Proof. intros Hi Hep Hx Hd. pose proof (sinv_queue w Hi e ep Hep) as H. unfold queue_ok in H. rewrite Hd in H. by apply H. Qed.

(** A descriptor that is not held by the user. *)
Lemma sinv_set_desc w a rd : sinv w -> a ∉ (w_held w).*1 -> addr_ok a -> (forall e, QDesc a ∉ q_of w e) \/ desc_ok rd -> sinv (set_desc w a rd).
Proof.
  intros Hi Hh Ha Hor. apply (sinv_descs w); [done| |apply (sinv_held w Hi)|].
  - intros e ep x Hep Hx Hd. destruct (queue_desc w e ep x Hi Hep Hx Hd) as (a' & rd' & -> & ? & E & ?). exists a'.
    destruct (decide (a' = a)) as [->|]; [|exists rd'; by rewrite lookup_insert_ne].
    exists rd. rewrite lookup_insert_eq. split; [done|]. split; [done|]. split; [done|]. destruct Hor as [Hor|]; [|done].
    destruct (Hor e). by rewrite (q_of_lookup w e ep).
  - intros d Hd. destruct (proj2 (sinv_held w Hi) d Hd) as (? & ? & rd' & ? & ?). split; [done|]. split; [done|]. exists rd'.
    rewrite lookup_insert_ne; [done|]. intros ->. apply Hh, list_elem_of_fmap. by exists d.
Qed.

(** A descriptor in no queue is released; the user gives up the pointer to it. *)
Lemma sinv_release w a held rel : sinv w -> (forall e, QDesc a ∉ q_of w e) -> held `sublist_of` w_held w -> a ∉ held.*1 ->
  sinv (set_held (Worker (w_stream w) (w_eps w) (w_ready w) (delete a (w_descs w)) (w_reqs w) (w_next_req w) (w_log w) rel (w_held w)) held).
Proof.
  intros Hi Ha Hsub Hnh. apply (sinv_descs w (delete a (w_descs w)) held rel); [done| | |].
  - intros e ep x Hep Hx Hd. destruct (queue_desc w e ep x Hi Hep Hx Hd) as (a' & rd' & -> & ? & E & ?). exists a', rd'.
    rewrite lookup_delete_ne; [done|]. intros ->. apply (Ha e). by rewrite (q_of_lookup w e ep).
  - eapply sublist_NoDup; [apply (sinv_held w Hi)|by apply fmap_sublist].
  - intros d Hd. destruct (proj2 (sinv_held w Hi) d) as (? & ? & rd' & ? & ?); [by eapply elem_of_sublist|].
    split; [done|]. split; [done|]. exists rd'. rewrite lookup_delete_ne; [done|]. intros ->. apply Hnh, list_elem_of_fmap. by exists d.
Qed.

Lemma queue_not_held w e a : sinv w -> QDesc a ∈ q_of w e -> a ∉ (w_held w).*1.
Proof. intros Hi Hq. rewrite list_elem_of_fmap. intros (d & -> & Hd). by apply (proj2 (sinv_held w Hi) d Hd) in Hq. Qed.

Lemma queued_descs w w' e : q_of w' e = q_of w e -> (forall a, QDesc a ∈ q_of w e -> desc_bytes <$> w_descs w' !! a = desc_bytes <$> w_descs w !! a) ->
  queued w' e = queued w e.
Proof.
  intros Hq Hd. unfold queued. rewrite Hq. f_equal. apply list_fmap_ext. intros i x Hx. apply list_elem_of_lookup_2 in Hx.
  destruct x as [a|]; [|done]. cbn. by rewrite Hd.
Qed.

Lemma queued_cons w e a q rd : q_of w e = QDesc a :: q -> w_descs w !! a = Some rd -> queued w e = desc_bytes rd ++ concat (elem_bytes w <$> q).
Proof. intros Hq Hd. unfold queued. rewrite Hq. cbn. by rewrite Hd. Qed.

Lemma desc_bytes_length rd : desc_ok rd -> Z.of_nat (length (desc_bytes rd)) = rd_length rd.
Proof.
  unfold desc_ok, sizeof_ucp_stream_am_data_t. intros (? & ? & ? & ?). unfold desc_bytes. rewrite Iov.sub_length by lia. lia.
Qed.

Lemma desc_read_ok rd n : desc_ok rd -> 0 <= n <= rd_length rd -> desc_read rd (rd_payload_offset rd) n = Some (take (Z.to_nat n) (desc_bytes rd)).
Proof.
  unfold desc_ok, sizeof_ucp_stream_am_data_t. intros (? & ? & ? & ?) Hn. unfold desc_read, desc_bytes. rewrite Iov.read_ok by lia.
  f_equal. unfold Iov.sub. rewrite take_take. f_equal. lia.
Qed.

Lemma desc_advance_ok rd n : desc_ok rd -> 0 <= n < rd_length rd ->
  desc_ok (Rdesc (u32 (rd_length rd - n)) (u32 (rd_payload_offset rd + n)) (rd_uct_desc rd) (rd_release_desc_offset rd) (rd_mem rd)) /\
  desc_bytes (Rdesc (u32 (rd_length rd - n)) (u32 (rd_payload_offset rd + n)) (rd_uct_desc rd) (rd_release_desc_offset rd) (rd_mem rd)) =
    drop (Z.to_nat n) (desc_bytes rd).
Proof.
  unfold desc_ok, sizeof_ucp_stream_am_data_t, sizeof_ucp_recv_desc_t. cbn. intros (? & ? & ? & ?) Hn.
  rewrite !u_wrap_small by lia. split; [lia|]. unfold desc_bytes, Iov.sub. cbn. rewrite skipn_firstn_comm, drop_drop.
  unfold sizeof_ucp_recv_desc_t. f_equal; [lia|]. f_equal. lia.
Qed.

(** The effect of taking [n] bytes from the first descriptor of an endpoint. *)
Definition consumed (w : worker) (e n : Z) (w' : worker) : Prop :=
  quiet w w' /\ w_held w' = w_held w /\ queued w' e = drop (Z.to_nat n) (queued w e) /\
  (forall e', e' <> e -> queued w' e' = queued w e') /\ (forall e' x, x ∈ q_of w' e' -> x ∈ q_of w e').

Lemma release_head_ok w e ep a q rd : sinv w -> w_eps w !! e = Some ep -> ep_match_q ep = QDesc a :: q -> w_descs w !! a = Some rd ->
  exists w', ucp_stream_rdesc_dequeue_and_release w a e = Some w' /\ sinv w' /\ consumed w e (rd_length rd) w'.
Proof.
  intros Hi Hep Hq Hrd. destruct (queue_head_data w e ep a q Hi Hep Hq) as (Hd & Ha & (rd' & ? & Hok) & Hrest). simplify_eq.
  destruct (rdesc_dequeue_ok w e ep a q Hi Hep Hq) as (w1 & E & Hi1 & Hqt & Hds & Hh & _ & Hqs & Hout).
  unfold ucp_stream_rdesc_dequeue_and_release. rewrite Hep. cbn. unfold ucp_stream_ep_has_data. rewrite Hd, Hq. cbn.
  rewrite Z.eqb_refl. cbn. rewrite (bind_eq _ _ _ E). unfold ucp_recv_desc_release. rewrite Hds, Hrd. cbn. eexists. split; [done|].
  assert (a ∉ (w_held w).*1) as Hnh.
  { apply (queue_not_held w e); [done|]. rewrite (q_of_lookup w e ep), Hq by done. by left. }
  split; [|split; [|split; [done|split; [|split]]]].
  - rewrite <- Hds. apply (sinv_release w1 a (w_held w1) (w_released w1 ++ [_])); [done|done|done|by rewrite Hh].
  - eapply quiet_trans; [done|]. split; [|done]. apply frame_same_eps; [done| |done|done]. intros a'. rewrite Hds. apply descs_delete.
  - rewrite (queued_cons w e a q rd) by (by rewrite ?(q_of_lookup w e ep)). rewrite <- (desc_bytes_length rd Hok), Nat2Z.id, drop_app_length.
    unfold queued. match goal with |- concat (_ <$> ?q') = _ => change q' with (q_of w1 e) end. rewrite Hqs, decide_True by done.
    f_equal. apply list_fmap_ext. intros i x Hx. apply list_elem_of_lookup_2 in Hx. destruct x as [a'|]; [|done]. cbn.
    rewrite lookup_delete_ne; [done|]. intros ->. apply (Hout e). by rewrite Hqs, decide_True.
  - intros e' Hne. apply queued_descs; [change (q_of w1 e' = q_of w e'); by rewrite Hqs, decide_False|]. intros a' Ha'. cbn.
    rewrite lookup_delete_ne; [done|]. intros ->. apply (Hout e'). by rewrite Hqs, decide_False.
  - intros e' x. change (x ∈ q_of w1 e' -> x ∈ q_of w e'). rewrite Hqs. case_decide; [subst e'|done]. rewrite (q_of_lookup w e ep), Hq by done.
    by right.
Qed.

Lemma rdesc_advance_ok w e ep a q rd n : sinv w -> w_eps w !! e = Some ep -> ep_match_q ep = QDesc a :: q -> w_descs w !! a = Some rd ->
  0 <= n <= rd_length rd -> exists w', ucp_stream_rdesc_advance w a rd (inr n) e = Some (UCS_OK, w') /\ sinv w' /\ consumed w e n w'.
Proof.
  intros Hi Hep Hq Hrd Hn. unfold ucp_stream_rdesc_advance. rewrite (proj2 (Z.leb_le _ _)) by lia. cbn.
  destruct (Z.eqb_spec n (rd_length rd)) as [->|Hne].
  { destruct (release_head_ok w e ep a q rd Hi Hep Hq Hrd) as (w' & E & Hi' & Hc). rewrite (bind_eq _ _ _ E). by exists w'. }
  destruct (queue_head_data w e ep a q Hi Hep Hq) as (Hd & Ha & (rd' & ? & Hok) & Hrest). simplify_eq.
  destruct (desc_advance_ok rd n Hok ltac:(lia)) as [Hok' Hb]. set (rd' := Rdesc _ _ _ _ _) in *.
  assert (QDesc a ∈ q_of w e) as Hin by (rewrite (q_of_lookup w e ep), Hq by done; by left).
  exists (set_desc w a rd'). split; [done|]. split; [apply sinv_set_desc; [done|by eapply queue_not_held|done|by right]|].
  split; [split; [apply frame_same_eps; [done|intros a'; by apply (descs_insert _ a rd)|done|done]|done]|]. split; [done|]. split; [|split; [|done]].
  - rewrite (queued_cons w e a q rd) by (by rewrite ?(q_of_lookup w e ep)).
    rewrite (queued_cons (set_desc w a rd') e a q rd'); [|by rewrite <- Hq, <- (q_of_lookup w e ep)|by cbn; rewrite lookup_insert_eq].
    rewrite Hb, drop_app_le by (pose proof (desc_bytes_length rd Hok); lia). do 2 f_equal. apply list_fmap_ext. intros i x Hx.
    apply list_elem_of_lookup_2 in Hx. destruct x as [a'|]; [|done]. cbn. rewrite lookup_insert_ne; [done|]. intros ->.
    pose proof (sinv_nodup w Hi e) as Hnd. rewrite (q_of_lookup w e ep Hep), Hq in Hnd. by apply NoDup_cons in Hnd as [? _].
  - intros e' Hne'. apply queued_descs; [done|]. intros a' Ha'. cbn. rewrite lookup_insert_ne; [done|]. intros ->.
    by apply Hne', (sinv_owner w Hi e' e (QDesc a')).
Qed.

(** ** Data pointers *)

Lemma le64_val_le64 x : addr_ok x -> le64_val (le64 x) = x.
Proof.
  unfold addr_ok. intros Hx.
  assert (forall i, 0 <= i -> Z.land (Z.shiftr x (8 * i)) 255 = (x / 2 ^ (8 * i)) mod 256) as Hb.
  { intros i Hi. rewrite Z.shiftr_div_pow2 by lia. by rewrite (Z.land_ones _ 8). }
  assert (forall i, 0 <= i -> x / 2 ^ (8 * (i + 1)) = x / 2 ^ (8 * i) / 256) as Hs.
  { intros i Hi. rewrite Z.div_div by lia. f_equal. rewrite Z.mul_add_distr_l, Z.pow_add_r by lia. done. }
  assert (x / 2 ^ (8 * 8) = 0) as H8 by (apply Z.div_small; lia).
  unfold le64. change (seqZ 0 8) with [0; 1; 2; 3; 4; 5; 6; 7]. rewrite !fmap_cons, fmap_nil. unfold le64_val. cbn [foldr].
  rewrite !Hb by lia. pose proof (Hs 0 ltac:(lia)). pose proof (Hs 1 ltac:(lia)). pose proof (Hs 2 ltac:(lia)). pose proof (Hs 3 ltac:(lia)).
  pose proof (Hs 4 ltac:(lia)). pose proof (Hs 5 ltac:(lia)). pose proof (Hs 6 ltac:(lia)). pose proof (Hs 7 ltac:(lia)).
  cbn [Z.add Z.mul Pos.add Pos.mul Pos.succ] in *. rewrite Z.pow_0_r, Z.div_1_r in *. clear Hb Hs Hx.
  repeat match goal with H : _ / 2 ^ ?k = _ / 256 |- _ => revert H; generalize (x / 2 ^ k); intros end.
  Z.div_mod_to_equations. lia.
Qed.

(** The pointer to the descriptor is stored before the payload. *)
Lemma desc_mark_ok rd a : desc_ok rd -> exists rd', desc_write rd (rd_payload_offset rd - sizeof_ucp_stream_am_data_t) (le64 a) = Some rd' /\
  desc_read rd' (rd_payload_offset rd - sizeof_ucp_stream_am_data_t) 8 = Some (le64 a) /\
  desc_read rd' (rd_payload_offset rd) (rd_length rd) = Some (desc_bytes rd) /\
  rd_uct_desc rd' = rd_uct_desc rd /\ rd_release_desc_offset rd' = rd_release_desc_offset rd.
Proof.
  unfold desc_ok, sizeof_ucp_stream_am_data_t. intros (H1 & H2 & H3 & H4). unfold desc_write, desc_read.
  set (p := rd_payload_offset rd - 8 - sizeof_ucp_recv_desc_t).
  assert (Z.of_nat (length (le64 a)) = 8) as Hl by by rewrite length_le64.
  rewrite Iov.write_ok by lia. cbn. eexists. split; [done|]. cbn.
  assert (length (Iov.splice (rd_mem rd) p (le64 a)) = length (rd_mem rd)) as Hlen by (apply Iov.splice_length; lia).
  split; [|split; [|done]].
  - rewrite Iov.read_ok by lia. f_equal. rewrite <- Hl. apply Iov.sub_splice; lia.
  - rewrite Iov.read_ok by lia. f_equal. unfold desc_bytes, Iov.sub. f_equal. unfold Iov.splice.
    rewrite app_assoc, drop_app_ge by (rewrite length_app, length_take, length_le64; lia). rewrite drop_drop. f_equal.
    rewrite length_app, length_take, length_le64. lia.
Qed.

(** [ucp_stream_recv_data_nb] without its history: the first descriptor leaves
    the queue and knows its own address. *)
Lemma recv_data_nolock_ok w e ep : sinv w -> w_eps w !! e = Some ep -> ep_has_data ep = true ->
  exists a q rd rd' w', ep_match_q ep = QDesc a :: q /\ w_descs w !! a = Some rd /\ desc_ok rd /\
    ucp_stream_recv_data_nb_nolock w e = Some (Some (a, rd_payload_offset rd, rd_length rd), w') /\ sinv w' /\ consumed w e (rd_length rd) w' /\
    queued w e = desc_bytes rd ++ queued w' e /\ w_descs w' = <[a := rd']> (w_descs w) /\
    desc_read rd' (rd_payload_offset rd - sizeof_ucp_stream_am_data_t) 8 = Some (le64 a) /\
    desc_read rd' (rd_payload_offset rd) (rd_length rd) = Some (desc_bytes rd) /\
    rd_uct_desc rd' = rd_uct_desc rd /\ rd_release_desc_offset rd' = rd_release_desc_offset rd /\
    addr_ok a /\ a ∉ (w_held w').*1 /\ (forall e', q_of w' e' = if decide (e' = e) then q else q_of w e') /\
    (forall e', QDesc a ∉ q_of w' e') /\ w_released w' = w_released w.
Proof.
  intros Hi Hep Hd. pose proof (sinv_queue w Hi e ep Hep) as Hq. unfold queue_ok in Hq. rewrite Hd in Hq. destruct Hq as [Hnn Hall].
  destruct (ep_match_q ep) as [|x q] eqn:Eq; [done|]. destruct (Hall x) as (a & rd & -> & Ha & Hrd & Hok); [by left|].
  destruct (rdesc_dequeue_ok w e ep a q Hi Hep Eq) as (w1 & E & Hi1 & Hqt & Hds & Hh & Hrel & Hqs & Hout).
  destruct (desc_mark_ok rd a Hok) as (rd' & Ew & Er1 & Er2 & Hu & Ho).
  exists a, q, rd, rd', (set_desc w1 a rd'). unfold ucp_stream_recv_data_nb_nolock, ucp_stream_ep_has_data. rewrite Hep. cbn [mbind option_bind].
  rewrite Hd. cbn [negb]. rewrite (bind_eq _ _ _ E). rewrite Hds, Hrd. cbn [mbind option_bind]. rewrite Ew. cbn [mbind option_bind].
  assert (a ∉ (w_held w1).*1) as Hnh.
  { rewrite Hh. apply (queue_not_held w e); [done|]. rewrite (q_of_lookup w e ep), Eq by done. by left. }
  assert (queued w e = desc_bytes rd ++ queued (set_desc w1 a rd') e) as Hqd.
  { rewrite (queued_cons w e a q rd) by (by rewrite ?(q_of_lookup w e ep)). f_equal. unfold queued. change (q_of (set_desc w1 a rd') e) with (q_of w1 e).
    rewrite Hqs, decide_True by done. f_equal. apply list_fmap_ext. intros i x Hx. apply list_elem_of_lookup_2 in Hx. destruct x as [a'|]; [|done].
    cbn. rewrite Hds, lookup_insert_ne; [done|]. intros ->. apply (Hout e). by rewrite Hqs, decide_True. }
  do 4 (split; [done|]). split; [apply sinv_set_desc; auto|]. split; [|by rewrite <- Hds].
  split; [eapply quiet_trans; [done|]; split; [|done]; apply frame_same_eps; [done|intros a'; apply (descs_insert _ a rd); by rewrite Hds|done|done]|]. split; [done|]. split; [|split].
  - rewrite Hqd, <- (desc_bytes_length rd Hok), Nat2Z.id. by rewrite drop_app_length.
  - intros e' Hne. apply queued_descs; [change (q_of w1 e' = q_of w e'); by rewrite Hqs, decide_False|]. intros a' Ha'. cbn. rewrite Hds.
    rewrite lookup_insert_ne; [done|]. intros ->. apply (Hout e'). by rewrite Hqs, decide_False.
  - intros e' x. change (x ∈ q_of w1 e' -> x ∈ q_of w e'). rewrite Hqs. case_decide; [subst e'|done]. rewrite (q_of_lookup w e ep), Eq by done.
    by right.
Qed.

Lemma inv_add_log arr w e o : inv arr w -> log_reqs [o] = [] -> outcome_bytes w o = [] -> inv arr (add_log w e o).
Proof.
  intros [Hi Hb] Hr Ho. split; [by apply sinv_add_log|]. intros e'. rewrite obtained_add, Ho.
  change (queued (add_log w e o) e') with (queued w e'). rewrite <- Hb. case_decide; by rewrite app_nil_r.
Qed.

Lemma recv_data_nb_ok arr w e : inv arr w -> is_Some (w_eps w !! e) ->
  exists r w', ucp_stream_recv_data_nb w e = Some (r, w') /\ inv arr w' /\ frame w w'.
Proof.
  intros [Hi Hb] [ep Hep]. unfold ucp_stream_recv_data_nb. rewrite (sinv_stream w Hi). cbn [negb].
  destruct (ep_has_data ep) eqn:Hd.
  - destruct (recv_data_nolock_ok w e ep Hi Hep Hd) as
      (a & q & rd & rd' & w' & Hq & Hrd & Hok & -> & Hi' & (Hqt & Hh & Hqe & Hqo & _) & Hqd & Hds & Hr1 & Hr2 & Hu & Ho & Ha & Hnh & Hqs & Hout & _).
    cbn [mbind option_bind]. rewrite Hds, lookup_insert_eq. cbn [mbind option_bind]. rewrite Hr2. cbn [mbind option_bind].
    set (w2 := set_held w' ((a, rd_payload_offset rd) :: w_held w')).
    assert (sinv w2) as Hi2.
    { apply (sinv_descs w' (w_descs w')); [done|intros e' ep' x Hep' Hx Hd'; by apply (queue_desc w' e' ep')| |].
      - rewrite fmap_cons. apply NoDup_cons. split; [done|apply (sinv_held w' Hi')].
      - intros d. rewrite elem_of_cons. intros [->|Hd']; [|by apply (sinv_held w' Hi')]. cbn. split; [done|]. split; [done|].
        exists rd'. by rewrite Hds, lookup_insert_eq. }
    eexists _, _. split; [done|]. split; [|apply (frame_trans w w'); [apply Hqt|by apply frame_same_eps]]. split.
    + apply sinv_add_log; [done|done|]. intros id q' E. change (q_of w2 e) with (q_of w' e) in E. rewrite Hqs, decide_True in E by done.
      destruct (queue_head_data w e ep a q Hi Hep Hq) as (_ & _ & _ & Hrest). destruct (Hrest (QReq id)) as (? & ? & ? & _); [rewrite E; by left|done].
    + intros e'. rewrite obtained_add. change (obtained w2 e') with (obtained w' e'). rewrite (quiet_obtained w w' e' Hqt).
      change (queued _ e') with (queued w' e'). rewrite <- Hb. case_decide; [subst e'; by rewrite <- app_assoc, Hqd|].
      by rewrite app_nil_r, Hqo.
  - unfold ucp_stream_recv_data_nb_nolock, ucp_stream_ep_has_data. rewrite Hep. cbn [mbind option_bind]. rewrite Hd. cbn [negb mbind option_bind].
    eexists _, _. split; [done|]. split; [by apply inv_add_log|by apply frame_same_eps].
Qed.

(** The user gives a data pointer back. *)
Lemma data_release_ok arr w d : inv arr w -> d ∈ w_held w ->
  exists w', ucp_stream_data_release w d = Some w' /\ inv arr w' /\ frame w w' /\ w_descs w' = delete d.1 (w_descs w).
Proof.
  intros [Hi Hb] Hd. destruct (proj2 (sinv_held w Hi) d Hd) as (Ha & Hout & rd & Hrd & Hr).
  unfold ucp_stream_data_release. rewrite Hrd. cbn [mbind option_bind]. rewrite Hr. cbn [mbind option_bind]. rewrite le64_val_le64 by done.
  unfold ucp_recv_desc_release. rewrite Hrd. cbn. eexists. split; [done|].
  split; [|split; [apply frame_same_eps; [done|intros a; apply descs_delete|done|done]|done]]. split.
  - apply (sinv_release w d.1 (filter (fun x => x <> d) (w_held w)) (w_released w ++ [_])); [done|done|apply sublist_filter|].
    rewrite list_elem_of_fmap. intros (d' & E & Hd'). apply list_elem_of_filter in Hd' as [Hne Hd'].
    apply Hne. symmetry. by apply (NoDup_fmap_inj fst (w_held w)); [apply (sinv_held w Hi)| | |].
  - intros e. rewrite <- Hb. f_equal. apply queued_descs; [done|]. intros a Hin. cbn. rewrite lookup_delete_ne; [done|]. intros <-. by apply (Hout e).
Qed.

(** ** The ready list *)

Lemma ready_has_data w e : sinv w -> e ∈ w_ready w -> exists ep, w_eps w !! e = Some ep /\ ep_ready_next ep = true /\ ep_has_data ep = true.
Proof.
  intros Hi He. destruct (sinv_ready w Hi) as [_ H]. apply H in He as (ep & Hep & Hn). exists ep. split; [done|]. split; [done|].
  pose proof (sinv_queue w Hi e ep Hep) as Hq. unfold queue_ok in Hq. destruct (ep_has_data ep); [done|]. destruct Hq. congruence.
Qed.

(** Linking and unlinking changes no queue. *)
Lemma q_of_ready w e ep R b e' : w_eps w !! e = Some ep -> q_of (set_ep (set_ready w R) e (set_ready_next ep b)) e' = q_of w e'.
Proof.
  intros Hep. change (q_of (set_ep w e (set_ready_next ep b)) e' = q_of w e'). rewrite q_of_set_ep. case_decide; [subst|done].
  by rewrite (q_of_lookup w e ep).
Qed.

Lemma bytes_ready (arr : Z -> list Z) w e ep R b e' : w_eps w !! e = Some ep -> obtained w e' ++ queued w e' = arr e' ->
  obtained (set_ep (set_ready w R) e (set_ready_next ep b)) e' ++ queued (set_ep (set_ready w R) e (set_ready_next ep b)) e' = arr e'.
Proof. intros Hep <-. unfold queued. by rewrite (q_of_ready w e ep). Qed.

Lemma frame_ready w e ep R b : w_eps w !! e = Some ep -> frame w (set_ep (set_ready w R) e (set_ready_next ep b)).
Proof. intros Hep. by apply (frame_set_ep w _ e ep (set_ready_next ep b)). Qed.

Lemma filter_ne_head (e : Z) l : NoDup (e :: l) -> filter (fun x => x <> e) (e :: l) = l.
Proof. intros [Hn _]%NoDup_cons. rewrite filter_cons_False by (intros H; by apply H). by apply filter_ne_notin. Qed.

Lemma worker_poll_ok arr n : forall w, inv arr w ->
  exists w', ucp_stream_worker_poll w n = Some (take n (w_ready w), w') /\ inv arr w' /\ frame w w' /\ w_ready w' = drop n (w_ready w).
Proof.
  induction n as [|n IH]; intros w [Hi Hb]; cbn [ucp_stream_worker_poll].
  { exists w. split; [done|]. split; [done|]. split; [apply frame_refl|done]. }
  destruct (w_ready w) as [|e R] eqn:ER.
  { exists w. split; [done|]. split; [done|]. split; [apply frame_refl|done]. }
  destruct (ready_has_data w e Hi) as (ep & Hep & Hn & Hd); [rewrite ER; by left|].
  unfold ucp_stream_worker_dequeue_ep_head. rewrite ER. cbn [mbind option_bind head]. rewrite Hep. cbn [mbind option_bind]. rewrite Hn.
  cbn [assert mbind option_bind]. destruct (dequeue_ok w e ep Hi Hep Hd Hn) as (w1 & -> & Hi1 & E1). cbn [mbind option_bind].
  assert (w_ready w1 = R) as ER1.
  { rewrite E1. cbn. rewrite ER. apply filter_ne_head. rewrite <- ER. apply (sinv_ready w Hi). }
  destruct (IH w1) as (w' & -> & Hi' & Hf & HR).
  { split; [done|]. intros e'. subst w1. by apply bytes_ready. }
  cbn. rewrite ER1 in *. exists w'. split; [done|]. split; [done|]. split; [|done].
  eapply frame_trans; [|done]. rewrite E1. by apply frame_ready.
Qed.

(** ** Unpacking *)

Lemma can_complete_full r : ucp_request_can_complete_stream_recv r = false -> sr_offset r <> TagEager.rr_length (sr_recv r).
Proof. unfold ucp_request_can_complete_stream_recv. by destruct (Z.eqb_spec (sr_offset r) (TagEager.rr_length (sr_recv r))). Qed.

(** Data for a request that is not full. *)
Lemma rdata_unpack_ok r data : req_ok r -> TagEager.rr_status (sr_recv r) = UCS_OK -> sr_offset r < TagEager.rr_length (sr_recv r) ->
  0 < Z.of_nat (length data) -> exists b n,
    n = Z.min (TagEager.rr_length (sr_recv r) - sr_offset r) (Z.of_nat (length data)) /\
    let r' := set_recv r (sr_offset r + n) (TagEager.set_buffer (sr_recv r) b) in
    ucp_stream_rdata_unpack data r = Some (inr n, r') /\ req_ok r' /\ req_bytes r' = req_bytes r ++ take (Z.to_nat n) data.
Proof.
  intros (Hb & Hl & Hmax & Ho & Hdt & Hdiv) Hst Hlt Hd. set (n := Z.min (TagEager.rr_length (sr_recv r) - sr_offset r) (Z.of_nat (length data))).
  assert (length (take (Z.to_nat n) data) = Z.to_nat n) as Hln by (rewrite length_take; lia).
  destruct (TagEager.unpack_ok (sr_recv r) (take (Z.to_nat n) data) (sr_offset r)) as (b & E & Hb' & Hc); [done|done|done|done|lia|lia|lia|].
  exists b, n. split; [done|]. unfold ucp_stream_rdata_unpack. rewrite (u_wrap_small 64 (TagEager.rr_length (sr_recv r) - sr_offset r)) by lia.
  replace (if TagEager.rr_length (sr_recv r) - sr_offset r <=? Z.of_nat (length data) then TagEager.rr_length (sr_recv r) - sr_offset r
           else Z.of_nat (length data)) with n by (unfold n; destruct (Z.leb_spec (TagEager.rr_length (sr_recv r) - sr_offset r) (Z.of_nat (length data))); lia).
  rewrite (bind_eq _ _ _ E). cbn [decide]. rewrite decide_True by done. rewrite u_wrap_small by lia. split; [done|].
  assert (length (TagEager.content b) = length (TagEager.content (TagEager.rr_buffer (sr_recv r)))) as Hlc.
  { rewrite Hc. apply Iov.splice_length; lia. }
  split; [split; [done|]; cbn; rewrite Hlc; split; [done|]; split; [done|]; split; [lia|done]|]. unfold req_bytes. cbn. rewrite Hc. unfold Iov.splice.
  rewrite Z2Nat.inj_add by lia. rewrite take_app_add' by (rewrite length_take; lia). f_equal.
  rewrite take_app_le by lia. by rewrite take_take, Nat.min_id.
Qed.

(** ** Receives *)

(** The datatype [ucp_stream_recv_nbx] works with. *)
Definition recv_datatype (param : recv_param) : ucp_datatype_t :=
  if p_no_imm_cmpl param then DtContig 1 else default (DtContig 1) (p_datatype param).

(** The buffer of a receive is in memory and its length is a 63-bit number. *)
Definition recv_ok (buffer : user_buffer) (count : Z) (param : recv_param) : Prop :=
  datatype_ok (recv_datatype param) /\ 0 <= count /\
  (forall n, recv_datatype param = DtContig n -> count * n < 2 ^ 63) /\
  exists b, dt_buffer (recv_datatype param) count buffer = Some b /\ TagEager.new_buffer b.

Lemma recv_length dt count buffer b : 0 <= count -> datatype_ok dt -> (forall n, dt = DtContig n -> count * n < 2 ^ 63) ->
  dt_buffer dt count buffer = Some b -> TagEager.new_buffer b ->
  dt_length_of dt count buffer = Some (Z.of_nat (length (TagEager.content b))) /\ Z.of_nat (length (TagEager.content b)) < 2 ^ 63 /\
  TagEager.buffer_ok b /\ TagEager.ucp_dt_recv_state_init b = b /\ (forall n, dt = DtContig n -> (n | Z.of_nat (length (TagEager.content b)))).
Proof.
  intros Hc Hdt Hmax Hb [Hok Hlen]. destruct dt as [n|]; destruct buffer as [mem|iov]; cbn in Hb; try done.
  - unfold ucp_contig_dt_length in *. cbn in Hdt. specialize (Hmax n eq_refl). rewrite u_wrap_small in Hb by nia.
    destruct (Z.leb_spec (count * n) (Z.of_nat (length mem))); [|done]. cbn in Hb. simplify_eq. cbn in *. unfold ucp_contig_dt_length.
    rewrite length_take, u_wrap_small by nia. split; [f_equal; lia|]. split; [lia|]. split; [done|]. split; [done|].
    intros n' E. simplify_eq. exists count. lia.
  - destruct (Z.leb_spec count (Z.of_nat (length iov))); [|done]. cbn in Hb. simplify_eq. cbn in *. destruct Hok as [Hf Hp].
    rewrite Iov.iov_length_ok in * by done. by unfold Iov.total in *.
Qed.

Lemma recv_length_bytes count buffer b : 0 <= count -> count * 1 < 2 ^ 63 -> dt_buffer (DtContig 1) count buffer = Some b ->
  count = Z.of_nat (length (TagEager.content b)).
Proof.
  intros Hc Hmax Hb. destruct buffer as [mem|]; [|done]. cbn in Hb. unfold ucp_contig_dt_length in Hb. rewrite u_wrap_small, Z.mul_1_r in Hb by lia.
  destruct (Z.leb_spec count (Z.of_nat (length mem))); [|done]. cbn in Hb. simplify_eq. cbn. rewrite length_take. lia.
Qed.

(** Data that fills the buffer is unpacked in place. *)
Lemma dt_unpack_only_ok b data : TagEager.buffer_ok b -> TagEager.ucp_dt_recv_state_init b = b ->
  length data = length (TagEager.content b) -> Z.of_nat (length data) < 2 ^ 63 ->
  exists b', dt_unpack_only b data = Some b' /\ TagEager.content b' = data.
Proof.
  intros Hb Hs Hl Hmax. destruct b as [buf|iov so o i]; cbn in *.
  - rewrite Iov.write_ok by lia. cbn. eexists. split; [done|]. cbn. unfold Iov.splice. cbn. rewrite drop_ge by lia. apply app_nil_r.
  - simplify_eq. destruct Hb as [Hf Hp]. destruct (decide (data = [])) as [->|Hne].
    + destruct (while_ok (Iov.scatter_step [] 0) (fun s => s = Iov.ScatterState iov 0 0 0) (fun s => s = Iov.ScatterState iov 0 0 0)
                 (fun _ => 0) (Iov.ScatterState iov 0 0 0)) as (s & E & ->); [|done|lia|].
      { intros s ->. by eexists. }
      assert (Iov.ucp_dt_iov_scatter iov [] (Z.of_nat (length (@nil Z))) 0 0 = Some (Iov.ScatterState iov 0 0 0)) as E' by exact E.
      rewrite (bind_eq _ _ _ E'). eexists. split; [done|]. cbn. by apply nil_length_inv.
    + assert (0 < length data)%nat by (destruct data; [done|cbn; lia]).
      destruct Hp as [->|Hp]; [cbn in Hl; lia|].
      destruct (Iov.scatter_ok iov data (Z.of_nat (length data)) 0 0 0 Hf Hp ltac:(lia) ltac:(lia)) as (s & Es & El & Hsh & Hfl & _).
      rewrite (bind_eq _ _ _ Es). eexists. split; [done|]. cbn. unfold Iov.total, Iov.flat in *. rewrite Hfl, El, Z.min_l by lia.
      rewrite Nat2Z.id, firstn_all. unfold Iov.splice. cbn. rewrite drop_ge by lia. apply app_nil_r.
Qed.

Lemma rdesc_get_ok w e ep : sinv w -> w_eps w !! e = Some ep -> ep_has_data ep = true -> exists a q rd, ep_match_q ep = QDesc a :: q /\
  w_descs w !! a = Some rd /\ desc_ok rd /\ ucp_stream_rdesc_get w e = Some (a, rd) /\ queued w e = desc_bytes rd ++ concat (elem_bytes w <$> q).
Proof.
  intros Hi Hep Hd. pose proof (sinv_queue w Hi e ep Hep) as Hq. unfold queue_ok in Hq. rewrite Hd in Hq. destruct Hq as [Hnn Hall].
  unfold ucp_stream_rdesc_get, ucp_stream_ep_has_data. rewrite Hep. cbn [mbind option_bind].
  destruct (ep_match_q ep) as [|x q] eqn:Eq; [done|]. destruct (Hall x) as (a & rd & -> & Ha & Hrd & Hok); [by left|].
  exists a, q, rd. rewrite Hd, Hrd. split; [done|]. split; [done|]. split; [done|]. split; [done|].
  apply (queued_cons w e a q rd); [by rewrite (q_of_lookup w e ep)|done].
Qed.

(** Requests in a queue mean that there is no data. *)
Lemma queue_requests w e ep id q : sinv w -> w_eps w !! e = Some ep -> q_of w e = QReq id :: q -> ep_has_data ep = false.
Proof.
  intros Hi Hep. rewrite (q_of_lookup w e ep Hep). intros Hq. destruct (ep_has_data ep) eqn:Hd; [|done].
  destruct (queue_desc w e ep (QReq id) Hi Hep) as (? & ? & ? & _); [rewrite Hq; by left|done|done].
Qed.

Lemma queued_no_data w e ep : sinv w -> w_eps w !! e = Some ep -> ep_has_data ep = false -> queued w e = [].
Proof.
  intros Hi Hep Hd. pose proof (sinv_queue w Hi e ep Hep) as Hq. unfold queue_ok in Hq. rewrite Hd in Hq. destruct Hq as [_ Hq].
  unfold queued. rewrite (q_of_lookup w e ep Hep). induction (ep_match_q ep) as [|x l IH]; [done|]. cbn.
  destruct (Hq x) as (id & r & -> & _); [by left|]. apply IH. intros y Hy. apply Hq. by right.
Qed.

Lemma recv_inplace_ok arr w e ep b : inv arr w -> w_eps w !! e = Some ep -> TagEager.buffer_ok b -> TagEager.ucp_dt_recv_state_init b = b ->
  Z.of_nat (length (TagEager.content b)) < 2 ^ 63 ->
  (exists w', recv_inplace w e b (Z.of_nat (length (TagEager.content b))) = Some (Some w') /\ inv arr w' /\ frame w w') \/
  recv_inplace w e b (Z.of_nat (length (TagEager.content b))) = Some None.
Proof.
  intros [Hi Hb] Hep Hok Hs Hmax. unfold recv_inplace, ucp_stream_recv_nb_is_inplace, ucp_stream_ep_has_data. rewrite Hep. cbn [mbind option_bind].
  destruct (ep_has_data ep) eqn:Hd; [|by right]. destruct (rdesc_get_ok w e ep Hi Hep Hd) as (a & q & rd & Hq & Hrd & Hdok & -> & Hqd).
  cbn [mbind option_bind]. remember (Z.of_nat (length (TagEager.content b))) as len eqn:Elen. destruct (Z.leb_spec len (rd_length rd)) as [Hle|]; [left|by right].
  unfold ucp_stream_process_rdesc_inplace. rewrite desc_read_ok by (done || lia). cbn [mbind option_bind].
  pose proof (desc_bytes_length rd Hdok) as Hdl.
  destruct (dt_unpack_only_ok b (take (Z.to_nat len) (desc_bytes rd)) Hok Hs) as (b' & -> & Hc); [rewrite length_take; lia|rewrite length_take; lia|].
  cbn [mbind option_bind]. destruct (rdesc_advance_ok w e ep a q rd len Hi Hep Hq Hrd ltac:(lia)) as (w' & -> & Hi' & (Hqt & _ & Hqe & Hqo & Hsub)).
  cbn [mbind option_bind]. rewrite decide_True by done. eexists. split; [done|]. split; [|apply (frame_trans w w'); [apply Hqt|by apply frame_same_eps]].
  rewrite Hc, take_take, Nat.min_id. split.
  - apply sinv_add_log; [done|done|]. intros id q' E. assert (QReq id ∈ q_of w e) as Hin by (apply Hsub; rewrite E; by left).
    destruct (queue_desc w e ep (QReq id) Hi Hep) as (? & ? & ? & _); [by rewrite <- (q_of_lookup w e ep)|done|done].
  - intros e'. rewrite obtained_add, (quiet_obtained w w' e' Hqt). change (queued (add_log w' _ _) e') with (queued w' e'). rewrite <- Hb.
    case_decide; [subst e'; rewrite Hqe, Hqd, <- app_assoc|by rewrite app_nil_r, Hqo]. cbn. f_equal.
    rewrite (drop_app_le (desc_bytes rd)) by lia. by rewrite app_assoc, take_drop.
Qed.

(** The loop of [ucp_stream_recv_nbx]: the bytes of the request and the queue. *)
Definition filling (w0 : worker) (e : Z) (r0 : stream_req) (w : worker) (r : stream_req) : Prop :=
  sinv w /\ quiet w0 w /\ (forall e', e' <> e -> queued w e' = queued w0 e') /\ (forall e' x, x ∈ q_of w e' -> x ∈ q_of w0 e') /\
  req_ok r /\ active r /\ sr_waitall r = sr_waitall r0 /\ sr_callback r = sr_callback r0 /\ sr_datatype r = sr_datatype r0 /\
  TagEager.rr_length (sr_recv r) = TagEager.rr_length (sr_recv r0) /\ req_bytes r ++ queued w e = queued w0 e.

Lemma recv_step_ok w0 e r0 w r : is_Some (w_eps w0 !! e) -> filling w0 e r0 w r ->
  exists x, recv_step e (w, r) = Some x /\
    match x with
    | inl (w', r') => filling w0 e r0 w' r' /\ sr_offset r < sr_offset r' /\ TagEager.rr_length (sr_recv r') = TagEager.rr_length (sr_recv r)
    | inr (st, w', r') => st = UCS_OK /\ filling w0 e r0 w' r' /\
        (sr_offset r' = TagEager.rr_length (sr_recv r') \/ exists ep, w_eps w' !! e = Some ep /\ ep_has_data ep = false)
    end.
Proof.
  intros [ep0 Hep0] HF. pose proof HF as (Hi & Hqt & Hqo & Hsub & Hr & [Hst Hnc] & Hwa & Hcb & Hdt & Hrl & Hb).
  pose proof Hqt as [(_ & _ & _ & Hfr) _]. specialize (Hfr e). rewrite Hep0 in Hfr. destruct Hfr as (ep & Hep & _).
  unfold recv_step. rewrite Hep. cbn [mbind option_bind]. unfold ucp_stream_ep_has_data.
  destruct (Z.ltb_spec (sr_offset r) (TagEager.rr_length (sr_recv r))) as [Hlt|Hge]; cbn [andb].
  2: { eexists. split; [done|]. split; [done|]. split; [done|]. left. destruct Hr as (_ & _ & _ & ? & _). lia. }
  destruct (ep_has_data ep) eqn:Hd; [|eexists; split; [done|]; split; [done|]; split; [done|]; by eauto].
  destruct (rdesc_get_ok w e ep Hi Hep Hd) as (a & q & rd & Hq & Hrd & Hdok & -> & Hqd). cbn [mbind option_bind].
  pose proof (desc_bytes_length rd Hdok) as Hdl. assert (0 < rd_length rd) as Hpos by apply Hdok.
  unfold ucp_stream_process_rdesc. rewrite desc_read_ok by (done || lia). cbn [mbind option_bind].
  rewrite <- Hdl, Nat2Z.id, firstn_all.
  destruct (rdata_unpack_ok r (desc_bytes rd) Hr Hst Hlt ltac:(lia)) as (b & n & En & -> & Hr' & Hb').
  set (r' := set_recv r (sr_offset r + n) (TagEager.set_buffer (sr_recv r) b)) in *. cbn [mbind option_bind].
  assert (0 <= sr_offset r) as Hof by (destruct Hr as (_ & _ & _ & ? & _); lia).
  rewrite (proj2 (Z.leb_le (sr_offset r') _)) by (destruct Hr' as (_ & _ & _ & ? & _); lia). cbn [assert mbind option_bind].
  destruct (rdesc_advance_ok w e ep a q rd n Hi Hep Hq Hrd ltac:(lia)) as (w' & -> & Hi' & (Hqt' & _ & Hqe' & Hqo' & Hsub')).
  cbn [mbind option_bind]. rewrite decide_False by (intros H; by apply H). eexists. split; [done|]. cbn. split; [|split; [lia|done]].
  split; [done|]. split; [by eapply quiet_trans|]. split; [intros e' ?; by rewrite Hqo', Hqo|]. split; [by eauto|].
  do 6 (split; [done|]). rewrite Hb', Hqe', <- app_assoc, <- Hb. f_equal. rewrite Hqd, (drop_app_le (desc_bytes rd)) by lia.
  by rewrite app_assoc, take_drop.
Qed.

Lemma recv_loop_ok w e r : is_Some (w_eps w !! e) -> sinv w -> req_ok r -> active r -> sr_offset r = 0 ->
  exists w' r', while (recv_step e) (w, r) = Some (UCS_OK, w', r') /\ filling w e r w' r' /\
    (sr_offset r' = TagEager.rr_length (sr_recv r') \/ exists ep, w_eps w' !! e = Some ep /\ ep_has_data ep = false).
Proof.
  intros He Hi Hr Ha Ho.
  destruct (while_ok (recv_step e) (fun s : worker * stream_req => filling w e r s.1 s.2)
    (fun s : ucs_status_t * worker * stream_req => s.1.1 = UCS_OK /\ filling w e r s.1.2 s.2 /\
        (sr_offset s.2 = TagEager.rr_length (sr_recv s.2) \/ exists ep, w_eps s.1.2 !! e = Some ep /\ ep_has_data ep = false))
    (fun s : worker * stream_req => TagEager.rr_length (sr_recv s.2) - sr_offset s.2) (w, r)) as ([[st w'] r'] & E & Hst & HF & Hor).
  - intros [w1 r1] HF. destruct (recv_step_ok w e r w1 r1 He HF) as (x & E & Hx). exists x. split; [done|].
    destruct x as [[w2 r2]|[[st w2] r2]]; [|done]. destruct Hx as (HF2 & ? & Hl). split; [done|]. cbn in *. rewrite Hl.
    destruct HF2 as (_ & _ & _ & _ & (_ & _ & _ & ? & _) & _). lia.
  - cbn. split; [done|]. split; [split; [apply frame_refl|done]|]. do 8 (split; [done|]). unfold req_bytes. by rewrite Ho.
  - cbn. destruct Hr as (_ & _ & ? & ? & _). lia.
  - cbn in *. subst st. by exists w', r'.
Qed.

(** Requests are numbered in the order of allocation. *)
Lemma req_fresh w : sinv w -> w_reqs w !! w_next_req w = None.
Proof.
  intros Hi. destruct (w_reqs w !! w_next_req w) as [r|] eqn:E; [|done]. destruct (sinv_reqs w Hi _ r E) as [? _]. lia.
Qed.

Lemma log_id_old w e id : sinv w -> GotReq id ∈ log_of w e -> id <> w_next_req w.
Proof.
  intros Hi Hin ->. apply elem_of_log_of in Hin. destruct (sinv_log w Hi) as [_ H].
  destruct (H (w_next_req w)) as [r Hr]; [apply elem_of_log_reqs, list_elem_of_fmap; by exists (e, GotReq (w_next_req w))|].
  by rewrite req_fresh in Hr.
Qed.

Lemma obtained_ext w w' e : log_of w' e = log_of w e -> (forall o, o ∈ log_of w e -> outcome_bytes w' o = outcome_bytes w o) ->
  obtained w' e = obtained w e.
Proof.
  intros Hl Ho. unfold obtained. rewrite Hl. f_equal. apply list_fmap_ext. intros i o Hi. apply Ho. by eapply list_elem_of_lookup_2.
Qed.

Lemma queue_req_old w e : sinv w -> QReq (w_next_req w) ∉ q_of w e.
Proof.
  intros Hi Hin. apply q_of_elem in Hin as (ep & Hep & Hin). pose proof (sinv_queue w Hi e ep Hep) as H. unfold queue_ok in H.
  destruct (ep_has_data ep); destruct H as [_ H]; destruct (H _ Hin) as (? & ? & ? & E); [done|]. simplify_eq.
  destruct E as [E _]. by rewrite req_fresh in E.
Qed.

(** The worker after a request was queued and returned to the user. *)
Definition post_req (w : worker) (e : Z) (ep : ucp_ep_t) (r : stream_req) : worker :=
  add_log (set_ep (new_req w r) e (set_match_q ep (ep_match_q ep ++ [QReq (w_next_req w)]))) e (GotReq (w_next_req w)).

Section post.
Context (w : worker) (e : Z) (ep : ucp_ep_t) (r : stream_req).
Context (Hi : sinv w) (Hep : w_eps w !! e = Some ep) (Hd : ep_has_data ep = false) (Hp : pending r).
Context (Hempty : q_of w e <> [] -> req_bytes r = []).

Lemma post_q_of e' : q_of (post_req w e ep r) e' = q_of w e' ++ (if decide (e' = e) then [QReq (w_next_req w)] else []).
Proof.
  unfold post_req. change (q_of (set_ep (new_req w r) e (set_match_q ep (ep_match_q ep ++ [QReq (w_next_req w)]))) e' =
    q_of w e' ++ (if decide (e' = e) then [QReq (w_next_req w)] else [])). rewrite q_of_set_ep. case_decide; [subst; by rewrite (q_of_lookup w e ep)|].
  by rewrite app_nil_r.
Qed.

Lemma post_bytes_old e' o : o ∈ log_of w e' -> outcome_bytes (post_req w e ep r) o = outcome_bytes w o.
Proof.
  intros Ho. destruct o as [|id|]; [done| |done]. cbn. rewrite lookup_insert_ne; [done|]. intros <-. by apply (log_id_old w e' (w_next_req w) Hi Ho).
Qed.

Lemma post_log_of e' : log_of (post_req w e ep r) e' = log_of w e' ++ (if decide (e' = e) then [GotReq (w_next_req w)] else []).
Proof. apply (log_of_add (set_ep (new_req w r) e (set_match_q ep (ep_match_q ep ++ [QReq (w_next_req w)])))). Qed.

Lemma post_obtained e' : obtained (post_req w e ep r) e' = obtained w e' ++ (if decide (e' = e) then req_bytes r else []).
Proof.
  unfold obtained. rewrite post_log_of, fmap_app, concat_app. f_equal.
  - f_equal. apply list_fmap_ext. intros i o Ho. eapply post_bytes_old. by eapply list_elem_of_lookup_2.
  - case_decide; [|done]. cbn. by rewrite lookup_insert_eq, app_nil_r.
Qed.

Lemma post_queued e' : queued (post_req w e ep r) e' = queued w e'.
Proof.
  unfold queued. rewrite post_q_of. case_decide; [|by rewrite app_nil_r]. rewrite fmap_app, concat_app. cbn. by rewrite app_nil_r.
Qed.

Lemma post_tail e' : tail_ok (post_req w e ep r) e'.
Proof.
  intros id q. rewrite post_q_of, post_log_of. case_decide as He; [subst e'|].
  - destruct (q_of w e) as [|x q0] eqn:Eq; cbn; intros E; simplify_eq.
    + exists (log_of w e), []. split; [done|]. split; [intros o; by rewrite elem_of_nil|done].
    + destruct (sinv_tail w Hi e id q0 Eq) as (l1 & l2 & El & Hl2 & ->). exists l1, (l2 ++ [GotReq (w_next_req w)]).
      rewrite El, <- app_assoc. split; [done|]. split; [|by rewrite log_reqs_app, fmap_app].
      intros o. rewrite elem_of_app, list_elem_of_singleton. intros [Ho| ->]; [|cbn; rewrite lookup_insert_eq; by apply Hempty].
      rewrite (post_bytes_old e); [by apply Hl2|]. rewrite El, elem_of_app, elem_of_cons. by auto.
  - rewrite !app_nil_r. intros E. destruct (sinv_tail w Hi e' id q E) as (l1 & l2 & El & Hl2 & ->). exists l1, l2. split; [done|].
    split; [|done]. intros o Ho. rewrite (post_bytes_old e'); [by apply Hl2|]. rewrite El, elem_of_app, elem_of_cons. by auto.
Qed.

Lemma post_req_queue_ok e' ep' : w_eps (post_req w e ep r) !! e' = Some ep' -> queue_ok (post_req w e ep r) ep'.
Proof.
  assert (forall e0 ep0, w_eps w !! e0 = Some ep0 -> queue_ok (post_req w e ep r) ep0) as Hold.
  { intros e0 ep0 He0. pose proof (sinv_queue w Hi e0 ep0 He0) as H. unfold queue_ok in *. destruct (ep_has_data ep0); [done|].
    destruct H as [? H]. split; [done|]. intros x Hx. destruct (H x Hx) as (id & r' & -> & E & ?). exists id, r'. split; [done|]. split; [|done].
    cbn. rewrite lookup_insert_ne; [done|]. intros <-. by rewrite req_fresh in E. }
  cbn. rewrite lookup_insert_Some. intros [[-> <-]|[_ H]]; [|by eapply Hold]. specialize (Hold e' ep Hep).
  unfold queue_ok in *. cbn [ep_has_data set_match_q ep_ready_next ep_match_q]. rewrite Hd in *. destruct Hold as [? Hold]. split; [done|].
  intros x. rewrite elem_of_app, list_elem_of_singleton. intros [Hx| ->]; [by apply Hold|]. exists (w_next_req w), r. cbn. by rewrite lookup_insert_eq.
Qed.

Lemma post_sinv : sinv (post_req w e ep r).
Proof.
  pose proof (queue_req_old w) as Hnew. split.
  - apply (sinv_stream w Hi).
  - apply post_req_queue_ok.
  - apply post_tail.
  - intros e1 e2 x. rewrite !post_q_of, !elem_of_app. pose proof (sinv_owner w Hi e1 e2 x).
    repeat case_decide; subst; rewrite ?list_elem_of_singleton, ?elem_of_nil; try tauto;
      intros [Hx1|Hx1] [Hx2|Hx2]; subst; try tauto; exfalso; by eapply Hnew.
  - intros e'. rewrite post_q_of. case_decide; [|rewrite app_nil_r; apply (sinv_nodup w Hi)].
    apply NoDup_snoc_new; [apply (sinv_nodup w Hi)|by apply Hnew].
  - intros id r'. cbn. rewrite lookup_insert_Some. intros [[<- <-]|[Hne E]].
    + split; [lia|]. right. split; [done|]. exists e. rewrite post_q_of, decide_True, elem_of_app, list_elem_of_singleton by done. by right.
    + destruct (sinv_reqs w Hi id r' E) as [? H]. split; [lia|]. destruct H as [?|[? (e' & H)]]; [by left|right]. split; [done|]. exists e'.
      rewrite post_q_of, elem_of_app. by left.
  - destruct (sinv_log w Hi) as [Hn Hall]. cbn. rewrite fmap_app, log_reqs_app. cbn [fmap list_fmap snd log_reqs omap list_omap]. split.
    + apply NoDup_snoc_new; [done|]. intros H. destruct (Hall _ H) as [r' E]. by rewrite req_fresh in E.
    + intros id. rewrite elem_of_app, list_elem_of_singleton. intros [H| ->]; [|by rewrite lookup_insert_eq].
      apply lookup_insert_is_Some'. right. by apply Hall.
  - destruct (sinv_ready w Hi) as [? H]. split; [done|]. intros e'. cbn. rewrite H. destruct (decide (e' = e)) as [->|]; [|by rewrite lookup_insert_ne].
    rewrite lookup_insert_eq. split; intros (ep' & E & ?); simplify_eq; eexists; by split.
  - destruct (sinv_held w Hi) as [? H]. split; [done|]. intros d Hdd. destruct (H d Hdd) as (? & Hq & ?). split; [done|]. split; [|done].
    intros e'. rewrite post_q_of, elem_of_app. intros [Hx|Hx]; [by apply (Hq e')|]. case_decide; [by apply list_elem_of_singleton in Hx|by apply elem_of_nil in Hx].
Qed.

End post.

(** A receive behind requests obtains nothing. *)
Lemma filling_behind w0 e ep0 r0 w r id : sinv w0 -> w_eps w0 !! e = Some ep0 -> filling w0 e r0 w r -> QReq id ∈ q_of w e -> req_bytes r = [].
Proof.
  intros Hi0 Hep0 (_ & _ & _ & Hsub & _ & _ & _ & _ & _ & _ & Hb) Hin. apply Hsub in Hin. rewrite (q_of_lookup w0 e ep0 Hep0) in Hin.
  destruct (ep_has_data ep0) eqn:Hd.
  - by destruct (queue_desc w0 e ep0 (QReq id) Hi0 Hep0 Hin Hd) as (? & ? & ? & _).
  - rewrite (queued_no_data w0 e ep0 Hi0 Hep0 Hd) in Hb. by apply app_eq_nil in Hb as [? _].
Qed.

Lemma filling_bytes arr w0 e r0 w r : inv arr w0 -> filling w0 e r0 w r ->
  forall e', (obtained w e' ++ (if decide (e' = e) then req_bytes r else [])) ++ queued w e' = arr e'.
Proof.
  intros [_ Hb0] (_ & Hqt & Hqo & _ & _ & _ & _ & _ & _ & _ & Hb) e'. rewrite (quiet_obtained w0 w e' Hqt), <- Hb0. case_decide; [subst|].
  - by rewrite <- app_assoc, Hb.
  - by rewrite app_nil_r, Hqo.
Qed.

Lemma recv_request_ok arr w e b dt param : inv arr w -> is_Some (w_eps w !! e) -> TagEager.buffer_ok b -> TagEager.ucp_dt_recv_state_init b = b ->
  Z.of_nat (length (TagEager.content b)) < 2 ^ 63 -> datatype_ok dt ->
  (forall n, dt = DtContig n -> (n | Z.of_nat (length (TagEager.content b)))) ->
  exists w', recv_request w e b (Z.of_nat (length (TagEager.content b))) dt param = Some w' /\ inv arr w' /\ frame w w'.
Proof.
  intros Hinv [ep Hep] Hb Hs Hmax Hdt Hdiv. unfold recv_request.
  destruct (p_force_imm_cmpl param); [eexists; split; [done|]; split; [by apply inv_add_log|by apply frame_same_eps]|].
  destruct (p_alloc param); cbn [negb]; [|eexists; split; [done|]; split; [by apply inv_add_log|by apply frame_same_eps]].
  set (r := ucp_stream_recv_request_init b (Z.of_nat (length (TagEager.content b))) dt param).
  assert (req_ok r) as Hr by (unfold req_ok, r; cbn; rewrite Hs; do 3 (split; [done|]); split; [lia|done]).
  pose proof Hinv as [Hi Hbytes].
  destruct (recv_loop_ok w e r ltac:(by eexists) Hi Hr) as (w' & r' & E & HF & Hor); [done|done|]. rewrite (bind_eq _ _ _ E).
  rewrite decide_False by (intros H; by apply H). pose proof HF as (Hi' & Hqt & _ & _ & Hr' & Ha' & _).
  rewrite (proj2 (Z.leb_le (sr_offset r') _)) by (destruct Hr' as (_ & _ & _ & ? & _); lia). cbn [assert mbind option_bind].
  destruct (ucp_request_can_complete_stream_recv r') eqn:Ec.
  - fold (req_bytes r'). eexists. split; [done|]. split; [|apply (frame_trans w w'); [apply Hqt|by apply frame_same_eps]]. split.
    + apply sinv_add_log; [done|done|]. intros id q Hq. apply (filling_behind w e ep r w' r' id); [done|done|done|rewrite Hq; by left].
    + intros e'. rewrite obtained_add. cbn [outcome_bytes]. by apply (filling_bytes arr w e r w' r').
  - destruct Hor as [Hf|(ep' & Hep' & Hd')]; [by apply can_complete_full in Ec|]. rewrite Hep'. cbn [mbind option_bind].
    unfold ucp_stream_ep_has_data, push. rewrite Hd'. cbn [negb assert mbind option_bind w_eps new_req]. rewrite Hep'. cbn [mbind option_bind].
    exists (post_req w' e ep' r'). split; [done|].
    assert (q_of w' e <> [] -> req_bytes r' = []) as Hemp.
    { destruct (q_of w' e) as [|x q] eqn:Eq; [done|intros _]. pose proof (sinv_queue w' Hi' e ep' Hep') as H. unfold queue_ok in H. rewrite Hd' in H.
      destruct H as [_ H]. destruct (H x) as (id & ? & -> & _); [rewrite <- (q_of_lookup w' e ep' Hep'), Eq; by left|].
      apply (filling_behind w e ep r w' r' id); [done|done|done|rewrite Eq; by left]. }
    split; [split; [by apply post_sinv|]|].
    + intros e'. rewrite (post_obtained w' e ep' r' Hi'), (post_queued w' e ep' r' Hep'). by apply (filling_bytes arr w e r w' r').
    + apply (frame_trans w w'); [apply Hqt|]. apply (frame_set_ep w' _ e ep' (set_match_q ep' (ep_match_q ep' ++ [QReq (w_next_req w')]))); [done|done|done|done| |done].
      intros He id r0. cbn. rewrite lookup_insert_Some. intros [[_ <-]|[_ H]]; [apply Ha'|by apply (He id)].
Qed.

Lemma recv_nbx_ok arr w e buffer count param : inv arr w -> is_Some (w_eps w !! e) -> recv_ok buffer count param ->
  exists w', ucp_stream_recv_nbx w e buffer count param = Some w' /\ inv arr w' /\ frame w w'.
Proof.
  intros Hinv He (Hdt & Hc & Hmax & b & Hb & Hnew). pose proof Hinv as [Hi _]. pose proof He as [ep Hep].
  destruct (recv_length _ count buffer b Hc Hdt Hmax Hb Hnew) as (Hl & Hl63 & Hok & Hs & Hdiv).
  assert (forall dt, datatype_ok dt -> (forall n, dt = DtContig n -> (n | Z.of_nat (length (TagEager.content b)))) -> exists w', (r ← recv_inplace w e b (Z.of_nat (length (TagEager.content b)));
      match r with Some w => Some w | None => recv_request w e b (Z.of_nat (length (TagEager.content b))) dt param end) = Some w' /\
      inv arr w' /\ frame w w') as Htry.
  { intros dt Hdt' Hdiv'. destruct (recv_inplace_ok arr w e ep b Hinv Hep Hok Hs Hl63) as [(w' & -> & ? & ?)| ->]; [by exists w'|].
    by apply recv_request_ok. }
  unfold ucp_stream_recv_nbx. rewrite (sinv_stream w Hi). cbn [negb]. unfold recv_datatype in *.
  destruct (p_no_imm_cmpl param).
  - rewrite (recv_length_bytes count buffer b Hc (Hmax 1 eq_refl) Hb) in Hb |- *.
    destruct (p_datatype param); rewrite Hb; by apply recv_request_ok.
  - destruct (p_datatype param) as [dt|]; cbn [default from_option id] in *.
    + rewrite Hl. cbn [mbind option_bind]. rewrite Hb. by apply Htry.
    + rewrite (recv_length_bytes count buffer b Hc (Hmax 1 eq_refl) Hb) in Hb |- *. rewrite Hb. by apply Htry.
Qed.

(** ** Calls of the user *)

(** A valid call, and one that is valid in every state (a call of a callback). *)
Definition call_ok (w : worker) (c : user_call) : Prop :=
  match c with
  | CallRecv e buffer count param => is_Some (w_eps w !! e) /\ recv_ok buffer count param
  | CallRecvData e => is_Some (w_eps w !! e)
  | CallRelease d => d ∈ w_held w
  | CallPoll _ => True
  end.

Definition cb_call_ok (w : worker) (c : user_call) : Prop :=
  call_ok w c /\ match c with CallRelease _ => False | _ => True end.

(** The endpoints and their flags that only the life cycle of endpoints changes. *)
Definition keeps (w w' : worker) : Prop :=
  forall e, match w_eps w !! e with
            | Some ep => exists ep', w_eps w' !! e = Some ep' /\ ep_used ep' = ep_used ep /\ ep_closed ep' = ep_closed ep
            | None => w_eps w' !! e = None
            end.

Lemma frame_keeps w w' : frame w w' -> keeps w w'.
Proof.
  intros (_ & _ & _ & H) e. specialize (H e). destruct (w_eps w !! e); [|done]. destruct H as (ep' & ? & ? & ? & _). by exists ep'.
Qed.

Lemma keeps_trans w1 w2 w3 : keeps w1 w2 -> keeps w2 w3 -> keeps w1 w3.
Proof.
  intros H1 H2 e. specialize (H1 e). specialize (H2 e). destruct (w_eps w1 !! e); [|by rewrite H1 in H2].
  destruct H1 as (ep & E & ? & ?). rewrite E in H2. destruct H2 as (ep' & ? & ? & ?). exists ep'. split; [done|]. split; congruence.
Qed.

Lemma keeps_set_ep w w' e ep ep' : w_eps w !! e = Some ep -> ep_used ep' = ep_used ep -> ep_closed ep' = ep_closed ep ->
  w_eps w' = <[e := ep']> (w_eps w) -> keeps w w'.
Proof.
  intros Hep Hu Hc He e'. rewrite He. destruct (decide (e' = e)) as [->|Hne].
  - rewrite Hep, lookup_insert_eq. by eexists.
  - rewrite lookup_insert_ne by done. destruct (w_eps w !! e'); [|done]. by eexists.
Qed.

Lemma keeps_is_Some w w' e : keeps w w' -> is_Some (w_eps w !! e) -> is_Some (w_eps w' !! e).
Proof. intros H [ep E]. specialize (H e). rewrite E in H. destruct H as (? & -> & _). by eexists. Qed.

Lemma cb_call_keeps w w' c : keeps w w' -> cb_call_ok w c -> cb_call_ok w' c.
Proof. intros Hf [H1 H2]. split; [|done]. destruct c; cbn in *; try done; [destruct H1; split; [by eapply keeps_is_Some|done]|by eapply keeps_is_Some]. Qed.

Lemma user_step_ok arr w c : inv arr w -> call_ok w c -> exists w', user_step w c = Some w' /\ inv arr w' /\ frame w w'.
Proof.
  intros Hi Hc. destruct c as [e buffer count param|e|d|n]; cbn in *.
  - destruct Hc. by apply recv_nbx_ok.
  - destruct (recv_data_nb_ok arr w e Hi Hc) as (r & w' & -> & ? & ?). by exists w'.
  - destruct (data_release_ok arr w d Hi Hc) as (w' & -> & ? & ? & _). by exists w'.
  - destruct (worker_poll_ok arr n w Hi) as (w' & -> & ? & ? & _). by exists w'.
Qed.

Lemma user_steps_ok arr cs : forall w, inv arr w -> Forall (cb_call_ok w) cs ->
  exists w', user_steps w cs = Some w' /\ inv arr w' /\ frame w w'.
Proof.
  induction cs as [|c cs IH]; intros w Hi Hcs; cbn [user_steps]; [exists w; split; [done|]; split; [done|apply frame_refl]|].
  apply Forall_cons in Hcs as [[Hc _] Hcs]. destruct (user_step_ok arr w c Hi Hc) as (w1 & -> & Hi1 & Hf1). cbn [mbind option_bind].
  destruct (IH w1 Hi1) as (w' & -> & Hi' & Hf').
  { eapply Forall_impl; [done|]. intros c'. by apply cb_call_keeps, frame_keeps. }
  exists w'. split; [done|]. split; [done|by eapply frame_trans].
Qed.

(** ** Arrival *)

(** The worker with a request and the queue of its endpoint changed. *)
Definition fill (w : worker) (e : Z) (ep : ucp_ep_t) (q : list match_elem) (id : Z) (r : stream_req) : worker :=
  Worker (w_stream w) (<[e := set_match_q ep q]> (w_eps w)) (w_ready w) (w_descs w) (<[id := r]> (w_reqs w)) (w_next_req w)
    (w_log w) (w_released w) (w_held w).

Lemma log_reqs_cons_inv l id ids : log_reqs l = id :: ids -> exists l1 l2, l = l1 ++ GotReq id :: l2 /\ log_reqs l2 = ids.
Proof.
  induction l as [|o l IH]; [done|]. destruct o as [data|id'|st]; cbn; intros E.
  - destruct (IH E) as (l1 & l2 & -> & ?). by exists (GotBytes data :: l1), l2.
  - simplify_eq. by exists [], l.
  - destruct (IH E) as (l1 & l2 & -> & ?). by exists (GotError st :: l1), l2.
Qed.

Section fill.
Context (w : worker) (e : Z) (ep : ucp_ep_t) (id : Z) (q : list match_elem) (r r' : stream_req) (d : list Z) (q' : list match_elem).
Context (Hi : sinv w) (Hep : w_eps w !! e = Some ep) (Hq : ep_match_q ep = QReq id :: q) (Hr : w_reqs w !! id = Some r).
Context (Hb : req_bytes r' = req_bytes r ++ d) (Hq' : (q' = QReq id :: q /\ pending r') \/ (q' = q /\ completed r')).

Lemma fill_head : q_of w e = QReq id :: q.
Proof. by rewrite (q_of_lookup w e ep). Qed.

Lemma fill_no_data : ep_has_data ep = false.
Proof. apply (queue_requests w e ep id q Hi Hep fill_head). Qed.

Lemma fill_q_of e' : q_of (fill w e ep q' id r') e' = if decide (e' = e) then q' else q_of w e'.
Proof. apply (q_of_set_ep w e (set_match_q ep q')). Qed.

Lemma fill_sub e' x : x ∈ q_of (fill w e ep q' id r') e' -> x ∈ q_of w e'.
Proof.
  rewrite fill_q_of. case_decide; [subst e'|done]. rewrite fill_head. destruct Hq' as [[-> _]|[-> _]]; [done|]. by right.
Qed.

Lemma fill_keeps e' x : x ∈ q_of w e' -> x <> QReq id -> x ∈ q_of (fill w e ep q' id r') e'.
Proof.
  rewrite fill_q_of. case_decide; [subst e'|done]. rewrite fill_head, elem_of_cons. intros [->|Hx] Hne; [done|].
  destruct Hq' as [[-> _]|[-> _]]; [by right|done].
Qed.

Lemma fill_log : exists l1 l2, log_of w e = l1 ++ GotReq id :: l2 /\ (forall o, o ∈ l2 -> outcome_bytes w o = []) /\
  q = QReq <$> log_reqs l2 /\ GotReq id ∉ l1 /\ GotReq id ∉ l2.
Proof.
  destruct (sinv_tail w Hi e id q fill_head) as (l1 & l2 & El & Hl2 & Eq). exists l1, l2. split; [done|]. split; [done|]. split; [done|].
  pose proof (sublist_NoDup _ _ (proj1 (sinv_log w Hi)) (log_of_sublist w e)) as Hnd. rewrite El, log_reqs_app in Hnd.
  cbn in Hnd. apply NoDup_app in Hnd as (_ & Hn1 & Hn2). apply NoDup_cons in Hn2 as [Hn2 _]. split; rewrite <- elem_of_log_reqs; [|done].
  intros H. apply (Hn1 id H). by left.
Qed.

Lemma fill_bytes o : o <> GotReq id -> outcome_bytes (fill w e ep q' id r') o = outcome_bytes w o.
Proof. intros Ho. destruct o as [|id'|]; [done| |done]. cbn. rewrite lookup_insert_ne; [done|]. by intros ->. Qed.

Lemma fill_other e' : e' <> e -> GotReq id ∉ log_of w e'.
Proof.
  intros Hne Hin. destruct fill_log as (l1 & l2 & El & _). apply Hne.
  apply (log_of_other w e' e id); [apply (sinv_log w Hi)|done|]. rewrite El, elem_of_app, elem_of_cons. by auto.
Qed.

Lemma fill_obtained e' : obtained (fill w e ep q' id r') e' = obtained w e' ++ (if decide (e' = e) then d else []).
Proof.
  case_decide as He.
  - subst e'. destruct fill_log as (l1 & l2 & El & Hl2 & _ & Hn1 & Hn2). unfold obtained.
    change (log_of (fill w e ep q' id r') e) with (log_of w e). rewrite El, !fmap_app, !concat_app, !fmap_cons. cbn [concat].
    assert (concat (outcome_bytes w <$> l2) = []) as Hz.
    { clear -Hl2. induction l2 as [|o l2 IH]; [done|]. cbn. rewrite Hl2 by by left. apply IH. intros o' Ho'. apply Hl2. by right. }
    assert (forall l : list outcome, GotReq id ∉ l -> outcome_bytes (fill w e ep q' id r') <$> l = outcome_bytes w <$> l) as Hx.
    { intros l Hl. apply list_fmap_ext. intros i o Ho. apply fill_bytes. intros ->. apply Hl. by eapply list_elem_of_lookup_2. }
    rewrite !Hx, Hz by done. cbn. rewrite lookup_insert_eq, Hr. cbn. rewrite Hb, !app_nil_r. by rewrite app_assoc.
  - rewrite app_nil_r. apply obtained_ext; [done|]. intros o Ho. apply fill_bytes. intros ->. by apply (fill_other e').
Qed.

Lemma fill_queued e' : queued (fill w e ep q' id r') e' = queued w e'.
Proof.
  unfold queued. rewrite fill_q_of. case_decide; [subst e'|done]. rewrite fill_head. destruct Hq' as [[-> _]|[-> _]]; done.
Qed.

Lemma fill_tail e' : tail_ok (fill w e ep q' id r') e'.
Proof.
  intros id' q2. rewrite fill_q_of. change (log_of (fill w e ep q' id r') e') with (log_of w e'). case_decide as He.
  - subst e'. destruct fill_log as (l1 & l2 & El & Hl2 & Eq & Hn1 & Hn2).
    assert (forall o, o ∈ l2 -> outcome_bytes (fill w e ep q' id r') o = []) as Hz.
    { intros o Ho. rewrite fill_bytes; [by apply Hl2|]. by intros ->. }
    destruct Hq' as [[-> _]|[-> _]]; intros E; [simplify_eq; by exists l1, l2|].
    rewrite Eq in E. destruct (log_reqs l2) as [|id2 ids2] eqn:El2; [done|]. cbn in E. simplify_eq.
    destruct (log_reqs_cons_inv l2 id' ids2 El2) as (l3 & l4 & -> & <-). exists (l1 ++ GotReq id :: l3), l4.
    split; [by rewrite El, <- app_assoc|]. split; [|done]. intros o Ho. apply Hz. rewrite elem_of_app, elem_of_cons. by auto.
  - intros E. destruct (sinv_tail w Hi e' id' q2 E) as (l1 & l2 & El & Hl2 & ->). exists l1, l2. split; [done|]. split; [|done].
    intros o Ho. rewrite fill_bytes; [by apply Hl2|]. intros ->. apply (fill_other e' He). rewrite El, elem_of_app, elem_of_cons. by auto.
Qed.

Lemma fill_queue_ok e' ep' : w_eps (fill w e ep q' id r') !! e' = Some ep' -> queue_ok (fill w e ep q' id r') ep'.
Proof.
  cbn. rewrite lookup_insert_Some. intros [[<- <-]|[Hne E]].
  - pose proof (sinv_queue w Hi e ep Hep) as H. unfold queue_ok in *. cbn [ep_has_data set_match_q ep_ready_next ep_match_q].
    rewrite fill_no_data in *. destruct H as [? H]. split; [done|]. intros x Hx. destruct (decide (x = QReq id)) as [->|Hxi].
    + exists id, r'. split; [done|]. cbn. split; [by rewrite lookup_insert_eq|]. destruct Hq' as [[_ ?]|[-> _]]; [done|].
      pose proof (sinv_nodup w Hi e) as Hnd. rewrite fill_head in Hnd. by apply NoDup_cons in Hnd as [? _].
    + destruct (H x) as (id' & r0 & -> & E & ?).
      { rewrite <- (q_of_lookup w e ep Hep). apply (fill_sub e). by rewrite fill_q_of, decide_True. }
      exists id', r0. split; [done|]. split; [|done]. cbn. rewrite lookup_insert_ne; [done|]. by intros ->.
  - pose proof (sinv_queue w Hi e' ep' E) as H. unfold queue_ok in *. destruct (ep_has_data ep'); [done|]. destruct H as [? H]. split; [done|].
    intros x Hx. destruct (H x Hx) as (id' & r0 & -> & Er & ?). exists id', r0. split; [done|]. split; [|done]. cbn.
    rewrite lookup_insert_ne; [done|]. intros <-. apply Hne. apply (sinv_owner w Hi e e' (QReq id)); [rewrite fill_head; by left|].
    by rewrite (q_of_lookup w e' ep').
Qed.

Lemma fill_sinv : sinv (fill w e ep q' id r').
Proof.
  assert (QReq id ∈ q_of w e) as Hin by (rewrite fill_head; by left).
  split.
  - apply (sinv_stream w Hi).
  - apply fill_queue_ok.
  - apply fill_tail.
  - intros e1 e2 x H1 H2. apply (sinv_owner w Hi e1 e2 x); by apply fill_sub.
  - intros e'. rewrite fill_q_of. pose proof (sinv_nodup w Hi) as Hnd. case_decide; [|done]. specialize (Hnd e). rewrite fill_head in Hnd.
    destruct Hq' as [[-> _]|[-> _]]; [done|]. by apply NoDup_cons in Hnd as [_ ?].
  - intros id' r0. cbn. rewrite lookup_insert_Some. intros [[<- <-]|[Hne E]].
    + split; [by apply (sinv_reqs w Hi id r Hr)|]. destruct Hq' as [[Eq ?]|[_ ?]]; [right|by left]. split; [done|]. exists e.
      rewrite fill_q_of, decide_True, Eq by done. by left.
    + destruct (sinv_reqs w Hi id' r0 E) as [? H]. split; [done|]. destruct H as [?|[? (e' & H)]]; [by left|right]. split; [done|]. exists e'.
      apply fill_keeps; [done|]. intros E'. by simplify_eq.
  - destruct (sinv_log w Hi) as [? H]. split; [done|]. intros id' Hid. cbn. apply lookup_insert_is_Some'. right. by apply H.
  - destruct (sinv_ready w Hi) as [? H]. split; [done|]. intros e'. cbn. rewrite H. destruct (decide (e' = e)) as [->|]; [|by rewrite lookup_insert_ne].
    rewrite lookup_insert_eq. split; intros (ep' & E & ?); simplify_eq; eexists; by split.
  - destruct (sinv_held w Hi) as [? H]. split; [done|]. intros dd Hdd. destruct (H dd Hdd) as (? & Hqq & ?). split; [done|]. split; [|done].
    intros e' Hx. apply (Hqq e'). by apply fill_sub.
Qed.

Lemma fill_keeps_eps : keeps w (fill w e ep q' id r').
Proof. by apply (keeps_set_ep w _ e ep (set_match_q ep q')). Qed.

Lemma fill_frame : TagEager.rr_status (sr_recv r') = UCS_OK -> frame w (fill w e ep q' id r').
Proof.
  intros Hst. apply (frame_set_ep w _ e ep (set_match_q ep q')); [done|done|done|done| |done].
  intros He id' r0. cbn. rewrite lookup_insert_Some. intros [[_ <-]|[_ H]]; [done|by apply (He id')].
Qed.

Lemma fill_inv arr : (forall e', obtained w e' ++ queued w e' = arr e') ->
  inv (fun e' => if decide (e' = e) then arr e' ++ d else arr e') (fill w e ep q' id r').
Proof.
  intros Hby. split; [apply fill_sinv|]. intros e'. rewrite fill_obtained, fill_queued, <- Hby. case_decide; [subst e'|by rewrite app_nil_r].
  rewrite (queued_no_data w e ep Hi Hep fill_no_data). by rewrite !app_nil_r.
Qed.

End fill.

(** More data [d] arrived for the endpoint [e]. *)
Definition more (arr : Z -> list Z) (e : Z) (d : list Z) : Z -> list Z := fun e' => if decide (e' = e) then arr e' ++ d else arr e'.

Lemma inv_ext arr arr' w : (forall e, arr e = arr' e) -> inv arr w -> inv arr' w.
Proof. intros He [Hi Hb]. split; [done|]. intros e. by rewrite Hb. Qed.

Lemma more_more arr e d1 d2 e' : more (more arr e d1) e d2 e' = more arr e (d1 ++ d2) e'.
Proof. unfold more. case_decide; [by rewrite app_assoc|done]. Qed.

Lemma more_nil arr e e' : arr e' = more arr e [] e'.
Proof. unfold more. case_decide; [by rewrite app_nil_r|done]. Qed.

Lemma set_req_fill w e ep id q r : w_eps w !! e = Some ep -> ep_match_q ep = QReq id :: q -> set_req w id r = fill w e ep (QReq id :: q) id r.
Proof.
  intros Hep Hq. unfold set_req, fill. f_equal. symmetry. apply insert_id. rewrite Hep. destruct ep. cbn in *. by subst.
Qed.

Section callbacks.
Variable recv_stream_cb : Z -> ucs_status_t -> Z -> list user_call.

(** The calls of the callbacks are valid for the endpoints of the worker. *)
Definition callbacks_ok (w : worker) : Prop := forall id st len, Forall (cb_call_ok w) (recv_stream_cb id st len).

Lemma callbacks_keeps w w' : keeps w w' -> callbacks_ok w -> callbacks_ok w'.
Proof. intros Hf H id st len. eapply Forall_impl; [apply H|]. intros c. by apply cb_call_keeps. Qed.

(** Completion of the first request of an endpoint: the queue and the request
    change, then the callback runs. *)
Lemma complete_eq w e ep id q r st : w_eps w !! e = Some ep -> ep_match_q ep = QReq id :: q -> active r -> st <> UCS_INPROGRESS ->
  (st = UCS_OK -> 0 < sr_offset r) -> ucp_request_complete_stream_recv recv_stream_cb (set_req w id r) id e st =
    let w' := fill w e ep q id (complete_req r st) in
    if sr_callback r then user_steps w' (recv_stream_cb id st (sr_offset r)) else Some w'.
Proof.
  intros Hep Hq [_ Hnc] Hst Hok. unfold ucp_request_complete_stream_recv.
  change (w_eps (set_req w id r)) with (w_eps w). change (w_reqs (set_req w id r)) with (<[id := r]> (w_reqs w)). rewrite Hep.
  cbn [mbind option_bind]. rewrite Hq, Z.eqb_refl. cbn [assert mbind option_bind]. rewrite lookup_insert_eq. cbn [mbind option_bind].
  assert ((0 <? sr_offset r) || negb (bool_decide (st = UCS_OK) || bool_decide (st = UCS_INPROGRESS)) = true) as ->.
  { rewrite (bool_decide_false (st = UCS_INPROGRESS)) by done. destruct (bool_decide_reflect (st = UCS_OK)) as [E|]; cbn; [|by rewrite orb_true_r].
    rewrite (proj2 (Z.ltb_lt _ _)) by by apply Hok. done. }
  rewrite Hnc. cbn [negb assert mbind option_bind]. rewrite bool_decide_true by done. cbn [assert mbind option_bind].
  assert (set_req (set_ep (set_req w id r) e (set_match_q ep q)) id (complete_req r st) = fill w e ep q id (complete_req r st)) as E.
  { unfold set_req, set_ep, fill. cbn. by rewrite insert_insert_eq. }
  by rewrite E.
Qed.

(** The same after [d] was stored in the request, with the invariant. *)
Lemma complete_ok arr w e ep id q r r' d st : inv arr w -> callbacks_ok w -> w_eps w !! e = Some ep -> ep_match_q ep = QReq id :: q ->
  w_reqs w !! id = Some r -> req_bytes r' = req_bytes r ++ d -> req_ok r' -> active r' -> st <> UCS_INPROGRESS ->
  (st = UCS_OK -> ucp_request_can_complete_stream_recv r' = true /\ 0 < sr_offset r') ->
  exists w', ucp_request_complete_stream_recv recv_stream_cb (set_req w id r') id e st = Some w' /\ inv (more arr e d) w' /\
    keeps w w' /\ (st = UCS_OK -> frame w w').
Proof.
  intros [Hi Hby] Hcb Hep Hq Hr Hb Hrok Hact Hst Hok. rewrite (complete_eq w e ep id q r' st Hep Hq Hact Hst) by (intros E; by apply Hok).
  set (r2 := complete_req r' st). cbn zeta.
  assert (completed r2) as Hc by (split; [exact Hrok|]; split; [done|]; split; [done|exact Hok]).
  assert (inv (more arr e d) (fill w e ep q id r2)) as Hi2 by (apply (fill_inv w e ep id q r r2 d q); try done; by right).
  assert (keeps w (fill w e ep q id r2)) as Hk2 by by apply fill_keeps_eps.
  assert (st = UCS_OK -> frame w (fill w e ep q id r2)) as Hf2 by (intros Est; by apply (fill_frame w e ep id r2 q)).
  destruct (sr_callback r'); [|by eexists].
  destruct (user_steps_ok (more arr e d) (recv_stream_cb id st (sr_offset r')) _ Hi2) as (w' & -> & Hi' & Hf'); [by apply (callbacks_keeps w)|].
  exists w'. split; [done|]. split; [done|]. split; [by eapply keeps_trans; [|apply frame_keeps]|]. intros Est.
  eapply frame_trans; [by apply Hf2|done].
Qed.

(** One expected request. *)
Lemma expected_step_ok arr w e ep rest : inv arr w -> callbacks_ok w -> w_eps w !! e = Some ep -> ep_has_data ep = false -> rest <> [] ->
  exists x, expected_step recv_stream_cb e (w, rest) = Some x /\
    match x with
    | inl (w', rest') => exists c, rest = c ++ rest' /\ c <> [] /\ rest' <> [] /\ inv (more arr e c) w' /\ frame w w'
    | inr (w', None) => inv (more arr e rest) w' /\ frame w w'
    | inr (w', Some rest') => rest' = rest /\ w' = w /\ q_of w e = []
    end.
Proof.
  intros [Hi Hby] Hcb Hep Hd Hne. unfold expected_step. rewrite Hep. cbn [mbind option_bind].
  pose proof (sinv_queue w Hi e ep Hep) as H. unfold queue_ok in H. rewrite Hd in H. destruct H as [_ H].
  destruct (ep_match_q ep) as [|x q] eqn:Hq; [eexists; split; [done|]; by rewrite (q_of_lookup w e ep), Hq|].
  destruct (H x) as (id & r & -> & Hr & (Hrok & [Hst Hnc] & Hcc)); [by left|]. rewrite Hr. cbn [mbind option_bind].
  assert (sr_offset r < TagEager.rr_length (sr_recv r)) as Hlt.
  { apply can_complete_full in Hcc. destruct Hrok as (_ & _ & _ & ? & _). lia. }
  assert (0 <= sr_offset r) as Ho by (destruct Hrok as (_ & _ & _ & ? & _); lia).
  assert (0 < Z.of_nat (length rest)) as Hpos by (destruct rest; [done|cbn; lia]).
  destruct (rdata_unpack_ok r rest Hrok Hst Hlt Hpos) as (b & n & En & -> & Hr' & Hb').
  set (r' := set_recv r (sr_offset r + n) (TagEager.set_buffer (sr_recv r) b)) in *. cbn [mbind option_bind].
  assert (active r') as Ha' by done. assert (0 < sr_offset r') as Ho' by (cbn; lia).
  assert (forall d, d = take (Z.to_nat n) rest -> ucp_request_can_complete_stream_recv r' = true ->
    exists w', ucp_request_complete_stream_recv recv_stream_cb (set_req w id r') id e UCS_OK = Some w' /\ inv (more arr e d) w' /\ frame w w') as Hcomp.
  { intros d -> Hcc'. destruct (complete_ok arr w e ep id q r r' (take (Z.to_nat n) rest) UCS_OK) as (w' & ? & ? & _ & ?); try done.
    exists w'. by auto. }
  destruct (Z.eqb_spec n (Z.of_nat (length rest))) as [Hall|Hpart].
  - assert (rest = take (Z.to_nat n) rest) as Hrest by (rewrite take_ge; [done|lia]).
    destruct (ucp_request_can_complete_stream_recv r') eqn:Hcc'.
    + destruct (Hcomp rest Hrest eq_refl) as (w' & -> & ? & ?). by eexists.
    + eexists. split; [done|]. rewrite (set_req_fill w e ep id q r' Hep Hq). split; [|by apply fill_frame].
      apply (fill_inv w e ep id q r r' rest (QReq id :: q)); try done; [by rewrite Hb', <- Hrest|by left].
  - rewrite (proj2 (Z.leb_le _ _)) by lia. cbn [assert mbind option_bind].
    assert (ucp_request_can_complete_stream_recv r' = true) as Hcc'.
    { unfold ucp_request_can_complete_stream_recv. rewrite (proj2 (Z.eqb_eq _ _)); [done|]. cbn. lia. }
    rewrite Hcc'. cbn [assert mbind option_bind]. destruct (Hcomp _ eq_refl Hcc') as (w' & -> & ? & ?). cbn [mbind option_bind].
    eexists. split; [done|]. exists (take (Z.to_nat n) rest). rewrite take_drop. split; [done|].
    split; [|split; [|done]]; intros E; apply (f_equal length) in E; cbn in E; rewrite ?length_take, ?length_drop in E; lia.
Qed.

Lemma expected_loop_ok arr w e ep data : inv arr w -> callbacks_ok w -> w_eps w !! e = Some ep -> ep_has_data ep = false -> data <> [] ->
  Z.of_nat (length data) < 2 ^ 64 -> exists w' rest, while (expected_step recv_stream_cb e) (w, data) = Some (w', rest) /\ frame w w' /\
    match rest with
    | None => inv (more arr e data) w'
    | Some rest => exists c, data = c ++ rest /\ rest <> [] /\ inv (more arr e c) w' /\ q_of w' e = []
    end.
Proof.
  intros Hinv Hcb Hep Hd Hne Hlen.
  destruct (while_ok (expected_step recv_stream_cb e)
    (fun s : worker * list Z => exists c, data = c ++ s.2 /\ s.2 <> [] /\ inv (more arr e c) s.1 /\ frame w s.1)
    (fun s : worker * option (list Z) => frame w s.1 /\ match s.2 with
       | None => inv (more arr e data) s.1
       | Some rest => exists c, data = c ++ rest /\ rest <> [] /\ inv (more arr e c) s.1 /\ q_of s.1 e = [] end)
    (fun s => Z.of_nat (length s.2)) (w, data)) as ([w' rest] & E & Hf & HQ).
  - intros [w1 r1] (c & Ec & Hne1 & Hi1 & Hf1). cbn [fst snd] in *. pose proof Hf1 as (_ & _ & _ & Hfe). specialize (Hfe e). rewrite Hep in Hfe.
    destruct Hfe as (ep1 & Hep1 & _ & _ & Hd1).
    destruct (expected_step_ok (more arr e c) w1 e ep1 r1 Hi1) as (x & -> & Hx); [by apply (callbacks_keeps w); [apply frame_keeps|]|done|by apply Hd1|done|].
    exists x. split; [done|]. destruct x as [[w2 r2]|[w2 [r2|]]]; cbn.
    + destruct Hx as (c2 & -> & Hc2 & Hr2 & Hi2 & Hf2). split.
      * exists (c ++ c2). rewrite <- app_assoc. split; [done|]. split; [done|]. split; [|by eapply frame_trans].
        eapply inv_ext; [|done]. intros e'. apply more_more.
      * rewrite length_app. assert (0 < length c2)%nat by (destruct c2; [done|cbn; lia]). lia.
    + destruct Hx as (-> & -> & Hq). split; [done|]. by exists c.
    + destruct Hx as [Hi2 Hf2]. split; [by eapply frame_trans|]. rewrite Ec. eapply inv_ext; [|done]. intros e'. apply more_more.
  - exists []. split; [done|]. split; [done|]. split; [|apply frame_refl]. eapply inv_ext; [|done]. intros e'. apply more_nil.
  - cbn. lia.
  - by exists w', rest.
Qed.

End callbacks.

(** *** Unexpected data *)

(** The worker after a descriptor was queued. *)
Definition push_desc (w : worker) (e : Z) (ep : ucp_ep_t) (a : Z) (rd : ucp_recv_desc_t) : worker :=
  set_ep (set_desc w a rd) e (set_match_q (set_has_data ep true) (ep_match_q ep ++ [QDesc a])).

Section push_desc.
Context (w : worker) (e : Z) (ep : ucp_ep_t) (a : Z) (rd : ucp_recv_desc_t).
Context (Hi : sinv w) (Hep : w_eps w !! e = Some ep) (Hor : ep_has_data ep = true \/ ep_match_q ep = []).
Context (Ha : addr_ok a) (Hfresh : w_descs w !! a = None) (Hok : desc_ok rd).

Lemma fresh_not_queued e' : QDesc a ∉ q_of w e'.
Proof.
  intros Hin. apply q_of_elem in Hin as (ep' & Hep' & Hin). pose proof (sinv_queue w Hi e' ep' Hep') as H. unfold queue_ok in H.
  destruct (ep_has_data ep'); destruct H as [_ H]; destruct (H _ Hin) as (? & ? & ? & E); simplify_eq. destruct E as (_ & E & _). congruence.
Qed.

Lemma fresh_not_held : a ∉ (w_held w).*1.
Proof.
  rewrite list_elem_of_fmap. intros (d & -> & Hd). destruct (proj2 (sinv_held w Hi) d Hd) as (_ & _ & ? & ? & _). congruence.
Qed.

Lemma push_desc_sinv_desc : sinv (set_desc w a rd).
Proof. apply sinv_set_desc; [done|apply fresh_not_held|done|by right]. Qed.

Lemma push_q_of e' : q_of (push_desc w e ep a rd) e' = q_of w e' ++ (if decide (e' = e) then [QDesc a] else []).
Proof.
  unfold push_desc. rewrite q_of_set_ep. case_decide; [subst; by rewrite (q_of_lookup w e ep)|]. by rewrite app_nil_r.
Qed.

Lemma push_queued e' : queued (push_desc w e ep a rd) e' = queued w e' ++ (if decide (e' = e) then desc_bytes rd else []).
Proof.
  assert (forall e0, elem_bytes (push_desc w e ep a rd) <$> q_of w e0 = elem_bytes w <$> q_of w e0) as Hold.
  { intros e0. apply list_fmap_ext. intros i x Hx. apply list_elem_of_lookup_2 in Hx. destruct x as [a'|]; [|done]. cbn.
    rewrite lookup_insert_ne; [done|]. intros <-. by apply (fresh_not_queued e0). }
  unfold queued. rewrite push_q_of, fmap_app, concat_app, Hold. f_equal. case_decide; [|done]. cbn. by rewrite lookup_insert_eq, app_nil_r.
Qed.

Lemma push_sinv : sinv (push_desc w e ep a rd).
Proof.
  pose proof push_desc_sinv_desc as Hi1. split.
  - apply (sinv_stream w Hi).
  - intros e' ep'. cbn. rewrite lookup_insert_Some. intros [[<- <-]|[_ E]]; [|by apply (sinv_queue _ Hi1 e')].
    unfold queue_ok. cbn. split; [by destruct (ep_match_q ep)|]. intros x. rewrite elem_of_app, list_elem_of_singleton. intros [Hx| ->].
    + destruct Hor as [Hd|Hnil]; [|rewrite Hnil in Hx; by apply elem_of_nil in Hx]. by apply (queue_desc (set_desc w a rd) e ep x Hi1).
    + exists a, rd. by rewrite lookup_insert_eq.
  - intros e' id q. rewrite push_q_of. intros E. destruct (q_of w e') as [|x q0] eqn:Eq; [cbn in E; case_decide; by simplify_eq|].
    cbn in E. simplify_eq. case_decide as He; [|rewrite app_nil_r; by apply (sinv_tail w Hi)]. subst e'.
    destruct Hor as [Hd|Hnil]; [|by rewrite (q_of_lookup w e ep), Hnil in Eq]. rewrite (queue_requests w e ep id q0 Hi Hep Eq) in Hd. done.
  - intros e1 e2 x. rewrite !push_q_of, !elem_of_app. pose proof (sinv_owner w Hi e1 e2 x).
    repeat case_decide; subst; rewrite ?list_elem_of_singleton, ?elem_of_nil; try tauto;
      intros [Hx1|Hx1] [Hx2|Hx2]; subst; try tauto; exfalso; by eapply fresh_not_queued.
  - intros e'. rewrite push_q_of. case_decide; [|rewrite app_nil_r; apply (sinv_nodup w Hi)].
    apply NoDup_snoc_new; [apply (sinv_nodup w Hi)|apply fresh_not_queued].
  - intros id r E. destruct (sinv_reqs w Hi id r E) as [? H]. split; [done|]. destruct H as [?|[? (e' & H)]]; [by left|right]. split; [done|].
    exists e'. rewrite push_q_of, elem_of_app. by left.
  - apply (sinv_log w Hi).
  - destruct (sinv_ready w Hi) as [? H]. split; [done|]. intros e'. cbn. rewrite H. destruct (decide (e' = e)) as [->|]; [|by rewrite lookup_insert_ne].
    rewrite lookup_insert_eq. split; intros (ep' & E & ?); simplify_eq; eexists; by split.
  - destruct (sinv_held _ Hi1) as [? H]. split; [done|]. intros d Hdd. destruct (H d Hdd) as (? & Hq & ?). split; [done|]. split; [|done].
    intros e'. rewrite push_q_of, elem_of_app. intros [Hx|Hx]; [by apply (Hq e')|]. case_decide; [|by apply elem_of_nil in Hx].
    apply list_elem_of_singleton in Hx. apply fresh_not_held, list_elem_of_fmap. exists d. split; [by simplify_eq|done].
Qed.

Lemma push_inv arr : (forall e', obtained w e' ++ queued w e' = arr e') -> inv (more arr e (desc_bytes rd)) (push_desc w e ep a rd).
Proof.
  intros Hby. split; [apply push_sinv|]. intros e'. change (obtained (push_desc w e ep a rd) e') with (obtained w e'). rewrite push_queued.
  unfold more. rewrite <- Hby. case_decide; by rewrite ?app_nil_r, ?app_assoc.
Qed.

End push_desc.

End StreamInvariant.
