(* ===== verification/StreamProperties.v ===== *)
(** What the streams of a worker guarantee.

    Messages arrive, the user calls the receive functions, and callbacks of
    completed receives call them again: the bytes obtained from an endpoint are
    the bytes that arrived, in their order; receives complete as soon as they can
    and never earlier; the ready list shows the endpoints with data; the cleanup
    of an endpoint completes every receive and releases every descriptor. *)

From S2P Require Import Prelude.
From S2P Require Import Iov.
From S2P Require Import TagEager.
From S2P Require Import Stream.
From S2P Require Import StreamInvariant.

Module StreamProperties.
Import Stream StreamInvariant.

(** ** Arrival of a message *)

Definition am_ep (am_data : list Z) : Z := le64_val (take 8 am_data).

(** A message: the header and a payload, with memory for a descriptor. *)
Definition am_ok (w : worker) (am_data : list Z) (mem : am_memory) : Prop :=
  8 < Z.of_nat (length am_data) /\
  match mem with
  | AmDesc a => addr_ok a /\ w_descs w !! a = None /\ sizeof_ucp_recv_desc_t + Z.of_nat (length am_data) < 2 ^ 32
  | AmCopy (Some (a, obj)) => addr_ok a /\ w_descs w !! a = None /\ sizeof_ucp_recv_desc_t + Z.of_nat (length obj) < 2 ^ 32 /\
      Z.of_nat (length am_data) <= Z.of_nat (length obj)
  | AmCopy None => False
  end.

Lemma am_length w am_data mem : am_ok w am_data mem -> 8 < Z.of_nat (length am_data) < 2 ^ 32.
Proof. unfold am_ok, sizeof_ucp_recv_desc_t. destruct mem as [|[[a obj]|]]; intuition lia. Qed.

Lemma rest_desc_ok w am_data mem c rest : am_ok w am_data mem -> drop 8 am_data = c ++ rest -> rest <> [] ->
  exists a rd, rest_desc mem am_data (Z.of_nat (length (c ++ rest)) - Z.of_nat (length rest)) rest = Some (a, rd) /\ addr_ok a /\
    w_descs w !! a = None /\ desc_ok rd /\ desc_bytes rd = rest.
Proof.
  intros Hok Hd Hne. pose proof (am_length w am_data mem Hok) as Hl. assert (0 < length rest)%nat as Hpos by (destruct rest; [done|cbn; lia]).
  pose proof (f_equal length Hd) as Hlen. rewrite length_drop, length_app in Hlen.
  rewrite length_app. replace (Z.of_nat (length c + length rest) - Z.of_nat (length rest)) with (Z.of_nat (length c)) by lia.
  unfold am_ok in Hok. destruct Hok as [_ Hok]. unfold rest_desc, desc_ok, desc_bytes, sizeof_ucp_recv_desc_t, sizeof_ucp_stream_am_data_t in *.
  destruct mem as [a|[[a obj]|]]; [| |done].
  - destruct Hok as (? & ? & ?). eexists a, _. split; [done|]. split; [done|]. split; [done|]. cbn.
    rewrite (u_wrap_small 32 (8 + _)), !u_wrap_small by lia.
    split; [lia|]. unfold Iov.sub. replace (Z.to_nat (8 + Z.of_nat (length c) + 48 - 48)) with (8 + length c)%nat by lia.
    rewrite <- drop_drop, Hd, drop_app_length, Nat2Z.id. apply firstn_all.
  - destruct Hok as (? & ? & ? & ?). cbn [mbind option_bind]. unfold desc_write, sizeof_ucp_recv_desc_t. rewrite Iov.write_ok by (cbn; lia).
    cbn [mbind option_bind rd_mem]. eexists a, _. split; [done|]. split; [done|]. split; [done|]. cbn [rd_length rd_payload_offset rd_mem].
    rewrite Iov.splice_length by (cbn; lia). rewrite u_wrap_small by lia. split; [lia|]. cbn. apply (Iov.sub_splice obj 8 rest); lia.
Qed.

Section callbacks.
Variable recv_stream_cb : Z -> ucs_status_t -> Z -> list user_call.

(** Expected requests take the data first, unless there is data already. *)
Lemma process_expected_ok arr w e ep data : inv arr w -> callbacks_ok recv_stream_cb w -> w_eps w !! e = Some ep -> data <> [] ->
  Z.of_nat (length data) < 2 ^ 64 -> exists w1 rest,
    (if negb (ucp_stream_ep_has_data ep) then while (expected_step recv_stream_cb e) (w, data) else Some (w, Some data)) = Some (w1, rest) /\
    frame w w1 /\
    match rest with
    | None => inv (more arr e data) w1 /\ ep_has_data ep = false
    | Some rest => exists c ep1, data = c ++ rest /\ rest <> [] /\ inv (more arr e c) w1 /\ w_eps w1 !! e = Some ep1 /\
        (ep_has_data ep1 = true \/ ep_match_q ep1 = [])
    end.
Proof.
  intros Hinv Hcb Hep Hne Hl. unfold ucp_stream_ep_has_data. destruct (ep_has_data ep) eqn:Hd; cbn [negb].
  - exists w, (Some data). split; [done|]. split; [apply frame_refl|]. exists [], ep. split; [done|]. split; [done|]. split; [|by auto].
    eapply inv_ext; [|done]. intros e'. apply more_nil.
  - destruct (expected_loop_ok recv_stream_cb arr w e ep data Hinv Hcb Hep Hd Hne Hl) as (w1 & rest & E & Hf & Hr).
    exists w1, rest. split; [done|]. split; [done|]. destruct rest as [rest|]; [|done]. destruct Hr as (c & ? & ? & ? & Hq).
    destruct (keeps_is_Some w w1 e (frame_keeps _ _ Hf)) as [ep1 Hep1]; [by eexists|].
    exists c, ep1. do 4 (split; [done|]). right. by rewrite <- (q_of_lookup w1 e ep1).
Qed.

Lemma am_data_process_ok arr w e ep am_data mem : inv arr w -> callbacks_ok recv_stream_cb w -> w_eps w !! e = Some ep -> am_ok w am_data mem ->
  exists st w' ep', ucp_stream_am_data_process recv_stream_cb w e am_data mem = Some (st, w') /\ inv (more arr e (drop 8 am_data)) w' /\ keeps w w' /\
    (errors_free w -> errors_free w') /\ w_eps w' !! e = Some ep' /\
    ((st = UCS_OK /\ ep_has_data ep' = false) \/ (st = UCS_INPROGRESS /\ ep_has_data ep' = true)).
Proof.
  intros Hinv Hcb Hep Ham. pose proof (am_length w am_data mem Ham) as Hl. unfold ucp_stream_am_data_process. rewrite Hep. cbn [mbind option_bind].
  change (Z.to_nat sizeof_ucp_stream_am_data_t) with 8%nat.
  assert (Z.to_nat (u32 (Z.of_nat (length (drop 8 am_data)))) = length (drop 8 am_data)) as ->.
  { rewrite u_wrap_small, Nat2Z.id; [done|]. rewrite length_drop. lia. }
  rewrite firstn_all. assert (drop 8 am_data <> []) as Hne by (intros E; apply (f_equal length) in E; rewrite length_drop in E; cbn in E; lia).
  destruct (process_expected_ok arr w e ep (drop 8 am_data) Hinv Hcb Hep Hne) as (w1 & rest & -> & Hf & Hrest); [rewrite length_drop; lia|].
  cbn [mbind option_bind]. destruct rest as [rest|].
  2: { destruct Hrest as [Hi1 Hd]. pose proof Hf as (_ & _ & He & Hfe). specialize (Hfe e). rewrite Hep in Hfe. destruct Hfe as (ep1 & Hep1 & _ & _ & Hd1).
    exists UCS_OK, w1, ep1. split; [done|]. split; [done|]. split; [by apply frame_keeps|]. split; [done|]. split; [done|]. left. by auto. }
  destruct Hrest as (c & ep1 & Hc & Hrne & [Hi1 Hby1] & Hep1 & Hor).
  rewrite (proj2 (Z.ltb_lt 0 _)) by (destruct rest; [done|cbn; lia]). cbn [assert mbind option_bind]. rewrite Hc.
  destruct (rest_desc_ok w am_data mem c rest Ham Hc Hrne) as (a & rd & -> & Ha & Hfr & Hdok & Hb). cbn [mbind option_bind].
  change (w_eps (set_desc w1 a rd)) with (w_eps w1). rewrite Hep1. cbn [mbind option_bind]. unfold push. cbn [set_ep w_eps]. rewrite lookup_insert_eq.
  cbn [mbind option_bind]. exists UCS_INPROGRESS, (push_desc w1 e ep1 a rd). eexists.
  split; [unfold push_desc, set_ep, set_match_q, set_has_data; cbn; by rewrite insert_insert_eq|].
  split; [|split; [|split; [by apply Hf|split; [cbn; by rewrite lookup_insert_eq|by right]]]].
  - eapply inv_ext; [|apply (push_inv w1 e ep1 a rd) with (arr := more arr e c); [done|done|done|done|by apply Hf|done|done]].
    intros e'. by rewrite Hb, more_more.
  - eapply keeps_trans; [by apply frame_keeps|]. by apply (keeps_set_ep w1 _ e ep1 (set_match_q (set_has_data ep1 true) (ep_match_q ep1 ++ [QDesc a]))).
Qed.

(** Data is accepted for an endpoint that is there and was not closed. *)
Definition accepts (w : worker) (e : Z) : bool := match w_eps w !! e with Some ep => negb (ep_closed ep) | None => false end.

Definition arrive (arr : Z -> list Z) (w : worker) (am_data : list Z) : Z -> list Z :=
  if accepts w (am_ep am_data) then more arr (am_ep am_data) (drop 8 am_data) else arr.

(** An endpoint in use that has data is in the ready list. *)
Definition shown (w : worker) (e : Z) : Prop :=
  forall ep, w_eps w !! e = Some ep -> ep_used ep = true -> ep_has_data ep = true -> e ∈ w_ready w.

Lemma enqueue_inv arr w e ep : inv arr w -> w_eps w !! e = Some ep -> ep_has_data ep = true -> ep_ready_next ep = false ->
  exists w', ucp_stream_ep_enqueue w e = Some w' /\ inv arr w' /\ keeps w w' /\ w_ready w' = w_ready w ++ [e] /\ w_reqs w' = w_reqs w.
Proof.
  intros [Hi Hb] Hep Hd Hn. destruct (enqueue_ok w e ep Hi Hep Hd Hn) as (w' & E & Hi' & ->). eexists. split; [done|].
  split; [split; [done|intros e'; by apply bytes_ready]|]. split; [by apply frame_keeps, frame_ready|done].
Qed.

Lemma am_handler_ok arr w am_data mem : inv arr w -> callbacks_ok recv_stream_cb w -> am_ok w am_data mem ->
  exists st w', ucp_stream_am_handler recv_stream_cb w am_data mem = Some (st, w') /\ inv (arrive arr w am_data) w' /\ keeps w w' /\
    (errors_free w -> errors_free w') /\ (accepts w (am_ep am_data) = true -> shown w' (am_ep am_data)).
Proof.
  intros Hinv Hcb Ham. pose proof (am_length w am_data mem Ham) as Hl. unfold ucp_stream_am_handler, arrive, accepts.
  rewrite (proj2 (Z.leb_le 8 _)) by lia. cbn [assert mbind option_bind]. fold (am_ep am_data).
  assert (keeps w w) as Hkr by apply frame_keeps, frame_refl.
  destruct (w_eps w !! am_ep am_data) as [ep|] eqn:Hep; [|by eexists _, _].
  destruct (ep_closed ep); cbn [negb]; [by eexists _, _|].
  destruct (am_data_process_ok arr w (am_ep am_data) ep am_data mem Hinv Hcb Hep Ham) as (st & w1 & ep1 & -> & Hi1 & Hk1 & He1 & Hep1 & Hst).
  cbn [mbind option_bind]. destruct Hst as [[-> Hd]|[-> Hd]].
  - rewrite decide_True by done. eexists _, _. do 4 (split; [done|]). intros _ ep' Hep' _ ?. simplify_eq. congruence.
  - rewrite decide_False by done. rewrite bool_decide_true by done. cbn [assert mbind option_bind]. rewrite Hep1. cbn [mbind option_bind].
    unfold ucp_stream_ep_is_queued. destruct (ep_ready_next ep1) eqn:Hn; [|destruct (ep_used ep1) eqn:Hu]; cbn [negb andb mbind option_bind].
    + eexists _, _. do 4 (split; [done|]). intros _ ep' Hep' _ _. by apply (ready_linked w1 _ ep1 (proj1 Hi1)).
    + destruct (enqueue_inv _ w1 _ ep1 Hi1 Hep1 Hd Hn) as (w2 & -> & Hi2 & Hk2 & HR & Hrq). cbn [mbind option_bind]. eexists _, _. split; [done|].
      split; [done|]. split; [by eapply keeps_trans|]. split; [unfold errors_free; by rewrite Hrq|]. intros _ ep' _ _ _.
      rewrite HR, elem_of_app, list_elem_of_singleton. by right.
    + eexists _, _. do 4 (split; [done|]). intros _ ep' Hep' ? _. simplify_eq. congruence.
Qed.

Lemma ep_activate_ok arr w e : inv arr w -> is_Some (w_eps w !! e) ->
  exists w', ucp_stream_ep_activate w e = Some w' /\ inv arr w' /\ keeps w w' /\ w_reqs w' = w_reqs w /\ shown w' e.
Proof.
  intros Hinv [ep Hep]. unfold ucp_stream_ep_activate, ucp_stream_ep_has_data, ucp_stream_ep_is_queued. rewrite Hep. cbn [mbind option_bind].
  rewrite (sinv_stream w (proj1 Hinv)). assert (keeps w w) as Hkr by apply frame_keeps, frame_refl.
  destruct (ep_has_data ep) eqn:Hd; [destruct (ep_ready_next ep) eqn:Hn|]; cbn [negb andb].
  - eexists. do 4 (split; [done|]). intros ep' _ _ _. by apply (ready_linked w e ep (proj1 Hinv)).
  - destruct (enqueue_inv arr w e ep Hinv Hep Hd Hn) as (w' & E & Hi' & Hk & HR & Hq). exists w'. do 4 (split; [done|]).
    intros ep' _ _ _. rewrite HR, elem_of_app, list_elem_of_singleton. by right.
  - eexists. do 4 (split; [done|]). intros ep' Hep' _ ?. simplify_eq. congruence.
Qed.

(** ** Runs *)

(** A message arrives, the user makes a call, or an endpoint is activated. *)
Inductive event :=
| EvAm (am_data : list Z) (mem : am_memory)
| EvCall (c : user_call)
| EvActivate (ep : Z).

Definition step (w : worker) (ev : event) : option worker :=
  match ev with
  | EvAm am_data mem => snd <$> ucp_stream_am_handler recv_stream_cb w am_data mem
  | EvCall c => user_step w c
  | EvActivate e => ucp_stream_ep_activate w e
  end.

Fixpoint run (w : worker) (evs : list event) : option worker :=
  match evs with
  | [] => Some w
  | ev :: evs => w ← step w ev; run w evs
  end.

Definition event_ok (w : worker) (ev : event) : Prop :=
  match ev with
  | EvAm am_data mem => am_ok w am_data mem
  | EvCall c => call_ok w c
  | EvActivate e => is_Some (w_eps w !! e)
  end.

Fixpoint valid_run (w : worker) (evs : list event) : Prop :=
  match evs with
  | [] => True
  | ev :: evs => event_ok w ev /\ forall w', step w ev = Some w' -> valid_run w' evs
  end.

(** The payloads that arrive for an endpoint, in their order. *)
Definition arrived (w : worker) (evs : list event) (e : Z) : list Z :=
  concat (omap (fun ev => match ev with
                          | EvAm am_data _ => if decide (am_ep am_data = e) then Some (drop 8 am_data) else None
                          | _ => None
                          end) (if accepts w e then evs else [])).

(** A worker before the first stream operation. *)
Record idle (w : worker) : Prop := {
  idle_stream : w_stream w = true;
  idle_eps : forall e ep, w_eps w !! e = Some ep -> ep_has_data ep = false /\ ep_ready_next ep = false /\ ep_match_q ep = [];
  idle_ready : w_ready w = [];
  idle_descs : w_descs w = ∅;
  idle_reqs : w_reqs w = ∅;
  idle_log : w_log w = [];
  idle_held : w_held w = []
}.

Lemma idle_inv w : idle w -> inv (fun _ => []) w.
Proof.
  intros [Hs He Hr Hd Hq Hl Hh].
  assert (forall e, q_of w e = []) as Hqe.
  { intros e. unfold q_of. destruct (w_eps w !! e) as [ep|] eqn:E; [|done]. cbn. by destruct (He e ep E) as (_ & _ & ?). }
  split; [|intros e; unfold obtained, queued, log_of; by rewrite Hqe, Hl]. split.
  - done.
  - intros e ep E. destruct (He e ep E) as (H1 & H2 & H3). unfold queue_ok. rewrite H1, H3. split; [done|]. intros x. by rewrite elem_of_nil.
  - intros e id q. by rewrite Hqe.
  - intros e1 e2 x. by rewrite Hqe, elem_of_nil.
  - intros e. rewrite Hqe. constructor.
  - intros id r. by rewrite Hq.
  - rewrite Hl. cbn. split; [constructor|]. intros id. by rewrite elem_of_nil.
  - rewrite Hr. split; [constructor|]. intros e. rewrite elem_of_nil. split; [done|]. intros (ep & E & H). destruct (He e ep E) as (_ & ? & _). congruence.
  - rewrite Hh. cbn. split; [constructor|]. intros d. by rewrite elem_of_nil.
Qed.

Lemma stream_step_ok arr w ev : inv arr w -> callbacks_ok recv_stream_cb w -> event_ok w ev ->
  exists w', step w ev = Some w' /\ inv (match ev with EvAm am_data _ => arrive arr w am_data | _ => arr end) w' /\ keeps w w' /\
    (errors_free w -> errors_free w').
Proof.
  intros Hi Hcb Hev. destruct ev as [am_data mem|c|e]; cbn in *.
  - destruct (am_handler_ok arr w am_data mem Hi Hcb Hev) as (st & w' & -> & ? & ? & ? & _). by exists w'.
  - destruct (user_step_ok arr w c Hi Hev) as (w' & E & ? & Hf). exists w'. split; [done|]. split; [done|]. split; [by apply frame_keeps|apply Hf].
  - destruct (ep_activate_ok arr w e Hi Hev) as (w' & E & ? & ? & Hr & _). exists w'. do 3 (split; [done|]). unfold errors_free. by rewrite Hr.
Qed.

Lemma accepts_keeps w w' e : keeps w w' -> accepts w' e = accepts w e.
Proof. intros H. specialize (H e). unfold accepts. destruct (w_eps w !! e); [|by rewrite H]. by destruct H as (? & -> & _ & ->). Qed.

Lemma arrived_cons w w' ev evs e : keeps w w' -> arrived w (ev :: evs) e =
  (match ev with EvAm am_data _ => arrive (fun _ => []) w am_data e | _ => [] end) ++ arrived w' evs e.
Proof.
  intros Hk. unfold arrived, arrive. rewrite (accepts_keeps w w' e Hk). destruct ev as [am_data mem|c|e0].
  2: by destruct (accepts w e). 2: by destruct (accepts w e).
  unfold more. destruct (decide (am_ep am_data = e)) as [E|Hne].
  - rewrite E. destruct (accepts w e); [|done]. cbn. rewrite E. by rewrite !(decide_True _ _ (eq_refl e)).
  - assert ((if accepts w (am_ep am_data) then fun e' => if decide (e' = am_ep am_data) then [] ++ drop 8 am_data else [] else fun _ => []) e = []) as ->.
    { destruct (accepts w (am_ep am_data)); [|done]. by rewrite decide_False. }
    destruct (accepts w e); [|done]. cbn. by rewrite decide_False.
Qed.

Lemma stream_run_ok evs : forall arr w, inv arr w -> callbacks_ok recv_stream_cb w -> valid_run w evs ->
  exists w', run w evs = Some w' /\ inv (fun e => arr e ++ arrived w evs e) w' /\ keeps w w' /\ (errors_free w -> errors_free w').
Proof.
  induction evs as [|ev evs IH]; intros arr w Hi Hcb Hv; cbn [run].
  - exists w. split; [done|]. split; [|split; [apply frame_keeps, frame_refl|done]]. eapply inv_ext; [|done]. intros e. unfold arrived.
    destruct (accepts w e); cbn; by rewrite app_nil_r.
  - destruct Hv as [Hev Hv]. destruct (stream_step_ok arr w ev Hi Hcb Hev) as (w1 & E & Hi1 & Hk1 & He1). rewrite E. cbn [mbind option_bind].
    destruct (IH _ w1 Hi1) as (w' & -> & Hi' & Hk' & He'); [by apply (callbacks_keeps _ w)|by apply Hv|].
    exists w'. split; [done|]. split; [|split; [by eapply keeps_trans|by auto]]. eapply inv_ext; [|done]. intros e.
    rewrite (arrived_cons w w1 ev evs e Hk1), app_assoc. f_equal. destruct ev; [|by rewrite app_nil_r|by rewrite app_nil_r].
    unfold arrive. destruct (accepts w _); [|by rewrite app_nil_r]. unfold more. case_decide; [done|by rewrite app_nil_r].
Qed.

(** ** Requests *)

Lemma queue_logged w e id : sinv w -> QReq id ∈ q_of w e -> GotReq id ∈ log_of w e.
Proof.
  intros Hi Hin. destruct (q_of w e) as [|x q] eqn:Eq; [by apply elem_of_nil in Hin|].
  destruct x as [a|id0].
  - pose proof Hin as Hin'. rewrite <- Eq in Hin'. apply q_of_elem in Hin' as (ep & Hep & Hin').
    rewrite (q_of_lookup w e ep Hep) in Eq. destruct (queue_head_data w e ep a q Hi Hep Eq) as (_ & _ & _ & H).
    apply elem_of_cons in Hin as [?|Hin]; [done|]. by destruct (H _ Hin) as (? & ? & ? & _).
  - destruct (sinv_tail w Hi e id0 q Eq) as (l1 & l2 & El & _ & ->). rewrite El, elem_of_app, elem_of_cons.
    apply elem_of_cons in Hin as [?|Hin]; [simplify_eq; by auto|]. apply list_elem_of_fmap in Hin as (id' & ? & Hin). simplify_eq.
    apply elem_of_log_reqs in Hin. by auto.
Qed.

Lemma request_state w e id : sinv w -> (e, GotReq id) ∈ w_log w -> exists r, w_reqs w !! id = Some r /\
  (completed r \/ (pending r /\ queued w e = [])).
Proof.
  intros Hi Hin. destruct (proj2 (sinv_log w Hi) id) as [r Hr]; [apply elem_of_log_reqs, list_elem_of_fmap; by exists (e, GotReq id)|].
  exists r. split; [done|]. destruct (sinv_reqs w Hi id r Hr) as [_ [?|[Hp (e' & Hq)]]]; [by left|right]. split; [done|].
  assert (e = e') as <-.
  { apply (log_of_other w e e' id); [apply (sinv_log w Hi)|by apply elem_of_log_of|by apply queue_logged]. }
  pose proof Hq as Hq'. apply q_of_elem in Hq as (ep & Hep & Hq). apply (queued_no_data w e ep Hi Hep).
  destruct (ep_has_data ep) eqn:Hd; [|done]. by destruct (queue_desc w e ep (QReq id) Hi Hep Hq Hd) as (? & ? & ? & _).
Qed.

Lemma can_complete_granular r : req_ok r -> ucp_request_can_complete_stream_recv r = true ->
  (sr_waitall r = true -> sr_offset r = TagEager.rr_length (sr_recv r)) /\ (forall n, sr_datatype r = DtContig n -> (n | sr_offset r)).
Proof.
  intros (_ & _ & _ & _ & Hdt & Hdiv). unfold ucp_request_can_complete_stream_recv.
  destruct (Z.eqb_spec (sr_offset r) (TagEager.rr_length (sr_recv r))) as [E|]; [rewrite E; by auto|].
  destruct (sr_waitall r); [done|]. destruct (Z.eqb_spec (sr_offset r) 0); [done|]. intros H. split; [done|]. intros n' En. rewrite En in *. cbn in *.
  apply Z.eqb_eq in H. by apply Z.mod_divide; [lia|].
Qed.

Lemma cannot_complete r : req_ok r -> ucp_request_can_complete_stream_recv r = false -> sr_waitall r = false ->
  sr_offset r = 0 \/ exists n, sr_datatype r = DtContig n /\ ~ (n | sr_offset r).
Proof.
  intros (_ & _ & _ & _ & Hdt & _). unfold ucp_request_can_complete_stream_recv. destruct (sr_offset r =? TagEager.rr_length (sr_recv r)); [done|].
  intros H Hw. rewrite Hw in H. destruct (Z.eqb_spec (sr_offset r) 0) as [|Hz]; [by left|]. right. destruct (sr_datatype r) as [n|]; [|done].
  exists n. split; [done|]. cbn in Hdt. apply Z.eqb_neq in H. intros Hdv. apply H. apply Z.mod_divide; [lia|done].
Qed.

(** ** Cleanup *)

(** The descriptors of a queue as they are released. *)
Definition releases (w : worker) (q : list match_elem) : list (bool * Z) :=
  omap (fun x => match x with
                 | QDesc a => (fun rd => (rd_uct_desc rd, a - rd_release_desc_offset rd)) <$> w_descs w !! a
                 | QReq _ => None
                 end) q.

Lemma drop_step_ok w e ep : sinv w -> w_eps w !! e = Some ep -> ep_has_data ep = true ->
  exists a q rd w', ep_match_q ep = QDesc a :: q /\ w_descs w !! a = Some rd /\ drop_step e w = Some (inl w') /\ sinv w' /\ quiet w w' /\
    w_held w' = w_held w /\ (forall e', q_of w' e' = if decide (e' = e) then q else q_of w e') /\
    w_released w' = w_released w ++ [(rd_uct_desc rd, a - rd_release_desc_offset rd)] /\ w_descs w' = delete a (w_descs w).
Proof.
  intros Hi Hep Hd. destruct (recv_data_nolock_ok w e ep Hi Hep Hd) as
    (a & q & rd & rd' & w1 & Hq & Hrd & Hok & E & Hi1 & (Hqt & Hh & _) & _ & Hds & Hr1 & _ & Hu & Ho & Ha & Hnh & Hqs & Hout & Hrel).
  unfold drop_step. rewrite E. cbn [mbind option_bind]. unfold ucp_stream_data_release, ucp_recv_desc_release. cbn [fst snd].
  rewrite Hds, lookup_insert_eq. cbn [mbind option_bind]. rewrite Hr1. cbn [mbind option_bind]. rewrite le64_val_le64 by done.
  rewrite ?lookup_insert_eq. cbn [mbind option_bind]. exists a, q, rd. eexists. split; [done|]. split; [done|]. split; [done|].
  assert (filter (fun x => x <> (a, rd_payload_offset rd)) (w_held w1) = w_held w1) as Hfl.
  { apply filter_all. intros x Hx ->. apply Hnh, list_elem_of_fmap. by exists (a, rd_payload_offset rd). }
  split; [|split; [|split; [|split; [|split]]]].
  - rewrite <- Hds. apply (sinv_release w1 a (filter (fun x => x <> (a, rd_payload_offset rd)) (w_held w1)) (w_released w1 ++ [_])); [done|done|by rewrite Hfl|by rewrite Hfl].
  - eapply quiet_trans; [done|]. split; [|done]. apply frame_same_eps; [done| |done|done]. intros a'. cbn. rewrite Hds. apply descs_delete.
  - cbn. by rewrite Hfl.
  - apply Hqs.
  - cbn. by rewrite Hrel, Hu, Ho.
  - cbn. by rewrite delete_insert_eq.
Qed.

(** Nothing changed but endpoint [e], its place in the ready list, and the tables of
    the descriptors and of the requests. *)
Definition beside (w : worker) (e : Z) (w1 : worker) : Prop :=
  w_stream w1 = w_stream w /\ w_log w1 = w_log w /\ w_next_req w1 = w_next_req w /\ w_held w1 = w_held w /\
  (forall e', e' <> e -> w_eps w1 !! e' = w_eps w !! e') /\
  filter (fun x => x <> e) (w_ready w1) = filter (fun x => x <> e) (w_ready w).

Lemma beside_refl w e : beside w e w.
Proof. by repeat split. Qed.

Lemma beside_trans w e w1 w2 : beside w e w1 -> beside w1 e w2 -> beside w e w2.
Proof.
  intros (? & ? & ? & ? & He1 & ?) (? & ? & ? & ? & He2 & ?). split_and!; [congruence..| |congruence].
  intros e' Hne. by rewrite He2, He1.
Qed.

Lemma rdesc_dequeue_beside w e a w1 : ucp_stream_rdesc_dequeue w e = Some (a, w1) -> beside w e w1.
Proof.
  unfold ucp_stream_rdesc_dequeue, ucp_stream_ep_dequeue. intros H. unfold mbind, option_bind, assert in H.
  repeat (case_match; try discriminate); simplify_eq; unfold beside; cbn; split_and!; try done;
    try (intros e' Hne; by rewrite ?lookup_insert_ne by done).
  rewrite list_filter_filter. apply list_filter_iff. intros x. tauto.
Qed.

Lemma drop_step_beside w e w1 : w_held w1 = w_held w -> drop_step e w = Some (inl w1) -> beside w e w1.
Proof.
  intros Hh. unfold drop_step, ucp_stream_recv_data_nb_nolock, ucp_stream_data_release, ucp_recv_desc_release. intros H.
  unfold mbind, option_bind in H. repeat (case_match; try discriminate); simplify_eq; cbn in *; simplify_eq.
  all: match goal with E : ucp_stream_rdesc_dequeue _ _ = Some _ |- _ => apply rdesc_dequeue_beside in E as (? & ? & ? & ? & ? & ?) end.
  all: by split_and!.
Qed.

(** The loop that drops the data. *)
Definition dropping (w : worker) (e : Z) (w1 : worker) : Prop :=
  (beside w e w1 /\ forall a, QDesc a ∉ q_of w e -> w_descs w1 !! a = w_descs w !! a) /\
  sinv w1 /\ quiet w w1 /\ w_held w1 = w_held w /\ (forall e', e' <> e -> q_of w1 e' = q_of w e') /\
  w_released w1 ++ releases w (q_of w1 e) = w_released w ++ releases w (q_of w e) /\
  (forall a, QDesc a ∈ q_of w1 e -> w_descs w1 !! a = w_descs w !! a) /\
  (forall a, QDesc a ∈ q_of w e -> QDesc a ∈ q_of w1 e \/ w_descs w1 !! a = None) /\
  (forall x, x ∈ q_of w1 e -> x ∈ q_of w e).

Definition dropped (w : worker) (e : Z) (w1 : worker) : Prop :=
  (beside w e w1 /\ forall a, QDesc a ∉ q_of w e -> w_descs w1 !! a = w_descs w !! a) /\
  sinv w1 /\ quiet w w1 /\ w_held w1 = w_held w /\ (forall e', e' <> e -> q_of w1 e' = q_of w e') /\
  w_released w1 = w_released w ++ releases w (q_of w e) /\ (forall a, QDesc a ∈ q_of w e -> w_descs w1 !! a = None).

Lemma dropping_step w e w1 ep1 : dropping w e w1 -> w_eps w1 !! e = Some ep1 -> ep_has_data ep1 = true ->
  exists w2, drop_step e w1 = Some (inl w2) /\ dropping w e w2 /\ (length (q_of w2 e) < length (q_of w1 e))%nat.
Proof.
  intros ([Hbs Hds1] & Hi1 & Hqt & Hh & Ho & Hrel & Hsame & Hgone & Hsub) Hep1 Hd1.
  destruct (drop_step_ok w1 e ep1 Hi1 Hep1 Hd1) as (a & q & rd & w2 & Hq & Hrd & E & Hi2 & Hqt2 & Hh2 & Hqs & Hrl & Hds).
  rewrite (q_of_lookup w1 e ep1 Hep1), Hq in *. pose proof (sinv_nodup w1 Hi1 e) as Hnd. rewrite (q_of_lookup w1 e ep1 Hep1), Hq in Hnd.
  apply NoDup_cons in Hnd as [Hna _]. exists w2. split; [done|]. unfold dropping. rewrite Hqs, decide_True by done. split; [|cbn; lia].
  split; [split; [eapply beside_trans; [done|by apply drop_step_beside]|]|].
  { intros a' Ha'. rewrite Hds, lookup_delete_ne; [by apply Hds1|]. intros ->. apply Ha', Hsub. by left. }
  split; [done|]. split; [by eapply quiet_trans|]. split; [congruence|].
  split; [intros e' Hne; rewrite Hqs, decide_False by done; by apply Ho|].
  split; [rewrite <- Hrel, Hrl, <- app_assoc; f_equal; unfold releases; cbn; rewrite <- Hsame, Hrd by (by left); done|].
  split; [intros a' Ha'; rewrite Hds, lookup_delete_ne; [apply Hsame; by right|by intros ->]|].
  split; [|intros x Hx; apply Hsub; by right].
  intros a' Ha'. rewrite Hds. destruct (Hgone a' Ha') as [Hin|Hn]; [|right; by apply descs_delete].
  apply elem_of_cons in Hin as [Hin|Hin]; [simplify_eq; right; by rewrite lookup_delete_eq|by left].
Qed.

Lemma no_data_no_desc w e ep a : sinv w -> w_eps w !! e = Some ep -> ep_has_data ep = false -> QDesc a ∉ q_of w e.
Proof.
  intros Hi Hep Hd Hin. rewrite (q_of_lookup w e ep Hep) in Hin. pose proof (sinv_queue w Hi e ep Hep) as H. unfold queue_ok in H. rewrite Hd in H.
  destruct H as [_ H]. by destruct (H _ Hin) as (? & ? & ? & _).
Qed.

Lemma dropping_end w e w1 ep1 : dropping w e w1 -> w_eps w1 !! e = Some ep1 -> ep_has_data ep1 = false -> dropped w e w1.
Proof.
  intros (Hbs & Hi1 & Hqt & Hh & Ho & Hrel & Hsame & Hgone & Hsub) Hep1 Hd1. pose proof (fun a => no_data_no_desc w1 e ep1 a Hi1 Hep1 Hd1) as Hnd.
  do 5 (split; [done|]). split.
  - rewrite <- Hrel. assert (releases w (q_of w1 e) = []) as ->; [|by rewrite app_nil_r].
    apply omap_none. intros x Hx. destruct x as [a|]; [|done]. by apply Hnd in Hx.
  - intros a Ha. destruct (Hgone a Ha) as [Hin|]; [by apply Hnd in Hin|done].
Qed.

Lemma drop_none w e ep : w_eps w !! e = Some ep -> ep_has_data ep = false -> drop_step e w = Some (inr w).
Proof.
  intros Hep Hd. unfold drop_step, ucp_stream_recv_data_nb_nolock, ucp_stream_ep_has_data. rewrite Hep. cbn [mbind option_bind]. by rewrite Hd.
Qed.

Lemma drop_loop_ok w e ep : sinv w -> w_eps w !! e = Some ep -> Z.of_nat (length (q_of w e)) < 2 ^ 64 ->
  exists w' ep', while (drop_step e) w = Some w' /\ dropped w e w' /\ w_eps w' !! e = Some ep' /\ ep_has_data ep' = false /\
    (if ep_has_data ep then q_of w' e = [] else w' = w).
Proof.
  intros Hi Hep Hmax. destruct (while_ok (drop_step e) (fun w1 => dropping w e w1 /\ (if ep_has_data ep then True else w1 = w))
    (fun w1 => dropped w e w1 /\ (forall x, x ∈ q_of w1 e -> x ∈ q_of w e) /\ (exists ep', w_eps w1 !! e = Some ep' /\ ep_has_data ep' = false) /\
       (if ep_has_data ep then True else w1 = w)) (fun w1 => Z.of_nat (length (q_of w1 e))) w) as (w' & E & Hdr & Hsub & (ep' & Hep' & Hd') & Hc).
  - intros w1 [HD Hc]. pose proof HD as (_ & Hi1 & [Hf _] & _). destruct (keeps_is_Some w w1 e (frame_keeps _ _ Hf)) as [ep1 Hep1]; [by eexists|].
    destruct (ep_has_data ep1) eqn:Hd1.
    + destruct (dropping_step w e w1 ep1 HD Hep1 Hd1) as (w2 & E & HD2 & Hlt). exists (inl w2). split; [done|]. split; [|lia]. split; [done|].
      destruct (ep_has_data ep) eqn:Hd; [done|]. subst w1. congruence.
    + exists (inr w1). split; [by apply (drop_none w1 e ep1)|]. split; [by apply (dropping_end w e w1 ep1)|]. split; [apply HD|]. by eauto.
  - split; [|by destruct (ep_has_data ep)]. split; [by split; [apply beside_refl|]|]. split; [done|]. split; [split; [apply frame_refl|done]|]. do 4 (split; [done|]). by auto.
  - lia.
  - exists w', ep'. do 4 (split; [done|]). destruct (ep_has_data ep) eqn:Hd; [|done]. destruct (q_of w' e) as [|x l] eqn:El; [done|].
    assert (x ∈ ep_match_q ep) as Hx by (rewrite <- (q_of_lookup w e ep Hep); apply Hsub; by left).
    destruct (queue_desc w e ep x Hi Hep Hx Hd) as (a & rd & -> & _). exfalso. apply (no_data_no_desc w' e ep' a (proj1 (proj2 Hdr)) Hep' Hd').
    rewrite El. by left.
Qed.

(** The loop that cancels the requests, when the callbacks make no calls. *)
Definition cancelling (w : worker) (e : Z) (st : ucs_status_t) (w1 : worker) : Prop :=
  beside w e w1 /\ sinv w1 /\ (forall e', e' <> e -> q_of w1 e' = q_of w e') /\ w_descs w1 = w_descs w /\ w_released w1 = w_released w /\ w_ready w1 = w_ready w /\
  (exists ids, q_of w e = (QReq <$> ids) ++ q_of w1 e /\
     forall id, w_reqs w1 !! id = if decide (id ∈ ids) then (fun r => complete_req r st) <$> w_reqs w !! id else w_reqs w !! id) /\
  (exists ep1, w_eps w1 !! e = Some ep1 /\ ep_has_data ep1 = false).

Lemma cancelling_step w e st w1 id q ep1 : sinv w -> cancelling w e st w1 -> w_eps w1 !! e = Some ep1 -> ep_match_q ep1 = QReq id :: q ->
  st <> UCS_OK -> st <> UCS_INPROGRESS -> (forall id len, recv_stream_cb id st len = []) ->
  exists w2, cancel_step recv_stream_cb e st w1 = Some (inl w2) /\ cancelling w e st w2 /\ q_of w2 e = q.
Proof.
  intros Hi (Hbs & Hi1 & Ho & Hds & Hrl & Hrd & (ids & Hids & Hreqs) & (ep' & Hep' & Hd')) Hep1 Hq Hst1 Hst2 Hcb. assert (ep' = ep1) as -> by congruence.
  pose proof (sinv_queue w1 Hi1 e ep1 Hep1) as HQ. unfold queue_ok in HQ. rewrite Hd', Hq in HQ. destruct HQ as [_ HQ].
  destruct (HQ (QReq id)) as (id' & r & ? & Hr & (Hrok & Hact & _)); [by left|]. assert (id' = id) as -> by congruence.
  assert (set_req w1 id r = w1) as Hw1 by (destruct w1; unfold set_req; cbn in *; f_equal; by apply insert_id).
  pose proof (complete_eq recv_stream_cb w1 e ep1 id q r st Hep1 Hq Hact Hst2 ltac:(done)) as E. rewrite Hw1, Hcb in E. cbn zeta in E.
  unfold cancel_step. rewrite Hep1. cbn [mbind option_bind]. rewrite Hq, E. exists (fill w1 e ep1 q id (complete_req r st)).
  split; [by destruct (sr_callback r)|]. assert (completed (complete_req r st)) as Hc by (do 3 (split; [done|]); done).
  assert (forall e', q_of (fill w1 e ep1 q id (complete_req r st)) e' = if decide (e' = e) then q else q_of w1 e') as Hqf by (intros e'; apply fill_q_of).
  split; [|by rewrite Hqf, decide_True].
  split; [eapply beside_trans; [done|]; split_and!; [done..| |done]; intros e' Hne; cbn; by rewrite lookup_insert_ne|].
  split; [apply (fill_sinv w1 e ep1 id q r (complete_req r st) q Hi1 Hep1 Hq Hr); by right|].
  split; [intros e' Hne; rewrite Hqf, decide_False by done; by apply Ho|]. do 3 (split; [done|]).
  split; [|eexists; split; [cbn; by rewrite lookup_insert_eq|done]]. exists (ids ++ [id]).
  assert (q_of w1 e = QReq id :: q) as Hq1 by by rewrite (q_of_lookup w1 e ep1). rewrite Hq1 in Hids.
  split; [by rewrite Hqf, decide_True, fmap_app, <- app_assoc|]. intros id0. cbn.
  assert (id ∉ ids) as Hni.
  { pose proof (sinv_nodup w Hi e) as Hnd. rewrite Hids in Hnd. apply NoDup_app in Hnd as (_ & Hnd & _). intros Hin. apply (Hnd (QReq id)); [|by left].
    apply list_elem_of_fmap. by exists id. }
  destruct (decide (id0 = id)) as [->|Hne].
  - rewrite lookup_insert_eq, decide_True by (rewrite elem_of_app, list_elem_of_singleton; by right).
    rewrite Hreqs, decide_False in Hr by done. by rewrite Hr.
  - rewrite lookup_insert_ne, Hreqs by done. destruct (decide (id0 ∈ ids)) as [Hin|Hnin].
    + rewrite decide_True; [done|]. rewrite elem_of_app. by left.
    + rewrite decide_False; [done|]. rewrite elem_of_app, list_elem_of_singleton. tauto.
Qed.

Lemma cancel_loop_ok w e ep st : sinv w -> w_eps w !! e = Some ep -> ep_has_data ep = false -> Z.of_nat (length (q_of w e)) < 2 ^ 64 ->
  st <> UCS_OK -> st <> UCS_INPROGRESS -> (forall id len, recv_stream_cb id st len = []) ->
  exists w', while (cancel_step recv_stream_cb e st) w = Some w' /\ cancelling w e st w' /\ q_of w' e = [].
Proof.
  intros Hi Hep Hd Hmax Hst1 Hst2 Hcb. destruct (while_ok (cancel_step recv_stream_cb e st) (cancelling w e st)
    (fun w1 => cancelling w e st w1 /\ q_of w1 e = []) (fun w1 => Z.of_nat (length (q_of w1 e))) w) as (w' & E & H); [| |lia|by exists w'].
  - intros w1 HC. pose proof HC as (_ & Hi1 & _ & _ & _ & _ & _ & (ep1 & Hep1 & Hd1)). destruct (ep_match_q ep1) as [|[a|id] q] eqn:Hq.
    + exists (inr w1). split; [unfold cancel_step; rewrite Hep1; cbn [mbind option_bind]; by rewrite Hq|]. split; [done|]. by rewrite (q_of_lookup w1 e ep1).
    + exfalso. apply (no_data_no_desc w1 e ep1 a Hi1 Hep1 Hd1). rewrite (q_of_lookup w1 e ep1), Hq by done. by left.
    + destruct (cancelling_step w e st w1 id q ep1 Hi HC Hep1 Hq Hst1 Hst2 Hcb) as (w2 & E & HC2 & Hq2). exists (inl w2). split; [done|]. split; [done|].
      rewrite Hq2, (q_of_lookup w1 e ep1), Hq by done. cbn. lia.
  - split; [apply beside_refl|]. do 5 (split; [done|]). split; [|by eauto]. exists []. split; [done|]. intros id. rewrite decide_False by apply not_elem_of_nil. done.
Qed.

(** What [ucp_stream_ep_cleanup] does: field by field, the worker after it. *)
Record cleaned (w : worker) (e : Z) (st : ucs_status_t) (w' : worker) : Prop := {
  cleaned_queue : q_of w' e = [];
  cleaned_ready : w_ready w' = filter (fun x => x <> e) (w_ready w);
  cleaned_reqs : forall id, w_reqs w' !! id =
    if decide (QReq id ∈ q_of w e) then (fun r => complete_req r st) <$> w_reqs w !! id else w_reqs w !! id;
  cleaned_released : w_released w' = w_released w ++ releases w (q_of w e);
  cleaned_descs : forall a, w_descs w' !! a = if decide (QDesc a ∈ q_of w e) then None else w_descs w !! a;
  cleaned_others : forall e', e' <> e -> w_eps w' !! e' = w_eps w !! e';
  cleaned_calls : w_log w' = w_log w /\ w_held w' = w_held w;
  cleaned_worker : w_stream w' = w_stream w /\ w_next_req w' = w_next_req w
}.

Lemma elem_of_qreqs (id : Z) (ids : list Z) : QReq id ∈ QReq <$> ids <-> id ∈ ids.
Proof. rewrite list_elem_of_fmap. split; [by intros (? & ? & ?); simplify_eq|by eauto]. Qed.

Lemma ep_cleanup_ok w e ep st : sinv w -> w_eps w !! e = Some ep -> Z.of_nat (length (q_of w e)) < 2 ^ 64 ->
  st <> UCS_OK -> st <> UCS_INPROGRESS -> (forall id len, recv_stream_cb id st len = []) ->
  exists w', ucp_stream_ep_cleanup recv_stream_cb w e st = Some w' /\ cleaned w e st w' /\ sinv w'.
Proof.
  intros Hi Hep Hmax Hst1 Hst2 Hcb. unfold ucp_stream_ep_cleanup. rewrite (sinv_stream w Hi). cbn [negb].
  destruct (drop_loop_ok w e ep Hi Hep Hmax) as (w1 & ep1 & -> & ((Hbs1 & Hdk1) & Hi1 & (Hf1 & Hrq1 & _) & _ & Ho1 & Hrl1 & Hds1) & Hep1 & Hd1 & Hcase). cbn [mbind option_bind].
  rewrite Hep1. cbn [mbind option_bind]. pose proof (sinv_queue w1 Hi1 e ep1 Hep1) as HQ. unfold queue_ok in HQ. rewrite Hd1 in HQ. destruct HQ as [Hn1 _].
  unfold ucp_stream_ep_is_queued. rewrite Hn1. cbn [mbind option_bind]. rewrite Hep1. cbn [mbind option_bind]. unfold ucp_stream_ep_has_data. rewrite Hd1.
  cbn [negb assert mbind option_bind].
  destruct (cancel_loop_ok w1 e ep1 st Hi1 Hep1 Hd1) as (w2 & -> & (Hbs2 & Hi2 & Ho2 & Hds2 & Hrl2 & Hrd2 & (ids & Hids & Hrq2) & _) & Hq2); [|done|done|done|].
  { destruct (ep_has_data ep); [by rewrite Hcase|by subst w1]. }
  exists w2. split; [done|]. split; [|done]. rewrite Hq2, app_nil_r in Hids.
  destruct (beside_trans w e w1 w2 Hbs1 Hbs2) as (Bs & Bl & Bn & Bh & Be & Br). split.
  - done.
  - rewrite <- Br. symmetry. apply filter_all. intros x Hin ->. rewrite Hrd2 in Hin. apply (ready_linked w1 e ep1 Hi1 Hep1) in Hin. congruence.
  - intros id. rewrite Hrq2, Hrq1. destruct (ep_has_data ep) eqn:Hd.
    + rewrite Hcase in Hids. destruct ids; [|done]. rewrite decide_False by apply not_elem_of_nil. rewrite decide_False; [done|]. intros Hin.
      rewrite (q_of_lookup w e ep Hep) in Hin. by destruct (queue_desc w e ep (QReq id) Hi Hep Hin Hd) as (? & ? & ? & _).
    + subst w1. rewrite Hids. destruct (decide (id ∈ ids)); [rewrite decide_True by (by apply elem_of_qreqs); done|].
      rewrite decide_False; [done|]. by rewrite elem_of_qreqs.
  - by rewrite Hrl2.
  - intros a. rewrite Hds2. case_decide; [by apply Hds1|by apply Hdk1].
  - done.
  - done.
  - done.
Qed.

Lemma valid_run_cons w w' ev evs : event_ok w ev -> step w ev = Some w' -> valid_run w' evs -> valid_run w (ev :: evs).
Proof. intros H1 H2 H3. split; [done|]. intros w1 E. congruence. Qed.

Lemma run_snoc evs ev : forall w, run w (evs ++ [ev]) = w' ← run w evs; step w' ev.
Proof.
  induction evs as [|ev' evs IH]; intros w; cbn; [by destruct (step w ev)|]. destruct (step w ev'); cbn; [apply IH|done].
Qed.

Lemma valid_run_snoc evs ev : forall w, valid_run w (evs ++ [ev]) -> valid_run w evs /\ (forall w', run w evs = Some w' -> event_ok w' ev).
Proof.
  induction evs as [|ev' evs IH]; intros w; cbn; [intros [? _]; split; [done|]; intros; by simplify_eq|]. intros [Hev H]. split.
  - split; [done|]. intros w1 E. by apply IH, H.
  - intros w' E. destruct (step w ev') as [w1|] eqn:E1; [|done]. cbn in E. by apply (IH w1 (H w1 eq_refl)).
Qed.

Lemma run_idle w evs : idle w -> callbacks_ok recv_stream_cb w -> valid_run w evs ->
  exists w', run w evs = Some w' /\ inv (arrived w evs) w' /\ keeps w w' /\ errors_free w'.
Proof.
  intros Hid Hcb Hv. destruct (stream_run_ok evs _ w (idle_inv w Hid) Hcb Hv) as (w' & E & Hi & Hk & He). exists w'. do 3 (split; [done|]). apply He.
  intros id r. by rewrite (idle_reqs w Hid).
Qed.

End callbacks.

(** ** Properties *)

(** C10: After any valid sequence of messages, calls and activations, with callbacks
    that make calls themselves, no assertion failed, and for every endpoint the
    bytes its calls obtained, in the order of the calls, followed by the bytes
    queued at it, are the payloads that arrived, in their order. *)
Theorem stream_in_order cb w evs : idle w -> callbacks_ok cb w -> valid_run cb w evs ->
  exists w', run cb w evs = Some w' /\ forall e, obtained w' e ++ queued w' e = arrived w evs e.
Proof. intros Hid Hcb Hv. destruct (run_idle cb w evs Hid Hcb Hv) as (w' & E & [_ Hb] & _). by exists w'. Qed.

(** C24: A receive that returned a request is completed with [UCS_OK] as soon as
    possible and not earlier: completed, it has at least one byte, all of its
    length with [WAITALL], and whole elements of its datatype; in progress, no data
    is queued at its endpoint, and it is not full, waits for all data, is empty, or
    ends inside of an element. *)
Theorem stream_requests cb w evs : idle w -> callbacks_ok cb w -> valid_run cb w evs ->
  exists w', run cb w evs = Some w' /\ forall e id, (e, GotReq id) ∈ w_log w' -> exists r, w_reqs w' !! id = Some r /\
    let len := TagEager.rr_length (sr_recv r) in
    if TagEager.rr_completed (sr_recv r) then
      TagEager.rr_status (sr_recv r) = UCS_OK /\ sr_stream_length r = sr_offset r /\ 0 < sr_offset r <= len /\
      (sr_waitall r = true -> sr_offset r = len) /\ (forall n, sr_datatype r = DtContig n -> (n | sr_offset r))
    else
      sr_offset r < len /\ queued w' e = [] /\
      (sr_waitall r = false -> sr_offset r = 0 \/ exists n, sr_datatype r = DtContig n /\ ~ (n | sr_offset r)).
Proof.
  intros Hid Hcb Hv. destruct (run_idle cb w evs Hid Hcb Hv) as (w' & E & [Hi _] & _ & He). exists w'. split; [done|]. intros e id Hin.
  destruct (request_state w' e id Hi Hin) as (r & Hr & Hst). exists r. split; [done|]. destruct Hst as [(Hok & -> & Hl & Hc)|[(Hok & [_ ->] & Hc) Hq]].
  - pose proof (He id r Hr) as Hs. destruct (Hc Hs) as [Hcc Hpos]. destruct (can_complete_granular r Hok Hcc). destruct Hok as (_ & _ & _ & ? & _).
    do 2 (split; [done|]). split; [lia|done].
  - pose proof (can_complete_full r Hc) as Hf. pose proof (cannot_complete r Hok Hc). destruct Hok as (_ & _ & _ & ? & _). split; [lia|done].
Qed.

(** C30: [ucp_stream_worker_poll] gives the endpoints of the ready list, each once
    and each with data; a message for an endpoint in use leaves the endpoint in
    the ready list unless its data was used up by receives. *)
Theorem stream_ready cb w evs am_data mem : idle w -> callbacks_ok cb w -> valid_run cb w (evs ++ [EvAm am_data mem]) -> accepts w (am_ep am_data) = true ->
  exists w', run cb w (evs ++ [EvAm am_data mem]) = Some w' /\ shown w' (am_ep am_data) /\
    NoDup (w_ready w') /\ (forall e, e ∈ w_ready w' -> queued w' e <> []) /\
    (forall n, exists w2, ucp_stream_worker_poll w' n = Some (take n (w_ready w'), w2) /\ w_ready w2 = drop n (w_ready w')).
Proof.
  intros Hid Hcb Hv Hacc. destruct (valid_run_snoc cb evs _ w Hv) as [Hv1 Hev]. destruct (run_idle cb w evs Hid Hcb Hv1) as (w1 & E1 & Hi1 & Hk1 & _).
  destruct (am_handler_ok cb _ w1 am_data mem Hi1 (callbacks_keeps cb w w1 Hk1 Hcb) (Hev w1 E1)) as (st & w' & E & Hi & _ & _ & Hsh).
  exists w'. rewrite run_snoc, E1. cbn. rewrite E. split; [done|]. split; [apply Hsh; by rewrite (accepts_keeps w w1)|].
  split; [apply (sinv_ready w' (proj1 Hi))|]. split.
  - intros e He. destruct (ready_has_data w' e (proj1 Hi) He) as (ep & Hep & _ & Hd).
    destruct (rdesc_get_ok w' e ep (proj1 Hi) Hep Hd) as (a & q & rd & _ & _ & Hok & _ & ->). pose proof (desc_bytes_length rd Hok). destruct Hok.
    by destruct (desc_bytes rd); [cbn in *; lia|].
  - intros n. destruct (worker_poll_ok _ n w' Hi) as (w2 & -> & _ & _ & ?). by exists w2.
Qed.

(** C26: [ucp_stream_recv_data_nb] gives a pointer to the first bytes queued at the
    endpoint, and [ucp_stream_data_release] of this pointer releases the descriptor
    of these bytes, and no other one, to where it came from. *)
Theorem stream_data_roundtrip cb w evs w1 e : idle w -> callbacks_ok cb w -> valid_run cb w evs -> run cb w evs = Some w1 -> queued w1 e <> [] ->
  exists a off len rd w2 w3, ucp_stream_recv_data_nb w1 e = Some (Some (a, off, len), w2) /\ 0 < len /\ w_descs w2 !! a = Some rd /\
    desc_read rd off len = Some (take (Z.to_nat len) (queued w1 e)) /\ queued w2 e = drop (Z.to_nat len) (queued w1 e) /\
    ucp_stream_data_release w2 (a, off) = Some w3 /\ w_descs w3 = delete a (w_descs w1) /\
    w_released w3 = w_released w1 ++ [(rd_uct_desc rd, a - rd_release_desc_offset rd)].
Proof.
  intros Hid Hcb Hv E1 Hne. destruct (run_idle cb w evs Hid Hcb Hv) as (w1' & E1' & [Hi Hb] & _). rewrite E1 in E1'. simplify_eq.
  destruct (w_eps w1' !! e) as [ep|] eqn:Hep; [|unfold queued, q_of in Hne; by rewrite Hep in Hne].
  destruct (ep_has_data ep) eqn:Hd; [|by rewrite (queued_no_data w1' e ep) in Hne].
  destruct (recv_data_nolock_ok w1' e ep Hi Hep Hd) as
    (a & q & rd & rd' & w2 & Hq & Hrd & Hok & E & Hi2 & (_ & _ & Hqe & _) & Hqd & Hds & Hr1 & Hr2 & Hu & Ho & Ha & Hnh & Hqs & Hout & Hrel).
  pose proof (desc_bytes_length rd Hok) as Hdl. assert (0 < rd_length rd) as Hpos by apply Hok.
  exists a, (rd_payload_offset rd), (rd_length rd), rd'. unfold ucp_stream_recv_data_nb. rewrite (sinv_stream w1' Hi). cbn [negb]. rewrite E.
  cbn [mbind option_bind]. rewrite Hds, lookup_insert_eq. cbn [mbind option_bind]. rewrite Hr2. cbn [mbind option_bind]. eexists _, _. split; [done|].
  split; [done|]. cbn [add_log set_held w_descs]. rewrite Hds, lookup_insert_eq. split; [done|].
  split; [by rewrite Hqd, <- Hdl, Nat2Z.id, take_app_length|]. split; [exact Hqe|].
  unfold ucp_stream_data_release, ucp_recv_desc_release. cbn [fst snd add_log set_held w_descs]. rewrite Hds, lookup_insert_eq. cbn [mbind option_bind].
  rewrite Hr1. cbn [mbind option_bind]. rewrite le64_val_le64, lookup_insert_eq by done. cbn [mbind option_bind]. split; [done|].
  cbn. rewrite Hrel. split; [by rewrite delete_insert_eq|done].
Qed.

(** C29: The cleanup of an endpoint, in a worker that a valid run reaches, with a
    status that is neither [UCS_OK] nor [UCS_INPROGRESS], when the callbacks it runs
    with this status make no calls and fewer than [2 ^ 64] elements are queued at the
    endpoint.  Both loops end and no assertion fails.  The descriptors queued at the
    endpoint are released in their order, the requests queued at it are completed
    with the status and the length received so far, its queue is empty, and the ready
    list is the one before without the endpoint.  All other descriptors, requests and
    endpoints, the bytes the calls obtained and the pointers the user holds are as
    before. *)
Theorem stream_cleanup cb w evs w1 e st : idle w -> callbacks_ok cb w -> valid_run cb w evs -> run cb w evs = Some w1 -> is_Some (w_eps w !! e) ->
  Z.of_nat (length (q_of w1 e)) < 2 ^ 64 -> st <> UCS_OK -> st <> UCS_INPROGRESS -> (forall id len, cb id st len = []) ->
  exists w', ucp_stream_ep_cleanup cb w1 e st = Some w' /\ cleaned w1 e st w'.
Proof.
  intros Hid Hcb Hv E1 He Hmax Hst1 Hst2 Hnc. destruct (run_idle cb w evs Hid Hcb Hv) as (w1' & E1' & [Hi _] & Hk & _). rewrite E1 in E1'. simplify_eq.
  destruct (keeps_is_Some w w1' e Hk He) as [ep Hep]. destruct (ep_cleanup_ok cb w1' e ep st Hi Hep Hmax Hst1 Hst2 Hnc) as (w' & ? & ? & _). by exists w'.
Qed.

Lemma recv_request_enough arr w e b dt param : inv arr w -> is_Some (w_eps w !! e) -> TagEager.buffer_ok b -> TagEager.ucp_dt_recv_state_init b = b ->
  Z.of_nat (length (TagEager.content b)) < 2 ^ 63 -> datatype_ok dt -> (forall n, dt = DtContig n -> (n | Z.of_nat (length (TagEager.content b)))) ->
  p_force_imm_cmpl param = false -> p_alloc param = true -> (length (TagEager.content b) <= length (queued w e))%nat ->
  exists w', recv_request w e b (Z.of_nat (length (TagEager.content b))) dt param = Some w' /\
    w_log w' = w_log w ++ [(e, GotBytes (take (length (TagEager.content b)) (queued w e)))].
Proof.
  intros [Hi _] He Hb Hs Hmax Hdt Hdiv Hf Ha Hlen. unfold recv_request. rewrite Hf, Ha. cbn [negb].
  set (r := ucp_stream_recv_request_init b (Z.of_nat (length (TagEager.content b))) dt param).
  assert (req_ok r) as Hr by (unfold req_ok, r; cbn; rewrite Hs; do 3 (split; [done|]); split; [lia|done]).
  destruct (recv_loop_ok w e r He Hi Hr) as (w' & r' & E & HF & Hor); [done|done|]. rewrite (bind_eq _ _ _ E).
  rewrite decide_False by (intros H; by apply H). pose proof HF as (Hi' & (_ & _ & Hlog & _) & _ & _ & Hr' & _ & _ & _ & _ & Hrl & Hby).
  pose proof Hr' as (_ & Hlc & _ & Hof & _). cbn in Hrl.
  assert (Z.of_nat (length (req_bytes r')) = sr_offset r') as Hbl by (unfold req_bytes; rewrite length_take; lia).
  assert (sr_offset r' = TagEager.rr_length (sr_recv r')) as Hfull.
  { destruct Hor as [?|(ep & Hep & Hd)]; [done|]. rewrite (queued_no_data w' e ep Hi' Hep Hd), app_nil_r in Hby. rewrite <- Hby in Hlen. lia. }
  rewrite (proj2 (Z.leb_le _ _)) by lia. cbn [assert mbind option_bind]. unfold ucp_request_can_complete_stream_recv.
  rewrite (proj2 (Z.eqb_eq _ _)) by done. fold (req_bytes r'). eexists. split; [done|]. cbn. rewrite Hlog. do 4 f_equal.
  rewrite <- Hby. rewrite take_app_length'; [done|lia].
Qed.

(** C37: A receive of [count] elements of a contiguous datatype with
    [UCP_OP_ATTR_FLAG_NO_IMM_CMPL], when at least [count] bytes are queued at its
    endpoint, completes at once and with [count] bytes: the size of the element is
    not used.  The buffer holds [count] elements, and a request is available. *)
Theorem stream_no_imm_datatype cb w evs w1 e mem count n waitall callback : idle w -> callbacks_ok cb w -> valid_run cb w evs -> run cb w evs = Some w1 ->
  0 < count < 2 ^ 63 -> count * n <= Z.of_nat (length mem) -> 0 < n -> count <= Z.of_nat (length (queued w1 e)) ->
  exists w2, ucp_stream_recv_nbx w1 e (UserBytes mem) count (RecvParam (Some (DtContig n)) true false callback waitall true) = Some w2 /\
    w_log w2 = w_log w1 ++ [(e, GotBytes (take (Z.to_nat count) (queued w1 e)))].
Proof.
  intros Hid Hcb Hv E1 Hc Hm Hn Hq. destruct (run_idle cb w evs Hid Hcb Hv) as (w1' & E1' & Hinv & _). rewrite E1 in E1'. simplify_eq.
  assert (is_Some (w_eps w1' !! e)) as He by (unfold queued, q_of in Hq; destruct (w_eps w1' !! e); [by eexists|cbn in Hq; lia]).
  unfold ucp_stream_recv_nbx. rewrite (sinv_stream w1' (proj1 Hinv)). cbn [negb p_datatype p_no_imm_cmpl].
  unfold dt_buffer, ucp_contig_dt_length. rewrite Z.mul_1_r, u_wrap_small by lia. rewrite (proj2 (Z.leb_le count _)) by nia. cbn [assert mbind option_bind].
  assert (Z.of_nat (length (take (Z.to_nat count) mem)) = count) as Hl by (rewrite length_take; nia).
  destruct (recv_request_enough _ w1' e (TagEager.Contig (take (Z.to_nat count) mem)) (DtContig 1)
    (RecvParam (Some (DtContig n)) true false callback waitall true) Hinv He) as (w2 & E & Hlog); cbn [TagEager.content TagEager.buffer_ok] in *;
    [done|done|lia|cbn; lia|intros n' E; simplify_eq; apply Z.divide_1_l|done|done|lia|].
  rewrite Hl in E. exists w2. split; [done|]. rewrite Hlog. do 5 f_equal. lia.
Qed.

(** A message without payload for an endpoint that has no receive posted fails an
    assertion. *)
Lemma stream_empty_message cb w evs w1 am_data mem : idle w -> callbacks_ok cb w -> valid_run cb w evs -> run cb w evs = Some w1 ->
  length am_data = 8%nat -> accepts w (am_ep am_data) = true -> (forall id, QReq id ∉ q_of w1 (am_ep am_data)) ->
  ucp_stream_am_handler cb w1 am_data mem = None.
Proof.
  intros Hid Hcb Hv E1 Hl Hacc Hq. destruct (run_idle cb w evs Hid Hcb Hv) as (w1' & E1' & [Hi _] & Hk & _). rewrite E1 in E1'. simplify_eq.
  rewrite <- (accepts_keeps w w1' _ Hk) in Hacc. unfold accepts in Hacc. unfold ucp_stream_am_handler. rewrite Hl. cbn [Z.of_nat Z.leb assert mbind option_bind].
  fold (am_ep am_data). set (e := am_ep am_data) in *. destruct (w_eps w1' !! e) as [ep|] eqn:Hep; [|done]. destruct (ep_closed ep); [done|].
  assert (drop 8 am_data = []) as Hd by (apply drop_ge; lia).
  unfold ucp_stream_am_data_process. rewrite Hep. cbn [mbind option_bind]. change (Z.to_nat sizeof_ucp_stream_am_data_t) with 8%nat. rewrite Hd.
  cbn [length Z.of_nat]. rewrite take_nil. unfold ucp_stream_ep_has_data. destruct (ep_has_data ep) eqn:Hdt; [done|]. cbn [negb].
  assert (ep_match_q ep = []) as Hmq.
  { pose proof (sinv_queue w1' Hi e ep Hep) as H. unfold queue_ok in H. rewrite Hdt in H. destruct H as [_ H]. rewrite (q_of_lookup w1' e ep Hep) in Hq.
    destruct (ep_match_q ep) as [|x l]; [done|]. destruct (H x) as (id & _ & -> & _); [by left|]. destruct (Hq id). by left. }
  destruct (while_ok (expected_step cb e) (fun s => s = (w1', [])) (fun s => s = (w1', Some [])) (fun _ => 0) (w1', [])) as (s & E & ->); [|done|lia|].
  { intros s ->. eexists. split; [unfold expected_step; rewrite Hep; cbn [mbind option_bind]; by rewrite Hmq|done]. }
  by rewrite E.
Qed.

(** ** Examples *)

(** Two endpoints; the callback of the first request posts a receive. *)
Definition sample_ep : ucp_ep_t := Ep true false false false [].
Definition sample_worker : worker := Worker true {[5 := sample_ep; 6 := sample_ep]} [] ∅ ∅ 0 [] [] [].
Definition sample_param : recv_param := RecvParam None false false true true true.
Definition sample_cb (id : Z) (st : ucs_status_t) (len : Z) : list user_call :=
  match st with
  | UCS_OK => if id =? 0 then [CallRecv 5 (UserBytes [0; 0; 0]) 3 sample_param] else []
  | _ => []
  end.

Definition sample_events : list event := [
  EvCall (CallRecv 5 (UserBytes [0; 0; 0; 0]) 4 sample_param);
  EvAm (le64 5 ++ [1; 2; 3; 4; 5; 6]) (AmCopy (Some (4096, replicate 20 0)));
  EvAm (le64 6 ++ [10; 11; 12]) (AmDesc 8192);
  EvCall (CallPoll 4);
  EvCall (CallRecv 6 (UserBytes [0; 0]) 2 sample_param);
  EvAm (le64 6 ++ [13; 14]) (AmDesc 12288)].

Definition sample_last : event := EvAm (le64 6 ++ [15]) (AmCopy (Some (16384, replicate 20 0))).

Definition sample_end : worker := default sample_worker (run sample_cb sample_worker sample_events).

Lemma sample_idle : idle sample_worker.
Proof.
  split; try done. intros e ep. cbn. rewrite lookup_insert_Some, lookup_singleton_Some. intros [[_ <-]|[_ [_ <-]]]; done.
Qed.

Lemma sample_recv_ok count mem param : recv_datatype param = DtContig 1 -> 0 <= count < 2 ^ 62 -> Z.of_nat (length mem) = count -> recv_ok (UserBytes mem) count param.
Proof.
  intros E Hc Hl. unfold recv_ok. rewrite E. split; [done|]. split; [lia|]. split; [intros n En; simplify_eq; lia|].
  exists (TagEager.Contig mem). split; [|split; [done|cbn; lia]]. cbn. unfold ucp_contig_dt_length. rewrite u_wrap_small, Z.mul_1_r by lia.
  rewrite (proj2 (Z.leb_le _ _)) by lia. cbn. by rewrite <- Hl, Nat2Z.id, firstn_all.
Qed.

Lemma sample_callbacks : callbacks_ok sample_cb sample_worker.
Proof.
  intros id st len. unfold sample_cb. destruct st; try constructor. destruct (id =? 0); constructor; [|constructor].
  split; [|done]. split; [by eexists|]. by apply sample_recv_ok.
Qed.

Ltac sample_step := eapply valid_run_cons; [|vm_compute; reflexivity|].

Lemma sample_stream_valid : valid_run sample_cb sample_worker (sample_events ++ [sample_last]).
Proof.
  unfold sample_events, sample_last. cbn [app].
  sample_step; [split; [by eexists|]; by apply sample_recv_ok|]. sample_step; [by vm_compute|]. sample_step; [by vm_compute|].
  sample_step; [done|]. sample_step; [split; [by eexists|]; by apply sample_recv_ok|]. sample_step; [by vm_compute|]. sample_step; [by vm_compute|]. done.
Qed.

Lemma sample_valid_prefix : valid_run sample_cb sample_worker sample_events.
Proof. apply (valid_run_snoc sample_cb sample_events sample_last sample_worker sample_stream_valid). Qed.

Lemma sample_run : run sample_cb sample_worker sample_events = Some sample_end.
Proof. by vm_compute. Qed.

#[local] Opaque sample_end.

Lemma stream_in_order_witness : exists w', run sample_cb sample_worker sample_events = Some w' /\
  obtained w' 5 ++ queued w' 5 = [1; 2; 3; 4; 5; 6] /\ obtained w' 6 ++ queued w' 6 = [10; 11; 12; 13; 14].
Proof.
  destruct (stream_in_order sample_cb sample_worker sample_events sample_idle sample_callbacks sample_valid_prefix) as (w' & E & H).
  exists w'. split; [exact E|]. split; rewrite H; vm_compute; reflexivity.
Defined.

Lemma stream_requests_witness : exists w' r, run sample_cb sample_worker sample_events = Some w' /\ w_reqs w' !! 1 = Some r /\
  sr_offset r = 2 /\ queued w' 5 = [].
Proof.
  destruct (stream_requests sample_cb sample_worker sample_events sample_idle sample_callbacks sample_valid_prefix) as (w' & E & H).
  pose proof (eq_trans (eq_sym E) sample_run) as E'. apply (inj Some) in E'. subst w'. destruct (H 5 1) as (r & Hr & Hst); [apply list_elem_of_In; vm_compute; tauto|].
  exists sample_end, r. split; [exact E|]. split; [exact Hr|]. clear E H. revert Hr Hst. vm_compute. intros Hr. injection Hr as <-. tauto.
Defined.

Lemma stream_ready_witness : exists w', run sample_cb sample_worker (sample_events ++ [sample_last]) = Some w' /\ NoDup (w_ready w') /\
  exists w2, ucp_stream_worker_poll w' 3 = Some (take 3 (w_ready w'), w2).
Proof.
  destruct (stream_ready sample_cb sample_worker sample_events (le64 6 ++ [15]) (AmCopy (Some (16384, replicate 20 0)))
    sample_idle sample_callbacks sample_stream_valid eq_refl) as (w' & E & _ & Hn & _ & Hp). exists w'. split; [done|]. split; [done|].
  destruct (Hp 3%nat) as (w2 & ? & _). by exists w2.
Defined.

Lemma stream_data_roundtrip_witness : exists a off len w2 w3, ucp_stream_recv_data_nb sample_end 6 = Some (Some (a, off, len), w2) /\
  ucp_stream_data_release w2 (a, off) = Some w3.
Proof.
  destruct (stream_data_roundtrip sample_cb sample_worker sample_events sample_end 6 sample_idle sample_callbacks sample_valid_prefix sample_run) as
    (a & off & len & rd & w2 & w3 & E & _ & _ & _ & _ & E3 & _); [by vm_compute|]. exists a, off, len, w2, w3. split; [exact E|exact E3].
Defined.

Lemma stream_cleanup_witness : exists w', ucp_stream_ep_cleanup sample_cb sample_end 5 UCS_ERR_CANCELED = Some w' /\ q_of w' 5 = [].
Proof.
  destruct (stream_cleanup sample_cb sample_worker sample_events sample_end 5 UCS_ERR_CANCELED sample_idle sample_callbacks sample_valid_prefix sample_run) as
    (w' & E & Hc); [by eexists|by vm_compute|done|done|done|]. exists w'. split; [exact E|apply Hc].
Defined.

Lemma stream_no_imm_datatype_witness : exists w2,
  ucp_stream_recv_nbx sample_end 6 (UserBytes (replicate 8 0)) 2 (RecvParam (Some (DtContig 4)) true false true true true) = Some w2 /\
  w_log w2 = w_log sample_end ++ [(6, GotBytes [12; 13])].
Proof.
  destruct (stream_no_imm_datatype sample_cb sample_worker sample_events sample_end 6 (replicate 8 0) 2 4 true true sample_idle sample_callbacks
    sample_valid_prefix sample_run) as (w2 & E & Hl); [lia|done|lia|by vm_compute|].
  exists w2. split; [exact E|]. rewrite Hl. do 3 f_equal.
Defined.

End StreamProperties.
