(* ===== verification/StreamSend.v ===== *)
(** Stream sends.

    Models [ucp/stream/stream_send.c] with [ucp_dt_pack] ([ucp/dt/dt.c]) and the
    bcopy protocols of [ucp/proto/proto_am.inl]: a send is one short message, or a
    request whose data is packed to one or several messages by the progress of the
    pending queue.  What UCT answers is an argument: [None] when it took the
    message.  The zero-copy protocols and the selection of the protocol are not
    modelled.  The last theorem is about both sides of a stream. *)

From S2P Require Import Prelude.
From S2P Require Import Iov.
From S2P Require Import TagEager.
From S2P Require Import Stream.
From S2P Require Import StreamInvariant.
From S2P Require Import StreamProperties.

Module StreamSend.
Import Stream StreamInvariant StreamProperties.

(** ** Data *)

Definition sizeof_ucp_stream_am_hdr_t : Z := 8.

(** The fields of a send request: the state of the datatype is [send.state.dt]. *)
Record send_req := SendReq {
  s_remote_id : Z;
  s_buffer : user_buffer;
  s_datatype : ucp_datatype_t;
  s_length : Z;
  s_offset : Z;
  s_iov_offset : Z;
  s_iovcnt_offset : Z
}.

(** ** Requests *)

(** [ucp_stream_send_req_init]; the offset is reset when the protocol starts. *)
Definition ucp_stream_send_req_init (remote_id : Z) (buffer : user_buffer) (datatype : ucp_datatype_t) (count : Z) : option send_req :=
  let buffer := match buffer with UserIov iov => UserIov (take (Z.to_nat count) iov) | UserBytes mem => UserBytes mem end in
  len ← dt_length_of datatype count buffer;
  Some (SendReq remote_id buffer datatype len 0 0 0).

Definition ucp_dt_pack (r : send_req) (len : Z) : option (list Z * send_req) :=
  if len =? 0 then Some ([], r)
  else
    match s_datatype r, s_buffer r with
    | DtContig _, UserBytes mem =>
        data ← Iov.read mem (s_offset r) len;
        Some (data, SendReq (s_remote_id r) (s_buffer r) (s_datatype r) (s_length r) (s_offset r + len) (s_iov_offset r) (s_iovcnt_offset r))
    | DtIov, UserIov iov =>
        '(data, iov_offset, iovcnt_offset) ← Iov.ucp_dt_iov_gather iov len (s_iov_offset r) (s_iovcnt_offset r);
        Some (data, SendReq (s_remote_id r) (s_buffer r) (s_datatype r) (s_length r) (s_offset r + len) iov_offset iovcnt_offset)
    | _, _ => None
    end.

(** ** Messages *)

Definition ucp_stream_send_am_short (remote_id : Z) (data : list Z) : list Z := le64 remote_id ++ data.

Definition ucp_stream_pack_am_single_dt (r : send_req) : option (list Z * send_req) :=
  _ ← assert (s_offset r =? 0);
  '(data, r') ← ucp_dt_pack r (s_length r);
  _ ← assert (Z.of_nat (length data) =? s_length r);
  Some (le64 (s_remote_id r) ++ data, r').

Definition ucp_stream_pack_am_first_dt (max_bcopy : Z) (r : send_req) : option (list Z * send_req) :=
  let len := Z.min (u64 (max_bcopy - sizeof_ucp_stream_am_hdr_t)) (s_length r) in
  _ ← assert (s_offset r =? 0);
  '(data, r') ← ucp_dt_pack r len;
  Some (le64 (s_remote_id r) ++ data, r').

Definition ucp_stream_pack_am_middle_dt (max_bcopy : Z) (r : send_req) : option (list Z * send_req) :=
  let len := Z.min (u64 (max_bcopy - sizeof_ucp_stream_am_hdr_t)) (u64 (s_length r - s_offset r)) in
  '(data, r') ← ucp_dt_pack r len;
  Some (le64 (s_remote_id r) ++ data, r').

(** [ucp_do_am_bcopy_single] and [ucp_do_am_bcopy_multi], on the lane of active
    messages: the status, the message sent and the request.  When UCT refuses the
    message, the state of the datatype is the one before. *)
Definition ucp_do_am_bcopy_single (max_bcopy : Z) (uct : option ucs_status_t) (r : send_req) : option (ucs_status_t * list (list Z) * send_req) :=
  match uct with
  | Some status => Some (status, [], r)
  | None =>
      '(msg, r') ← ucp_stream_pack_am_single_dt r;
      _ ← assert (Z.of_nat (length msg) <=? max_bcopy);
      Some (UCS_OK, [msg], r')
  end.

Definition ucp_do_am_bcopy_multi (max_bcopy : Z) (uct : option ucs_status_t) (r : send_req) : option (ucs_status_t * list (list Z) * send_req) :=
  _ ← assert ((s_offset r =? 0) || (s_offset r <? s_length r));
  match uct with
  | Some status => Some (status, [], r)
  | None =>
      '(msg, r') ← (if s_offset r =? 0 then ucp_stream_pack_am_first_dt max_bcopy r else ucp_stream_pack_am_middle_dt max_bcopy r);
      _ ← assert (((s_offset r' <? s_length r') && (Z.of_nat (length msg) =? max_bcopy)) || (Z.of_nat (length msg) <=? max_bcopy));
      _ ← assert (s_offset r' <=? s_length r');
      Some (if s_offset r' <? s_length r' then UCS_INPROGRESS else UCS_OK, [msg], r')
  end.

(** [ucp_am_bcopy_handle_status_from_pending]: whether the request stays in the
    pending queue; otherwise it is completed with the status. *)
Definition stays_pending (status : ucs_status_t) : bool :=
  match status with UCS_INPROGRESS | UCS_ERR_NO_RESOURCE | UCS_ERR_BUSY => true | _ => false end.

(** The progress of [ucp_stream_bcopy_multi] for the answers of UCT: the messages,
    the last status and the request.  [UCS_INPROGRESS] is the status of a request
    that is still pending. *)
Fixpoint ucp_stream_bcopy_multi (max_bcopy : Z) (outs : list (option ucs_status_t)) (r : send_req) :
  option (list (list Z) * ucs_status_t * send_req) :=
  match outs with
  | [] => Some ([], UCS_INPROGRESS, r)
  | uct :: outs =>
      '(status, msgs, r) ← ucp_do_am_bcopy_multi max_bcopy uct r;
      if stays_pending status then
        '(msgs', status, r) ← ucp_stream_bcopy_multi max_bcopy outs r;
        Some (msgs ++ msgs', status, r)
      else Some (msgs, status, r)
  end.

Fixpoint ucp_stream_bcopy_single (max_bcopy : Z) (outs : list (option ucs_status_t)) (r : send_req) :
  option (list (list Z) * ucs_status_t * send_req) :=
  match outs with
  | [] => Some ([], UCS_INPROGRESS, r)
  | uct :: outs =>
      '(status, msgs, r) ← ucp_do_am_bcopy_single max_bcopy uct r;
      _ ← assert (bool_decide (status <> UCS_INPROGRESS));
      if stays_pending status then ucp_stream_bcopy_single max_bcopy outs r else Some (msgs, status, r)
  end.

(** ** [ucp_stream_send_nbx] *)

(** What a send finds: [ucp_request_param_flags], the result of resolving the
    remote id, whether the memory type cache is empty, the limit and the answer of
    UCT for short messages, and whether there is a request. *)
Record send_env := SendEnv {
  se_feature : bool;
  se_flags : Z;
  se_resolve : ucs_status_t;
  se_memtype_cache_empty : bool;
  se_max_short : Z;
  se_short_status : ucs_status_t;
  se_alloc : bool
}.

(** The status of the call, a short message that was sent, or the request that is started. *)
Inductive send_result := SendStatus (status : ucs_status_t) | SendShort (msg : list Z) | SendStart (r : send_req).

(** [None] is [UCS_ERR_NO_RESOURCE]: the send goes on with a request. *)
Definition ucp_stream_send_nbx_am_short (env : send_env) (remote_id : Z) (buffer : user_buffer) (len : Z) : option (option send_result) :=
  if s_wrap 64 len <=? se_max_short env then
    match se_short_status env with
    | UCS_OK => match buffer with
                | UserBytes mem => data ← Iov.read mem 0 len; Some (Some (SendShort (ucp_stream_send_am_short remote_id data)))
                | UserIov _ => None
                end
    | UCS_ERR_NO_RESOURCE => Some None
    | status => Some (Some (SendStatus status))
    end
  else Some None.

Definition ucp_stream_send_nbx (env : send_env) (remote_id : Z) (buffer : user_buffer) (count : Z) (param : recv_param) : option send_result :=
  if negb (se_feature env) then Some (SendStatus UCS_ERR_INVALID_PARAM)
  else if negb (se_flags env =? 0) then Some (SendStatus UCS_ERR_NOT_IMPLEMENTED)
  else if negb (bool_decide (se_resolve env = UCS_OK)) then Some (SendStatus (se_resolve env))
  else
    '(short, datatype) ←
      (if se_memtype_cache_empty env then
         match p_datatype param, p_no_imm_cmpl param with
         | None, false => short ← ucp_stream_send_nbx_am_short env remote_id buffer count; Some (short, DtContig 1)
         | Some (DtContig n), false => short ← ucp_stream_send_nbx_am_short env remote_id buffer (ucp_contig_dt_length n count); Some (short, DtContig n)
         | Some DtIov, false => Some (None, DtIov)
         | _, true => Some (None, DtContig 1)
         end
       else Some (None, default (DtContig 1) (p_datatype param)));
    match short with
    | Some result => Some result
    | None =>
        if p_force_imm_cmpl param then Some (SendStatus UCS_ERR_NO_RESOURCE)
        else if negb (se_alloc env) then Some (SendStatus UCS_ERR_NO_MEMORY)
        else r ← ucp_stream_send_req_init remote_id buffer datatype count; Some (SendStart r)
    end.

(** ** Packing *)

(** A request that sends the data [D]. *)
Definition send_ok (D : list Z) (r : send_req) : Prop :=
  s_length r = Z.of_nat (length D) /\ s_length r < 2 ^ 63 /\ 0 <= s_offset r <= s_length r /\
  match s_datatype r, s_buffer r with
  | DtContig _, UserBytes mem => take (length D) mem = D
  | DtIov, UserIov iov => Iov.fits iov /\ Iov.flat iov = D /\ Iov.at_pos iov (s_iovcnt_offset r) (s_iov_offset r) (s_offset r)
  | _, _ => False
  end.

Lemma take_read (mem D : list Z) o n : take (length D) mem = D -> 0 <= o -> 0 <= n -> o + n <= Z.of_nat (length D) -> Iov.read mem o n = Some (Iov.sub D o n).
Proof.
  intros HD Ho Hn Hl. assert (length D <= length mem)%nat as Hlm by (rewrite <- HD at 1; rewrite length_take; lia).
  rewrite Iov.read_ok by lia. f_equal. unfold Iov.sub. rewrite <- HD at 1. rewrite skipn_firstn_comm, take_take. f_equal. lia.
Qed.

Lemma dt_pack_ok D r n : send_ok D r -> 0 <= n <= s_length r - s_offset r ->
  exists r', ucp_dt_pack r n = Some (Iov.sub D (s_offset r) n, r') /\ send_ok D r' /\ s_offset r' = s_offset r + n /\ s_remote_id r' = s_remote_id r /\
    s_length r' = s_length r.
Proof.
  intros (Hl & Hmax & Ho & Hb) Hn. unfold ucp_dt_pack. destruct (Z.eqb_spec n 0) as [->|Hne].
  { exists r. split; [done|]. split; [done|]. split; [lia|done]. }
  destruct (s_datatype r) as [sz|] eqn:Edt, (s_buffer r) as [mem|iov] eqn:Eb; try done.
  - rewrite (take_read mem D) by (done || lia). cbn [mbind option_bind]. eexists. split; [done|]. split; [|done].
    split; [done|]. split; [done|]. cbn. split; [lia|done].
  - destruct Hb as (Hf & HD & Hp). destruct (Iov.gather_ok iov n (s_iovcnt_offset r) (s_iov_offset r) (s_offset r) Hf Hp) as (i' & o' & -> & Hp');
      [lia|unfold Iov.total; rewrite HD; lia|]. cbn [mbind option_bind]. rewrite HD. eexists. split; [done|]. split; [|done].
    split; [done|]. split; [done|]. cbn. split; [lia|done].
Qed.

Lemma send_req_init_ok remote_id buffer dt count b : 0 <= count -> datatype_ok dt -> (forall n, dt = DtContig n -> count * n < 2 ^ 63) ->
  dt_buffer dt count buffer = Some b -> TagEager.new_buffer b -> TagEager.content b <> [] ->
  exists r, ucp_stream_send_req_init remote_id buffer dt count = Some r /\ send_ok (TagEager.content b) r /\ s_offset r = 0 /\ s_remote_id r = remote_id.
Proof.
  intros Hc Hdt Hmax Hb Hnew Hne. destruct (recv_length dt count buffer b Hc Hdt Hmax Hb Hnew) as (Hl & Hl63 & _).
  unfold ucp_stream_send_req_init. destruct Hnew as [Hok _]. destruct dt as [n|]; destruct buffer as [mem|iov]; cbn in Hb; try done.
  - rewrite Hl. cbn [mbind option_bind]. eexists. split; [done|]. split; [|done].
    destruct (ucp_contig_dt_length n count <=? Z.of_nat (length mem)); [|done]. cbn in Hb. simplify_eq. cbn in *.
    split; [done|]. split; [done|]. split; [cbn; lia|]. cbn. rewrite length_take. by rewrite <- take_take, firstn_all.
  - destruct (Z.leb_spec count (Z.of_nat (length iov))); [|done]. cbn in Hb. simplify_eq. cbn in Hok, Hl, Hl63, Hne |- *. destruct Hok as [Hf Hp].
    rewrite take_take, Nat.min_id in *. injection Hl as ->. eexists. split; [done|]. split; [|done]. split; [done|]. split; [done|]. split; [cbn; lia|]. cbn.
    split; [done|]. split; [done|]. destruct Hp as [E|Hp]; [by rewrite E in Hne|done].
Qed.

(** A message of the stream of an endpoint with the payload [d]. *)
Definition message (max_bcopy remote_id : Z) (d : list Z) (msg : list Z) : Prop :=
  msg = le64 remote_id ++ d /\ d <> [] /\ Z.of_nat (length msg) <= max_bcopy.

Lemma sub_nonempty D o n : 0 <= o -> 0 < n -> o + n <= Z.of_nat (length D) -> Iov.sub D o n <> [].
Proof. intros Ho Hn Hl E. apply (f_equal length) in E. rewrite Iov.sub_length in E by lia. cbn in E. lia. Qed.

(** One message of a request of several. *)
Lemma bcopy_multi_step D r max_bcopy : 8 < max_bcopy < 2 ^ 64 -> send_ok D r -> s_offset r < s_length r -> exists n r' msg,
  n = Z.min (max_bcopy - 8) (s_length r - s_offset r) /\ ucp_do_am_bcopy_multi max_bcopy None r =
    Some (if s_offset r + n <? s_length r then UCS_INPROGRESS else UCS_OK, [msg], r') /\
  send_ok D r' /\ s_offset r' = s_offset r + n /\ s_remote_id r' = s_remote_id r /\ s_length r' = s_length r /\
  message max_bcopy (s_remote_id r) (Iov.sub D (s_offset r) n) msg.
Proof.
  intros Hm Hok Hlt. pose proof Hok as (Hl & Hmax & Ho & _). set (n := Z.min (max_bcopy - 8) (s_length r - s_offset r)).
  destruct (dt_pack_ok D r n Hok ltac:(lia)) as (r' & E & Hok' & Ho' & Hid & Hlen). exists n, r', (le64 (s_remote_id r) ++ Iov.sub D (s_offset r) n).
  assert (Z.of_nat (length (le64 (s_remote_id r) ++ Iov.sub D (s_offset r) n)) = 8 + n) as Hml.
  { rewrite length_app, length_le64, Iov.sub_length by lia. lia. }
  split; [done|]. split; [|do 4 (split; [done|]); split; [done|]; split; [apply sub_nonempty; lia|lia]].
  unfold ucp_do_am_bcopy_multi. rewrite (proj2 (Z.ltb_lt (s_offset r) _)) by lia. rewrite orb_true_r. cbn [assert mbind option_bind].
  assert ((if s_offset r =? 0 then ucp_stream_pack_am_first_dt max_bcopy r else ucp_stream_pack_am_middle_dt max_bcopy r) =
    Some (le64 (s_remote_id r) ++ Iov.sub D (s_offset r) n, r')) as ->.
  { unfold ucp_stream_pack_am_first_dt, ucp_stream_pack_am_middle_dt, sizeof_ucp_stream_am_hdr_t. rewrite !u_wrap_small by lia. fold n.
    destruct (Z.eqb_spec (s_offset r) 0) as [Hz|]; cbn [assert mbind option_bind]; [|by rewrite E].
    replace (Z.min (max_bcopy - 8) (s_length r)) with n by lia. by rewrite E. }
  cbn [mbind option_bind]. rewrite Hml, Ho', Hlen. rewrite (proj2 (Z.leb_le (8 + n) max_bcopy)) by lia. rewrite orb_true_r. cbn [assert mbind option_bind].
  by rewrite (proj2 (Z.leb_le (s_offset r + n) _)) by lia.
Qed.

(** UCT took the message, or it is to be sent later. *)
Definition retried (uct : option ucs_status_t) : bool :=
  match uct with Some status => stays_pending status | None => true end.

(** The number of messages UCT takes. *)
Definition taken (outs : list (option ucs_status_t)) : Z := Z.of_nat (length (filter (fun o => o = None) outs)).

Lemma bcopy_multi_ok D max_bcopy outs : 8 < max_bcopy < 2 ^ 64 -> Some UCS_OK ∉ outs -> forall r, send_ok D r -> s_offset r < s_length r ->
  exists ds msgs st r', ucp_stream_bcopy_multi max_bcopy outs r = Some (msgs, st, r') /\ Forall2 (message max_bcopy (s_remote_id r)) ds msgs /\
    (st = UCS_OK -> concat ds = drop (Z.to_nat (s_offset r)) D) /\
    (forallb retried outs = true -> s_length r - s_offset r <= taken outs * (max_bcopy - 8) -> st = UCS_OK).
Proof.
  intros Hm. induction outs as [|uct outs IH]; intros Huct r Hok Hlt; cbn [ucp_stream_bcopy_multi].
  { exists [], [], UCS_INPROGRESS, r. split; [done|]. split; [constructor|]. split; [done|]. unfold taken. cbn. lia. }
  apply not_elem_of_cons in Huct as [Hu Huct]. specialize (IH Huct). pose proof Hok as (Hl & Hmax & Ho & _). destruct uct as [st|].
  - unfold ucp_do_am_bcopy_multi. rewrite (proj2 (Z.ltb_lt (s_offset r) _)) by lia. rewrite orb_true_r. cbn [assert mbind option_bind].
    destruct (stays_pending st) eqn:Hst.
    + destruct (IH r Hok Hlt) as (ds & msgs & st' & r' & -> & HF & HO & HT). cbn [mbind option_bind]. exists ds, msgs, st', r'.
      do 3 (split; [done|]). cbn. rewrite Hst. unfold taken in *. by rewrite filter_cons_False.
    + exists [], [], st, r. split; [done|]. split; [constructor|]. split; [intros ->; done|]. cbn. by rewrite Hst.
  - destruct (bcopy_multi_step D r max_bcopy Hm Hok Hlt) as (n & r1 & msg & Hn & -> & Hok1 & Ho1 & Hid1 & Hl1 & Hmsg). cbn [mbind option_bind].
    assert (taken (None :: outs) = taken outs + 1) as Ht by (unfold taken; rewrite filter_cons_True by done; cbn [length]; lia).
    destruct (Z.ltb_spec (s_offset r + n) (s_length r)) as [Hmore|Hend]; cbn [stays_pending].
    + destruct (IH r1 Hok1 ltac:(lia)) as (ds & msgs & st' & r' & -> & HF & HO & HT). cbn [mbind option_bind].
      exists (Iov.sub D (s_offset r) n :: ds), (msg :: msgs), st', r'. split; [done|]. rewrite Hid1 in HF. split; [by constructor|]. split.
      * intros Est. cbn. rewrite (HO Est), Ho1. unfold Iov.sub. rewrite Z2Nat.inj_add, <- drop_drop by lia. apply take_drop.
      * cbn. rewrite Ht. intros Hr Hle. apply HT; [done|]. rewrite Ho1, Hl1. nia.
    + exists [Iov.sub D (s_offset r) n], [msg], UCS_OK, r1. split; [done|]. split; [by constructor; [|constructor]|]. split; [|done]. intros _. cbn.
      rewrite app_nil_r. unfold Iov.sub. rewrite take_ge; [done|]. rewrite length_drop. lia.
Qed.

Lemma bcopy_single_ok D max_bcopy outs r msgs r' : Some UCS_OK ∉ outs -> send_ok D r -> s_offset r = 0 ->
  ucp_stream_bcopy_single max_bcopy outs r = Some (msgs, UCS_OK, r') -> msgs = [le64 (s_remote_id r) ++ D].
Proof.
  intros Huct Hok Ho. pose proof Hok as (Hl & _). induction outs as [|uct outs IH]; cbn [ucp_stream_bcopy_single]; [done|].
  apply not_elem_of_cons in Huct as [Hu Huct]. specialize (IH Huct). destruct uct as [st|]; cbn [ucp_do_am_bcopy_single mbind option_bind].
  - destruct (bool_decide (st <> UCS_INPROGRESS)); [|done]. cbn [assert mbind option_bind]. destruct (stays_pending st); [done|]. intros E. exfalso. congruence.
  - unfold ucp_stream_pack_am_single_dt. rewrite Ho. cbn [Z.eqb assert mbind option_bind].
    destruct (dt_pack_ok D r (s_length r) Hok ltac:(lia)) as (r1 & -> & _). cbn [mbind option_bind].
    assert (Iov.sub D (s_offset r) (s_length r) = D) as -> by (unfold Iov.sub; rewrite Ho, Hl, Nat2Z.id; cbn [Z.to_nat]; by rewrite drop_0, firstn_all).
    rewrite Hl, Z.eqb_refl. cbn [assert mbind option_bind]. destruct (Z.of_nat _ <=? max_bcopy); [|done]. cbn [assert mbind option_bind]. rewrite bool_decide_true by done.
    cbn [assert mbind option_bind stays_pending]. intros E. congruence.
Qed.

(** ** Both sides *)

(** The data of a valid send. *)
Definition send_data (buffer : user_buffer) (count : Z) (param : recv_param) (D : list Z) : Prop :=
  p_no_imm_cmpl param = false /\ recv_ok buffer count param /\ D <> [] /\
  exists b, dt_buffer (recv_datatype param) count buffer = Some b /\ D = TagEager.content b.

(** The send of [D] to the endpoint [e] was completed with these messages. *)
Inductive sent (max_bcopy e : Z) (D : list Z) (msgs : list (list Z)) : Prop :=
| sent_short env buffer count param msg : send_data buffer count param D -> msgs = [msg] ->
    ucp_stream_send_nbx env e buffer count param = Some (SendShort msg) -> sent max_bcopy e D msgs
| sent_single env buffer count param r outs r' : send_data buffer count param D -> Some UCS_OK ∉ outs ->
    ucp_stream_send_nbx env e buffer count param = Some (SendStart r) ->
    ucp_stream_bcopy_single max_bcopy outs r = Some (msgs, UCS_OK, r') -> sent max_bcopy e D msgs
| sent_multi env buffer count param r outs r' : send_data buffer count param D -> Some UCS_OK ∉ outs ->
    ucp_stream_send_nbx env e buffer count param = Some (SendStart r) ->
    ucp_stream_bcopy_multi max_bcopy outs r = Some (msgs, UCS_OK, r') -> sent max_bcopy e D msgs.

(** The messages for an endpoint in a run. *)
Definition messages (evs : list event) (e : Z) : list (list Z) :=
  omap (fun ev => match ev with EvAm am_data _ => if decide (am_ep am_data = e) then Some am_data else None | _ => None end) evs.

Lemma arrived_messages w evs e : accepts w e = true -> arrived w evs e = concat (drop 8 <$> messages evs e).
Proof.
  intros Ha. unfold arrived, messages. rewrite Ha. f_equal. induction evs as [|ev evs IH]; [done|]. cbn. destruct ev; [|done|done].
  destruct (decide (am_ep am_data = e)); cbn; [|done]. by f_equal.
Qed.

Lemma payload_message e (d : list Z) : drop 8 (le64 e ++ d) = d.
Proof. apply drop_app_length'. by rewrite length_le64. Qed.

Lemma payload_one e (d : list Z) : concat (drop 8 <$> [le64 e ++ d]) = d.
Proof. change (drop 8 (le64 e ++ d) ++ [] = d). by rewrite payload_message, app_nil_r. Qed.

Lemma am_short_cases env e buffer len res : ucp_stream_send_nbx_am_short env e buffer len = Some (Some res) ->
  (exists st, res = SendStatus st) \/ (exists mem data, buffer = UserBytes mem /\ Iov.read mem 0 len = Some data /\ res = SendShort (le64 e ++ data)).
Proof.
  unfold ucp_stream_send_nbx_am_short. destruct (s_wrap 64 len <=? se_max_short env); [|done].
  destruct (se_short_status env); intros E; try (simplify_eq; left; by eexists). right. destruct buffer as [mem|]; [|done].
  destruct (Iov.read mem 0 len) as [data|] eqn:Er; [|done]. cbn in E. simplify_eq. by exists mem, data.
Qed.

(** A send ends at once, sends a short message, or starts a request. *)
Lemma send_nbx_cases env e buffer count param res : p_no_imm_cmpl param = false -> 0 <= count -> (forall n, recv_datatype param = DtContig n -> count * n < 2 ^ 63) ->
  ucp_stream_send_nbx env e buffer count param = Some res ->
  (exists st, res = SendStatus st) \/
  (exists mem data n, buffer = UserBytes mem /\ recv_datatype param = DtContig n /\ Iov.read mem 0 (ucp_contig_dt_length n count) = Some data /\
     res = SendShort (le64 e ++ data)) \/
  (exists r, res = SendStart r /\ ucp_stream_send_req_init e buffer (recv_datatype param) count = Some r).
Proof.
  intros Hni Hc Hmax. unfold ucp_stream_send_nbx. destruct (se_feature env); cbn [negb]; [|intros E; simplify_eq; left; by eexists].
  destruct (se_flags env =? 0); cbn [negb]; [|intros E; simplify_eq; left; by eexists].
  destruct (bool_decide (se_resolve env = UCS_OK)); cbn [negb]; [|intros E; simplify_eq; left; by eexists].
  unfold recv_datatype in *. rewrite Hni in *.
  assert (forall dt, (if p_force_imm_cmpl param then Some (SendStatus UCS_ERR_NO_RESOURCE)
                      else if negb (se_alloc env) then Some (SendStatus UCS_ERR_NO_MEMORY)
                      else r ← ucp_stream_send_req_init e buffer dt count; Some (SendStart r)) = Some res ->
    (exists st, res = SendStatus st) \/ (exists r, res = SendStart r /\ ucp_stream_send_req_init e buffer dt count = Some r)) as Hreq.
  { intros dt. destruct (p_force_imm_cmpl param); [intros E; simplify_eq; left; by eexists|].
    destruct (se_alloc env); cbn [negb]; [|intros E; simplify_eq; left; by eexists].
    destruct (ucp_stream_send_req_init e buffer dt count) as [r|]; [|done]. cbn. intros E. simplify_eq. right. by eexists. }
  destruct (se_memtype_cache_empty env); [|cbn [mbind option_bind]; intros E; apply Hreq in E as [?|?]; by auto].
  destruct (p_datatype param) as [[n|]|]; cbn [default from_option id] in *.
  - destruct (ucp_stream_send_nbx_am_short _ _ _ _) as [[res'|]|] eqn:Es; [| |done]; cbn [mbind option_bind]; intros E; [simplify_eq|apply Hreq in E as [?|?]; by auto].
    destruct (am_short_cases _ _ _ _ _ Es) as [?|(mem & data & ? & ? & ?)]; [by auto|]. right. left. by exists mem, data, n.
  - cbn [mbind option_bind]. intros E. apply Hreq in E as [?|?]; by auto.
  - destruct (ucp_stream_send_nbx_am_short _ _ _ _) as [[res'|]|] eqn:Es; [| |done]; cbn [mbind option_bind]; intros E; [simplify_eq|apply Hreq in E as [?|?]; by auto].
    destruct (am_short_cases _ _ _ _ _ Es) as [?|(mem & data & ? & ? & ?)]; [by auto|]. right. left. exists mem, data, 1.
    specialize (Hmax 1 eq_refl). unfold ucp_contig_dt_length. by rewrite u_wrap_small, Z.mul_1_r by lia.
Qed.

Lemma sent_payload max_bcopy e D msgs : 8 < max_bcopy < 2 ^ 64 -> sent max_bcopy e D msgs -> concat (drop 8 <$> msgs) = D.
Proof.
  intros Hm Hs.
  assert (forall env buffer count param r, send_data buffer count param D -> ucp_stream_send_nbx env e buffer count param = Some (SendStart r) ->
    send_ok D r /\ s_offset r = 0 /\ s_remote_id r = e /\ D <> []) as Hstart.
  { intros env buffer count param r (Hni & (Hdt & Hc & Hmax & b' & Hb' & Hnew) & Hne & b & Hb & ->) E. assert (b' = b) as -> by congruence.
    destruct (send_req_init_ok e buffer (recv_datatype param) count b Hc Hdt Hmax Hb Hnew Hne) as (r0 & E0 & ? & ? & ?).
    destruct (send_nbx_cases env e buffer count param _ Hni Hc Hmax E) as [(? & ?)|[(? & ? & ? & _ & _ & _ & ?)|(r1 & ? & ?)]]; [done|done|].
    simplify_eq. done. }
  destruct Hs as [env buffer count param msg Hd -> E|env buffer count param r outs r' Hd Hu E Ep|env buffer count param r outs r' Hd Hu E Ep].
  - destruct Hd as (Hni & (Hdt & Hc & Hmax & b' & Hb' & Hnew) & Hne & b & Hb & ->). assert (b' = b) as -> by congruence.
    destruct (send_nbx_cases env e buffer count param _ Hni Hc Hmax E) as [(? & ?)|[(mem & data & n & -> & En & Er & ?)|(? & ? & _)]]; [done| |done].
    assert (msg = le64 e ++ data) as -> by congruence. rewrite payload_one. rewrite En in Hb. cbn in Hb. unfold Iov.read in Er.
    destruct (ucp_contig_dt_length n count <=? Z.of_nat (length mem)); [|done]. cbn in Hb. simplify_eq. cbn.
    destruct ((0 <=? 0) && (0 <=? ucp_contig_dt_length n count) && (0 + ucp_contig_dt_length n count <=? Z.of_nat (length mem))); [|done].
    simplify_eq. by rewrite drop_0.
  - destruct (Hstart env buffer count param r Hd E) as (Hok & Ho & <- & _). rewrite (bcopy_single_ok D max_bcopy outs r msgs r' Hu Hok Ho Ep).
    apply payload_one.
  - destruct (Hstart env buffer count param r Hd E) as (Hok & Ho & Hid & Hne). pose proof Hok as (Hl & _).
    destruct (bcopy_multi_ok D max_bcopy outs Hm Hu r Hok) as (ds & msgs' & st & r1 & Em & HF & HO & _); [destruct D; [done|cbn in Hl; lia]|].
    rewrite Ep in Em. simplify_eq. rewrite Ho, drop_0 in HO. transitivity (concat ds); [|by apply HO]. f_equal. clear -HF.
    induction HF as [|d msg ds msgs [-> _] _ IH]; [done|]. rewrite fmap_cons, payload_message. by f_equal.
Qed.

(** The progress of a send in several messages: whatever UCT answers, every message
    has the header of the endpoint, a payload and at most the length of a bcopy
    message; a send that is completed with [UCS_OK] sent exactly its data, in order;
    and it is completed when UCT took enough messages and never failed. *)
Theorem stream_send_multi D r max_bcopy outs : 8 < max_bcopy < 2 ^ 64 -> Some UCS_OK ∉ outs -> send_ok D r -> s_offset r = 0 -> D <> [] ->
  exists ds msgs st r', ucp_stream_bcopy_multi max_bcopy outs r = Some (msgs, st, r') /\ Forall2 (message max_bcopy (s_remote_id r)) ds msgs /\
    (st = UCS_OK -> concat ds = D) /\
    (forallb retried outs = true -> s_length r <= taken outs * (max_bcopy - 8) -> st = UCS_OK).
Proof.
  intros Hm Hu Hok Ho Hne. pose proof Hok as (Hl & _).
  destruct (bcopy_multi_ok D max_bcopy outs Hm Hu r Hok) as (ds & msgs & st & r' & E & HF & HO & HT); [destruct D; [done|cbn in Hl; lia]|].
  exists ds, msgs, st, r'. rewrite Ho in HO, HT. rewrite drop_0, Z.sub_0_r in *. done.
Qed.

(** C15: A stream from end to end: when the messages that arrive for an endpoint are
    those of completed sends, in their order, the bytes the receiver obtained from
    the endpoint and the bytes queued at it are the data of the sends. *)
Theorem stream_end_to_end cb w evs max_bcopy e Ds msgss : 8 < max_bcopy < 2 ^ 64 -> idle w -> callbacks_ok cb w -> valid_run cb w evs -> accepts w e = true ->
  Forall2 (sent max_bcopy e) Ds msgss -> messages evs e = concat msgss ->
  exists w', run cb w evs = Some w' /\ obtained w' e ++ queued w' e = concat Ds.
Proof.
  intros Hm Hid Hcb Hv Ha HF Hmsg. destruct (run_idle cb w evs Hid Hcb Hv) as (w' & E & [_ Hb] & _). exists w'. split; [done|].
  rewrite Hb, (arrived_messages w evs e Ha), Hmsg. clear -HF Hm. induction HF as [|D msgs Ds msgss Hs _ IH]; [done|]. cbn.
  by rewrite fmap_app, concat_app, (sent_payload max_bcopy e D msgs Hm Hs), IH.
Qed.

(** ** Examples *)

Definition sample_env (max_short : Z) : send_env := SendEnv true 0 UCS_OK true max_short UCS_OK true.
Definition sample_send : send_req := SendReq 6 (UserBytes [13; 14; 15]) (DtContig 1) 3 0 0 0.
Definition sample_outs : list (option ucs_status_t) := [None; Some UCS_ERR_NO_RESOURCE; None].

Lemma stream_send_multi_witness : exists ds msgs st r', ucp_stream_bcopy_multi 10 sample_outs sample_send = Some (msgs, st, r') /\
  st = UCS_OK /\ concat ds = [13; 14; 15].
Proof.
  destruct (stream_send_multi [13; 14; 15] sample_send 10 sample_outs) as (ds & msgs & st & r' & E & _ & HO & HT).
  - lia.
  - unfold sample_outs. repeat (apply not_elem_of_cons; split; [done|]). apply not_elem_of_nil.
  - by repeat split.
  - done.
  - done.
  - assert (st = UCS_OK) as Hst by by apply HT. exists ds, msgs, st, r'. split; [exact E|]. split; [exact Hst|by apply HO].
Defined.

Lemma stream_end_to_end_witness : exists w', run sample_cb sample_worker (sample_events ++ [sample_last]) = Some w' /\
  obtained w' 6 ++ queued w' 6 = [10; 11; 12; 13; 14; 15].
Proof.
  destruct (stream_end_to_end sample_cb sample_worker (sample_events ++ [sample_last]) 10 6 [[10; 11; 12]; [13; 14; 15]]
    [[le64 6 ++ [10; 11; 12]]; [le64 6 ++ [13; 14]; le64 6 ++ [15]]]) as (w' & E & H).
  - lia.
  - apply sample_idle.
  - apply sample_callbacks.
  - apply sample_stream_valid.
  - done.
  - constructor; [|constructor; [|constructor]].
    + eapply (sent_short 10 6 _ _ (sample_env 100) (UserBytes [10; 11; 12]) 3 sample_param); [|done|done].
      split; [done|]. split; [by apply sample_recv_ok|]. split; [done|]. by eexists.
    + eapply (sent_multi 10 6 _ _ (sample_env 0) (UserBytes [13; 14; 15]) 3 sample_param sample_send sample_outs); [| |done|done].
      * split; [done|]. split; [by apply sample_recv_ok|]. split; [done|]. by eexists.
      * unfold sample_outs. repeat (apply not_elem_of_cons; split; [done|]). apply not_elem_of_nil.
  - done.
  - exists w'. split; [exact E|]. rewrite H. done.
Defined.

End StreamSend.
