(* ===== verification/Timer.v ===== *)
(** Timers: the timer wheel of [ucs/time/timer_wheel.h] and
    [ucs/time/timer_wheel.c], and the timer queue of [ucs/time/timerq.h] and
    [ucs/time/timerq.c].

    Times are 64-bit unsigned integers.  A timer is named by its address.  The
    list of each slot of the wheel is a Rocq list.  [None] is a failed
    assertion, a fatal error or an access outside of an array. *)

From stdpp Require Import gmap sets sorting.
From S2P Require Import Prelude.
From S2P Require Import Bits.

(** ** Timer wheel *)

Module Twheel.

Inductive status := UCS_OK | UCS_ERR_BUSY.

(** [active] is the set of the timers whose [is_active] is set. *)
Record ucs_twheel_t := Twheel {
  res : Z;
  now : Z;
  current : Z;
  wheel : list (list Z);
  res_order : Z;
  num_slots : Z;
  count : Z;
  active : gset Z
}.

Definition set_now (t : ucs_twheel_t) x := Twheel (res t) x (current t) (wheel t) (res_order t) (num_slots t) (count t) (active t).
Definition set_current (t : ucs_twheel_t) x := Twheel (res t) (now t) x (wheel t) (res_order t) (num_slots t) (count t) (active t).
Definition set_wheel (t : ucs_twheel_t) x := Twheel (res t) (now t) (current t) x (res_order t) (num_slots t) (count t) (active t).
Definition set_count (t : ucs_twheel_t) x := Twheel (res t) (now t) (current t) (wheel t) (res_order t) (num_slots t) x (active t).
Definition set_active (t : ucs_twheel_t) x := Twheel (res t) (now t) (current t) (wheel t) (res_order t) (num_slots t) (count t) x.

(** [None] when the allocation of the wheel fails: the function returns
    [UCS_ERR_NO_MEMORY].  [ucs_log2] of the power of two [res] is its exponent. *)
Definition ucs_twheel_init (resolution current_time : Z) (malloc_ok : bool) (actives : gset Z) : option (option ucs_twheel_t) :=
  r ← Bits.ucs_roundup_pow2 resolution;
  if malloc_ok
  then Some (Some (Twheel r current_time 0 (replicate 1024 []) (Z.log2 r) 1024 0 actives))
  else Some None.

Definition ucs_wtimer_init (t : ucs_twheel_t) (timer : Z) : ucs_twheel_t :=
  set_active t (active t ∖ {[timer]}).

Definition __ucs_wtimer_add (t : ucs_twheel_t) (timer delta : Z) : option ucs_twheel_t :=
  let t := set_active t ({[timer]} ∪ active t) in
  let slot := Z.shiftr delta (res_order t) in
  if slot =? 0 then None else
  let slot := if num_slots t <=? slot then u32 (num_slots t - 1) else slot in
  let slot := u64 (current t + slot) mod num_slots t in
  if slot =? current t then None else
  l ← wheel t !! Z.to_nat slot;
  let t := set_wheel t (<[Z.to_nat slot := l ++ [timer]]> (wheel t)) in
  Some (set_count t (u32 (count t + 1))).

Definition ucs_wtimer_add (t : ucs_twheel_t) (timer delta : Z) : option (status * ucs_twheel_t) :=
  if bool_decide (timer ∈ active t) then Some (UCS_ERR_BUSY, t)
  else t ← __ucs_wtimer_add t timer delta; Some (UCS_OK, t).

(** [ucs_list_del] unlinks the timer from the list it is in. *)
Definition ucs_wtimer_remove (t : ucs_twheel_t) (timer : Z) : ucs_twheel_t :=
  if bool_decide (timer ∈ active t) then
    let t := set_wheel t (filter (.≠ timer) <$> wheel t) in
    let t := set_active t (active t ∖ {[timer]}) in
    set_count t (u32 (count t - 1))
  else t.

(** What the callback of a timer does to the wheel. *)
Inductive action := Add (timer delta : Z) | Remove (timer : Z).

Definition do_action (t : ucs_twheel_t) (a : action) : option ucs_twheel_t :=
  match a with
  | Add timer delta => '(_, t) ← ucs_wtimer_add t timer delta; Some t
  | Remove timer => Some (ucs_wtimer_remove t timer)
  end.

Fixpoint do_actions (t : ucs_twheel_t) (acts : list action) : option ucs_twheel_t :=
  match acts with
  | [] => Some t
  | a :: acts => t ← do_action t a; do_actions t acts
  end.

Section Sweep.
(** The callbacks: from the state of the user and the timer that expired, its
    new state and the calls to the wheel. *)
Context {U : Type} (cb : U -> Z -> U * list action).

(** The inner loop, on the slot [current]; the last component is the list of the
    timers dispatched so far. *)
Definition slot_step (x : ucs_twheel_t * U * list Z) :
    option ((ucs_twheel_t * U * list Z) + (ucs_twheel_t * U * list Z)) :=
  let '(t, u, log) := x in
  l ← wheel t !! Z.to_nat (current t);
  match l with
  | [] => Some (inr (t, u, log))
  | timer :: rest =>
      let t := set_wheel t (<[Z.to_nat (current t) := rest]> (wheel t)) in
      let t := set_active t (active t ∖ {[timer]}) in
      let '(u, acts) := cb u timer in
      t ← do_actions t acts;
      Some (inl (set_count t (u32 (count t - 1)), u, log ++ [timer]))
  end.

Definition sweep_step (slot : Z) (x : ucs_twheel_t * U * list Z) :
    option ((ucs_twheel_t * U * list Z) + (ucs_twheel_t * U * list Z)) :=
  let '(t, u, log) := x in
  if current t =? slot then Some (inr (t, u, log)) else
  '(t, u, log) ← while slot_step (t, u, log);
  Some (inl (set_current t (u64 (current t + 1) mod num_slots t), u, log)).

Definition __ucs_twheel_sweep (t : ucs_twheel_t) (current_time : Z) (u : U) : option (ucs_twheel_t * U * list Z) :=
  let slot := Z.shiftr (u64 (current_time - now t)) (res_order t) in
  let t := set_now t current_time in
  let slot := if num_slots t <=? slot then u32 (num_slots t - 1) else slot in
  let slot := u64 (current t + slot) mod num_slots t in
  while (sweep_step slot) (t, u, []).

Definition ucs_twheel_sweep (t : ucs_twheel_t) (current_time : Z) (u : U) : option (ucs_twheel_t * U * list Z) :=
  if res t <=? u64 (current_time - now t) then __ucs_twheel_sweep t current_time u else Some (t, u, []).
End Sweep.

Definition ucs_twheel_get_time (t : ucs_twheel_t) : Z := now t.
Definition ucs_twheel_is_empty (t : ucs_twheel_t) : bool := count t =? 0.

(** ** Specification

    The wheel is a clock that counts ticks, and a list of armed timers, each
    with the tick at which it is due, in the order in which they were armed. *)

Record spec := Spec { tick : Z; due : list (Z * Z) }.

(** The number of ticks of a duration: the wheel has 1024 slots. *)
Definition ticks (order duration : Z) : Z := Z.min (Z.shiftr duration order) 1023.

Definition spec_add (order : Z) (s : spec) (timer delta : Z) : status * spec :=
  if bool_decide (timer ∈ (due s).*1) then (UCS_ERR_BUSY, s)
  else (UCS_OK, Spec (tick s) (due s ++ [(timer, tick s + ticks order delta)])).

Definition spec_remove (s : spec) (timer : Z) : spec := Spec (tick s) (filter (fun p => p.1 <> timer) (due s)).

Definition spec_action (order : Z) (s : spec) (a : action) : spec :=
  match a with
  | Add timer delta => (spec_add order s timer delta).2
  | Remove timer => spec_remove s timer
  end.

Section SpecSweep.
Context {U : Type} (cb : U -> Z -> U * list action) (order : Z).

(** One tick: while a timer is due now, the first of them is disarmed and
    dispatched; then the clock advances. *)
Inductive spec_tick : spec * U -> list Z -> spec * U -> Prop :=
| tick_done s u : (forall p, p ∈ due s -> p.2 <> tick s) -> spec_tick (s, u) [] (Spec (tick s + 1) (due s), u)
| tick_fire s u timer l1 l2 log x : due s = l1 ++ (timer, tick s) :: l2 -> (forall p, p ∈ l1 -> p.2 <> tick s) ->
    spec_tick (foldl (spec_action order) (Spec (tick s) (l1 ++ l2)) (cb u timer).2, (cb u timer).1) log x ->
    spec_tick (s, u) (timer :: log) x.

Inductive spec_ticks : nat -> spec * U -> list Z -> spec * U -> Prop :=
| ticks_done x : spec_ticks 0 x [] x
| ticks_step n x log1 y log2 z : spec_tick x log1 y -> spec_ticks n y log2 z -> spec_ticks (S n) x (log1 ++ log2) z.
End SpecSweep.

(** Sequences of calls from outside of the callbacks. *)
Inductive op := OpAdd (timer delta : Z) | OpRemove (timer : Z) | OpSweep (current_time : Z).
Inductive result := RStatus (st : status) | RVoid | RFired (timers : list Z).

Section Run.
Context {U : Type} (cb : U -> Z -> U * list action).

Definition do_op (t : ucs_twheel_t) (u : U) (o : op) : option (result * ucs_twheel_t * U) :=
  match o with
  | OpAdd timer delta => '(st, t) ← ucs_wtimer_add t timer delta; Some (RStatus st, t, u)
  | OpRemove timer => Some (RVoid, ucs_wtimer_remove t timer, u)
  | OpSweep current_time => '(t, u, fired) ← ucs_twheel_sweep cb t current_time u; Some (RFired fired, t, u)
  end.

Fixpoint run (t : ucs_twheel_t) (u : U) (ops : list op) : option (list result * ucs_twheel_t * U) :=
  match ops with
  | [] => Some ([], t, u)
  | o :: ops => '(r, t, u) ← do_op t u o; '(rs, t, u) ← run t u ops; Some (r :: rs, t, u)
  end.

(** The same for the specification: [now] is the time of the last sweep that was
    at least [2 ^ order] after the one before. *)
Inductive spec_op (order : Z) : spec * Z * U -> op -> result -> spec * Z * U -> Prop :=
| spec_op_add s now u timer delta : spec_op order (s, now, u) (OpAdd timer delta)
    (RStatus (spec_add order s timer delta).1) ((spec_add order s timer delta).2, now, u)
| spec_op_remove s now u timer : spec_op order (s, now, u) (OpRemove timer) RVoid (spec_remove s timer, now, u)
| spec_op_sweep s now u s' u' c fired :
    spec_ticks cb order (Z.to_nat (ticks order (u64 (c - now)))) (s, u) fired (s', u') ->
    spec_op order (s, now, u) (OpSweep c) (RFired fired) (s', if 2 ^ order <=? u64 (c - now) then c else now, u').

Inductive spec_run (order : Z) : spec * Z * U -> list op -> list result -> spec * Z * U -> Prop :=
| spec_run_nil x : spec_run order x [] [] x
| spec_run_cons x o r y ops rs z : spec_op order x o r y -> spec_run order y ops rs z ->
    spec_run order x (o :: ops) (r :: rs) z.

(** A sequence of sweeps, with the timers that each of them dispatched. *)
Fixpoint sweeps (t : ucs_twheel_t) (u : U) (times : list Z) : option (list (list Z) * ucs_twheel_t * U) :=
  match times with
  | [] => Some ([], t, u)
  | c :: times =>
      '(t, u, fired) ← ucs_twheel_sweep cb t c u; '(logs, t, u) ← sweeps t u times; Some (fired :: logs, t, u)
  end.
End Run.

(** A wheel and its specification.  [k] is the number of timers which were
    extracted and are not yet discounted: one while a callback runs. *)
Record implements (k : Z) (t : ucs_twheel_t) (s : spec) : Prop := Impl {
  im_order : 0 <= res_order t <= 63;
  im_res : res t = 2 ^ res_order t;
  im_slots : num_slots t = 1024;
  im_tick : 0 <= tick s;
  im_current : current t = tick s mod 1024;
  im_len : length (wheel t) = 1024%nat;
  im_wheel : forall j, 0 <= j < 1024 ->
    wheel t !! Z.to_nat j = Some (filter (fun p => p.2 mod 1024 = j) (due s)).*1;
  im_range : forall p, p ∈ due s -> tick s <= p.2 < tick s + 1024;
  im_nodup : NoDup (due s).*1;
  im_addr : forall p, p ∈ due s -> 0 < p.1 < 2 ^ 64;
  im_active : forall x, x ∈ active t <-> x ∈ (due s).*1;
  im_count : count t = u32 (Z.of_nat (length (due s)) + k)
}.

Definition valid_delta (order delta : Z) : Prop := 2 ^ order <= delta < 2 ^ 64.

Definition valid_action (order : Z) (a : action) : Prop :=
  match a with Add timer delta => 0 < timer < 2 ^ 64 /\ valid_delta order delta | Remove _ => True end.

Definition valid_op (order : Z) (o : op) : Prop :=
  match o with OpAdd timer delta => 0 < timer < 2 ^ 64 /\ valid_delta order delta | _ => True end.

Definition valid_cb {U} (order : Z) (cb : U -> Z -> U * list action) : Prop :=
  forall u timer, Forall (valid_action order) (cb u timer).2.

(** The callbacks never cancel this timer. *)
Definition never_removes {U} (cb : U -> Z -> U * list action) (x : Z) : Prop :=
  forall u timer, Remove x ∉ (cb u timer).2.

(** ** Lemmas *)

Lemma mod_window T a b : T <= a < T + 1024 -> T <= b < T + 1024 -> a mod 1024 = b mod 1024 -> a = b.
Proof. intros. pose proof (Z.div_mod a 1024). pose proof (Z.div_mod b 1024). lia. Qed.

Lemma ticks_range order delta : 0 <= order -> valid_delta order delta -> 1 <= ticks order delta <= 1023.
Proof.
  intros Ho [Hd _]. unfold ticks. rewrite Z.shiftr_div_pow2 by done.
  assert (1 <= delta / 2 ^ order) by (apply Z.div_le_lower_bound; lia). lia.
Qed.

(** The slot computations of [__ucs_wtimer_add] and [__ucs_twheel_sweep]. *)
Lemma slot_ok k t s d : implements k t s -> 0 <= d ->
  u64 (current t + (if num_slots t <=? d then u32 (num_slots t - 1) else d)) mod num_slots t =
  (tick s + Z.min d 1023) mod 1024.
Proof.
  intros H Hd. rewrite (im_slots _ _ _ H), (im_current _ _ _ H).
  assert ((if 1024 <=? d then u32 (1024 - 1) else d) = Z.min d 1023) as ->.
  { destruct (Z.leb_spec 1024 d); [change (u32 (1024 - 1)) with 1023|]; lia. }
  pose proof (Z.mod_pos_bound (tick s) 1024). rewrite u_wrap_small by lia. apply Z.add_mod_idemp_l. lia.
Qed.

Lemma not_due_active k t s x : implements k t s -> bool_decide (x ∈ active t) = bool_decide (x ∈ (due s).*1).
Proof. intros H. apply bool_decide_ext, (im_active _ _ _ H). Qed.

Lemma wtimer_add_ok k t s timer delta : implements k t s -> 0 < timer < 2 ^ 64 -> valid_delta (res_order t) delta ->
  exists t', ucs_wtimer_add t timer delta = Some ((spec_add (res_order t) s timer delta).1, t') /\
    implements k t' (spec_add (res_order t) s timer delta).2 /\ res_order t' = res_order t /\ now t' = now t.
Proof.
  intros H Hta Hd. unfold ucs_wtimer_add, spec_add. rewrite (not_due_active _ _ _ _ H).
  destruct (bool_decide_reflect (timer ∈ (due s).*1)) as [Hin|Hin]; [by exists t|].
  pose proof (ticks_range _ _ (proj1 (im_order _ _ _ H)) Hd) as Ht. unfold ticks in *.
  set (d := Z.shiftr delta (res_order t)) in *.
  unfold __ucs_wtimer_add. simpl. fold d. rewrite (proj2 (Z.eqb_neq d 0)) by lia.
  rewrite (slot_ok k t s d H) by lia. set (e := tick s + Z.min d 1023).
  pose proof (im_tick _ _ _ H).
  rewrite (proj2 (Z.eqb_neq _ _)).
  2:{ rewrite (im_current _ _ _ H). intros E%(mod_window (tick s)); lia. }
  pose proof (Z.mod_pos_bound e 1024 ltac:(lia)) as He.
  rewrite (bind_eq _ _ _ (im_wheel _ _ _ H _ He)).
  eexists. split; [done|]. destruct H as [H1 H2 H3 H4 H5 H6 H7 H8 H9 Ha H10 H11].
  split; [|done]. constructor; try done; simpl.
  - by rewrite length_insert.
  - intros j Hj. rewrite filter_app, fmap_app. destruct (decide (j = e mod 1024)) as [->|Hne].
    + rewrite list_lookup_insert_eq by lia. by rewrite filter_cons_True.
    + rewrite list_lookup_insert_ne by lia. rewrite filter_cons_False by (simpl; congruence).
      simpl. rewrite app_nil_r. by apply H7.
  - intros p [Hp|Hp%list_elem_of_singleton]%elem_of_app; [by apply H8|]. subst p. simpl. lia.
  - rewrite fmap_app. apply NoDup_app. split_and!; [done| |apply NoDup_singleton].
    intros x Hx Hx2. by apply list_elem_of_singleton in Hx2 as ->.
  - intros p [Hp|Hp%list_elem_of_singleton]%elem_of_app; [by apply Ha|by subst p].
  - intros x. rewrite fmap_app. simpl. rewrite elem_of_app, list_elem_of_singleton, elem_of_union, elem_of_singleton, H10. tauto.
  - rewrite H11, length_app, u_wrap_add_l. f_equal. simpl. lia.
Qed.

Lemma filter_key_fmap (Q : Z * Z -> Prop) `{!forall p, Decision (Q p)} (l : list (Z * Z)) x :
  filter (.≠ x) (filter Q l).*1 = (filter Q (filter (fun p => p.1 <> x) l)).*1.
Proof. rewrite filter_fmap. f_equal. apply filter_swap. Qed.

Lemma elem_of_key_filter (l : list (Z * Z)) x y : x ∈ (filter (fun p => p.1 <> y) l).*1 <-> x ∈ l.*1 /\ x <> y.
Proof.
  rewrite !list_elem_of_fmap. setoid_rewrite list_elem_of_filter. naive_solver.
Qed.

(** Removing one armed timer, by [ucs_wtimer_remove] or when it expires: [w] is
    the new content of the wheel. *)
Lemma disarm_ok k t s timer e w : implements k t s -> (timer, e) ∈ due s -> length w = 1024%nat ->
  (forall j, 0 <= j < 1024 -> w !! Z.to_nat j = filter (.≠ timer) <$> wheel t !! Z.to_nat j) ->
  implements (k + 1) (set_active (set_wheel t w) (active t ∖ {[timer]})) (spec_remove s timer).
Proof.
  intros [H1 H2 H3 H4 H5 H6 H7 H8 H9 Ha H10 H11] Hin Hlen Hw. constructor; try done; simpl.
  - intros j Hj. rewrite Hw, H7 by done. simpl. f_equal. apply filter_key_fmap.
  - intros p [_ Hp]%list_elem_of_filter. by apply H8.
  - by apply NoDup_filter_fmap.
  - intros p [_ Hp]%list_elem_of_filter. by apply Ha.
  - intros x. rewrite elem_of_key_filter, elem_of_difference, elem_of_singleton, H10. done.
  - rewrite H11. f_equal.
    pose proof (filter_remove_count fst (fun _ => True) (due s) (timer, e) H9 Hin) as E.
    rewrite !(filter_all (fun _ => True)) in E by done. rewrite E. destruct (decide True); [simpl; lia|tauto].
Qed.

Lemma discount_ok k t s : implements (k + 1) t s -> implements k (set_count t (u32 (count t - 1))) s.
Proof.
  intros [H1 H2 H3 H4 H5 H6 H7 H8 H9 Ha H10 H11]. constructor; try done; simpl.
  rewrite H11, <- Z.add_opp_r, u_wrap_add_l. f_equal. lia.
Qed.

Lemma wtimer_remove_ok k t s timer : implements k t s ->
  implements k (ucs_wtimer_remove t timer) (spec_remove s timer) /\
  res_order (ucs_wtimer_remove t timer) = res_order t /\ now (ucs_wtimer_remove t timer) = now t.
Proof.
  intros H. unfold ucs_wtimer_remove. rewrite (not_due_active _ _ _ _ H).
  destruct (bool_decide_reflect (timer ∈ (due s).*1)) as [Hin|Hin].
  - split; [|done]. apply discount_ok. apply list_elem_of_fmap in Hin as ([x e] & -> & Hin).
    refine (disarm_ok k t s x e (filter (.≠ x) <$> wheel t) H Hin _ _).
    + rewrite length_fmap. apply H.
    + intros j Hj. apply list_lookup_fmap.
  - unfold spec_remove. rewrite filter_all; [by destruct s|].
    intros p Hp <-. apply Hin. by apply list_elem_of_fmap_2.
Qed.

Lemma do_actions_ok k acts t s : implements k t s -> Forall (valid_action (res_order t)) acts ->
  exists t', do_actions t acts = Some t' /\ implements k t' (foldl (spec_action (res_order t)) s acts) /\
    res_order t' = res_order t /\ now t' = now t.
Proof.
  revert t s. induction acts as [|a acts IH]; intros t s H Hv; [by exists t|].
  inversion_clear Hv as [|? ? Ha Hv']. cbn [do_actions foldl].
  assert (exists t1, do_action t a = Some t1 /\ implements k t1 (spec_action (res_order t) s a) /\
    res_order t1 = res_order t /\ now t1 = now t) as (t1 & E & H1 & Er & En).
  { destruct a as [timer delta|timer]; simpl.
    - destruct Ha as [Ha1 Ha2], (wtimer_add_ok k t s timer delta H Ha1 Ha2) as (t1 & E & H1). rewrite E. by exists t1.
    - eexists. split; [done|]. by apply wtimer_remove_ok. }
  rewrite (bind_eq _ _ _ E). destruct (IH t1 _ H1) as (t2 & E2 & H2 & Er2 & En2); [by rewrite Er|].
  rewrite Er in H2. exists t2. split_and!; congruence || done.
Qed.

Lemma spec_actions_tick order acts s : tick (foldl (spec_action order) s acts) = tick s.
Proof.
  revert s. induction acts as [|a acts IH]; intros s; [done|]. simpl. rewrite IH.
  destruct a; [|done]. simpl. unfold spec_add. by case_bool_decide.
Qed.

(** Actions do not change what is due at the current tick, except by removing. *)
Lemma spec_actions_due order acts s : 0 <= order -> Forall (valid_action order) acts ->
  tick (foldl (spec_action order) s acts) = tick s /\
  (length (filter (fun p => p.2 = tick s) (due (foldl (spec_action order) s acts))) <=
   length (filter (fun p => p.2 = tick s) (due s)))%nat.
Proof.
  intros Ho. revert s. induction acts as [|a acts IH]; intros s Hv; [done|].
  inversion_clear Hv as [|? ? Ha Hv']. cbn [foldl].
  assert (tick (spec_action order s a) = tick s /\
    (length (filter (fun p => p.2 = tick s) (due (spec_action order s a))) <=
     length (filter (fun p => p.2 = tick s) (due s)))%nat) as [Et Hl].
  { destruct a as [timer delta|timer]; simpl.
    - unfold spec_add. case_bool_decide; [done|]. simpl. split; [done|].
      pose proof (ticks_range _ _ Ho (proj2 Ha)). rewrite filter_app, (filter_none _ [_]), app_nil_r; [done|].
      intros p ->%list_elem_of_singleton. simpl. lia.
    - split; [done|]. rewrite filter_swap. apply length_filter. }
  destruct (IH (spec_action order s a) Hv') as [Et' Hl']. rewrite Et in *. split; [done|lia].
Qed.

(** The list of the slot [current] holds the timers that are due now. *)
Lemma current_slot k t s : implements k t s ->
  wheel t !! Z.to_nat (current t) = Some (filter (fun p => p.2 = tick s) (due s)).*1.
Proof.
  intros H. rewrite (im_current _ _ _ H), (im_wheel _ _ _ H) by (apply Z.mod_pos_bound; lia).
  do 2 f_equal. apply filter_ext_in. intros p Hp. pose proof (im_range _ _ _ H p Hp).
  split; [intros E; apply (mod_window (tick s)); [lia|lia|done]|by intros ->].
Qed.

(** Extracting the head of the current slot disarms its timer. *)
Lemma extract_ok t s timer rest : implements 0 t s -> wheel t !! Z.to_nat (current t) = Some (timer :: rest) ->
  exists l1 l2, due s = l1 ++ (timer, tick s) :: l2 /\ (forall p, p ∈ l1 -> p.2 <> tick s) /\
    implements 1 (set_active (set_wheel t (<[Z.to_nat (current t) := rest]> (wheel t))) (active t ∖ {[timer]}))
      (Spec (tick s) (l1 ++ l2)).
Proof.
  intros H Hw. pose proof (current_slot _ _ _ H) as E. rewrite Hw in E. apply (inj Some) in E.
  destruct (filter (fun p => p.2 = tick s) (due s)) as [|[x e] r] eqn:Ef; [done|].
  rewrite fmap_cons in E. injection E as <- Er. pose proof Ef as Ef'.
  apply filter_head_split in Ef as (l1 & l2 & Ed & Hl1 & He). simpl in *. subst e. exists l1, l2.
  split_and!; [done|done|]. pose proof (im_nodup _ _ _ H) as Hnd.
  assert (l1 ++ l2 = filter (fun p => p.1 <> timer) (due s)) as ->.
  { rewrite <- (delete_middle l1 l2 (timer, tick s)), <- Ed.
    apply (delete_filter fst (due s) (length l1) (timer, tick s)); [done|]. rewrite Ed. by apply list_lookup_middle. }
  pose proof (Z.mod_pos_bound (tick s) 1024 ltac:(lia)) as Hm. rewrite <- (im_current _ _ _ H) in Hm.
  assert ((timer, tick s) ∈ due s) as Hin by (rewrite Ed; apply elem_of_app; right; by left).
  refine (disarm_ok 0 t s timer (tick s) _ H Hin _ _).
  - rewrite length_insert. apply H.
  - intros j Hj. destruct (decide (j = current t)) as [->|Hne].
    + rewrite list_lookup_insert_eq by (rewrite (im_len _ _ _ H); lia). rewrite Hw. simpl. f_equal.
      rewrite filter_cons_False by tauto. symmetry. apply filter_all. intros y Hy ->.
      apply (NoDup_filter_fmap fst (fun p => p.2 = tick s)) in Hnd. rewrite Ef', fmap_cons, <- Er in Hnd.
      by apply NoDup_cons in Hnd as [? _].
    + rewrite list_lookup_insert_ne by lia. rewrite (im_wheel _ _ _ H) by done. simpl. f_equal.
      symmetry. apply filter_all. intros y (p & -> & [Hp1 Hp2]%list_elem_of_filter)%list_elem_of_fmap Hy.
      apply Hne. rewrite (im_current _ _ _ H), <- Hp1. f_equal.
      by rewrite (NoDup_fmap_inj fst (due s) p (timer, tick s) Hnd Hp2 Hin Hy).
Qed.

Definition due_now (s : spec) : Z := Z.of_nat (length (filter (fun p => p.2 = tick s) (due s))).

Lemma due_now_range k t s : implements k t s -> 0 <= due_now s < 2 ^ 64.
Proof.
  intros H. unfold due_now. split; [lia|].
  rewrite <- (length_fmap fst). apply addresses_length; [lia|apply NoDup_filter_fmap, H|].
  intros x (p & -> & [_ Hp]%list_elem_of_filter)%list_elem_of_fmap. by apply (im_addr _ _ _ H).
Qed.

Section SweepProofs.
Context {U : Type} (cb : U -> Z -> U * list action) (order T : Z).
Hypothesis Hcb : valid_cb order cb.

(** One dispatch: the inner loop takes a step of the specification. *)
Lemma slot_step_ok t s u log : implements 0 t s -> res_order t = order ->
  (slot_step cb (t, u, log) = Some (inr (t, u, log)) /\ (forall p, p ∈ due s -> p.2 <> tick s)) \/
  exists t' s' u' timer, slot_step cb (t, u, log) = Some (inl (t', u', log ++ [timer])) /\
    implements 0 t' s' /\ res_order t' = order /\ now t' = now t /\ tick s' = tick s /\
    due_now s' < due_now s /\
    (forall log' x, spec_tick cb order (s', u') log' x -> spec_tick cb order (s, u) (timer :: log') x).
Proof.
  intros H Ho. unfold slot_step. pose proof (current_slot _ _ _ H) as Ew.
  rewrite (bind_eq _ _ _ Ew). destruct (filter (fun p => p.2 = tick s) (due s)) as [|p r] eqn:Ef.
  { left. split; [done|]. intros q Hq E. apply not_elem_of_nil with q. rewrite <- Ef.
    by apply list_elem_of_filter. }
  right. rewrite fmap_cons in Ew |- *. destruct (extract_ok _ _ _ _ H Ew) as (l1 & l2 & Ed & Hl1 & H1).
  destruct (cb u p.1) as [u' acts] eqn:Ecb. pose proof (Hcb u p.1) as Hv. rewrite Ecb in Hv.
  destruct (do_actions_ok _ acts _ _ H1) as (t2 & E2 & H2 & Er & En); [by simpl; rewrite Ho|].
  simpl in Er, En. rewrite (bind_eq _ _ _ E2).
  destruct (spec_actions_due order acts (Spec (tick s) (l1 ++ l2))) as [Et Hlen].
  { rewrite <- Ho. apply H. } { done. }
  eexists _, _, _, _. split; [done|]. simpl in H2, Et, Hlen. rewrite Ho in H2.
  split; [by apply discount_ok|]. split_and!; [simpl; congruence|done|done| |].
  - unfold due_now. rewrite Et, Ed. rewrite filter_app in Hlen |- *. rewrite filter_cons_True by done.
    rewrite length_app in Hlen |- *. simpl. lia.
  - intros log' x Hx. eapply tick_fire; [exact Ed|exact Hl1|]. by rewrite Ecb.
Qed.

(** The inner loop ends, and is one tick of the specification. *)
Lemma slot_loop_ok t s u log : implements 0 t s -> res_order t = order ->
  exists t' s' u' log', while (slot_step cb) (t, u, log) = Some (t', u', log ++ log') /\
    implements 0 t' s' /\ res_order t' = order /\ now t' = now t /\ tick s' = tick s /\
    (forall p, p ∈ due s' -> p.2 <> tick s') /\
    spec_tick cb order (s, u) log' (Spec (tick s + 1) (due s'), u').
Proof.
  intros H Ho.
  destruct (while_ok (slot_step cb)
    (fun x => exists s' log', x.2 = log ++ log' /\ implements 0 x.1.1 s' /\ res_order x.1.1 = order /\
       now x.1.1 = now t /\ tick s' = tick s /\
       (forall log2 y, spec_tick cb order (s', x.1.2) log2 y -> spec_tick cb order (s, u) (log' ++ log2) y))
    (fun x => exists s' log', x.2 = log ++ log' /\ implements 0 x.1.1 s' /\ res_order x.1.1 = order /\
       now x.1.1 = now t /\ tick s' = tick s /\ (forall p, p ∈ due s' -> p.2 <> tick s') /\
       spec_tick cb order (s, u) log' (Spec (tick s + 1) (due s'), x.1.2))
    (fun x => match wheel x.1.1 !! Z.to_nat (current x.1.1) with Some l => Z.of_nat (length l) | None => 0 end)
    (t, u, log)) as ([[t' u'] l'] & E & s' & log' & El & Hr).
  - intros [[t1 u1] lg] (s1 & log1 & El & H1 & Ho1 & En & Et & Hsp). simpl in *.
    destruct (slot_step_ok t1 s1 u1 lg H1 Ho1) as [[E Hno]|(t2 & s2 & u2 & tm & E & H2 & Ho2 & En2 & Et2 & Hd & Hs)];
      (eexists; split; [exact E|]).
    + exists s1, log1. split_and!; try done. rewrite <- Et. replace log1 with (log1 ++ []) by apply app_nil_r.
      apply Hsp. by apply tick_done.
    + split.
      * exists s2, (log1 ++ [tm]). simpl. split_and!; try congruence; [by rewrite El, app_assoc|].
        intros log2 y Hy. rewrite <- app_assoc. by apply Hsp, Hs.
      * simpl. rewrite (current_slot _ _ _ H1), (current_slot _ _ _ H2), !length_fmap. unfold due_now in Hd. lia.
  - exists s, []. rewrite app_nil_r. by split_and!.
  - simpl. rewrite (current_slot _ _ _ H), length_fmap. by apply (due_now_range 0 t).
  - exists t', s', u', log'. simpl in *. subst l'. tauto.
Qed.

Lemma advance_ok t s : implements 0 t s -> (forall p, p ∈ due s -> p.2 <> tick s) ->
  implements 0 (set_current t (u64 (current t + 1) mod num_slots t)) (Spec (tick s + 1) (due s)).
Proof.
  intros H Hno. pose proof (im_tick _ _ _ H). pose proof (slot_ok 0 t s 1 H ltac:(lia)) as E.
  rewrite (im_slots _ _ _ H) in E. simpl in E. destruct H as [H1 H2 H3 H4 H5 H6 H7 H8 H9 Ha H10 H11].
  constructor; try done; simpl.
  - lia.
  - by rewrite H3.
  - intros p Hp. specialize (H8 p Hp). specialize (Hno p Hp). lia.
Qed.

(** The outer loop advances [n] ticks. *)
Lemma sweep_loop_ok (n : nat) t s u : implements 0 t s -> res_order t = order -> (n <= 1023)%nat ->
  exists t' s' u' log, while (sweep_step cb ((tick s + Z.of_nat n) mod 1024)) (t, u, []) = Some (t', u', log) /\
    implements 0 t' s' /\ res_order t' = order /\ now t' = now t /\ tick s' = tick s + Z.of_nat n /\
    spec_ticks cb order n (s, u) log (s', u').
Proof.
  intros H Ho Hn. set (slot := (tick s + Z.of_nat n) mod 1024).
  destruct (while_ok (sweep_step cb slot)
    (fun x => exists s' (m : nat), (m <= n)%nat /\ implements 0 x.1.1 s' /\ res_order x.1.1 = order /\ now x.1.1 = now t /\
       tick s' + Z.of_nat m = tick s + Z.of_nat n /\
       (forall log2 y, spec_ticks cb order m (s', x.1.2) log2 y -> spec_ticks cb order n (s, u) (x.2 ++ log2) y))
    (fun x => exists s', implements 0 x.1.1 s' /\ res_order x.1.1 = order /\ now x.1.1 = now t /\
       tick s' = tick s + Z.of_nat n /\ spec_ticks cb order n (s, u) x.2 (s', x.1.2))
    (fun x => (slot - current x.1.1) mod 1024) (t, u, [])) as ([[t' u'] log] & E & s' & Hr).
  - intros [[t1 u1] lg] (s1 & m & Hm & H1 & Ho1 & En & Et & Hsp). simpl in *.
    assert ((slot - current t1) mod 1024 = Z.of_nat m) as Hmu.
    { unfold slot. rewrite (im_current _ _ _ H1), <- Et, <- Zminus_mod.
      replace (tick s1 + Z.of_nat m - tick s1) with (Z.of_nat m) by lia. apply Z.mod_small. lia. }
    unfold sweep_step. destruct (Z.eqb_spec (current t1) slot) as [Ec|Ec].
    + eexists. split; [done|]. simpl. assert (m = 0)%nat as ->.
      { rewrite Ec, Z.sub_diag in Hmu. change (0 mod 1024) with 0 in Hmu. lia. }
      exists s1. split_and!; try done; [lia|].
      rewrite <- (app_nil_r lg). apply Hsp, ticks_done.
    + destruct m as [|m].
      { exfalso. apply Ec. rewrite (im_current _ _ _ H1). unfold slot. rewrite <- Et. f_equal. lia. }
      destruct (slot_loop_ok t1 s1 u1 lg H1 Ho1) as (t2 & s2 & u2 & log2 & E2 & H2 & Ho2 & En2 & Et2 & Hno & Hs).
      rewrite (bind_eq _ _ _ E2). eexists. split; [done|].
      pose proof (advance_ok t2 s2 H2 Hno) as H3. split.
      * exists (Spec (tick s2 + 1) (due s2)), m. simpl. split_and!; try first [done|congruence|lia].
        intros log3 y Hy. rewrite <- app_assoc. apply Hsp. eapply ticks_step; [exact Hs|]. by rewrite <- Et2.
      * cbn [fst snd]. rewrite (im_current _ _ _ H3), Hmu. cbn [tick]. unfold slot. rewrite <- Et, <- Zminus_mod, Et2.
        replace (tick s1 + Z.of_nat (S m) - (tick s1 + 1)) with (Z.of_nat m) by lia.
        rewrite Z.mod_small by lia. lia.
  - exists s, n. by split_and!.
  - simpl. pose proof (Z.mod_pos_bound (slot - current t) 1024). lia.
  - exists t', s', u', log. tauto.
Qed.

Lemma implements_set_now k t s x : implements k t s -> implements k (set_now t x) s.
Proof. by intros []. Qed.

Lemma ticks_bound d : 0 <= order -> 0 <= d -> 0 <= ticks order d <= 1023.
Proof. intros Ho Hd. unfold ticks. assert (0 <= Z.shiftr d order) by (by apply Z.shiftr_nonneg). lia. Qed.

(** A sweep is a number of ticks of the specification. *)
Lemma sweep_ok t s u current_time : implements 0 t s -> res_order t = order ->
  exists t' s' u' log, ucs_twheel_sweep cb t current_time u = Some (t', u', log) /\
    implements 0 t' s' /\ res_order t' = order /\
    tick s' = tick s + ticks order (u64 (current_time - now t)) /\
    now t' = (if res t <=? u64 (current_time - now t) then current_time else now t) /\
    spec_ticks cb order (Z.to_nat (ticks order (u64 (current_time - now t)))) (s, u) log (s', u').
Proof.
  intros H Ho. unfold ucs_twheel_sweep. set (d := u64 (current_time - now t)).
  pose proof (u_wrap_range 64 (current_time - now t) ltac:(lia)) as Hd. fold d in Hd.
  destruct (im_order _ _ _ H) as [Ho1 _]. rewrite Ho in Ho1. pose proof (ticks_bound d Ho1 (proj1 Hd)) as Ht.
  destruct (Z.leb_spec (res t) d) as [Hle|Hlt].
  - unfold __ucs_twheel_sweep. fold d. pose proof (implements_set_now 0 t s current_time H) as H1.
    rewrite (slot_ok 0 (set_now t current_time) s); [|done|apply Z.shiftr_nonneg, Hd].
    rewrite Ho.
    change (Z.min (Z.shiftr d order) 1023) with (ticks order d).
    destruct (sweep_loop_ok (Z.to_nat (ticks order d)) (set_now t current_time) s u H1 Ho) as (t' & s' & u' & log & E & H2 & Ho2 & En & Et & Hs).
    { lia. }
    rewrite Z2Nat.id in E, Et by lia. exists t', s', u', log. by split_and!.
  - assert (ticks order d = 0) as ->.
    { unfold ticks. rewrite Z.shiftr_div_pow2 by done. rewrite (im_res _ _ _ H), Ho in Hlt.
      rewrite Z.div_small by lia. done. }
    exists t, s, u, []. split_and!; try done; [lia|]. apply ticks_done.
Qed.
End SweepProofs.

Lemma twheel_init_ok resolution time t : 1 <= resolution <= 2 ^ 63 ->
  ucs_twheel_init resolution time true ∅ = Some (Some t) -> implements 0 t (Spec 0 []) /\ now t = time /\ resolution <= res t.
Proof.
  intros Hr. unfold ucs_twheel_init. destruct (Bits.roundup_pow2_ok resolution Hr) as (j & Hj & E & Hle).
  rewrite (bind_eq _ _ _ E). intros H%(inj Some)%(inj Some). subst t. split; [|split; [done|simpl; lia]].
  rewrite Z.log2_pow2 by lia. constructor; try done; cbn [wheel].
  - intros i Hi. apply lookup_replicate_2. lia.
  - intros p Hp%not_elem_of_nil. done.
  - apply NoDup_nil_2.
  - intros p Hp%not_elem_of_nil. done.
  - intros x. simpl. rewrite elem_of_empty, elem_of_nil. done.
Qed.

Lemma twheel_run_ok {U} (cb : U -> Z -> U * list action) order ops t s u :
  implements 0 t s -> res_order t = order -> valid_cb order cb -> Forall (valid_op order) ops ->
  exists rs t' u' s', run cb t u ops = Some (rs, t', u') /\ implements 0 t' s' /\
    spec_run cb order (s, now t, u) ops rs (s', now t', u').
Proof.
  intros H Ho Hcb. revert t s u H Ho. induction ops as [|o ops IH]; intros t s u H Ho Hv.
  { exists [], t, u, s. split_and!; [done|done|apply spec_run_nil]. }
  inversion_clear Hv as [|? ? Hvo Hv']. cbn [run].
  assert (exists r t1 u1 s1, do_op cb t u o = Some (r, t1, u1) /\ implements 0 t1 s1 /\ res_order t1 = order /\
    spec_op cb order (s, now t, u) o r (s1, now t1, u1)) as (r & t1 & u1 & s1 & E & H1 & Ho1 & Hs1).
  { destruct o as [timer delta|timer|c]; simpl.
    - rewrite <- Ho in Hvo. destruct Hvo as [Hv1 Hv2], (wtimer_add_ok 0 t s timer delta H Hv1 Hv2) as (t1 & E & H1 & Er & En).
      rewrite (bind_eq _ _ _ E). eexists _, _, _, _. split_and!; [done|done|congruence|].
      rewrite Ho, En. apply spec_op_add.
    - destruct (wtimer_remove_ok 0 t s timer H) as (H1 & Er & En). eexists _, _, _, _.
      split_and!; [done|done|congruence|]. rewrite En. apply spec_op_remove.
    - destruct (sweep_ok cb order Hcb t s u c H Ho) as (t1 & s1 & u1 & log & E & H1 & Ho1 & Et & En & Hs).
      rewrite (bind_eq _ _ _ E). eexists _, _, _, _. split_and!; [done|done|done|].
      rewrite En, (im_res _ _ _ H), Ho. by apply spec_op_sweep. }
  rewrite (bind_eq _ _ _ E). destruct (IH t1 s1 u1 H1 Ho1 Hv') as (rs & t' & u' & s' & E' & H' & Hs').
  rewrite (bind_eq _ _ _ E'). exists (r :: rs), t', u', s'. split_and!; [done|done|].
  by eapply spec_run_cons.
Qed.

Lemma sweeps_total {U} (cb : U -> Z -> U * list action) order times t s u :
  valid_cb order cb -> implements 0 t s -> res_order t = order ->
  exists logs t' u', sweeps cb t u times = Some (logs, t', u').
Proof.
  intros Hcb. revert t s u. induction times as [|c times IH]; intros t s u H Ho; [by eexists _, _, _|].
  cbn [sweeps]. destruct (sweep_ok cb order Hcb t s u c H Ho) as (t1 & s1 & u1 & log & E & H1 & Ho1 & _).
  rewrite (bind_eq _ _ _ E). destruct (IH t1 s1 u1 H1 Ho1) as (? & ? & ? & E2).
  rewrite (bind_eq _ _ _ E2). by eexists _, _, _.
Qed.

(** [k] sweeps, [step] apart. *)
Fixpoint every (step start : Z) (k : nat) : list Z :=
  match k with O => [] | S k => (start + step) :: every step (start + step) k end.

(** ** An armed timer

    The specification dispatches a timer at the tick it is due, and keeps it
    until then. *)

Definition armed (s : spec) (x e : Z) : Prop := NoDup (due s).*1 /\ (x, e) ∈ due s.

Lemma armed_actions order acts s x e : armed s x e -> Remove x ∉ acts -> armed (foldl (spec_action order) s acts) x e.
Proof.
  revert s. induction acts as [|a acts IH]; intros s [Hnd Hin] Hr; [done|].
  apply not_elem_of_cons in Hr as [Ha Hr]. cbn [foldl]. apply IH; [|done].
  destruct a as [timer delta|timer]; simpl.
  - unfold spec_add. case_bool_decide as Hb; [done|]. split; simpl.
    + rewrite fmap_app. apply NoDup_app. split_and!; [done| |apply NoDup_singleton].
      intros y Hy Hy2. by apply list_elem_of_singleton in Hy2 as ->.
    + apply elem_of_app. by left.
  - split; [by apply NoDup_filter_fmap|]. apply list_elem_of_filter. split; [|done]. simpl. congruence.
Qed.

Section Armed.
Context {U : Type} (cb : U -> Z -> U * list action) (order x e : Z).
Hypothesis Hnr : never_removes cb x.

Lemma armed_tick a log b : spec_tick cb order a log b -> armed a.1 x e ->
  (x ∉ log /\ armed b.1 x e /\ e <> tick a.1) \/ (x ∈ log /\ e = tick a.1).
Proof.
  induction 1 as [s u Hno|s u timer l1 l2 log b Ed Hl1 Hsp IH]; intros [Hnd Hin]; simpl in *.
  - left. split_and!; [by intros ?%not_elem_of_nil|done|by apply (Hno (x, e))].
  - destruct (decide (timer = x)) as [->|Hne].
    + right. split; [by left|].
      assert ((x, tick s) ∈ due s) as Hin2 by (rewrite Ed; apply elem_of_app; right; by left).
      by injection (NoDup_fmap_inj fst (due s) (x, e) (x, tick s) Hnd Hin Hin2 eq_refl).
    + assert (armed (Spec (tick s) (l1 ++ l2)) x e) as Ha.
      { rewrite Ed in Hnd, Hin. split; simpl.
        - rewrite fmap_app, fmap_cons in Hnd. rewrite fmap_app.
          by apply NoDup_app in Hnd as (H1 & H2 & [_ H3]%NoDup_cons); apply NoDup_app; split_and!;
            [done|intros y Hy Hy2; apply (H2 y Hy); by right|done].
        - apply elem_of_app in Hin as [?|[?|?]%elem_of_cons]; apply elem_of_app; [by left|congruence|by right]. }
      destruct (IH (armed_actions order _ _ x e Ha (Hnr u timer))) as [(H1 & H2 & H3)|[H1 H2]];
        rewrite spec_actions_tick in *; simpl in *.
      * left. split_and!; [|done|done]. by apply not_elem_of_cons.
      * right. split; [by right|done].
Qed.

Lemma spec_tick_next a log b : spec_tick cb order a log b -> tick b.1 = tick a.1 + 1.
Proof. induction 1 as [|s u timer l1 l2 log b Ed Hl1 Hsp IH]; [done|]. by rewrite IH; simpl; rewrite spec_actions_tick. Qed.

Lemma armed_ticks n a log b : spec_ticks cb order n a log b -> armed a.1 x e -> tick a.1 <= e ->
  (x ∉ log /\ armed b.1 x e /\ tick a.1 + Z.of_nat n <= e) \/ (x ∈ log /\ e < tick a.1 + Z.of_nat n).
Proof.
  induction 1 as [a|n a log1 b log2 c H1 H2 IH]; intros Ha He.
  - left. split_and!; [by intros ?%not_elem_of_nil|done|lia].
  - rewrite elem_of_app. pose proof (spec_tick_next _ _ _ H1) as Et.
    destruct (armed_tick _ _ _ H1 Ha) as [(Hx & Hb & Hne)|[Hx Heq]]; [|right; split; [by left|lia]].
    destruct (IH Hb ltac:(lia)) as [(Hx2 & Hc & Hle)|[Hx2 Hlt]]; [left|right].
    + split_and!; [tauto|done|lia].
    + split; [by right|lia].
Qed.

(** One sweep of the wheel, for an armed timer: either it is dispatched, or it
    stays armed for the same tick. *)
Lemma sweep_armed t s u c : valid_cb order cb -> implements 0 t s -> res_order t = order -> (x, e) ∈ due s ->
  exists t' s' u' log, ucs_twheel_sweep cb t c u = Some (t', u', log) /\
    implements 0 t' s' /\ res_order t' = order /\
    tick s' = tick s + ticks order (u64 (c - now t)) /\
    now t' = (if 2 ^ order <=? u64 (c - now t) then c else now t) /\
    ((x ∉ log /\ (x, e) ∈ due s' /\ tick s' <= e) \/ (x ∈ log /\ e < tick s')).
Proof.
  intros Hcb H Ho Hin. destruct (sweep_ok cb order Hcb t s u c H Ho) as (t' & s' & u' & log & E & H' & Ho' & Et & En & Hs).
  exists t', s', u', log. rewrite (im_res _ _ _ H), Ho in En. split_and!; try done.
  pose proof (ticks_bound order (u64 (c - now t)) ltac:(rewrite <- Ho; apply H) ltac:(by apply u_wrap_range)) as Hb.
  pose proof (im_range _ _ _ H _ Hin) as Hr. cbn [snd] in Hr.
  destruct (armed_ticks _ _ _ _ Hs) as [(Hx & [_ Ha] & Hle)|[Hx Hlt]]; cbn [fst] in *.
  - split; [apply H|done].
  - lia.
  - left. split_and!; [done|done|]. rewrite Z2Nat.id in Hle by lia. lia.
  - right. split; [done|]. rewrite Z2Nat.id in Hlt by lia. lia.
Qed.

Lemma ticks_time c n : 0 <= order -> 0 <= n <= c -> c < 2 ^ 64 -> ticks order (u64 (c - n)) * 2 ^ order <= c - n.
Proof.
  intros Ho Hc Hc2. rewrite u_wrap_small by lia. unfold ticks. rewrite Z.shiftr_div_pow2 by done.
  assert (0 < 2 ^ order) by lia. pose proof (Z.mul_div_le (c - n) (2 ^ order) ltac:(lia)). nia.
Qed.

(** The first dispatch of an armed timer happens after its tick is over. *)
Lemma armed_never_early times : forall t s u i logs t' u' c, valid_cb order cb -> implements 0 t s -> res_order t = order ->
  (x, e) ∈ due s -> 0 <= now t -> StronglySorted Z.le (now t :: times) -> Forall (fun c => c < 2 ^ 64) times ->
  sweeps cb t u times = Some (logs, t', u') -> times !! i = Some c ->
  (exists l, logs !! i = Some l /\ x ∈ l) -> (forall j l, (j < i)%nat -> logs !! j = Some l -> x ∉ l) ->
  (e - tick s + 1) * 2 ^ order <= c - now t.
Proof.
  induction times as [|c0 times IH]; intros t s u i logs t' u' c Hcb H Ho Hin H0 Hso Hlt Hsw Hc (l & Hl & Hx) Hfirst; [done|].
  inversion_clear Hlt as [|? ? Hc0 Hlt']. inversion_clear Hso as [|? ? Hso' Hall].
  inversion_clear Hall as [|? ? Hle Hall']. cbn [sweeps] in Hsw.
  destruct (sweep_armed t s u c0 Hcb H Ho Hin) as (t1 & s1 & u1 & log & E & H1 & Ho1 & Et & En & Hcase).
  assert (0 <= order) as Ho0 by (rewrite <- Ho; apply H).
  rewrite (bind_eq _ _ _ E) in Hsw. destruct (sweeps cb t1 u1 times) as [[[logs1 t2] u2]|] eqn:Es; [|done].
  apply (inj Some) in Hsw. injection Hsw as <- -> ->.
  pose proof (ticks_time c0 (now t) Ho0 ltac:(lia) Hc0) as Htm. rewrite u_wrap_small in En by lia.
  destruct i as [|i]; simpl in Hc, Hl.
  - injection Hl as ->. injection Hc as ->. destruct Hcase as [[? _]|[_ Hd]]; [done|]. nia.
  - destruct Hcase as [(Hnx & Hin1 & Hle1)|[Hx1 _]]; [|by destruct (Hfirst 0%nat log ltac:(lia) eq_refl)].
    assert (0 <= now t1 /\ now t <= now t1 <= c0 /\ (tick s1 - tick s) * 2 ^ order <= now t1 - now t) as (Hn0 & Hn1 & Hn2).
    { rewrite Et. destruct (Z.leb_spec (2 ^ order) (c0 - now t)); rewrite En; [lia|].
      rewrite u_wrap_small by lia. unfold ticks. rewrite Z.shiftr_div_pow2, Z.div_small by lia. lia. }
    assert (StronglySorted Z.le (now t1 :: times)) as Hs1.
    { inversion_clear Hso' as [|? ? Hs Ha]. constructor; [done|]. eapply Forall_impl; [exact Ha|]. simpl. lia. }
    specialize (IH t1 s1 u1 i logs1 t' u' c Hcb H1 Ho1 Hin1 Hn0 Hs1 Hlt' Es Hc (ex_intro _ l (conj Hl Hx))).
    assert ((e - tick s1 + 1) * 2 ^ order <= c - now t1); [|nia].
    apply IH. intros j l' Hj Hl'. apply (Hfirst (S j) l'); [lia|done].
Qed.

(** A timer stays armed while the ticks of the sweeps do not exceed its own. *)
Lemma armed_fires times : forall t s u, valid_cb order cb -> implements 0 t s -> res_order t = order ->
  (x, e) ∈ due s -> 0 <= now t -> Forall (fun c => c < 2 ^ 64) times ->
  (forall i a b, (now t :: times) !! i = Some a -> times !! i = Some b -> a + 2 ^ order <= b) ->
  exists logs t' u', sweeps cb t u times = Some (logs, t', u') /\
    (e - tick s < Z.of_nat (length times) -> exists l, l ∈ logs /\ x ∈ l).
Proof.
  induction times as [|c times IH]; intros t s u Hcb H Ho Hin H0 Hlt Hgap.
  { exists [], t, u. split; [done|]. pose proof (im_range _ _ _ H _ Hin). simpl in *. lia. }
  inversion_clear Hlt as [|? ? Hc Hlt']. cbn [sweeps].
  destruct (sweep_armed t s u c Hcb H Ho Hin) as (t1 & s1 & u1 & log & E & H1 & Ho1 & Et & En & Hcase).
  rewrite (bind_eq _ _ _ E). pose proof (Hgap 0%nat (now t) c eq_refl eq_refl) as Hg.
  assert (0 <= order) as Ho0 by (rewrite <- Ho; apply H).
  assert (0 < 2 ^ order) by lia. rewrite u_wrap_small in En, Et by lia.
  rewrite (proj2 (Z.leb_le _ _)) in En by lia.
  assert (tick s + 1 <= tick s1).
  { rewrite Et. unfold ticks. rewrite Z.shiftr_div_pow2 by lia.
    assert (1 <= (c - now t) / 2 ^ order) by (apply Z.div_le_lower_bound; lia). lia. }
  destruct Hcase as [(Hnx & Hin1 & Hle1)|[Hx1 Hlt1]].
  - destruct (IH t1 s1 u1 Hcb H1 Ho1 Hin1) as (logs & t' & u' & E' & Hf); [lia|done| |].
    { rewrite En. intros i a b Ha Hb. apply (Hgap (S i)); done. }
    rewrite (bind_eq _ _ _ E'). exists (log :: logs), t', u'. split; [done|]. simpl. intros Hl.
    destruct Hf as (l & Hl1 & Hl2); [lia|]. exists l. split; [by right|done].
  - destruct (sweeps_total cb order times t1 s1 u1 Hcb H1 Ho1) as (logs & t' & u' & E').
    rewrite (bind_eq _ _ _ E'). exists (log :: logs), t', u'. split; [done|]. intros _. exists log. split; [by left|done].
Qed.

(** Sweeps less than two ticks apart advance the wheel by one tick each. *)
Lemma armed_drift (k : nat) : forall t s u, valid_cb order cb -> implements 0 t s -> res_order t = order ->
  (x, e) ∈ due s -> 0 <= now t -> now t + (2 * 2 ^ order - 1) * Z.of_nat k < 2 ^ 64 -> tick s + Z.of_nat k <= e ->
  exists logs t' u', sweeps cb t u (every (2 * 2 ^ order - 1) (now t) k) = Some (logs, t', u') /\
    (forall l, l ∈ logs -> x ∉ l) /\ now t' = now t + (2 * 2 ^ order - 1) * Z.of_nat k.
Proof.
  induction k as [|k IH]; intros t s u Hcb H Ho Hin H0 Hlt He.
  { exists [], t, u. split_and!; [done|by intros l ?%not_elem_of_nil|lia]. }
  cbn [every sweeps]. set (c := now t + (2 * 2 ^ order - 1)).
  assert (0 <= order) as Ho0 by (rewrite <- Ho; apply H). assert (0 < 2 ^ order) as Hpos by lia.
  destruct (sweep_armed t s u c Hcb H Ho Hin) as (t1 & s1 & u1 & log & E & H1 & Ho1 & Et & En & Hcase).
  rewrite u_wrap_small in En, Et by (unfold c; nia).
  rewrite (proj2 (Z.leb_le _ _)) in En by (unfold c; nia).
  assert (tick s1 = tick s + 1) as Et1.
  { rewrite Et. unfold ticks. rewrite Z.shiftr_div_pow2 by lia.
    rewrite <- (Z.div_unique (c - now t) (2 ^ order) 1 (2 ^ order - 1)) by (unfold c; lia). lia. }
  destruct Hcase as [(Hnx & Hin1 & Hle1)|[Hx1 Hlt1]]; [|lia].
  rewrite (bind_eq _ _ _ E).
  destruct (IH t1 s1 u1 Hcb H1 Ho1 Hin1) as (logs & t' & u' & E' & Hf & En'); [unfold c in *; lia|unfold c in *; lia|lia|].
  rewrite <- En, (bind_eq _ _ _ E'). exists (log :: logs), t', u'. split_and!; [done| |unfold c in *; lia].
  intros l [->|Hl]%elem_of_cons; [done|by apply Hf].
Qed.
End Armed.

(** A wheel of resolution 4 at time 0, and the same with the timer 1 armed for 20. *)
Definition small_wheel : ucs_twheel_t := Twheel 4 0 0 (replicate 1024 []) 2 1024 0 ∅.
Definition small_wheel_1 : ucs_twheel_t :=
  Twheel 4 0 0 (<[5%nat := [1]]> (replicate 1024 [])) 2 1024 1 {[1]}.
Definition quiet (u : unit) (timer : Z) : unit * list action := (u, []).

Lemma small_wheel_init : ucs_twheel_init 3 0 true ∅ = Some (Some small_wheel).
Proof. reflexivity. Qed.

Lemma small_wheel_ok : implements 0 small_wheel (Spec 0 []).
Proof. apply (twheel_init_ok 3 0); [lia|apply small_wheel_init]. Qed.

Lemma small_wheel_add : ucs_wtimer_add small_wheel 1 20 = Some (UCS_OK, small_wheel_1).
Proof. vm_compute. reflexivity. Qed.

Lemma small_wheel_sweeps : exists t', sweeps quiet small_wheel_1 tt [11; 27] = Some ([[]; [1]], t', tt).
Proof. eexists. vm_compute. reflexivity. Qed.

Lemma quiet_valid order : valid_cb order quiet.
Proof. intros u timer. apply Forall_nil_2. Qed.

Lemma quiet_never_removes x : never_removes quiet x.
Proof. intros u timer. apply not_elem_of_nil. Qed.

Lemma every_length step start k : length (every step start k) = k.
Proof. revert start. induction k; simpl; auto. Qed.

Lemma every_bound step start k b : 0 <= step -> start + step * Z.of_nat k < b -> Forall (fun c => c < b) (every step start k).
Proof.
  intros Hs. revert start. induction k as [|k IH]; intros start Hb; [apply Forall_nil_2|].
  constructor; [nia|]. apply IH. lia.
Qed.

Lemma every_gap step k : forall start i a b, (start :: every step start k) !! i = Some a -> every step start k !! i = Some b ->
  a + step <= b.
Proof.
  induction k as [|k IH]; intros start i a b Ha Hb; [done|]. destruct i as [|i]; simpl in *.
  - simplify_eq. lia.
  - by apply (IH (start + step) i).
Qed.

(** ** Properties *)

(** The state after arming a timer. *)
Lemma armed_after_add t s timer delta t1 : implements 0 t s -> 0 < timer < 2 ^ 64 -> valid_delta (res_order t) delta ->
  ucs_wtimer_add t timer delta = Some (UCS_OK, t1) ->
  exists s1, implements 0 t1 s1 /\ res_order t1 = res_order t /\ now t1 = now t /\ tick s1 = tick s /\
    (timer, tick s + ticks (res_order t) delta) ∈ due s1.
Proof.
  intros H Hx Hd E. destruct (wtimer_add_ok 0 t s timer delta H Hx Hd) as (t2 & E2 & H2 & Er & En).
  rewrite E in E2. apply (inj Some) in E2. injection E2 as Est <-. unfold spec_add in Est, H2.
  case_bool_decide; [done|]. eexists. split_and!; [exact H2|done|done|done|]. simpl.
  apply elem_of_app. right. by apply list_elem_of_singleton.
Qed.

(** C27: The timer wheel implements its specification.  From an initialized
    wheel, every sequence of calls which arm and cancel timers and sweep the
    wheel, with callbacks that arm and cancel any timers, terminates without a
    failed assertion and with the results of the specification: a sweep
    advances the clock by the ticks of the time since the last sweep, and
    dispatches tick after tick the timers that are due, each of them once. *)
Theorem twheel_refines {U} (cb : U -> Z -> U * list action) resolution time t u ops :
  1 <= resolution <= 2 ^ 63 -> ucs_twheel_init resolution time true ∅ = Some (Some t) ->
  valid_cb (res_order t) cb -> Forall (valid_op (res_order t)) ops ->
  exists rs t' u' s', run cb t u ops = Some (rs, t', u') /\ implements 0 t' s' /\
    spec_run cb (res_order t) (Spec 0 [], time, u) ops rs (s', now t', u').
Proof.
  intros Hr Hi Hcb Hops. destruct (twheel_init_ok _ _ _ Hr Hi) as (H & <- & _). by apply twheel_run_ok.
Qed.

Lemma twheel_refines_witness : exists rs t' u' s',
  run quiet small_wheel tt [OpAdd 1 20; OpAdd 1 8; OpAdd 2 4; OpRemove 2; OpSweep 30] = Some (rs, t', u') /\
  implements 0 t' s' /\
  spec_run quiet 2 (Spec 0 [], 0, tt) [OpAdd 1 20; OpAdd 1 8; OpAdd 2 4; OpRemove 2; OpSweep 30] rs (s', now t', u').
Proof.
  apply (twheel_refines quiet 3 0 small_wheel tt); [lia|apply small_wheel_init|apply quiet_valid|].
  repeat constructor; simpl; unfold valid_delta; simpl; lia.
Defined.

(** A timer of the wheel is never dispatched early.  When it is armed with a
    delay that the wheel can hold, and is not cancelled, then the sweep that first
    dispatches it is at a time more than the delay after the time of the wheel. *)
Theorem twheel_never_early {U} (cb : U -> Z -> U * list action) t s u timer delta t1 times logs t' u' i c :
  implements 0 t s -> valid_cb (res_order t) cb -> never_removes cb timer -> 0 < timer < 2 ^ 64 ->
  2 ^ res_order t <= delta < 1024 * 2 ^ res_order t -> delta < 2 ^ 64 ->
  ucs_wtimer_add t timer delta = Some (UCS_OK, t1) ->
  0 <= now t -> StronglySorted Z.le (now t :: times) -> Forall (fun c => c < 2 ^ 64) times ->
  sweeps cb t1 u times = Some (logs, t', u') -> times !! i = Some c ->
  (exists l, logs !! i = Some l /\ timer ∈ l) -> (forall j l, (j < i)%nat -> logs !! j = Some l -> timer ∉ l) ->
  delta < c - now t.
Proof.
  intros H Hcb Hnr Hx Hd Hd2 Hadd H0 Hso Hlt Hsw Hc Hl Hfirst.
  destruct (armed_after_add t s timer delta t1 H Hx) as (s1 & H1 & Er & En & Et & Hin); [split; lia|done|].
  rewrite <- En in H0, Hso |- *. rewrite <- Er in Hcb.
  pose proof (armed_never_early cb _ timer _ Hnr times t1 s1 u i logs t' u' c Hcb H1 eq_refl Hin H0 Hso Hlt Hsw Hc Hl Hfirst) as Hk.
  destruct (im_order _ _ _ H) as [Ho _]. unfold ticks in Hk. rewrite Z.shiftr_div_pow2, Er, Et in Hk by done.
  assert (delta / 2 ^ res_order t <= 1023) by (apply Z.lt_succ_r, Z.div_lt_upper_bound; lia).
  pose proof (Z.mul_succ_div_gt delta (2 ^ res_order t) ltac:(lia)). nia.
Qed.

Lemma twheel_never_early_witness : 20 < 27 - now small_wheel.
Proof.
  destruct small_wheel_sweeps as [t' E].
  apply (twheel_never_early quiet small_wheel (Spec 0 []) tt 1 20 small_wheel_1 [11; 27] [[]; [1]] t' tt 1 27);
    [apply small_wheel_ok|apply quiet_valid|apply quiet_never_removes|lia|simpl; lia|lia|apply small_wheel_add|
     simpl; lia| | |exact E|done| |].
  - simpl. repeat constructor; lia.
  - repeat constructor; lia.
  - exists [1]. split; [done|by left].
  - intros j l Hj Hl. assert (j = 0%nat) as -> by lia. injection Hl as <-. apply not_elem_of_nil.
Defined.

(** C31: A timer of the wheel is dispatched.  An armed timer that is not cancelled
    is dispatched by one of 1024 sweeps, each of them at least the resolution
    after the one before. *)
Theorem twheel_fires {U} (cb : U -> Z -> U * list action) t s u timer delta t1 times :
  implements 0 t s -> valid_cb (res_order t) cb -> never_removes cb timer -> 0 < timer < 2 ^ 64 ->
  valid_delta (res_order t) delta -> ucs_wtimer_add t timer delta = Some (UCS_OK, t1) ->
  0 <= now t -> Forall (fun c => c < 2 ^ 64) times -> length times = 1024%nat ->
  (forall i a b, (now t :: times) !! i = Some a -> times !! i = Some b -> a + res t <= b) ->
  exists logs t' u', sweeps cb t1 u times = Some (logs, t', u') /\ exists l, l ∈ logs /\ timer ∈ l.
Proof.
  intros H Hcb Hnr Hx Hd Hadd H0 Hlt Hlen Hgap.
  destruct (armed_after_add t s timer delta t1 H Hx Hd Hadd) as (s1 & H1 & Er & En & Et & Hin).
  rewrite (im_res _ _ _ H) in Hgap. rewrite <- En in H0, Hgap. rewrite <- Er in Hcb, Hgap.
  destruct (armed_fires cb _ timer _ Hnr times t1 s1 u Hcb H1 eq_refl Hin H0 Hlt Hgap) as (logs & t' & u' & E & Hf).
  exists logs, t', u'. split; [done|]. apply Hf. rewrite Hlen.
  pose proof (ticks_range _ _ (proj1 (im_order _ _ _ H)) Hd). lia.
Qed.

Lemma twheel_fires_witness : exists logs t' u', sweeps quiet small_wheel_1 tt (every 4 0 1024) = Some (logs, t', u') /\
  exists l, l ∈ logs /\ 1 ∈ l.
Proof.
  apply (twheel_fires quiet small_wheel (Spec 0 []) tt 1 20 small_wheel_1 (every 4 0 1024));
    [apply small_wheel_ok|apply quiet_valid|apply quiet_never_removes|lia|unfold valid_delta; simpl; lia|
     apply small_wheel_add|simpl; lia|apply every_bound; lia|apply every_length|].
  apply every_gap.
Defined.

(** The wheel drifts.  A sweep sets the time of the wheel to the current time
    but advances only whole ticks, so the rest of the time is lost.  With sweeps
    almost two ticks apart, a timer armed for [d] ticks is still not dispatched
    after [d] sweeps, when almost twice its delay has passed. *)
Theorem twheel_drift {U} (cb : U -> Z -> U * list action) t s u timer d t1 :
  implements 0 t s -> valid_cb (res_order t) cb -> never_removes cb timer -> 0 < timer < 2 ^ 64 ->
  1 <= d <= 1023 -> 0 <= now t -> now t + 2 * d * res t < 2 ^ 64 ->
  ucs_wtimer_add t timer (d * res t) = Some (UCS_OK, t1) ->
  exists logs t' u', sweeps cb t1 u (every (2 * res t - 1) (now t) (Z.to_nat d)) = Some (logs, t', u') /\
    (forall l, l ∈ logs -> timer ∉ l) /\ now t' = now t + d * res t + d * (res t - 1).
Proof.
  intros H Hcb Hnr Hx Hd H0 Hlt Hadd. pose proof (im_res _ _ _ H) as Hres. rewrite Hres in *.
  destruct (im_order _ _ _ H) as [Ho _]. assert (0 < 2 ^ res_order t) as Hpos by lia.
  assert (valid_delta (res_order t) (d * 2 ^ res_order t)) as Hv by (split; nia).
  destruct (armed_after_add t s timer _ t1 H Hx Hv Hadd) as (s1 & H1 & Er & En & Et & Hin).
  rewrite <- En, <- Er in *.
  destruct (armed_drift cb _ timer _ Hnr (Z.to_nat d) t1 s1 u Hcb H1 eq_refl Hin H0) as (logs & t' & u' & E & Hf & En').
  - nia.
  - unfold ticks. rewrite Z.shiftr_div_pow2, Z.div_mul by lia. lia.
  - exists logs, t', u'. split_and!; [done|done|]. rewrite En'. lia.
Qed.

Lemma twheel_drift_witness : exists logs t' u', sweeps quiet small_wheel_1 tt (every 7 0 5) = Some (logs, t', u') /\
  (forall l, l ∈ logs -> 1 ∉ l) /\ now t' = 35.
Proof.
  apply (twheel_drift quiet small_wheel (Spec 0 []) tt 1 5 small_wheel_1);
    [apply small_wheel_ok|apply quiet_valid|apply quiet_never_removes|lia|lia|simpl; lia|simpl; lia|apply small_wheel_add].
Defined.

End Twheel.

(** ** Timer queue *)

Module TimerQ.

Definition UCS_TIME_INFINITY : Z := 2 ^ 64 - 1.

Inductive status := UCS_OK | UCS_ERR_ALREADY_EXISTS | UCS_ERR_NO_MEMORY | UCS_ERR_NO_ELEM.

Record ucs_timer_t := Timer { expiration : Z; interval : Z; id : Z }.

(** [timers] is the array, which may be longer than [num_timers]. *)
Record ucs_timer_queue_t := TimerQueue { min_interval : Z; timers : list ucs_timer_t; num_timers : Z }.

Definition ucs_timerq_init : ucs_timer_queue_t := TimerQueue UCS_TIME_INFINITY [] 0.

(** [realloc_ok] tells if the array can be resized. *)
Definition ucs_timerq_add (q : ucs_timer_queue_t) (timer_id itv : Z) (realloc_ok : bool) : option (status * ucs_timer_queue_t) :=
  if existsb (fun ptr => id ptr =? timer_id) (take (Z.to_nat (num_timers q)) (timers q))
  then Some (UCS_ERR_ALREADY_EXISTS, q) else
  if negb realloc_ok then Some (UCS_ERR_NO_MEMORY, q) else
  let m := Z.min itv (min_interval q) in
  if m =? UCS_TIME_INFINITY then None else
  Some (UCS_OK, TimerQueue m (take (Z.to_nat (num_timers q)) (timers q) ++ [Timer 0 itv timer_id]) (u32 (num_timers q + 1))).

(** One iteration of the loop over the array; [ptr] is an index. *)
Definition remove_step (timer_id : Z) (x : Z * ucs_timer_queue_t * status) :
    option ((Z * ucs_timer_queue_t * status) + (ucs_timer_queue_t * status)) :=
  let '(ptr, q, st) := x in
  if ptr <? num_timers q then
    e ← timers q !! Z.to_nat ptr;
    if id e =? timer_id then
      let n := num_timers q - 1 in
      l ← timers q !! Z.to_nat n;
      Some (inl (ptr, TimerQueue (min_interval q) (<[Z.to_nat ptr := l]> (timers q)) n, UCS_OK))
    else Some (inl (ptr + 1, TimerQueue (Z.min (min_interval q) (interval e)) (timers q) (num_timers q), st))
  else Some (inr (q, st)).

Definition ucs_timerq_remove (q : ucs_timer_queue_t) (timer_id : Z) : option (status * ucs_timer_queue_t) :=
  let q := TimerQueue UCS_TIME_INFINITY (timers q) (num_timers q) in
  '(q, st) ← while (remove_step timer_id) (0, q, UCS_ERR_NO_ELEM);
  if num_timers q =? 0 then
    if min_interval q =? UCS_TIME_INFINITY then Some (st, TimerQueue (min_interval q) [] 0) else None
  else if min_interval q =? UCS_TIME_INFINITY then None else Some (st, q).

Definition ucs_timerq_min_interval (q : ucs_timer_queue_t) : Z := min_interval q.
Definition ucs_timerq_size (q : ucs_timer_queue_t) : Z := num_timers q.
Definition ucs_timerq_is_empty (q : ucs_timer_queue_t) : bool := ucs_timerq_size q =? 0.

(** The loop of the macro: the timers for which its code runs, in order, and
    the array. *)
Fixpoint expired_loop (current_time : Z) (l : list ucs_timer_t) : list Z * list ucs_timer_t :=
  match l with
  | [] => ([], [])
  | t :: l =>
      let '(fired, l) := expired_loop current_time l in
      if expiration t <=? current_time
      then (id t :: fired, Timer (u64 (current_time + interval t)) (interval t) (id t) :: l)
      else (fired, t :: l)
  end.

Definition ucs_timerq_for_each_expired (q : ucs_timer_queue_t) (current_time : Z) : list Z * ucs_timer_queue_t :=
  let n := Z.to_nat (num_timers q) in
  let '(fired, l) := expired_loop current_time (take n (timers q)) in
  (fired, TimerQueue (min_interval q) (l ++ drop n (timers q)) (num_timers q)).

(** ** Specification: a map from timer identifiers to intervals and expiration times *)

Inductive op := OpAdd (timer_id itv : Z) (realloc_ok : bool) | OpRemove (timer_id : Z) | OpExpired (current_time : Z).
Inductive result := RStatus (st : status) | RFired (ids : gset Z).

Definition expire (current_time : Z) (p : Z * Z) : Z * Z :=
  if p.2 <=? current_time then (p.1, u64 (current_time + p.1)) else p.

Definition spec_op (m : gmap Z (Z * Z)) (o : op) : result * gmap Z (Z * Z) :=
  match o with
  | OpAdd i itv ok =>
      match m !! i with
      | Some _ => (RStatus UCS_ERR_ALREADY_EXISTS, m)
      | None => if ok then (RStatus UCS_OK, <[i := (itv, 0)]> m) else (RStatus UCS_ERR_NO_MEMORY, m)
      end
  | OpRemove i =>
      match m !! i with Some _ => (RStatus UCS_OK, delete i m) | None => (RStatus UCS_ERR_NO_ELEM, m) end
  | OpExpired c => (RFired (dom (filter (fun p => p.2.2 <= c) m)), expire c <$> m)
  end.

Definition do_op (q : ucs_timer_queue_t) (o : op) : option (result * ucs_timer_queue_t) :=
  match o with
  | OpAdd i itv ok => '(st, q) ← ucs_timerq_add q i itv ok; Some (RStatus st, q)
  | OpRemove i => '(st, q) ← ucs_timerq_remove q i; Some (RStatus st, q)
  | OpExpired c => let '(fired, q) := ucs_timerq_for_each_expired q c in Some (RFired (list_to_set fired), q)
  end.

Definition timer_map (l : list ucs_timer_t) : gmap Z (Z * Z) :=
  list_to_map ((fun t => (id t, (interval t, expiration t))) <$> l).

Definition min_itv (l : list ucs_timer_t) : Z := foldr (fun t m => Z.min (interval t) m) UCS_TIME_INFINITY l.

Record implements (q : ucs_timer_queue_t) (m : gmap Z (Z * Z)) : Prop := Impl {
  im_num : 0 <= num_timers q <= Z.of_nat (length (timers q));
  im_32 : num_timers q < 2 ^ 32;
  im_nodup : NoDup (id <$> take (Z.to_nat (num_timers q)) (timers q));
  im_map : timer_map (take (Z.to_nat (num_timers q)) (timers q)) = m;
  im_itv : Forall (fun t => 0 <= interval t < UCS_TIME_INFINITY) (take (Z.to_nat (num_timers q)) (timers q));
  im_min : min_interval q = min_itv (take (Z.to_nat (num_timers q)) (timers q))
}.

Fixpoint run (q : ucs_timer_queue_t) (ops : list op) : option (list result * ucs_timer_queue_t) :=
  match ops with
  | [] => Some ([], q)
  | o :: ops => '(r, q) ← do_op q o; '(rs, q) ← run q ops; Some (r :: rs, q)
  end.

Fixpoint spec_run (m : gmap Z (Z * Z)) (ops : list op) : list result * gmap Z (Z * Z) :=
  match ops with
  | [] => ([], m)
  | o :: ops => let '(r, m) := spec_op m o in let '(rs, m) := spec_run m ops in (r :: rs, m)
  end.

Definition valid_op (o : op) : Prop :=
  match o with OpAdd _ itv _ => 0 <= itv < UCS_TIME_INFINITY | _ => True end.

(** ** Lemmas *)

Lemma timer_map_lookup l i : NoDup (id <$> l) -> (exists t, t ∈ l /\ id t = i) <-> is_Some (timer_map l !! i).
Proof.
  intros Hnd. unfold timer_map. rewrite <- elem_of_dom, dom_list_to_map, elem_of_list_to_set, <- list_fmap_compose.
  rewrite list_elem_of_fmap. simpl. naive_solver.
Qed.

Lemma min_itv_bound l : Forall (fun t => 0 <= interval t < UCS_TIME_INFINITY) l ->
  0 <= min_itv l <= UCS_TIME_INFINITY /\ (l <> [] -> min_itv l < UCS_TIME_INFINITY).
Proof.
  induction 1 as [|t l Ht Hl [IH _]]; [done|]. simpl. split; [lia|]. intros _. lia.
Qed.

Lemma min_itv_app l1 l2 : Forall (fun t => 0 <= interval t < UCS_TIME_INFINITY) (l1 ++ l2) ->
  min_itv (l1 ++ l2) = Z.min (min_itv l1) (min_itv l2).
Proof.
  induction l1 as [|t l1 IH]; simpl; intros H.
  - apply min_itv_bound in H as [H _]. unfold UCS_TIME_INFINITY in *. lia.
  - inversion_clear H. rewrite IH by done. lia.
Qed.

Lemma timer_map_snoc l t : id t ∉ id <$> l ->
  timer_map (l ++ [t]) = <[id t := (interval t, expiration t)]> (timer_map l).
Proof.
  intros Ht. unfold timer_map. rewrite fmap_app. simpl. rewrite list_to_map_snoc; [done|].
  rewrite <- list_fmap_compose. done.
Qed.

Lemma timer_map_perm l1 l2 : NoDup (id <$> l1) -> l1 ≡ₚ l2 -> timer_map l1 = timer_map l2.
Proof.
  intros Hnd Hp. unfold timer_map. apply list_to_map_proper; [by rewrite <- list_fmap_compose|by rewrite Hp].
Qed.

Lemma existsb_id l i : existsb (fun t => id t =? i) l = true <-> i ∈ id <$> l.
Proof.
  rewrite existsb_exists, list_elem_of_fmap. setoid_rewrite <- list_elem_of_In.
  setoid_rewrite Z.eqb_eq. naive_solver.
Qed.

Lemma add_ok q m i itv ok : implements q m -> num_timers q + 1 < 2 ^ 32 -> 0 <= itv < UCS_TIME_INFINITY ->
  exists q', ucs_timerq_add q i itv ok = Some (match m !! i with Some _ => UCS_ERR_ALREADY_EXISTS | None => if ok then UCS_OK else UCS_ERR_NO_MEMORY end, q') /\
    implements q' (spec_op m (OpAdd i itv ok)).2 /\ num_timers q' <= num_timers q + 1.
Proof.
  intros [H1 H2 H3 H4 H5 H6] Hn Hi. unfold ucs_timerq_add. set (l := take (Z.to_nat (num_timers q)) (timers q)) in *.
  pose proof (timer_map_lookup l i H3) as Hl. rewrite H4 in Hl. simpl.
  destruct (existsb (fun t => id t =? i) l) eqn:Ee.
  - apply existsb_id in Ee. apply list_elem_of_fmap in Ee as (t & -> & Ht).
    destruct (proj1 Hl (ex_intro _ t (conj Ht eq_refl))) as [x ->]. exists q. split; [done|]. split; [done|lia].
  - assert (i ∉ id <$> l) as Hni by (rewrite <- existsb_id; congruence).
    destruct (m !! i) as [x|] eqn:Em.
    { destruct (proj2 Hl (ex_intro _ x eq_refl)) as (t & Ht & <-). destruct Hni. by apply list_elem_of_fmap_2. }
    destruct ok; simpl; [|exists q; split; [done|split; [done|lia]]].
    pose proof (min_itv_bound l H5) as [Hb _]. rewrite <- H6 in Hb.
    rewrite (proj2 (Z.eqb_neq _ _)) by lia. eexists. split; [done|].
    assert (length l = Z.to_nat (num_timers q)) as Hlen by (unfold l; rewrite length_take; lia).
    rewrite u_wrap_small by lia. split; [|simpl; lia].
    assert (take (Z.to_nat (num_timers q + 1)) (l ++ [Timer 0 itv i]) = l ++ [Timer 0 itv i]) as Et.
    { apply take_ge. rewrite length_app. simpl. lia. }
    constructor; cbn [num_timers timers min_interval]; rewrite ?Et.
    + rewrite length_app. simpl. lia.
    + done.
    + rewrite fmap_app. apply NoDup_app. split_and!; [done| |apply NoDup_singleton].
      intros x Hx Hx2. by apply list_elem_of_singleton in Hx2 as ->.
    + rewrite timer_map_snoc by done. by rewrite H4.
    + apply Forall_app. split; [done|]. by apply Forall_singleton.
    + rewrite min_itv_app by (apply Forall_app; split; [done|by apply Forall_singleton]).
      rewrite H6. simpl. unfold UCS_TIME_INFINITY in *. lia.
Qed.

Lemma swap_remove {A} (L : list A) p e l : L !! p = Some e -> L !! (length L - 1)%nat = Some l ->
  e :: take (length L - 1) (<[p := l]> L) ≡ₚ L.
Proof.
  destruct L as [|x L0 _] using rev_ind; [done|]. rewrite length_app. simpl. intros Hp Hl.
  replace (length L0 + 1 - 1)%nat with (length L0) in * by lia. rewrite list_lookup_middle in Hl by done.
  injection Hl as ->. destruct (decide (p = length L0)) as [->|Hne].
  - rewrite list_lookup_middle in Hp by done. injection Hp as ->.
    rewrite list_insert_id by (by apply list_lookup_middle). rewrite take_app_length. solve_Permutation.
  - pose proof (lookup_lt_Some _ _ _ Hp) as Hlt. rewrite length_app in Hlt. simpl in Hlt.
    rewrite lookup_app_l in Hp by lia. rewrite insert_app_l by lia.
    rewrite take_app_length' by by rewrite length_insert.
    rewrite insert_take_drop by lia. rewrite <- (take_drop_middle L0 p e Hp) at 3. solve_Permutation.
Qed.

(** What the loop of [ucs_timerq_remove] keeps: [l] is the used part of the array. *)
Definition removing (l0 : list ucs_timer_t) (i : Z) (l : list ucs_timer_t) (st : status) : Prop :=
  (st = UCS_ERR_NO_ELEM /\ l = l0) \/ (st = UCS_OK /\ exists e, id e = i /\ e :: l ≡ₚ l0).

Definition used (q : ucs_timer_queue_t) : list ucs_timer_t := take (Z.to_nat (num_timers q)) (timers q).

Record remove_inv (q : ucs_timer_queue_t) (i : Z) (ptr : Z) (q1 : ucs_timer_queue_t) (st : status) : Prop := RemoveInv {
  ri_num : 0 <= num_timers q1 <= Z.of_nat (length (timers q1));
  ri_le : num_timers q1 <= num_timers q;
  ri_ptr : 0 <= ptr <= num_timers q1;
  ri_removing : removing (used q) i (used q1) st;
  ri_itv : Forall (fun t => 0 <= interval t < UCS_TIME_INFINITY) (used q1);
  ri_before : i ∉ id <$> take (Z.to_nat ptr) (used q1);
  ri_min : min_interval q1 = min_itv (take (Z.to_nat ptr) (used q1))
}.

Lemma used_length q : 0 <= num_timers q <= Z.of_nat (length (timers q)) -> length (used q) = Z.to_nat (num_timers q).
Proof. intros H. unfold used. rewrite length_take. lia. Qed.

Lemma used_lookup q j : 0 <= j < num_timers q -> used q !! Z.to_nat j = timers q !! Z.to_nat j.
Proof. intros H. unfold used. by rewrite lookup_take_lt by lia. Qed.

(** The timer is found: the last timer takes its place. *)
Lemma remove_hit q i ptr q1 st e l : NoDup (id <$> used q) -> remove_inv q i ptr q1 st -> ptr < num_timers q1 ->
  used q1 !! Z.to_nat ptr = Some e -> id e = i -> used q1 !! (length (used q1) - 1)%nat = Some l ->
  remove_inv q i ptr (TimerQueue (min_interval q1) (<[Z.to_nat ptr := l]> (timers q1)) (num_timers q1 - 1)) UCS_OK.
Proof.
  intros Hnd [H1 H2 H3 H4 H5 H6 H7] Hlt He Hid Hl. pose proof (used_length q1 H1) as Hlen.
  assert (used (TimerQueue (min_interval q1) (<[Z.to_nat ptr:=l]> (timers q1)) (num_timers q1 - 1)) =
    take (length (used q1) - 1) (<[Z.to_nat ptr := l]> (used q1))) as Eu.
  { unfold used at 1. cbn [num_timers timers]. rewrite Hlen. unfold used.
    rewrite <- take_insert_lt by lia. rewrite take_take. f_equal. lia. }
  pose proof (swap_remove _ _ _ _ He Hl) as Hperm.
  assert (take (Z.to_nat ptr) (take (length (used q1) - 1) (<[Z.to_nat ptr:=l]> (used q1))) = take (Z.to_nat ptr) (used q1)) as Et.
  { rewrite take_take. rewrite take_insert_ge by lia. f_equal. lia. }
  constructor; cbn [num_timers timers min_interval]; rewrite ?Eu, ?Et, ?length_insert; try done || lia.
  - right. split; [done|]. exists e. split; [done|].
    destruct H4 as [[_ <-]|[_ (e' & Hid' & Hp')]]; [done|].
    exfalso. apply (Permutation_map id) in Hp'. change (map id) with (fmap (M := list) id) in Hp'.
    rewrite <- Hp' in Hnd. apply NoDup_cons in Hnd as [Hnin _]. apply Hnin. rewrite Hid', <- Hid.
    apply list_elem_of_fmap_2. by eapply list_elem_of_lookup_2.
  - rewrite <- Hperm in H5. by inversion_clear H5.
Qed.

Lemma remove_miss q i ptr q1 st e : remove_inv q i ptr q1 st -> ptr < num_timers q1 ->
  used q1 !! Z.to_nat ptr = Some e -> id e <> i ->
  remove_inv q i (ptr + 1) (TimerQueue (Z.min (min_interval q1) (interval e)) (timers q1) (num_timers q1)) st.
Proof.
  intros [H1 H2 H3 H4 H5 H6 H7] Hlt He Hid.
  assert (Forall (fun t => 0 <= interval t < UCS_TIME_INFINITY) (take (Z.to_nat ptr) (used q1) ++ [e])) as Hf.
  { rewrite <- (take_S_r _ _ _ He). by apply Forall_take. }
  constructor; cbn [num_timers timers min_interval]; try done || lia.
  all: change (used (TimerQueue (Z.min (min_interval q1) (interval e)) (timers q1) (num_timers q1))) with (used q1).
  all: replace (Z.to_nat (ptr + 1)) with (S (Z.to_nat ptr)) by lia; rewrite (take_S_r _ _ _ He).
  - rewrite fmap_app, elem_of_app. intros [?|?%list_elem_of_singleton]; [done|congruence].
  - rewrite min_itv_app by done. rewrite <- H7. simpl. apply Forall_app in Hf as [_ Hf]. apply (proj1 (Forall_singleton _ _)) in Hf. simpl in Hf. lia.
Qed.

Lemma remove_loop_ok q i : 0 <= num_timers q <= Z.of_nat (length (timers q)) -> num_timers q < 2 ^ 32 ->
  NoDup (id <$> used q) -> Forall (fun t => 0 <= interval t < UCS_TIME_INFINITY) (used q) ->
  min_interval q = UCS_TIME_INFINITY ->
  exists q' st, while (remove_step i) (0, q, UCS_ERR_NO_ELEM) = Some (q', st) /\
    remove_inv q i (num_timers q') q' st.
Proof.
  intros Hn H32 Hnd Hitv Hmin.
  destruct (while_ok (remove_step i) (fun x => remove_inv q i x.1.1 x.1.2 x.2)
    (fun x => remove_inv q i (num_timers x.1) x.1 x.2)
    (fun x => 2 * num_timers x.1.2 - x.1.1) (0, q, UCS_ERR_NO_ELEM)) as ([q' st] & E & Hr).
  - intros [[ptr q1] st] H. cbn [fst snd] in *. unfold remove_step.
    pose proof (ri_num _ _ _ _ _ H) as H1. pose proof (ri_ptr _ _ _ _ _ H) as Hp. pose proof (used_length q1 H1) as Hlen.
    destruct (Z.ltb_spec ptr (num_timers q1)) as [Hlt|Hge].
    2:{ eexists. split; [done|]. cbn [fst snd]. by replace (num_timers q1) with ptr by lia. }
    destruct (lookup_lt_is_Some_2 (used q1) (Z.to_nat ptr)) as [e He]; [lia|].
    rewrite <- (used_lookup q1 ptr) by lia. rewrite (bind_eq _ _ _ He). destruct (Z.eqb_spec (id e) i) as [Hid|Hid].
    + destruct (lookup_lt_is_Some_2 (used q1) (length (used q1) - 1)) as [l Hl]; [lia|].
      rewrite <- (used_lookup q1 (num_timers q1 - 1)) by lia.
      rewrite (bind_eq _ l) by (rewrite <- Hl; f_equal; lia).
      eexists. split; [done|]. split; [by eapply remove_hit|simpl; lia].
    + eexists. split; [done|]. split; [by apply remove_miss|simpl; lia].
  - constructor; cbn [fst snd]; try done || lia; [by left|by intros ?%not_elem_of_nil].
  - simpl. lia.
  - by exists q', st.
Qed.

Lemma timer_map_removing l0 i l st : NoDup (id <$> l0) -> removing l0 i l st -> i ∉ id <$> l ->
  NoDup (id <$> l) /\ timer_map l = delete i (timer_map l0) /\
  st = match timer_map l0 !! i with Some _ => UCS_OK | None => UCS_ERR_NO_ELEM end.
Proof.
  intros Hnd Hrm Hni.
  assert (timer_map l !! i = None) as Hl.
  { unfold timer_map. apply not_elem_of_list_to_map_1. by rewrite <- list_fmap_compose. }
  destruct Hrm as [[-> <-]|(-> & e & <- & Hp)].
  - split_and!; [done|by rewrite delete_id|by rewrite Hl].
  - rewrite <- (timer_map_perm (e :: l) l0).
    + change (timer_map (e :: l)) with (<[id e := (interval e, expiration e)]> (timer_map l)).
      rewrite lookup_insert_eq, delete_insert_id by done. split_and!; try done.
      rewrite <- Hp in Hnd. by apply NoDup_cons in Hnd as [_ ?].
    + by rewrite Hp.
    + done.
Qed.

Lemma timerq_remove_ok q m i : implements q m ->
  exists q', ucs_timerq_remove q i = Some (match m !! i with Some _ => UCS_OK | None => UCS_ERR_NO_ELEM end, q') /\
    implements q' (delete i m) /\ num_timers q' <= num_timers q.
Proof.
  intros [H1 H2 H3 H4 H5 H6]. unfold ucs_timerq_remove.
  destruct (remove_loop_ok (TimerQueue UCS_TIME_INFINITY (timers q) (num_timers q)) i H1 H2 H3 H5 eq_refl)
    as (q' & st & E & [R1 R2 R3 R4 R5 R6 R7]). cbn [num_timers timers] in *.
  rewrite (bind_eq _ _ _ E). rewrite take_ge in R6, R7 by (rewrite used_length by done; lia).
  destruct (timer_map_removing (used q) _ _ _ H3 R4 R6) as (Hnd & Hm & ->).
  change (timer_map (used q) = m) in H4. rewrite H4 in Hm |- *.
  pose proof (min_itv_bound _ R5) as [_ Hb]. rewrite <- R7 in Hb.
  destruct (Z.eqb_spec (num_timers q') 0) as [E0|E0].
  - assert (used q' = []) as Eu by (unfold used; by rewrite E0). rewrite Eu in *. rewrite R7. simpl.
    eexists. split; [done|]. split; [|simpl; lia].
    constructor; cbn [num_timers timers min_interval]; try done; simpl; lia || apply NoDup_nil_2.
  - rewrite (proj2 (Z.eqb_neq _ _)).
    2:{ assert (used q' <> []); [|specialize (Hb H); lia].
        intros Eu. pose proof (used_length q' R1) as Hl. rewrite Eu in Hl. simpl in Hl. lia. }
    eexists. split; [done|]. split; [|lia]. constructor; try done. lia.
Qed.

Lemma expired_loop_ok c l : NoDup (id <$> l) ->
  let '(fired, l') := expired_loop c l in
  id <$> l' = id <$> l /\ interval <$> l' = interval <$> l /\
  timer_map l' = expire c <$> timer_map l /\
  list_to_set (C := gset Z) fired = dom (filter (fun p => p.2.2 <= c) (timer_map l)).
Proof.
  induction l as [|t l IH]; simpl; intros Hnd.
  - done.
  - apply NoDup_cons in Hnd as [Hni Hnd]. specialize (IH Hnd).
    destruct (expired_loop c l) as [fired l']. destruct IH as (I1 & I2 & I3 & I4).
    assert (timer_map l !! id t = None) as Hl.
    { unfold timer_map. apply not_elem_of_list_to_map_1. by rewrite <- list_fmap_compose. }
    change (timer_map (t :: l)) with (<[id t := (interval t, expiration t)]> (timer_map l)).
    rewrite fmap_insert. unfold expire at 1. cbn [fst snd]. destruct (Z.leb_spec (expiration t) c) as [Hle|Hgt].
    + split_and!; [by rewrite !fmap_cons, I1|by rewrite !fmap_cons, I2| |].
      * unfold timer_map at 1. simpl. by rewrite <- I3.
      * rewrite map_filter_insert_True by done. rewrite dom_insert_L, <- I4. done.
    + split_and!; [by rewrite !fmap_cons, I1|by rewrite !fmap_cons, I2| |].
      * unfold timer_map at 1. simpl. by rewrite <- I3.
      * rewrite map_filter_insert_False by (simpl; lia). rewrite delete_id by done. done.
Qed.

Lemma min_itv_fmap l l' : interval <$> l = interval <$> l' -> min_itv l = min_itv l'.
Proof.
  revert l'. induction l as [|t l IH]; intros [|t' l']; simpl; try done. intros [= E1 E2].
  by rewrite (IH l' E2), E1.
Qed.

Lemma expired_ok q m c : implements q m ->
  let '(fired, q') := ucs_timerq_for_each_expired q c in
  implements q' (expire c <$> m) /\ list_to_set (C := gset Z) fired = dom (filter (fun p => p.2.2 <= c) m) /\
  num_timers q' = num_timers q.
Proof.
  intros [H1 H2 H3 H4 H5 H6]. unfold ucs_timerq_for_each_expired.
  pose proof (expired_loop_ok c _ H3) as H. destruct (expired_loop c _) as [fired l'].
  destruct H as (I1 & I2 & I3 & I4). rewrite H4 in I3, I4.
  assert (length l' = Z.to_nat (num_timers q)) as Hl.
  { rewrite <- (length_fmap id), I1, length_fmap, length_take. lia. }
  split_and!; [|done|done]. constructor; cbn [num_timers timers min_interval]; rewrite ?take_app_length' by done.
  - rewrite length_app, length_drop, Hl. lia.
  - done.
  - by rewrite I1.
  - done.
  - assert (Forall (fun x => 0 <= x < UCS_TIME_INFINITY) (interval <$> l')) as Hf by (rewrite I2; by apply Forall_fmap).
    by apply Forall_fmap in Hf.
  - rewrite H6. by apply min_itv_fmap.
Qed.

Lemma timerq_run_ok ops q m : implements q m -> Forall valid_op ops -> num_timers q + Z.of_nat (length ops) < 2 ^ 32 ->
  exists q', run q ops = Some ((spec_run m ops).1, q') /\ implements q' (spec_run m ops).2.
Proof.
  revert q m. induction ops as [|o ops IH]; intros q m H Hv Hn; [by exists q|].
  inversion_clear Hv as [|? ? Ho Hv']. cbn [run spec_run length] in *.
  assert (exists q1, do_op q o = Some ((spec_op m o).1, q1) /\ implements q1 (spec_op m o).2 /\
    num_timers q1 <= num_timers q + 1) as (q1 & E & H1 & Hn1).
  { destruct o as [i itv ok|i|c]; cbn [do_op].
    - destruct (add_ok q m i itv ok H ltac:(lia) Ho) as (q1 & E & H1 & Hn1). rewrite (bind_eq _ _ _ E).
      exists q1. split_and!; [|done|done]. simpl. by destruct (m !! i); [|destruct ok].
    - destruct (timerq_remove_ok q m i H) as (q1 & E & H1 & Hn1). rewrite (bind_eq _ _ _ E).
      exists q1. simpl. destruct (m !! i) eqn:Em; split_and!; try done || lia. by rewrite delete_id in H1.
    - pose proof (expired_ok q m c H) as He. destruct (ucs_timerq_for_each_expired q c) as [fired q1].
      destruct He as (H1 & Hf & Hn1). exists q1. simpl. rewrite Hf. split_and!; try done || lia. }
  rewrite (bind_eq _ _ _ E). destruct (spec_op m o) as [r m1]. cbn [fst snd] in *.
  destruct (IH q1 m1 H1 Hv' ltac:(lia)) as (q' & E' & H'). rewrite (bind_eq _ _ _ E').
  destruct (spec_run m1 ops) as [rs m']. by exists q'.
Qed.

(** ** Property *)

(** The timer queue implements a map from identifiers to timers.  Every
    sequence of at most [2 ^ 32] operations on an initialized queue, with
    intervals below infinity, runs without a failed assertion; adding,
    removing, failures to allocate and the dispatch of expired timers give the
    results of the map, whatever the order of the array after removals; and
    [min_interval] is the minimum of the intervals of the timers that are left. *)
Theorem timerq_refines ops : Forall valid_op ops -> Z.of_nat (length ops) < 2 ^ 32 ->
  exists q', run ucs_timerq_init ops = Some ((spec_run ∅ ops).1, q') /\
    timer_map (used q') = (spec_run ∅ ops).2 /\ ucs_timerq_min_interval q' = min_itv (used q') /\
    ucs_timerq_size q' = Z.of_nat (size (spec_run ∅ ops).2).
Proof.
  intros Hv Hn. destruct (timerq_run_ok ops ucs_timerq_init ∅) as (q' & E & H); [|done|simpl; lia|].
  { constructor; try done; simpl; lia || apply NoDup_nil_2. }
  exists q'. split; [done|]. destruct H as [H1 H2 H3 H4 H5 H6]. split_and!; [done|done|].
  rewrite <- H4. unfold timer_map. rewrite <- length_map_to_list, map_to_list_to_map by (by rewrite <- list_fmap_compose).
  rewrite length_fmap, length_take. unfold ucs_timerq_size. lia.
Qed.

Lemma timerq_refines_witness : exists q',
  run ucs_timerq_init [OpAdd 1 5 true; OpAdd 2 3 true; OpAdd 1 9 true; OpExpired 4; OpRemove 2; OpRemove 7] =
    Some ((spec_run ∅ [OpAdd 1 5 true; OpAdd 2 3 true; OpAdd 1 9 true; OpExpired 4; OpRemove 2; OpRemove 7]).1, q') /\
  timer_map (used q') =
    (spec_run ∅ [OpAdd 1 5 true; OpAdd 2 3 true; OpAdd 1 9 true; OpExpired 4; OpRemove 2; OpRemove 7]).2 /\
  ucs_timerq_min_interval q' = min_itv (used q') /\
  ucs_timerq_size q' =
    Z.of_nat (size (spec_run ∅ [OpAdd 1 5 true; OpAdd 2 3 true; OpAdd 1 9 true; OpExpired 4; OpRemove 2; OpRemove 7]).2).
Proof.
  apply timerq_refines; [|simpl; lia]. repeat constructor; unfold UCS_TIME_INFINITY; lia.
Defined.

End TimerQ.
