(* ===== verification/MmFifo.v ===== *)
(** Shared memory transport: the receive FIFO of [uct/sm/mm/base/mm_iface.c],
    [mm_iface.h], [mm_ep.c] and [mm_ep.h].

    A FIFO in shared memory has one receiver and any number of senders, each in
    a process of its own.  The model is the interleaving of their accesses: each
    load, store, compare-and-swap or system call on what is shared is one step,
    and the place of a sender or of the receiver between two of them is its
    program counter ([ep_pc], [rx_pc]).  The code has memory barriers where the
    order of its accesses matters, so the accesses happen in program order.

    A receive descriptor is named by its segment and the offset inside of it:
    that is the descriptor info the sender uses, and also the place of its
    payload in the segment the receiver has.  Mapping a segment into the memory
    of a sender ([mem_attach]) and the memory pool of the descriptors answer
    through arguments of the steps.  [None] is a failed assertion or an access
    outside of the FIFO.  The keepalive checks of the peer have no effect on the
    FIFO and are left out. *)

From stdpp Require Import gmap.
From S2P Require Import Prelude.
From S2P Require Import Bits.

Module MmFifo.
Import Bits.

(** ** Definitions of [mm_iface.h] *)

Definition UCT_MM_FIFO_ELEM_FLAG_OWNER : Z := UCS_BIT 0.
Definition UCT_MM_FIFO_ELEM_FLAG_INLINE : Z := UCS_BIT 1.
Definition UCT_MM_IFACE_FIFO_MIN_POLL : Z := 1.
Definition UCT_MM_IFACE_FIFO_AI_VALUE : Z := 1.
Definition UCT_MM_IFACE_FIFO_MD_FACTOR : Z := 2.
Definition UCT_MM_IFACE_FIFO_HEAD_EVENT_ARMED : Z := UCS_BIT 63.

(** The size of the packed header of an element. *)
Definition sizeof_fifo_element : Z := 28.

(** [uct_mm_desc_info_t]: the segment and the offset of a receive descriptor. *)
Definition uct_mm_desc_info_t : Type := Z * Z.

Record uct_mm_fifo_element_t := Elem {
  flags : Z;
  am_id : Z;
  elem_length : Z;
  desc : uct_mm_desc_info_t;
  desc_data : uct_mm_desc_info_t;
  inline_data : list Z
}.

Definition set_flags v e := Elem v (am_id e) (elem_length e) (desc e) (desc_data e) (inline_data e).
Definition set_am_id v e := Elem (flags e) v (elem_length e) (desc e) (desc_data e) (inline_data e).
Definition set_elem_length v e := Elem (flags e) (am_id e) v (desc e) (desc_data e) (inline_data e).
Definition set_desc v e := Elem (flags e) (am_id e) (elem_length e) v v (inline_data e).
Definition set_inline_data v e := Elem (flags e) (am_id e) (elem_length e) (desc e) (desc_data e) v.

(** What the processes share: the control structure, the elements, the payloads
    of the descriptors and the number of signals in the socket.  [lost] counts the
    signals that could not be sent; no code reads it. *)
Record fifo_t := Fifo {
  head : Z;
  tail : Z;
  elems : list uct_mm_fifo_element_t;
  bufs : gmap uct_mm_desc_info_t (list Z);
  signals : Z;
  lost : Z
}.

Definition set_head v f := Fifo v (tail f) (elems f) (bufs f) (signals f) (lost f).
Definition set_tail v f := Fifo (head f) v (elems f) (bufs f) (signals f) (lost f).
Definition set_elems v f := Fifo (head f) (tail f) v (bufs f) (signals f) (lost f).
Definition set_bufs v f := Fifo (head f) (tail f) (elems f) v (signals f) (lost f).
Definition set_signals v f := Fifo (head f) (tail f) (elems f) (bufs f) v (lost f).
Definition set_lost v f := Fifo (head f) (tail f) (elems f) (bufs f) (signals f) v.

(** The fields of the interface that do not change. *)
Record fifo_config := Config {
  fifo_size : Z;
  fifo_elem_size : Z;
  fifo_max_poll : Z;
  fifo_mask : Z;
  fifo_shift : Z;
  fifo_release_factor_mask : Z
}.

(** ** Sending *)

Inductive send_op :=
| AmShort (id header : Z) (payload : list Z)
| AmBcopy (id : Z) (packed : list Z)
| AmShortIov (id : Z) (iov : list (list Z)).

(** [uct_iov_to_buffer] on the entries from [iov_index]; an entry is its data, with a
    [count] of one.  [buf] is what is copied already; the result is the buffer and
    the iterator. *)
Fixpoint uct_iov_to_buffer (iov : list (list Z)) (iov_index offset : Z) (buf : list Z) (copy_limit : Z) : list Z * (Z * Z) :=
  match iov with
  | [] => (buf, (iov_index, offset))
  | item :: iov =>
      let copied := Z.of_nat (length buf) in
      let to_copy := u64 (Z.of_nat (length item) - offset) in
      let memcpy n := buf ++ take (Z.to_nat n) (drop (Z.to_nat offset) item) in
      if copy_limit <? u64 (copied + to_copy)
      then (memcpy (copy_limit - copied), (iov_index, offset + (copy_limit - copied)))
      else uct_iov_to_buffer iov (iov_index + 1) 0 (memcpy to_copy) copy_limit
  end.

Definition SIZE_MAX : Z := 2 ^ 64 - 1.

Definition uct_iov_total_length (iov : list (list Z)) : Z :=
  fold_left (fun total item => u64 (total + Z.of_nat (length item))) iov 0.

Definition op_id (op : send_op) : Z :=
  match op with AmShort id _ _ | AmBcopy id _ | AmShortIov id _ => id end.

(** What the operation writes: [uct_am_short_fill_data], the pack callback or the
    IOV. *)
Definition op_data (op : send_op) : list Z :=
  match op with
  | AmShort _ header payload => le64 header ++ payload
  | AmBcopy _ packed => packed
  | AmShortIov _ iov => (uct_iov_to_buffer iov 0 0 [] SIZE_MAX).1
  end.

Definition op_flags (op : send_op) : Z :=
  match op with AmBcopy _ _ => 0 | _ => UCT_MM_FIFO_ELEM_FLAG_INLINE end.

(** The checks of the parameters. *)
Definition op_check (cfg : fifo_config) (op : send_op) : bool :=
  match op with
  | AmBcopy _ _ => true
  | AmShort _ header payload => Z.of_nat (length payload) + 8 <=? fifo_elem_size cfg - sizeof_fifo_element
  | AmShortIov _ iov => uct_iov_total_length iov <=? fifo_elem_size cfg - sizeof_fifo_element
  end && (op_id op <? UCT_AM_ID_MAX).

(** An element of the arbiter group of an endpoint: the placeholder of the
    endpoint, or a pending request, whose callback sends. *)
Inductive arb_elem_t := ArbElem | PendingReq (op : send_op).

(** Who called the send function: the user or the callback of a request. *)
Inductive caller := FromUser | FromPending.

Inductive ep_pc :=
| Idle
| LoadHead (c : caller) (op : send_op)
| LoadTail (c : caller) (op : send_op) (head : Z)
| CasHead (c : caller) (op : send_op) (head : Z)
| GetSeg (c : caller) (op : send_op) (head : Z)
| Fill (c : caller) (op : send_op) (head : Z) (d : option uct_mm_desc_info_t)
| SetLength (c : caller) (op : send_op) (head : Z)
| SetAmId (c : caller) (op : send_op) (head : Z)
| SetFlags (c : caller) (op : send_op) (head : Z)
| Signal (c : caller) (op : send_op) (head : Z)
| PendingAdd (op : send_op)
| PendingTail
| PendingHead
| FlushHead
| FlushTail
| FlushAgain.

(** What a call returned: a status or, for a bcopy send, a length. *)
Inductive result := Status (s : ucs_status_t) | Length (n : Z).

Record uct_mm_ep_t := Ep {
  cached_tail : Z;
  remote_segs : gset Z;
  arb_group : list arb_elem_t;
  pc : ep_pc;
  ret : option result
}.

Definition set_cached_tail v e := Ep v (remote_segs e) (arb_group e) (pc e) (ret e).
Definition set_remote_segs v e := Ep (cached_tail e) v (arb_group e) (pc e) (ret e).
Definition set_arb_group v e := Ep (cached_tail e) (remote_segs e) v (pc e) (ret e).
Definition set_pc v e := Ep (cached_tail e) (remote_segs e) (arb_group e) v (ret e).
Definition set_ret v e := Ep (cached_tail e) (remote_segs e) (arb_group e) (pc e) v.

Definition UCT_MM_EP_IS_ABLE_TO_SEND (head tail size : Z) : bool :=
  s_wrap 32 (head - tail) <? s_wrap 32 size.

Definition armed_head (head : Z) : bool := negb (Z.land head UCT_MM_IFACE_FIFO_HEAD_EVENT_ARMED =? 0).
Definition unarmed (head : Z) : Z := Z.ldiff head UCT_MM_IFACE_FIFO_HEAD_EVENT_ARMED.

(** A call returns; a request whose callback succeeded leaves the group
    ([uct_mm_ep_process_pending]). *)
Definition returns (c : caller) (r : result) (ep : uct_mm_ep_t) : uct_mm_ep_t :=
  let ep := set_pc Idle ep in
  match c with
  | FromUser => set_ret (Some r) ep
  | FromPending =>
      match r with
      | Status UCS_OK | Length _ => set_arb_group (List.tl (arb_group ep)) ep
      | _ => ep
      end
  end.

(** [UCS_OK], or the length for a bcopy send. *)
Definition success (op : send_op) : result :=
  match op with AmBcopy _ packed => Length (Z.of_nat (length packed)) | _ => Status UCS_OK end.

(** Bytes stored at the beginning of a buffer. *)
Definition store (data old : list Z) : list Z := data ++ drop (length data) old.

Definition elem_index (cfg : fifo_config) (head : Z) : nat := Z.to_nat (Z.land head (fifo_mask cfg)).

Definition update_elem (cfg : fifo_config) (head : Z) (g : uct_mm_fifo_element_t -> uct_mm_fifo_element_t) (f : fifo_t) : option fifo_t :=
  e ← elems f !! elem_index cfg head;
  Some (set_elems (<[elem_index cfg head := g e]> (elems f)) f).

(** The errors of [sendto] and [recvfrom] on the socket of the signals. *)
Inductive errno := EAGAIN | EINTR | ECONNREFUSED | EOTHER.

(** The answers of the system to a step of a sender: the result of attaching a
    segment, and the error of [sendto]. *)
Record tx_env := TxEnv { attach : ucs_status_t; send_errno : option errno }.

(** One turn of the loop of [uct_mm_ep_signal_remote], and whether it returns.  With
    [EAGAIN] the buffer of the socket is full: the signal is lost if the receiver
    has none. *)
Definition uct_mm_ep_signal_remote (env : tx_env) (f : fifo_t) : fifo_t * bool :=
  match send_errno env with
  | None => (set_signals (signals f + 1) f, true)
  | Some EINTR => (f, false)
  | Some EAGAIN => (if 0 <? signals f then f else set_lost (lost f + 1) f, true)
  | Some ECONNREFUSED | Some EOTHER => (set_lost (lost f + 1) f, true)
  end.

(** One step of [uct_mm_ep_am_common_send] *)
Definition uct_mm_ep_am_common_send (cfg : fifo_config) (env : tx_env) (f : fifo_t) (ep : uct_mm_ep_t) : option (fifo_t * uct_mm_ep_t) :=
  match pc ep with
  | LoadHead c op =>
      let h := head f in
      if UCT_MM_EP_IS_ABLE_TO_SEND h (cached_tail ep) (fifo_size cfg) then Some (f, set_pc (CasHead c op h) ep)
      else match arb_group ep with
           | [] => Some (f, set_pc (LoadTail c op h) ep)
           | _ => Some (f, returns c (Status UCS_ERR_NO_RESOURCE) ep)
           end
  | LoadTail c op h =>
      let ep := set_cached_tail (tail f) ep in
      if UCT_MM_EP_IS_ABLE_TO_SEND h (cached_tail ep) (fifo_size cfg) then Some (f, set_pc (CasHead c op h) ep)
      else Some (f, returns c (Status UCS_ERR_NO_RESOURCE) (set_arb_group (ArbElem :: arb_group ep) ep))
  | CasHead c op h =>
      if head f =? h
      then Some (set_head (unarmed (u64 (h + 1))) f,
                 set_pc (match op with AmBcopy _ _ => GetSeg c op h | _ => Fill c op h None end) ep)
      else Some (f, set_pc (LoadHead c op) ep)
  | GetSeg c op h =>
      e ← elems f !! elem_index cfg h;
      if bool_decide ((desc e).1 ∈ remote_segs ep) then Some (f, set_pc (Fill c op h (Some (desc e))) ep)
      else match attach env with
           | UCS_OK => Some (f, set_pc (Fill c op h (Some (desc e))) (set_remote_segs ({[(desc e).1]} ∪ remote_segs ep) ep))
           | status => Some (f, returns c (Status status) ep)
           end
  | Fill c op h None =>
      (** the data behind the header of the element stays inside of it *)
      if fifo_elem_size cfg - sizeof_fifo_element <? Z.of_nat (length (op_data op)) then None else
      f ← update_elem cfg h (fun e => set_inline_data (store (op_data op) (inline_data e)) e) f;
      Some (f, set_pc (SetLength c op h) ep)
  | Fill c op h (Some d) =>
      Some (set_bufs (<[d := store (op_data op) (default [] (bufs f !! d))]> (bufs f)) f, set_pc (SetLength c op h) ep)
  | SetLength c op h =>
      f ← update_elem cfg h (set_elem_length (u16 (Z.of_nat (length (op_data op))))) f;
      Some (f, set_pc (SetAmId c op h) ep)
  | SetAmId c op h =>
      f ← update_elem cfg h (set_am_id (op_id op)) f;
      Some (f, set_pc (SetFlags c op h) ep)
  | SetFlags c op h =>
      let elem_flags := if negb (Z.land h (fifo_size cfg) =? 0) then Z.lor (op_flags op) UCT_MM_FIFO_ELEM_FLAG_OWNER else op_flags op in
      f ← update_elem cfg h (set_flags elem_flags) f;
      Some (f, if armed_head h then set_pc (Signal c op h) ep else returns c (success op) ep)
  | Signal c op h =>
      let '(f, done) := uct_mm_ep_signal_remote env f in
      Some (f, if done then returns c (success op) ep else ep)
  | _ => Some (f, ep)
  end.

Definition uct_mm_ep_has_tx_resources (cfg : fifo_config) (f : fifo_t) (ep : uct_mm_ep_t) : bool :=
  UCT_MM_EP_IS_ABLE_TO_SEND (head f) (cached_tail ep) (fifo_size cfg).

(** [uct_mm_ep_pending_add] *)
Definition uct_mm_ep_pending_add (cfg : fifo_config) (f : fifo_t) (ep : uct_mm_ep_t) (op : send_op) : option uct_mm_ep_t :=
  if uct_mm_ep_has_tx_resources cfg f ep then
    match arb_group ep with
    | [] => Some (returns FromUser (Status UCS_ERR_BUSY) ep)
    | _ => None
    end
  else Some (returns FromUser (Status UCS_OK) (set_arb_group (arb_group ep ++ [PendingReq op]) ep)).

(** [uct_mm_ep_process_pending] for the head of the group, after the update of the
    cached tail. *)
Definition uct_mm_ep_process_pending (cfg : fifo_config) (f : fifo_t) (ep : uct_mm_ep_t) : uct_mm_ep_t :=
  if negb (uct_mm_ep_has_tx_resources cfg f ep) then set_pc Idle ep
  else match arb_group ep with
       | [] => set_pc Idle ep
       | ArbElem :: group => set_pc Idle (set_arb_group group ep)
       | PendingReq op :: _ => set_pc (LoadHead FromPending op) ep
       end.

(** [uct_mm_ep_pending_purge]: the requests that are cancelled. *)
Definition uct_mm_ep_pending_purge (ep : uct_mm_ep_t) : list send_op * uct_mm_ep_t :=
  (omap (fun e => match e with PendingReq op => Some op | ArbElem => None end) (arb_group ep), set_arb_group [] ep).

(** One step of [uct_mm_ep_flush] *)
Definition uct_mm_ep_flush (cfg : fifo_config) (f : fifo_t) (ep : uct_mm_ep_t) : uct_mm_ep_t :=
  match pc ep with
  | FlushHead =>
      if uct_mm_ep_has_tx_resources cfg f ep then returns FromUser (Status UCS_OK) ep
      else match arb_group ep with
           | [] => set_pc FlushTail ep
           | _ => returns FromUser (Status UCS_ERR_NO_RESOURCE) ep
           end
  | FlushTail => set_pc FlushAgain (set_cached_tail (tail f) ep)
  | FlushAgain =>
      returns FromUser (Status (if uct_mm_ep_has_tx_resources cfg f ep then UCS_OK else UCS_ERR_NO_RESOURCE)) ep
  | _ => ep
  end.

(** One step of an endpoint. *)
Definition ep_step (cfg : fifo_config) (env : tx_env) (f : fifo_t) (ep : uct_mm_ep_t) : option (fifo_t * uct_mm_ep_t) :=
  match pc ep with
  | PendingAdd op => ep ← uct_mm_ep_pending_add cfg f ep op; Some (f, ep)
  | PendingTail => Some (f, set_pc PendingHead (set_cached_tail (tail f) ep))
  | PendingHead => Some (f, uct_mm_ep_process_pending cfg f ep)
  | FlushHead | FlushTail | FlushAgain => Some (f, uct_mm_ep_flush cfg f ep)
  | _ => uct_mm_ep_am_common_send cfg env f ep
  end.

(** The endpoint after its creation. *)
Definition uct_mm_ep_init (fifo_seg_id : Z) (f : fifo_t) : uct_mm_ep_t := Ep (tail f) {[fifo_seg_id]} [] Idle None.

(** ** Receiving *)

Inductive rx_pc :=
| RxIdle
| Poll (total_count : Z)
| CheckHead (total_count : Z)
| Load (total_count : Z)
| Deliver (total_count : Z) (elem_flags id length : Z)
| Advance (total_count : Z)
| ArmHead
| ArmCas (head : Z)
| ArmRecv.

Record uct_mm_iface_t := Iface {
  read_index : Z;
  fifo_poll_count : Z;
  fifo_prev_wnd_cons : bool;
  last_recv_desc : option uct_mm_desc_info_t;
  recv_desc_mp : list uct_mm_desc_info_t;
  rpc : rx_pc
}.

Definition set_read_index v i := Iface v (fifo_poll_count i) (fifo_prev_wnd_cons i) (last_recv_desc i) (recv_desc_mp i) (rpc i).
Definition set_poll_count v w i := Iface (read_index i) v w (last_recv_desc i) (recv_desc_mp i) (rpc i).
Definition set_last_recv_desc v i := Iface (read_index i) (fifo_poll_count i) (fifo_prev_wnd_cons i) v (recv_desc_mp i) (rpc i).
Definition set_recv_desc_mp v i := Iface (read_index i) (fifo_poll_count i) (fifo_prev_wnd_cons i) (last_recv_desc i) v (rpc i).
Definition set_rpc v i := Iface (read_index i) (fifo_poll_count i) (fifo_prev_wnd_cons i) (last_recv_desc i) (recv_desc_mp i) v.

(** The answers of the system to a step of the receiver: the status of the
    handler of the active message, without and with [UCT_CB_PARAM_FLAG_DESC],
    whether the pool has a descriptor, and the error of [recvfrom] when there is no
    signal. *)
Record rx_env := RxEnv { handler : ucs_status_t; handler_desc : ucs_status_t; pool_ok : bool; recv_errno : errno }.

(** [ucs_mpool_get] *)
Definition mpool_get (env : rx_env) (i : uct_mm_iface_t) : option uct_mm_desc_info_t * uct_mm_iface_t :=
  match recv_desc_mp i with
  | d :: free => if pool_ok env then (Some d, set_recv_desc_mp free i) else (None, i)
  | [] => (None, i)
  end.

Definition uct_mm_iface_fifo_has_new_data (cfg : fifo_config) (i : uct_mm_iface_t) (e : uct_mm_fifo_element_t) : bool :=
  Z.land (Z.shiftr (read_index i) (fifo_shift cfg)) 1 =? Z.land (flags e) 1.

Definition uct_mm_iface_fifo_window_adjust (cfg : fifo_config) (count : Z) (i : uct_mm_iface_t) : option uct_mm_iface_t :=
  if count <? fifo_poll_count i then
    Some (set_poll_count (Z.max (fifo_poll_count i / UCT_MM_IFACE_FIFO_MD_FACTOR) UCT_MM_IFACE_FIFO_MIN_POLL) false i)
  else if negb (count =? fifo_poll_count i) then None
  else if fifo_prev_wnd_cons i then
    Some (set_poll_count (Z.min (u32 (fifo_poll_count i + UCT_MM_IFACE_FIFO_AI_VALUE)) (fifo_max_poll cfg)) true i)
  else Some (set_poll_count (fifo_poll_count i) true i).

(** The end of a turn of the loop of [uct_mm_iface_progress]. *)
Definition progress_next (cfg : fifo_config) (count total_count : Z) (i : uct_mm_iface_t) : option uct_mm_iface_t :=
  let total_count := u32 (total_count + count) in
  if negb (total_count <? 2 ^ 32 - 1) then None else
  if negb (count =? 0) && (total_count <? fifo_poll_count i) then Some (set_rpc (Poll total_count) i)
  else i ← uct_mm_iface_fifo_window_adjust cfg total_count i; Some (set_rpc RxIdle i).

(** [uct_mm_progress_fifo_tail] *)
Definition uct_mm_progress_fifo_tail (cfg : fifo_config) (i : uct_mm_iface_t) (f : fifo_t) : fifo_t :=
  if negb (Z.land (read_index i) (fifo_release_factor_mask cfg) =? 0) then f else set_tail (read_index i) f.

(** What the receiver does in a step that the users see: a message is given to its
    handler, with the descriptor if the handler keeps it, or is dropped; the
    interface is armed. *)
Inductive rx_event :=
| RxNone
| RxMessage (id : Z) (data : list Z) (keep : option uct_mm_desc_info_t)
| RxDropped
| RxArm (s : ucs_status_t).

(** The callback of a message in [uct_mm_iface_process_recv], and the new
    descriptor of the element when the callback keeps the old one
    ([uct_mm_assign_desc_to_fifo_elem]). *)
Definition uct_mm_iface_process_recv (cfg : fifo_config) (env : rx_env) (f : fifo_t) (i : uct_mm_iface_t) (elem_flags id len : Z) :
  option (fifo_t * uct_mm_iface_t * rx_event) :=
  e ← elems f !! elem_index cfg (read_index i);
  if negb (id <? UCT_AM_ID_MAX) then None
  else if negb (Z.land elem_flags UCT_MM_FIFO_ELEM_FLAG_INLINE =? 0) then
    match handler env with
    | UCS_OK => Some (f, i, RxMessage id (take (Z.to_nat len) (inline_data e)) None)
    | _ => None
    end
  else
    let data := take (Z.to_nat len) (default [] (bufs f !! desc_data e)) in
    match handler_desc env with
    | UCS_OK => Some (f, i, RxMessage id data None)
    | UCS_INPROGRESS =>
        d ← last_recv_desc i;
        let f := set_elems (<[elem_index cfg (read_index i) := set_desc d e]> (elems f)) f in
        let '(last, i) := mpool_get env i in
        Some (f, set_last_recv_desc last i, RxMessage id data (Some (desc_data e)))
    | _ => None
    end.

(** One step of [uct_mm_iface_poll_fifo], in the loop of [uct_mm_iface_progress]. *)
Definition uct_mm_iface_poll_fifo (cfg : fifo_config) (env : rx_env) (f : fifo_t) (i : uct_mm_iface_t) : option (fifo_t * uct_mm_iface_t * rx_event) :=
  match rpc i with
  | Poll n =>
      e ← elems f !! elem_index cfg (read_index i);
      if uct_mm_iface_fifo_has_new_data cfg i e then Some (f, set_rpc (CheckHead n) i, RxNone)
      else i ← progress_next cfg 0 n i; Some (f, i, RxNone)
  | CheckHead n =>
      if read_index i <=? unarmed (head f) then Some (f, set_rpc (Load n) i, RxNone) else None
  | Load n =>
      e ← elems f !! elem_index cfg (read_index i);
      let next i := set_rpc (Deliver n (flags e) (am_id e) (elem_length e)) i in
      if negb (Z.land (flags e) UCT_MM_FIFO_ELEM_FLAG_INLINE =? 0) then Some (f, next i, RxNone)
      else match last_recv_desc i with
           | Some _ => Some (f, next i, RxNone)
           | None =>
               let '(d, i) := mpool_get env i in
               match d with
               | Some _ => Some (f, next (set_last_recv_desc d i), RxNone)
               | None => Some (f, set_rpc (Advance n) i, RxDropped)
               end
           end
  | Deliver n elem_flags id len =>
      '(f, i, ev) ← uct_mm_iface_process_recv cfg env f i elem_flags id len;
      Some (f, set_rpc (Advance n) i, ev)
  | Advance n =>
      let i := set_read_index (u64 (read_index i + 1)) i in
      let f := uct_mm_progress_fifo_tail cfg i f in
      i ← progress_next cfg 1 n i;
      Some (f, i, RxNone)
  | _ => Some (f, i, RxNone)
  end.

(** One step of [uct_mm_iface_event_fd_arm] for [UCT_EVENT_RECV]. *)
Definition uct_mm_iface_event_fd_arm (env : rx_env) (f : fifo_t) (i : uct_mm_iface_t) : option (fifo_t * uct_mm_iface_t * rx_event) :=
  match rpc i with
  | ArmHead =>
      let h := head f in
      if read_index i <? unarmed h then Some (f, set_rpc RxIdle i, RxArm UCS_ERR_BUSY)
      else if armed_head h then Some (f, set_rpc ArmRecv i, RxNone)
      else Some (f, set_rpc (ArmCas h) i, RxNone)
  | ArmCas h =>
      if head f =? h
      then Some (set_head (Z.lor h UCT_MM_IFACE_FIFO_HEAD_EVENT_ARMED) f, set_rpc ArmRecv i, RxNone)
      else if armed_head (head f) then None
      else Some (f, set_rpc RxIdle i, RxArm UCS_ERR_BUSY)
  | ArmRecv =>
      let i := set_rpc RxIdle i in
      if 0 <? signals f then Some (set_signals (signals f - 1) f, i, RxArm UCS_ERR_BUSY)
      else Some (f, i, RxArm (match recv_errno env with EAGAIN => UCS_OK | EINTR => UCS_ERR_BUSY | _ => UCS_ERR_IO_ERROR end))
  | _ => Some (f, i, RxNone)
  end.

(** One step of the receiver. *)
Definition rx_step (cfg : fifo_config) (env : rx_env) (f : fifo_t) (i : uct_mm_iface_t) : option (fifo_t * uct_mm_iface_t * rx_event) :=
  match rpc i with
  | ArmHead | ArmCas _ | ArmRecv => uct_mm_iface_event_fd_arm env f i
  | _ => uct_mm_iface_poll_fifo cfg env f i
  end.

(** [uct_mm_iface_release_desc] *)
Definition uct_mm_iface_release_desc (d : uct_mm_desc_info_t) (i : uct_mm_iface_t) : uct_mm_iface_t :=
  set_recv_desc_mp (d :: recv_desc_mp i) i.

(** ** Creation *)

(** The user's configuration.  [release_fifo_factor] is the fraction
    [factor_num / factor_den]; its product with the size of the FIFO, a power of
    two, has no rounding error.  [None] is [UCS_ULUNITS_AUTO]. *)
Record uct_mm_iface_config_t := MmConfig {
  c_fifo_size : Z;
  c_fifo_elem_size : Z;
  c_fifo_max_poll : option Z;
  factor_num : Z;
  factor_den : positive
}.

Definition UCT_MM_IFACE_FIFO_MAX_POLL : Z := 16.

Definition iface_config (c : uct_mm_iface_config_t) : fifo_config :=
  Config (c_fifo_size c) (c_fifo_elem_size c)
    (match c_fifo_max_poll c with None => UCT_MM_IFACE_FIFO_MAX_POLL | Some n => Z.min n (2 ^ 32 - 1) end)
    (u32 (c_fifo_size c - 1)) (ucs_count_trailing_zero_bits (c_fifo_size c))
    (UCS_MASK (ucs_ilog2 (Z.max (c_fifo_size c * factor_num c / Zpos (factor_den c)) 1))).

(** The loop that gives each element the owner flag and a descriptor of the pool. *)
Fixpoint init_elems (n : nat) (pool : list uct_mm_desc_info_t) : option (list uct_mm_fifo_element_t * list uct_mm_desc_info_t) :=
  match n, pool with
  | O, _ => Some ([], pool)
  | S n, d :: pool =>
      '(es, pool) ← init_elems n pool;
      Some (Elem UCT_MM_FIFO_ELEM_FLAG_OWNER 0 0 d d [] :: es, pool)
  | S n, [] => None
  end.

(** The constructor of [uct_mm_iface_t]: the receiver and its empty FIFO, or an
    error.  [pool] are the descriptors of the memory pool. *)
Definition uct_mm_iface_init (c : uct_mm_iface_config_t) (pool : list uct_mm_desc_info_t) :
  ucs_status_t + (fifo_config * fifo_t * uct_mm_iface_t) :=
  if (c_fifo_size c <=? 1) || negb (ucs_is_pow2 (c_fifo_size c)) then inl UCS_ERR_INVALID_PARAM
  else if (factor_num c <? 0) || (Zpos (factor_den c) <=? factor_num c) then inl UCS_ERR_INVALID_PARAM
  else if c_fifo_elem_size c <=? sizeof_fifo_element then inl UCS_ERR_INVALID_PARAM
  else
    let cfg := iface_config c in
    match pool with
    | [] => inl UCS_ERR_NO_RESOURCE
    | d :: pool =>
        match init_elems (Z.to_nat (c_fifo_size c)) pool with
        | None => inl UCS_ERR_NO_RESOURCE
        | Some (es, pool) => inr (cfg, Fifo 0 0 es ∅ 0 0, Iface 0 (fifo_max_poll cfg) false (Some d) pool RxIdle)
        end
    end.

End MmFifo.
