(* ===== verification/MmSystem.v ===== *)
(** The shared memory FIFO with its receiver and its senders: the transition
    system of their interleaved steps, its invariant, and that the steps of the
    senders preserve it. *)

From stdpp Require Import gmap.
From S2P Require Import Prelude.
From S2P Require Import Bits.
From S2P Require Import MmFifo.

Module MmSystem.
Import Bits MmFifo.

(** ** The system *)

(** [sent] are the operations in the order in which they got their element, with
    the number of their endpoint; [recvd] what the receiver did with the elements,
    [None] when it dropped the message; [held] the descriptors that handlers
    keep, with the data that they were given; [abandoned] the elements whose
    sender returned an error; [armed] tells that the last call of the receiver is
    an arming that succeeded. *)
Record sys := Sys {
  fifo : fifo_t;
  eps : list uct_mm_ep_t;
  iface : uct_mm_iface_t;
  sent : list (nat * send_op);
  recvd : list (option (Z * list Z));
  held : list (uct_mm_desc_info_t * list Z);
  abandoned : list Z;
  armed : bool
}.

Inductive event :=
| Connect (fifo_seg_id : Z)
| Send (k : nat) (op : send_op)
| AddPending (k : nat) (op : send_op)
| ProcessPending (k : nat)
| Flush (k : nat)
| Purge (k : nat)
| EpStep (k : nat) (env : tx_env)
| Progress
| Arm
| RxStep (env : rx_env)
| Release (j : nat).

Definition with_ep (k : nat) (g : uct_mm_ep_t -> uct_mm_ep_t) (s : sys) : sys :=
  Sys (fifo s) (alter g k (eps s)) (iface s) (sent s) (recvd s) (held s) (abandoned s) (armed s).

(** A call to an endpoint is possible when no other is in progress. *)
Definition call (k : nat) (g : uct_mm_ep_t -> uct_mm_ep_t) (s : sys) : sys :=
  with_ep k (fun ep => match pc ep with Idle => g ep | _ => ep end) s.

Definition start (p : ep_pc) (ep : uct_mm_ep_t) : uct_mm_ep_t := set_pc p (set_ret None ep).

(** The operation that gets an element in a step of an endpoint. *)
Definition claims (f : fifo_t) (ep : uct_mm_ep_t) : option send_op :=
  match pc ep with CasHead _ op h => if head f =? h then Some op else None | _ => None end.

(** The element that an endpoint gives up in a step. *)
Definition abandons (ep ep' : uct_mm_ep_t) : option Z :=
  match pc ep, pc ep' with GetSeg _ _ h, Idle => Some (unarmed h) | _, _ => None end.

Definition ep_event (cfg : fifo_config) (k : nat) (env : tx_env) (s : sys) : option sys :=
  match eps s !! k with
  | None => Some s
  | Some ep =>
      '(f, ep') ← ep_step cfg env (fifo s) ep;
      Some (Sys f (<[k := ep']> (eps s)) (iface s)
              (sent s ++ match claims (fifo s) ep with Some op => [(k, op)] | None => [] end) (recvd s) (held s)
              (abandoned s ++ match abandons ep ep' with Some i => [i] | None => [] end) (armed s))
  end.

Definition rx_event_step (cfg : fifo_config) (env : rx_env) (s : sys) : option sys :=
  '(f, i, ev) ← rx_step cfg env (fifo s) (iface s);
  Some (Sys f (eps s) i (sent s)
          (recvd s ++ match ev with RxMessage id data _ => [Some (id, data)] | RxDropped => [None] | _ => [] end)
          (held s ++ match ev with RxMessage _ data (Some d) => [(d, data)] | _ => [] end)
          (abandoned s)
          (match ev with RxArm UCS_OK => true | RxArm _ => false | _ => armed s end)).

(** A call of the user of the receiver. *)
Definition rx_call (p : rx_pc) (s : sys) : sys :=
  match rpc (iface s) with
  | RxIdle => Sys (fifo s) (eps s) (set_rpc p (iface s)) (sent s) (recvd s) (held s) (abandoned s) false
  | _ => s
  end.

Definition step (cfg : fifo_config) (ev : event) (s : sys) : option sys :=
  match ev with
  | Connect seg => Some (Sys (fifo s) (eps s ++ [uct_mm_ep_init seg (fifo s)]) (iface s) (sent s) (recvd s) (held s) (abandoned s) (armed s))
  | Send k op =>
      Some (call k (fun ep => if op_check cfg op then start (LoadHead FromUser op) ep
                              else set_ret (Some (Status UCS_ERR_INVALID_PARAM)) ep) s)
  | AddPending k op =>
      Some (call k (fun ep => match ret ep with
                              | Some (Status UCS_ERR_NO_RESOURCE) => if op_check cfg op then set_pc (PendingAdd op) ep else ep
                              | _ => ep
                              end) s)
  | ProcessPending k => Some (call k (fun ep => match arb_group ep with [] => ep | _ => start PendingTail ep end) s)
  | Flush k => Some (call k (start FlushHead) s)
  | Purge k => Some (call k (fun ep => (uct_mm_ep_pending_purge ep).2) s)
  | EpStep k env => ep_event cfg k env s
  | Progress =>
      if UCT_MM_IFACE_FIFO_MIN_POLL <=? fifo_poll_count (iface s) then Some (rx_call (Poll 0) s) else None
  | Arm => Some (rx_call ArmHead s)
  | RxStep env => rx_event_step cfg env s
  | Release j =>
      match held s !! j with
      | Some (d, _) => Some (Sys (fifo s) (eps s) (uct_mm_iface_release_desc d (iface s)) (sent s) (recvd s)
                               (delete j (held s)) (abandoned s) (armed s))
      | None => Some s
      end
  end.

Fixpoint run (cfg : fifo_config) (es : list event) (s : sys) : option sys :=
  match es with
  | [] => Some s
  | ev :: es => s ← step cfg ev s; run cfg es s
  end.

(** ** Assumptions *)

(** The length of a message fits in the 16 bits of its element; attaching a segment
    does not fail with the status that stands for a full FIFO; handlers return what
    the interface allows. *)
Definition valid_event (ev : event) : bool :=
  match ev with
  | Send _ op | AddPending _ op => Z.of_nat (length (op_data op)) <? 2 ^ 16
  | EpStep _ env => negb (bool_decide (attach env = UCS_ERR_NO_RESOURCE))
  | RxStep env => bool_decide (handler env = UCS_OK) && bool_decide (handler_desc env = UCS_OK \/ handler_desc env = UCS_INPROGRESS)
  | _ => true
  end.

(** The head without the armed flag is the number of messages that got an element. *)
Definition head_index (s : sys) : Z := unarmed (head (fifo s)).

(** The counters that a step compares are less than [2 ^ 31] apart, and the head
    has not used up its 63 bits. *)
Definition fresh_event (ev : event) (s : sys) : bool :=
  match ev with
  | EpStep k _ =>
      match eps s !! k with
      | None => true
      | Some ep =>
          match pc ep with
          | LoadHead _ _ | PendingAdd _ | FlushHead | FlushAgain => head_index s - cached_tail ep <? 2 ^ 31
          | LoadTail _ _ h => head_index s - unarmed h <? 2 ^ 31
          | CasHead _ _ _ => head_index s + 1 <? 2 ^ 63
          | _ => true
          end
      end
  | _ => true
  end.

Fixpoint fresh (cfg : fifo_config) (es : list event) (s : sys) : bool :=
  match es with
  | [] => true
  | ev :: es => valid_event ev && fresh_event ev s && match step cfg ev s with Some s => fresh cfg es s | None => true end
  end.

(** The system after the creation of the interface. *)
Definition init (c : uct_mm_iface_config_t) (pool : list uct_mm_desc_info_t) : option (fifo_config * sys) :=
  match uct_mm_iface_init c pool with
  | inr (cfg, f, i) => Some (cfg, Sys f [] i [] [] [] [] false)
  | inl _ => None
  end.

(** ** Indices

    Elements are numbered without bound: message [i] uses element [i mod N], and
    its owner flag is the parity of [i / N]. *)

Record config_ok (cfg : fifo_config) (sh r : Z) : Prop := ConfigOk {
  co_shift : 1 <= sh <= 30;
  co_size : fifo_size cfg = 2 ^ sh;
  co_mask : fifo_mask cfg = 2 ^ sh - 1;
  co_fifo_shift : fifo_shift cfg = sh;
  co_release : 0 <= r < sh /\ fifo_release_factor_mask cfg = 2 ^ r - 1;
  co_poll : 1 <= fifo_max_poll cfg < 2 ^ 32 - 1
}.

Definition owner_ok (n i : Z) (e : uct_mm_fifo_element_t) : bool := (i / n) mod 2 =? flags e mod 2.

Lemma unarmed_mod h : 0 <= h < 2 ^ 64 -> unarmed h = h mod 2 ^ 63.
Proof.
  intros Hh. unfold unarmed, UCT_MM_IFACE_FIFO_HEAD_EVENT_ARMED. rewrite ucs_bit_pow by lia.
  rewrite <- Z.land_ones by lia. apply Z.bits_inj'. intros i Hi.
  rewrite Z.ldiff_spec, Z.land_spec, Z.testbit_ones, Z.pow2_bits_eqb by lia.
  destruct (Z.eqb_spec 63 i) as [<-|]; [by rewrite Z.ltb_irrefl, !andb_false_r|].
  destruct (Z.ltb_spec i 63); [by rewrite (proj2 (Z.leb_le 0 i))|].
  by rewrite (Z_bits_above 64) by lia.
Qed.

Lemma armed_head_spec h : 0 <= h < 2 ^ 64 -> armed_head h = (2 ^ 63 <=? h).
Proof.
  intros Hh. unfold armed_head, UCT_MM_IFACE_FIFO_HEAD_EVENT_ARMED. rewrite ucs_bit_pow, Z_land_bit by lia.
  destruct (Z.leb_spec (2 ^ 63) h).
  - replace (Z.testbit h 63) with true; [done|]. symmetry. apply Z.testbit_true; [lia|]. zify. Z.div_mod_to_equations. lia.
  - by rewrite (Z_bits_above 63) by lia.
Qed.

Section index.
Context (cfg : fifo_config) (sh r : Z).
Hypothesis Hcfg : config_ok cfg sh r.
Local Notation n := (2 ^ sh).

Lemma n_range : 2 <= n <= 2 ^ 30.
Proof.
  destruct Hcfg. split; [change 2 with (2 ^ 1) at 1|]; apply Z.pow_le_mono_r; lia.
Qed.

Lemma n_split : 2 ^ 63 = 2 ^ (63 - sh) * n.
Proof. destruct Hcfg. rewrite <- Z.pow_add_r by lia. f_equal. lia. Qed.

Lemma n_mod h : 0 <= h < 2 ^ 64 -> h mod n = unarmed h mod n.
Proof.
  intros Hh. rewrite unarmed_mod by done. destruct Hcfg. apply Znumtheory.Zmod_div_mod; [lia|lia|].
  rewrite n_split. exists (2 ^ (63 - sh)). lia.
Qed.

Lemma elem_index_spec h : 0 <= h < 2 ^ 64 -> elem_index cfg h = Z.to_nat (unarmed h mod n).
Proof.
  intros Hh. unfold elem_index. destruct Hcfg. rewrite co_mask0, Z.sub_1_r, <- Z.ones_equiv, Z.land_ones by lia.
  by rewrite n_mod.
Qed.

Lemma owner_flag_spec h : 0 <= h < 2 ^ 64 -> negb (Z.land h (fifo_size cfg) =? 0) = ((unarmed h / n) mod 2 =? 1).
Proof.
  intros Hh. destruct Hcfg. rewrite co_size0, Z_land_bit by lia. rewrite unarmed_mod by done.
  assert (Z.testbit h sh = Z.testbit (h mod 2 ^ 63) sh) as -> by (symmetry; apply Z.mod_pow2_bits_low; lia).
  destruct (Z.testbit _ sh) eqn:E.
  - apply Z.testbit_true in E; [|lia]. rewrite E, Z.eqb_refl. by rewrite (proj2 (Z.eqb_neq _ _)) by lia.
  - apply Z.testbit_false in E; [|lia]. by rewrite E.
Qed.

Lemma has_new_data_spec i e : uct_mm_iface_fifo_has_new_data cfg i e = owner_ok n (read_index i) e.
Proof.
  unfold uct_mm_iface_fifo_has_new_data, owner_ok. destruct Hcfg. rewrite co_fifo_shift0, Z.shiftr_div_pow2 by lia.
  change 1 with (Z.ones 1). by rewrite !Z.land_ones by lia.
Qed.

Lemma able_spec h c : 0 <= h < 2 ^ 64 -> - 2 ^ 31 <= unarmed h - c < 2 ^ 31 ->
  UCT_MM_EP_IS_ABLE_TO_SEND h c (fifo_size cfg) = (unarmed h - c <? n).
Proof.
  intros Hh Hd. pose proof n_range. destruct Hcfg. unfold UCT_MM_EP_IS_ABLE_TO_SEND. rewrite co_size0.
  rewrite (s_wrap_unique 32 n n) by lia. rewrite (s_wrap_unique 32 (h - c) (unarmed h - c)); [done|lia| |lia].
  rewrite unarmed_mod by done. rewrite (Z.div_mod h (2 ^ 63)) at 1 by lia.
  replace (2 ^ 63 * (h / 2 ^ 63) + h mod 2 ^ 63 - c) with (h mod 2 ^ 63 - c + (2 ^ 31 * (h / 2 ^ 63)) * 2 ^ 32) by lia.
  apply Z.mod_add. lia.
Qed.

Lemma owner_ok_next i e : owner_ok n (i + n) e = negb (owner_ok n i e).
Proof.
  pose proof n_range. unfold owner_ok. replace (i + n) with (i + 1 * n) by lia. rewrite Z.div_add by lia.
  pose proof (Z.mod_pos_bound (i / n) 2). pose proof (Z.mod_pos_bound (flags e) 2).
  destruct (Z.eqb_spec ((i / n) mod 2) (flags e mod 2)); cbn [negb]; [apply Z.eqb_neq|apply Z.eqb_eq];
    Z.div_mod_to_equations; lia.
Qed.

Lemma mod_inj i j a : a <= i < a + n -> a <= j < a + n -> i mod n = j mod n -> i = j.
Proof. pose proof n_range. intros Hi Hj E.
  pose proof (Z.div_mod i n ltac:(lia)) as Ei. pose proof (Z.div_mod j n ltac:(lia)) as Ej. rewrite E in Ei.
  assert (i / n = j / n) as Eq by nia. rewrite Eq in Ei. lia.
Qed.

(** ** The invariant *)

(** The bytes of the operation are in the element, or in its descriptor. *)
Definition written (f : fifo_t) (op : send_op) (e : uct_mm_fifo_element_t) : Prop :=
  match op with
  | AmBcopy _ _ => exists rest, bufs f !! desc e = Some (op_data op ++ rest)
  | _ => exists rest, inline_data e = op_data op ++ rest
  end.

Definition content (f : fifo_t) (op : send_op) (e : uct_mm_fifo_element_t) : Prop :=
  written f op e /\ elem_length e = Z.of_nat (length (op_data op)) /\ am_id e = op_id op /\
  Z.land (flags e) UCT_MM_FIFO_ELEM_FLAG_INLINE = op_flags op.

(** The element that an endpoint owns, with its operation and what is written. *)
Definition owns (p : ep_pc) : option (send_op * Z) :=
  match p with
  | GetSeg _ op h | Fill _ op h _ | SetLength _ op h | SetAmId _ op h | SetFlags _ op h => Some (op, h)
  | _ => None
  end.

Definition progress_ok (f : fifo_t) (p : ep_pc) (e : uct_mm_fifo_element_t) : Prop :=
  match p with
  | GetSeg _ op _ => exists id data, op = AmBcopy id data
  | Fill _ op _ None => forall id data, op <> AmBcopy id data
  | Fill _ op _ (Some d) => d = desc e /\ exists id data, op = AmBcopy id data
  | SetLength _ op _ => written f op e
  | SetAmId _ op _ => written f op e /\ elem_length e = Z.of_nat (length (op_data op))
  | SetFlags _ op _ => written f op e /\ elem_length e = Z.of_nat (length (op_data op)) /\ am_id e = op_id op
  | _ => True
  end.

Definition op_ok (op : send_op) : Prop :=
  (op_id op < UCT_AM_ID_MAX /\ Z.of_nat (length (op_data op)) < 2 ^ 16) /\
  match op with AmBcopy _ _ => True | _ => Z.of_nat (length (op_data op)) <= fifo_elem_size cfg - sizeof_fifo_element end.

(** The operation of a call. *)
Definition op_of (p : ep_pc) : option send_op :=
  match p with
  | LoadHead _ op | LoadTail _ op _ | CasHead _ op _ | GetSeg _ op _ | Fill _ op _ _ | SetLength _ op _ | SetAmId _ op _
  | SetFlags _ op _ | Signal _ op _ | PendingAdd op => Some op
  | _ => None
  end.

Definition valid_head (h : Z) : Prop := 0 <= h < 2 ^ 64.

(** An endpoint, when the head is at [hi] and the tail at [t]. *)
Record ep_ok (hi t : Z) (ep : uct_mm_ep_t) : Prop := EpOk {
  eo_tail : 0 <= cached_tail ep <= t;
  eo_op : forall op, op_of (pc ep) = Some op -> op_ok op;
  eo_group : forall op, PendingReq op ∈ arb_group ep -> op_ok op;
  eo_ret : ret ep = Some (Status UCS_ERR_NO_RESOURCE) -> n <= hi - cached_tail ep /\ (pc ep = Idle \/ exists op, pc ep = PendingAdd op);
  eo_pending : forall op, pc ep = PendingAdd op -> n <= hi - cached_tail ep;
  eo_head : match pc ep with
            | LoadTail _ _ h => valid_head h /\ unarmed h <= hi
            | CasHead _ _ h => valid_head h /\ unarmed h <= hi /\ (unarmed h = hi -> hi - cached_tail ep < n)
            | GetSeg _ _ h | Fill _ _ h _ | SetLength _ _ h | SetAmId _ _ h | SetFlags _ _ h | Signal _ _ h =>
                valid_head h /\ unarmed h < hi
            | _ => True
            end
}.

Definition slot (f : fifo_t) (i : Z) : option uct_mm_fifo_element_t := elems f !! Z.to_nat (i mod n).

(** The receiver. *)
Definition rx_ok (s : sys) : Prop :=
  let i := iface s in
  1 <= fifo_poll_count i <= fifo_max_poll cfg /\
  match rpc i with
  | Poll c => 0 <= c < fifo_poll_count i
  | CheckHead c | Load c | Advance c =>
      0 <= c < fifo_poll_count i /\ read_index i < head_index s /\
      exists e, slot (fifo s) (read_index i) = Some e /\ owner_ok n (read_index i) e = true
  | Deliver c fl id len =>
      0 <= c < fifo_poll_count i /\ read_index i < head_index s /\
      exists e, slot (fifo s) (read_index i) = Some e /\ owner_ok n (read_index i) e = true /\
      fl = flags e /\ id = am_id e /\ len = elem_length e /\
      (Z.land fl UCT_MM_FIFO_ELEM_FLAG_INLINE = 0 -> last_recv_desc i <> None)
  | ArmCas h => valid_head h /\ armed_head h = false /\ armed_head (head (fifo s)) = false /\ unarmed h = read_index i
  | _ => True
  end.

(** The sender has still to signal. *)
Definition wakes (p : ep_pc) : bool :=
  match p with
  | GetSeg _ _ h | Fill _ _ h _ | SetLength _ _ h | SetAmId _ _ h | SetFlags _ _ h | Signal _ _ h => armed_head h
  | _ => false
  end.

(** Something will wake up the receiver: the next sender, a signal, or a sender
    that has still to signal; or a sender has given up. *)
Definition will_wake (s : sys) : Prop :=
  (armed_head (head (fifo s)) = true /\ head_index s = read_index (iface s)) \/ 0 < signals (fifo s) \/
  (exists k ep, eps s !! k = Some ep /\ wakes (pc ep) = true) \/
  abandoned s <> [] \/ 0 < lost (fifo s).

(** The first message that the receiver has not processed. *)
Definition next_read (s : sys) : Z := read_index (iface s) + match rpc (iface s) with Advance _ => 1 | _ => 0 end.

Definition all_descs (s : sys) : list uct_mm_desc_info_t :=
  (desc <$> elems (fifo s)) ++ option_list (last_recv_desc (iface s)) ++ recv_desc_mp (iface s) ++ (held s).*1.

Record inv (s : sys) : Prop := Inv {
  iv_head : valid_head (head (fifo s)) /\ head_index s = Z.of_nat (length (sent s));
  iv_order : 0 <= tail (fifo s) <= read_index (iface s) /\ read_index (iface s) <= head_index s <= tail (fifo s) + n;
  iv_tail : read_index (iface s) - tail (fifo s) = read_index (iface s) mod 2 ^ r;
  iv_length : Z.of_nat (length (elems (fifo s))) = n;
  iv_sent : forall k op, (k, op) ∈ sent s -> op_ok op;
  iv_recvd : Z.of_nat (length (recvd s)) = next_read s /\
    forall j m, recvd s !! j = Some (Some m) -> exists k op, sent s !! j = Some (k, op) /\ m = (op_id op, op_data op);
  iv_published : forall i e, next_read s <= i < read_index (iface s) + n -> slot (fifo s) i = Some e ->
    owner_ok n i e = true -> exists k op, sent s !! Z.to_nat i = Some (k, op) /\ i < head_index s /\ content (fifo s) op e;
  iv_missing : forall i e, next_read s <= i < head_index s -> slot (fifo s) i = Some e -> owner_ok n i e = false ->
    i ∈ abandoned s \/ exists k ep op h, eps s !! k = Some ep /\ owns (pc ep) = Some (op, h) /\ unarmed h = i;
  iv_eps : forall k ep, eps s !! k = Some ep -> ep_ok (head_index s) (tail (fifo s)) ep;
  iv_owns : forall k ep op h, eps s !! k = Some ep -> owns (pc ep) = Some (op, h) ->
    next_read s <= unarmed h /\ unarmed h ∉ abandoned s /\ sent s !! Z.to_nat (unarmed h) = Some (k, op) /\
    exists e, slot (fifo s) (unarmed h) = Some e /\ owner_ok n (unarmed h) e = false /\ progress_ok (fifo s) (pc ep) e;
  iv_abandoned : forall i, i ∈ abandoned s -> next_read s <= i < head_index s /\
    exists e, slot (fifo s) i = Some e /\ owner_ok n i e = false;
  iv_rx : rx_ok s;
  iv_descs : NoDup (all_descs s) /\ forall e, e ∈ elems (fifo s) -> desc_data e = desc e;
  iv_held : forall d data, (d, data) ∈ held s -> exists rest, bufs (fifo s) !! d = Some (data ++ rest);
  iv_signals : 0 <= signals (fifo s) /\ 0 <= lost (fifo s);
  iv_wake : armed s = true \/ rpc (iface s) = ArmRecv -> will_wake s
}.

(** ** Preservation *)

Lemma next_read_range s : inv s -> read_index (iface s) <= next_read s <= read_index (iface s) + 1 /\ next_read s <= head_index s.
Proof.
  intros H. pose proof (iv_order _ H). destruct (iv_rx _ H) as [_ Hrx]. unfold next_read. destruct (rpc (iface s)); try lia.
Qed.

Lemma slot_exists s i : inv s -> exists e, slot (fifo s) i = Some e /\ e ∈ elems (fifo s).
Proof.
  intros H. pose proof (iv_length _ H). pose proof n_range. destruct (lookup_lt_is_Some_2 (elems (fifo s)) (Z.to_nat (i mod n))) as [e He].
  { pose proof (Z.mod_pos_bound i n). lia. }
  exists e. split; [done|]. by eapply list_elem_of_lookup_2.
Qed.

Lemma ep_ok_mono hi hi' t t' ep : ep_ok hi t ep -> hi <= hi' -> t <= t' -> ep_ok hi' t' ep.
Proof.
  intros [H1 H2 H3 H4 H5 H6] Hh Ht. constructor; try done.
  - lia.
  - intros E. destruct (H4 E). split; [lia|done].
  - intros op E. specialize (H5 op E). lia.
  - destruct (pc ep); try done; destruct H6 as [Hv H6]; split; try done; [lia|split; lia|lia..].
Qed.

Lemma slot_insert f j e' i : Z.of_nat (length (elems f)) = n ->
  elems f !! Z.to_nat (j mod n) <> None ->
  slot (set_elems (<[Z.to_nat (j mod n) := e']> (elems f)) f) i = if decide (i mod n = j mod n) then Some e' else slot f i.
Proof.
  intros Hl Hj. pose proof n_range. unfold slot. cbn [elems set_elems]. case_decide as E.
  - rewrite E, list_lookup_insert_eq; [done|]. by apply lookup_lt_is_Some, not_eq_None_Some.
  - rewrite list_lookup_insert_ne; [done|]. pose proof (Z.mod_pos_bound i n). pose proof (Z.mod_pos_bound j n). lia.
Qed.

(** Two elements of the window have different descriptors. *)
Lemma slot_desc_ne s i j e e' : inv s -> i mod n <> j mod n -> slot (fifo s) i = Some e -> slot (fifo s) j = Some e' -> desc e <> desc e'.
Proof.
  intros H Hij Hi Hj E. destruct (iv_descs _ H) as [Hnd _]. unfold all_descs in Hnd. apply NoDup_app in Hnd as [Hnd _].
  pose proof n_range. pose proof (Z.mod_pos_bound i n). pose proof (Z.mod_pos_bound j n). apply Hij.
  apply Z2Nat.inj; [lia|lia|]. eapply (NoDup_lookup _ _ _ (desc e) Hnd); rewrite list_lookup_fmap; unfold slot in *.
  - by rewrite Hi.
  - by rewrite Hj, E.
Qed.

Lemma slot_desc_held s i e d data : inv s -> slot (fifo s) i = Some e -> (d, data) ∈ held s -> d <> desc e.
Proof.
  intros H Hi Hd ->. destruct (iv_descs _ H) as [Hnd _]. unfold all_descs in Hnd. apply NoDup_app in Hnd as (_ & Hnd & _).
  apply (Hnd (desc e)).
  - apply list_elem_of_fmap_2. by eapply list_elem_of_lookup_2.
  - rewrite !elem_of_app. right. right. by apply (list_elem_of_fmap_2 fst _ (desc e, data)).
Qed.

Lemma owned_range s k ep op h : inv s -> eps s !! k = Some ep -> owns (pc ep) = Some (op, h) ->
  next_read s <= unarmed h < head_index s.
Proof.
  intros H Hk Ho. destruct (iv_owns _ H _ _ _ _ Hk Ho) as (O1 & _ & O3 & _). apply lookup_lt_Some in O3.
  rewrite (proj2 (iv_head _ H)) in *. pose proof (iv_order _ H). pose proof (next_read_range _ H). lia.
Qed.

(** *** Steps of an endpoint *)

Definition upd_ep (k : nat) (ep : uct_mm_ep_t) (f : fifo_t) (s : sys) : sys :=
  Sys f (<[k := ep]> (eps s)) (iface s) (sent s) (recvd s) (held s) (abandoned s) (armed s).

Lemma eps_insert s k ep ep' f j x : eps s !! k = Some ep -> eps (upd_ep k ep' f s) !! j = Some x ->
  (j = k /\ x = ep') \/ (j <> k /\ eps s !! j = Some x).
Proof.
  intros Hk. unfold upd_ep. cbn [eps]. destruct (decide (j = k)) as [->|Hne].
  - rewrite list_lookup_insert_eq by (by eapply lookup_lt_Some). intros [= ->]. by left.
  - rewrite list_lookup_insert_ne by done. by right.
Qed.

Lemma wake_upd s k ep ep' f : eps s !! k = Some ep -> head f = head (fifo s) -> signals f = signals (fifo s) -> lost f = lost (fifo s) ->
  (wakes (pc ep) = true -> wakes (pc ep') = true) -> will_wake s -> will_wake (upd_ep k ep' f s).
Proof.
  intros Hk Hh Hs Hlost Hw [[H1 H2]|[H|[(j & x & Hj & Hx)|H]]].
  - left. unfold head_index in *. cbn. by rewrite Hh.
  - right. left. cbn. by rewrite Hs.
  - right. right. left. destruct (decide (j = k)) as [->|Hne].
    + exists k, ep'. cbn. rewrite list_lookup_insert_eq by (by eapply lookup_lt_Some). simplify_eq. auto.
    + exists j, x. cbn. by rewrite list_lookup_insert_ne.
  - right. right. right. cbn. by rewrite Hlost.
Qed.

(** A step that changes nothing shared, and not what the endpoint owns. *)
Lemma inv_ep_local s k ep ep' : inv s -> eps s !! k = Some ep -> ep_ok (head_index s) (tail (fifo s)) ep' ->
  owns (pc ep') = owns (pc ep) ->
  (forall op h e, owns (pc ep) = Some (op, h) -> slot (fifo s) (unarmed h) = Some e -> progress_ok (fifo s) (pc ep) e ->
     progress_ok (fifo s) (pc ep') e) ->
  (wakes (pc ep) = true -> wakes (pc ep') = true) -> inv (upd_ep k ep' (fifo s) s).
Proof.
  intros H Hk Hok Ho Hp Hw. destruct H as [H1 H2 H3 H4 H5 H6 H7 H8 H9 H10 H11 H12 H13 H14 H15 H16]. constructor; try done.
  - intros i e Hi He Hno. destruct (H8 i e Hi He Hno) as [?|(j & x & op & h & Hj & Hx & Hu)]; [by left|right].
    destruct (decide (j = k)) as [->|Hne].
    + exists k, ep', op, h. cbn. rewrite list_lookup_insert_eq by (by eapply lookup_lt_Some). simplify_eq. by rewrite Ho.
    + exists j, x, op, h. cbn. by rewrite list_lookup_insert_ne.
  - intros j x Hj. destruct (eps_insert _ _ _ _ _ _ _ Hk Hj) as [[-> ->]|[_ Hj']]; [done|by apply (H9 j)].
  - intros j x op h Hj Hx. destruct (eps_insert _ _ _ _ _ _ _ Hk Hj) as [[-> ->]|[_ Hj']]; [|by apply (H10 j)].
    rewrite Ho in Hx. destruct (H10 k ep op h Hk Hx) as (A1 & A2 & A3 & e & A4 & A5 & A6). split_and!; try done.
    exists e. split_and!; try done. by eapply Hp.
  - intros Ha. apply (wake_upd _ _ _ _ _ Hk); try done. by apply H16.
Qed.

(** The owner of element [i] writes to it, or to its descriptor. *)
Record owner_write (f f' : fifo_t) (i : Z) (e e' : uct_mm_fifo_element_t) : Prop := OwnerWrite {
  ow_slot : slot f i = Some e;
  ow_elems : elems f' = <[Z.to_nat (i mod n) := e']> (elems f);
  ow_desc : desc e' = desc e /\ desc_data e' = desc_data e;
  ow_bufs : forall d, d <> desc e -> bufs f' !! d = bufs f !! d;
  ow_ctl : head f' = head f /\ tail f' = tail f /\ signals f' = signals f /\ lost f' = lost f
}.

Lemma owner_write_slot f f' i e e' j : Z.of_nat (length (elems f)) = n -> owner_write f f' i e e' ->
  slot f' j = if decide (j mod n = i mod n) then Some e' else slot f j.
Proof.
  intros Hl [H1 H2 _ _ _]. rewrite <- slot_insert; [|done|].
  - unfold slot. cbn [elems set_elems]. by rewrite H2.
  - unfold slot in H1. by rewrite H1.
Qed.

Lemma owner_write_written s f' i e e' j x op : inv s -> owner_write (fifo s) f' i e e' -> j mod n <> i mod n ->
  slot (fifo s) j = Some x -> written (fifo s) op x -> written f' op x.
Proof.
  intros H Hw Hij Hj. unfold written. destruct op; try done.
  intros [rest Hb]. exists rest. rewrite (ow_bufs _ _ _ _ _ Hw); [done|].
  by apply (slot_desc_ne s j i _ _ H Hij Hj), (ow_slot _ _ _ _ _ Hw).
Qed.

Lemma owner_write_content s f' i e e' j x op : inv s -> owner_write (fifo s) f' i e e' -> j mod n <> i mod n ->
  slot (fifo s) j = Some x -> content (fifo s) op x -> content f' op x.
Proof. intros H Hw Hij Hj (Hc & Hc'). split; [|done]. by eapply owner_write_written. Qed.

Lemma owner_write_progress s f' i e e' j x p : inv s -> owner_write (fifo s) f' i e e' -> j mod n <> i mod n ->
  slot (fifo s) j = Some x -> progress_ok (fifo s) p x -> progress_ok f' p x.
Proof.
  intros H Hw Hij Hj. destruct p; try done; unfold progress_ok.
  - by apply (owner_write_written s f' i e e' j).
  - intros [Hc Hc']. split; [|done]. by eapply owner_write_written.
  - intros [Hc Hc']. split; [|done]. by eapply owner_write_written.
Qed.

Lemma owner_write_descs s f' i e e' : inv s -> owner_write (fifo s) f' i e e' ->
  desc <$> elems f' = desc <$> elems (fifo s) /\ forall x, x ∈ elems f' -> desc_data x = desc x.
Proof.
  intros H [H1 H2 [H3 H4] _ _]. destruct (iv_descs _ H) as [_ Hd]. unfold slot in H1. split.
  - rewrite H2, list_fmap_insert, H3. apply list_insert_id. by rewrite list_lookup_fmap, H1.
  - rewrite H2. intros x [j Hj]%list_elem_of_lookup. apply list_lookup_insert_Some in Hj as [(_ & -> & _)|[_ Hj]].
    + rewrite H3, H4. apply Hd. by eapply list_elem_of_lookup_2.
    + apply Hd. by eapply list_elem_of_lookup_2.
Qed.

(** The receiver looks only at published elements. *)
Lemma owner_write_rx s f' k ep' i e e' : inv s -> owner_write (fifo s) f' i e e' -> next_read s <= i < head_index s ->
  owner_ok n i e = false -> rx_ok (upd_ep k ep' f' s).
Proof.
  intros H Hw Hi He. destruct (iv_rx _ H) as [Hp Hrx]. split; [done|]. pose proof (ow_ctl _ _ _ _ _ Hw) as (Eh & _ & _).
  pose proof (next_read_range _ H). pose proof (iv_order _ H) as Ho.
  assert (forall x, slot (fifo s) (read_index (iface s)) = Some x -> owner_ok n (read_index (iface s)) x = true ->
    slot f' (read_index (iface s)) = Some x) as Hs.
  { intros x Hx Hox. rewrite (owner_write_slot _ _ _ _ _ _ (iv_length _ H) Hw). case_decide as Em; [|done].
    apply (mod_inj _ _ (read_index (iface s))) in Em; [|lia|lia]. subst i. rewrite (ow_slot _ _ _ _ _ Hw) in Hx. congruence. }
  unfold head_index in *. cbn [upd_ep fifo iface] in *. rewrite Eh. destruct (rpc (iface s)); try done.
  1,2,4: destruct Hrx as (? & ? & x & Hx & Hox); split; [done|]; split; [done|]; exists x; auto.
  destruct Hrx as (? & ? & x & Hx & Hox & ?). split; [done|]. split; [done|]. exists x. auto.
Qed.

(** A write of an owner that does not publish the element. *)
Lemma inv_owner_write s k ep ep' op h f' e e' : inv s -> eps s !! k = Some ep -> owns (pc ep) = Some (op, h) ->
  owner_write (fifo s) f' (unarmed h) e e' -> ep_ok (head_index s) (tail (fifo s)) ep' ->
  (wakes (pc ep) = true -> wakes (pc ep') = true) ->
  (owner_ok n (unarmed h) e' = false /\ owns (pc ep') = Some (op, h) /\ progress_ok f' (pc ep') e') \/
  (owner_ok n (unarmed h) e' = true /\ owns (pc ep') = None /\ content f' op e') ->
  inv (upd_ep k ep' f' s).
Proof.
  intros H Hk Ho Hw Hok Hwk Hcase. pose proof (next_read_range _ H) as Hn. pose proof (ow_ctl _ _ _ _ _ Hw) as (Eh & Et & Es & El).
  destruct (iv_owns _ H _ _ _ _ Hk Ho) as (O1 & O2 & O3 & e0 & O4 & O5 & O6).
  pose proof (ow_slot _ _ _ _ _ Hw) as O7. simplify_eq.
  pose proof (owned_range _ _ _ _ _ H Hk Ho) as O8.
  pose proof (fun j => owner_write_slot _ _ _ _ _ j (iv_length _ H) Hw) as Hslot.
  pose proof (iv_order _ H) as Hord. set (i := unarmed h) in *.
  assert (forall j, read_index (iface s) <= j < read_index (iface s) + n -> j <> i -> j mod n <> i mod n) as Hne.
  { intros j Hj Hji E. apply Hji. eapply (mod_inj j i (read_index (iface s))); [done|lia|done]. }
  constructor; unfold head_index, next_read in *; cbn [upd_ep fifo eps iface sent recvd held abandoned armed]; rewrite ?Eh, ?Et, ?Es, ?El.
  - apply H.
  - done.
  - apply H.
  - rewrite (ow_elems _ _ _ _ _ Hw), length_insert. apply H.
  - apply H.
  - apply H.
  - intros j x Hj Hx Hox. rewrite Hslot in Hx. case_decide as Em.
    + apply (mod_inj _ _ (read_index (iface s))) in Em; [|lia|lia]. subst j. simplify_eq.
      destruct Hcase as [(? & _)|(_ & _ & Hc)]; [congruence|]. exists k, op. split_and!; [done|lia|done].
    + destruct (iv_published _ H j x Hj Hx Hox) as (k' & op' & A1 & A2 & A3). exists k', op'. split_and!; try done.
      by eapply (owner_write_content s f' i).
  - intros j x Hj Hx Hox. rewrite Hslot in Hx. case_decide as Em.
    + apply (mod_inj _ _ (read_index (iface s))) in Em; [|lia|lia]. subst j. simplify_eq. right.
      destruct Hcase as [(_ & Hc & _)|(? & _)]; [|congruence]. exists k, ep', op, h.
      rewrite list_lookup_insert_eq by (by eapply lookup_lt_Some). done.
    + destruct (iv_missing _ H j x Hj Hx Hox) as [?|(k' & y & op' & h' & A1 & A2 & A3)]; [by left|right].
      exists k', y, op', h'. rewrite list_lookup_insert_ne; [done|]. intros ->. simplify_eq.
  - intros j y Hj. destruct (eps_insert s k ep ep' f' j y Hk Hj) as [[-> ->]|[_ Hj']]; [done|by apply (iv_eps _ H j)].
  - intros j y op' h' Hj Hy. destruct (eps_insert s k ep ep' f' j y Hk Hj) as [[-> ->]|[Hjk Hj']].
    + destruct Hcase as [(C1 & C2 & C3)|(_ & ? & _)]; [|congruence]. rewrite C2 in Hy. simplify_eq. split_and!; try done.
      exists e'. rewrite Hslot, decide_True by done. done.
    + destruct (iv_owns _ H j y op' h' Hj' Hy) as (A1 & A2 & A3 & x & A4 & A5 & A6). split_and!; try done.
      assert (unarmed h' <> i) as Hi by (intros E; rewrite E in A3; congruence).
      assert (unarmed h' mod n <> i mod n) as Hm.
      { apply Hne; [|done]. pose proof (owned_range _ _ _ _ _ H Hj' Hy). unfold head_index, next_read in *. lia. }
      exists x. rewrite Hslot, decide_False by done. split_and!; try done. by eapply (owner_write_progress s f' i).
  - intros j Hj. destruct (iv_abandoned _ H j Hj) as (A1 & x & A2 & A3). split; [done|]. exists x.
    rewrite Hslot, decide_False; [done|]. unfold head_index, next_read in *. apply Hne; [lia|]. by intros ->.
  - by eapply owner_write_rx.
  - destruct (owner_write_descs _ _ _ _ _ H Hw) as [D1 D2]. split; [|done]. unfold all_descs. cbn. rewrite D1. apply H.
  - intros d data Hd. rewrite (ow_bufs _ _ _ _ _ Hw); [by apply (iv_held _ H)|]. by eapply slot_desc_held.
  - apply H.
  - intros Ha. apply (wake_upd _ _ _ _ _ Hk); try done. by apply (iv_wake _ H).
Qed.

(** The head after a claim. *)
Lemma unarmed_next h : valid_head h -> unarmed h + 1 < 2 ^ 63 ->
  valid_head (unarmed (u64 (h + 1))) /\ unarmed (unarmed (u64 (h + 1))) = unarmed h + 1 /\ armed_head (unarmed (u64 (h + 1))) = false.
Proof.
  unfold valid_head. intros Hv Hh. pose proof (u_wrap_range 64 (h + 1) ltac:(lia)) as Hu.
  assert (unarmed (u64 (h + 1)) = unarmed h + 1) as E.
  { rewrite (unarmed_mod h) in * by lia. rewrite unarmed_mod by lia. unfold u_wrap.
    assert ((h + 1) mod 2 ^ 64 = h + 1) as -> by (apply Z.mod_small; Z.div_mod_to_equations; lia).
    Z.div_mod_to_equations; lia. }
  rewrite E. assert (0 <= unarmed h) by (rewrite unarmed_mod by lia; apply Z.mod_pos_bound; lia).
  split; [lia|]. split.
  - rewrite unarmed_mod by lia. apply Z.mod_small. lia.
  - rewrite armed_head_spec by lia. apply Z.leb_gt. lia.
Qed.

(** A compare-and-swap of the head that succeeds. *)
Definition claimed (k : nat) (ep : uct_mm_ep_t) (op : send_op) (s : sys) : sys :=
  Sys (set_head (unarmed (u64 (head (fifo s) + 1))) (fifo s)) (<[k := ep]> (eps s)) (iface s) (sent s ++ [(k, op)]) (recvd s)
    (held s) (abandoned s) (armed s).

Lemma inv_claim s k ep ep' c op : inv s -> eps s !! k = Some ep -> pc ep = CasHead c op (head (fifo s)) ->
  ep' = set_pc (match op with AmBcopy _ _ => GetSeg c op (head (fifo s)) | _ => Fill c op (head (fifo s)) None end) ep ->
  head_index s + 1 < 2 ^ 63 -> inv (claimed k ep' op s).
Proof.
  intros H Hk Hpc Ep Hb. pose proof (iv_order _ H) as Hord. pose proof (next_read_range _ H) as Hn.
  destruct (unarmed_next (head (fifo s))) as (U1 & U2 & U3); [apply H|done|].
  destruct (iv_head _ H) as [Hv Hl]. pose proof (iv_eps _ H _ _ Hk) as [E1 E2 E3 E4 E5 E6].
  rewrite Hpc in *. destruct E6 as (_ & _ & E6). specialize (E6 eq_refl).
  assert (head_index (claimed k ep' op s) = head_index s + 1) as Ehi by done.
  assert (owns (pc ep') = Some (op, head (fifo s))) as Eo by (subst ep'; by destruct op).
  assert (forall j x, sent s !! j = Some x -> (sent s ++ [(k, op)]) !! j = Some x) as Hsent.
  { intros j x Hj. rewrite lookup_app_l; [done|]. by eapply lookup_lt_Some. }
  assert ((sent s ++ [(k, op)]) !! Z.to_nat (head_index s) = Some (k, op)) as Hnew.
  { rewrite Hl, Nat2Z.id. apply list_lookup_middle. done. }
  constructor; rewrite ?Ehi; unfold claimed, next_read in *; cbn [fifo eps iface sent recvd held abandoned armed set_head head tail elems bufs signals].
  - split; [done|]. rewrite length_app. cbn. lia.
  - lia.
  - apply H.
  - apply H.
  - intros k' op' [Hin|Hin]%elem_of_app; [by apply (iv_sent _ H k')|]. apply list_elem_of_singleton in Hin. simplify_eq. by apply E2.
  - destruct (iv_recvd _ H) as [R1 R2]. split; [done|]. intros j m Hj. destruct (R2 j m Hj) as (k' & op' & A1 & A2).
    exists k', op'. split; [by apply Hsent|done].
  - intros i e Hi He Hoe. destruct (iv_published _ H i e Hi He Hoe) as (k' & op' & A1 & A2 & A3). exists k', op'.
    split_and!; [by apply Hsent|lia|done].
  - intros i e Hi He Hoe. destruct (decide (i = head_index s)) as [->|Hne].
    + right. exists k, ep', op, (head (fifo s)). rewrite list_lookup_insert_eq by (by eapply lookup_lt_Some). done.
    + destruct (iv_missing _ H i e ltac:(unfold next_read; lia) He Hoe) as [?|(k' & y & op' & h' & A1 & A2 & A3)]; [by left|right].
      exists k', y, op', h'. rewrite list_lookup_insert_ne; [done|]. intros ->. simplify_eq. by rewrite Hpc in A2.
  - intros j y Hj. destruct (eps_insert s k ep ep' (fifo s) j y Hk Hj) as [[-> ->]|[_ Hj']].
    + subst ep'. constructor; try done.
      * intros op' Hop. apply E2. by destruct op.
      * intros E. destruct (E4 E) as [_ [?|[op' ?]]]; done.
      * intros op' Hop. by destruct op.
      * destruct op; (split; [done|]); unfold head_index; lia.
    + eapply ep_ok_mono; [by apply (iv_eps _ H j)|lia|lia].
  - intros j y op' h' Hj Hy. destruct (eps_insert s k ep ep' (fifo s) j y Hk Hj) as [[-> ->]|[_ Hj']].
    + rewrite Eo in Hy. simplify_eq. split; [unfold head_index in *; lia|]. split.
      { intros Hab. destruct (iv_abandoned _ H _ Hab) as [? _]. unfold head_index in *. lia. }
      split; [done|]. destruct (slot_exists s (head_index s) H) as (e & He & _). exists e. split; [done|]. split.
      * destruct (owner_ok n (head_index s) e) eqn:Eoe; [|done].
        destruct (iv_published _ H (head_index s) e) as (_ & _ & _ & ? & _); [unfold next_read; lia|done|done|lia].
      * destruct op'; cbn; eauto.
    + destruct (iv_owns _ H j y op' h' Hj' Hy) as (A1 & A2 & A3 & A4). split_and!; try done. by apply Hsent.
  - intros i Hi. destruct (iv_abandoned _ H i Hi) as [? ?]. split; [unfold next_read in *; lia|done].
  - destruct (iv_rx _ H) as [P1 P2]. split; [done|]. rewrite Ehi. cbn [iface fifo]. destruct (rpc (iface s)); try done.
    1,2,4: destruct P2 as (? & ? & ?); split; [done|]; split; [lia|done].
    + destruct P2 as (? & ? & ?). split; [done|]. split; [lia|done].
    + destruct P2 as (? & ? & ? & ?). done.
  - apply H.
  - apply H.
  - apply H.
  - intros Ha. destruct (iv_wake _ H Ha) as [[W1 W2]|[W|[(j & y & Hj & Hy)|W]]].
    + right. right. left. exists k, ep'. cbn. rewrite list_lookup_insert_eq by (by eapply lookup_lt_Some).
      split; [done|]. subst ep'. by destruct op.
    + right. by left.
    + right. right. left. exists j, y. cbn. rewrite list_lookup_insert_ne; [done|]. intros ->. simplify_eq. by rewrite Hpc in Hy.
    + right. right. by right.
Qed.

(** An endpoint whose call returns. *)
Lemma returns_ok hi t c res ep : 0 <= cached_tail ep <= t -> (forall op, PendingReq op ∈ arb_group ep -> op_ok op) ->
  ret ep <> Some (Status UCS_ERR_NO_RESOURCE) \/ c = FromUser ->
  (res = Status UCS_ERR_NO_RESOURCE -> n <= hi - cached_tail ep) -> ep_ok hi t (returns c res ep).
Proof.
  intros H1 H2 H3 H4. unfold returns. destruct c.
  - constructor; try done. cbn. intros [= E]. split; [by apply H4|by left].
  - destruct H3 as [H3|]; [|done]. assert (ep_ok hi t (set_pc Idle ep)) as Hok by (constructor; done).
    assert (ep_ok hi t (set_arb_group (List.tl (arb_group ep)) (set_pc Idle ep))) as Hok2.
    { constructor; try done. intros op Hop. apply H2. cbn in Hop. destruct (arb_group ep); [done|by right]. }
    destruct res as [[]|]; done.
Qed.

Lemma owns_returns c res ep : owns (pc (returns c res ep)) = None /\ wakes (pc (returns c res ep)) = false /\ pc (returns c res ep) = Idle.
Proof. destruct c; [done|]. by destruct res as [[]|]. Qed.

(** A call that is in progress has not returned before. *)
Lemma busy_ret hi t ep : ep_ok hi t ep -> pc ep <> Idle -> (forall op, pc ep <> PendingAdd op) ->
  ret ep <> Some (Status UCS_ERR_NO_RESOURCE).
Proof. intros H H1 H2 E. destruct (eo_ret _ _ _ H E) as [_ [?|[op ?]]]; [done|by apply (H2 op)]. Qed.

(** The sender gives up its element: it cannot attach the segment. *)
Lemma inv_abandon s k ep ep' op h : inv s -> eps s !! k = Some ep -> owns (pc ep) = Some (op, h) ->
  ep_ok (head_index s) (tail (fifo s)) ep' -> owns (pc ep') = None ->
  inv (Sys (fifo s) (<[k := ep']> (eps s)) (iface s) (sent s) (recvd s) (held s) (abandoned s ++ [unarmed h]) (armed s)).
Proof.
  intros H Hk Ho Hok Ho'. destruct (iv_owns _ H _ _ _ _ Hk Ho) as (O1 & O2 & O3 & e0 & O4 & O5 & _).
  pose proof (owned_range _ _ _ _ _ H Hk Ho) as O6.
  destruct H as [H1 H2 H3 H4 H5 H6 H7 H8 H9 H10 H11 H12 H13 H14 H15 H16]. constructor; try done.
  - intros i e Hi He Hno. destruct (H8 i e Hi He Hno) as [?|(j & x & op' & h' & Hj & Hx & Hu)].
    + left. apply elem_of_app. by left.
    + destruct (decide (j = k)) as [->|Hne].
      * left. simplify_eq. apply elem_of_app. right. by left.
      * right. exists j, x, op', h'. cbn. by rewrite list_lookup_insert_ne.
  - intros j x Hj. destruct (eps_insert s k ep ep' (fifo s) j x Hk Hj) as [[-> ->]|[_ Hj']]; [done|by apply (H9 j)].
  - intros j x op' h' Hj Hx. destruct (eps_insert s k ep ep' (fifo s) j x Hk Hj) as [[-> ->]|[Hjk Hj']]; [congruence|].
    destruct (H10 j x op' h' Hj' Hx) as (A1 & A2 & A3 & A4). split_and!; try done. cbn. intros [?|E]%elem_of_app; [done|].
    apply list_elem_of_singleton in E. rewrite E in A3. congruence.
  - intros i [Hi|Hi]%elem_of_app; [by apply H11|]. apply list_elem_of_singleton in Hi as ->. split; [done|]. by exists e0.
  - intros _. right. right. right. left. cbn. by destruct (abandoned s).
Qed.

(** The sender has signalled, or lost its signal. *)
Lemma inv_signal s k ep ep' v w : inv s -> eps s !! k = Some ep -> owns (pc ep) = None ->
  ep_ok (head_index s) (tail (fifo s)) ep' -> owns (pc ep') = None -> 0 <= v -> 0 <= w -> 0 < v \/ 0 < w ->
  inv (upd_ep k ep' (set_lost w (set_signals v (fifo s))) s).
Proof.
  intros H Hk Ho Hok Ho' Hv Hw Hvw.
  destruct H as [H1 H2 H3 H4 H5 H6 H7 H8 H9 H10 H11 H12 H13 H14 H15 H16]. constructor; try done.
  - intros i e Hi He Hno. destruct (H8 i e Hi He Hno) as [?|(j & x & op & h & Hj & Hx & Hu)]; [by left|right].
    exists j, x, op, h. cbn. rewrite list_lookup_insert_ne; [done|]. intros ->. simplify_eq.
  - intros j x Hj. destruct (eps_insert s k ep ep' _ j x Hk Hj) as [[-> ->]|[_ Hj']]; [done|by apply (H9 j)].
  - intros j x op h Hj Hx. destruct (eps_insert s k ep ep' _ j x Hk Hj) as [[-> ->]|[_ Hj']]; [congruence|by apply (H10 j)].
  - intros _. destruct Hvw; [right; by left|right; right; right; by right].
Qed.

(** A step of an endpoint and its result. *)
Definition ep_result (k : nat) (env : tx_env) (s : sys) : Prop := exists s', ep_event cfg k env s = Some s' /\ inv s'.

Lemma ep_result_upd s k ep env f ep' : eps s !! k = Some ep -> ep_step cfg env (fifo s) ep = Some (f, ep') ->
  claims (fifo s) ep = None -> abandons ep ep' = None -> inv (upd_ep k ep' f s) -> ep_result k env s.
Proof.
  intros Hk E Hc Ha H. eexists. split; [|exact H]. unfold ep_event. rewrite Hk, (bind_eq _ _ _ E), Hc, Ha, !app_nil_r. done.
Qed.

(** Only the place and the cached tail of the endpoint change. *)
Lemma ep_result_local s k ep env ep' : inv s -> eps s !! k = Some ep -> ep_step cfg env (fifo s) ep = Some (fifo s, ep') ->
  claims (fifo s) ep = None -> owns (pc ep) = None -> wakes (pc ep) = false ->
  owns (pc ep') = None -> ep_ok (head_index s) (tail (fifo s)) ep' -> ep_result k env s.
Proof.
  intros H Hk E Hc Ho Hw Ho' Hok. eapply ep_result_upd; try done.
  - unfold abandons. destruct (pc ep); try done.
  - apply (inv_ep_local s k ep ep' H Hk Hok); [congruence| |congruence]. intros op h e Hx. congruence.
Qed.

Lemma load_head_ok s k ep env c op : inv s -> eps s !! k = Some ep -> pc ep = LoadHead c op ->
  head_index s - cached_tail ep < 2 ^ 31 -> ep_result k env s.
Proof.
  intros H Hk Hpc Hf. pose proof (iv_eps _ H _ _ Hk) as Hok. pose proof (iv_order _ H) as Hord.
  pose proof (eo_tail _ _ _ Hok) as Ht. destruct (iv_head _ H) as [Hv _].
  assert (UCT_MM_EP_IS_ABLE_TO_SEND (head (fifo s)) (cached_tail ep) (fifo_size cfg) = (head_index s - cached_tail ep <? n)) as Hab
    by (apply able_spec; [done|unfold head_index in *; lia]).
  assert (ret ep <> Some (Status UCS_ERR_NO_RESOURCE)) as Hret by (eapply busy_ret; try done; by rewrite Hpc).
  assert (forall p, op_of p = Some op -> (forall o, p <> PendingAdd o) ->
    match p with LoadTail _ _ h => h = head (fifo s) | CasHead _ _ h => h = head (fifo s) /\ head_index s - cached_tail ep < n | _ => False end ->
    ep_ok (head_index s) (tail (fifo s)) (set_pc p ep)) as Hnew.
  { intros p Hp Hpa Hm. destruct Hok as [E1 E2 E3 E4 E5 E6]. constructor; try done.
    - intros op' Ho. apply E2. rewrite Hpc. cbn in *. congruence.
    - intros op' Ho. by apply Hpa in Ho.
    - cbn. destruct p; try done; [rewrite Hm|destruct Hm as [-> Hm]]; unfold head_index in *; split_and!; try done; lia. }
  destruct (UCT_MM_EP_IS_ABLE_TO_SEND (head (fifo s)) (cached_tail ep) (fifo_size cfg)) eqn:Eab.
  { apply (ep_result_local s k ep env (set_pc (CasHead c op (head (fifo s))) ep)); try done; unfold ep_step, claims, uct_mm_ep_am_common_send; rewrite ?Hpc, ?Eab; try done.
    apply Hnew; try done. split; [done|]. symmetry in Hab. by apply Z.ltb_lt in Hab. }
  symmetry in Hab. apply Z.ltb_ge in Hab. destruct (arb_group ep) eqn:Eg.
  - apply (ep_result_local s k ep env (set_pc (LoadTail c op (head (fifo s))) ep)); try done; unfold ep_step, claims, uct_mm_ep_am_common_send; rewrite ?Hpc, ?Eab, ?Eg; try done.
    by apply Hnew.
  - apply (ep_result_local s k ep env (returns c (Status UCS_ERR_NO_RESOURCE) ep)); try done; unfold ep_step, claims, uct_mm_ep_am_common_send; rewrite ?Hpc, ?Eab, ?Eg; try done.
    + apply owns_returns.
    + apply returns_ok; [done|apply Hok|by left|done].
Qed.

Lemma load_tail_ok s k ep env c op h : inv s -> eps s !! k = Some ep -> pc ep = LoadTail c op h ->
  head_index s - unarmed h < 2 ^ 31 -> ep_result k env s.
Proof.
  intros H Hk Hpc Hf. pose proof (iv_eps _ H _ _ Hk) as Hok. pose proof (iv_order _ H) as Hord.
  pose proof (eo_tail _ _ _ Hok) as Ht. pose proof (eo_head _ _ _ Hok) as Hh. rewrite Hpc in Hh. destruct Hh as [Hv Hle].
  pose proof n_range as Hn.
  assert (UCT_MM_EP_IS_ABLE_TO_SEND h (tail (fifo s)) (fifo_size cfg) = (unarmed h - tail (fifo s) <? n)) as Hab
    by (apply able_spec; [done|lia]).
  assert (ret ep <> Some (Status UCS_ERR_NO_RESOURCE)) as Hret by (eapply busy_ret; try done; by rewrite Hpc).
  destruct (UCT_MM_EP_IS_ABLE_TO_SEND h (tail (fifo s)) (fifo_size cfg)) eqn:Eab; symmetry in Hab.
  - apply (ep_result_local s k ep env (set_pc (CasHead c op h) (set_cached_tail (tail (fifo s)) ep))); try done;
      unfold ep_step, claims, uct_mm_ep_am_common_send; rewrite ?Hpc; cbn [cached_tail set_cached_tail]; rewrite ?Eab; try done.
    apply Z.ltb_lt in Hab. destruct Hok as [E1 E2 E3 E4 E5 E6]. constructor; try done.
    + cbn. lia.
    + intros op' Ho. apply E2. rewrite Hpc. done.
    + cbn. split_and!; [done|lia|lia].
  - apply (ep_result_local s k ep env (returns c (Status UCS_ERR_NO_RESOURCE) (set_arb_group (ArbElem :: arb_group ep) (set_cached_tail (tail (fifo s)) ep)))); try done;
      unfold ep_step, claims, uct_mm_ep_am_common_send; rewrite ?Hpc; cbn [cached_tail set_cached_tail]; rewrite ?Eab; try done.
    + apply owns_returns.
    + apply Z.ltb_ge in Hab. apply returns_ok; [cbn; lia| |by left|cbn; lia].
      intros op' [?|?]%elem_of_cons; [done|]. by apply (eo_group _ _ _ Hok).
Qed.

Lemma cas_head_ok s k ep env c op h : inv s -> eps s !! k = Some ep -> pc ep = CasHead c op h ->
  head_index s + 1 < 2 ^ 63 -> ep_result k env s.
Proof.
  intros H Hk Hpc Hf. pose proof (iv_eps _ H _ _ Hk) as Hok. destruct (Z.eqb_spec (head (fifo s)) h) as [E|E].
  - subst h. eexists. split; [|eapply (inv_claim s k ep _ c op); try done].
    unfold ep_event, claimed. rewrite Hk. unfold ep_step, uct_mm_ep_am_common_send, claims, abandons. rewrite Hpc, Z.eqb_refl.
    cbn [mbind option_bind]. by rewrite app_nil_r.
  - apply (ep_result_local s k ep env (set_pc (LoadHead c op) ep)); try done;
      unfold ep_step, claims, uct_mm_ep_am_common_send; rewrite ?Hpc, ?(proj2 (Z.eqb_neq _ _) E); try done.
    destruct Hok as [E1 E2 E3 E4 E5 E6]. constructor; try done.
    + intros op' Ho. apply E2. by rewrite Hpc.
    + intros Er. destruct (E4 Er) as [_ [?|[? ?]]]; congruence.
Qed.

Lemma update_elem_ok f h e g : valid_head h -> slot f (unarmed h) = Some e ->
  update_elem cfg h g f = Some (set_elems (<[Z.to_nat (unarmed h mod n) := g e]> (elems f)) f).
Proof. intros Hv He. unfold update_elem. rewrite elem_index_spec by done. unfold slot in He. by rewrite He. Qed.

(** What an endpoint that owns an element knows. *)
Lemma owner_facts s k ep op h : inv s -> eps s !! k = Some ep -> owns (pc ep) = Some (op, h) ->
  valid_head h /\ unarmed h < head_index s /\ op_ok op /\ ret ep <> Some (Status UCS_ERR_NO_RESOURCE) /\
  exists e, slot (fifo s) (unarmed h) = Some e /\ owner_ok n (unarmed h) e = false /\ progress_ok (fifo s) (pc ep) e.
Proof.
  intros H Hk Ho. pose proof (iv_eps _ H _ _ Hk) as Hok. destruct (iv_owns _ H _ _ _ _ Hk Ho) as (_ & _ & _ & He).
  pose proof (eo_head _ _ _ Hok) as Hh. pose proof (eo_op _ _ _ Hok op) as Hop.
  assert (ret ep <> Some (Status UCS_ERR_NO_RESOURCE)) as Hret
    by (eapply busy_ret; [done|intros E; by rewrite E in Ho|intros ? E; by rewrite E in Ho]).
  destruct (pc ep); try done; cbn in Ho; simplify_eq; destruct Hh; split_and!; try done; by apply Hop.
Qed.

(** The next place of an owner. *)
Lemma owner_next s k ep op h p : inv s -> eps s !! k = Some ep -> owns (pc ep) = Some (op, h) -> owns p = Some (op, h) ->
  ep_ok (head_index s) (tail (fifo s)) (set_pc p ep).
Proof.
  intros H Hk Ho Hp. destruct (owner_facts _ _ _ _ _ H Hk Ho) as (Hv & Hh & Hop & Hret & _).
  destruct (iv_eps _ H _ _ Hk) as [E1 E2 E3 E4 E5 E6]. constructor; try done; cbn [pc set_pc].
  - intros op' Ho'. destruct p; cbn in *; simplify_eq; done.
  - intros op' ->. done.
  - destruct p; cbn in *; simplify_eq; done.
Qed.

(** An owner stores a field of its element. *)
Lemma elem_write_ok s k ep env op h g p : inv s -> eps s !! k = Some ep -> owns (pc ep) = Some (op, h) ->
  ep_step cfg env (fifo s) ep = (f ← update_elem cfg h g (fifo s); Some (f, set_pc p ep)) ->
  (forall e, flags (g e) = flags e /\ desc (g e) = desc e /\ desc_data (g e) = desc_data e) ->
  owns p = Some (op, h) -> wakes p = wakes (pc ep) ->
  (forall e f', bufs f' = bufs (fifo s) -> progress_ok (fifo s) (pc ep) e -> progress_ok f' p (g e)) -> ep_result k env s.
Proof.
  intros H Hk Ho E Hg Hp Hw Hpr. destruct (owner_facts _ _ _ _ _ H Hk Ho) as (Hv & Hh & Hop & Hret & e & He & Hoe & He2).
  rewrite (update_elem_ok _ _ _ g Hv He) in E. destruct (Hg e) as (G1 & G2 & G3). eapply ep_result_upd; try done.
  - unfold claims. by destruct (pc ep).
  - unfold abandons. cbn. destruct (pc ep); try done. by destruct p.
  - eapply (inv_owner_write s k ep _ op h _ e (g e)); try done.
    + by eapply owner_next.
    + cbn. by rewrite Hw.
    + left. split; [|split; [done|by apply Hpr]]. unfold owner_ok in *. by rewrite G1.
Qed.

Lemma get_seg_ok s k ep env c op h : inv s -> eps s !! k = Some ep -> pc ep = GetSeg c op h ->
  attach env <> UCS_ERR_NO_RESOURCE -> ep_result k env s.
Proof.
  intros H Hk Hpc Hat. assert (owns (pc ep) = Some (op, h)) as Ho by (by rewrite Hpc).
  destruct (owner_facts _ _ _ _ _ H Hk Ho) as (Hv & Hh & Hop & Hret & e & He & Hoe & He2). pose proof (iv_eps _ H _ _ Hk) as Hok.
  assert (ep_step cfg env (fifo s) ep =
    if bool_decide ((desc e).1 ∈ remote_segs ep) then Some (fifo s, set_pc (Fill c op h (Some (desc e))) ep)
    else match attach env with
         | UCS_OK => Some (fifo s, set_pc (Fill c op h (Some (desc e))) (set_remote_segs ({[(desc e).1]} ∪ remote_segs ep) ep))
         | status => Some (fifo s, returns c (Status status) ep)
         end) as E.
  { unfold ep_step, uct_mm_ep_am_common_send. rewrite Hpc, elem_index_spec by done. unfold slot in He. by rewrite He. }
  rewrite Hpc in He2. cbn in He2.
  assert (forall ep', ep_ok (head_index s) (tail (fifo s)) ep' -> pc ep' = Fill c op h (Some (desc e)) ->
    inv (upd_ep k ep' (fifo s) s)) as Hnext.
  { intros ep' Hok' Hpc'. apply (inv_ep_local s k ep ep' H Hk Hok'); rewrite ?Hpc, ?Hpc'; try done.
    intros op' h' e' [= <- <-] He' _. cbn. split; [congruence|done]. }
  assert (ep_ok (head_index s) (tail (fifo s)) (set_pc (Fill c op h (Some (desc e))) ep)) as Hok' by (by eapply owner_next).
  case_bool_decide; [eapply ep_result_upd; try done; [by unfold claims; rewrite Hpc|by unfold abandons; rewrite Hpc|by apply Hnext]|].
  destruct (attach env) eqn:Ea.
  { eapply ep_result_upd; try done; [by unfold claims; rewrite Hpc|by unfold abandons; rewrite Hpc|apply Hnext; [|done]].
    destruct Hok' as [A1 A2 A3 A4 A5 A6]. by constructor. }
  all: try (by destruct Hat); eexists; (split; [unfold ep_event; rewrite Hk, (bind_eq _ _ _ E); unfold claims, abandons;
    rewrite Hpc, (proj2 (proj2 (owns_returns _ _ _))), app_nil_r; reflexivity|]).
  all: eapply inv_abandon; try done; [|apply owns_returns].
  all: apply returns_ok; [apply Hok|apply Hok|by left|done].
Qed.

Lemma fill_inline_ok s k ep env c op h : inv s -> eps s !! k = Some ep -> pc ep = Fill c op h None -> ep_result k env s.
Proof.
  intros H Hk Hpc. assert (owns (pc ep) = Some (op, h)) as Ho by (by rewrite Hpc).
  destruct (owner_facts _ _ _ _ _ H Hk Ho) as (_ & _ & [_ Hfit] & _ & e0 & _ & _ & He0). rewrite Hpc in He0.
  assert (Z.of_nat (length (op_data op)) <= fifo_elem_size cfg - sizeof_fifo_element) as Hle
    by (destruct op as [| id packed|]; [done|by destruct (He0 id packed)|done]).
  eapply (elem_write_ok s k ep env op h (fun e => set_inline_data (store (op_data op) (inline_data e)) e) (SetLength c op h)); try done.
  1: unfold ep_step, uct_mm_ep_am_common_send; by rewrite Hpc, (proj2 (Z.ltb_ge _ _) Hle). 1: by rewrite Hpc.
  intros e f' Hb He. rewrite Hpc in He. cbn in *. unfold written. destruct op as [| |]; [|by destruct (He id packed)|].
  all: cbn; eexists; reflexivity.
Qed.

Lemma fill_desc_ok s k ep env c op h d : inv s -> eps s !! k = Some ep -> pc ep = Fill c op h (Some d) -> ep_result k env s.
Proof.
  intros H Hk Hpc. assert (owns (pc ep) = Some (op, h)) as Ho by (by rewrite Hpc).
  destruct (owner_facts _ _ _ _ _ H Hk Ho) as (Hv & Hh & Hop & Hret & e & He & Hoe & He2).
  rewrite Hpc in He2. cbn in He2. destruct He2 as (-> & id & data & ->).
  eapply ep_result_upd; [done|unfold ep_step, uct_mm_ep_am_common_send; rewrite Hpc; reflexivity|by unfold claims; rewrite Hpc|by unfold abandons; rewrite Hpc|].
  eapply (inv_owner_write s k ep _ _ h _ e e); try done.
  - split; try done.
    + cbn. unfold slot in He. by rewrite list_insert_id.
    + intros d Hd. cbn. by rewrite lookup_insert_ne.
  - by eapply owner_next.
  - by rewrite Hpc.
  - left. split; [done|]. split; [done|]. cbn. eexists. by rewrite lookup_insert_eq.
Qed.

Lemma written_bufs f f' op e e' : bufs f' = bufs f -> desc e' = desc e -> inline_data e' = inline_data e -> written f op e -> written f' op e'.
Proof. intros Hb Hd Hi. unfold written. destruct op; by rewrite ?Hb, ?Hd, ?Hi. Qed.

Lemma set_length_ok s k ep env c op h : inv s -> eps s !! k = Some ep -> pc ep = SetLength c op h -> ep_result k env s.
Proof.
  intros H Hk Hpc. assert (owns (pc ep) = Some (op, h)) as Ho by (by rewrite Hpc).
  destruct (owner_facts _ _ _ _ _ H Hk Ho) as (_ & _ & [[_ Hlen] _] & _).
  eapply (elem_write_ok s k ep env op h (set_elem_length (u16 (Z.of_nat (length (op_data op))))) (SetAmId c op h)); try done.
  1: unfold ep_step, uct_mm_ep_am_common_send; by rewrite Hpc. 1: by rewrite Hpc.
  intros e f' Hb He. rewrite Hpc in He. cbn in *. split; [by eapply written_bufs|]. apply u_wrap_small. lia.
Qed.

Lemma set_am_id_ok s k ep env c op h : inv s -> eps s !! k = Some ep -> pc ep = SetAmId c op h -> ep_result k env s.
Proof.
  intros H Hk Hpc. eapply (elem_write_ok s k ep env op h (set_am_id (op_id op)) (SetFlags c op h)); try done.
  1: by rewrite Hpc. 1: unfold ep_step, uct_mm_ep_am_common_send; by rewrite Hpc. 1: by rewrite Hpc.
  intros e f' Hb He. rewrite Hpc in He. cbn in *. destruct He. split_and!; [by eapply written_bufs|done|done].
Qed.

(** The flags of an operation, with the owner flag of element [h]. *)
Definition publish_flags (op : send_op) (h : Z) : Z :=
  if negb (Z.land h (fifo_size cfg) =? 0) then Z.lor (op_flags op) UCT_MM_FIFO_ELEM_FLAG_OWNER else op_flags op.

Lemma publish_flags_spec op h e : valid_head h ->
  owner_ok n (unarmed h) (set_flags (publish_flags op h) e) = true /\
  Z.land (publish_flags op h) UCT_MM_FIFO_ELEM_FLAG_INLINE = op_flags op.
Proof.
  intros Hv. unfold publish_flags, owner_ok. rewrite owner_flag_spec by done. cbn [flags set_flags].
  destruct (Z.eqb_spec ((unarmed h / n) mod 2) 1) as [->|Hne].
  - by destruct op.
  - pose proof (Z.mod_pos_bound (unarmed h / n) 2). replace ((unarmed h / n) mod 2) with 0 by lia. by destruct op.
Qed.

Lemma set_flags_ok s k ep env c op h : inv s -> eps s !! k = Some ep -> pc ep = SetFlags c op h -> ep_result k env s.
Proof.
  intros H Hk Hpc. assert (owns (pc ep) = Some (op, h)) as Ho by (by rewrite Hpc).
  destruct (owner_facts _ _ _ _ _ H Hk Ho) as (Hv & Hh & Hop & Hret & e & He & Hoe & He2). pose proof (iv_eps _ H _ _ Hk) as Hok.
  rewrite Hpc in He2. destruct He2 as (W1 & W2 & W3). destruct (publish_flags_spec op h e Hv) as [P1 P2].
  assert (ep_step cfg env (fifo s) ep =
    Some (set_elems (<[Z.to_nat (unarmed h mod n) := set_flags (publish_flags op h) e]> (elems (fifo s))) (fifo s),
      if armed_head h then set_pc (Signal c op h) ep else returns c (success op) ep)) as E.
  { unfold ep_step, uct_mm_ep_am_common_send. rewrite Hpc. fold (publish_flags op h). by rewrite (update_elem_ok _ _ _ _ Hv He). }
  assert (owns (pc (if armed_head h then set_pc (Signal c op h) ep else returns c (success op) ep)) = None) as Ho'
    by (destruct (armed_head h); [done|apply owns_returns]).
  eapply ep_result_upd; [done|exact E|by unfold claims; rewrite Hpc|by unfold abandons; rewrite Hpc|].
  eapply (inv_owner_write s k ep _ op h _ e (set_flags (publish_flags op h) e)); try done.
  - destruct (armed_head h).
    + destruct Hok as [A1 A2 A3 A4 A5 A6]. constructor; try done. by intros op' [= <-].
    + apply returns_ok; [apply Hok|apply Hok|by left|by destruct op].
  - rewrite Hpc. cbn. intros Ha. rewrite Ha. done.
  - right. by split_and!.
Qed.

(** The counters of the socket after [sendto]. *)
Lemma signal_remote_ok env f f' b : 0 <= signals f /\ 0 <= lost f -> uct_mm_ep_signal_remote env f = (f', b) ->
  (b = false /\ f' = f) \/
  (b = true /\ exists v w, f' = set_lost w (set_signals v f) /\ 0 <= v /\ 0 <= w /\ (0 < v \/ 0 < w)).
Proof.
  unfold uct_mm_ep_signal_remote. intros [H1 H2] E. destruct (send_errno env) as [[]|].
  - right. destruct (Z.ltb_spec 0 (signals f)); simplify_eq; split; try done.
    + exists (signals f'), (lost f'). split; [by destruct f'|]. lia.
    + exists (signals f), (lost f + 1). split; [by destruct f|]. lia.
  - left. by simplify_eq.
  - right. simplify_eq. split; [done|]. exists (signals f), (lost f + 1). split; [by destruct f|]. lia.
  - right. simplify_eq. split; [done|]. exists (signals f), (lost f + 1). split; [by destruct f|]. lia.
  - right. simplify_eq. split; [done|]. exists (signals f + 1), (lost f). split; [by destruct f|]. lia.
Qed.

Lemma signal_ok s k ep env c op h : inv s -> eps s !! k = Some ep -> pc ep = Signal c op h -> ep_result k env s.
Proof.
  intros H Hk Hpc. pose proof (iv_eps _ H _ _ Hk) as Hok.
  assert (ret ep <> Some (Status UCS_ERR_NO_RESOURCE)) as Hret by (eapply busy_ret; [done|by rewrite Hpc|by rewrite Hpc]).
  destruct (uct_mm_ep_signal_remote env (fifo s)) as [f' b] eqn:E.
  eapply (ep_result_upd s k ep env f' (if b then returns c (success op) ep else ep));
    [done| |by unfold claims; rewrite Hpc|by unfold abandons; rewrite Hpc|].
  - unfold ep_step, uct_mm_ep_am_common_send. by rewrite Hpc, E.
  - destruct (signal_remote_ok _ _ _ _ (iv_signals _ H) E) as [[-> ->]|[-> (v & w & -> & Hv & Hw & Hvw)]].
    + apply (inv_ep_local s k ep ep); try done.
    + apply (inv_signal s k ep); try done; [by rewrite Hpc| |apply owns_returns].
      apply returns_ok; [apply Hok|apply Hok|by left|by destruct op].
Qed.

(** The calls that do not send. *)
Lemma pending_add_ok s k ep env op : inv s -> eps s !! k = Some ep -> pc ep = PendingAdd op ->
  head_index s - cached_tail ep < 2 ^ 31 -> ep_result k env s.
Proof.
  intros H Hk Hpc Hf. pose proof (iv_eps _ H _ _ Hk) as Hok. pose proof (eo_pending _ _ _ Hok op Hpc) as Hp. pose proof n_range.
  assert (uct_mm_ep_has_tx_resources cfg (fifo s) ep = false) as Hr.
  { unfold uct_mm_ep_has_tx_resources. rewrite able_spec; [|apply H|unfold head_index in *; lia].
    apply Z.ltb_ge. unfold head_index in *. lia. }
  eapply (ep_result_local s k ep env); [done|done| |by unfold claims; rewrite Hpc|by rewrite Hpc|by rewrite Hpc| |].
  - unfold ep_step, uct_mm_ep_pending_add. rewrite Hpc, Hr. reflexivity.
  - apply owns_returns.
  - apply returns_ok; [apply Hok| |by right|done]. intros op' [Ho|Ho]%elem_of_app; [by apply (eo_group _ _ _ Hok)|].
    apply list_elem_of_singleton in Ho as [= ->]. apply (eo_op _ _ _ Hok). by rewrite Hpc.
Qed.

(** The end of a step that leaves the endpoint idle, sending, or with a new copy
    of the tail. *)
Lemma ep_ok_set_pc hi t ep p : ep_ok hi t ep -> pc ep <> Idle -> (forall op, pc ep <> PendingAdd op) ->
  match p with
  | Idle | PendingHead | FlushTail | FlushAgain => True
  | LoadHead _ op => op_ok op
  | _ => False
  end -> ep_ok hi t (set_pc p ep).
Proof.
  intros Hok Hi Hpa Hp. pose proof (busy_ret _ _ _ Hok Hi Hpa) as Hret. destruct Hok as [E1 E2 E3 E4 E5 E6].
  constructor; try done; cbn [pc set_pc]; destruct p; try done. by intros ? [= <-].
Qed.

Lemma ep_ok_set_tail hi t ep : ep_ok hi t ep -> pc ep = PendingTail \/ pc ep = FlushTail -> 0 <= t -> ep_ok hi t (set_cached_tail t ep).
Proof.
  intros Hok Hp Ht. assert (ret ep <> Some (Status UCS_ERR_NO_RESOURCE)) as Hret
    by (eapply busy_ret; [done|by destruct Hp as [-> | ->]|by destruct Hp as [-> | ->]]).
  destruct Hok as [E1 E2 E3 E4 E5 E6]. constructor; try done; cbn.
  - intros op E. destruct Hp; congruence.
  - by destruct Hp as [-> | ->].
Qed.

Lemma local_call_ok s k ep env : inv s -> eps s !! k = Some ep ->
  match pc ep with PendingTail | PendingHead | FlushTail => True | FlushHead | FlushAgain => head_index s - cached_tail ep < 2 ^ 31 | _ => False end ->
  ep_result k env s.
Proof.
  intros H Hk Hpc. pose proof (iv_eps _ H _ _ Hk) as Hok. pose proof (iv_order _ H) as Hord. pose proof (eo_tail _ _ _ Hok) as Ht.
  assert (pc ep <> Idle /\ (forall op, pc ep <> PendingAdd op) /\ claims (fifo s) ep = None /\ owns (pc ep) = None /\ wakes (pc ep) = false)
    as (B1 & B2 & B3 & B4 & B5) by (unfold claims; destruct (pc ep); done).
  pose proof (busy_ret _ _ _ Hok B1 B2) as Hret.
  destruct (ep_step cfg env (fifo s) ep) as [[f ep']|] eqn:E; [|exfalso; unfold ep_step in E; destruct (pc ep); done].
  assert (f = fifo s) as -> by (unfold ep_step in E; destruct (pc ep); simplify_eq; done).
  enough (owns (pc ep') = None /\ ep_ok (head_index s) (tail (fifo s)) ep') as [? ?] by (by eapply ep_result_local).
  assert (forall st, (st = UCS_ERR_NO_RESOURCE -> n <= head_index s - cached_tail ep) ->
    owns (pc (returns FromUser (Status st) ep)) = None /\ ep_ok (head_index s) (tail (fifo s)) (returns FromUser (Status st) ep)) as Hres.
  { intros st Hst. split; [apply owns_returns|]. apply returns_ok; [done|apply Hok|by right|]. intros [= ->]. by apply Hst. }
  assert (head_index s - cached_tail ep < 2 ^ 31 -> uct_mm_ep_has_tx_resources cfg (fifo s) ep = (head_index s - cached_tail ep <? n)) as Hres2.
  { intros Hf. apply able_spec; [apply H|unfold head_index in *; lia]. }
  pose proof (fun p => ep_ok_set_pc _ _ _ p Hok B1 B2) as Hset.
  unfold ep_step in E. destruct (pc ep) eqn:Epc; try done; cbn in E; simplify_eq.
  - split; [done|]. apply ep_ok_set_pc; [|cbn; congruence|cbn; congruence|done]. apply ep_ok_set_tail; [done|by left|lia].
  - unfold uct_mm_ep_process_pending. destruct (negb _); [split; [done|by apply Hset]|].
    destruct (arb_group ep) as [|[|op] g] eqn:Eg; (split; [done|]); [by apply Hset| |].
    + destruct (Hset Idle I) as [A1 A2 A3 A4 A5 A6]. constructor; try done.
      intros op Hop. apply A3. cbn. rewrite Eg. by right.
    + apply Hset. apply (eo_group _ _ _ Hok). rewrite Eg. by left.
  - unfold uct_mm_ep_flush. rewrite Epc, Hres2 by done. destruct (Z.ltb_spec (head_index s - cached_tail ep) n); [by apply Hres|].
    destruct (arb_group ep); [|by apply Hres]. split; [done|by apply Hset].
  - unfold uct_mm_ep_flush. rewrite Epc. split; [done|]. apply ep_ok_set_pc; [|cbn; congruence|cbn; congruence|done].
    apply ep_ok_set_tail; [done|by right|lia].
  - unfold uct_mm_ep_flush. rewrite Epc, Hres2 by done. by destruct (Z.ltb_spec (head_index s - cached_tail ep) n); apply Hres.
Qed.

Lemma ep_event_ok s k env : inv s -> valid_event (EpStep k env) = true -> fresh_event (EpStep k env) s = true -> ep_result k env s.
Proof.
  intros H Hv Hf. cbn in Hv, Hf. destruct (eps s !! k) as [ep|] eqn:Hk.
  2:{ exists s. unfold ep_event. by rewrite Hk. }
  destruct (pc ep) eqn:Hpc; zbool_hyps.
  - eapply ep_result_local; try done; [unfold ep_step, uct_mm_ep_am_common_send; by rewrite Hpc|by unfold claims; rewrite Hpc|by rewrite Hpc..|by apply (iv_eps _ H k)].
  - by eapply load_head_ok.
  - by eapply load_tail_ok.
  - by eapply cas_head_ok.
  - eapply get_seg_ok; try done. by case_bool_decide.
  - destruct d; [by eapply fill_desc_ok|by eapply fill_inline_ok].
  - by eapply set_length_ok.
  - by eapply set_am_id_ok.
  - by eapply set_flags_ok.
  - by eapply signal_ok.
  - by eapply pending_add_ok.
  - eapply local_call_ok; try done. by rewrite Hpc.
  - eapply local_call_ok; try done. by rewrite Hpc.
  - eapply local_call_ok; try done. by rewrite Hpc.
  - eapply local_call_ok; try done. by rewrite Hpc.
  - eapply local_call_ok; try done. by rewrite Hpc.
Qed.

End index.

End MmSystem.
