(* ===== verification/MmReceive.v ===== *)
(** The receiver of the shared memory FIFO preserves the invariant of [MmSystem],
    the invariant holds after the creation of the interface, and the receiver alone
    reads everything that was sent. *)

From stdpp Require Import gmap.
From S2P Require Import Prelude.
From S2P Require Import Bits.
From S2P Require Import MmFifo.
From S2P Require Import MmSystem.

Module MmReceive.
Import Bits MmFifo MmSystem.

Lemma mod_succ x m : 0 < m -> (x + 1) mod m <> 0 -> (x + 1) mod m = x mod m + 1.
Proof.
  intros Hm Hne. pose proof (Z.mod_pos_bound x m Hm). pose proof (Z.div_mod x m ltac:(lia)).
  symmetry. apply (Z.mod_unique _ _ (x / m)); [left|lia]. destruct (decide (x mod m + 1 = m)); [|lia].
  exfalso. apply Hne. replace (x + 1) with ((x / m + 1) * m) by lia. apply Z.mod_mul. lia.
Qed.

Section receive.
Context (cfg : fifo_config) (sh r : Z).
Hypothesis Hcfg : config_ok cfg sh r.
Local Notation n := (2 ^ sh).
Local Notation inv := (inv cfg sh r).
Local Notation slot := (slot sh).

(** ** Steps of the receiver *)

Definition upd_iface (i : uct_mm_iface_t) (a : bool) (s : sys) : sys :=
  Sys (fifo s) (eps s) i (sent s) (recvd s) (held s) (abandoned s) a.

Definition not_advance (p : rx_pc) : Prop := match p with Advance _ => False | _ => True end.

Lemma next_read_idle s : not_advance (rpc (iface s)) -> next_read s = read_index (iface s).
Proof. unfold next_read. destruct (rpc (iface s)); try done; lia. Qed.

(** A step that changes only the receiver, and not the read index. *)
Lemma inv_upd_iface s i a : inv s -> read_index i = read_index (iface s) -> not_advance (rpc i) -> not_advance (rpc (iface s)) ->
  option_list (last_recv_desc i) ++ recv_desc_mp i ≡ₚ option_list (last_recv_desc (iface s)) ++ recv_desc_mp (iface s) ->
  rx_ok cfg sh (upd_iface i a s) -> (a = true \/ rpc i = ArmRecv -> will_wake s) -> inv (upd_iface i a s).
Proof.
  intros [H1 H2 H3 H4 H5 H6 H7 H8 H9 H10 H11 H12 [H13 H13'] H14 H15 H16] Hr Hna Hna' Hp Hrx Hw.
  rewrite (next_read_idle s Hna') in *.
  constructor; rewrite ?(next_read_idle (upd_iface i a s) Hna); unfold head_index in *; cbn [upd_iface fifo eps iface sent recvd held abandoned armed]; rewrite ?Hr; try done.
  - split; [|done]. unfold all_descs in *. cbn. by rewrite (app_assoc (option_list _)), Hp, <- app_assoc.
  - intros Ha. specialize (Hw Ha). unfold will_wake, head_index in *. cbn. by rewrite Hr.
Qed.

(** The element at the read index. *)
Lemma read_elem s : inv s -> exists e, elems (fifo s) !! elem_index cfg (read_index (iface s)) = Some e /\ slot (fifo s) (read_index (iface s)) = Some e.
Proof.
  intros H. destruct (slot_exists cfg sh r Hcfg s (read_index (iface s)) H) as (e & He & _). exists e. split; [|done].
  pose proof (iv_order _ _ _ _ H) as Ho. destruct (iv_head _ _ _ _ H) as [Hv _]. unfold valid_head, head_index in *.
  assert (0 <= unarmed (head (fifo s)) < 2 ^ 63) as Hb by (rewrite unarmed_mod by done; apply Z.mod_pos_bound; lia).
  rewrite (elem_index_spec cfg sh r Hcfg) by lia. rewrite unarmed_mod, (Z.mod_small _ (2 ^ 63)) by lia. done.
Qed.

Lemma window_adjust_ok c i : 1 <= fifo_poll_count i <= fifo_max_poll cfg -> 0 <= c <= fifo_poll_count i ->
  exists w b, uct_mm_iface_fifo_window_adjust cfg c i = Some (set_poll_count w b i) /\ 1 <= w <= fifo_max_poll cfg.
Proof.
  intros Hp Hc. unfold uct_mm_iface_fifo_window_adjust, UCT_MM_IFACE_FIFO_MD_FACTOR, UCT_MM_IFACE_FIFO_MIN_POLL, UCT_MM_IFACE_FIFO_AI_VALUE.
  destruct (Z.ltb_spec c (fifo_poll_count i)).
  { eexists _, _. split; [done|]. assert (fifo_poll_count i / 2 <= fifo_poll_count i) by (Z.div_mod_to_equations; lia). lia. }
  rewrite (proj2 (Z.eqb_eq c _)) by lia. cbn [negb]. pose proof (co_poll _ _ _ Hcfg). destruct (fifo_prev_wnd_cons i).
  - eexists _, _. split; [done|]. rewrite u_wrap_small by lia. lia.
  - by eexists _, _.
Qed.

(** The receiver has processed the element at the read index. *)
Lemma inv_processed s f i c x hs : inv s -> not_advance (rpc (iface s)) -> read_index (iface s) < head_index s ->
  head f = head (fifo s) /\ tail f = tail (fifo s) /\ bufs f = bufs (fifo s) /\ signals f = signals (fifo s) /\ lost f = lost (fifo s) ->
  length (elems f) = length (elems (fifo s)) ->
  (forall j, j mod n <> read_index (iface s) mod n -> slot f j = slot (fifo s) j) ->
  (exists e, slot (fifo s) (read_index (iface s)) = Some e /\ owner_ok n (read_index (iface s)) e = true) ->
  (exists e, slot f (read_index (iface s)) = Some e /\ owner_ok n (read_index (iface s)) e = true) ->
  read_index i = read_index (iface s) -> rpc i = Advance c -> 0 <= c < fifo_poll_count i -> fifo_poll_count i = fifo_poll_count (iface s) ->
  (forall m, x = Some m -> exists k op, sent s !! Z.to_nat (read_index (iface s)) = Some (k, op) /\ m = (op_id op, op_data op)) ->
  NoDup (all_descs (Sys f (eps s) i (sent s) (recvd s ++ [x]) hs (abandoned s) (armed s))) ->
  (forall e, e ∈ elems f -> desc_data e = desc e) ->
  (forall d data, (d, data) ∈ hs -> exists rest, bufs f !! d = Some (data ++ rest)) ->
  inv (Sys f (eps s) i (sent s) (recvd s ++ [x]) hs (abandoned s) (armed s)).
Proof.
  intros H Hna Hlt (Eh & Et & Eb & Es & El) Hlen Hsl (e & He & Hoe) He' Hri Hpc Hc Hpcnt Hx Hnd Hdd Hhs.
  pose proof (iv_order _ _ _ _ H) as Hord. pose proof (n_range cfg sh r Hcfg).
  set (s' := Sys _ _ _ _ _ _ _ _). set (R := read_index (iface s)) in *.
  assert (next_read s' = R + 1) as En by (unfold next_read; cbn; by rewrite Hpc, Hri).
  assert (head_index s' = head_index s) as Ehi by (unfold head_index; cbn; by rewrite Eh).
  assert (next_read s = R) as En0 by (by apply next_read_idle).
  assert (forall j, R + 1 <= j < R + n -> slot f j = slot (fifo s) j) as Hsl'.
  { intros j Hj. apply Hsl. intros E. apply (mod_inj cfg sh r Hcfg _ _ R) in E; lia. }
  assert (forall j x, R <= j -> slot (fifo s) j = Some x -> owner_ok n j x = false -> R + 1 <= j) as Hne.
  { intros j y Hj Hy Hoy. destruct (decide (j = R)) as [->|]; [congruence|lia]. }
  assert (forall op y, content (fifo s) op y -> content f op y) as Hcont.
  { intros op y (W & W'). split; [|done]. by eapply written_bufs. }
  constructor; rewrite ?En, ?Ehi; cbn [s' fifo eps iface sent recvd held abandoned armed]; rewrite ?Hri, ?Eh, ?Et, ?Es, ?El; fold R.
  - apply H.
  - done.
  - apply H.
  - rewrite Hlen. apply H.
  - apply H.
  - destruct (iv_recvd _ _ _ _ H) as [R1 R2]. rewrite En0 in R1. split; [rewrite length_app; cbn; lia|].
    intros j m. rewrite lookup_app_Some. intros [Hj|[Hj1 Hj2]]; [by apply R2|].
    apply list_lookup_singleton_Some in Hj2 as [Hj2 ->]. destruct (Hx m eq_refl) as (k & op & A1 & A2). exists k, op.
    split; [|done]. rewrite <- A1. f_equal. lia.
  - intros j y Hj Hy Hoy. rewrite Hsl' in Hy by lia. destruct (iv_published _ _ _ _ H j y) as (k & op & A1 & A2 & A3); [lia|done|done|].
    exists k, op. auto.
  - intros j y Hj Hy Hoy. rewrite Hsl' in Hy by lia. apply (iv_missing _ _ _ _ H j y); [lia|done|done].
  - apply H.
  - intros k ep op h Hk Ho. destruct (iv_owns _ _ _ _ H k ep op h Hk Ho) as (A1 & A2 & A3 & y & A4 & A5 & A6).
    pose proof (owned_range _ _ _ _ _ _ _ _ H Hk Ho) as A7. rewrite En0 in *.
    assert (R + 1 <= unarmed h) by (by eapply Hne; [lia|..]).
    split_and!; try done. exists y. rewrite Hsl' by lia. split_and!; try done.
    destruct (pc ep); try done; unfold progress_ok in *.
    + by eapply written_bufs.
    + destruct A6. split; [|done]. by eapply written_bufs.
    + destruct A6. split; [|done]. by eapply written_bufs.
  - intros j Hj. destruct (iv_abandoned _ _ _ _ H j Hj) as (A1 & y & A2 & A3). rewrite En0 in A1.
    assert (R + 1 <= j) by (by eapply Hne; [lia|..]). split; [lia|]. exists y. by rewrite Hsl' by lia.
  - destruct (iv_rx _ _ _ _ H) as [P1 _]. unfold rx_ok. cbn [s' iface fifo]. rewrite Hpc, Hri, Hpcnt in *.
    split; [done|]. split; [done|]. split; [|done]. fold s'. by rewrite Ehi.
  - done.
  - done.
  - apply H.
  - intros [Ha|Ha]; [|cbn in Ha; congruence]. destruct (iv_wake _ _ _ _ H (or_introl Ha)) as [[_ W]|[W|[W|W]]].
    + fold R in W. lia.
    + right. left. cbn. by rewrite Es.
    + right. right. by left.
    + right. right. right. cbn. by rewrite El.
Qed.

(** The receiver raises the read index and releases the elements before it. *)
Lemma mm_inv_advance s f i c : inv s -> rpc (iface s) = Advance c -> read_index i = read_index (iface s) + 1 ->
  f = set_tail (tail f) (fifo s) -> tail (fifo s) <= tail f <= read_index i -> read_index i - tail f = read_index i mod 2 ^ r ->
  option_list (last_recv_desc i) ++ recv_desc_mp i = option_list (last_recv_desc (iface s)) ++ recv_desc_mp (iface s) ->
  1 <= fifo_poll_count i <= fifo_max_poll cfg ->
  match rpc i with Poll c => 0 <= c < fifo_poll_count i | RxIdle => True | _ => False end ->
  inv (Sys f (eps s) i (sent s) (recvd s) (held s) (abandoned s) (armed s)).
Proof.
  intros H Hpc Hri Ef Ht Htm Hd Hpoll Hpc'. pose proof (iv_order _ _ _ _ H) as Hord. pose proof (n_range cfg sh r Hcfg).
  destruct (iv_rx _ _ _ _ H) as [_ Hrx]. rewrite Hpc in Hrx. destruct Hrx as (_ & Hlt & e & He & Hoe).
  set (s' := Sys _ _ _ _ _ _ _ _). set (R := read_index (iface s)) in *.
  assert (next_read s = R + 1) as En0 by (unfold next_read; by rewrite Hpc).
  assert (next_read s' = R + 1) as En by (unfold next_read; cbn [s' iface]; destruct (rpc i); try done; lia).
  assert (head_index s' = head_index s) as Ehi by (unfold head_index; cbn [s' fifo]; by rewrite Ef).
  assert (forall j, slot f j = slot (fifo s) j) as Hsl by (intros j; by rewrite Ef).
  assert (bufs f = bufs (fifo s) /\ (signals f = signals (fifo s) /\ lost f = lost (fifo s)) /\ elems f = elems (fifo s))
    as (Eb & (Es & El) & Ee) by (by rewrite Ef).
  assert (forall op y, content (fifo s) op y -> content f op y) as Hcont.
  { intros op y (W & W'). split; [|done]. by eapply written_bufs. }
  constructor; rewrite ?En, ?Ehi; cbn [s' fifo eps iface sent recvd held abandoned armed]; rewrite ?Hri, ?Es, ?El, ?Ee.
  - split; [rewrite Ef; apply H|apply H].
  - lia.
  - by rewrite <- Hri.
  - apply H.
  - apply H.
  - destruct (iv_recvd _ _ _ _ H) as [R1 R2]. by rewrite En0 in R1.
  - intros j y Hj Hy Hoy. rewrite Hsl in Hy. destruct (decide (j = R + n)) as [->|].
    + rewrite (owner_ok_next cfg sh r Hcfg) in Hoy. unfold MmSystem.slot in *.
      replace ((R + n) mod n) with (R mod n) in Hy by (replace (R + n) with (R + 1 * n) by lia; by rewrite Z.mod_add by lia).
      rewrite He in Hy. simplify_eq. by rewrite Hoe in Hoy.
    + destruct (iv_published _ _ _ _ H j y) as (k & op & A1 & A2 & A3); [lia|done|done|]. exists k, op. auto.
  - intros j y Hj Hy Hoy. rewrite Hsl in Hy. apply (iv_missing _ _ _ _ H j y); [lia|done|done].
  - intros k ep Hk. eapply ep_ok_mono; [by apply (iv_eps _ _ _ _ H k)|lia|lia].
  - intros k ep op h Hk Ho. destruct (iv_owns _ _ _ _ H k ep op h Hk Ho) as (A1 & A2 & A3 & y & A4 & A5 & A6).
    rewrite En0 in *. split_and!; try done. exists y. rewrite Hsl. split_and!; try done. by rewrite Ef.
  - intros j Hj. destruct (iv_abandoned _ _ _ _ H j Hj) as (A1 & y & A2 & A3). rewrite En0 in A1. split; [done|].
    exists y. by rewrite Hsl.
  - split; [done|]. cbn [s' iface]. destruct (rpc i); done.
  - split; [|apply H]. destruct (iv_descs _ _ _ _ H) as [Hnd _]. unfold all_descs in *. cbn [s' fifo iface held].
    by rewrite Ee, (app_assoc (option_list _)), Hd, <- app_assoc.
  - intros d data Hin. rewrite Eb. by apply (iv_held _ _ _ _ H).
  - apply H.
  - intros [Ha|Ha]; [|cbn [s' iface] in Ha; by rewrite Ha in Hpc']. destruct (iv_wake _ _ _ _ H (or_introl Ha)) as [[_ W]|[W|[W|W]]].
    + fold R in W. lia.
    + right. left. cbn [s' fifo]. by rewrite Es.
    + right. right. by left.
    + right. right. right. cbn [s' fifo abandoned]. by rewrite El.
Qed.

(** The receiver arms the head, or takes a signal. *)
Lemma mm_inv_ctl s f p a : inv s -> elems f = elems (fifo s) /\ tail f = tail (fifo s) /\ bufs f = bufs (fifo s) -> 0 <= signals f /\ 0 <= lost f ->
  valid_head (head f) -> unarmed (head f) = unarmed (head (fifo s)) -> p = RxIdle \/ p = ArmRecv -> not_advance (rpc (iface s)) ->
  (a = true \/ p = ArmRecv -> will_wake (Sys f (eps s) (set_rpc p (iface s)) (sent s) (recvd s) (held s) (abandoned s) a)) ->
  inv (Sys f (eps s) (set_rpc p (iface s)) (sent s) (recvd s) (held s) (abandoned s) a).
Proof.
  intros H (Ee & Et & Eb) Hsig Hv Hu Hp Hna Hw. set (s' := Sys _ _ _ _ _ _ _ _) in *.
  assert (next_read s' = next_read s) as En.
  { rewrite (next_read_idle s Hna). unfold next_read. cbn. destruct Hp as [-> | ->]; lia. }
  assert (head_index s' = head_index s) as Ehi by done.
  assert (forall j, slot f j = slot (fifo s) j) as Hsl by (intros j; unfold MmSystem.slot; by rewrite Ee).
  assert (forall op y, written (fifo s) op y -> written f op y) as Hwr by (intros op y; by apply written_bufs).
  destruct H as [H1 H2 H3 H4 H5 H6 H7 H8 H9 H10 H11 [H12 _] [H13 H13'] H14 H15 H16].
  constructor; rewrite ?En, ?Ehi; cbn [s' fifo eps iface sent recvd held abandoned armed set_rpc read_index]; rewrite ?Ee, ?Et, ?Eb; try done.
  - split; [done|apply H1].
  - intros j y Hj Hy Hoy. rewrite Hsl in Hy. destruct (H7 j y Hj Hy Hoy) as (k & op & A1 & A2 & A3 & A4). exists k, op.
    split_and!; try done. split; auto.
  - intros j y Hj Hy Hoy. rewrite Hsl in Hy. by apply (H8 j y).
  - intros k ep op h Hk Ho. destruct (H10 k ep op h Hk Ho) as (A1 & A2 & A3 & y & A4 & A5 & A6). split_and!; try done.
    exists y. rewrite Hsl. split_and!; try done. destruct (pc ep); try done; unfold progress_ok in *; [auto|..]; destruct A6; auto.
  - intros j Hj. destruct (H11 j Hj) as (A1 & y & A2 & A3). split; [done|]. exists y. by rewrite Hsl.
  - split; [done|]. cbn. by destruct Hp as [-> | ->].
  - split; [|done]. unfold all_descs in *. cbn. by rewrite Ee.
Qed.

Definition rx_result (env : rx_env) (s : sys) : Prop := exists s', rx_event_step cfg env s = Some s' /\ inv s'.

(** A step that changes only the receiver. *)
Lemma rx_result_upd s env i ev : inv s -> rx_step cfg env (fifo s) (iface s) = Some (fifo s, i, ev) ->
  match ev with RxNone | RxArm _ => True | _ => False end ->
  inv (upd_iface i (match ev with RxArm UCS_OK => true | RxArm _ => false | _ => armed s end) s) -> rx_result env s.
Proof.
  intros H E Hev Hi. eexists. split; [|exact Hi]. unfold rx_event_step. rewrite (bind_eq _ _ _ E).
  destruct ev; try done; by rewrite !app_nil_r.
Qed.

Lemma poll_ok s env c : inv s -> rpc (iface s) = Poll c -> rx_result env s.
Proof.
  intros H Hpc. destruct (read_elem s H) as (e & He & Hs). destruct (iv_rx _ _ _ _ H) as [Hp Hrx]. rewrite Hpc in Hrx.
  pose proof (iv_order _ _ _ _ H) as Hord. pose proof (n_range cfg sh r Hcfg).
  assert (not_advance (rpc (iface s))) as Hna by (by rewrite Hpc).
  destruct (uct_mm_iface_fifo_has_new_data cfg (iface s) e) eqn:E.
  - eapply (rx_result_upd s env (set_rpc (CheckHead c) (iface s)) RxNone); [done| |done|].
    { unfold rx_step, uct_mm_iface_poll_fifo, uct_mm_iface_event_fd_arm. rewrite Hpc, He. cbn. by rewrite E. }
    rewrite (has_new_data_spec cfg sh r Hcfg) in E.
    apply inv_upd_iface; try done; [|by intros [?|?]; [apply (iv_wake _ _ _ _ H); left|]].
    split; [done|]. cbn. split; [done|]. split; [|by exists e].
    destruct (iv_published _ _ _ _ H (read_index (iface s)) e) as (_ & _ & _ & A & _); [rewrite next_read_idle by done; lia|done|done|done].
  - destruct (window_adjust_ok c (iface s)) as (w & b & Ew & Hw); [done|lia|].
    eapply (rx_result_upd s env (set_rpc RxIdle (set_poll_count w b (iface s))) RxNone); [done| |done|].
    { unfold rx_step, uct_mm_iface_poll_fifo, uct_mm_iface_event_fd_arm, progress_next. rewrite Hpc, He. cbn [mbind option_bind]. rewrite E. rewrite Z.add_0_r.
      pose proof (co_poll _ _ _ Hcfg). rewrite u_wrap_small by lia. rewrite (proj2 (Z.ltb_lt c _)) by lia. cbn [negb Z.eqb andb]. by rewrite Ew. }
    apply inv_upd_iface; try done. by intros [?|?]; [apply (iv_wake _ _ _ _ H); left|].
Qed.

Lemma check_head_ok s env c : inv s -> rpc (iface s) = CheckHead c -> rx_result env s.
Proof.
  intros H Hpc. destruct (iv_rx _ _ _ _ H) as [Hp Hrx]. rewrite Hpc in Hrx. destruct Hrx as (R1 & R2 & R3).
  eapply (rx_result_upd s env (set_rpc (Load c) (iface s)) RxNone); [done| |done|].
  { unfold rx_step, uct_mm_iface_poll_fifo, uct_mm_iface_event_fd_arm. rewrite Hpc. unfold head_index in R2. by rewrite (proj2 (Z.leb_le _ _)) by lia. }
  apply inv_upd_iface; try done; [by rewrite Hpc|]. by intros [?|?]; [apply (iv_wake _ _ _ _ H); left|].
Qed.

Lemma load_ok s env c : inv s -> rpc (iface s) = Load c -> rx_result env s.
Proof.
  intros H Hpc. destruct (iv_rx _ _ _ _ H) as [Hp Hrx]. rewrite Hpc in Hrx. destruct Hrx as (R1 & R2 & e' & R3 & R4).
  destruct (read_elem s H) as (e & He & Hs). assert (e' = e) as -> by congruence. assert (not_advance (rpc (iface s))) as Hna by (by rewrite Hpc).
  assert (forall i, read_index i = read_index (iface s) -> fifo_poll_count i = fifo_poll_count (iface s) ->
    option_list (last_recv_desc i) ++ recv_desc_mp i ≡ₚ option_list (last_recv_desc (iface s)) ++ recv_desc_mp (iface s) ->
    (Z.land (flags e) UCT_MM_FIFO_ELEM_FLAG_INLINE = 0 -> last_recv_desc i <> None) ->
    rx_step cfg env (fifo s) (iface s) = Some (fifo s, set_rpc (Deliver c (flags e) (am_id e) (elem_length e)) i, RxNone) -> rx_result env s) as Hgo.
  { intros i Hri Hpi Hd Hl E. eapply rx_result_upd; [done|exact E|done|].
    apply inv_upd_iface; try done; [|by intros [?|?]; [apply (iv_wake _ _ _ _ H); left|]].
    unfold rx_ok. cbn. rewrite Hri, Hpi. split; [done|]. split; [done|]. split; [done|]. by exists e. }
  unfold rx_step, uct_mm_iface_poll_fifo, uct_mm_iface_event_fd_arm in Hgo. rewrite Hpc, He in Hgo. cbn [mbind option_bind] in Hgo.
  destruct (negb (Z.land (flags e) UCT_MM_FIFO_ELEM_FLAG_INLINE =? 0)) eqn:Ei.
  { apply (Hgo (iface s)); try done. intros E. by rewrite E in Ei. }
  destruct (last_recv_desc (iface s)) as [d|] eqn:El; [apply (Hgo (iface s)); try done; [by rewrite El|congruence]|].
  unfold mpool_get in Hgo. destruct (recv_desc_mp (iface s)) as [|d free] eqn:Emp.
  2: destruct (pool_ok env) eqn:Epo; [by eapply (Hgo (set_last_recv_desc (Some d) (set_recv_desc_mp free (iface s))))|].
  all: eexists; (split; [unfold rx_event_step, rx_step, uct_mm_iface_poll_fifo, uct_mm_iface_event_fd_arm, mpool_get; rewrite Hpc, He; cbn [mbind option_bind]; rewrite Ei, El, Emp, ?Epo;
    cbn [mbind option_bind]; rewrite app_nil_r; reflexivity|]).
  all: apply inv_processed with (c := c); try done; [by exists e|by exists e|apply H..].
Qed.

(** The handler keeps the descriptor of an element, which gets the spare one. *)
Lemma descs_swap s i e d (k : nat) (last : option uct_mm_desc_info_t) free data : elems (fifo s) !! k = Some e ->
  last_recv_desc (iface s) = Some d -> option_list last ++ free ≡ₚ recv_desc_mp (iface s) ->
  last_recv_desc i = last -> recv_desc_mp i = free ->
  all_descs s ≡ₚ all_descs (Sys (set_elems (<[k := set_desc d e]> (elems (fifo s))) (fifo s)) (eps s) i (sent s) (recvd s)
                             (held s ++ [(desc e, data)]) (abandoned s) (armed s)).
Proof.
  intros He Hd Hfree Hl Hf. unfold all_descs. cbn [fifo iface held elems set_elems]. rewrite Hd, Hl, Hf, fmap_app. cbn [option_list].
  rewrite (app_assoc (option_list last)), Hfree, list_fmap_insert. cbn [desc set_desc].
  rewrite <- (take_drop_middle _ _ _ He) at 1. rewrite fmap_app, fmap_cons.
  assert (k < length (elems (fifo s)))%nat by (by eapply lookup_lt_Some).
  rewrite insert_take_drop by (by rewrite length_fmap). rewrite <- fmap_take, <- fmap_drop. cbn [fmap list_fmap fst].
  rewrite <- !app_assoc. apply Permutation_app_head. cbn. solve_Permutation.
Qed.

Lemma mpool_get_spec env i last i' : mpool_get env i = (last, i') ->
  option_list last ++ recv_desc_mp i' = recv_desc_mp i /\ read_index i' = read_index i /\ fifo_poll_count i' = fifo_poll_count i.
Proof.
  unfold mpool_get. destruct (recv_desc_mp i) as [|d free] eqn:E; [|destruct (pool_ok env)]; intros [= <- <-]; cbn; by rewrite ?E.
Qed.

(** What the handler is given is the message of the element. *)
Lemma content_data s e op : content (fifo s) op e -> desc_data e = desc e ->
  (Z.land (flags e) UCT_MM_FIFO_ELEM_FLAG_INLINE = 0 ->
     (exists rest, bufs (fifo s) !! desc e = Some (op_data op ++ rest)) /\
     take (Z.to_nat (elem_length e)) (default [] (bufs (fifo s) !! desc_data e)) = op_data op) /\
  (Z.land (flags e) UCT_MM_FIFO_ELEM_FLAG_INLINE <> 0 -> take (Z.to_nat (elem_length e)) (inline_data e) = op_data op).
Proof.
  intros (W & El & _ & Ef) Hd. rewrite Hd, El, Nat2Z.id, Ef. unfold written in W.
  destruct op; destruct W as [rest W]; rewrite W; (split; [intros E|intros E]); try done; cbn [default].
  - apply take_app_length.
  - split; [by eexists|]. apply take_app_length.
  - apply take_app_length.
Qed.

Lemma mm_deliver_ok s env c fl id len : inv s -> rpc (iface s) = Deliver c fl id len -> valid_event (RxStep env) = true -> rx_result env s.
Proof.
  intros H Hpc Hv. destruct (iv_rx _ _ _ _ H) as [Hp Hrx]. rewrite Hpc in Hrx.
  destruct Hrx as (R1 & R2 & e' & R3 & R4 & -> & -> & -> & Hlast). destruct (read_elem s H) as (e & He & Hs).
  assert (e' = e) as -> by congruence. assert (not_advance (rpc (iface s))) as Hna by (by rewrite Hpc).
  pose proof (n_range cfg sh r Hcfg) as Hn. destruct (iv_descs _ _ _ _ H) as [Hnd Hdd].
  assert (desc_data e = desc e) as Hde by (apply Hdd; by eapply list_elem_of_lookup_2).
  destruct (iv_published _ _ _ _ H (read_index (iface s)) e) as (k & op & A1 & A2 & A3); [rewrite next_read_idle by done; lia|done|done|].
  destruct (iv_sent _ _ _ _ H k op) as [[Hid _] _]; [by eapply list_elem_of_lookup_2|].
  pose proof (content_data s e op A3 Hde) as [C1 C2]. destruct A3 as (_ & El & Eid & Ef).
  apply andb_true_iff in Hv as [V1 V2]. apply bool_decide_eq_true in V1, V2.
  assert (forall m, Some (am_id e, op_data op) = Some m -> exists k op, sent s !! Z.to_nat (read_index (iface s)) = Some (k, op) /\ m = (op_id op, op_data op)) as Hm.
  { intros m [= <-]. exists k, op. by rewrite Eid. }
  assert (rx_step cfg env (fifo s) (iface s) =
    '(f, i, ev) ← uct_mm_iface_process_recv cfg env (fifo s) (iface s) (flags e) (am_id e) (elem_length e); Some (f, set_rpc (Advance c) i, ev)) as E
    by (unfold rx_step, uct_mm_iface_poll_fifo, uct_mm_iface_event_fd_arm; by rewrite Hpc).
  unfold uct_mm_iface_process_recv in E. rewrite He, Eid, (proj2 (Z.ltb_lt _ _) Hid) in E. cbn [negb mbind option_bind] in E.
  destruct (Z.eqb_spec (Z.land (flags e) UCT_MM_FIFO_ELEM_FLAG_INLINE) 0) as [Ei|Ei]; cbn [negb] in E.
  2:{ rewrite V1 in E. cbn [mbind option_bind] in E. rewrite (C2 Ei) in E. eexists. split.
      { unfold rx_event_step. rewrite (bind_eq _ _ _ E), app_nil_r, <- Eid. reflexivity. }
      apply inv_processed with (c := c); try done; [by exists e|by exists e|apply H]. }
  destruct (C1 Ei) as [Cr Cd]. rewrite Cd in E. destruct V2 as [V2|V2]; rewrite V2 in E; cbn [mbind option_bind] in E.
  { eexists. split.
    { unfold rx_event_step. rewrite (bind_eq _ _ _ E), app_nil_r, <- Eid. reflexivity. }
    apply inv_processed with (c := c); try done; [by exists e|by exists e|apply H]. }
  destruct (last_recv_desc (iface s)) as [d|] eqn:Ed; [|by destruct (Hlast Ei)]. cbn [mbind option_bind] in E.
  destruct (mpool_get env (iface s)) as [last i] eqn:Emp. cbn [mbind option_bind] in E.
  apply mpool_get_spec in Emp as (P1 & P2 & P3). eexists. split.
  { unfold rx_event_step. rewrite (bind_eq _ _ _ E), <- Eid. reflexivity. }
  assert (length (elems (fifo s)) = Z.to_nat n) as Hlen by (pose proof (iv_length _ _ _ _ H); lia).
  assert (elem_index cfg (read_index (iface s)) = Z.to_nat (read_index (iface s) mod n)) as Eidx.
  { unfold MmSystem.slot in Hs. eapply NoDup_lookup; [exact (proj1 (proj1 (NoDup_app _ _) Hnd))|..]; rewrite list_lookup_fmap, ?He, ?Hs; done. }
  rewrite Eidx in *. set (f' := set_elems _ _).
  assert (forall j, slot f' j = if decide (j mod n = read_index (iface s) mod n) then Some (set_desc d e) else slot (fifo s) j) as Hsl.
  { intros j. apply (slot_insert cfg sh r Hcfg); [by rewrite Hlen, Z2Nat.id by lia|by rewrite He]. }
  apply inv_processed with (c := c); try done; cbn [fifo_poll_count set_rpc set_last_recv_desc]; rewrite ?P3; try done.
  - cbn. by rewrite length_insert.
  - intros j Hj. by rewrite Hsl, decide_False.
  - by exists e.
  - exists (set_desc d e). by rewrite Hsl, decide_True.
  - rewrite Hde. rewrite (descs_swap s (set_rpc (Advance c) (set_last_recv_desc last i)) _ _ _ _ _ (op_data op) He Ed (reflexive_eq _ _ P1) eq_refl eq_refl) in Hnd.
    exact Hnd.
  - cbn. intros x [j Hj]%list_elem_of_lookup. apply list_lookup_insert_Some in Hj as [(_ & <- & _)|[_ Hj]]; [done|].
    apply Hdd. by eapply list_elem_of_lookup_2.
  - intros d' data [Hin|Hin]%elem_of_app; [by apply (iv_held _ _ _ _ H)|]. apply list_elem_of_singleton in Hin. simplify_eq. by rewrite Hde.
Qed.

Lemma mm_advance_ok s env c : inv s -> rpc (iface s) = Advance c -> rx_result env s.
Proof.
  intros H Hpc. destruct (iv_rx _ _ _ _ H) as [Hp Hrx]. rewrite Hpc in Hrx. destruct Hrx as (R1 & R2 & _).
  pose proof (iv_order _ _ _ _ H) as Hord. destruct (iv_head _ _ _ _ H) as [Hv _].
  assert (head_index s < 2 ^ 63) as Hb by (unfold head_index; rewrite unarmed_mod by done; apply Z.mod_pos_bound; lia).
  destruct (co_release _ _ _ Hcfg) as [Hr Hmask]. pose proof (iv_tail _ _ _ _ H) as Ht. set (R := read_index (iface s)) in *.
  assert (0 < 2 ^ r) as Hr0 by lia.
  assert (rx_step cfg env (fifo s) (iface s) =
    i ← progress_next cfg 1 c (set_read_index (R + 1) (iface s));
    Some (if (R + 1) mod 2 ^ r =? 0 then set_tail (R + 1) (fifo s) else fifo s, i, RxNone)) as E.
  { unfold rx_step, uct_mm_iface_poll_fifo, uct_mm_iface_event_fd_arm. rewrite Hpc. unfold uct_mm_progress_fifo_tail. fold R. rewrite u_wrap_small by lia. cbn [read_index set_read_index].
    rewrite Hmask, Z.sub_1_r, <- Z.ones_equiv, Z.land_ones by lia. by destruct ((R + 1) mod 2 ^ r =? 0). }
  assert (exists i, progress_next cfg 1 c (set_read_index (R + 1) (iface s)) = Some i /\ read_index i = R + 1 /\
    last_recv_desc i = last_recv_desc (iface s) /\ recv_desc_mp i = recv_desc_mp (iface s) /\ 1 <= fifo_poll_count i <= fifo_max_poll cfg /\
    match rpc i with Poll c => 0 <= c < fifo_poll_count i | RxIdle => True | _ => False end) as (i & Ei & I1 & I2 & I3 & I4 & I5).
  { unfold progress_next. pose proof (co_poll _ _ _ Hcfg). rewrite u_wrap_small, (proj2 (Z.ltb_lt (c + 1) (2 ^ 32 - 1))) by lia.
    cbn [negb Z.eqb andb fifo_poll_count set_read_index]. destruct (Z.ltb_spec (c + 1) (fifo_poll_count (iface s))).
    - eexists. split; [done|]. cbn. split_and!; done || lia.
    - destruct (window_adjust_ok (c + 1) (set_read_index (R + 1) (iface s))) as (w & b & Ew & Hw); [done|cbn; lia|].
      rewrite Ew. eexists. split; [done|]. cbn. split_and!; done || lia. }
  rewrite Ei in E. cbn [mbind option_bind] in E. eexists. split.
  { unfold rx_event_step. rewrite (bind_eq _ _ _ E), !app_nil_r. reflexivity. }
  apply mm_inv_advance with (c := c); try done; rewrite ?I1, ?I2, ?I3; try done.
  - by destruct (_ =? 0); [|destruct (fifo s)].
  - destruct (_ =? 0); cbn; lia.
  - destruct (Z.eqb_spec ((R + 1) mod 2 ^ r) 0) as [E0|E0]; cbn; [lia|]. rewrite (mod_succ R) by done. lia.
Qed.


Lemma arm_head_ok s env : inv s -> rpc (iface s) = ArmHead -> rx_result env s.
Proof.
  intros H Hpc. pose proof (iv_order _ _ _ _ H) as Hord. destruct (iv_head _ _ _ _ H) as [Hv _]. unfold head_index in Hord.
  destruct (iv_rx _ _ _ _ H) as [Hp _]. assert (not_advance (rpc (iface s))) as Hna by (by rewrite Hpc).
  assert (rx_step cfg env (fifo s) (iface s) =
    if read_index (iface s) <? unarmed (head (fifo s)) then Some (fifo s, set_rpc RxIdle (iface s), RxArm UCS_ERR_BUSY)
    else if armed_head (head (fifo s)) then Some (fifo s, set_rpc ArmRecv (iface s), RxNone)
    else Some (fifo s, set_rpc (ArmCas (head (fifo s))) (iface s), RxNone)) as E by (unfold rx_step, uct_mm_iface_poll_fifo, uct_mm_iface_event_fd_arm; by rewrite Hpc).
  destruct (Z.ltb_spec (read_index (iface s)) (unarmed (head (fifo s)))).
  - eapply rx_result_upd; [done|exact E|done|]. apply inv_upd_iface; try done. by intros [?|?].
  - destruct (armed_head (head (fifo s))) eqn:Ea; (eapply rx_result_upd; [done|exact E|done|]); apply inv_upd_iface; try done.
    + intros _. left. unfold head_index. split; [done|lia].
    + split; [done|]. cbn. split_and!; try done. lia.
    + by intros [?|?]; [apply (iv_wake _ _ _ _ H); left|].
Qed.

Lemma arm_cas_ok s env h : inv s -> rpc (iface s) = ArmCas h -> rx_result env s.
Proof.
  intros H Hpc. destruct (iv_rx _ _ _ _ H) as [Hp Hrx]. rewrite Hpc in Hrx. destruct Hrx as (Hv & Ha & Ha' & Hu).
  assert (not_advance (rpc (iface s))) as Hna by (by rewrite Hpc).
  destruct (Z.eqb_spec (head (fifo s)) h) as [Eh|Eh].
  - assert (h < 2 ^ 63) as Hlt by (unfold valid_head in Hv; rewrite armed_head_spec in Ha by done; by apply Z.leb_gt in Ha).
    assert (Z.lor h UCT_MM_IFACE_FIFO_HEAD_EVENT_ARMED = h + 2 ^ 63) as El.
    { unfold UCT_MM_IFACE_FIFO_HEAD_EVENT_ARMED. rewrite ucs_bit_pow by lia. rewrite <- (Z.mul_1_l (2 ^ 63)) at 1. unfold valid_head in Hv.
      rewrite Z_lor_add by lia. lia. }
    unfold valid_head in Hv. assert (unarmed (h + 2 ^ 63) = h /\ unarmed h = h) as [U1 U2].
    { rewrite !unarmed_mod by lia. split; [|apply Z.mod_small; lia]. replace (h + 2 ^ 63) with (h + 1 * 2 ^ 63) by lia.
      rewrite Z.mod_add by lia. apply Z.mod_small. lia. }
    assert (armed_head (h + 2 ^ 63) = true) as Ha2 by (rewrite armed_head_spec by lia; apply Z.leb_le; lia).
    eexists. split.
    { unfold rx_event_step, rx_step, uct_mm_iface_poll_fifo, uct_mm_iface_event_fd_arm. rewrite Hpc, Eh, Z.eqb_refl. cbn [mbind option_bind]. rewrite !app_nil_r, El. reflexivity. }
    apply mm_inv_ctl; try done; cbn; rewrite ?Eh, ?U1, ?U2; try done.
    + apply H.
    + unfold valid_head. lia.
    + by right.
    + intros _. left. unfold head_index. cbn. by rewrite U1, <- Hu, U2.
  - eapply (rx_result_upd s env _ (RxArm UCS_ERR_BUSY)); [done| |done|].
    { unfold rx_step, uct_mm_iface_poll_fifo, uct_mm_iface_event_fd_arm. rewrite Hpc, (proj2 (Z.eqb_neq _ _) Eh), Ha'. reflexivity. }
    apply inv_upd_iface; try done. by intros [?|?].
Qed.

Lemma arm_recv_ok s env : inv s -> rpc (iface s) = ArmRecv -> rx_result env s.
Proof.
  intros H Hpc. destruct (iv_rx _ _ _ _ H) as [Hp _]. assert (not_advance (rpc (iface s))) as Hna by (by rewrite Hpc).
  destruct (iv_signals _ _ _ _ H) as [Hs Hs']. pose proof (iv_wake _ _ _ _ H (or_intror Hpc)) as Hw. destruct (Z.ltb_spec 0 (signals (fifo s))).
  - eexists. split.
    { unfold rx_event_step, rx_step, uct_mm_iface_poll_fifo, uct_mm_iface_event_fd_arm. rewrite Hpc, (proj2 (Z.ltb_lt _ _)) by done. cbn [mbind option_bind]. rewrite !app_nil_r. reflexivity. }
    apply mm_inv_ctl; try done; cbn; [lia|apply H|by left|]. by intros [?|?].
  - eapply rx_result_upd; [done|unfold rx_step, uct_mm_iface_poll_fifo, uct_mm_iface_event_fd_arm; rewrite Hpc, (proj2 (Z.ltb_ge _ _)) by done; reflexivity|done|].
    apply inv_upd_iface; done.
Qed.

Lemma rx_event_ok s env : inv s -> valid_event (RxStep env) = true -> rx_result env s.
Proof.
  intros H Hv. destruct (rpc (iface s)) eqn:Hpc.
  - eapply (rx_result_upd s env (iface s) RxNone); [done|unfold rx_step, uct_mm_iface_poll_fifo, uct_mm_iface_event_fd_arm; by rewrite Hpc|done|]. by destruct s.
  - by eapply poll_ok.
  - by eapply check_head_ok.
  - by eapply load_ok.
  - by eapply mm_deliver_ok.
  - by eapply mm_advance_ok.
  - by apply arm_head_ok.
  - by eapply arm_cas_ok.
  - by apply arm_recv_ok.
Qed.

(** ** Calls *)

(** A call to an endpoint. *)
Lemma inv_call s k g : inv s ->
  (forall ep, eps s !! k = Some ep -> pc ep = Idle -> ep_ok cfg sh (head_index s) (tail (fifo s)) ep ->
     ep_ok cfg sh (head_index s) (tail (fifo s)) (g ep) /\ owns (pc (g ep)) = None) -> inv (call k g s).
Proof.
  intros H Hg. destruct (eps s !! k) as [ep|] eqn:Hk.
  - set (ep' := match pc ep with Idle => g ep | _ => ep end).
    assert (call k g s = upd_ep k ep' (fifo s) s) as ->.
    { unfold call, with_ep, upd_ep. f_equal. apply list_eq. intros j. destruct (decide (j = k)) as [->|].
      - rewrite list_lookup_alter_eq, Hk, list_lookup_insert_eq by (by eapply lookup_lt_Some). done.
      - by rewrite list_lookup_alter_ne, list_lookup_insert_ne. }
    pose proof (iv_eps _ _ _ _ H k ep Hk) as Hok.
    assert ((pc ep = Idle /\ ep' = g ep) \/ ep' = ep) as [[Hpc Ee]|Ee] by (unfold ep'; destruct (pc ep); auto); rewrite Ee.
    2: by apply (inv_ep_local cfg sh r s k ep).
    destruct (Hg ep eq_refl Hpc Hok) as [G1 G2]. apply (inv_ep_local cfg sh r s k ep); rewrite ?Hpc; done.
  - replace (call k g s) with s; [done|]. unfold call, with_ep. destruct s. cbn in *. f_equal. symmetry.
    apply list_eq. intros j. destruct (decide (j = k)) as [->|].
    + by rewrite list_lookup_alter_eq, Hk.
    + by rewrite list_lookup_alter_ne.
Qed.

Lemma start_ok hi t ep p : ep_ok cfg sh hi t ep -> match p with LoadHead _ op => op_ok cfg op | PendingTail | FlushHead => True | _ => False end ->
  ep_ok cfg sh hi t (start p ep) /\ owns (pc (start p ep)) = None.
Proof.
  intros [E1 E2 E3 E4 E5 E6] Hp. split; [|by destruct p]. constructor; try done; cbn; destruct p; try done. by intros ? [= <-].
Qed.

(** The length that is checked is the length that is copied. *)
Lemma iov_to_buffer_length iov i buf : Z.of_nat (length (uct_iov_to_buffer iov i 0 buf SIZE_MAX).1) =
  fold_left (fun total item => total + u64 (Z.of_nat (length item))) iov (Z.of_nat (length buf)).
Proof.
  revert i buf. induction iov as [|item iov IH]; intros i buf; cbn [uct_iov_to_buffer fold_left]; [done|].
  destruct (Z.ltb_spec SIZE_MAX (u64 (Z.of_nat (length buf) + u64 (Z.of_nat (length item) - 0)))) as [Hlt|_].
  { pose proof (u_wrap_range 64 (Z.of_nat (length buf) + u64 (Z.of_nat (length item) - 0)) ltac:(lia)). unfold SIZE_MAX in Hlt. lia. }
  rewrite IH, Z.sub_0_r. f_equal. cbn [Z.to_nat]. rewrite drop_0, length_app, length_take.
  pose proof (u_wrap_range 64 (Z.of_nat (length item)) ltac:(lia)).
  assert (u64 (Z.of_nat (length item)) <= Z.of_nat (length item)) by (apply Z.mod_le; lia). lia.
Qed.

Lemma iov_total_length iov : uct_iov_total_length iov = u64 (Z.of_nat (length (uct_iov_to_buffer iov 0 0 [] SIZE_MAX).1)).
Proof.
  rewrite iov_to_buffer_length. unfold uct_iov_total_length. cbn [length]. change (Z.of_nat 0) with 0.
  assert (0 = u64 0) as E by done. rewrite E at 1. clear E. generalize 0. induction iov as [|item iov IH]; intros t; cbn [fold_left]; [done|].
  rewrite <- IH. f_equal. unfold u_wrap. by rewrite Zplus_mod_idemp_l, Zplus_mod_idemp_r.
Qed.

Lemma op_check_ok op : op_check cfg op = true -> Z.of_nat (length (op_data op)) < 2 ^ 16 -> op_ok cfg op.
Proof.
  unfold op_check. intros [Hc H]%andb_true_iff Hl. split; [split; [by apply Z.ltb_lt|done]|].
  destruct op as [id header payload|id packed|id iov]; [|done|]; apply Z.leb_le in Hc.
  - cbn [op_data]. rewrite length_app, length_le64. lia.
  - rewrite iov_total_length in Hc. cbn [op_data] in *. by rewrite u_wrap_small in Hc by lia.
Qed.

(** A new endpoint. *)
Lemma inv_connect s seg : inv s ->
  inv (Sys (fifo s) (eps s ++ [uct_mm_ep_init seg (fifo s)]) (iface s) (sent s) (recvd s) (held s) (abandoned s) (armed s)).
Proof.
  intros [H1 H2 H3 H4 H5 H6 H7 H8 H9 H10 H11 H12 H13 H14 H15 H16].
  assert (forall k ep, (eps s ++ [uct_mm_ep_init seg (fifo s)]) !! k = Some ep -> eps s !! k = Some ep \/ ep = uct_mm_ep_init seg (fifo s)) as Hl.
  { intros k ep. rewrite lookup_app_Some. intros [?|[_ Hk]]; [by left|right]. by apply list_lookup_singleton_Some in Hk as [_ ->]. }
  constructor; try done.
  - intros i e Hi He Hno. destruct (H8 i e Hi He Hno) as [?|(k & ep & op & h & A1 & A2 & A3)]; [by left|right].
    exists k, ep, op, h. split; [by apply lookup_app_l_Some|done].
  - intros k ep [Hk|Hk]%Hl; [by apply (H9 k)|]. subst ep. constructor; try done; cbn; [unfold head_index in *; lia|].
    by intros op Hop%not_elem_of_nil.
  - intros k ep op h [Hk|Hk]%Hl Ho; [by apply (H10 k ep)|]. by subst ep.
  - intros Ha. destruct (H16 Ha) as [W|[W|[(k & ep & W1 & W2)|W]]]; [by left|right; by left| |right; right; by right].
    right. right. left. exists k, ep. split; [by apply lookup_app_l_Some|done].
Qed.

(** A handler's descriptor is released. *)
Lemma inv_release s j d data : inv s -> held s !! j = Some (d, data) ->
  inv (Sys (fifo s) (eps s) (uct_mm_iface_release_desc d (iface s)) (sent s) (recvd s) (delete j (held s)) (abandoned s) (armed s)).
Proof.
  intros [H1 H2 H3 H4 H5 H6 H7 H8 H9 H10 H11 H12 [H13 H13'] H14 H15 H16] Hj. constructor; try done.
  - split; [|done]. eapply NoDup_Permutation_proper; [|exact H13]. unfold all_descs. cbn. rewrite <- (take_drop_middle _ _ _ Hj) at 2.
    rewrite delete_take_drop, !fmap_app, fmap_cons. cbn. solve_Permutation.
  - intros d' data' Hd. apply H14. eapply elem_of_submseteq; [exact Hd|]. apply sublist_submseteq, sublist_delete.
Qed.

(** ** All events *)

Lemma mm_step_ok s ev : inv s -> valid_event ev = true -> fresh_event ev s = true -> exists s', step cfg ev s = Some s' /\ inv s'.
Proof.
  intros H Hv Hf. destruct ev as [seg|k op|k op|k|k|k|k env| | |env|j]; cbn [step].
  - eexists. split; [done|]. by apply inv_connect.
  - eexists. split; [done|]. apply inv_call; [done|]. intros ep Hk Hpc Hok. cbn in Hv. apply Z.ltb_lt in Hv.
    destruct (op_check cfg op) eqn:Ec; [apply start_ok; [done|by apply op_check_ok]|]. split; [|cbn; by rewrite Hpc].
    destruct Hok as [E1 E2 E3 E4 E5 E6]. by constructor.
  - eexists. split; [done|]. apply inv_call; [done|]. intros ep Hk Hpc Hok. cbn in Hv. apply Z.ltb_lt in Hv.
    assert (owns (pc ep) = None) by (by rewrite Hpc).
    destruct (ret ep) as [[[]|]|] eqn:Er; try done. destruct (op_check cfg op) eqn:Ec; [|done]. split; [|done].
    pose proof Hok as [E1 E2 E3 E4 E5 E6]. destruct (E4 Er) as [A _]. constructor; try done; cbn.
    + intros ? [= <-]. by apply op_check_ok.
    + intros _. split; [done|]. right. by eexists.
  - eexists. split; [done|]. apply inv_call; [done|]. intros ep Hk Hpc Hok. destruct (arb_group ep); [split; [done|by rewrite Hpc]|].
    by apply start_ok.
  - eexists. split; [done|]. apply inv_call; [done|]. intros ep Hk Hpc Hok. by apply start_ok.
  - eexists. split; [done|]. apply inv_call; [done|]. intros ep Hk Hpc [E1 E2 E3 E4 E5 E6]. split; [|cbn; by rewrite Hpc].
    constructor; try done. by intros op Hop%not_elem_of_nil.
  - by apply (ep_event_ok cfg sh r Hcfg).
  - destruct (iv_rx _ _ _ _ H) as [Hp _]. unfold UCT_MM_IFACE_FIFO_MIN_POLL. rewrite (proj2 (Z.leb_le _ _)) by lia.
    eexists. split; [done|]. unfold rx_call. destruct (rpc (iface s)) eqn:Hpc; try done.
    apply inv_upd_iface; try done; [by rewrite Hpc| |by intros [?|?]]. split; [done|]. cbn. lia.
  - destruct (iv_rx _ _ _ _ H) as [Hp _]. eexists. split; [done|]. unfold rx_call. destruct (rpc (iface s)) eqn:Hpc; try done.
    apply inv_upd_iface; try done; [by rewrite Hpc|by intros [?|?]].
  - by apply rx_event_ok.
  - destruct (held s !! j) as [[d data]|] eqn:Hj; [|by exists s]. eexists. split; [done|]. by eapply inv_release.
Qed.

Lemma mm_run_ok es : forall s, inv s -> fresh cfg es s = true -> exists s', run cfg es s = Some s' /\ inv s'.
Proof.
  induction es as [|ev es IH]; intros s H Hf; cbn in *; [by exists s|]. apply andb_true_iff in Hf as [Hf1 Hf2].
  apply andb_true_iff in Hf1 as [Hv Hf1]. destruct (mm_step_ok s ev H Hv Hf1) as (s1 & E & H1). rewrite E in *. by apply IH.
Qed.

End receive.

(** ** Creation *)

(** The limits of the configuration: the 32-bit comparison of the head and the tail
    has to hold the size of the FIFO, and a progress call counts its messages in
    32 bits.  The pool hands out each descriptor once. *)
Definition config_valid (c : uct_mm_iface_config_t) (pool : list uct_mm_desc_info_t) : bool :=
  (c_fifo_size c <=? 2 ^ 30) && match c_fifo_max_poll c with Some m => (1 <=? m) && (m <? 2 ^ 32 - 1) | None => true end &&
  bool_decide (NoDup pool).

Lemma is_pow2_log2 n : 0 < n < 2 ^ 64 -> ucs_is_pow2 n = true -> n = 2 ^ Z.log2 n.
Proof.
  intros Hn [_ H]%andb_true_iff. apply Z.eqb_eq in H. rewrite u_wrap_small in H by lia.
  destruct (Z.log2_spec n) as [L1 L2]; [lia|]. destruct (decide (n = 2 ^ Z.log2 n)) as [|Hne]; [done|exfalso].
  pose proof (Z.log2_nonneg n). assert (Z.testbit (Z.land n (n - 1)) (Z.log2 n) = true) as Hb; [|by rewrite H, Z.bits_0 in Hb].
  rewrite Z.land_spec, Z.bit_log2 by lia. rewrite <- (Z.log2_unique (n - 1) (Z.log2 n)) at 1 by lia. by rewrite Z.bit_log2 by lia.
Qed.

Lemma pos_ctz_pow2 (k : nat) : ctz (2 ^ Z.of_nat k) = Z.of_nat k.
Proof.
  induction k as [|k IH]; [done|]. rewrite Nat2Z.inj_succ, Z.pow_succ_r by lia. 
  destruct (2 ^ Z.of_nat k) as [|p|p] eqn:E; [lia| |lia]. change (ctz (2 * Z.pos p)) with (1 + pos_ctz p). cbn in IH. lia.
Qed.

Lemma init_elems_ok (k : nat) : forall pool es rest, init_elems k pool = Some (es, rest) ->
  pool = (desc <$> es) ++ rest /\ length es = k /\ forall e, e ∈ es -> flags e = UCT_MM_FIFO_ELEM_FLAG_OWNER /\ desc_data e = desc e.
Proof.
  induction k as [|k IH]; intros pool es rest E; cbn in E.
  - simplify_eq. split_and!; try done. by intros e He%not_elem_of_nil.
  - destruct pool as [|d pool]; [done|]. apply bind_Some in E as ([es' rest'] & E1 & E). simplify_eq.
    destruct (IH _ _ _ E1) as (-> & <- & He). split_and!; try done. intros e [->|H]%elem_of_cons; [done|by apply He].
Qed.

Lemma inv_init cfg sh r es d rest b : config_ok cfg sh r -> Z.of_nat (length es) = 2 ^ sh -> NoDup (d :: (desc <$> es) ++ rest) ->
  (forall e, e ∈ es -> flags e = UCT_MM_FIFO_ELEM_FLAG_OWNER /\ desc_data e = desc e) ->
  MmSystem.inv cfg sh r (Sys (Fifo 0 0 es ∅ 0 0) [] (Iface 0 (fifo_max_poll cfg) b (Some d) rest RxIdle) [] [] [] [] false).
Proof.
  intros Hcfg Hlen Hnd Hes. pose proof (n_range cfg sh r Hcfg) as Hn.
  constructor; unfold next_read, head_index; cbn; try done; try lia.
  - by intros k op H%not_elem_of_nil.
  - intros i e Hi He Ho. exfalso. destruct (Hes e) as [Hfl _]; [by eapply list_elem_of_lookup_2|].
    unfold owner_ok in Ho. rewrite Hfl, (Z.div_small i) in Ho by lia. done.
  - by intros i H%not_elem_of_nil.
  - split; [|done]. cbn. pose proof (co_poll _ _ _ Hcfg). lia.
  - split; [|by intros e [_ ?]%Hes]. rewrite app_nil_r. revert Hnd. apply NoDup_Permutation_proper. solve_Permutation.
  - by intros d' data H%not_elem_of_nil.
  - by intros [?|?].
Qed.

Lemma mm_init_ok c pool cfg s : config_valid c pool = true -> init c pool = Some (cfg, s) ->
  exists sh r, config_ok cfg sh r /\ MmSystem.inv cfg sh r s.
Proof.
  unfold config_valid, init, uct_mm_iface_init. intros [[Hsz Hpoll]%andb_true_iff Hnd]%andb_true_iff E.
  apply Z.leb_le in Hsz. apply bool_decide_eq_true in Hnd.
  destruct (_ || negb _) eqn:E1; [done|]. apply orb_false_iff in E1 as [E1 E2]. apply Z.leb_gt in E1. apply negb_false_iff in E2.
  destruct (_ || (_ <=? _)) eqn:E3; [done|]. apply orb_false_iff in E3 as [E3 E4]. apply Z.ltb_ge in E3. apply Z.leb_gt in E4.
  destruct (c_fifo_elem_size c <=? _) eqn:E5; [done|]. destruct pool as [|d pool]; [done|].
  destruct (init_elems _ _) as [[es rest]|] eqn:E6; [|done]. simplify_eq.
  apply init_elems_ok in E6 as (-> & Hlen & Hes). set (size := c_fifo_size c) in *.
  apply is_pow2_log2 in E2; [|lia]. set (sh := Z.log2 size) in *. pose proof (Z.log2_nonneg size).
  set (rel := Z.max (size * factor_num c / Zpos (factor_den c)) 1).
  assert (1 <= rel < size) as Hrel.
  { unfold rel. assert (size * factor_num c / Zpos (factor_den c) < size); [|lia]. apply Z.div_lt_upper_bound; nia. }
  assert (1 <= sh <= 30) as Hsh.
  { split.
    - apply Z.log2_le_pow2; lia.
    - unfold sh. rewrite <- (Z.log2_pow2 30) by lia. by apply Z.log2_le_mono. }
  assert (0 <= Z.log2 rel < sh) as Hr by (split; [apply Z.log2_nonneg|apply Z.log2_lt_pow2; lia]).
  assert (config_ok (iface_config c) sh (Z.log2 rel)) as Hcfg.
  { constructor; cbn; fold size; try done.
    + rewrite u_wrap_small by lia. lia.
    + unfold ucs_count_trailing_zero_bits. rewrite E2, <- (Z2Nat.id sh) by lia. apply pos_ctz_pow2.
    + fold rel. split; [done|]. unfold ucs_ilog2. rewrite ilog2_u64_log2 by lia. unfold UCS_MASK. rewrite ucs_bit_pow by lia.
      apply u_wrap_small. assert (2 ^ Z.log2 rel < 2 ^ 64) by (apply Z.pow_lt_mono_r; lia). lia.
    + destruct (c_fifo_max_poll c); [apply andb_true_iff in Hpoll as [P1 P2]; zbool_hyps; lia|unfold UCT_MM_IFACE_FIFO_MAX_POLL; lia]. }
  exists sh, (Z.log2 rel). split; [done|]. apply inv_init; [done|rewrite Hlen; lia|done|done].
Qed.

(** ** Delivery *)

Section drain.
Context (cfg : fifo_config) (sh r : Z).
Hypothesis Hcfg : config_ok cfg sh r.
Local Notation inv := (MmSystem.inv cfg sh r).

(** The handlers accept all messages. *)
Definition accept : rx_env := RxEnv UCS_OK UCS_OK true EAGAIN.

(** The place of the receiver in a progress call, by the steps to the next element. *)
Definition rank (p : rx_pc) : Z :=
  match p with RxIdle => 6 | Poll _ => 5 | CheckHead _ => 4 | Load _ => 3 | Deliver _ _ _ _ => 2 | Advance _ => 1 | _ => 7 end.

Lemma progress_next_fields c t i i' : progress_next cfg c t i = Some i' ->
  read_index i' = read_index i /\ last_recv_desc i' = last_recv_desc i /\ 5 <= rank (rpc i') <= 6 /\ (c = 0 -> rpc i' = RxIdle).
Proof.
  unfold progress_next, uct_mm_iface_fifo_window_adjust. intros E.
  repeat (case_match; try done; simplify_eq; cbn in * ); simplify_eq; cbn; split_and!; try done; try lia.
Qed.

(** One step of a progress call: what it changes, and that it gets on. *)
Lemma rx_next s s' : rx_event_step cfg accept s = Some s' -> rank (rpc (iface s)) <= 5 ->
  eps s' = eps s /\ sent s' = sent s /\ abandoned s' = abandoned s /\ head (fifo s') = head (fifo s) /\ held s' = held s /\
  (last_recv_desc (iface s) <> None -> last_recv_desc (iface s') = last_recv_desc (iface s) /\
     exists l, recvd s' = recvd s ++ l /\ forall x, x ∈ l -> x <> None) /\
  rank (rpc (iface s')) <= 6 /\
  ((read_index (iface s') = read_index (iface s) /\ rank (rpc (iface s')) < rank (rpc (iface s))) \/
   (read_index (iface s') = u64 (read_index (iface s) + 1) /\ rank (rpc (iface s)) = 1) \/
   (exists c e, rpc (iface s) = Poll c /\ elems (fifo s) !! elem_index cfg (read_index (iface s)) = Some e /\
      uct_mm_iface_fifo_has_new_data cfg (iface s) e = false /\ rpc (iface s') = RxIdle /\ read_index (iface s') = read_index (iface s))).
Proof.
  intros E Hr. unfold rx_event_step in E. apply bind_Some in E as ([[f i] ev] & E & E'). simplify_eq.
  cbn [eps sent abandoned fifo held iface recvd]. unfold rx_step, uct_mm_iface_poll_fifo, uct_mm_iface_event_fd_arm in E.
  assert (exists l, recvd s = recvd s ++ l /\ forall x, x ∈ l -> x <> None) as Hnil.
  { exists []. rewrite app_nil_r. split; [done|]. by intros x Hx%not_elem_of_nil. }
  destruct (rpc (iface s)) as [|c|c|c|c fl id len|c| | |] eqn:Hpc; cbn in Hr; try lia.
  - apply bind_Some in E as (e & He & E). destruct (uct_mm_iface_fifo_has_new_data cfg (iface s) e) eqn:En.
    + simplify_eq. cbn. rewrite ?app_nil_r. split_and!; try done; try (by left); by intros _; split; [|exact Hnil].
    + apply bind_Some in E as (i' & E1 & E). simplify_eq. apply progress_next_fields in E1 as (F1 & F2 & F3 & F4). rewrite ?app_nil_r.
      split_and!; try done; try (by intros _; split; [|exact Hnil]); [lia|]. right. right. exists c, e. split_and!; try done. by apply F4.
  - destruct (_ <=? _); [|done]. simplify_eq. cbn. rewrite ?app_nil_r. split_and!; try done; try (by left); by intros _; split; [|exact Hnil].
  - apply bind_Some in E as (e & He & E). unfold mpool_get in E.
    repeat (case_match; simplify_eq; cbn); rewrite ?app_nil_r; split_and!; try done; try (by left);
      intros Hl; first [congruence|split; [done|exact Hnil]].
  - apply bind_Some in E as ([[f' i'] ev'] & E1 & E). simplify_eq. unfold uct_mm_iface_process_recv in E1. apply bind_Some in E1 as (e & He & E1).
    destruct (negb _); [done|]. cbn [handler handler_desc accept] in E1. destruct (negb _); simplify_eq; cbn; rewrite ?app_nil_r; split_and!; try done.
    2,4: by left.
    all: intros _; split; [done|]; eexists; split; [done|]; by intros x ->%list_elem_of_singleton.
  - apply bind_Some in E as (i' & E1 & E). simplify_eq. apply progress_next_fields in E1 as (F1 & F2 & F3 & F4). rewrite ?app_nil_r.
    unfold uct_mm_progress_fifo_tail. split_and!; try done; try (by intros _; split; [|exact Hnil]); [by destruct (negb _)|lia|]. right. left. cbn in *. done.
Qed.

Definition quiet (s : sys) : Prop := abandoned s = [] /\ forall k ep, eps s !! k = Some ep -> owns (pc ep) = None.

(** When no sender is in the middle of a message, all messages can be read. *)
Lemma quiet_new_data s e : inv s -> quiet s -> not_advance (rpc (iface s)) -> read_index (iface s) < head_index s ->
  MmSystem.slot sh (fifo s) (read_index (iface s)) = Some e -> owner_ok (2 ^ sh) (read_index (iface s)) e = true.
Proof.
  intros H [Ha Ho] Hna Hlt He. destruct (owner_ok _ _ e) eqn:Eo; [done|].
  destruct (iv_missing _ _ _ _ H (read_index (iface s)) e) as [Hin|(k & ep & op & h & A1 & A2 & _)]; [|done|done| |].
  - rewrite next_read_idle by done. lia.
  - rewrite Ha in Hin. by apply not_elem_of_nil in Hin.
  - by rewrite (Ho k ep A1) in A2.
Qed.

(** What a run of the receiver keeps. *)
Record drained (s s' : sys) : Prop := Drained {
  dr_eps : eps s' = eps s /\ sent s' = sent s /\ abandoned s' = abandoned s /\ head (fifo s') = head (fifo s) /\ held s' = held s;
  dr_recvd : last_recv_desc (iface s) <> None -> last_recv_desc (iface s') = last_recv_desc (iface s) /\
    exists l, recvd s' = recvd s ++ l /\ forall x, x ∈ l -> x <> None
}.

Lemma drained_trans s1 s2 s3 : drained s1 s2 -> drained s2 s3 -> drained s1 s3.
Proof.
  intros [(A1 & A2 & A3 & A4 & A5) A6] [(B1 & B2 & B3 & B4 & B5) B6]. split; [by rewrite B1, B2, B3, B4, B5|].
  intros Hl. destruct (A6 Hl) as (L1 & l1 & E1 & N1). destruct B6 as (L2 & l2 & E2 & N2); [by rewrite L1|].
  split; [congruence|]. exists (l1 ++ l2). split; [by rewrite E2, E1, app_assoc|]. intros x [?|?]%elem_of_app; auto.
Qed.

Definition measure (s : sys) : Z := 7 * (head_index s - read_index (iface s)) + rank (rpc (iface s)).

Definition rx_only (ev : event) : Prop := ev = Progress \/ ev = RxStep accept.

(** The receiver gets everything from [s]. *)
Definition drains (s : sys) : Prop :=
  exists es s', Forall rx_only es /\ run cfg es s = Some s' /\ fresh cfg es s = true /\ inv s' /\ drained s s' /\
    rpc (iface s') = RxIdle /\ read_index (iface s') = head_index s'.

Lemma drains_step ev s s1 : rx_only ev -> step cfg ev s = Some s1 -> drained s s1 -> drains s1 -> drains s.
Proof.
  intros Hev E Hd (es & s' & D1 & D2 & D3 & D4 & D5 & D6). exists (ev :: es), s'.
  assert (valid_event ev = true /\ fresh_event ev s = true) as [V1 V2] by (by destruct Hev as [-> | ->]).
  split; [by constructor|]. cbn. rewrite E, V1, V2. split_and!; try done; [by eapply drained_trans|apply D6|apply D6].
Qed.

Lemma drained_refl s a p : drained s (upd_iface (set_rpc p (iface s)) a s).
Proof.
  split; [done|]. intros _. split; [done|]. exists []. cbn. rewrite app_nil_r. split; [done|]. by intros x Hx%not_elem_of_nil.
Qed.

Lemma drain_ok (m : nat) : forall s, inv s -> quiet s -> rank (rpc (iface s)) <= 6 -> measure s < Z.of_nat m -> drains s.
Proof.
  induction m as [|m IH]; intros s H Hq Hr Hm; pose proof (iv_order _ _ _ _ H) as Hord; unfold measure in Hm.
  { assert (1 <= rank (rpc (iface s))) by (destruct (rpc (iface s)); cbn; lia). lia. }
  assert (rpc (iface s) = RxIdle \/ rank (rpc (iface s)) <= 5) as [Hidle|Hr5] by (destruct (rpc (iface s)); cbn in *; auto; lia).
  - destruct (decide (read_index (iface s) = head_index s)) as [E|Hne].
    { exists [], s. split_and!; try done. pose proof (drained_refl s (armed s) RxIdle) as D. by destruct s as [? ? []]; cbn in *; subst. }
    destruct (mm_step_ok cfg sh r Hcfg s Progress H eq_refl eq_refl) as (s1 & E & H1). eapply drains_step; [by left|exact E|..].
    + cbn in E. case_match; [|done]. simplify_eq. unfold rx_call. rewrite Hidle. apply drained_refl.
    + cbn in E. case_match; [|done]. simplify_eq. unfold rx_call in *. rewrite Hidle in *. apply IH; try done.
      unfold measure, head_index in *. cbn in *. lia.
  - destruct (mm_step_ok cfg sh r Hcfg s (RxStep accept) H eq_refl eq_refl) as (s1 & E & H1).
    destruct (rx_next s s1 E Hr5) as (A1 & A2 & A3 & A4 & A5 & A6 & A7 & A8).
    assert (head_index s1 = head_index s) as Ehi by (unfold head_index; by rewrite A4).
    assert (quiet s1) as Hq1 by (destruct Hq as [Q1 Q2]; split; [by rewrite A3|by rewrite A1]).
    apply (drains_step (RxStep accept) s s1); [by right|done|by split|]. destruct A8 as [[B1 B2]|[[B1 B2]|(c & e & B1 & B2 & B3 & B4 & B5)]].
    + apply IH; try done. unfold measure. rewrite Ehi, B1. lia.
    + assert (read_index (iface s) < head_index s).
      { destruct (iv_rx _ _ _ _ H) as [_ Hrx]. destruct (rpc (iface s)); try done. apply Hrx. }
      destruct (iv_head _ _ _ _ H) as [Hv _]. assert (head_index s < 2 ^ 63) by (unfold head_index; rewrite unarmed_mod by done; apply Z.mod_pos_bound; lia).
      rewrite u_wrap_small in B1 by lia. apply IH; try done. unfold measure. rewrite Ehi, B1. lia.
    + destruct (decide (read_index (iface s) < head_index s)) as [Hlt|Hge].
      * destruct (read_elem cfg sh r Hcfg s H) as (e' & He & Hs). assert (e' = e) as -> by congruence.
        rewrite (has_new_data_spec cfg sh r Hcfg), (quiet_new_data s e) in B3; try done. by rewrite B1.
      * exists [], s1. split_and!; try done; [|rewrite B5, Ehi; lia].
        pose proof (drained_refl s1 (armed s1) RxIdle) as D. by destruct s1 as [? ? []]; cbn in *; subst.
Qed.

End drain.

End MmReceive.
