(* ===== verification/MmProperties.v ===== *)
(** What holds of the shared memory FIFO in every execution: order and content of
    the messages, the descriptors of the handlers, the wake-up of the receiver,
    delivery. *)

From stdpp Require Import gmap.
From S2P Require Import Prelude.
From S2P Require Import Bits.
From S2P Require Import MmFifo.
From S2P Require Import MmSystem.
From S2P Require Import MmReceive.

Module MmProperties.
Import Bits MmFifo MmSystem MmReceive.

(** The system after the events [es]. *)
Definition execution (c : uct_mm_iface_config_t) (pool : list uct_mm_desc_info_t) (es : list event) : option (fifo_config * sys) :=
  '(cfg, s) ← init c pool; s ← run cfg es s; Some (cfg, s).

(** The configuration and the events are in the limits of the model. *)
Definition valid (c : uct_mm_iface_config_t) (pool : list uct_mm_desc_info_t) (es : list event) : bool :=
  config_valid c pool && match init c pool with Some (cfg, s) => fresh cfg es s | None => false end.

Lemma mm_execution_ok c pool es : valid c pool es = true ->
  exists cfg s sh r, execution c pool es = Some (cfg, s) /\ config_ok cfg sh r /\ MmSystem.inv cfg sh r s.
Proof.
  unfold valid, execution. intros [Hc Hf]%andb_true_iff. destruct (init c pool) as [[cfg s0]|] eqn:E; [|done].
  destruct (mm_init_ok c pool cfg s0 Hc E) as (sh & r & Hcfg & H). destruct (mm_run_ok cfg sh r Hcfg es s0 H Hf) as (s & E2 & H2).
  exists cfg, s, sh, r. cbn. by rewrite E2.
Qed.

Lemma mm_execution_inv c pool es cfg s : valid c pool es = true -> execution c pool es = Some (cfg, s) ->
  exists sh r, config_ok cfg sh r /\ MmSystem.inv cfg sh r s.
Proof. intros Hv E. destruct (mm_execution_ok c pool es Hv) as (cfg' & s' & sh & r & E' & H). simplify_eq. by exists sh, r. Qed.

(** A message as its handler gets it. *)
Definition message (x : nat * send_op) : option (Z * list Z) := Some (op_id x.2, op_data x.2).

(** *** An execution for the witnesses

    Two endpoints send to a FIFO of four elements: their steps are interleaved,
    the receiver is armed before, and a handler keeps a descriptor. *)
Definition example_config : uct_mm_iface_config_t := MmConfig 4 64 None 1 2.
Definition example_pool : list uct_mm_desc_info_t := (fun i => (9, i)) <$> seqZ 0 8.

Definition example_events : list event :=
  let t k := EpStep k (TxEnv UCS_OK None) in
  let rx := RxStep (RxEnv UCS_OK UCS_INPROGRESS true EAGAIN) in
  [Connect 1; Connect 1; Arm; rx; rx; rx; Send 0 (AmShort 3 5 [1; 2]); Send 1 (AmBcopy 4 [7; 8; 9]); t 0%nat; t 1%nat; t 1%nat; t 0%nat;
   t 0%nat; t 1%nat; t 1%nat; t 0%nat; t 0%nat; t 1%nat; t 1%nat; t 1%nat; t 1%nat] ++
  replicate 6 (t 0%nat) ++ [Progress] ++ replicate 12 rx.

(** ** A FIFO that the receiver has emptied *)
Section drained.
Context (cfg : fifo_config) (sh r : Z) (Hcfg : config_ok cfg sh r) (s : sys) (H : MmSystem.inv cfg sh r s).
Context (Hidle : rpc (iface s) = RxIdle) (Hempty : read_index (iface s) = head_index s).

Lemma drained_messages pre l : recvd s = pre ++ l -> (forall x, x ∈ l -> x <> None) -> l = message <$> drop (length pre) (sent s).
Proof.
  intros Hrec Hnone. destruct (iv_recvd _ _ _ _ H) as [Hr Hm]. destruct (iv_head _ _ _ _ H) as [_ Hh].
  assert (length (recvd s) = length (sent s)) as Hlen by (unfold next_read in Hr; rewrite Hidle in Hr; lia).
  apply list_eq_same_length with (n := length l); [|done|].
  { rewrite length_fmap, length_drop, <- Hlen, Hrec, length_app. lia. }
  intros i x y _ Hx Hy. rewrite list_lookup_fmap, lookup_drop in Hy.
  destruct x as [m|]; [|by apply list_elem_of_lookup_2, Hnone in Hx].
  destruct (Hm (length pre + i)%nat m) as (k & op & Hs & ->); [by rewrite Hrec, lookup_app_r, Nat.add_comm, Nat.add_sub by lia|].
  rewrite Hs in Hy. by injection Hy as <-.
Qed.

Lemma drained_able : UCT_MM_EP_IS_ABLE_TO_SEND (head (fifo s)) (tail (fifo s)) (fifo_size cfg) = true.
Proof.
  destruct (iv_head _ _ _ _ H) as [Hv _]. pose proof (iv_tail _ _ _ _ H) as Ht. pose proof (co_release _ _ _ Hcfg).
  pose proof (co_shift _ _ _ Hcfg). pose proof (Z.mod_pos_bound (read_index (iface s)) (2 ^ r) ltac:(lia)).
  pose proof (Z.pow_lt_mono_r 2 r sh). pose proof (Z.pow_le_mono_r 2 sh 30). unfold head_index in *.
  rewrite (able_spec cfg sh r Hcfg); [apply Z.ltb_lt; lia|apply Hv|lia].
Qed.

End drained.

(** ** The theorems *)

(** C3: no assertion of the FIFO fails in any interleaving of its senders and its
    receiver, never more messages are in the FIFO than it has elements, and the
    [j]-th element that the receiver takes gives the handler exactly the id and the
    bytes of the [j]-th message that got an element (or, without memory, is dropped):
    messages are neither lost, duplicated, mixed nor reordered. *)
Theorem mm_fifo_order c pool es : valid c pool es = true ->
  exists cfg s, execution c pool es = Some (cfg, s) /\
    0 <= Z.of_nat (length (sent s)) - read_index (iface s) <= fifo_size cfg /\
    (length (recvd s) <= length (sent s))%nat /\
    forall j m, recvd s !! j = Some (Some m) -> exists x, sent s !! j = Some x /\ Some m = message x.
Proof.
  intros Hv. destruct (mm_execution_ok c pool es Hv) as (cfg & s & sh & r & E & Hcfg & H). exists cfg, s.
  pose proof (iv_order _ _ _ _ H). destruct (iv_head _ _ _ _ H) as [_ Hh]. destruct (iv_recvd _ _ _ _ H) as [Hr Hm].
  pose proof (next_read_range _ _ _ _ H). rewrite (co_size _ _ _ Hcfg). split; [done|]. split; [lia|]. split; [lia|].
  intros j m Hj. destruct (Hm j m Hj) as (k & op & Hs & ->). by exists (k, op).
Qed.

Lemma mm_fifo_order_witness : valid example_config example_pool example_events = true /\
  exists cfg s, execution example_config example_pool example_events = Some (cfg, s) /\ length (recvd s) = 2%nat /\
    (length (recvd s) <= length (sent s))%nat.
Proof.
  split; [vm_compute; reflexivity|]. destruct (mm_fifo_order example_config example_pool example_events) as (cfg & s & E & _ & H & _).
  { vm_compute; reflexivity. }
  exists cfg, s. split; [exact E|]. split; [|exact H]. vm_compute in E. injection E as <- <-. reflexivity.
Defined.

(** C35: a descriptor that a handler keeps is not written until it is released: it
    still begins with the data of the message. *)
Theorem mm_desc_stable c pool es cfg s d data : valid c pool es = true -> execution c pool es = Some (cfg, s) ->
  (d, data) ∈ held s ->
  (exists rest, bufs (fifo s) !! d = Some (data ++ rest)) /\ (forall e, e ∈ elems (fifo s) -> desc e <> d) /\
  d ∉ recv_desc_mp (iface s) /\ last_recv_desc (iface s) <> Some d.
Proof.
  intros Hv E Hin. destruct (mm_execution_inv _ _ _ _ _ Hv E) as (sh & r & Hcfg & H). split; [by apply (iv_held _ _ _ _ H)|].
  pose proof (list_elem_of_fmap_2 fst _ _ Hin) as Hd. cbn in Hd.
  destruct (iv_descs _ _ _ _ H) as [Hnd _]. unfold all_descs in Hnd. apply NoDup_app in Hnd as (_ & N1 & Hnd).
  apply NoDup_app in Hnd as (_ & N2 & Hnd). apply NoDup_app in Hnd as (_ & N3 & _). split_and!.
  - intros e He <-. apply (N1 (desc e)); [by apply list_elem_of_fmap_2|]. rewrite !elem_of_app. auto.
  - intros Hm. by apply (N3 d).
  - intros Hm. apply (N2 d); [by rewrite Hm; left|]. rewrite elem_of_app. auto.
Qed.

Lemma mm_desc_stable_witness : exists cfg s, execution example_config example_pool example_events = Some (cfg, s) /\
  ((9, 1), [7; 8; 9]) ∈ held s /\ (9, 1) ∉ recv_desc_mp (iface s).
Proof.
  destruct (execution example_config example_pool example_events) as [[cfg s]|] eqn:E; [|vm_compute in E; discriminate E].
  exists cfg, s. split; [reflexivity|].
  assert (((9, 1), [7; 8; 9]) ∈ held s) as Hin by (vm_compute in E; injection E as <- <-; left).
  split; [exact Hin|]. apply (mm_desc_stable example_config example_pool example_events cfg s (9, 1) [7; 8; 9]);
    [vm_compute; reflexivity|exact E|exact Hin].
Defined.

(** C12: once the receiver armed its event, a message in the FIFO means that a signal
    is in the socket, or that a sender is on its way to it: the receiver does not
    sleep through a message.  This needs that no sender gave up an element
    because it could not attach a segment, and that no signal was lost: [sendto]
    failed only with [EINTR], or with [EAGAIN] while a signal was in the socket. *)
Theorem mm_wakeup c pool es cfg s : valid c pool es = true -> execution c pool es = Some (cfg, s) ->
  armed s = true -> abandoned s = [] -> lost (fifo s) = 0 -> read_index (iface s) < Z.of_nat (length (sent s)) ->
  0 < signals (fifo s) \/ exists k ep, eps s !! k = Some ep /\ wakes (pc ep) = true.
Proof.
  intros Hv E Ha Hab Hlo Hlt. destruct (mm_execution_inv _ _ _ _ _ Hv E) as (sh & r & Hcfg & H).
  destruct (iv_head _ _ _ _ H) as [_ Hh].
  destruct (iv_wake _ _ _ _ H (or_introl Ha)) as [[_ ?]|[?|[?|[?|?]]]]; [lia|by left|by right|done|lia].
Qed.

Lemma mm_wakeup_witness : exists cfg s, execution example_config example_pool (take 16 example_events) = Some (cfg, s) /\
  armed s = true /\ signals (fifo s) = 0 /\ exists k ep, eps s !! k = Some ep /\ wakes (pc ep) = true.
Proof.
  destruct (execution example_config example_pool (take 16 example_events)) as [[cfg s]|] eqn:E; [|vm_compute in E; discriminate E].
  assert (armed s = true /\ signals (fifo s) = 0 /\ abandoned s = [] /\ lost (fifo s) = 0 /\
    read_index (iface s) < Z.of_nat (length (sent s))) as (Ha & Hs & Hb & Hl & Hr)
    by (vm_compute in E; injection E as <- <-; vm_compute; auto 10).
  exists cfg, s. split; [reflexivity|]. split; [exact Ha|]. split; [exact Hs|].
  destruct (mm_wakeup example_config example_pool (take 16 example_events) cfg s) as [H|H];
    [vm_compute; reflexivity|exact E|exact Ha|exact Hb|exact Hl|exact Hr|lia|exact H].
Defined.

(** C13: when no sender is inside a send, no sender gave up an element because it
    could not attach a segment, the receiver is between two calls and has its
    spare receive descriptor ([last_recv_desc]; without it messages may be
    dropped), then progress calls of the receiver alone deliver all messages that
    were sent, each once and in order, and make room in the FIFO again. *)
Theorem mm_delivers c pool es cfg s : valid c pool es = true -> execution c pool es = Some (cfg, s) ->
  abandoned s = [] -> (forall k ep, eps s !! k = Some ep -> pc ep = Idle) -> rpc (iface s) = RxIdle ->
  last_recv_desc (iface s) <> None ->
  exists es' s', Forall rx_only es' /\ run cfg es' s = Some s' /\ sent s' = sent s /\
    recvd s' = recvd s ++ (message <$> drop (length (recvd s)) (sent s)) /\
    UCT_MM_EP_IS_ABLE_TO_SEND (head (fifo s')) (tail (fifo s')) (fifo_size cfg) = true.
Proof.
  intros Hv E Ha Hp Hr Hl. destruct (mm_execution_inv _ _ _ _ _ Hv E) as (sh & r & Hcfg & H).
  destruct (drain_ok cfg sh r Hcfg (Z.to_nat (measure s + 1)) s H) as (es' & s' & D1 & D2 & _ & H' & [(_ & D3 & _) D4] & D5 & D6).
  { split; [done|]. intros k ep Hk. by rewrite (Hp k ep Hk). }
  { by rewrite Hr. }
  { lia. }
  destruct (D4 Hl) as (_ & l & Hrec & Hnone). exists es', s'. split; [done|]. split; [done|]. split; [done|]. split.
  - rewrite Hrec. f_equal. rewrite <- D3. by apply (drained_messages cfg sh r s').
  - by apply (drained_able cfg sh r).
Qed.

Lemma mm_delivers_witness : exists cfg s, execution example_config example_pool (take 27 example_events) = Some (cfg, s) /\
  recvd s = [] /\ exists es' s', run cfg es' s = Some s' /\ recvd s' = [Some (4, [7; 8; 9]); Some (3, [5; 0; 0; 0; 0; 0; 0; 0; 1; 2])].
Proof.
  destruct (execution example_config example_pool (take 27 example_events)) as [[cfg s]|] eqn:E; [|vm_compute in E; discriminate E].
  assert (recvd s = [] /\ sent s = [(1%nat, AmBcopy 4 [7; 8; 9]); (0%nat, AmShort 3 5 [1; 2])] /\ abandoned s = [] /\
    Forall (fun ep => pc ep = Idle) (eps s) /\ rpc (iface s) = RxIdle /\ last_recv_desc (iface s) <> None) as (A1 & A2 & A3 & A4 & A5 & A6)
    by (vm_compute in E; injection E as <- <-; split_and!; try done; by repeat constructor).
  exists cfg, s. split; [reflexivity|]. split; [exact A1|].
  destruct (mm_delivers example_config example_pool (take 27 example_events) cfg s) as (es' & s' & _ & H & _ & Hm & _);
    [vm_compute; reflexivity|exact E|exact A3|exact (proj1 (Forall_lookup _ _) A4)|exact A5|exact A6|].
  exists es', s'. split; [exact H|]. rewrite Hm, A1, A2. vm_compute. reflexivity.
Defined.

End MmProperties.
