(* ===== verification/MmFailures.v ===== *)
(** Two ways in which the shared memory FIFO fails: a sender that cannot attach a
    segment after it took an element stops the receiver for ever, and a sender whose
    copy of the tail is [2 ^ 31] messages old overwrites messages. *)

From stdpp Require Import gmap.
From S2P Require Import Prelude.
From S2P Require Import Bits.
From S2P Require Import MmFifo.
From S2P Require Import MmSystem.
From S2P Require Import MmReceive.
From S2P Require Import MmProperties.

Module MmFailures.
Import Bits MmFifo MmSystem MmReceive MmProperties.

Lemma run_app cfg es1 es2 s : run cfg (es1 ++ es2) s = s ← run cfg es1 s; run cfg es2 s.
Proof. revert s. induction es1 as [|ev es1 IH]; intros s; cbn; [done|]. destruct (step cfg ev s); cbn; auto. Qed.

Lemma fresh_app cfg es1 es2 s s1 : run cfg es1 s = Some s1 -> fresh cfg (es1 ++ es2) s = fresh cfg es1 s && fresh cfg es2 s1.
Proof.
  revert s. induction es1 as [|ev es1 IH]; intros s E; cbn in *; [by simplify_eq|]. destruct (step cfg ev s) as [s2|]; cbn in *; [|done].
  by rewrite (IH s2), !andb_assoc.
Qed.

(** ** A failed attachment *)

Lemma abandoned_step cfg ev s s' i : step cfg ev s = Some s' -> i ∈ abandoned s -> i ∈ abandoned s'.
Proof.
  intros E Hi. destruct ev; cbn in E; unfold ep_event, rx_event_step, rx_call in E; repeat case_match; try done; simplify_eq; try done;
    apply bind_Some in E as ([] & _ & E); repeat case_match; simplify_eq; cbn; rewrite ?elem_of_app; auto.
Qed.

Lemma abandoned_run cfg es s s' i : run cfg es s = Some s' -> i ∈ abandoned s -> i ∈ abandoned s'.
Proof.
  revert s. induction es as [|ev es IH]; intros s E Hi; cbn in *; [by simplify_eq|].
  apply bind_Some in E as (s1 & E1 & E2). eauto using abandoned_step.
Qed.

(** C38: a bcopy send that cannot attach the segment of its element returns the error
    after it took the element: whatever happens afterwards, the receiver never takes
    this element nor any later one. *)
Theorem mm_attach_failure_stalls c pool es es' cfg s s' i : valid c pool (es ++ es') = true ->
  execution c pool es = Some (cfg, s) -> i ∈ abandoned s -> execution c pool (es ++ es') = Some (cfg, s') ->
  Z.of_nat (length (recvd s')) <= i < Z.of_nat (length (sent s')).
Proof.
  intros Hv E Hi E'. destruct (mm_execution_inv _ _ _ _ _ Hv E') as (sh & r & Hcfg & H).
  assert (i ∈ abandoned s') as Hi'.
  { unfold execution in *. destruct (init c pool) as [[cfg0 s0]|]; cbn in *; [|done]. rewrite run_app in E'.
    destruct (run cfg0 es s0) as [s1|]; cbn in *; [|done]. simplify_eq.
    destruct (run _ es' s) as [s2|] eqn:E2; cbn in *; [|done]. simplify_eq. by eapply abandoned_run. }
  destruct (iv_abandoned _ _ _ _ H i Hi') as [Hr _]. destruct (iv_recvd _ _ _ _ H) as [-> _].
  destruct (iv_head _ _ _ _ H) as [_ <-]. done.
Qed.

(** The endpoint does not have the segment of the descriptors, and cannot attach it;
    another message follows. *)
Definition stall_events : list event :=
  [Connect 1; Connect 1; Send 0 (AmBcopy 4 [7])] ++ replicate 3 (EpStep 0 (TxEnv UCS_ERR_SHMEM_SEGMENT None)) ++
  [Send 1 (AmShort 3 5 [])] ++ replicate 6 (EpStep 1 (TxEnv UCS_OK None)).

Lemma mm_attach_failure_stalls_witness :
  let es := Progress :: replicate 50 (RxStep accept) in
  exists cfg s s', execution example_config example_pool stall_events = Some (cfg, s) /\
    execution example_config example_pool (stall_events ++ es) = Some (cfg, s') /\
    length (sent s') = 2%nat /\ Z.of_nat (length (recvd s')) <= 0.
Proof.
  intros es. destruct (execution example_config example_pool stall_events) as [[cfg s]|] eqn:E; [|vm_compute in E; discriminate E].
  destruct (execution example_config example_pool (stall_events ++ es)) as [[cfg' s']|] eqn:E'; [|vm_compute in E'; discriminate E'].
  pose proof E as Es. pose proof E' as Es'. vm_compute in Es, Es'. injection Es as Ec Es. injection Es' as Ec' Es'.
  assert (cfg' = cfg) as -> by (rewrite <- Ec, <- Ec'; reflexivity).
  exists cfg, s, s'. split; [reflexivity|]. split; [reflexivity|]. split; [rewrite <- Es'; reflexivity|].
  apply (mm_attach_failure_stalls example_config example_pool stall_events es cfg s s' 0);
    [vm_compute; reflexivity|exact E|rewrite <- Es; left|exact E'].
Defined.

(** ** A stale copy of the tail *)

Section stale.
Context (cfg : fifo_config) (sh r : Z) (Hcfg : config_ok cfg sh r).

Notation inv := (MmSystem.inv cfg sh r).
Notation n := (2 ^ sh).

(** Events lead from one state to another; with [fr] they are in the limits of the
    counters. *)
Definition path (fr : Prop) (s s' : sys) : Prop :=
  exists es, Forall (fun ev => valid_event ev = true) es /\ run cfg es s = Some s' /\ (fr -> fresh cfg es s = true).

Lemma path_refl fr s : path fr s s.
Proof. by exists []. Qed.

Lemma path_trans fr s1 s2 s3 : path fr s1 s2 -> path fr s2 s3 -> path fr s1 s3.
Proof.
  intros (es1 & V1 & R1 & F1) (es2 & V2 & R2 & F2). exists (es1 ++ es2). split; [by apply Forall_app|].
  rewrite run_app, R1. split; [done|]. intros Hf. by rewrite (fresh_app _ _ _ _ _ R1), F1, F2.
Qed.

Lemma path_step fr ev s s' : valid_event ev = true -> step cfg ev s = Some s' -> (fr -> fresh_event ev s = true) -> path fr s s'.
Proof.
  intros V E F. exists [ev]. split; [by constructor|]. cbn. rewrite E, V. split; [done|]. intros Hf. by rewrite F.
Qed.

Lemma path_inv (fr : Prop) s s' : path fr s s' -> fr -> inv s -> inv s'.
Proof. intros (es & _ & R & F) Hf H. destruct (mm_run_ok cfg sh r Hcfg es s H (F Hf)) as (s2 & E & H2). congruence. Qed.

(** The endpoint [k] moved to [ep]; the tail and the receiver did not change. *)
Record moved (k : nat) (ep : uct_mm_ep_t) (s s' : sys) : Prop := Moved {
  mv_eps : eps s' = <[k := ep]> (eps s);
  mv_iface : iface s' = iface s;
  mv_abandoned : abandoned s' = abandoned s;
  mv_tail : tail (fifo s') = tail (fifo s);
  mv_length : length (elems (fifo s')) = length (elems (fifo s))
}.

Lemma moved_trans k ep1 ep2 s1 s2 s3 : moved k ep1 s1 s2 -> moved k ep2 s2 s3 -> moved k ep2 s1 s3.
Proof.
  intros [A1 A2 A3 A4 A5] [B1 B2 B3 B4 B5]. constructor; try congruence. by rewrite B1, A1, list_insert_insert_eq.
Qed.

Definition env_ok : tx_env := TxEnv UCS_OK None.

(** One step of an endpoint. *)
Lemma advance fr s k ep f' ep' : eps s !! k = Some ep -> ep_step cfg env_ok (fifo s) ep = Some (f', ep') -> abandons ep ep' = None ->
  tail f' = tail (fifo s) -> length (elems f') = length (elems (fifo s)) -> (fr -> fresh_event (EpStep k env_ok) s = true) ->
  exists s', path fr s s' /\ moved k ep' s s' /\ fifo s' = f' /\
    sent s' = sent s ++ match claims (fifo s) ep with Some op => [(k, op)] | None => [] end /\ eps s' !! k = Some ep'.
Proof.
  intros Hk E Ha Ht Hl Hf. eexists. split_and!.
  - eapply (path_step _ (EpStep k env_ok)); [|cbn [step]; unfold ep_event; rewrite Hk, E; reflexivity|exact Hf]. done.
  - constructor; cbn; try done. by rewrite Ha, app_nil_r.
  - done.
  - done.
  - cbn. apply list_lookup_insert_eq. by apply lookup_lt_Some in Hk.
Qed.

(** A message that fits in an element. *)
Definition short_ok (op : send_op) : Prop :=
  op_check cfg op = true /\ Z.of_nat (length (op_data op)) < 2 ^ 16 /\ exists id h payload, op = AmShort id h payload.

(** A send up to the claim of the head. *)
Lemma send_claims s k ep op : eps s !! k = Some ep -> pc ep = Idle -> arb_group ep = [] -> short_ok op ->
  0 <= head (fifo s) < 2 ^ 63 ->
  UCT_MM_EP_IS_ABLE_TO_SEND (head (fifo s)) (cached_tail ep) (fifo_size cfg) = true \/
  UCT_MM_EP_IS_ABLE_TO_SEND (head (fifo s)) (tail (fifo s)) (fifo_size cfg) = true ->
  exists s' ep', path (head (fifo s) - cached_tail ep < 2 ^ 31) s s' /\ moved k ep' s s' /\ fifo s' = fifo s /\ sent s' = sent s /\
    eps s' !! k = Some ep' /\ pc ep' = CasHead FromUser op (head (fifo s)) /\ arb_group ep' = [] /\
    cached_tail ep' = (if UCT_MM_EP_IS_ABLE_TO_SEND (head (fifo s)) (cached_tail ep) (fifo_size cfg) then cached_tail ep else tail (fifo s)).
Proof.
  intros Hk Hpc Hg (Hc & Hlen & _) Hh Hab. set (ep1 := start (LoadHead FromUser op) ep).
  assert (exists s1, path (head (fifo s) - cached_tail ep < 2 ^ 31) s s1 /\ moved k ep1 s s1 /\ fifo s1 = fifo s /\ sent s1 = sent s /\
    eps s1 !! k = Some ep1) as (s1 & P1 & M1 & F1 & S1 & K1).
  { eexists. split; [eapply (path_step _ (Send k op)); [by apply Z.ltb_lt|reflexivity|done]|]. split_and!; try done.
    - constructor; cbn; try done. rewrite list_insert_alter. apply (list_alter_ext _ _ _ _ k); [|done].
      intros x Hx. rewrite Hk in Hx. injection Hx as <-. by rewrite Hpc, Hc.
    - unfold call, with_ep; cbn [eps]. rewrite list_lookup_alter_eq, Hk. cbn. by rewrite Hpc, Hc. }
  assert (unarmed (head (fifo s)) = head (fifo s)) as Hu by (rewrite unarmed_mod, Z.mod_small; lia).
  destruct (UCT_MM_EP_IS_ABLE_TO_SEND (head (fifo s)) (cached_tail ep) (fifo_size cfg)) eqn:Eab.
  - destruct (advance (head (fifo s) - cached_tail ep < 2 ^ 31) s1 k ep1 (fifo s1) (set_pc (CasHead FromUser op (head (fifo s))) ep1))
      as (s2 & P2 & M2 & F2 & S2 & K2); try done.
    { unfold ep_step, uct_mm_ep_am_common_send. cbn. by rewrite F1, Eab. }
    { intros Hf. cbn. rewrite K1. cbn. unfold head_index. rewrite F1, Hu. by apply Z.ltb_lt. }
    exists s2, (set_pc (CasHead FromUser op (head (fifo s))) ep1). split; [by eapply path_trans|]. split; [by eapply moved_trans|].
    rewrite F2, S2, S1, app_nil_r. done.
  - destruct (advance (head (fifo s) - cached_tail ep < 2 ^ 31) s1 k ep1 (fifo s1) (set_pc (LoadTail FromUser op (head (fifo s))) ep1))
      as (s2 & P2 & M2 & F2 & S2 & K2); try done.
    { unfold ep_step, uct_mm_ep_am_common_send. cbn. by rewrite F1, Eab, Hg. }
    { intros Hf. cbn. rewrite K1. cbn. unfold head_index. rewrite F1, Hu. by apply Z.ltb_lt. }
    destruct Hab as [?|Hab]; [done|].
    destruct (advance (head (fifo s) - cached_tail ep < 2 ^ 31) s2 k (set_pc (LoadTail FromUser op (head (fifo s))) ep1) (fifo s2)
      (set_pc (CasHead FromUser op (head (fifo s))) (set_cached_tail (tail (fifo s)) ep1))) as (s3 & P3 & M3 & F3 & S3 & K3); try done.
    { unfold ep_step, uct_mm_ep_am_common_send. cbn. by rewrite F2, F1, Hab. }
    { intros Hf. cbn. rewrite K2. cbn. unfold head_index. rewrite F2, F1, Hu. apply Z.ltb_lt. lia. }
    eexists s3, _. split; [by eapply path_trans, path_trans|]. split; [by eapply moved_trans, moved_trans|].
    rewrite F3, F2, S3, S2, S1, !app_nil_r. done.
Qed.

(** A step that writes a field of the element. *)
Lemma write_step s k ep ep' h g : eps s !! k = Some ep ->
  ep_step cfg env_ok (fifo s) ep = (f ← update_elem cfg h g (fifo s); Some (f, ep')) -> abandons ep ep' = None ->
  claims (fifo s) ep = None -> fresh_event (EpStep k env_ok) s = true -> 0 <= h < 2 ^ 64 -> Z.of_nat (length (elems (fifo s))) = n ->
  exists s', path True s s' /\ moved k ep' s s' /\ eps s' !! k = Some ep' /\ head (fifo s') = head (fifo s) /\ sent s' = sent s.
Proof.
  intros Hk E Ha Hc Hf Hh Hl. pose proof (n_range cfg sh r Hcfg). unfold update_elem in E.
  rewrite (elem_index_spec cfg sh r Hcfg) in E by done. pose proof (Z.mod_pos_bound (unarmed h) n).
  destruct (lookup_lt_is_Some_2 (elems (fifo s)) (Z.to_nat (unarmed h mod n))) as [e He]; [lia|]. rewrite He in E.
  destruct (advance True s k ep _ ep' Hk E) as (s' & P & M & F & S & K); try done.
  { cbn. by rewrite length_insert. }
  exists s'. rewrite F, S, Hc, app_nil_r. done.
Qed.

(** The send of the element after the claim. *)
Lemma send_publishes s k ep op : eps s !! k = Some ep -> pc ep = CasHead FromUser op (head (fifo s)) -> short_ok op ->
  0 <= head (fifo s) /\ head (fifo s) + 1 < 2 ^ 63 -> Z.of_nat (length (elems (fifo s))) = n ->
  exists s' ep', path True s s' /\ moved k ep' s s' /\ eps s' !! k = Some ep' /\ head (fifo s') = head (fifo s) + 1 /\
    sent s' = sent s ++ [(k, op)] /\ pc ep' = Idle /\ arb_group ep' = arb_group ep /\ cached_tail ep' = cached_tail ep.
Proof.
  intros Hk Hpc (Hchk & Hlen & id & hd & payload & Hop) Hh Hl. set (h := head (fifo s)) in *.
  assert (fifo_elem_size cfg - sizeof_fifo_element <? Z.of_nat (length (op_data op)) = false) as Hfit
    by (destruct (op_check_ok cfg op Hchk Hlen) as [_ Hf]; rewrite Hop in *; by apply Z.ltb_ge).
  assert (unarmed h = h) as Hu by (rewrite unarmed_mod, Z.mod_small; lia).
  assert (armed_head h = false) as Har by (rewrite armed_head_spec by lia; apply Z.leb_gt; lia).
  assert (unarmed (u64 (h + 1)) = h + 1) as Hu1.
  { unfold u_wrap. rewrite (Z.mod_small (h + 1)) by lia. rewrite unarmed_mod, Z.mod_small; lia. }
  destruct (advance True s k ep (set_head (h + 1) (fifo s)) (set_pc (Fill FromUser op h None) ep)) as (s1 & P1 & M1 & F1 & S1 & K1); try done.
  { unfold ep_step, uct_mm_ep_am_common_send. rewrite Hpc. fold h. rewrite Z.eqb_refl, Hu1. by subst op. }
  { unfold abandons. by rewrite Hpc. }
  { intros _. unfold fresh_event. rewrite Hk, Hpc. unfold head_index. fold h. rewrite Hu. apply Z.ltb_lt. lia. }
  unfold claims in S1. rewrite Hpc in S1. fold h in S1. rewrite Z.eqb_refl in S1.
  destruct (write_step s1 k (set_pc (Fill FromUser op h None) ep) (set_pc (SetLength FromUser op h) ep) h
    (fun e => set_inline_data (store (op_data op) (inline_data e)) e)) as (s2 & P2 & M2 & K2 & F2 & S2); try done; [by cbn; rewrite Hfit|by cbn; rewrite K1|lia|by rewrite (mv_length _ _ _ _ M1)|].
  pose proof (moved_trans _ _ _ _ _ _ M1 M2) as M2'.
  destruct (write_step s2 k (set_pc (SetLength FromUser op h) ep) (set_pc (SetAmId FromUser op h) ep) h
    (set_elem_length (u16 (Z.of_nat (length (op_data op)))))) as (s3 & P3 & M3 & K3 & F3 & S3); try done; [by cbn; rewrite K2|lia|by rewrite (mv_length _ _ _ _ M2')|].
  pose proof (moved_trans _ _ _ _ _ _ M2' M3) as M3'.
  destruct (write_step s3 k (set_pc (SetAmId FromUser op h) ep) (set_pc (SetFlags FromUser op h) ep) h
    (set_am_id (op_id op))) as (s4 & P4 & M4 & K4 & F4 & S4); try done; [by cbn; rewrite K3|lia|by rewrite (mv_length _ _ _ _ M3')|].
  pose proof (moved_trans _ _ _ _ _ _ M3' M4) as M4'.
  destruct (write_step s4 k (set_pc (SetFlags FromUser op h) ep) (returns FromUser (success op) (set_pc (SetFlags FromUser op h) ep)) h
    (set_flags (if negb (Z.land h (fifo_size cfg) =? 0) then Z.lor (op_flags op) UCT_MM_FIFO_ELEM_FLAG_OWNER else op_flags op)))
    as (s5 & P5 & M5 & K5 & F5 & S5); try done; [by cbn; rewrite Har|by cbn; rewrite K4|lia|by rewrite (mv_length _ _ _ _ M4')|].
  pose proof (moved_trans _ _ _ _ _ _ M4' M5) as M5'.
  eexists s5, _. split_and!; [eauto 6 using path_trans|exact M5'|exact K5|rewrite F5, F4, F3, F2, F1; done|congruence|done..].
Qed.

Lemma path_weaken (fr fr' : Prop) s s' : (fr' -> fr) -> path fr s s' -> path fr' s s'.
Proof. intros Hw (es & V & R & F). exists es. auto. Qed.

(** A whole send. *)
Lemma send_one s k ep op : eps s !! k = Some ep -> pc ep = Idle -> arb_group ep = [] -> short_ok op ->
  0 <= head (fifo s) /\ head (fifo s) + 1 < 2 ^ 63 -> Z.of_nat (length (elems (fifo s))) = n ->
  UCT_MM_EP_IS_ABLE_TO_SEND (head (fifo s)) (cached_tail ep) (fifo_size cfg) = true \/
  UCT_MM_EP_IS_ABLE_TO_SEND (head (fifo s)) (tail (fifo s)) (fifo_size cfg) = true ->
  exists s' ep', path (head (fifo s) - cached_tail ep < 2 ^ 31) s s' /\ moved k ep' s s' /\
    head (fifo s') = head (fifo s) + 1 /\ sent s' = sent s ++ [(k, op)] /\ pc ep' = Idle /\ arb_group ep' = [] /\
    cached_tail ep' = (if UCT_MM_EP_IS_ABLE_TO_SEND (head (fifo s)) (cached_tail ep) (fifo_size cfg) then cached_tail ep else tail (fifo s)).
Proof.
  intros Hk Hpc Hg Hop Hh Hl Hab.
  destruct (send_claims s k ep op Hk Hpc Hg Hop ltac:(lia) Hab) as (s1 & ep1 & P1 & M1 & F1 & S1 & K1 & Hpc1 & Hg1 & Hc1).
  destruct (send_publishes s1 k ep1 op K1) as (s2 & ep2 & P2 & M2 & K2 & F2 & S2 & Hpc2 & Hg2 & Hc2); rewrite ?F1; try done.
  exists s2, ep2. split; [eapply path_trans; [exact P1|by eapply path_weaken; [|exact P2]]|].
  split; [exact (moved_trans _ _ _ _ _ _ M1 M2)|]. by rewrite F2, F1, S2, S1, Hg2, Hc2.
Qed.

(** The endpoint 0 never sent, and everything that the endpoint 1 sent is read. *)
Record ready (s : sys) (ep0 : uct_mm_ep_t) : Prop := Ready {
  rd_inv : inv s;
  rd_idle : rpc (iface s) = RxIdle /\ read_index (iface s) = head (fifo s) /\ abandoned s = [];
  rd_head : 0 <= head (fifo s) < 2 ^ 63;
  rd_ep0 : pc ep0 = Idle /\ arb_group ep0 = [] /\ cached_tail ep0 = 0;
  rd_eps : exists ep1, eps s = [ep0; ep1] /\ pc ep1 = Idle /\ arb_group ep1 = [] /\ 0 <= head (fifo s) - cached_tail ep1 <= n
}.

Lemma ready_head_index s : 0 <= head (fifo s) < 2 ^ 63 -> head_index s = head (fifo s).
Proof. intros Hh. unfold head_index. rewrite unarmed_mod, Z.mod_small; lia. Qed.

Lemma ready_next s ep0 op : ready s ep0 -> short_ok op -> head (fifo s) + 1 < 2 ^ 63 ->
  exists s', path True s s' /\ ready s' ep0 /\ head (fifo s') = head (fifo s) + 1.
Proof.
  intros [H (Hr & He & Ha) Hh H0 (ep1 & Heps & Hpc & Hg & Hc)] Hop Hh'. pose proof (n_range cfg sh r Hcfg) as Hn.
  pose proof (drained_able cfg sh r Hcfg s H) as Hable. rewrite ready_head_index in Hable by done. specialize (Hable He).
  destruct (send_one s 1 ep1 op) as (s1 & ep2 & P1 & M1 & F1 & S1 & Hpc2 & Hg2 & Hc2); try done; [by rewrite Heps|lia|apply (iv_length _ _ _ _ H)|by right|].
  assert (path True s s1) as P1' by (eapply path_weaken; [|exact P1]; lia).
  pose proof (path_inv _ _ _ P1' I H) as H1. destruct M1 as [M1 M2 M3 M4 M5]. rewrite Heps in M1. cbn in M1.
  destruct (drain_ok cfg sh r Hcfg (Z.to_nat (measure s1 + 1)) s1 H1) as (es & s2 & D1 & D2 & D3 & H2 & [(D4 & _ & D5 & D6 & _) _] & D7 & D8).
  { split; [by rewrite M3|]. intros k ep Hk. rewrite M1 in Hk. destruct k as [|[|]]; cbn in Hk; simplify_eq; [by rewrite (proj1 H0)|by rewrite Hpc2]. }
  { by rewrite M2, Hr. }
  { lia. }
  rewrite ready_head_index in D8 by lia.
  exists s2. split; [eapply path_trans; [exact P1'|]|split; [|lia]].
  { exists es. split_and!; try done. eapply Forall_impl; [exact D1|]. by intros ev [-> | ->]. }
  constructor; try done; [by rewrite D5, M3|lia|]. exists ep2. rewrite D4, D6, F1, Hc2. split; [done|]. split; [done|]. split; [done|].
  pose proof (iv_order _ _ _ _ H) as Ho. rewrite ready_head_index in Ho by done. pose proof (ready_head_index s Hh) as Hu. unfold head_index in Hu.
  rewrite (able_spec cfg sh r Hcfg) in Hable by (rewrite ?Hu; lia). rewrite (able_spec cfg sh r Hcfg) by (rewrite ?Hu; lia). rewrite Hu in *.
  apply Z.ltb_lt in Hable. destruct (Z.ltb_spec (head (fifo s) - cached_tail ep1) n); lia.
Qed.

Lemma ready_many s ep0 op m : ready s ep0 -> short_ok op -> 0 <= m -> head (fifo s) + m < 2 ^ 63 ->
  exists s', path True s s' /\ ready s' ep0 /\ head (fifo s') = head (fifo s) + m.
Proof.
  intros H Hop Hm. pattern m. apply natlike_ind; [|clear m Hm; intros m Hm IH Hlt|done].
  { intros _. exists s. split; [apply path_refl|]. split; [done|lia]. }
  destruct IH as (s1 & P1 & H1 & E1); [lia|]. destruct (ready_next s1 ep0 op H1 Hop) as (s2 & P2 & H2 & E2); [lia|].
  exists s2. split; [by eapply path_trans|]. split; [done|lia].
Qed.

(** A sender that compares with a tail [2 ^ 31] messages ago always finds room. *)
Lemma stale_able h : 2 ^ 31 <= h < 2 ^ 32 -> UCT_MM_EP_IS_ABLE_TO_SEND h 0 (fifo_size cfg) = true.
Proof.
  intros Hh. pose proof (n_range cfg sh r Hcfg) as Hn. unfold UCT_MM_EP_IS_ABLE_TO_SEND. rewrite (co_size _ _ _ Hcfg).
  rewrite (s_wrap_unique 32 n n) by lia. rewrite (s_wrap_unique 32 (h - 0) (h - 2 ^ 32)); [apply Z.ltb_lt; lia|lia| |lia].
  replace (h - 0) with (h - 2 ^ 32 + 1 * 2 ^ 32) by lia. apply Z.mod_add. lia.
Qed.

Lemma stale_many s ep op m : eps s !! 0%nat = Some ep -> pc ep = Idle -> arb_group ep = [] -> cached_tail ep = 0 -> short_ok op ->
  Z.of_nat (length (elems (fifo s))) = n -> 2 ^ 31 <= head (fifo s) -> 0 <= m -> head (fifo s) + m < 2 ^ 32 ->
  exists s', path False s s' /\ iface s' = iface s /\ Z.of_nat (length (sent s')) = Z.of_nat (length (sent s)) + m.
Proof.
  intros Hk Hpc Hg Hc Hop Hl Hh Hm Hlt.
  enough (exists s' ep', path False s s' /\ moved 0 ep' s s' /\ eps s' !! 0%nat = Some ep' /\ pc ep' = Idle /\ arb_group ep' = [] /\
    cached_tail ep' = 0 /\ head (fifo s') = head (fifo s) + m /\ Z.of_nat (length (sent s')) = Z.of_nat (length (sent s)) + m)
    as (s' & ep' & P & M & _ & _ & _ & _ & _ & E) by (exists s'; split_and!; [done|by destruct M|done]).
  revert Hlt. pattern m. apply natlike_ind; [|clear m Hm; intros m Hm IH Hlt|done].
  { intros _. exists s, ep. split_and!; try done; [apply path_refl|constructor; try done; by rewrite list_insert_id|lia|lia]. }
  destruct IH as (s1 & ep1 & P1 & M1 & K1 & Hpc1 & Hg1 & Hc1 & E1 & S1); [lia|].
  pose proof (stale_able (head (fifo s1)) ltac:(lia)) as Hab.
  destruct (send_one s1 0 ep1 op K1 Hpc1 Hg1 Hop) as (s2 & ep2 & P2 & M2 & E2 & S2 & Hpc2 & Hg2 & Hc2);
    [lia|by rewrite (mv_length _ _ _ _ M1)|rewrite Hc1; by left|]. rewrite Hc1, Hab in Hc2.
  exists s2, ep2. split_and!; try done.
  - eapply path_trans; [exact P1|by eapply path_weaken; [|exact P2]].
  - exact (moved_trans _ _ _ _ _ _ M1 M2).
  - rewrite (mv_eps _ _ _ _ M2). apply list_lookup_insert_eq. by apply lookup_lt_Some in K1.
  - lia.
  - rewrite S2, length_app. cbn. lia.
Qed.

End stale.

(** The state after two connections. *)
Lemma ready_init c pool cfg sh r s : config_ok cfg sh r -> MmSystem.inv cfg sh r s -> init c pool = Some (cfg, s) ->
  exists s' ep0, path cfg True s s' /\ ready cfg sh r s' ep0 /\ head (fifo s') = 0.
Proof.
  intros Hcfg H E. pose proof (n_range cfg sh r Hcfg).
  assert (head (fifo s) = 0 /\ tail (fifo s) = 0 /\ eps s = [] /\ rpc (iface s) = RxIdle /\ read_index (iface s) = 0 /\ abandoned s = [])
    as (A1 & A2 & A3 & A4 & A5 & A6) by (unfold init, uct_mm_iface_init in E; repeat case_match; simplify_eq; done).
  assert (exists s', run cfg [Connect 1; Connect 1] s = Some s') as [s' Es] by (eexists; reflexivity).
  assert (path cfg True s s') as P by (exists [Connect 1; Connect 1]; split; [by repeat constructor|done]).
  exists s', (uct_mm_ep_init 1 (fifo s)). split; [done|]. pose proof (path_inv cfg sh r Hcfg True s s' P I H) as H'.
  cbn in Es. injection Es as <-. cbn. split; [|done]. constructor; [exact H'|..]; cbn; rewrite ?A1, ?A2, ?A3, ?A5; try done.
  exists (uct_mm_ep_init 1 (fifo s)). cbn. rewrite A2. split_and!; try done; lia.
Qed.

(** The comparison of the head with the copy of the tail uses 32 bits: in an
    execution where one sender is idle for [2 ^ 31] messages of another, all read by
    the receiver, it then sends more messages than the FIFO has elements without any
    of them being read, so unread messages are overwritten. *)
Theorem mm_stale_tail_overwrites c pool cfg s0 op : config_valid c pool = true -> init c pool = Some (cfg, s0) -> short_ok cfg op ->
  exists es s, Forall (fun ev => valid_event ev = true) es /\ run cfg es s0 = Some s /\
    fifo_size cfg < Z.of_nat (length (sent s)) - read_index (iface s).
Proof.
  intros Hv E Hop. destruct (mm_init_ok c pool cfg s0 Hv E) as (sh & r & Hcfg & H). pose proof (n_range cfg sh r Hcfg) as Hn.
  destruct (ready_init c pool cfg sh r s0 Hcfg H E) as (s1 & ep0 & P1 & R1 & E1).
  destruct (ready_many cfg sh r Hcfg s1 ep0 op (2 ^ 31) R1 Hop) as (s2 & P2 & [H2 (_ & I2 & _) Hh2 (Z1 & Z2 & Z3) (ep1 & Heps & _)] & E2); [lia|lia|].
  destruct (stale_many cfg sh r Hcfg s2 ep0 op (2 ^ sh + 1)) as (s3 & P3 & E3 & S3); try done; [by rewrite Heps|apply (iv_length _ _ _ _ H2)|lia|lia|lia|].
  destruct (path_trans cfg True s0 s1 s2 P1 P2) as (es1 & V1 & X1 & _). destruct P3 as (es2 & V2 & X2 & _).
  exists (es1 ++ es2), s3. split; [by apply Forall_app|]. rewrite run_app, X1. split; [done|].
  destruct (iv_head _ _ _ _ H2) as [_ Hl]. rewrite ready_head_index in Hl by done. rewrite (co_size _ _ _ Hcfg), S3, E3. lia.
Qed.

Lemma mm_stale_tail_overwrites_witness : exists cfg s0, init example_config example_pool = Some (cfg, s0) /\ fifo_size cfg = 4 /\
  exists es s, run cfg es s0 = Some s /\ 4 < Z.of_nat (length (sent s)) - read_index (iface s).
Proof.
  destruct (init example_config example_pool) as [[cfg s0]|] eqn:E; [|vm_compute in E; discriminate E].
  pose proof E as Es. vm_compute in Es. injection Es as Ec _. exists cfg, s0. split; [reflexivity|]. split; [rewrite <- Ec; reflexivity|].
  destruct (mm_stale_tail_overwrites example_config example_pool cfg s0 (AmShort 3 5 [1; 2])) as (es & s & _ & H1 & H2);
    [vm_compute; reflexivity|exact E|rewrite <- Ec; split; [vm_compute; reflexivity|split; [vm_compute; reflexivity|eauto]]|].
  exists es, s. split; [exact H1|]. rewrite <- Ec in H2. exact H2.
Defined.

End MmFailures.
