(* ===== verification/Ud.v ===== *)
(** Reliable delivery of the UD transport: [uct/ib/ud/base/ud_ep.c],
    [uct/ib/ud/base/ud_ep.h], [uct/ib/ud/base/ud_inl.h] and
    [uct/ib/ud/base/ud_def.h], with the send operations of
    [uct/ib/ud/verbs/ud_verbs.c] and the send completions of
    [uct/ib/ud/base/ud_iface.c].

    Unreliable datagrams may be lost, duplicated and reordered.  An endpoint
    numbers its packets, keeps them in a window until they are acknowledged and
    resends them, and accepts the packets of its peer in order, with the
    fragment list of [FragList].  The model has one endpoint per interface, so
    the state is the endpoint and the queues of its interface.  What the code
    hands to the device is appended to [wire], the packets it accepts to
    [rx_log], the active messages it dispatches to [am_log] and the completions
    it calls to [comp_log].  A sent buffer (an skb) is named by its address,
    and the pool does not hand out an address twice; the
    queues are lists ([Queue] has their pointer form), and an iterator of the
    window is the address of the link it points to.  [None] is a failed
    assertion, a fatal error or a use of a released buffer.

    The results of [ucs_get_time] and of the resource checks on the device and
    on the memory pool are arguments.  The arbiter only decides when
    [uct_ud_ep_do_pending_ctl] is called: here at any time. *)

From stdpp Require Import gmap sorting.
From S2P Require Import Prelude.
From S2P Require Import Bits.
From S2P Require Import FragList.

Module Ud.

(** ** Definitions of [ud_def.h] and [ud_ep.h] *)

Definition UCT_UD_INITIAL_PSN : Z := 1.
Definition UCT_UD_CA_AI_VALUE : Z := 1.
Definition UCT_UD_CA_MD_FACTOR : Z := 2.
Definition UCT_UD_RESENDS_PER_ACK : Z := 4.
Definition UCT_UD_CA_MIN_WINDOW : Z := 2.
Definition UCT_UD_CA_MAX_WINDOW : Z := 1025.

Definition UCT_UD_EP_NULL_ID : Z := 2 ^ 24 - 1.

Definition UCT_UD_PACKET_ACK_REQ_SHIFT : Z := 25.
Definition UCT_UD_PACKET_AM_ID_SHIFT : Z := 27.
Definition UCT_UD_PACKET_DEST_ID_SHIFT : Z := 24.

Definition UCT_UD_PACKET_FLAG_AM : Z := UCS_BIT 24.
Definition UCT_UD_PACKET_FLAG_ACK_REQ : Z := UCS_BIT 25.
Definition UCT_UD_PACKET_FLAG_NACK : Z := UCS_BIT 27.
Definition UCT_UD_PACKET_FLAG_PUT : Z := UCS_BIT 28.
Definition UCT_UD_PACKET_FLAG_CTL : Z := UCS_BIT 29.
Definition UCT_UD_PACKET_DEST_ID_MASK : Z := UCS_MASK UCT_UD_PACKET_DEST_ID_SHIFT.

Definition UCT_UD_EP_OP_NONE : Z := 0.
Definition UCT_UD_EP_OP_ACK : Z := UCS_BIT 0.
Definition UCT_UD_EP_OP_ACK_REQ : Z := UCS_BIT 1.
Definition UCT_UD_EP_OP_RESEND : Z := UCS_BIT 2.
Definition UCT_UD_EP_OP_CREP : Z := UCS_BIT 3.
Definition UCT_UD_EP_OP_CREQ : Z := UCS_BIT 4.
Definition UCT_UD_EP_OP_NACK : Z := UCS_BIT 5.
Definition UCT_UD_EP_OP_CTL_ACK : Z := Z.lor (Z.lor UCT_UD_EP_OP_ACK UCT_UD_EP_OP_ACK_REQ) UCT_UD_EP_OP_NACK.

Definition UCT_UD_EP_FLAG_DISCONNECTED : Z := UCS_BIT 0.
Definition UCT_UD_EP_FLAG_HAS_PENDING : Z := UCS_BIT 2.
Definition UCT_UD_EP_FLAG_CONNECTED : Z := UCS_BIT 3.
Definition UCT_UD_EP_FLAG_CONNECT_TO_EP : Z := UCS_BIT 5.
Definition UCT_UD_EP_FLAG_CREP_RCVD : Z := UCS_BIT 7.
Definition UCT_UD_EP_FLAG_CREQ_SENT : Z := UCS_BIT 8.
Definition UCT_UD_EP_FLAG_CREP_SENT : Z := UCS_BIT 9.
Definition UCT_UD_EP_FLAG_TX_NACKED : Z := UCS_BIT 11.

(** [UCT_UD_PSN_COMPARE(a, op, b)] is [(int16_t)(a - b) op 0]. *)
Definition psn_diff (a b : Z) : Z := FragList.sn_diff a b.
Definition psn_le (a b : Z) : bool := psn_diff a b <=? 0.
Definition psn_lt (a b : Z) : bool := psn_diff a b <? 0.
Definition psn_ge (a b : Z) : bool := 0 <=? psn_diff a b.
Definition psn_gt (a b : Z) : bool := 0 <? psn_diff a b.
Definition psn_eq (a b : Z) : bool := psn_diff a b =? 0.

(** What follows the network header of a packet. *)
Inductive body :=
| Bytes (data : list Z)
| Put (rva : Z) (data : list Z)
| Creq (conn_sn path_index src_ep_id : Z)
| Crep (src_ep_id : Z).

(** [uct_ud_neth_t] and the body. *)
Record packet := Packet { packet_type : Z; p_psn : Z; ack_psn : Z; p_body : body }.

(** [byte_len == sizeof(uct_ud_neth_t)] *)
Definition no_body (p : packet) : bool := match p_body p with Bytes [] => true | _ => false end.

(** [uct_ud_send_skb_t]: [neth] and what is sent after it; [len] counts only the
    part that is stored in the skb.  The flags are booleans. *)
Record uct_ud_send_skb_t := Skb {
  skb_id : Z;
  neth : packet;
  len : Z;
  skb_ack_req : bool;     (* UCT_UD_SEND_SKB_FLAG_ACK_REQ *)
  comp : option Z;        (* UCT_UD_SEND_SKB_FLAG_COMP, with the completion *)
  resending : bool        (* UCT_UD_SEND_SKB_FLAG_RESENDING *)
}.

(** An iterator of the window: [&window.head], or [&skb->queue.next]. *)
Inductive iter := IterBegin | IterAfter (id : Z).

(** [uct_ud_ctl_desc_t]: [resent_skb] is [NULL] for an acknowledgement. *)
Record uct_ud_ctl_desc_t := Cdesc { sn : Z; resent_skb : option Z }.

Record tx_t := Tx {
  psn : Z;
  max_psn : Z;
  acked_psn : Z;
  resend_count : Z;
  window : list uct_ud_send_skb_t;
  ops : Z;                (* pending.ops *)
  send_time : Z;
  resend_time : Z;
  tick : Z
}.

Record rx_t := Rx { rx_acked_psn : Z; ooo_pkts : FragList.ucs_frag_list_t packet }.
Record ca_t := Ca { wmax : Z; cwnd : Z }.
Record resend_t := Resend { pos : iter; resend_psn : Z; resend_max_psn : Z }.

Record uct_ud_ep_t := Ep {
  ep_id : Z;
  dest_ep_id : Z;
  tx : tx_t;
  rx : rx_t;
  ca : ca_t;
  resend : resend_t;
  conn_sn : Z;
  flags : Z;
  path_index : Z;
  close_time : Z
}.

(** The state of the interface that its endpoint uses, and the logs. *)
Record iface_t := Iface {
  send_sn : Z;                                  (* sequence number of posted sends *)
  outstanding_q : list uct_ud_ctl_desc_t;
  async_comp_q : list (Z * ucs_status_t);       (* completions and their status *)
  pending_q : list packet;                      (* rx.pending_q *)
  next_skb : Z;                                 (* the next address of the memory pool *)
  timer_active : bool;                          (* ep->timer.is_active *)
  wire : list packet;
  rx_log : list packet;
  am_log : list packet;
  comp_log : list (Z * ucs_status_t);
  pt_start : Z;                                 (* pending_time *)
  pt_end : Z;
  pt_last : Z;
  timeout_raised : bool;                        (* uct_ud_ep_deferred_timeout_handler is queued *)
  ep_freed : bool
}.

Definition state : Type := uct_ud_ep_t * iface_t.

(** Configuration of the interface. *)
Record config := Config {
  max_window : Z;
  max_inline : Z;
  addr_size : Z;
  iface_tick : Z;             (* iface->tx.tick *)
  min_poke_time : Z;
  peer_timeout : Z;
  linger_timeout : Z;
  pt_min_tick : Z;            (* pending_time.min_tick *)
  async_disable : bool;
  backoff : Z -> Z;           (* tick * iface->tx.timer_backoff, a product of doubles *)
  tx_mp_max : Z;              (* number of elements of the memory pool of skbs *)
  am_async : Z -> bool;       (* am[id].flags & UCT_CB_FLAG_ASYNC *)
  max_send_sge : Z;
  seg_size : Z;
  active_mtu : Z              (* uct_ib_mtu_value of the port *)
}.

Definition set_psn v (x : tx_t) : tx_t := Tx v (max_psn x) (acked_psn x) (resend_count x) (window x) (ops x) (send_time x) (resend_time x) (tick x).
Definition set_max_psn v (x : tx_t) : tx_t := Tx (psn x) v (acked_psn x) (resend_count x) (window x) (ops x) (send_time x) (resend_time x) (tick x).
Definition set_acked_psn v (x : tx_t) : tx_t := Tx (psn x) (max_psn x) v (resend_count x) (window x) (ops x) (send_time x) (resend_time x) (tick x).
Definition set_resend_count v (x : tx_t) : tx_t := Tx (psn x) (max_psn x) (acked_psn x) v (window x) (ops x) (send_time x) (resend_time x) (tick x).
Definition set_window v (x : tx_t) : tx_t := Tx (psn x) (max_psn x) (acked_psn x) (resend_count x) v (ops x) (send_time x) (resend_time x) (tick x).
Definition set_ops v (x : tx_t) : tx_t := Tx (psn x) (max_psn x) (acked_psn x) (resend_count x) (window x) v (send_time x) (resend_time x) (tick x).
Definition set_send_time v (x : tx_t) : tx_t := Tx (psn x) (max_psn x) (acked_psn x) (resend_count x) (window x) (ops x) v (resend_time x) (tick x).
Definition set_resend_time v (x : tx_t) : tx_t := Tx (psn x) (max_psn x) (acked_psn x) (resend_count x) (window x) (ops x) (send_time x) v (tick x).
Definition set_tick v (x : tx_t) : tx_t := Tx (psn x) (max_psn x) (acked_psn x) (resend_count x) (window x) (ops x) (send_time x) (resend_time x) v.

Definition set_ep_id v (x : uct_ud_ep_t) : uct_ud_ep_t := Ep v (dest_ep_id x) (tx x) (rx x) (ca x) (resend x) (conn_sn x) (flags x) (path_index x) (close_time x).
Definition set_dest_ep_id v (x : uct_ud_ep_t) : uct_ud_ep_t := Ep (ep_id x) v (tx x) (rx x) (ca x) (resend x) (conn_sn x) (flags x) (path_index x) (close_time x).
Definition set_tx v (x : uct_ud_ep_t) : uct_ud_ep_t := Ep (ep_id x) (dest_ep_id x) v (rx x) (ca x) (resend x) (conn_sn x) (flags x) (path_index x) (close_time x).
Definition set_rx v (x : uct_ud_ep_t) : uct_ud_ep_t := Ep (ep_id x) (dest_ep_id x) (tx x) v (ca x) (resend x) (conn_sn x) (flags x) (path_index x) (close_time x).
Definition set_ca v (x : uct_ud_ep_t) : uct_ud_ep_t := Ep (ep_id x) (dest_ep_id x) (tx x) (rx x) v (resend x) (conn_sn x) (flags x) (path_index x) (close_time x).
Definition set_resend v (x : uct_ud_ep_t) : uct_ud_ep_t := Ep (ep_id x) (dest_ep_id x) (tx x) (rx x) (ca x) v (conn_sn x) (flags x) (path_index x) (close_time x).
Definition set_conn_sn v (x : uct_ud_ep_t) : uct_ud_ep_t := Ep (ep_id x) (dest_ep_id x) (tx x) (rx x) (ca x) (resend x) v (flags x) (path_index x) (close_time x).
Definition set_flags v (x : uct_ud_ep_t) : uct_ud_ep_t := Ep (ep_id x) (dest_ep_id x) (tx x) (rx x) (ca x) (resend x) (conn_sn x) v (path_index x) (close_time x).
Definition set_path_index v (x : uct_ud_ep_t) : uct_ud_ep_t := Ep (ep_id x) (dest_ep_id x) (tx x) (rx x) (ca x) (resend x) (conn_sn x) (flags x) v (close_time x).
Definition set_close_time v (x : uct_ud_ep_t) : uct_ud_ep_t := Ep (ep_id x) (dest_ep_id x) (tx x) (rx x) (ca x) (resend x) (conn_sn x) (flags x) (path_index x) v.

Definition set_send_sn v (x : iface_t) : iface_t := Iface v (outstanding_q x) (async_comp_q x) (pending_q x) (next_skb x) (timer_active x) (wire x) (rx_log x) (am_log x) (comp_log x) (pt_start x) (pt_end x) (pt_last x) (timeout_raised x) (ep_freed x).
Definition set_outstanding_q v (x : iface_t) : iface_t := Iface (send_sn x) v (async_comp_q x) (pending_q x) (next_skb x) (timer_active x) (wire x) (rx_log x) (am_log x) (comp_log x) (pt_start x) (pt_end x) (pt_last x) (timeout_raised x) (ep_freed x).
Definition set_async_comp_q v (x : iface_t) : iface_t := Iface (send_sn x) (outstanding_q x) v (pending_q x) (next_skb x) (timer_active x) (wire x) (rx_log x) (am_log x) (comp_log x) (pt_start x) (pt_end x) (pt_last x) (timeout_raised x) (ep_freed x).
Definition set_pending_q v (x : iface_t) : iface_t := Iface (send_sn x) (outstanding_q x) (async_comp_q x) v (next_skb x) (timer_active x) (wire x) (rx_log x) (am_log x) (comp_log x) (pt_start x) (pt_end x) (pt_last x) (timeout_raised x) (ep_freed x).
Definition set_next_skb v (x : iface_t) : iface_t := Iface (send_sn x) (outstanding_q x) (async_comp_q x) (pending_q x) v (timer_active x) (wire x) (rx_log x) (am_log x) (comp_log x) (pt_start x) (pt_end x) (pt_last x) (timeout_raised x) (ep_freed x).
Definition set_timer_active v (x : iface_t) : iface_t := Iface (send_sn x) (outstanding_q x) (async_comp_q x) (pending_q x) (next_skb x) v (wire x) (rx_log x) (am_log x) (comp_log x) (pt_start x) (pt_end x) (pt_last x) (timeout_raised x) (ep_freed x).
Definition set_wire v (x : iface_t) : iface_t := Iface (send_sn x) (outstanding_q x) (async_comp_q x) (pending_q x) (next_skb x) (timer_active x) v (rx_log x) (am_log x) (comp_log x) (pt_start x) (pt_end x) (pt_last x) (timeout_raised x) (ep_freed x).
Definition set_rx_log v (x : iface_t) : iface_t := Iface (send_sn x) (outstanding_q x) (async_comp_q x) (pending_q x) (next_skb x) (timer_active x) (wire x) v (am_log x) (comp_log x) (pt_start x) (pt_end x) (pt_last x) (timeout_raised x) (ep_freed x).
Definition set_am_log v (x : iface_t) : iface_t := Iface (send_sn x) (outstanding_q x) (async_comp_q x) (pending_q x) (next_skb x) (timer_active x) (wire x) (rx_log x) v (comp_log x) (pt_start x) (pt_end x) (pt_last x) (timeout_raised x) (ep_freed x).
Definition set_comp_log v (x : iface_t) : iface_t := Iface (send_sn x) (outstanding_q x) (async_comp_q x) (pending_q x) (next_skb x) (timer_active x) (wire x) (rx_log x) (am_log x) v (pt_start x) (pt_end x) (pt_last x) (timeout_raised x) (ep_freed x).
Definition set_pt_start v (x : iface_t) : iface_t := Iface (send_sn x) (outstanding_q x) (async_comp_q x) (pending_q x) (next_skb x) (timer_active x) (wire x) (rx_log x) (am_log x) (comp_log x) v (pt_end x) (pt_last x) (timeout_raised x) (ep_freed x).
Definition set_pt_end v (x : iface_t) : iface_t := Iface (send_sn x) (outstanding_q x) (async_comp_q x) (pending_q x) (next_skb x) (timer_active x) (wire x) (rx_log x) (am_log x) (comp_log x) (pt_start x) v (pt_last x) (timeout_raised x) (ep_freed x).
Definition set_pt_last v (x : iface_t) : iface_t := Iface (send_sn x) (outstanding_q x) (async_comp_q x) (pending_q x) (next_skb x) (timer_active x) (wire x) (rx_log x) (am_log x) (comp_log x) (pt_start x) (pt_end x) v (timeout_raised x) (ep_freed x).
Definition set_timeout_raised v (x : iface_t) : iface_t := Iface (send_sn x) (outstanding_q x) (async_comp_q x) (pending_q x) (next_skb x) (timer_active x) (wire x) (rx_log x) (am_log x) (comp_log x) (pt_start x) (pt_end x) (pt_last x) v (ep_freed x).
Definition set_ep_freed v (x : iface_t) : iface_t := Iface (send_sn x) (outstanding_q x) (async_comp_q x) (pending_q x) (next_skb x) (timer_active x) (wire x) (rx_log x) (am_log x) (comp_log x) (pt_start x) (pt_end x) (pt_last x) (timeout_raised x) v.

Definition upd_tx (f : tx_t -> tx_t) (ep : uct_ud_ep_t) : uct_ud_ep_t := set_tx (f (tx ep)) ep.

Definition has (x bits : Z) : bool := negb (Z.land x bits =? 0).

(** ** Helpers of [ud_def.h], [ud_ep.h] and [ud_inl.h] *)

Definition uct_ud_neth_get_dest_id (p : packet) : Z := Z.land (packet_type p) UCT_UD_PACKET_DEST_ID_MASK.
Definition uct_ud_neth_get_am_id (p : packet) : Z := u8 (Z.shiftr (packet_type p) UCT_UD_PACKET_AM_ID_SHIFT).

Definition uct_ud_ep_ctl_op_del (o : Z) (ep : uct_ud_ep_t) : uct_ud_ep_t :=
  upd_tx (fun t => set_ops (Z.ldiff (ops t) o) t) ep.
Definition uct_ud_ep_ctl_op_check (ep : uct_ud_ep_t) (o : Z) : bool := has (ops (tx ep)) o.
Definition uct_ud_ep_ctl_op_isany (ep : uct_ud_ep_t) : bool := negb (ops (tx ep) =? 0).
Definition uct_ud_ep_ctl_op_check_ex (ep : uct_ud_ep_t) (o : Z) : bool :=
  has (ops (tx ep)) o && (Z.ldiff (ops (tx ep)) o =? 0).

(** [uct_ud_ep_ctl_op_add]: the arbiter group is scheduled as well. *)
Definition uct_ud_ep_ctl_op_add (o : Z) (ep : uct_ud_ep_t) : uct_ud_ep_t :=
  upd_tx (fun t => set_ops (Z.lor (ops t) o) t) ep.

Definition uct_ud_ep_set_state (f : Z) (ep : uct_ud_ep_t) : uct_ud_ep_t := set_flags (Z.lor (flags ep) f) ep.

Definition uct_ud_ep_is_connected (ep : uct_ud_ep_t) : option bool :=
  let c := has (flags ep) UCT_UD_EP_FLAG_CONNECTED in
  if Bool.eqb (dest_ep_id ep =? UCT_UD_EP_NULL_ID) (negb c) then Some c else None.

Definition uct_ud_ep_is_connected_and_no_pending (ep : uct_ud_ep_t) : bool :=
  Z.land (flags ep) (Z.lor UCT_UD_EP_FLAG_CONNECTED UCT_UD_EP_FLAG_HAS_PENDING) =? UCT_UD_EP_FLAG_CONNECTED.

Definition uct_ud_ep_no_window (ep : uct_ud_ep_t) : bool := psn_ge (psn (tx ep)) (max_psn (tx ep)).

Definition uct_ud_ep_req_ack (ep : uct_ud_ep_t) : bool :=
  psn_eq (psn (tx ep)) (Z.shiftr (acked_psn (tx ep) * 3 + max_psn (tx ep)) 2) ||
  psn_eq (psn (tx ep) + 1) (max_psn (tx ep)) ||
  uct_ud_ep_ctl_op_check ep UCT_UD_EP_OP_ACK_REQ.

(** [uct_ud_neth_init_data]: the numbers of a packet, and the endpoint that
    remembers what it acknowledged. *)
Definition uct_ud_neth_init_data (ep : uct_ud_ep_t) (ptype : Z) (b : body) : packet * uct_ud_ep_t :=
  let a := FragList.ucs_frag_list_sn (ooo_pkts (rx ep)) in
  (Packet ptype (psn (tx ep)) a b, set_rx (Rx a (ooo_pkts (rx ep))) ep).

Definition uct_ud_neth_set_packet_type (ep : uct_ud_ep_t) (id packet_flags : Z) : Z :=
  Z.lor (Z.lor (Z.shiftl id UCT_UD_PACKET_AM_ID_SHIFT) (dest_ep_id ep)) packet_flags.

Definition uct_ud_neth_ack_req (ep : uct_ud_ep_t) (ptype : Z) : Z * uct_ud_ep_t :=
  (Z.lor ptype (Z.shiftl (Z.b2z (uct_ud_ep_req_ack ep)) UCT_UD_PACKET_ACK_REQ_SHIFT),
   uct_ud_ep_ctl_op_del (Z.lor UCT_UD_EP_OP_ACK UCT_UD_EP_OP_ACK_REQ) ep).

Definition uct_ud_ep_tx_stop (ep : uct_ud_ep_t) : uct_ud_ep_t := upd_tx (fun t => set_max_psn (psn t) t) ep.

Definition uct_ud_ep_set_dest_ep_id (id : Z) (ep : uct_ud_ep_t) : option uct_ud_ep_t :=
  if id =? UCT_UD_EP_NULL_ID then None
  else Some (uct_ud_ep_set_state UCT_UD_EP_FLAG_CONNECTED (set_dest_ep_id id ep)).

(** ** Endpoint state *)

Definition iter_begin : iter := IterBegin.

Definition uct_ud_ep_resend_start (ep : uct_ud_ep_t) : uct_ud_ep_t :=
  uct_ud_ep_ctl_op_add UCT_UD_EP_OP_RESEND
    (set_resend (Resend iter_begin (u16 (acked_psn (tx ep) + 1)) (u16 (psn (tx ep) - 1))) ep).

Definition uct_ud_ep_resend_end (ep : uct_ud_ep_t) : uct_ud_ep_t :=
  let ep := uct_ud_ep_ctl_op_del UCT_UD_EP_OP_RESEND ep in
  set_flags (Z.ldiff (flags ep) UCT_UD_EP_FLAG_TX_NACKED) ep.

Definition uct_ud_ep_resend_ack (ep : uct_ud_ep_t) : uct_ud_ep_t :=
  let r := resend ep in
  if psn_gt (resend_psn r) (resend_max_psn r) then ep
  else if psn_lt (acked_psn (tx ep)) (resend_max_psn r) then
    let ep := if psn_le (resend_psn r) (acked_psn (tx ep))
              then set_resend (Resend iter_begin (u16 (acked_psn (tx ep) + 1)) (resend_max_psn r)) ep
              else ep in
    uct_ud_ep_ctl_op_add UCT_UD_EP_OP_RESEND ep
  else uct_ud_ep_resend_end (set_resend (Resend (pos r) (u16 (resend_max_psn r + 1)) (resend_max_psn r)) ep).

Definition uct_ud_ep_ca_drop (ep : uct_ud_ep_t) : uct_ud_ep_t :=
  let w := cwnd (ca ep) / UCT_UD_CA_MD_FACTOR in
  let w := if w <? UCT_UD_CA_MIN_WINDOW then UCT_UD_CA_MIN_WINDOW else w in
  let ep := set_ca (Ca (wmax (ca ep)) w) ep in
  let ep := upd_tx (fun t => set_max_psn (u16 (acked_psn t + w)) t) ep in
  if psn_gt (max_psn (tx ep)) (psn (tx ep)) then uct_ud_ep_tx_stop ep else ep.

Definition uct_ud_ep_ca_ack (ep : uct_ud_ep_t) : uct_ud_ep_t :=
  let w := if cwnd (ca ep) <? wmax (ca ep) then u16 (cwnd (ca ep) + UCT_UD_CA_AI_VALUE) else cwnd (ca ep) in
  let ep := set_ca (Ca (wmax (ca ep)) w) ep in
  upd_tx (fun t => set_max_psn (u16 (acked_psn t + w)) t) ep.

Definition uct_ud_ep_reset_max_psn (ep : uct_ud_ep_t) : uct_ud_ep_t :=
  upd_tx (fun t => set_max_psn (u16 (psn t + cwnd (ca ep))) t) ep.

(** The times and [tick] are not reset.  [rx_creq_count], which only error messages
    show, is not part of the model. *)
Definition uct_ud_ep_reset (cfg : config) (ep : uct_ud_ep_t) : uct_ud_ep_t :=
  let ep := upd_tx (set_psn UCT_UD_INITIAL_PSN) ep in
  let ep := set_ca (Ca (max_window cfg) UCT_UD_CA_MIN_WINDOW) ep in
  let ep := upd_tx (set_acked_psn (UCT_UD_INITIAL_PSN - 1)) ep in
  let ep := upd_tx (set_ops UCT_UD_EP_OP_NONE) ep in
  let ep := uct_ud_ep_reset_max_psn ep in
  let ep := upd_tx (set_window []) ep in
  let ep := set_resend (Resend iter_begin (psn (tx ep)) (acked_psn (tx ep))) ep in
  let ep := upd_tx (set_resend_count 0) ep in
  set_rx (Rx (UCT_UD_INITIAL_PSN - 1) (FragList.ucs_frag_list_init (psn (tx ep) - 1) 0)) ep.

(** The constructor of the class: the endpoint is zero, then reset. *)
Definition uct_ud_ep_init (cfg : config) (id : Z) : uct_ud_ep_t :=
  let zero := Ep 0 UCT_UD_EP_NULL_ID (Tx 0 0 0 0 [] 0 0 0 0) (Rx 0 (FragList.ucs_frag_list_init 0 0))
                 (Ca 0 0) (Resend iter_begin 0 0) 0 0 0 0 in
  let ep := set_ep_id id (uct_ud_ep_reset cfg zero) in
  upd_tx (set_tick (iface_tick cfg)) ep.

(** [uct_ud_ep_connect_to_ep_v2], without the addresses. *)
Definition uct_ud_ep_connect_to_ep (cfg : config) (dest : Z) (ep : uct_ud_ep_t) : option uct_ud_ep_t :=
  if dest_ep_id ep =? UCT_UD_EP_NULL_ID then
    ep ← uct_ud_ep_set_dest_ep_id dest ep;
    if FragList.ucs_frag_list_cleanup (ooo_pkts (rx ep)) then Some (uct_ud_ep_reset cfg ep) else None
  else None.

(** ** Window *)

Definition uct_ud_skb_is_completed (skb : uct_ud_send_skb_t) (ack : Z) : bool :=
  psn_le (p_psn (neth skb)) ack && negb (resending skb).

#[export] Instance iter_eq_dec : EqDecision iter.
Proof. solve_decision. Defined.

(** The loop that extracts the completed skbs from the head of the window.  An skb
    of the window is not released: one that is leaves the window, so the
    assertions on [UCT_UD_SEND_SKB_FLAG_INVALID] are about dangling iterators. *)
Fixpoint window_release_loop (w : list uct_ud_send_skb_t) (st : state) (ack : Z) (status : ucs_status_t)
    (is_async invalidate_resend : bool) : state :=
  match w with
  | [] => st
  | skb :: rest =>
      if uct_ud_skb_is_completed skb ack then
        let '(ep, ifc) := st in
        let ep := upd_tx (set_window rest) ep in
        let ep := if invalidate_resend && bool_decide (pos (resend ep) = IterAfter (skb_id skb))
                  then set_resend (Resend iter_begin (u16 (acked_psn (tx ep) + 1)) (resend_max_psn (resend ep))) ep
                  else ep in
        let ifc := match comp skb with
                   | None => ifc
                   | Some c => if is_async then set_async_comp_q (async_comp_q ifc ++ [(c, status)]) ifc
                               else set_comp_log (comp_log ifc ++ [(c, status)]) ifc
                   end in
        window_release_loop rest (ep, ifc) ack status is_async invalidate_resend
      else st
  end.

Definition uct_ud_ep_window_release_inline (st : state) (ack : Z) (status : ucs_status_t)
    (is_async invalidate_resend : bool) : state :=
  window_release_loop (window (tx st.1)) st ack status is_async invalidate_resend.

Definition uct_ud_ep_window_release (st : state) (status : ucs_status_t) (is_async : bool) : state :=
  uct_ud_ep_window_release_inline st (acked_psn (tx st.1)) status is_async false.

Definition uct_ud_ep_window_release_completed (st : state) (is_async : bool) : state :=
  uct_ud_ep_window_release_inline st (acked_psn (tx st.1)) UCS_OK is_async true.

Definition uct_ud_ep_process_ack (cfg : config) (st : state) (ack : Z) (is_async : bool) (now : Z) : option state :=
  let '(ep, ifc) := st in
  if psn_le ack (acked_psn (tx ep)) then Some st
  else
    let ep := upd_tx (set_acked_psn ack) ep in
    if negb (psn_lt (acked_psn (tx ep)) (psn (tx ep))) then None else
    let '(ep, ifc) := uct_ud_ep_window_release_inline (ep, ifc) ack UCS_OK is_async false in
    let ep := uct_ud_ep_resend_ack (uct_ud_ep_ca_ack ep) in
    Some (upd_tx (fun t => set_send_time now (set_tick (iface_tick cfg) t)) ep, ifc).

(** ** Sending *)

(** The device takes the packet. *)
Definition post (p : packet) (ifc : iface_t) : iface_t :=
  set_send_sn (u16 (send_sn ifc + 1)) (set_wire (wire ifc ++ [p]) ifc).

(** What the device and the memory pool answer during a call. *)
Record resources := Res {
  can_tx : bool;               (* tx.available > 0 *)
  mpool_ok : bool;             (* there is an skb for data: tx.skb, or one of the pool *)
  pending_async_ev : bool;     (* tx.async_before_pending *)
  ctl_skb_ok : bool            (* ucs_mpool_get(&iface->tx.mp) gives a control skb *)
}.

(** skbs which are in use; the pool has [tx_mp_max] of them. *)
Definition skbs_in_use (st : state) : Z :=
  Z.of_nat (length (window (tx st.1)) + length (outstanding_q st.2) + length (async_comp_q st.2)).

Definition uct_ud_iface_get_tx_skb (cfg : config) (r : resources) (st : state) : bool :=
  can_tx r && mpool_ok r && (skbs_in_use st <? tx_mp_max cfg).

(** The pool gives a control skb; when it does not, the code ends the process with
    [ucs_fatal].  The skb that [tx.skb] keeps for data is not used for control. *)
Definition uct_ud_iface_ctl_skb_get (cfg : config) (r : resources) (st : state) : bool :=
  ctl_skb_ok r && (skbs_in_use st <? tx_mp_max cfg).

Definition uct_ud_ep_get_tx_skb (cfg : config) (r : resources) (st : state) : bool :=
  if negb (uct_ud_ep_is_connected_and_no_pending st.1) || uct_ud_ep_no_window st.1 || pending_async_ev r
  then false else uct_ud_iface_get_tx_skb cfg r st.

Definition uct_ud_iface_complete_tx_skb (cfg : config) (now : Z) (p : packet) (l : Z) (c : option Z) (st : state) : state :=
  let '(ep, ifc) := st in
  let skb := Skb (next_skb ifc) p l false c false in
  let ifc := set_next_skb (next_skb ifc + 1) ifc in
  let ep := upd_tx (fun t => set_psn (u16 (psn t + 1)) t) ep in
  let ep := if bool_decide (window (tx ep) = []) then upd_tx (set_send_time now) ep else ep in
  let ep := upd_tx (fun t => set_window (window t ++ [skb]) t) ep in
  let ep := upd_tx (set_tick (iface_tick cfg)) ep in
  (ep, if async_disable cfg then ifc else set_timer_active true ifc).


(** [uct_ud_am_skb_common]: the packet with its header.  There are no pending
    requests of the user in the model, which its assertion is about. *)
Definition uct_ud_am_skb_common (cfg : config) (r : resources) (st : state) (id : Z) (data : list Z) :
  ucs_status_t + packet * state :=
  if UCT_AM_ID_MAX <=? id then inl UCS_ERR_INVALID_PARAM
  else if negb (uct_ud_ep_get_tx_skb cfg r st) then inl UCS_ERR_NO_RESOURCE
  else
    let '(ep, ifc) := st in
    let ptype := uct_ud_neth_set_packet_type ep id UCT_UD_PACKET_FLAG_AM in
    let '(p, ep) := uct_ud_neth_init_data ep ptype (Bytes data) in
    let '(ptype, ep) := uct_ud_neth_ack_req ep ptype in
    inr (Packet ptype (p_psn p) (ack_psn p) (p_body p), (ep, ifc)).

Definition neth_size : Z := 8.

Definition uct_ud_verbs_ep_am_short (cfg : config) (r : resources) (now : Z) (st : state) (id hdr : Z) (buffer : list Z) :
  ucs_status_t * state :=
  let length := Z.of_nat (length buffer) in
  if max_inline cfg <? neth_size + 8 + length then (UCS_ERR_INVALID_PARAM, st) else
  match uct_ud_am_skb_common cfg r st id (le64 hdr ++ buffer) with
  | inl status => (status, st)
  | inr (p, (ep, ifc)) => (UCS_OK, uct_ud_iface_complete_tx_skb cfg now p (neth_size + 8 + length) None (ep, post p ifc))
  end.

Definition uct_ud_verbs_ep_am_short_iov (cfg : config) (r : resources) (now : Z) (st : state) (id : Z) (iov : list (list Z)) :
  ucs_status_t * state :=
  let total := Z.of_nat (length (concat iov)) in
  if max_send_sge cfg <? Z.of_nat (length iov) then (UCS_ERR_INVALID_PARAM, st) else
  if max_inline cfg <? neth_size + total then (UCS_ERR_INVALID_PARAM, st) else
  match uct_ud_am_skb_common cfg r st id (concat iov) with
  | inl status => (status, st)
  | inr (p, (ep, ifc)) => (UCS_OK, uct_ud_iface_complete_tx_skb cfg now p (neth_size + total) None (ep, post p ifc))
  end.

(** [data] is what the pack callback writes.  Its length is only checked after the
    header was prepared, which has changed the endpoint. *)
Definition uct_ud_verbs_ep_am_bcopy (cfg : config) (r : resources) (now : Z) (st : state) (id : Z) (data : list Z) :
  ucs_status_t * state :=
  match uct_ud_am_skb_common cfg r st id data with
  | inl status => (status, st)
  | inr (p, (ep, ifc)) =>
      if active_mtu cfg <? neth_size + Z.of_nat (length data) then (UCS_ERR_INVALID_PARAM, (ep, ifc)) else
      (UCS_OK, uct_ud_iface_complete_tx_skb cfg now p (neth_size + Z.of_nat (length data)) None (ep, post p ifc))
  end.

(** [sizeof(uct_ud_zcopy_desc_t)]: two pointers, [UCT_IB_MAX_IOV] = 8 packed
    elements of 14 bytes and the count, aligned to 8. *)
Definition zcopy_desc_size : Z := 136.

(** The buffers of [iov] are sent again from the place where they are, so they
    must not change before the completion [c]. *)
Definition uct_ud_verbs_ep_am_zcopy (cfg : config) (r : resources) (now : Z) (st : state) (id : Z) (header : list Z)
    (iov : list (list Z)) (c : option Z) : ucs_status_t * state :=
  if (max_send_sge cfg <? Z.of_nat (length iov)) ||
     (seg_size cfg <? neth_size + zcopy_desc_size + Z.of_nat (length header)) ||
     (active_mtu cfg <? neth_size + Z.of_nat (length (concat iov)) + Z.of_nat (length header))
  then (UCS_ERR_INVALID_PARAM, st) else
  match uct_ud_am_skb_common cfg r st id (header ++ concat iov) with
  | inl status => (status, st)
  | inr (p, (ep, ifc)) =>
      let p := Packet (Z.lor (packet_type p) UCT_UD_PACKET_FLAG_ACK_REQ) (p_psn p) (ack_psn p) (p_body p) in
      (UCS_INPROGRESS,
       uct_ud_iface_complete_tx_skb cfg now p (neth_size + Z.of_nat (length header)) c (ep, post p ifc))
  end.

Definition uct_ud_verbs_ep_put_short (cfg : config) (r : resources) (now : Z) (st : state) (buffer : list Z) (remote_addr : Z) :
  ucs_status_t * state :=
  let length := Z.of_nat (length buffer) in
  if max_inline cfg <? neth_size + 8 + length then (UCS_ERR_INVALID_PARAM, st) else
  if negb (uct_ud_ep_get_tx_skb cfg r st) then (UCS_ERR_NO_RESOURCE, st) else
  let '(ep, ifc) := st in
  let ptype := uct_ud_neth_set_packet_type ep 0 UCT_UD_PACKET_FLAG_PUT in
  let '(p, ep) := uct_ud_neth_init_data ep ptype (Put remote_addr buffer) in
  let '(ptype, ep) := uct_ud_neth_ack_req ep ptype in
  let p := Packet ptype (p_psn p) (ack_psn p) (p_body p) in
  (UCS_OK, uct_ud_iface_complete_tx_skb cfg now p (neth_size + 8 + length) None (ep, post p ifc)).

(** ** Control operations *)

Definition ctl_hdr_size : Z := 40.

(** [*iter]: the element the iterator points to, or [Some None] at the end of
    the window; [None] when the element before it was released. *)
Definition iter_elem (w : list uct_ud_send_skb_t) (it : iter) : option (option uct_ud_send_skb_t) :=
  match it with
  | IterBegin => Some (head w)
  | IterAfter id =>
      '(i, _) ← list_find (fun skb => skb_id skb = id) w;
      Some (w !! S i)
  end.

Definition set_resending (b : bool) (skb : uct_ud_send_skb_t) : uct_ud_send_skb_t :=
  Skb (skb_id skb) (neth skb) (len skb) (skb_ack_req skb) (comp skb) b.

(** The flags of the skb with this address. *)
Definition update_skb (id : Z) (f : uct_ud_send_skb_t -> uct_ud_send_skb_t) (w : list uct_ud_send_skb_t) :
  list uct_ud_send_skb_t := (fun skb => if skb_id skb =? id then f skb else skb) <$> w.

(** The packet that is sent again. *)
Definition resend_packet (ep : uct_ud_ep_t) (p : packet) : packet :=
  let ptype := if (p_psn p mod UCT_UD_RESENDS_PER_ACK =? 0) || psn_eq (p_psn p) (acked_psn (tx ep) + 1)
               then Z.lor (packet_type p) UCT_UD_PACKET_FLAG_ACK_REQ
               else Z.ldiff (packet_type p) UCT_UD_PACKET_FLAG_ACK_REQ in
  Packet ptype (p_psn p) (rx_acked_psn (rx ep)) (p_body p).

(** [uct_ud_ep_resend] after the allocation of the control skb. *)
Definition resend_skb (now : Z) (ep : uct_ud_ep_t) (ifc : iface_t) (sent_skb : uct_ud_send_skb_t) : state :=
  let ep := upd_tx (fun t => set_window (update_skb (skb_id sent_skb) (set_resending true) (window t)) t) ep in
  let ep := set_resend (Resend (pos (resend ep)) (p_psn (neth sent_skb)) (resend_max_psn (resend ep))) ep in
  let ep := upd_tx (set_resend_time now) ep in
  let p := resend_packet ep (neth sent_skb) in
  let ep := if psn_eq (resend_psn (resend ep)) (resend_max_psn (resend ep)) then
              uct_ud_ep_resend_end
                (set_resend (Resend (pos (resend ep)) (u16 (resend_max_psn (resend ep) + 1)) (resend_max_psn (resend ep))) ep)
            else ep in
  let ifc := post p ifc in
  let ifc := set_outstanding_q (outstanding_q ifc ++ [Cdesc (send_sn ifc) (Some (skb_id sent_skb))]) ifc in
  (upd_tx (fun t => set_resend_count (u16 (resend_count t + 1)) t) ep, ifc).

Definition uct_ud_ep_resend (cfg : config) (r : resources) (now : Z) (st : state) : option state :=
  let '(ep, ifc) := st in
  if psn_le (resend_max_psn (resend ep)) (acked_psn (tx ep)) then Some (uct_ud_ep_resend_end ep, ifc) else
  el ← iter_elem (window (tx ep)) (pos (resend ep));
  match el with
  | None => Some (uct_ud_ep_resend_end ep, ifc)
  | Some sent_skb =>
      if psn_ge (p_psn (neth sent_skb)) (max_psn (tx ep)) then Some (uct_ud_ep_resend_end ep, ifc)
      else if negb (has (flags ep) UCT_UD_EP_FLAG_TX_NACKED) && (neth_size + ctl_hdr_size + addr_size cfg <? len sent_skb)
      then Some (uct_ud_ep_resend_end ep, ifc)
      else
        let ep := set_resend (Resend (IterAfter (skb_id sent_skb)) (resend_psn (resend ep)) (resend_max_psn (resend ep))) ep in
        if resending sent_skb then Some (ep, ifc)
        else if (uct_ud_neth_get_dest_id (neth sent_skb) =? UCT_UD_EP_NULL_ID) &&
                negb (has (packet_type (neth sent_skb)) UCT_UD_PACKET_FLAG_CTL)
        then Some (ep, ifc)
        else
          connected ← uct_ud_ep_is_connected ep;
          if connected && (uct_ud_neth_get_dest_id (neth sent_skb) =? UCT_UD_EP_NULL_ID) &&
             negb (has (packet_type (neth sent_skb)) UCT_UD_PACKET_FLAG_AM)
          then None
          else if negb (uct_ud_iface_ctl_skb_get cfg r (ep, ifc)) then None
          else Some (resend_skb now ep ifc sent_skb)
  end.

Definition uct_ud_ep_send_ack (cfg : config) (r : resources) (st : state) : option state :=
  let '(ep, ifc) := st in
  connected ← uct_ud_ep_is_connected ep;
  if negb connected then Some (uct_ud_ep_ctl_op_del UCT_UD_EP_OP_CTL_ACK ep, ifc)
  else
    let signaled := uct_ud_ep_ctl_op_check ep UCT_UD_EP_OP_ACK_REQ in
    let ptype := dest_ep_id ep in
    let ptype := if signaled then Z.lor ptype UCT_UD_PACKET_FLAG_ACK_REQ else ptype in
    let ptype := if uct_ud_ep_ctl_op_check ep UCT_UD_EP_OP_NACK then Z.lor ptype UCT_UD_PACKET_FLAG_NACK else ptype in
    let inline := (neth_size <=? max_inline cfg) && negb signaled in
    if negb inline && negb (uct_ud_iface_ctl_skb_get cfg r (ep, ifc)) then None else
    let '(p, ep) := uct_ud_neth_init_data ep ptype (Bytes []) in
    let ifc := post p ifc in
    let ifc := if inline then ifc
               else set_outstanding_q (outstanding_q ifc ++ [Cdesc (send_sn ifc) None]) ifc in
    Some (uct_ud_ep_ctl_op_del UCT_UD_EP_OP_CTL_ACK ep, ifc).

Definition uct_ud_ep_prepare_creq (cfg : config) (r : resources) (st : state) : option (option (packet * Z * state)) :=
  let '(ep, ifc) := st in
  if negb (dest_ep_id ep =? UCT_UD_EP_NULL_ID) || (ep_id ep =? UCT_UD_EP_NULL_ID) then None
  else if uct_ud_ep_ctl_op_check ep UCT_UD_EP_OP_CREP || has (flags ep) UCT_UD_EP_FLAG_CREP_SENT then None
  else if negb (uct_ud_iface_get_tx_skb cfg r st) then Some None
  else
    let '(p, ep) := uct_ud_neth_init_data ep (Z.lor UCT_UD_EP_NULL_ID UCT_UD_PACKET_FLAG_CTL)
                                          (Creq (conn_sn ep) (path_index ep) (ep_id ep)) in
    Some (Some (p, neth_size + ctl_hdr_size + addr_size cfg, (ep, ifc))).

Definition uct_ud_ep_prepare_crep (cfg : config) (r : resources) (st : state) : option (option (packet * Z * state)) :=
  let '(ep, ifc) := st in
  if (dest_ep_id ep =? UCT_UD_EP_NULL_ID) || (ep_id ep =? UCT_UD_EP_NULL_ID) then None
  else if uct_ud_ep_ctl_op_check ep UCT_UD_EP_OP_CREQ then None
  else if negb (uct_ud_iface_get_tx_skb cfg r st) then Some None
  else
    let '(p, ep) := uct_ud_neth_init_data ep
                      (Z.lor (dest_ep_id ep) (Z.lor UCT_UD_PACKET_FLAG_ACK_REQ UCT_UD_PACKET_FLAG_CTL)) (Crep (ep_id ep)) in
    Some (Some (p, neth_size + ctl_hdr_size, (uct_ud_ep_ctl_op_del UCT_UD_EP_OP_CREP ep, ifc))).

Definition uct_ud_ep_send_creq_crep (cfg : config) (now : Z) (p : packet) (l : Z) (st : state) : state :=
  let '(ep, ifc) := st in uct_ud_iface_complete_tx_skb cfg now p l None (ep, post p ifc).

Definition uct_ud_ep_do_pending_ctl (cfg : config) (r : resources) (now : Z) (st : state) : option state :=
  if uct_ud_ep_ctl_op_check st.1 UCT_UD_EP_OP_CREQ then
    skb ← uct_ud_ep_prepare_creq cfg r st;
    match skb with
    | Some (p, l, (ep, ifc)) =>
        let ep := uct_ud_ep_ctl_op_del UCT_UD_EP_OP_CREQ (uct_ud_ep_set_state UCT_UD_EP_FLAG_CREQ_SENT ep) in
        Some (uct_ud_ep_send_creq_crep cfg now p l (ep, ifc))
    | None => Some st
    end
  else if uct_ud_ep_ctl_op_check st.1 UCT_UD_EP_OP_CREP then
    skb ← uct_ud_ep_prepare_crep cfg r st;
    match skb with
    | Some (p, l, (ep, ifc)) =>
        let ep := uct_ud_ep_ctl_op_del UCT_UD_EP_OP_CREP (uct_ud_ep_set_state UCT_UD_EP_FLAG_CREP_SENT ep) in
        Some (uct_ud_ep_send_creq_crep cfg now p l (ep, ifc))
    | None => Some st
    end
  else if uct_ud_ep_ctl_op_check st.1 UCT_UD_EP_OP_RESEND then uct_ud_ep_resend cfg r now st
  else if uct_ud_ep_ctl_op_check st.1 UCT_UD_EP_OP_CTL_ACK then uct_ud_ep_send_ack cfg r st
  else if uct_ud_ep_ctl_op_isany st.1 then None
  else Some st.

(** ** Send completions *)

Definition uct_ud_iface_ctl_skb_complete (st : state) (c : uct_ud_ctl_desc_t) (is_async : bool) : option state :=
  let '(ep, ifc) := st in
  ep ← match resent_skb c with
       | Some id =>
           '(_, skb) ← list_find (fun skb => skb_id skb = id) (window (tx ep));
           if negb (resending skb) then None
           else Some (upd_tx (fun t => set_resend_count (u16 (resend_count t - 1))
                                        (set_window (update_skb id (set_resending false) (window t)) t)) ep)
       | None => Some ep
       end;
  Some (uct_ud_ep_window_release_completed (ep, ifc) is_async).

(** The loop over the queue of outstanding descriptors: those whose [sn] is not
    after [comp_sn]. *)
Fixpoint send_completion_loop (q : list uct_ud_ctl_desc_t) (st : state) (comp_sn : Z) (is_async : bool) : option state :=
  match q with
  | [] => Some st
  | c :: rest =>
      if psn_le (sn c) comp_sn then
        let '(ep, ifc) := st in
        st ← uct_ud_iface_ctl_skb_complete (ep, set_outstanding_q rest ifc) c is_async;
        send_completion_loop rest st comp_sn is_async
      else Some st
  end.

Definition uct_ud_iface_send_completion (st : state) (comp_sn : Z) (is_async : bool) : option state :=
  send_completion_loop (outstanding_q st.2) st comp_sn is_async.

Definition uct_ud_iface_dispatch_async_comps (st : state) : state :=
  let '(ep, ifc) := st in
  (ep, set_async_comp_q [] (set_comp_log (comp_log ifc ++ async_comp_q ifc) ifc)).

(** ** Receiving *)

Definition uct_ud_ep_rx_ctl_drop_packet (ep : uct_ud_ep_t) (exp_flags : Z) : option unit :=
  if has (flags ep) exp_flags then Some tt else None.

Definition uct_ud_ep_rx_ctl (st : state) (p : packet) : option state :=
  let '(ep, ifc) := st in
  match p_body p with
  | Crep src =>
      connected ← uct_ud_ep_is_connected ep;
      if connected && negb (dest_ep_id ep =? src) then None else
      if psn_lt (p_psn p) (FragList.head_sn (ooo_pkts (rx ep))) then
        _ ← uct_ud_ep_rx_ctl_drop_packet ep UCT_UD_EP_FLAG_CREP_RCVD; Some st
      else
        let ep := set_rx (Rx (rx_acked_psn (rx ep)) (FragList.set_head_sn (p_psn p) (ooo_pkts (rx ep)))) ep in
        ep ← uct_ud_ep_set_dest_ep_id src ep;
        Some (uct_ud_ep_set_state UCT_UD_EP_FLAG_CREP_RCVD ep, ifc)
  | _ => None
  end.

(** [uct_ud_ep_process_rx] for a packet to this endpoint: connection requests
    ([uct_ud_ep_rx_creq]) are not part of the model. *)
Definition uct_ud_ep_process_rx (cfg : config) (st : state) (p : packet) (is_async : bool) (now : Z) : option state :=
  let am_id := uct_ud_neth_get_am_id p in
  let is_am := has (packet_type p) UCT_UD_PACKET_FLAG_AM in
  if Z.land (flags st.1) (Z.lor UCT_UD_EP_FLAG_DISCONNECTED UCT_UD_EP_FLAG_CONNECT_TO_EP) =?
     Z.lor UCT_UD_EP_FLAG_DISCONNECTED UCT_UD_EP_FLAG_CONNECT_TO_EP
  then Some st
  else if negb (ep_id st.1 =? uct_ud_neth_get_dest_id p) then None
  else
    '(ep, ifc) ← uct_ud_ep_process_ack cfg st (ack_psn p) is_async now;
    let ep := if has (packet_type p) UCT_UD_PACKET_FLAG_ACK_REQ
              then uct_ud_ep_ctl_op_add UCT_UD_EP_OP_ACK ep else ep in
    let ep := if psn_gt (p_psn p) (FragList.head_sn (ooo_pkts (rx ep)) + 1)
              then uct_ud_ep_ctl_op_add UCT_UD_EP_OP_NACK ep else ep in
    if negb is_am && has (packet_type p) UCT_UD_PACKET_FLAG_NACK
    then Some (uct_ud_ep_set_state UCT_UD_EP_FLAG_TX_NACKED ep, ifc)
    else if negb is_am && no_body p then Some (ep, ifc)
    else if negb is_am && has (packet_type p) UCT_UD_PACKET_FLAG_CTL then uct_ud_ep_rx_ctl (ep, ifc) p
    else
      let '(ooo_type, fl) := FragList.ucs_frag_list_insert (ooo_pkts (rx ep)) p (p_psn p) in
      let ep := set_rx (Rx (rx_acked_psn (rx ep)) fl) ep in
      match ooo_type with
      | FragList.UCS_FRAG_LIST_INSERT_FAST =>
          let ifc := set_rx_log (rx_log ifc ++ [p]) ifc in
          if negb is_am && has (packet_type p) UCT_UD_PACKET_FLAG_PUT then Some (ep, ifc)
          else if is_async && negb (am_async cfg am_id)
          then Some (ep, set_pending_q (pending_q ifc ++ [p]) ifc)
          else Some (ep, set_am_log (am_log ifc ++ [p]) ifc)
      | FragList.UCS_FRAG_LIST_INSERT_DUP | FragList.UCS_FRAG_LIST_INSERT_FAIL => Some (ep, ifc)
      | _ => None
      end.

(** At most [max_poll] packets, and at least one. *)
Definition uct_ud_iface_dispatch_pending_rx (max_poll : nat) (st : state) : state :=
  let '(ep, ifc) := st in
  let n := Nat.max 1 max_poll in
  (ep, set_pending_q (drop n (pending_q ifc)) (set_am_log (am_log ifc ++ take n (pending_q ifc)) ifc)).

(** ** Flush *)

Definition uct_ud_ep_is_last_ack_received (ep : uct_ud_ep_t) : bool := psn_eq (acked_psn (tx ep)) (psn (tx ep) - 1).

Definition uct_ud_ep_comp_skb_add (cfg : config) (r : resources) (st : state) (c : option Z) : option (ucs_status_t * state) :=
  match c with
  | None => Some (UCS_INPROGRESS, st)
  | Some c =>
      if negb (mpool_ok r && (skbs_in_use st <? tx_mp_max cfg)) then Some (UCS_ERR_NO_RESOURCE, st) else
      let '(ep, ifc) := st in
      let p := Packet UCT_UD_EP_NULL_ID (u16 (psn (tx ep) - 1)) 0 (Bytes []) in
      let skb := Skb (next_skb ifc) p neth_size true (Some c) false in
      let ifc := set_next_skb (next_skb ifc + 1) ifc in
      if bool_decide (window (tx ep) = []) then
        if negb (resend_count (tx ep) =? 0) then None
        else Some (UCS_INPROGRESS, (ep, set_async_comp_q (async_comp_q ifc ++ [(c, UCS_OK)]) ifc))
      else Some (UCS_INPROGRESS, (upd_tx (fun t => set_window (window t ++ [skb]) t) ep, ifc))
  end.

Definition uct_ud_ep_ack_req_do (cfg : config) (r : resources) (now : Z) (st : state) : option state :=
  let '(ep, ifc) := st in
  let ep := upd_tx (fun t => set_ops (Z.lor (ops t) UCT_UD_EP_OP_ACK_REQ) t) ep in
  if uct_ud_ep_ctl_op_check_ex ep UCT_UD_EP_OP_ACK_REQ then uct_ud_ep_do_pending_ctl cfg r now (ep, ifc) else Some (ep, ifc).

Definition set_ack_req (skb : uct_ud_send_skb_t) : uct_ud_send_skb_t :=
  Skb (skb_id skb) (neth skb) (len skb) true (comp skb) (resending skb).

Definition uct_ud_ep_flush_nolock (cfg : config) (r : resources) (now : Z) (st : state) (cancel : bool) (c : option Z) :
  option (ucs_status_t * state) :=
  connected ← uct_ud_ep_is_connected st.1;
  if negb connected then
    Some (if uct_ud_ep_ctl_op_check st.1 UCT_UD_EP_OP_CREQ || negb (bool_decide (window (tx st.1) = []))
          then UCS_ERR_NO_RESOURCE else UCS_OK, st)
  else if negb (can_tx r) || negb (mpool_ok r && (skbs_in_use st <? tx_mp_max cfg)) || uct_ud_ep_no_window st.1
  then Some (UCS_ERR_NO_RESOURCE, st)
  else if bool_decide (window (tx st.1) = []) && bool_decide (async_comp_q st.2 = []) then
    if negb (resend_count (tx st.1) =? 0) then None else Some (UCS_OK, st)
  else
    st ← (if negb (uct_ud_ep_is_last_ack_received st.1) then
            if cancel then None else
            skb ← last (window (tx st.1));
            if skb_ack_req skb then Some st
            else
              '(ep, ifc) ← uct_ud_ep_ack_req_do cfg r now st;
              Some (upd_tx (fun t => set_window (update_skb (skb_id skb) set_ack_req (window t)) t) ep, ifc)
          else if cancel then uct_ud_ep_ack_req_do cfg r now st
          else Some (uct_ud_ep_ctl_op_del UCT_UD_EP_OP_ACK_REQ st.1, st.2));
    uct_ud_ep_comp_skb_add cfg r st c.

Definition uct_ud_ep_flush (cfg : config) (r : resources) (now : Z) (st : state) (cancel : bool) (c : option Z) :
  option (ucs_status_t * state) :=
  let '(ep, ifc) := st in
  let ep := if cancel
            then upd_tx (fun t => set_acked_psn (u16 (psn t - 1)) t) (uct_ud_ep_reset_max_psn ep)
            else ep in
  if pending_async_ev r then Some (UCS_ERR_NO_RESOURCE, (ep, ifc))
  else
    '(status, st) ← uct_ud_ep_flush_nolock cfg r now (ep, ifc) cancel c;
    match status with
    | UCS_OK => if bool_decide (window (tx st.1) = []) then Some (UCS_OK, st) else None
    | _ => Some (status, st)
    end.

(** ** Purge *)

Fixpoint purge_outstanding_loop (q : list uct_ud_ctl_desc_t) (st : state) : option state :=
  match q with
  | [] => Some st
  | c :: rest =>
      let '(ep, ifc) := st in
      st ← uct_ud_iface_ctl_skb_complete (ep, set_outstanding_q rest ifc) c false;
      purge_outstanding_loop rest st
  end.

(** All the outstanding descriptors are of the one endpoint of the interface. *)
Definition uct_ud_ep_purge_outstanding (st : state) : option state :=
  st ← purge_outstanding_loop (outstanding_q st.2) st;
  if resend_count (tx st.1) =? 0 then Some st else None.

Definition uct_ud_ep_purge (st : state) (status : ucs_status_t) : option state :=
  let '(ep, ifc) := uct_ud_iface_dispatch_async_comps st in
  '(ep, ifc) ← uct_ud_ep_purge_outstanding (uct_ud_ep_reset_max_psn ep, ifc);
  let ep := uct_ud_ep_ctl_op_del (ops (tx ep)) ep in
  let ep := upd_tx (fun t => set_acked_psn (u16 (psn t - 1)) t) ep in
  let '(ep, ifc) := uct_ud_ep_window_release (ep, ifc) status false in
  if bool_decide (window (tx ep) = []) then Some (ep, ifc) else None.

(** ** Timer *)

Definition UCT_UD_SLOW_TIMER_MAX_TICK (cfg : config) : Z := peer_timeout cfg / 3.

Definition uct_ud_ep_timer_backoff (cfg : config) (st : state) : state :=
  let '(ep, ifc) := st in
  (upd_tx (fun t => set_tick (Z.min (backoff cfg (tick t)) (UCT_UD_SLOW_TIMER_MAX_TICK cfg)) t) ep,
   set_timer_active true ifc).

(** The timeout is handled by a callback of the worker. *)
Definition uct_ud_ep_handle_timeout (st : state) : state := (st.1, set_timeout_raised true st.2).

Definition uct_ud_ep_remove_pending_time (st : state) : ucs_status_t :=
  if send_time (tx st.1) <=? pt_start st.2 then UCS_OK
  else if pt_end st.2 <? send_time (tx st.1) then UCS_ERR_ENDPOINT_TIMEOUT
  else UCS_OK.

(** [cur] is the current time. *)
Definition uct_ud_ep_check_pending (cfg : config) (cur last : Z) (ifc : iface_t) : iface_t :=
  if negb (last =? 0) && (pt_min_tick cfg <? u64 (cur - last))
  then set_pt_end cur (set_pt_start last ifc) else ifc.

(** [true] when the endpoint is freed. *)
Definition uct_ud_ep_free_by_timeout (cfg : config) (ep : uct_ud_ep_t) (wheel_time : Z) : bool :=
  linger_timeout cfg <? u64 (wheel_time - close_time ep).

(** The end of [uct_ud_ep_timer]; [t1] and [t2] are the times that it reads. *)
Definition timer_out (cfg : config) (cur t1 t2 : Z) (ifc : iface_t) : iface_t :=
  uct_ud_ep_check_pending cfg t2 cur (set_pt_last t1 ifc).

(** [wheel_time] is the time of the timer wheel, [times] the results of
    [ucs_get_time].  The timer is not active when its callback is called. *)
Definition uct_ud_ep_timer (cfg : config) (wheel_time : Z) (t0 t1 t2 t3 : Z) (st : state) : option state :=
  let '(ep, ifc) := st in
  let ifc := uct_ud_ep_check_pending cfg t0 (pt_last ifc) (set_timer_active false ifc) in
  let cur := t0 in
  let out st := Some (st.1, timer_out cfg cur t2 t3 st.2) in
  let timer_backoff st := out (uct_ud_ep_timer_backoff cfg st) in
  if uct_ud_ep_is_last_ack_received ep then
    if has (flags ep) UCT_UD_EP_FLAG_DISCONNECTED then
      if uct_ud_ep_free_by_timeout cfg ep wheel_time then out (ep, set_ep_freed true ifc)
      else timer_backoff (ep, ifc)
    else out (ep, ifc)
  else if bool_decide (window (tx ep) = []) then None
  else if uct_ud_ep_ctl_op_check ep (Z.lor UCT_UD_EP_OP_ACK_REQ UCT_UD_EP_OP_RESEND) || (0 <? resend_count (tx ep))
  then timer_backoff (ep, ifc)
  else
    let last_send := Z.max (send_time (tx ep)) (resend_time (tx ep)) in
    let diff := u64 (wheel_time - last_send) in
    ep ← (if iface_tick cfg <? diff then
            let ep := if 3 * iface_tick cfg <? diff then uct_ud_ep_resend_start (uct_ud_ep_ca_drop ep) else ep in
            connected ← uct_ud_ep_is_connected ep;
            Some (if connected : bool then uct_ud_ep_ctl_op_add UCT_UD_EP_OP_ACK_REQ ep else ep)
          else Some ep);
    let diff := u64 (wheel_time - send_time (tx ep)) in
    if peer_timeout cfg <? diff then
      let ifc := uct_ud_ep_check_pending cfg t1 cur ifc in
      if bool_decide (uct_ud_ep_remove_pending_time (ep, ifc) = UCS_ERR_ENDPOINT_TIMEOUT)
      then out (uct_ud_ep_handle_timeout (ep, ifc))
      else timer_backoff (ep, ifc)
    else timer_backoff (ep, ifc).

End Ud.
