(* ===== verification/UdEndpoint.v ===== *)
(** The invariant of a UD endpoint that is connected to a peer, and that each
    operation of [Ud] preserves it without a failure.

    Packet numbers are 16 bits wide in the code.  The invariant counts them
    without bound: [n] is the number of the next packet, [a] the last one that
    the peer acknowledged, [h] the last one received from the peer and [ra] the
    last one whose receipt was acknowledged to it.  The circular comparisons of
    the code are right because the congestion window is at most
    [UCT_UD_CA_MAX_WINDOW], and because the memory pool has at most [2 ^ 14] skbs:
    released or not, all the packets that the endpoint still knows are near [n]. *)

From stdpp Require Import gmap sorting.
From S2P Require Import Prelude.
From S2P Require Import Bits.
From S2P Require Import FragList.
From S2P Require Import Ud.

Module UdEndpoint.
Import Ud.

(** ** Numbers of the packets in a window *)

(** The skb that a flush adds to the window is not sent. *)
Definition is_dummy (s : uct_ud_send_skb_t) : bool :=
  (uct_ud_neth_get_dest_id (neth s) =? UCT_UD_EP_NULL_ID) && negb (has (packet_type (neth s)) UCT_UD_PACKET_FLAG_CTL).

Fixpoint numbered (lo : Z) (w : list uct_ud_send_skb_t) : list (Z * uct_ud_send_skb_t) :=
  match w with
  | [] => []
  | s :: w => if is_dummy s then (lo - 1, s) :: numbered lo w else (lo, s) :: numbered (lo + 1) w
  end.

Fixpoint next_number (lo : Z) (w : list uct_ud_send_skb_t) : Z :=
  match w with
  | [] => lo
  | s :: w => next_number (if is_dummy s then lo else lo + 1) w
  end.

Lemma numbered_app lo w1 w2 : numbered lo (w1 ++ w2) = numbered lo w1 ++ numbered (next_number lo w1) w2.
Proof. revert lo. induction w1 as [|s w1 IH]; intros lo; [done|]. simpl. destruct (is_dummy s); by rewrite IH. Qed.

Lemma next_number_app lo w1 w2 : next_number lo (w1 ++ w2) = next_number (next_number lo w1) w2.
Proof. revert lo. induction w1 as [|s w1 IH]; intros lo; [done|]. simpl. apply IH. Qed.

Lemma next_number_bound lo w : lo <= next_number lo w <= lo + Z.of_nat (length w).
Proof.
  revert lo. induction w as [|s w IH]; intros lo; simpl; [lia|]. destruct (is_dummy s).
  - specialize (IH lo). lia.
  - specialize (IH (lo + 1)). lia.
Qed.

Lemma numbered_snd lo w : (numbered lo w).*2 = w.
Proof. revert lo. induction w as [|s w IH]; intros lo; [done|]. simpl. destruct (is_dummy s); simpl; by rewrite IH. Qed.

Lemma numbered_in lo w k s : (k, s) ∈ numbered lo w -> s ∈ w.
Proof. intros H. rewrite <- (numbered_snd lo w). by apply (list_elem_of_fmap_2 snd _ (k, s)). Qed.

Lemma numbered_range lo w k s : (k, s) ∈ numbered lo w -> lo - 1 <= k < next_number lo w /\ (is_dummy s = false -> lo <= k).
Proof.
  revert lo. induction w as [|s' w IH]; intros lo; [by intros ?%not_elem_of_nil|]. simpl.
  destruct (is_dummy s') eqn:Ed; intros [E|H]%elem_of_cons.
  - simplify_eq. pose proof (next_number_bound lo w). split; [lia|congruence].
  - destruct (IH lo H). split; [lia|done].
  - simplify_eq. pose proof (next_number_bound (lo + 1) w). lia.
  - destruct (IH (lo + 1) H) as [H1 H2]. split; [lia|]. intros Hd. specialize (H2 Hd). lia.
Qed.

Lemma numbered_sorted lo w : StronglySorted (fun x y => x.1 <= y.1) (numbered lo w).
Proof.
  revert lo. induction w as [|s w IH]; intros lo; [apply SSorted_nil|]. simpl.
  destruct (is_dummy s); (constructor; [apply IH|]); apply Forall_forall; intros [k s'] H%numbered_range; simpl; lia.
Qed.

(** The flags do not matter for the numbers. *)
Lemma numbered_fmap lo f w : (forall s, neth (f s) = neth s) ->
  numbered lo (f <$> w) = (fun x => (x.1, f x.2)) <$> numbered lo w /\ next_number lo (f <$> w) = next_number lo w.
Proof.
  intros Hf. assert (forall s, is_dummy (f s) = is_dummy s) as Hd by (intros s; unfold is_dummy; by rewrite Hf).
  revert lo. induction w as [|s w IH]; intros lo; [done|]. rewrite fmap_cons. simpl. rewrite Hd.
  destruct (is_dummy s); rewrite fmap_cons; destruct (IH lo) as [H1 H2], (IH (lo + 1)) as [H3 H4]; by rewrite ?H1, ?H2, ?H3, ?H4.
Qed.

(** ** Messages *)

(** What the user of an endpoint sends, and what arrives. *)
Inductive msg := MAm (id : Z) (data : list Z) | MPut (rva : Z) (data : list Z).

Definition decode (p : packet) : option msg :=
  match has (packet_type p) UCT_UD_PACKET_FLAG_AM, p_body p with
  | true, Bytes data => Some (MAm (uct_ud_neth_get_am_id p) data)
  | false, Put rva data => Some (MPut rva data)
  | _, _ => None
  end.

(** The type of a packet that carries a message to the endpoint [dest]. *)
Definition data_type (dest : Z) (p : packet) : Prop :=
  uct_ud_neth_get_dest_id p = dest /\
  (has (packet_type p) UCT_UD_PACKET_FLAG_AM = true \/
   (has (packet_type p) UCT_UD_PACKET_FLAG_PUT = true /\ has (packet_type p) UCT_UD_PACKET_FLAG_NACK = false /\
    has (packet_type p) UCT_UD_PACKET_FLAG_CTL = false)).

(** *** Bits of the packet type *)

Lemma has_bit x i : 0 <= i < 64 -> has x (UCS_BIT i) = Z.testbit x i.
Proof.
  intros Hi. unfold has. rewrite Bits.ucs_bit_pow, Bits.Z_land_bit by lia.
  destruct (Z.testbit x i); [|done]. destruct (Z.eqb_spec (2 ^ i) 0); [lia|done].
Qed.

Lemma testbit_bit i j : 0 <= i < 64 -> 0 <= j -> Z.testbit (UCS_BIT i) j = (i =? j).
Proof. intros Hi Hj. rewrite Bits.ucs_bit_pow by lia. apply Z.pow2_bits_eqb. lia. Qed.

(** The type of a message: an identifier, a destination, and one kind of flag;
    [e] is the bit that requests an acknowledgement. *)
Definition message_type (id dest kind : Z) (e : bool) : Z :=
  Z.lor (Z.lor (Z.lor (Z.shiftl id UCT_UD_PACKET_AM_ID_SHIFT) dest) (UCS_BIT kind))
        (Z.shiftl (Z.b2z e) UCT_UD_PACKET_ACK_REQ_SHIFT).

Lemma message_type_bit id dest kind e j : 0 <= id -> 0 <= dest < 2 ^ 24 -> 24 <= kind < 64 -> 0 <= j ->
  Z.testbit (message_type id dest kind e) j =
  ((27 <=? j) && Z.testbit id (j - 27)) || ((j <? 24) && Z.testbit dest j) || (kind =? j) || (e && (j =? 25)).
Proof.
  intros Hid Hd Hk Hj. unfold message_type, UCT_UD_PACKET_AM_ID_SHIFT, UCT_UD_PACKET_ACK_REQ_SHIFT.
  rewrite !Z.lor_spec, !Z.shiftl_spec, testbit_bit by lia. f_equal; [f_equal; f_equal|].
  - destruct (Z.leb_spec 27 j); [done|]. simpl. apply Z.testbit_neg_r. lia.
  - destruct (Z.ltb_spec j 24); [done|]. simpl. apply (Z_bits_above 24); lia.
  - destruct e; simpl; [|by rewrite Z.testbit_0_l].
    destruct (Z.eqb_spec j 25) as [->|]; [done|]. destruct (Z.ltb_spec j 25); [apply Z.testbit_neg_r; lia|].
    apply (Z_bits_above 1); lia.
Qed.

Lemma message_type_dest id dest kind e ps a b : 0 <= id -> 0 <= dest < 2 ^ 24 -> 24 <= kind < 64 ->
  uct_ud_neth_get_dest_id (Packet (message_type id dest kind e) ps a b) = dest.
Proof.
  intros Hid Hd Hk. unfold uct_ud_neth_get_dest_id, UCT_UD_PACKET_DEST_ID_MASK, UCT_UD_PACKET_DEST_ID_SHIFT.
  rewrite Bits.ucs_mask_ones by lia. apply Z.bits_inj'. intros j Hj. simpl.
  rewrite Z.land_spec, message_type_bit, Z.testbit_ones_nonneg by lia.
  destruct (Z.ltb_spec j 24).
  - rewrite (proj2 (Z.leb_gt 27 j)), (proj2 (Z.eqb_neq kind j)), (proj2 (Z.eqb_neq j 25)) by lia.
    simpl. by rewrite andb_false_r, !orb_false_r, andb_true_r.
  - rewrite andb_false_r. symmetry. apply (Z_bits_above 24); lia.
Qed.

Lemma message_type_am_id id dest kind e ps a b : 0 <= id < 32 -> 0 <= dest < 2 ^ 24 -> 24 <= kind < 27 ->
  uct_ud_neth_get_am_id (Packet (message_type id dest kind e) ps a b) = id.
Proof.
  intros Hid Hd Hk. unfold uct_ud_neth_get_am_id, u_wrap. simpl. apply Z.bits_inj'. intros j Hj.
  destruct (Z.ltb_spec j 8).
  - rewrite Z.mod_pow2_bits_low by lia. unfold UCT_UD_PACKET_AM_ID_SHIFT. rewrite Z.shiftr_spec, message_type_bit by lia.
    rewrite (proj2 (Z.leb_le _ _)), (proj2 (Z.ltb_ge _ _)), (proj2 (Z.eqb_neq kind _)), (proj2 (Z.eqb_neq _ 25)) by lia.
    simpl. rewrite andb_false_r, !orb_false_r. f_equal. lia.
  - rewrite Z.mod_pow2_bits_high by lia. symmetry. apply (Z_bits_above 5); lia.
Qed.

Lemma message_type_has id dest kind e i ps a b : 0 <= id -> 0 <= dest < 2 ^ 24 -> 24 <= kind < 64 -> 24 <= i < 64 ->
  has (packet_type (Packet (message_type id dest kind e) ps a b)) (UCS_BIT i) =
  ((27 <=? i) && Z.testbit id (i - 27)) || (kind =? i) || (e && (i =? 25)).
Proof.
  intros. simpl. rewrite has_bit, message_type_bit by lia.
  rewrite (proj2 (Z.ltb_ge i 24)) by lia. simpl. by rewrite orb_false_r.
Qed.

Lemma message_am id dest e ps a data : 0 <= id < 32 -> 0 <= dest < 2 ^ 24 ->
  let p := Packet (message_type id dest 24 e) ps a (Bytes data) in data_type dest p /\ decode p = Some (MAm id data).
Proof.
  intros Hid Hd p.
  assert (has (packet_type p) UCT_UD_PACKET_FLAG_AM = true) as Ham.
  { unfold UCT_UD_PACKET_FLAG_AM, p. rewrite message_type_has by lia. by rewrite orb_true_r. }
  split; [split; [apply message_type_dest; lia|by left]|].
  unfold decode. rewrite Ham. simpl. unfold p. by rewrite message_type_am_id by lia.
Qed.

Lemma message_put dest e ps a rva data : 0 <= dest < 2 ^ 24 ->
  let p := Packet (message_type 0 dest 28 e) ps a (Put rva data) in data_type dest p /\ decode p = Some (MPut rva data).
Proof.
  intros Hd p. unfold data_type, decode. unfold UCT_UD_PACKET_FLAG_AM, UCT_UD_PACKET_FLAG_PUT, UCT_UD_PACKET_FLAG_NACK,
    UCT_UD_PACKET_FLAG_CTL, p. rewrite message_type_dest, !message_type_has by lia.
  split; [|by destruct e]. split; [done|]. right. by destruct e.
Qed.

(** The bit that requests an acknowledgement does not change the message. *)
Definition same_message (t t' : Z) : Prop := forall j, 0 <= j -> j <> 25 -> Z.testbit t' j = Z.testbit t j.

Lemma same_message_set t : same_message t (Z.lor t UCT_UD_PACKET_FLAG_ACK_REQ).
Proof.
  intros j Hj Hne. unfold UCT_UD_PACKET_FLAG_ACK_REQ. rewrite Z.lor_spec, testbit_bit by lia.
  rewrite (proj2 (Z.eqb_neq 25 j)) by lia. by rewrite orb_false_r.
Qed.

Lemma same_message_clear t : same_message t (Z.ldiff t UCT_UD_PACKET_FLAG_ACK_REQ).
Proof.
  intros j Hj Hne. unfold UCT_UD_PACKET_FLAG_ACK_REQ. rewrite Z.ldiff_spec, testbit_bit by lia.
  rewrite (proj2 (Z.eqb_neq 25 j)) by lia. by rewrite andb_true_r.
Qed.

Lemma same_message_ok p p' : same_message (packet_type p) (packet_type p') -> p_body p' = p_body p ->
  uct_ud_neth_get_dest_id p' = uct_ud_neth_get_dest_id p /\ decode p' = decode p /\
  (forall dest, data_type dest p -> data_type dest p').
Proof.
  intros H Hb.
  assert (uct_ud_neth_get_dest_id p' = uct_ud_neth_get_dest_id p) as Hd.
  { unfold uct_ud_neth_get_dest_id, UCT_UD_PACKET_DEST_ID_MASK, UCT_UD_PACKET_DEST_ID_SHIFT.
    rewrite Bits.ucs_mask_ones by lia. apply Z.bits_inj'. intros j Hj.
    rewrite !Z.land_spec, Z.testbit_ones_nonneg by lia. destruct (Z.ltb_spec j 24); [|by rewrite !andb_false_r].
    by rewrite H by lia. }
  assert (uct_ud_neth_get_am_id p' = uct_ud_neth_get_am_id p) as Hid.
  { unfold uct_ud_neth_get_am_id, u_wrap, UCT_UD_PACKET_AM_ID_SHIFT. apply Z.bits_inj'. intros j Hj.
    destruct (Z.ltb_spec j 8); [|by rewrite !Z.mod_pow2_bits_high by lia].
    rewrite !Z.mod_pow2_bits_low by lia. rewrite !Z.shiftr_spec by lia. by rewrite H by lia. }
  assert (forall i, 26 <= i < 64 \/ i = 24 -> has (packet_type p') (UCS_BIT i) = has (packet_type p) (UCS_BIT i)) as Hh.
  { intros i Hi. rewrite !has_bit by lia. by rewrite H by lia. }
  unfold decode, data_type, UCT_UD_PACKET_FLAG_AM, UCT_UD_PACKET_FLAG_PUT, UCT_UD_PACKET_FLAG_NACK, UCT_UD_PACKET_FLAG_CTL.
  rewrite Hd, Hid, !Hh, Hb by lia. done.
Qed.

(** ** Invariant of an endpoint *)

Definition half : Z := 2 ^ 15.

Lemma psn_diff_ok a b : - half <= a - b < half -> psn_diff (u16 a) (u16 b) = a - b.
Proof. apply FragList.sn_diff_00. Qed.

(** Control operations of an endpoint that is connected. *)
Definition ops_ok (o : Z) : Prop := forall i, 0 <= i -> Z.testbit o i = true -> i = 0 \/ i = 1 \/ i = 2 \/ i = 5.

(** The real skb with number [k] carries message [k]. *)
Record skb_ok (dest : Z) (sent : list msg) (comps : list (Z * Z)) (k : Z) (s : uct_ud_send_skb_t) : Prop := SkbOk {
  so_psn : p_psn (neth s) = u16 k;
  so_data : is_dummy s = false -> data_type dest (neth s) /\ decode (neth s) = sent !! Z.to_nat (k - 1);
  so_comp : forall c, comp s = Some c -> (c, k) ∈ comps
}.

(** The skbs that are being resent have numbers up to [b]. *)
Definition resending_upto (b : Z) (nw : list (Z * uct_ud_send_skb_t)) : Prop :=
  forall k s, (k, s) ∈ nw -> resending s = true -> k <= b.

(** The resend position of a round: the begin of the window, or an element of
    it that is acknowledged or was resent last. *)
Definition pos_ok (a rp rm : Z) (nw : list (Z * uct_ud_send_skb_t)) (it : iter) : Prop :=
  (it = IterBegin /\ rp = a + 1 /\ resending_upto a nw) \/
  (exists k s, it = IterAfter (skb_id s) /\ (k, s) ∈ nw /\ ((k <= a /\ rp <= a + 1) \/ (k = rp /\ rp < rm))).

(** A round of resends is over, or it is at a position of the window.  In both
    cases the position may be an element of the window: then only packets before
    it are being resent. *)
Definition resend_ok (n a : Z) (nw : list (Z * uct_ud_send_skb_t)) (r : resend_t) (o : Z) : Prop :=
  exists rp rm, resend_psn r = u16 rp /\ resend_max_psn r = u16 rm /\
    ((rm < rp <= rm + 2 ^ 14 + 3 /\ Z.testbit o 2 = false) \/
     (a < rm < n /\ a - 2 ^ 14 - 2 <= rp <= rm /\ pos_ok a rp rm nw (pos r))) /\
    (forall k s, (k, s) ∈ nw -> pos r = IterAfter (skb_id s) -> k <= rm < n /\ resending_upto (Z.max a k) nw).

Definition resent (ifc : iface_t) : list Z := omap resent_skb (outstanding_q ifc).

Record window_ok (n a lo dest : Z) (sent : list msg) (comps : list (Z * Z)) (w : list uct_ud_send_skb_t) : Prop := WindowOk {
  wo_lo : 1 <= lo <= a + 1;
  wo_next : next_number lo w = n;
  wo_len : Z.of_nat (length w) <= 2 ^ 14;
  wo_skbs : forall k s, (k, s) ∈ numbered lo w -> skb_ok dest sent comps k s;
  wo_nodup : NoDup (skb_id <$> w)
}.

(** [dest] is the identifier of the peer; [n], [a], [h] and [ra] are the numbers
    of the next packet, the last one acknowledged by the peer, the last one
    received and the last one whose receipt was acknowledged. *)
Record ep_inv (cfg : config) (self dest n a h ra : Z) (sent : list msg) (comps : list (Z * Z)) (st : state) : Prop := EpInv {
  ei_ids : ep_id st.1 = self /\ dest_ep_id st.1 = dest /\ dest <> UCT_UD_EP_NULL_ID /\ 0 <= dest < 2 ^ 24;
  ei_flags : has (flags st.1) UCT_UD_EP_FLAG_CONNECTED = true /\ has (flags st.1) UCT_UD_EP_FLAG_DISCONNECTED = false;
  ei_psn : psn (tx st.1) = u16 n;
  ei_acked : acked_psn (tx st.1) = u16 a;
  ei_window_size : 0 <= a < n /\ n <= a + 1 + wmax (ca st.1);
  ei_ca : 2 <= cwnd (ca st.1) <= wmax (ca st.1) /\ wmax (ca st.1) <= UCT_UD_CA_MAX_WINDOW;
  ei_max : exists mx, max_psn (tx st.1) = u16 mx /\ a + 1 <= mx <= a + 1 + wmax (ca st.1);
  ei_ops : ops_ok (ops (tx st.1));
  ei_win : exists lo, window_ok n a lo dest sent comps (window (tx st.1)) /\
    resend_ok n a (numbered lo (window (tx st.1))) (resend st.1) (ops (tx st.1));
  ei_sent : Z.of_nat (length sent) = n - 1;
  ei_next : (forall s, s ∈ window (tx st.1) -> skb_id s < next_skb st.2) /\
    (forall id, pos (resend st.1) = IterAfter id -> id < next_skb st.2);
  ei_resent : NoDup (resent st.2) /\
    (forall id, id ∈ resent st.2 <-> exists s, s ∈ window (tx st.1) /\ skb_id s = id /\ resending s = true) /\
    resend_count (tx st.1) = u16 (Z.of_nat (length (resent st.2)));
  ei_rx : ooo_pkts (rx st.1) = FragList.ucs_frag_list_init (u16 h) 0 /\ 0 <= h;
  ei_ra : rx_acked_psn (rx st.1) = u16 ra /\ 0 <= ra <= h;
  ei_comps : forall c status, (c, status) ∈ comp_log st.2 ++ async_comp_q st.2 ->
    status = UCS_OK /\ exists k, (c, k) ∈ comps /\ k <= a
}.

(** *** Control operations *)

Lemma ops_ok_add o b : ops_ok o -> ops_ok b -> ops_ok (Z.lor o b).
Proof. intros H1 H2 i Hi. rewrite Z.lor_spec. intros [H|H]%orb_true_iff; auto. Qed.

Lemma ops_ok_del o b : ops_ok o -> ops_ok (Z.ldiff o b).
Proof. intros H1 i Hi. rewrite Z.ldiff_spec. intros [H _]%andb_true_iff. auto. Qed.

Lemma ops_ok_bit i : i = 0 \/ i = 1 \/ i = 2 \/ i = 5 -> ops_ok (UCS_BIT i).
Proof. intros H j Hj. rewrite testbit_bit by lia. intros ->%Z.eqb_eq. done. Qed.

Lemma has_lor x b c : has x (Z.lor b c) = has x b || has x c.
Proof.
  unfold has. rewrite Z.land_lor_distr_r.
  destruct (Z.eqb_spec (Z.land x b) 0) as [->|H1]; simpl; [by rewrite Z.lor_0_l|].
  destruct (Z.eqb_spec (Z.lor (Z.land x b) (Z.land x c)) 0) as [[H _]%Z.lor_eq_0_iff|]; done.
Qed.

Create HintDb ud.
#[export] Hint Resolve ops_ok_add ops_ok_del : ud.
#[export] Hint Extern 1 (ops_ok _) => (apply ops_ok_bit; lia) : ud.

Section Endpoint.
Context (cfg : config) (self dest : Z).
Hypothesis Hmp : tx_mp_max cfg <= 2 ^ 14.

Notation inv := (ep_inv cfg self dest).

(** The fields that control operations leave alone. *)
Definition same_core (st st' : state) : Prop :=
  ep_id st'.1 = ep_id st.1 /\ dest_ep_id st'.1 = dest_ep_id st.1 /\ psn (tx st'.1) = psn (tx st.1) /\
  acked_psn (tx st'.1) = acked_psn (tx st.1) /\ ca st'.1 = ca st.1 /\ max_psn (tx st'.1) = max_psn (tx st.1) /\
  window (tx st'.1) = window (tx st.1) /\ resend st'.1 = resend st.1 /\ rx st'.1 = rx st.1 /\
  next_skb st'.2 = next_skb st.2 /\ resent st'.2 = resent st.2 /\ resend_count (tx st'.1) = resend_count (tx st.1) /\
  comp_log st'.2 = comp_log st.2 /\ async_comp_q st'.2 = async_comp_q st.2.

Lemma inv_ctl n a h ra sent comps st st' : inv n a h ra sent comps st -> same_core st st' ->
  has (flags st'.1) UCT_UD_EP_FLAG_CONNECTED = true -> has (flags st'.1) UCT_UD_EP_FLAG_DISCONNECTED = false ->
  ops_ok (ops (tx st'.1)) -> (Z.testbit (ops (tx st'.1)) 2 = true -> Z.testbit (ops (tx st.1)) 2 = true) ->
  inv n a h ra sent comps st'.
Proof.
  intros [H1 H2 H3 H4 H5 H6 H7 H8 H9 H10 H11 H12 H13 H14 H15] (E1 & E2 & E3 & E4 & E5 & E6 & E7 & E8 & E9 & E10 & E11 & E12 & E13 & E14) F1 F2 O1 O2.
  constructor; rewrite ?E1, ?E2, ?E3, ?E4, ?E5, ?E6, ?E7, ?E8, ?E9, ?E10, ?E11, ?E12, ?E13, ?E14; try done.
  destruct H9 as (lo & W1 & rp & rm & R1 & R2 & R3 & R4). exists lo. split; [done|].
  exists rp, rm. split_and!; [done|done| |done]. destruct R3 as [[R3 R5]|R3]; [left|by right].
  split; [done|]. destruct (Z.testbit (ops (tx st'.1)) 2); [|done]. by rewrite O2 in R5.
Qed.

Lemma flags_lor f g i : 0 <= i < 64 -> has f (UCS_BIT i) = true -> has (Z.lor f g) (UCS_BIT i) = true.
Proof. intros Hi. rewrite !has_bit, Z.lor_spec by done. by intros ->. Qed.

(** *** Window *)

Lemma window_tail n a lo sent comps s w : window_ok n a lo dest sent comps (s :: w) ->
  (if is_dummy s then lo - 1 else lo) <= a ->
  window_ok n a (if is_dummy s then lo else lo + 1) dest sent comps w.
Proof.
  intros [H1 H2 H3 H4 H5] Hle. simpl in *. destruct (is_dummy s); simpl in *.
  - constructor; [lia|done|lia| |by inversion H5]. intros k s' Hk. apply H4. by right.
  - constructor; [lia|done|lia| |by inversion H5]. intros k s' Hk. apply H4. by right.
Qed.

Lemma head_number lo s w : numbered lo (s :: w) =
  (if is_dummy s then lo - 1 else lo, s) :: numbered (if is_dummy s then lo else lo + 1) w.
Proof. simpl. by destruct (is_dummy s). Qed.

Lemma window_compare n a lo sent comps w k s : window_ok n a lo dest sent comps w -> a < n -> n <= a + 2000 ->
  (k, s) ∈ numbered lo w -> p_psn (neth s) = u16 k /\ - half <= k - a < half /\ n - 2 ^ 14 - 1 <= k < n.
Proof.
  intros H Ha Hn Hk. destruct (numbered_range _ _ _ _ Hk) as [Hr _]. pose proof (next_number_bound lo w).
  rewrite (wo_next _ _ _ _ _ _ _ H) in *. pose proof (wo_len _ _ _ _ _ _ _ H). pose proof (wo_lo _ _ _ _ _ _ _ H).
  split; [apply (wo_skbs _ _ _ _ _ _ _ H k s Hk)|]. unfold half. lia.
Qed.

(** What the release of the window does to the resend position. *)
Definition released_pos (invalidate : bool) (a : Z) (pre : list uct_ud_send_skb_t) (r r' : resend_t) : Prop :=
  resend_max_psn r' = resend_max_psn r /\
  ((pos r' = pos r /\ resend_psn r' = resend_psn r /\
    (invalidate = true -> forall s, s ∈ pre -> pos r <> IterAfter (skb_id s))) \/
   (invalidate = true /\ pos r' = IterBegin /\ resend_psn r' = u16 (a + 1) /\ exists s, s ∈ pre /\ pos r = IterAfter (skb_id s))).

Lemma released_pos_cons invalidate a s pre r r1 r' :
  released_pos invalidate a [s] r r1 -> released_pos invalidate a pre r1 r' -> released_pos invalidate a (s :: pre) r r'.
Proof.
  intros [E1 H1] [E2 H2]. split; [congruence|].
  destruct H2 as [(P2 & Q2 & N2)|(I2 & P2 & Q2 & s2 & S2 & T2)].
  2:{ right. split_and!; try done. exists s2. split; [by right|].
      destruct H1 as [(P1 & _ & _)|(_ & P1 & _)]; congruence. }
  destruct H1 as [(P1 & Q1 & N1)|(I1 & P1 & Q1 & s1 & S1 & T1)]; [left|right].
  2:{ split_and!; try congruence. apply list_elem_of_singleton in S1 as ->. exists s. split; [by left|done]. }
  split_and!; [congruence|congruence|]. intros Hi s' [->|Hs']%elem_of_cons.
  - apply N1; [done|by left].
  - rewrite <- P1. by apply N2.
Qed.

(** The state after a release: [r'] is the resend state, [cl] and [aq] the
    completions. *)
Definition released (st : state) (w' : list uct_ud_send_skb_t) (r' : resend_t) (cl aq : list (Z * ucs_status_t)) : state :=
  (set_resend r' (upd_tx (set_window w') st.1), set_comp_log cl (set_async_comp_q aq st.2)).

Definition comps_ok (a : Z) (comps : list (Z * Z)) (l : list (Z * ucs_status_t)) : Prop :=
  forall c status, (c, status) ∈ l -> status = UCS_OK /\ exists k, (c, k) ∈ comps /\ k <= a.

Definition release_post (n a : Z) (invalidate : bool) (lo : Z) (sent : list msg) (comps : list (Z * Z))
    (w : list uct_ud_send_skb_t) (st st' : state) : Prop :=
  exists pre w' lo' r' cl aq, st' = released st w' r' cl aq /\
    w = pre ++ w' /\ numbered lo w = numbered lo pre ++ numbered lo' w' /\
    window_ok n a lo' dest sent comps w' /\
    (forall k s, (k, s) ∈ numbered lo pre -> k <= a /\ resending s = false) /\
    released_pos invalidate a pre (resend st.1) r' /\ comps_ok a comps (cl ++ aq).

Lemma release_stop n a invalidate lo sent comps w st : window (tx st.1) = w -> window_ok n a lo dest sent comps w ->
  comps_ok a comps (comp_log st.2 ++ async_comp_q st.2) ->
  release_post n a invalidate lo sent comps w st st.
Proof.
  intros Hw Hok Hc. exists [], w, lo, (resend st.1), (comp_log st.2), (async_comp_q st.2). split_and!; try done.
  - unfold released, upd_tx. rewrite <- Hw. by destruct st as [[? ? [] ? ? ? ? ? ? ?] []].
  - by intros k s ?%not_elem_of_nil.
  - split; [done|]. left. split_and!; try done. by intros _ s ?%not_elem_of_nil.
Qed.

(** One skb is released. *)
Lemma release_one n a lo sent comps s w st status is_async invalidate : window_ok n a lo dest sent comps (s :: w) ->
  (if is_dummy s then lo - 1 else lo) <= a -> acked_psn (tx st.1) = u16 a -> status = UCS_OK ->
  comps_ok a comps (comp_log st.2 ++ async_comp_q st.2) ->
  exists r1 cl aq,
    (let '(ep, ifc) := st in
     let ep := upd_tx (set_window w) ep in
     let ep := if invalidate && bool_decide (pos (resend ep) = IterAfter (skb_id s))
               then set_resend (Resend iter_begin (u16 (acked_psn (tx ep) + 1)) (resend_max_psn (resend ep))) ep
               else ep in
     let ifc := match comp s with
                | None => ifc
                | Some c => if is_async : bool then set_async_comp_q (async_comp_q ifc ++ [(c, status)]) ifc
                            else set_comp_log (comp_log ifc ++ [(c, status)]) ifc
                end in
     (ep, ifc)) = released st w r1 cl aq /\
    released_pos invalidate a [s] (resend st.1) r1 /\ comps_ok a comps (cl ++ aq).
Proof.
  intros Hok Hle Ha -> Hc. destruct st as [ep ifc]. simpl in *.
  assert (forall c, comp s = Some c -> comps_ok a comps [(c, UCS_OK)]) as Hnew.
  { intros c Hcs c' st' E%list_elem_of_singleton. simplify_eq. split; [done|].
    exists (if is_dummy s then lo - 1 else lo). split; [|done].
    apply (so_comp _ _ _ _ _ (wo_skbs _ _ _ _ _ _ _ Hok _ s ltac:(rewrite head_number; by left)) c Hcs). }
  assert (exists cl aq, match comp s with
                | None => ifc
                | Some c => if is_async : bool then set_async_comp_q (async_comp_q ifc ++ [(c, UCS_OK)]) ifc
                            else set_comp_log (comp_log ifc ++ [(c, UCS_OK)]) ifc
                end = set_comp_log cl (set_async_comp_q aq ifc) /\ comps_ok a comps (cl ++ aq)) as (cl & aq & Ei & Hcl).
  { destruct (comp s) as [c|]; [|exists (comp_log ifc), (async_comp_q ifc); split; [by destruct ifc|done]].
    specialize (Hnew c eq_refl). destruct is_async.
    - exists (comp_log ifc), (async_comp_q ifc ++ [(c, UCS_OK)]). split; [by destruct ifc|].
      intros c' st'. rewrite app_assoc. intros [?|?]%elem_of_app; [by apply Hc|by apply Hnew].
    - exists (comp_log ifc ++ [(c, UCS_OK)]), (async_comp_q ifc). split; [by destruct ifc|].
      intros c' st'. rewrite !elem_of_app. intros [[?|?]|?]; [apply Hc|by apply Hnew|apply Hc]; set_solver. }
  rewrite Ei. case_bool_decide as Hpos; destruct invalidate; cbn [andb].
  2:{ exists (resend ep), cl, aq. split_and!; [by destruct ep|split; [done|]; left; by split_and!|done]. }
  2:{ exists (resend ep), cl, aq. split_and!; [by destruct ep|split; [done|]; left|done]. split_and!; [done|done|].
      by intros _ s' ->%list_elem_of_singleton. }
  2:{ exists (resend ep), cl, aq. split_and!; [by destruct ep|split; [done|]; left; by split_and!|done]. }
  eexists _, cl, aq. split_and!; [done| |done]. split; [done|]. right. rewrite Ha. split_and!; try done.
  - simpl. unfold u_wrap. rewrite Zplus_mod_idemp_l. done.
  - exists s. split; [by left|done].
Qed.

Lemma release_loop_ok n a is_async invalidate w : forall lo sent comps (st : state),
  window (tx st.1) = w -> acked_psn (tx st.1) = u16 a -> a < n -> n <= a + 2000 -> window_ok n a lo dest sent comps w ->
  comps_ok a comps (comp_log st.2 ++ async_comp_q st.2) ->
  release_post n a invalidate lo sent comps w st (window_release_loop w st (u16 a) UCS_OK is_async invalidate).
Proof.
  induction w as [|s w IH]; intros lo sent comps st Hw Ha Han Hn Hok Hc; [by apply release_stop|].
  pose proof (head_number lo s w) as Hnum. set (k := if is_dummy s then lo - 1 else lo) in *.
  set (lo1 := if is_dummy s then lo else lo + 1) in *.
  assert ((k, s) ∈ numbered lo (s :: w)) as Hin by (rewrite Hnum; by left).
  destruct (window_compare _ _ _ _ _ _ _ _ Hok Han Hn Hin) as (Hp & Hr & _).
  cbn [window_release_loop]. unfold uct_ud_skb_is_completed, psn_le.
  rewrite Hp, psn_diff_ok by lia. destruct (Z.leb_spec (k - a) 0) as [Hle|Hgt]; cbn [andb].
  2:{ by apply release_stop. }
  destruct (resending s) eqn:Hrs; cbn [negb]; [by apply release_stop|].
  destruct (release_one n a lo sent comps s w st UCS_OK is_async invalidate Hok) as (r1 & cl & aq & E & Hpos & Hcl); [unfold k in *; lia|done|done|done|].
  destruct st as [ep ifc]. cbn zeta in E |- *. rewrite E.
  destruct (IH lo1 sent comps (released (ep, ifc) w r1 cl aq)) as (pre & w' & lo' & r' & cl' & aq' & E1 & -> & E2 & H1 & H3 & H4 & H5); try done.
  { apply window_tail; [done|unfold k in *; lia]. }
  exists (s :: pre), w', lo', r', cl', aq'. split_and!; try done.
  - rewrite Hnum, E2, (head_number lo s pre). done.
  - intros k' s'. rewrite (head_number lo s pre). intros [?|?]%elem_of_cons; [|by apply H3]. simplify_eq. split; [lia|done].
  - by eapply released_pos_cons.
Qed.

(** *** Acknowledgements *)

Lemma u16_succ x : u16 (u16 x + 1) = u16 (x + 1).
Proof. apply u_wrap_add_l. Qed.

Lemma psn_diff_succ x : psn_diff (u16 (x + 1)) (u16 x) = 1.
Proof. rewrite psn_diff_ok; unfold half; lia. Qed.

Lemma resending_upto_mono b b' nw nw' : resending_upto b nw -> b <= b' -> (forall x, x ∈ nw' -> x ∈ nw) ->
  resending_upto b' nw'.
Proof. intros H Hb Hs k s Hk Hr. specialize (H k s (Hs _ Hk) Hr). lia. Qed.

(** Before the begin of a round is set again, only acknowledged packets are
    being resent. *)
Lemma pos_ok_upto a rp rm n j nw r : pos_ok a rp rm nw (pos r) -> a <= j -> rp <= j ->
  (forall k s, (k, s) ∈ nw -> pos r = IterAfter (skb_id s) -> k <= rm < n /\ resending_upto (Z.max a k) nw) ->
  resending_upto j nw.
Proof.
  intros [(_ & _ & H)|(k & s & Ep & Hk & Hc)] Hj Hrp Hv; [by eapply resending_upto_mono|].
  destruct (Hv k s Hk Ep) as [_ Hu]. eapply resending_upto_mono; [done|lia|done].
Qed.

(** The resend state after an acknowledgement of [j]: [pre] is what was released. *)
Lemma resend_ack_ok n a j pre nw r o ep : resend_ok n a (pre ++ nw) r o -> a < j < n -> n <= a + 2000 ->
  (forall k s, (k, s) ∈ pre -> k <= j) -> acked_psn (tx ep) = u16 j -> resend ep = r -> ops (tx ep) = o -> ops_ok o ->
  exists r' o' f', uct_ud_ep_resend_ack ep = set_flags f' (set_resend r' (upd_tx (set_ops o') ep)) /\
    resend_ok n j nw r' o' /\ ops_ok o' /\ (f' = flags ep \/ f' = Z.ldiff (flags ep) UCT_UD_EP_FLAG_TX_NACKED) /\
    (pos r' = pos r \/ pos r' = IterBegin).
Proof.
  intros (rp & rm & E1 & E2 & H & Hv) Hj Hn Hpre Ha Hr Hops Hok. unfold uct_ud_ep_resend_ack, psn_gt, psn_lt, psn_le.
  assert (forall x, x ∈ nw -> x ∈ pre ++ nw) as Hsub by (intros x Hx; apply elem_of_app; by right).
  assert (forall k s, (k, s) ∈ nw -> pos r = IterAfter (skb_id s) -> k <= rm < n /\ resending_upto (Z.max j k) nw) as Hv'.
  { intros k s Hk Ep. destruct (Hv k s (Hsub _ Hk) Ep) as [? Hu]. split; [done|]. eapply resending_upto_mono; [done|lia|done]. }
  rewrite Hr, Ha, E1, E2. destruct H as [[Hrp Hbit]|(Hrm & Hrp & Hpos)].
  { rewrite psn_diff_ok by (unfold half; lia). rewrite (proj2 (Z.ltb_lt 0 (rp - rm))) by lia.
    exists r, o, (flags ep). split_and!; try done.
    - subst r o. unfold upd_tx. by destruct ep as [? ? [] ? ? ? ? ? ? ?].
    - exists rp, rm. split_and!; try done. by left.
    - by left.
    - by left. }
  rewrite !psn_diff_ok by (unfold half; lia). rewrite (proj2 (Z.ltb_ge 0 (rp - rm))) by lia.
  destruct (Z.ltb_spec (j - rm) 0) as [Hlt|Hge].
  - destruct (Z.leb_spec (rp - j) 0) as [Hle|Hgt].
    + eexists _, _, (flags ep). split; [by destruct ep|]. split_and!; [|subst; auto with ud|by left|by auto].
      exists (j + 1), rm. rewrite u16_succ. split_and!; try done. right. split_and!; [lia|lia|lia|lia|]. left. split_and!; try done.
      eapply resending_upto_mono; [eapply (pos_ok_upto a rp rm n j); [done|lia|lia|done]|lia|done].
    + eexists r, _, (flags ep). split; [subst r; by destruct ep|]. split_and!; [|subst; auto with ud|by left|by auto].
      exists rp, rm. split_and!; try done. right. split_and!; [lia|lia|lia|lia|].
      destruct Hpos as [(_ & -> & _)|(k & x & Ep & Hin & Hk)]; [lia|]. right. exists k, x. split_and!; [done| |lia].
      apply elem_of_app in Hin as [Hin|Hin]; [|done]. specialize (Hpre k x Hin). lia.
  - eexists _, _, _. split; [by destruct ep|]. split_and!; [|subst; auto with ud|by right|by left].
    exists (rm + 1), rm. rewrite u16_succ. split_and!; try done. left. split; [lia|].
    rewrite Z.ldiff_spec. unfold UCT_UD_EP_OP_RESEND. rewrite testbit_bit by lia. simpl. by rewrite andb_false_r.
Qed.

(** Releasing skbs that are not being resent keeps the resent ones. *)
Lemma resent_release (pre w : list uct_ud_send_skb_t) (R : list Z) : (forall s, s ∈ pre -> resending s = false) ->
  (forall id, id ∈ R <-> exists s, s ∈ pre ++ w /\ skb_id s = id /\ resending s = true) ->
  forall id, id ∈ R <-> exists s, s ∈ w /\ skb_id s = id /\ resending s = true.
Proof.
  intros Hpre H id. rewrite H. split; intros (s & Hs & Hid & Hr).
  - apply elem_of_app in Hs as [Hs|Hs]; [by rewrite Hpre in Hr|by exists s].
  - exists s. split_and!; [|done|done]. apply elem_of_app. by right.
Qed.

Lemma numbered_elem lo w s : s ∈ w -> exists k, (k, s) ∈ numbered lo w.
Proof.
  intros Hs. rewrite <- (numbered_snd lo w) in Hs. apply list_elem_of_fmap in Hs as ([k s'] & -> & Hk). by exists k.
Qed.

Lemma flags_ldiff_nacked f i : 0 <= i < 64 -> i <> 11 ->
  has (Z.ldiff f UCT_UD_EP_FLAG_TX_NACKED) (UCS_BIT i) = has f (UCS_BIT i).
Proof.
  intros Hi Hne. unfold UCT_UD_EP_FLAG_TX_NACKED. rewrite !has_bit, Z.ldiff_spec, testbit_bit by lia.
  rewrite (proj2 (Z.eqb_neq 11 i)) by lia. by rewrite andb_true_r.
Qed.

Lemma ca_ack_ok ep a : acked_psn (tx ep) = u16 a -> 2 <= cwnd (ca ep) <= wmax (ca ep) -> wmax (ca ep) <= UCT_UD_CA_MAX_WINDOW ->
  exists w mx, uct_ud_ep_ca_ack ep = upd_tx (set_max_psn (u16 mx)) (set_ca (Ca (wmax (ca ep)) w) ep) /\
    2 <= w <= wmax (ca ep) /\ a + 1 <= mx <= a + 1 + wmax (ca ep).
Proof.
  intros Ha Hc Hw. unfold uct_ud_ep_ca_ack, UCT_UD_CA_AI_VALUE, UCT_UD_CA_MAX_WINDOW in *.
  eexists _, (a + _). split; [unfold upd_tx; simpl; rewrite Ha, u_wrap_add_l; done|].
  destruct (Z.ltb_spec (cwnd (ca ep)) (wmax (ca ep))); [rewrite u_wrap_small by lia|]; lia.
Qed.

Lemma process_ack_ok n a h ra sent comps st j is_async now : inv n a h ra sent comps st -> j < n -> a - j < half ->
  exists st' cl aq, uct_ud_ep_process_ack cfg st (u16 j) is_async now = Some st' /\
    inv n (Z.max a j) h ra sent comps st' /\ rx st'.1 = rx st.1 /\
    st'.2 = set_comp_log cl (set_async_comp_q aq st.2).
Proof.
  intros H Hj Hfresh. pose proof H as H'. destruct H' as [H1 H2 H3 H4 [H5 H5'] [H6 H6'] H7 H8 (lo & W & R) H10 H11 (H12 & H12' & H12'') H13 H14 H15].
  destruct st as [ep ifc]. unfold uct_ud_ep_process_ack, psn_le, psn_lt. cbn [fst snd] in *. unfold UCT_UD_CA_MAX_WINDOW in *.
  rewrite H4, psn_diff_ok by (unfold half in *; lia). destruct (Z.leb_spec (j - a) 0) as [Hle|Hgt].
  { exists (ep, ifc), (comp_log ifc), (async_comp_q ifc). rewrite Z.max_l by lia. split_and!; try done. by destruct ifc. }
  rewrite Z.max_r by lia. cbn [upd_tx tx set_tx set_acked_psn acked_psn psn].
  rewrite H3, psn_diff_ok by (unfold half; lia). rewrite (proj2 (Z.ltb_lt (j - n) 0)) by lia. cbn [negb].
  set (ep1 := upd_tx (set_acked_psn (u16 j)) ep).
  assert (window_ok n j lo dest sent comps (window (tx ep1))) as W1.
  { destruct W as [[? ?] ? ? ? ?]. constructor; try done. lia. }
  destruct (release_loop_ok n j is_async false (window (tx ep1)) lo sent comps (ep1, ifc)) as
    (pre & w' & lo' & r' & cl & aq & E & Ew & En & W' & Hpre & Hpos & Hcl); try done || lia.
  { intros c status Hc. destruct (H15 c status Hc) as [? (k & ? & ?)]. split; [done|]. exists k. split; [done|lia]. }
  unfold uct_ud_ep_window_release_inline. cbn [fst]. fold ep1. rewrite E. unfold released. cbn [fst snd].
  set (ep2 := set_resend r' (upd_tx (set_window w') ep1)).
  destruct (ca_ack_ok ep2 j) as (cw & mx & E3 & Hcw & Hmx); [done|done|done|]. rewrite E3.
  set (ep3 := upd_tx (set_max_psn (u16 mx)) (set_ca (Ca (wmax (ca ep2)) cw) ep2)).
  assert (resend_ok n a (numbered lo pre ++ numbered lo' w') r' (ops (tx ep))) as R1.
  { rewrite <- En. destruct Hpos as [Em [(Ep & Eps & _)|[? _]]]; [|done].
    destruct R as (rp & rm & R1 & R2 & R3). exists rp, rm. simpl in Em, Ep, Eps. rewrite Em, Ep, Eps. done. }
  destruct (resend_ack_ok n a j _ _ r' (ops (tx ep)) ep3 R1) as (r2 & o2 & f2 & E4 & R2 & Hops & Hf & Hp); try done || lia.
  { intros k s Hk. by apply Hpre in Hk as [? _]. }
  rewrite E4. eexists _, cl, aq. split; [done|]. split_and!; [|done|done].
  assert (forall i, 0 <= i < 64 -> i <> 11 -> has f2 (UCS_BIT i) = has (flags ep) (UCS_BIT i)) as Hf2.
  { intros i Hi Hne. destruct Hf as [->| ->]; [done|]. by apply flags_ldiff_nacked. }
  constructor; cbn [fst snd]; try done.
  - unfold UCT_UD_EP_FLAG_CONNECTED, UCT_UD_EP_FLAG_DISCONNECTED in *. by rewrite !Hf2 by lia.
  - split; [lia|]. simpl. lia.
  - by exists mx.
  - exists lo'. split; [done|]. exact R2.
  - destruct H11 as [H11 H11']. split.
    + intros s Hs. apply H11. change (s ∈ window (tx ep1)). rewrite Ew. apply elem_of_app. by right.
    + intros i Hi. simpl in Hi. apply H11'. destruct Hp as [Hp|Hp]; [|congruence].
      destruct Hpos as [_ [(Ep & _)|[? _]]]; [|done]. simpl in Ep. congruence.
  - split_and!; try done. change (resent (set_comp_log cl (set_async_comp_q aq ifc))) with (resent ifc).
    change (window (tx _)) with w'. apply (resent_release pre w'); [|by rewrite <- Ew].
    intros s Hs. destruct (numbered_elem lo pre s Hs) as [k Hk]. by apply Hpre in Hk as [_ ?].
Qed.

(** *** Sending *)

Lemma skb_ok_mono sent comps m comps' k s : skb_ok dest sent comps k s -> k <= Z.of_nat (length sent) -> 0 < k ->
  skb_ok dest (sent ++ [m]) (comps ++ comps') k s.
Proof.
  intros [H1 H2 H3] Hk H0. constructor; [done| |].
  - intros Hd. destruct (H2 Hd) as [H4 H5]. split; [done|]. rewrite lookup_app_l by lia. done.
  - intros c Hc. apply elem_of_app. left. by apply H3.
Qed.

Lemma skb_ok_dummy sent sent' comps comps' k s : skb_ok dest sent comps k s -> is_dummy s = true ->
  skb_ok dest sent' (comps ++ comps') k s.
Proof.
  intros [H1 H2 H3] Hd. constructor; [done|congruence|]. intros c Hc. apply elem_of_app. left. by apply H3.
Qed.

Lemma numbered_snoc lo w s : numbered lo (w ++ [s]) =
  numbered lo w ++ [(if is_dummy s then next_number lo w - 1 else next_number lo w, s)].
Proof. rewrite numbered_app. f_equal. simpl. by destruct (is_dummy s). Qed.

Lemma push_real n a lo sent comps comps' w s m : window_ok n a lo dest sent comps w -> Z.of_nat (length sent) = n - 1 ->
  is_dummy s = false -> skb_ok dest (sent ++ [m]) (comps ++ comps') n s -> skb_id s ∉ skb_id <$> w ->
  Z.of_nat (length w) < 2 ^ 14 ->
  window_ok (n + 1) a lo dest (sent ++ [m]) (comps ++ comps') (w ++ [s]).
Proof.
  intros [H1 H2 H3 H4 H5] Hl Hd Hs Hid Hlen. constructor.
  - done.
  - rewrite next_number_app, H2. simpl. by rewrite Hd.
  - rewrite length_app. simpl. lia.
  - intros k s'. rewrite numbered_snoc, H2, Hd. intros [Hk|Hk%list_elem_of_singleton]%elem_of_app; [|by simplify_eq].
    destruct (numbered_range _ _ _ _ Hk) as [Hr Hr']. destruct (is_dummy s') eqn:Hd'; [by eapply skb_ok_dummy; [apply H4|]|].
    apply skb_ok_mono; [by apply H4|lia|]. specialize (Hr' eq_refl). lia.
  - rewrite fmap_app. apply NoDup_app. split_and!; [done| |apply NoDup_singleton].
    intros x Hx Hx2. by apply list_elem_of_singleton in Hx2 as ->.
Qed.

(** An skb is added to the window. *)
Lemma resend_ok_push n n' a nw k0 s0 r o : resend_ok n a nw r o -> n <= n' -> resending s0 = false ->
  pos r <> IterAfter (skb_id s0) -> resend_ok n' a (nw ++ [(k0, s0)]) r o.
Proof.
  intros (rp & rm & E1 & E2 & H & Hv) Hn Hs Hp. exists rp, rm.
  assert (forall b, resending_upto b nw -> resending_upto b (nw ++ [(k0, s0)])) as Hu.
  { intros b Hb k s [Hk|Hk%list_elem_of_singleton]%elem_of_app Hr; [by apply (Hb k s)|]. simplify_eq; congruence. }
  split_and!; [done|done| |].
  - destruct H as [H|(H1 & H2 & H3)]; [by left|right]. split_and!; [lia|lia|lia|lia|].
    destruct H3 as [(H3 & H4 & H5)|(k & s & H3 & H4 & H5)]; [left; split_and!; auto|right]. exists k, s.
    split_and!; [done|apply elem_of_app; by left|done].
  - intros k s [Hk|Hk%list_elem_of_singleton]%elem_of_app Ep; [|by simplify_eq].
    destruct (Hv k s Hk Ep). split; [lia|auto].
Qed.

(** The receiver remembers that it acknowledges all it received. *)
Lemma init_data_ok n a h ra sent comps ep ifc ptype b : inv n a h ra sent comps (ep, ifc) ->
  exists ep', uct_ud_neth_init_data ep ptype b = (Packet ptype (u16 n) (u16 h) b, ep') /\
    inv n a h h sent comps (ep', ifc) /\ ep' = set_rx (Rx (u16 h) (ooo_pkts (rx ep))) ep.
Proof.
  intros [H1 H2 H3 H4 H5 H6 H7 H8 H9 H10 H11 H12 [H13 H13'] [H14 H14'] H15]. cbn [fst snd] in *.
  unfold uct_ud_neth_init_data, FragList.ucs_frag_list_sn. rewrite H13, H3. cbn.
  eexists. split; [done|]. split; [|done]. constructor; cbn [fst snd]; try done.
Qed.

Lemma complete_tx_ok n a h ra sent comps ep ifc now p l c m : inv n a h ra sent comps (ep, ifc) ->
  uct_ud_ep_no_window ep = false -> skbs_in_use (ep, ifc) < tx_mp_max cfg ->
  p_psn p = u16 n -> data_type dest p -> decode p = Some m ->
  inv (n + 1) a h ra (sent ++ [m]) (comps ++ match c with Some c => [(c, n)] | None => [] end)
    (uct_ud_iface_complete_tx_skb cfg now p l c (ep, post p ifc)).
Proof.
  intros [H1 H2 H3 H4 [H5 H5'] [H6 H6'] (mx & E7 & H7) H8 (lo & W & R) H10 H11 (H12 & H12' & H12'') H13 H14 H15] Hnw Huse Hp Ht Hm.
  cbn [fst snd] in *. unfold uct_ud_ep_no_window, psn_ge in Hnw. unfold UCT_UD_CA_MAX_WINDOW in *.
  rewrite H3, E7, psn_diff_ok in Hnw by (unfold half; lia). apply Z.leb_gt in Hnw.
  set (s := Skb (next_skb ifc) p l false c false). destruct H1 as (I1 & I2 & I3 & I4).
  assert (is_dummy s = false) as Hd.
  { unfold is_dummy. change (neth s) with p. destruct Ht as [-> _]. by rewrite (proj2 (Z.eqb_neq dest UCT_UD_EP_NULL_ID)). }
  assert (window_ok (n + 1) a lo dest (sent ++ [m]) (comps ++ match c with Some c => [(c, n)] | None => [] end)
    (window (tx ep) ++ [s])) as W'.
  { apply push_real; try done.
    - constructor; [done| |].
      + intros _. split; [done|]. change (neth s) with p. rewrite Hm. symmetry. apply list_lookup_middle. lia.
      + intros c' Hc'. simpl in Hc'. subst c. apply elem_of_app. right. by left.
    - intros (s' & Hs' & Hin)%list_elem_of_fmap. apply (proj1 H11) in Hin. simpl in Hs'. lia.
    - unfold skbs_in_use in Huse. simpl in Huse. lia. }
  assert (resend_ok (n + 1) a (numbered lo (window (tx ep) ++ [s])) (resend ep) (ops (tx ep))) as R'.
  { rewrite numbered_snoc. eapply resend_ok_push; [done|lia|done|]. intros E. apply (proj2 H11) in E. simpl in E. lia. }
  unfold uct_ud_iface_complete_tx_skb. cbn [fst snd post next_skb set_send_sn set_wire set_next_skb]. fold s.
  match goal with |- inv _ _ _ _ _ _ (?e, ?i) => set (ep' := e); set (ifc' := i) end.
  assert (exists t k, ep' = upd_tx (fun t0 => set_send_time t (set_tick k (set_window (window t0 ++ [s]) (set_psn (u16 (psn t0 + 1)) t0)))) ep)
    as (t & k & ->).
  { subst ep'. case_bool_decide; [by eexists _, _|]. exists (send_time (tx ep)), (iface_tick cfg). by destruct ep as [? ? [] ? ? ? ? ? ? ?]. }
  assert (next_skb ifc' = next_skb ifc + 1 /\ resent ifc' = resent ifc /\ comp_log ifc' = comp_log ifc /\
    async_comp_q ifc' = async_comp_q ifc) as (J1 & J2 & J3 & J4) by (subst ifc'; by destruct (async_disable cfg)).
  clearbody ifc'. constructor; cbn [fst snd]; rewrite ?J1, ?J2, ?J3, ?J4; try done.
  - simpl. by rewrite H3, u16_succ.
  - simpl. lia.
  - exists mx. simpl. split; [done|lia].
  - by exists lo.
  - rewrite length_app. simpl. lia.
  - simpl. split; [|intros i Hi%H11; lia].
    intros s' [Hs'%H11| ->%list_elem_of_singleton]%elem_of_app; simpl; lia.
  - split_and!; try done. intros i. rewrite H12'. simpl. split; intros (s' & Hs' & Hi & Hr'); exists s'; split_and!; try done.
    + apply elem_of_app. by left.
    + apply elem_of_app in Hs' as [?| ->%list_elem_of_singleton]; [done|]. by simpl in Hr'.
  - intros c' status Hc'. destruct (H15 _ _ Hc') as [? (k' & ? & ?)]. split; [done|]. exists k'. split; [|done].
    apply elem_of_app. by left.
Qed.

(** A packet that an endpoint has sent, when its next number is [n] and the last
    number whose receipt it acknowledged is [ra]. *)
Definition data_packet (n : Z) (sent : list msg) (p : packet) : Prop :=
  exists k, p_psn p = u16 k /\ 1 <= k < n /\ n - 2 ^ 14 - 2 <= k /\ data_type dest p /\ decode p = sent !! Z.to_nat (k - 1).

Definition ctl_packet (n : Z) (p : packet) : Prop :=
  p_psn p = u16 n /\ uct_ud_neth_get_dest_id p = dest /\ has (packet_type p) UCT_UD_PACKET_FLAG_AM = false /\
  has (packet_type p) UCT_UD_PACKET_FLAG_CTL = false /\ p_body p = Bytes [].

Definition pkt_ok (n ra : Z) (sent : list msg) (p : packet) : Prop :=
  ack_psn p = u16 ra /\ (data_packet n sent p \/ ctl_packet n p).

(** What an operation that does not receive does: it sends the messages [ms]
    with the completions [cs], and the packets [ps]. *)
Definition local_post (n a h ra : Z) (sent : list msg) (comps : list (Z * Z)) (st : state) (ms : list msg) (cs : list (Z * Z))
    (st' : state) : Prop :=
  exists ra' ps, inv (n + Z.of_nat (length ms)) a h ra' (sent ++ ms) (comps ++ cs) st' /\ ra <= ra' /\
    wire st'.2 = wire st.2 ++ ps /\ Forall (pkt_ok (n + Z.of_nat (length ms)) ra' (sent ++ ms)) ps /\
    rx_log st'.2 = rx_log st.2 /\ am_log st'.2 ++ pending_q st'.2 = am_log st.2 ++ pending_q st.2.

Lemma local_inv n a h ra sent comps st st' : inv n a h ra sent comps st' -> wire st'.2 = wire st.2 ->
  rx_log st'.2 = rx_log st.2 -> am_log st'.2 ++ pending_q st'.2 = am_log st.2 ++ pending_q st.2 ->
  local_post n a h ra sent comps st [] [] st'.
Proof.
  intros H1 H2 H3 H4. exists ra, []. rewrite !app_nil_r, H2, Z.add_0_r. split_and!; done.
Qed.

Lemma local_refl n a h ra sent comps st : inv n a h ra sent comps st -> local_post n a h ra sent comps st [] [] st.
Proof. intros H. by apply local_inv. Qed.

(** Control operations do not change the core of the state. *)
Lemma inv_op_del n a h ra sent comps ep ifc o : inv n a h ra sent comps (ep, ifc) ->
  inv n a h ra sent comps (uct_ud_ep_ctl_op_del o ep, ifc).
Proof.
  intros H. eapply inv_ctl; [done|by split_and!|apply H|apply H|apply ops_ok_del; apply H|].
  cbn -[Z.testbit Z.ldiff]. rewrite Z.ldiff_spec. by intros [? _]%andb_true_iff.
Qed.

Lemma inv_op_add n a h ra sent comps ep ifc o : inv n a h ra sent comps (ep, ifc) -> ops_ok o -> Z.testbit o 2 = false ->
  inv n a h ra sent comps (uct_ud_ep_ctl_op_add o ep, ifc).
Proof.
  intros H Ho Hb. eapply inv_ctl; [done|by split_and!|apply H|apply H|apply ops_ok_add; [apply H|done]|].
  cbn -[Z.testbit Z.lor]. by rewrite Z.lor_spec, Hb, orb_false_r.
Qed.

(** The header of a data packet. *)
Lemma data_header n a h ra sent comps ep ifc id kind b r : inv n a h ra sent comps (ep, ifc) ->
  uct_ud_ep_get_tx_skb cfg r (ep, ifc) = true ->
  exists e ep',
    (let ptype := uct_ud_neth_set_packet_type ep id (UCS_BIT kind) in
     let '(p, ep) := uct_ud_neth_init_data ep ptype b in
     let '(ptype, ep) := uct_ud_neth_ack_req ep ptype in
     (Packet ptype (p_psn p) (ack_psn p) (p_body p), ep)) = (Packet (message_type id dest kind e) (u16 n) (u16 h) b, ep') /\
    inv n a h h sent comps (ep', ifc) /\ uct_ud_ep_no_window ep' = false /\ skbs_in_use (ep', ifc) < tx_mp_max cfg.
Proof.
  intros H Hr. destruct (init_data_ok _ _ _ _ _ _ _ _ (uct_ud_neth_set_packet_type ep id (UCS_BIT kind)) b H) as (ep1 & E & H1 & E1).
  cbn zeta. rewrite E. unfold uct_ud_neth_ack_req. cbn [p_psn ack_psn p_body].
  exists (uct_ud_ep_req_ack ep1). eexists. split; [|split].
  - unfold message_type, uct_ud_neth_set_packet_type. destruct (ei_ids _ _ _ _ _ _ _ _ _ _ H) as (_ & Ed & _).
    cbn [fst] in Ed. by rewrite Ed.
  - by apply inv_op_del.
  - subst ep1. unfold uct_ud_ep_get_tx_skb in Hr. destruct (negb _ || _ || _) eqn:En; [done|].
    apply orb_false_iff in En as [[_ En]%orb_false_iff _]. split; [done|].
    unfold uct_ud_iface_get_tx_skb in Hr. apply andb_true_iff in Hr as [_ Hr]. by apply Z.ltb_lt in Hr.
Qed.

(** A message is sent with a completion. *)
Lemma local_send n a h ra sent comps st ep ifc now p l c m : inv n a h h sent comps (ep, ifc) -> ifc = st.2 ->
  0 <= ra <= h -> uct_ud_ep_no_window ep = false -> skbs_in_use (ep, ifc) < tx_mp_max cfg ->
  p_psn p = u16 n -> ack_psn p = u16 h -> data_type dest p /\ decode p = Some m ->
  local_post n a h ra sent comps st [m] (match c with Some c => [(c, n)] | None => [] end)
    (uct_ud_iface_complete_tx_skb cfg now p l c (ep, post p ifc)).
Proof.
  intros H -> Hra Hnw Hu Hp Ha [Ht Hm].
  exists h, [p]. split; [by apply complete_tx_ok|]. split; [lia|].
  pose proof (ei_window_size _ _ _ _ _ _ _ _ _ _ H). pose proof (ei_sent _ _ _ _ _ _ _ _ _ _ H).
  split_and!; try by (simpl; destruct (async_disable cfg)).
  apply Forall_singleton. split; [done|]. left. exists n. cbn [length]. split_and!; try done || lia.
  rewrite Hm. symmetry. apply list_lookup_middle. lia.
Qed.

Definition accepted (status : ucs_status_t) : bool :=
  match status with UCS_OK | UCS_INPROGRESS => true | _ => false end.

(** The call of a send operation: the message is sent, or no message is. *)
Definition send_post (n a h ra : Z) (sent : list msg) (comps : list (Z * Z)) (st : state) (m : msg) (c : option Z)
    (res : ucs_status_t * state) : Prop :=
  if accepted res.1 then
    local_post n a h ra sent comps st [m] (match c with Some c => [(c, n)] | None => [] end) res.2
  else local_post n a h ra sent comps st [] [] res.2.

Lemma am_common_ok n a h ra sent comps st r id data : inv n a h ra sent comps st -> 0 <= id ->
  match uct_ud_am_skb_common cfg r st id data with
  | inl e => accepted e = false
  | inr (p, (ep, ifc)) => exists e, p = Packet (message_type id dest 24 e) (u16 n) (u16 h) (Bytes data) /\ id < 32 /\
      ifc = st.2 /\ inv n a h h sent comps (ep, ifc) /\ uct_ud_ep_no_window ep = false /\ skbs_in_use (ep, ifc) < tx_mp_max cfg
  end.
Proof.
  intros H Hid. unfold uct_ud_am_skb_common. change UCT_AM_ID_MAX with 32. destruct (Z.leb_spec 32 id); [done|].
  destruct (uct_ud_ep_get_tx_skb cfg r st) eqn:Hr; [|done]. destruct st as [ep ifc]. cbn [negb].
  destruct (data_header n a h ra sent comps ep ifc id 24 (Bytes data) r H Hr) as (e & ep' & E & H').
  unfold UCT_UD_PACKET_FLAG_AM. cbn zeta in E. destruct (uct_ud_neth_init_data _ _ _) as [p ep1].
  destruct (uct_ud_neth_ack_req _ _) as [pt ep2]. apply pair_equal_spec in E as [E ->]. rewrite E. by exists e.
Qed.

Lemma zcopy_type t t' : t' = Z.lor t UCT_UD_PACKET_FLAG_ACK_REQ -> forall ps a b m,
  data_type dest (Packet t ps a b) /\ decode (Packet t ps a b) = Some m ->
  data_type dest (Packet t' ps a b) /\ decode (Packet t' ps a b) = Some m.
Proof.
  intros -> ps a b m [H1 H2].
  destruct (same_message_ok (Packet t ps a b) (Packet (Z.lor t UCT_UD_PACKET_FLAG_ACK_REQ) ps a b)) as (_ & E & H3);
    [apply same_message_set|done|]. split; [by apply H3|]. by rewrite E.
Qed.

Section Send.
Context (n a h ra : Z) (sent : list msg) (comps : list (Z * Z)) (st : state) (r : resources) (now id : Z).
Hypothesis H : inv n a h ra sent comps st.
Hypothesis Hid : 0 <= id.

Ltac am_send data :=
  pose proof (am_common_ok _ _ _ _ _ _ _ r id data H Hid) as Hc;
  destruct (uct_ud_am_skb_common _ _ _ _ _) as [?|[p [ep ifc]]]; [by unfold send_post; cbn [fst snd]; rewrite Hc; apply local_refl|];
  destruct Hc as (e & -> & Hlt & Hifc & Hinv & Hnw & Hu);
  pose proof (ei_ra _ _ _ _ _ _ _ _ _ _ H) as [_ Hra];
  destruct (ei_ids _ _ _ _ _ _ _ _ _ _ H) as (_ & _ & _ & Hd).

Lemma am_short_ok hdr buffer :
  send_post n a h ra sent comps st (MAm id (le64 hdr ++ buffer)) None (uct_ud_verbs_ep_am_short cfg r now st id hdr buffer).
Proof.
  unfold uct_ud_verbs_ep_am_short. destruct (_ <? _); [by apply local_refl|]. am_send (le64 hdr ++ buffer).
  apply local_send; try done. by apply message_am.
Qed.

Lemma am_short_iov_ok iov :
  send_post n a h ra sent comps st (MAm id (concat iov)) None (uct_ud_verbs_ep_am_short_iov cfg r now st id iov).
Proof.
  unfold uct_ud_verbs_ep_am_short_iov. destruct (_ <? _); [by apply local_refl|]. destruct (_ <? _); [by apply local_refl|]. am_send (concat iov).
  apply local_send; try done. by apply message_am.
Qed.

Lemma am_bcopy_ok data :
  send_post n a h ra sent comps st (MAm id data) None (uct_ud_verbs_ep_am_bcopy cfg r now st id data).
Proof.
  unfold uct_ud_verbs_ep_am_bcopy. am_send data. destruct (_ <? _).
  - exists h, []. rewrite !app_nil_r, Z.add_0_r. cbn [fst snd]. rewrite Hifc in *. split_and!; try done. lia.
  - apply local_send; try done. by apply message_am.
Qed.

Lemma am_zcopy_ok header iov c :
  send_post n a h ra sent comps st (MAm id (header ++ concat iov)) c (uct_ud_verbs_ep_am_zcopy cfg r now st id header iov c).
Proof.
  unfold uct_ud_verbs_ep_am_zcopy. destruct (_ || _); [by apply local_refl|]. am_send (header ++ concat iov). apply local_send; try done.
  eapply zcopy_type; [done|]. by apply message_am.
Qed.

Lemma put_short_ok buffer rva :
  send_post n a h ra sent comps st (MPut rva buffer) None (uct_ud_verbs_ep_put_short cfg r now st buffer rva).
Proof.
  unfold uct_ud_verbs_ep_put_short. destruct (_ <? _); [by apply local_refl|].
  destruct (uct_ud_ep_get_tx_skb cfg r st) eqn:Hr; [|by apply local_refl]. cbn [negb]. destruct st as [ep ifc] eqn:Est.
  destruct (data_header n a h ra sent comps ep ifc 0 28 (Put rva buffer) r H Hr) as (e & ep' & E & H1 & H2 & H3).
  unfold UCT_UD_PACKET_FLAG_PUT. cbn zeta in E. destruct (uct_ud_neth_init_data _ _ _) as [p ep1].
  destruct (uct_ud_neth_ack_req _ _) as [pt ep2]. pose proof (ei_ra _ _ _ _ _ _ _ _ _ _ H) as [_ Hra].
  apply pair_equal_spec in E as [E ->]. rewrite E. apply local_send; try done. apply message_put.
  apply (ei_ids _ _ _ _ _ _ _ _ _ _ H).
Qed.

End Send.

(** *** Resending *)

Lemma resend_end_ok n a h ra sent comps ep ifc : inv n a h ra sent comps (ep, ifc) ->
  inv n a h ra sent comps (uct_ud_ep_resend_end ep, ifc).
Proof.
  intros H. apply (inv_op_del _ _ _ _ _ _ _ _ UCT_UD_EP_OP_RESEND) in H.
  destruct (ei_flags _ _ _ _ _ _ _ _ _ _ H) as [F1 F2].
  eapply inv_ctl; [done|by split_and!| | |apply H|done]; unfold UCT_UD_EP_FLAG_CONNECTED, UCT_UD_EP_FLAG_DISCONNECTED in *;
    cbn [uct_ud_ep_resend_end fst flags set_flags]; by rewrite flags_ldiff_nacked.
Qed.

Lemma numbered_unique lo w k k' s s' : NoDup (skb_id <$> w) -> (k, s) ∈ numbered lo w -> (k', s') ∈ numbered lo w ->
  skb_id s = skb_id s' -> k = k' /\ s = s'.
Proof.
  intros Hnd H1 H2 E. assert (NoDup ((fun x => skb_id x.2) <$> numbered lo w)) as Hnd'.
  { rewrite <- (numbered_snd lo w), <- list_fmap_compose in Hnd. exact Hnd. }
  pose proof (NoDup_fmap_inj _ _ _ _ Hnd' H1 H2 E). by simplify_eq.
Qed.

Lemma find_skb w w1 s w2 : w = w1 ++ s :: w2 -> NoDup (skb_id <$> w) ->
  list_find (fun x => skb_id x = skb_id s) w = Some (length w1, s).
Proof.
  intros -> Hnd. apply list_find_Some. split_and!; [by apply list_lookup_middle|done|].
  intros j y Hj Hlt E. rewrite lookup_app_l in Hj by done. rewrite fmap_app in Hnd. apply NoDup_app in Hnd as (_ & Hnd & _).
  apply (Hnd (skb_id s)); [rewrite <- E; by eapply list_elem_of_fmap_2, list_elem_of_lookup_2|by left].
Qed.

(** The element at the resend position: [q] is the number before it. *)
Lemma iter_elem_ok n a lo sent comps w rp rm it : window_ok n a lo dest sent comps w -> pos_ok a rp rm (numbered lo w) it ->
  (forall k s, (k, s) ∈ numbered lo w -> it = IterAfter (skb_id s) -> k <= rm < n /\ resending_upto (Z.max a k) (numbered lo w)) ->
  exists el, iter_elem w it = Some el /\ forall s, el = Some s -> exists q,
    (if is_dummy s then q else q + 1, s) ∈ numbered lo w /\ ((q <= a /\ rp <= a + 1) \/ (q = rp /\ rp < rm)) /\
    resending_upto (Z.max a q) (numbered lo w).
Proof.
  intros W [(-> & -> & Hu)|(k & s & -> & Hk & Hc)] Hv.
  - exists (head w). split; [done|]. intros s Hs. destruct w as [|s' w]; [done|]. simpl in Hs. simplify_eq.
    exists (lo - 1). pose proof (wo_lo _ _ _ _ _ _ _ W). split_and!; [|lia|eapply resending_upto_mono; [exact Hu|lia|done]].
    rewrite head_number. destruct (is_dummy s); [by left|]. rewrite Z.sub_add. by left.
  - destruct (Hv k s Hk eq_refl) as [_ Hu].
    assert (s ∈ w) as Hs by (by eapply numbered_in).
    apply list_elem_of_split in Hs as (w1 & w2 & Ew). exists (head w2). split.
    { unfold iter_elem. rewrite (find_skb w w1 s w2 Ew (wo_nodup _ _ _ _ _ _ _ W)). cbn. rewrite Ew.
      rewrite lookup_app_r by lia. replace (S (length w1) - length w1)%nat with 1%nat by lia. by destruct w2. }
    intros s' Hs'. destruct w2 as [|s2 w2]; [done|]. simpl in Hs'. simplify_eq. exists k. split_and!; [|done|done].
    pose proof Hk as Hk2. rewrite numbered_app in Hk |- *. set (lo1 := next_number lo w1) in *.
    assert ((if is_dummy s then lo1 - 1 else lo1, s) ∈ numbered lo (w1 ++ s :: s' :: w2)) as Hk3.
    { rewrite numbered_app, head_number. apply elem_of_app. right. by left. }
    destruct (numbered_unique _ _ _ _ _ _ (wo_nodup _ _ _ _ _ _ _ W) Hk2 Hk3 eq_refl) as [-> _].
    apply elem_of_app. right. rewrite head_number. right. rewrite head_number.
    destruct (is_dummy s), (is_dummy s'); rewrite ?Z.sub_add, ?Z.add_simpl_r; by left.
Qed.

(** The flags of the skbs of the window change. *)
Lemma window_update n a lo sent comps w f : window_ok n a lo dest sent comps w ->
  (forall s, neth (f s) = neth s /\ skb_id (f s) = skb_id s /\ comp (f s) = comp s) ->
  window_ok n a lo dest sent comps (f <$> w) /\
  (forall k s', (k, s') ∈ numbered lo (f <$> w) <-> exists s, s' = f s /\ (k, s) ∈ numbered lo w).
Proof.
  intros [H1 H2 H3 H4 H5] Hf. destruct (numbered_fmap lo f w) as [En Ex]; [intros s; apply Hf|].
  assert (forall k s', (k, s') ∈ numbered lo (f <$> w) <-> exists s, s' = f s /\ (k, s) ∈ numbered lo w) as Hin.
  { intros k s'. rewrite En, list_elem_of_fmap. split.
    - intros ([k' s] & E & Hk). simplify_eq/=. by exists s.
    - intros (s & -> & Hk). by exists (k, s). }
  split; [|done]. constructor; [done|by rewrite Ex|by rewrite length_fmap| |].
  - intros k s' (s & -> & Hk)%Hin. destruct (H4 k s Hk) as [S1 S2 S3]. destruct (Hf s) as (F1 & F2 & F3).
    constructor; rewrite ?F1, ?F3; try done. unfold is_dummy in *. by rewrite F1.
  - rewrite <- list_fmap_compose. erewrite list_fmap_ext; [exact H5|]. intros i s _. apply Hf.
Qed.

Lemma update_skb_keeps id b s :
  let s' := (if skb_id s =? id then set_resending b s else s) in
  neth s' = neth s /\ skb_id s' = skb_id s /\ comp s' = comp s.
Proof. by destruct (skb_id s =? id). Qed.

(** One skb of the window becomes a resent one, or is one no longer. *)
Lemma resending_update lo (w : list uct_ud_send_skb_t) k s b k' s' :
  NoDup (skb_id <$> w) -> (k, s) ∈ numbered lo w -> (k', s') ∈ numbered lo w ->
  resending (if skb_id s' =? skb_id s then set_resending b s' else s') = true -> (k' = k /\ b = true) \/ resending s' = true.
Proof.
  intros Hnd Hk Hk' Hr. destruct (Z.eqb_spec (skb_id s') (skb_id s)) as [E|_]; [left|by right].
  destruct (numbered_unique _ _ _ _ _ _ Hnd Hk' Hk E) as [-> _]. by destruct b.
Qed.

(** A new position in a round. *)
Lemma resend_ok_move n a lo w r o rp rm k s q : NoDup (skb_id <$> w) -> resend_psn r = u16 rp -> resend_max_psn r = u16 rm ->
  a < rm < n -> a - 2 ^ 14 - 2 <= rp <= rm -> (k, s) ∈ numbered lo w ->
  (k <= a /\ rp <= a + 1) \/ (k = rp /\ rp < rm) -> q <= k -> resending_upto (Z.max a q) (numbered lo w) ->
  resend_ok n a (numbered lo w) (Resend (IterAfter (skb_id s)) (resend_psn r) (resend_max_psn r)) o.
Proof.
  intros Hnd E1 E2 Hrm Hrp Hk Hc Hq Hu. exists rp, rm. split_and!; [done|done| |].
  - right. split_and!; try lia. right. by exists k, s.
  - intros k' s' Hk' [= E]. destruct (numbered_unique _ _ _ _ _ _ Hnd Hk Hk' E) as [<- _]. split; [lia|].
    eapply resending_upto_mono; [exact Hu|lia|done].
Qed.

Lemma resend_packet_ok n a h ra sent comps ep ifc lo k s : inv n a h ra sent comps (ep, ifc) ->
  window_ok n a lo dest sent comps (window (tx ep)) -> (k, s) ∈ numbered lo (window (tx ep)) -> is_dummy s = false ->
  pkt_ok n ra sent (resend_packet ep (neth s)).
Proof.
  intros H W Hk Hd. pose proof (wo_skbs _ _ _ _ _ _ _ W k s Hk) as [S1 S2 _]. destruct (S2 Hd) as [S3 S4].
  destruct (ei_ra _ _ _ _ _ _ _ _ _ _ H) as [E _]. split; [exact E|]. left. exists k.
  destruct (numbered_range _ _ _ _ Hk) as [Hr1 Hr2]. specialize (Hr2 Hd).
  pose proof (wo_lo _ _ _ _ _ _ _ W). pose proof (wo_len _ _ _ _ _ _ _ W). pose proof (wo_next _ _ _ _ _ _ _ W) as Ex.
  pose proof (next_number_bound lo (window (tx ep))).
  destruct (same_message_ok (neth s) (resend_packet ep (neth s))) as (_ & Em & Ht).
  { unfold resend_packet. cbn [packet_type]. destruct (_ || _); [apply same_message_set|apply same_message_clear]. }
  { done. }
  split_and!; [done|lia|lia|lia|by apply Ht|by rewrite Em].
Qed.

(** The resend state after skb [k] was resent. *)
Lemma resend_ok_resent n a lo w r o o' rm k s q : NoDup (skb_id <$> w) -> resend_max_psn r = u16 rm ->
  a < rm < n -> a - 2 ^ 14 - 2 <= k <= rm -> (k, s) ∈ numbered lo w -> q <= k -> resending_upto (Z.max a q) (numbered lo w) ->
  pos r = IterAfter (skb_id s) ->
  (k = rm /\ resend_psn r = u16 (rm + 1) /\ o' = Z.ldiff o UCT_UD_EP_OP_RESEND) \/ (k < rm /\ resend_psn r = u16 k /\ o' = o) ->
  resend_ok n a (numbered lo (update_skb (skb_id s) (set_resending true) w)) r o'.
Proof.
  intros Hnd Em Hrm Hk Hin Hq Hu Ep Hc. unfold update_skb. set (f := fun x => if skb_id x =? skb_id s then _ else x).
  destruct (numbered_fmap lo f w) as [En _]; [intros x; apply update_skb_keeps|].
  assert (forall b, Z.max a k <= b -> resending_upto b (numbered lo (f <$> w))) as Hu'.
  { intros b Hb k' s'. rewrite En, list_elem_of_fmap. intros ([k1 s1] & E & Hk1) Hr. simplify_eq/=.
    destruct (resending_update _ _ _ _ _ _ _ Hnd Hin Hk1 Hr) as [[-> _]|Hr1]; [lia|]. specialize (Hu _ _ Hk1 Hr1). lia. }
  assert (forall k' s', (k', s') ∈ numbered lo (f <$> w) -> pos r = IterAfter (skb_id s') -> k' = k) as Hpos.
  { intros k' s'. rewrite En, list_elem_of_fmap. intros ([k1 s1] & E & Hk1). simplify_eq/=. rewrite Ep. intros [= E].
    change (skb_id s = skb_id (f s1)) in E. unfold f in E. rewrite (proj1 (proj2 (update_skb_keeps (skb_id s) true s1))) in E.
    by destruct (numbered_unique _ _ _ _ _ _ Hnd Hin Hk1 E) as [-> _]. }
  assert (forall k' s', (k', s') ∈ numbered lo (f <$> w) -> pos r = IterAfter (skb_id s') ->
    k' <= rm < n /\ resending_upto (Z.max a k') (numbered lo (f <$> w))) as Hv.
  { intros k' s' Hk' E. rewrite (Hpos k' s' Hk' E). split; [lia|]. apply Hu'. lia. }
  destruct Hc as [(-> & E & ->)|(Hlt & E & ->)].
  - exists (rm + 1), rm. split_and!; try done. left. split; [lia|].
    rewrite Z.ldiff_spec. unfold UCT_UD_EP_OP_RESEND. rewrite testbit_bit by lia. simpl. by rewrite andb_false_r.
  - exists k, rm. split_and!; try done. right. split_and!; try lia. right. exists k, (f s). split_and!; [|  |by right].
    + rewrite Ep. f_equal. symmetry. apply update_skb_keeps.
    + rewrite En. by apply (list_elem_of_fmap_2 (fun x => (x.1, f x.2)) _ (k, s)).
Qed.

(** The skbs that are being resent are those of the outstanding descriptors. *)
Lemma resent_push lo w k s R : NoDup (skb_id <$> w) -> (k, s) ∈ numbered lo w -> resending s = false -> NoDup R ->
  (forall id, id ∈ R <-> exists s, s ∈ w /\ skb_id s = id /\ resending s = true) ->
  NoDup (R ++ [skb_id s]) /\
  (forall id, id ∈ R ++ [skb_id s] <->
     exists s', s' ∈ update_skb (skb_id s) (set_resending true) w /\ skb_id s' = id /\ resending s' = true).
Proof.
  intros Hnd Hk Hs HR H.
  assert (s ∈ w) as Hw by (by eapply numbered_in). split.
  - apply NoDup_app. split_and!; [done| |apply NoDup_singleton]. intros x Hx ->%list_elem_of_singleton.
    apply H in Hx as (s' & Hs' & E & Hr). rewrite (NoDup_fmap_inj _ _ _ _ Hnd Hs' Hw E) in Hr. congruence.
  - intros id. rewrite elem_of_app, list_elem_of_singleton, H. unfold update_skb. split.
    + intros [(s' & Hs' & E & Hr)| ->].
      * exists s'. split_and!; [|done|done]. apply list_elem_of_fmap. exists s'. split; [|done].
        destruct (Z.eqb_spec (skb_id s') (skb_id s)) as [E'|]; [|done]. destruct s'. simpl in Hr. by rewrite Hr.
      * exists (set_resending true s). split_and!; [|done|done]. apply list_elem_of_fmap. exists s. by rewrite Z.eqb_refl.
    + intros (s' & (s1 & -> & Hs1)%list_elem_of_fmap & E & Hr). destruct (Z.eqb_spec (skb_id s1) (skb_id s)) as [E'|].
      * right. by rewrite <- E.
      * left. by exists s1.
Qed.

(** What is resent does not change the rest of the endpoint. *)
Lemma resend_skb_eq now ep ifc s k rm : p_psn (neth s) = u16 k -> resend_max_psn (resend ep) = u16 rm ->
  - half <= k - rm < half ->
  exists o r f, resend_skb now ep ifc s =
    (set_flags f (set_resend r (upd_tx (fun t => set_ops o (set_resend_count (u16 (resend_count t + 1)) (set_resend_time now
       (set_window (update_skb (skb_id s) (set_resending true) (window t)) t)))) ep)),
     let ifc := post (resend_packet ep (neth s)) ifc in
     set_outstanding_q (outstanding_q ifc ++ [Cdesc (send_sn ifc) (Some (skb_id s))]) ifc) /\
    resend_max_psn r = u16 rm /\ pos r = pos (resend ep) /\
    ((k = rm /\ resend_psn r = u16 (rm + 1) /\ o = Z.ldiff (ops (tx ep)) UCT_UD_EP_OP_RESEND) \/
     (k <> rm /\ resend_psn r = u16 k /\ o = ops (tx ep))) /\
    (f = flags ep \/ f = Z.ldiff (flags ep) UCT_UD_EP_FLAG_TX_NACKED).
Proof.
  intros Hk Hm Hd. unfold resend_skb, psn_eq. cbn [resend set_resend upd_tx set_tx resend_psn resend_max_psn].
  rewrite Hk, Hm, psn_diff_ok by done. destruct (Z.eqb_spec (k - rm) 0) as [E|E].
  - eexists _, _, _. split; [by destruct ep as [? ? [] ? ? ? [] ? ? ?]|]. split_and!; [done|done| |by right].
    left. split_and!; [lia| |done]. apply u16_succ.
  - eexists (ops (tx ep)), _, (flags ep). split; [by destruct ep as [? ? [] ? ? ? [] ? ? ?]|]. split_and!; [done|done| |by left].
    right. split_and!; [lia|done|done].
Qed.

Lemma resend_skb_ok n a h ra sent comps ep ifc now lo s q rp rm : inv n a h ra sent comps (ep, ifc) ->
  window_ok n a lo dest sent comps (window (tx ep)) -> resend_max_psn (resend ep) = u16 rm -> a < rm < n ->
  (q + 1, s) ∈ numbered lo (window (tx ep)) -> is_dummy s = false -> resending s = false ->
  (q <= a /\ rp <= a + 1) \/ (q = rp /\ rp < rm) -> resending_upto (Z.max a q) (numbered lo (window (tx ep))) ->
  let ep' := set_resend (Resend (IterAfter (skb_id s)) (resend_psn (resend ep)) (resend_max_psn (resend ep))) ep in
  inv n a h ra sent comps (resend_skb now ep' ifc s).
Proof.
  intros H W Hm Hrm Hk Hd Hr Hq Hu ep'. pose proof H as [H1 [H2 H2'] H3 H4 [H5 H5'] [H6 H6'] H7 H8 _ H10 H11 (H12 & H12' & H12'') H13 H14 H15].
  cbn [fst snd] in *. unfold UCT_UD_CA_MAX_WINDOW in *.
  pose proof (window_compare _ _ _ _ _ _ _ _ W ltac:(lia) ltac:(lia) Hk) as (Hp & _ & Hkn).
  pose proof (numbered_in _ _ _ _ Hk) as Hs0.
  destruct (resend_skb_eq now ep' ifc s (q + 1) rm Hp Hm) as (o & r & f & -> & Hm' & Hpos & Hc & Hf); [unfold half; lia|].
  destruct (window_update n a lo sent comps (window (tx ep)) (fun x => if skb_id x =? skb_id s then set_resending true x else x) W)
    as [W' _]; [intros x; apply update_skb_keeps|].
  destruct (resent_push lo (window (tx ep)) _ s (resent ifc) (wo_nodup _ _ _ _ _ _ _ W) Hk Hr H12 H12') as [N1 N2].
  assert (ops_ok o) as Ho by (destruct Hc as [(_ & _ & ->)|(_ & _ & ->)]; [apply ops_ok_del|]; done).
  assert (forall i, 0 <= i < 64 -> i <> 11 -> has f (UCS_BIT i) = has (flags ep) (UCS_BIT i)) as Hf2.
  { intros i Hi Hne. destruct Hf as [->| ->]; [done|]. by apply flags_ldiff_nacked. }
  unfold UCT_UD_EP_FLAG_CONNECTED, UCT_UD_EP_FLAG_DISCONNECTED in *.
  constructor; cbn [fst snd]; try done.
  - unfold UCT_UD_EP_FLAG_CONNECTED, UCT_UD_EP_FLAG_DISCONNECTED. cbn [flags set_flags]. by rewrite !Hf2.
  - exists lo. split; [done|]. eapply (resend_ok_resent n a lo _ r (ops (tx ep)) o rm (q + 1) s q); try done; try lia.
    + apply (wo_nodup _ _ _ _ _ _ _ W).
    + destruct Hc as [?|(? & ? & ?)]; [by left|right]. split_and!; [lia|done|done].
  - split; [|cbn [set_flags set_resend resend]; rewrite Hpos; intros i [= <-]; by apply (proj1 H11)].
    intros s'. cbn. intros (s1 & -> & Hs1)%list_elem_of_fmap. rewrite (proj1 (proj2 (update_skb_keeps (skb_id s) true s1))). by apply (proj1 H11).
  - unfold resent. cbn [outstanding_q set_outstanding_q post set_send_sn set_wire]. rewrite omap_app. cbn [omap list_omap resent_skb].
    fold (resent ifc). split_and!; [done|done|]. cbn. rewrite H12'', u16_succ, length_app. simpl. f_equal. lia.
Qed.

Lemma connected_ok n a h ra sent comps ep ifc : inv n a h ra sent comps (ep, ifc) -> uct_ud_ep_is_connected ep = Some true.
Proof.
  intros H. destruct (ei_ids _ _ _ _ _ _ _ _ _ _ H) as (_ & E & Hn & _), (ei_flags _ _ _ _ _ _ _ _ _ _ H) as [F _].
  cbn [fst] in *. unfold uct_ud_ep_is_connected. by rewrite F, E, (proj2 (Z.eqb_neq dest _)).
Qed.

Lemma inv_set_resend n a h ra sent comps ep ifc r lo : inv n a h ra sent comps (ep, ifc) ->
  window_ok n a lo dest sent comps (window (tx ep)) -> resend_ok n a (numbered lo (window (tx ep))) r (ops (tx ep)) ->
  (forall id, pos r = IterAfter id -> id < next_skb ifc) -> inv n a h ra sent comps (set_resend r ep, ifc).
Proof.
  intros [H1 H2 H3 H4 H5 H6 H7 H8 H9 H10 H11 H12 H13 H14 H15] W R Hid. constructor; try done.
  - by exists lo.
  - split; [apply H11|done].
Qed.

(** The result of an operation that may need a control skb: it fails only when
    the pool does not give one. *)
Definition ctl_result {A} (r : resources) (st : state) (o : option A) (P : A -> Prop) : Prop :=
  match o with Some x => P x | None => uct_ud_iface_ctl_skb_get cfg r st = false end.

Lemma ep_resend_ok n a h ra sent comps st r now : inv n a h ra sent comps st ->
  uct_ud_ep_ctl_op_check st.1 UCT_UD_EP_OP_RESEND = true ->
  ctl_result r st (uct_ud_ep_resend cfg r now st) (local_post n a h ra sent comps st [] []).
Proof.
  intros H Hop. destruct st as [ep ifc]. unfold uct_ud_ep_resend.
  assert (local_post n a h ra sent comps (ep, ifc) [] [] (uct_ud_ep_resend_end ep, ifc)) as Hend.
  { apply local_inv; try done. by apply resend_end_ok. }
  destruct (psn_le _ _); [done|].
  destruct (ei_win _ _ _ _ _ _ _ _ _ _ H) as (lo & W & rp & rm & E1 & E2 & HR & Hv).
  unfold uct_ud_ep_ctl_op_check, UCT_UD_EP_OP_RESEND in Hop. rewrite has_bit in Hop by lia. cbn [fst] in *.
  destruct HR as [[_ ?]|(Hrm & Hrp & Hpos)]; [congruence|].
  destruct (iter_elem_ok _ _ _ _ _ _ _ _ _ W Hpos Hv) as (el & -> & Hel). cbn [mbind option_bind].
  destruct el as [s|]; [|done]. destruct (Hel s eq_refl) as (q & Hin & Hq & Hu).
  destruct (psn_ge _ _); [done|]. destruct (negb (has _ _) && _); [done|].
  set (ep' := set_resend (Resend (IterAfter (skb_id s)) (resend_psn (resend ep)) (resend_max_psn (resend ep))) ep).
  set (k := if is_dummy s then q else q + 1) in *.
  assert ((resending s = true \/ is_dummy s = true) -> local_post n a h ra sent comps (ep, ifc) [] [] (ep', ifc)) as Hskip.
  { intros Hs. apply local_inv; try done. eapply inv_set_resend; [done|done| |].
    - assert (resending s = true -> k <= Z.max a q) as Hle by (intros ?; by apply (Hu k s)).
      eapply (resend_ok_move _ _ _ _ _ _ rp rm k s q); try done; [apply W| |]; unfold k in *; destruct Hs as [Hs|Hs];
        rewrite ?Hs in *; try specialize (Hle eq_refl); destruct (is_dummy s); lia.
    - intros i [= <-]. apply (proj1 (ei_next _ _ _ _ _ _ _ _ _ _ H)). cbn [fst].
      by eapply numbered_in. }
  destruct (resending s) eqn:Hr; [by apply Hskip; left|].
  fold (is_dummy s). destruct (is_dummy s) eqn:Hd; [by apply Hskip; right|].
  change (uct_ud_ep_is_connected ep') with (uct_ud_ep_is_connected ep). rewrite (connected_ok _ _ _ _ _ _ _ _ H). cbn [mbind option_bind].
  destruct (so_data _ _ _ _ _ (wo_skbs _ _ _ _ _ _ _ W _ _ Hin) Hd) as [[Edest _] _].
  destruct (ei_ids _ _ _ _ _ _ _ _ _ _ H) as (_ & _ & Hne & _). rewrite Edest, (proj2 (Z.eqb_neq dest _)) by done.
  cbn [andb]. change (uct_ud_iface_ctl_skb_get cfg r (ep', ifc)) with (uct_ud_iface_ctl_skb_get cfg r (ep, ifc)).
  destruct (uct_ud_iface_ctl_skb_get cfg r (ep, ifc)) eqn:Hg; [|exact Hg]. cbn [negb ctl_result]. exists ra, [resend_packet ep (neth s)]. rewrite !app_nil_r, Z.add_0_r.
  split; [by eapply resend_skb_ok|]. split_and!; try done. apply Forall_singleton. by eapply resend_packet_ok.
Qed.

(** *** Control packets *)

Lemma flag_other t i j : 0 <= i < 64 -> 0 <= j < 64 -> i <> j -> has (Z.lor t (UCS_BIT i)) (UCS_BIT j) = has t (UCS_BIT j).
Proof.
  intros Hi Hj Hne. rewrite !has_bit, Z.lor_spec, testbit_bit by lia. rewrite (proj2 (Z.eqb_neq i j)) by done. apply orb_false_r.
Qed.

Lemma flag_dest t i ps ps' a a' b b' : 24 <= i < 64 ->
  uct_ud_neth_get_dest_id (Packet (Z.lor t (UCS_BIT i)) ps a b) = uct_ud_neth_get_dest_id (Packet t ps' a' b').
Proof.
  intros Hi. unfold uct_ud_neth_get_dest_id, UCT_UD_PACKET_DEST_ID_MASK, UCT_UD_PACKET_DEST_ID_SHIFT.
  rewrite Bits.ucs_mask_ones by lia. apply Z.bits_inj'. intros j Hj. cbn [packet_type].
  rewrite !Z.land_spec, Z.lor_spec, testbit_bit, Z.testbit_ones_nonneg by lia.
  destruct (Z.ltb_spec j 24); [|by rewrite !andb_false_r]. rewrite (proj2 (Z.eqb_neq i j)) by lia. by rewrite orb_false_r.
Qed.

Lemma dest_plain i ps a b : 0 <= dest < 2 ^ 24 -> 24 <= i < 64 ->
  uct_ud_neth_get_dest_id (Packet dest ps a b) = dest /\ has dest (UCS_BIT i) = false.
Proof.
  intros Hd Hi. split.
  - unfold uct_ud_neth_get_dest_id, UCT_UD_PACKET_DEST_ID_MASK, UCT_UD_PACKET_DEST_ID_SHIFT. cbn [packet_type].
    rewrite Bits.ucs_mask_ones, Z.land_ones by lia. apply Z.mod_small. lia.
  - rewrite has_bit by lia. apply (Z_bits_above 24); lia.
Qed.

Lemma ctl_packet_ok n ps x y b : 0 <= dest < 2 ^ 24 -> ps = u16 n ->
  ctl_packet n (Packet (let t := if x : bool then Z.lor dest UCT_UD_PACKET_FLAG_ACK_REQ else dest in
                        if y : bool then Z.lor t UCT_UD_PACKET_FLAG_NACK else t) ps b (Bytes [])).
Proof.
  intros Hd ->. unfold ctl_packet, UCT_UD_PACKET_FLAG_ACK_REQ, UCT_UD_PACKET_FLAG_NACK, UCT_UD_PACKET_FLAG_AM,
    UCT_UD_PACKET_FLAG_CTL. cbn zeta. cbn [packet_type].
  split; [done|]. split; [|split_and!; [| |done]].
  - destruct x, y; rewrite ?(flag_dest _ _ _ (u16 n) _ b _ (Bytes [])) by lia; by apply (dest_plain 24).
  - destruct x, y; rewrite ?flag_other by lia; by apply (dest_plain _ 0 0 (Bytes [])).
  - destruct x, y; rewrite ?flag_other by lia; by apply (dest_plain _ 0 0 (Bytes [])).
Qed.

Lemma send_ack_ok n a h ra sent comps st r : inv n a h ra sent comps st ->
  ctl_result r st (uct_ud_ep_send_ack cfg r st) (local_post n a h ra sent comps st [] []).
Proof.
  intros H. destruct st as [ep ifc]. unfold uct_ud_ep_send_ack. rewrite (connected_ok _ _ _ _ _ _ _ _ H).
  cbn [mbind option_bind negb]. set (x := uct_ud_ep_ctl_op_check ep UCT_UD_EP_OP_ACK_REQ). set (y := uct_ud_ep_ctl_op_check ep UCT_UD_EP_OP_NACK).
  set (inline := (neth_size <=? max_inline cfg) && negb x). set (t := if y then _ else _).
  destruct (negb inline && negb (uct_ud_iface_ctl_skb_get cfg r (ep, ifc))) eqn:Hg.
  { apply andb_true_iff in Hg as [_ Hg]. by apply negb_true_iff in Hg. }
  destruct (init_data_ok _ _ _ _ _ _ _ _ t (Bytes []) H) as (ep1 & -> & H1 & ->).
  destruct (ei_ids _ _ _ _ _ _ _ _ _ _ H) as (_ & Ed & _ & Hd). destruct (ei_ra _ _ _ _ _ _ _ _ _ _ H) as [_ Hra]. cbn [fst] in Ed.
  exists h, [Packet t (u16 n) (u16 h) (Bytes [])]. rewrite !app_nil_r, Z.add_0_r.
  split; [|split; [lia|split_and!; try by destruct inline]].
  - apply inv_op_del. eapply inv_ctl; [done| |apply H1|apply H1|apply H1|done]. destruct inline; [by split_and!|].
    split_and!; try done. unfold resent. cbn [snd outstanding_q set_outstanding_q post set_send_sn set_wire].
    rewrite omap_app. apply app_nil_r.
  - apply Forall_singleton. split; [done|]. right. subst t. rewrite Ed. by apply ctl_packet_ok.
Qed.

Lemma ops_ok_none o i : ops_ok o -> 0 <= i < 64 -> i <> 0 -> i <> 1 -> i <> 2 -> i <> 5 -> has o (UCS_BIT i) = false.
Proof.
  intros Ho Hi. rewrite has_bit by done. destruct (Z.testbit o i) eqn:E; [|done]. apply Ho in E; lia.
Qed.

Lemma pending_ctl_ok n a h ra sent comps st r now : inv n a h ra sent comps st ->
  ctl_result r st (uct_ud_ep_do_pending_ctl cfg r now st) (local_post n a h ra sent comps st [] []).
Proof.
  intros H. pose proof (ei_ops _ _ _ _ _ _ _ _ _ _ H) as Ho. unfold uct_ud_ep_do_pending_ctl, uct_ud_ep_ctl_op_check.
  unfold UCT_UD_EP_OP_CREQ, UCT_UD_EP_OP_CREP. rewrite !(ops_ok_none _ _ Ho) by lia.
  destruct (has _ UCT_UD_EP_OP_RESEND) eqn:E; [by apply ep_resend_ok|].
  destruct (has _ UCT_UD_EP_OP_CTL_ACK) eqn:E2; [by apply send_ack_ok|].
  unfold UCT_UD_EP_OP_CTL_ACK, UCT_UD_EP_OP_RESEND, UCT_UD_EP_OP_ACK, UCT_UD_EP_OP_ACK_REQ, UCT_UD_EP_OP_NACK in *.
  rewrite !has_lor, !has_bit in * by lia. apply orb_false_iff in E2 as [[E2 E3]%orb_false_iff E4].
  assert (ops (tx st.1) = 0) as E0.
  { apply Z.bits_inj'. intros i Hi. rewrite Z.testbit_0_l. destruct (Z.testbit _ i) eqn:Ei; [|done].
    pose proof (Ho i Hi Ei) as [->|[->|[->| ->]]]; congruence. }
  unfold uct_ud_ep_ctl_op_isany. rewrite E0. by apply local_refl.
Qed.

(** *** Send completions *)

(** The resend state after a release that sets the position to the begin. *)
Lemma resend_release n a lo pre nw r r' o : resend_ok n a (numbered lo pre ++ nw) r o ->
  (forall k s, (k, s) ∈ numbered lo pre -> k <= a /\ a - 2 ^ 14 <= k) -> released_pos true a pre r r' -> resend_ok n a nw r' o.
Proof.
  intros (rp & rm & E1 & E2 & H & Hv) Hpre (Em & Hpos).
  assert (forall x, x ∈ nw -> x ∈ numbered lo pre ++ nw) as Hsub by (intros x Hx; apply elem_of_app; by right).
  destruct Hpos as [(Ep & Eq & Hn)|(_ & Ep & Eq & s & Hs & Es)].
  - exists rp, rm. rewrite Em, Eq, Ep. split_and!; try done.
    + destruct H as [H|(H1 & H2 & H3)]; [by left|right]. split_and!; try lia.
      destruct H3 as [(H3 & H4 & H5)|(k & s & H3 & H4 & H5)]; [left; split_and!; try done; by eapply resending_upto_mono|right].
      exists k, s. split_and!; try done. apply elem_of_app in H4 as [H4|H4]; [|done]. exfalso.
      eapply (Hn eq_refl s); [|done]. by eapply numbered_in.
    + intros k s Hk Es. destruct (Hv k s (Hsub _ Hk) Es). split; [done|]. by eapply resending_upto_mono.
  - destruct (numbered_elem lo pre s Hs) as [k Hk]. destruct (Hpre k s Hk) as [Hk1 Hk2].
    destruct (Hv k s) as [Hrm Hu]; [apply elem_of_app; by left|done|].
    exists (a + 1), rm. rewrite Em, Eq, Ep. split_and!; try done.
    destruct (Z.ltb_spec a rm).
    + right. split_and!; try lia. left. split_and!; try done. eapply resending_upto_mono; [exact Hu|lia|done].
    + left. destruct H as [[_ H]|(? & _)]; [|lia]. split; [lia|done].
Qed.

Lemma release_completed_ok n a h ra sent comps st is_async : inv n a h ra sent comps st ->
  exists w' r' cl aq, uct_ud_ep_window_release_completed st is_async = released st w' r' cl aq /\
    inv n a h ra sent comps (released st w' r' cl aq).
Proof.
  intros [H1 H2 H3 H4 [H5 H5'] [H6 H6'] H7 H8 (lo & W & R) H10 H11 (H12 & H12' & H12'') H13 H14 H15].
  unfold uct_ud_ep_window_release_completed, uct_ud_ep_window_release_inline. rewrite H4. unfold UCT_UD_CA_MAX_WINDOW in *.
  destruct (release_loop_ok n a is_async true (window (tx st.1)) lo sent comps st) as
    (pre & w' & lo' & r' & cl & aq & -> & Ew & En & W' & Hpre & Hpos & Hcl); try done || lia.
  exists w', r', cl, aq. split; [done|]. constructor; cbn [fst snd released]; try done.
  - exists lo'. split; [done|]. eapply (resend_release n a lo pre (numbered lo' w')); [by rewrite <- En| |done].
    intros k s Hk. split; [by apply Hpre in Hk as [? _]|].
    assert ((k, s) ∈ numbered lo (window (tx st.1))) as Hk' by (rewrite En; apply elem_of_app; by left).
    destruct (window_compare _ _ _ _ _ _ _ _ W ltac:(lia) ltac:(lia) Hk') as (_ & _ & ?). lia.
  - destruct H11 as [H11 H11']. split.
    + intros s Hs. apply H11. rewrite Ew. apply elem_of_app. by right.
    + intros i Hi. simpl in Hi. apply H11'. destruct Hpos as [_ [(Ep & _)|(_ & Ep & _)]]; congruence.
  - split_and!; try done. apply (resent_release pre w'); [|by rewrite <- Ew].
    intros s Hs. destruct (numbered_elem lo pre s Hs) as [k Hk]. by apply Hpre in Hk as [_ ?].
Qed.

(** The resend state when fewer skbs are being resent. *)
Lemma resend_ok_clear n a lo w f r o : resend_ok n a (numbered lo w) r o ->
  (forall s, neth (f s) = neth s /\ skb_id (f s) = skb_id s) -> (forall s, resending (f s) = true -> resending s = true) ->
  resend_ok n a (numbered lo (f <$> w)) r o.
Proof.
  intros (rp & rm & E1 & E2 & H & Hv) Hf Hr. destruct (numbered_fmap lo f w) as [-> _]; [intros s; apply Hf|].
  assert (forall b, resending_upto b (numbered lo w) -> resending_upto b ((fun x => (x.1, f x.2)) <$> numbered lo w)) as Hu.
  { intros b Hb k s ([k' s'] & E & Hk)%list_elem_of_fmap Hrs. simplify_eq/=. by apply (Hb k' s'), Hr. }
  exists rp, rm. split_and!; try done.
  - destruct H as [H|(H1 & H2 & [(H3 & H4 & H5)|(k & s & H3 & H4 & H5)])]; [by left| |];
      right; split_and!; try lia; [left; split_and!; auto|right].
    exists k, (f s). split_and!; [by rewrite (proj2 (Hf s))| |done].
    by apply (list_elem_of_fmap_2 (fun x => (x.1, f x.2)) _ (k, s)).
  - intros k s ([k' s'] & E & Hk)%list_elem_of_fmap Ep. simplify_eq/=. rewrite (proj2 (Hf s')) in Ep.
    destruct (Hv k' s' Hk Ep). auto.
Qed.

Lemma resent_pop (w : list uct_ud_send_skb_t) (id : Z) (R : list Z) : NoDup (skb_id <$> w) -> NoDup (id :: R) ->
  (forall i, i ∈ id :: R <-> exists s, s ∈ w /\ skb_id s = i /\ resending s = true) ->
  forall i, i ∈ R <-> exists s, s ∈ update_skb id (set_resending false) w /\ skb_id s = i /\ resending s = true.
Proof.
  intros Hnd [Hid HR]%NoDup_cons H i. unfold update_skb. split.
  - intros Hi. destruct (proj1 (H i) ltac:(by right)) as (s & Hs & Es & Hr). exists s. split_and!; try done.
    apply list_elem_of_fmap. exists s. split; [|done]. destruct (Z.eqb_spec (skb_id s) id) as [E|]; [|done]. congruence.
  - intros (s & (s' & -> & Hs')%list_elem_of_fmap & Es & Hr). destruct (Z.eqb_spec (skb_id s') id) as [E|Hne]; [done|].
    destruct (proj1 (elem_of_cons _ _ _) (proj2 (H i) (ex_intro _ s' (conj Hs' (conj Es Hr))))) as [->|]; [congruence|done].
Qed.

(** A descriptor leaves the queue; the skb it resent is not being resent any more. *)
Lemma ctl_done_ok n a h ra sent comps ep ifc c rest : inv n a h ra sent comps (ep, ifc) -> outstanding_q ifc = c :: rest ->
  exists ep', match resent_skb c with
       | Some id =>
           '(_, skb) ← list_find (fun skb => skb_id skb = id) (window (tx ep));
           if negb (resending skb) then None
           else Some (upd_tx (fun t => set_resend_count (u16 (resend_count t - 1))
                                        (set_window (update_skb id (set_resending false) (window t)) t)) ep)
       | None => Some ep
       end = Some ep' /\ inv n a h ra sent comps (ep', set_outstanding_q rest ifc).
Proof.
  intros H Eq. pose proof H as [H1 H2 H3 H4 H5 H6 H7 H8 (lo & W & R) H10 [H11 H11'] (H12 & H12' & H12'') H13 H14 H15].
  cbn [fst snd] in *. assert (resent ifc = match resent_skb c with Some id => [id] | None => [] end ++ resent (set_outstanding_q rest ifc)) as Er.
  { unfold resent. rewrite Eq. simpl. by destruct (resent_skb c). }
  destruct (resent_skb c) as [id|].
  2:{ exists ep. split; [done|]. eapply inv_ctl; [exact H|by split_and!|apply H|apply H|apply H|done]. }
  rewrite Er in H12, H12', H12''. destruct (proj1 (H12' id) ltac:(by left)) as (s & Hs & Es & Hr).
  pose proof (wo_nodup _ _ _ _ _ _ _ W) as Hnd. apply list_elem_of_split in Hs as (w1 & w2 & Ew).
  rewrite <- Es, (find_skb _ w1 s w2 Ew Hnd). cbn [mbind option_bind]. rewrite Hr. cbn [negb]. eexists. split; [done|].
  rewrite Es. destruct (window_update n a lo sent comps (window (tx ep)) (fun x => if skb_id x =? id then set_resending false x else x) W)
    as [W' _]; [intros x; apply update_skb_keeps|].
  constructor; cbn [fst snd]; try done.
  - exists lo. split; [done|]. apply resend_ok_clear; [done| |].
    + intros x. by destruct (update_skb_keeps id false x) as (? & ? & _).
    + intros x. by destruct (skb_id x =? id).
  - split; [|done]. intros s'. cbn. intros (s1 & -> & Hs1)%list_elem_of_fmap.
    rewrite (proj1 (proj2 (update_skb_keeps id false s1))). by apply H11.
  - split_and!; [by apply NoDup_cons in H12 as [_ ?]|by apply resent_pop|].
    change (u16 (resend_count (tx ep) - 1) = u16 (Z.of_nat (length (resent (set_outstanding_q rest ifc))))).
    rewrite H12'', length_app, <- Z.add_opp_r, u_wrap_add_l. f_equal. cbn [length]. lia.
Qed.

(** Nothing is sent, received or dispatched. *)
Definition quiet (st st' : state) : Prop :=
  wire st'.2 = wire st.2 /\ rx_log st'.2 = rx_log st.2 /\ am_log st'.2 ++ pending_q st'.2 = am_log st.2 ++ pending_q st.2.

Lemma local_quiet n a h ra sent comps cs st st1 st2 : local_post n a h ra sent comps st [] [] st1 ->
  (forall ra', inv n a h ra' sent comps st1 -> inv n a h ra' sent (comps ++ cs) st2) -> quiet st1 st2 ->
  local_post n a h ra sent comps st [] cs st2.
Proof.
  intros (ra' & ps & H1 & H2 & H3 & H4 & H5 & H6) H (E1 & E2 & E3). exists ra', ps.
  rewrite E1, E2, E3, ?app_nil_r, ?Z.add_0_r in *. split_and!; try done. by apply H.
Qed.

Lemma ctl_complete_ok n a h ra sent comps ep ifc c rest is_async : inv n a h ra sent comps (ep, ifc) -> outstanding_q ifc = c :: rest ->
  exists st', uct_ud_iface_ctl_skb_complete (ep, set_outstanding_q rest ifc) c is_async = Some st' /\
    inv n a h ra sent comps st' /\ quiet (ep, ifc) st' /\ outstanding_q st'.2 = rest.
Proof.
  intros H Eq. destruct (ctl_done_ok _ _ _ _ _ _ _ _ _ _ H Eq) as (ep' & E & H').
  unfold uct_ud_iface_ctl_skb_complete. rewrite (bind_eq _ _ _ E).
  destruct (release_completed_ok _ _ _ _ _ _ _ is_async H') as (w' & r' & cl & aq & -> & H2).
  eexists. split; [done|]. by split_and!.
Qed.

Lemma completion_loop_ok n a h ra sent comps q comp_sn is_async : forall st, inv n a h ra sent comps st -> outstanding_q st.2 = q ->
  exists st', send_completion_loop q st comp_sn is_async = Some st' /\ inv n a h ra sent comps st' /\ quiet st st'.
Proof.
  induction q as [|c q IH]; intros [ep ifc] H Eq; cbn [send_completion_loop]; [by eexists|].
  destruct (psn_le _ _); [|by eexists].
  destruct (ctl_complete_ok _ _ _ _ _ _ _ _ _ _ is_async H Eq) as (st1 & E & H1 & (Q1 & Q2 & Q3) & Eq1).
  rewrite (bind_eq _ _ _ E). destruct (IH st1 H1 Eq1) as (st2 & E2 & H2 & (P1 & P2 & P3)).
  exists st2. split_and!; try done. split_and!; congruence.
Qed.

Lemma completion_ok n a h ra sent comps st comp_sn is_async : inv n a h ra sent comps st ->
  exists st', uct_ud_iface_send_completion st comp_sn is_async = Some st' /\ local_post n a h ra sent comps st [] [] st'.
Proof.
  intros H. destruct (completion_loop_ok n a h ra sent comps (outstanding_q st.2) comp_sn is_async st H eq_refl) as (st' & E & H' & (Q1 & Q2 & Q3)).
  exists st'. split; [done|]. by apply local_inv.
Qed.

Lemma async_comps_ok n a h ra sent comps st : inv n a h ra sent comps st ->
  local_post n a h ra sent comps st [] [] (uct_ud_iface_dispatch_async_comps st).
Proof.
  intros [H1 H2 H3 H4 H5 H6 H7 H8 H9 H10 H11 H12 H13 H14 H15]. destruct st as [ep ifc]. apply local_inv; try done.
  constructor; try done. cbn. by rewrite app_nil_r.
Qed.

Lemma pending_rx_ok n a h ra sent comps st k : inv n a h ra sent comps st ->
  local_post n a h ra sent comps st [] [] (uct_ud_iface_dispatch_pending_rx k st).
Proof.
  intros [H1 H2 H3 H4 H5 H6 H7 H8 H9 H10 H11 H12 H13 H14 H15]. destruct st as [ep ifc]. apply local_inv; try done.
  cbn [uct_ud_iface_dispatch_pending_rx snd am_log pending_q set_pending_q set_am_log].
  by rewrite <- app_assoc, take_drop.
Qed.

(** *** Flush *)

Lemma last_ack_ok n a h ra sent comps st : inv n a h ra sent comps st ->
  uct_ud_ep_is_last_ack_received st.1 = bool_decide (a = n - 1).
Proof.
  intros [H1 H2 H3 H4 [H5 H5'] [H6 H6'] H7 H8 H9 H10 H11 H12 H13 H14 H15]. unfold UCT_UD_CA_MAX_WINDOW in *.
  unfold uct_ud_ep_is_last_ack_received, psn_eq, psn_diff. rewrite H3, H4.
  assert (FragList.sn_diff (u16 a) (u16 n - 1) = a - (n - 1)) as ->.
  { pose proof (FragList.sn_diff_u16 a n 0 (-1)) as E. rewrite !Z.add_0_r in E. apply E. unfold FragList.half. lia. }
  case_bool_decide; [by apply Z.eqb_eq; lia|by apply Z.eqb_neq; lia].
Qed.

(** An empty window: everything is acknowledged, nothing is being resent. *)
Lemma window_empty n a h ra sent comps st : inv n a h ra sent comps st -> window (tx st.1) = [] ->
  a = n - 1 /\ resend_count (tx st.1) = 0.
Proof.
  intros [H1 H2 H3 H4 [H5 H5'] [H6 H6'] H7 H8 (lo & W & _) H10 H11 (H12 & H12' & H12'') H13 H14 H15] E. rewrite E in *. split.
  - pose proof (wo_next _ _ _ _ _ _ _ W) as Ex. pose proof (wo_lo _ _ _ _ _ _ _ W). simpl in Ex. lia.
  - destruct (resent st.2) as [|x R]; [done|]. destruct (proj1 (H12' x) ltac:(by left)) as (s & Hs & _).
    by apply not_elem_of_nil in Hs.
Qed.

Lemma inv_comps n a h ra sent comps cs st : inv n a h ra sent comps st -> inv n a h ra sent (comps ++ cs) st.
Proof.
  intros [H1 H2 H3 H4 H5 H6 H7 H8 (lo & [W1 W2 W3 W4 W5] & R) H10 H11 H12 H13 H14 H15]. constructor; try done.
  - exists lo. split; [|done]. constructor; try done. intros k s Hk. destruct (W4 k s Hk). constructor; try done.
    intros c Hc. apply elem_of_app. left. auto.
  - intros c status Hc. destruct (H15 _ _ Hc) as [? (k & ? & ?)]. split; [done|]. exists k. split; [|done]. apply elem_of_app. by left.
Qed.

(** The skb of a flush, which completes with the last packet before it. *)
Lemma push_dummy n a h ra sent comps ep ifc c now : inv n a h ra sent comps (ep, ifc) -> window (tx ep) <> [] ->
  skbs_in_use (ep, ifc) < tx_mp_max cfg -> now = u16 (psn (tx ep) - 1) ->
  inv n a h ra sent (comps ++ [(c, n - 1)])
    (upd_tx (fun t => set_window (window t ++ [Skb (next_skb ifc) (Packet UCT_UD_EP_NULL_ID now 0 (Bytes [])) neth_size true (Some c) false]) t) ep,
     set_next_skb (next_skb ifc + 1) ifc).
Proof.
  intros H Hne Hu ->. pose proof (inv_comps _ _ _ _ _ _ [(c, n - 1)] _ H)
    as [H1 H2 H3 H4 [H5 H5'] [H6 H6'] H7 H8 (lo & [W1 W2 W3 W4 W5] & R) H10 [H11 H11'] (H12 & H12' & H12'') H13 H14 H15].
  cbn [fst snd] in *. set (s := Skb _ _ _ _ _ _).
  constructor; cbn [fst snd]; try done.
  - exists lo. cbn [window set_window upd_tx set_tx tx resend ops]. rewrite numbered_snoc, W2. split.
    + constructor; [done| | | |].
      * rewrite next_number_app. done.
      * rewrite length_app. unfold skbs_in_use in Hu. cbn in Hu |- *. lia.
      * intros k s'. rewrite numbered_snoc, W2. intros [Hk|Hk%list_elem_of_singleton]%elem_of_app; [by apply W4|].
        simplify_eq. cbn. constructor; [|done|].
        -- cbn. rewrite H3. rewrite <- !Z.add_opp_r. apply u_wrap_add_l.
        -- cbn. intros c' [= <-]. apply elem_of_app. right. by left.
      * rewrite fmap_app. apply NoDup_app. split_and!; [done| |apply NoDup_singleton].
        intros x (s' & -> & Hs')%list_elem_of_fmap E%list_elem_of_singleton. apply H11 in Hs'. simpl in E. lia.
    + eapply resend_ok_push; [done|lia|done|]. intros E. apply H11' in E. simpl in E. lia.
  - simpl. split; [|intros i Hi%H11'; lia].
    intros s' [Hs'%H11| ->%list_elem_of_singleton]%elem_of_app; simpl; lia.
  - split_and!; try done. intros i. rewrite H12'. simpl. split; intros (s' & Hs' & Hi & Hr'); exists s'; split_and!; try done.
    + apply elem_of_app. by left.
    + apply elem_of_app in Hs' as [?| ->%list_elem_of_singleton]; [done|]. by simpl in Hr'.
Qed.

Lemma comp_skb_ok n a h ra sent comps st r c : inv n a h ra sent comps st ->
  exists status st', uct_ud_ep_comp_skb_add cfg r st c = Some (status, st') /\ status <> UCS_OK /\
    inv n a h ra sent (comps ++ match c with Some c => if accepted status then [(c, n - 1)] else [] | None => [] end) st' /\
    quiet st st'.
Proof.
  intros H. unfold uct_ud_ep_comp_skb_add. destruct c as [c|].
  2:{ eexists _, st. split; [done|]. rewrite app_nil_r. by split_and!. }
  destruct (mpool_ok r && _) eqn:Hm; cbn [negb].
  2:{ eexists _, st. split; [done|]. cbn [accepted]. rewrite app_nil_r. by split_and!. }
  apply andb_true_iff in Hm as [_ Hu%Z.ltb_lt]. destruct st as [ep ifc]. case_bool_decide as Hw.
  - destruct (window_empty _ _ _ _ _ _ _ H Hw) as [Ea Ec]. cbn [fst] in Ec. rewrite Ec. cbn [Z.eqb negb]. eexists _, _. split; [done|].
    split_and!; try done. apply (inv_comps _ _ _ _ _ _ [(c, n - 1)]) in H as [H1 H2 H3 H4 H5 H6 H7 H8 H9 H10 [H11 H11'] H12 H13 H14 H15].
    constructor; try done.
    + split; [intros s Hs%H11|intros i Hi%H11']; cbn in *; lia.
    + cbn. intros c' status. rewrite app_assoc. intros [Hc|Hc%list_elem_of_singleton]%elem_of_app; [by apply H15|].
      simplify_eq. split; [done|]. exists (n - 1). split; [apply elem_of_app; right; by left|lia].
  - eexists _, _. split; [done|]. split_and!; try done. by apply push_dummy.
Qed.

(** The flags of the window that are not those of resends. *)
Lemma inv_flags_update n a h ra sent comps ep ifc id : inv n a h ra sent comps (ep, ifc) ->
  inv n a h ra sent comps (upd_tx (fun t => set_window (update_skb id set_ack_req (window t)) t) ep, ifc).
Proof.
  intros [H1 H2 H3 H4 H5 H6 H7 H8 (lo & W & R) H10 [H11 H11'] (H12 & H12' & H12'') H13 H14 H15]. cbn [fst snd] in *.
  set (f := fun x => if skb_id x =? id then set_ack_req x else x).
  assert (forall x, neth (f x) = neth x /\ skb_id (f x) = skb_id x /\ comp (f x) = comp x) as Hf.
  { intros x. unfold f. by destruct (skb_id x =? id). }
  assert (forall x, resending (f x) = resending x) as Hfr by (intros x; unfold f; by destruct (skb_id x =? id)).
  destruct (window_update n a lo sent comps (window (tx ep)) f W Hf) as [W' _].
  constructor; cbn [fst snd]; try done.
  - exists lo. split; [done|]. apply (resend_ok_clear _ _ _ _ f); [done|intros x; by destruct (Hf x) as (? & ? & _)|].
    intros x. by rewrite Hfr.
  - split; [|done]. intros s. cbn. intros (s1 & -> & Hs1)%list_elem_of_fmap. change (skb_id (f s1) < next_skb ifc).
    destruct (Hf s1) as (_ & -> & _). by apply H11.
  - split_and!; try done. intros i. rewrite H12'. cbn. unfold update_skb. fold f. split.
    + intros (s & Hs & Es & Hr). exists (f s). rewrite Hfr. destruct (Hf s) as (_ & -> & _).
      split_and!; try done. by apply list_elem_of_fmap_2.
    + intros (s & (s1 & -> & Hs1)%list_elem_of_fmap & Es & Hr). exists s1. rewrite Hfr in Hr.
      destruct (Hf s1) as (_ & E & _). by rewrite E in Es.
Qed.

Lemma ack_req_do_ok n a h ra sent comps st r now : inv n a h ra sent comps st ->
  ctl_result r st (uct_ud_ep_ack_req_do cfg r now st) (local_post n a h ra sent comps st [] []).
Proof.
  intros H. destruct st as [ep ifc]. unfold uct_ud_ep_ack_req_do.
  assert (inv n a h ra sent comps (uct_ud_ep_ctl_op_add UCT_UD_EP_OP_ACK_REQ ep, ifc)) as H1.
  { apply inv_op_add; [done|apply ops_ok_bit; lia|]. unfold UCT_UD_EP_OP_ACK_REQ. by rewrite testbit_bit by lia. }
  change (upd_tx _ ep) with (uct_ud_ep_ctl_op_add UCT_UD_EP_OP_ACK_REQ ep). destruct (uct_ud_ep_ctl_op_check_ex _ _).
  - by apply (pending_ctl_ok _ _ _ _ _ _ _ r now) in H1.
  - by apply local_inv.
Qed.

(** The part of a flush before its completion is added. *)
Lemma flush_ack_ok n a h ra sent comps st r now : inv n a h ra sent comps st ->
  ctl_result r st (if negb (uct_ud_ep_is_last_ack_received st.1) then
            skb ← last (window (tx st.1));
            if skb_ack_req skb then Some st
            else
              '(ep, ifc) ← uct_ud_ep_ack_req_do cfg r now st;
              Some (upd_tx (fun t => set_window (update_skb (skb_id skb) set_ack_req (window t)) t) ep, ifc)
          else Some (uct_ud_ep_ctl_op_del UCT_UD_EP_OP_ACK_REQ st.1, st.2))
    (local_post n a h ra sent comps st [] []).
Proof.
  intros H. rewrite (last_ack_ok _ _ _ _ _ _ _ H). case_bool_decide as Ha; cbn [negb].
  { apply local_inv; try done. destruct st. by apply inv_op_del. }
  destruct (last (window (tx st.1))) as [s|] eqn:El.
  2:{ apply last_None in El. by destruct (window_empty _ _ _ _ _ _ _ H El). }
  cbn [mbind option_bind]. destruct (skb_ack_req s); [by apply local_refl|].
  pose proof (ack_req_do_ok _ _ _ _ _ _ _ r now H) as H1. destruct (uct_ud_ep_ack_req_do cfg r now st) as [[ep ifc]|]; [|done].
  eapply local_quiet; [exact H1| |done]. intros ra' H2. rewrite app_nil_r. by apply inv_flags_update.
Qed.

Lemma local_comps_nil n a h ra sent comps st st' : local_post n a h ra sent comps st [] [] st' ->
  exists ra', inv n a h ra' sent comps st'.
Proof. intros (ra' & ps & H & _). rewrite !app_nil_r, Z.add_0_r in H. by exists ra'. Qed.

(** The messages that a flush waits for. *)
Definition flush_comp (status : ucs_status_t) (c : option Z) (k : Z) : list (Z * Z) :=
  match c with Some c => if bool_decide (status = UCS_INPROGRESS) then [(c, k)] else [] | None => [] end.

Lemma flush_ok n a h ra sent comps st r now c : inv n a h ra sent comps st ->
  ctl_result r st (uct_ud_ep_flush cfg r now st false c) (fun res =>
    local_post n a h ra sent comps st [] (flush_comp res.1 c (n - 1)) res.2 /\ (res.1 = UCS_OK -> a = n - 1)).
Proof.
  intros H. destruct st as [ep ifc] eqn:Est. unfold uct_ud_ep_flush.
  assert (forall status : ucs_status_t, status <> UCS_INPROGRESS ->
    local_post n a h ra sent comps (ep, ifc) [] (flush_comp status c (n - 1)) (ep, ifc)) as Hrefl.
  { intros status Hs. unfold flush_comp. rewrite bool_decide_eq_false_2 by done. destruct c; by apply local_refl. }
  destruct (pending_async_ev r); [split; [by apply Hrefl|done]|].
  unfold uct_ud_ep_flush_nolock. cbn [fst snd]. rewrite (connected_ok _ _ _ _ _ _ _ _ H). cbn [mbind option_bind negb].
  destruct (negb (can_tx r) || _ || _); [split; [by apply Hrefl|done]|].
  case_bool_decide as Hw; [case_bool_decide as Hq|]; cbn [andb].
  { destruct (window_empty _ _ _ _ _ _ _ H Hw) as [Ea Ec]. cbn [fst] in *. rewrite Ec. cbn [Z.eqb negb mbind option_bind fst].
    rewrite bool_decide_eq_true_2 by done. split; [by apply Hrefl|done]. }
  all: pose proof (flush_ack_ok _ _ _ _ _ _ _ r now H) as H1; cbn [fst snd] in H1.
  all: match type of H1 with ctl_result _ _ ?o _ => match goal with |- context [mbind (fun st => uct_ud_ep_comp_skb_add _ _ st _) ?g] =>
    change g with o; destruct o as [st1|]; [|exact H1] end end; cbn [ctl_result mbind option_bind] in H1 |- *.
  all: destruct (local_comps_nil _ _ _ _ _ _ _ _ H1) as (ra' & H2).
  all: destruct (comp_skb_ok _ _ _ _ _ _ _ r c H2) as (status & st2 & E2 & Hs & _ & Hqu); rewrite (bind_eq _ _ _ E2).
  all: assert (status <> UCS_OK) as Hs' by done; replace (match status with UCS_OK => _ | _ => _ end) with (Some (status, st2)) by (by destruct status).
  all: split; [|done].
  all: eapply local_quiet; [exact H1| |exact Hqu]; intros ra2 H3.
  all: destruct (comp_skb_ok _ _ _ _ _ _ _ r c H3) as (status' & st2' & E2' & _ & H4 & _); rewrite E2' in E2; simplify_eq.
  all: unfold flush_comp; destruct c; [|done]; by destruct status.
Qed.

(** *** Timer *)

Lemma ca_drop_ok n a h ra sent comps ep ifc : inv n a h ra sent comps (ep, ifc) ->
  inv n a h ra sent comps (uct_ud_ep_ca_drop ep, ifc).
Proof.
  intros [H1 H2 H3 H4 [H5 H5'] [H6 H6'] H7 H8 H9 H10 H11 H12 H13 H14 H15]. cbn [fst snd] in *.
  unfold uct_ud_ep_ca_drop, UCT_UD_CA_MD_FACTOR, UCT_UD_CA_MIN_WINDOW, psn_gt, UCT_UD_CA_MAX_WINDOW in *.
  set (w := if cwnd (ca ep) / 2 <? 2 then 2 else cwnd (ca ep) / 2).
  assert (2 <= w <= wmax (ca ep)) as Hw.
  { pose proof (Z.div_le_upper_bound (cwnd (ca ep)) 2 (cwnd (ca ep))). unfold w. destruct (Z.ltb_spec (cwnd (ca ep) / 2) 2); lia. }
  clearbody w. cbn [upd_tx tx set_tx set_ca max_psn set_max_psn psn]. rewrite H3, H4, u_wrap_add_l, psn_diff_ok by (unfold half; lia).
  destruct (Z.ltb_spec 0 (a + w - n)); constructor; cbn [fst snd]; try done; cbn; try lia.
  - exists n. split; [done|lia].
  - exists (a + w). rewrite H4, u_wrap_add_l. split; [done|lia].
Qed.

Lemma resent_nil n a h ra sent comps st : inv n a h ra sent comps st -> resend_count (tx st.1) = 0 ->
  forall s, s ∈ window (tx st.1) -> resending s = false.
Proof.
  intros [H1 H2 H3 H4 H5 H6 H7 H8 (lo & W & _) H10 H11 (H12 & H12' & H12'') H13 H14 H15] E s Hs.
  assert (length (resent st.2) <= length (skb_id <$> window (tx st.1)))%nat as Hl.
  { apply submseteq_length, NoDup_submseteq; [done|]. intros i (s' & Hs' & <- & _)%H12'. by apply list_elem_of_fmap_2. }
  rewrite length_fmap in Hl. pose proof (wo_len _ _ _ _ _ _ _ W). rewrite H12'', u_wrap_small in E by lia.
  destruct (resending s) eqn:Hr; [|done]. destruct (resent st.2) as [|x R]; [|simpl in E; lia].
  assert (skb_id s ∈ @nil Z) as Hn by (apply H12'; by exists s). by apply not_elem_of_nil in Hn.
Qed.

Lemma resend_start_ok n a h ra sent comps ep ifc : inv n a h ra sent comps (ep, ifc) -> a <> n - 1 ->
  resend_count (tx ep) = 0 -> inv n a h ra sent comps (uct_ud_ep_resend_start ep, ifc).
Proof.
  intros H Ha Hc. pose proof (resent_nil _ _ _ _ _ _ _ H Hc) as Hr.
  destruct H as [H1 H2 H3 H4 [H5 H5'] [H6 H6'] H7 H8 (lo & W & R) H10 H11 H12 H13 H14 H15]. cbn [fst snd] in *.
  constructor; cbn [fst snd]; try done.
  - apply ops_ok_add; [done|]. apply ops_ok_bit. lia.
  - exists lo. split; [done|]. exists (a + 1), (n - 1). cbn. rewrite H3, H4, u16_succ.
    split_and!; [done|rewrite <- !Z.add_opp_r; apply u_wrap_add_l| |done]. right. split_and!; try lia. left. split_and!; try done.
    intros k s Hk Hrs. rewrite Hr in Hrs; [done|]. by eapply numbered_in.
  - split; [apply H11|done].
Qed.

(** The times and the flags of the timer do not matter for the invariant. *)
Definition same_queues (ifc ifc' : iface_t) : Prop :=
  outstanding_q ifc' = outstanding_q ifc /\ async_comp_q ifc' = async_comp_q ifc /\ pending_q ifc' = pending_q ifc /\
  next_skb ifc' = next_skb ifc /\ wire ifc' = wire ifc /\ rx_log ifc' = rx_log ifc /\ am_log ifc' = am_log ifc /\
  comp_log ifc' = comp_log ifc.

Lemma check_pending_keeps cur last ifc ifc' : same_queues ifc ifc' -> same_queues ifc (uct_ud_ep_check_pending cfg cur last ifc').
Proof. intros H. unfold uct_ud_ep_check_pending. by destruct (_ && _). Qed.

Lemma timer_end_inv n a h ra sent comps st ep ifc tk cur x y : inv n a h ra sent comps (ep, st.2) -> same_queues st.2 ifc ->
  inv n a h ra sent comps (upd_tx (set_tick tk) ep, timer_out cfg cur x y ifc) /\
  quiet st (upd_tx (set_tick tk) ep, timer_out cfg cur x y ifc).
Proof.
  intros H Hq. assert (same_queues st.2 (timer_out cfg cur x y ifc)) as (Q1 & Q2 & Q3 & Q4 & Q5 & Q6 & Q7 & Q8).
  { unfold timer_out. by apply check_pending_keeps. }
  split; [|split_and!; cbn [snd]; congruence]. eapply inv_ctl; [exact H| |apply H|apply H|apply H|done].
  split_and!; try done. unfold resent. cbn [snd]. congruence.
Qed.

Lemma timer_end_ok n a h ra sent comps st ep ifc tk cur x y : inv n a h ra sent comps (ep, st.2) -> same_queues st.2 ifc ->
  local_post n a h ra sent comps st [] [] (upd_tx (set_tick tk) ep, timer_out cfg cur x y ifc).
Proof.
  intros H Hq. destruct (timer_end_inv n a h ra sent comps st ep ifc tk cur x y H Hq) as [H1 (Q1 & Q2 & Q3)]. by apply local_inv.
Qed.

Lemma timer_resend_ok n a h ra sent comps ep ifc (x y : bool) : inv n a h ra sent comps (ep, ifc) -> a <> n - 1 ->
  resend_count (tx ep) = 0 ->
  exists ep', (if x then
            let ep := if y then uct_ud_ep_resend_start (uct_ud_ep_ca_drop ep) else ep in
            connected ← uct_ud_ep_is_connected ep;
            Some (if connected : bool then uct_ud_ep_ctl_op_add UCT_UD_EP_OP_ACK_REQ ep else ep)
          else Some ep) = Some ep' /\ inv n a h ra sent comps (ep', ifc).
Proof.
  intros H Ha Hc. destruct x; [|by exists ep].
  assert (inv n a h ra sent comps (if y then uct_ud_ep_resend_start (uct_ud_ep_ca_drop ep) else ep, ifc)) as H1.
  { destruct y; [|done]. apply resend_start_ok; [by apply ca_drop_ok|done|]. unfold uct_ud_ep_ca_drop. by destruct (psn_gt _ _). }
  cbn zeta. rewrite (connected_ok _ _ _ _ _ _ _ _ H1). eexists. split; [done|].
  apply inv_op_add; [done|apply ops_ok_bit; lia|]. unfold UCT_UD_EP_OP_ACK_REQ. by rewrite testbit_bit by lia.
Qed.

Lemma timer_ok n a h ra sent comps st wheel t0 t1 t2 t3 : inv n a h ra sent comps st ->
  exists st', uct_ud_ep_timer cfg wheel t0 t1 t2 t3 st = Some st' /\ local_post n a h ra sent comps st [] [] st'.
Proof.
  intros H. pose proof (last_ack_ok _ _ _ _ _ _ _ H) as Ela. destruct st as [ep ifc]. unfold uct_ud_ep_timer.
  destruct (ei_flags _ _ _ _ _ _ _ _ _ _ H) as [_ F]. cbn [fst snd] in *. rewrite Ela, F.
  set (ifc1 := uct_ud_ep_check_pending cfg t0 _ _).
  assert (same_queues ifc ifc1) as Hq by (by apply check_pending_keeps).
  assert (forall ep' ifc', inv n a h ra sent comps (ep', ifc) -> same_queues ifc ifc' ->
    local_post n a h ra sent comps (ep, ifc) [] [] (ep', timer_out cfg t0 t2 t3 ifc')) as Hout.
  { intros ep' ifc' H' Hq'. pose proof (timer_end_ok n a h ra sent comps (ep, ifc) ep' ifc' (tick (tx ep')) t0 t2 t3 H' Hq') as Ht.
    replace (upd_tx _ ep') with ep' in Ht; [done|]. by destruct ep' as [? ? [] ? ? ? ? ? ? ?]. }
  case_bool_decide as Ha; [eexists; split; [done|by apply Hout]|].
  rewrite bool_decide_eq_false_2; [|intros Hw; by destruct (window_empty _ _ _ _ _ _ _ H Hw)].
  destruct (uct_ud_ep_ctl_op_check ep _ || _) eqn:Hc; [eexists; split; [done|by apply timer_end_ok]|].
  apply orb_false_iff in Hc as [_ Hc%Z.ltb_ge].
  assert (resend_count (tx ep) = 0) as Hc0.
  { destruct (ei_resent _ _ _ _ _ _ _ _ _ _ H) as (_ & _ & E). cbn [fst] in E.
    pose proof (u_wrap_range 16 (Z.of_nat (length (resent ifc))) ltac:(lia)) as Hb. cbn [snd] in E. rewrite <- E in Hb. lia. }
  set (x := iface_tick cfg <? _). set (y := 3 * iface_tick cfg <? _).
  destruct (timer_resend_ok n a h ra sent comps ep ifc x y H Ha Hc0) as (ep1 & E1 & H1). rewrite (bind_eq _ _ _ E1).
  destruct (peer_timeout cfg <? _); [|eexists; split; [done|by apply timer_end_ok]].
  set (ifc2 := uct_ud_ep_check_pending cfg t1 t0 ifc1).
  assert (same_queues ifc ifc2) as Hq2 by (by apply check_pending_keeps).
  case_bool_decide; (eexists; split; [done|]); [by apply Hout|by apply timer_end_ok].
Qed.

(** *** Receiving *)

(** Packets are accepted in order. *)
Lemma insert_in_order (p : packet) h k : - half <= k - h - 1 < half -> k - h < half ->
  exists t, FragList.ucs_frag_list_insert (FragList.ucs_frag_list_init (u16 h) 0) p (u16 k) =
    (t, FragList.ucs_frag_list_init (u16 (if k =? h + 1 then k else h)) 0) /\
    if k =? h + 1 then t = FragList.UCS_FRAG_LIST_INSERT_FAST
    else t = FragList.UCS_FRAG_LIST_INSERT_DUP \/ t = FragList.UCS_FRAG_LIST_INSERT_FAIL.
Proof.
  intros H1 H2. unfold FragList.ucs_frag_list_insert, FragList.ucs_frag_list_insert_slow, FragList.sn_eq.
  cbn [FragList.head_sn FragList.ucs_frag_list_init FragList.elem_count FragList.max_holes].
  rewrite FragList.sn_diff_01 by (unfold half, FragList.half in *; lia).
  destruct (Z.eqb_spec (k - (h + 1)) 0), (Z.eqb_spec k (h + 1)); try lia; cbn [andb Z.eqb].
  - by eexists.
  - destruct (FragList.sn_le _ _); eexists; (split; [done|]); auto.
Qed.

Lemma process_rx_head n a h ra sent comps st p j is_async now : inv n a h ra sent comps st ->
  uct_ud_neth_get_dest_id p = self -> ack_psn p = u16 j -> j < n -> a - j < half ->
  exists ep ifc cl aq, uct_ud_ep_process_rx cfg st p is_async now =
    (let is_am := has (packet_type p) UCT_UD_PACKET_FLAG_AM in
     if negb is_am && has (packet_type p) UCT_UD_PACKET_FLAG_NACK
     then Some (uct_ud_ep_set_state UCT_UD_EP_FLAG_TX_NACKED ep, ifc)
     else if negb is_am && no_body p then Some (ep, ifc)
     else if negb is_am && has (packet_type p) UCT_UD_PACKET_FLAG_CTL then uct_ud_ep_rx_ctl (ep, ifc) p
     else
      let '(ooo_type, fl) := FragList.ucs_frag_list_insert (ooo_pkts (rx ep)) p (p_psn p) in
      let ep := set_rx (Rx (rx_acked_psn (rx ep)) fl) ep in
      match ooo_type with
      | FragList.UCS_FRAG_LIST_INSERT_FAST =>
          let ifc := set_rx_log (rx_log ifc ++ [p]) ifc in
          if negb is_am && has (packet_type p) UCT_UD_PACKET_FLAG_PUT then Some (ep, ifc)
          else if is_async && negb (am_async cfg (uct_ud_neth_get_am_id p))
          then Some (ep, set_pending_q (pending_q ifc ++ [p]) ifc)
          else Some (ep, set_am_log (am_log ifc ++ [p]) ifc)
      | FragList.UCS_FRAG_LIST_INSERT_DUP | FragList.UCS_FRAG_LIST_INSERT_FAIL => Some (ep, ifc)
      | _ => None
      end) /\
    inv n (Z.max a j) h ra sent comps (ep, ifc) /\ ifc = set_comp_log cl (set_async_comp_q aq st.2).
Proof.
  intros H Hd Hack Hj Hfr. unfold uct_ud_ep_process_rx.
  destruct (ei_flags _ _ _ _ _ _ _ _ _ _ H) as [_ F]. destruct (ei_ids _ _ _ _ _ _ _ _ _ _ H) as (Eid & _).
  rewrite (proj2 (Z.eqb_neq (Z.land _ _) _)).
  2:{ intros E. apply (f_equal (fun x => Z.testbit x 0)) in E. unfold UCT_UD_EP_FLAG_DISCONNECTED in *.
      rewrite has_bit in F by lia. rewrite Z.land_spec, F in E. done. }
  rewrite Eid, Hd, Z.eqb_refl, Hack. cbn [negb].
  destruct (process_ack_ok n a h ra sent comps st j is_async now H Hj Hfr) as ([ep1 ifc1] & cl & aq & E & H1 & _ & Eifc).
  rewrite (bind_eq _ _ _ E). cbn [snd] in Eifc.
  match goal with |- context [psn_gt (p_psn p) (FragList.head_sn (ooo_pkts (rx ?e)) + 1)] => set (ep2 := e) end.
  assert (inv n (Z.max a j) h ra sent comps (ep2, ifc1)) as H2.
  { subst ep2. destruct (has _ UCT_UD_PACKET_FLAG_ACK_REQ); [|done]. apply inv_op_add; [done|apply ops_ok_bit; lia|].
    unfold UCT_UD_EP_OP_ACK. by rewrite testbit_bit by lia. }
  match goal with |- context [if psn_gt (p_psn p) ?x then ?e else ep2] => set (ep3 := if psn_gt (p_psn p) x then e else ep2) end.
  assert (inv n (Z.max a j) h ra sent comps (ep3, ifc1)) as H3.
  { subst ep3. destruct (psn_gt _ _); [|done]. apply inv_op_add; [done|apply ops_ok_bit; lia|].
    unfold UCT_UD_EP_OP_NACK. by rewrite testbit_bit by lia. }
  exists ep3, ifc1, cl, aq. by split_and!.
Qed.

(** An acknowledgement. *)
Lemma rx_ctl_ok n a h ra sent comps st p j is_async now : inv n a h ra sent comps st ->
  uct_ud_neth_get_dest_id p = self -> ack_psn p = u16 j -> j < n -> a - j < half ->
  has (packet_type p) UCT_UD_PACKET_FLAG_AM = false -> p_body p = Bytes [] ->
  exists st', uct_ud_ep_process_rx cfg st p is_async now = Some st' /\ inv n (Z.max a j) h ra sent comps st' /\ quiet st st'.
Proof.
  intros H Hd Hack Hj Hfr Ham Hb.
  destruct (process_rx_head _ _ _ _ _ _ _ _ _ is_async now H Hd Hack Hj Hfr) as (ep & ifc & cl & aq & -> & H1 & ->).
  cbn zeta. unfold no_body. rewrite Ham, Hb. cbn [negb andb].
  destruct (has _ UCT_UD_PACKET_FLAG_NACK); (eexists; split; [done|]); [|by split_and!]. split; [|by split_and!].
  destruct (ei_flags _ _ _ _ _ _ _ _ _ _ H1) as [F1 F2]. cbn [fst] in *.
  unfold UCT_UD_EP_FLAG_CONNECTED, UCT_UD_EP_FLAG_DISCONNECTED, UCT_UD_EP_FLAG_TX_NACKED, uct_ud_ep_set_state in *.
  eapply inv_ctl; [exact H1|by split_and!| | |apply H1|done]; cbn [fst flags set_flags];
    unfold UCT_UD_EP_FLAG_CONNECTED, UCT_UD_EP_FLAG_DISCONNECTED; by rewrite flag_other by lia.
Qed.

Definition is_am (p : packet) : bool := has (packet_type p) UCT_UD_PACKET_FLAG_AM.

(** A packet with message [k]: it is accepted exactly when it is the next one. *)
Lemma rx_data_ok n a h ra sent comps st p j k m is_async now : inv n a h ra sent comps st ->
  data_type self p -> ack_psn p = u16 j -> j < n -> a - j < half ->
  p_psn p = u16 k -> decode p = Some m -> - half <= k - h - 1 -> k - h < half ->
  exists st' ps, uct_ud_ep_process_rx cfg st p is_async now = Some st' /\
    inv n (Z.max a j) (if k =? h + 1 then k else h) ra sent comps st' /\ wire st'.2 = wire st.2 /\
    ps = (if k =? h + 1 then [p] else []) /\ rx_log st'.2 = rx_log st.2 ++ ps /\
    ((forall id, am_async cfg id = false) -> (is_async = false -> pending_q st.2 = []) ->
     am_log st'.2 ++ pending_q st'.2 = am_log st.2 ++ pending_q st.2 ++ List.filter is_am ps).
Proof.
  intros H [Hd Ht] Hack Hj Hfr Hk Hm Hlo Hhi.
  destruct (process_rx_head _ _ _ _ _ _ _ _ _ is_async now H Hd Hack Hj Hfr) as (ep & ifc & cl & aq & -> & H1 & ->).
  cbn zeta. destruct (ei_rx _ _ _ _ _ _ _ _ _ _ H1) as [Erx Hh]. cbn [fst] in Erx. rewrite Erx, Hk.
  assert (let am := has (packet_type p) UCT_UD_PACKET_FLAG_AM in negb am && has (packet_type p) UCT_UD_PACKET_FLAG_NACK = false /\
    negb am && no_body p = false /\ negb am && has (packet_type p) UCT_UD_PACKET_FLAG_CTL = false /\
    negb am && has (packet_type p) UCT_UD_PACKET_FLAG_PUT = negb am) as (-> & -> & -> & ->).
  { unfold decode, no_body in *. destruct Ht as [Ht|(E1 & E2 & E3)]; [by rewrite Ht|]. cbn zeta. rewrite E1, E2, E3.
    destruct (has _ UCT_UD_PACKET_FLAG_AM); [done|]. cbn. by destruct (p_body p). }
  destruct (insert_in_order p h k) as (t & -> & Htt); [lia|lia|].
  set (fl := FragList.ucs_frag_list_init _ 0).
  assert (forall ifc', next_skb ifc' = next_skb st.2 -> outstanding_q ifc' = outstanding_q st.2 -> comp_log ifc' = cl ->
    async_comp_q ifc' = aq -> inv n (Z.max a j) (if k =? h + 1 then k else h) ra sent comps
    (set_rx (Rx (rx_acked_psn (rx ep)) fl) ep, ifc')) as Hinv.
  { intros ifc' E1 E2 E3 E4. destruct H1 as [I1 I2 I3 I4 I5 I6 I7 I8 I9 I10 I11 I12 [I13 I13'] [I14 I14'] I15]. cbn [fst snd] in *.
    constructor; cbn [fst snd]; unfold resent in *; rewrite ?E1, ?E2, ?E3, ?E4; try done;
      cbn; (split; [done|]); destruct (Z.eqb_spec k (h + 1)); lia. }
  destruct (Z.eqb_spec k (h + 1)) as [->|Hne].
  - subst t. destruct (has (packet_type p) UCT_UD_PACKET_FLAG_AM) eqn:Ham; cbn [negb].
    + destruct (is_async && negb (am_async cfg _)) eqn:Ea; eexists _, [p]; (split; [done|]);
        (split; [by apply Hinv|]); split_and!; try done; intros Hna Hpq; unfold List.filter, is_am; rewrite Ham; cbn.
      * done.
      * destruct is_async; [by rewrite Hna in Ea|]. rewrite Hpq by done. by rewrite !app_nil_r.
    + eexists _, [p]. split; [done|]. split; [by apply Hinv|]. split_and!; try done.
      intros _ _. unfold List.filter, is_am. rewrite Ham. by rewrite app_nil_r.
  - exists (set_rx (Rx (rx_acked_psn (rx ep)) fl) ep, set_comp_log cl (set_async_comp_q aq st.2)), []. split.
    { destruct Htt as [-> | ->]; done. }
    split; [by apply Hinv|]. split_and!; try done; cbn; by rewrite ?app_nil_r.
Qed.

(** *** The connected endpoint *)

Definition iface_init : iface_t := Iface 0 [] [] [] 0 false [] [] [] [] 0 0 0 false false.

Lemma connect_ok : 0 <= dest < UCT_UD_EP_NULL_ID -> 2 <= max_window cfg <= UCT_UD_CA_MAX_WINDOW ->
  exists ep, uct_ud_ep_connect_to_ep cfg dest (uct_ud_ep_init cfg self) = Some ep /\ inv 1 0 0 0 [] [] (ep, iface_init).
Proof.
  intros Hd Hw. unfold uct_ud_ep_connect_to_ep, uct_ud_ep_set_dest_ep_id. unfold UCT_UD_CA_MAX_WINDOW, UCT_UD_EP_NULL_ID in *.
  change (dest_ep_id (uct_ud_ep_init cfg self) =? 2 ^ 24 - 1) with true.
  rewrite (proj2 (Z.eqb_neq dest (2 ^ 24 - 1))) by lia. eexists. split; [done|].
  constructor; cbn [fst snd]; try done.
  - split_and!; try done; unfold UCT_UD_EP_NULL_ID; lia.
  - cbn. lia.
  - cbn. unfold UCT_UD_CA_MIN_WINDOW, UCT_UD_CA_MAX_WINDOW. lia.
  - exists 3. cbn. split; [done|lia].
  - intros i Hi. cbn. by rewrite Z.testbit_0_l.
  - exists 1. split.
    + constructor; [lia|done|done| |apply NoDup_nil_2]. by intros k s ?%not_elem_of_nil.
    + exists 1, 0. split_and!; try done. left. split; [lia|done].
  - split; [|done]. by intros s ?%not_elem_of_nil.
  - split_and!; [apply NoDup_nil_2| |done]. intros i. split; [by intros ?%not_elem_of_nil|by intros (s & ?%not_elem_of_nil & _)].
  - by intros c status ?%not_elem_of_nil.
Qed.

End Endpoint.

End UdEndpoint.
