(* ===== verification/UdPair.v ===== *)
(** Two UD endpoints connected to each other, over a network that loses,
    duplicates and reorders packets: the transition system of the pair, and what
    the two users observe.

    A network keeps every packet that was posted; an event of the system delivers
    any of them, any number of times and in any order.  The circular comparisons
    of packet numbers need a bound on the age of a packet: it is not delivered
    when the endpoint that posted it has sent or received more than [max_age]
    messages since then. *)

From stdpp Require Import gmap sorting.
From S2P Require Import Prelude.
From S2P Require Import Bits.
From S2P Require Import FragList.
From S2P Require Import Ud.
From S2P Require Import UdEndpoint.

Module UdPair.
Import Ud UdEndpoint.

(** ** The system *)

(** A packet in the network, with the numbers of messages that the endpoint had
    sent and received when it posted it. *)
Record flight := Flight { f_packet : packet; f_sent : nat; f_rcvd : nat }.

(** An endpoint: [sent] are the messages that its user sent, and [(c, k)] in
    [comps] is a completion that the user passed to a call, which has to wait for
    the first [k] messages. *)
Record node := Node {
  ncfg : config;
  ns : state;
  sent : list msg;
  comps : list (Z * Z);
  net : list flight
}.

Definition pair : Type := node * node.

(** The calls of the user, of the progress function and of the timer.  A flush is
    not [UCT_FLUSH_FLAG_CANCEL], which gives up the connection; the user adds no
    pending requests and does not disconnect. *)
Inductive operation :=
| AmShort (r : resources) (now id hdr : Z) (buffer : list Z)
| AmShortIov (r : resources) (now id : Z) (iov : list (list Z))
| AmBcopy (r : resources) (now id : Z) (data : list Z)
| AmZcopy (r : resources) (now id : Z) (header : list Z) (iov : list (list Z)) (c : option Z)
| PutShort (r : resources) (now : Z) (buffer : list Z) (rva : Z)
| Flush (r : resources) (now : Z) (c : option Z)
| PendingCtl (r : resources) (now : Z)
| SendCompletion (comp_sn : Z) (is_async : bool)
| AsyncComps
| PendingRx (max_poll : nat)
| Timer (wheel t0 t1 t2 t3 : Z).

Definition exec (cfg : config) (op : operation) (st : state) : option (ucs_status_t * state) :=
  match op with
  | AmShort r now id hdr buffer => Some (uct_ud_verbs_ep_am_short cfg r now st (u8 id) hdr buffer)
  | AmShortIov r now id iov => Some (uct_ud_verbs_ep_am_short_iov cfg r now st (u8 id) iov)
  | AmBcopy r now id data => Some (uct_ud_verbs_ep_am_bcopy cfg r now st (u8 id) data)
  | AmZcopy r now id header iov c => Some (uct_ud_verbs_ep_am_zcopy cfg r now st (u8 id) header iov c)
  | PutShort r now buffer rva => Some (uct_ud_verbs_ep_put_short cfg r now st buffer rva)
  | Flush r now c => uct_ud_ep_flush cfg r now st false c
  | PendingCtl r now => st ← uct_ud_ep_do_pending_ctl cfg r now st; Some (UCS_OK, st)
  | SendCompletion comp_sn is_async => st ← uct_ud_iface_send_completion st comp_sn is_async; Some (UCS_OK, st)
  | AsyncComps => Some (UCS_OK, uct_ud_iface_dispatch_async_comps st)
  | PendingRx max_poll => Some (UCS_OK, uct_ud_iface_dispatch_pending_rx max_poll st)
  | Timer wheel t0 t1 t2 t3 => st ← uct_ud_ep_timer cfg wheel t0 t1 t2 t3 st; Some (UCS_OK, st)
  end.

(** A call that may need a control skb finds none in the pool: where it does need
    one, the code calls [ucs_fatal]. *)
Definition no_ctl_skb (cfg : config) (op : operation) (st : state) : bool :=
  match op with
  | Flush r _ _ | PendingCtl r _ => negb (uct_ud_iface_ctl_skb_get cfg r st)
  | _ => false
  end.

(** The message of a call. *)
Definition op_msg (op : operation) : list msg :=
  match op with
  | AmShort _ _ id hdr buffer => [MAm (u8 id) (le64 hdr ++ buffer)]
  | AmShortIov _ _ id iov => [MAm (u8 id) (concat iov)]
  | AmBcopy _ _ id data => [MAm (u8 id) data]
  | AmZcopy _ _ id header iov _ => [MAm (u8 id) (header ++ concat iov)]
  | PutShort _ _ buffer rva => [MPut rva buffer]
  | _ => []
  end.

Definition op_comp (op : operation) : option Z :=
  match op with AmZcopy _ _ _ _ _ c | Flush _ _ c => c | _ => None end.

Definition posted (x : node) (st : state) (sent : list msg) : list flight :=
  (fun p => Flight p (length sent) (length (rx_log st.2))) <$> drop (length (wire (ns x).2)) (wire st.2).

Definition local (op : operation) (x : node) : option (ucs_status_t * node) :=
  '(status, st) ← exec (ncfg x) op (ns x);
  let sent := sent x ++ (if accepted status then op_msg op else []) in
  let comps := comps x ++ flush_comp status (op_comp op) (Z.of_nat (length sent)) in
  Some (status, Node (ncfg x) st sent comps (net x ++ posted x st sent)).

Definition max_age : nat := 4096.

(** Packet [i] of the network of [x] arrives at [y], or nothing does.  The
    receive queue is only polled by the progress function when no received
    message is pending. *)
Definition deliver (i : nat) (is_async : bool) (now : Z) (x y : node) : option node :=
  match net x !! i with
  | None => Some y
  | Some f =>
      if (length (sent x) - f_sent f <=? max_age)%nat && (length (rx_log (ns x).2) - f_rcvd f <=? max_age)%nat &&
         (is_async || bool_decide (pending_q (ns y).2 = []))
      then
        st ← uct_ud_ep_process_rx (ncfg y) (ns y) (f_packet f) is_async now;
        Some (Node (ncfg y) st (sent y) (comps y) (net y))
      else Some y
  end.

(** [second] says which of the two endpoints acts, or receives. *)
Inductive event :=
| Local (second : bool) (op : operation)
| Deliver (second : bool) (i : nat) (is_async : bool) (now : Z).

Definition step (p : pair) (e : event) : option pair :=
  match e with
  | Local false op => '(_, x) ← local op p.1; Some (x, p.2)
  | Local true op => '(_, y) ← local op p.2; Some (p.1, y)
  | Deliver true i is_async now => y ← deliver i is_async now p.1 p.2; Some (p.1, y)
  | Deliver false i is_async now => x ← deliver i is_async now p.2 p.1; Some (x, p.2)
  end.

Definition starved (p : pair) (e : event) : bool :=
  match e with
  | Local second op => let x := if second then p.2 else p.1 in no_ctl_skb (ncfg x) op (ns x)
  | Deliver _ _ _ _ => false
  end.

Fixpoint run (es : list event) (p : pair) : option pair :=
  match es with
  | [] => Some p
  | e :: es => p ← step p e; run es p
  end.

(** No call of the run finds the pool of control skbs empty. *)
Fixpoint supplied (es : list event) (p : pair) : bool :=
  match es with
  | [] => true
  | e :: es => negb (starved p e) && match step p e with Some p => supplied es p | None => true end
  end.

(** Both endpoints after [uct_ud_ep_connect_to_ep]. *)
Definition connect (cfg : config) (self dest : Z) : option node :=
  ep ← uct_ud_ep_connect_to_ep cfg dest (uct_ud_ep_init cfg self);
  Some (Node cfg (ep, iface_init) [] [] []).

Definition connect_pair (cfga cfgb : config) (ida idb : Z) : option pair :=
  x ← connect cfga ida idb;
  y ← connect cfgb idb ida;
  Some (x, y).

(** The limits of the configuration: the window is checked when the interface is
    created; the pool of skbs has to be smaller than a quarter of the numbers. *)
Definition config_ok (cfg : config) : bool :=
  (2 <=? max_window cfg) && (max_window cfg <=? UCT_UD_CA_MAX_WINDOW) && (tx_mp_max cfg <=? 2 ^ 14).

Definition id_ok (id : Z) : bool := (0 <=? id) && (id <? UCT_UD_EP_NULL_ID).

(** What the user of an endpoint has received. *)
Definition delivered (x : node) : list msg := omap decode (rx_log (ns x).2).

(** ** The invariant of the pair *)

(** A packet in the network of an endpoint whose counters are [n], [h], [ra]. *)
Definition flight_ok (dest n h ra : Z) (sent : list msg) (f : flight) : Prop :=
  let n0 := Z.of_nat (f_sent f) + 1 in
  let h0 := Z.of_nat (f_rcvd f) in
  n0 <= n /\ h0 <= h /\
  (exists j, ack_psn (f_packet f) = u16 j /\ h0 - UCT_UD_CA_MAX_WINDOW <= j <= ra) /\
  (data_packet dest n0 sent (f_packet f) \/ ctl_packet dest n0 (f_packet f)).

Record node_inv (x : node) (self dest n a h ra : Z) : Prop := NodeInv {
  ni_cfg : tx_mp_max (ncfg x) <= 2 ^ 14;
  ni_ep : ep_inv (ncfg x) self dest n a h ra (sent x) (comps x) (ns x);
  ni_rcvd : Z.of_nat (length (rx_log (ns x).2)) = h;
  ni_net : forall f, f ∈ net x -> flight_ok dest n h ra (sent x) f;
  ni_am : (forall id, am_async (ncfg x) id = false) ->
    am_log (ns x).2 ++ pending_q (ns x).2 = List.filter is_am (rx_log (ns x).2)
}.

(** What [y] has received from [x]. *)
Record link_inv (x y : node) (n a h ra : Z) : Prop := LinkInv {
  li_acked : a <= ra;
  li_rcvd : h < n;
  li_order : decode <$> rx_log (ns y).2 = Some <$> take (Z.to_nat h) (sent x)
}.

Definition pair_inv (p : pair) : Prop :=
  exists ida idb na aa ha raa nb ab hb rab,
    node_inv p.1 ida idb na aa ha raa /\ node_inv p.2 idb ida nb ab hb rab /\
    link_inv p.1 p.2 na aa hb rab /\ link_inv p.2 p.1 nb ab ha raa.

Lemma send_local cfg self dest n a h ra sent comps st m c status st' : send_post cfg self dest n a h ra sent comps st m c (status, st') ->
  ep_inv cfg self dest n a h ra sent comps st -> (status = UCS_OK -> c = None) ->
  local_post cfg self dest n a h ra sent comps st (if accepted status then [m] else [])
    (flush_comp status c (Z.of_nat (length (sent ++ if accepted status then [m] else [])))) st'.
Proof.
  unfold send_post. cbn [fst snd]. intros H Hinv Hc. pose proof (ei_sent _ _ _ _ _ _ _ _ _ _ Hinv) as El.
  destruct (accepted status) eqn:Ha.
  - rewrite length_app. cbn [length]. replace (Z.of_nat (length sent + 1)) with n by lia. unfold flush_comp.
    destruct status; try done. by rewrite (Hc eq_refl) in *.
  - unfold flush_comp. destruct status; try done; by destruct c.
Qed.

(** Every call succeeds as a program, whatever status it returns, unless the pool
    has no control skb. *)
Lemma exec_ok cfg self dest n a h ra sent comps st op : tx_mp_max cfg <= 2 ^ 14 -> ep_inv cfg self dest n a h ra sent comps st ->
  match exec cfg op st with
  | Some (status, st') =>
      let ms := if accepted status then op_msg op else [] in
      local_post cfg self dest n a h ra sent comps st ms (flush_comp status (op_comp op) (Z.of_nat (length (sent ++ ms)))) st' /\
      (forall r now c, op = Flush r now c -> status = UCS_OK -> a = n - 1)
  | None => no_ctl_skb cfg op st = true
  end.
Proof.
  intros Hmp H. assert (forall id, 0 <= u8 id) as Hid by (intros id; apply (u_wrap_range 8); lia).
  destruct op as [r now id hdr buf|r now id iov|r now id data|r now id header iov c|r now buf rva|r now c|r now|sn async| |k|w t0 t1 t2 t3];
    cbn [exec no_ctl_skb].
  - destruct (uct_ud_verbs_ep_am_short _ _ _ _ _ _ _) as [status st'] eqn:E. split; [|done].
    apply send_local; [|done|done]. rewrite <- E. by apply am_short_ok.
  - destruct (uct_ud_verbs_ep_am_short_iov _ _ _ _ _ _) as [status st'] eqn:E. split; [|done].
    apply send_local; [|done|done]. rewrite <- E. by apply am_short_iov_ok.
  - destruct (uct_ud_verbs_ep_am_bcopy _ _ _ _ _ _) as [status st'] eqn:E. split; [|done].
    apply send_local; [|done|done]. rewrite <- E. by apply am_bcopy_ok.
  - destruct (uct_ud_verbs_ep_am_zcopy _ _ _ _ _ _ _ _) as [status st'] eqn:E. split; [|done].
    apply send_local; [|done|]; [rewrite <- E; by apply am_zcopy_ok|]. intros ->. unfold uct_ud_verbs_ep_am_zcopy in E.
    pose proof (am_common_ok _ _ _ _ _ _ _ _ _ _ r (u8 id) (header ++ concat iov) H (Hid id)) as Hc. destruct (_ || _); [done|].
    destruct (uct_ud_am_skb_common _ _ _ _ _) as [?|[? []]]; by simplify_eq.
  - destruct (uct_ud_verbs_ep_put_short _ _ _ _ _ _) as [status st'] eqn:E. split; [|done].
    apply send_local; [|done|done]. rewrite <- E. by apply put_short_ok.
  - pose proof (flush_ok _ _ _ Hmp _ _ _ _ _ _ _ r now c H) as Hf.
    destruct (uct_ud_ep_flush _ _ _ _ _ _) as [[status st']|]; [|by apply negb_true_iff]. destruct Hf as [Hl Ha]. cbn [fst snd] in *.
    cbn [op_msg op_comp]. pose proof (ei_sent _ _ _ _ _ _ _ _ _ _ H) as El. split; [|by intros ? ? ? [=]; subst].
    destruct (accepted status); rewrite app_nil_r, El; done.
  - pose proof (pending_ctl_ok _ _ _ _ _ _ _ _ _ _ r now H) as Hl.
    by destruct (uct_ud_ep_do_pending_ctl _ _ _ _) as [st'|]; [|by apply negb_true_iff].
  - by destruct (completion_ok _ _ _ Hmp _ _ _ _ _ _ _ sn async H) as (st' & -> & Hl).
  - split; [|done]. by apply async_comps_ok.
  - split; [|done]. by apply pending_rx_ok.
  - by destruct (timer_ok _ _ _ _ _ _ _ _ _ _ w t0 t1 t2 t3 H) as (st' & -> & Hl).
Qed.

(** ** Steps of the pair *)

Lemma data_packet_mono dest n sent ms p : Z.of_nat (length sent) >= n - 1 -> data_packet dest n sent p ->
  data_packet dest n (sent ++ ms) p.
Proof.
  intros Hn (k & H1 & H2 & H3 & H4 & H5). exists k. split_and!; try done || lia. rewrite lookup_app_l by lia. done.
Qed.

Lemma flight_ok_mono dest n n' h h' ra ra' sent ms f : flight_ok dest n h ra sent f -> n <= n' -> h <= h' -> ra <= ra' ->
  Z.of_nat (length sent) = n - 1 -> flight_ok dest n' h' ra' (sent ++ ms) f.
Proof.
  intros (H1 & H2 & (j & H3 & H4) & H5) Hn Hh Hra Hl. split_and!; [lia|lia| |].
  - exists j. split; [done|lia].
  - destruct H5 as [H5|H5]; [left|by right]. apply data_packet_mono; [lia|done].
Qed.

Lemma local_ok op x self dest n a h ra : node_inv x self dest n a h ra -> h - UCT_UD_CA_MAX_WINDOW <= ra ->
  match local op x with
  | Some (status, x') => exists n' ra', node_inv x' self dest n' a h ra' /\ n <= n' /\ ra <= ra' /\
      sent x `prefix_of` sent x' /\ rx_log (ns x').2 = rx_log (ns x).2 /\
      (forall r now c, op = Flush r now c -> status = UCS_OK -> a = n - 1)
  | None => no_ctl_skb (ncfg x) op (ns x) = true
  end.
Proof.
  intros [H1 H2 H3 H4 H5] Hra. pose proof (exec_ok _ _ _ _ _ _ _ _ _ _ op H1 H2) as He. unfold local.
  destruct (exec (ncfg x) op (ns x)) as [[status st']|]; [|exact He]. destruct He as [(ra' & ps & P1 & P2 & P3 & P4 & P5 & P6) Hfl].
  cbn [mbind option_bind]. set (ms := if accepted status then op_msg op else []) in *.
  exists (n + Z.of_nat (length ms)), ra'. split; [|split_and!; [lia|done|by apply prefix_app_r|done|done]].
  constructor; cbn [ncfg ns sent comps net]; [done|done|by rewrite P5| |intros Hn; rewrite P6, P5; auto].
  intros f [Hf|Hf]%elem_of_app.
  - eapply flight_ok_mono; [by apply H4|lia|lia|lia|apply H2].
  - unfold posted in Hf. rewrite P3, drop_app_length in Hf. apply list_elem_of_fmap in Hf as (p & -> & Hp).
    rewrite Forall_forall in P4. destruct (P4 p Hp) as [Ha Hk].
    assert (Z.of_nat (length (sent x ++ ms)) + 1 = n + Z.of_nat (length ms)) as El.
    { pose proof (ei_sent _ _ _ _ _ _ _ _ _ _ H2). rewrite length_app. lia. }
    unfold flight_ok. cbn [f_sent f_rcvd f_packet]. rewrite El, P5, H3. split_and!; [lia|lia| |done].
    exists ra'. split; [done|]. pose proof (ei_ra _ _ _ _ _ _ _ _ _ _ P1). lia.
Qed.

(** The bounds that the receiver of a packet needs. *)
Lemma flight_fresh x y ida idb n a h ra ny ay hy ray f : node_inv x ida idb n a h ra -> node_inv y idb ida ny ay hy ray ->
  link_inv x y n a hy ray -> link_inv y x ny ay h ra -> f ∈ net x ->
  (length (sent x) - f_sent f <= max_age)%nat -> (length (rx_log (ns x).2) - f_rcvd f <= max_age)%nat ->
  exists j, ack_psn (f_packet f) = u16 j /\ j < ny /\ j <= ra /\ ay - j < half /\
    ((exists k m, p_psn (f_packet f) = u16 k /\ data_type idb (f_packet f) /\ decode (f_packet f) = Some m /\
        sent x !! Z.to_nat (k - 1) = Some m /\ 1 <= k < n /\ - half <= k - hy - 1 /\ k - hy < half) \/
     (uct_ud_neth_get_dest_id (f_packet f) = idb /\ has (packet_type (f_packet f)) UCT_UD_PACKET_FLAG_AM = false /\
      p_body (f_packet f) = Bytes [])).
Proof.
  intros [X1 X2 X3 X4 _] [Y1 Y2 Y3 Y4 _] [L1 L2 L3] [M1 M2 M3] Hf Hs Hr.
  destruct (X4 f Hf) as (F1 & F2 & (j & F3 & F4) & F5). pose proof (ei_sent _ _ _ _ _ _ _ _ _ _ X2) as El.
  destruct (ei_window_size _ _ _ _ _ _ _ _ _ _ X2) as [Wx Wx'], (ei_window_size _ _ _ _ _ _ _ _ _ _ Y2) as [Wy Wy'].
  destruct (ei_ca _ _ _ _ _ _ _ _ _ _ X2) as [_ Cx], (ei_ca _ _ _ _ _ _ _ _ _ _ Y2) as [_ Cy].
  destruct (ei_ra _ _ _ _ _ _ _ _ _ _ X2) as [_ Rx'], (ei_ra _ _ _ _ _ _ _ _ _ _ Y2) as [_ Ry].
  unfold max_age, UCT_UD_CA_MAX_WINDOW, half in *.
  exists j. split_and!; [done|lia|lia|lia|]. destruct F5 as [(k & D1 & D2 & D3 & D4 & D5)|(D1 & D2 & D3 & D4 & D5)]; [left|by right].
  destruct (lookup_lt_is_Some_2 (sent x) (Z.to_nat (k - 1)) ltac:(lia)) as [m Hm].
  exists k, m. split_and!; try done || lia. congruence.
Qed.

Lemma deliver_ok i is_async now x y ida idb n a h ra ny ay hy ray : node_inv x ida idb n a h ra -> node_inv y idb ida ny ay hy ray ->
  link_inv x y n a hy ray -> link_inv y x ny ay h ra ->
  exists y' ay' hy', deliver i is_async now x y = Some y' /\ node_inv y' idb ida ny ay' hy' ray /\
    link_inv x y' n a hy' ray /\ link_inv y' x ny ay' h ra.
Proof.
  intros HX HY HL HM. unfold deliver.
  assert (exists y' ay' hy', Some y = Some y' /\ node_inv y' idb ida ny ay' hy' ray /\
    link_inv x y' n a hy' ray /\ link_inv y' x ny ay' h ra) as Hsame by (by eexists y, ay, hy).
  destruct (net x !! i) as [f|] eqn:Hf; [|done]. apply list_elem_of_lookup_2 in Hf.
  destruct (_ && _ && _) eqn:Hg; [|done].
  apply andb_true_iff in Hg as [[Hs%Nat.leb_le Hr%Nat.leb_le]%andb_true_iff Hp%orb_true_iff].
  assert (is_async = false -> pending_q (ns y).2 = []) as Hpq.
  { intros ->. destruct Hp as [Hp|Hp]; [done|]. by apply bool_decide_eq_true in Hp. }
  destruct (flight_fresh _ _ _ _ _ _ _ _ _ _ _ _ _ HX HY HL HM Hf Hs Hr) as (j & Ej & Hj & Hjr & Hfr & Hk).
  destruct HY as [Y1 Y2 Y3 Y4 Y5], HL as [L1 L2 L3], HM as [M1 M2 M3]. destruct Hk as [(k & m & Ek & Hd & Em & Hm & Hkn & Hlo & Hhi)|(Hd & Ham & Hb)].
  - destruct (rx_data_ok _ _ _ Y1 _ _ _ _ _ _ _ _ _ _ _ is_async now Y2 Hd Ej Hj Hfr Ek Em Hlo Hhi) as (st' & ps & -> & I1 & I2 & -> & I3 & I4).
    eexists _, (Z.max ay j), (if k =? hy + 1 then k else hy). split; [done|]. pose proof (ei_rx _ _ _ _ _ _ _ _ _ _ I1) as [_ Hpos].
    split; [|split; constructor; cbn [ns sent]; try done || lia].
    + constructor; cbn [ncfg ns sent comps net]; [done|exact I1| | |].
      * rewrite I3, length_app. destruct (Z.eqb_spec k (hy + 1)); cbn [length]; lia.
      * intros f' Hf'. rewrite <- (app_nil_r (sent y)). eapply flight_ok_mono; [by apply Y4|lia| |lia|apply Y2].
        destruct (Z.eqb_spec k (hy + 1)); lia.
      * intros Hna. rewrite (I4 Hna Hpq), I3, List.filter_app, <- (Y5 Hna). by rewrite app_assoc.
    + destruct (Z.eqb_spec k (hy + 1)); lia.
    + rewrite I3, fmap_app, L3. destruct (Z.eqb_spec k (hy + 1)) as [->|]; [|by rewrite app_nil_r].
      rewrite Z.add_simpl_r in Hm. replace (Z.to_nat (hy + 1)) with (S (Z.to_nat hy)) by lia.
      rewrite (take_S_r _ _ _ Hm), fmap_app. cbn. by rewrite Em.
  - destruct (rx_ctl_ok _ _ _ Y1 _ _ _ _ _ _ _ _ _ is_async now Y2 Hd Ej Hj Hfr Ham Hb) as (st' & -> & I1 & (I2 & I3 & I4)).
    eexists _, (Z.max ay j), hy. split; [done|]. split; [|split; constructor; cbn [ns sent]; rewrite ?I3; try done || lia].
    constructor; cbn [ncfg ns sent comps net]; rewrite ?I3, ?I4; done.
Qed.

(** What an endpoint received is within the window of its peer. *)
Lemma link_window x y ida idb n a h ra hy ray : node_inv x ida idb n a h ra -> link_inv x y n a hy ray ->
  hy - UCT_UD_CA_MAX_WINDOW <= ray.
Proof.
  intros [_ X2 _ _ _] [L1 L2 _]. pose proof (ei_window_size _ _ _ _ _ _ _ _ _ _ X2). pose proof (ei_ca _ _ _ _ _ _ _ _ _ _ X2). lia.
Qed.

Lemma link_send x x' y n a n' h ra : link_inv x y n a h ra -> n <= n' -> sent x `prefix_of` sent x' -> Z.of_nat (length (sent x)) = n - 1 ->
  link_inv x' y n' a h ra.
Proof.
  intros [L1 L2 L3] Hn [ms E] El. constructor; [done|lia|]. rewrite E, take_app_le by lia. done.
Qed.

Lemma link_log x y y' n a h ra ra' : link_inv x y n a h ra -> ra <= ra' -> rx_log (ns y').2 = rx_log (ns y).2 ->
  link_inv x y' n a h ra'.
Proof. intros [L1 L2 L3] Hra E. constructor; [lia|done|by rewrite E]. Qed.

Lemma pair_swap p : pair_inv p -> pair_inv (p.2, p.1).
Proof.
  intros (ida & idb & na & aa & ha & raa & nb & ab & hb & rab & H1 & H2 & H3 & H4).
  by exists idb, ida, nb, ab, hb, rab, na, aa, ha, raa.
Qed.

Lemma local_pair op x y : pair_inv (x, y) ->
  match local op x with
  | Some (status, x') => pair_inv (x', y) /\
      (forall r now c, op = Flush r now c -> status = UCS_OK -> length (rx_log (ns y).2) = length (sent x))
  | None => no_ctl_skb (ncfg x) op (ns x) = true
  end.
Proof.
  intros (ida & idb & na & aa & ha & raa & nb & ab & hb & rab & H1 & H2 & H3 & H4). cbn [fst snd] in *.
  pose proof (local_ok op x _ _ _ _ _ _ H1 (link_window _ _ _ _ _ _ _ _ _ _ H2 H4)) as Hl.
  destruct (local op x) as [[status x']|]; [|exact Hl]. destruct Hl as (n' & ra' & H1' & Hn & Hra & Hs & El & Hfl).
  pose proof (ei_sent _ _ _ _ _ _ _ _ _ _ (ni_ep _ _ _ _ _ _ _ H1)) as Hsent. split.
  - exists ida, idb, n', aa, ha, ra', nb, ab, hb, rab. split_and!; [done|done|by eapply link_send|by eapply link_log].
  - intros r now c Eo Est. pose proof (Hfl _ _ _ Eo Est). destruct H3 as [L1 L2 _]. pose proof (ni_rcvd _ _ _ _ _ _ _ H2).
    pose proof (ei_ra _ _ _ _ _ _ _ _ _ _ (ni_ep _ _ _ _ _ _ _ H2)). lia.
Qed.

Lemma deliver_pair i is_async now x y : pair_inv (x, y) -> exists y', deliver i is_async now x y = Some y' /\ pair_inv (x, y').
Proof.
  intros (ida & idb & na & aa & ha & raa & nb & ab & hb & rab & H1 & H2 & H3 & H4). cbn [fst snd] in *.
  destruct (deliver_ok i is_async now x y _ _ _ _ _ _ _ _ _ _ H1 H2 H3 H4) as (y' & ay' & hy' & E & H2' & H3' & H4').
  exists y'. split; [done|]. by exists ida, idb, na, aa, ha, raa, nb, ay', hy', rab.
Qed.

Lemma pair_step_ok p e : pair_inv p -> match step p e with Some p' => pair_inv p' | None => starved p e = true end.
Proof.
  intros H. destruct p as [x y]. pose proof (pair_swap _ H) as H'. cbn [fst snd] in H'.
  destruct e as [[] op|[] i is_async now]; cbn [step fst snd starved].
  - pose proof (local_pair op y x H') as Hl. destruct (local op y) as [[status y']|]; [|exact Hl]. destruct Hl as [Hp _].
    by apply pair_swap in Hp.
  - pose proof (local_pair op x y H) as Hl. destruct (local op x) as [[status x']|]; [|exact Hl]. by destruct Hl as [Hp _].
  - destruct (deliver_pair i is_async now x y H) as (y' & -> & Hp). done.
  - destruct (deliver_pair i is_async now y x H') as (x' & -> & Hp). by apply pair_swap in Hp.
Qed.

Lemma pair_run_inv es : forall p p', pair_inv p -> run es p = Some p' -> pair_inv p'.
Proof.
  induction es as [|e es IH]; intros p p' H E; cbn [run] in E; [by simplify_eq|].
  pose proof (pair_step_ok p e H) as Hs. destruct (step p e) as [p1|]; [|done]. by eapply IH.
Qed.

Lemma pair_run_ok es : forall p, pair_inv p -> supplied es p = true -> exists p', run es p = Some p'.
Proof.
  induction es as [|e es IH]; intros p H Hs; cbn [run supplied] in *; [by eexists|]. apply andb_true_iff in Hs as [Hs1 Hs].
  pose proof (pair_step_ok p e H) as Hp. destruct (step p e) as [p1|]; [by apply IH|]. by rewrite Hp in Hs1.
Qed.

Definition valid (cfga cfgb : config) (ida idb : Z) : bool := config_ok cfga && config_ok cfgb && id_ok ida && id_ok idb.

(** The events [es], from the connected pair. *)
Definition execution (cfga cfgb : config) (ida idb : Z) (es : list event) : option pair :=
  p ← connect_pair cfga cfgb ida idb; run es p.

Lemma connect_node cfg self dest : config_ok cfg = true -> id_ok dest = true ->
  exists x, connect cfg self dest = Some x /\ node_inv x self dest 1 0 0 0 /\ sent x = [] /\ rx_log (ns x).2 = [].
Proof.
  unfold config_ok, id_ok. intros [[H1%Z.leb_le H2%Z.leb_le]%andb_true_iff H3%Z.leb_le]%andb_true_iff
    [H4%Z.leb_le H5%Z.ltb_lt]%andb_true_iff.
  destruct (connect_ok cfg self dest) as (ep & E & H); [done|done|]. unfold connect. rewrite E. eexists. split; [done|].
  split; [|done]. constructor; try done. by intros f ?%not_elem_of_nil.
Qed.

Lemma connect_pair_ok cfga cfgb ida idb : valid cfga cfgb ida idb = true ->
  exists p, connect_pair cfga cfgb ida idb = Some p /\ pair_inv p.
Proof.
  unfold valid. intros [[[Ha Hb]%andb_true_iff Ia]%andb_true_iff Ib]%andb_true_iff. unfold connect_pair.
  destruct (connect_node cfga ida idb Ha Ib) as (x & -> & HX & Sx & Rx'), (connect_node cfgb idb ida Hb Ia) as (y & -> & HY & Sy & Ry).
  cbn [mbind option_bind]. eexists. split; [done|]. exists ida, idb, 1, 0, 0, 0, 1, 0, 0, 0. split_and!; try done; constructor; try done.
  - cbn [fst snd]. by rewrite Sx, Ry.
  - cbn [fst snd]. by rewrite Sy, Rx'.
Qed.

(** In these events, the pool has a control skb for each call that may need one. *)
Definition supplied_execution (cfga cfgb : config) (ida idb : Z) (es : list event) : bool :=
  match connect_pair cfga cfgb ida idb with Some p => supplied es p | None => true end.

Lemma execution_inv cfga cfgb ida idb es p : valid cfga cfgb ida idb = true -> execution cfga cfgb ida idb es = Some p -> pair_inv p.
Proof.
  intros Hv. destruct (connect_pair_ok _ _ _ _ Hv) as (p0 & E0 & H). unfold execution. rewrite E0. by apply pair_run_inv.
Qed.

(** ** Consequences of the invariant *)

Lemma omap_decode (l : list packet) (ms : list msg) : decode <$> l = Some <$> ms -> omap decode l = ms /\ length l = length ms.
Proof.
  revert ms. induction l as [|p l IH]; intros [|m ms] H; try done. rewrite !fmap_cons in H. injection H as H1 H2.
  destruct (IH ms H2) as [E1 E2]. cbn. rewrite H1, E1, E2. done.
Qed.

Lemma link_delivered x y n a h ra : link_inv x y n a h ra -> Z.of_nat (length (sent x)) = n - 1 -> 0 <= h ->
  delivered y = take (Z.to_nat h) (sent x) /\ Z.of_nat (length (rx_log (ns y).2)) = h.
Proof.
  intros [L1 L2 L3] Hl Hh. destruct (omap_decode _ _ L3) as [E1 E2]. split; [done|]. rewrite E2, length_take. lia.
Qed.

Lemma pair_delivered x y : pair_inv (x, y) -> delivered y `prefix_of` sent x /\ length (delivered y) = length (rx_log (ns y).2).
Proof.
  intros (ida & idb & na & aa & ha & raa & nb & ab & hb & rab & H1 & H2 & H3 & H4). cbn [fst snd] in *.
  pose proof (ei_sent _ _ _ _ _ _ _ _ _ _ (ni_ep _ _ _ _ _ _ _ H1)). pose proof (ei_rx _ _ _ _ _ _ _ _ _ _ (ni_ep _ _ _ _ _ _ _ H2)) as [_ Hh].
  destruct (link_delivered _ _ _ _ _ _ H3 ltac:(done) Hh) as [-> El]. split; [apply prefix_take|].
  rewrite length_take. pose proof (li_rcvd _ _ _ _ _ _ H3). lia.
Qed.

(** Messages of active messages. *)
Definition is_mam (m : msg) : bool := match m with MAm _ _ => true | MPut _ _ => false end.

Lemma filter_decode (l : list packet) (ms : list msg) : decode <$> l = Some <$> ms ->
  omap decode (List.filter is_am l) = List.filter is_mam ms.
Proof.
  revert ms. induction l as [|p l IH]; intros [|m ms] H; try done. rewrite !fmap_cons in H. injection H as H1 H2.
  specialize (IH ms H2). cbn [List.filter]. unfold is_am in *. unfold decode in H1 at 1.
  destruct (has (packet_type p) UCT_UD_PACKET_FLAG_AM) eqn:E, (p_body p) eqn:Eb; try done; simplify_eq; cbn [is_mam].
  - cbn [omap list_omap]. unfold decode at 1. rewrite E, Eb. by f_equal.
  - done.
Qed.

Lemma filter_prefix {A} (f : A -> bool) (l1 l2 : list A) : l1 `prefix_of` l2 -> List.filter f l1 `prefix_of` List.filter f l2.
Proof. intros [l ->]. rewrite List.filter_app. by apply prefix_app_r. Qed.

Lemma pair_handlers x y : pair_inv (x, y) -> (forall id, am_async (ncfg y) id = false) ->
  omap decode (am_log (ns y).2 ++ pending_q (ns y).2) `prefix_of` List.filter is_mam (sent x).
Proof.
  intros (ida & idb & na & aa & ha & raa & nb & ab & hb & rab & H1 & H2 & H3 & H4) Hna. cbn [fst snd] in *.
  rewrite (ni_am _ _ _ _ _ _ _ H2 Hna), (filter_decode _ _ (li_order _ _ _ _ _ _ H3)). apply filter_prefix, prefix_take.
Qed.

Lemma numbered_real lo w j : lo <= j < next_number lo w -> exists s, (j, s) ∈ numbered lo w /\ is_dummy s = false.
Proof.
  revert lo. induction w as [|s w IH]; intros lo Hj; cbn [next_number numbered] in *; [lia|]. destruct (is_dummy s) eqn:Hd.
  - destruct (IH lo Hj) as (s' & Hs' & Hd'). exists s'. split; [by right|done].
  - destruct (Z.eq_dec j lo) as [->|Hne]; [exists s; split; [by left|done]|].
    destruct (IH (lo + 1) ltac:(lia)) as (s' & Hs' & Hd'). exists s'. split; [by right|done].
Qed.

Lemma pair_retains x y k : pair_inv (x, y) -> (length (rx_log (ns y).2) <= k < length (sent x))%nat ->
  exists s, s ∈ window (tx (ns x).1) /\ decode (neth s) = sent x !! k /\ p_psn (neth s) = u16 (Z.of_nat k + 1).
Proof.
  intros (ida & idb & na & aa & ha & raa & nb & ab & hb & rab & H1 & H2 & H3 & H4) Hk. cbn [fst snd] in *.
  destruct (ei_win _ _ _ _ _ _ _ _ _ _ (ni_ep _ _ _ _ _ _ _ H1)) as (lo & W & _).
  pose proof (ei_sent _ _ _ _ _ _ _ _ _ _ (ni_ep _ _ _ _ _ _ _ H1)). pose proof (ni_rcvd _ _ _ _ _ _ _ H2).
  pose proof (ei_ra _ _ _ _ _ _ _ _ _ _ (ni_ep _ _ _ _ _ _ _ H2)). pose proof (li_acked _ _ _ _ _ _ H3).
  pose proof (wo_lo _ _ _ _ _ _ _ W). pose proof (wo_next _ _ _ _ _ _ _ W).
  destruct (numbered_real lo (window (tx (ns x).1)) (Z.of_nat k + 1)) as (s & Hs & Hd); [lia|].
  destruct (wo_skbs _ _ _ _ _ _ _ W _ _ Hs) as [S1 S2 _]. exists s. split_and!; [|destruct (S2 Hd) as [_ ->]; f_equal; lia|done].
  by eapply numbered_in.
Qed.

Lemma pair_completions x y c status : pair_inv (x, y) -> (c, status) ∈ comp_log (ns x).2 ->
  status = UCS_OK /\ exists k, (c, k) ∈ comps x /\ k <= Z.of_nat (length (rx_log (ns y).2)).
Proof.
  intros (ida & idb & na & aa & ha & raa & nb & ab & hb & rab & H1 & H2 & H3 & H4) Hc. cbn [fst snd] in *.
  destruct (ei_comps _ _ _ _ _ _ _ _ _ _ (ni_ep _ _ _ _ _ _ _ H1) c status) as [-> (k & Hk & Hka)]; [apply elem_of_app; by left|].
  split; [done|]. exists k. split; [done|]. pose proof (ni_rcvd _ _ _ _ _ _ _ H2).
  pose proof (ei_ra _ _ _ _ _ _ _ _ _ _ (ni_ep _ _ _ _ _ _ _ H2)). pose proof (li_acked _ _ _ _ _ _ H3). lia.
Qed.

(** ** Properties *)

(** An execution for the witnesses: of two messages and a flush the first packet
    is lost, the second is refused, both are sent again and acknowledged. *)
Definition example_config : config := Config 16 64 16 10 10 1000 1000 100000 false (fun t => 2 * t) 64 (fun _ => false)
  4 4096 4096.

Definition example_events : list event :=
  let r := Res true true false true in
  [Local false (AmShort r 1 5 7 [1; 2]); Local false (AmZcopy r 2 6 [9] [[3; 4]] (Some 77));
   Deliver true 1 true 3; Local true (PendingCtl r 4); Deliver false 0 false 5;
   Local false (Timer 100 100 100 100 100); Local false (PendingCtl r 101); Deliver true 2 false 102; Deliver true 1 false 103;
   Local true (PendingCtl r 104); Deliver false 1 false 105;
   Local false (SendCompletion 3 false); Local false (Flush r 106 None)].

(** C4: The endpoint code never fails on its own account.  In every sequence of
    calls and deliveries between two connected endpoints, in which the memory
    pool has a control skb for each call that may need one, no assertion fails and
    no released skb is used (the resend position is never dangling): all the
    calls return.  The calls are sends, flushes without
    [UCT_FLUSH_FLAG_CANCEL], control operations, completions, progress and timers;
    there are no pending requests of the user and no disconnect.  Without a
    control skb the code calls [ucs_fatal]. *)
Theorem ud_no_failure (cfga cfgb : config) (ida idb : Z) (es : list event) :
  valid cfga cfgb ida idb = true -> supplied_execution cfga cfgb ida idb es = true ->
  exists p, execution cfga cfgb ida idb es = Some p.
Proof.
  intros Hv. destruct (connect_pair_ok _ _ _ _ Hv) as (p0 & E0 & H). unfold supplied_execution, execution. rewrite E0. by apply pair_run_ok.
Qed.

Lemma ud_no_failure_witness : exists p, execution example_config example_config 3 4 example_events = Some p.
Proof. apply ud_no_failure; [reflexivity|vm_compute; reflexivity]. Defined.

(** C2: The UD endpoint delivers reliably and in order over a network that loses,
    duplicates and reorders packets: what an endpoint has received is always a
    prefix of what its peer has sent, each message exactly once. *)
Theorem ud_in_order (cfga cfgb : config) (ida idb : Z) (es : list event) (p : pair) :
  valid cfga cfgb ida idb = true -> execution cfga cfgb ida idb es = Some p ->
  (delivered p.2 `prefix_of` sent p.1 /\ length (delivered p.2) = length (rx_log (ns p.2).2)) /\
  (delivered p.1 `prefix_of` sent p.2 /\ length (delivered p.1) = length (rx_log (ns p.1).2)).
Proof.
  intros Hv E. pose proof (execution_inv _ _ _ _ _ _ Hv E) as H. destruct p as [x y].
  split; apply pair_delivered; [done|]. by apply pair_swap in H.
Qed.

Lemma ud_in_order_witness : exists p, execution example_config example_config 3 4 example_events = Some p /\
  length (sent p.1) = 2%nat /\ delivered p.2 = sent p.1 /\ delivered p.2 `prefix_of` sent p.1.
Proof.
  eexists. split; [vm_compute; reflexivity|]. split; [reflexivity|]. split; [vm_compute; reflexivity|].
  apply (ud_in_order example_config example_config 3 4 example_events); [reflexivity|vm_compute; reflexivity].
Defined.

(** The handlers of active messages see them in the order in which they were
    sent, also when some are received by the asynchronous progress and wait in
    the pending queue (handlers that may be called from it are excluded: those
    are called at once, before the messages that wait). *)
Theorem ud_handlers_in_order (cfga cfgb : config) (ida idb : Z) (es : list event) (p : pair) :
  valid cfga cfgb ida idb = true -> execution cfga cfgb ida idb es = Some p -> (forall id, am_async (ncfg p.2) id = false) ->
  omap decode (am_log (ns p.2).2 ++ pending_q (ns p.2).2) `prefix_of` List.filter is_mam (sent p.1).
Proof.
  intros Hv E Hna. pose proof (execution_inv _ _ _ _ _ _ Hv E) as H. destruct p as [x y]. by apply pair_handlers.
Qed.

Lemma ud_handlers_in_order_witness : exists p, execution example_config example_config 3 4 example_events = Some p /\
  length (am_log (ns p.2).2) = 2%nat /\
  omap decode (am_log (ns p.2).2 ++ pending_q (ns p.2).2) `prefix_of` List.filter is_mam (sent p.1).
Proof.
  eexists. split; [vm_compute; reflexivity|]. split; [reflexivity|].
  apply (ud_handlers_in_order example_config example_config 3 4 example_events); [reflexivity|vm_compute; reflexivity|].
  intros id. reflexivity.
Defined.

(** C9: No message is lost: a message that the peer has not received is in the
    window of the sender, in an skb with its number and its data, so that it can
    be sent again. *)
Theorem ud_retains (cfga cfgb : config) (ida idb : Z) (es : list event) (p : pair) (k : nat) :
  valid cfga cfgb ida idb = true -> execution cfga cfgb ida idb es = Some p ->
  (length (rx_log (ns p.2).2) <= k < length (sent p.1))%nat ->
  exists s, s ∈ window (tx (ns p.1).1) /\ decode (neth s) = sent p.1 !! k /\ p_psn (neth s) = u16 (Z.of_nat k + 1).
Proof.
  intros Hv E. pose proof (execution_inv _ _ _ _ _ _ Hv E) as H. destruct p as [x y]. by apply pair_retains.
Qed.

Lemma ud_retains_witness : exists p, execution example_config example_config 3 4 (take 6 example_events) = Some p /\
  exists s, s ∈ window (tx (ns p.1).1) /\ decode (neth s) = sent p.1 !! 1%nat /\ p_psn (neth s) = u16 (Z.of_nat 1 + 1).
Proof.
  eexists. split; [vm_compute; reflexivity|].
  apply (ud_retains example_config example_config 3 4 (take 6 example_events)); [reflexivity|vm_compute; reflexivity|].
  simpl. lia.
Defined.

(** C19: As long as the user cancels nothing (no flush with
    [UCT_FLUSH_FLAG_CANCEL], and no purge), a completion is called only with
    success, and only when the peer has received all the messages that it has to
    wait for: for a zero-copy send the message itself, for a flush all the
    messages that were sent before it. *)
Theorem ud_completions (cfga cfgb : config) (ida idb : Z) (es : list event) (p : pair) (c : Z) (status : ucs_status_t) :
  valid cfga cfgb ida idb = true -> execution cfga cfgb ida idb es = Some p -> (c, status) ∈ comp_log (ns p.1).2 ->
  status = UCS_OK /\ exists k, (c, k) ∈ comps p.1 /\ k <= Z.of_nat (length (rx_log (ns p.2).2)).
Proof.
  intros Hv E. pose proof (execution_inv _ _ _ _ _ _ Hv E) as H. destruct p as [x y]. by apply pair_completions.
Qed.

Lemma ud_completions_witness : exists p, execution example_config example_config 3 4 example_events = Some p /\
  UCS_OK = UCS_OK /\ exists k, (77, k) ∈ comps p.1 /\ k <= Z.of_nat (length (rx_log (ns p.2).2)).
Proof.
  eexists. split; [vm_compute; reflexivity|].
  apply (ud_completions example_config example_config 3 4 example_events); [reflexivity|vm_compute; reflexivity|].
  vm_compute. left.
Defined.

(** C34: A flush without [UCT_FLUSH_FLAG_CANCEL] that returns success at once, after any
    execution of two connected endpoints, means that the peer has received everything
    that was sent. *)
Theorem ud_flush (cfga cfgb : config) (ida idb : Z) (es : list event) (p : pair) (r : resources) (now : Z) (c : option Z) (x : node) :
  valid cfga cfgb ida idb = true -> execution cfga cfgb ida idb es = Some p ->
  local (Flush r now c) p.1 = Some (UCS_OK, x) -> delivered p.2 = sent p.1.
Proof.
  intros Hv E Hf. pose proof (execution_inv _ _ _ _ _ _ Hv E) as H. destruct p as [y z]. cbn [fst snd] in *.
  pose proof (local_pair (Flush r now c) y z H) as Hl0. rewrite Hf in Hl0. destruct Hl0 as [_ Hfl].
  specialize (Hfl _ _ _ eq_refl eq_refl). destruct (pair_delivered y z H) as [[l Hl] El].
  assert (l = []) as ->; [|by rewrite app_nil_r in Hl]. apply nil_length_inv. rewrite Hl, length_app in Hfl. lia.
Qed.

Lemma ud_flush_witness : exists p x, execution example_config example_config 3 4 example_events = Some p /\
  local (Flush (Res true true false true) 107 None) p.1 = Some (UCS_OK, x) /\ delivered p.2 = sent p.1.
Proof.
  eexists _, _. split; [vm_compute; reflexivity|]. split; [vm_compute; reflexivity|].
  eapply (ud_flush example_config example_config 3 4 example_events _ (Res true true false true) 107 None);
    [reflexivity|vm_compute; reflexivity|vm_compute; reflexivity].
Defined.

End UdPair.
