(* ===== verification/UdLive.v ===== *)
(** Progress of the UD endpoint: the retransmission timer is armed while a
    message is not acknowledged, the timer starts a round of resends with the
    first message that is not acknowledged, and when that packet arrives the peer
    accepts it.  Also what the handling of suspended processes in [ud_ep.c] does
    to the timeout of a dead peer. *)

From stdpp Require Import gmap sorting.
From S2P Require Import Prelude.
From S2P Require Import Bits.
From S2P Require Import FragList.
From S2P Require Import Ud.
From S2P Require Import UdEndpoint.
From S2P Require Import UdPair.

Module UdLive.
Import Ud UdEndpoint UdPair.

(** ** The head of the window *)

(** What can be released from the head of the window is released. *)
Definition head_ok (st : state) : Prop :=
  match window (tx st.1) with
  | [] => True
  | s :: _ => uct_ud_skb_is_completed s (acked_psn (tx st.1)) = false
  end.

(** The timer is armed while a packet is not acknowledged, unless the timeout of
    the peer was reported. *)
Definition armed (cfg : config) (st : state) : Prop :=
  async_disable cfg = false -> timeout_raised st.2 = false -> uct_ud_ep_is_last_ack_received st.1 = false ->
  timer_active st.2 = true.

Definition live (cfg : config) (st : state) : Prop := head_ok st /\ armed cfg st.

(** The fields that both depend on, except the window, and those of the timeout. *)
Definition same_timer (st st' : state) : Prop :=
  psn (tx st'.1) = psn (tx st.1) /\ acked_psn (tx st'.1) = acked_psn (tx st.1) /\
  timer_active st'.2 = timer_active st.2 /\ timeout_raised st'.2 = timeout_raised st.2 /\
  send_time (tx st'.1) = send_time (tx st.1) /\ pt_start st'.2 = pt_start st.2 /\ pt_last st'.2 = pt_last st.2.

Lemma same_timer_armed cfg st st' : armed cfg st -> same_timer st st' -> armed cfg st'.
Proof.
  intros H (E1 & E2 & E3 & E4 & _). unfold armed, uct_ud_ep_is_last_ack_received in *. by rewrite E1, E2, E3, E4.
Qed.

Lemma same_timer_trans st1 st2 st3 : same_timer st1 st2 -> same_timer st2 st3 -> same_timer st1 st3.
Proof. intros (A1 & A2 & A3 & A4 & A5 & A6 & A7) (B1 & B2 & B3 & B4 & B5 & B6 & B7). split_and!; congruence. Qed.

(** The window is the same, up to flags that do not complete an skb. *)
Definition same_head (w w' : list uct_ud_send_skb_t) : Prop :=
  match w, w' with
  | [], [] => True
  | s :: _, s' :: _ => forall ack, uct_ud_skb_is_completed s ack = false -> uct_ud_skb_is_completed s' ack = false
  | _, _ => False
  end.

Lemma same_head_refl w : same_head w w.
Proof. destruct w; [done|]. by intros ack. Qed.

Lemma same_head_ok st st' : head_ok st -> same_timer st st' -> same_head (window (tx st.1)) (window (tx st'.1)) -> head_ok st'.
Proof.
  unfold head_ok. intros H (_ & -> & _) Hs. destruct (window (tx st.1)), (window (tx st'.1)); try done. by apply Hs.
Qed.

Lemma live_same cfg st st' : live cfg st -> same_timer st st' -> same_head (window (tx st.1)) (window (tx st'.1)) -> live cfg st'.
Proof. intros [H1 H2] Ht Hs. split; [by eapply same_head_ok|by eapply same_timer_armed]. Qed.

Lemma same_head_update id f w : (forall s ack, uct_ud_skb_is_completed s ack = false -> uct_ud_skb_is_completed (f s) ack = false) ->
  same_head w (update_skb id f w).
Proof. intros Hf. destruct w as [|s w]; [done|]. cbn. intros ack. destruct (skb_id s =? id); auto. Qed.

(** A release ends at an skb that cannot be released. *)
Lemma release_loop_live w st ack status is_async inval : window (tx st.1) = w ->
  let st' := window_release_loop w st ack status is_async inval in
  same_timer st st' /\ match window (tx st'.1) with [] => True | s :: _ => uct_ud_skb_is_completed s ack = false end.
Proof.
  revert st. induction w as [|s w IH]; intros st Hw; cbn [window_release_loop]; [by rewrite Hw|].
  destruct (uct_ud_skb_is_completed s ack) eqn:Hc; [|split; [done|by rewrite Hw]]. destruct st as [ep ifc].
  cbn zeta. match goal with |- context [window_release_loop w ?st1 _ _ _ _] => specialize (IH st1); set (st1' := st1) in * end.
  assert (same_timer (ep, ifc) st1' /\ window (tx st1'.1) = w) as [Ht Hw1].
  { subst st1'. destruct (inval && _), (comp s), is_async; done. }
  destruct (IH Hw1) as [Ht2 Hh]. split; [by eapply same_timer_trans|done].
Qed.

(** ** Every operation keeps it *)

(** Operations that neither send, acknowledge nor release. *)
Definition calm (st st' : state) : Prop := same_timer st st' /\ same_head (window (tx st.1)) (window (tx st'.1)).

Lemma calm_same st st' : same_timer st st' -> window (tx st'.1) = window (tx st.1) -> calm st st'.
Proof. intros H E. split; [done|]. rewrite E. apply same_head_refl. Qed.

Lemma calm_trans st1 st2 st3 : calm st1 st2 -> calm st2 st3 -> calm st1 st3.
Proof.
  intros [A1 A2] [B1 B2]. split; [by eapply same_timer_trans|].
  destruct (window (tx st1.1)), (window (tx st2.1)), (window (tx st3.1)); try done. intros ack H. by apply B2, A2.
Qed.

Lemma calm_live cfg st st' : live cfg st -> calm st st' -> live cfg st'.
Proof. intros H [H1 H2]. by eapply live_same. Qed.

Lemma resend_calm cfg r now st st' : uct_ud_ep_resend cfg r now st = Some st' -> calm st st'.
Proof.
  destruct st as [ep ifc]. unfold uct_ud_ep_resend. intros H.
  assert (calm (ep, ifc) (uct_ud_ep_resend_end ep, ifc)) as Hend by (by apply calm_same).
  destruct (psn_le _ _); [by simplify_eq|]. destruct (iter_elem _ _) as [[s|]|]; [|by simplify_eq/=|done]. cbn [mbind option_bind] in H.
  destruct (psn_ge _ _); [by simplify_eq|]. destruct (negb _ && _); [by simplify_eq|].
  destruct (resending s); [simplify_eq; by apply calm_same|]. destruct (_ && _); [simplify_eq; by apply calm_same|].
  destruct (uct_ud_ep_is_connected _) as [[]|]; [| |done]; cbn [mbind option_bind andb] in H.
  - destruct (_ && _); [done|]. destruct (negb _); [done|]. simplify_eq. unfold resend_skb. destruct (psn_eq _ _); (split; [done|]);
      apply (same_head_update _ (set_resending true)); intros s' ack; unfold uct_ud_skb_is_completed; cbn; by rewrite andb_false_r.
  - destruct (negb _); [done|]. simplify_eq. unfold resend_skb. destruct (psn_eq _ _); (split; [done|]);
      apply (same_head_update _ (set_resending true)); intros s' ack; unfold uct_ud_skb_is_completed; cbn; by rewrite andb_false_r.
Qed.

Lemma send_ack_calm cfg r st st' : uct_ud_ep_send_ack cfg r st = Some st' -> calm st st'.
Proof.
  destruct st as [ep ifc]. unfold uct_ud_ep_send_ack. destruct (uct_ud_ep_is_connected _) as [[]|]; [| |done]; cbn [mbind option_bind negb].
  - intros H. destruct (negb _ && negb _); [done|]. cbn [uct_ud_neth_init_data] in H. simplify_eq. destruct (_ && _); by apply calm_same.
  - intros H. simplify_eq. by apply calm_same.
Qed.

(** Without a connection request, control operations are calm. *)
Lemma pending_ctl_calm cfg r now st st' : ops_ok (ops (tx st.1)) -> uct_ud_ep_do_pending_ctl cfg r now st = Some st' -> calm st st'.
Proof.
  intros Ho. unfold uct_ud_ep_do_pending_ctl, uct_ud_ep_ctl_op_check. unfold UCT_UD_EP_OP_CREQ, UCT_UD_EP_OP_CREP.
  rewrite !(ops_ok_none _ _ Ho) by lia. destruct (has _ UCT_UD_EP_OP_RESEND); [apply resend_calm|].
  destruct (has _ UCT_UD_EP_OP_CTL_ACK); [apply send_ack_calm|]. destruct (uct_ud_ep_ctl_op_isany _); [done|].
  intros H. simplify_eq. by apply calm_same.
Qed.

Lemma completed_live st is_async : let st' := uct_ud_ep_window_release_completed st is_async in same_timer st st' /\ head_ok st'.
Proof.
  unfold uct_ud_ep_window_release_completed, uct_ud_ep_window_release_inline.
  destruct (release_loop_live (window (tx st.1)) st (acked_psn (tx st.1)) UCS_OK is_async true eq_refl) as [Ht Hh].
  split; [done|]. unfold head_ok. destruct Ht as (_ & -> & _). done.
Qed.

Lemma completion_loop_live q comp_sn is_async : forall st st', head_ok st ->
  send_completion_loop q st comp_sn is_async = Some st' -> same_timer st st' /\ head_ok st'.
Proof.
  induction q as [|c q IH]; intros [ep ifc] st' H E; cbn [send_completion_loop] in E; [by simplify_eq|].
  destruct (psn_le _ _); [|by simplify_eq]. apply bind_Some in E as (st1 & E1 & E2).
  apply bind_Some in E1 as (ep1 & E1 & E3). simplify_eq.
  destruct (completed_live (ep1, set_outstanding_q q ifc) is_async) as [T2 H2]. destruct (IH _ _ H2 E2) as [T3 H3]. split; [|done].
  eapply same_timer_trans; [|exact T3]. eapply same_timer_trans; [|exact T2]. destruct (resent_skb c) as [id|]; [|by simplify_eq].
  apply bind_Some in E1 as ([i s] & _ & E1). destruct (negb _); by simplify_eq.
Qed.

(** A message is sent: it is not acknowledged, and the timer is armed. *)
Lemma complete_tx_live cfg self dest n a h ra sent comps st now p l c ep ifc : ep_inv cfg self dest n a h ra sent comps st ->
  live cfg st -> calm st (ep, ifc) -> p_psn p = u16 n -> live cfg (uct_ud_iface_complete_tx_skb cfg now p l c (ep, post p ifc)).
Proof.
  intros Hinv Hl Hc Hp. destruct (calm_live _ _ _ Hl Hc) as [Hh _]. destruct Hc as [(_ & Ea & _) _].
  pose proof (ei_acked _ _ _ _ _ _ _ _ _ _ Hinv) as Ha. rewrite Ha in Ea. cbn [fst] in Ea.
  destruct (ei_window_size _ _ _ _ _ _ _ _ _ _ Hinv) as [W1 W2], (ei_ca _ _ _ _ _ _ _ _ _ _ Hinv) as [C1 C2]. unfold UCT_UD_CA_MAX_WINDOW in *.
  unfold uct_ud_iface_complete_tx_skb. split.
  - unfold head_ok in *. cbn [fst] in *. cbn [tx upd_tx set_tx window set_psn]. destruct (window (tx ep)) as [|s w] eqn:Ew.
    + rewrite bool_decide_eq_true_2 by done. cbn. rewrite Ew. cbn. unfold uct_ud_skb_is_completed, psn_le. cbn. rewrite Hp, Ea.
      rewrite psn_diff_ok by (unfold half; lia). by rewrite (proj2 (Z.leb_gt (n - a) 0)) by lia.
    + rewrite bool_decide_eq_false_2 by done. cbn. rewrite Ew. done.
  - unfold armed. intros ->. by case_bool_decide.
Qed.

Lemma am_common_calm cfg r st id data p st' : uct_ud_am_skb_common cfg r st id data = inr (p, st') ->
  calm st st' /\ p_psn p = psn (tx st.1).
Proof.
  unfold uct_ud_am_skb_common. destruct (_ <=? _); [done|]. destruct (negb _); [done|]. destruct st as [ep ifc]. cbn.
  intros H. simplify_eq. split; [by apply calm_same|done].
Qed.

Lemma comp_skb_live cfg r st c status st' : live cfg st -> uct_ud_ep_comp_skb_add cfg r st c = Some (status, st') -> live cfg st'.
Proof.
  intros H. unfold uct_ud_ep_comp_skb_add. destruct c as [c|]; [|intros; by simplify_eq]. destruct (negb _); [intros; by simplify_eq|].
  destruct st as [ep ifc]. case_bool_decide as Hw.
  - destruct (negb _); [done|]. intros. simplify_eq. eapply calm_live; [done|]. by apply calm_same.
  - intros. simplify_eq. eapply calm_live; [done|]. split; [done|]. cbn. destruct (window (tx ep)); [done|by intros ack].
Qed.

Lemma flush_live cfg self dest n a h ra sent comps r now st c status st' : ep_inv cfg self dest n a h ra sent comps st -> live cfg st ->
  uct_ud_ep_flush cfg r now st false c = Some (status, st') -> live cfg st'.
Proof.
  intros Hinv Hl E. destruct st as [ep ifc]. unfold uct_ud_ep_flush in E. destruct (pending_async_ev r); [by simplify_eq|].
  apply bind_Some in E as ([status1 st1] & E & E1). assert (st1 = st') as ->.
  { destruct status1; try (by simplify_eq). case_bool_decide; by simplify_eq. }
  clear E1. unfold uct_ud_ep_flush_nolock in E. apply bind_Some in E as (connected & _ & E). destruct (negb connected); [by simplify_eq|].
  destruct (_ || _); [by simplify_eq|]. destruct (_ && _); [destruct (negb _); by simplify_eq|].
  apply bind_Some in E as (st2 & E2 & E). eapply comp_skb_live; [|exact E]. eapply calm_live; [exact Hl|]. clear E.
  cbn [fst snd] in E2. destruct (negb _); [|simplify_eq; by apply calm_same].
  apply bind_Some in E2 as (s & _ & E2). destruct (skb_ack_req s); [simplify_eq; by apply calm_same|].
  apply bind_Some in E2 as ([ep3 ifc3] & E3 & E2). simplify_eq. eapply (calm_trans _ (ep3, ifc3)).
  - unfold uct_ud_ep_ack_req_do in E3. eapply (calm_trans _ (uct_ud_ep_ctl_op_add UCT_UD_EP_OP_ACK_REQ ep, ifc)); [by apply calm_same|].
    destruct (uct_ud_ep_ctl_op_check_ex _ _); [|simplify_eq; by apply calm_same]. eapply pending_ctl_calm; [|exact E3].
    apply ops_ok_add; [apply Hinv|]. apply ops_ok_bit. lia.
  - split; [done|]. by apply same_head_update.
Qed.

(** The times of suspensions do not matter here. *)
Lemma check_pending_timer cfg cur last ifc :
  timer_active (uct_ud_ep_check_pending cfg cur last ifc) = timer_active ifc /\
  timeout_raised (uct_ud_ep_check_pending cfg cur last ifc) = timeout_raised ifc.
Proof. unfold uct_ud_ep_check_pending. by destruct (_ && _). Qed.

Lemma timer_end_live cfg ep ifc ep' ifc' cur x y : live cfg (ep, ifc) ->
  psn (tx ep') = psn (tx ep) -> acked_psn (tx ep') = acked_psn (tx ep) -> window (tx ep') = window (tx ep) ->
  uct_ud_ep_is_last_ack_received ep = true \/ timer_active ifc' = true \/ timeout_raised ifc' = true ->
  live cfg (ep', timer_out cfg cur x y ifc').
Proof.
  intros [H1 H2] E1 E2 E3 Hc. split; unfold head_ok, armed, uct_ud_ep_is_last_ack_received, timer_out in *; cbn [fst snd] in *;
    rewrite ?E1, ?E2, ?E3; [done|].
  destruct (check_pending_timer cfg y cur (set_pt_last x ifc')) as [-> ->]. intros _ Ht Hn. cbn in Ht |- *.
  destruct Hc as [Hc|[Hc|Hc]]; congruence.
Qed.

(** The timer changes neither the window nor its numbers. *)
Lemma timer_resend_same (cfg : config) ep (x y : bool) ep' : (if x then
            let ep := if y then uct_ud_ep_resend_start (uct_ud_ep_ca_drop ep) else ep in
            connected ← uct_ud_ep_is_connected ep;
            Some (if connected : bool then uct_ud_ep_ctl_op_add UCT_UD_EP_OP_ACK_REQ ep else ep)
          else Some ep) = Some ep' ->
  psn (tx ep') = psn (tx ep) /\ acked_psn (tx ep') = acked_psn (tx ep) /\ window (tx ep') = window (tx ep) /\ flags ep' = flags ep.
Proof.
  intros E. destruct x; [|by simplify_eq]. apply bind_Some in E as (c & _ & E).
  destruct c; simplify_eq; destruct y; try done; unfold uct_ud_ep_ca_drop; by destruct (psn_gt _ _).
Qed.

Lemma timer_live cfg wheel t0 t1 t2 t3 st st' : live cfg st -> uct_ud_ep_timer cfg wheel t0 t1 t2 t3 st = Some st' -> live cfg st'.
Proof.
  intros Hl E. destruct st as [ep ifc]. unfold uct_ud_ep_timer in E. cbv beta zeta in E. cbn [fst snd uct_ud_ep_timer_backoff] in E.
  destruct (uct_ud_ep_is_last_ack_received ep) eqn:Hla.
  { destruct (has _ _); [destruct (uct_ud_ep_free_by_timeout _ _ _)|]; simplify_eq; apply (timer_end_live _ ep ifc); auto. }
  case_bool_decide; [done|].
  destruct (uct_ud_ep_ctl_op_check ep _ || _); [simplify_eq; apply (timer_end_live _ ep ifc); auto|].
  apply bind_Some in E as (ep1 & E1 & E). apply (timer_resend_same cfg) in E1 as (F1 & F2 & F3 & _).
  destruct (peer_timeout cfg <? _); [case_bool_decide|]; simplify_eq; apply (timer_end_live _ ep ifc); auto.
Qed.

Lemma exec_live cfg self dest n a h ra sent comps st op status st' : ep_inv cfg self dest n a h ra sent comps st -> live cfg st ->
  exec cfg op st = Some (status, st') -> live cfg st'.
Proof.
  intros Hinv Hl. pose proof (ei_psn _ _ _ _ _ _ _ _ _ _ Hinv) as Hn.
  assert (forall r id data p ep ifc now l c, uct_ud_am_skb_common cfg r st id data = inr (p, (ep, ifc)) ->
    live cfg (uct_ud_iface_complete_tx_skb cfg now p l c (ep, post p ifc))) as Ham.
  { intros r id data p ep ifc now l c E. apply am_common_calm in E as [Hc Hp]. eapply complete_tx_live; [done|done|done|congruence]. }
  destruct op as [r now id hdr buf|r now id iov|r now id data|r now id header iov c|r now buf rva|r now c|r now|sn async| |k|w t0 t1 t2 t3];
    cbn [exec]; intros E.
  - unfold uct_ud_verbs_ep_am_short in E. destruct (_ <? _); [by simplify_eq|].
    destruct (uct_ud_am_skb_common _ _ _ _ _) as [?|[p [ep ifc]]] eqn:Ec; simplify_eq; [done|]. by eapply Ham.
  - unfold uct_ud_verbs_ep_am_short_iov in E. destruct (_ <? _); [by simplify_eq|]. destruct (_ <? _); [by simplify_eq|].
    destruct (uct_ud_am_skb_common _ _ _ _ _) as [?|[p [ep ifc]]] eqn:Ec; simplify_eq; [done|]. by eapply Ham.
  - unfold uct_ud_verbs_ep_am_bcopy in E.
    destruct (uct_ud_am_skb_common _ _ _ _ _) as [?|[p [ep ifc]]] eqn:Ec; [by simplify_eq|]. destruct (_ <? _); simplify_eq; [|by eapply Ham].
    eapply calm_live; [done|]. by eapply am_common_calm.
  - unfold uct_ud_verbs_ep_am_zcopy in E. destruct (_ || _); [by simplify_eq|].
    destruct (uct_ud_am_skb_common _ _ _ _ _) as [?|[p [ep ifc]]] eqn:Ec; simplify_eq; [done|].
    apply am_common_calm in Ec as [Hc Hp]. eapply complete_tx_live; [done|done|done|]. cbn. congruence.
  - unfold uct_ud_verbs_ep_put_short in E. destruct (_ <? _); [by simplify_eq|]. destruct (negb _); [by simplify_eq|].
    destruct st as [ep ifc]. cbn [uct_ud_neth_init_data uct_ud_neth_ack_req] in E. simplify_eq.
    eapply complete_tx_live; [done|done|by apply calm_same|done].
  - by eapply flush_live.
  - apply bind_Some in E as (st1 & E1 & E). simplify_eq. eapply calm_live; [done|]. eapply pending_ctl_calm; [|done]. apply Hinv.
  - apply bind_Some in E as (st1 & E1 & E). simplify_eq. destruct Hl as [Hh Ha].
    destruct (completion_loop_live _ _ _ _ _ Hh E1) as [T H]. split; [done|by eapply same_timer_armed].
  - simplify_eq. destruct st. eapply calm_live; [done|]. by apply calm_same.
  - simplify_eq. destruct st. eapply calm_live; [done|]. by apply calm_same.
  - apply bind_Some in E as (st1 & E1 & E). simplify_eq. by eapply timer_live.
Qed.

Lemma resend_ack_same ep : window (tx (uct_ud_ep_resend_ack ep)) = window (tx ep) /\
  acked_psn (tx (uct_ud_ep_resend_ack ep)) = acked_psn (tx ep) /\ psn (tx (uct_ud_ep_resend_ack ep)) = psn (tx ep).
Proof. unfold uct_ud_ep_resend_ack. by repeat case_match. Qed.

Lemma process_ack_live cfg self dest n a h ra sent comps st j is_async now st' : ep_inv cfg self dest n a h ra sent comps st ->
  live cfg st -> j < n -> a - j < half -> uct_ud_ep_process_ack cfg st (u16 j) is_async now = Some st' -> live cfg st'.
Proof.
  intros Hinv [Hh Ha] Hj Hfr E. pose proof (last_ack_ok _ _ _ _ _ _ _ _ _ _ Hinv) as Ela. pose proof (ei_acked _ _ _ _ _ _ _ _ _ _ Hinv) as Hack.
  destruct (ei_window_size _ _ _ _ _ _ _ _ _ _ Hinv) as [W1 W2], (ei_ca _ _ _ _ _ _ _ _ _ _ Hinv) as [_ C2]. unfold UCT_UD_CA_MAX_WINDOW in *.
  destruct st as [ep ifc]. unfold uct_ud_ep_process_ack in E. cbn [fst snd] in *. unfold psn_le in E.
  rewrite Hack, psn_diff_ok in E by (unfold half in *; lia). destruct (Z.leb_spec (j - a) 0); [by simplify_eq|].
  destruct (negb _); [done|]. set (ep1 := upd_tx (set_acked_psn (u16 j)) ep) in *. unfold uct_ud_ep_window_release_inline in E.
  destruct (release_loop_live (window (tx ep1)) (ep1, ifc) (u16 j) UCS_OK is_async false eq_refl) as [(T1 & T2 & T3 & T4 & _) Hhd].
  cbn [fst snd] in *. destruct (window_release_loop _ _ _ _ _ _) as [ep2 ifc2]. simplify_eq. cbn [fst snd] in *.
  destruct (resend_ack_same (uct_ud_ep_ca_ack ep2)) as (R1 & R2 & R3). split.
  - unfold head_ok. cbn [fst tx upd_tx set_tx window set_send_time set_tick acked_psn]. rewrite R1, R2. cbn. by rewrite T2.
  - unfold armed. cbn [fst snd]. intros Hd Ht _. rewrite T3. rewrite T4 in Ht. apply Ha; try done.
    cbn [fst]. rewrite Ela. apply bool_decide_eq_false_2. lia.
Qed.

Lemma process_rx_live cfg self dest n a h ra sent comps st p j is_async now st' : ep_inv cfg self dest n a h ra sent comps st ->
  live cfg st -> ack_psn p = u16 j -> j < n -> a - j < half -> uct_ud_ep_process_rx cfg st p is_async now = Some st' -> live cfg st'.
Proof.
  intros Hinv Hl Hack Hj Hfr E. unfold uct_ud_ep_process_rx in E. destruct (_ =? _); [by simplify_eq|]. destruct (negb _); [done|].
  apply bind_Some in E as ([ep ifc] & E1 & E). rewrite Hack in E1.
  apply (process_ack_live cfg self dest n a h ra sent comps st j is_async now (ep, ifc)) in E1; try done.
  eapply calm_live; [exact E1|]. clear E1. cbv zeta in E.
  match type of E with context [psn_gt (p_psn p) (FragList.head_sn (ooo_pkts (rx ?e)) + 1)] => set (ep2 := e) in * end.
  assert (calm (ep, ifc) (ep2, ifc)) as Hc2 by (subst ep2; destruct (has _ UCT_UD_PACKET_FLAG_ACK_REQ); by apply calm_same).
  match type of E with context [if psn_gt (p_psn p) ?x then ?e else ep2] => set (ep3 := if psn_gt (p_psn p) x then e else ep2) in * end.
  assert (calm (ep, ifc) (ep3, ifc)) as Hc3.
  { eapply calm_trans; [exact Hc2|]. subst ep3. destruct (psn_gt _ _); by apply calm_same. }
  eapply calm_trans; [exact Hc3|]. clearbody ep3. clear Hc3 Hc2 ep2.
  destruct (_ && has _ UCT_UD_PACKET_FLAG_NACK); [simplify_eq; by apply calm_same|].
  destruct (_ && no_body p); [simplify_eq; by apply calm_same|]. destruct (_ && has _ UCT_UD_PACKET_FLAG_CTL).
  - unfold uct_ud_ep_rx_ctl in E. destruct (p_body p); try done. apply bind_Some in E as (c & _ & E). destruct (_ && _); [done|].
    destruct (psn_lt _ _); [apply bind_Some in E as (? & _ & E); simplify_eq; by apply calm_same|].
    unfold uct_ud_ep_set_dest_ep_id in E. destruct (_ =? _); [done|]. cbn [mbind option_bind] in E. simplify_eq. by apply calm_same.
  - destruct (FragList.ucs_frag_list_insert _ _ _) as [t fl]. destruct t; try done; try (simplify_eq; by apply calm_same).
    destruct (_ && has _ UCT_UD_PACKET_FLAG_PUT); [simplify_eq; by apply calm_same|].
    destruct (_ && _); simplify_eq; by apply calm_same.
Qed.

(** ** Pairs *)

Definition live_pair (p : pair) : Prop :=
  pair_inv p /\ live (ncfg p.1) (ns p.1) /\ live (ncfg p.2) (ns p.2).

Lemma local_live op x y status x' : pair_inv (x, y) -> live (ncfg x) (ns x) -> local op x = Some (status, x') -> live (ncfg x') (ns x').
Proof.
  intros (ida & idb & na & aa & ha & raa & nb & ab & hb & rab & H1 & _) Hl E. unfold local in E.
  apply bind_Some in E as ([status1 st] & E & E1). simplify_eq. cbn [ncfg ns]. eapply exec_live; [apply H1|done|done].
Qed.

Lemma deliver_live i is_async now x y y' : pair_inv (x, y) -> live (ncfg y) (ns y) -> deliver i is_async now x y = Some y' ->
  live (ncfg y') (ns y').
Proof.
  intros (ida & idb & na & aa & ha & raa & nb & ab & hb & rab & H1 & H2 & H3 & H4) Hl E. unfold deliver in E. cbn [fst snd] in *.
  destruct (net x !! i) as [f|] eqn:Hf; [|by simplify_eq]. apply list_elem_of_lookup_2 in Hf.
  destruct (_ && _ && _) eqn:Hg; [|by simplify_eq]. apply andb_true_iff in Hg as [[Hs%Nat.leb_le Hr%Nat.leb_le]%andb_true_iff _].
  apply bind_Some in E as (st & E & E1). simplify_eq. cbn [ncfg ns].
  destruct (flight_fresh _ _ _ _ _ _ _ _ _ _ _ _ _ H1 H2 H3 H4 Hf Hs Hr) as (j & Ej & Hj & Hjr & Hfr & _).
  eapply process_rx_live; [apply H2|done|done|done|done|done].
Qed.

Lemma step_live p e p' : live_pair p -> step p e = Some p' -> live_pair p'.
Proof.
  intros (Hp & Hx & Hy) E1. pose proof (pair_step_ok p e Hp) as Hp1. rewrite E1 in Hp1. split; [done|]. clear Hp1.
  destruct p as [x y]. pose proof (pair_swap _ Hp) as Hp2. cbn [fst snd] in *.
  destruct e as [[] op|[] i is_async now]; cbn [step fst snd] in E1; apply bind_Some in E1 as (z & Ez & E).
  - destruct z as [status z]. simplify_eq. split; [done|]. by eapply (local_live op y x).
  - destruct z as [status z]. simplify_eq. split; [|done]. by eapply (local_live op x y).
  - simplify_eq. split; [done|]. by eapply (deliver_live i is_async now x y).
  - simplify_eq. split; [|done]. by eapply (deliver_live i is_async now y x).
Qed.

Lemma run_live es : forall p p', live_pair p -> run es p = Some p' -> live_pair p'.
Proof.
  induction es as [|e es IH]; intros p p' H E; cbn [run] in E; [by simplify_eq|].
  apply bind_Some in E as (p1 & E1 & E). eapply IH; [|exact E]. by eapply step_live.
Qed.

Lemma reset_live cfg ep : live cfg (uct_ud_ep_reset cfg ep, iface_init).
Proof.
  split; [exact I|]. unfold armed. cbn [fst].
  assert (uct_ud_ep_is_last_ack_received (uct_ud_ep_reset cfg ep) = true) as -> by reflexivity. intros _ _ H. discriminate H.
Qed.

Lemma connect_live cfg self dest x : connect cfg self dest = Some x -> live (ncfg x) (ns x).
Proof.
  unfold connect, uct_ud_ep_connect_to_ep, uct_ud_ep_set_dest_ep_id. intros E. apply bind_Some in E as (ep & E & Ex).
  apply (inj Some) in Ex as <-. cbn [ncfg ns]. destruct (dest_ep_id _ =? _); [|done]. destruct (dest =? _); [done|].
  apply bind_Some in E as (ep1 & _ & E). destruct (FragList.ucs_frag_list_cleanup _); [|done].
  apply (inj Some) in E as <-. apply reset_live.
Qed.

Lemma connect_pair_live cfga cfgb ida idb p : connect_pair cfga cfgb ida idb = Some p ->
  live (ncfg p.1) (ns p.1) /\ live (ncfg p.2) (ns p.2).
Proof.
  unfold connect_pair. intros E. apply bind_Some in E as (x & Ex & E). apply bind_Some in E as (y & Ey & E).
  apply (inj Some) in E as <-. apply connect_live in Ex, Ey. done.
Qed.

Lemma execution_live cfga cfgb ida idb es p : valid cfga cfgb ida idb = true -> execution cfga cfgb ida idb es = Some p -> live_pair p.
Proof.
  intros Hv. destruct (connect_pair_ok _ _ _ _ Hv) as (p0 & E0 & H0). unfold execution. rewrite E0. cbn [mbind option_bind].
  apply run_live. split; [done|]. by eapply connect_pair_live.
Qed.

(** ** Retransmission *)

Section Retransmit.
Context (cfg : config) (self dest n a h ra : Z) (sent : list msg) (comps : list (Z * Z)).
Notation inv := (ep_inv cfg self dest n a h ra sent comps).

(** After a loss at least one packet can be resent. *)
Lemma ca_drop_max ep ifc : inv (ep, ifc) -> a <> n - 1 ->
  exists mx, max_psn (tx (uct_ud_ep_ca_drop ep)) = u16 mx /\ a + 2 <= mx <= n.
Proof.
  intros [H1 H2 H3 H4 [H5 H5'] [H6 H6'] H7 H8 H9 H10 H11 H12 H13 H14 H15] Ha. cbn [fst snd] in *.
  unfold uct_ud_ep_ca_drop, UCT_UD_CA_MD_FACTOR, UCT_UD_CA_MIN_WINDOW, psn_gt, UCT_UD_CA_MAX_WINDOW in *.
  set (w := if cwnd (ca ep) / 2 <? 2 then 2 else cwnd (ca ep) / 2).
  assert (2 <= w <= wmax (ca ep)) as Hw.
  { pose proof (Z.div_le_upper_bound (cwnd (ca ep)) 2 (cwnd (ca ep))). unfold w. destruct (Z.ltb_spec (cwnd (ca ep) / 2) 2); lia. }
  clearbody w. cbn [upd_tx tx set_tx set_ca max_psn set_max_psn psn]. rewrite H3, H4, u_wrap_add_l, psn_diff_ok by (unfold half; lia).
  destruct (Z.ltb_spec 0 (a + w - n)); [exists n; split; [done|lia]|]. exists (a + w). cbn. rewrite H4, u_wrap_add_l. split; [done|lia].
Qed.

(** The end of the timer keeps the skbs that are in use. *)
Lemma timer_end_use ep ep1 ifc ifc' tk cur x y : inv (ep1, ifc) -> window (tx ep1) = window (tx ep) -> same_queues ifc ifc' ->
  let st' := (upd_tx (set_tick tk) ep1, timer_out cfg cur x y ifc') in
  inv st' /\ quiet (ep, ifc) st' /\ skbs_in_use st' = skbs_in_use (ep, ifc).
Proof.
  intros H Hw Hq. destruct (timer_end_inv cfg self dest n a h ra sent comps (ep, ifc) ep1 ifc' tk cur x y H Hq) as [H1 H2].
  split; [done|]. split; [done|]. assert (same_queues ifc (timer_out cfg cur x y ifc')) as (Q1 & Q2 & _).
  { unfold timer_out. by apply check_pending_keeps. }
  unfold skbs_in_use. cbn [fst snd]. rewrite Q1, Q2. cbn. by rewrite Hw.
Qed.

(** The timer starts a round of resends at the begin of the window. *)
Lemma timer_starts ep ifc wheel t0 t1 t2 t3 : inv (ep, ifc) -> a <> n - 1 ->
  uct_ud_ep_ctl_op_check ep (Z.lor UCT_UD_EP_OP_ACK_REQ UCT_UD_EP_OP_RESEND) = false -> resend_count (tx ep) = 0 ->
  0 <= iface_tick cfg -> 3 * iface_tick cfg < u64 (wheel - Z.max (send_time (tx ep)) (resend_time (tx ep))) ->
  exists ep1 tk ifc', ep1 = uct_ud_ep_ctl_op_add UCT_UD_EP_OP_ACK_REQ (uct_ud_ep_resend_start (uct_ud_ep_ca_drop ep)) /\
    uct_ud_ep_timer cfg wheel t0 t1 t2 t3 (ep, ifc) = Some (upd_tx (set_tick tk) ep1, ifc') /\
    inv (upd_tx (set_tick tk) ep1, ifc') /\ quiet (ep, ifc) (upd_tx (set_tick tk) ep1, ifc') /\
    skbs_in_use (upd_tx (set_tick tk) ep1, ifc') = skbs_in_use (ep, ifc).
Proof.
  intros H Ha Hops Hc Ht Hd.
  pose proof (last_ack_ok _ _ _ _ _ _ _ _ _ _ H) as Ela. cbn [fst] in Ela. rewrite bool_decide_eq_false_2 in Ela by done.
  destruct (timer_resend_ok cfg self dest n a h ra sent comps ep ifc true true H Ha Hc) as (ep1 & E1 & H1).
  assert (ep1 = uct_ud_ep_ctl_op_add UCT_UD_EP_OP_ACK_REQ (uct_ud_ep_resend_start (uct_ud_ep_ca_drop ep))) as Eep.
  { assert (inv (uct_ud_ep_resend_start (uct_ud_ep_ca_drop ep), ifc)) as H0.
    { apply resend_start_ok; [by apply ca_drop_ok|done|]. unfold uct_ud_ep_ca_drop. by destruct (psn_gt _ _). }
    cbn zeta in E1. rewrite (connected_ok _ _ _ _ _ _ _ _ _ _ _ H0) in E1. by apply (inj Some) in E1. }
  unfold uct_ud_ep_timer. rewrite Ela.
  rewrite bool_decide_eq_false_2; [|intros Hw; by destruct (window_empty _ _ _ _ _ _ _ _ _ _ H Hw)].
  rewrite Hops, Hc. cbn [orb Z.ltb Z.compare].
  rewrite (proj2 (Z.ltb_lt (iface_tick cfg) _)), (proj2 (Z.ltb_lt (3 * iface_tick cfg) _)) by lia.
  rewrite (bind_eq _ _ _ E1). clear E1.
  set (ifc1 := uct_ud_ep_check_pending cfg t0 _ _). set (ifc2 := uct_ud_ep_check_pending cfg t1 t0 ifc1).
  assert (same_queues ifc ifc1) as Hq1 by (by apply check_pending_keeps).
  assert (same_queues ifc ifc2) as Hq2 by (by apply check_pending_keeps).
  assert (upd_tx (set_tick (tick (tx ep1))) ep1 = ep1) as Eself by (by destruct ep1 as [? ? [] ? ? ? ? ? ? ?]).
  assert (window (tx ep1) = window (tx ep)) as Hw1 by (rewrite Eep; unfold uct_ud_ep_ca_drop; by destruct (psn_gt _ _)).
  clearbody ifc1. clearbody ifc2.
  destruct (peer_timeout cfg <? _); [case_bool_decide|].
  - exists ep1, (tick (tx ep1)). eexists. split; [done|]. rewrite Eself at 1. split; [reflexivity|].
    by apply timer_end_use.
  - eexists ep1, _, _. split; [done|]. split; [reflexivity|]. by apply timer_end_use.
  - eexists ep1, _, _. split; [done|]. split; [reflexivity|]. by apply timer_end_use.
Qed.

(** The head of the window is the first packet that is not acknowledged. *)
Lemma head_first ep ifc : inv (ep, ifc) -> head_ok (ep, ifc) -> a <> n - 1 -> (forall s, s ∈ window (tx ep) -> resending s = false) ->
  exists s, head (window (tx ep)) = Some s /\ is_dummy s = false /\ p_psn (neth s) = u16 (a + 1) /\ resending s = false /\
    data_type dest (neth s) /\ decode (neth s) = sent !! Z.to_nat a.
Proof.
  intros H Hh Ha Hr. destruct (ei_win _ _ _ _ _ _ _ _ _ _ H) as (lo & W & _).
  destruct (ei_window_size _ _ _ _ _ _ _ _ _ _ H) as [W1 W2], (ei_ca _ _ _ _ _ _ _ _ _ _ H) as [_ C2]. unfold UCT_UD_CA_MAX_WINDOW in *.
  pose proof (ei_acked _ _ _ _ _ _ _ _ _ _ H) as Eack. unfold head_ok in Hh. cbn [fst] in *.
  pose proof (window_empty _ _ _ _ _ _ _ _ _ _ H) as He. cbn [fst] in He.
  destruct (window (tx ep)) as [|s w] eqn:Ew; [by destruct He|]. clear He.
  assert ((if is_dummy s then lo - 1 else lo, s) ∈ numbered lo (s :: w)) as Hin by (rewrite head_number; by left).
  destruct (window_compare _ _ _ _ _ _ _ _ _ W ltac:(lia) ltac:(lia) Hin) as (Hp & Hrange & _).
  unfold uct_ud_skb_is_completed, psn_le in Hh. rewrite Hp, Eack, psn_diff_ok, (Hr s), andb_true_r in Hh by (done || by left).
  apply Z.leb_gt in Hh. pose proof (wo_lo _ _ _ _ _ _ _ W).
  destruct (wo_skbs _ _ _ _ _ _ _ W _ _ Hin) as [_ S2 _]. destruct (is_dummy s) eqn:Hd; [lia|].
  assert (lo = a + 1) as -> by lia. destruct (S2 eq_refl) as [S3 S4]. exists s. split_and!; try done.
  - apply Hr. by left.
  - rewrite S4. f_equal. lia.
Qed.

(** At the begin of a round, the first packet that is not acknowledged is resent. *)
Lemma resend_first ep ifc r now mx : inv (ep, ifc) -> head_ok (ep, ifc) -> a <> n - 1 ->
  (forall s, s ∈ window (tx ep) -> resending s = false) -> Z.testbit (ops (tx ep)) 2 = true -> pos (resend ep) = IterBegin ->
  resend_max_psn (resend ep) = u16 (n - 1) -> max_psn (tx ep) = u16 mx -> a + 2 <= mx <= n ->
  (has (flags ep) UCT_UD_EP_FLAG_TX_NACKED = true \/
   forall s, head (window (tx ep)) = Some s -> len s <= neth_size + ctl_hdr_size + addr_size cfg) ->
  uct_ud_iface_ctl_skb_get cfg r (ep, ifc) = true ->
  exists p st', uct_ud_ep_do_pending_ctl cfg r now (ep, ifc) = Some st' /\ wire st'.2 = wire ifc ++ [p] /\
    p_psn p = u16 (a + 1) /\ decode p = sent !! Z.to_nat a.
Proof.
  intros H Hh Ha Hr Hbit Hpos Hrm Hmx Hmxb Hlen Hctl. pose proof (ei_ops _ _ _ _ _ _ _ _ _ _ H) as Ho.
  destruct (head_first ep ifc H Hh Ha Hr) as (s & Hs & Hd & Hp & Hrs & Ht & Hm).
  destruct (ei_window_size _ _ _ _ _ _ _ _ _ _ H) as [W1 W2], (ei_ca _ _ _ _ _ _ _ _ _ _ H) as [_ C2]. unfold UCT_UD_CA_MAX_WINDOW in *.
  pose proof (ei_acked _ _ _ _ _ _ _ _ _ _ H) as Eack. cbn [fst] in *.
  unfold uct_ud_ep_do_pending_ctl, uct_ud_ep_ctl_op_check. cbn [fst]. unfold UCT_UD_EP_OP_CREQ, UCT_UD_EP_OP_CREP, UCT_UD_EP_OP_RESEND.
  rewrite !(ops_ok_none _ _ Ho), has_bit, Hbit by lia. unfold uct_ud_ep_resend, psn_le, psn_ge.
  rewrite Hrm, Eack, psn_diff_ok by (unfold half; lia). rewrite (proj2 (Z.leb_gt (n - 1 - a) 0)) by lia.
  rewrite Hpos. cbn [iter_elem]. rewrite Hs. cbn [mbind option_bind]. rewrite Hp, Hmx, psn_diff_ok by (unfold half; lia).
  rewrite (proj2 (Z.leb_gt 0 (a + 1 - mx))) by lia.
  assert (negb (has (flags ep) UCT_UD_EP_FLAG_TX_NACKED) && (neth_size + ctl_hdr_size + addr_size cfg <? len s) = false) as ->.
  { destruct Hlen as [->|Hl]; [done|]. specialize (Hl s Hs). rewrite (proj2 (Z.ltb_ge _ _)) by done. apply andb_false_r. }
  rewrite Hrs. fold (is_dummy s). rewrite Hd. set (ep' := set_resend _ ep).
  change (uct_ud_ep_is_connected ep') with (uct_ud_ep_is_connected ep). rewrite (connected_ok _ _ _ _ _ _ _ _ _ _ _ H). cbn [mbind option_bind].
  destruct Ht as [Edest _]. destruct (ei_ids _ _ _ _ _ _ _ _ _ _ H) as (_ & _ & Hne & _).
  rewrite Edest, (proj2 (Z.eqb_neq dest UCT_UD_EP_NULL_ID)) by done. cbn [andb].
  change (uct_ud_iface_ctl_skb_get cfg r (ep', ifc)) with (uct_ud_iface_ctl_skb_get cfg r (ep, ifc)). rewrite Hctl. cbn [negb].
  exists (resend_packet ep (neth s)). eexists. split; [reflexivity|]. split; [done|]. split; [done|].
  rewrite <- Hm. apply same_message_ok; [|done]. unfold resend_packet. cbn [packet_type].
  destruct (_ || _); [apply same_message_set|apply same_message_clear].
Qed.

(** The fields of the endpoint when the round starts. *)
Lemma start_fields ep tk ep1 : ep1 = uct_ud_ep_ctl_op_add UCT_UD_EP_OP_ACK_REQ (uct_ud_ep_resend_start (uct_ud_ep_ca_drop ep)) ->
  let ep2 := upd_tx (set_tick tk) ep1 in
  window (tx ep2) = window (tx ep) /\ flags ep2 = flags ep /\ acked_psn (tx ep2) = acked_psn (tx ep) /\ pos (resend ep2) = IterBegin /\
  resend_max_psn (resend ep2) = u16 (psn (tx ep) - 1) /\ max_psn (tx ep2) = max_psn (tx (uct_ud_ep_ca_drop ep)) /\
  Z.testbit (ops (tx ep2)) 2 = true.
Proof.
  intros -> ep2. assert (Z.testbit (ops (tx ep2)) 2 = true) as Hb.
  { change (ops (tx ep2)) with (Z.lor (Z.lor (ops (tx (uct_ud_ep_ca_drop ep))) UCT_UD_EP_OP_RESEND) UCT_UD_EP_OP_ACK_REQ).
    rewrite !Z.lor_spec. unfold UCT_UD_EP_OP_RESEND. rewrite (testbit_bit 2) by lia. cbn [Z.eqb Pos.eqb]. by rewrite orb_true_r. }
  split_and!; try exact Hb; subst ep2; unfold uct_ud_ep_ca_drop; by destruct (psn_gt _ _).
Qed.

(** The timer and the control operations resend the first packet that is not
    acknowledged. *)
Lemma timer_resends ep ifc wheel t0 t1 t2 t3 r now : inv (ep, ifc) -> live cfg (ep, ifc) -> a <> n - 1 ->
  uct_ud_ep_ctl_op_check ep (Z.lor UCT_UD_EP_OP_ACK_REQ UCT_UD_EP_OP_RESEND) = false -> resend_count (tx ep) = 0 ->
  0 <= iface_tick cfg -> 3 * iface_tick cfg < u64 (wheel - Z.max (send_time (tx ep)) (resend_time (tx ep))) ->
  (has (flags ep) UCT_UD_EP_FLAG_TX_NACKED = true \/
   forall s, head (window (tx ep)) = Some s -> len s <= neth_size + ctl_hdr_size + addr_size cfg) ->
  uct_ud_iface_ctl_skb_get cfg r (ep, ifc) = true ->
  exists st1 st2 p, uct_ud_ep_timer cfg wheel t0 t1 t2 t3 (ep, ifc) = Some st1 /\ quiet (ep, ifc) st1 /\
    uct_ud_ep_do_pending_ctl cfg r now st1 = Some st2 /\ wire st2.2 = wire ifc ++ [p] /\
    p_psn p = u16 (a + 1) /\ decode p = sent !! Z.to_nat a.
Proof.
  intros H [Hh _] Ha Hops Hc Ht Hd Hlen Hctl. pose proof (resent_nil _ _ _ _ _ _ _ _ _ _ H Hc) as Hr. cbn [fst] in Hr.
  destruct (timer_starts ep ifc wheel t0 t1 t2 t3 H Ha Hops Hc Ht Hd) as (ep1 & tk & ifc' & E1 & E & H1 & Hq & Hu).
  destruct (start_fields ep tk ep1 E1) as (F1 & F2 & F3 & F4 & F5 & F6 & F7).
  destruct (ca_drop_max ep ifc H Ha) as (mx & Hmx & Hmxb). set (ep2 := upd_tx (set_tick tk) ep1) in *. clearbody ep2. clear E1 ep1.
  destruct (resend_first ep2 ifc' r now mx H1) as (p & st' & E2 & Hw & Hp & Hm); try done.
  - unfold head_ok in *. cbn [fst] in *. by rewrite F1, F3.
  - by rewrite F1.
  - rewrite F5. rewrite (ei_psn _ _ _ _ _ _ _ _ _ _ H : psn (tx ep) = u16 n). rewrite <- !Z.add_opp_r. apply u_wrap_add_l.
  - congruence.
  - by rewrite F1, F2.
  - unfold uct_ud_iface_ctl_skb_get in *. by rewrite Hu.
  - exists (ep2, ifc'), st', p. split_and!; try done. destruct Hq as (Q1 & _). cbn [snd] in Q1. congruence.
Qed.

End Retransmit.

(** ** Properties *)

Lemma u16_near a b : u16 a = u16 b -> - half <= a - b < half -> a = b.
Proof.
  intros E H. pose proof (psn_diff_ok a b H) as H1. rewrite E, psn_diff_ok in H1 by (unfold half; lia). lia.
Qed.

(** A call that sends no message. *)
Lemma local_plain op x st ps : exec (ncfg x) op (ns x) = Some (UCS_OK, st) -> op_msg op = [] -> op_comp op = None ->
  wire st.2 = wire (ns x).2 ++ ps ->
  local op x = Some (UCS_OK, Node (ncfg x) st (sent x) (comps x)
    (net x ++ ((fun p => Flight p (length (sent x)) (length (rx_log st.2))) <$> ps))).
Proof.
  intros E Hm Hc Hw. unfold local, posted. rewrite E. cbn [mbind option_bind accepted]. rewrite Hm, Hc, Hw, drop_app_length.
  cbn [flush_comp]. by rewrite !app_nil_r.
Qed.

(** A data packet that was just posted, with the number that the peer waits for,
    is accepted. *)
Lemma deliver_next x y f i now m : pair_inv (x, y) -> net x !! i = Some f -> f_sent f = length (sent x) ->
  f_rcvd f = length (rx_log (ns x).2) -> p_psn (f_packet f) = u16 (Z.of_nat (length (rx_log (ns y).2)) + 1) ->
  decode (f_packet f) = Some m ->
  exists y', deliver i true now x y = Some y' /\ pair_inv (x, y') /\ length (rx_log (ns y').2) = S (length (rx_log (ns y).2)).
Proof.
  intros H Hi Hs Hr Hp Hm. destruct (deliver_pair i true now x y H) as (y' & E & H'). exists y'. split; [done|]. split; [done|].
  destruct H as (ida & idb & na & aa & ha & raa & nb & ab & hb & rab & H1 & H2 & H3 & H4). cbn [fst snd] in *.
  pose proof (list_elem_of_lookup_2 _ _ _ Hi) as Hf.
  assert (length (sent x) - f_sent f <= max_age)%nat as Hsa by (rewrite Hs; lia).
  assert (length (rx_log (ns x).2) - f_rcvd f <= max_age)%nat as Hra by (rewrite Hr; lia).
  destruct (flight_fresh _ _ _ _ _ _ _ _ _ _ _ _ _ H1 H2 H3 H4 Hf Hsa Hra) as (j & Ej & Hj & Hjr & Hfr & Hk).
  destruct Hk as [(k & m' & Ek & Hd & Em & _ & Hkn & Hlo & Hhi)|(_ & Ham & Hb)].
  2:{ unfold decode in Hm. by rewrite Ham, Hb in Hm. }
  pose proof (ni_rcvd _ _ _ _ _ _ _ H2) as Eh. rewrite Eh in Hp.
  assert (k = hb + 1) as -> by (apply u16_near; [congruence|unfold half in *; lia]).
  destruct (rx_data_ok _ _ _ (ni_cfg _ _ _ _ _ _ _ H2) _ _ _ _ _ _ _ _ _ _ _ true now (ni_ep _ _ _ _ _ _ _ H2) Hd Ej Hj Hfr Ek Em Hlo Hhi)
    as (st' & ps & Est & _ & _ & -> & Erx & _).
  unfold deliver in E. rewrite Hi, (proj2 (Nat.leb_le _ _) Hsa), (proj2 (Nat.leb_le _ _) Hra), Est in E.
  apply (inj Some) in E as <-. cbn [ns]. rewrite Erx, Z.eqb_refl, length_app. cbn [length]. lia.
Qed.

(** The resend of a packet that the peer waits for. *)
Lemma recover_pair x y wheel t0 t1 t2 t3 r now now' : live_pair (x, y) ->
  uct_ud_ep_is_last_ack_received (ns x).1 = false ->
  uct_ud_ep_ctl_op_check (ns x).1 (Z.lor UCT_UD_EP_OP_ACK_REQ UCT_UD_EP_OP_RESEND) = false -> resend_count (tx (ns x).1) = 0 ->
  0 <= iface_tick (ncfg x) ->
  3 * iface_tick (ncfg x) < u64 (wheel - Z.max (send_time (tx (ns x).1)) (resend_time (tx (ns x).1))) ->
  (has (flags (ns x).1) UCT_UD_EP_FLAG_TX_NACKED = true \/
   forall s, head (window (tx (ns x).1)) = Some s -> len s <= neth_size + ctl_hdr_size + addr_size (ncfg x)) ->
  uct_ud_iface_ctl_skb_get (ncfg x) r (ns x) = true ->
  acked_psn (tx (ns x).1) = u16 (Z.of_nat (length (rx_log (ns y).2))) ->
  exists p', run [Local false (Timer wheel t0 t1 t2 t3); Local false (PendingCtl r now); Deliver true (length (net x)) true now'] (x, y) = Some p' /\
    delivered p'.2 = take (S (length (delivered y))) (sent x) /\ length (delivered p'.2) = S (length (delivered y)).
Proof.
  intros ((ida & idb & na & aa & ha & raa & nb & ab & hb & rab & H1 & H2 & H3 & H4) & Hl & _) Hla Hops Hc Ht Hd Hlen Hctl Hack. cbn [fst snd] in *.
  pose proof (ni_ep _ _ _ _ _ _ _ H1) as Hi. assert (pair_inv (x, y)) as Hp.
  { by exists ida, idb, na, aa, ha, raa, nb, ab, hb, rab. }
  rewrite (last_ack_ok _ _ _ _ _ _ _ _ _ _ Hi) in Hla. apply bool_decide_eq_false in Hla.
  assert (aa = hb) as Eab.
  { pose proof (ni_rcvd _ _ _ _ _ _ _ H2) as Eh. rewrite Eh, (ei_acked _ _ _ _ _ _ _ _ _ _ Hi) in Hack.
    destruct (ei_window_size _ _ _ _ _ _ _ _ _ _ Hi), (ei_ca _ _ _ _ _ _ _ _ _ _ Hi), (ei_ra _ _ _ _ _ _ _ _ _ _ (ni_ep _ _ _ _ _ _ _ H2)).
    destruct H3. unfold UCT_UD_CA_MAX_WINDOW in *. apply u16_near; [done|unfold half; lia]. }
  destruct (ns x) as [ep ifc] eqn:Ex. cbn [fst snd] in *.
  destruct (timer_resends _ _ _ _ _ _ _ _ _ ep ifc wheel t0 t1 t2 t3 r now Hi Hl Hla Hops Hc Ht Hd Hlen Hctl)
    as (st1 & st2 & p & E1 & (Q1 & Q2 & Q3) & E2 & Hw & Hpsn & Hdec).
  set (x1 := Node (ncfg x) st1 (sent x) (comps x) (net x)).
  assert (local (Timer wheel t0 t1 t2 t3) x = Some (UCS_OK, x1)) as L1.
  { rewrite (local_plain _ x st1 []); [by rewrite app_nil_r| |done|done|].
    - cbn [exec]. by rewrite Ex, E1.
    - by rewrite Ex, app_nil_r. }
  set (f := Flight p (length (sent x)) (length (rx_log st2.2))).
  set (x2 := Node (ncfg x) st2 (sent x) (comps x) (net x ++ [f])).
  assert (local (PendingCtl r now) x1 = Some (UCS_OK, x2)) as L2.
  { rewrite (local_plain _ x1 st2 [p]); [done| |done|done|].
    - cbn [exec ncfg ns x1]. by rewrite E2.
    - cbn [ns x1 snd]. rewrite Hw. f_equal. by symmetry. }
  pose proof (local_pair (Timer wheel t0 t1 t2 t3) x y Hp) as Hp1. rewrite L1 in Hp1. destruct Hp1 as [Hp1 _].
  pose proof (local_pair (PendingCtl r now) x1 y Hp1) as Hp2. rewrite L2 in Hp2. destruct Hp2 as [Hp2 _].
  pose proof (ei_sent _ _ _ _ _ _ _ _ _ _ Hi) as Hsent. pose proof (ni_rcvd _ _ _ _ _ _ _ H2) as Eh.
  destruct (ei_window_size _ _ _ _ _ _ _ _ _ _ Hi) as [W1 _].
  destruct (lookup_lt_is_Some_2 (sent x) (Z.to_nat hb) ltac:(lia)) as [m Hm]. rewrite Eab in Hdec, Hpsn. rewrite Hm in Hdec.
  destruct (deliver_next x2 y f (length (net x)) now' m Hp2) as (y' & Ed & Hp3 & Elen); try done.
  { by apply list_lookup_middle. }
  { cbn [f_packet f]. by rewrite Eh. }
  exists (x2, y'). cbn [run step fst snd]. rewrite L1. cbn [mbind option_bind fst snd]. rewrite L2. cbn [mbind option_bind fst snd].
  rewrite Ed. split; [done|]. cbn [snd]. destruct (pair_delivered _ _ Hp3) as [Hpre El], (pair_delivered _ _ Hp) as [_ El0].
  rewrite El, El0, Elen. split; [|done]. destruct Hpre as [l Hl']. change (sent x2) with (sent x) in Hl'.
  rewrite Hl', take_app_le by lia. rewrite take_ge by lia. done.
Qed.

(** *** Timeouts *)

(** The last acknowledgement is older than the last suspension that was noticed. *)
Definition stalled (t : Z) (st : state) : Prop :=
  send_time (tx st.1) = t /\ t <= pt_start st.2 /\ timeout_raised st.2 = false /\ (pt_last st.2 = 0 \/ t <= pt_last st.2).

(** What an endpoint does while its peer is silent, after the time [t]. *)
Definition waiting_op (t : Z) (op : operation) : bool :=
  match op with
  | Timer _ t0 t1 t2 t3 => (t <=? t0) && (t <=? t1) && (t <=? t2) && (t <=? t3)
  | PendingCtl _ _ | SendCompletion _ _ | AsyncComps | PendingRx _ => true
  | _ => false
  end.

Lemma stalled_same t st st' : stalled t st -> same_timer st st' -> stalled t st'.
Proof. intros (S1 & S2 & S3 & S4) (_ & _ & _ & T4 & T5 & T6 & T7). unfold stalled. by rewrite T4, T5, T6, T7. Qed.

Lemma check_pending_stalled cfg t cur last ep ifc : stalled t (ep, ifc) -> last = 0 \/ t <= last ->
  stalled t (ep, uct_ud_ep_check_pending cfg cur last ifc).
Proof.
  intros (S1 & S2 & S3 & S4) Hl. unfold uct_ud_ep_check_pending. destruct (negb (last =? 0) && _) eqn:E; [|done].
  apply andb_true_iff in E as [E%negb_true_iff%Z.eqb_neq _]. split_and!; try done. cbn. lia.
Qed.

Lemma timer_stalled cfg t wheel t0 t1 t2 t3 st st' : stalled t st -> t <= t0 -> t <= t1 -> t <= t2 -> t <= t3 ->
  uct_ud_ep_timer cfg wheel t0 t1 t2 t3 st = Some st' -> stalled t st'.
Proof.
  intros Hs H0 H1 H2 H3 E. destruct st as [ep ifc]. unfold uct_ud_ep_timer in E. cbv beta zeta in E. cbn [fst snd uct_ud_ep_timer_backoff] in E.
  set (ifc1 := uct_ud_ep_check_pending cfg t0 _ _) in E.
  assert (stalled t (ep, ifc1)) as Hs1 by (apply check_pending_stalled; [done|apply Hs]). clearbody ifc1. clear Hs ifc.
  assert (forall ep' ifc', stalled t (ep', ifc') -> stalled t (ep', timer_out cfg t0 t2 t3 ifc')) as Hout.
  { intros ep' ifc' (S1 & S2 & S3 & S4). apply check_pending_stalled; [|by right]. split_and!; try done. by right. }
  destruct (uct_ud_ep_is_last_ack_received ep).
  { destruct (has _ _); [destruct (uct_ud_ep_free_by_timeout _ _ _)|]; simplify_eq; by apply Hout. }
  case_bool_decide; [done|]. destruct (uct_ud_ep_ctl_op_check ep _ || _); [simplify_eq; by apply Hout|].
  apply bind_Some in E as (ep1 & E1 & E). assert (stalled t (ep1, ifc1)) as Hs2.
  { destruct Hs1 as (S1 & S2 & S3 & S4). split_and!; try done. cbn [fst] in *. rewrite <- S1. clear - E1.
    destruct (iface_tick cfg <? _); [|by simplify_eq]. apply bind_Some in E1 as (c & _ & E1).
    destruct c; simplify_eq; destruct (3 * _ <? _); try done; unfold uct_ud_ep_ca_drop; by destruct (psn_gt _ _). }
  destruct (peer_timeout cfg <? _); [|simplify_eq; by apply Hout].
  set (ifc2 := uct_ud_ep_check_pending cfg t1 t0 ifc1) in E.
  assert (stalled t (ep1, ifc2)) as Hs3 by (apply check_pending_stalled; [done|by right]). clearbody ifc2.
  assert (uct_ud_ep_remove_pending_time (ep1, ifc2) = UCS_OK) as Hok.
  { unfold uct_ud_ep_remove_pending_time. destruct Hs3 as (-> & S2 & _). cbn [snd] in *. by rewrite (proj2 (Z.leb_le _ _) S2). }
  rewrite bool_decide_eq_false_2 in E by (by rewrite Hok). simplify_eq. by apply Hout.
Qed.

Lemma exec_stalled cfg self dest n a h ra sent comps t st op status st' : ep_inv cfg self dest n a h ra sent comps st -> head_ok st ->
  stalled t st -> waiting_op t op = true -> exec cfg op st = Some (status, st') -> stalled t st'.
Proof.
  intros Hinv Hh Hs Ho. destruct op as [| | | | | |r now|sn async| |k|w t0 t1 t2 t3]; try done; cbn [exec]; intros E.
  - apply bind_Some in E as (st1 & E1 & E). simplify_eq. eapply stalled_same; [done|]. eapply pending_ctl_calm; [|exact E1]. apply Hinv.
  - apply bind_Some in E as (st1 & E1 & E). simplify_eq. eapply stalled_same; [done|]. by eapply completion_loop_live.
  - simplify_eq. by destruct st.
  - simplify_eq. by destruct st.
  - apply bind_Some in E as (st1 & E1 & E). simplify_eq. cbn [waiting_op] in Ho.
    apply andb_true_iff in Ho as [[[O1%Z.leb_le O2%Z.leb_le]%andb_true_iff O3%Z.leb_le]%andb_true_iff O4%Z.leb_le].
    eapply timer_stalled; [exact Hs|exact O1|exact O2|exact O3|exact O4|exact E1].
Qed.

Lemma run_stalled t ops : forall p p', live_pair p -> stalled t (ns p.1) -> forallb (waiting_op t) ops = true ->
  run (Local false <$> ops) p = Some p' -> stalled t (ns p'.1).
Proof.
  induction ops as [|op ops IH]; intros p p' Hl Hs Ho E; [cbn in E; by simplify_eq|]. rewrite fmap_cons in E. cbn [run] in E.
  apply bind_Some in E as (p1 & E1 & E). cbn [forallb] in Ho. apply andb_true_iff in Ho as [Ho1 Ho2].
  eapply (IH p1); [by eapply step_live| |done|done]. cbn [step] in E1. apply bind_Some in E1 as ([status x] & E1 & E2). simplify_eq. cbn [fst].
  unfold local in E1. apply bind_Some in E1 as ([status1 st] & E1 & E2). simplify_eq. cbn [ns].
  destruct Hl as ((ida & idb & na & aa & ha & raa & nb & ab & hb & rab & H1 & _) & [Hh _] & _).
  eapply exec_stalled; [apply H1|done|done|done|done].
Qed.

(** C33: As long as a message has not arrived at the peer, the retransmission timer
    of the sender is armed, unless the timeout of the peer was reported (or the
    timer is disabled by the configuration). *)
Theorem ud_timer_armed (cfga cfgb : config) (ida idb : Z) (es : list event) (p : pair) :
  valid cfga cfgb ida idb = true -> execution cfga cfgb ida idb es = Some p -> async_disable (ncfg p.1) = false ->
  timeout_raised (ns p.1).2 = false -> (length (delivered p.2) < length (sent p.1))%nat -> timer_active (ns p.1).2 = true.
Proof.
  intros Hv E Had Ht Hl. destruct (execution_live _ _ _ _ _ _ Hv E) as (Hp & [_ Ha] & _). apply Ha; try done. destruct p as [x y].
  destruct (pair_delivered _ _ Hp) as [_ El]. cbn [fst snd] in *.
  destruct Hp as (ida' & idb' & na & aa & ha & raa & nb & ab & hb & rab & H1 & H2 & [L1 L2 _] & _). cbn [fst snd] in *.
  rewrite (last_ack_ok _ _ _ _ _ _ _ _ _ _ (ni_ep _ _ _ _ _ _ _ H1)). apply bool_decide_eq_false_2.
  pose proof (ei_sent _ _ _ _ _ _ _ _ _ _ (ni_ep _ _ _ _ _ _ _ H1)). pose proof (ni_rcvd _ _ _ _ _ _ _ H2).
  pose proof (ei_ra _ _ _ _ _ _ _ _ _ _ (ni_ep _ _ _ _ _ _ _ H2)). lia.
Qed.

Lemma ud_timer_armed_witness : exists p, execution example_config example_config 3 4 (take 6 example_events) = Some p /\
  timer_active (ns p.1).2 = true.
Proof.
  eexists. split; [vm_compute; reflexivity|].
  apply (ud_timer_armed example_config example_config 3 4 (take 6 example_events)); [reflexivity|vm_compute; reflexivity|reflexivity|reflexivity|].
  vm_compute. lia.
Defined.

(** C14: A lost message is recovered.  Assume that the sender waits for an
    acknowledgement and has received all the acknowledgements of what the peer
    has received, that no acknowledgement request and no resend is pending or in
    flight, that nothing was sent for three ticks of the timer, that the first
    message that was not acknowledged is not longer than a connection request or
    the peer has sent a negative acknowledgement, and that the pool has a control
    skb.  Then the timer and the control operation after it send this message
    again, and when that packet arrives the peer has received one message more. *)
Theorem ud_recovers (cfga cfgb : config) (ida idb : Z) (es : list event) (p : pair) (wheel t0 t1 t2 t3 : Z) (r : resources) (now now' : Z) :
  valid cfga cfgb ida idb = true -> execution cfga cfgb ida idb es = Some p ->
  uct_ud_ep_is_last_ack_received (ns p.1).1 = false ->
  uct_ud_ep_ctl_op_check (ns p.1).1 (Z.lor UCT_UD_EP_OP_ACK_REQ UCT_UD_EP_OP_RESEND) = false -> resend_count (tx (ns p.1).1) = 0 ->
  0 <= iface_tick (ncfg p.1) ->
  3 * iface_tick (ncfg p.1) < u64 (wheel - Z.max (send_time (tx (ns p.1).1)) (resend_time (tx (ns p.1).1))) ->
  (has (flags (ns p.1).1) UCT_UD_EP_FLAG_TX_NACKED = true \/
   forall s, head (window (tx (ns p.1).1)) = Some s -> len s <= neth_size + ctl_hdr_size + addr_size (ncfg p.1)) ->
  uct_ud_iface_ctl_skb_get (ncfg p.1) r (ns p.1) = true ->
  acked_psn (tx (ns p.1).1) = u16 (Z.of_nat (length (rx_log (ns p.2).2))) ->
  exists p', run [Local false (Timer wheel t0 t1 t2 t3); Local false (PendingCtl r now);
                  Deliver true (length (net p.1)) true now'] p = Some p' /\
    delivered p'.2 = take (S (length (delivered p.2))) (sent p.1) /\ length (delivered p'.2) = S (length (delivered p.2)).
Proof.
  intros Hv E. pose proof (execution_live _ _ _ _ _ _ Hv E) as H. destruct p as [x y]. by apply recover_pair.
Qed.

Lemma ud_recovers_witness : exists p, execution example_config example_config 3 4 (take 5 example_events) = Some p /\
  exists p', run [Local false (Timer 100 100 100 100 100); Local false (PendingCtl (Res true true false true) 101);
                  Deliver true (length (net p.1)) true 102] p = Some p' /\
    delivered p'.2 = take (S (length (delivered p.2))) (sent p.1) /\ length (delivered p'.2) = S (length (delivered p.2)).
Proof.
  eexists. split; [vm_compute; reflexivity|].
  apply (ud_recovers example_config example_config 3 4 (take 5 example_events)); [reflexivity|vm_compute; reflexivity|vm_compute; reflexivity|
    vm_compute; reflexivity|reflexivity|vm_compute; discriminate|vm_compute; reflexivity|left; vm_compute; reflexivity|vm_compute; reflexivity|vm_compute; reflexivity].
Defined.

(** C39: A suspension hides a dead peer.  Once a suspension of the process was
    noticed after the last acknowledgement, [uct_ud_ep_remove_pending_time]
    answers that there is no timeout.  While the peer is silent and the user
    neither sends nor flushes, so that the endpoint only runs its timer, control
    operations, completions and progress, the timer never reports the peer,
    however long the peer timeout is exceeded. *)
Theorem ud_timeout_lost (cfga cfgb : config) (ida idb : Z) (es : list event) (p p' : pair) (ops : list operation) :
  valid cfga cfgb ida idb = true -> execution cfga cfgb ida idb es = Some p ->
  send_time (tx (ns p.1).1) <= pt_start (ns p.1).2 -> send_time (tx (ns p.1).1) <= pt_last (ns p.1).2 ->
  timeout_raised (ns p.1).2 = false -> forallb (waiting_op (send_time (tx (ns p.1).1))) ops = true ->
  run (Local false <$> ops) p = Some p' -> timeout_raised (ns p'.1).2 = false.
Proof.
  intros Hv E H1 H2 H3 Ho Er. pose proof (execution_live _ _ _ _ _ _ Hv E) as H.
  assert (stalled (send_time (tx (ns p.1).1)) (ns p.1)) as Hs by (split_and!; try done; by right).
  by destruct (run_stalled _ ops p p' H Hs Ho Er) as (_ & _ & ? & _).
Qed.

(** The peer does not answer for a million units, a thousand times the peer
    timeout, with a suspension from time 50 to 200000. *)
Lemma ud_timeout_lost_witness : exists p p',
  let r := Res true true false true in
  let timer t := Timer t t t t t in
  execution example_config example_config 3 4 [Local false (AmShort r 1 5 7 []); Local false (timer 50); Local false (timer 200000)] = Some p /\
  run (Local false <$> [PendingCtl r 200001; PendingCtl r 200002; SendCompletion 3 false; timer 1000000]) p = Some p' /\
  length (wire (ns p'.1).2) = 3%nat /\ peer_timeout example_config < 1000000 - send_time (tx (ns p'.1).1) /\
  timeout_raised (ns p'.1).2 = false.
Proof.
  eexists _, _. split; [vm_compute; reflexivity|]. split; [vm_compute; reflexivity|]. split; [reflexivity|]. split; [vm_compute; reflexivity|].
  eapply (ud_timeout_lost example_config example_config 3 4
    [Local false (AmShort (Res true true false true) 1 5 7 []); Local false (Timer 50 50 50 50 50);
     Local false (Timer 200000 200000 200000 200000 200000)]
    _ _ [PendingCtl (Res true true false true) 200001; PendingCtl (Res true true false true) 200002; SendCompletion 3 false;
         Timer 1000000 1000000 1000000 1000000 1000000]).
  - reflexivity.
  - vm_compute. reflexivity.
  - vm_compute. discriminate.
  - vm_compute. discriminate.
  - reflexivity.
  - vm_compute. reflexivity.
  - vm_compute. reflexivity.
Defined.

End UdLive.
