(* ===== verification/UdPurge.v ===== *)
(** Purge of a UD endpoint, the error path after a timeout of the peer: whatever
    was sent, received and resent before, [uct_ud_ep_purge] releases everything,
    calls every completion once, and leaves an endpoint that can be flushed. *)

From stdpp Require Import gmap sorting.
From S2P Require Import Prelude.
From S2P Require Import Bits.
From S2P Require Import FragList.
From S2P Require Import Ud.
From S2P Require Import UdEndpoint.
From S2P Require Import UdPair.

Module UdPurge.
Import Ud UdEndpoint UdPair.

(** ** The limit of the window *)

(** The release of the window does not look at [max_psn]. *)
Definition with_max (m : Z) (st : state) : state := (upd_tx (set_max_psn m) st.1, st.2).

Lemma release_with_max m w ack status is_async inval : forall st,
  window_release_loop w (with_max m st) ack status is_async inval = with_max m (window_release_loop w st ack status is_async inval).
Proof.
  induction w as [|s w IH]; intros [ep ifc]; cbn [window_release_loop]; [done|]. destruct (uct_ud_skb_is_completed s ack); [|done].
  rewrite <- IH. unfold with_max at 1 2. cbn [fst snd]. f_equal. f_equal.
  cbn [resend upd_tx set_tx]. by destruct (inval && _).
Qed.

Lemma ctl_complete_with_max m st c is_async :
  uct_ud_iface_ctl_skb_complete (with_max m st) c is_async = with_max m <$> uct_ud_iface_ctl_skb_complete st c is_async.
Proof.
  destruct st as [ep ifc]. unfold uct_ud_iface_ctl_skb_complete, uct_ud_ep_window_release_completed, uct_ud_ep_window_release_inline.
  cbn [with_max fst snd]. change (window (tx (upd_tx (set_max_psn m) ep))) with (window (tx ep)).
  destruct (resent_skb c) as [id|].
  - destruct (list_find _ _) as [[i s]|]; [|done]. cbn [mbind option_bind]. destruct (negb (resending s)); [done|].
    cbn [mbind option_bind fmap option_fmap option_map]. f_equal. rewrite <- release_with_max. done.
  - cbn [mbind option_bind fmap option_fmap option_map]. f_equal. by rewrite <- release_with_max.
Qed.

Lemma purge_loop_with_max m q : forall st,
  purge_outstanding_loop q (with_max m st) = with_max m <$> purge_outstanding_loop q st.
Proof.
  induction q as [|c q IH]; intros [ep ifc]; cbn [purge_outstanding_loop]; [done|].
  unfold with_max at 1. cbn [fst snd].
  change (upd_tx (set_max_psn m) ep, set_outstanding_q q ifc) with (with_max m (ep, set_outstanding_q q ifc)).
  rewrite ctl_complete_with_max. destruct (uct_ud_iface_ctl_skb_complete _ _ _) as [st1|]; [|done]. apply IH.
Qed.

(** ** Completions *)

(** The completions of a window, in order. *)
Definition comps_of (w : list uct_ud_send_skb_t) : list Z := omap comp w.

Definition with_status (status : ucs_status_t) (cs : list Z) : list (Z * ucs_status_t) := (fun c => (c, status)) <$> cs.

Lemma with_status_app status cs1 cs2 : with_status status (cs1 ++ cs2) = with_status status cs1 ++ with_status status cs2.
Proof. apply fmap_app. Qed.

(** A release calls the completions of what it releases. *)
Lemma release_comps w ack status inval : forall st, window (tx st.1) = w ->
  let st' := window_release_loop w st ack status false inval in
  exists cs, comps_of w = cs ++ comps_of (window (tx st'.1)) /\ comp_log st'.2 = comp_log st.2 ++ with_status status cs /\
    async_comp_q st'.2 = async_comp_q st.2 /\ outstanding_q st'.2 = outstanding_q st.2.
Proof.
  induction w as [|s w IH]; intros [ep ifc] Hw; cbn [window_release_loop fst snd] in *.
  { exists []. cbn. rewrite Hw, app_nil_r. done. }
  destruct (uct_ud_skb_is_completed s ack).
  2:{ exists []. cbn. rewrite Hw, app_nil_r. done. }
  match goal with |- context [window_release_loop w ?st1 _ _ _ _] => set (st1' := st1) end.
  assert (window (tx st1'.1) = w) as Hw1 by (subst st1'; by destruct (inval && _)).
  destruct (IH st1' Hw1) as (cs & E1 & E2 & E3 & E4).
  assert (comp_log st1'.2 = comp_log ifc ++ with_status status (comps_of [s]) /\ async_comp_q st1'.2 = async_comp_q ifc /\
    outstanding_q st1'.2 = outstanding_q ifc) as (F1 & F2 & F3).
  { subst st1'. unfold comps_of, with_status. cbn. by destruct (comp s); cbn; rewrite ?app_nil_r. }
  exists (comps_of [s] ++ cs). rewrite E2, E3, E4, F1, F2, F3, with_status_app, <- !app_assoc, <- E1. split; [|done].
  unfold comps_of. cbn. by destruct (comp s).
Qed.

Lemma comps_of_update id b w : comps_of (update_skb id (set_resending b) w) = comps_of w.
Proof.
  unfold comps_of, update_skb. induction w as [|s w IH]; [done|]. rewrite fmap_cons. cbn. rewrite IH. by destruct (skb_id s =? id).
Qed.

Lemma ctl_complete_comps st c st' : uct_ud_iface_ctl_skb_complete st c false = Some st' ->
  exists cs, comps_of (window (tx st.1)) = cs ++ comps_of (window (tx st'.1)) /\
    comp_log st'.2 = comp_log st.2 ++ with_status UCS_OK cs /\ async_comp_q st'.2 = async_comp_q st.2.
Proof.
  destruct st as [ep ifc]. unfold uct_ud_iface_ctl_skb_complete. intros E. apply bind_Some in E as (ep1 & E1 & E). simplify_eq.
  assert (comps_of (window (tx ep1)) = comps_of (window (tx ep))) as Ec.
  { destruct (resent_skb c) as [id|]; [|by simplify_eq]. apply bind_Some in E1 as ([i s] & _ & E1). destruct (negb _); [done|].
    simplify_eq. apply comps_of_update. }
  unfold uct_ud_ep_window_release_completed, uct_ud_ep_window_release_inline.
  destruct (release_comps (window (tx ep1)) (acked_psn (tx ep1)) UCS_OK true (ep1, ifc) eq_refl) as (cs & C1 & C2 & C3 & _).
  exists cs. cbn [fst snd] in *. by rewrite <- Ec.
Qed.

(** All the outstanding descriptors are completed. *)
Lemma purge_loop_ok cfg self dest n a h ra sent comps q : tx_mp_max cfg <= 2 ^ 14 -> forall st,
  ep_inv cfg self dest n a h ra sent comps st -> outstanding_q st.2 = q ->
  exists st' cs, purge_outstanding_loop q st = Some st' /\ ep_inv cfg self dest n a h ra sent comps st' /\ outstanding_q st'.2 = [] /\
    comps_of (window (tx st.1)) = cs ++ comps_of (window (tx st'.1)) /\
    comp_log st'.2 = comp_log st.2 ++ with_status UCS_OK cs /\ async_comp_q st'.2 = async_comp_q st.2.
Proof.
  intros Hmp. induction q as [|c q IH]; intros [ep ifc] H Eq; cbn [purge_outstanding_loop].
  { exists (ep, ifc), []. cbn [fst snd]. rewrite app_nil_r. done. }
  destruct (ctl_complete_ok _ _ _ Hmp _ _ _ _ _ _ _ _ _ _ false H Eq) as (st1 & E & H1 & _ & Eq1).
  destruct (ctl_complete_comps _ _ _ E) as (cs1 & C1 & C2 & C3). cbn [fst snd] in *.
  rewrite (bind_eq _ _ _ E). destruct (IH st1 H1 Eq1) as (st2 & cs2 & E2 & H2 & Q2 & D1 & D2 & D3).
  exists st2, (cs1 ++ cs2). split; [done|]. split; [done|]. split; [done|].
  rewrite C1, D1, D2, D3, C2, C3, with_status_app, <- !app_assoc. done.
Qed.

(** When everything counts as acknowledged and nothing is being resent, the whole
    window is released. *)
Lemma release_all w ack status : forall st, window (tx st.1) = w -> (forall s, s ∈ w -> uct_ud_skb_is_completed s ack = true) ->
  window_release_loop w st ack status false false =
    (upd_tx (set_window []) st.1, set_comp_log (comp_log st.2 ++ with_status status (comps_of w)) st.2).
Proof.
  induction w as [|s w IH]; intros [ep ifc] Hw Hc; cbn [window_release_loop fst snd] in *.
  { unfold with_status, comps_of. cbn. rewrite app_nil_r. destruct ep as [? ? [] ? ? ? ? ? ? ?], ifc. cbn in Hw. by subst. }
  rewrite Hc by (by left). cbn [andb]. rewrite IH; [|done|intros s' Hs'; apply Hc; by right]. cbn [fst snd].
  f_equal. unfold with_status, comps_of. cbn. destruct (comp s); [|done]. cbn. destruct ifc. cbn. by rewrite <- app_assoc.
Qed.

(** ** Purge *)

Lemma outstanding_none cfg self dest n a h ra sent comps st : ep_inv cfg self dest n a h ra sent comps st -> outstanding_q st.2 = [] ->
  resend_count (tx st.1) = 0 /\ (forall s, s ∈ window (tx st.1) -> uct_ud_skb_is_completed s (u16 (n - 1)) = true).
Proof.
  intros H Eq. destruct (ei_resent _ _ _ _ _ _ _ _ _ _ H) as (_ & Hr & Hc). unfold resent in *. rewrite Eq in *. cbn in *.
  split; [done|]. intros s Hs. destruct (ei_win _ _ _ _ _ _ _ _ _ _ H) as (lo & W & _).
  destruct (ei_window_size _ _ _ _ _ _ _ _ _ _ H) as [Ha Hn], (ei_ca _ _ _ _ _ _ _ _ _ _ H) as [_ Hm].
  unfold UCT_UD_CA_MAX_WINDOW in Hm. destruct (numbered_elem lo _ s Hs) as [k Hk].
  destruct (window_compare _ _ _ _ _ _ _ _ _ W ltac:(lia) ltac:(lia) Hk) as (Hp & _ & Hkn).
  unfold uct_ud_skb_is_completed, psn_le. rewrite Hp, psn_diff_ok by (unfold half; lia).
  rewrite (proj2 (Z.leb_le _ _)) by lia. destruct (resending s) eqn:E; [|done].
  destruct (not_elem_of_nil (skb_id s)). apply Hr. by exists s.
Qed.

Lemma u16_pred x : u16 (u16 x - 1) = u16 (x - 1).
Proof. apply (u_wrap_add_l 16 x (-1)). Qed.

(** The endpoint and the interface after a purge, from those after the completion
    of the outstanding descriptors. *)
Definition purged (n m : Z) (log : list (Z * ucs_status_t)) (st : state) : state :=
  (upd_tx (fun t => set_window [] (set_acked_psn (u16 (n - 1)) (set_ops 0 (set_max_psn m t)))) st.1, set_comp_log log st.2).

Lemma purge_ok cfg self dest n a h ra sent comps st status : tx_mp_max cfg <= 2 ^ 14 -> ep_inv cfg self dest n a h ra sent comps st ->
  exists st1 ra1 cs1 cs2,
    uct_ud_ep_purge st status =
      Some (purged n (u16 (psn (tx st.1) + cwnd (ca st.1)))
              (comp_log st.2 ++ async_comp_q st.2 ++ with_status UCS_OK cs1 ++ with_status status cs2) st1) /\
    ep_inv cfg self dest n a h ra1 sent comps st1 /\ outstanding_q st1.2 = [] /\ async_comp_q st1.2 = [] /\
    comps_of (window (tx st.1)) = cs1 ++ cs2 /\ (forall c, c ∈ cs1 -> exists k, (c, k) ∈ comps /\ k <= a).
Proof.
  intros Hmp H. destruct st as [ep ifc].
  destruct (local_comps_nil _ _ _ _ _ _ _ _ _ _ _ (async_comps_ok _ _ _ _ _ _ _ _ _ _ H)) as (ra' & H0).
  destruct (purge_loop_ok _ _ _ _ _ _ _ _ _ _ Hmp _ H0 eq_refl) as (st1 & cs & E1 & H1 & Q1 & C1 & C2 & C3).
  destruct (outstanding_none _ _ _ _ _ _ _ _ _ _ H1 Q1) as [Hrc Hall].
  unfold uct_ud_ep_purge. unfold uct_ud_iface_dispatch_async_comps in *. cbn [fst snd] in *.
  set (m := u16 (psn (tx ep) + cwnd (ca ep))). set (ifc0 := set_async_comp_q [] _) in *.
  change (uct_ud_ep_reset_max_psn ep, ifc0) with (with_max m (ep, ifc0)). unfold uct_ud_ep_purge_outstanding.
  rewrite purge_loop_with_max. change (outstanding_q (with_max m (ep, ifc0)).2) with (outstanding_q ifc0). rewrite E1.
  destruct st1 as [ep1 ifc1]. cbn [with_max fmap option_fmap option_map mbind option_bind fst snd] in *.
  change (resend_count (tx (upd_tx (set_max_psn m) ep1))) with (resend_count (tx ep1)). rewrite Hrc. cbn [Z.eqb mbind option_bind].
  exists (ep1, ifc1), ra', cs, (comps_of (window (tx ep1))). split.
  2:{ split_and!; try done. intros c Hc. apply (ei_comps _ _ _ _ _ _ _ _ _ _ H1 c UCS_OK). cbn [snd]. rewrite C2.
    apply elem_of_app. left. apply elem_of_app. right. by apply (list_elem_of_fmap_2 (fun c => (c, UCS_OK))). }
  unfold uct_ud_ep_window_release, uct_ud_ep_window_release_inline, with_max. cbn [fst snd].
  assert (psn (tx ep1) = u16 n) as Hpsn by apply (ei_psn _ _ _ _ _ _ _ _ _ _ H1).
  match goal with |- context [window_release_loop (window (tx ?e)) _ ?k _ _ _] =>
    change (window (tx e)) with (window (tx ep1)); change k with (u16 (psn (tx ep1) - 1)) end.
  rewrite Hpsn, u16_pred, release_all; [|done|done]. cbn [fst snd].
  rewrite bool_decide_eq_true_2 by done. f_equal. unfold purged. cbn [fst snd]. f_equal.
  - unfold uct_ud_ep_ctl_op_del, upd_tx. destruct ep1. cbn in *. by rewrite Hpsn, Z.ldiff_diag, u16_pred.
  - f_equal. rewrite C2. cbn. by rewrite <- !app_assoc.
Qed.

(** A purged endpoint has nothing to wait for, and room to send. *)
Lemma purged_flush cfg self dest n a h ra sent comps st m log r now c : tx_mp_max cfg <= 2 ^ 14 ->
  ep_inv cfg self dest n a h ra sent comps st -> outstanding_q st.2 = [] -> async_comp_q st.2 = [] ->
  (exists w, 1 <= w <= UCT_UD_CA_MAX_WINDOW /\ m = u16 (n + w)) ->
  pending_async_ev r = false -> uct_ud_iface_get_tx_skb cfg r (purged n m log st) = true ->
  uct_ud_ep_flush cfg r now (purged n m log st) false c = Some (UCS_OK, purged n m log st).
Proof.
  intros Hmp H Eq Ea (w & Hw & ->) Hr Hskb. destruct st as [ep ifc]. unfold purged in *. cbn [fst snd] in *.
  unfold uct_ud_iface_get_tx_skb in Hskb. apply andb_true_iff in Hskb as [Hskb Hn]. apply andb_true_iff in Hskb as [Hc Hm].
  unfold uct_ud_ep_flush. rewrite Hr. unfold uct_ud_ep_flush_nolock. cbn [fst snd].
  change (uct_ud_ep_is_connected (upd_tx _ ep)) with (uct_ud_ep_is_connected ep). rewrite (connected_ok _ _ _ _ _ _ _ _ _ _ _ H).
  cbn [mbind option_bind negb]. rewrite Hc, Hm, Hn. cbn [negb andb orb].
  unfold uct_ud_ep_no_window, psn_ge. change (psn (tx (upd_tx _ ep))) with (psn (tx ep)). change (max_psn (tx _)) with (u16 (n + w)).
  unfold UCT_UD_CA_MAX_WINDOW in Hw. rewrite (ei_psn _ _ _ _ _ _ _ _ _ _ H : psn (tx ep) = u16 n), psn_diff_ok by (unfold half; lia).
  rewrite (proj2 (Z.leb_gt _ _)) by lia. cbn [window tx upd_tx set_tx set_window async_comp_q set_comp_log]. rewrite Ea.
  rewrite !bool_decide_eq_true_2 by done. cbn [andb]. destruct (outstanding_none _ _ _ _ _ _ _ _ _ _ H Eq) as [Hrc _].
  cbn [fst] in Hrc. change (resend_count _) with (resend_count (tx ep)). rewrite Hrc.
  cbn [Z.eqb negb mbind option_bind fst]. by rewrite bool_decide_eq_true_2.
Qed.

(** C20: A purge never fails, whatever the endpoint has sent, lost and is resending.
    Afterwards the window, the outstanding descriptors and the control operations
    are gone.  Every completion that was waiting was called exactly once and in
    order: a first part with success, and the peer has received what these wait
    for; the rest with the status of the purge.  A flush then returns success at
    once if there are resources. *)
Theorem ud_purge (cfga cfgb : config) (ida idb : Z) (es : list event) (p : pair) (status : ucs_status_t) :
  valid cfga cfgb ida idb = true -> execution cfga cfgb ida idb es = Some p ->
  exists st' cs1 cs2, uct_ud_ep_purge (ns p.1) status = Some st' /\
    window (tx st'.1) = [] /\ outstanding_q st'.2 = [] /\ async_comp_q st'.2 = [] /\ ops (tx st'.1) = 0 /\ resend_count (tx st'.1) = 0 /\
    omap comp (window (tx (ns p.1).1)) = cs1 ++ cs2 /\
    comp_log st'.2 = comp_log (ns p.1).2 ++ async_comp_q (ns p.1).2 ++ with_status UCS_OK cs1 ++ with_status status cs2 /\
    (forall c, c ∈ cs1 -> exists k, (c, k) ∈ comps p.1 /\ k <= Z.of_nat (length (rx_log (ns p.2).2))) /\
    (forall r now c, pending_async_ev r = false -> uct_ud_iface_get_tx_skb (ncfg p.1) r st' = true ->
       uct_ud_ep_flush (ncfg p.1) r now st' false c = Some (UCS_OK, st')).
Proof.
  intros Hv E. destruct (execution_inv _ _ _ _ _ _ Hv E) as (self & dest & n & a & h & ra & nb & ab & hb & rab & N1 & N2 & L & _).
  pose proof (ni_cfg _ _ _ _ _ _ _ N1) as Hmp. pose proof (ni_ep _ _ _ _ _ _ _ N1) as H.
  destruct (purge_ok _ _ _ _ _ _ _ _ _ _ status Hmp H) as (st1 & ra1 & cs1 & cs2 & E1 & H1 & Eq & Ea & Ec & Hcs).
  destruct (outstanding_none _ _ _ _ _ _ _ _ _ _ H1 Eq) as [Hrc _].
  eexists _, cs1, cs2. split; [exact E1|]. split_and!; try done.
  - intros c (k & Hk & Hka)%Hcs. exists k. split; [done|]. rewrite (ni_rcvd _ _ _ _ _ _ _ N2).
    pose proof (ei_ra _ _ _ _ _ _ _ _ _ _ (ni_ep _ _ _ _ _ _ _ N2)). pose proof (li_acked _ _ _ _ _ _ L). lia.
  - intros r now c Hr Hskb. eapply purged_flush; try done.
    destruct (ei_ca _ _ _ _ _ _ _ _ _ _ H) as [Hw Hm]. exists (cwnd (ca (ns p.1).1)).
    split; [lia|]. rewrite (ei_psn _ _ _ _ _ _ _ _ _ _ H). apply u_wrap_add_l.
Qed.

(** The purge while both messages of the example are being resent. *)
Lemma ud_purge_witness : exists p, execution example_config example_config 3 4 (take 7 example_events) = Some p /\
  exists st' cs1 cs2, uct_ud_ep_purge (ns p.1) UCS_ERR_ENDPOINT_TIMEOUT = Some st' /\ window (tx st'.1) = [] /\ cs1 ++ cs2 = [77].
Proof.
  eexists. split; [vm_compute; reflexivity|].
  destruct (ud_purge example_config example_config 3 4 (take 7 example_events) _ UCS_ERR_ENDPOINT_TIMEOUT eq_refl
    ltac:(vm_compute; reflexivity)) as (st' & cs1 & cs2 & E & Hw & _ & _ & _ & _ & Hc & _).
  exists st', cs1, cs2. split; [exact E|]. split; [exact Hw|]. rewrite <- Hc. reflexivity.
Defined.

End UdPurge.
